(* ===== verification/_CoqProject ===== *)
-Q . S2P
Prelude.v
Ring.v
Mem.v
Str.v
Spinlock.v
Kalloc.v
Vm.v
VmSpec.v
VmUser.v
VmCopy.v
VmProps.v
VmFree.v
Virtio.v
VirtioProps.v
VirtioInit.v
Bio.v
BioSpec.v
BCache.v
Log.v
LogSpec.v
LogProps.v
UserMem.v
Pipe.v
Console.v
Uart.v
Bytes.v
Blocks.v
Fs.v
FsSpec.v
FsFile.v
FsIO.v
FsProps.v
DirProps.v
Mkfs.v
MkfsSpec.v
MkfsProps.v
Usys.v
Ulib.v
Uprintf.v
Kprintf.v
Grep.v
UserProgs.v
EAFITos.v
Umalloc.v
Sh.v
ShProps.v
ShRun.v
Init.v
Kern.v
Kvm.v
Hart.v
Asm.v
AsmSpec.v
TrapHart.v
TrapPath.v
KernPath.v
Sched.v
KernSpec.v
KInv.v
File.v
ProcLife.v
TrapProps.v
Sysfile.v
Exec.v
Sysproc.v
Trap.v
Boot.v
KInvOps.v
KInvCalls.v
KInvProc.v
KInvTrap.v
SchedProps.v
KernProps.v
MmapProps.v
FileProps.v
FaultProps.v
ExecProps.v
ExecLoad.v
