(* ===== verification/Prelude.v ===== *)
(** * A verification of an xv6 kernel and its user programs

    The program is a fork of xv6-riscv: the kernel (kernel/) with lazy
    allocation, mmap()/munmap(), mapzero(), map_ro(), trace() and dumpvm()
    added (src/utils/memory/), the user programs (user/), the EAFITos shell
    (src/utils/apps/) and the builder of the disk image (mkfs/).  This library
    translates them into functions and proves what makes each part correct.

    ** The language of the model

    C integers are elements of [Z] with their wrap-around written out ([u8],
    [u32], [s32], [u64], ...).  A C function is a state transformer [M S A]
    with four outcomes: it returns ([Ok]), it panics ([Panic]), it waits for
    another thread ([Blocked]), or the model's fuel is exhausted ([NoFuel]).
    [wp] is total correctness: the function returns, and the result is as
    stated; it excludes panics, waiting and exhausted fuel, so that fuel never
    weakens a theorem.  [wlp] is partial correctness, used for invariants of
    whole system calls.  Fuel is given where a loop of the source is not
    structural, as the number of turns the source can make (pages of a range,
    blocks of a file, characters of a line); the [wp] theorems show that it is
    enough.  A function that sleeps is cut at sleep(): a segment returns
    [Slept] and is called again when the process is woken.  A lock is seen by
    one thread as free, its own or somebody else's; Spinlock relates this
    view to the fields of struct spinlock and to the interleaving of
    instructions of several CPUs.  Code that is not in the repository or is
    hardware (device switch, disk, interrupt controller, memory layout of the
    linker script, addresses of symbols) is an argument: [Devices],
    [VirtioDev], [PlicDev], [Layout], [Symbols].  The processor itself is
    modelled where the code depends on it: registers, control registers,
    privilege modes, address translation and the instructions of the assembly
    files (Hart, Asm).

    ** Files, from the bottom up

    - Prelude: the monad, [wp] and [wlp], C integers, shared lemmas.
    - Ring: a ring buffer between two counters, as the list it holds.
    - Mem, Str: byte memory; kernel/string.c.
    - Spinlock: kernel/spinlock.c and sleeplock.c; mutual exclusion in every
      interleaving of any number of CPUs, and the refinement to [lockst].
    - Kalloc: kernel/kalloc.c; the free list threaded through free pages, no
      page handed out twice.
    - Vm, VmSpec, VmUser, VmCopy, VmProps, VmFree: kernel/vm.c; page tables
      as trees in memory, with the exact effect of mappages, uvmunmap,
      uvmalloc, uvmcopy (fork), and copyin/copyout/copyinstr with lazy
      allocation; allocation fails only when memory is short, no page is ever
      lost, and uvmfree() gives back every page of an address space.
    - UserMem: the interface of user memory ([UserMem], [UserMemOk]) that
      files and pipes are proved against, implemented by Vm.
    - Virtio, VirtioProps, VirtioInit: kernel/virtio_disk.c; requests and interrupts
      interleaved with the device ([VirtioDev]): the data moved are the right
      ones, no panic, no descriptor leaked, no completion lost.  This is the
      contract [disk_rw] that the buffer cache is written against.  The
      handshake of virtio_disk_init() follows the protocol of the device.
    - Bio, BioSpec, BCache: kernel/bio.c; the buffer cache with its LRU list.
    - Log, LogSpec, LogProps: kernel/log.c; a crash at any point of a commit
      leaves, after recovery, all of the transaction or none of it.
    - Pipe: kernel/pipe.c; FIFO in every interleaving, no lost wakeup.
    - Console: kernel/console.c; the ring buffer implements a line editor,
      reads deliver its lines, and a failed copy leaves the lock held.
    - Uart: kernel/uart.c; writers, polling output, interrupts and the device
      interleaved: no byte lost, every sleeper woken; input to the console.
    - Bytes, Blocks: on-disk records; the interface [Blocks]/[BlocksOk] of the
      block layer, implemented by the log.
    - Fs, FsSpec, FsFile, FsIO, FsProps, DirProps: kernel/fs.c; allocation of
      blocks, bmap, readi and writei with the round trip, and directories as
      finite maps from names to inode numbers.
    - Mkfs, MkfsSpec, MkfsProps: mkfs/mkfs.c; the image that the build puts on
      the disk is well formed in the sense of Fs, and the kernel reads from it
      the files of the host.
    - Usys, Ulib, Uprintf, Grep, UserProgs, EAFITos: the user side, against
      the interface [Sys]/[SysOk] of the system calls: ulib.c, printf.c,
      grep.c (its matcher decides the language of the pattern), small
      programs, and the EAFITos shell.
    - Kprintf: kernel/printf.c; printf() prints the text of its format, and
      panic() its message whoever holds the lock.
    - Umalloc: user/umalloc.c; the circular free list of malloc() and free()
      in the memory of the process, and what goes wrong for huge sizes.
    - Sh, ShProps, ShRun: user/sh.c; the parser inverts printing and always
      terminates, and runcmd() starts the programs a command denotes with
      the descriptors that its redirections and pipes describe.
    - Init: user/init.c; it reaps orphans and restarts the shell for ever.
    - Kvm: the kernel's page table (kvmmake() and proc_mapstacks()) from boot:
      what is mapped, guard pages, no page writable and executable.
    - Hart, Asm, AsmSpec: the registers of a core and the instructions of
      trampoline.S, swtch.S, kernelvec.S and entry.S, executed on a core with
      Sv39 translation.
    - TrapHart, TrapPath, KernPath, TrapProps: the register side of trap.c
      (usertrap, prepare_return, kerneltrap, the end of forkret); a trap from
      user space and the return from it, interrupts of kernel code, context
      switches and the first return of a new process keep exactly the
      registers they should.
    - Boot: start.c, main.c and plic.c; each core from reset to the scheduler,
      in every interleaving of the cores.
    - Kern: struct file, struct proc and the rest of the kernel's state.
    - Sched, KernSpec, SchedProps: scheduling in kernel/proc.c (sched, yield,
      sleep, wakeup, kill, scheduler); no lost wakeup, fairness of a pass.
    - File, ProcLife, Sysfile, Exec, Sysproc, Trap: kernel/file.c, the life
      of processes in proc.c, sysfile.c, exec.c, sysproc.c,
      memory_syscalls.c, and trap.c with the system-call table.
    - KInv, KInvOps, KInvCalls, KInvProc, KInvTrap, KernProps: the invariant
      of the process and file tables (exact reference counts, distinct pids,
      dead processes hold nothing) over every run of the kernel from boot.
    - MmapProps, FileProps, FaultProps: mmap() and sbrk(); read() of an open
      file; the page fault that brings in a page of a mapped file.
    - ExecLoad, ExecProps: the two halves of exec(): loading a program from
      any file, and the switch to it with its stack and arguments, or back.

    ** Not modelled

    The translation cache, the accessed and dirty bits of page table entries
    and physical memory protection beyond the one region that start() sets.
    The first part of forkret() (it calls fsinit() and kexec(), which are
    modelled) and procdump(), which prints the process table for debugging.
    The initialisation of locks that start free (fileinit, printfinit,
    trapinit) and of the device table (consoleinit).  Of the user library,
    start() and the wrappers of sbrk(); its strlen, memcmp and memcpy are
    those of kernel/string.c.  The system call stubs, which a script
    generates: user programs are proved against the interface [Sys].  The
    test programs (usertests, grind, the programs of src/utils/memory/ and
    the like), which exercise the kernel and have no contract of their
    own. *)
From Stdlib Require Export ZArith Lia.
From stdpp Require Export base numbers strings gmap list.
#[global] Open Scope Z_scope.

(** * C integers

    An integer of width [w] is the [Z] it denotes; the conversions below
    are the wrap-around C applies when a value is stored at that width. *)

Definition u8 (x : Z) : Z := x mod 2 ^ 8.
Definition u16 (x : Z) : Z := x mod 2 ^ 16.
Definition u32 (x : Z) : Z := x mod 2 ^ 32.
Definition u64 (x : Z) : Z := x mod 2 ^ 64.
Definition s8 (x : Z) : Z := (x + 2 ^ 7) mod 2 ^ 8 - 2 ^ 7.
Definition s16 (x : Z) : Z := (x + 2 ^ 15) mod 2 ^ 16 - 2 ^ 15.
Definition s32 (x : Z) : Z := (x + 2 ^ 31) mod 2 ^ 32 - 2 ^ 31.
Definition s64 (x : Z) : Z := (x + 2 ^ 63) mod 2 ^ 64 - 2 ^ 63.

(** * Outcomes and the kernel monad

    A C function is a state transformer with four ways to end: it returns
    ([Ok]), it calls panic() ([Panic]: xv6 prints the message and spins
    forever), it waits for another thread, spinning on a held lock or
    sleeping ([Blocked]), or the model ran out of the fuel of one of its
    loops ([NoFuel], which the termination theorems exclude). *)

Inductive outcome (S A : Type) : Type :=
| Ok (a : A) (s : S)
| Panic (msg : string)
| Blocked (s : S)
| NoFuel.
Arguments Ok {S A} a s.
Arguments Panic {S A} msg.
Arguments Blocked {S A} s.
Arguments NoFuel {S A}.

Definition M (S A : Type) : Type := S -> outcome S A.

Definition ret {S A} (a : A) : M S A := fun s => Ok a s.
Definition bind {S A B} (m : M S A) (k : A -> M S B) : M S B := fun s =>
  match m s with
  | Ok a s' => k a s'
  | Panic msg => Panic msg
  | Blocked s' => Blocked s'
  | NoFuel => NoFuel
  end.
Definition panic {S A} (msg : string) : M S A := fun _ => Panic msg.
Definition block {S A} : M S A := fun s => Blocked s.
Definition nofuel {S A} : M S A := fun _ => NoFuel.
Definition gets {S A} (f : S -> A) : M S A := fun s => Ok (f s) s.
Definition modify {S} (f : S -> S) : M S unit := fun s => Ok tt (f s).

(** Run an operation of a component on its part of a larger state. *)
Definition zoom {S T A} (get : S -> T) (put : T -> S -> S) (m : M T A) : M S A :=
  fun s => match m (get s) with
  | Ok a t => Ok a (put t s)
  | Panic msg => Panic msg
  | Blocked t => Blocked (put t s)
  | NoFuel => NoFuel
  end.

Declare Scope krn_scope.
Delimit Scope krn_scope with krn.
#[global] Open Scope krn_scope.
Notation "'let!' x := m 'in' k" := (bind m (fun x => k))
  (at level 10, x pattern, m at level 100, k at level 200) : krn_scope.
Notation "m ';;' k" := (bind m (fun _ => k))
  (at level 100, k at level 200, right associativity) : krn_scope.

(** ** Total-correctness judgement

    [wp m Q s]: run from [s], [m] returns (no panic, no waiting, no fuel
    exhaustion) and its result and final state satisfy [Q]. *)

Definition wp {S A} (m : M S A) (Q : A -> S -> Prop) (s : S) : Prop :=
  match m s with Ok a s' => Q a s' | _ => False end.

Section wp.
Context {S : Type}.

Lemma wp_bind {A B} (m : M S A) (k : A -> M S B) Q s :
  wp (bind m k) Q s = wp m (fun a s' => wp (k a) Q s') s.
Proof. unfold wp, bind. by destruct (m s). Qed.

Lemma wp_ret {A} (a : A) (Q : A -> S -> Prop) s : wp (ret a) Q s = Q a s.
Proof. done. Qed.

Lemma wp_gets {A} (f : S -> A) Q s : wp (gets f) Q s = Q (f s) s.
Proof. done. Qed.

Lemma wp_modify (f : S -> S) Q s : wp (modify f) Q s = Q tt (f s).
Proof. done. Qed.

Lemma wp_zoom {T A} (get : S -> T) put (m : M T A) Q s :
  wp (zoom get put m) Q s = wp m (fun a t => Q a (put t s)) (get s).
Proof. unfold wp, zoom. by destruct (m (get s)). Qed.

Lemma wp_mono {A} (m : M S A) (Q Q' : A -> S -> Prop) s :
  wp m Q s -> (forall a s', Q a s' -> Q' a s') -> wp m Q' s.
Proof. unfold wp. destruct (m s); naive_solver. Qed.

Lemma wp_and {A} (m : M S A) (Q Q' : A -> S -> Prop) s :
  wp m Q s -> wp m Q' s -> wp m (fun a s' => Q a s' /\ Q' a s') s.
Proof. unfold wp. destruct (m s); naive_solver. Qed.

Lemma wp_ok {A} (m : M S A) Q s :
  wp m Q s -> exists a s', m s = Ok a s' /\ Q a s'.
Proof. unfold wp. destruct (m s); naive_solver. Qed.

Lemma wp_of_ok {A} (m : M S A) (Q : A -> S -> Prop) s a s' :
  m s = Ok a s' -> Q a s' -> wp m Q s.
Proof. unfold wp. by intros ->. Qed.

End wp.

Create Rewrite HintDb wp.
#[export] Hint Rewrite @wp_bind @wp_ret @wp_gets @wp_modify @wp_zoom : wp.

(** Push [wp] through the monad operations at the head of the goal. *)
Ltac wp_simp := repeat (progress (autorewrite with wp; cbn beta iota)).

(** Use a proved specification for the next call. *)
Tactic Notation "wp_use" uconstr(lem) "as" simple_intropattern(pat) :=
  eapply wp_mono; [eapply lem | intros ? ? pat].

(** ** Locks seen by one thread

    Handlers run between an acquire() and a release().  For the thread
    that runs it, a spin lock is free, its own, or somebody else's.
    [Spinlock] relates this view to the fields of struct spinlock. *)

Inductive lockst := Free | Mine | Theirs.
#[global] Instance lockst_eq_dec : EqDecision lockst.
Proof. solve_decision. Defined.

Section lock.
Context {S : Type} (get : S -> lockst) (set : lockst -> S -> S).

Definition lock_acquire : M S unit :=
  let! l := gets get in
  match l with
  | Free => modify (set Mine)
  | Mine => panic "acquire"
  | Theirs => block
  end.

Definition lock_release : M S unit :=
  let! l := gets get in
  match l with
  | Mine => modify (set Free)
  | Free | Theirs => panic "release"
  end.

Lemma wp_lock_acquire Q s : get s = Free -> Q tt (set Mine s) -> wp lock_acquire Q s.
Proof. intros Hg HQ. unfold lock_acquire. wp_simp. by rewrite Hg. Qed.

Lemma wp_lock_release Q s : get s = Mine -> Q tt (set Free s) -> wp lock_release Q s.
Proof. intros Hg HQ. unfold lock_release. wp_simp. by rewrite Hg. Qed.

End lock.

(** ** Partial correctness

    [wlp m Q s]: if [m] returns from [s], its result and final state satisfy
    [Q].  Used for invariants of operations whose other components may panic
    or wait for reasons of their own. *)

Definition wlp {S A} (m : M S A) (Q : A -> S -> Prop) (s : S) : Prop :=
  match m s with Ok a s' => Q a s' | _ => True end.

Section wlp.
Context {S : Type}.

Lemma wlp_bind {A B} (m : M S A) (k : A -> M S B) Q s :
  wlp (bind m k) Q s = wlp m (fun a s' => wlp (k a) Q s') s.
Proof. unfold wlp, bind. by destruct (m s). Qed.
Lemma wlp_ret {A} (a : A) (Q : A -> S -> Prop) s : wlp (ret a) Q s = Q a s.
Proof. done. Qed.
Lemma wlp_gets {A} (f : S -> A) Q s : wlp (gets f) Q s = Q (f s) s.
Proof. done. Qed.
Lemma wlp_modify (f : S -> S) Q s : wlp (modify f) Q s = Q tt (f s).
Proof. done. Qed.
Lemma wlp_panic {A} msg (Q : A -> S -> Prop) s : wlp (panic msg) Q s.
Proof. done. Qed.
Lemma wlp_mono {A} (m : M S A) (Q Q' : A -> S -> Prop) s :
  wlp m Q s -> (forall a s', Q a s' -> Q' a s') -> wlp m Q' s.
Proof. unfold wlp. destruct (m s); naive_solver. Qed.
Lemma wlp_and {A} (m : M S A) (Q Q' : A -> S -> Prop) s :
  wlp m Q s -> wlp m Q' s -> wlp m (fun a s' => Q a s' /\ Q' a s') s.
Proof. unfold wlp. destruct (m s); naive_solver. Qed.
Lemma wlp_zoom {T A} (get : S -> T) put (m : M T A) Q s :
  (forall a t, Q a (put t s)) -> wlp (zoom get put m) Q s.
Proof. unfold wlp, zoom. destruct (m (get s)); auto. Qed.
Lemma wlp_ok {A} (m : M S A) Q s a s' : wlp m Q s -> m s = Ok a s' -> Q a s'.
Proof. unfold wlp. intros H E. by rewrite E in H. Qed.
Lemma wlp_of {A} (m : M S A) (Q : A -> S -> Prop) s : (forall a s', m s = Ok a s' -> Q a s') -> wlp m Q s.
Proof. unfold wlp. destruct (m s); auto. Qed.
Lemma wp_wlp {A} (m : M S A) Q s : wp m Q s -> wlp m Q s.
Proof. unfold wp, wlp. by destruct (m s). Qed.
Lemma wlp_acquire get set (Q : unit -> S -> Prop) s : (get s = Free -> Q tt (set Mine s)) -> wlp (lock_acquire get set) Q s.
Proof. unfold wlp, lock_acquire, bind, gets, modify, panic, block. destruct (get s); auto. Qed.
Lemma wlp_release get set (Q : unit -> S -> Prop) s : (get s = Mine -> Q tt (set Free s)) -> wlp (lock_release get set) Q s.
Proof. unfold wlp, lock_release, bind, gets, modify, panic. destruct (get s); auto. Qed.

End wlp.

Create Rewrite HintDb wlp.
#[export] Hint Rewrite @wlp_bind @wlp_ret @wlp_gets @wlp_modify : wlp.
Ltac wlp_simp := repeat (progress (autorewrite with wlp; cbn beta iota)).

(** * Generic lemmas *)

Lemma u64_small x : 0 <= x < 2 ^ 64 -> u64 x = x.
Proof. apply Z.mod_small. Qed.
Lemma u32_small x : 0 <= x < 2 ^ 32 -> u32 x = x.
Proof. apply Z.mod_small. Qed.
Lemma u8_small x : 0 <= x < 2 ^ 8 -> u8 x = x.
Proof. apply Z.mod_small. Qed.
Lemma u64_range x : 0 <= u64 x < 2 ^ 64.
Proof. by apply Z.mod_pos_bound. Qed.
Lemma u32_range x : 0 <= u32 x < 2 ^ 32.
Proof. by apply Z.mod_pos_bound. Qed.
Lemma u8_range x : 0 <= u8 x < 2 ^ 8.
Proof. by apply Z.mod_pos_bound. Qed.
Lemma u8_u8 x : u8 (u8 x) = u8 x.
Proof. apply Z.mod_mod. lia. Qed.
Lemma s32_small x : - 2 ^ 31 <= x < 2 ^ 31 -> s32 x = x.
Proof. intros H. unfold s32. rewrite Z.mod_small; lia. Qed.
Lemma s64_small x : - 2 ^ 63 <= x < 2 ^ 63 -> s64 x = x.
Proof. intros H. unfold s64. rewrite Z.mod_small; lia. Qed.

Create Rewrite HintDb cint.
#[export] Hint Rewrite u64_small u32_small u8_small s32_small s64_small using lia : cint.

Lemma not_both (a a' b b' : Z) : ~ (a = a' /\ b = b') -> a <> a' \/ b <> b'.
Proof. lia. Qed.

(** Split every comparison on [Z] that decides a branch of the goal. *)
Ltac zcases :=
  repeat (match goal with
  | |- context [?a =? ?b] => destruct (Z.eqb_spec a b)
  | |- context [?a <? ?b] => destruct (Z.ltb_spec a b)
  | |- context [?a <=? ?b] => destruct (Z.leb_spec a b)
  end; simpl in *; try lia).

(** A flag test [x & 2^k] as a bit test. *)
Lemma land_pow2_testbit x k : 0 <= k -> (Z.land x (2 ^ k) =? 0) = negb (Z.testbit x k).
Proof.
  intros Hk. destruct (Z.testbit x k) eqn:E; simpl.
  - apply Z.eqb_neq. intros H0. apply (f_equal (fun z => Z.testbit z k)) in H0.
    rewrite Z.land_spec, E, Z.pow2_bits_true, Z.bits_0 in H0 by lia. done.
  - apply Z.eqb_eq. apply Z.bits_inj'. intros i Hi.
    rewrite Z.land_spec, Z.pow2_bits_eqb, Z.bits_0 by lia.
    destruct (Z.eqb_spec k i) as [->|]; [by rewrite E|by rewrite andb_false_r].
Qed.
