(* ===== verification/Ring.v ===== *)
(** Ring buffers with free-running indices.

    The kernel's queues keep two counters that wrap around at a machine
    width [W] and use them modulo the size [N] of the buffer.  Where [N]
    divides [W], the entries between the counters are a list: pushing at the
    end appends, popping at the front takes the head. *)
From S2P Require Import Prelude.

Section ring.
Context {A : Type} (d : A) (W N : Z).

Definition slot (buf : list A) (i : Z) : A := default d (buf !! Z.to_nat (i mod N)).
Definition wlen (a b : Z) : Z := (b - a) mod W.
(** The entries from [a] up to [b]. *)
Definition window (buf : list A) (a b : Z) : list A := (fun j => slot buf (a + Z.of_nat j)) <$> seq 0 (Z.to_nat (wlen a b)).

Context (HN : 0 < N) (HNW : N < W) (Hdiv : (N | W)).

Lemma mod_mod a : (a mod W) mod N = a mod N.
Proof. by apply Z.mod_mod_divide. Qed.
Lemma wlen_range a b : 0 <= wlen a b < W.
Proof. apply Z.mod_pos_bound. lia. Qed.
Lemma window_length buf a b : Z.of_nat (length (window buf a b)) = wlen a b.
Proof. unfold window. rewrite length_fmap, length_seq. pose proof (wlen_range a b). lia. Qed.
Lemma wlen_push a b : wlen a b < W - 1 -> wlen a ((b + 1) mod W) = wlen a b + 1.
Proof.
  intros H. unfold wlen in *. rewrite Zminus_mod_idemp_l. replace (b + 1 - a) with (b - a + 1) by lia. rewrite <- Zplus_mod_idemp_l. apply Z.mod_small. pose proof (wlen_range a b). unfold wlen in *. lia.
Qed.
Lemma wlen_pop a b : 0 < wlen a b -> wlen ((a + 1) mod W) b = wlen a b - 1.
Proof.
  intros H. unfold wlen in *. rewrite Zminus_mod_idemp_r. replace (b - (a + 1)) with (b - a - 1) by lia. rewrite <- Zminus_mod_idemp_l. apply Z.mod_small. pose proof (wlen_range a b). unfold wlen in *. lia.
Qed.
Lemma wlen_0 a b : 0 <= a < W -> 0 <= b < W -> wlen a b = 0 <-> a = b.
Proof.
  intros Ha Hb. unfold wlen. split; [|intros ->; by rewrite Z.sub_diag, Z.mod_0_l by lia]. intros H. pose proof (Z.div_mod (b - a) W ltac:(lia)) as E. rewrite H in E.
  assert ((b - a) / W = 0 \/ (b - a) / W >= 1 \/ (b - a) / W <= -1) as [E'|[E'|E']] by lia; [rewrite E' in E; lia|nia|nia].
Qed.
Lemma slot_mod buf i j : i mod N = j mod N -> slot buf i = slot buf j.
Proof. unfold slot. by intros ->. Qed.

(** The slot after the last entry. *)
Lemma end_slot_mod a b : (a + wlen a b) mod N = b mod N.
Proof. unfold wlen. rewrite <- Zplus_mod_idemp_r, mod_mod, Zplus_mod_idemp_r. f_equal. lia. Qed.

Lemma window_push buf a b x : Z.of_nat (length buf) = N -> wlen a b < N ->
  window (<[Z.to_nat (b mod N) := x]> buf) a ((b + 1) mod W) = window buf a b ++ [x].
Proof.
  intros Hlen Hw. pose proof (wlen_range a b) as Hr. unfold window. rewrite wlen_push by lia. replace (Z.to_nat (wlen a b + 1)) with (Z.to_nat (wlen a b) + 1)%nat by lia.
  rewrite seq_app, fmap_app. cbn [seq fmap list_fmap Nat.add]. assert (Bd : forall y, 0 <= y mod N < N) by (intros y; by apply Z.mod_pos_bound). f_equal.
  - apply list_fmap_ext. intros i k Hk. apply lookup_seq in Hk as [-> Hk]. unfold slot. rewrite list_lookup_insert_ne; [done|]. rewrite <- (end_slot_mod a b). intros E. apply Z2Nat.inj in E; [|apply Bd..].
    pose proof (Z.div_mod (a + wlen a b) N ltac:(lia)) as E1. pose proof (Z.div_mod (a + Z.of_nat (0 + i)) N ltac:(lia)) as E2. rewrite E in E1.
    clear E. revert E1 E2. rewrite Nat.add_0_l. generalize ((a + wlen a b) / N) ((a + Z.of_nat i) / N) ((a + Z.of_nat i) mod N). intros q1 q2 r E1 E2.
    assert (Hq : N * (q1 - q2) = wlen a b - Z.of_nat i) by lia. assert (q1 - q2 <= 0 \/ 1 <= q1 - q2) as [Hq'|Hq'] by lia; nia.
  - f_equal. unfold slot. rewrite Z2Nat.id by lia. rewrite end_slot_mod, list_lookup_insert_eq; [done|]. pose proof (Bd b). lia.
Qed.
Lemma window_pop buf a b : 0 < wlen a b -> window buf a b = slot buf a :: window buf ((a + 1) mod W) b.
Proof.
  intros H. unfold window. rewrite wlen_pop by done. replace (Z.to_nat (wlen a b)) with (S (Z.to_nat (wlen a b - 1))) by lia. cbn [seq]. rewrite fmap_cons. f_equal; [f_equal; lia|].
  rewrite <- fmap_S_seq, <- list_fmap_compose. apply list_fmap_ext. intros i k _. cbn [compose]. apply slot_mod. rewrite <- (Zplus_mod_idemp_l ((a + 1) mod W)), mod_mod, Zplus_mod_idemp_l. f_equal. lia.
Qed.
Lemma window_nil buf a b : wlen a b = 0 -> window buf a b = [].
Proof. unfold window. by intros ->. Qed.
End ring.
