(* ===== verification/Mem.v ===== *)
(** Byte-addressed memory.

    The kernel's physical memory, which also holds page tables, free-list
    links and user pages, is a finite map from addresses to bytes; a C
    object of several bytes is stored little-endian, as RISC-V does. *)
From S2P Require Import Prelude.

Abbreviation mem := (gmap Z Z).

(** An absent address reads as 0, and a read yields 8 bits. *)
Definition ld8 (m : mem) (a : Z) : Z := u8 (default 0 (m !! a)).
Definition st8 (m : mem) (a v : Z) : mem := <[a := u8 v]> m.

Fixpoint ld_bytes (m : mem) (a : Z) (n : nat) : list Z :=
  match n with
  | O => []
  | S n => ld8 m a :: ld_bytes m (a + 1) n
  end.
Fixpoint st_bytes (m : mem) (a : Z) (bs : list Z) : mem :=
  match bs with
  | [] => m
  | b :: bs => st_bytes (st8 m a b) (a + 1) bs
  end.

Fixpoint le_decode (bs : list Z) : Z :=
  match bs with
  | [] => 0
  | b :: bs => b + 2 ^ 8 * le_decode bs
  end.
Fixpoint le_encode (n : nat) (v : Z) : list Z :=
  match n with
  | O => []
  | S n => u8 v :: le_encode n (v / 2 ^ 8)
  end.

Definition ld64 (m : mem) (a : Z) : Z := le_decode (ld_bytes m a 8).
Definition st64 (m : mem) (a v : Z) : mem := st_bytes m a (le_encode 8 v).

(** * Little-endian encoding *)

Definition byte_list (bs : list Z) : Prop := Forall (fun b => 0 <= b < 2 ^ 8) bs.

Lemma length_le_encode n v : length (le_encode n v) = n.
Proof. revert v. induction n; intros v; simpl; [done|by rewrite IHn]. Qed.

Lemma le_encode_bytes n v : byte_list (le_encode n v).
Proof.
  revert v. induction n; intros v; simpl; constructor; [apply u8_range|apply IHn].
Qed.

Lemma le_decode_range bs : byte_list bs -> 0 <= le_decode bs < 2 ^ (8 * Z.of_nat (length bs)).
Proof.
  induction 1 as [|b bs Hb _ IH]; simpl le_decode; [simpl; lia|].
  simpl length. replace (8 * Z.of_nat (S (length bs))) with (8 + 8 * Z.of_nat (length bs)) by lia.
  rewrite Z.pow_add_r by lia. lia.
Qed.

Lemma le_decode_encode n v : le_decode (le_encode n v) = v mod 2 ^ (8 * Z.of_nat n).
Proof.
  revert v. induction n as [|n IH]; intros v; [simpl; by rewrite Z.mod_1_r|].
  simpl le_decode. rewrite IH. unfold u8.
  replace (8 * Z.of_nat (S n)) with (8 + 8 * Z.of_nat n) by lia.
  rewrite Z.pow_add_r by lia. rewrite Z.rem_mul_r by lia. lia.
Qed.

Lemma le_encode_decode bs : byte_list bs -> le_encode (length bs) (le_decode bs) = bs.
Proof.
  induction 1 as [|b bs Hb _ IH]; simpl; [done|].
  f_equal.
  - unfold u8. rewrite Z.mul_comm, Z.mod_add by lia. by apply Z.mod_small.
  - rewrite Z.mul_comm, Z.div_add, Z.div_small by lia. by rewrite Z.add_0_l.
Qed.

(** * Reads after writes *)

Lemma ld8_range m a : 0 <= ld8 m a < 2 ^ 8.
Proof. apply u8_range. Qed.

Lemma ld8_st8 m a v x : ld8 (st8 m a v) x = if x =? a then u8 v else ld8 m x.
Proof.
  unfold ld8, st8. destruct (Z.eqb_spec x a) as [->|Hne].
  - rewrite lookup_insert_eq. apply u8_u8.
  - by rewrite lookup_insert_ne.
Qed.

Lemma length_ld_bytes m a n : length (ld_bytes m a n) = n.
Proof. revert a. induction n; intros a; simpl; [done|by rewrite IHn]. Qed.

Lemma ld_bytes_byte_list m a n : byte_list (ld_bytes m a n).
Proof. revert a. induction n; intros a; simpl; constructor; [apply ld8_range|apply IHn]. Qed.

Lemma lookup_ld_bytes m a n i :
  (i < n)%nat -> ld_bytes m a n !! i = Some (ld8 m (a + Z.of_nat i)).
Proof.
  revert a i. induction n as [|n IH]; intros a i Hi; [lia|].
  destruct i as [|i]; simpl; [do 2 f_equal; lia|].
  rewrite IH by lia. do 2 f_equal. lia.
Qed.

Lemma ld_bytes_ext m m' a n :
  (forall x, a <= x < a + Z.of_nat n -> ld8 m x = ld8 m' x) ->
  ld_bytes m a n = ld_bytes m' a n.
Proof.
  revert a. induction n as [|n IH]; intros a H; simpl; [done|].
  f_equal; [apply H; lia|]. apply IH. intros x Hx. apply H. lia.
Qed.

Lemma ld_bytes_app m a n k :
  ld_bytes m a (n + k) = ld_bytes m a n ++ ld_bytes m (a + Z.of_nat n) k.
Proof.
  revert a. induction n as [|n IH]; intros a; simpl; [by rewrite Z.add_0_r|].
  rewrite IH. do 3 f_equal. lia.
Qed.

(** The byte at [x] after writing [bs] at [a]. *)
Lemma ld8_st_bytes m a bs x :
  ld8 (st_bytes m a bs) x =
  if (a <=? x) && (x <? a + Z.of_nat (length bs))
  then u8 (default 0 (bs !! Z.to_nat (x - a))) else ld8 m x.
Proof.
  revert m a. induction bs as [|b bs IH]; intros m a; simpl st_bytes.
  - simpl length. zcases; done.
  - rewrite IH, ld8_st8. simpl length.
    destruct (Z.eqb_spec x a) as [->|Hne].
    + zcases. by rewrite Z.sub_diag.
    + destruct (Z.leb_spec (a + 1) x), (Z.leb_spec a x); try lia; [|done].
      replace (a + 1 + Z.of_nat (length bs)) with (a + Z.of_nat (S (length bs))) by lia.
      zcases. replace (Z.to_nat (x - a)) with (S (Z.to_nat (x - (a + 1)))) by lia. done.
Qed.

Lemma ld8_st_bytes_out m a bs x :
  x < a \/ a + Z.of_nat (length bs) <= x -> ld8 (st_bytes m a bs) x = ld8 m x.
Proof. intros H. rewrite ld8_st_bytes. zcases; done. Qed.

Lemma ld_bytes_st_bytes m a bs : byte_list bs -> ld_bytes (st_bytes m a bs) a (length bs) = bs.
Proof.
  intros Hbs. apply list_eq_same_length with (length bs); [done|by rewrite length_ld_bytes|].
  intros i x y Hi Hx Hy. rewrite lookup_ld_bytes in Hx by lia.
  simplify_eq. rewrite ld8_st_bytes.
  replace (a + Z.of_nat i - a) with (Z.of_nat i) by lia. rewrite Nat2Z.id, Hy. simpl.
  zcases. apply u8_small. by eapply Forall_lookup_1 in Hbs.
Qed.

Lemma ld_bytes_st_bytes_out m a bs x n :
  x + Z.of_nat n <= a \/ a + Z.of_nat (length bs) <= x ->
  ld_bytes (st_bytes m a bs) x n = ld_bytes m x n.
Proof. intros H. apply ld_bytes_ext. intros y Hy. apply ld8_st_bytes_out. lia. Qed.

Lemma ld64_range m a : 0 <= ld64 m a < 2 ^ 64.
Proof.
  pose proof (le_decode_range _ (ld_bytes_byte_list m a 8)) as H.
  by rewrite length_ld_bytes in H.
Qed.

Lemma ld64_st64_eq m a v : 0 <= v < 2 ^ 64 -> ld64 (st64 m a v) a = v.
Proof.
  intros Hv. unfold ld64, st64.
  pose proof (ld_bytes_st_bytes m a (le_encode 8 v) (le_encode_bytes 8 v)) as H.
  rewrite length_le_encode in H. rewrite H, le_decode_encode. by apply Z.mod_small.
Qed.

Lemma ld64_st64_ne m a v x : x + 8 <= a \/ a + 8 <= x -> ld64 (st64 m a v) x = ld64 m x.
Proof.
  intros H. unfold ld64, st64. rewrite ld_bytes_st_bytes_out; [done|].
  rewrite length_le_encode. lia.
Qed.

Lemma ld8_st64_out m a v x : x < a \/ a + 8 <= x -> ld8 (st64 m a v) x = ld8 m x.
Proof. intros H. apply ld8_st_bytes_out. rewrite length_le_encode. lia. Qed.

Lemma ld64_ext m m' a :
  (forall x, a <= x < a + 8 -> ld8 m x = ld8 m' x) -> ld64 m a = ld64 m' a.
Proof. intros H. unfold ld64. f_equal. apply ld_bytes_ext. done. Qed.

Lemma ld64_zero m a : (forall x, a <= x < a + 8 -> ld8 m x = 0) -> ld64 m a = 0.
Proof.
  intros H. unfold ld64. simpl. rewrite !H by lia. done.
Qed.

(** 32-bit words. *)
Definition ld32 (m : mem) (a : Z) : Z := le_decode (ld_bytes m a 4).
Definition st32 (m : mem) (a v : Z) : mem := st_bytes m a (le_encode 4 v).

Lemma ld32_st32_eq m a v : 0 <= v < 2 ^ 32 -> ld32 (st32 m a v) a = v.
Proof.
  intros Hv. unfold ld32, st32.
  pose proof (ld_bytes_st_bytes m a (le_encode 4 v) (le_encode_bytes 4 v)) as H.
  rewrite length_le_encode in H. rewrite H, le_decode_encode. by apply Z.mod_small.
Qed.
Lemma ld8_st32_out m a v x : x < a \/ a + 4 <= x -> ld8 (st32 m a v) x = ld8 m x.
Proof. intros H. apply ld8_st_bytes_out. rewrite length_le_encode. lia. Qed.
Lemma ld32_ext m m' a : (forall x, a <= x < a + 4 -> ld8 m x = ld8 m' x) -> ld32 m a = ld32 m' a.
Proof. intros H. unfold ld32. f_equal. by apply ld_bytes_ext. Qed.

#[global] Opaque ld64 st64 ld32 st32.
