(* ===== verification/Str.v ===== *)
(** kernel/string.c: the byte and string routines the kernel uses instead
    of libc.  Each one is a function on memory; the C versions also return
    their destination pointer, which no caller uses for anything else.
    Plain char is unsigned on RISC-V. *)
From S2P Require Import Prelude Mem.

(** * Operations *)

Fixpoint memset_from (m : mem) (cdst c i : Z) (n : nat) : mem :=
  match n with
  | O => m
  | S n => memset_from (st8 m (cdst + i) c) cdst c (i + 1) n
  end.
Definition memset (m : mem) (dst c n : Z) : mem := memset_from m dst c 0 (Z.to_nat (u32 n)).

Fixpoint memcmp_loop (m : mem) (s1 s2 : Z) (n : nat) : Z :=
  match n with
  | O => 0
  | S n =>
      if negb (ld8 m s1 =? ld8 m s2) then ld8 m s1 - ld8 m s2
      else memcmp_loop m (s1 + 1) (s2 + 1) n
  end.
Definition memcmp (m : mem) (v1 v2 n : Z) : Z := memcmp_loop m v1 v2 (Z.to_nat (u32 n)).

(** [while(n-- > 0) *d++ = *s++;] *)
Fixpoint move_fwd (m : mem) (d s : Z) (n : nat) : mem :=
  match n with
  | O => m
  | S n => move_fwd (st8 m d (ld8 m s)) (d + 1) (s + 1) n
  end.
(** [while(n-- > 0) *--d = *--s;] *)
Fixpoint move_bwd (m : mem) (d s : Z) (n : nat) : mem :=
  match n with
  | O => m
  | S n => move_bwd (st8 m (d - 1) (ld8 m (s - 1))) (d - 1) (s - 1) n
  end.
Definition memmove (m : mem) (dst src n : Z) : mem :=
  let n := u32 n in
  if n =? 0 then m
  else if (src <? dst) && (dst <? src + n)
  then move_bwd m (dst + n) (src + n) (Z.to_nat n)
  else move_fwd m dst src (Z.to_nat n).
Definition memcpy (m : mem) (dst src n : Z) : mem := memmove m dst src n.

Fixpoint strncmp_loop (m : mem) (p q : Z) (n : nat) : Z :=
  match n with
  | O => 0
  | S n' =>
      if negb (ld8 m p =? 0) && (ld8 m p =? ld8 m q)
      then strncmp_loop m (p + 1) (q + 1) n'
      else ld8 m p - ld8 m q
  end.
Definition strncmp (m : mem) (p q n : Z) : Z := strncmp_loop m p q (Z.to_nat (u32 n)).

(** The two loops of strncpy: copy up to the NUL, then pad with NULs. *)
Fixpoint strncpy_pad (m : mem) (s : Z) (n : nat) : mem :=
  match n with
  | O => m
  | S n => strncpy_pad (st8 m s 0) (s + 1) n
  end.
Fixpoint strncpy_copy (m : mem) (s t : Z) (n : nat) : mem :=
  match n with
  | O => m
  | S n =>
      let c := ld8 m t in
      let m := st8 m s c in
      if c =? 0 then strncpy_pad m (s + 1) n else strncpy_copy m (s + 1) (t + 1) n
  end.
Definition strncpy (m : mem) (s t n : Z) : mem := strncpy_copy m s t (Z.to_nat n).

(** [k] is the value of [--n]. *)
Fixpoint safestrcpy_loop (m : mem) (s t : Z) (k : nat) : mem :=
  match k with
  | O => st8 m s 0
  | S k =>
      let c := ld8 m t in
      let m := st8 m s c in
      if c =? 0 then st8 m (s + 1) 0 else safestrcpy_loop m (s + 1) (t + 1) k
  end.
Definition safestrcpy (m : mem) (s t n : Z) : mem :=
  if n <=? 0 then m else safestrcpy_loop m s t (Z.to_nat (n - 1)).

(** [for(n = 0; s[n]; n++);] bounded by [fuel] characters; [None] when no
    NUL is found within them. *)
Fixpoint strlen (m : mem) (s : Z) (fuel : nat) : option Z :=
  if ld8 m s =? 0 then Some 0 else
  match fuel with
  | O => None
  | S fuel => Z.succ <$> strlen m (s + 1) fuel
  end.

(** * Specifications *)

(** The NUL-terminated string [bs] is stored at [a]. *)
Fixpoint cstring (m : mem) (a : Z) (bs : list Z) : Prop :=
  match bs with
  | [] => ld8 m a = 0
  | b :: bs => ld8 m a = b /\ b <> 0 /\ cstring m (a + 1) bs
  end.

Lemma memset_from_spec m dst c i n x :
  ld8 (memset_from m dst c i n) x =
  if (dst + i <=? x) && (x <? dst + i + Z.of_nat n) then u8 c else ld8 m x.
Proof.
  revert m i. induction n as [|n IH]; intros m i; cbn [memset_from].
  - zcases; done.
  - rewrite IH, ld8_st8. zcases; done.
Qed.

Lemma memset_spec m dst c n x :
  0 <= n < 2 ^ 32 ->
  ld8 (memset m dst c n) x = if (dst <=? x) && (x <? dst + n) then u8 c else ld8 m x.
Proof.
  intros Hn. unfold memset. rewrite memset_from_spec, u32_small, Z2Nat.id by lia.
  by rewrite Z.add_0_r.
Qed.

Lemma move_fwd_spec m d s n x :
  d <= s \/ s + Z.of_nat n <= d ->
  ld8 (move_fwd m d s n) x =
  if (d <=? x) && (x <? d + Z.of_nat n) then ld8 m (s + (x - d)) else ld8 m x.
Proof.
  revert m d s. induction n as [|n IH]; intros m d s H; cbn [move_fwd].
  - zcases; done.
  - rewrite IH by lia. rewrite !ld8_st8, (u8_small (ld8 m s)) by apply ld8_range.
    zcases; f_equal; lia.
Qed.

Lemma move_bwd_spec m d s n x :
  s <= d ->
  ld8 (move_bwd m d s n) x =
  if (d - Z.of_nat n <=? x) && (x <? d) then ld8 m (s - (d - x)) else ld8 m x.
Proof.
  revert m d s. induction n as [|n IH]; intros m d s H; cbn [move_bwd].
  - zcases; done.
  - rewrite IH by lia. rewrite !ld8_st8, (u8_small (ld8 m (s - 1))) by apply ld8_range.
    zcases; f_equal; lia.
Qed.

(** Overlapping or not, memmove leaves at the destination the bytes the
    source held before the call, and touches nothing else. *)
Lemma memmove_ld8 m dst src n x :
  0 <= n < 2 ^ 32 ->
  ld8 (memmove m dst src n) x =
  if (dst <=? x) && (x <? dst + n) then ld8 m (src + (x - dst)) else ld8 m x.
Proof.
  intros Hn. unfold memmove. rewrite u32_small by lia.
  destruct (Z.eqb_spec n 0) as [->|Hn0]; [zcases; done|].
  destruct (Z.ltb_spec src dst) as [H1|H1], (Z.ltb_spec dst (src + n)) as [H2|H2]; simpl.
  1: rewrite move_bwd_spec by lia; rewrite Z2Nat.id by lia; zcases; f_equal; lia.
  all: rewrite move_fwd_spec by lia; rewrite Z2Nat.id by lia; zcases; f_equal; lia.
Qed.

Lemma cstring_ext m m' a bs :
  (forall x, a <= x <= a + Z.of_nat (length bs) -> ld8 m' x = ld8 m x) ->
  cstring m a bs -> cstring m' a bs.
Proof.
  revert a. induction bs as [|b bs IH]; intros a Hx; simpl cstring.
  - rewrite Hx by (simpl; lia). done.
  - intros (H1 & H2 & H3). rewrite Hx by (simpl; lia). split_and!; [done..|].
    apply IH; [|done]. intros x Hr. apply Hx. simpl length. lia.
Qed.

Lemma strncpy_pad_spec m s n x :
  ld8 (strncpy_pad m s n) x = if (s <=? x) && (x <? s + Z.of_nat n) then 0 else ld8 m x.
Proof.
  revert m s. induction n as [|n IH]; intros m s; cbn [strncpy_pad].
  - zcases; done.
  - rewrite IH, ld8_st8. zcases; done.
Qed.

(** What strncpy leaves in a field of [n] bytes that holds the string [bs]. *)
Definition padded (n : nat) (bs : list Z) : list Z :=
  take n bs ++ replicate (n - length bs) 0.

Lemma strncpy_copy_spec m s t n bs x :
  cstring m t bs ->
  (s + Z.of_nat n <= t \/ t + Z.of_nat (length bs) < s) ->
  ld8 (strncpy_copy m s t n) x =
  if (s <=? x) && (x <? s + Z.of_nat n)
  then default 0 (padded n bs !! Z.to_nat (x - s)) else ld8 m x.
Proof.
  revert m s t bs. induction n as [|n IH]; intros m s t bs Hc Hd; cbn [strncpy_copy].
  - zcases; done.
  - destruct bs as [|b bs]; simpl in Hc.
    + rewrite Hc. simpl. rewrite strncpy_pad_spec, ld8_st8. unfold padded. simpl length.
      rewrite take_nil, Nat.sub_0_r. simpl app.
      destruct (decide (s <= x < s + Z.of_nat (S n))) as [Hr|Hr]; [|zcases; done].
      assert (default 0 (replicate (S n) 0 !! Z.to_nat (x - s)) = 0) as E.
      { destruct (replicate (S n) 0 !! Z.to_nat (x - s)) eqn:E; [|done].
        by apply lookup_replicate in E as [-> _]. }
      zcases; done.
    + destruct Hc as (Hb & Hb0 & Hc). rewrite Hb. destruct (Z.eqb_spec b 0); [done|].
      simpl length in Hd. rewrite (IH _ _ _ bs).
      2: { eapply cstring_ext; [|exact Hc]. intros y Hy. rewrite ld8_st8. zcases; done. }
      2: lia.
      rewrite ld8_st8. assert (u8 b = b) as Hu by (rewrite <- Hb; apply u8_small, ld8_range).
      destruct (Z.eqb_spec x s) as [->|Hne].
      * rewrite Z.sub_diag, Hu. zcases; done.
      * destruct (Z.leb_spec (s + 1) x), (Z.leb_spec s x); try lia; simpl; [|done].
        replace (s + 1 + Z.of_nat n) with (s + Z.of_nat (S n)) by lia.
        destruct (Z.ltb_spec x (s + Z.of_nat (S n))); [|done].
        replace (Z.to_nat (x - s)) with (S (Z.to_nat (x - (s + 1)))) by lia. done.
Qed.

Lemma safestrcpy_loop_spec m s t k bs :
  cstring m t bs ->
  (s + Z.of_nat k + 1 <= t \/ t + Z.of_nat (length bs) < s) ->
  cstring (safestrcpy_loop m s t k) s (take k bs) /\
  (forall x, x < s \/ s + Z.of_nat k < x -> ld8 (safestrcpy_loop m s t k) x = ld8 m x).
Proof.
  revert m s t bs. induction k as [|k IH]; intros m s t bs Hc Hd; cbn [safestrcpy_loop].
  - rewrite take_0. split; [simpl; rewrite ld8_st8; zcases; done|].
    intros x Hx. rewrite ld8_st8. zcases; done.
  - destruct bs as [|b bs]; simpl in Hc.
    + rewrite Hc. simpl. split; [rewrite !ld8_st8; zcases; done|].
      intros x Hx. rewrite !ld8_st8. zcases; done.
    + destruct Hc as (Hb & Hb0 & Hc). rewrite Hb. destruct (Z.eqb_spec b 0); [done|].
      simpl length in Hd.
      destruct (IH (st8 m s b) (s + 1) (t + 1) bs) as [H1 H2].
      { eapply cstring_ext; [|exact Hc]. intros y Hy. rewrite ld8_st8. zcases; done. }
      { lia. }
      assert (u8 b = b) as Hu by (rewrite <- Hb; apply u8_small, ld8_range).
      split.
      * simpl. split_and!; [|done|done]. rewrite H2, ld8_st8 by lia. zcases; done.
      * intros x Hx. rewrite H2, ld8_st8 by lia. zcases; done.
Qed.

Lemma strlen_cstring m a bs fuel :
  cstring m a bs -> (length bs <= fuel)%nat -> strlen m a fuel = Some (Z.of_nat (length bs)).
Proof.
  revert a fuel. induction bs as [|b bs IH]; intros a fuel Hc Hf; simpl in *.
  - destruct fuel; simpl; by rewrite Hc.
  - destruct Hc as (Hb & Hb0 & Hc). destruct fuel as [|fuel]; [lia|]. simpl.
    rewrite Hb. destruct (Z.eqb_spec b 0); [done|].
    rewrite (IH _ _ Hc) by lia. simpl. f_equal. lia.
Qed.

Lemma memcmp_loop_zero m s1 s2 n :
  memcmp_loop m s1 s2 n = 0 <-> ld_bytes m s1 n = ld_bytes m s2 n.
Proof.
  revert s1 s2. induction n as [|n IH]; intros s1 s2; simpl; [done|].
  destruct (Z.eqb_spec (ld8 m s1) (ld8 m s2)) as [E|E]; simpl.
  - rewrite IH, E. split; [by intros ->|by intros [=]].
  - split; [lia|by intros [=]].
Qed.

Lemma strncmp_loop_zero m p q n bp bq :
  cstring m p bp -> cstring m q bq ->
  strncmp_loop m p q n = 0 <-> take n bp = take n bq.
Proof.
  revert p q bp bq. induction n as [|n IH]; intros p q bp bq Hp Hq; simpl; [done|].
  destruct bp as [|b bp], bq as [|c bq]; simpl in Hp, Hq.
  - by rewrite Hp, Hq.
  - destruct Hq as (Hc & Hc0 & Hq). rewrite Hp, Hc. simpl. split; [lia|done].
  - destruct Hp as (Hb & Hb0 & Hp). rewrite Hq, Hb. zcases. split; [lia|done].
  - destruct Hp as (Hb & Hb0 & Hp), Hq as (Hc & Hc0 & Hq). rewrite Hb, Hc.
    destruct (Z.eqb_spec b 0); [done|]. simpl.
    destruct (Z.eqb_spec b c) as [->|Hne].
    + rewrite (IH _ _ _ _ Hp Hq). simpl. split; [by intros ->|by intros [=]].
    + split; [lia|intros [=]; done].
Qed.

(** * Properties *)

(** memmove is correct whether or not the regions overlap: afterwards
    the destination holds the [n] bytes the source held before the call,
    and every byte outside the destination is as it was. *)
Theorem memmove_correct m dst src n :
  0 <= n < 2 ^ 32 ->
  ld_bytes (memmove m dst src n) dst (Z.to_nat n) = ld_bytes m src (Z.to_nat n) /\
  (forall x, x < dst \/ dst + n <= x -> ld8 (memmove m dst src n) x = ld8 m x).
Proof.
  intros Hn. split.
  - apply list_eq_same_length with (Z.to_nat n); [by rewrite length_ld_bytes..|].
    intros i x y Hi Hx Hy. rewrite lookup_ld_bytes in Hx, Hy by lia. simplify_eq.
    rewrite memmove_ld8 by done. zcases. f_equal. lia.
  - intros x Hx. rewrite memmove_ld8 by done. zcases; done.
Qed.

Lemma memmove_correct_witness :
  let m := st_bytes (∅ : mem) 100 [1; 2; 3; 4; 5] in
  ld_bytes (memmove m 102 100 5) 102 5 = [1; 2; 3; 4; 5].
Proof.
  intros m. destruct (memmove_correct m 102 100 5) as [H _]; [lia|].
  exact H.
Defined.

(** strncpy(s, t, n) fills exactly the [n] bytes of the field at [s]:
    the first [n] characters of the string at [t], then NULs up to the end
    of the field; no byte outside the field changes. *)
Theorem strncpy_fills_field m s t n bs :
  0 <= n -> cstring m t bs ->
  (s + n <= t \/ t + Z.of_nat (length bs) < s) ->
  ld_bytes (strncpy m s t n) s (Z.to_nat n) = padded (Z.to_nat n) bs /\
  (forall x, x < s \/ s + n <= x -> ld8 (strncpy m s t n) x = ld8 m x).
Proof.
  intros Hn Hc Hd.
  assert (length (padded (Z.to_nat n) bs) = Z.to_nat n) as Hlen.
  { unfold padded. rewrite length_app, length_take, length_replicate. lia. }
  unfold strncpy. split.
  - apply list_eq_same_length with (Z.to_nat n); [done|by rewrite length_ld_bytes|].
    intros i x y Hi Hx Hy. rewrite lookup_ld_bytes in Hx by lia. simplify_eq.
    rewrite (strncpy_copy_spec _ _ _ _ bs) by (done || lia).
    replace (s + Z.of_nat i - s) with (Z.of_nat i) by lia. rewrite Nat2Z.id, Hy.
    zcases; done.
  - intros x Hx. rewrite (strncpy_copy_spec _ _ _ _ bs) by (done || lia). zcases; done.
Qed.

Lemma strncpy_fills_field_witness :
  let m := st_bytes (∅ : mem) 100 [108; 115; 0] in
  ld_bytes (strncpy m 200 100 4) 200 4 = [108; 115; 0; 0].
Proof.
  intros m. destruct (strncpy_fills_field m 200 100 4 [108; 115]) as [H _].
  - lia.
  - vm_compute. split_and!; done.
  - simpl. lia.
  - exact H.
Defined.

(** safestrcpy(s, t, n) with n > 0 always leaves a NUL-terminated
    string at [s]: the first n-1 characters of the string at [t]; and it
    writes only the [n] bytes of the destination. *)
Theorem safestrcpy_terminates_string m s t n bs :
  0 < n -> cstring m t bs ->
  (s + n <= t \/ t + Z.of_nat (length bs) < s) ->
  cstring (safestrcpy m s t n) s (take (Z.to_nat (n - 1)) bs) /\
  (forall x, x < s \/ s + n <= x -> ld8 (safestrcpy m s t n) x = ld8 m x).
Proof.
  intros Hn Hc Hd. unfold safestrcpy. destruct (Z.leb_spec n 0); [lia|].
  destruct (safestrcpy_loop_spec m s t (Z.to_nat (n - 1)) bs) as [H1 H2]; [done|lia|].
  split; [done|]. intros x Hx. apply H2. lia.
Qed.

Lemma safestrcpy_terminates_string_witness :
  let m := st_bytes (∅ : mem) 100 [108; 115; 0] in
  cstring (safestrcpy m 200 100 2) 200 [108].
Proof.
  intros m. destruct (safestrcpy_terminates_string m 200 100 2 [108; 115]) as [H _].
  - lia.
  - vm_compute. split_and!; done.
  - simpl. lia.
  - exact H.
Defined.

(** strncmp on NUL-terminated strings returns 0 exactly when they agree
    on their first [n] characters (this is namecmp() with n = DIRSIZ). *)
Theorem strncmp_zero_iff m p q n bp bq :
  0 <= n < 2 ^ 32 -> cstring m p bp -> cstring m q bq ->
  strncmp m p q n = 0 <-> take (Z.to_nat n) bp = take (Z.to_nat n) bq.
Proof. intros Hn Hp Hq. unfold strncmp. rewrite u32_small by lia. by apply strncmp_loop_zero. Qed.

Lemma strncmp_zero_iff_witness :
  let m := st_bytes (∅ : mem) 100 [108; 115; 0; 108; 0] in
  strncmp m 100 103 1 = 0.
Proof.
  intros m. apply (strncmp_zero_iff m 100 103 1 [108; 115] [108]); [lia|..|reflexivity].
  all: vm_compute; split_and!; done.
Defined.

(** The routines are used through their lemmas only. *)
#[global] Opaque memset memmove memcmp strncmp strncpy safestrcpy.
