(* ===== verification/Spinlock.v ===== *)
(** kernel/spinlock.c and kernel/sleeplock.c.

    [push_off]/[pop_off] act on the per-CPU part of struct cpu, [acquire]
    and [release] on that and on a struct spinlock.  Section [Smp] runs the
    code of acquire/release on several CPUs, one shared-memory access at a
    time, and shows mutual exclusion.  The last part relates struct spinlock
    to the one-thread view [lockst] the other components use. *)
From S2P Require Import Prelude.

(** * Interrupt nesting *)

(** struct cpu: [noff] and [intena]; [sie] is the hart's SSTATUS_SIE bit. *)
Record cpu := Cpu { noff : Z; intena : bool; sie : bool }.

Definition intr_get (c : cpu) : bool := sie c.
Definition intr_on (c : cpu) : cpu := Cpu (noff c) (intena c) true.
Definition intr_off (c : cpu) : cpu := Cpu (noff c) (intena c) false.
Definition set_noff (n : Z) (c : cpu) : cpu := Cpu n (intena c) (sie c).
Definition set_intena (b : bool) (c : cpu) : cpu := Cpu (noff c) b (sie c).

Definition push_off : M cpu unit :=
  let! old := gets intr_get in
  modify intr_off ;;
  let! n := gets noff in
  (if n =? 0 then modify (set_intena old) else ret tt) ;;
  modify (fun c => set_noff (noff c + 1) c).

Definition pop_off : M cpu unit :=
  let! on := gets intr_get in
  if on then panic "pop_off - interruptible" else
  let! n := gets noff in
  if n <? 1 then panic "pop_off" else
  modify (set_noff (n - 1)) ;;
  let! c := gets id in
  if (noff c =? 0) && intena c then modify intr_on else ret tt.

(** * Spin locks *)

(** struct spinlock; [lk_cpu] is the holder's index in cpus[], or none. *)
Record spinlock := Spinlock { lk_locked : bool; lk_cpu : option nat }.

Definition initlock : spinlock := Spinlock false None.

Definition holding (me : nat) (lk : spinlock) : bool :=
  lk_locked lk && bool_decide (lk_cpu lk = Some me).

Definition on_cpu {A} (m : M cpu A) : M (cpu * spinlock) A :=
  zoom fst (fun c s => (c, snd s)) m.
Definition set_lk (f : spinlock -> spinlock) : M (cpu * spinlock) unit :=
  modify (fun s => (fst s, f (snd s))).

(** acquire() on CPU [me] while no other CPU runs: the test-and-set loop
    spins for ever on a lock that is taken. *)
Definition acquire (me : nat) : M (cpu * spinlock) unit :=
  on_cpu push_off ;;
  let! h := gets (fun s => holding me (snd s)) in
  if h then panic "acquire" else
  let! l := gets (fun s => lk_locked (snd s)) in
  if l then block else
  set_lk (fun lk => Spinlock true (lk_cpu lk)) ;;
  set_lk (fun lk => Spinlock (lk_locked lk) (Some me)).

Definition release (me : nat) : M (cpu * spinlock) unit :=
  let! h := gets (fun s => holding me (snd s)) in
  if negb h then panic "release" else
  set_lk (fun lk => Spinlock (lk_locked lk) None) ;;
  set_lk (fun lk => Spinlock false (lk_cpu lk)) ;;
  on_cpu pop_off.

(** * Sleep locks *)

(** struct sleeplock: [sl_lk] guards [sl_locked] and [sl_pid]. *)
Record sleeplock := Sleeplock { sl_lk : lockst; sl_locked : bool; sl_pid : Z }.
Definition set_sl_lk (l : lockst) (s : sleeplock) : sleeplock :=
  Sleeplock l (sl_locked s) (sl_pid s).
Definition set_sl (b : bool) (pid : Z) (s : sleeplock) : sleeplock :=
  Sleeplock (sl_lk s) b pid.

Definition initsleeplock : sleeplock := Sleeplock Free false 0.

(** A held lock puts the caller to sleep; sleep() releases [sl_lk]. *)
Definition acquiresleep (mypid : Z) : M sleeplock unit :=
  lock_acquire sl_lk set_sl_lk ;;
  let! l := gets sl_locked in
  if l then lock_release sl_lk set_sl_lk ;; block else
  modify (set_sl true mypid) ;;
  lock_release sl_lk set_sl_lk.

Definition releasesleep : M sleeplock unit :=
  lock_acquire sl_lk set_sl_lk ;;
  modify (set_sl false 0) ;;
  lock_release sl_lk set_sl_lk.

Definition holdingsleep (mypid : Z) : M sleeplock bool :=
  lock_acquire sl_lk set_sl_lk ;;
  let! r := gets (fun s => sl_locked s && (sl_pid s =? mypid)) in
  lock_release sl_lk set_sl_lk ;;
  ret r.

(** * push_off and pop_off nest *)

Inductive nested : M cpu unit -> Prop :=
| nested_nil : nested (ret tt)
| nested_seq p q : nested p -> nested q -> nested (p ;; q)
| nested_wrap p : nested p -> nested (push_off ;; p ;; pop_off).

(** With locks held, interrupts are off. *)
Definition cpu_ok (c : cpu) : Prop := 0 <= noff c /\ (0 < noff c -> sie c = false).

Lemma push_off_spec c Q :
  Q tt (Cpu (noff c + 1) (if noff c =? 0 then sie c else intena c) false) -> wp push_off Q c.
Proof.
  intros H. unfold push_off. wp_simp. cbn [noff intr_off].
  destruct (noff c =? 0); wp_simp; exact H.
Qed.

Lemma pop_off_spec c Q :
  sie c = false -> 1 <= noff c ->
  Q tt (Cpu (noff c - 1) (intena c) ((noff c - 1 =? 0) && intena c)) -> wp pop_off Q c.
Proof.
  intros H1 H2 H. unfold pop_off. wp_simp. unfold intr_get. rewrite H1.
  wp_simp. destruct (Z.ltb_spec (noff c) 1); [lia|]. wp_simp. simpl.
  destruct ((noff c - 1 =? 0) && intena c); wp_simp; [exact H|].
  unfold set_noff. by rewrite H1.
Qed.

Lemma nested_spec p c :
  nested p -> cpu_ok c ->
  wp p (fun _ c' => noff c' = noff c /\ sie c' = sie c /\
                    (0 < noff c -> intena c' = intena c)) c.
Proof.
  intros Hp. revert c. induction Hp as [|p q Hp IHp Hq IHq|p Hp IHp]; intros c [Hn Hs].
  - wp_simp. done.
  - wp_simp. eapply wp_mono; [apply IHp; done|]. cbn beta. intros _ c1 (H1 & H2 & H3).
    eapply wp_mono; [apply IHq; split; rewrite H1, ?H2; done|].
    cbn beta. intros _ c2 (H4 & H5 & H6). split_and!; [congruence..|].
    intros Hpos. rewrite H6, H3; [done|done|lia].
  - wp_simp. apply push_off_spec. wp_simp.
    eapply wp_mono; [apply IHp; split; simpl; [lia|done]|].
    cbn -[Z.add]. intros _ c1 (H1 & H2 & H3). apply pop_off_spec; [done|lia|].
    rewrite H3, H1 by lia. replace (noff c + 1 - 1) with (noff c) by lia. simpl.
    destruct (Z.eqb_spec (noff c) 0) as [E|E].
    + split_and!; [done|done|lia].
    + split_and!; [done| |done]. simpl. symmetry. apply Hs. lia.
Qed.

(** * Mutual exclusion on several CPUs *)

(** Where a CPU is in acquire()/release(), between two accesses to shared
    memory. *)
Inductive pc :=
| POut          (* holds nothing *)
| PSpin         (* in the test-and-set loop of acquire *)
| PGot          (* swapped 1 into locked, lk->cpu not yet written *)
| PCrit         (* acquire returned: in the critical section *)
| PClr          (* release wrote lk->cpu = 0, locked still 1 *)
| PRel          (* locked = 0, pop_off still to run *)
| PPanic.
#[global] Instance pc_eq_dec : EqDecision pc.
Proof. solve_decision. Defined.

Record smp := Smp { smp_lk : spinlock; smp_pc : nat -> pc; smp_cpu : nat -> cpu }.

Definition upd {A} (f : nat -> A) (i : nat) (x : A) : nat -> A :=
  fun j => if decide (j = i) then x else f j.

Definition goto (s : smp) (lk : spinlock) (i : nat) (p : pc) (c : cpu) : smp :=
  Smp lk (upd (smp_pc s) i p) (upd (smp_cpu s) i c).

(** CPU [i] runs up to and including its next access to the lock. *)
Definition smp_step (i : nat) (s : smp) : smp :=
  let lk := smp_lk s in
  let c := smp_cpu s i in
  match smp_pc s i with
  | POut => match push_off c with
            | Ok _ c' => goto s lk i (if holding i lk then PPanic else PSpin) c'
            | _ => goto s lk i PPanic c
            end
  | PSpin => if lk_locked lk then s else goto s (Spinlock true (lk_cpu lk)) i PGot c
  | PGot => goto s (Spinlock (lk_locked lk) (Some i)) i PCrit c
  | PCrit => if holding i lk then goto s (Spinlock (lk_locked lk) None) i PClr c
             else goto s lk i PPanic c
  | PClr => goto s (Spinlock false (lk_cpu lk)) i PRel c
  | PRel => match pop_off c with
            | Ok _ c' => goto s lk i POut c'
            | _ => goto s lk i PPanic c
            end
  | PPanic => s
  end.

Definition smp_init (enabled : nat -> bool) : smp :=
  Smp initlock (fun _ => POut) (fun i => Cpu 0 false (enabled i)).

Inductive smp_reach (enabled : nat -> bool) : smp -> Prop :=
| smp_reach_init : smp_reach enabled (smp_init enabled)
| smp_reach_step s i : smp_reach enabled s -> smp_reach enabled (smp_step i s).

Definition owns (p : pc) : bool :=
  match p with PGot | PCrit | PClr => true | _ => false end.

(** The lock bit is set exactly while some CPU owns the lock, the owner is
    unique, lk->cpu names the CPU in the critical section, and a CPU inside
    acquire/release has interrupts off with one push_off pending. *)
Record smp_inv (enabled : nat -> bool) (s : smp) : Prop := {
  inv_free : lk_locked (smp_lk s) = false -> forall i, owns (smp_pc s i) = false;
  inv_uniq : forall i j, owns (smp_pc s i) = true -> owns (smp_pc s j) = true -> i = j;
  inv_set : forall i, owns (smp_pc s i) = true -> lk_locked (smp_lk s) = true;
  inv_cpu : forall i, lk_cpu (smp_lk s) = Some i <-> smp_pc s i = PCrit;
  inv_out : forall i, smp_pc s i = POut ->
    noff (smp_cpu s i) = 0 /\ sie (smp_cpu s i) = enabled i;
  inv_in : forall i, smp_pc s i <> POut ->
    noff (smp_cpu s i) = 1 /\ sie (smp_cpu s i) = false /\ intena (smp_cpu s i) = enabled i;
  inv_nopanic : forall i, smp_pc s i <> PPanic
}.

Lemma upd_eq {A} (f : nat -> A) i x : upd f i x i = x.
Proof. unfold upd. by rewrite decide_True. Qed.
Lemma upd_ne {A} (f : nat -> A) i j x : j <> i -> upd f i x j = f j.
Proof. intros. unfold upd. by rewrite decide_False. Qed.

Lemma smp_inv_init enabled : smp_inv enabled (smp_init enabled).
Proof. by split. Qed.

(** Case analysis on whether a CPU is the one that moved. *)
Ltac smp_case j i :=
  destruct (decide (j = i)) as [->|]; rewrite ?upd_eq, ?upd_ne in * by done.

Lemma holding_crit enabled s i : smp_inv enabled s -> holding i (smp_lk s) = true -> smp_pc s i = PCrit.
Proof.
  intros H Hh. apply andb_true_iff in Hh as [_ Hh]. apply bool_decide_eq_true in Hh.
  by apply (inv_cpu _ _ H).
Qed.

Lemma crit_holding enabled s i : smp_inv enabled s -> smp_pc s i = PCrit -> holding i (smp_lk s) = true.
Proof.
  intros H Hc. unfold holding. apply andb_true_iff. split.
  - apply (inv_set _ _ H i). by rewrite Hc.
  - apply bool_decide_eq_true. by apply (inv_cpu _ _ H).
Qed.

(** The state of CPU [i]'s interrupts at program point [p]. *)
Definition cpu_at (enabled : nat -> bool) (i : nat) (p : pc) (c : cpu) : Prop :=
  match p with
  | POut => noff c = 0 /\ sie c = enabled i
  | PPanic => False
  | _ => noff c = 1 /\ sie c = false /\ intena c = enabled i
  end.

Lemma smp_inv_goto enabled s lk i p c :
  smp_inv enabled s -> cpu_at enabled i p c ->
  ((forall j, j <> i -> owns (smp_pc s j) = false) /\ lk_locked lk = owns p /\
    lk_cpu lk = (if decide (p = PCrit) then Some i else None))
  \/ (owns (smp_pc s i) = false /\ owns p = false /\ lk = smp_lk s) ->
  smp_inv enabled (goto s lk i p c).
Proof.
  intros [Hfree Huniq Hset Hcpu Hout Hin Hnp] Hc Hcase. split; simpl.
  - intros H j. smp_case j i; destruct Hcase as [(Ho & Hl & _)|(Hi & Hp & ->)];
      [congruence|done|by apply Ho|by apply Hfree].
  - intros j k. destruct Hcase as [(Ho & Hl & _)|(Hi & Hp & ->)];
      smp_case j i; smp_case k i; rewrite ?Hp; try done;
      try (rewrite (Ho j) by done; done); try (rewrite (Ho k) by done; done).
    apply Huniq.
  - intros j. destruct Hcase as [(Ho & Hl & _)|(Hi & Hp & ->)]; smp_case j i.
    + congruence.
    + by rewrite Ho.
    + congruence.
    + apply Hset.
  - intros j. destruct Hcase as [(Ho & Hl & Hk)|(Hi & Hp & ->)]; smp_case j i.
    + rewrite Hk. by case_decide.
    + specialize (Ho j). rewrite Hk. split; [case_decide; congruence|].
      intros Hj. rewrite Hj in Ho. by specialize (Ho n).
    + rewrite Hcpu. split; intros E; [by rewrite E in Hi|by rewrite E in Hp].
    + apply Hcpu.
  - intros j. smp_case j i; [by intros ->|apply Hout].
  - intros j. smp_case j i; [by destruct p|apply Hin].
  - intros j. smp_case j i; [by intros ->|apply Hnp].
Qed.

Lemma smp_inv_at enabled s i : smp_inv enabled s -> cpu_at enabled i (smp_pc s i) (smp_cpu s i).
Proof.
  intros [_ _ _ _ Hout Hin Hnp]. specialize (Hout i). specialize (Hin i). specialize (Hnp i).
  destruct (smp_pc s i); simpl; first [by apply Hout | by apply Hin | by destruct Hnp].
Qed.

Lemma others_free enabled s i :
  smp_inv enabled s -> owns (smp_pc s i) = true -> forall j, j <> i -> owns (smp_pc s j) = false.
Proof.
  intros H Hi j Hj. destruct (owns (smp_pc s j)) eqn:E; [|done].
  by destruct Hj; apply (inv_uniq _ _ H).
Qed.

Lemma smp_inv_step enabled i s : smp_inv enabled s -> smp_inv enabled (smp_step i s).
Proof.
  intros Hinv. pose proof (smp_inv_at _ _ i Hinv) as Hat.
  pose proof (others_free _ _ i Hinv) as Hoth. unfold smp_step.
  destruct (smp_pc s i) eqn:Ei; simpl in Hat, Hoth.
  - destruct Hat as [Hn Hs].
    assert (holding i (smp_lk s) = false) as ->.
    { destruct (holding i (smp_lk s)) eqn:Hh; [|done].
      apply (holding_crit enabled) in Hh; [congruence|done]. }
    assert (push_off (smp_cpu s i) = Ok tt (Cpu 1 (enabled i) false)) as ->.
    { destruct (smp_cpu s i) as [n a e]. simpl in Hn, Hs. by subst. }
    apply smp_inv_goto; [done|done|right; rewrite Ei; done].
  - destruct (lk_locked (smp_lk s)) eqn:El; [done|].
    apply smp_inv_goto; [done|done|left]. simpl. split_and!; [|done|].
    + intros j _. by apply (inv_free _ _ Hinv).
    + destruct (lk_cpu (smp_lk s)) as [k|] eqn:Ek; [|done]. apply (inv_cpu _ _ Hinv) in Ek.
      pose proof (inv_free _ _ Hinv El k) as Hf. by rewrite Ek in Hf.
  - apply smp_inv_goto; [done|done|left]. split_and!; [by apply Hoth| |done].
    simpl. apply (inv_set _ _ Hinv i). by rewrite Ei.
  - rewrite (crit_holding enabled) by done.
    apply smp_inv_goto; [done|done|left]. split_and!; [by apply Hoth| |done].
    simpl. apply (inv_set _ _ Hinv i). by rewrite Ei.
  - apply smp_inv_goto; [done|done|left]. split_and!; [by apply Hoth|done|]. simpl.
    destruct (lk_cpu (smp_lk s)) as [k|] eqn:Ek; [|done]. apply (inv_cpu _ _ Hinv) in Ek.
    destruct (inv_uniq _ _ Hinv k i); [by rewrite Ek|by rewrite Ei|congruence].
  - destruct Hat as (Hn & Hs & Ha).
    assert (pop_off (smp_cpu s i) = Ok tt (Cpu 0 (enabled i) (enabled i))) as ->.
    { destruct (smp_cpu s i) as [n a e]. simpl in Hn, Hs, Ha. subst. by destruct (enabled i). }
    apply smp_inv_goto; [done|done|right; rewrite Ei; done].
  - done.
Qed.

Lemma smp_reach_inv enabled s : smp_reach enabled s -> smp_inv enabled s.
Proof. induction 1; [apply smp_inv_init|by apply smp_inv_step]. Qed.

(** * Properties *)

(** C30: mutual exclusion.  However the accesses of the CPUs to the lock are
    interleaved, no two CPUs are between acquire() and release() at once,
    and neither "acquire", "release" nor "pop_off" ever panics. *)
Theorem spinlock_mutual_exclusion enabled s i j :
  smp_reach enabled s -> smp_pc s i = PCrit -> smp_pc s j = PCrit ->
  i = j /\ holding i (smp_lk s) = true /\ forall k, smp_pc s k <> PPanic.
Proof.
  intros H%smp_reach_inv Hi Hj. split_and!.
  - apply (inv_uniq _ _ H); [by rewrite Hi|by rewrite Hj].
  - by apply (crit_holding enabled).
  - apply (inv_nopanic _ _ H).
Qed.

(** CPU 1 reaches the critical section while CPU 0 spins. *)
Lemma spinlock_mutual_exclusion_witness :
  exists s, smp_reach (fun _ => true) s /\ smp_pc s 0%nat = PSpin /\ smp_pc s 1%nat = PCrit /\
            holding 1 (smp_lk s) = true.
Proof.
  set (s := smp_step 0 (smp_step 1 (smp_step 1 (smp_step 1 (smp_step 0 (smp_init (fun _ => true))))))).
  exists s. assert (smp_reach (fun _ => true) s) as Hr by (repeat constructor).
  split_and!; [done|reflexivity|reflexivity|].
  apply (spinlock_mutual_exclusion (fun _ => true) s 1 1); [exact Hr|reflexivity|reflexivity].
Defined.

(** push_off and pop_off nest: any properly nested sequence of them
    returns, and leaves the nesting depth and the interrupt-enable bit as
    it found them, so interrupts come back on only at the outermost
    pop_off and only if they were on before. *)
Theorem push_pop_nest p c :
  nested p -> cpu_ok c -> wp p (fun _ c' => noff c' = noff c /\ sie c' = sie c) c.
Proof.
  intros Hp Hc. eapply wp_mono; [by apply nested_spec|]. cbn beta. by intros _ c' (? & ? & _).
Qed.

Lemma push_pop_nest_witness :
  wp (push_off ;; (push_off ;; ret tt ;; pop_off) ;; pop_off)
     (fun _ c' => noff c' = 0 /\ sie c' = true) (Cpu 0 false true).
Proof.
  apply (push_pop_nest _ (Cpu 0 false true)).
  - apply nested_wrap, nested_wrap, nested_nil.
  - split; [simpl; lia|simpl; lia].
Defined.

(** * The one-thread view of a lock *)

(** What CPU [me] sees of the lock; [lk_wf] holds whenever no CPU is
    inside acquire or release. *)
Definition view (me : nat) (lk : spinlock) : lockst :=
  if holding me lk then Mine else if lk_locked lk then Theirs else Free.
Definition lk_wf (lk : spinlock) : Prop := lk_locked lk = false -> lk_cpu lk = None.

(** The concrete outcome [o] implements the abstract outcome [a]. *)
Definition implements (me : nat) (o : outcome (cpu * spinlock) unit) (a : outcome lockst unit) : Prop :=
  match o, a with
  | Ok _ s, Ok _ v => view me (snd s) = v /\ lk_wf (snd s)
  | Panic m, Panic m' => m = m'
  | Blocked s, Blocked v => view me (snd s) = v
  | _, _ => False
  end.

Lemma acquire_implements me c lk :
  lk_wf lk -> implements me (acquire me (c, lk)) (lock_acquire id (fun v _ => v) (view me lk)).
Proof.
  intros Hwf.
  destruct (wp_ok push_off (fun _ _ => True) c) as ([] & c' & Hp & _); [by apply push_off_spec|].
  unfold acquire, on_cpu, zoom, bind. cbn [fst snd]. rewrite Hp. simpl. unfold view.
  destruct (holding me lk) eqn:Hh; [done|].
  destruct (lk_locked lk) eqn:Hl; simpl; rewrite Hl; simpl.
  - unfold view. by rewrite Hh, Hl.
  - split; [|done]. unfold view, holding. simpl. by rewrite bool_decide_true.
Qed.

Lemma release_implements me c lk :
  lk_wf lk -> (view me lk = Mine -> sie c = false /\ 1 <= noff c) ->
  implements me (release me (c, lk)) (lock_release id (fun v _ => v) (view me lk)).
Proof.
  intros Hwf Hc. unfold release, bind, gets, lock_release. simpl.
  destruct (holding me lk) eqn:Hh; simpl.
  - assert (view me lk = Mine) as Hv by (unfold view; by rewrite Hh).
    destruct (Hc Hv) as [Hs Hn]. rewrite Hv. unfold on_cpu, zoom. simpl.
    assert (exists c', pop_off c = Ok tt c') as [c' Hp].
    { destruct (wp_ok pop_off (fun _ _ => True) c) as ([] & c' & Hp & _); [|eauto].
      by apply pop_off_spec. }
    rewrite Hp. simpl. by split.
  - unfold view. rewrite Hh. by destruct (lk_locked lk).
Qed.

(** the view of a lock as free, mine or somebody else's, which the
    models of the other kernel components use, is implemented by
    struct spinlock: acquire() and release() take the same branch (return,
    panic with the same message, or wait) and reach a lock with the
    corresponding view. *)
Theorem lock_view_refinement me c lk :
  lk_wf lk -> (view me lk = Mine -> sie c = false /\ 1 <= noff c) ->
  implements me (acquire me (c, lk)) (lock_acquire id (fun v _ => v) (view me lk)) /\
  implements me (release me (c, lk)) (lock_release id (fun v _ => v) (view me lk)).
Proof. intros Hwf Hc. split; [by apply acquire_implements|by apply release_implements]. Qed.

Lemma lock_view_refinement_witness :
  implements 2 (acquire 2 (Cpu 0 false true, initlock)) (Ok tt Mine).
Proof.
  destruct (lock_view_refinement 2 (Cpu 0 false true) initlock) as [H _].
  - intros _. reflexivity.
  - intros H. discriminate H.
  - exact H.
Defined.

(** a sleep lock has one holder.  acquiresleep() on a free lock makes
    the caller the holder, every other process then finds holdingsleep()
    false and waits in acquiresleep(), and releasesleep() frees the lock;
    the inner spin lock is free again after each call. *)
Theorem sleeplock_one_holder s pid pid' :
  sl_lk s = Free -> sl_locked s = false -> pid' <> pid ->
  wp (acquiresleep pid) (fun _ s1 =>
    wp (holdingsleep pid) (fun r _ => r = true) s1 /\
    wp (holdingsleep pid') (fun r _ => r = false) s1 /\
    acquiresleep pid' s1 = Blocked s1 /\
    wp releasesleep (fun _ s2 => s2 = Sleeplock Free false 0) s1) s.
Proof.
  destruct s as [lk b p]. simpl. intros -> -> Hne. unfold wp. simpl.
  rewrite Z.eqb_refl. destruct (Z.eqb_spec pid pid'); [congruence|]. done.
Qed.

Lemma sleeplock_one_holder_witness :
  wp (acquiresleep 3) (fun _ s1 => wp (holdingsleep 4) (fun r _ => r = false) s1) initsleeplock.
Proof.
  eapply wp_mono; [apply (sleeplock_one_holder initsleeplock 3 4)|]; [reflexivity|reflexivity|lia|].
  intros _ s1 (_ & H & _). exact H.
Defined.
