(* ===== verification/Kalloc.v ===== *)
(** kernel/kalloc.c: the physical page allocator, on byte memory.

    The free list is threaded through the free pages themselves: the first
    eight bytes of a free page point to the next one.  [Layout] holds the
    addresses kernel.ld defines. *)
From S2P Require Import Prelude Mem Str.

(** * Memory layout (riscv.h, memlayout.h, kernel.ld) *)

Definition PGSIZE : Z := 4096.
Definition PGROUNDUP (sz : Z) : Z := u64 (Z.land (u64 (sz + PGSIZE - 1)) (Z.lnot (PGSIZE - 1))).
Definition PGROUNDDOWN (a : Z) : Z := Z.land a (Z.lnot (PGSIZE - 1)).
Definition KERNBASE : Z := 0x80000000.
Definition PHYSTOP : Z := KERNBASE + 128 * 1024 * 1024.

(** Symbols of kernel.ld and trampoline.S: [end], [etext], [trampoline]. *)
Class Layout := { kend : Z; etext : Z; trampoline : Z }.
(** What the linker script guarantees about them. *)
Class LayoutOk (L : Layout) : Prop := {
  etext_range : KERNBASE < etext /\ etext <= kend;
  etext_aligned : etext mod PGSIZE = 0;
  kend_range : kend < PHYSTOP;
  trampoline_range : KERNBASE <= trampoline /\ trampoline < etext;
  trampoline_aligned : trampoline mod PGSIZE = 0
}.

(** * State *)

(** Physical memory and kmem: its lock and the head of the free list. *)
Record mach := Mach { mmem : mem; kmem_lock : lockst; freelist : Z }.
Definition set_mem (f : mem -> mem) (s : mach) : mach := Mach (f (mmem s)) (kmem_lock s) (freelist s).
Definition set_kmem_lock (l : lockst) (s : mach) : mach := Mach (mmem s) l (freelist s).
Definition set_freelist (p : Z) (s : mach) : mach := Mach (mmem s) (kmem_lock s) p.

Section kalloc.
Context `{L : Layout}.

(** * Operations *)

Definition kfree (pa : Z) : M mach unit :=
  if negb (pa mod PGSIZE =? 0) || (pa <? kend) || (PHYSTOP <=? pa) then panic "kfree" else
  modify (set_mem (fun m => memset m pa 1 PGSIZE)) ;;
  lock_acquire kmem_lock set_kmem_lock ;;
  let! next := gets freelist in
  modify (set_mem (fun m => st64 m pa next)) ;;
  modify (set_freelist pa) ;;
  lock_release kmem_lock set_kmem_lock.

Definition kalloc : M mach Z :=
  lock_acquire kmem_lock set_kmem_lock ;;
  let! r := gets freelist in
  (if r =? 0 then ret tt
   else let! next := gets (fun s => ld64 (mmem s) r) in modify (set_freelist next)) ;;
  lock_release kmem_lock set_kmem_lock ;;
  (if r =? 0 then ret tt else modify (set_mem (fun m => memset m r 5 PGSIZE))) ;;
  ret r.

(** [for(; p + PGSIZE <= pa_end; p += PGSIZE) kfree(p);] *)
Fixpoint freerange_loop (fuel : nat) (p pa_end : Z) : M mach unit :=
  if p + PGSIZE <=? pa_end then
    match fuel with
    | O => nofuel
    | S fuel => kfree p ;; freerange_loop fuel (p + PGSIZE) pa_end
    end
  else ret tt.
Definition freerange (pa_start pa_end : Z) : M mach unit :=
  freerange_loop (Z.to_nat ((pa_end - pa_start) / PGSIZE)) (PGROUNDUP pa_start) pa_end.

Definition kinit : M mach unit :=
  modify (set_kmem_lock Free) ;;
  freerange kend PHYSTOP.

(** * Invariant *)

(** The pages linked from [head] are those of [l], in order. *)
Fixpoint chain (m : mem) (head : Z) (l : list Z) : Prop :=
  match l with
  | [] => head = 0
  | p :: l => head = p /\ chain m (ld64 m p) l
  end.

Definition page_ok (p : Z) : Prop := p mod PGSIZE = 0 /\ kend <= p < PHYSTOP.
Definition in_page (p x : Z) : Prop := p <= x < p + PGSIZE.

(** The allocator is quiescent and its free pages are those of [l]. *)
Record kmem_inv (s : mach) (l : list Z) : Prop := {
  km_lock : kmem_lock s = Free;
  km_chain : chain (mmem s) (freelist s) l;
  km_nodup : NoDup l;
  km_ok : Forall page_ok l
}.

End kalloc.

(** * Page arithmetic *)

Lemma pgrounddown_eq a : PGROUNDDOWN a = a - a mod PGSIZE.
Proof.
  unfold PGROUNDDOWN, PGSIZE. change (Z.lnot (4096 - 1)) with (Z.lnot (Z.ones 12)).
  rewrite <- Z.ldiff_land, Z.ldiff_ones_r, Z.shiftl_mul_pow2, Z.shiftr_div_pow2 by lia.
  change (2 ^ 12) with 4096. pose proof (Z.div_mod a 4096 ltac:(done)). lia.
Qed.

Lemma pground_div sz :
  0 <= sz < 2 ^ 64 - PGSIZE -> PGROUNDUP sz = (sz + PGSIZE - 1) / PGSIZE * PGSIZE.
Proof.
  intros H. unfold PGROUNDUP. rewrite (u64_small (sz + PGSIZE - 1)) by (unfold PGSIZE in *; lia).
  change (Z.land ?x (Z.lnot (PGSIZE - 1))) with (PGROUNDDOWN x). rewrite pgrounddown_eq.
  pose proof (Z.div_mod (sz + PGSIZE - 1) PGSIZE ltac:(done)).
  pose proof (Z.mod_pos_bound (sz + PGSIZE - 1) PGSIZE ltac:(done)).
  rewrite u64_small; unfold PGSIZE in *; lia.
Qed.

Lemma page_aligned_ex p : p mod PGSIZE = 0 -> exists k, p = PGSIZE * k.
Proof. intros H. exists (p / PGSIZE). rewrite (Z.div_mod p PGSIZE) at 1 by done. lia. Qed.

(** Two different pages do not overlap. *)
Lemma pages_disjoint p q : p mod PGSIZE = 0 -> q mod PGSIZE = 0 -> p <> q ->
  p + PGSIZE <= q \/ q + PGSIZE <= p.
Proof.
  intros [i ->]%page_aligned_ex [j ->]%page_aligned_ex Hne.
  assert (i <> j) by congruence. unfold PGSIZE in *. lia.
Qed.

Lemma chain_ext m m' head l :
  (forall p, p ∈ l -> ld64 m' p = ld64 m p) -> chain m head l -> chain m' head l.
Proof.
  revert head. induction l as [|p l IH]; intros head Hx; simpl; [done|].
  intros [-> Hc]. split; [done|]. rewrite Hx by set_solver. apply IH; set_solver.
Qed.

Section kalloc_spec.
Context `{L : Layout} `{!LayoutOk L}.

Lemma page_ok_pos p : page_ok p -> 0 < p.
Proof.
  intros [_ [Hp _]]. destruct etext_range as [H1 H2]. unfold KERNBASE in H1. lia.
Qed.

Lemma chain_frame m m' head l p :
  Forall page_ok l -> p ∉ l -> p mod PGSIZE = 0 ->
  (forall x, ~ in_page p x -> ld8 m' x = ld8 m x) -> chain m head l -> chain m' head l.
Proof.
  intros Hok Hp Hal Hx. apply chain_ext. intros q Hq. apply ld64_ext. intros x Hr.
  apply Hx. rewrite Forall_forall in Hok. destruct (Hok q Hq) as [Hq0 _].
  assert (p <> q) by (intros ->; done).
  destruct (pages_disjoint p q) as [?|?]; [done..|unfold in_page, PGSIZE in *; lia|].
  unfold in_page, PGSIZE in *; lia.
Qed.

(** kalloc() returns 0 and changes nothing when no page is free; otherwise
    it returns the head of the free list, filled with 5s, and changes no
    other byte of memory. *)
Lemma kalloc_spec s l :
  kmem_inv s l ->
  wp kalloc (fun r s' =>
    match l with
    | [] => r = 0 /\ s' = s
    | p :: l' => r = p /\ kmem_inv s' l' /\
        forall x, ld8 (mmem s') x = if (p <=? x) && (x <? p + PGSIZE) then 5 else ld8 (mmem s) x
    end) s.
Proof.
  intros [Hl Hc Hn Ho]. unfold kalloc. wp_simp.
  apply wp_lock_acquire; [done|]. wp_simp. cbn [freelist set_kmem_lock].
  destruct l as [|p l']; simpl in Hc.
  - rewrite Hc. simpl. wp_simp. apply wp_lock_release; [done|]. wp_simp.
    split; [done|]. destruct s; simpl in *. by subst.
  - destruct Hc as [-> Hc]. apply NoDup_cons in Hn as [Hnp Hn]. apply Forall_cons in Ho as [Hp Ho].
    pose proof (page_ok_pos _ Hp). destruct (Z.eqb_spec p 0); [lia|]. wp_simp.
    apply wp_lock_release; [done|]. wp_simp.
    assert (forall x, ld8 (memset (mmem s) p 5 PGSIZE) x =
      if (p <=? x) && (x <? p + PGSIZE) then 5 else ld8 (mmem s) x) as Hx.
    { intros x. by rewrite memset_spec. }
    split_and!; [done| |exact Hx]. split; simpl; [done| |done|done].
    eapply chain_frame; [done|exact Hnp|apply Hp| |exact Hc].
    intros x Hxp. rewrite Hx. unfold in_page in Hxp. zcases; done.
Qed.

(** kfree() puts a page that is not free at the head of the free list and
    changes only that page. *)
Lemma kfree_spec s l p :
  kmem_inv s l -> page_ok p -> p ∉ l ->
  wp (kfree p) (fun _ s' => kmem_inv s' (p :: l) /\
    forall x, ~ in_page p x -> ld8 (mmem s') x = ld8 (mmem s) x) s.
Proof.
  intros [Hl Hc Hn Ho] Hp Hpl. unfold kfree. pose proof Hp as [Hal Hr].
  rewrite Hal. replace (p <? kend) with false by (symmetry; apply Z.ltb_ge; lia).
  replace (PHYSTOP <=? p) with false by (symmetry; apply Z.leb_gt; lia).
  simpl. wp_simp. apply wp_lock_acquire; [done|]. wp_simp. apply wp_lock_release; [done|].
  assert (forall x, ~ in_page p x ->
    ld8 (st64 (memset (mmem s) p 1 PGSIZE) p (freelist s)) x = ld8 (mmem s) x) as Hx.
  { intros x Hx. unfold in_page, PGSIZE in Hx. rewrite ld8_st64_out by lia.
    rewrite memset_spec by done. unfold PGSIZE. zcases; done. }
  split; [|exact Hx]. split; simpl.
  - done.
  - split; [done|]. rewrite ld64_st64_eq.
    + eapply chain_frame; [done|exact Hpl|done|exact Hx|exact Hc].
    + destruct l as [|q l]; simpl in Hc; [lia|]. destruct Hc as [-> _].
      apply Forall_cons in Ho as [Hq _]. pose proof (page_ok_pos _ Hq).
      destruct Hq as [_ Hq]. unfold PHYSTOP, KERNBASE in Hq. lia.
  - by apply NoDup_cons.
  - by constructor.
Qed.

(** The [n] pages from [p] on, the last one first: the order in which
    freerange() leaves them on the free list. *)
Fixpoint pages_down (p : Z) (n : nat) : list Z :=
  match n with
  | O => []
  | S n => pages_down (p + PGSIZE) n ++ [p]
  end.

Lemma elem_of_pages_down p n x :
  x ∈ pages_down p n <-> exists i, 0 <= i < Z.of_nat n /\ x = p + PGSIZE * i.
Proof.
  revert p. induction n as [|n IH]; intros p; simpl.
  - rewrite elem_of_nil. split; [done|]. intros (i & Hi & _). lia.
  - rewrite elem_of_app, IH, list_elem_of_singleton. split.
    + intros [(i & Hi & ->)| ->]; [exists (i + 1); lia|exists 0; lia].
    + intros (i & Hi & ->). destruct (decide (i = 0)) as [->|Hi0]; [right; lia|].
      left. exists (i - 1). lia.
Qed.

Lemma freerange_loop_spec fuel s l p pa_end :
  kmem_inv s l -> p mod PGSIZE = 0 -> kend <= p -> pa_end <= PHYSTOP ->
  Forall (fun q => q < p) l -> (pa_end - p) / PGSIZE <= Z.of_nat fuel ->
  wp (freerange_loop fuel p pa_end)
     (fun _ s' => kmem_inv s' (pages_down p (Z.to_nat ((pa_end - p) / PGSIZE)) ++ l)) s.
Proof.
  revert s l p. induction fuel as [|fuel IH]; intros s l p Hinv Hal Hp Hend Hlt Hfuel;
    cbn [freerange_loop]; destruct (Z.leb_spec (p + PGSIZE) pa_end) as [Hle|Hgt].
  1: { assert (1 <= (pa_end - p) / PGSIZE); [|lia]. apply Z.div_le_lower_bound; unfold PGSIZE in *; lia. }
  1, 3: replace (Z.to_nat ((pa_end - p) / PGSIZE)) with 0%nat;
    [by wp_simp|symmetry; apply Z2Nat.nonpos, Z.lt_succ_r, Z.div_lt_upper_bound; unfold PGSIZE in *; lia].
  assert ((pa_end - p) / PGSIZE = (pa_end - (p + PGSIZE)) / PGSIZE + 1) as Ediv.
  { rewrite <- Z.div_add by done. f_equal. lia. }
  assert (0 <= (pa_end - (p + PGSIZE)) / PGSIZE) by (apply Z.div_pos; unfold PGSIZE in *; lia).
  wp_simp. wp_use kfree_spec as [Hinv' _].
  - exact Hinv.
  - split; [done|]. unfold PGSIZE in *. lia.
  - intros Hin. rewrite Forall_forall in Hlt. specialize (Hlt _ Hin). lia.
  - eapply wp_mono; [apply (IH _ (p :: l))|].
    + done.
    + unfold PGSIZE in *. rewrite <- Zplus_mod_idemp_l, Hal. done.
    + unfold PGSIZE; lia.
    + done.
    + constructor; [unfold PGSIZE; lia|]. eapply Forall_impl; [exact Hlt|]. simpl. unfold PGSIZE. lia.
    + lia.
    + cbn beta. intros _ s2 H2. rewrite Ediv, Z2Nat.inj_add by lia.
      rewrite Nat.add_comm. simpl. by rewrite <- (assoc_L (++)).
Qed.

Lemma pgroundup_page p : 0 <= p < 2 ^ 64 - PGSIZE ->
  PGROUNDUP p mod PGSIZE = 0 /\ p <= PGROUNDUP p < p + PGSIZE.
Proof.
  intros H. rewrite pground_div by done. split; [by apply Z.mod_mul|].
  pose proof (Z.div_mod (p + PGSIZE - 1) PGSIZE ltac:(done)).
  pose proof (Z.mod_pos_bound (p + PGSIZE - 1) PGSIZE ltac:(done)). unfold PGSIZE in *. lia.
Qed.

Lemma kend_bounds : 0 <= kend < 2 ^ 64 - PGSIZE.
Proof.
  pose proof kend_range. pose proof etext_range. unfold PHYSTOP, KERNBASE, PGSIZE in *. lia.
Qed.

End kalloc_spec.

(** * Properties *)

(** kinit() terminates without panicking and puts on the free list
    exactly the page-aligned addresses between the end of the kernel image
    and PHYSTOP, each once. *)
Theorem kinit_frees_all `{L : Layout} `{!LayoutOk L} s :
  freelist s = 0 ->
  wp kinit (fun _ s' => exists l, kmem_inv s' l /\ forall p, p ∈ l <-> page_ok p) s.
Proof.
  intros Hf. unfold kinit, freerange. wp_simp.
  destruct (pgroundup_page kend kend_bounds) as [Hal Hr]. pose proof kend_range.
  eapply wp_mono; [apply (freerange_loop_spec _ _ []); [|done|lia|done|done|]|].
  { split; [done|done|apply NoDup_nil_2|done]. }
  - rewrite Z2Nat.id by (apply Z.div_pos; unfold PGSIZE in *; lia).
    apply Z.div_le_mono; unfold PGSIZE in *; lia.
  - cbn beta. intros _ s' Hinv. eexists. split; [exact Hinv|]. intros p.
    rewrite app_nil_r, elem_of_pages_down. split.
    + intros (i & Hi & ->). unfold page_ok. split.
      * by rewrite (Z.mul_comm PGSIZE), Z.mod_add.
      * assert (PGSIZE * (i + 1) <= PHYSTOP - PGROUNDUP kend); [|unfold PGSIZE in *; lia].
        transitivity (PGSIZE * ((PHYSTOP - PGROUNDUP kend) / PGSIZE)).
        -- apply Z.mul_le_mono_nonneg_l; [done|]. lia.
        -- by apply Z.mul_div_le.
    + intros [Hpal Hpr]. exists ((p - PGROUNDUP kend) / PGSIZE).
      apply page_aligned_ex in Hpal as [k ->], Hal as [j Ej]. rewrite Ej in *.
      replace (PGSIZE * k - PGSIZE * j) with ((k - j) * PGSIZE) by lia.
      rewrite Z.div_mul by done. split; [|lia].
      rewrite Z2Nat.id by (apply Z.div_pos; unfold PGSIZE in *; lia).
      split; [unfold PGSIZE in *; lia|].
      enough (k - j + 1 <= (PHYSTOP - PGSIZE * j) / PGSIZE) by lia.
      apply Z.div_le_lower_bound; [done|]. unfold PHYSTOP, KERNBASE, PGSIZE in *. lia.
Qed.

(** A kernel image that ends at 0x80021d40, as the linker might place it. *)
#[global] Instance demo_layout : Layout :=
  {| kend := 0x80021d40; etext := 0x80008000; trampoline := 0x80007000 |}.
#[global] Instance demo_layout_ok : LayoutOk demo_layout.
Proof. split; vm_compute; split_and?; done. Qed.

Lemma kinit_frees_all_witness :
  exists s' l, kinit (Mach ∅ Free 0) = Ok tt s' /\ kmem_inv s' l /\ 0x80022000 ∈ l.
Proof.
  destruct (wp_ok _ _ _ (kinit_frees_all (Mach ∅ Free 0) eq_refl)) as ([] & s' & Hk & l & Hl & Hp).
  exists s', l. split_and!; [exact Hk|exact Hl|]. apply Hp. vm_compute. split_and!; done.
Defined.

(** kalloc() never hands out a page twice.  On success the page is
    valid, no longer free, filled with junk, and the rest of memory and of
    the free list are untouched; when no page is free it returns 0 and
    changes nothing. *)
Theorem kalloc_correct `{L : Layout} `{!LayoutOk L} s l :
  kmem_inv s l ->
  wp kalloc (fun r s' =>
    (l = [] /\ r = 0 /\ s' = s) \/
    (exists l', l = r :: l' /\ (r ∉ l') /\ page_ok r /\ kmem_inv s' l' /\
      (forall x, in_page r x -> ld8 (mmem s') x = 5) /\
      (forall x, ~ in_page r x -> ld8 (mmem s') x = ld8 (mmem s) x))) s.
Proof.
  intros Hinv. eapply wp_mono; [by apply kalloc_spec|]. cbn beta. intros r s'.
  destruct l as [|p l']; [by left|]. intros (-> & Hinv' & Hx). right. exists l'.
  destruct Hinv as [_ _ Hn Ho]. apply NoDup_cons in Hn as [Hn _]. apply Forall_cons in Ho as [Ho _].
  split_and!; try done; intros x Hp; rewrite Hx; unfold in_page in Hp; zcases; done.
Qed.

(** A machine with one free page. *)
Lemma demo_kmem : kmem_inv (Mach ∅ Free 0x80022000) [0x80022000].
Proof.
  split; [done|by split|apply NoDup_singleton|].
  constructor; [|done]. vm_compute. split_and!; done.
Qed.

Lemma kalloc_correct_witness :
  exists s', kalloc (Mach ∅ Free 0x80022000) = Ok 0x80022000 s' /\ freelist s' = 0.
Proof.
  destruct (wp_ok _ _ _ (kalloc_correct (Mach ∅ Free 0x80022000) [0x80022000] demo_kmem))
    as (r & s' & Hk & [(Hl & _)|(l' & Hl & _ & _ & Hinv & _)]); [discriminate Hl|].
  injection Hl as <- <-. exists s'. split; [exact Hk|]. exact (km_chain _ _ Hinv).
Defined.

(** kfree() undoes kalloc(): freeing the page just allocated restores
    the free list, and changes no byte outside that page. *)
Theorem kalloc_kfree_roundtrip `{L : Layout} `{!LayoutOk L} s p l :
  kmem_inv s (p :: l) ->
  wp (let! r := kalloc in kfree r) (fun _ s' => kmem_inv s' (p :: l) /\ freelist s' = freelist s /\
    forall x, ~ in_page p x -> ld8 (mmem s') x = ld8 (mmem s) x) s.
Proof.
  intros Hinv. pose proof Hinv as [_ [Hh _] Hn Ho].
  apply NoDup_cons in Hn as [Hnp _]. apply Forall_cons in Ho as [Hp _].
  wp_simp. eapply wp_mono; [by apply kalloc_spec|]. cbn beta iota. intros r s1 (-> & Hinv1 & Hx1).
  eapply wp_mono; [by apply kfree_spec|]. cbn beta. intros _ s2 [Hinv2 Hx2].
  split_and!; [done| |].
  - rewrite Hh. by destruct Hinv2 as [_ [Hh2 _] _ _].
  - intros x Hx. rewrite Hx2, Hx1 by done. unfold in_page in Hx. zcases; done.
Qed.

Lemma kalloc_kfree_roundtrip_witness :
  wp (let! r := kalloc in kfree r) (fun _ s' => freelist s' = 0x80022000) (Mach ∅ Free 0x80022000).
Proof.
  eapply wp_mono; [apply (kalloc_kfree_roundtrip _ 0x80022000 [] demo_kmem)|].
  intros _ s' (_ & H & _). exact H.
Defined.
