(* ===== verification/Vm.v ===== *)
(** kernel/vm.c: Sv39 page tables in physical memory.

    A page table is a tree of 4096-byte pages of 64-bit entries, read and
    written through [ld64]/[st64] on the machine memory; nothing about its
    shape is built into the model.  [VmSpec] states the tree invariant. *)
From S2P Require Import Prelude Mem Str Kalloc.

(** * riscv.h and memlayout.h *)

Definition PTE_V : Z := 1.
Definition PTE_R : Z := 2.
Definition PTE_W : Z := 4.
Definition PTE_X : Z := 8.
Definition PTE_U : Z := 16.
Definition has_flag (pte f : Z) : bool := negb (Z.land pte f =? 0).

Definition PA2PTE (pa : Z) : Z := u64 (Z.shiftl (Z.shiftr pa 12) 10).
Definition PTE2PA (pte : Z) : Z := u64 (Z.shiftl (Z.shiftr pte 10) 12).
Definition PTE_FLAGS (pte : Z) : Z := Z.land pte 0x3FF.
Definition PXSHIFT (level : nat) : Z := 12 + 9 * Z.of_nat level.
Definition PX (level : nat) (va : Z) : Z := Z.land (Z.shiftr va (PXSHIFT level)) 0x1FF.
Definition MAXVA : Z := Z.shiftl 1 (9 + 9 + 9 + 12 - 1).
Definition TRAMPOLINE : Z := MAXVA - PGSIZE.
Definition TRAPFRAME : Z := TRAMPOLINE - PGSIZE.
Definition KSTACK (p : Z) : Z := TRAMPOLINE - (p + 1) * 2 * PGSIZE.
Definition UART0 : Z := 0x10000000.
Definition VIRTIO0 : Z := 0x10001000.
Definition PLIC : Z := 0x0c000000.

(** The address of entry [i] of the page table at [pagetable]. *)
Definition pte_addr (pagetable i : Z) : Z := pagetable + 8 * i.

(** What vm.c reads of myproc(): its page table and its size. *)
Record uproc := Uproc { p_pagetable : Z; p_sz : Z }.

Section vm.
Context `{L : Layout}.

(** * Page-table walks *)

Definition rd64 (a : Z) : M mach Z := gets (fun s => ld64 (mmem s) a).
Definition wr64 (a v : Z) : M mach unit := modify (set_mem (fun m => st64 m a v)).
Definition mset (a c n : Z) : M mach unit := modify (set_mem (fun m => memset m a c n)).

(** The loop of walk() from [level] down to 0. *)
Fixpoint walk_level (level : nat) (pagetable va : Z) (alloc : bool) : M mach Z :=
  match level with
  | O => ret (pte_addr pagetable (PX 0 va))
  | S l =>
      let pte := pte_addr pagetable (PX level va) in
      let! v := rd64 pte in
      if has_flag v PTE_V then walk_level l (PTE2PA v) va alloc
      else if negb alloc then ret 0 else
      let! pagetable := kalloc in
      if pagetable =? 0 then ret 0 else
      mset pagetable 0 PGSIZE ;;
      wr64 pte (Z.lor (PA2PTE pagetable) PTE_V) ;;
      walk_level l pagetable va alloc
  end.
Definition walk (pagetable va : Z) (alloc : bool) : M mach Z :=
  if MAXVA <=? va then panic "walk" else walk_level 2 pagetable va alloc.

Definition walkaddr (pagetable va : Z) : M mach Z :=
  if MAXVA <=? va then ret 0 else
  let! pte := walk pagetable va false in
  if pte =? 0 then ret 0 else
  let! v := rd64 pte in
  if negb (has_flag v PTE_V) then ret 0 else
  if negb (has_flag v PTE_U) then ret 0 else
  ret (PTE2PA v).

Definition ismapped (pagetable va : Z) : M mach bool :=
  let! pte := walk pagetable va false in
  if pte =? 0 then ret false else
  let! v := rd64 pte in
  ret (has_flag v PTE_V).

(** * Mapping and unmapping *)

(** The for(;;) loop of mappages(); [fuel] counts the pages still to map. *)
Fixpoint mappages_loop (fuel : nat) (pagetable a last pa perm : Z) : M mach Z :=
  match fuel with
  | O => nofuel
  | S fuel =>
      let! pte := walk pagetable a true in
      if pte =? 0 then ret (-1) else
      let! v := rd64 pte in
      if has_flag v PTE_V then panic "mappages: remap" else
      wr64 pte (Z.lor (Z.lor (PA2PTE pa) perm) PTE_V) ;;
      if a =? last then ret 0
      else mappages_loop fuel pagetable (u64 (a + PGSIZE)) last (u64 (pa + PGSIZE)) perm
  end.
Definition mappages (pagetable va size pa perm : Z) : M mach Z :=
  if negb (va mod PGSIZE =? 0) then panic "mappages: va not aligned" else
  if negb (size mod PGSIZE =? 0) then panic "mappages: size not aligned" else
  if size =? 0 then panic "mappages: size" else
  mappages_loop (Z.to_nat (size / PGSIZE)) pagetable va (u64 (va + size - PGSIZE)) pa perm.

Definition uvmcreate : M mach Z :=
  let! pagetable := kalloc in
  if pagetable =? 0 then ret 0 else
  mset pagetable 0 PGSIZE ;;
  ret pagetable.

(** [for(a = va; a < va + npages*PGSIZE; a += PGSIZE)] *)
Fixpoint uvmunmap_loop (fuel : nat) (pagetable a last : Z) (do_free : bool) : M mach unit :=
  if a <? last then
    match fuel with
    | O => nofuel
    | S fuel =>
        (let! pte := walk pagetable a false in
         if pte =? 0 then ret tt else
         let! v := rd64 pte in
         if negb (has_flag v PTE_V) then ret tt else
         (if do_free then kfree (PTE2PA v) else ret tt) ;;
         wr64 pte 0) ;;
        uvmunmap_loop fuel pagetable (u64 (a + PGSIZE)) last do_free
    end
  else ret tt.
Definition uvmunmap (pagetable va npages : Z) (do_free : bool) : M mach unit :=
  if negb (va mod PGSIZE =? 0) then panic "uvmunmap: not aligned" else
  uvmunmap_loop (Z.to_nat npages) pagetable va (u64 (va + npages * PGSIZE)) do_free.

Definition uvmdealloc (pagetable oldsz newsz : Z) : M mach Z :=
  if oldsz <=? newsz then ret oldsz else
  (if PGROUNDUP newsz <? PGROUNDUP oldsz then
     let npages := s32 (u64 (PGROUNDUP oldsz - PGROUNDUP newsz) / PGSIZE) in
     uvmunmap pagetable (PGROUNDUP newsz) (u64 npages) true
   else ret tt) ;;
  ret newsz.

(** [for(a = oldsz; a < newsz; a += PGSIZE)] *)
Fixpoint uvmalloc_loop (fuel : nat) (pagetable a oldsz newsz xperm : Z) : M mach Z :=
  if a <? newsz then
    match fuel with
    | O => nofuel
    | S fuel =>
        let! m := kalloc in
        if m =? 0 then uvmdealloc pagetable a oldsz ;; ret 0 else
        mset m 0 PGSIZE ;;
        let! r := mappages pagetable a PGSIZE m (Z.lor (Z.lor PTE_R PTE_U) xperm) in
        if negb (r =? 0) then kfree m ;; uvmdealloc pagetable a oldsz ;; ret 0 else
        uvmalloc_loop fuel pagetable (u64 (a + PGSIZE)) oldsz newsz xperm
    end
  else ret newsz.
Definition uvmalloc (pagetable oldsz newsz xperm : Z) : M mach Z :=
  if newsz <? oldsz then ret oldsz else
  let oldsz := PGROUNDUP oldsz in
  uvmalloc_loop (Z.to_nat ((newsz - oldsz) / PGSIZE + 1)) pagetable oldsz oldsz newsz xperm.

(** The loop over the 512 entries of a page-table page, from entry [i]. *)
Fixpoint freewalk_entries (rec : Z -> M mach unit) (n : nat) (pagetable i : Z) : M mach unit :=
  match n with
  | O => ret tt
  | S n =>
      (let! pte := rd64 (pte_addr pagetable i) in
       if has_flag pte PTE_V && negb (has_flag pte (Z.lor (Z.lor PTE_R PTE_W) PTE_X)) then
         rec (PTE2PA pte) ;; wr64 (pte_addr pagetable i) 0
       else if has_flag pte PTE_V then panic "freewalk: leaf" else ret tt) ;;
      freewalk_entries rec n pagetable (i + 1)
  end.
(** [depth] bounds the recursion; an Sv39 tree has three levels. *)
Fixpoint freewalk (depth : nat) (pagetable : Z) : M mach unit :=
  match depth with
  | O => nofuel
  | S depth => freewalk_entries (freewalk depth) 512 pagetable 0 ;; kfree pagetable
  end.
Definition uvmfree (pagetable sz : Z) : M mach unit :=
  (if 0 <? sz then uvmunmap pagetable 0 (PGROUNDUP sz / PGSIZE) true else ret tt) ;;
  freewalk 3 pagetable.

(** [for(i = 0; i < sz; i += PGSIZE)] with its error exit. *)
Fixpoint uvmcopy_loop (fuel : nat) (old new i sz : Z) : M mach Z :=
  if i <? sz then
    match fuel with
    | O => nofuel
    | S fuel =>
        let next := uvmcopy_loop fuel old new (u64 (i + PGSIZE)) sz in
        let err := uvmunmap new 0 (i / PGSIZE) true ;; ret (-1) in
        let! pte := walk old i false in
        if pte =? 0 then next else
        let! v := rd64 pte in
        if negb (has_flag v PTE_V) then next else
        let pa := PTE2PA v in
        let flags := PTE_FLAGS v in
        let! m := kalloc in
        if m =? 0 then err else
        modify (set_mem (fun mm => memmove mm m pa PGSIZE)) ;;
        let! r := mappages new i PGSIZE m flags in
        if negb (r =? 0) then kfree m ;; err else next
    end
  else ret 0.
Definition uvmcopy (old new sz : Z) : M mach Z :=
  uvmcopy_loop (Z.to_nat (sz / PGSIZE + 1)) old new 0 sz.

Definition uvmclear (pagetable va : Z) : M mach unit :=
  let! pte := walk pagetable va false in
  if pte =? 0 then panic "uvmclear" else
  let! v := rd64 pte in
  wr64 pte (Z.land v (Z.lnot PTE_U)).

(** * Page faults and copies between user and kernel *)

Definition vmfault (p : uproc) (pagetable va : Z) (read : bool) : M mach Z :=
  if p_sz p <=? va then ret 0 else
  let va := PGROUNDDOWN va in
  let! mapped := ismapped pagetable va in
  if mapped then ret 0 else
  let! m := kalloc in
  if m =? 0 then ret 0 else
  mset m 0 PGSIZE ;;
  let! r := mappages (p_pagetable p) va PGSIZE m (Z.lor (Z.lor PTE_W PTE_U) PTE_R) in
  if negb (r =? 0) then kfree m ;; ret 0 else ret m.

(** The source is kernel data: the bytes still to copy, [len] of them. *)
Fixpoint copyout_loop (fuel : nat) (p : uproc) (pagetable dstva : Z) (src : list Z) : M mach Z :=
  match src with
  | [] => ret 0
  | _ =>
      match fuel with
      | O => nofuel
      | S fuel =>
          let va0 := PGROUNDDOWN dstva in
          if MAXVA <=? va0 then ret (-1) else
          let! pa0 := walkaddr pagetable va0 in
          let! pa0 := (if pa0 =? 0 then vmfault p pagetable va0 false else ret pa0) in
          if pa0 =? 0 then ret (-1) else
          let! pte := walk pagetable va0 false in
          if pte =? 0 then panic "kerneltrap" else (* a load through a null pte *)
          let! v := rd64 pte in
          if negb (has_flag v PTE_W) then ret (-1) else
          let n := Z.min (PGSIZE - (dstva - va0)) (Z.of_nat (length src)) in
          modify (set_mem (fun m => st_bytes m (pa0 + (dstva - va0)) (take (Z.to_nat n) src))) ;;
          copyout_loop fuel p pagetable (u64 (va0 + PGSIZE)) (drop (Z.to_nat n) src)
      end
  end.
Definition copyout (p : uproc) (pagetable dstva : Z) (src : list Z) : M mach Z :=
  copyout_loop (length src) p pagetable dstva src.

(** Returns the bytes stored at the destination and whether all [len] were
    copied (0) or not (-1). *)
Fixpoint copyin_loop (fuel : nat) (p : uproc) (pagetable srcva len : Z) : M mach (list Z * bool) :=
  if len <=? 0 then ret ([], true) else
  match fuel with
  | O => nofuel
  | S fuel =>
      let va0 := PGROUNDDOWN srcva in
      let! pa0 := walkaddr pagetable va0 in
      let! pa0 := (if pa0 =? 0 then vmfault p pagetable va0 false else ret pa0) in
      if pa0 =? 0 then ret ([], false) else
      let n := Z.min (PGSIZE - (srcva - va0)) len in
      let! bs := gets (fun s => ld_bytes (mmem s) (pa0 + (srcva - va0)) (Z.to_nat n)) in
      let! (rest, ok) := copyin_loop fuel p pagetable (u64 (va0 + PGSIZE)) (len - n) in
      ret (bs ++ rest, ok)
  end.
Definition copyin (p : uproc) (pagetable srcva len : Z) : M mach (list Z * bool) :=
  copyin_loop (Z.to_nat len) p pagetable srcva len.

(** The inner loop of copyinstr: up to [n] bytes from physical address
    [pa], and whether the NUL was among them. *)
Fixpoint copyinstr_page (m : mem) (pa : Z) (n : nat) : list Z * bool :=
  match n with
  | O => ([], false)
  | S n =>
      if ld8 m pa =? 0 then ([], true)
      else let '(bs, got) := copyinstr_page m (pa + 1) n in (ld8 m pa :: bs, got)
  end.
(** Returns the string without its NUL, or [None] for -1. *)
Fixpoint copyinstr_loop (fuel : nat) (p : uproc) (pagetable srcva max : Z) : M mach (option (list Z)) :=
  if max <=? 0 then ret None else
  match fuel with
  | O => nofuel
  | S fuel =>
      let va0 := PGROUNDDOWN srcva in
      let! pa0 := walkaddr pagetable va0 in
      let! pa0 := (if pa0 =? 0 then vmfault p pagetable va0 true else ret pa0) in
      if pa0 =? 0 then ret None else
      let n := Z.min (PGSIZE - (srcva - va0)) max in
      let! r := gets (fun s => copyinstr_page (mmem s) (pa0 + (srcva - va0)) (Z.to_nat n)) in
      let '(bs, got_null) := r in
      if got_null then ret (Some bs) else
      let! rest := copyinstr_loop fuel p pagetable (u64 (va0 + PGSIZE)) (max - n) in
      ret (app bs <$> rest)
  end.
Definition copyinstr (p : uproc) (pagetable srcva max : Z) : M mach (option (list Z)) :=
  copyinstr_loop (Z.to_nat max) p pagetable srcva max.

End vm.
