(* ===== verification/VmSpec.v ===== *)
(** The page-table tree of [Vm] and what walk, mappages and uvmunmap do to it. *)
From S2P Require Import Prelude Mem Str Kalloc Vm.

(** * Entries and indices *)

Lemma has_flag_testbit v k : 0 <= k -> has_flag v (2 ^ k) = Z.testbit v k.
Proof. intros Hk. unfold has_flag. rewrite land_pow2_testbit by done. apply negb_involutive. Qed.

Lemma has_flag_V v : has_flag v PTE_V = Z.testbit v 0.
Proof. by apply (has_flag_testbit v 0). Qed.
Lemma has_flag_W v : has_flag v PTE_W = Z.testbit v 2.
Proof. by apply (has_flag_testbit v 2). Qed.
Lemma has_flag_U v : has_flag v PTE_U = Z.testbit v 4.
Proof. by apply (has_flag_testbit v 4). Qed.

Lemma shiftl_range x k w : 0 <= x < 2 ^ w -> 0 <= k -> 0 <= w -> 0 <= Z.shiftl x k < 2 ^ (w + k).
Proof. intros Hx Hk Hw. rewrite Z.shiftl_mul_pow2, Z.pow_add_r by lia. nia. Qed.

Lemma shiftr_range x k w : 0 <= x < 2 ^ w -> 0 <= k <= w -> 0 <= Z.shiftr x k < 2 ^ (w - k).
Proof.
  intros Hx Hk. rewrite Z.shiftr_div_pow2 by lia. split; [apply Z.div_pos; lia|].
  apply Z.div_lt_upper_bound; [lia|]. rewrite <- Z.pow_add_r by lia.
  replace (k + (w - k)) with w by lia. lia.
Qed.

Lemma lor_range a b w : 0 <= w -> 0 <= a < 2 ^ w -> 0 <= b < 2 ^ w -> 0 <= Z.lor a b < 2 ^ w.
Proof.
  intros Hw Ha Hb. split; [apply Z.lor_nonneg; lia|].
  destruct (decide (Z.lor a b = 0)) as [->|Hne]; [lia|].
  assert (0 <= Z.lor a b) by (apply Z.lor_nonneg; lia).
  apply Z.log2_lt_pow2; [lia|]. rewrite Z.log2_lor by lia.
  assert (Hlog : forall x, 0 <= x < 2 ^ w -> Z.log2 x < w \/ x = 0).
  { intros x Hx. destruct (decide (x = 0)); [by right|left; apply Z.log2_lt_pow2; lia]. }
  pose proof (Z.log2_nonneg a). pose proof (Z.log2_nonneg b).
  destruct (Hlog a Ha) as [| ->], (Hlog b Hb) as [| ->]; simpl in *; try lia. by destruct Hne.
Qed.

Lemma PA2PTE_eq pa : 0 <= pa < 2 ^ 56 -> PA2PTE pa = Z.shiftl (Z.shiftr pa 12) 10.
Proof.
  intros Hpa. apply u64_small.
  pose proof (shiftr_range pa 12 56 Hpa ltac:(lia)).
  pose proof (shiftl_range (Z.shiftr pa 12) 10 44 ltac:(done) ltac:(lia) ltac:(lia)). lia.
Qed.

Lemma PA2PTE_range pa : 0 <= pa < 2 ^ 56 -> 0 <= PA2PTE pa < 2 ^ 54.
Proof.
  intros Hpa. rewrite PA2PTE_eq by done.
  apply (shiftl_range _ 10 44); [|lia|lia]. apply (shiftr_range pa 12 56); [done|lia].
Qed.

Lemma pte_range pa perm : 0 <= pa < 2 ^ 56 -> 0 <= perm < 2 ^ 10 ->
  0 <= Z.lor (PA2PTE pa) perm < 2 ^ 54.
Proof. intros Hpa Hp. apply lor_range; [lia|by apply PA2PTE_range|lia]. Qed.

(** The physical address and the flags of an entry can be read back. *)
Lemma PTE2PA_lor pa f :
  0 <= pa < 2 ^ 56 -> pa mod PGSIZE = 0 -> 0 <= f < 2 ^ 10 -> PTE2PA (Z.lor (PA2PTE pa) f) = pa.
Proof.
  intros Hpa Hal Hf. unfold PTE2PA. rewrite PA2PTE_eq by done.
  rewrite Z.shiftr_lor, Z.shiftr_shiftl_l, Z.sub_diag, Z.shiftl_0_r by lia.
  replace (Z.shiftr f 10) with 0 by (rewrite Z.shiftr_div_pow2, Z.div_small by lia; done).
  rewrite Z.lor_0_r, Z.shiftl_mul_pow2, Z.shiftr_div_pow2 by lia.
  unfold PGSIZE in Hal. change 4096 with (2 ^ 12) in Hal.
  pose proof (Z.div_mod pa (2 ^ 12) ltac:(done)). rewrite u64_small by lia. lia.
Qed.

Lemma PTE_FLAGS_lor pa f :
  0 <= pa < 2 ^ 56 -> 0 <= f < 2 ^ 10 -> PTE_FLAGS (Z.lor (PA2PTE pa) f) = f.
Proof.
  intros Hpa Hf. unfold PTE_FLAGS. change 0x3FF with (Z.ones 10).
  rewrite Z.land_ones, PA2PTE_eq by lia. apply Z.bits_inj'. intros i Hi.
  rewrite Z.testbit_mod_pow2, Z.lor_spec by lia.
  destruct (Z.ltb_spec i 10) as [Hlt|Hge]; simpl.
  - by rewrite Z.shiftl_spec_low by lia.
  - rewrite <- (Z.mod_small f (2 ^ 10)) by lia. by rewrite Z.mod_pow2_bits_high by lia.
Qed.

Lemma PX_eq level va : PX level va = (va / 2 ^ PXSHIFT level) mod 512.
Proof.
  unfold PX. change 0x1FF with (Z.ones 9). rewrite Z.land_ones by lia.
  rewrite Z.shiftr_div_pow2 by (unfold PXSHIFT; lia). done.
Qed.

Lemma PX_range level va : 0 <= PX level va < 512.
Proof. rewrite PX_eq. by apply Z.mod_pos_bound. Qed.

(** The three indices determine the page of a virtual address. *)
Lemma PX_page va va' :
  0 <= va < MAXVA -> 0 <= va' < MAXVA ->
  PX 2 va = PX 2 va' -> PX 1 va = PX 1 va' -> PX 0 va = PX 0 va' ->
  va / PGSIZE = va' / PGSIZE.
Proof.
  intros Hva Hva' E2 E1 E0.
  assert (forall x, 0 <= x < MAXVA ->
    x / PGSIZE = PX 0 x + 512 * (PX 1 x + 512 * PX 2 x)) as Hdec.
  { intros x Hx. rewrite !PX_eq. unfold PGSIZE. change MAXVA with (2 ^ 38) in Hx.
    change (2 ^ PXSHIFT 0) with 4096. change (2 ^ PXSHIFT 1) with (4096 * 512).
    change (2 ^ PXSHIFT 2) with (4096 * 512 * 512).
    rewrite <- !Z.div_div by lia.
    rewrite (Z.mod_small (x / 4096 / 512 / 512)).
    - pose proof (Z.div_mod (x / 4096) 512 ltac:(done)).
      pose proof (Z.div_mod (x / 4096 / 512) 512 ltac:(done)). lia.
    - rewrite !Z.div_div by lia. split; [apply Z.div_pos; lia|]. apply Z.div_lt_upper_bound; lia. }
  by rewrite (Hdec va), (Hdec va'), E0, E1, E2 by done.
Qed.

Lemma PX_same_page level va va' : va / PGSIZE = va' / PGSIZE -> PX level va = PX level va'.
Proof.
  intros H. rewrite !PX_eq. unfold PXSHIFT. rewrite Z.pow_add_r by lia.
  change (2 ^ 12) with PGSIZE. rewrite <- !Z.div_div by (unfold PGSIZE; lia). by rewrite H.
Qed.

Lemma pte_addr_inj p q i j :
  p mod PGSIZE = 0 -> q mod PGSIZE = 0 -> 0 <= i < 512 -> 0 <= j < 512 ->
  pte_addr p i = pte_addr q j -> p = q /\ i = j.
Proof.
  intros [a ->]%page_aligned_ex [b ->]%page_aligned_ex Hi Hj. unfold pte_addr, PGSIZE. lia.
Qed.

(** Entries of different slots do not overlap. *)
Lemma pte_addr_disjoint p q i j :
  p mod PGSIZE = 0 -> q mod PGSIZE = 0 -> 0 <= i < 512 -> 0 <= j < 512 ->
  (p <> q \/ i <> j) -> pte_addr p i + 8 <= pte_addr q j \/ pte_addr q j + 8 <= pte_addr p i.
Proof.
  intros [a ->]%page_aligned_ex [b ->]%page_aligned_ex Hi Hj Hne. unfold pte_addr, PGSIZE in *.
  destruct Hne; lia.
Qed.

Lemma pte_addr_in_page p i x :
  0 <= i < 512 -> pte_addr p i <= x < pte_addr p i + 8 -> in_page p x.
Proof. unfold pte_addr, in_page, PGSIZE. lia. Qed.

(** * The tree *)

(** The flags that make an entry a leaf. *)
Definition PTE_RWX : Z := Z.lor (Z.lor PTE_R PTE_W) PTE_X.

(** The entry for [va] below the table [p] of the given level; 0 when an
    upper-level entry is invalid. *)
Fixpoint pte_at (m : mem) (level : nat) (p va : Z) : Z :=
  let v := ld64 m (pte_addr p (PX level va)) in
  match level with
  | O => v
  | S l => if has_flag v PTE_V then pte_at m l (PTE2PA v) va else 0
  end.
(** The leaf entry the page table at [pt] has for [va]. *)
Definition pte_of (m : mem) (pt va : Z) : Z := pte_at m 2 pt va.

(** The address of that entry. *)
Fixpoint slot_at (m : mem) (level : nat) (p va : Z) : option Z :=
  match level with
  | O => Some (pte_addr p (PX 0 va))
  | S l =>
      let v := ld64 m (pte_addr p (PX level va)) in
      if has_flag v PTE_V then slot_at m l (PTE2PA v) va else None
  end.

(** The indices walk() uses from [level] down to 1. *)
Fixpoint pxs (level : nat) (va : Z) : list Z :=
  match level with
  | O => []
  | S l => PX level va :: pxs l va
  end.

Lemma pte_at_slot m level p va :
  pte_at m level p va = match slot_at m level p va with Some a => ld64 m a | None => 0 end.
Proof.
  revert p. induction level as [|l IH]; intros p; [done|]. cbn [pte_at slot_at].
  by destruct (has_flag _ PTE_V).
Qed.

Lemma has_flag_0 f : has_flag 0 f = false.
Proof. unfold has_flag. by rewrite Z.land_0_l. Qed.

Section tree.
Context `{L : Layout} `{!LayoutOk L}.

(** [own] maps every page of the tree, and no other, to the indices that
    lead to it from the root.  Being a map, it says that no page is reached
    twice.  Entries of upper tables have no permission bits, and the root has
    none for addresses of MAXVA and above. *)
Record pt_inv (m : mem) (pt : Z) (own : gmap Z (list Z)) : Prop := {
  pt_root : own !! pt = Some [];
  pt_page : forall p path, own !! p = Some path -> page_ok p /\ (length path <= 2)%nat;
  pt_step : forall p path i, own !! p = Some path -> (length path < 2)%nat -> 0 <= i < 512 ->
    has_flag (ld64 m (pte_addr p i)) PTE_V = true ->
    own !! PTE2PA (ld64 m (pte_addr p i)) = Some (path ++ [i]);
  pt_dir : forall p path i, own !! p = Some path -> (length path < 2)%nat -> 0 <= i < 512 ->
    has_flag (ld64 m (pte_addr p i)) PTE_V = true -> has_flag (ld64 m (pte_addr p i)) PTE_RWX = false /\ (path = [] -> i < 256);
  pt_link : forall q path i, own !! q = Some (path ++ [i]) -> exists p, own !! p = Some path /\ 0 <= i < 512 /\
    has_flag (ld64 m (pte_addr p i)) PTE_V = true /\ PTE2PA (ld64 m (pte_addr p i)) = q;
  pt_only : forall q, own !! q = Some [] -> q = pt
}.

(** The tree and the free list, on disjoint pages. *)
Record vm_inv (s : mach) (l : list Z) (pt : Z) (own : gmap Z (list Z)) : Prop := {
  vi_kmem : kmem_inv s l;
  vi_pt : pt_inv (mmem s) pt own;
  vi_sep : forall p, p ∈ l -> own !! p = None
}.

Definition owned_byte (own : gmap Z (list Z)) (x : Z) : Prop :=
  exists p path, own !! p = Some path /\ in_page p x.
Definition free_byte (l : list Z) (x : Z) : Prop := exists p, p ∈ l /\ in_page p x.

Lemma slot_owned m pt own level p path va a :
  pt_inv m pt own -> own !! p = Some path -> (length path + level = 2)%nat ->
  slot_at m level p va = Some a ->
  exists q, own !! q = Some (path ++ pxs level va) /\ a = pte_addr q (PX 0 va).
Proof.
  intros Hinv. revert p path. induction level as [|l IH]; intros p path Hp Hlen Ha; cbn [slot_at pxs] in *.
  - exists p. rewrite app_nil_r. split; [done|congruence].
  - destruct (has_flag _ PTE_V) eqn:Hv; [|done].
    apply (IH _ (path ++ [PX (S l) va])) in Ha as (q & Hq & ->).
    + exists q. by rewrite <- (assoc_L (++)) in Hq.
    + eapply pt_step; [done..|lia|apply PX_range|done].
    + rewrite length_app. simpl. lia.
Qed.

(** Distinct pages of virtual addresses have distinct leaf entries. *)
Lemma slot_inj m pt own va va' a :
  pt_inv m pt own -> 0 <= va < MAXVA -> 0 <= va' < MAXVA ->
  slot_at m 2 pt va = Some a -> slot_at m 2 pt va' = Some a -> va / PGSIZE = va' / PGSIZE.
Proof.
  intros Hinv Hva Hva' Ha Ha'.
  eapply slot_owned in Ha as (q & Hq & Eq), Ha' as (q' & Hq' & Eq');
    [|eauto using pt_root..]; [|done..].
  destruct (pt_page _ _ _ Hinv _ _ Hq) as [[Hal _] _].
  destruct (pt_page _ _ _ Hinv _ _ Hq') as [[Hal' _] _].
  destruct (pte_addr_inj q q' (PX 0 va) (PX 0 va')) as [-> E0];
    [done|done|apply PX_range|apply PX_range|congruence|].
  rewrite Hq in Hq'. simpl in Hq'. injection Hq' as E2 E1. by apply PX_page.
Qed.

(** ** Writing a leaf entry *)

Lemma tree_set_leaf m pt own q path j v :
  pt_inv m pt own -> own !! q = Some path -> length path = 2%nat -> 0 <= j < 512 ->
  pt_inv (st64 m (pte_addr q j) v) pt own /\
  forall r path' i, own !! r = Some path' -> 0 <= i < 512 -> (r <> q \/ i <> j) ->
    ld64 (st64 m (pte_addr q j) v) (pte_addr r i) = ld64 m (pte_addr r i).
Proof.
  intros Hinv Hq Hlen Hj.
  assert (forall r path' i, own !! r = Some path' -> 0 <= i < 512 -> (r <> q \/ i <> j) ->
    ld64 (st64 m (pte_addr q j) v) (pte_addr r i) = ld64 m (pte_addr r i)) as Hx.
  { intros r path' i Hr Hi Hne. apply ld64_st64_ne.
    destruct (pt_page _ _ _ Hinv _ _ Hq) as [[Hal _] _].
    destruct (pt_page _ _ _ Hinv _ _ Hr) as [[Hal' _] _].
    by apply pte_addr_disjoint. }
  split; [|done]. destruct Hinv as [Hroot Hpage Hstep Hdir Hlink Honly].
  assert (Hup : forall p path' i, own !! p = Some path' -> (length path' < 2)%nat -> 0 <= i < 512 ->
    ld64 (st64 m (pte_addr q j) v) (pte_addr p i) = ld64 m (pte_addr p i)).
  { intros p path' i Hp Hl Hi. assert (p <> q) by (intros ->; simplify_eq; lia). rewrite (Hx p path' i) by auto. done. }
  split; [done|done|..|done].
  - intros p path' i Hp Hl Hi. rewrite (Hup p path') by done. by apply Hstep.
  - intros p path' i Hp Hl Hi. rewrite (Hup p path') by done. by apply Hdir.
  - intros r path' i Hr. destruct (Hlink r path' i Hr) as (p & Hp & Hi & Hv). destruct (Hpage _ _ Hr) as [_ Hl]. rewrite length_app in Hl. cbn in Hl.
    exists p. rewrite (Hup p path') by (done || lia). done.
Qed.

Lemma pte_at_set_leaf m pt own q path j v level r path' va :
  pt_inv m pt own -> own !! q = Some path -> length path = 2%nat -> 0 <= j < 512 ->
  own !! r = Some path' -> (length path' + level = 2)%nat ->
  slot_at (st64 m (pte_addr q j) v) level r va = slot_at m level r va.
Proof.
  intros Hinv Hq Hlen Hj. destruct (tree_set_leaf m pt own q path j v) as [_ Hx]; [done..|].
  revert r path'. induction level as [|l IH]; intros r path' Hr Hl; [done|]. cbn [slot_at].
  rewrite (Hx r path') by (first [done | apply PX_range | left; intros ->; simplify_eq; lia]).
  destruct (has_flag _ PTE_V) eqn:Hv; [|done].
  eapply IH; [eapply (pt_step _ _ _ Hinv); [done|lia|apply PX_range|done]|].
  rewrite length_app. simpl. lia.
Qed.

(** Storing [v] in the entry of [va] changes what the table says of the
    page of [va] and of no other page. *)
Lemma pte_of_set m pt own va a v va' :
  pt_inv m pt own -> 0 <= va < MAXVA -> 0 <= va' < MAXVA -> 0 <= v < 2 ^ 64 ->
  slot_at m 2 pt va = Some a ->
  pte_of (st64 m a v) pt va' = if va' / PGSIZE =? va / PGSIZE then v else pte_of m pt va'.
Proof.
  intros Hinv Hva Hva' Hv Ha. pose proof (pt_root _ _ _ Hinv) as Hroot.
  destruct (slot_owned m pt own 2 pt [] va a) as (q & Hq & ->); [done..|].
  unfold pte_of. rewrite !pte_at_slot.
  rewrite (pte_at_set_leaf m pt own q _ (PX 0 va) v 2 pt []) by (done || apply PX_range).
  destruct (Z.eqb_spec (va' / PGSIZE) (va / PGSIZE)) as [E|E].
  - assert (slot_at m 2 pt va' = slot_at m 2 pt va) as ->.
    { cbn [slot_at]. by rewrite !(PX_same_page _ va' va) by done. }
    rewrite Ha. by apply ld64_st64_eq.
  - destruct (slot_at m 2 pt va') as [a'|] eqn:Ha'; [|done].
    destruct (slot_owned m pt own 2 pt [] va' a') as (q' & Hq' & ->); [done..|].
    destruct (tree_set_leaf m pt own q ([] ++ pxs 2 va) (PX 0 va) v) as [_ Hx];
      [done..|apply PX_range|].
    apply (Hx q' ([] ++ pxs 2 va')); [done|apply PX_range|].
    destruct (decide (q' = q)) as [->|]; [|by left]. right. intros E0.
    rewrite Hq in Hq'. injection Hq' as E2 E1. destruct E. by apply PX_page.
Qed.

(** ** Adding a page-table page *)

Lemma dir_plain q : page_ok q -> has_flag (Z.lor (PA2PTE q) PTE_V) PTE_RWX = false.
Proof.
  intros Hq. pose proof (page_ok_pos _ Hq). destruct Hq as [Hal Hq].
  assert (F : PTE_FLAGS (Z.lor (PA2PTE q) PTE_V) = PTE_V) by (apply PTE_FLAGS_lor; [unfold PHYSTOP, KERNBASE in Hq; lia|done]).
  unfold has_flag. replace PTE_RWX with (Z.land 0x3FF PTE_RWX) by reflexivity. rewrite Z.land_assoc. fold (PTE_FLAGS (Z.lor (PA2PTE q) PTE_V)). by rewrite F.
Qed.

Lemma tree_grow m m' pt own p path i q :
  pt_inv m pt own -> own !! p = Some path -> (length path < 2)%nat ->
  0 <= i < 512 -> (path = [] -> i < 256) ->
  has_flag (ld64 m (pte_addr p i)) PTE_V = false -> page_ok q -> own !! q = None ->
  (forall r path' j, own !! r = Some path' -> 0 <= j < 512 -> (r <> p \/ j <> i) ->
    ld64 m' (pte_addr r j) = ld64 m (pte_addr r j)) ->
  ld64 m' (pte_addr p i) = Z.lor (PA2PTE q) PTE_V ->
  (forall j, 0 <= j < 512 -> ld64 m' (pte_addr q j) = 0) ->
  pt_inv m' pt (<[q := path ++ [i]]> own) /\
  forall level r path' va, own !! r = Some path' -> (length path' + level = 2)%nat ->
    pte_at m' level r va = pte_at m level r va.
Proof.
  intros Hinv Hp Hlen Hi Hhalf Hinval Hq Hqn Hother Hentry Hzero.
  assert (PTE2PA (ld64 m' (pte_addr p i)) = q) as Hchild.
  { rewrite Hentry. pose proof (page_ok_pos _ Hq). destruct Hq as [Hal Hq].
    apply PTE2PA_lor; [|done|done]. unfold PHYSTOP, KERNBASE in Hq. lia. }
  pose proof Hinv as [Hroot Hpage Hstep Hdir Hlink Honly]. split; [split|].
  - rewrite lookup_insert_ne; [done|]. congruence.
  - intros r path'. rewrite lookup_insert. case_decide as E; [|apply Hpage].
    intros [= <-]. rewrite length_app. simpl. split; [congruence|lia].
  - intros r path' j. rewrite lookup_insert. case_decide as E.
    { subst r. intros _ _ Hj. by rewrite Hzero, has_flag_0. }
    intros Hr Hl Hj Hv. destruct (decide (r = p /\ j = i)) as [[-> ->]|Hne].
    + rewrite Hchild, lookup_insert_eq. congruence.
    + rewrite (Hother r path') in * by (done || by apply not_both).
      rewrite lookup_insert_ne; [by apply Hstep|].
      intros Eq. pose proof (Hstep _ _ _ Hr Hl Hj Hv). congruence.
  - intros r path' j. rewrite lookup_insert. case_decide as E.
    { subst r. intros _ _ Hj. by rewrite Hzero, has_flag_0. }
    intros Hr Hl Hj. destruct (decide (r = p /\ j = i)) as [[-> ->]|Hne].
    + intros _. simplify_eq. split; [|done]. rewrite Hentry. by apply dir_plain.
    + rewrite (Hother r path') by (done || by apply not_both). by apply Hdir.
  - intros r path' j. rewrite lookup_insert. case_decide as E.
    + subst r. intros [= [<- <-]%app_inj_tail]. exists p. rewrite lookup_insert_ne by congruence. split_and!; [done|lia|lia| |done].
      rewrite Hentry. by rewrite has_flag_V, Z.lor_spec, orb_true_r.
    + intros Hr. destruct (Hlink r path' j Hr) as (p' & Hp' & Hj & Hv & Hc). exists p'. rewrite lookup_insert_ne by congruence.
      rewrite (Hother p' path' j) by (try done; apply not_both; intros [-> ->]; congruence). done.
  - intros r. rewrite lookup_insert. case_decide as E; [|apply Honly]. intros [= E2]. by destruct path.
  - induction level as [|l IH]; intros r path' va Hr Hl; cbn [pte_at].
    + apply (Hother r path'); [done|apply PX_range|]. left. intros ->. simplify_eq. lia.
    + destruct (decide (r = p /\ PX (S l) va = i)) as [[-> E]|Hne].
      * rewrite E, Hinval, Hchild, Hentry, has_flag_V, Z.lor_spec, orb_true_r.
        destruct l; cbn [pte_at]; rewrite Hzero by apply PX_range; [done|]. by rewrite has_flag_0.
      * rewrite (Hother r path') by
          (done || apply PX_range || by apply not_both).
        destruct (has_flag (ld64 m (pte_addr r (PX (S l) va))) PTE_V) eqn:Hv; [|done].
        eapply IH; [eapply Hstep; [done|lia|apply PX_range|done]|].
        rewrite length_app. simpl. lia.
Qed.

(** What the tree keeps when tables are added: every leaf entry and every
    valid entry. *)
Definition tree_keep (m m' : mem) (own : gmap Z (list Z)) : Prop :=
  forall r path j, own !! r = Some path -> 0 <= j < 512 ->
    length path = 2%nat \/ has_flag (ld64 m (pte_addr r j)) PTE_V = true ->
    ld64 m' (pte_addr r j) = ld64 m (pte_addr r j).

Lemma slot_keep m m' pt own level r path va a :
  pt_inv m pt own -> tree_keep m m' own -> own !! r = Some path -> (length path + level = 2)%nat ->
  slot_at m level r va = Some a -> slot_at m' level r va = Some a.
Proof.
  intros Hinv Hk. revert r path. induction level as [|l IH]; intros r path Hr Hl; [done|].
  cbn [slot_at]. destruct (has_flag _ PTE_V) eqn:Hv; [|done].
  rewrite (Hk r path) by (done || apply PX_range || by right). rewrite Hv. eapply IH.
  - eapply (pt_step _ _ _ Hinv); [done|lia|apply PX_range|done].
  - rewrite length_app. simpl. lia.
Qed.

Lemma kmem_inv_frame s s' l :
  kmem_inv s l -> kmem_lock s' = kmem_lock s -> freelist s' = freelist s ->
  (forall x, free_byte l x -> ld8 (mmem s') x = ld8 (mmem s) x) -> kmem_inv s' l.
Proof.
  intros [Hl Hc Hn Ho] El Ef Hx. split; [congruence| |done|done].
  rewrite Ef. eapply chain_ext; [|exact Hc]. intros p Hp. apply ld64_ext. intros x Hr.
  apply Hx. exists p. split; [done|]. unfold in_page, PGSIZE. lia.
Qed.

Lemma in_page_ne p q x : page_ok p -> page_ok q -> p <> q -> in_page p x -> ~ in_page q x.
Proof.
  intros [Hp _] [Hq _] Hne Hx Hx'. unfold in_page in *.
  destruct (pages_disjoint p q) as [?|?]; [done..|lia|lia].
Qed.

(** Memory after walk() has linked the fresh page [q] at entry [i] of [p]. *)
Lemma grow_mem m m1 pt own p path i q :
  pt_inv m pt own -> own !! p = Some path -> 0 <= i < 512 -> page_ok q -> own !! q = None ->
  (forall x, ~ in_page q x -> ld8 m1 x = ld8 m x) ->
  let m3 := st64 (memset m1 q 0 PGSIZE) (pte_addr p i) (Z.lor (PA2PTE q) PTE_V) in
  (forall r path' j, own !! r = Some path' -> 0 <= j < 512 -> (r <> p \/ j <> i) ->
    ld64 m3 (pte_addr r j) = ld64 m (pte_addr r j)) /\
  ld64 m3 (pte_addr p i) = Z.lor (PA2PTE q) PTE_V /\
  (forall j, 0 <= j < 512 -> ld64 m3 (pte_addr q j) = 0) /\
  (forall x, ~ in_page q x -> ~ in_page p x -> ld8 m3 x = ld8 m x).
Proof.
  intros Hinv Hp Hi Hq Hqn Hm1 m3.
  destruct (pt_page _ _ _ Hinv _ _ Hp) as [Hpok _].
  assert (p <> q) as Hpq by congruence. pose proof (page_ok_pos _ Hq).
  assert (forall x, ~ in_page q x -> ld8 (memset m1 q 0 PGSIZE) x = ld8 m x) as Hm2.
  { intros x Hx. rewrite memset_spec by done. rewrite Hm1 by done. unfold in_page in Hx. zcases; done. }
  split_and!.
  - intros r path' j Hr Hj Hne. destruct (pt_page _ _ _ Hinv _ _ Hr) as [Hrok _].
    unfold m3. rewrite ld64_st64_ne by (apply pte_addr_disjoint; [apply Hrok|apply Hpok|done..]).
    apply ld64_ext. intros x Hx. apply Hm2. eapply (in_page_ne r q); [done|done|congruence|].
    by eapply pte_addr_in_page.
  - apply ld64_st64_eq. pose proof (pte_range q PTE_V). destruct Hq as [_ Hq].
    unfold PHYSTOP, KERNBASE, PTE_V in *. lia.
  - intros j Hj. unfold m3.
    rewrite ld64_st64_ne by (apply pte_addr_disjoint; [apply Hq|apply Hpok|done|done|left; congruence]).
    apply ld64_zero. intros x Hx. rewrite memset_spec by done.
    apply pte_addr_in_page in Hx; [|done]. unfold in_page in Hx. zcases; done.
  - intros x Hxq Hxp. unfold m3. rewrite ld8_st64_out; [by apply Hm2|].
    unfold in_page, pte_addr, PGSIZE in *. lia.
Qed.

(** ** walk() *)

Lemma walk_level_ro level p va s :
  walk_level level p va false s = Ok (default 0 (slot_at (mmem s) level p va)) s.
Proof.
  revert p. induction level as [|l IH]; intros p; [done|].
  cbn [walk_level slot_at]. unfold bind, rd64, gets at 1.
  by destruct (has_flag _ PTE_V).
Qed.

Lemma slot_pos m pt own level p path va a :
  pt_inv m pt own -> own !! p = Some path -> (length path + level = 2)%nat ->
  slot_at m level p va = Some a -> 0 < a.
Proof.
  intros Hinv Hp Hl Ha. eapply slot_owned in Ha as (q & Hq & ->); [|done..].
  destruct (pt_page _ _ _ Hinv _ _ Hq) as [Hok _]. pose proof (page_ok_pos _ Hok).
  pose proof (PX_range 0 va). unfold pte_addr. lia.
Qed.

(** Pages that joined the tree came from the free list. *)
Definition from_free (own own' : gmap Z (list Z)) (l : list Z) : Prop :=
  forall p path, own' !! p = Some path -> own !! p = Some path \/ p ∈ l.

(** The free list went from [l] to [l'] and no page was lost: what left it is
    in the tree or, for user pages, in [ups]; at most [c] pages left it. *)
Definition pages_of (own : gmap Z (list Z)) (ups : gmap Z Z) (q : Z) : Prop := is_Some (own !! q) \/ exists j, ups !! j = Some q.
Record spent (l l' : list Z) (own' : gmap Z (list Z)) (ups' : gmap Z Z) (c : Z) : Prop := {
  sp_all : forall q, q ∈ l -> q ∈ l' \/ pages_of own' ups' q;
  sp_cost : Z.of_nat (length l) <= Z.of_nat (length l') + c
}.

Lemma pages_of_grow own ups own' ups' q : own ⊆ own' -> (forall j p, ups !! j = Some p -> exists j', ups' !! j' = Some p) ->
  pages_of own ups q -> pages_of own' ups' q.
Proof. intros Ho Hu [[path Hq]|[j Hj]]; [left; exists path; by eapply lookup_weaken|right; by eapply Hu]. Qed.
Lemma spent_refl l own ups c : 0 <= c -> spent l l own ups c.
Proof. intros Hc. split; [by left|lia]. Qed.
Lemma spent_trans l l1 l2 own1 own2 ups1 ups2 c1 c2 c : own1 ⊆ own2 -> (forall j p, ups1 !! j = Some p -> exists j', ups2 !! j' = Some p) ->
  spent l l1 own1 ups1 c1 -> spent l1 l2 own2 ups2 c2 -> c1 + c2 <= c -> spent l l2 own2 ups2 c.
Proof.
  intros Ho Hu [A1 A2] [B1 B2] Hc. split; [|lia]. intros q Hq. destruct (A1 q Hq) as [Hq1|Hq1]; [by apply B1|right; by eapply pages_of_grow].
Qed.
Lemma spent_more l l' own ups ups' c c' : (forall j p, ups !! j = Some p -> exists j', ups' !! j' = Some p) -> c <= c' -> spent l l' own ups c -> spent l l' own ups' c'.
Proof. intros Hu Hc [A1 A2]. split; [|lia]. intros q Hq. destruct (A1 q Hq); [by left|right; by eapply pages_of_grow]. Qed.

(** What an allocating walk guarantees: the tree has only grown, with pages
    taken from the free list, no entry for a user address has changed, and
    a result of 0 means that memory ran out. *)
Definition walk_post (s : mach) (l : list Z) (pt : Z) (own : gmap Z (list Z))
    (level : nat) (p va r : Z) (s' : mach) : Prop :=
  exists own' l', spent l l' own' ∅ (Z.of_nat level) /\
    vm_inv s' l' pt own' /\ own ⊆ own' /\ l' `suffix_of` l /\ from_free own own' l /\
    tree_keep (mmem s) (mmem s') own /\
    (forall va', pte_of (mmem s') pt va' = pte_of (mmem s) pt va') /\
    (forall x, ~ owned_byte own x -> ~ free_byte l x -> ld8 (mmem s') x = ld8 (mmem s) x) /\
    ((r = 0 /\ l' = []) \/ (0 < r /\ slot_at (mmem s') level p va = Some r)).

Lemma walk_post_refl s l pt own level p va r :
  vm_inv s l pt own ->
  ((r = 0 /\ l = []) \/ (0 < r /\ slot_at (mmem s) level p va = Some r)) ->
  walk_post s l pt own level p va r s.
Proof. intros Hinv Hr. exists own, l. split; [apply spent_refl; lia|]. split_and!; try done. by left. Qed.

(** Linking a fresh page keeps the invariant and every entry. *)
Lemma vm_grow s s1 s3 q l pt own p path i :
  vm_inv s (q :: l) pt own -> own !! p = Some path -> (length path < 2)%nat -> 0 <= i < 512 -> (path = [] -> i < 256) ->
  has_flag (ld64 (mmem s) (pte_addr p i)) PTE_V = false ->
  kmem_inv s1 l -> (forall x, ~ in_page q x -> ld8 (mmem s1) x = ld8 (mmem s) x) ->
  s3 = set_mem (fun m => st64 m (pte_addr p i) (Z.lor (PA2PTE q) PTE_V))
         (set_mem (fun m => memset m q 0 PGSIZE) s1) ->
  vm_inv s3 l pt (<[q := path ++ [i]]> own) /\
  tree_keep (mmem s) (mmem s3) own /\
  (forall va, pte_of (mmem s3) pt va = pte_of (mmem s) pt va) /\
  ld64 (mmem s3) (pte_addr p i) = Z.lor (PA2PTE q) PTE_V /\
  (forall x, ~ in_page q x -> ~ in_page p x -> ld8 (mmem s3) x = ld8 (mmem s) x).
Proof.
  intros [Hk Hpt Hsep] Hp Hlen Hi Hhalf Hinval Hk1 Hm1 Es3.
  pose proof Hk as [_ _ Hnd Hok]. apply NoDup_cons in Hnd as [Hql Hnd].
  apply Forall_cons in Hok as [Hqok Hok].
  assert (own !! q = None) as Hqn by (apply Hsep, list_elem_of_here).
  destruct (grow_mem (mmem s) (mmem s1) pt own p path i q) as (HA & HB & HC & HD); [done..|].
  assert (mmem s3 = st64 (memset (mmem s1) q 0 PGSIZE) (pte_addr p i) (Z.lor (PA2PTE q) PTE_V)) as Em
    by (by subst s3).
  rewrite <- Em in HA, HB, HC, HD.
  destruct (tree_grow (mmem s) (mmem s3) pt own p path i q) as [Htree Hpte]; [done..|].
  destruct (pt_page _ _ _ Hpt _ _ Hp) as [Hpok _]. split_and!.
  - split; [|done|].
    + eapply kmem_inv_frame; [exact Hk1|by subst s3|by subst s3|]. intros x (f & Hf & Hx).
      assert (page_ok f) by (rewrite Forall_forall in Hok; auto).
      assert (f <> q) by (intros ->; contradiction).
      assert (own !! f = None) by (apply Hsep; by apply list_elem_of_further).
      assert (f <> p) by congruence.
      transitivity (ld8 (mmem s) x); [apply HD|symmetry; apply Hm1]; by eapply (in_page_ne f).
    + intros r Hr. rewrite lookup_insert_ne by (intros ->; contradiction).
      apply Hsep. by apply list_elem_of_further.
  - intros r path' j Hr Hj Hcase. apply (HA r path'); [done|done|]. apply not_both. intros [-> ->].
    rewrite Hp in Hr. injection Hr as <-. destruct Hcase; [lia|congruence].
  - intros va. apply (Hpte 2%nat pt []); [|done]. apply (pt_root _ _ _ Hpt).
  - exact HB.
  - exact HD.
Qed.

(** An allocating walk that first linked [q] and then went on from it. *)
Lemma walk_post_grow s s3 q l pt own p path level va r s' :
  let i := PX (S level) va in
  vm_inv s (q :: l) pt own -> own !! p = Some path ->
  tree_keep (mmem s) (mmem s3) own ->
  (forall va', pte_of (mmem s3) pt va' = pte_of (mmem s) pt va') ->
  ld64 (mmem s3) (pte_addr p i) = Z.lor (PA2PTE q) PTE_V ->
  (forall x, ~ in_page q x -> ~ in_page p x -> ld8 (mmem s3) x = ld8 (mmem s) x) ->
  walk_post s3 l pt (<[q := path ++ [i]]> own) level q va r s' ->
  walk_post s (q :: l) pt own (S level) p va r s'.
Proof.
  intros i Hinv Hp Hkeep Hpte Hent Hfr (own' & l' & Sp & H1 & H2 & H3 & Hfrom & H4 & H5 & H6 & H7).
  assert (own ⊆ <[q:=path ++ [i]]> own) as Hsub
    by (apply insert_subseteq, (vi_sep _ _ _ _ Hinv), list_elem_of_here).
  pose proof (PX_range (S level) va) as Hi.
  pose proof (km_ok _ _ (vi_kmem _ _ _ _ Hinv)) as Hok. apply Forall_cons in Hok as [Hqok _].
  assert (forall x, in_page q x -> free_byte (q :: l) x) as Hqf
    by (intros x Hx; exists q; split; [apply list_elem_of_here|done]).
  exists own', l'. split_and!; [|done|by etrans|by apply suffix_cons_r|..].
  - destruct Sp as [A1 A2]. split; [|cbn [length]; lia]. intros x [->|Hx]%elem_of_cons; [|by apply A1].
    right. left. exists (path ++ [i]). eapply lookup_weaken; [apply lookup_insert_eq|done].
  - intros r' path' Hr. destruct (Hfrom _ _ Hr) as [Hr'|Hr'].
    + rewrite lookup_insert in Hr'. case_decide as E; [|by left]. right. rewrite E. apply list_elem_of_here.
    + right. by apply list_elem_of_further.
  - intros r' path' j Hr Hj Hcase. rewrite <- (Hkeep r' path' j) by done.
    apply (H4 r' path'); [by eapply lookup_weaken|done|].
    by rewrite (Hkeep r' path' j) by done.
  - intros va'. by rewrite H5, Hpte.
  - intros x Hx1 Hx2. rewrite H6.
    + apply Hfr; intros Hx; [by apply Hx2, Hqf|apply Hx1; by exists p, path].
    + intros (r' & path' & Hr & Hx). rewrite lookup_insert in Hr. case_decide as E.
      * apply Hx2, Hqf. by subst.
      * apply Hx1. by exists r', path'.
    + intros (r' & Hr & Hx). apply Hx2. exists r'. split; [by apply list_elem_of_further|done].
  - destruct H7 as [H7|[H7 H8]]; [by left|right]. split; [done|]. cbn [slot_at]. fold i.
    assert (ld64 (mmem s') (pte_addr p i) = Z.lor (PA2PTE q) PTE_V) as ->.
    { rewrite (H4 p path); [done|by eapply lookup_weaken|done|]. right.
      by rewrite Hent, has_flag_V, Z.lor_spec, orb_true_r. }
    rewrite has_flag_V, Z.lor_spec, orb_true_r, PTE2PA_lor; [done| |apply Hqok|done].
    pose proof (page_ok_pos _ Hqok). destruct Hqok as [_ Hq]. unfold PHYSTOP, KERNBASE in Hq. lia.
Qed.

Lemma PX_half va : 0 <= va < MAXVA -> PX 2 va < 256.
Proof.
  intros Hva. rewrite PX_eq. change MAXVA with (2 ^ 38) in Hva. change (PXSHIFT 2) with 30.
  assert (va / 2 ^ 30 < 256) by (apply Z.div_lt_upper_bound; lia). pose proof (Z.div_pos va (2 ^ 30)). rewrite Z.mod_small; lia.
Qed.

Lemma walk_level_alloc level s l pt own p path va :
  0 <= va < MAXVA -> vm_inv s l pt own -> own !! p = Some path -> (length path + level = 2)%nat ->
  wp (walk_level level p va true) (walk_post s l pt own level p va) s.
Proof.
  intros Hva. revert s l own p path. induction level as [|lv IH]; intros s l own p path Hinv Hp Hlen; cbn [walk_level].
  - wp_simp. apply walk_post_refl; [done|]. right. split; [|done].
    eapply (slot_pos _ pt own 0 p path va); [apply Hinv|done..].
  - unfold rd64 at 1. wp_simp. set (i := PX (S lv) va). set (v := ld64 (mmem s) (pte_addr p i)).
    pose proof (PX_range (S lv) va) as Hi. fold i in Hi.
    destruct (has_flag v PTE_V) eqn:Hv.
    + assert (own !! PTE2PA v = Some (path ++ [i])) as Hc
        by (apply (pt_step _ _ _ (vi_pt _ _ _ _ Hinv)); [done|lia|done|done]).
      eapply wp_mono; [eapply IH; [done|exact Hc|rewrite length_app; simpl; lia]|].
      intros r s' (own' & l' & Sp & H1 & H2 & H3 & Hfrom & H4 & H5 & H6 & H7). exists own', l'.
      split_and!; [by eapply spent_more; [by eexists| |exact Sp]; lia|done..|]. destruct H7 as [H7|[H7 H8]]; [by left|right]. split; [done|].
      cbn [slot_at]. fold i. rewrite (H4 p path) by (done || by right). fold v. by rewrite Hv.
    + simpl. wp_simp. eapply wp_mono; [apply kalloc_spec, Hinv|]. cbn beta.
      intros r s1. destruct l as [|q l].
      { intros [-> ->]. simpl. wp_simp. apply walk_post_refl; [done|by left]. }
      intros (-> & Hk1 & Hm1).
      pose proof (km_ok _ _ (vi_kmem _ _ _ _ Hinv)) as Hok. apply Forall_cons in Hok as [Hqok _].
      pose proof (page_ok_pos _ Hqok). destruct (Z.eqb_spec q 0); [lia|].
      unfold mset, wr64. wp_simp.
      remember (set_mem _ (set_mem _ s1)) as s3 eqn:Es3.
      destruct (vm_grow s s1 s3 q l pt own p path i) as (Hinv3 & Hkeep & Hpte & Hent & Hfr);
        [done|done|lia|done| |done|done| |done|].
      { intros ->. cbn in Hlen. injection Hlen as ->. by apply PX_half. }
      { intros x Hx. rewrite Hm1. unfold in_page in Hx. zcases; done. }
      clear Es3.
      eapply wp_mono; [eapply (IH s3 l _ q (path ++ [i])); [exact Hinv3|by rewrite lookup_insert_eq|
        rewrite length_app; simpl; lia]|].
      intros r s' Hpost. by eapply (walk_post_grow s s3 q l pt own p path).
Qed.

Lemma walk_alloc s l pt own va :
  vm_inv s l pt own -> 0 <= va < MAXVA ->
  wp (walk pt va true) (walk_post s l pt own 2 pt va) s.
Proof.
  intros Hinv Hva. unfold walk. destruct (Z.leb_spec MAXVA va); [lia|].
  apply (walk_level_alloc 2 s l pt own pt []); [done|done|apply Hinv|done].
Qed.

Lemma walk_ro pt va s :
  va < MAXVA -> walk pt va false s = Ok (default 0 (slot_at (mmem s) 2 pt va)) s.
Proof.
  intros Hva. unfold walk. destruct (Z.leb_spec MAXVA va); [lia|]. apply walk_level_ro.
Qed.

Lemma slot_byte m pt own va a x :
  pt_inv m pt own -> slot_at m 2 pt va = Some a -> a <= x < a + 8 -> owned_byte own x.
Proof.
  intros Hinv Ha Hx. eapply slot_owned in Ha as (q & Hq & ->); [|done|apply Hinv|done].
  exists q, ([] ++ pxs 2 va). split; [done|]. eapply pte_addr_in_page; [apply PX_range|done].
Qed.

Lemma vm_set_leaf s l pt own va a v :
  vm_inv s l pt own -> slot_at (mmem s) 2 pt va = Some a ->
  vm_inv (set_mem (fun m => st64 m a v) s) l pt own.
Proof.
  intros [Hk Hpt Hsep] Ha. split; [|simpl|done].
  - eapply kmem_inv_frame; [exact Hk|done|done|]. intros x (f & Hf & Hx). simpl.
    apply ld8_st64_out. destruct (decide (a <= x < a + 8)) as [Hr|]; [|lia].
    destruct (slot_byte _ _ _ _ _ _ Hpt Ha Hr) as (q & path & Hq & Hxq).
    destruct (pt_page _ _ _ Hpt _ _ Hq) as [Hqok _].
    pose proof (km_ok _ _ Hk) as Hok. rewrite Forall_forall in Hok.
    destruct (in_page_ne f q x); [by apply Hok|done| |done|done].
    intros ->. rewrite Hsep in Hq; done.
  - destruct (slot_owned (mmem s) pt own 2 pt [] va a) as (q & Hq & ->); [done|apply Hpt|done|done|].
    by apply (tree_set_leaf (mmem s) pt own q ([] ++ pxs 2 va)); [..|apply PX_range].
Qed.

(** ** mappages() *)

(** The entry mappages() writes. *)
Definition pte_val (pa perm : Z) : Z := Z.lor (Z.lor (PA2PTE pa) perm) PTE_V.

(** [m'] maps the [n] pages from [va] on to the pages from [pa] on, and
    says of every other address what [m] says. *)
Definition maps_pages (m m' : mem) (pt va n pa perm : Z) : Prop :=
  forall va', 0 <= va' < MAXVA ->
    pte_of m' pt va' =
    if (va <=? va') && (va' <? va + n * PGSIZE)
    then pte_val (pa + (va' - va) / PGSIZE * PGSIZE) perm else pte_of m pt va'.

Definition map_post (s : mach) (l : list Z) (pt : Z) (own : gmap Z (list Z))
    (va n pa perm r : Z) (s' : mach) : Prop :=
  exists own' l' k, spent l l' own' ∅ (2 * n) /\
    vm_inv s' l' pt own' /\ own ⊆ own' /\ l' `suffix_of` l /\ from_free own own' l /\
    (forall x, ~ owned_byte own x -> ~ free_byte l x -> ld8 (mmem s') x = ld8 (mmem s) x) /\
    maps_pages (mmem s) (mmem s') pt va k pa perm /\
    ((r = 0 /\ k = n) \/ (r = -1 /\ 0 <= k < n /\ l' = [])).

Lemma pte_val_range pa perm : 0 <= pa < 2 ^ 56 -> 0 <= perm < 2 ^ 10 -> 0 <= pte_val pa perm < 2 ^ 64.
Proof.
  intros Hpa Hp. unfold pte_val. pose proof (pte_range pa perm Hpa Hp).
  pose proof (lor_range (Z.lor (PA2PTE pa) perm) PTE_V 54). unfold PTE_V in *. lia.
Qed.

Lemma pte_val_valid pa perm : has_flag (pte_val pa perm) PTE_V = true.
Proof. unfold pte_val. by rewrite has_flag_V, Z.lor_spec, orb_true_r. Qed.

Lemma div_page_eq va va' : va mod PGSIZE = 0 ->
  (va' / PGSIZE =? va / PGSIZE) = (va <=? va') && (va' <? va + PGSIZE).
Proof.
  intros [k ->]%page_aligned_ex. rewrite (Z.mul_comm PGSIZE), Z.div_mul by done.
  pose proof (Z.div_mod va' PGSIZE ltac:(done)). pose proof (Z.mod_pos_bound va' PGSIZE ltac:(done)).
  unfold PGSIZE in *. zcases; done.
Qed.

(** One page: walk, check, store. *)
Definition map_one (pt a pa perm : Z) : M mach Z :=
  let! pte := walk pt a true in
  if pte =? 0 then ret (-1) else
  let! v := rd64 pte in
  if has_flag v PTE_V then panic "mappages: remap" else
  wr64 pte (pte_val pa perm) ;; ret 0.

Lemma map_one_spec s l pt own a pa perm :
  vm_inv s l pt own -> 0 <= a < MAXVA -> a mod PGSIZE = 0 ->
  0 <= pa < 2 ^ 56 -> 0 <= perm < 2 ^ 10 ->
  has_flag (pte_of (mmem s) pt a) PTE_V = false ->
  wp (map_one pt a pa perm) (map_post s l pt own a 1 pa perm) s.
Proof.
  intros Hinv Ha Hal Hpa Hperm Hunm. unfold map_one. wp_simp.
  eapply wp_mono; [apply walk_alloc; [done|lia]|].
  intros pte s1 (own1 & l1 & Sp & H1 & H2 & H3 & Hfrom & H4 & H5 & H6 & [[-> ->]|[Hpos Hslot]]).
  - simpl. wp_simp. exists own1, [], 0. split_and!; try done; [|right; split_and!; done || lia].
    intros va' Hva'. rewrite H5. zcases; done.
  - destruct (Z.eqb_spec pte 0); [lia|]. unfold rd64, wr64. wp_simp.
    assert (ld64 (mmem s1) pte = pte_of (mmem s) pt a) as ->.
    { rewrite <- H5. unfold pte_of. by rewrite pte_at_slot, Hslot. }
    rewrite Hunm. wp_simp. exists own1, l1, 1. split_and!; try done; [by eapply vm_set_leaf| | |by left].
    + intros x Hx1 Hx2. simpl. rewrite ld8_st64_out; [by apply H6|].
      destruct (decide (pte <= x < pte + 8)) as [Hr|]; [|lia].
      destruct (slot_byte _ _ _ _ _ _ (vi_pt _ _ _ _ H1) Hslot Hr) as (q & path & Hq & Hxq).
      destruct (Hfrom _ _ Hq); [destruct Hx1; by exists q, path|destruct Hx2; by exists q].
    + intros va' Hva'. simpl.
      rewrite (pte_of_set _ _ _ a pte _ va' (vi_pt _ _ _ _ H1)) by (done || by apply pte_val_range).
      rewrite H5, div_page_eq, Z.mul_1_l by done.
      destruct ((a <=? va') && (va' <? a + PGSIZE)) eqn:E; [|done].
      apply andb_true_iff in E as [E1%Z.leb_le E2%Z.ltb_lt].
      rewrite Z.div_small by lia. by rewrite Z.mul_0_l, Z.add_0_r.
Qed.

Lemma maps_pages_cons m m1 m2 pt va k pa perm :
  va mod PGSIZE = 0 -> 0 <= k ->
  maps_pages m m1 pt va 1 pa perm -> maps_pages m1 m2 pt (va + PGSIZE) k (pa + PGSIZE) perm ->
  maps_pages m m2 pt va (k + 1) pa perm.
Proof.
  intros Hal Hk H1 H2 va' Hva'. rewrite (H2 va'), (H1 va') by done.
  replace (va' - va) with (va' - (va + PGSIZE) + 1 * PGSIZE) by lia.
  rewrite Z.div_add by done. unfold PGSIZE in *. zcases; try done.
  f_equal. lia.
Qed.

Lemma maps_pages_none m m1 m2 pt va pa perm :
  maps_pages m m1 pt va 1 pa perm -> maps_pages m1 m2 pt (va + PGSIZE) 0 (pa + PGSIZE) perm ->
  maps_pages m m2 pt va 1 pa perm.
Proof. intros H1 H2 va' Hva'. rewrite (H2 va'), (H1 va') by done. zcases; done. Qed.

Lemma owned_or_free own own' l l' x :
  from_free own own' l -> l' `suffix_of` l ->
  ~ owned_byte own x -> ~ free_byte l x -> ~ owned_byte own' x /\ ~ free_byte l' x.
Proof.
  intros Hf [k ->] Ho Hx. split.
  - intros (p & path & Hp & Hin). destruct (Hf _ _ Hp); [apply Ho; by exists p, path|apply Hx; by exists p].
  - intros (p & Hp & Hin). apply Hx. exists p. split; [|done]. apply elem_of_app. by right.
Qed.

Lemma map_post_cons s l pt own va n pa perm r s1 own1 l1 s2 :
  va mod PGSIZE = 0 -> 0 < n ->
  spent l l1 own1 ∅ 2 -> own ⊆ own1 -> l1 `suffix_of` l -> from_free own own1 l ->
  (forall x, ~ owned_byte own x -> ~ free_byte l x -> ld8 (mmem s1) x = ld8 (mmem s) x) ->
  maps_pages (mmem s) (mmem s1) pt va 1 pa perm ->
  map_post s1 l1 pt own1 (va + PGSIZE) (n - 1) (pa + PGSIZE) perm r s2 ->
  map_post s l pt own va n pa perm r s2.
Proof.
  intros Hal Hn Sp Ho Hs Hf Hx Hm (own2 & l2 & k & Sp2 & H1 & H2 & H3 & H4 & H5 & H6 & H7).
  exists own2, l2, (k + 1). split_and!; try done.
  - eapply spent_trans; [exact H2| |exact Sp|exact Sp2|lia]. by eexists.
  - by transitivity own1.
  - by transitivity l1.
  - intros p path Hp. destruct (H4 _ _ Hp) as [Hp1|Hp1]; [by apply Hf|].
    right. destruct Hs as [j ->]. apply elem_of_app. by right.
  - intros x Hx1 Hx2. destruct (owned_or_free own own1 l l1 x) as [? ?]; [done..|].
    rewrite H5 by done. by apply Hx.
  - eapply maps_pages_cons; [done| |done|done]. destruct H7 as [[_ ->]|[_ [? _]]]; lia.
  - destruct H7 as [[-> ->]|(-> & ? & ->)]; [left|right]; split_and!; done || lia.
Qed.

Lemma mappages_loop_S fuel pt a last pa perm Q s :
  wp (map_one pt a pa perm) (fun r s' =>
    if r =? 0 then
      if a =? last then Q 0 s'
      else wp (mappages_loop fuel pt (u64 (a + PGSIZE)) last (u64 (pa + PGSIZE)) perm) Q s'
    else Q (-1) s') s ->
  wp (mappages_loop (S fuel) pt a last pa perm) Q s.
Proof.
  unfold map_one. cbn [mappages_loop]. rewrite !wp_bind. intros H.
  eapply wp_mono; [exact H|]. intros pte s1. cbn beta. destruct (pte =? 0); [intros Hx; exact Hx|].
  unfold rd64, wr64. wp_simp. destruct (has_flag _ PTE_V); [intros []|]. wp_simp.
  simpl. by destruct (a =? last).
Qed.

Lemma mappages_loop_spec n s l pt own va pa perm :
  (0 < n)%nat -> vm_inv s l pt own -> 0 <= va -> va + Z.of_nat n * PGSIZE <= MAXVA ->
  va mod PGSIZE = 0 -> 0 <= pa -> pa + Z.of_nat n * PGSIZE <= 2 ^ 56 -> 0 <= perm < 2 ^ 10 ->
  (forall va', va <= va' < va + Z.of_nat n * PGSIZE ->
     has_flag (pte_of (mmem s) pt va') PTE_V = false) ->
  wp (mappages_loop n pt va (va + (Z.of_nat n - 1) * PGSIZE) pa perm)
     (map_post s l pt own va (Z.of_nat n) pa perm) s.
Proof.
  intros Hn. revert s l own va pa Hn.
  induction n as [|n IH]; intros s l own va pa Hn Hinv Hva Hmax Hal Hpa Hpmax Hperm Hun; [lia|].
  pose proof (Nat2Z.is_nonneg n) as Hn0. rewrite Nat2Z.inj_succ in *. unfold Z.succ in *.
  apply mappages_loop_S. eapply wp_mono.
  { apply map_one_spec; [exact Hinv| |done| |done|apply Hun]; unfold PGSIZE, MAXVA in *; lia. }
  intros r s1 (own1 & l1 & k & Sp & H1 & H2 & H3 & H4 & H5 & H6 & [[-> ->]|(-> & Hk & ->)]); simpl.
  - destruct n as [|n'].
    + rewrite (proj2 (Z.eqb_eq _ _)) by lia. exists own1, l1, 1. split_and!; try done. by left.
    + assert (PGSIZE = 4096) as EP by done. rewrite (proj2 (Z.eqb_neq _ _)) by lia.
      assert (MAXVA = 274877906944) as EM by done.
      rewrite !u64_small by lia.
      replace (va + (Z.of_nat (S n') + 1 - 1) * PGSIZE)
        with ((va + PGSIZE) + (Z.of_nat (S n') - 1) * PGSIZE) by lia.
      eapply wp_mono; [apply (IH s1 l1 own1); try done; try lia|].
      * rewrite <- (Z.mul_1_l PGSIZE) at 1. by rewrite Z_mod_plus_full.
      * intros va' Hva'. rewrite (H6 va') by lia.
        rewrite (proj2 (Z.ltb_ge va' _)), andb_false_r by lia. apply Hun. lia.
      * intros r s2 Hpost. eapply map_post_cons; [done| |done..|].
        -- lia.
        -- by replace (Z.of_nat (S n') + 1 - 1) with (Z.of_nat (S n')) by lia.
  - assert (k = 0) as -> by lia. exists own1, [], 0. split_and!; try done; [by eapply spent_more; [by eexists| |exact Sp]; lia|]. right. split_and!; done || lia.
Qed.

End tree.
