(* ===== verification/VmUser.v ===== *)
(** User address spaces: the pages a page table maps, who owns them, and
    what uvmunmap, uvmdealloc, uvmalloc, uvmcopy, vmfault, copyin and
    copyout of kernel/vm.c do to them. *)
From S2P Require Import Prelude Mem Str Kalloc Vm VmSpec.

(** Pages below MAXVA. *)
Definition NPG : Z := MAXVA / PGSIZE.
(** The leaf entry for page number [n]. *)
Definition pte_pg (m : mem) (pt n : Z) : Z := pte_of m pt (n * PGSIZE).

Lemma pte_of_pg m pt va : pte_of m pt va = pte_pg m pt (va / PGSIZE).
Proof.
  unfold pte_pg, pte_of. rewrite !pte_at_slot. cbn [slot_at].
  assert (va / PGSIZE = va / PGSIZE * PGSIZE / PGSIZE) as H by (by rewrite Z.div_mul).
  by rewrite !(PX_same_page _ _ _ H).
Qed.

Lemma NPG_eq : NPG = 2 ^ 26.
Proof. done. Qed.
Lemma MAXVA_eq : MAXVA = 2 ^ 38.
Proof. done. Qed.
Lemma pg_range n : 0 <= n < NPG -> 0 <= n * PGSIZE < MAXVA.
Proof. rewrite NPG_eq, MAXVA_eq. unfold PGSIZE. lia. Qed.

Section user.
Context `{L : Layout} `{!LayoutOk L}.

(** ** Frame *)

Lemma ld64_owned m m' pt own p path i :
  pt_inv m pt own -> own !! p = Some path -> 0 <= i < 512 ->
  (forall x, owned_byte own x -> ld8 m' x = ld8 m x) ->
  ld64 m' (pte_addr p i) = ld64 m (pte_addr p i).
Proof.
  intros Hinv Hp Hi Hx. apply ld64_ext. intros x Hr. apply Hx. exists p, path.
  split; [done|]. by eapply pte_addr_in_page.
Qed.

Lemma slot_frame m m' pt own level p path va :
  pt_inv m pt own -> own !! p = Some path -> (length path + level = 2)%nat ->
  (forall x, owned_byte own x -> ld8 m' x = ld8 m x) ->
  slot_at m' level p va = slot_at m level p va.
Proof.
  intros Hinv Hp Hl Hx. revert p path Hp Hl.
  induction level as [|level IH]; intros p path Hp Hl; [done|]. cbn [slot_at].
  rewrite (ld64_owned m m' pt own p path) by (done || apply PX_range).
  destruct (has_flag _ PTE_V) eqn:Hv; [|done].
  eapply IH; [eapply (pt_step _ _ _ Hinv); [done|lia|apply PX_range|done]|].
  rewrite length_app. simpl. lia.
Qed.

Lemma pte_frame m m' pt own va :
  pt_inv m pt own -> (forall x, owned_byte own x -> ld8 m' x = ld8 m x) ->
  pte_of m' pt va = pte_of m pt va.
Proof.
  intros Hinv Hx. unfold pte_of. rewrite !pte_at_slot.
  rewrite (slot_frame m m' pt own 2 pt []) by (done || apply Hinv).
  destruct (slot_at m 2 pt va) as [a|] eqn:Ha; [|done]. apply ld64_ext. intros x Hr.
  apply Hx. by eapply slot_byte.
Qed.

Lemma pt_inv_frame m m' pt own :
  pt_inv m pt own -> (forall x, owned_byte own x -> ld8 m' x = ld8 m x) -> pt_inv m' pt own.
Proof.
  intros Hinv Hx. split; [apply Hinv|apply Hinv|..|apply Hinv].
  - intros p path i Hp Hl Hi. rewrite (ld64_owned m m' pt own p path) by done. by apply Hinv.
  - intros p path i Hp Hl Hi. rewrite (ld64_owned m m' pt own p path) by done. by apply Hinv.
  - intros q path i Hq. destruct (pt_link _ _ _ Hinv q path i Hq) as (p & Hp & Hi & Hv). exists p.
    rewrite (ld64_owned m m' pt own p path) by done. done.
Qed.

(** ** The address space of a process *)

(** [ups] gives for each user page number the physical page mapped there.
    The user pages, the page-table pages [own] and the free list [l] are
    pairwise disjoint. *)
Record as_inv (s : mach) (l : list Z) (pt : Z) (own : gmap Z (list Z)) (ups : gmap Z Z) : Prop := {
  as_vm : vm_inv s l pt own;
  as_leaf : forall n pa, ups !! n = Some pa ->
    0 <= n < NPG /\ has_flag (pte_pg (mmem s) pt n) PTE_V = true /\ PTE2PA (pte_pg (mmem s) pt n) = pa;
  as_page : forall n pa, ups !! n = Some pa -> page_ok pa /\ own !! pa = None /\ pa ∉ l;
  as_inj : forall n n' pa, ups !! n = Some pa -> ups !! n' = Some pa -> n = n'
}.

(** [s'] is [s] with page-number range [n, n+k) unmapped; the pages [fr] are
    the ones freed. *)
Record unmap_post (s : mach) (l : list Z) (pt : Z) (own : gmap Z (list Z)) (ups : gmap Z Z)
    (n k : Z) (do_free : bool) (fr : list Z) (ups' : gmap Z Z) (s' : mach) : Prop := {
  un_inv : as_inv s' (fr ++ l) pt own ups';
  un_ups : forall j, ups' !! j = if (n <=? j) && (j <? n + k) then None else ups !! j;
  un_in : forall j, 0 <= j < NPG -> n <= j < n + k -> has_flag (pte_pg (mmem s') pt j) PTE_V = false;
  un_out : forall j, 0 <= j < NPG -> ~ (n <= j < n + k) -> pte_pg (mmem s') pt j = pte_pg (mmem s) pt j;
  un_fr : forall p, p ∈ fr <-> do_free = true /\ exists j, n <= j < n + k /\ ups !! j = Some p;
  un_len : Z.of_nat (length fr) <= k;
  un_bytes : forall x, ~ owned_byte own x -> ~ free_byte fr x -> ld8 (mmem s') x = ld8 (mmem s) x;
  un_dirs : forall r path j, own !! r = Some path -> (length path < 2)%nat -> 0 <= j < 512 ->
    ld64 (mmem s') (pte_addr r j) = ld64 (mmem s) (pte_addr r j)
}.

(** The body of the loop of uvmunmap(). *)
Definition unmap_one (pt a : Z) (do_free : bool) : M mach unit :=
  let! pte := walk pt a false in
  if pte =? 0 then ret tt else
  let! v := rd64 pte in
  if negb (has_flag v PTE_V) then ret tt else
  (if do_free then kfree (PTE2PA v) else ret tt) ;;
  wr64 pte 0.

Lemma unmap_none s l pt own ups n k do_free :
  as_inv s l pt own ups -> 0 <= k ->
  (forall j, 0 <= j < NPG -> n <= j < n + k -> has_flag (pte_pg (mmem s) pt j) PTE_V = false) ->
  unmap_post s l pt own ups n k do_free [] ups s.
Proof.
  intros Hinv Hk Hn.
  assert (forall j p, n <= j < n + k -> ups !! j <> Some p) as Hnone.
  { intros j p Hj Hp. destruct (as_leaf _ _ _ _ _ Hinv _ _ Hp) as (Hr & Hv & _). by rewrite Hn in Hv. }
  split; try done.
  - intros j. zcases; try done. destruct (ups !! j) as [p|] eqn:E; [|done]. edestruct Hnone; [|done]. lia.
  - intros p. split; [by intros ?%not_elem_of_nil|]. intros (_ & j & Hj & Hp). by edestruct Hnone.
Qed.

Lemma slot_valid m pt n :
  has_flag (pte_pg m pt n) PTE_V = true -> exists a, slot_at m 2 pt (n * PGSIZE) = Some a /\
    ld64 m a = pte_pg m pt n.
Proof.
  unfold pte_pg, pte_of. rewrite pte_at_slot. destruct (slot_at m 2 pt _) as [a|]; [by exists a|].
  by rewrite has_flag_0.
Qed.

Lemma as_sep s l pt own ups n pa x :
  as_inv s l pt own ups -> ups !! n = Some pa -> owned_byte own x -> ~ in_page pa x.
Proof.
  intros Hinv Hn (q & path & Hq & Hx). destruct (as_page _ _ _ _ _ Hinv _ _ Hn) as (Hpa & Ho & _).
  destruct (pt_page _ _ _ (vi_pt _ _ _ _ (as_vm _ _ _ _ _ Hinv)) _ _ Hq) as [Hqok _].
  eapply in_page_ne; [exact Hqok|done| |done]. congruence.
Qed.

(** Freeing the user page [pa] of page number [n]. *)
Lemma as_kfree s l pt own ups n pa s' :
  as_inv s l pt own ups -> ups !! n = Some pa -> kmem_inv s' (pa :: l) ->
  (forall x, ~ in_page pa x -> ld8 (mmem s') x = ld8 (mmem s) x) ->
  as_inv s' (pa :: l) pt own (delete n ups) /\
  (forall va, slot_at (mmem s') 2 pt va = slot_at (mmem s) 2 pt va) /\
  (forall va, pte_of (mmem s') pt va = pte_of (mmem s) pt va).
Proof.
  intros Hinv Hn Hk Hx. destruct (as_vm _ _ _ _ _ Hinv) as [_ Hpt Hsep].
  assert (forall x, owned_byte own x -> ld8 (mmem s') x = ld8 (mmem s) x) as Hx'.
  { intros x Ho. apply Hx. by eapply as_sep. }
  assert (forall va, pte_of (mmem s') pt va = pte_of (mmem s) pt va) as Hpte.
  { intros va. by eapply pte_frame. }
  split_and!; [|intros va; eapply slot_frame; [exact Hpt|apply Hpt|done|done]|done].
  destruct (as_page _ _ _ _ _ Hinv _ _ Hn) as (Hpa & Ho & Hl). split.
  - split; [done|by eapply pt_inv_frame|]. intros p [->|Hp]%elem_of_cons; [done|by apply Hsep].
  - intros j p Hj. apply lookup_delete_Some in Hj as [_ Hj]. unfold pte_pg. rewrite Hpte.
    by apply (as_leaf _ _ _ _ _ Hinv).
  - intros j p Hj. apply lookup_delete_Some in Hj as [Hne Hj].
    destruct (as_page _ _ _ _ _ Hinv _ _ Hj) as (? & ? & ?). split_and!; [done..|].
    intros [->|?]%elem_of_cons; [|done]. apply Hne. by eapply as_inj.
  - intros j j' p Hj Hj'. apply lookup_delete_Some in Hj as [_ Hj].
    apply lookup_delete_Some in Hj' as [_ Hj']. by eapply as_inj.
Qed.

(** Overwriting the leaf entry of page number [n]. *)
Lemma pte_pg_set m pt own n a v j :
  pt_inv m pt own -> 0 <= n < NPG -> 0 <= j < NPG -> 0 <= v < 2 ^ 64 ->
  slot_at m 2 pt (n * PGSIZE) = Some a ->
  pte_pg (st64 m a v) pt j = if j =? n then v else pte_pg m pt j.
Proof.
  intros Hpt Hn Hj Hv Ha. unfold pte_pg.
  rewrite (pte_of_set m pt own (n * PGSIZE) a v) by (done || by apply pg_range).
  by rewrite !Z.div_mul.
Qed.

Lemma as_clear s l pt own ups n a v :
  as_inv s l pt own ups -> 0 <= n < NPG -> 0 <= v < 2 ^ 64 ->
  slot_at (mmem s) 2 pt (n * PGSIZE) = Some a -> ups !! n = None ->
  as_inv (set_mem (fun m => st64 m a v) s) l pt own ups.
Proof.
  intros Hinv Hn Hv Ha Hnone. pose proof (vi_pt _ _ _ _ (as_vm _ _ _ _ _ Hinv)) as Hpt. split.
  - eapply vm_set_leaf; [apply Hinv|done].
  - intros j p Hj. destruct (as_leaf _ _ _ _ _ Hinv _ _ Hj) as (Hr & ?). simpl.
    rewrite (pte_pg_set _ _ own n) by done. destruct (Z.eqb_spec j n); [congruence|done].
  - apply Hinv.
  - apply Hinv.
Qed.

Lemma as_delete s l pt own ups n : as_inv s l pt own ups -> as_inv s l pt own (delete n ups).
Proof.
  intros [H1 H2 H3 H4]. split; [done|..].
  - intros j p [_ Hj]%lookup_delete_Some. by apply H2.
  - intros j p [_ Hj]%lookup_delete_Some. by eapply H3.
  - intros j j' p [_ Hj]%lookup_delete_Some [_ Hj']%lookup_delete_Some. by eapply H4.
Qed.

(** Clearing a valid entry, after its page has been freed or kept. *)
Lemma unmap_cleared s l pt own ups n a do_free fr s1 :
  as_inv s l pt own ups -> 0 <= n < NPG ->
  as_inv s1 (fr ++ l) pt own (delete n ups) ->
  (forall va, pte_of (mmem s1) pt va = pte_of (mmem s) pt va) ->
  slot_at (mmem s1) 2 pt (n * PGSIZE) = Some a ->
  (forall p, p ∈ fr <-> do_free = true /\ ups !! n = Some p) -> (length fr <= 1)%nat ->
  (forall x, ~ owned_byte own x -> ~ free_byte fr x -> ld8 (mmem s1) x = ld8 (mmem s) x) ->
  (forall x, owned_byte own x -> ld8 (mmem s1) x = ld8 (mmem s) x) ->
  unmap_post s l pt own ups n 1 do_free fr (delete n ups) (set_mem (fun m => st64 m a 0) s1).
Proof.
  intros Hinv Hn H1 Hpte Ha Hfr Hlen Hx Hown. pose proof (vi_pt _ _ _ _ (as_vm _ _ _ _ _ H1)) as Hpt.
  split; simpl.
  - apply (as_clear _ _ _ _ _ n); [done..|apply lookup_delete_eq].
  - intros j. destruct (decide (j = n)) as [->|Hne].
    + rewrite lookup_delete_eq. zcases; done.
    + rewrite lookup_delete_ne by done. zcases; done.
  - intros j Hj Hr. rewrite (pte_pg_set _ _ own n) by done. replace j with n by lia.
    by rewrite Z.eqb_refl, has_flag_0.
  - intros j Hj Hr. rewrite (pte_pg_set _ _ own n) by done.
    destruct (Z.eqb_spec j n); [lia|]. unfold pte_pg. by rewrite Hpte.
  - intros p. rewrite Hfr. split; intros [-> Hp]; (split; [done|]).
    + exists n. split; [lia|done].
    + destruct Hp as (j & Hj & Hp). by replace n with j by lia.
  - lia.
  - intros x Ho Hf. rewrite ld8_st64_out; [by apply Hx|].
    destruct (decide (a <= x < a + 8)); [|lia]. destruct Ho. by eapply slot_byte.
  - intros r path j Hr Hl Hj. destruct (slot_owned _ pt own 2 pt [] _ _ Hpt (pt_root _ _ _ Hpt) eq_refl Ha) as (q & Hq & ->).
    destruct (tree_set_leaf (mmem s1) pt own q _ (PX 0 (n * PGSIZE)) 0 Hpt Hq eq_refl (PX_range _ _)) as [_ Hst].
    rewrite (Hst r path j Hr Hj) by (left; intros ->; simplify_eq; cbn in *; lia).
    apply (ld64_owned _ _ pt own r path); [apply Hinv|done|done|done].
Qed.

Lemma unmap_one_spec s l pt own ups n do_free :
  as_inv s l pt own ups -> 0 <= n < NPG ->
  (do_free = true -> has_flag (pte_pg (mmem s) pt n) PTE_V = true -> is_Some (ups !! n)) ->
  wp (unmap_one pt (n * PGSIZE) do_free)
     (fun _ s' => exists fr ups', unmap_post s l pt own ups n 1 do_free fr ups' s') s.
Proof.
  intros Hinv Hn Hv. unfold unmap_one. wp_simp.
  pose proof (pg_range n Hn) as [_ Hmax].
  eapply wp_of_ok; [by apply walk_ro|].
  destruct (has_flag (pte_pg (mmem s) pt n) PTE_V) eqn:HV.
  - destruct (slot_valid _ _ _ HV) as (a & Ha & Hld). rewrite Ha. simpl.
    pose proof (vi_pt _ _ _ _ (as_vm _ _ _ _ _ Hinv)) as Hpt.
    destruct (Z.eqb_spec a 0) as [->|_].
    { pose proof (slot_pos _ _ _ 2 pt [] _ _ Hpt (pt_root _ _ _ Hpt) eq_refl Ha). lia. }
    unfold rd64, wr64. wp_simp. rewrite Hld, HV. simpl. wp_simp. destruct do_free.
    + destruct Hv as [pa Hpa]; [done..|].
      destruct (as_leaf _ _ _ _ _ Hinv _ _ Hpa) as (_ & _ & ->).
      destruct (as_page _ _ _ _ _ Hinv _ _ Hpa) as (Hok & _ & Hl).
      eapply wp_mono; [apply kfree_spec; [apply Hinv|done|done]|]. intros _ s1 [Hk Hx]. wp_simp.
      destruct (as_kfree s l pt own ups n pa s1) as (H1 & H2 & H3); [done..|].
      exists [pa], (delete n ups). apply unmap_cleared; try done.
      * by rewrite H2.
      * intros p. rewrite list_elem_of_singleton. split; [intros ->; done|intros [_ ?]; congruence].
      * intros x _ Hf. apply Hx. intros Hi. apply Hf. exists pa. split; [by apply list_elem_of_singleton|done].
      * intros x Ho. apply Hx. by apply (as_sep s l pt own ups n).
    + wp_simp. exists [], (delete n ups). apply unmap_cleared; try done; [by apply as_delete| |simpl; lia].
      intros p. split; [by intros ?%not_elem_of_nil|by intros [? _]].
  - assert (unmap_post s l pt own ups n 1 do_free [] ups s) as Hu.
    { apply unmap_none; [done|lia|]. intros j _ Hj. by replace j with n by lia. }
    assert (forall a, slot_at (mmem s) 2 pt (n * PGSIZE) = Some a -> ld64 (mmem s) a = pte_pg (mmem s) pt n) as Hld.
    { intros a Ha. unfold pte_pg, pte_of. by rewrite pte_at_slot, Ha. }
    destruct (slot_at (mmem s) 2 pt (n * PGSIZE)) as [a|] eqn:Ha; simpl; [|by exists [], ups].
    unfold rd64. destruct (a =? 0); wp_simp; [by exists [], ups|]. rewrite (Hld a), HV by done. simpl.
    wp_simp. by exists [], ups.
Qed.

Lemma free_byte_app fr fr' x : free_byte (fr ++ fr') x <-> free_byte fr x \/ free_byte fr' x.
Proof.
  unfold free_byte. setoid_rewrite elem_of_app. split.
  - intros (p & [?|?] & ?); [left|right]; by exists p.
  - intros [(p & ? & ?)|(p & ? & ?)]; exists p; split; auto.
Qed.

Lemma unmap_post_cons s l pt own ups n k df fr1 ups1 s1 fr2 ups2 s2 :
  0 <= k -> unmap_post s l pt own ups n 1 df fr1 ups1 s1 ->
  unmap_post s1 (fr1 ++ l) pt own ups1 (n + 1) k df fr2 ups2 s2 ->
  unmap_post s l pt own ups n (k + 1) df (fr2 ++ fr1) ups2 s2.
Proof.
  intros Hk [A1 A2 A3 A4 A5 A7 A6 A8] [B1 B2 B3 B4 B5 B7 B6 B8]. split.
  - by rewrite <- (assoc_L (++)).
  - intros j. rewrite B2, A2. zcases; done.
  - intros j Hj Hr. destruct (decide (j = n)) as [->|]; [|apply B3; lia].
    rewrite B4 by lia. apply A3; lia.
  - intros j Hj Hr. rewrite B4, A4 by lia. done.
  - intros p. rewrite elem_of_app, A5, B5. split.
    + intros [(-> & j & Hj & Hp)|(-> & j & Hj & Hp)]; (split; [done|]); exists j; (split; [lia|]); [|done].
      rewrite A2 in Hp. by destruct ((n <=? j) && (j <? n + 1)).
    + intros (-> & j & Hj & Hp). destruct (decide (j = n)) as [->|].
      * right. split; [done|]. exists n. split; [lia|done].
      * left. split; [done|]. exists j. split; [lia|]. rewrite A2. zcases; done.
  - rewrite length_app. lia.
  - intros x Ho Hf. rewrite free_byte_app in Hf. rewrite B6, A6 by tauto. done.
  - intros r path j Hr Hl Hj. by rewrite (B8 r path), (A8 r path).
Qed.

Lemma uvmunmap_loop_S fuel pt a last df Q s :
  a < last ->
  wp (unmap_one pt a df) (fun _ s' => wp (uvmunmap_loop fuel pt (u64 (a + PGSIZE)) last df) Q s') s ->
  wp (uvmunmap_loop (S fuel) pt a last df) Q s.
Proof. intros Hl%Z.ltb_lt H. cbn [uvmunmap_loop]. rewrite Hl, wp_bind. exact H. Qed.

Lemma uvmunmap_loop_spec k s l pt own ups n df :
  as_inv s l pt own ups -> 0 <= n -> n + Z.of_nat k <= NPG ->
  (forall j, n <= j < n + Z.of_nat k -> df = true ->
     has_flag (pte_pg (mmem s) pt j) PTE_V = true -> is_Some (ups !! j)) ->
  wp (uvmunmap_loop k pt (n * PGSIZE) ((n + Z.of_nat k) * PGSIZE) df)
     (fun _ s' => exists fr ups', unmap_post s l pt own ups n (Z.of_nat k) df fr ups' s') s.
Proof.
  revert s l ups n. induction k as [|k IH]; intros s l ups n Hinv Hn Hk Hv.
  - simpl uvmunmap_loop. replace (n * PGSIZE <? (n + Z.of_nat 0) * PGSIZE) with false
      by (symmetry; apply Z.ltb_ge; lia). wp_simp. exists [], ups. apply unmap_none; [done|lia|lia].
  - rewrite Nat2Z.inj_succ in *. unfold Z.succ in *. assert (PGSIZE = 4096) as EP by done.
    apply uvmunmap_loop_S; [lia|].
    eapply wp_mono; [apply unmap_one_spec; [done|lia|]; apply Hv; lia|].
    intros _ s1 (fr1 & ups1 & H1). rewrite NPG_eq in Hk.
    rewrite u64_small by lia.
    replace (n * PGSIZE + PGSIZE) with ((n + 1) * PGSIZE) by lia.
    replace (n + (Z.of_nat k + 1)) with (n + 1 + Z.of_nat k) by lia.
    eapply wp_mono; [apply (IH s1 (fr1 ++ l) ups1); [apply H1|lia|rewrite NPG_eq; lia|]|].
    + intros j Hj Hdf. rewrite (un_out _ _ _ _ _ _ _ _ _ _ _ H1) by (rewrite ?NPG_eq; lia).
      rewrite (un_ups _ _ _ _ _ _ _ _ _ _ _ H1). intros HV. zcases; try done. apply Hv; [lia|done|done].
    + intros _ s2 (fr2 & ups2 & H2). exists (fr2 ++ fr1), ups2.
      eapply unmap_post_cons; [lia|done|done].
Qed.

Lemma uvmunmap_spec s l pt own ups n k df :
  as_inv s l pt own ups -> 0 <= n -> 0 <= k -> n + k <= NPG ->
  (forall j, n <= j < n + k -> df = true ->
     has_flag (pte_pg (mmem s) pt j) PTE_V = true -> is_Some (ups !! j)) ->
  wp (uvmunmap pt (n * PGSIZE) k df)
     (fun _ s' => exists fr ups', unmap_post s l pt own ups n k df fr ups' s') s.
Proof.
  intros Hinv Hn Hk Hmax Hv. unfold uvmunmap. rewrite Z.mod_mul by done. simpl.
  rewrite u64_small by (rewrite NPG_eq in Hmax; unfold PGSIZE; lia).
  replace (n * PGSIZE + k * PGSIZE) with ((n + Z.of_nat (Z.to_nat k)) * PGSIZE)
    by (rewrite Z2Nat.id; lia).
  eapply wp_mono; [apply uvmunmap_loop_spec; [done|done|lia|]|].
  - intros j Hj. apply Hv. lia.
  - intros ? s'. by rewrite Z2Nat.id.
Qed.

(** The number of the first page at or above [sz]. *)
Definition pgs (sz : Z) : Z := (sz + PGSIZE - 1) / PGSIZE.

Lemma pgs_up sz : 0 <= sz <= MAXVA -> PGROUNDUP sz = pgs sz * PGSIZE.
Proof. rewrite MAXVA_eq. intros H. apply pground_div. unfold PGSIZE. lia. Qed.

Lemma pgs_range sz : 0 <= sz <= MAXVA -> 0 <= pgs sz <= NPG.
Proof.
  rewrite MAXVA_eq, NPG_eq. unfold pgs, PGSIZE. intros H.
  split; [apply Z.div_pos; lia|]. apply Z.lt_succ_r, Z.div_lt_upper_bound; lia.
Qed.

Lemma pgs_mono sz sz' : sz <= sz' -> pgs sz <= pgs sz'.
Proof. intros H. unfold pgs, PGSIZE. apply Z.div_le_mono; lia. Qed.

(** uvmdealloc() frees the pages from [newsz] up to [oldsz]. *)
Lemma uvmdealloc_spec s l pt own ups oldsz newsz :
  as_inv s l pt own ups -> 0 <= newsz <= oldsz -> oldsz <= MAXVA ->
  (forall j, pgs newsz <= j < pgs oldsz ->
     has_flag (pte_pg (mmem s) pt j) PTE_V = true -> is_Some (ups !! j)) ->
  wp (uvmdealloc pt oldsz newsz) (fun r s' => r = newsz /\ exists fr ups',
     unmap_post s l pt own ups (pgs newsz) (pgs oldsz - pgs newsz) true fr ups' s') s.
Proof.
  intros Hinv Hn Ho Hv. unfold uvmdealloc.
  destruct (Z.leb_spec oldsz newsz).
  { replace newsz with oldsz in * by lia. wp_simp. split; [done|]. exists [], ups.
    apply unmap_none; [done|lia|lia]. }
  wp_simp. rewrite !pgs_up by lia.
  pose proof (pgs_mono newsz oldsz ltac:(lia)). pose proof (pgs_range newsz ltac:(lia)).
  pose proof (pgs_range oldsz ltac:(lia)). rewrite NPG_eq in *. assert (PGSIZE = 4096) as EP by done.
  destruct (Z.ltb_spec (pgs newsz * PGSIZE) (pgs oldsz * PGSIZE)).
  - rewrite <- Z.mul_sub_distr_r, (u64_small (_ * PGSIZE)), Z.div_mul, s32_small, u64_small
      by (rewrite ?EP; lia).
    eapply wp_mono; [apply uvmunmap_spec; [done|lia|lia|rewrite NPG_eq; lia|]|].
    + intros j Hj _. apply Hv. lia.
    + intros ? s' Hu. wp_simp. done.
  - wp_simp. split; [done|]. exists [], ups. apply unmap_none; [done|lia|lia].
Qed.

(** ** mappages() of one user page *)

Lemma page_ok_pa pa : page_ok pa -> pa mod PGSIZE = 0 /\ 0 <= pa /\ pa + PGSIZE <= 2 ^ 56.
Proof.
  intros Hp. pose proof (page_ok_pos pa Hp). destruct Hp as [? [_ ?]].
  unfold PHYSTOP, KERNBASE, PGSIZE in *. split; [done|lia].
Qed.

Lemma pte_val_pa pa perm : page_ok pa -> 0 <= perm < 2 ^ 10 -> PTE2PA (pte_val pa perm) = pa.
Proof.
  intros (Hal & H0 & Hp)%page_ok_pa Hperm. unfold pte_val. rewrite <- Z.lor_assoc.
  apply PTE2PA_lor; [unfold PGSIZE in *; lia|done|].
  apply lor_range; unfold PTE_V; lia.
Qed.

Lemma maps_one m m' pt n k pa perm j :
  maps_pages m m' pt (n * PGSIZE) k pa perm -> 0 <= n -> 0 <= k <= 1 -> 0 <= j < NPG ->
  pte_pg m' pt j = if (n <=? j) && (j <? n + k) then pte_val pa perm else pte_pg m pt j.
Proof.
  intros Hm Hn Hk Hj. unfold pte_pg. rewrite (Hm _ (pg_range j Hj)).
  replace (j * PGSIZE - n * PGSIZE) with ((j - n) * PGSIZE) by lia. rewrite Z.div_mul by done.
  unfold PGSIZE. zcases; try done. f_equal. lia.
Qed.

Definition map1_post (s : mach) (l : list Z) (pt : Z) (own : gmap Z (list Z)) (ups : gmap Z Z)
    (n pa perm r : Z) (s' : mach) : Prop :=
  exists own' l', spent l l' own' ∅ 2 /\ own ⊆ own' /\ l' `suffix_of` l /\ from_free own own' l /\
    (forall x, ~ owned_byte own x -> ~ free_byte l x -> ld8 (mmem s') x = ld8 (mmem s) x) /\
    ((r = 0 /\ as_inv s' l' pt own' (<[n := pa]> ups) /\
      forall j, 0 <= j < NPG -> pte_pg (mmem s') pt j = if j =? n then pte_val pa perm else pte_pg (mmem s) pt j) \/
     (r = -1 /\ l' = [] /\ as_inv s' l' pt own' ups /\
      forall j, 0 <= j < NPG -> pte_pg (mmem s') pt j = pte_pg (mmem s) pt j)).

Lemma suffix_not_in (l l' : list Z) p : l' `suffix_of` l -> p ∉ l -> p ∉ l'.
Proof. intros [k ->] Hp Hp'. apply Hp, elem_of_app. by right. Qed.

Lemma from_free_none own own' l p : from_free own own' l -> own !! p = None -> p ∉ l -> own' !! p = None.
Proof.
  intros Hf Ho Hl. destruct (own' !! p) as [path|] eqn:E; [|done].
  destruct (Hf _ _ E); [congruence|done].
Qed.

(** User pages survive when the tree grows with pages of the free list. *)
Lemma as_grow s l pt own ups s' l' own' ups' :
  as_inv s l pt own ups -> vm_inv s' l' pt own' -> l' `suffix_of` l -> from_free own own' l ->
  (forall j pa, ups' !! j = Some pa ->
     page_ok pa /\ own !! pa = None /\ (pa ∉ l) /\ 0 <= j < NPG /\
     has_flag (pte_pg (mmem s') pt j) PTE_V = true /\ PTE2PA (pte_pg (mmem s') pt j) = pa) ->
  (forall n n' pa, ups' !! n = Some pa -> ups' !! n' = Some pa -> n = n') ->
  as_inv s' l' pt own' ups'.
Proof.
  intros Hinv Hvm Hs Hf Hups Hinj. split; [done|..|done].
  - intros j pa Hj. by destruct (Hups _ _ Hj) as (_ & _ & _ & ?).
  - intros j pa Hj. destruct (Hups _ _ Hj) as (? & ? & ? & _).
    split_and!; [done|by eapply from_free_none|by eapply suffix_not_in].
Qed.

Lemma as_user s l pt own ups : as_inv s l pt own ups ->
  forall j q, ups !! j = Some q -> page_ok q /\ own !! q = None /\ (q ∉ l) /\ 0 <= j < NPG /\
    has_flag (pte_pg (mmem s) pt j) PTE_V = true /\ PTE2PA (pte_pg (mmem s) pt j) = q.
Proof.
  intros Hinv j q Hj. destruct (as_leaf _ _ _ _ _ Hinv _ _ Hj) as (? & ? & ?).
  by destruct (as_page _ _ _ _ _ Hinv _ _ Hj) as (? & ? & ?).
Qed.

Lemma insert_inj (ups : gmap Z Z) n pa :
  (forall j j' q, ups !! j = Some q -> ups !! j' = Some q -> j = j') ->
  (forall j, ups !! j <> Some pa) ->
  forall j j' q, <[n := pa]> ups !! j = Some q -> <[n := pa]> ups !! j' = Some q -> j = j'.
Proof.
  intros Hinj Hpa j j' q. rewrite !lookup_insert_Some.
  intros [[<- <-]|[_ Hj]] [[<- Hq]|[_ Hj']]; [done|by apply Hpa in Hj'| |by eapply Hinj].
  rewrite <- Hq in Hj. by apply Hpa in Hj.
Qed.

Lemma as_map s l pt own ups n pa perm :
  as_inv s l pt own ups -> 0 <= n < NPG -> page_ok pa -> own !! pa = None -> pa ∉ l ->
  (forall j, ups !! j <> Some pa) -> has_flag (pte_pg (mmem s) pt n) PTE_V = false ->
  0 <= perm < 2 ^ 10 ->
  wp (mappages pt (n * PGSIZE) PGSIZE pa perm) (map1_post s l pt own ups n pa perm) s.
Proof.
  intros Hinv Hn Hpa Ho Hl Hups Hv Hperm. unfold mappages.
  rewrite Z.mod_mul by done. change (PGSIZE mod PGSIZE) with 0. change (PGSIZE =? 0) with false.
  cbn [Z.eqb negb]. rewrite u64_small by (rewrite NPG_eq in Hn; unfold PGSIZE; lia).
  change (Z.to_nat (PGSIZE / PGSIZE)) with 1%nat.
  replace (n * PGSIZE + PGSIZE - PGSIZE) with (n * PGSIZE + (Z.of_nat 1 - 1) * PGSIZE) by (simpl; lia).
  pose proof (page_ok_pa pa Hpa) as (_ & H0 & Hp).
  eapply wp_mono; [apply mappages_loop_spec; [lia|apply Hinv|..]|].
  1-7: rewrite ?NPG_eq, ?MAXVA_eq in *; unfold PGSIZE in *; try lia.
  - by apply Z.mod_mul.
  - intros va' Hva'. rewrite pte_of_pg. replace (va' / PGSIZE) with n; [done|].
    apply Z.div_unique with (va' - n * 4096); unfold PGSIZE; lia.
  - intros r s' (own' & l' & k & Hsp & H1 & H2 & H3 & H4 & H5 & H6 & H7).
    exists own', l'. split_and!; try done.
    pose proof (as_user _ _ _ _ _ Hinv) as Hold.
    destruct H7 as [[-> ->]|(-> & Hk & ->)]; [left|right].
    + assert (forall j, 0 <= j < NPG -> pte_pg (mmem s') pt j =
        if j =? n then pte_val pa perm else pte_pg (mmem s) pt j) as Hpte.
      { intros j Hj. rewrite (maps_one _ _ _ _ _ _ _ _ H6) by lia. simpl. zcases; done. }
      split_and!; [done| |done]. eapply as_grow; [exact Hinv|done..| |].
      * intros j q Hj. apply lookup_insert_Some in Hj as [[<- <-]|[Hne Hj]].
        -- rewrite Hpte, Z.eqb_refl by done.
           split_and!; try done; try lia; [apply pte_val_valid|by apply pte_val_pa].
        -- destruct (Hold _ _ Hj) as (? & ? & ? & Hr & ? & ?).
           rewrite Hpte, (proj2 (Z.eqb_neq _ _)) by (done || lia). split_and!; done || lia.
      * apply insert_inj; [apply Hinv|done].
    + assert (forall j, 0 <= j < NPG -> pte_pg (mmem s') pt j = pte_pg (mmem s) pt j) as Hpte.
      { intros j Hj. rewrite (maps_one _ _ _ _ _ _ _ _ H6) by lia. assert (k = 0) as -> by lia. zcases; done. }
      split_and!; [done..| |done]. eapply as_grow; [exact Hinv|done..| |apply Hinv].
      intros j q Hj. destruct (Hold _ _ Hj) as (? & ? & ? & Hr & ? & ?). rewrite Hpte by done.
      split_and!; done || lia.
Qed.

(** ** Fresh pages *)

(** [pa] is a page nobody uses: not free, not a page table, not a user page. *)
Definition unused (l : list Z) (own : gmap Z (list Z)) (ups : gmap Z Z) (pa : Z) : Prop :=
  page_ok pa /\ own !! pa = None /\ (pa ∉ l) /\ forall j, ups !! j <> Some pa.

Lemma as_take s p l pt own ups s' :
  as_inv s (p :: l) pt own ups -> kmem_inv s' l ->
  (forall x, ~ in_page p x -> ld8 (mmem s') x = ld8 (mmem s) x) ->
  as_inv s' l pt own ups /\ unused l own ups p /\
  (forall va, pte_of (mmem s') pt va = pte_of (mmem s) pt va).
Proof.
  intros Hinv Hk Hx. destruct (as_vm _ _ _ _ _ Hinv) as [Hkm Hpt Hsep].
  pose proof (km_ok _ _ Hkm) as Hok. apply Forall_cons in Hok as [Hp _].
  pose proof (km_nodup _ _ Hkm) as Hnd. apply NoDup_cons in Hnd as [Hpl _].
  assert (Hx' : forall x, owned_byte own x -> ld8 (mmem s') x = ld8 (mmem s) x).
  { intros x (q & path & Hq & Hi). apply Hx. destruct (pt_page _ _ _ Hpt _ _ Hq) as [Hqok _].
    eapply in_page_ne; [exact Hqok|done| |done]. intros ->. rewrite Hsep in Hq; [done|]. by left. }
  assert (Hpte : forall va, pte_of (mmem s') pt va = pte_of (mmem s) pt va).
  { intros va. by eapply pte_frame. }
  split_and!; [|split_and!|done]; try done.
  - split.
    + split; [done|by eapply pt_inv_frame|]. intros q Hq. apply Hsep. by right.
    + intros j q Hj. unfold pte_pg. rewrite Hpte. by eapply as_leaf.
    + intros j q Hj. destruct (as_page _ _ _ _ _ Hinv _ _ Hj) as (? & ? & Hq).
      split_and!; [done..|]. intros ?. apply Hq. by right.
    + apply Hinv.
  - apply Hsep. by left.
  - intros j Hj. destruct (as_page _ _ _ _ _ Hinv _ _ Hj) as (_ & _ & Hq). apply Hq. by left.
Qed.

Lemma kmem_inv_page s l p (f : mem -> mem) :
  kmem_inv s l -> page_ok p -> p ∉ l ->
  (forall m x, ~ in_page p x -> ld8 (f m) x = ld8 m x) -> kmem_inv (set_mem f s) l.
Proof.
  intros Hk Hp Hl Hf. eapply kmem_inv_frame; [exact Hk|done|done|].
  intros x (q & Hq & Hx). simpl. apply Hf. pose proof (km_ok _ _ Hk) as Hok.
  rewrite Forall_forall in Hok. eapply in_page_ne; [by apply Hok|done|congruence|done].
Qed.

Lemma memset_page m p c x : ~ in_page p x -> ld8 (memset m p c PGSIZE) x = ld8 m x.
Proof. intros Hx. rewrite memset_spec by done. unfold in_page in Hx. zcases; done. Qed.

(** [kalloc] followed by a function [f] that fills the page. *)
Lemma wp_kalloc_fill {A} s l pt own ups (f : Z -> mem -> mem) (K0 : M mach A) (K : Z -> M mach A) Q :
  as_inv s l pt own ups -> (forall p m x, ~ in_page p x -> ld8 (f p m) x = ld8 m x) ->
  (l = [] -> wp K0 Q s) ->
  (forall p l' s1, l = p :: l' -> (forall x, ~ in_page p x -> ld8 (mmem s1) x = ld8 (mmem s) x) ->
    as_inv (set_mem (f p) s1) l' pt own ups -> unused l' own ups p ->
    (forall x, ~ in_page p x -> ld8 (f p (mmem s1)) x = ld8 (mmem s) x) ->
    (forall va, pte_of (f p (mmem s1)) pt va = pte_of (mmem s) pt va) ->
    wp (K p) Q (set_mem (f p) s1)) ->
  wp (let! m := kalloc in if m =? 0 then K0 else modify (set_mem (f m)) ;; K m) Q s.
Proof.
  intros Hinv Hf H0 HK. wp_simp. eapply wp_mono; [apply kalloc_spec, Hinv|].
  intros r s1. destruct l as [|p l']; [intros [-> ->]; by apply H0|]. intros (-> & Hk & Hx).
  pose proof (vi_kmem _ _ _ _ (as_vm _ _ _ _ _ Hinv)) as Hkm.
  pose proof (km_ok _ _ Hkm) as Hok. apply Forall_cons in Hok as [Hp _].
  pose proof (km_nodup _ _ Hkm) as Hnd. apply NoDup_cons in Hnd as [Hpl _].
  pose proof (page_ok_pos p Hp). destruct (Z.eqb_spec p 0); [lia|]. wp_simp.
  assert (Hx1 : forall x, ~ in_page p x -> ld8 (mmem s1) x = ld8 (mmem s) x).
  { intros x Hn. rewrite Hx. unfold in_page in Hn. zcases; done. }
  assert (Hx2 : forall x, ~ in_page p x -> ld8 (f p (mmem s1)) x = ld8 (mmem s) x).
  { intros x Hn. rewrite Hf by done. by apply Hx1. }
  destruct (as_take s p l' pt own ups (set_mem (f p) s1)) as (A1 & A2 & A3); [done| |done|].
  { by apply (kmem_inv_page _ _ p); [..|intros ??; apply Hf]. }
  by apply (HK p l').
Qed.

Lemma unused_not_owned l own ups p x pt m :
  pt_inv m pt own -> unused l own ups p -> in_page p x -> ~ owned_byte own x.
Proof.
  intros Hpt (Hp & Ho & _) Hx (q & path & Hq & Hi).
  destruct (pt_page _ _ _ Hpt _ _ Hq) as [Hqok _].
  eapply in_page_ne; [exact Hp|exact Hqok| |done|done]. congruence.
Qed.

Lemma unused_not_free s l own ups p x :
  kmem_inv s l -> unused l own ups p -> in_page p x -> ~ free_byte l x.
Proof.
  intros Hk (Hp & _ & Hl & _) Hx (q & Hq & Hi). pose proof (km_ok _ _ Hk) as Hok.
  rewrite Forall_forall in Hok. eapply in_page_ne; [exact Hp|by apply Hok| |done|done]. congruence.
Qed.

(** ** uvmalloc() *)

(** What never changes for others: the tree has grown with free pages only,
    no page has become free, and bytes that were neither in the tree nor
    free are untouched. *)
Record quiet (s : mach) (l : list Z) (own : gmap Z (list Z))
    (s' : mach) (l' : list Z) (own' : gmap Z (list Z)) : Prop := {
  q_own : own ⊆ own';
  q_from : from_free own own' l;
  q_l : forall p, p ∈ l' -> p ∈ l;
  q_bytes : forall x, ~ owned_byte own x -> ~ free_byte l x -> ld8 (mmem s') x = ld8 (mmem s) x
}.

Lemma quiet_refl s l own : quiet s l own s l own.
Proof. split; try done. intros p path Hp. by left. Qed.

Lemma quiet_keeps s l own s' l' own' x :
  quiet s l own s' l' own' -> ~ owned_byte own x -> ~ free_byte l x ->
  ~ owned_byte own' x /\ ~ free_byte l' x.
Proof.
  intros [_ Hf Hl _] Ho Hx. split.
  - intros (p & path & Hp & Hin). destruct (Hf _ _ Hp); [apply Ho; by exists p, path|apply Hx; by exists p].
  - intros (p & Hp & Hin). apply Hx. exists p. split; [by apply Hl|done].
Qed.

Lemma quiet_trans s l own s1 l1 own1 s2 l2 own2 :
  quiet s l own s1 l1 own1 -> quiet s1 l1 own1 s2 l2 own2 -> quiet s l own s2 l2 own2.
Proof.
  intros A B. pose proof (fun x => quiet_keeps _ _ _ _ _ _ x A) as Hk. destruct A as [A1 A2 A3 A4], B as [B1 B2 B3 B4].
  split.
  - by transitivity own1.
  - intros p path Hp. destruct (B2 _ _ Hp) as [?|?]; [by apply A2|right; by apply A3].
  - intros p Hp. by apply A3, B3.
  - intros x Ho Hf. destruct (Hk x) as [? ?]; [done..|]. rewrite B4, A4; done.
Qed.

(** User pages are out of reach of quiet steps. *)
Lemma user_page_quiet s l pt own ups s' l' own' n pa x :
  as_inv s l pt own ups -> quiet s l own s' l' own' -> ups !! n = Some pa -> in_page pa x ->
  ld8 (mmem s') x = ld8 (mmem s) x.
Proof.
  intros Hinv Hq Hn Hx. destruct (as_page _ _ _ _ _ Hinv _ _ Hn) as (Hp & Ho & Hl).
  apply (q_bytes _ _ _ _ _ _ Hq).
  - intros Hob. by eapply as_sep.
  - intros (q & Hql & Hi). pose proof (km_ok _ _ (vi_kmem _ _ _ _ (as_vm _ _ _ _ _ Hinv))) as Hok.
    rewrite Forall_forall in Hok. eapply in_page_ne; [exact Hp|by apply Hok| |done|done]. congruence.
Qed.

(** Page numbers [n, n+k) have been given fresh zeroed pages. *)
Record grow_rel (s : mach) (l : list Z) (pt : Z) (own : gmap Z (list Z)) (ups : gmap Z Z) (n k perm : Z)
    (s' : mach) (l' : list Z) (own' : gmap Z (list Z)) (ups' : gmap Z Z) : Prop := {
  gr_inv : as_inv s' l' pt own' ups';
  gr_quiet : quiet s l own s' l' own';
  gr_ups : forall j, ~ (n <= j < n + k) -> ups' !! j = ups !! j;
  gr_out : forall j, 0 <= j < NPG -> ~ (n <= j < n + k) -> pte_pg (mmem s') pt j = pte_pg (mmem s) pt j;
  gr_in : forall j, n <= j < n + k -> exists pa,
    ups' !! j = Some pa /\ pa ∈ l /\ pte_pg (mmem s') pt j = pte_val pa perm /\
    forall x, in_page pa x -> ld8 (mmem s') x = 0
}.

Lemma grow_refl s l pt own ups n perm :
  as_inv s l pt own ups -> grow_rel s l pt own ups n 0 perm s l own ups.
Proof. intros Hinv. split; try done; [apply quiet_refl|lia]. Qed.

Lemma grow_noise s l pt own ups n k perm s1 l1 own1 ups1 s2 l2 own2 :
  grow_rel s l pt own ups n k perm s1 l1 own1 ups1 -> 0 <= n -> n + k <= NPG ->
  as_inv s2 l2 pt own2 ups1 -> quiet s1 l1 own1 s2 l2 own2 ->
  (forall j, 0 <= j < NPG -> pte_pg (mmem s2) pt j = pte_pg (mmem s1) pt j) ->
  grow_rel s l pt own ups n k perm s2 l2 own2 ups1.
Proof.
  intros [G1 G2 G3 G4 G5] Hn Hk Hinv Hq Hpte. split; [done|by eapply quiet_trans|done|..].
  - intros j Hj Hr. rewrite Hpte by done. by apply G4.
  - intros j Hj. destruct (G5 j Hj) as (pa & ? & ? & ? & Hz). exists pa.
    split_and!; [done..|by rewrite Hpte by lia|]. intros x Hx.
    rewrite (user_page_quiet _ _ _ _ _ _ _ _ _ _ _ G1 Hq) by done. by apply Hz.
Qed.

(** One more page. *)
Lemma grow_step s l pt own ups n k perm s1 l1 own1 ups1 s2 l2 own2 p :
  grow_rel s l pt own ups n k perm s1 l1 own1 ups1 -> 0 <= n -> 0 <= k -> n + k < NPG ->
  as_inv s2 l2 pt own2 (<[n + k := p]> ups1) -> quiet s1 l1 own1 s2 l2 own2 -> p ∈ l1 ->
  (forall j, 0 <= j < NPG -> pte_pg (mmem s2) pt j = if j =? n + k then pte_val p perm else pte_pg (mmem s1) pt j) ->
  (forall x, in_page p x -> ld8 (mmem s2) x = 0) ->
  grow_rel s l pt own ups n (k + 1) perm s2 l2 own2 (<[n + k := p]> ups1).
Proof.
  intros [G1 G2 G3 G4 G5] Hn Hk Hmax Hinv Hq Hp Hpte Hzero. split; [done|by eapply quiet_trans|..].
  - intros j Hj. rewrite lookup_insert_ne by lia. apply G3. lia.
  - intros j Hj Hr. rewrite Hpte, (proj2 (Z.eqb_neq _ _)) by lia. apply G4; lia.
  - intros j Hj. destruct (decide (j = n + k)) as [->|Hne].
    + exists p. rewrite lookup_insert_eq, Hpte, Z.eqb_refl by lia. split_and!; try done.
      by apply (q_l _ _ _ _ _ _ G2).
    + destruct (G5 j ltac:(lia)) as (pa & ? & ? & ? & Hz). exists pa.
      rewrite lookup_insert_ne, Hpte, (proj2 (Z.eqb_neq _ _)) by lia.
      split_and!; [done..|]. intros x Hx.
      rewrite (user_page_quiet _ _ _ _ _ _ _ _ _ _ _ G1 Hq) by done. by apply Hz.
Qed.

(** Giving back an unused page. *)
Lemma as_give s l pt own ups p s' :
  as_inv s l pt own ups -> unused l own ups p -> kmem_inv s' (p :: l) ->
  (forall x, ~ in_page p x -> ld8 (mmem s') x = ld8 (mmem s) x) ->
  as_inv s' (p :: l) pt own ups /\ (forall va, pte_of (mmem s') pt va = pte_of (mmem s) pt va).
Proof.
  intros Hinv Hu Hk Hx. pose proof Hu as (Hp & Ho & Hl & Hne).
  destruct (as_vm _ _ _ _ _ Hinv) as [_ Hpt Hsep].
  assert (Hx' : forall x, owned_byte own x -> ld8 (mmem s') x = ld8 (mmem s) x).
  { intros x Hob. apply Hx. intros Hi. by eapply unused_not_owned. }
  assert (Hpte : forall va, pte_of (mmem s') pt va = pte_of (mmem s) pt va).
  { intros va. by eapply pte_frame. }
  split; [|done]. split; [split; [done|by eapply pt_inv_frame|]|..|apply Hinv].
  - intros q [->|Hq]%elem_of_cons; [done|by apply Hsep].
  - intros j q Hj. unfold pte_pg. rewrite Hpte. by apply (as_leaf _ _ _ _ _ Hinv).
  - intros j q Hj. destruct (as_page _ _ _ _ _ Hinv _ _ Hj) as (? & ? & ?).
    split_and!; [done..|]. intros [->|?]%elem_of_cons; [by apply Hne in Hj|done].
Qed.

Lemma unused_mono l own ups p l' own' :
  unused l own ups p -> l' `suffix_of` l -> from_free own own' l -> unused l' own' ups p.
Proof.
  intros (Hp & Ho & Hl & Hne) Hs Hf.
  split_and!; [done|by eapply from_free_none|by eapply suffix_not_in|done].
Qed.

(** From [s], the page [p] was taken and filled and the tree grew. *)
Lemma quiet_take s p l own s1 l2 own2 s2 :
  (forall x, ~ in_page p x -> ld8 (mmem s1) x = ld8 (mmem s) x) ->
  own ⊆ own2 -> from_free own own2 l -> (forall q, q ∈ l2 -> q ∈ p :: l) ->
  (forall x, ~ in_page p x -> ~ owned_byte own x -> ~ free_byte l x -> ld8 (mmem s2) x = ld8 (mmem s1) x) ->
  quiet s (p :: l) own s2 l2 own2.
Proof.
  intros Hx Ho Hf Hl Hb. split; [done| |done|].
  - intros q path Hq. destruct (Hf _ _ Hq); [by left|right; by right].
  - intros x Hno Hnf. assert (~ in_page p x).
    { intros Hi. apply Hnf. exists p. split; [by left|done]. }
    rewrite Hb, Hx; try done. intros (q & Hq & Hi). apply Hnf. exists q. split; [by right|done].
Qed.

(** Allocate a page, fill it, map it at page number [n]; give it back when
    there is no memory for the tables.  uvmalloc(), uvmcopy() and vmfault()
    all do this. *)
Lemma wp_alloc_map {A} s l pt own ups n perm (f : Z -> mem -> mem) (KF : M mach A) (K : Z -> M mach A) Q :
  as_inv s l pt own ups -> 0 <= n < NPG -> has_flag (pte_pg (mmem s) pt n) PTE_V = false ->
  0 <= perm < 2 ^ 10 -> (forall p m x, ~ in_page p x -> ld8 (f p m) x = ld8 m x) ->
  (forall s2 l2 own2, as_inv s2 l2 pt own2 ups -> quiet s l own s2 l2 own2 -> (length l2 <= 1)%nat ->
     (forall j, 0 <= j < NPG -> pte_pg (mmem s2) pt j = pte_pg (mmem s) pt j) ->
     spent l l2 own2 ups 3 -> (length l <= 3)%nat -> wp KF Q s2) ->
  (forall p m1 s2 l2 own2, p ∈ l -> unused [] own ups p -> as_inv s2 l2 pt own2 (<[n := p]> ups) ->
     quiet s l own s2 l2 own2 ->
     (forall j, 0 <= j < NPG -> pte_pg (mmem s2) pt j = if j =? n then pte_val p perm else pte_pg (mmem s) pt j) ->
     (forall x, ~ in_page p x -> ld8 m1 x = ld8 (mmem s) x) ->
     (forall x, in_page p x -> ld8 (mmem s2) x = ld8 (f p m1) x) ->
     ups !! n = None -> spent l l2 own2 (<[n := p]> ups) 3 -> wp (K p) Q s2) ->
  wp (let! m := kalloc in if m =? 0 then KF else
      modify (set_mem (f m)) ;;
      let! r := mappages pt (n * PGSIZE) PGSIZE m perm in
      if negb (r =? 0) then kfree m ;; KF else K m) Q s.
Proof.
  intros Hinv Hn Hv Hperm Hf HF HK. eapply (wp_kalloc_fill s l pt own ups f); [done|done|..].
  { intros ->. apply (HF s [] own); [done|apply quiet_refl|simpl; lia|done|by apply spent_refl|simpl; lia]. }
  intros p l' s1 -> Hx1 H1 Hu Hx2 Hpte. wp_simp. pose proof Hu as (Hp & Ho & Hl & Hne).
  eapply wp_mono; [apply as_map; try done; simpl; unfold pte_pg; by rewrite Hpte|].
  intros r s2 (own2 & l2 & Hsp & G1 & G2 & G3 & G4 & G5). cbn [mmem set_mem] in *.
  assert (Hl2 : forall q, q ∈ l2 -> q ∈ p :: l').
  { intros q Hq. right. destruct G2 as [k ->]. apply elem_of_app. by right. }
  destruct G5 as [(-> & Has & Hp2)|(-> & -> & Has & Hp2)]; simpl.
  - apply (HK p (mmem s1) s2 l2 own2); try done; [by left| | | | | |].
    + split_and!; try done. by intros ?%not_elem_of_nil.
    + eapply (quiet_take _ _ _ _ (set_mem (f p) s1)); [exact Hx2|done..|]. intros x _. apply G4.
    + intros j Hj. rewrite Hp2 by done. unfold pte_pg. by rewrite Hpte.
    + intros x Hx. apply G4; [by eapply unused_not_owned; [apply H1|..]|].
      eapply unused_not_free; [apply H1|done..].
    + destruct (ups !! n) as [q|] eqn:E; [|done]. destruct (as_leaf _ _ _ _ _ Hinv _ _ E) as (_ & ? & _). congruence.
    + destruct Hsp as [A1 A2]. split; [|cbn [length]; lia]. intros q [->|Hq]%elem_of_cons; [right; right; exists n; apply lookup_insert_eq|].
      destruct (A1 q Hq) as [?|[?|[j Hj]]]; [by left|right; by left|by rewrite lookup_empty in Hj].
  - wp_simp. pose proof (unused_mono _ _ _ _ _ _ Hu G2 G3) as Hu2.
    eapply wp_mono; [apply kfree_spec; [apply Has|done|by apply Hu2]|]. intros _ s3 [Hk3 Hx3].
    destruct (as_give s2 [] pt own2 ups p s3) as [H3 Hpte3]; [done..|].
    apply (HF s3 [p] own2); [done| |done| | |destruct Hsp as [_ A2]; cbn [length] in *; lia].
    + eapply (quiet_take _ _ _ _ (set_mem (f p) s1)); [exact Hx2|done|done| |].
      * intros q ->%list_elem_of_singleton. by left.
      * intros x Hnx Hno Hnf. rewrite Hx3 by done. by apply G4.
    + intros j Hj. unfold pte_pg. rewrite Hpte3. fold (pte_pg (mmem s2) pt j). rewrite Hp2 by done.
      unfold pte_pg. by rewrite Hpte.
    + destruct Hsp as [A1 A2]. split; [|cbn [length] in *; lia]. intros q [->|Hq]%elem_of_cons; [left; by left|].
      destruct (A1 q Hq) as [[]%not_elem_of_nil|[?|[j Hj]]]; [right; by left|by rewrite lookup_empty in Hj].
Qed.

(** uvmalloc() failed: the address space is as before. *)
Record fail_rel (s : mach) (l : list Z) (pt : Z) (own : gmap Z (list Z)) (ups : gmap Z Z) (n k : Z)
    (s' : mach) (l' : list Z) (own' : gmap Z (list Z)) : Prop := {
  fr_inv : as_inv s' l' pt own' ups;
  fr_quiet : quiet s l own s' l' own';
  fr_out : forall j, 0 <= j < NPG -> ~ (n <= j < n + k) -> pte_pg (mmem s') pt j = pte_pg (mmem s) pt j;
  fr_in : forall j, 0 <= j < NPG -> n <= j < n + k -> has_flag (pte_pg (mmem s') pt j) PTE_V = false;
  fr_mem : Z.of_nat (length l') <= k;
  fr_all : forall q, q ∈ l -> q ∈ l' \/ pages_of own' ups q;
  fr_short : Z.of_nat (length l) <= 3 * k
}.

(** Unmapping what has been mapped since [s] brings the address space back. *)
Lemma undo_fail s l pt own ups n k s1 l1 own1 ups1 fr ups2 s2 K :
  as_inv s l pt own ups -> 0 <= k -> k + Z.of_nat (length l1) <= K ->
  (forall j, 0 <= j < NPG -> n <= j < n + K -> has_flag (pte_pg (mmem s) pt j) PTE_V = false) ->
  quiet s l own s1 l1 own1 ->
  (forall j, ~ (n <= j < n + k) -> ups1 !! j = ups !! j) ->
  (forall j, 0 <= j < NPG -> ~ (n <= j < n + k) -> pte_pg (mmem s1) pt j = pte_pg (mmem s) pt j) ->
  (forall j p, n <= j < n + k -> ups1 !! j = Some p -> p ∈ l) ->
  (forall q, q ∈ l -> q ∈ l1 \/ pages_of own1 ups1 q) -> Z.of_nat (length l) <= 3 * K ->
  unmap_post s1 l1 pt own1 ups1 n k true fr ups2 s2 ->
  fail_rel s l pt own ups n K s2 (fr ++ l1) own1.
Proof.
  intros Hinv Hk HK Hun G2 G3 G4 G5 Hall Hshort [U1 U2 U3 U4 U5 U7 U6 _].
  assert (Hfr : forall p, p ∈ fr -> p ∈ l).
  { intros p (_ & j & Hj & Hp)%U5. by eapply G5. }
  assert (ups2 = ups) as ->.
  { apply map_eq. intros j. rewrite U2. destruct ((n <=? j) && (j <? n + k)) eqn:E.
    - apply andb_true_iff in E as [?%Z.leb_le ?%Z.ltb_lt]. symmetry.
      destruct (ups !! j) as [p|] eqn:Ej; [|done].
      destruct (as_leaf _ _ _ _ _ Hinv _ _ Ej) as (? & Hv & _). rewrite Hun in Hv; [done|done|lia].
    - apply G3. apply andb_false_iff in E as [?%Z.leb_gt|?%Z.ltb_ge]; lia. }
  split; [done|split|..].
  - apply G2.
  - apply G2.
  - intros p [?|?]%elem_of_app; [by apply Hfr|by apply (q_l _ _ _ _ _ _ G2)].
  - intros x Ho Hf. destruct (quiet_keeps _ _ _ _ _ _ x G2) as [Ho1 Hf1]; [done..|].
    rewrite U6, (q_bytes _ _ _ _ _ _ G2); try done.
    intros (p & Hp & Hi). apply Hf. exists p. split; [by apply Hfr|done].
  - intros j Hj Hr. rewrite U4, G4 by lia. done.
  - intros j Hj Hr. destruct (decide (j < n + k)); [by apply U3; [|lia]|].
    rewrite U4, G4 by lia. apply Hun; lia.
  - rewrite length_app. lia.
  - intros q Hq. rewrite elem_of_app, U5. destruct (Hall q Hq) as [?|[?|[j Hj]]]; [by left; right|by right; left|].
    destruct (decide (n <= j < n + k)); [left; left; split; [done|by exists j]|right; right; exists j; by rewrite <- G3].
  - done.
Qed.

Lemma grow_undo s l pt own ups n k perm s1 l1 own1 ups1 fr ups2 s2 K :
  as_inv s l pt own ups -> 0 <= k -> k + Z.of_nat (length l1) <= K ->
  (forall j, 0 <= j < NPG -> n <= j < n + K -> has_flag (pte_pg (mmem s) pt j) PTE_V = false) ->
  grow_rel s l pt own ups n k perm s1 l1 own1 ups1 ->
  (forall q, q ∈ l -> q ∈ l1 \/ pages_of own1 ups1 q) -> Z.of_nat (length l) <= 3 * K ->
  unmap_post s1 l1 pt own1 ups1 n k true fr ups2 s2 ->
  fail_rel s l pt own ups n K s2 (fr ++ l1) own1.
Proof.
  intros Hinv Hk HK Hun [G1 G2 G3 G4 G5]. apply undo_fail; try done.
  intros j p Hj Hp. destruct (G5 j Hj) as (pa & ? & ? & _). congruence.
Qed.

Definition alloc_post (s : mach) (l : list Z) (pt : Z) (own : gmap Z (list Z)) (ups : gmap Z Z)
    (oldsz newsz perm r : Z) (s' : mach) : Prop :=
  exists own' l',
    (r = newsz /\ exists ups', grow_rel s l pt own ups (pgs oldsz) (pgs newsz - pgs oldsz) perm s' l' own' ups' /\
       spent l l' own' ups' (3 * (pgs newsz - pgs oldsz))) \/
    (r = 0 /\ fail_rel s l pt own ups (pgs oldsz) (pgs newsz - pgs oldsz) s' l' own').

Lemma pgs_lt n sz : n * PGSIZE < sz <-> n < pgs sz.
Proof.
  unfold pgs, PGSIZE. pose proof (Z.div_mod (sz + 4096 - 1) 4096 ltac:(done)).
  pose proof (Z.mod_pos_bound (sz + 4096 - 1) 4096 ltac:(done)). lia.
Qed.

Lemma pgs_mul n : pgs (n * PGSIZE) = n.
Proof.
  unfold pgs. replace (n * PGSIZE + PGSIZE - 1) with (n * PGSIZE + (PGSIZE - 1)) by lia.
  rewrite Z.div_add_l by done. rewrite Z.div_small by (unfold PGSIZE; lia). lia.
Qed.

(** The perm argument of uvmalloc()'s mappages() call. *)
Lemma uperm_range x : 0 <= x < 2 ^ 10 -> 0 <= Z.lor (Z.lor PTE_R PTE_U) x < 2 ^ 10.
Proof. intros H. apply lor_range; [lia| |done]. by vm_compute. Qed.

Lemma uvmalloc_loop_spec s l pt own ups oldsz newsz xperm fuel k s1 l1 own1 ups1 :
  as_inv s l pt own ups -> 0 <= oldsz <= MAXVA -> 0 <= newsz <= MAXVA -> 0 <= xperm < 2 ^ 10 ->
  (forall j, pgs oldsz <= j < pgs newsz -> has_flag (pte_pg (mmem s) pt j) PTE_V = false) ->
  0 <= k -> pgs oldsz + k <= pgs newsz -> pgs newsz - (pgs oldsz + k) <= Z.of_nat fuel ->
  grow_rel s l pt own ups (pgs oldsz) k (Z.lor (Z.lor PTE_R PTE_U) xperm) s1 l1 own1 ups1 -> spent l l1 own1 ups1 (3 * k) ->
  wp (uvmalloc_loop fuel pt ((pgs oldsz + k) * PGSIZE) (pgs oldsz * PGSIZE) newsz xperm)
     (alloc_post s l pt own ups oldsz newsz (Z.lor (Z.lor PTE_R PTE_U) xperm)) s1.
Proof.
  intros Hinv Ho Hn Hx Hun. pose proof (pgs_range oldsz Ho) as Hr. pose proof (pgs_range newsz Hn) as Hr'.
  pose proof (uperm_range xperm Hx) as Hxp.
  revert k s1 l1 own1 ups1. induction fuel as [|fuel IH]; intros k s1 l1 own1 ups1 Hk Hc Hfuel G Hsp;
    cbn [uvmalloc_loop]; pose proof (pgs_lt (pgs oldsz + k) newsz) as Hlt;
    destruct (Z.ltb_spec ((pgs oldsz + k) * PGSIZE) newsz) as [Hl|Hl].
  - lia.
  - wp_simp. exists own1, l1. left. split; [done|]. exists ups1.
    by replace (pgs newsz - pgs oldsz) with k by lia.
  - assert (forall j, 0 <= j < NPG -> pgs oldsz + k <= j < pgs newsz ->
      pte_pg (mmem s1) pt j = pte_pg (mmem s) pt j) as Hout.
    { intros j Hj1 Hj2. apply (gr_out _ _ _ _ _ _ _ _ _ _ _ _ G); lia. }
    eapply (wp_alloc_map s1 l1 pt own1 ups1 (pgs oldsz + k) _ (fun m => fun mm => memset mm m 0 PGSIZE));
      [apply G|lia|rewrite Hout by lia; apply Hun; lia|done|intros ???; apply memset_page|..].
    + intros s2 l2 own2 H2 Hq2 Hl2 Hp2 Hs2 Hl3. pose proof (sp_cost _ _ _ _ _ Hsp).
      pose proof (grow_noise _ _ _ _ _ _ _ _ _ _ _ _ _ _ _ G ltac:(lia) ltac:(lia) H2 Hq2 Hp2) as G2.
      wp_simp. eapply wp_mono; [apply (uvmdealloc_spec s2 l2 pt own2 ups1)|].
      * done.
      * unfold PGSIZE. lia.
      * rewrite NPG_eq, MAXVA_eq in *. unfold PGSIZE. lia.
      * intros j. rewrite !pgs_mul. intros Hj _.
        destruct (gr_in _ _ _ _ _ _ _ _ _ _ _ _ G j Hj) as (pa & Hpa & _). by exists pa.
      * intros r s3 (_ & fr & ups3 & Hu). rewrite !pgs_mul in Hu. wp_simp.
        exists own2, (fr ++ l2). right. split; [done|].
        eapply grow_undo; [exact Hinv| | | |exact G2| | |].
        -- lia.
        -- lia.
        -- intros j _ Hj. apply Hun. lia.
        -- apply (spent_trans l l1 l2 own1 own2 ups1 ups1 (3 * k) 3 (3 * k + 3)); [apply Hq2|by eexists|done|done|lia].
        -- lia.
        -- by replace k with (pgs oldsz + k - pgs oldsz) by lia.
    + intros p m1 s2 l2 own2 Hp Hu H2 Hq2 Hp2 Hm1 Hx2 Hnone Hs2.
      rewrite u64_small by (rewrite NPG_eq in *; unfold PGSIZE; lia).
      replace ((pgs oldsz + k) * PGSIZE + PGSIZE) with ((pgs oldsz + (k + 1)) * PGSIZE) by lia.
      eapply IH; [lia..| |].
      2: { eapply spent_trans; [apply Hq2| |exact Hsp|exact Hs2|lia]. intros j q Hj. exists j. rewrite lookup_insert_ne; [done|congruence]. }
      eapply grow_step; [exact G|lia|lia|lia|done|done|done|done|].
      intros x Hxp'. rewrite Hx2, memset_spec by done. unfold in_page in Hxp'. zcases; done.
  - wp_simp. exists own1, l1. left. split; [done|]. exists ups1.
    by replace (pgs newsz - pgs oldsz) with k by lia.
Qed.

Lemma uvmalloc_spec s l pt own ups oldsz newsz xperm :
  as_inv s l pt own ups -> 0 <= oldsz <= newsz -> newsz <= MAXVA -> 0 <= xperm < 2 ^ 10 ->
  (forall j, pgs oldsz <= j < pgs newsz -> has_flag (pte_pg (mmem s) pt j) PTE_V = false) ->
  wp (uvmalloc pt oldsz newsz xperm)
     (alloc_post s l pt own ups oldsz newsz (Z.lor (Z.lor PTE_R PTE_U) xperm)) s.
Proof.
  intros Hinv Ho Hn Hx Hun. unfold uvmalloc. destruct (Z.ltb_spec newsz oldsz); [lia|].
  rewrite pgs_up by lia. replace (pgs oldsz * PGSIZE) with ((pgs oldsz + 0) * PGSIZE) at 2 by lia.
  pose proof (pgs_mono oldsz newsz ltac:(lia)).
  apply (uvmalloc_loop_spec s l pt own ups oldsz newsz xperm _ 0 s l own ups); try done; try lia.
  - unfold pgs, PGSIZE in *. pose proof (Z.div_mod (newsz + 4096 - 1) 4096 ltac:(done)).
    pose proof (Z.mod_pos_bound (newsz + 4096 - 1) 4096 ltac:(done)).
    set (q := (oldsz + 4096 - 1) / 4096) in *.
    pose proof (Z.div_mod (newsz - q * 4096) 4096 ltac:(done)).
    pose proof (Z.mod_pos_bound (newsz - q * 4096) 4096 ltac:(done)). lia.
  - by apply grow_refl.
  - by apply spent_refl.
Qed.

(** ** uvmcopy() *)

(** [apart]: the address space ([own1], [ups1]) has no page in the tree [own2]. *)
Definition apart (own1 : gmap Z (list Z)) (ups1 : gmap Z Z) (own2 : gmap Z (list Z)) : Prop :=
  (forall p, is_Some (own1 !! p) -> own2 !! p = None) /\
  (forall n p, ups1 !! n = Some p -> own2 !! p = None).

Lemma page_not_owned m pt own p x :
  pt_inv m pt own -> page_ok p -> own !! p = None -> in_page p x -> ~ owned_byte own x.
Proof.
  intros Hpt Hp Ho Hx (q & path & Hq & Hi). destruct (pt_page _ _ _ Hpt _ _ Hq) as [Hqok _].
  eapply in_page_ne; [exact Hp|exact Hqok| |done|done]. congruence.
Qed.

Lemma page_not_free s l p x :
  kmem_inv s l -> page_ok p -> p ∉ l -> in_page p x -> ~ free_byte l x.
Proof.
  intros Hk Hp Hl Hx (q & Hq & Hi). pose proof (km_ok _ _ Hk) as Hok.
  rewrite Forall_forall in Hok. eapply in_page_ne; [exact Hp|by apply Hok| |done|done]. congruence.
Qed.

(** What is quiet for one address space leaves the others alone. *)
Lemma as_other s l pt own ups pt2 own2 s' l' own2' :
  as_inv s l pt own ups -> pt_inv (mmem s) pt2 own2 -> apart own ups own2 ->
  quiet s l own2 s' l' own2' -> kmem_inv s' l' ->
  as_inv s' l' pt own ups /\
  (forall va, pte_of (mmem s') pt va = pte_of (mmem s) pt va) /\
  (forall n p x, ups !! n = Some p -> in_page p x -> ld8 (mmem s') x = ld8 (mmem s) x).
Proof.
  intros Hinv Hpt2 [Hap1 Hap2] Hq Hk. destruct (as_vm _ _ _ _ _ Hinv) as [Hk0 Hpt Hsep].
  assert (Hx : forall x, owned_byte own x -> ld8 (mmem s') x = ld8 (mmem s) x).
  { intros x (p & path & Hp & Hi). destruct (pt_page _ _ _ Hpt _ _ Hp) as [Hok _].
    apply (q_bytes _ _ _ _ _ _ Hq).
    - eapply page_not_owned; [done..|by apply Hap1|done].
    - eapply page_not_free; [done..| |done]. intros ?%Hsep. congruence. }
  assert (Hpte : forall va, pte_of (mmem s') pt va = pte_of (mmem s) pt va).
  { intros va. by eapply pte_frame. }
  split_and!; [split; [split; [done|by eapply pt_inv_frame|]|..|apply Hinv]|done|].
  - intros p Hp. by apply Hsep, (q_l _ _ _ _ _ _ Hq).
  - intros j q Hj. unfold pte_pg. rewrite Hpte. by apply (as_leaf _ _ _ _ _ Hinv).
  - intros j q Hj. destruct (as_page _ _ _ _ _ Hinv _ _ Hj) as (? & ? & Hl).
    split_and!; [done..|]. intros ?. by apply Hl, (q_l _ _ _ _ _ _ Hq).
  - intros n p x Hn Hi. destruct (as_page _ _ _ _ _ Hinv _ _ Hn) as (? & ? & Hl).
    apply (q_bytes _ _ _ _ _ _ Hq).
    + eapply page_not_owned; [done..|by eapply Hap2|done].
    + by eapply page_not_free.
Qed.

(** Page [j] of the new address space is a copy of page [j] of the old one. *)
Definition copied (m : mem) (ups1 : gmap Z Z) (old : Z) (m' : mem) (ups2 : gmap Z Z) (new : Z) (l : list Z) (j : Z) : Prop :=
  if has_flag (pte_pg m old j) PTE_V then
    exists pa pa', ups1 !! j = Some pa /\ ups2 !! j = Some pa' /\ pa' ∈ l /\
      pte_pg m' new j = pte_val pa' (PTE_FLAGS (pte_pg m old j)) /\
      forall x, 0 <= x < PGSIZE -> ld8 m' (pa' + x) = ld8 m (pa + x)
  else has_flag (pte_pg m' new j) PTE_V = false.

Record copy_rel (s : mach) (l : list Z) (old : Z) (ups1 : gmap Z Z)
    (new : Z) (own2 : gmap Z (list Z)) (ups2 : gmap Z Z) (k : Z)
    (s' : mach) (l' : list Z) (own2' : gmap Z (list Z)) (ups2' : gmap Z Z) : Prop := {
  cr_new : as_inv s' l' new own2' ups2';
  cr_quiet : quiet s l own2 s' l' own2';
  cr_in : forall j, 0 <= j < k -> copied (mmem s) ups1 old (mmem s') ups2' new l j;
  cr_out : forall j, k <= j < NPG ->
    pte_pg (mmem s') new j = pte_pg (mmem s) new j /\ ups2' !! j = ups2 !! j
}.

Lemma pte_val_flags pa f : page_ok pa -> 0 <= f < 2 ^ 10 -> PTE_FLAGS (pte_val pa f) = Z.lor f PTE_V.
Proof.
  intros (Hal & H0 & Hp)%page_ok_pa Hf. unfold pte_val. rewrite <- Z.lor_assoc.
  apply PTE_FLAGS_lor; [unfold PGSIZE in *; lia|]. apply lor_range; unfold PTE_V; lia.
Qed.

Lemma memmove_page m p src x : ~ in_page p x -> ld8 (memmove m p src PGSIZE) x = ld8 m x.
Proof. intros Hx. rewrite memmove_ld8 by done. unfold in_page in Hx. zcases; done. Qed.

Lemma flags_range v : 0 <= PTE_FLAGS v < 2 ^ 10.
Proof. unfold PTE_FLAGS. change 0x3FF with (Z.ones 10). rewrite Z.land_ones by lia. by apply Z.mod_pos_bound. Qed.

Lemma copied_quiet m ups1 old s1 l1 pt own ups2 s2 l2 own2 l j :
  as_inv s1 l1 pt own ups2 -> quiet s1 l1 own s2 l2 own2 ->
  pte_pg (mmem s2) pt j = pte_pg (mmem s1) pt j ->
  copied m ups1 old (mmem s1) ups2 pt l j -> copied m ups1 old (mmem s2) ups2 pt l j.
Proof.
  intros Hinv Hq Hpte. unfold copied. rewrite Hpte. destruct (has_flag (pte_pg m old j) PTE_V); [|done].
  intros (pa & pa' & H1 & H2 & H3 & H4 & H5). exists pa, pa'. split_and!; try done.
  intros x Hx. rewrite <- H5 by done. eapply user_page_quiet; [done..|]. unfold in_page. lia.
Qed.

Lemma copied_insert m ups1 old m' ups2 pt l j n p :
  j <> n -> copied m ups1 old m' ups2 pt l j -> copied m ups1 old m' (<[n := p]> ups2) pt l j.
Proof. intros Hne. unfold copied. by rewrite lookup_insert_ne. Qed.

Lemma copy_skip s l old ups1 new own2 ups2 k s1 l1 own2' ups2' :
  copy_rel s l old ups1 new own2 ups2 k s1 l1 own2' ups2' -> 0 <= k < NPG ->
  has_flag (pte_pg (mmem s) old k) PTE_V = false -> has_flag (pte_pg (mmem s) new k) PTE_V = false ->
  copy_rel s l old ups1 new own2 ups2 (k + 1) s1 l1 own2' ups2'.
Proof.
  intros [C1 C2 C3 C4] Hk Hv Hv'. split; [done..| |].
  - intros j Hj. destruct (decide (j = k)) as [->|]; [|apply C3; lia].
    unfold copied. rewrite Hv. destruct (C4 k) as [-> _]; [lia|done].
  - intros j Hj. apply C4. lia.
Qed.

Lemma copy_noise s l old ups1 new own2 ups2 k s1 l1 own2' ups2' s2 l2 own2'' :
  copy_rel s l old ups1 new own2 ups2 k s1 l1 own2' ups2' -> 0 <= k < NPG ->
  as_inv s2 l2 new own2'' ups2' -> quiet s1 l1 own2' s2 l2 own2'' ->
  (forall j, 0 <= j < NPG -> pte_pg (mmem s2) new j = pte_pg (mmem s1) new j) ->
  copy_rel s l old ups1 new own2 ups2 k s2 l2 own2'' ups2'.
Proof.
  intros [C1 C2 C3 C4] Hk Hinv Hq Hpte. split; [done|by eapply quiet_trans|..].
  - intros j Hj. eapply copied_quiet; [exact C1|done|apply Hpte; lia|by apply C3].
  - intros j Hj. rewrite Hpte by lia. by apply C4.
Qed.

Lemma copy_step s l old ups1 new own2 ups2 k s1 l1 own2' ups2' s2 l2 own2'' pa p :
  copy_rel s l old ups1 new own2 ups2 k s1 l1 own2' ups2' -> 0 <= k < NPG ->
  has_flag (pte_pg (mmem s) old k) PTE_V = true -> ups1 !! k = Some pa -> p ∈ l1 ->
  as_inv s2 l2 new own2'' (<[k := p]> ups2') -> quiet s1 l1 own2' s2 l2 own2'' ->
  (forall j, 0 <= j < NPG -> pte_pg (mmem s2) new j =
     if j =? k then pte_val p (PTE_FLAGS (pte_pg (mmem s) old k)) else pte_pg (mmem s1) new j) ->
  (forall x, 0 <= x < PGSIZE -> ld8 (mmem s2) (p + x) = ld8 (mmem s) (pa + x)) ->
  copy_rel s l old ups1 new own2 ups2 (k + 1) s2 l2 own2'' (<[k := p]> ups2').
Proof.
  intros [C1 C2 C3 C4] Hk Hv Hpa Hp Hinv Hq Hpte Hx. split; [done|by eapply quiet_trans|..].
  - intros j Hj. destruct (decide (j = k)) as [->|Hne].
    + unfold copied. rewrite Hv. exists pa, p. rewrite lookup_insert_eq, Hpte, Z.eqb_refl by lia.
      split_and!; try done. by apply (q_l _ _ _ _ _ _ C2).
    + apply copied_insert; [done|]. eapply copied_quiet; [exact C1|done| |apply C3; lia].
      rewrite Hpte, (proj2 (Z.eqb_neq _ _)) by lia. done.
  - intros j Hj. rewrite Hpte, (proj2 (Z.eqb_neq _ _)), lookup_insert_ne by lia. apply C4. lia.
Qed.

Lemma flags_valid v : has_flag v PTE_V = true -> Z.lor (PTE_FLAGS v) PTE_V = PTE_FLAGS v.
Proof.
  rewrite has_flag_V. intros Hv. unfold PTE_FLAGS, PTE_V. change 0x3FF with (Z.ones 10).
  apply Z.bits_inj'. intros i Hi. rewrite Z.lor_spec. change 1 with (2 ^ 0).
  rewrite Z.pow2_bits_eqb by lia. destruct (Z.eqb_spec 0 i) as [<-|]; [|by rewrite orb_false_r].
  by rewrite Z.land_spec, Hv, Z.ones_spec_low by lia.
Qed.


(** The look-up idiom of vm.c: walk without allocating, test the entry. *)
Lemma wp_lookup {A} pt own va (KA : M mach A) (KB : Z -> Z -> M mach A) Q s :
  pt_inv (mmem s) pt own -> va < MAXVA ->
  (has_flag (pte_of (mmem s) pt va) PTE_V = false -> wp KA Q s) ->
  (forall a, slot_at (mmem s) 2 pt va = Some a -> has_flag (pte_of (mmem s) pt va) PTE_V = true ->
     wp (KB a (pte_of (mmem s) pt va)) Q s) ->
  wp (let! pte := walk pt va false in if pte =? 0 then KA else
      let! v := rd64 pte in if negb (has_flag v PTE_V) then KA else KB pte v) Q s.
Proof.
  intros Hpt Hva HA HB. wp_simp. eapply wp_of_ok; [by apply walk_ro|].
  unfold pte_of in *. rewrite pte_at_slot in *.
  destruct (slot_at (mmem s) 2 pt va) as [a|] eqn:Ha; simpl.
  - pose proof (slot_pos _ _ _ 2 pt [] _ _ Hpt (pt_root _ _ _ Hpt) eq_refl Ha).
    destruct (Z.eqb_spec a 0); [lia|]. unfold rd64. wp_simp.
    destruct (has_flag (ld64 (mmem s) a) PTE_V) eqn:Hv; simpl; [by apply HB|by apply HA].
  - apply HA. apply has_flag_0.
Qed.

Section copy.
Context (s : mach) (l : list Z) (old new : Z) (own1 own2 : gmap Z (list Z)) (ups1 ups2 : gmap Z Z) (sz : Z).
Context (Hold : as_inv s l old own1 ups1) (Hnew : as_inv s l new own2 ups2) (Hap : apart own1 ups1 own2).
Context (Hsz : 0 <= sz <= MAXVA).
Context (Hmapped : forall j, 0 <= j < pgs sz ->
  has_flag (pte_pg (mmem s) old j) PTE_V = true -> is_Some (ups1 !! j)).
Context (Hempty : forall j, 0 <= j < pgs sz -> has_flag (pte_pg (mmem s) new j) PTE_V = false).

Definition copy_post (r : Z) (s' : mach) : Prop :=
  exists own2' l',
    (r = 0 /\ exists ups2', copy_rel s l old ups1 new own2 ups2 (pgs sz) s' l' own2' ups2' /\ spent l l' own2' ups2' (3 * pgs sz)) \/
    (r = -1 /\ fail_rel s l new own2 ups2 0 (pgs sz) s' l' own2').

Lemma copy_old k s1 l1 own2' ups2' :
  copy_rel s l old ups1 new own2 ups2 k s1 l1 own2' ups2' ->
  as_inv s1 l1 old own1 ups1 /\ (forall va, pte_of (mmem s1) old va = pte_of (mmem s) old va) /\
  (forall n p x, ups1 !! n = Some p -> in_page p x -> ld8 (mmem s1) x = ld8 (mmem s) x).
Proof.
  intros C. eapply as_other; [exact Hold|apply Hnew|exact Hap|apply C|apply C].
Qed.

Lemma copy_fail k s1 l1 own2' ups2' :
  copy_rel s l old ups1 new own2 ups2 k s1 l1 own2' ups2' -> 0 <= k < pgs sz -> (length l1 <= 1)%nat ->
  (forall q, q ∈ l -> q ∈ l1 \/ pages_of own2' ups2' q) -> Z.of_nat (length l) <= 3 * pgs sz ->
  wp (uvmunmap new 0 k true ;; ret (-1)) copy_post s1.
Proof.
  intros C Hk Hl1 Hall Hshort. pose proof (pgs_range sz Hsz). wp_simp.
  eapply wp_mono; [eapply (uvmunmap_spec _ _ _ _ _ 0 k); [apply C|lia..|]|].
  - intros j Hj _ Hv. pose proof (cr_in _ _ _ _ _ _ _ _ _ _ _ _ C j ltac:(lia)) as Hc. unfold copied in Hc.
    destruct (has_flag (pte_pg (mmem s) old j) PTE_V); [|congruence].
    destruct Hc as (_ & pa' & _ & ? & _). by exists pa'.
  - intros ? s2 (fr & ups3 & Hu). wp_simp. exists own2', (fr ++ l1). right. split; [done|].
    eapply undo_fail; [exact Hnew|..|exact Hall|exact Hshort|exact Hu].
    + lia.
    + lia.
    + intros j _ Hj. apply Hempty. lia.
    + apply C.
    + intros j Hj. destruct (decide (k <= j < NPG)); [by apply C|].
      destruct (ups2' !! j) as [p|] eqn:E.
      * destruct (as_leaf _ _ _ _ _ (cr_new _ _ _ _ _ _ _ _ _ _ _ _ C) _ _ E). lia.
      * destruct (ups2 !! j) as [p|] eqn:E'; [|done].
        destruct (as_leaf _ _ _ _ _ Hnew _ _ E'). lia.
    + intros j Hj Hr. apply C. lia.
    + intros j p Hj Hp. pose proof (cr_in _ _ _ _ _ _ _ _ _ _ _ _ C j ltac:(lia)) as Hc. unfold copied in Hc.
      destruct (as_leaf _ _ _ _ _ (cr_new _ _ _ _ _ _ _ _ _ _ _ _ C) _ _ Hp) as (_ & Hv & _).
      destruct (has_flag (pte_pg (mmem s) old j) PTE_V); [|congruence].
      destruct Hc as (_ & pa' & _ & ? & ? & _). congruence.
Qed.

Lemma uvmcopy_loop_spec fuel k s1 l1 own2' ups2' :
  copy_rel s l old ups1 new own2 ups2 k s1 l1 own2' ups2' -> spent l l1 own2' ups2' (3 * k) ->
  0 <= k <= pgs sz -> pgs sz - k <= Z.of_nat fuel ->
  wp (uvmcopy_loop fuel old new (k * PGSIZE) sz) copy_post s1.
Proof.
  pose proof (pgs_range sz Hsz) as Hr.
  revert k s1 l1 own2' ups2'. induction fuel as [|fuel IH]; intros k s1 l1 own2' ups2' C Hsp Hk Hf;
    cbn [uvmcopy_loop]; pose proof (pgs_lt k sz) as Hlt;
    destruct (Z.ltb_spec (k * PGSIZE) sz) as [Hl|Hl].
  1: lia.
  1, 3: wp_simp; exists own2', l1; left; split; [done|]; exists ups2'; by replace (pgs sz) with k by lia.
  destruct (copy_old _ _ _ _ _ C) as (Hold1 & Hpte1 & Hx1).
  rewrite u64_small by (rewrite NPG_eq in *; unfold PGSIZE; lia).
  rewrite Z.div_mul by done. replace (k * PGSIZE + PGSIZE) with ((k + 1) * PGSIZE) by lia. cbv zeta.
  eapply (wp_lookup old own1 (k * PGSIZE) _ (fun _ v => _)); [apply Hold1|apply pg_range; lia|..].
  - rewrite Hpte1. intros Hv. eapply IH; [|by eapply spent_more; [by eexists| |exact Hsp]; lia|lia..]. eapply copy_skip; [done|lia|done|apply Hempty; lia].
  - intros a Ha. rewrite Hpte1. intros Hv.
    destruct (Hmapped k) as [pa Hpa]; [lia|done|].
    destruct (as_leaf _ _ _ _ _ Hold _ _ Hpa) as (_ & _ & Epa). fold (pte_pg (mmem s) old k). rewrite Epa.
    destruct (as_page _ _ _ _ _ Hold1 _ _ Hpa) as (Hpok & _ & Hpl1).
    eapply (wp_alloc_map s1 l1 new own2' ups2' k _ (fun m mm => memmove mm m pa PGSIZE));
      [apply C|lia| |apply flags_range|intros ???; apply memmove_page|..].
    + destruct (cr_out _ _ _ _ _ _ _ _ _ _ _ _ C k) as [-> _]; [lia|apply Hempty; lia].
    + intros s2 l2 own3 H2 Hq Hl2 Hp2 Hs2 Hl3. pose proof (sp_cost _ _ _ _ _ Hsp). eapply copy_fail; [|lia|done| |lia]; [eapply copy_noise; [done|lia|done..]|].
      apply (spent_trans l l1 l2 own2' own3 ups2' ups2' (3 * k) 3 (3 * k + 3)); [apply Hq|by eexists|done|done|lia].
    + intros p m1 s2 l2 own3 Hp Hu H2 Hq Hp2 Hm1 Hxs Hnone Hs2. eapply IH; [| |lia..].
      2: { eapply spent_trans; [apply Hq| |exact Hsp|exact Hs2|lia]. intros j q Hj. exists j. rewrite lookup_insert_ne; [done|congruence]. }
      eapply copy_step; [done|lia|done|done|done|done|done|done|].
      intros x Hx. rewrite Hxs, memmove_ld8 by (done || unfold in_page; lia).
      destruct (Z.leb_spec p (p + x)), (Z.ltb_spec (p + x) (p + PGSIZE)); try lia. simpl.
      replace (pa + (p + x - p)) with (pa + x) by lia.
      rewrite Hm1; [apply (Hx1 k pa); [done|unfold in_page; lia]|].
      intros Hi. eapply (in_page_ne pa p (pa + x)); [done|apply Hu| |unfold in_page; lia|done]. congruence.
Qed.

End copy.

End user.
