(* ===== verification/VmCopy.v ===== *)
(** The view a process has of its memory, and the functions of kernel/vm.c
    that move data across the user/kernel boundary: vmfault, copyin,
    copyinstr and copyout.  Pages below p->sz that have not been touched
    are allocated on the first access; the theorems show that a process
    cannot tell, it sees zeroes. *)
From S2P Require Import Prelude Mem Str Kalloc Vm VmSpec VmUser.

(** The byte user code reads at [va]; [None] where it may not read. *)
Definition uview (m : mem) (pt sz va : Z) : option Z :=
  if (0 <=? va) && (va <? MAXVA) then
    let pte := pte_of m pt va in
    if has_flag pte PTE_V then
      if has_flag pte PTE_U then Some (ld8 m (PTE2PA pte + va mod PGSIZE)) else None
    else if va / PGSIZE <? pgs sz then Some 0 else None
  else None.

(** May user code write at [va]? *)
Definition uwritable (m : mem) (pt sz va : Z) : bool :=
  let pte := pte_of m pt va in
  if has_flag pte PTE_V then has_flag pte PTE_U && has_flag pte PTE_W else va / PGSIZE <? pgs sz.

Section user.
Context `{L : Layout} `{!LayoutOk L}.

(** Every page the user may reach is one of [ups]. *)
Definition ucover (m : mem) (pt : Z) (ups : gmap Z Z) : Prop :=
  forall j, 0 <= j < NPG -> has_flag (pte_pg m pt j) PTE_V = true -> has_flag (pte_pg m pt j) PTE_U = true ->
    is_Some (ups !! j).

Definition user_byte (ups : gmap Z Z) (x : Z) : Prop := exists n p, ups !! n = Some p /\ in_page p x.

(** A step of the process on its own address space. *)
Record ustep (pt : Z) (s : mach) (l : list Z) (own : gmap Z (list Z)) (ups : gmap Z Z)
    (s' : mach) (l' : list Z) (own' : gmap Z (list Z)) (ups' : gmap Z Z) : Prop := {
  us_inv : as_inv s' l' pt own' ups';
  us_cover : ucover (mmem s') pt ups';
  us_own : own ⊆ own';
  us_from : from_free own own' l;
  us_l : forall p, p ∈ l' -> p ∈ l;
  us_ups : ups ⊆ ups';
  us_new : forall n p, ups' !! n = Some p -> ups !! n = Some p \/ p ∈ l;
  us_bytes : forall x, ~ owned_byte own x -> ~ free_byte l x -> ~ user_byte ups x ->
    ld8 (mmem s') x = ld8 (mmem s) x
}.

Lemma ustep_refl pt s l own ups : as_inv s l pt own ups -> ucover (mmem s) pt ups ->
  ustep pt s l own ups s l own ups.
Proof. intros Hi Hc. split; try done; [intros ???; by left|intros ???; by left]. Qed.

Lemma ustep_trans pt s l own ups s1 l1 own1 ups1 s2 l2 own2 ups2 :
  ustep pt s l own ups s1 l1 own1 ups1 -> ustep pt s1 l1 own1 ups1 s2 l2 own2 ups2 ->
  ustep pt s l own ups s2 l2 own2 ups2.
Proof.
  intros [A1 A2 A3 A4 A5 A6 A7 A8] [B1 B2 B3 B4 B5 B6 B7 B8]. split; [done|done|..].
  - by transitivity own1.
  - intros p path Hp. destruct (B4 _ _ Hp) as [?|?]; [by apply A4|right; by apply A5].
  - intros p Hp. by apply A5, B5.
  - by transitivity ups1.
  - intros n p Hp. destruct (B7 _ _ Hp) as [?|?]; [by apply A7|right; by apply A5].
  - intros x Ho Hf Hu. rewrite B8, A8; try done.
    + intros (p & path & Hp & Hi). destruct (A4 _ _ Hp); [apply Ho; by exists p, path|apply Hf; by exists p].
    + intros (p & Hp & Hi). apply Hf. exists p. split; [by apply A5|done].
    + intros (n & p & Hp & Hi). destruct (A7 _ _ Hp); [apply Hu; by exists n, p|apply Hf; by exists p].
Qed.

Lemma va_page va : 0 <= va < MAXVA -> 0 <= va / PGSIZE < NPG.
Proof.
  rewrite MAXVA_eq, NPG_eq. unfold PGSIZE. intros H.
  split; [apply Z.div_pos; lia|apply Z.div_lt_upper_bound; lia].
Qed.

Lemma in_page_off p va : in_page p (p + va mod PGSIZE).
Proof. unfold in_page. pose proof (Z.mod_pos_bound va PGSIZE ltac:(done)). lia. Qed.

(** The view when user pages and entries stay. *)
Lemma uview_quiet s l pt own ups s' l' own' sz va :
  as_inv s l pt own ups -> ucover (mmem s) pt ups -> quiet s l own s' l' own' ->
  (forall j, 0 <= j < NPG -> pte_pg (mmem s') pt j = pte_pg (mmem s) pt j) ->
  uview (mmem s') pt sz va = uview (mmem s) pt sz va.
Proof.
  intros Hinv Hc Hq Hpte. unfold uview.
  destruct (Z.leb_spec 0 va), (Z.ltb_spec va MAXVA); try done. simpl.
  rewrite !pte_of_pg, Hpte by (apply va_page; lia).
  destruct (has_flag (pte_pg (mmem s) pt (va / PGSIZE)) PTE_V) eqn:HV; [|done].
  destruct (has_flag (pte_pg (mmem s) pt (va / PGSIZE)) PTE_U) eqn:HU; [|done]. f_equal.
  destruct (Hc (va / PGSIZE)) as [pa Hpa]; [apply va_page; lia|done|done|].
  destruct (as_leaf _ _ _ _ _ Hinv _ _ Hpa) as (_ & _ & ->).
  eapply user_page_quiet; [done..|apply in_page_off].
Qed.

(** The view when an untouched page gets its zeroed memory. *)
Lemma uview_fault s l pt own ups s' l' own' sz n p va :
  as_inv s l pt own ups -> ucover (mmem s) pt ups -> quiet s l own s' l' own' ->
  (forall j, 0 <= j < NPG -> pte_pg (mmem s') pt j =
     if j =? n then pte_val p (Z.lor (Z.lor PTE_W PTE_U) PTE_R) else pte_pg (mmem s) pt j) ->
  page_ok p -> has_flag (pte_pg (mmem s) pt n) PTE_V = false -> n < pgs sz ->
  (forall x, in_page p x -> ld8 (mmem s') x = 0) ->
  uview (mmem s') pt sz va = uview (mmem s) pt sz va.
Proof.
  intros Hinv Hc Hq Hpte Hp Hn Hsz Hz. unfold uview.
  destruct (Z.leb_spec 0 va), (Z.ltb_spec va MAXVA); try done. simpl.
  rewrite !pte_of_pg, Hpte by (apply va_page; lia).
  destruct (Z.eqb_spec (va / PGSIZE) n) as [->|Hne].
  - rewrite Hn, pte_val_valid, pte_val_pa by done.
    rewrite (proj2 (Z.ltb_lt n _)) by done.
    replace (has_flag _ PTE_U) with true by (rewrite has_flag_U; unfold pte_val; by rewrite !Z.lor_spec, orb_true_r).
    by rewrite Hz by apply in_page_off.
  - destruct (has_flag (pte_pg (mmem s) pt (va / PGSIZE)) PTE_V) eqn:HV; [|done].
    destruct (has_flag (pte_pg (mmem s) pt (va / PGSIZE)) PTE_U) eqn:HU; [|done]. f_equal.
    destruct (Hc (va / PGSIZE)) as [pa Hpa]; [apply va_page; lia|done|done|].
    destruct (as_leaf _ _ _ _ _ Hinv _ _ Hpa) as (_ & _ & ->).
    eapply user_page_quiet; [done..|apply in_page_off].
Qed.

(** Entries for user pages only ever appear. *)
Definition same_view (sz : Z) (pt : Z) (m m' : mem) : Prop :=
  forall va, uview m' pt sz va = uview m pt sz va /\
    (0 <= va < MAXVA -> uwritable m' pt sz va = uwritable m pt sz va).

Lemma same_view_refl sz pt m : same_view sz pt m m.
Proof. done. Qed.

Lemma same_view_trans sz pt m m1 m2 : same_view sz pt m m1 -> same_view sz pt m1 m2 -> same_view sz pt m m2.
Proof.
  intros A B va. destruct (A va) as [A1 A2], (B va) as [B1 B2]. split; [congruence|].
  intros Hva. rewrite B2, A2; done.
Qed.

Definition RWU : Z := Z.lor (Z.lor PTE_W PTE_U) PTE_R.

Lemma RWU_U p : has_flag (pte_val p RWU) PTE_U = true.
Proof. rewrite has_flag_U. unfold pte_val. by rewrite !Z.lor_spec, orb_true_r. Qed.
Lemma RWU_W p : has_flag (pte_val p RWU) PTE_W = true.
Proof. rewrite has_flag_W. unfold pte_val. by rewrite !Z.lor_spec, orb_true_r. Qed.

Lemma quiet_ustep pt s l own ups s' l' own' ups' :
  as_inv s' l' pt own' ups' -> ucover (mmem s') pt ups' -> quiet s l own s' l' own' ->
  ups ⊆ ups' -> (forall n p, ups' !! n = Some p -> ups !! n = Some p \/ p ∈ l) ->
  ustep pt s l own ups s' l' own' ups'.
Proof. intros Hi Hc [Q1 Q2 Q3 Q4] Hu Hn. split; auto. Qed.

Definition fault_post (pt sz : Z) (s : mach) (l : list Z) (own : gmap Z (list Z)) (ups : gmap Z Z)
    (n r : Z) (s' : mach) : Prop :=
  exists l' own' ups', ustep pt s l own ups s' l' own' ups' /\ same_view sz pt (mmem s) (mmem s') /\
    ((r = 0 /\ (uview (mmem s) pt sz (n * PGSIZE) = None \/ (length l' <= 1)%nat)) \/
     (ups' !! n = Some r /\ pte_pg (mmem s') pt n = pte_val r RWU)).

Lemma ismapped_spec pt own va s :
  pt_inv (mmem s) pt own -> va < MAXVA ->
  ismapped pt va s = Ok (has_flag (pte_of (mmem s) pt va) PTE_V) s.
Proof.
  intros Hpt Hva. unfold ismapped, bind. rewrite walk_ro by done. unfold pte_of. rewrite pte_at_slot.
  destruct (slot_at (mmem s) 2 pt va) as [a|] eqn:Ha; simpl; [|by rewrite has_flag_0].
  pose proof (slot_pos _ _ _ 2 pt [] _ _ Hpt (pt_root _ _ _ Hpt) eq_refl Ha).
  destruct (Z.eqb_spec a 0); [lia|done].
Qed.

Lemma pgrounddown_pg n : PGROUNDDOWN (n * PGSIZE) = n * PGSIZE.
Proof. rewrite pgrounddown_eq, Z.mod_mul by done. lia. Qed.

(** vmfault() on a page the user cannot reach yet. *)
Lemma vmfault_spec pt sz rd s l own ups n :
  as_inv s l pt own ups -> ucover (mmem s) pt ups -> 0 <= sz <= MAXVA -> 0 <= n ->
  (n < NPG -> has_flag (pte_pg (mmem s) pt n) PTE_V = true -> has_flag (pte_pg (mmem s) pt n) PTE_U = false) ->
  wp (vmfault {| p_pagetable := pt; p_sz := sz |} pt (n * PGSIZE) rd) (fault_post pt sz s l own ups n) s.
Proof.
  intros Hinv Hc Hsz Hn HU. unfold vmfault. cbn [p_sz p_pagetable].
  pose proof (pgs_range sz Hsz) as Hpr. pose proof (pgs_lt n sz) as Hlt.
  assert (Hrefl : forall r, r = 0 -> uview (mmem s) pt sz (n * PGSIZE) = None -> fault_post pt sz s l own ups n r s).
  { intros r -> Hnone. exists l, own, ups. split_and!; [by apply ustep_refl|done|left; auto]. }
  assert (Hv0 : forall (m : mem), uview m pt sz (n * PGSIZE) =
    if n <? NPG then if has_flag (pte_pg m pt n) PTE_V then
      if has_flag (pte_pg m pt n) PTE_U then Some (ld8 m (PTE2PA (pte_pg m pt n))) else None
    else if n <? pgs sz then Some 0 else None else None).
  { intros m. unfold uview. rewrite pte_of_pg, Z.div_mul, Z.mod_mul, Z.add_0_r by done.
    rewrite NPG_eq, MAXVA_eq. unfold PGSIZE. zcases; done. }
  destruct (Z.leb_spec sz (n * PGSIZE)) as [Hge|Hin].
  { wp_simp. apply Hrefl; [done|]. rewrite Hv0. destruct (Z.ltb_spec n NPG) as [Hnn|]; [|done].
    destruct (has_flag (pte_pg (mmem s) pt n) PTE_V) eqn:HV; [by rewrite HU|].
    destruct (Z.ltb_spec n (pgs sz)); [lia|done]. }
  rewrite pgrounddown_pg. wp_simp.
  eapply wp_of_ok; [eapply ismapped_spec; [apply Hinv|apply pg_range; lia]|].
  fold (pte_pg (mmem s) pt n). destruct (has_flag (pte_pg (mmem s) pt n) PTE_V) eqn:HV.
  { wp_simp. apply Hrefl; [done|]. rewrite Hv0, HV, HU by (done || lia). by destruct (n <? NPG). }
  unfold mset.
  eapply (wp_alloc_map s l pt own ups n RWU (fun m mm => memset mm m 0 PGSIZE) (ret 0) (fun m => ret m));
    [done|lia|done|done|intros ???; apply memset_page|..].
  - intros s2 l2 own2 H2 Hq Hl Hp _ _. wp_simp. exists l2, own2, ups. split_and!.
    + apply quiet_ustep; try done; [|by left]. intros j Hj. rewrite Hp by done. by apply Hc.
    + intros va. split; [by eapply uview_quiet|]. intros Hva. unfold uwritable.
      by rewrite !pte_of_pg, Hp by (by apply va_page).
    + left. split; [done|]. by right.
  - intros p m1 s2 l2 own2 Hp Hu H2 Hq Hpte _ Hz Hnone _. wp_simp. destruct Hu as (Hpok & _).
    exists l2, own2, (<[n := p]> ups). split_and!.
    + apply quiet_ustep; try done.
      * intros j Hj. rewrite Hpte by done. destruct (Z.eqb_spec j n) as [->|Hne].
        -- rewrite lookup_insert_eq. intros _ _. by exists p.
        -- rewrite lookup_insert_ne by done. by apply Hc.
      * by apply insert_subseteq.
      * intros j q [[_ <-]|[_ ?]]%lookup_insert_Some; [by right|by left].
    + intros va. split.
      * eapply uview_fault; try done; [lia|]. intros x Hx. rewrite Hz, memset_spec by done.
        unfold in_page in Hx. zcases; done.
      * intros Hva. unfold uwritable. rewrite !pte_of_pg, Hpte by (by apply va_page).
        destruct (Z.eqb_spec (va / PGSIZE) n) as [->|]; [|done].
        rewrite HV, pte_val_valid, RWU_U, RWU_W. symmetry. apply Z.ltb_lt. lia.
    + right. rewrite lookup_insert_eq, Hpte, Z.eqb_refl by lia. done.
Qed.

Lemma walkaddr_spec pt own va s :
  pt_inv (mmem s) pt own ->
  walkaddr pt va s =
  Ok (if (va <? MAXVA) && has_flag (pte_of (mmem s) pt va) PTE_V && has_flag (pte_of (mmem s) pt va) PTE_U
      then PTE2PA (pte_of (mmem s) pt va) else 0) s.
Proof.
  intros Hpt. unfold walkaddr. destruct (Z.leb_spec MAXVA va), (Z.ltb_spec va MAXVA); try lia; [done|].
  unfold bind. rewrite walk_ro by done. unfold pte_of. rewrite pte_at_slot.
  destruct (slot_at (mmem s) 2 pt va) as [a|] eqn:Ha; simpl; [|done].
  pose proof (slot_pos _ _ _ 2 pt [] _ _ Hpt (pt_root _ _ _ Hpt) eq_refl Ha).
  destruct (Z.eqb_spec a 0); [lia|]. unfold rd64, gets. simpl.
  destruct (has_flag _ PTE_V); simpl; [|done]. by destruct (has_flag _ PTE_U).
Qed.

(** walkaddr(), then vmfault() when that gave nothing: the first half of
    every iteration of the copy loops. *)
Lemma wp_resolve {A} pt sz rd s l own ups n (K : Z -> M mach A) Q :
  as_inv s l pt own ups -> ucover (mmem s) pt ups -> 0 <= sz <= MAXVA -> 0 <= n ->
  (forall s' l' own' ups', ustep pt s l own ups s' l' own' ups' -> same_view sz pt (mmem s) (mmem s') ->
     uview (mmem s) pt sz (n * PGSIZE) = None \/ (length l' <= 1)%nat -> wp (K 0) Q s') ->
  (forall s' l' own' ups' pa, ustep pt s l own ups s' l' own' ups' -> same_view sz pt (mmem s) (mmem s') ->
     pa <> 0 -> ups' !! n = Some pa -> has_flag (pte_pg (mmem s') pt n) PTE_U = true -> wp (K pa) Q s') ->
  wp (let! pa0 := walkaddr pt (n * PGSIZE) in
      let! pa0 := (if pa0 =? 0 then vmfault {| p_pagetable := pt; p_sz := sz |} pt (n * PGSIZE) rd else ret pa0) in
      K pa0) Q s.
Proof.
  intros Hinv Hc Hsz Hn HF HK. wp_simp. eapply wp_of_ok; [eapply walkaddr_spec, Hinv|].
  fold (pte_pg (mmem s) pt n).
  assert (Hlt : n * PGSIZE < MAXVA <-> n < NPG) by (rewrite MAXVA_eq, NPG_eq; unfold PGSIZE; lia).
  destruct (Z.ltb_spec (n * PGSIZE) MAXVA) as [Hm|Hm]; cbn [andb].
  - destruct (has_flag (pte_pg (mmem s) pt n) PTE_V) eqn:HV; simpl.
    + destruct (has_flag (pte_pg (mmem s) pt n) PTE_U) eqn:HU; simpl.
      * destruct (Hc n) as [pa Hpa]; [lia|done|done|].
        destruct (as_leaf _ _ _ _ _ Hinv _ _ Hpa) as (_ & _ & ->).
        destruct (as_page _ _ _ _ _ Hinv _ _ Hpa) as (Hpok & _). pose proof (page_ok_pos _ Hpok).
        destruct (Z.eqb_spec pa 0); [lia|]. wp_simp.
        eapply HK; [by apply ustep_refl|done|done|done|done].
      * wp_simp. eapply wp_mono; [by apply vmfault_spec|].
        intros r s' (l' & own' & ups' & H1 & H2 & [[-> H3]|[H3 H4]]); [by eapply HF|].
        destruct (as_page _ _ _ _ _ (us_inv _ _ _ _ _ _ _ _ _ H1) _ _ H3) as (Hpok & _).
        pose proof (page_ok_pos _ Hpok). eapply HK; [done|done|lia|done|]. rewrite H4. apply RWU_U.
    + wp_simp. eapply wp_mono; [apply vmfault_spec; try done; intros _; congruence|].
      intros r s' (l' & own' & ups' & H1 & H2 & [[-> H3]|[H3 H4]]); [by eapply HF|].
      destruct (as_page _ _ _ _ _ (us_inv _ _ _ _ _ _ _ _ _ H1) _ _ H3) as (Hpok & _).
      pose proof (page_ok_pos _ Hpok). eapply HK; [done|done|lia|done|]. rewrite H4. apply RWU_U.
  - simpl. wp_simp. eapply wp_mono; [apply vmfault_spec; try done; lia|].
    intros r s' (l' & own' & ups' & H1 & H2 & [[-> H3]|[H3 H4]]); [by eapply HF|].
    destruct (as_leaf _ _ _ _ _ (us_inv _ _ _ _ _ _ _ _ _ H1) _ _ H3). lia.
Qed.

Lemma uview_same_page m pt sz va va' :
  va / PGSIZE = va' / PGSIZE -> uview m pt sz va = None -> uview m pt sz va' = None.
Proof.
  intros E. unfold uview.
  assert ((0 <=? va) && (va <? MAXVA) = (0 <=? va') && (va' <? MAXVA)) as ->.
  { rewrite MAXVA_eq. unfold PGSIZE in E. pose proof (Z.div_mod va 4096 ltac:(done)).
    pose proof (Z.div_mod va' 4096 ltac:(done)). pose proof (Z.mod_pos_bound va 4096 ltac:(done)).
    pose proof (Z.mod_pos_bound va' 4096 ltac:(done)). zcases; done. }
  rewrite !pte_of_pg, E. destruct (_ && _); [|done].
  destruct (has_flag _ PTE_V); [by destruct (has_flag _ PTE_U)|done].
Qed.

(** The view inside a mapped user page. *)
Lemma uview_page s l pt own ups sz n pa va :
  as_inv s l pt own ups -> ups !! n = Some pa -> has_flag (pte_pg (mmem s) pt n) PTE_U = true ->
  n * PGSIZE <= va < n * PGSIZE + PGSIZE ->
  uview (mmem s) pt sz va = Some (ld8 (mmem s) (pa + (va - n * PGSIZE))).
Proof.
  intros Hinv Hn HU Hva. destruct (as_leaf _ _ _ _ _ Hinv _ _ Hn) as (Hr & HV & Hpa).
  pose proof (pg_range n Hr) as Hmax.
  assert (va / PGSIZE = n) as Ediv by (symmetry; apply Z.div_unique with (va - n * PGSIZE); lia).
  unfold uview. rewrite pte_of_pg, Ediv, HV, HU, Hpa.
  replace (va mod PGSIZE) with (va - n * PGSIZE)
    by (pose proof (Z.div_mod va PGSIZE ltac:(done)); lia).
  rewrite NPG_eq, MAXVA_eq in *. unfold PGSIZE in *. zcases; done.
Qed.

Definition read_post (pt sz : Z) (s : mach) (l : list Z) (own : gmap Z (list Z)) (ups : gmap Z Z)
    (srcva len : Z) (r : list Z * bool) (s' : mach) : Prop :=
  exists l' own' ups', ustep pt s l own ups s' l' own' ups' /\ same_view sz pt (mmem s) (mmem s') /\
    (forall i, (i < length r.1)%nat -> uview (mmem s) pt sz (srcva + Z.of_nat i) = r.1 !! i) /\
    if r.2 then Z.of_nat (length r.1) = len
    else Z.of_nat (length r.1) < len /\
      (uview (mmem s) pt sz (srcva + Z.of_nat (length r.1)) = None \/ (length l' <= 1)%nat).

Lemma down_page va : PGROUNDDOWN va = va / PGSIZE * PGSIZE /\
  va / PGSIZE * PGSIZE <= va < va / PGSIZE * PGSIZE + PGSIZE.
Proof.
  rewrite pgrounddown_eq. pose proof (Z.div_mod va PGSIZE ltac:(done)).
  pose proof (Z.mod_pos_bound va PGSIZE ltac:(done)). lia.
Qed.

Lemma read_post_step pt sz s l own ups srcva len n bs s1 l1 own1 ups1 r s2 :
  ustep pt s l own ups s1 l1 own1 ups1 -> same_view sz pt (mmem s) (mmem s1) ->
  0 <= n <= len -> Z.of_nat (length bs) = n ->
  (forall i, (i < length bs)%nat -> uview (mmem s1) pt sz (srcva + Z.of_nat i) = bs !! i) ->
  read_post pt sz s1 l1 own1 ups1 (srcva + n) (len - n) r s2 ->
  read_post pt sz s l own ups srcva len (bs ++ r.1, r.2) s2.
Proof.
  intros Hu Hv Hn Hlen Hbs (l2 & own2 & ups2 & Hu2 & Hv2 & Hbs' & Hr). exists l2, own2, ups2.
  split; [by eapply ustep_trans|]. split; [by eapply same_view_trans|]. destruct r as [bs' ok]. simpl in *. split.
  - intros i Hi. destruct (Hv (srcva + Z.of_nat i)) as [<- _].
    destruct (decide (i < length bs)%nat) as [Hlt|Hge].
    + rewrite lookup_app_l by done. by apply Hbs.
    + rewrite length_app in Hi. rewrite lookup_app_r by lia. rewrite <- Hbs' by lia. f_equal. lia.
  - rewrite length_app. destruct ok; [lia|]. destruct Hr as [Hl [Hnone|?]]; (split; [lia|]); [left|by right].
    destruct (Hv (srcva + Z.of_nat (length bs + length bs'))) as [<- _]. rewrite <- Hnone. f_equal. lia.
Qed.

Lemma page_chunk va n k : 0 <= n -> va / PGSIZE * PGSIZE <= va ->
  n = Z.min (PGSIZE - (va - va / PGSIZE * PGSIZE)) k ->
  forall i, 0 <= i < n -> va / PGSIZE * PGSIZE <= va + i < va / PGSIZE * PGSIZE + PGSIZE.
Proof. intros ??->. lia. Qed.

(** Where the loops go next: the next page, or nowhere. *)
Lemma next_page va n len : 0 <= va -> va / PGSIZE < NPG ->
  n = Z.min (PGSIZE - (va - va / PGSIZE * PGSIZE)) len ->
  u64 (va / PGSIZE * PGSIZE + PGSIZE) = va + n \/ n = len.
Proof.
  intros H0 Hn ->. pose proof (down_page va) as [_ Hd]. rewrite NPG_eq in Hn.
  rewrite u64_small by (unfold PGSIZE in *; lia). lia.
Qed.

Lemma copyin_loop_spec pt sz : 0 <= sz <= MAXVA -> forall fuel s l own ups srcva len,
  as_inv s l pt own ups -> ucover (mmem s) pt ups -> 0 <= srcva -> 0 <= len <= Z.of_nat fuel ->
  wp (copyin_loop fuel {| p_pagetable := pt; p_sz := sz |} pt srcva len)
     (read_post pt sz s l own ups srcva len) s.
Proof.
  intros Hsz fuel. induction fuel as [|fuel IH]; intros s l own ups srcva len Hinv Hc Hs Hlen;
    cbn [copyin_loop]; destruct (Z.leb_spec len 0) as [H0|H0]; try lia.
  1, 2: wp_simp; exists l, own, ups; split_and!;
    [by apply ustep_refl|done|intros i Hi; simpl in Hi; lia|simpl; lia].
  pose proof (down_page srcva) as [-> Hd].
  apply (wp_resolve pt sz false s l own ups (srcva / PGSIZE)); [done..|apply Z.div_pos; done| |].
  - intros s1 l1 own1 ups1 Hu Hv Hnone. wp_simp. exists l1, own1, ups1. split; [done|]. split; [done|]. split.
    { intros i Hi. simpl in Hi. lia. }
    split; [simpl; lia|]. destruct Hnone as [Hnone|]; [left|by right].
    eapply uview_same_page; [|exact Hnone]. simpl. rewrite Z.add_0_r. by rewrite Z.div_mul.
  - intros s1 l1 own1 ups1 pa Hu Hv Hpa0 Hpa HU. destruct (Z.eqb_spec pa 0) as [->|_]; [done|].
    remember (Z.min (PGSIZE - (srcva - srcva / PGSIZE * PGSIZE)) len) as n eqn:En. wp_simp.
    pose proof (us_inv _ _ _ _ _ _ _ _ _ Hu) as Hinv1. pose proof (us_cover _ _ _ _ _ _ _ _ _ Hu) as Hc1.
    destruct (as_leaf _ _ _ _ _ Hinv1 _ _ Hpa) as (Hr & _).
    assert (Hstep : forall r s2, read_post pt sz s1 l1 own1 ups1 (srcva + n) (len - n) r s2 ->
      read_post pt sz s l own ups srcva len
        (ld_bytes (mmem s1) (pa + (srcva - srcva / PGSIZE * PGSIZE)) (Z.to_nat n) ++ r.1, r.2) s2).
    { intros r s2. apply (read_post_step pt sz s l own ups srcva len n); try done; [lia| |].
      - rewrite length_ld_bytes. lia.
      - intros i. rewrite length_ld_bytes. intros Hi. rewrite lookup_ld_bytes by done.
        rewrite (uview_page s1 l1 pt own1 ups1 sz (srcva / PGSIZE) pa) by (done || lia). do 2 f_equal. lia. }
    destruct (next_page srcva n len) as [->| ->]; [done|lia|done| |].
    + eapply wp_mono; [apply (IH s1 l1 own1 ups1); [done..|lia|lia]|].
      intros [r ok] s2 Hr2. wp_simp. by apply (Hstep (r, ok)).
    + rewrite Z.sub_diag in *. destruct fuel; cbn [copyin_loop]; simpl (0 <=? 0); cbv iota; wp_simp;
        apply (Hstep ([], true)); exists l1, own1, ups1;
        (split_and!; [by apply ustep_refl|done|intros i Hi; simpl in Hi; lia|simpl; lia]).
Qed.

(** ** copyinstr() *)

Lemma copyinstr_page_spec m pa n bs got :
  copyinstr_page m pa n = (bs, got) ->
  (length bs <= n)%nat /\ (forall i, (i < length bs)%nat -> bs !! i = Some (ld8 m (pa + Z.of_nat i))) /\
  Forall (fun b => b <> 0) bs /\
  (if got then (length bs < n)%nat /\ ld8 m (pa + Z.of_nat (length bs)) = 0 else length bs = n).
Proof.
  revert pa bs got. induction n as [|n IH]; intros pa bs got; simpl.
  - intros [= <- <-]. split_and!; [simpl; lia|simpl; lia|constructor|done].
  - destruct (Z.eqb_spec (ld8 m pa) 0) as [E|E].
    + intros [= <- <-]. rewrite Z.add_0_r. split_and!; [simpl; lia|simpl; lia|constructor|simpl; lia|done].
    + destruct (copyinstr_page m (pa + 1) n) as [bs' got'] eqn:Ep. intros [= <- <-].
      destruct (IH _ _ _ Ep) as (H1 & H2 & H3 & H4). split_and!.
      * simpl. lia.
      * intros [|i] Hi; simpl in *; [by rewrite Z.add_0_r|]. rewrite H2 by lia. do 2 f_equal. lia.
      * by constructor.
      * destruct got'; simpl; [|lia]. destruct H4 as [H4 H5]. split; [lia|]. rewrite <- H5. f_equal. lia.
Qed.

(** [bs] is what the user sees from [srcva] on, and has no NUL. *)
Definition prefix_view (m : mem) (pt sz srcva : Z) (bs : list Z) : Prop :=
  Forall (fun b => b <> 0) bs /\
  forall i, (i < length bs)%nat -> uview m pt sz (srcva + Z.of_nat i) = bs !! i.

Definition str_post (pt sz : Z) (s : mach) (l : list Z) (own : gmap Z (list Z)) (ups : gmap Z Z)
    (srcva max : Z) (r : option (list Z)) (s' : mach) : Prop :=
  exists l' own' ups', ustep pt s l own ups s' l' own' ups' /\ same_view sz pt (mmem s) (mmem s') /\
    match r with
    | Some bs => prefix_view (mmem s) pt sz srcva bs /\ Z.of_nat (length bs) < max /\
        uview (mmem s) pt sz (srcva + Z.of_nat (length bs)) = Some 0
    | None => (length l' <= 1)%nat \/ exists bs, prefix_view (mmem s) pt sz srcva bs /\
        (Z.of_nat (length bs) = Z.max 0 max \/
         Z.of_nat (length bs) < max /\ uview (mmem s) pt sz (srcva + Z.of_nat (length bs)) = None)
    end.

Lemma prefix_view_same m m' pt sz srcva bs :
  same_view sz pt m m' -> prefix_view m' pt sz srcva bs -> prefix_view m pt sz srcva bs.
Proof. intros Hv [H1 H2]. split; [done|]. intros i Hi. destruct (Hv (srcva + Z.of_nat i)) as [<- _]. by apply H2. Qed.

Lemma prefix_view_app m pt sz srcva bs bs' :
  prefix_view m pt sz srcva bs -> prefix_view m pt sz (srcva + Z.of_nat (length bs)) bs' ->
  prefix_view m pt sz srcva (bs ++ bs').
Proof.
  intros [H1 H2] [H1' H2']. split; [by apply Forall_app|]. intros i Hi.
  destruct (decide (i < length bs)%nat).
  - rewrite lookup_app_l by done. by apply H2.
  - rewrite length_app in Hi. rewrite lookup_app_r by lia. rewrite <- H2' by lia. f_equal. lia.
Qed.

Lemma str_post_step pt sz s l own ups srcva max bs s1 l1 own1 ups1 r s2 :
  ustep pt s l own ups s1 l1 own1 ups1 -> same_view sz pt (mmem s) (mmem s1) ->
  Z.of_nat (length bs) <= max -> prefix_view (mmem s1) pt sz srcva bs ->
  str_post pt sz s1 l1 own1 ups1 (srcva + Z.of_nat (length bs)) (max - Z.of_nat (length bs)) r s2 ->
  str_post pt sz s l own ups srcva max (app bs <$> r) s2.
Proof.
  intros Hu Hv Hmax Hbs (l2 & own2 & ups2 & Hu2 & Hv2 & Hr). exists l2, own2, ups2.
  split_and!; [by eapply ustep_trans|by eapply same_view_trans|].
  assert (Hat : forall bs', uview (mmem s) pt sz (srcva + Z.of_nat (length (bs ++ bs'))) =
    uview (mmem s1) pt sz (srcva + Z.of_nat (length bs) + Z.of_nat (length bs'))).
  { intros bs'. rewrite length_app, Nat2Z.inj_add, Z.add_assoc. by destruct (Hv (srcva + Z.of_nat (length bs) + Z.of_nat (length bs'))). }
  destruct r as [bs'|]; simpl.
  - destruct Hr as (H1 & H2 & H3). split_and!.
    + eapply prefix_view_same; [done|]. by apply prefix_view_app.
    + rewrite length_app. lia.
    + by rewrite Hat.
  - destruct Hr as [?|(bs' & H1 & H2)]; [by left|right]. exists (bs ++ bs'). split.
    + eapply prefix_view_same; [done|]. by apply prefix_view_app.
    + rewrite Hat, length_app. destruct H2 as [H2|[H2 H3]]; [left; lia|right]. split; [lia|done].
Qed.

Lemma copyinstr_loop_spec pt sz : 0 <= sz <= MAXVA -> forall fuel s l own ups srcva max,
  as_inv s l pt own ups -> ucover (mmem s) pt ups -> 0 <= srcva -> max <= Z.of_nat fuel ->
  wp (copyinstr_loop fuel {| p_pagetable := pt; p_sz := sz |} pt srcva max)
     (str_post pt sz s l own ups srcva max) s.
Proof.
  intros Hsz fuel. induction fuel as [|fuel IH]; intros s l own ups srcva max Hinv Hc Hs Hmax;
    cbn [copyinstr_loop]; destruct (Z.leb_spec max 0) as [H0|H0]; try lia.
  1, 2: wp_simp; exists l, own, ups; split_and!; [by apply ustep_refl|done|];
    right; exists []; split; [split; [constructor|simpl; lia]|left; simpl; lia].
  pose proof (down_page srcva) as [-> Hd].
  apply (wp_resolve pt sz true s l own ups (srcva / PGSIZE)); [done..|apply Z.div_pos; done| |].
  - intros s1 l1 own1 ups1 Hu Hv Hnone. wp_simp. exists l1, own1, ups1. split_and!; [done..|].
    destruct Hnone as [Hnone|]; [right|by left]. exists []. split; [split; [constructor|simpl; lia]|].
    right. split; [simpl; lia|]. eapply uview_same_page; [|exact Hnone]. simpl. by rewrite Z.add_0_r, Z.div_mul.
  - intros s1 l1 own1 ups1 pa Hu Hv Hpa0 Hpa HU. destruct (Z.eqb_spec pa 0) as [->|_]; [done|].
    remember (Z.min (PGSIZE - (srcva - srcva / PGSIZE * PGSIZE)) max) as n eqn:En. wp_simp.
    pose proof (us_inv _ _ _ _ _ _ _ _ _ Hu) as Hinv1. pose proof (us_cover _ _ _ _ _ _ _ _ _ Hu) as Hc1.
    destruct (as_leaf _ _ _ _ _ Hinv1 _ _ Hpa) as (Hr & _).
    destruct (copyinstr_page (mmem s1) (pa + (srcva - srcva / PGSIZE * PGSIZE)) (Z.to_nat n)) as [bs got] eqn:Ep.
    apply copyinstr_page_spec in Ep as (H1 & H2 & H3 & H4).
    assert (Hview : forall i, 0 <= i < n -> uview (mmem s1) pt sz (srcva + i) =
      Some (ld8 (mmem s1) (pa + (srcva - srcva / PGSIZE * PGSIZE) + i))).
    { intros i Hi. rewrite (uview_page s1 l1 pt own1 ups1 sz (srcva / PGSIZE) pa) by (done || lia). do 2 f_equal. lia. }
    assert (Hpre : prefix_view (mmem s1) pt sz srcva bs).
    { split; [done|]. intros i Hi. rewrite H2 by done. apply Hview. lia. }
    destruct got.
    + wp_simp. destruct H4 as [H4 H5]. exists l1, own1, ups1. split_and!; [done..|by eapply prefix_view_same|lia|].
      destruct (Hv (srcva + Z.of_nat (length bs))) as [<- _]. rewrite Hview by lia. by rewrite H5.
    + wp_simp. assert (Z.of_nat (length bs) = n) as Hlen by lia.
      destruct (next_page srcva n max) as [->| ->]; [done|lia|done| |].
      * eapply wp_mono; [apply (IH s1 l1 own1 ups1); [done..|lia|lia]|].
        intros r s2 Hr2. wp_simp. eapply str_post_step; [done|done|lia|done|]. by rewrite Hlen.
      * rewrite Z.sub_diag.
        assert (str_post pt sz s l own ups srcva max None s1) as Hend.
        { exists l1, own1, ups1. split_and!; [done..|]. right. exists bs.
          split; [by eapply prefix_view_same|left; lia]. }
        destruct fuel; cbn [copyinstr_loop]; simpl (0 <=? 0); cbv iota; wp_simp; exact Hend.
Qed.

(** ** copyout() *)

(** [m'] is [m] with [bs] stored at user address [dst]. *)
Definition wrote (sz pt dst : Z) (bs : list Z) (m m' : mem) : Prop :=
  forall va,
    uview m' pt sz va = (if (dst <=? va) && (va <? dst + Z.of_nat (length bs))
                         then bs !! Z.to_nat (va - dst) else uview m pt sz va) /\
    (0 <= va < MAXVA -> uwritable m' pt sz va = uwritable m pt sz va).

Definition write_post (pt sz : Z) (s : mach) (l : list Z) (own : gmap Z (list Z)) (ups : gmap Z Z)
    (dst : Z) (src : list Z) (r : Z) (s' : mach) : Prop :=
  exists l' own' ups' k, ustep pt s l own ups s' l' own' ups' /\ (k <= length src)%nat /\
    wrote sz pt dst (take k src) (mmem s) (mmem s') /\
    ((r = 0 /\ k = length src) \/
     (r = -1 /\ (k < length src)%nat /\
      ((length l' <= 1)%nat \/ uview (mmem s) pt sz (dst + Z.of_nat k) = None \/
       uwritable (mmem s) pt sz (dst + Z.of_nat k) = false))).

(** Storing into the user page of page number [n]. *)
Lemma as_write s l pt own ups n pa off bs :
  as_inv s l pt own ups -> ucover (mmem s) pt ups -> ups !! n = Some pa ->
  0 <= off -> off + Z.of_nat (length bs) <= PGSIZE ->
  ustep pt s l own ups (set_mem (fun m => st_bytes m (pa + off) bs) s) l own ups /\
  (forall va, pte_of (st_bytes (mmem s) (pa + off) bs) pt va = pte_of (mmem s) pt va).
Proof.
  intros Hinv Hc Hn Ho Hlen. destruct (as_page _ _ _ _ _ Hinv _ _ Hn) as (Hp & Hno & Hl).
  destruct (as_vm _ _ _ _ _ Hinv) as [Hk Hpt Hsep].
  assert (Hx : forall x, ~ in_page pa x -> ld8 (st_bytes (mmem s) (pa + off) bs) x = ld8 (mmem s) x).
  { intros x Hx. apply ld8_st_bytes_out. unfold in_page in Hx. lia. }
  assert (Hxo : forall x, owned_byte own x -> ld8 (st_bytes (mmem s) (pa + off) bs) x = ld8 (mmem s) x).
  { intros x Hob. apply Hx. by eapply as_sep. }
  assert (Hpte : forall va, pte_of (st_bytes (mmem s) (pa + off) bs) pt va = pte_of (mmem s) pt va).
  { intros va. by eapply pte_frame. }
  split; [|done]. split; simpl; try done; try (intros ???; by left).
  - split; [split; [|by eapply pt_inv_frame|done]|..|apply Hinv].
    + apply (kmem_inv_page _ _ pa); [done..|]. intros m x Hi. apply ld8_st_bytes_out. unfold in_page in Hi. lia.
    + intros j q Hj. unfold pte_pg. simpl. rewrite Hpte. by apply (as_leaf _ _ _ _ _ Hinv).
    + apply Hinv.
  - intros j Hj. unfold pte_pg. rewrite Hpte. by apply Hc.
  - intros x _ _ Hu. apply Hx. intros Hi. apply Hu. by exists n, pa.
Qed.

Lemma wrote_page s l pt own ups n pa sz va bs :
  as_inv s l pt own ups -> ucover (mmem s) pt ups -> ups !! n = Some pa ->
  has_flag (pte_pg (mmem s) pt n) PTE_U = true -> byte_list bs ->
  n * PGSIZE <= va -> va + Z.of_nat (length bs) <= n * PGSIZE + PGSIZE ->
  wrote sz pt va bs (mmem s) (st_bytes (mmem s) (pa + (va - n * PGSIZE)) bs).
Proof.
  intros Hinv Hc Hn HU Hbs H1 H2 va'.
  destruct (as_write s l pt own ups n pa (va - n * PGSIZE) bs) as [Hu Hpte]; [done..|lia|lia|].
  split; [|intros _; unfold uwritable; by rewrite Hpte].
  destruct (decide (n * PGSIZE <= va' < n * PGSIZE + PGSIZE)) as [Hin|Hout].
  - rewrite (uview_page (set_mem (fun m => st_bytes m (pa + (va - n * PGSIZE)) bs) s) l pt own ups sz n pa);
      [|apply Hu|done|by unfold pte_pg; simpl; rewrite Hpte|done].
    rewrite (uview_page s l pt own ups sz n pa) by done. cbn [mmem set_mem]. rewrite ld8_st_bytes.
    destruct (Z.leb_spec va va'), (Z.ltb_spec va' (va + Z.of_nat (length bs))); cbn [andb];
      zcases; try done.
    replace (pa + (va' - n * PGSIZE) - (pa + (va - n * PGSIZE))) with (va' - va) by lia.
    destruct (lookup_lt_is_Some_2 bs (Z.to_nat (va' - va))) as [b Hb]; [lia|]. rewrite Hb. simpl.
    f_equal. apply u8_small. by eapply Forall_lookup_1 in Hbs.
  - replace ((va <=? va') && (va' <? va + Z.of_nat (length bs))) with false by (zcases; done).
    unfold uview. rewrite Hpte. destruct (Z.leb_spec 0 va'), (Z.ltb_spec va' MAXVA); try done. cbn [andb].
    rewrite pte_of_pg.
    destruct (has_flag (pte_pg (mmem s) pt (va' / PGSIZE)) PTE_V) eqn:HV; [|done].
    destruct (has_flag (pte_pg (mmem s) pt (va' / PGSIZE)) PTE_U) eqn:HU'; [|done]. f_equal.
    destruct (Hc (va' / PGSIZE)) as [q Hq]; [apply va_page; lia|done|done|].
    destruct (as_leaf _ _ _ _ _ Hinv _ _ Hq) as (_ & _ & ->). apply ld8_st_bytes_out.
    destruct (as_page _ _ _ _ _ Hinv _ _ Hq) as ((Hal & _) & _).
    destruct (as_page _ _ _ _ _ Hinv _ _ Hn) as ((Hal' & _) & _).
    pose proof (down_page va') as [_ Hd]. pose proof (in_page_off q va') as Hi. unfold in_page in Hi.
    destruct (pages_disjoint q pa); [done|done| |lia|lia].
    intros ->. assert (va' / PGSIZE = n) by (by eapply as_inj). lia.
Qed.

Lemma wrote_nil sz pt dst m m' : same_view sz pt m m' -> wrote sz pt dst [] m m'.
Proof. intros Hv va. destruct (Hv va) as [-> ?]. split; [|done]. simpl. zcases; done. Qed.

Lemma wrote_step sz pt dst bs bs' m m1 m2 m3 :
  same_view sz pt m m1 -> wrote sz pt dst bs m1 m2 -> wrote sz pt (dst + Z.of_nat (length bs)) bs' m2 m3 ->
  wrote sz pt dst (bs ++ bs') m m3.
Proof.
  intros A B C va. destruct (A va) as [A1 A2], (B va) as [B1 B2], (C va) as [C1 C2].
  split; [|intros Hva; rewrite C2, B2, A2; done].
  rewrite C1, B1, A1, length_app, Nat2Z.inj_add.
  destruct (Z.leb_spec dst va); cbn [andb]; [|zcases; done].
  destruct (Z.ltb_spec va (dst + Z.of_nat (length bs))).
  - rewrite lookup_app_l by lia. zcases; done.
  - rewrite lookup_app_r by lia. replace (Z.to_nat (va - dst) - length bs)%nat with
      (Z.to_nat (va - (dst + Z.of_nat (length bs)))) by lia. zcases; done.
Qed.

Lemma write_post_fail pt sz s l own ups dst src s1 l1 own1 ups1 :
  ustep pt s l own ups s1 l1 own1 ups1 -> same_view sz pt (mmem s) (mmem s1) -> src <> [] ->
  ((length l1 <= 1)%nat \/ uview (mmem s) pt sz dst = None \/ uwritable (mmem s) pt sz dst = false) ->
  write_post pt sz s l own ups dst src (-1) s1.
Proof.
  intros Hu Hv Hne Hwhy. exists l1, own1, ups1, 0%nat. rewrite Z.add_0_r.
  split_and!; [done|lia|by apply wrote_nil|]. right. split_and!; [done| |done].
  destruct src; [done|simpl; lia].
Qed.

Lemma write_post_step pt sz s l own ups dst src n s1 l1 own1 ups1 s2 l2 own2 ups2 r s3 :
  ustep pt s l own ups s1 l1 own1 ups1 -> same_view sz pt (mmem s) (mmem s1) ->
  ustep pt s1 l1 own1 ups1 s2 l2 own2 ups2 -> (n <= length src)%nat ->
  wrote sz pt dst (take n src) (mmem s1) (mmem s2) ->
  write_post pt sz s2 l2 own2 ups2 (dst + Z.of_nat n) (drop n src) r s3 ->
  write_post pt sz s l own ups dst src r s3.
Proof.
  intros Hu1 Hv Hu2 Hn Hw (l3 & own3 & ups3 & k & Hu3 & Hk & Hw3 & Hr).
  rewrite length_drop in *. exists l3, own3, ups3, (n + k)%nat.
  assert (Hlen : length (take n src) = n) by (rewrite length_take; lia).
  assert (Hat : uview (mmem s2) pt sz (dst + Z.of_nat n + Z.of_nat k) = uview (mmem s) pt sz (dst + Z.of_nat (n + k))).
  { destruct (Hw (dst + Z.of_nat n + Z.of_nat k)) as [-> _]. rewrite Hlen.
    destruct (Hv (dst + Z.of_nat n + Z.of_nat k)) as [-> _].
    rewrite Nat2Z.inj_add, Z.add_assoc. zcases; done. }
  split_and!; [by eapply ustep_trans; [exact Hu1|]; eapply ustep_trans|lia| |].
  - rewrite <- take_take_drop. eapply wrote_step; [exact Hv|exact Hw|]. by rewrite Hlen.
  - destruct Hr as [[-> ->]|(-> & Hlt & Hwhy)]; [left|right].
    + split; [done|lia].
    + split_and!; [done|lia|]. rewrite <- Hat. destruct Hwhy as [?|[?|Hwr]]; [by left|by right; left|].
      destruct (decide (0 <= dst + Z.of_nat n + Z.of_nat k < MAXVA)) as [Hm|Hm].
      * right. right. destruct (Hw (dst + Z.of_nat n + Z.of_nat k)) as [_ E1].
        destruct (Hv (dst + Z.of_nat n + Z.of_nat k)) as [_ E2]. rewrite E1, E2 in Hwr by done.
        by rewrite Nat2Z.inj_add, Z.add_assoc.
      * right. left. unfold uview. zcases; done.
Qed.

Lemma write_post_nil pt sz s l own ups dst : as_inv s l pt own ups -> ucover (mmem s) pt ups ->
  write_post pt sz s l own ups dst [] 0 s.
Proof.
  intros Hi Hc. exists l, own, ups, 0%nat. split_and!; [by apply ustep_refl|done|by apply wrote_nil|by left].
Qed.

Lemma copyout_loop_spec pt sz : 0 <= sz <= MAXVA -> forall fuel s l own ups dst src,
  as_inv s l pt own ups -> ucover (mmem s) pt ups -> 0 <= dst -> byte_list src -> (length src <= fuel)%nat ->
  wp (copyout_loop fuel {| p_pagetable := pt; p_sz := sz |} pt dst src)
     (write_post pt sz s l own ups dst src) s.
Proof.
  intros Hsz fuel. induction fuel as [|fuel IH]; intros s l own ups dst src Hinv Hc Hd Hbs Hlen.
  { destruct src; [|simpl in Hlen; lia]. wp_simp. by apply write_post_nil. }
  destruct src as [|b src']; [wp_simp; by apply write_post_nil|].
  remember (b :: src') as src eqn:Esrc. assert (Hne : src <> []) by (subst; done).
  replace (copyout_loop (S fuel) {| p_pagetable := pt; p_sz := sz |} pt dst src) with
    (match src with [] => ret 0 | _ => copyout_loop (S fuel) {| p_pagetable := pt; p_sz := sz |} pt dst src end)
    by (by destruct src).
  rewrite Esrc at 1. cbn [copyout_loop]. rewrite Esrc at 1. pose proof (down_page dst) as [-> Hp].
  destruct (Z.leb_spec MAXVA (dst / PGSIZE * PGSIZE)) as [Hbig|Hsmall].
  { wp_simp. eapply write_post_fail; [by apply ustep_refl|done|done|]. right. left. unfold uview. zcases; done. }
  apply (wp_resolve pt sz false s l own ups (dst / PGSIZE)); [done..|apply Z.div_pos; done| |].
  - intros s1 l1 own1 ups1 Hu Hv Hnone. wp_simp. eapply write_post_fail; [done..|].
    destruct Hnone as [Hnone|]; [right; left|by left].
    eapply uview_same_page; [|exact Hnone]. by rewrite Z.div_mul.
  - intros s1 l1 own1 ups1 pa Hu Hv Hpa0 Hpa HU. destruct (Z.eqb_spec pa 0) as [->|_]; [done|].
    pose proof (us_inv _ _ _ _ _ _ _ _ _ Hu) as Hinv1. pose proof (us_cover _ _ _ _ _ _ _ _ _ Hu) as Hc1.
    destruct (as_leaf _ _ _ _ _ Hinv1 _ _ Hpa) as (Hr & HV & _).
    wp_simp. eapply wp_of_ok; [by apply walk_ro|].
    destruct (slot_valid _ _ _ HV) as (a & Ha & Hld). rewrite Ha. simpl default.
    pose proof (vi_pt _ _ _ _ (as_vm _ _ _ _ _ Hinv1)) as Hpt.
    pose proof (slot_pos _ _ _ 2 pt [] _ _ Hpt (pt_root _ _ _ Hpt) eq_refl Ha).
    destruct (Z.eqb_spec a 0) as [->|_]; [lia|]. unfold rd64. wp_simp. rewrite Hld.
    destruct (has_flag (pte_pg (mmem s1) pt (dst / PGSIZE)) PTE_W) eqn:HW; simpl negb; cbv iota.
    + remember (Z.min (PGSIZE - (dst - dst / PGSIZE * PGSIZE)) (Z.of_nat (length src))) as n eqn:En. wp_simp.
      assert (0 <= n <= Z.of_nat (length src)) as Hn by lia.
      assert (Hwr : wrote sz pt dst (take (Z.to_nat n) src) (mmem s1)
        (st_bytes (mmem s1) (pa + (dst - dst / PGSIZE * PGSIZE)) (take (Z.to_nat n) src))).
      { apply (wrote_page s1 l1 pt own1 ups1); try done; [by apply Forall_take|lia|].
        rewrite length_take. lia. }
      destruct (as_write s1 l1 pt own1 ups1 (dst / PGSIZE) pa (dst - dst / PGSIZE * PGSIZE)
        (take (Z.to_nat n) src)) as [Hu2 _]; [done..|lia|rewrite length_take; lia|].
      eapply wp_mono; [|intros r s3 Hr3; eapply (write_post_step pt sz s l own ups dst src (Z.to_nat n)); [exact Hu|done|exact Hu2|lia|exact Hwr|exact Hr3]].
      rewrite Z2Nat.id by lia. destruct (next_page dst n (Z.of_nat (length src))) as [->| ->]; [done|lia|done| |].
      * apply IH; [apply Hu2|apply Hu2|lia|by apply Forall_drop|]. rewrite length_drop. subst src. simpl in *. lia.
      * rewrite drop_ge by lia. destruct fuel; simpl; wp_simp; (apply write_post_nil; apply Hu2).
    + wp_simp. eapply write_post_fail; [done..|]. right.
      destruct (Hv dst) as [_ Hw]. rewrite <- Hw by (rewrite MAXVA_eq, NPG_eq in *; unfold PGSIZE in *; lia).
      right. unfold uwritable. by rewrite pte_of_pg, HV, HW, andb_false_r.
Qed.

End user.
