(* ===== verification/VmProps.v ===== *)
(** The properties of kernel/vm.c, proved from the specifications of
    [VmSpec], [VmUser] and [VmCopy]. *)
From S2P Require Import Prelude Mem Str Kalloc Vm VmSpec VmUser VmCopy.

(** * A machine to evaluate the properties on *)

(** A zeroed page is an empty page table. *)
Lemma empty_as `{L : Layout} `{!LayoutOk L} s l pt :
  kmem_inv s l -> page_ok pt -> pt ∉ l -> (forall x, in_page pt x -> ld8 (mmem s) x = 0) ->
  as_inv s l pt {[pt := []]} ∅.
Proof.
  intros Hk Hp Hl Hz.
  assert (Hpte : forall i, 0 <= i < 512 -> ld64 (mmem s) (pte_addr pt i) = 0).
  { intros i Hi. apply ld64_zero. intros x Hx. apply Hz. by eapply pte_addr_in_page. }
  split; [split; [done|split|]|..].
  - apply lookup_singleton_eq.
  - intros p path [<- <-]%lookup_singleton_Some. split; [done|simpl; lia].
  - intros p path i [<- <-]%lookup_singleton_Some _ Hi. by rewrite Hpte, has_flag_0.
  - intros p path i [<- <-]%lookup_singleton_Some _ Hi. by rewrite Hpte, has_flag_0.
  - intros q path i [_ E]%lookup_singleton_Some. by destruct path.
  - by intros q [<- _]%lookup_singleton_Some.
  - intros p Hp'. apply lookup_singleton_ne. congruence.
  - intros n pa [=].
  - intros n pa [=].
  - intros n n' pa [=].
Qed.

Lemma empty_pte (m : mem) pt va : (forall x, in_page pt x -> ld8 m x = 0) -> pte_of m pt va = 0.
Proof.
  intros Hz. unfold pte_of. cbn [pte_at]. rewrite (ld64_zero m (pte_addr pt (PX 2 va))); [done|].
  intros x Hx. apply Hz. eapply pte_addr_in_page; [apply PX_range|done].
Qed.

(** The root table at [demo_pt], and six free pages. *)
Definition demo_pt : Z := 0x80022000.
Definition demo_free : list Z :=
  [0x80023000; 0x80024000; 0x80025000; 0x80026000; 0x80027000; 0x80028000].
Definition demo_vm : mach :=
  Mach (foldr (fun p m => st64 m p (if p =? 0x80028000 then 0 else p + PGSIZE)) (∅ : mem) demo_free)
       Free 0x80023000.

Lemma demo_vm_kmem : kmem_inv demo_vm demo_free.
Proof.
  split; [done| | |].
  - vm_compute. split_and!; done.
  - apply (bool_decide_unpack _). by vm_compute.
  - apply (bool_decide_unpack _). by vm_compute.
Qed.

Lemma demo_vm_zero x : x < 0x80023000 -> ld8 (mmem demo_vm) x = 0.
Proof.
  intros Hx. unfold demo_vm, demo_free. simpl foldr. cbn [mmem].
  rewrite !ld8_st64_out by lia. done.
Qed.

Lemma demo_as : as_inv demo_vm demo_free demo_pt {[demo_pt := []]} ∅.
Proof.
  apply empty_as; [apply demo_vm_kmem|vm_compute; split_and!; done| |].
  - apply (bool_decide_unpack _). by vm_compute.
  - intros x Hx. apply demo_vm_zero. unfold in_page, demo_pt, PGSIZE in Hx. lia.
Qed.

Lemma demo_pte va : pte_of (mmem demo_vm) demo_pt va = 0.
Proof. apply empty_pte. intros x Hx. apply demo_vm_zero. unfold in_page, demo_pt, PGSIZE in Hx. lia. Qed.

Lemma demo_cover : ucover (mmem demo_vm) demo_pt ∅.
Proof. intros j Hj. unfold pte_pg. by rewrite demo_pte, has_flag_0. Qed.

(** * Page tables *)

(** mappages() on an unmapped range returns 0 and then exactly the
    pages of the range translate to the given physical pages with the given
    permissions, or it returns -1, which happens only when memory has run
    out, and a prefix of the range is mapped.  Every other translation,
    the shape of the tree and all memory outside the tree and the free list
    are unchanged. *)
Theorem mappages_correct `{L : Layout} `{!LayoutOk L} s l pt own va size pa perm :
  vm_inv s l pt own -> 0 <= va -> va mod PGSIZE = 0 -> 0 < size -> size mod PGSIZE = 0 ->
  va + size <= MAXVA -> 0 <= pa -> pa + size <= 2 ^ 56 -> 0 <= perm < 2 ^ 10 ->
  (forall va', va <= va' < va + size -> has_flag (pte_of (mmem s) pt va') PTE_V = false) ->
  wp (mappages pt va size pa perm) (fun r s' => exists own' l' k,
    vm_inv s' l' pt own' /\ own ⊆ own' /\ from_free own own' l /\
    (forall x, ~ owned_byte own x -> ~ free_byte l x -> ld8 (mmem s') x = ld8 (mmem s) x) /\
    (forall va', 0 <= va' < MAXVA -> pte_of (mmem s') pt va' =
       if (va <=? va') && (va' <? va + k * PGSIZE)
       then pte_val (pa + (va' - va) / PGSIZE * PGSIZE) perm else pte_of (mmem s) pt va') /\
    ((r = 0 /\ k * PGSIZE = size) \/ (r = -1 /\ 0 <= k * PGSIZE < size /\ l' = []))) s.
Proof.
  intros Hinv Hva Hal Hsz Hsal Hmax Hpa Hpmax Hperm Hun. unfold mappages. rewrite Hal, Hsal. simpl.
  destruct (Z.eqb_spec size 0) as [|_]; [lia|].
  apply page_aligned_ex in Hsal as [n ->]. assert (EP : PGSIZE = 4096) by done.
  assert (0 < n) by lia. rewrite MAXVA_eq in Hmax.
  rewrite u64_small by lia. rewrite (Z.mul_comm PGSIZE), Z.div_mul by done.
  replace (va + n * PGSIZE - PGSIZE) with (va + (Z.of_nat (Z.to_nat n) - 1) * PGSIZE) by (rewrite Z2Nat.id; lia).
  eapply wp_mono; [apply mappages_loop_spec; try done; rewrite ?MAXVA_eq, ?Z2Nat.id by lia; try lia|].
  - intros va' Hva'. apply Hun. lia.
  - intros r s' (own' & l' & k & _ & H1 & H2 & H3 & H4 & H5 & H6 & H7). exists own', l', k.
    split_and!; try done. destruct H7 as [[-> ->]|(-> & Hk & ->)]; [left|right].
    + split; [done|]. rewrite Z2Nat.id; lia.
    + split_and!; try done; lia.
Qed.

Lemma mappages_correct_witness :
  exists r s', mappages demo_pt 0 (2 * PGSIZE) 0x80030000 (Z.lor PTE_R PTE_U) demo_vm = Ok r s' /\ (r = 0 \/ r = -1).
Proof.
  destruct (wp_ok _ _ _ (mappages_correct demo_vm demo_free demo_pt {[demo_pt := []]} 0 (2 * PGSIZE) 0x80030000
    (Z.lor PTE_R PTE_U) (as_vm _ _ _ _ _ demo_as) ltac:(lia) ltac:(done) ltac:(done) ltac:(done) ltac:(done)
    ltac:(lia) ltac:(done) ltac:(done) ltac:(intros; by rewrite demo_pte)))
    as (r & s' & Hm & (own' & l' & k & _ & _ & _ & _ & _ & [[-> _]|[-> _]])).
  - exists 0, s'. split; [exact Hm|by left].
  - exists (-1), s'. split; [exact Hm|by right].
Defined.

Lemma walk_level_hit `{L : Layout} level p va alloc s a :
  slot_at (mmem s) level p va = Some a -> walk_level level p va alloc s = Ok a s.
Proof.
  revert p. induction level as [|level IH]; intros p; cbn [slot_at walk_level]; [by intros [= <-]|].
  intros Ha. unfold rd64, bind, gets. cbn. destruct (has_flag _ PTE_V) eqn:HV; [|done]. by apply IH.
Qed.

(** mappages() never replaces a mapping: when the first page of the
    range is already mapped it panics. *)
Theorem mappages_remap_panics `{L : Layout} `{!LayoutOk L} s pt own va size pa perm :
  pt_inv (mmem s) pt own -> va < MAXVA -> va mod PGSIZE = 0 -> 0 < size -> size mod PGSIZE = 0 ->
  has_flag (pte_of (mmem s) pt va) PTE_V = true ->
  mappages pt va size pa perm s = Panic "mappages: remap".
Proof.
  intros Hpt Hva Hal Hsz Hsal HV. unfold mappages. rewrite Hal, Hsal. simpl.
  destruct (Z.eqb_spec size 0) as [|_]; [lia|].
  assert (0 < size / PGSIZE) as Hn.
  { apply page_aligned_ex in Hsal as [k ->]. rewrite (Z.mul_comm PGSIZE), Z.div_mul by done. unfold PGSIZE in *. lia. }
  destruct (Z.to_nat (size / PGSIZE)) as [|fuel] eqn:E; [lia|]. cbn [mappages_loop]. unfold bind at 1.
  unfold walk. destruct (Z.leb_spec MAXVA va) as [|_]; [lia|].
  unfold pte_of in HV. rewrite pte_at_slot in HV.
  destruct (slot_at (mmem s) 2 pt va) as [a|] eqn:Ha; [|by rewrite has_flag_0 in HV].
  rewrite (walk_level_hit _ _ _ _ _ a) by done.
  pose proof (slot_pos _ _ _ 2 pt [] _ _ Hpt (pt_root _ _ _ Hpt) eq_refl Ha).
  destruct (Z.eqb_spec a 0) as [|_]; [lia|]. unfold rd64, bind, gets. by rewrite HV.
Qed.

(** A machine whose page 0 is mapped. *)
Definition demo_mapped : mach :=
  match mappages demo_pt 0 PGSIZE 0x80030000 (Z.lor PTE_R PTE_U) demo_vm with Ok _ s => s | _ => demo_vm end.

Lemma demo_mapped_inv : exists own, pt_inv (mmem demo_mapped) demo_pt own.
Proof.
  unfold demo_mapped.
  assert (H : wp (mappages demo_pt 0 PGSIZE 0x80030000 (Z.lor PTE_R PTE_U)) (fun _ s' => exists own, pt_inv (mmem s') demo_pt own) demo_vm).
  { change 0 with (0 * PGSIZE). eapply wp_mono.
    - apply (mappages_loop_spec 1 demo_vm demo_free demo_pt {[demo_pt := []]} 0 0x80030000); try done; try lia.
      + apply demo_as.
      + intros va' _. by rewrite demo_pte.
    - intros r s' (own' & l' & k & _ & H & _). exists own'. apply H. }
  unfold wp in H. by destruct (mappages _ _ _ _ _ _).
Qed.

Lemma mappages_remap_panics_witness :
  mappages demo_pt 0 PGSIZE 0x80031000 PTE_R demo_mapped = Panic "mappages: remap".
Proof.
  destruct demo_mapped_inv as [own Hpt].
  apply (mappages_remap_panics demo_mapped demo_pt own 0 PGSIZE 0x80031000 PTE_R Hpt);
    [done|done|done|done|by vm_compute].
Defined.

(** * User address spaces *)

(** uvmunmap() with do_free set removes exactly the mappings of the
    range, puts exactly the pages that were mapped there on the free list,
    and leaves the other mappings and all other memory unchanged. *)
Theorem uvmunmap_correct `{L : Layout} `{!LayoutOk L} s l pt own ups n k :
  as_inv s l pt own ups -> 0 <= n -> 0 <= k -> n + k <= NPG ->
  (forall j, n <= j < n + k -> has_flag (pte_pg (mmem s) pt j) PTE_V = true -> is_Some (ups !! j)) ->
  wp (uvmunmap pt (n * PGSIZE) k true) (fun _ s' => exists fr ups',
    as_inv s' (fr ++ l) pt own ups' /\
    (forall j, ups' !! j = if (n <=? j) && (j <? n + k) then None else ups !! j) /\
    (forall j, 0 <= j < NPG -> n <= j < n + k -> has_flag (pte_pg (mmem s') pt j) PTE_V = false) /\
    (forall j, 0 <= j < NPG -> ~ (n <= j < n + k) -> pte_pg (mmem s') pt j = pte_pg (mmem s) pt j) /\
    (forall p, p ∈ fr <-> exists j, n <= j < n + k /\ ups !! j = Some p) /\
    (forall x, ~ owned_byte own x -> ~ free_byte fr x -> ld8 (mmem s') x = ld8 (mmem s) x)) s.
Proof.
  intros Hinv Hn Hk Hmax Hv. eapply wp_mono; [apply uvmunmap_spec; try done; intros j Hj _; by apply Hv|].
  intros ? s' (fr & ups' & [U1 U2 U3 U4 U5 U6 U7]). exists fr, ups'. split_and!; try done.
  intros p. rewrite U5. split; [by intros [_ ?]|by split].
Qed.

Lemma uvmunmap_correct_witness :
  exists s', uvmunmap demo_pt 0 3 true demo_vm = Ok tt s' /\ forall j, 0 <= j < 3 -> has_flag (pte_pg (mmem s') demo_pt j) PTE_V = false.
Proof.
  destruct (wp_ok _ _ _ (uvmunmap_correct demo_vm demo_free demo_pt {[demo_pt := []]} ∅ 0 3 demo_as
    ltac:(lia) ltac:(lia) ltac:(by vm_compute) ltac:(intros j _; unfold pte_pg; by rewrite demo_pte)))
    as ([] & s' & Hm & (fr & ups' & _ & _ & H & _)).
  exists s'. split; [exact Hm|]. intros j Hj. apply H; [rewrite NPG_eq|]; lia.
Defined.

(** uvmalloc() grows the address space from [oldsz] to [newsz] or
    changes nothing.  On success each new page number is mapped to its own
    zeroed page taken from the free list, readable by the user and with the
    permissions asked for.  It fails only when memory is short: at most three
    pages were free for every page asked for, one for the page and two for
    the tables; then the address space is the old one.  Nothing else in memory
    changes, and no page is lost: what left the free list is in the tree or
    belongs to the process. *)
Theorem uvmalloc_correct `{L : Layout} `{!LayoutOk L} s l pt own ups oldsz newsz xperm :
  as_inv s l pt own ups -> 0 <= oldsz <= newsz -> newsz <= MAXVA -> 0 <= xperm < 2 ^ 10 ->
  (forall j, pgs oldsz <= j < pgs newsz -> has_flag (pte_pg (mmem s) pt j) PTE_V = false) ->
  wp (uvmalloc pt oldsz newsz xperm) (fun r s' => exists own' l',
    quiet s l own s' l' own' /\
    ((r = newsz /\ exists ups', as_inv s' l' pt own' ups' /\
      (forall j, 0 <= j < NPG -> ~ (pgs oldsz <= j < pgs newsz) ->
         ups' !! j = ups !! j /\ pte_pg (mmem s') pt j = pte_pg (mmem s) pt j) /\
      (forall j, pgs oldsz <= j < pgs newsz -> exists pa, ups' !! j = Some pa /\ pa ∈ l /\
         pte_pg (mmem s') pt j = pte_val pa (Z.lor (Z.lor PTE_R PTE_U) xperm) /\
         forall x, in_page pa x -> ld8 (mmem s') x = 0) /\
      forall q, q ∈ l -> q ∈ l' \/ pages_of own' ups' q) \/
     (r = 0 /\ as_inv s' l' pt own' ups /\ (forall q, q ∈ l -> q ∈ l' \/ pages_of own' ups q) /\
      Z.of_nat (length l) <= 3 * (pgs newsz - pgs oldsz)))) s.
Proof.
  intros Hinv Ho Hn Hx Hun. eapply wp_mono; [by apply uvmalloc_spec|].
  intros r s' (own' & l' & [(-> & ups' & G & Hsp)|(-> & F)]); exists own', l'.
  - destruct G as [G1 G2 G3 G4 G5]. rewrite Zplus_minus in *. split; [done|]. left. split; [done|].
    exists ups'. split_and!; [done|intros j Hj Hr; split; auto|done|apply Hsp].
  - split; [apply F|]. right. split_and!; [done|apply F|apply F|apply F].
Qed.

Lemma uvmalloc_correct_witness :
  exists r s', uvmalloc demo_pt 0 5000 PTE_W demo_vm = Ok r s' /\ (r = 5000 \/ r = 0).
Proof.
  destruct (wp_ok _ _ _ (uvmalloc_correct demo_vm demo_free demo_pt {[demo_pt := []]} ∅ 0 5000 PTE_W demo_as
    ltac:(lia) ltac:(done) ltac:(done) ltac:(intros j _; unfold pte_pg; by rewrite demo_pte)))
    as (r & s' & Hm & (own' & l' & _ & [[-> _]|[-> _]])).
  - exists 5000, s'. split; [exact Hm|by left].
  - exists 0, s'. split; [exact Hm|by right].
Defined.

(** C9: uvmcopy() gives the child a copy of the parent's memory: every page
    mapped below [sz] in the parent is mapped in the child to a page of its
    own with the same permissions and the same contents, pages the parent
    has not touched stay unmapped in the child, and the parent's address
    space and memory are unchanged.  It fails only when memory is short (at
    most three free pages, one for the copy and two for tables, for every
    page below [sz]), and then the child's address space is empty again.  In
    both cases no page is lost: what left the free list belongs to the
    child. *)
Theorem uvmcopy_correct `{L : Layout} `{!LayoutOk L} s l old new own1 own2 ups1 ups2 sz :
  as_inv s l old own1 ups1 -> as_inv s l new own2 ups2 -> apart own1 ups1 own2 -> 0 <= sz <= MAXVA ->
  (forall j, 0 <= j < pgs sz -> has_flag (pte_pg (mmem s) old j) PTE_V = true -> is_Some (ups1 !! j)) ->
  (forall j, 0 <= j < pgs sz -> has_flag (pte_pg (mmem s) new j) PTE_V = false) ->
  wp (uvmcopy old new sz) (fun r s' => exists own2' l',
    as_inv s' l' old own1 ups1 /\
    (forall va, pte_of (mmem s') old va = pte_of (mmem s) old va) /\
    (forall n p x, ups1 !! n = Some p -> in_page p x -> ld8 (mmem s') x = ld8 (mmem s) x) /\
    ((r = 0 /\ exists ups2', as_inv s' l' new own2' ups2' /\ (forall q, q ∈ l -> q ∈ l' \/ pages_of own2' ups2' q) /\
      forall j, 0 <= j < pgs sz ->
        if has_flag (pte_pg (mmem s) old j) PTE_V then
          exists pa pa', ups1 !! j = Some pa /\ ups2' !! j = Some pa' /\ pa' ∈ l /\
            PTE_FLAGS (pte_pg (mmem s') new j) = PTE_FLAGS (pte_pg (mmem s) old j) /\
            (forall x, 0 <= x < PGSIZE -> ld8 (mmem s') (pa' + x) = ld8 (mmem s) (pa + x))
        else has_flag (pte_pg (mmem s') new j) PTE_V = false) \/
     (r = -1 /\ as_inv s' l' new own2' ups2 /\ (forall q, q ∈ l -> q ∈ l' \/ pages_of own2' ups2 q) /\ Z.of_nat (length l) <= 3 * pgs sz /\
      forall j, 0 <= j < pgs sz -> has_flag (pte_pg (mmem s') new j) PTE_V = false))) s.
Proof.
  intros Hold Hnew Hap Hsz Hmap Hempty. pose proof (pgs_range sz Hsz) as Hpr. unfold uvmcopy.
  replace 0 with (0 * PGSIZE) at 1 by done. eapply wp_mono.
  - apply (uvmcopy_loop_spec s l old new own1 own2 ups1 ups2 sz Hold Hnew Hap Hsz Hmap Hempty _ 0 s l own2 ups2).
    + split; [done|apply quiet_refl|lia|done].
    + by apply spent_refl.
    + lia.
    + unfold pgs, PGSIZE. pose proof (Z.div_pos sz 4096 ltac:(lia) ltac:(done)).
      rewrite Z2Nat.id, Z.sub_0_r by lia. replace (sz + 4096 - 1) with (sz - 1 + 1 * 4096) by lia.
      rewrite Z.div_add by done. pose proof (Z.div_le_mono (sz - 1) sz 4096). lia.
  - intros r s' (own2' & l' & [(-> & ups2' & C & Hsp)|(-> & F)]); exists own2', l'.
    + destruct (copy_old s l old new own1 own2 ups1 ups2 Hold Hnew Hap _ _ _ _ _ C) as (H1 & H2 & H3).
      split_and!; try done. left. split; [done|]. exists ups2'. split; [apply C|]. split; [apply Hsp|]. intros j Hj.
      pose proof (cr_in _ _ _ _ _ _ _ _ _ _ _ _ C j Hj) as Hc. unfold copied in Hc.
      destruct (has_flag (pte_pg (mmem s) old j) PTE_V) eqn:HV; [|done].
      destruct Hc as (pa & pa' & ? & Hpa' & ? & Hpte & ?). exists pa, pa'. split_and!; try done.
      destruct (as_page _ _ _ _ _ (cr_new _ _ _ _ _ _ _ _ _ _ _ _ C) _ _ Hpa') as (Hok & _).
      rewrite Hpte, pte_val_flags by (done || apply flags_range). by apply flags_valid.
    + destruct (as_other s l old own1 ups1 new own2 s' l' own2') as (H1 & H2 & H3);
        [done|apply Hnew|done|apply F|apply F|]. split_and!; try done. right.
      split_and!; [done|apply F|apply F|apply F|]. intros j Hj. apply F; lia.
Qed.

(** A machine with two empty page tables. *)
Definition demo_pt2 : Z := 0x80023000.
Definition demo_free2 : list Z := [0x80024000; 0x80025000; 0x80026000; 0x80027000; 0x80028000; 0x80029000; 0x8002a000].
Definition demo_vm2 : mach :=
  Mach (foldr (fun p m => st64 m p (if p =? 0x8002a000 then 0 else p + PGSIZE)) (∅ : mem) demo_free2)
       Free 0x80024000.

Lemma demo_vm2_zero x : x < 0x80024000 -> ld8 (mmem demo_vm2) x = 0.
Proof.
  intros Hx. unfold demo_vm2, demo_free2. simpl foldr. cbn [mmem]. rewrite !ld8_st64_out by lia. done.
Qed.

Lemma demo_as2 pt : pt = demo_pt \/ pt = demo_pt2 -> as_inv demo_vm2 demo_free2 pt {[pt := []]} ∅.
Proof.
  intros Hpt. apply empty_as.
  - split; [done| | |].
    + vm_compute. split_and!; done.
    + apply (bool_decide_unpack _). by vm_compute.
    + apply (bool_decide_unpack _). by vm_compute.
  - destruct Hpt as [-> | ->]; vm_compute; split_and!; done.
  - destruct Hpt as [-> | ->]; apply (bool_decide_unpack _); by vm_compute.
  - intros x Hx. apply demo_vm2_zero. unfold in_page, PGSIZE in Hx.
    destruct Hpt as [-> | ->]; [unfold demo_pt in Hx|unfold demo_pt2 in Hx]; lia.
Qed.

Lemma uvmcopy_correct_witness :
  exists r s', uvmcopy demo_pt demo_pt2 5000 demo_vm2 = Ok r s' /\ pte_of (mmem s') demo_pt 0 = 0.
Proof.
  assert (Hz : forall pt va, pt = demo_pt \/ pt = demo_pt2 -> pte_of (mmem demo_vm2) pt va = 0).
  { intros pt va Hpt. apply empty_pte. intros x Hx. apply demo_vm2_zero. unfold in_page, PGSIZE in Hx.
    destruct Hpt as [-> | ->]; [unfold demo_pt in Hx|unfold demo_pt2 in Hx]; lia. }
  destruct (wp_ok _ _ _ (uvmcopy_correct demo_vm2 demo_free2 demo_pt demo_pt2 {[demo_pt := []]} {[demo_pt2 := []]}
    ∅ ∅ 5000 (demo_as2 _ (or_introl eq_refl)) (demo_as2 _ (or_intror eq_refl))
    ltac:(split; [intros p [path [<- _]%lookup_singleton_Some]; done|intros n p [=]])
    ltac:(split; [lia|done])
    ltac:(intros j _; unfold pte_pg; rewrite Hz by auto; done)
    ltac:(intros j _; unfold pte_pg; rewrite Hz by auto; done)))
    as (r & s' & Hm & (own2' & l' & _ & H & _)).
  exists r, s'. split; [exact Hm|]. rewrite H. apply Hz. by left.
Defined.

(** * Moving data between user and kernel *)





(** copyinstr() returns the NUL-terminated string the process sees at
    [srcva], whose NUL lies within the first [max] bytes.  It fails only
    when there is no NUL among the first [max] bytes, when the string runs
    into an unreadable address, or when memory has run out. *)
Theorem copyinstr_correct `{L : Layout} `{!LayoutOk L} s l pt own ups sz srcva max :
  as_inv s l pt own ups -> ucover (mmem s) pt ups -> 0 <= sz <= MAXVA -> 0 <= srcva -> 0 <= max ->
  wp (copyinstr {| p_pagetable := pt; p_sz := sz |} pt srcva max) (fun r s' => exists l' own' ups',
    ustep pt s l own ups s' l' own' ups' /\
    (forall va, uview (mmem s') pt sz va = uview (mmem s) pt sz va) /\
    match r with
    | Some bs => prefix_view (mmem s) pt sz srcva bs /\ Z.of_nat (length bs) < max /\
        uview (mmem s) pt sz (srcva + Z.of_nat (length bs)) = Some 0
    | None => (length l' <= 1)%nat \/ exists bs, prefix_view (mmem s) pt sz srcva bs /\
        (Z.of_nat (length bs) = max \/
         Z.of_nat (length bs) < max /\ uview (mmem s) pt sz (srcva + Z.of_nat (length bs)) = None)
    end) s.
Proof.
  intros Hinv Hc Hsz Hs Hmax. unfold copyinstr.
  eapply wp_mono; [apply (copyinstr_loop_spec pt sz Hsz _ s l own ups); try done; lia|].
  intros r s' (l' & own' & ups' & H1 & H2 & H3). exists l', own', ups'. rewrite Z.max_r in H3 by done.
  split_and!; try done. intros va. by destruct (H2 va).
Qed.

Lemma copyinstr_correct_witness :
  exists r s', copyinstr {| p_pagetable := demo_pt; p_sz := 8192 |} demo_pt 4090 16 demo_vm = Ok r s' /\
    forall va, uview (mmem s') demo_pt 8192 va = uview (mmem demo_vm) demo_pt 8192 va.
Proof.
  destruct (wp_ok _ _ _ (copyinstr_correct demo_vm demo_free demo_pt {[demo_pt := []]} ∅ 8192 4090 16 demo_as
    demo_cover ltac:(split; [lia|done]) ltac:(lia) ltac:(lia))) as (r & s' & Hm & (l' & own' & ups' & _ & H & _)).
  exists r, s'. split; [exact Hm|exact H].
Defined.
