(* ===== verification/VmFree.v ===== *)
(** Freeing an address space: uvmfree() and freewalk() of kernel/vm.c give
    every page of the tree and every user page back to the allocator, once,
    and touch nothing else. *)
From S2P Require Import Prelude Mem Str Kalloc Vm VmSpec VmUser VmCopy VmProps.

Section tables.
Context `{L : Layout} `{!LayoutOk L} (m : mem) (pt : Z) (own : gmap Z (list Z)) (Hinv : pt_inv m pt own).

(** The tables on and below the path, and those below entry [i] of its
    table. *)
Definition under (path : list Z) (q : Z) : Prop := exists suf, own !! q = Some (path ++ suf).
Definition below (path : list Z) (i : nat) (q : Z) : Prop := under (path ++ [Z.of_nat i]) q.

Lemma own_inj q r path : own !! q = Some path -> own !! r = Some path -> q = r.
Proof.
  revert q r. induction path as [|i path IH] using rev_ind; intros q r Hq Hr; [by rewrite (pt_only _ _ _ Hinv q Hq), (pt_only _ _ _ Hinv r Hr)|].
  destruct (pt_link _ _ _ Hinv _ _ _ Hq) as (p & Hp & _ & _ & <-). destruct (pt_link _ _ _ Hinv _ _ _ Hr) as (p' & Hp' & _ & _ & <-). by rewrite (IH p p').
Qed.

Lemma own_prefix q path i suf : own !! q = Some (path ++ i :: suf) -> exists r, own !! r = Some (path ++ [i]).
Proof.
  revert q. induction suf as [|j suf IH] using rev_ind; intros q Hq; [by exists q|].
  destruct (pt_link _ _ _ Hinv q (path ++ i :: suf) j) as (p & Hp & _); [by rewrite <- (assoc_L (++))|]. by apply (IH p).
Qed.

(** Entry [i] of the table of [path] is the link to what is below it. *)
Lemma below_link p path i q : own !! p = Some path -> below path i q -> (i < 512)%nat /\ has_flag (ld64 m (pte_addr p (Z.of_nat i))) PTE_V = true /\ (length path < 2)%nat.
Proof.
  intros Hp [suf Hq]. rewrite <- (assoc_L (++)) in Hq. destruct (own_prefix q path (Z.of_nat i) suf Hq) as [r Hr].
  destruct (pt_link _ _ _ Hinv _ _ _ Hr) as (p' & Hp' & Hi & Hv & _). rewrite (own_inj p p' path) by done.
  destruct (pt_page _ _ _ Hinv _ _ Hr) as [_ Hl]. rewrite length_app in Hl. cbn in Hl. split_and!; [lia|done|lia].
Qed.

Lemma under_split p path q : own !! p = Some path -> under path q <-> q = p \/ exists i, (i < 512)%nat /\ below path i q.
Proof.
  intros Hp. split.
  - intros [[|a suf] Hq]; [left; rewrite app_nil_r in Hq; by apply (own_inj q p path)|right]. destruct (own_prefix q path a suf Hq) as [r Hr].
    destruct (pt_link _ _ _ Hinv _ _ _ Hr) as (p' & _ & Ha & _). exists (Z.to_nat a). split; [lia|]. exists suf. rewrite <- (assoc_L (++)), Z2Nat.id by lia. done.
  - intros [->|(i & _ & suf & Hq)]; [exists []; by rewrite app_nil_r|]. eexists. by rewrite <- (assoc_L (++)) in Hq.
Qed.

Lemma below_ne path i j q : i <> j -> below path i q -> below path j q -> False.
Proof.
  intros Hne [u Hu] [v Hv]. rewrite Hu in Hv. rewrite <- !(assoc_L (++)) in Hv. injection Hv as E%app_inv_head. injection E as E _. lia.
Qed.
Lemma below_ne_root p path i : own !! p = Some path -> ~ below path i p.
Proof. intros Hp [u Hu]. rewrite Hp in Hu. injection Hu as E. apply (f_equal length) in E. rewrite !length_app in E. cbn in E. lia. Qed.
Lemma below_ok path i q : below path i q -> page_ok q.
Proof. intros [u Hu]. by destruct (pt_page _ _ _ Hinv _ _ Hu). Qed.
End tables.

Section free.
Context `{L : Layout} `{!LayoutOk L}.

(** The pages [ps] have been put on the free list [l], and outside of them
    and of [but] nothing has changed. *)
Definition freed (but : Z -> Prop) (s : mach) (l : list Z) (ps : Z -> Prop) (s' : mach) : Prop :=
  exists fr, kmem_inv s' (fr ++ l) /\ (forall q, q ∈ fr <-> ps q) /\ forall x, ~ free_byte fr x -> ~ but x -> ld8 (mmem s') x = ld8 (mmem s) x.
Definition nowhere (x : Z) : Prop := False.

Lemma not_free_other fr q x : page_ok q -> Forall page_ok fr -> q ∉ fr -> in_page q x -> ~ free_byte fr x.
Proof.
  intros Hq Hf Hn Hx (r & Hr & Hrx). rewrite Forall_forall in Hf. eapply in_page_ne; [exact Hq|by apply Hf| |done|done]. congruence.
Qed.

(** The bytes of the page are those of [m], and it is not free. *)
Definition intact (m : mem) (s : mach) (l : list Z) (q : Z) : Prop := (q ∉ l) /\ forall x, in_page q x -> ld8 (mmem s) x = ld8 m x.

Section table.
Context (m : mem) (pt : Z) (own : gmap Z (list Z)) (Hinv : pt_inv m pt own) (p : Z) (path : list Z) (Hp : own !! p = Some path) (rec : Z -> M mach unit).
Let entry (i : nat) : Z := ld64 m (pte_addr p (Z.of_nat i)).
Context (Hrec : forall i s l, (i < 512)%nat -> has_flag (entry i) PTE_V = true -> kmem_inv s l -> (forall q, below own path i q -> intact m s l q) ->
  has_flag (entry i) PTE_RWX = false /\ wp (rec (PTE2PA (entry i))) (fun _ s' => freed nowhere s l (below own path i) s') s).

(** From entry [i] on the subtrees are as in [m] and not free. *)
Record todo (i : nat) (s : mach) (l : list Z) : Prop := {
  td_kmem : kmem_inv s l;
  td_root : p ∉ l;
  td_below : forall j q, (i <= j < 512)%nat -> below own path j q -> intact m s l q;
  td_entry : forall j, (i <= j < 512)%nat -> ld64 (mmem s) (pte_addr p (Z.of_nat j)) = entry j
}.

Lemma todo_skip i s l : todo i s l -> todo (S i) s l.
Proof. intros [T1 T2 T3 T4]. split; [done|done|intros; apply (T3 j); [lia|done]|intros; apply T4; lia]. Qed.

(** Freeing the subtree of entry [i] and clearing the entry. *)
Lemma todo_step i s l fr s1 : (i < 512)%nat -> todo i s l -> kmem_inv s1 (fr ++ l) -> (forall q, q ∈ fr <-> below own path i q) ->
  (forall x, ~ free_byte fr x -> ~ nowhere x -> ld8 (mmem s1) x = ld8 (mmem s) x) ->
  todo (S i) (set_mem (fun m => st64 m (pte_addr p (Z.of_nat i)) 0) s1) (fr ++ l).
Proof.
  intros Hi [T1 T2 T3 T4] K Hfr Hx. destruct (pt_page _ _ _ Hinv _ _ Hp) as [Hpok _].
  assert (Hok : Forall page_ok fr) by (pose proof (km_ok _ _ K) as F; by apply Forall_app in F as [F _]).
  assert (Hpfr : p ∉ fr) by (intros H%Hfr; by eapply below_ne_root).
  assert (Hout : forall q x, page_ok q -> q <> p -> in_page q x -> ld8 (st64 (mmem s1) (pte_addr p (Z.of_nat i)) 0) x = ld8 (mmem s1) x).
  { intros q x Hq Hne Hxq. apply ld8_st64_out. pose proof (in_page_ne q p x Hq Hpok Hne Hxq). unfold in_page, pte_addr, PGSIZE in *. lia. }
  split.
  - apply (kmem_inv_frame s1); try done. intros x (q & Hq & Hxq). pose proof (km_ok _ _ K) as F. rewrite Forall_forall in F.
    apply (Hout q); [by apply F| |done]. intros ->. apply elem_of_app in Hq as [Hq|Hq]; by apply Hpfr || by apply T2.
  - rewrite not_elem_of_app. done.
  - intros j q Hj Hq. destruct (T3 j q ltac:(lia) Hq) as [Hql Hqx]. pose proof (below_ok m pt own Hinv path j q Hq) as Hqok.
    assert (Hqf : q ∉ fr) by (intros H%Hfr; apply (below_ne own path i j q); [lia|done|done]). split; [by rewrite not_elem_of_app|].
    intros x Hxq. cbn. rewrite (Hout q x Hqok); [|intros ->; by apply (below_ne_root own p path j)|done].
    rewrite Hx; [by apply Hqx|by apply (not_free_other fr q)|unfold nowhere; tauto].
  - intros j Hj. rewrite <- (T4 j) by lia. cbn. apply ld64_ext. intros x Hr. rewrite ld8_st64_out by (unfold pte_addr in *; lia).
    apply Hx; [|unfold nowhere; tauto]. apply (not_free_other fr p); try done. unfold in_page, pte_addr, PGSIZE in *. lia.
Qed.

Lemma freewalk_entries_spec n i s l : (i + n = 512)%nat -> todo i s l ->
  wp (freewalk_entries rec n p (Z.of_nat i)) (fun _ s' => freed (in_page p) s l (fun q => exists j, (i <= j < 512)%nat /\ below own path j q) s') s.
Proof.
  revert i s l. induction n as [|n IH]; intros i s l Hn T; cbn [freewalk_entries].
  { wp_simp. exists []. split_and!; [apply T|intros q; split; [by intros []%not_elem_of_nil|intros (j & Hj & _); lia]|done]. }
  unfold rd64. wp_simp. rewrite (td_entry _ _ _ T) by lia. fold PTE_RWX. replace (Z.of_nat i + 1) with (Z.of_nat (S i)) by lia.
  destruct (has_flag (entry i) PTE_V) eqn:Hv; cbn [andb].
  - destruct (Hrec i s l ltac:(lia) Hv (td_kmem _ _ _ T)) as [Hx Hw]; [intros q; apply (td_below _ _ _ T); lia|].
    rewrite Hx. cbn [negb]. unfold wr64. wp_simp. eapply wp_mono; [exact Hw|].
    intros [] s1 (fr & K & Hfr & Hb). wp_simp. eapply wp_mono; [apply (IH (S i) _ (fr ++ l)); [lia|by apply (todo_step i s l fr s1); [lia|..]]|].
    intros [] s2 (fr2 & K2 & Hfr2 & Hb2). exists (fr2 ++ fr). split; [by rewrite <- (assoc_L (++))|]. split.
    + intros q. rewrite elem_of_app, Hfr2, Hfr. split; [intros [(j & Hj & Hq)|Hq]; [by exists j; split; [lia|]|by exists i; split; [lia|]]|].
      intros (j & Hj & Hq). destruct (decide (j = i)) as [->|]; [by right|left]. exists j. split; [lia|done].
    + intros x Hf Hpx. rewrite free_byte_app in Hf. rewrite Hb2 by tauto. cbn. rewrite ld8_st64_out by (unfold in_page, pte_addr, PGSIZE in *; lia).
      apply Hb; unfold nowhere; tauto.
  - wp_simp. eapply wp_mono; [apply (IH (S i) s l); [lia|by apply todo_skip]|]. intros [] s' (fr & K & Hfr & Hb). exists fr. split; [done|]. split; [|done].
    intros q. rewrite Hfr. split; [intros (j & Hj & Hq); by exists j; split; [lia|]|]. intros (j & Hj & Hq). exists j. split; [|done].
    destruct (decide (j = i)) as [->|]; [|lia]. destruct (below_link m pt own Hinv p path i q Hp Hq) as (_ & Hv' & _). unfold entry in Hv. congruence.
Qed.

Lemma freewalk_table_spec s l : kmem_inv s l -> (forall q, under own path q -> intact m s l q) ->
  wp (freewalk_entries rec 512 p 0 ;; kfree p) (fun _ s' => freed nowhere s l (under own path) s') s.
Proof.
  intros K Ht. destruct (pt_page _ _ _ Hinv _ _ Hp) as [Hpok _]. rewrite wp_bind. pose proof (fun q => under_split m pt own Hinv p path q Hp) as US.
  destruct (Ht p) as [Hpl Hpx]; [apply US; by left|].
  assert (T : todo 0 s l).
  { split; [done|done|intros j q Hj Hq; apply Ht, US; right; by exists j; split; [lia|]|].
    intros j Hj. apply ld64_ext. intros x Hx. apply Hpx. unfold in_page, pte_addr, PGSIZE in *; lia. }
  eapply wp_mono; [apply (freewalk_entries_spec 512 0 s l); [done|exact T]|]. intros [] s1 (fr & K1 & Hfr & Hb).
  assert (Hpf : p ∉ fr ++ l) by (rewrite not_elem_of_app; split; [intros (j & Hj & Hq)%Hfr; by apply (below_ne_root own p path j)|done]).
  eapply wp_mono; [by apply (kfree_spec s1 (fr ++ l))|]. intros [] s2 [K2 Hb2]. exists (p :: fr). split; [done|]. split.
  - intros q. rewrite elem_of_cons, US, Hfr. split; (intros [->|(j & Hj & Hq)]; [by left|right; exists j; split; [lia|done]]).
  - intros x Hx _. assert (Hpx' : ~ in_page p x) by (intros ?; apply Hx; exists p; split; [by left|done]).
    rewrite Hb2 by done. apply Hb; [|done]. intros (q & Hq & ?). apply Hx. exists q. split; [by right|done].
Qed.
End table.

(** No entry of a last-level table is valid. *)
Definition no_leaf (m : mem) (own : gmap Z (list Z)) : Prop :=
  forall q path i, own !! q = Some path -> length path = 2%nat -> 0 <= i < 512 -> has_flag (ld64 m (pte_addr q i)) PTE_V = false.

Lemma freewalk_spec m pt own level p path s l : pt_inv m pt own -> no_leaf m own -> own !! p = Some path -> (length path + level = 2)%nat -> kmem_inv s l ->
  (forall q, under own path q -> intact m s l q) -> wp (freewalk (S level) p) (fun _ s' => freed nowhere s l (under own path) s') s.
Proof.
  intros Hi Hn. revert p path s l. induction level as [|level IH]; intros p path s l Hp Hl K Ht.
  - change (freewalk 1 p) with (freewalk_entries (freewalk 0) 512 p 0 ;; kfree p).
    apply (freewalk_table_spec m pt own Hi p path Hp (freewalk 0)); [|exact K|exact Ht]. intros i s1 l1 Hi1 Hv. rewrite (Hn p path) in Hv; [done|done|lia|lia].
  - change (freewalk (S (S level)) p) with (freewalk_entries (freewalk (S level)) 512 p 0 ;; kfree p).
    apply (freewalk_table_spec m pt own Hi p path Hp (freewalk (S level))); [|exact K|exact Ht]. intros i s1 l1 Hi1 Hv K1 Hq.
    destruct (pt_dir _ _ _ Hi p path (Z.of_nat i) Hp ltac:(lia) ltac:(lia) Hv) as [Hx _]. split; [exact Hx|].
    apply (IH _ (path ++ [Z.of_nat i])); [|rewrite length_app; cbn; lia|exact K1|exact Hq]. apply (pt_step _ _ _ Hi); [done|lia|lia|done].
Qed.

(** * Address spaces *)

(** The address with the given indices. *)
Definition va_of (i2 i1 i0 : Z) : Z := ((i2 * 512 + i1) * 512 + i0) * PGSIZE.
Lemma va_of_px i2 i1 i0 : 0 <= i2 < 256 -> 0 <= i1 < 512 -> 0 <= i0 < 512 ->
  0 <= va_of i2 i1 i0 / PGSIZE < NPG /\ PX 2 (va_of i2 i1 i0) = i2 /\ PX 1 (va_of i2 i1 i0) = i1 /\ PX 0 (va_of i2 i1 i0) = i0.
Proof.
  intros H2 H1 H0. unfold va_of. rewrite NPG_eq, !PX_eq. change (2 ^ PXSHIFT 2) with (PGSIZE * 512 * 512). change (2 ^ PXSHIFT 1) with (PGSIZE * 512).
  change (2 ^ PXSHIFT 0) with PGSIZE. rewrite <- !Z.div_div, !Z.div_mul by done.
  assert (E1 : ((i2 * 512 + i1) * 512 + i0) / 512 = i2 * 512 + i1) by (rewrite Z.div_add_l, Z.div_small by lia; lia).
  assert (E2 : (i2 * 512 + i1) / 512 = i2) by (rewrite Z.div_add_l, Z.div_small by lia; lia). rewrite E1, E2.
  rewrite (Z.add_comm _ i0), (Z.add_comm _ i1), !Z.mod_add, !Z.mod_small by lia. lia.
Qed.

Lemma no_leaf_empty m pt own : pt_inv m pt own -> (forall j, 0 <= j < NPG -> has_flag (pte_pg m pt j) PTE_V = false) -> no_leaf m own.
Proof.
  intros Hi Hn q path i0 Hq Hl Hi0. destruct path as [|i2 [|i1 [|? ?]]]; try done.
  destruct (pt_link _ _ _ Hi q [i2] i1 Hq) as (p1 & Hp1 & Hi1 & Hv1 & E1). destruct (pt_link _ _ _ Hi p1 [] i2 Hp1) as (p2 & Hp2 & Hi2 & Hv2 & E2).
  assert (p2 = pt) as -> by (by apply (pt_only _ _ _ Hi)). destruct (pt_dir _ _ _ Hi pt [] i2 Hp2 ltac:(cbn; lia) Hi2 Hv2) as [_ Hlt].
  destruct (va_of_px i2 i1 i0) as (Hr & X2 & X1 & X0); [specialize (Hlt eq_refl); lia|done|done|]. specialize (Hn _ Hr). rewrite <- pte_of_pg in Hn.
  unfold pte_of in Hn. cbn [pte_at] in Hn. by rewrite X2, Hv2, E2, X1, Hv1, E1, X0 in Hn.
Qed.

(** Everything mapped lies below [sz] and belongs to the process. *)
Definition all_user (m : mem) (pt sz : Z) (ups : gmap Z Z) : Prop :=
  forall j, 0 <= j < NPG -> has_flag (pte_pg m pt j) PTE_V = true -> j < pgs sz /\ is_Some (ups !! j).

(** The last part: the tables, when nothing is mapped any more. *)
Lemma freewalk_root_spec s l pt own ups : as_inv s l pt own ups -> (forall j, 0 <= j < NPG -> has_flag (pte_pg (mmem s) pt j) PTE_V = false) ->
  wp (freewalk 3 pt) (fun _ s' => freed nowhere s l (fun q => is_Some (own !! q)) s') s.
Proof.
  intros Ha Hn. pose proof (as_vm _ _ _ _ _ Ha) as [V1 V2 V3].
  eapply wp_mono; [apply (freewalk_spec (mmem s) pt own 2 pt [] s l V2 (no_leaf_empty _ _ _ V2 Hn) (pt_root _ _ _ V2) eq_refl V1)|].
  - intros q [suf Hq]. split; [|done]. intros Hl. by rewrite V3 in Hq.
  - intros [] s' (fr & K & Hfr & Hb). exists fr. split; [done|]. split; [|done]. intros q. rewrite Hfr. split; [intros [suf Hq]; by eexists|intros [path Hq]; by exists path].
Qed.

Lemma uvmfree_spec s l pt own ups sz : as_inv s l pt own ups -> 0 <= sz <= MAXVA -> all_user (mmem s) pt sz ups ->
  wp (uvmfree pt sz) (fun _ s' => freed nowhere s l (pages_of own ups) s') s.
Proof.
  intros Ha Hsz Hall. pose proof (pgs_range sz Hsz) as Hpr. unfold uvmfree. rewrite wp_bind.
  destruct (Z.ltb_spec 0 sz) as [Hpos|Hz].
  - rewrite pgs_up, Z.div_mul by done. change 0 with (0 * PGSIZE) at 1.
    eapply wp_mono; [apply (uvmunmap_spec s l pt own ups 0 (pgs sz) true Ha); [lia|lia|lia|intros j Hj _ Hv; apply Hall; [lia|done]]|].
    intros [] s1 (fr & ups' & [U1 U2 U3 U4 U5 U6 U7 U8]). eapply wp_mono; [apply (freewalk_root_spec s1 (fr ++ l) pt own ups' U1)|].
    { intros j Hj. destruct (decide (j < pgs sz)); [apply U3; lia|]. rewrite U4 by lia. destruct (has_flag (pte_pg (mmem s) pt j) PTE_V) eqn:Hv; [|done]. by destruct (Hall j Hj Hv). }
    intros [] s2 (fr2 & K2 & Hfr2 & Hb2). exists (fr2 ++ fr). split; [by rewrite <- (assoc_L (++))|]. split.
    + intros q. unfold pages_of. rewrite elem_of_app, Hfr2, U5. split; [intros [?|(_ & j & _ & Hj)]; [by left|right; by exists j]|]. intros [?|[j Hj]]; [by left|right].
      split; [done|]. exists j. destruct (as_leaf _ _ _ _ _ Ha _ _ Hj) as (Hr & Hv & _). destruct (Hall j Hr Hv). split; [lia|done].
    + intros x Hx Ho. rewrite free_byte_app in Hx. rewrite Hb2 by tauto. apply U7; [|tauto]. intros (q & path & Hq & Hxq). apply Hx. left. exists q. split; [|done]. apply Hfr2. by eexists.
  - wp_simp. assert (Hn : forall j, 0 <= j < NPG -> has_flag (pte_pg (mmem s) pt j) PTE_V = false).
    { intros j Hj. destruct (has_flag (pte_pg (mmem s) pt j) PTE_V) eqn:Hv; [|done]. destruct (Hall j Hj Hv) as [Hlt _].
      replace sz with 0 in Hlt by lia. change (pgs 0) with 0 in Hlt. lia. }
    eapply wp_mono; [by apply (freewalk_root_spec s l pt own ups)|]. intros [] s2 (fr & K & Hfr & Hb). exists fr. split; [done|]. split; [|done].
    intros q. rewrite Hfr. split; [by left|]. intros [?|[j Hj]]; [done|]. destruct (as_leaf _ _ _ _ _ Ha _ _ Hj) as (Hr & Hv & _). by rewrite Hn in Hv.
Qed.

(** The address space of a process: its memory below [sz], the trampoline
    and the trapframe. *)
Record space (s : mach) (l : list Z) (pt : Z) (own : gmap Z (list Z)) (ups : gmap Z Z) (sz : Z) : Prop := {
  spc_as : as_inv s l pt own ups;
  spc_size : 0 <= sz <= TRAPFRAME;
  spc_user : forall j q, ups !! j = Some q -> j < pgs sz;
  spc_all : forall j, 0 <= j < NPG -> has_flag (pte_pg (mmem s) pt j) PTE_V = true ->
    is_Some (ups !! j) \/ (j = NPG - 1 \/ j = NPG - 2) /\ has_flag (pte_pg (mmem s) pt j) PTE_U = false
}.

Lemma tramp_page : TRAMPOLINE = (NPG - 1) * PGSIZE.
Proof. reflexivity. Qed.
Lemma frame_page : TRAPFRAME = (NPG - 2) * PGSIZE.
Proof. reflexivity. Qed.
Lemma pgs_frame sz : sz <= TRAPFRAME -> pgs sz <= NPG - 2.
Proof. intros H. rewrite <- (pgs_mul (NPG - 2)), <- frame_page. by apply pgs_mono. Qed.

Lemma space_cover s l pt own ups sz : space s l pt own ups sz -> ucover (mmem s) pt ups.
Proof. intros [_ _ _ H] j Hj Hv Hu. destruct (H j Hj Hv) as [?|[_ ?]]; [done|congruence]. Qed.

(** Unmapping a page that is not the user's. *)
Lemma unmap_system s l pt own ups n : as_inv s l pt own ups -> 0 <= n < NPG -> ups !! n = None ->
  wp (uvmunmap pt (n * PGSIZE) 1 false) (fun _ s' => as_inv s' l pt own ups /\
    (forall j, 0 <= j < NPG -> has_flag (pte_pg (mmem s') pt j) PTE_V = if j =? n then false else has_flag (pte_pg (mmem s) pt j) PTE_V) /\
    forall x, ~ owned_byte own x -> ld8 (mmem s') x = ld8 (mmem s) x) s.
Proof.
  intros Ha Hn Hu. eapply wp_mono; [by apply (uvmunmap_spec s l pt own ups n 1 false Ha); [lia|lia|lia|]|]. intros [] s' (fr & ups' & [U1 U2 U3 U4 U5 U6 U7 U8]).
  assert (fr = []) as -> by (destruct fr as [|q fr]; [done|]; destruct (proj1 (U5 q) ltac:(left)); done).
  assert (ups' = ups) as ->. { apply map_eq. intros j. rewrite U2. zcases; try done. by replace j with n by lia. }
  split; [done|]. split; [|intros x Hx; apply U7; [done|]; by intros (q & []%not_elem_of_nil & _)].
  intros j Hj. destruct (Z.eqb_spec j n) as [->|]; [apply U3; lia|]. by rewrite U4 by lia.
Qed.

(** What proc_freepagetable() does: every page of the address space becomes
    free, once. *)
Lemma space_free_spec s l pt own ups sz : space s l pt own ups sz ->
  wp (uvmunmap pt TRAMPOLINE 1 false ;; uvmunmap pt TRAPFRAME 1 false ;; uvmfree pt sz) (fun _ s' => freed nowhere s l (pages_of own ups) s') s.
Proof.
  intros [Ha Hs Hu Hall]. pose proof (pgs_frame sz ltac:(lia)) as Hp. rewrite tramp_page, frame_page.
  assert (Hmax : TRAPFRAME <= MAXVA) by done. assert (HN : NPG = 2 ^ 26) by done.
  assert (Hnone : forall n, pgs sz <= n -> ups !! n = None) by (intros n Hn; destruct (ups !! n) eqn:E; [apply Hu in E; lia|done]).
  rewrite wp_bind. eapply wp_mono; [apply (unmap_system s l pt own ups (NPG - 1) Ha); [lia|apply Hnone; lia]|]. intros [] s1 (A1 & V1 & B1).
  rewrite wp_bind. eapply wp_mono; [apply (unmap_system s1 l pt own ups (NPG - 2) A1); [lia|apply Hnone; lia]|]. intros [] s2 (A2 & V2 & B2).
  eapply wp_mono; [apply (uvmfree_spec s2 l pt own ups sz A2); [lia|]|].
  - intros j Hj. rewrite V2, V1 by done. destruct (Z.eqb_spec j (NPG - 2)); [done|]. destruct (Z.eqb_spec j (NPG - 1)); [done|]. intros Hv.
    destruct (Hall j Hj Hv) as [[q Hq]|[[?|?] _]]; [|done|done]. split; [by apply (Hu j q)|by eexists].
  - intros [] s' (fr & K & Hfr & Hb). exists fr. split; [done|]. split; [done|]. intros x Hx Hw. rewrite Hb, B2, B1; try done.
    all: intros (q & path & Hq & Hxq); apply Hx; exists q; split; [apply Hfr; left; by eexists|done].
Qed.
End free.
