(* ===== verification/Virtio.v ===== *)
(** kernel/virtio_disk.c: the driver of the virtio disk.

    The driver and the device share descriptors, the ring of available
    requests and the ring of used ones.  A pointer in a descriptor is what it
    points at: a request header, the data of a buffer or a status byte.
    virtio_disk_rw() sleeps twice, for descriptors and for the device, so it
    is cut into [disk_start] and [disk_finish]; between them run other
    callers, the interrupt handler and the device.  The device is not part of
    the program: it is the parameter [dev_step], of which [VirtioDev] assumes
    that it fetches requests in the order of the available ring and completes
    those it has fetched, in any order. *)
From S2P Require Import Prelude Ring.

Definition NUM : Z := 8.
Definition VRING_DESC_F_NEXT : Z := 1.
Definition VRING_DESC_F_WRITE : Z := 2.
Definition VIRTIO_BLK_T_IN : Z := 0.
Definition VIRTIO_BLK_T_OUT : Z := 1.
Definition BSIZE : Z := 1024.

Inductive dptr := PNull | POp (i : nat) | PData (b : nat) | PStatus (i : nat).
Record virtq_desc := Desc { d_addr : dptr; d_len : Z; d_flags : Z; d_next : Z }.
Record virtio_blk_req := Req { r_type : Z; r_reserved : Z; r_sector : Z }.
Record dinfo := Info { in_b : option nat; in_status : Z }.
(** The fields of struct buf that the driver uses. *)
Record vbuf := Vbuf { vb_blockno : Z; vb_data : list Z; vb_disk : Z }.

(** struct disk; the buffers; who sleeps, on [&disk.free[0]] and on buffers;
    the device: how far it has read the available ring, the requests it has
    fetched, and the blocks of the disk, by their first sector. *)
Record vd := Vd {
  v_lock : lockst; v_desc : list virtq_desc; v_avail : list Z; v_avail_idx : Z;
  v_used : list Z; v_used_dev : Z; v_free : list bool; v_used_idx : Z;
  v_info : list dinfo; v_ops : list virtio_blk_req;
  v_bufs : gmap nat vbuf; v_sleep_free : bool; v_sleep_buf : gset nat;
  dv_seen : Z; dv_pending : list Z; dv_disk : gmap Z (list Z) }.

Definition set_vlock x s := Vd x (v_desc s) (v_avail s) (v_avail_idx s) (v_used s) (v_used_dev s) (v_free s) (v_used_idx s) (v_info s) (v_ops s) (v_bufs s) (v_sleep_free s) (v_sleep_buf s) (dv_seen s) (dv_pending s) (dv_disk s).
Definition on_desc f s := Vd (v_lock s) (f (v_desc s)) (v_avail s) (v_avail_idx s) (v_used s) (v_used_dev s) (v_free s) (v_used_idx s) (v_info s) (v_ops s) (v_bufs s) (v_sleep_free s) (v_sleep_buf s) (dv_seen s) (dv_pending s) (dv_disk s).
Definition on_avail f s := Vd (v_lock s) (v_desc s) (f (v_avail s)) (v_avail_idx s) (v_used s) (v_used_dev s) (v_free s) (v_used_idx s) (v_info s) (v_ops s) (v_bufs s) (v_sleep_free s) (v_sleep_buf s) (dv_seen s) (dv_pending s) (dv_disk s).
Definition set_avail_idx x s := Vd (v_lock s) (v_desc s) (v_avail s) x (v_used s) (v_used_dev s) (v_free s) (v_used_idx s) (v_info s) (v_ops s) (v_bufs s) (v_sleep_free s) (v_sleep_buf s) (dv_seen s) (dv_pending s) (dv_disk s).
Definition on_free f s := Vd (v_lock s) (v_desc s) (v_avail s) (v_avail_idx s) (v_used s) (v_used_dev s) (f (v_free s)) (v_used_idx s) (v_info s) (v_ops s) (v_bufs s) (v_sleep_free s) (v_sleep_buf s) (dv_seen s) (dv_pending s) (dv_disk s).
Definition set_used_idx x s := Vd (v_lock s) (v_desc s) (v_avail s) (v_avail_idx s) (v_used s) (v_used_dev s) (v_free s) x (v_info s) (v_ops s) (v_bufs s) (v_sleep_free s) (v_sleep_buf s) (dv_seen s) (dv_pending s) (dv_disk s).
Definition on_info f s := Vd (v_lock s) (v_desc s) (v_avail s) (v_avail_idx s) (v_used s) (v_used_dev s) (v_free s) (v_used_idx s) (f (v_info s)) (v_ops s) (v_bufs s) (v_sleep_free s) (v_sleep_buf s) (dv_seen s) (dv_pending s) (dv_disk s).
Definition on_ops f s := Vd (v_lock s) (v_desc s) (v_avail s) (v_avail_idx s) (v_used s) (v_used_dev s) (v_free s) (v_used_idx s) (v_info s) (f (v_ops s)) (v_bufs s) (v_sleep_free s) (v_sleep_buf s) (dv_seen s) (dv_pending s) (dv_disk s).
Definition on_bufs f s := Vd (v_lock s) (v_desc s) (v_avail s) (v_avail_idx s) (v_used s) (v_used_dev s) (v_free s) (v_used_idx s) (v_info s) (v_ops s) (f (v_bufs s)) (v_sleep_free s) (v_sleep_buf s) (dv_seen s) (dv_pending s) (dv_disk s).
Definition set_sleep_free x s := Vd (v_lock s) (v_desc s) (v_avail s) (v_avail_idx s) (v_used s) (v_used_dev s) (v_free s) (v_used_idx s) (v_info s) (v_ops s) (v_bufs s) x (v_sleep_buf s) (dv_seen s) (dv_pending s) (dv_disk s).
Definition on_sleep_buf f s := Vd (v_lock s) (v_desc s) (v_avail s) (v_avail_idx s) (v_used s) (v_used_dev s) (v_free s) (v_used_idx s) (v_info s) (v_ops s) (v_bufs s) (v_sleep_free s) (f (v_sleep_buf s)) (dv_seen s) (dv_pending s) (dv_disk s).

Definition vacquire : M vd unit := lock_acquire v_lock set_vlock.
Definition vrelease : M vd unit := lock_release v_lock set_vlock.

Definition desc0 : virtq_desc := Desc PNull 0 0 0.
Definition info0 : dinfo := Info None 0.
Definition req0 : virtio_blk_req := Req 0 0 0.
Definition vbuf0 : vbuf := Vbuf 0 [] 0.
Definition get_desc (i : nat) s : virtq_desc := default desc0 (v_desc s !! i).
Definition get_info (i : nat) s : dinfo := default info0 (v_info s !! i).
Definition get_op (i : nat) s : virtio_blk_req := default req0 (v_ops s !! i).
Definition get_vbuf (b : nat) s : vbuf := default vbuf0 (v_bufs s !! b).
Definition is_free (i : nat) s : bool := default false (v_free s !! i).
Definition set_desc (i : nat) (d : virtq_desc) : M vd unit := modify (on_desc <[i := d]>).
Definition set_info (i : nat) (x : dinfo) : M vd unit := modify (on_info <[i := x]>).
Definition set_bdisk (b : nat) (x : Z) : M vd unit :=
  modify (fun s => on_bufs <[b := Vbuf (vb_blockno (get_vbuf b s)) (vb_data (get_vbuf b s)) x]> s).
Definition wakeup_free : M vd unit := modify (set_sleep_free false).
Definition wakeup_buf (b : nat) : M vd unit := modify (on_sleep_buf (fun x => x ∖ {[b]})).

(** * Descriptors *)

Fixpoint alloc_desc_loop (n i : nat) : M vd (option nat) :=
  match n with
  | O => ret None
  | S n =>
      let! f := gets (is_free i) in
      if f then modify (on_free <[i := false]>) ;; ret (Some i)
      else alloc_desc_loop n (S i)
  end.
(** [None] is -1. *)
Definition alloc_desc : M vd (option nat) := alloc_desc_loop (Z.to_nat NUM) 0.

Definition free_desc (i : nat) : M vd unit :=
  if NUM <=? Z.of_nat i then panic "free_desc 1" else
  let! f := gets (is_free i) in
  if f then panic "free_desc 2" else
  set_desc i (Desc PNull 0 0 0) ;;
  modify (on_free <[i := true]>) ;;
  wakeup_free.

(** At most [fuel] descriptors of a chain. *)
Fixpoint free_chain (fuel i : nat) : M vd unit :=
  match fuel with
  | O => nofuel
  | S fuel =>
      let! d := gets (get_desc i) in
      free_desc i ;;
      if negb (Z.land (d_flags d) VRING_DESC_F_NEXT =? 0) then free_chain fuel (Z.to_nat (d_next d))
      else ret tt
  end.

Fixpoint free_descs (l : list nat) : M vd unit :=
  match l with [] => ret tt | i :: l => free_desc i ;; free_descs l end.

(** The loop of alloc3_desc, with the descriptors it has so far. *)
Fixpoint alloc3_loop (n : nat) (idx : list nat) : M vd (option (list nat)) :=
  match n with
  | O => ret (Some idx)
  | S n =>
      let! r := alloc_desc in
      match r with
      | Some i => alloc3_loop n (idx ++ [i])
      | None => free_descs idx ;; ret None
      end
  end.
Definition alloc3_desc : M vd (option (list nat)) := alloc3_loop 3 [].

(** * Requests *)

(** virtio_disk_rw() from the formatting of the descriptors to the notification
    of the device. *)
Definition format_request (b : nat) (write : bool) (i0 i1 i2 : nat) : M vd unit :=
  let! x := gets (get_vbuf b) in
  let sector := u32 (vb_blockno x * (BSIZE / 512)) in
  modify (on_ops <[i0 := Req (if write then VIRTIO_BLK_T_OUT else VIRTIO_BLK_T_IN) 0 sector]>) ;;
  set_desc i0 (Desc (POp i0) 16 VRING_DESC_F_NEXT (Z.of_nat i1)) ;;
  set_desc i1 (Desc (PData b) BSIZE (Z.lor (if write then 0 else VRING_DESC_F_WRITE) VRING_DESC_F_NEXT) (Z.of_nat i2)) ;;
  let! inf := gets (get_info i0) in
  set_info i0 (Info (in_b inf) 0xff) ;;
  set_desc i2 (Desc (PStatus i0) 1 VRING_DESC_F_WRITE 0) ;;
  set_bdisk b 1 ;;
  let! inf := gets (get_info i0) in
  set_info i0 (Info (Some b) (in_status inf)) ;;
  let! idx := gets v_avail_idx in
  modify (on_avail <[Z.to_nat (idx mod NUM) := Z.of_nat i0]>) ;;
  modify (set_avail_idx (u16 (idx + 1))).

(** Up to the wait for the device: the first descriptor, or [None] if the
    caller sleeps for descriptors and tries again. *)
Definition disk_start (b : nat) (write : bool) : M vd (option nat) :=
  vacquire ;;
  let! r := alloc3_desc in
  match r with
  | Some [i0; i1; i2] => format_request b write i0 i1 i2 ;; vrelease ;; ret (Some i0)
  | _ => modify (set_sleep_free true) ;; vrelease ;; ret None
  end.

(** The wait for the device and the end; [false] if the caller sleeps. *)
Definition disk_finish (b i0 : nat) : M vd bool :=
  vacquire ;;
  let! x := gets (get_vbuf b) in
  if vb_disk x =? 1 then modify (on_sleep_buf (fun x => {[b]} ∪ x)) ;; vrelease ;; ret false
  else
    let! inf := gets (get_info i0) in
    set_info i0 (Info None (in_status inf)) ;;
    free_chain (Z.to_nat NUM) i0 ;;
    vrelease ;;
    ret true.

Fixpoint intr_loop (fuel : nat) : M vd unit :=
  let! s := gets id in
  if v_used_idx s =? v_used_dev s then ret tt
  else
    match fuel with
    | O => nofuel
    | S fuel =>
        let i := Z.to_nat (slot 0 NUM (v_used s) (v_used_idx s)) in
        let inf := get_info i s in
        if negb (in_status inf =? 0) then panic "virtio_disk_intr status" else
        match in_b inf with
        | None => panic "kerneltrap"
        | Some b =>
            set_bdisk b 0 ;;
            wakeup_buf b ;;
            modify (set_used_idx (u16 (v_used_idx s + 1))) ;;
            intr_loop fuel
        end
    end.
Definition virtio_disk_intr : M vd unit := vacquire ;; intr_loop (Z.to_nat NUM) ;; vrelease.

(** * The device *)

Definition dblk (m : gmap Z (list Z)) (sector : Z) : list Z := default (replicate (Z.to_nat BSIZE) 0) (m !! sector).
Definition set_dev (seen : Z) (pend : list Z) s := Vd (v_lock s) (v_desc s) (v_avail s) (v_avail_idx s) (v_used s) (v_used_dev s) (v_free s) (v_used_idx s) (v_info s) (v_ops s) (v_bufs s) (v_sleep_free s) (v_sleep_buf s) seen pend (dv_disk s).
Definition set_disk (m : gmap Z (list Z)) s := Vd (v_lock s) (v_desc s) (v_avail s) (v_avail_idx s) (v_used s) (v_used_dev s) (v_free s) (v_used_idx s) (v_info s) (v_ops s) (v_bufs s) (v_sleep_free s) (v_sleep_buf s) (dv_seen s) (dv_pending s) m.
Definition push_used (h : Z) s := Vd (v_lock s) (v_desc s) (v_avail s) (v_avail_idx s) (<[Z.to_nat (v_used_dev s mod NUM) := h]> (v_used s)) (u16 (v_used_dev s + 1)) (v_free s) (v_used_idx s) (v_info s) (v_ops s) (v_bufs s) (v_sleep_free s) (v_sleep_buf s) (dv_seen s) (dv_pending s) (dv_disk s).
Definition set_bdata (b : nat) (x : list Z) s := on_bufs <[b := Vbuf (vb_blockno (get_vbuf b s)) x (vb_disk (get_vbuf b s))]> s.
Definition set_status (i : nat) (x : Z) s := on_info <[i := Info (in_b (get_info i s)) x]> s.

(** The chain at head [h]: its header, its buffer, where the status goes. *)
Definition request (h : Z) s : option (virtio_blk_req * nat * nat) :=
  let d0 := get_desc (Z.to_nat h) s in
  let d1 := get_desc (Z.to_nat (d_next d0)) s in
  let d2 := get_desc (Z.to_nat (d_next d1)) s in
  match d_addr d0, d_addr d1, d_addr d2 with
  | POp i, PData b, PStatus k =>
      let op := get_op i s in
      if (d_flags d0 =? VRING_DESC_F_NEXT) && (d_len d1 =? BSIZE) && (d_flags d2 =? VRING_DESC_F_WRITE) &&
         (((r_type op =? VIRTIO_BLK_T_OUT) && (d_flags d1 =? VRING_DESC_F_NEXT)) || ((r_type op =? VIRTIO_BLK_T_IN) && (d_flags d1 =? Z.lor VRING_DESC_F_WRITE VRING_DESC_F_NEXT)))
      then Some (op, b, k) else None
  | _, _, _ => None
  end.

(** The transfer that a request asks for, and the report of success. *)
Definition transfer (op : virtio_blk_req) (b k : nat) (h : Z) s : vd :=
  let s := if r_type op =? VIRTIO_BLK_T_OUT then set_disk (<[r_sector op := vb_data (get_vbuf b s)]> (dv_disk s)) s
           else set_bdata b (dblk (dv_disk s) (r_sector op)) s in
  push_used h (set_status k 0 s).

Definition dev_fetch s s' : Prop :=
  dv_seen s <> v_avail_idx s /\ s' = set_dev (u16 (dv_seen s + 1)) (dv_pending s ++ [slot 0 NUM (v_avail s) (dv_seen s)]) s.
Definition dev_complete s s' : Prop := exists h l1 l2 op b k,
  dv_pending s = l1 ++ h :: l2 /\ request h s = Some (op, b, k) /\ s' = transfer op b k h (set_dev (dv_seen s) (l1 ++ l2) s).

(** A device that works: as long as it is given well-formed chains, a step
    fetches the next request or completes one without error. *)
Class VirtioDev := {
  dev_step : vd -> vd -> Prop;
  dev_ok s s' : Forall (fun h => is_Some (request h s)) (dv_pending s) -> dev_step s s' -> dev_fetch s s' \/ dev_complete s s'
}.

(** * The system

    [R]: the requests between [disk_start] and [disk_finish], by buffer: their
    descriptors, the direction and the data when they were made. *)
Record rq := Rq { rq_idx : list nat; rq_write : bool; rq_data : list Z }.
Definition sector_of (x : vbuf) : Z := u32 (vb_blockno x * (BSIZE / 512)).

Section system.
Context `{VirtioDev}.

(** A caller owns its buffer, and no two buffers hold the same block. *)
Inductive vstep : vd * gmap nat rq -> vd * gmap nat rq -> Prop :=
| vs_start s R b wr s' i0 i1 i2 : R !! b = None -> is_Some (v_bufs s !! b) ->
    (forall b' r, R !! b' = Some r -> sector_of (get_vbuf b' s) <> sector_of (get_vbuf b s)) ->
    disk_start b wr s = Ok (Some i0) s' -> get_desc i0 s' = Desc (POp i0) 16 VRING_DESC_F_NEXT (Z.of_nat i1) -> d_next (get_desc i1 s') = Z.of_nat i2 ->
    vstep (s, R) (s', <[b := Rq [i0; i1; i2] wr (vb_data (get_vbuf b s))]> R)
| vs_start_wait s R b wr s' : R !! b = None -> disk_start b wr s = Ok None s' -> vstep (s, R) (s', R)
| vs_finish s R b r i0 s' : R !! b = Some r -> head (rq_idx r) = Some i0 -> disk_finish b i0 s = Ok true s' -> vstep (s, R) (s', delete b R)
| vs_finish_wait s R b r i0 s' : R !! b = Some r -> head (rq_idx r) = Some i0 -> disk_finish b i0 s = Ok false s' -> vstep (s, R) (s', R)
| vs_intr s R s' : virtio_disk_intr s = Ok tt s' -> vstep (s, R) (s', R)
| vs_dev s R s' : dev_step s s' -> vstep (s, R) (s', R)
| vs_owner s R b x : R !! b = None -> vb_disk x = 0 -> vstep (s, R) (on_bufs <[b := x]> s, R).
End system.

(** The state that virtio_disk_init() leaves, with the disk [m]. *)
Definition virtio_init (m : gmap Z (list Z)) : vd :=
  Vd Free (replicate 8 desc0) (replicate 8 0) 0 (replicate 8 0) 0 (replicate 8 true) 0 (replicate 8 info0) (replicate 8 req0) ∅ false ∅ 0 [] m.
