(* ===== verification/VirtioProps.v ===== *)
(** The disk driver in every interleaving of its callers, the interrupt
    handler and the device: descriptors are neither lost nor used twice, no
    panic is reached, no wakeup is missed, and a request that returns has
    transferred exactly its block. *)
From S2P Require Import Prelude Ring Virtio.

(** States are equal field by field. *)
Lemma vd_ext s t : v_lock s = v_lock t -> v_desc s = v_desc t -> v_avail s = v_avail t -> v_avail_idx s = v_avail_idx t -> v_used s = v_used t -> v_used_dev s = v_used_dev t ->
  v_free s = v_free t -> v_used_idx s = v_used_idx t -> v_info s = v_info t -> v_ops s = v_ops t -> v_bufs s = v_bufs t -> v_sleep_free s = v_sleep_free t -> v_sleep_buf s = v_sleep_buf t ->
  dv_seen s = dv_seen t -> dv_pending s = dv_pending t -> dv_disk s = dv_disk t -> s = t.
Proof. destruct s, t. cbn. intros; by subst. Qed.

(** * Descriptors *)

Lemma alloc_desc_loop_spec n i s : (forall j, (j < i)%nat -> is_free j s = false) -> (i + n = 8)%nat -> length (v_free s) = 8%nat ->
  wp (alloc_desc_loop n i) (fun r s' => match r with Some j => (j < 8)%nat /\ is_free j s = true /\ s' = on_free <[j := false]> s | None => s' = s /\ forall j, is_free j s = false end) s.
Proof.
  revert i. induction n as [|n IH]; intros i Hi Hn Hl; cbn [alloc_desc_loop].
  - rewrite wp_ret. split; [done|]. intros j. destruct (decide (j < i)%nat); [auto|]. unfold is_free. rewrite lookup_ge_None_2 by lia. done.
  - wp_simp. destruct (is_free i s) eqn:E; [wp_simp; split; [lia|done]|]. apply IH; [|lia|done]. intros j Hj. destruct (decide (j = i)) as [->|]; [done|]. apply Hi. lia.
Qed.
Lemma alloc_desc_spec s : length (v_free s) = 8%nat ->
  wp alloc_desc (fun r s' => match r with Some j => (j < 8)%nat /\ is_free j s = true /\ s' = on_free <[j := false]> s | None => s' = s /\ forall j, is_free j s = false end) s.
Proof. intros H. apply alloc_desc_loop_spec; [lia|done|done]. Qed.

Definition freed (i : nat) s : vd := set_sleep_free false (on_free <[i := true]> (on_desc <[i := desc0]> s)).
Lemma free_desc_spec i s (Q : unit -> vd -> Prop) : (i < 8)%nat -> is_free i s = false -> Q tt (freed i s) -> wp (free_desc i) Q s.
Proof.
  intros Hi Hf HQ. unfold free_desc. rewrite (proj2 (Z.leb_gt NUM (Z.of_nat i))) by (unfold NUM; lia). wp_simp. rewrite Hf. unfold set_desc, wakeup_free. wp_simp. exact HQ.
Qed.

Lemma is_free_insert i j x s : (j < length (v_free s))%nat -> is_free i (on_free <[j := x]> s) = if decide (i = j) then x else is_free i s.
Proof. intros Hj. unfold is_free. cbn. destruct (decide (i = j)) as [->|]; [by rewrite list_lookup_insert_eq|by rewrite list_lookup_insert_ne]. Qed.

Lemma is_free_lookup i s : is_free i s = true -> v_free s !! i = Some true.
Proof. unfold is_free. destruct (v_free s !! i); cbn; [by intros ->|done]. Qed.

(** A state that differs only in descriptors that are free. *)
Definition same_used s s' : Prop := exists D x, s' = set_sleep_free x (on_desc (fun _ => D) s) /\ length D = length (v_desc s) /\ forall i, is_free i s = false -> D !! i = v_desc s !! i.
Definition nfree s : nat := length (filter (fun b => b = true) (v_free s)).

Lemma nfree_0 s : (forall j, is_free j s = false) -> nfree s = 0%nat.
Proof.
  intros H. unfold nfree. assert (Hf : Forall (fun b => b <> true) (v_free s)).
  { apply Forall_lookup_2. intros i b Hb ->. specialize (H i). unfold is_free in H. by rewrite Hb in H. }
  induction Hf as [|b l Hb _ IH]; [done|]. rewrite filter_cons_False by done. done.
Qed.
Lemma nfree_take j s : is_free j s = true -> nfree s = S (nfree (on_free <[j := false]> s)).
Proof.
  unfold is_free, nfree. cbn. destruct (v_free s !! j) as [b|] eqn:E; cbn; [intros ->|done]. rewrite <- (take_drop_middle _ _ _ E) at 1.
  rewrite insert_take_drop by (by eapply lookup_lt_Some). rewrite !filter_app, !length_app. rewrite filter_cons_True by done. rewrite filter_cons_False by done. cbn. lia.
Qed.

(** Three descriptors that were free, or fewer were. *)
Lemma alloc3_spec s : length (v_free s) = 8%nat -> length (v_desc s) = 8%nat ->
  wp alloc3_desc (fun r s' =>
    match r with
    | Some l => exists i j k, l = [i; j; k] /\ NoDup [i; j; k] /\ Forall (fun x => (x < 8)%nat /\ is_free x s = true) [i; j; k] /\ s' = on_free (fun fr => <[k := false]> (<[j := false]> (<[i := false]> fr))) s
    | None => (nfree s < 3)%nat /\ same_used s s'
    end) s.
Proof.
  intros Hl Hd. unfold alloc3_desc. cbn [alloc3_loop]. rewrite wp_bind. eapply wp_mono; [by apply alloc_desc_spec|]. intros [i|] s1.
  2:{ intros [-> Hn]. wp_simp. rewrite (nfree_0 s Hn). split; [lia|]. exists (v_desc s), (v_sleep_free s). split; [by destruct s|]. done. }
  intros (Hi & Fi & ->). rewrite wp_bind. eapply wp_mono; [apply alloc_desc_spec; cbn; by rewrite length_insert|]. intros [j|] s2.
  2:{ intros [-> Hn]. cbn [app free_descs]. wp_simp. apply free_desc_spec; [done|rewrite is_free_insert by lia; by rewrite decide_True|]. wp_simp. split; [rewrite (nfree_take i s Fi), (nfree_0 _ Hn); lia|].
      exists (<[i := desc0]> (v_desc s)), false. split; [|split; [by rewrite length_insert|]].
      - apply vd_ext; try done. cbn. rewrite list_insert_insert_eq. apply list_insert_id. by apply is_free_lookup.
      - intros x Hx. rewrite list_lookup_insert_ne; [done|]. intros ->. congruence. }
  rewrite is_free_insert by lia. intros (Hj & Fj & ->). destruct (decide (j = i)) as [->|Hji]; [done|]. rewrite wp_bind. eapply wp_mono; [apply alloc_desc_spec; cbn; by rewrite !length_insert|].
  assert (Hfr : forall x y z, x = on_free <[y := z]> (on_free <[i := false]> s) -> length (v_free x) = 8%nat) by (intros x y z ->; cbn; by rewrite !length_insert).
  intros [k|] s3.
  - rewrite is_free_insert by (cbn; rewrite length_insert; lia). rewrite is_free_insert by lia. intros (Hk & Fk & ->). destruct (decide (k = j)) as [->|Hkj]; [done|]. destruct (decide (k = i)) as [->|Hki]; [done|].
    wp_simp. exists i, j, k. split; [done|]. split; [repeat (constructor; [set_solver|]); constructor|]. split; [rewrite !Forall_cons; split_and!; try done; constructor|]. done.
  - intros [-> Hn]. cbn [app free_descs]. wp_simp. apply free_desc_spec; [done|rewrite is_free_insert by (cbn; rewrite length_insert; lia); rewrite decide_False by done; rewrite is_free_insert by lia; by rewrite decide_True|]. wp_simp.
    apply free_desc_spec; [done| |].
    { unfold is_free, freed. cbn. rewrite list_lookup_insert_ne by done. rewrite list_lookup_insert_eq by (rewrite length_insert; lia). done. }
    wp_simp. split.
    + rewrite (nfree_take i s Fi), (nfree_take j (on_free <[i := false]> s) ltac:(rewrite is_free_insert by lia; by rewrite decide_False)), (nfree_0 _ Hn). lia.
    + exists (<[j := desc0]> (<[i := desc0]> (v_desc s))), false. split; [|split; [by rewrite !length_insert|]].
      * apply vd_ext; try done. cbn. apply is_free_lookup in Fi, Fj. clear Hn Hfr. apply list_eq. intros x.
        destruct (decide (x = j)) as [->|]; [rewrite list_lookup_insert_eq by (rewrite !length_insert; lia); by rewrite Fj|]. rewrite list_lookup_insert_ne by done.
        destruct (decide (x = i)) as [->|]; [rewrite list_lookup_insert_eq by (rewrite !length_insert; lia); by rewrite Fi|]. by rewrite !list_lookup_insert_ne.
      * intros x Hx. rewrite !list_lookup_insert_ne; [done|..]; intros ->; congruence.
Qed.

(** * disk_start *)

Definition DATA_FLAGS (wr : bool) : Z := Z.lor (if wr then 0 else VRING_DESC_F_WRITE) VRING_DESC_F_NEXT.
Definition op_of (wr : bool) (x : vbuf) : virtio_blk_req := Req (if wr then VIRTIO_BLK_T_OUT else VIRTIO_BLK_T_IN) 0 (sector_of x).
(** The state after a request has been published. *)
Definition started s (b : nat) (wr : bool) (i0 i1 i2 : nat) : vd :=
  Vd Free (<[i2 := Desc (PStatus i0) 1 VRING_DESC_F_WRITE 0]> (<[i1 := Desc (PData b) BSIZE (DATA_FLAGS wr) (Z.of_nat i2)]> (<[i0 := Desc (POp i0) 16 VRING_DESC_F_NEXT (Z.of_nat i1)]> (v_desc s))))
    (<[Z.to_nat (v_avail_idx s mod NUM) := Z.of_nat i0]> (v_avail s)) (u16 (v_avail_idx s + 1)) (v_used s) (v_used_dev s)
    (<[i2 := false]> (<[i1 := false]> (<[i0 := false]> (v_free s)))) (v_used_idx s) (<[i0 := Info (Some b) 0xff]> (v_info s)) (<[i0 := op_of wr (get_vbuf b s)]> (v_ops s))
    (<[b := Vbuf (vb_blockno (get_vbuf b s)) (vb_data (get_vbuf b s)) 1]> (v_bufs s)) (v_sleep_free s) (v_sleep_buf s) (dv_seen s) (dv_pending s) (dv_disk s).

Record shape s : Prop := {
  sh_lock : v_lock s = Free;
  sh_desc : length (v_desc s) = 8%nat;
  sh_free : length (v_free s) = 8%nat;
  sh_info : length (v_info s) = 8%nat;
  sh_ops : length (v_ops s) = 8%nat;
  sh_avail : length (v_avail s) = 8%nat;
  sh_used : length (v_used s) = 8%nat;
  sh_idx : 0 <= v_avail_idx s < 2 ^ 16 /\ 0 <= v_used_dev s < 2 ^ 16 /\ 0 <= v_used_idx s < 2 ^ 16 /\ 0 <= dv_seen s < 2 ^ 16
}.

Lemma disk_start_spec b wr s : shape s ->
  wp (disk_start b wr) (fun r s' =>
    match r with
    | Some i0 => exists i1 i2, NoDup [i0; i1; i2] /\ Forall (fun x => (x < 8)%nat /\ is_free x s = true) [i0; i1; i2] /\ s' = started s b wr i0 i1 i2
    | None => (nfree s < 3)%nat /\ exists D, s' = set_sleep_free true (on_desc (fun _ => D) s) /\ length D = 8%nat /\ forall i, is_free i s = false -> D !! i = v_desc s !! i
    end) s.
Proof.
  intros [H1 H2 H3 H4 H5 H6 H7 H8]. unfold disk_start. rewrite wp_bind. apply wp_lock_acquire; [done|]. rewrite wp_bind. eapply wp_mono; [by apply alloc3_spec|]. intros [l|] s1.
  - intros (i0 & i1 & i2 & -> & Hnd & Hfr & ->). unfold format_request, set_desc, set_info, set_bdisk. wp_simp. unfold vrelease. apply wp_lock_release; [done|]. wp_simp. exists i1, i2. split; [done|]. split; [done|].
    apply Forall_cons in Hfr as [[Hi0 _] _]. apply vd_ext; try done; cbn. unfold get_info at 1. cbn. rewrite list_insert_insert_eq. by rewrite list_lookup_insert_eq by lia.
  - intros [Hn (D & x & -> & Hl & HD)]. wp_simp. unfold vrelease. apply wp_lock_release; [done|]. wp_simp. split; [done|]. exists D. split; [by apply vd_ext; cbn|]. split; [|done]. etrans; [exact Hl|done].
Qed.

(** * disk_finish *)

Definition finished s (b i0 i1 i2 : nat) : vd :=
  Vd Free (<[i2 := desc0]> (<[i1 := desc0]> (<[i0 := desc0]> (v_desc s)))) (v_avail s) (v_avail_idx s) (v_used s) (v_used_dev s)
    (<[i2 := true]> (<[i1 := true]> (<[i0 := true]> (v_free s)))) (v_used_idx s) (<[i0 := Info None (in_status (get_info i0 s))]> (v_info s)) (v_ops s) (v_bufs s) false (v_sleep_buf s) (dv_seen s) (dv_pending s) (dv_disk s).

Lemma get_desc_insert i j d s : (j < length (v_desc s))%nat -> get_desc i (on_desc <[j := d]> s) = if decide (i = j) then d else get_desc i s.
Proof. intros Hj. unfold get_desc. cbn. destruct (decide (i = j)) as [->|]; [by rewrite list_lookup_insert_eq|by rewrite list_lookup_insert_ne]. Qed.

Lemma free_chain_spec s i0 i1 i2 fl x y : length (v_free s) = 8%nat -> length (v_desc s) = 8%nat -> NoDup [i0; i1; i2] -> Forall (fun x => (x < 8)%nat /\ is_free x s = false) [i0; i1; i2] ->
  get_desc i0 s = Desc x 16 VRING_DESC_F_NEXT (Z.of_nat i1) -> get_desc i1 s = Desc y BSIZE fl (Z.of_nat i2) -> Z.land fl VRING_DESC_F_NEXT = 1 -> d_flags (get_desc i2 s) = VRING_DESC_F_WRITE ->
  wp (free_chain (Z.to_nat NUM) i0) (fun _ s' => s' = freed i2 (freed i1 (freed i0 s))) s.
Proof.
  intros Hl Hd Hnd Hfr D0 D1 Hfl D2. apply Forall_cons in Hfr as [[A0 B0] Hfr]. apply Forall_cons in Hfr as [[A1 B1] Hfr]. apply Forall_cons in Hfr as [[A2 B2] _].
  assert (N01 : i1 <> i0) by (intros ->; apply NoDup_cons in Hnd as [Hn _]; set_solver). assert (N02 : i2 <> i0) by (intros ->; apply NoDup_cons in Hnd as [Hn _]; set_solver).
  assert (N12 : i2 <> i1) by (intros ->; apply NoDup_cons in Hnd as [_ Hnd]; apply NoDup_cons in Hnd as [Hn _]; set_solver).
  assert (Hget : forall i j t, i <> j -> get_desc i (freed j t) = get_desc i t) by (intros i j t Hij; unfold get_desc; cbn; by rewrite list_lookup_insert_ne).
  assert (Hisf : forall i j t, i <> j -> is_free i (freed j t) = is_free i t) by (intros i j t Hij; unfold is_free; cbn; by rewrite list_lookup_insert_ne).
  change (Z.to_nat NUM) with 8%nat. cbn [free_chain]. wp_simp. rewrite D0. apply free_desc_spec; [done|done|]. cbn [d_flags d_next]. change (negb (Z.land VRING_DESC_F_NEXT VRING_DESC_F_NEXT =? 0)) with true. rewrite Nat2Z.id. wp_simp.
  rewrite Hget, D1 by done. apply free_desc_spec; [done|by rewrite Hisf|]. cbn [d_flags d_next]. rewrite Hfl. change (negb (1 =? 0)) with true. rewrite Nat2Z.id. wp_simp.
  apply free_desc_spec; [done|by rewrite !Hisf|]. rewrite !Hget, D2 by done. change (negb (Z.land VRING_DESC_F_WRITE VRING_DESC_F_NEXT =? 0)) with false. wp_simp. done.
Qed.

Lemma disk_finish_spec s b i0 i1 i2 fl x y : shape s -> NoDup [i0; i1; i2] -> Forall (fun x => (x < 8)%nat /\ is_free x s = false) [i0; i1; i2] ->
  get_desc i0 s = Desc x 16 VRING_DESC_F_NEXT (Z.of_nat i1) -> get_desc i1 s = Desc y BSIZE fl (Z.of_nat i2) -> Z.land fl VRING_DESC_F_NEXT = 1 -> d_flags (get_desc i2 s) = VRING_DESC_F_WRITE ->
  wp (disk_finish b i0) (fun r s' => if r then vb_disk (get_vbuf b s) <> 1 /\ s' = finished s b i0 i1 i2 else vb_disk (get_vbuf b s) = 1 /\ s' = on_sleep_buf (fun x => {[b]} ∪ x) s) s.
Proof.
  intros [H1 H2 H3 H4 H5 H6 H7 H8] Hnd Hfr D0 D1 Hfl D2. unfold disk_finish. rewrite wp_bind. apply wp_lock_acquire; [done|]. rewrite wp_bind, wp_gets. change (get_vbuf b (set_vlock Mine s)) with (get_vbuf b s).
  destruct (Z.eqb_spec (vb_disk (get_vbuf b s)) 1) as [E|E].
  - wp_simp. unfold vrelease. apply wp_lock_release; [done|]. wp_simp. split; [done|]. by apply vd_ext; cbn.
  - unfold set_info. wp_simp. eapply wp_mono; [by eapply (free_chain_spec _ i0 i1 i2 fl x y)|]. intros [] s' ->. rewrite wp_bind. unfold vrelease. apply wp_lock_release; [done|]. rewrite wp_ret. split; [done|]. by apply vd_ext; cbn.
Qed.

(** * The invariant *)

Definition W16 : Z := 2 ^ 16.
(** Requests the device has not fetched; completed ones the driver has not seen. *)
Definition avails s : list Z := window 0 W16 NUM (v_avail s) (dv_seen s) (v_avail_idx s).
Definition uses s : list Z := window 0 W16 NUM (v_used s) (v_used_idx s) (v_used_dev s).
Definition live s : list Z := avails s ++ dv_pending s ++ uses s.

(** The transfer has happened. *)
Definition settled s (b i0 : nat) : Prop :=
  in_status (get_info i0 s) = 0 /\ vb_data (get_vbuf b s) = dblk (dv_disk s) (sector_of (get_vbuf b s)).

Record rq_ok s (b : nat) (r : rq) (i0 i1 i2 : nat) : Prop := {
  ro_idx : rq_idx r = [i0; i1; i2];
  ro_nodup : NoDup [i0; i1; i2];
  ro_busy : Forall (fun x => (x < 8)%nat /\ is_free x s = false) [i0; i1; i2];
  ro_d0 : get_desc i0 s = Desc (POp i0) 16 VRING_DESC_F_NEXT (Z.of_nat i1);
  ro_d1 : get_desc i1 s = Desc (PData b) BSIZE (DATA_FLAGS (rq_write r)) (Z.of_nat i2);
  ro_d2 : get_desc i2 s = Desc (PStatus i0) 1 VRING_DESC_F_WRITE 0;
  ro_op : get_op i0 s = op_of (rq_write r) (get_vbuf b s);
  ro_b : in_b (get_info i0 s) = Some b;
  ro_data : rq_write r = true -> vb_data (get_vbuf b s) = rq_data r;
  ro_phase : (vb_disk (get_vbuf b s) = 1 /\ Z.of_nat i0 ∈ live s /\ (Z.of_nat i0 ∈ uses s -> settled s b i0)) \/
             (vb_disk (get_vbuf b s) = 0 /\ (Z.of_nat i0 ∉ live s) /\ settled s b i0)
}.

Implicit Types R : gmap nat rq.
Record vinv s R : Prop := {
  vi_shape : shape s;
  vi_nodup : NoDup (live s);
  vi_live h : h ∈ live s -> exists b r i0, R !! b = Some r /\ head (rq_idx r) = Some i0 /\ h = Z.of_nat i0;
  vi_rq b r : R !! b = Some r -> exists i0 i1 i2, rq_ok s b r i0 i1 i2;
  vi_disj b b' r r' : R !! b = Some r -> R !! b' = Some r' -> b <> b' -> (rq_idx r ## rq_idx r') /\ sector_of (get_vbuf b s) <> sector_of (get_vbuf b' s);
  vi_owned i : (i < 8)%nat -> is_free i s = false -> exists b r, R !! b = Some r /\ i ∈ rq_idx r;
  vi_sleep_buf b : b ∈ v_sleep_buf s -> vb_disk (get_vbuf b s) = 1 /\ is_Some (R !! b);
  vi_sleep_free : v_sleep_free s = true -> (nfree s < 3)%nat
}.

(** A request is not affected by a step that leaves its parts alone. *)
Lemma rq_frame s s' b r i0 i1 i2 : rq_ok s b r i0 i1 i2 ->
  (forall x, x ∈ [i0; i1; i2] -> get_desc x s' = get_desc x s /\ is_free x s' = is_free x s) -> get_op i0 s' = get_op i0 s -> get_info i0 s' = get_info i0 s -> get_vbuf b s' = get_vbuf b s ->
  (Z.of_nat i0 ∈ live s' <-> Z.of_nat i0 ∈ live s) -> (Z.of_nat i0 ∈ uses s' -> Z.of_nat i0 ∈ uses s) -> dblk (dv_disk s') (sector_of (get_vbuf b s)) = dblk (dv_disk s) (sector_of (get_vbuf b s)) ->
  rq_ok s' b r i0 i1 i2.
Proof.
  intros [A1 A2 A3 A4 A5 A6 A7 A8 A9 A10] Hd Ho Hi Hb Hl Hu Hk.
  assert (E0 := proj1 (Hd i0 ltac:(left))). assert (E1 := proj1 (Hd i1 ltac:(right; left))). assert (E2 := proj1 (Hd i2 ltac:(right; right; left))).
  split; rewrite ?E0, ?E1, ?E2, ?Ho, ?Hi, ?Hb; try done.
  - rewrite Forall_forall in *. intros x Hx. rewrite (proj2 (Hd x Hx)). auto.
  - unfold settled in *. rewrite Hi, Hb, Hk. rewrite Hl. naive_solver.
Qed.

Lemma nodup_small (l : list Z) : NoDup l -> (forall h, h ∈ l -> exists i, (i < 8)%nat /\ h = Z.of_nat i) -> (length l <= 8)%nat.
Proof.
  intros Hnd Hl. assert (Hsub : l ⊆+ (Z.of_nat <$> seq 0 8)).
  { apply NoDup_submseteq; [done|]. intros h Hh. destruct (Hl h Hh) as (i & Hi & ->). apply list_elem_of_fmap. exists i. split; [done|]. apply elem_of_seq. lia. }
  apply submseteq_length in Hsub. by rewrite length_fmap, length_seq in Hsub.
Qed.
Lemma live_head s R h : vinv s R -> h ∈ live s -> exists b r i0 i1 i2, R !! b = Some r /\ rq_ok s b r i0 i1 i2 /\ h = Z.of_nat i0 /\ (i0 < 8)%nat /\ is_free i0 s = false.
Proof.
  intros Hi Hh. destruct (vi_live _ _ Hi h Hh) as (b & r & i0 & Hr & Hhd & ->). destruct (vi_rq _ _ Hi b r Hr) as (j0 & j1 & j2 & Hok). rewrite (ro_idx _ _ _ _ _ _ Hok) in Hhd. injection Hhd as <-.
  pose proof (ro_busy _ _ _ _ _ _ Hok) as Hb. apply Forall_cons in Hb as [[? ?] _]. exists b, r, j0, j1, j2. done.
Qed.
Lemma live_len s R : vinv s R -> (length (live s) <= 8)%nat.
Proof. intros Hi. apply nodup_small; [apply Hi|]. intros h Hh. destruct (live_head _ _ _ Hi Hh) as (? & ? & i & ? & ? & ? & ? & ? & ? & ?). eauto. Qed.
Lemma live_len_free s R i : vinv s R -> (i < 8)%nat -> is_free i s = true -> (Z.of_nat i ∉ live s) /\ (length (live s) < 8)%nat.
Proof.
  intros Hi Hi8 Hf. assert (Hn : Z.of_nat i ∉ live s). { intros Hh. destruct (live_head _ _ _ Hi Hh) as (? & ? & i0 & ? & ? & ? & ? & E & ? & ?). apply Nat2Z.inj in E as ->. congruence. }
  split; [done|]. enough (length (Z.of_nat i :: live s) <= 8)%nat by (cbn in *; lia). apply nodup_small; [constructor; [done|apply Hi]|].
  intros h [->|Hh]%elem_of_cons; [eauto|]. destruct (live_head _ _ _ Hi Hh) as (? & ? & i0 & ? & ? & ? & ? & ? & ? & ?). eauto.
Qed.
Lemma num_div : (NUM | W16).
Proof. by exists (2 ^ 13). Qed.
Lemma live_window s R : vinv s R -> wlen W16 (dv_seen s) (v_avail_idx s) = Z.of_nat (length (avails s)) /\ wlen W16 (v_used_idx s) (v_used_dev s) = Z.of_nat (length (uses s)).
Proof. intros _. split; symmetry; by apply (window_length 0 W16 NUM). Qed.

Lemma vinv_init m : vinv (virtio_init m) ∅.
Proof.
  split; try done.
  - constructor.
  - intros h Hh. by apply elem_of_nil in Hh.
  - intros i Hi. do 8 (destruct i as [|i]; [done|]). lia.
Qed.

(** ** A new request *)

Section start.
Context s R (b : nat) (wr : bool) (i0 i1 i2 : nat) (Hi : vinv s R) (Hnd : NoDup [i0; i1; i2]) (Hfr : Forall (fun x => (x < 8)%nat /\ is_free x s = true) [i0; i1; i2]).
Let s' := started s b wr i0 i1 i2.

Lemma start_fresh x : x ∈ [i0; i1; i2] -> (x < 8)%nat /\ is_free x s = true.
Proof. rewrite Forall_forall in Hfr. apply Hfr. Qed.
Lemma start_desc x : x ∉ [i0; i1; i2] -> get_desc x s' = get_desc x s /\ is_free x s' = is_free x s.
Proof. intros Hx. rewrite !not_elem_of_cons in Hx. destruct Hx as (N0 & N1 & N2 & _). unfold get_desc, is_free. cbn. by rewrite !list_lookup_insert_ne by congruence. Qed.
Lemma start_busy x : is_free x s' = false -> (x < 8)%nat -> x ∈ [i0; i1; i2] \/ is_free x s = false.
Proof. intros Hx _. destruct (decide (x ∈ [i0; i1; i2])) as [|Hn]; [by left|right]. by rewrite <- (proj2 (start_desc x Hn)). Qed.
Lemma start_free x : x ∈ [i0; i1; i2] -> is_free x s' = false.
Proof.
  intros Hx. pose proof (sh_free _ (vi_shape _ _ Hi)) as Hl. destruct (start_fresh x Hx) as [Hx8 _]. unfold is_free. cbn.
  destruct (decide (x = i2)) as [->|]; [rewrite list_lookup_insert_eq by (rewrite !length_insert; lia); done|rewrite list_lookup_insert_ne by done].
  destruct (decide (x = i1)) as [->|]; [rewrite list_lookup_insert_eq by (rewrite !length_insert; lia); done|rewrite list_lookup_insert_ne by done].
  destruct (decide (x = i0)) as [->|]; [rewrite list_lookup_insert_eq by (rewrite ?length_insert; lia); done|]. rewrite !elem_of_cons in Hx. destruct Hx as [|[|[|Hx]]]; try done. by apply elem_of_nil in Hx.
Qed.
Lemma start_avails : avails s' = avails s ++ [Z.of_nat i0].
Proof.
  destruct (start_fresh i0 ltac:(left)) as [H8 Hf]. destruct (live_len_free _ _ _ Hi H8 Hf) as [_ Hlen]. unfold live in Hlen. rewrite length_app in Hlen. destruct (live_window _ _ Hi) as [Hw _].
  apply (window_push 0 W16 NUM); [done|done|apply num_div|by rewrite (sh_avail _ (vi_shape _ _ Hi))|]. change (wlen W16 (dv_seen s) (v_avail_idx s) < NUM). rewrite Hw. unfold NUM. lia.
Qed.
Lemma start_live : live s' ≡ₚ Z.of_nat i0 :: live s.
Proof. unfold live. rewrite start_avails. change (uses s') with (uses s). change (dv_pending s') with (dv_pending s). rewrite <- app_assoc. cbn. symmetry. apply Permutation_middle. Qed.
Lemma start_vbuf b' : get_vbuf b' s' = if decide (b' = b) then Vbuf (vb_blockno (get_vbuf b s)) (vb_data (get_vbuf b s)) 1 else get_vbuf b' s.
Proof. unfold get_vbuf. cbn. destruct (decide (b' = b)) as [->|]; [by rewrite lookup_insert_eq|by rewrite lookup_insert_ne by congruence]. Qed.
Lemma start_sector b' : sector_of (get_vbuf b' s') = sector_of (get_vbuf b' s).
Proof. rewrite start_vbuf. destruct (decide (b' = b)) as [->|]; done. Qed.
Lemma start_nfree : (nfree s' <= nfree s)%nat.
Proof.
  destruct (start_fresh i0 ltac:(left)) as [A0 B0]. destruct (start_fresh i1 ltac:(right; left)) as [A1 B1]. destruct (start_fresh i2 ltac:(right; right; left)) as [A2 B2].
  apply NoDup_cons in Hnd as [N0 Hnd']. apply NoDup_cons in Hnd' as [N1 _]. pose proof (sh_free _ (vi_shape _ _ Hi)) as Hl. rewrite !not_elem_of_cons in N0. rewrite !not_elem_of_cons in N1. destruct N0 as (N01 & N02 & _). destruct N1 as (N12 & _).
  rewrite (nfree_take i0 s B0). set (t0 := on_free <[i0 := false]> s). assert (F1 : is_free i1 t0 = true) by (unfold t0; rewrite is_free_insert by lia; by rewrite decide_False by congruence).
  rewrite (nfree_take i1 t0 F1). set (t1 := on_free <[i1 := false]> t0).
  assert (F2 : is_free i2 t1 = true) by (unfold t1, t0; rewrite is_free_insert by (cbn; rewrite length_insert; lia); rewrite decide_False by congruence; rewrite is_free_insert by lia; rewrite decide_False by congruence; done).
  rewrite (nfree_take i2 t1 F2). change (nfree s') with (nfree (on_free <[i2 := false]> t1)). lia.
Qed.

Lemma start_new : is_Some (v_bufs s !! b) -> rq_ok s' b (Rq [i0; i1; i2] wr (vb_data (get_vbuf b s))) i0 i1 i2.
Proof.
  intros _. pose proof (vi_shape _ _ Hi) as Hsh. destruct (start_fresh i0 ltac:(left)) as [A0 B0]. destruct (start_fresh i1 ltac:(right; left)) as [A1 _]. destruct (start_fresh i2 ltac:(right; right; left)) as [A2 _].
  pose proof Hnd as Hnd'. apply NoDup_cons in Hnd' as [N0 Hnd']. apply NoDup_cons in Hnd' as [N1 _]. rewrite !not_elem_of_cons in N0. rewrite !not_elem_of_cons in N1. destruct N0 as (N01 & N02 & _). destruct N1 as (N12 & _).
  pose proof (sh_desc _ Hsh). pose proof (sh_ops _ Hsh). pose proof (sh_info _ Hsh). split; cbn [rq_idx rq_write rq_data]; try done; rewrite ?start_vbuf, ?decide_True by done; try done.
  - apply Forall_forall. intros x Hx. split; [by apply start_fresh|by apply start_free].
  - unfold get_desc. cbn. rewrite !list_lookup_insert_ne by congruence. by rewrite list_lookup_insert_eq by lia.
  - unfold get_desc. cbn. rewrite list_lookup_insert_ne by congruence. by rewrite list_lookup_insert_eq by (rewrite length_insert; lia).
  - unfold get_desc. cbn. by rewrite list_lookup_insert_eq by (rewrite !length_insert; lia).
  - unfold get_op. cbn. by rewrite list_lookup_insert_eq by lia.
  - unfold get_info. cbn. by rewrite list_lookup_insert_eq by lia.
  - left. split; [done|]. split; [rewrite start_live; left|]. intros Hu. change (uses s') with (uses s) in Hu. exfalso. destruct (live_len_free _ _ _ Hi A0 B0) as [Hn _]. apply Hn. unfold live. rewrite !elem_of_app. auto.
Qed.

Lemma start_others b' r j0 j1 j2 : b' <> b -> rq_ok s b' r j0 j1 j2 -> rq_ok s' b' r j0 j1 j2.
Proof.
  intros Hb Hok. pose proof (ro_busy _ _ _ _ _ _ Hok) as Hbusy. rewrite Forall_forall in Hbusy.
  assert (Hx : forall x, x ∈ [j0; j1; j2] -> x ∉ [i0; i1; i2]) by (intros x Hx Hx'; destruct (Hbusy x Hx); destruct (start_fresh x Hx'); congruence).
  assert (N0 : j0 <> i0) by (intros ->; by apply (Hx i0 ltac:(left)); left).
  eapply rq_frame; [exact Hok|..].
  - intros x Hx'. apply start_desc. auto.
  - unfold get_op. cbn. by rewrite list_lookup_insert_ne by congruence.
  - unfold get_info. cbn. by rewrite list_lookup_insert_ne by congruence.
  - rewrite start_vbuf. by rewrite decide_False.
  - rewrite start_live, elem_of_cons. split; [|by right]. intros [E|]; [|done]. apply Nat2Z.inj in E. done.
  - done.
  - done.
Qed.

Lemma vinv_start : R !! b = None -> is_Some (v_bufs s !! b) -> (forall b' r, R !! b' = Some r -> sector_of (get_vbuf b' s) <> sector_of (get_vbuf b s)) ->
  vinv s' (<[b := Rq [i0; i1; i2] wr (vb_data (get_vbuf b s))]> R).
Proof.
  intros HR Hsome Hsec. set (r0 := Rq [i0; i1; i2] wr (vb_data (get_vbuf b s))).
  assert (Hcase : forall b' r, <[b := r0]> R !! b' = Some r -> (b' = b /\ r = r0) \/ (b' <> b /\ R !! b' = Some r)) by (intros b' r; rewrite lookup_insert_Some; naive_solver).
  assert (Hdis : forall b' r, R !! b' = Some r -> rq_idx r ## [i0; i1; i2]).
  { intros b' r Hr x Hx Hx'. destruct (vi_rq _ _ Hi b' r Hr) as (j0 & j1 & j2 & Hok). rewrite (ro_idx _ _ _ _ _ _ Hok) in Hx. pose proof (ro_busy _ _ _ _ _ _ Hok) as Hbusy. rewrite Forall_forall in Hbusy.
    destruct (Hbusy x Hx). destruct (start_fresh x Hx'). congruence. }
  split.
  - destruct (vi_shape _ _ Hi) as [H1 H2 H3 H4 H5 H6 H7 H8]. split; cbn; rewrite ?length_insert; try done. split; [apply Z.mod_pos_bound; lia|]. apply H8.
  - rewrite start_live. constructor; [|apply Hi]. destruct (start_fresh i0 ltac:(left)) as [A B]. apply (live_len_free _ _ _ Hi A B).
  - intros h. rewrite start_live. intros [->|Hh]%elem_of_cons; [exists b, r0, i0; by rewrite lookup_insert_eq|]. destruct (vi_live _ _ Hi h Hh) as (b' & r & j & Hr & Hj & ->). exists b', r, j. split; [|done]. rewrite lookup_insert_ne; [done|]. intros ->. congruence.
  - intros b' r [[-> ->]|[Hne Hr]]%Hcase; [exists i0, i1, i2; by apply start_new|]. destruct (vi_rq _ _ Hi b' r Hr) as (j0 & j1 & j2 & Hok). exists j0, j1, j2. by apply start_others.
  - intros b1 b2 r1 r2 H1%Hcase H2%Hcase Hne. rewrite !start_sector. destruct H1 as [[-> ->]|[N1 R1]], H2 as [[-> ->]|[N2 R2]]; try done.
    + split; [intros x Hx1 Hx2; by apply (Hdis b2 r2 R2 x)|]. intros E. by apply (Hsec b2 r2 R2).
    + split; [by apply (Hdis b1)|]. by apply (Hsec b1 r1 R1).
    + by apply (vi_disj _ _ Hi).
  - intros i H8 Hf. destruct (start_busy i Hf H8) as [Hin|Hb]; [exists b, r0; by rewrite lookup_insert_eq|]. destruct (vi_owned _ _ Hi i H8 Hb) as (b' & r & Hr & Hin). exists b', r. split; [|done]. rewrite lookup_insert_ne; [done|]. intros ->. congruence.
  - intros b' Hb'. change (v_sleep_buf s') with (v_sleep_buf s) in Hb'. destruct (vi_sleep_buf _ _ Hi b' Hb') as [H1 H2]. rewrite start_vbuf. destruct (decide (b' = b)) as [->|]; [split; [done|]; rewrite lookup_insert_eq; by eexists|]. by rewrite lookup_insert_ne by congruence.
  - change (v_sleep_free s') with (v_sleep_free s). intros Hs. pose proof (vi_sleep_free _ _ Hi Hs). pose proof start_nfree. lia.
Qed.
End start.

(** ** Waiting *)

Lemma vinv_start_wait s R D : vinv s R -> (nfree s < 3)%nat -> length D = 8%nat -> (forall i, is_free i s = false -> D !! i = v_desc s !! i) -> vinv (set_sleep_free true (on_desc (fun _ => D) s)) R.
Proof.
  intros Hi Hn Hl HD. destruct (Hi) as [H1 H2 H3 H4 H5 H6 H7 H8]. split; try done.
  - destruct H1. by split.
  - intros b r Hr. destruct (H4 b r Hr) as (j0 & j1 & j2 & Hok). exists j0, j1, j2. pose proof (ro_busy _ _ _ _ _ _ Hok) as Hbusy. rewrite Forall_forall in Hbusy.
    eapply rq_frame; [exact Hok|..]; try done. intros x Hx. split; [|done]. unfold get_desc. cbn. by rewrite HD by (by apply Hbusy).
Qed.
Lemma vinv_finish_wait s R b r : vinv s R -> R !! b = Some r -> vb_disk (get_vbuf b s) = 1 -> vinv (on_sleep_buf (fun x => {[b]} ∪ x) s) R.
Proof.
  intros Hi Hr Hd. destruct (Hi) as [H1 H2 H3 H4 H5 H6 H7 H8]. split; try done.
  - destruct H1. by split.
  - intros b' r' Hr'. destruct (H4 b' r' Hr') as (j0 & j1 & j2 & Hok). exists j0, j1, j2. by eapply rq_frame; [exact Hok|..].
  - intros b' Hb'. cbn in Hb'. apply elem_of_union in Hb' as [->%elem_of_singleton|Hb']; [split; [done|by eexists]|by apply H7].
Qed.
Lemma vinv_owner s R b x : vinv s R -> R !! b = None -> vb_disk x = 0 -> vinv (on_bufs <[b := x]> s) R.
Proof.
  intros Hi Hr Hd. destruct (Hi) as [H1 H2 H3 H4 H5 H6 H7 H8].
  assert (Hv : forall b', is_Some (R !! b') -> get_vbuf b' (on_bufs <[b := x]> s) = get_vbuf b' s) by (intros b' [r Hr']; unfold get_vbuf; cbn; rewrite lookup_insert_ne; [done|congruence]).
  split; try done.
  - destruct H1. by split.
  - intros b' r' Hr'. destruct (H4 b' r' Hr') as (j0 & j1 & j2 & Hok). exists j0, j1, j2. by eapply rq_frame; [exact Hok|..]; try done; apply Hv; eexists.
  - intros b1 b2 r1 r2 R1 R2 Hne. rewrite !Hv by (by eexists). by apply H5.
  - intros b' Hb'. destruct (H7 b' Hb') as [K1 K2]. by rewrite Hv.
Qed.

(** ** A finished request *)

Lemma vinv_finish s R b r i0 i1 i2 : vinv s R -> R !! b = Some r -> rq_ok s b r i0 i1 i2 -> vb_disk (get_vbuf b s) <> 1 -> vinv (finished s b i0 i1 i2) (delete b R).
Proof.
  intros Hi Hr Hok Hd. destruct (Hi) as [H1 H2 H3 H4 H5 H6 H7 H8]. set (s' := finished s b i0 i1 i2). pose proof (ro_idx _ _ _ _ _ _ Hok) as Eidx.
  assert (Hdesc : forall x, x ∉ [i0; i1; i2] -> get_desc x s' = get_desc x s /\ is_free x s' = is_free x s).
  { intros x Hx. rewrite !not_elem_of_cons in Hx. destruct Hx as (N0 & N1 & N2 & _). unfold get_desc, is_free. cbn. by rewrite !list_lookup_insert_ne by congruence. }
  split; try done.
  - destruct H1. split; cbn; rewrite ?length_insert; done.
  - intros h Hh. destruct (H3 h Hh) as (b' & r' & j & Hr' & Hj & ->). exists b', r', j. split; [|done]. rewrite lookup_delete_ne; [done|]. intros ->.
    assert (r' = r) as -> by congruence. rewrite Eidx in Hj. injection Hj as <-. destruct (ro_phase _ _ _ _ _ _ Hok) as [(? & _)|(_ & Hn & _)]; [done|]. by apply Hn.
  - intros b' r' [Hne Hr']%lookup_delete_Some. destruct (H4 b' r' Hr') as (j0 & j1 & j2 & Hok'). exists j0, j1, j2. pose proof (proj1 (H5 b' b r' r Hr' Hr ltac:(done))) as Hdis.
    rewrite (ro_idx _ _ _ _ _ _ Hok'), Eidx in Hdis. assert (Hx : forall x, x ∈ [j0; j1; j2] -> x ∉ [i0; i1; i2]) by (intros x Hx Hx'; by apply (Hdis x)).
    eapply rq_frame; [exact Hok'|..]; try done; [intros x Hx'; apply Hdesc; auto|]. unfold get_info. cbn. rewrite list_lookup_insert_ne; [done|]. intros <-. apply (Hx i0); left.
  - intros b1 b2 r1 r2 [_ R1]%lookup_delete_Some [_ R2]%lookup_delete_Some Hne. by apply (H5 b1 b2 r1 r2).
  - intros i Hi8 Hf. assert (Hn : i ∉ [i0; i1; i2]).
    { intros Hin. pose proof (sh_free _ H1) as Hl. unfold is_free in Hf. cbn in Hf. rewrite !elem_of_cons in Hin.
      destruct (decide (i = i2)) as [->|]; [by rewrite list_lookup_insert_eq in Hf by (rewrite !length_insert; lia)|rewrite list_lookup_insert_ne in Hf by done].
      destruct (decide (i = i1)) as [->|]; [by rewrite list_lookup_insert_eq in Hf by (rewrite !length_insert; lia)|rewrite list_lookup_insert_ne in Hf by done].
      destruct (decide (i = i0)) as [->|]; [by rewrite list_lookup_insert_eq in Hf by lia|]. destruct Hin as [|[|[|Hin]]]; try done. by apply elem_of_nil in Hin. }
    rewrite (proj2 (Hdesc i Hn)) in Hf. destruct (H6 i Hi8 Hf) as (b' & r' & Hr' & Hin). exists b', r'. split; [|done]. rewrite lookup_delete_ne; [done|]. intros ->. assert (r' = r) as -> by congruence. by rewrite Eidx in Hin.
  - intros b' Hb'. destruct (H7 b' Hb') as [K1 K2]. split; [done|]. rewrite lookup_delete_ne; [done|]. intros ->. done.
Qed.

(** ** The interrupt handler *)

(** One completion noticed. *)
Definition noticed s (b : nat) : vd :=
  Vd (v_lock s) (v_desc s) (v_avail s) (v_avail_idx s) (v_used s) (v_used_dev s) (v_free s) (u16 (v_used_idx s + 1)) (v_info s) (v_ops s)
    (<[b := Vbuf (vb_blockno (get_vbuf b s)) (vb_data (get_vbuf b s)) 0]> (v_bufs s)) (v_sleep_free s) (v_sleep_buf s ∖ {[b]}) (dv_seen s) (dv_pending s) (dv_disk s).

Lemma vinv_noticed s R : vinv s R -> v_used_idx s <> v_used_dev s -> let h := slot 0 NUM (v_used s) (v_used_idx s) in
  exists b, in_status (get_info (Z.to_nat h) s) = 0 /\ in_b (get_info (Z.to_nat h) s) = Some b /\ vinv (noticed s b) R /\ uses s = h :: uses (noticed s b).
Proof.
  intros Hi Hne h. destruct (Hi) as [H1 H2 H3 H4 H5 H6 H7 H8]. destruct (sh_idx _ H1) as (X1 & X2 & X3 & X4).
  assert (Hw : 0 < wlen W16 (v_used_idx s) (v_used_dev s)). { pose proof (wlen_range W16 NUM ltac:(done) ltac:(done) (v_used_idx s) (v_used_dev s)) as Hr. pose proof (wlen_0 W16 NUM ltac:(done) ltac:(done) (v_used_idx s) (v_used_dev s) X3 X2) as Hz. destruct (decide (wlen W16 (v_used_idx s) (v_used_dev s) = 0)); [naive_solver|lia]. }
  assert (Hu : forall b, uses s = h :: uses (noticed s b)) by (intros b; apply (window_pop 0 W16 NUM); [done|done|apply num_div|done]).
  assert (Hhu : h ∈ uses s) by (rewrite (Hu 0%nat); left). assert (Hhl : h ∈ live s) by (unfold live; rewrite !elem_of_app; auto).
  destruct (live_head _ _ _ Hi Hhl) as (b & r & i0 & i1 & i2 & Hr & Hok & Eh & Hi8 & Hbusy). rewrite Eh, Nat2Z.id. exists b. set (s' := noticed s b).
  destruct (ro_phase _ _ _ _ _ _ Hok) as [(P1 & P2 & P3)|(_ & P2 & _)]; [|by rewrite <- Eh in P2]. destruct (P3 ltac:(by rewrite <- Eh)) as [Q1 Q2].
  assert (Hlive : live s ≡ₚ h :: live s') by (unfold live; rewrite (Hu b); change (avails s') with (avails s); change (dv_pending s') with (dv_pending s); rewrite !app_assoc; symmetry; apply Permutation_middle).
  assert (Hnl : h ∉ live s') by (rewrite Hlive in H2; by apply NoDup_cons in H2 as [? _]).
  assert (Hv : forall b', get_vbuf b' s' = if decide (b' = b) then Vbuf (vb_blockno (get_vbuf b s)) (vb_data (get_vbuf b s)) 0 else get_vbuf b' s).
  { intros b'. unfold get_vbuf. cbn. destruct (decide (b' = b)) as [->|]; [by rewrite lookup_insert_eq|by rewrite lookup_insert_ne by congruence]. }
  assert (Hsec : forall b', sector_of (get_vbuf b' s') = sector_of (get_vbuf b' s)) by (intros b'; rewrite Hv; by destruct (decide (b' = b)) as [->|]).
  split; [done|]. split; [apply Hok|]. split; [|rewrite <- Eh; apply Hu]. split; try done.
  - destruct H1. split; try done. cbn. split_and!; try apply X1; try apply X2; try apply X4; apply Z.mod_pos_bound; lia.
  - rewrite Hlive in H2. by apply NoDup_cons in H2 as [_ ?].
  - intros h' Hh'. apply H3. rewrite Hlive. by right.
  - intros b' r' Hr'. destruct (decide (b' = b)) as [->|Hb].
    + assert (r' = r) as -> by congruence. exists i0, i1, i2. destruct Hok. split; rewrite ?Hv, ?decide_True by done; try done. right. split; [done|]. split; [by rewrite <- Eh|]. split; [done|]. rewrite Hv, decide_True by done. done.
    + destruct (H4 b' r' Hr') as (j0 & j1 & j2 & Hok'). exists j0, j1, j2. eapply rq_frame; [exact Hok'|..]; try done.
      * rewrite Hv. by rewrite decide_False.
      * rewrite Hlive, elem_of_cons. split; [by right|]. intros [E|]; [|done]. exfalso. rewrite Eh in E. apply Nat2Z.inj in E as ->. destruct (H5 b' b r' r Hr' Hr Hb) as [Hdis _]. rewrite (ro_idx _ _ _ _ _ _ Hok), (ro_idx _ _ _ _ _ _ Hok') in Hdis. by apply (Hdis i0); left.
      * rewrite (Hu b). by right.
  - intros b1 b2 r1 r2 R1 R2 Hne'. rewrite !Hsec. by apply (H5 b1 b2 r1 r2).
  - intros b' Hb'. cbn in Hb'. apply elem_of_difference in Hb' as [Hb' Hn]. rewrite not_elem_of_singleton in Hn. destruct (H7 b' Hb') as [K1 K2]. rewrite Hv, decide_False by done. done.
Qed.

Lemma vinv_lock s R : vinv (set_vlock Free s) R -> v_lock s = Free -> vinv s R.
Proof. intros H E. replace s with (set_vlock Free s); [done|]. by apply vd_ext. Qed.

Lemma intr_loop_ok fuel s R : vinv (set_vlock Free s) R -> (length (uses s) <= fuel)%nat ->
  wp (intr_loop fuel) (fun _ s' => vinv (set_vlock Free s') R /\ v_lock s' = v_lock s /\ uses s' = [] /\ avails s' = avails s /\ dv_pending s' = dv_pending s) s.
Proof.
  revert s. induction fuel as [|fuel IH]; intros s Hi Hf; cbn [intr_loop]; wp_simp; change (id s) with s.
  - destruct (Z.eqb_spec (v_used_idx s) (v_used_dev s)) as [E|E].
    + wp_simp. split_and!; try done. by destruct (uses s); [|cbn in Hf; lia].
    + destruct (vinv_noticed _ _ Hi E) as (b & _ & _ & _ & Hu). change (uses (set_vlock Free s)) with (uses s) in Hu. rewrite Hu in Hf. cbn in Hf. lia.
  - destruct (Z.eqb_spec (v_used_idx s) (v_used_dev s)) as [E|E].
    + wp_simp. split_and!; try done. unfold uses. apply window_nil. apply (wlen_0 W16 NUM); [done|done|apply (sh_idx _ (vi_shape _ _ Hi))|apply (sh_idx _ (vi_shape _ _ Hi))|done].
    + destruct (vinv_noticed _ _ Hi E) as (b & H1 & H2 & H3 & Hu). change (uses (set_vlock Free s)) with (uses s) in Hu. change (slot 0 NUM (v_used (set_vlock Free s)) (v_used_idx (set_vlock Free s))) with (slot 0 NUM (v_used s) (v_used_idx s)) in *.
      change (get_info ?i (set_vlock Free s)) with (get_info i s) in *. rewrite H1. change (negb (0 =? 0)) with false. cbv iota. rewrite H2. unfold set_bdisk, wakeup_buf. wp_simp.
      set (s1 := set_used_idx _ _). assert (E1 : s1 = noticed s b) by (by apply vd_ext). clearbody s1. subst s1. eapply wp_mono; [apply IH|].
      * exact H3.
      * change (uses (noticed (set_vlock Free s) b)) with (uses (noticed s b)) in Hu. rewrite Hu in Hf. cbn in Hf. lia.
      * by intros [] s2 K.
Qed.
Lemma virtio_disk_intr_ok s R : vinv s R -> wp virtio_disk_intr (fun _ s' => vinv s' R /\ uses s' = [] /\ avails s' = avails s /\ dv_pending s' = dv_pending s) s.
Proof.
  intros Hi. unfold virtio_disk_intr. rewrite wp_bind. apply wp_lock_acquire; [apply Hi|]. rewrite wp_bind. pose proof (live_len _ _ Hi) as Hl. unfold live in Hl. rewrite !length_app in Hl.
  eapply wp_mono; [apply (intr_loop_ok _ _ R)|].
  - replace (set_vlock Free (set_vlock Mine s)) with s; [done|]. apply vd_ext; try done. apply Hi.
  - change (uses (set_vlock Mine s)) with (uses s). change (Z.to_nat NUM) with 8%nat. lia.
  - intros [] s' (K1 & K2 & K3). unfold vrelease. by apply wp_lock_release.
Qed.

(** ** The device *)

Lemma rq_request s b r i0 i1 i2 : rq_ok s b r i0 i1 i2 -> request (Z.of_nat i0) s = Some (op_of (rq_write r) (get_vbuf b s), b, i0).
Proof.
  intros [_ _ _ D0 D1 D2 Ho _ _ _]. unfold request. rewrite Nat2Z.id, D0. cbn [d_next d_addr d_flags]. rewrite Nat2Z.id, D1. cbn [d_next d_addr d_flags d_len]. rewrite Nat2Z.id, D2. cbn [d_addr d_flags]. rewrite Ho.
  by destruct (rq_write r).
Qed.

Lemma vinv_fetch s s' R : vinv s R -> dev_fetch s s' -> vinv s' R.
Proof.
  intros Hi [Hne ->]. destruct (Hi) as [H1 H2 H3 H4 H5 H6 H7 H8]. destruct (sh_idx _ H1) as (X1 & X2 & X3 & X4). set (h := slot 0 NUM (v_avail s) (dv_seen s)). set (s' := set_dev _ _ s).
  assert (Hw : 0 < wlen W16 (dv_seen s) (v_avail_idx s)). { pose proof (wlen_range W16 NUM ltac:(done) ltac:(done) (dv_seen s) (v_avail_idx s)) as Hr. pose proof (wlen_0 W16 NUM ltac:(done) ltac:(done) (dv_seen s) (v_avail_idx s) X4 X1) as Hz. destruct (decide (wlen W16 (dv_seen s) (v_avail_idx s) = 0)); [naive_solver|lia]. }
  assert (Ha : avails s = h :: avails s') by (apply (window_pop 0 W16 NUM); [done|done|apply num_div|done]).
  assert (Hlive : live s' ≡ₚ live s). { unfold live. rewrite Ha. change (dv_pending s') with (dv_pending s ++ [h]). change (uses s') with (uses s). rewrite <- !app_assoc. cbn. rewrite !app_assoc. symmetry. apply Permutation_middle. }
  split; try done.
  - destruct H1. split; try done. cbn. split_and!; try apply X1; try apply X2; try apply X3; apply Z.mod_pos_bound; lia.
  - by rewrite Hlive.
  - intros x. rewrite Hlive. apply H3.
  - intros b r Hr. destruct (H4 b r Hr) as (j0 & j1 & j2 & Hok). exists j0, j1, j2. eapply rq_frame; [exact Hok|..]; try done. by rewrite Hlive.
Qed.

(** The state after the request of buffer [b] has been carried out. *)
Definition completed s (b : nat) (wr : bool) (i0 : nat) (pend : list Z) : vd :=
  Vd (v_lock s) (v_desc s) (v_avail s) (v_avail_idx s) (<[Z.to_nat (v_used_dev s mod NUM) := Z.of_nat i0]> (v_used s)) (u16 (v_used_dev s + 1)) (v_free s) (v_used_idx s)
    (<[i0 := Info (in_b (get_info i0 s)) 0]> (v_info s)) (v_ops s)
    (if wr then v_bufs s else <[b := Vbuf (vb_blockno (get_vbuf b s)) (dblk (dv_disk s) (sector_of (get_vbuf b s))) (vb_disk (get_vbuf b s))]> (v_bufs s))
    (v_sleep_free s) (v_sleep_buf s) (dv_seen s) pend (if wr then <[sector_of (get_vbuf b s) := vb_data (get_vbuf b s)]> (dv_disk s) else dv_disk s).

Lemma transfer_completed s b wr i0 pend : transfer (op_of wr (get_vbuf b s)) b i0 (Z.of_nat i0) (set_dev (dv_seen s) pend s) = completed s b wr i0 pend.
Proof. by destruct wr; apply vd_ext. Qed.

Section complete.
Context s R b r i0 i1 i2 l1 l2 (Hi : vinv s R) (Hr : R !! b = Some r) (Hok : rq_ok s b r i0 i1 i2) (Hp : dv_pending s = l1 ++ Z.of_nat i0 :: l2).
Let s' := completed s b (rq_write r) i0 (l1 ++ l2).

Lemma comp_uses : uses s' = uses s ++ [Z.of_nat i0].
Proof.
  pose proof (live_len _ _ Hi) as Hl. unfold live in Hl. rewrite !length_app, Hp, !length_app in Hl. cbn in Hl. destruct (live_window _ _ Hi) as [_ Hw].
  apply (window_push 0 W16 NUM); [done|done|apply num_div|by rewrite (sh_used _ (vi_shape _ _ Hi))|]. change (wlen W16 (v_used_idx s) (v_used_dev s) < NUM). rewrite Hw. unfold NUM. lia.
Qed.
Lemma comp_live : live s' ≡ₚ live s.
Proof.
  unfold live. rewrite comp_uses, Hp. change (avails s') with (avails s). change (dv_pending s') with (l1 ++ l2). apply Permutation_app_head. rewrite <- !app_assoc. apply Permutation_app_head. cbn. rewrite (app_assoc l2). rewrite <- Permutation_cons_append. done.
Qed.
Lemma comp_vbuf b' : get_vbuf b' s' = if decide (b' = b /\ rq_write r = false) then Vbuf (vb_blockno (get_vbuf b s)) (dblk (dv_disk s) (sector_of (get_vbuf b s))) (vb_disk (get_vbuf b s)) else get_vbuf b' s.
Proof.
  unfold get_vbuf. cbn. destruct (rq_write r); [by rewrite decide_False by naive_solver|]. destruct (decide (b' = b)) as [->|Hne]; [rewrite decide_True by done; by rewrite lookup_insert_eq|rewrite decide_False by naive_solver; by rewrite lookup_insert_ne by congruence].
Qed.
Lemma comp_fields b' : vb_blockno (get_vbuf b' s') = vb_blockno (get_vbuf b' s) /\ vb_disk (get_vbuf b' s') = vb_disk (get_vbuf b' s).
Proof. rewrite comp_vbuf. destruct (decide _) as [[-> _]|]; done. Qed.
Lemma comp_sector b' : sector_of (get_vbuf b' s') = sector_of (get_vbuf b' s).
Proof. unfold sector_of. by rewrite (proj1 (comp_fields b')). Qed.
Lemma comp_self : settled s' b i0.
Proof.
  pose proof (ro_busy _ _ _ _ _ _ Hok) as Hb. apply Forall_cons in Hb as [[H8 _] _]. pose proof (sh_info _ (vi_shape _ _ Hi)) as Hl. split; [unfold get_info; cbn; by rewrite list_lookup_insert_eq by lia|].
  rewrite comp_sector, comp_vbuf. unfold s'. cbn [dv_disk completed]. unfold dblk. destruct (rq_write r); [rewrite decide_False by naive_solver; by rewrite lookup_insert_eq|by rewrite decide_True].
Qed.

Lemma comp_own : rq_ok s' b r i0 i1 i2.
Proof.
  pose proof comp_self as Hself. pose proof (ro_busy _ _ _ _ _ _ Hok) as Hb. apply Forall_cons in Hb as [[H8 _] _]. pose proof (sh_info _ (vi_shape _ _ Hi)) as Hl.
  destruct (Hok) as [A1 A2 A3 A4 A5 A6 A7 A8 A9 A10]. split; try done.
  - change (get_op i0 s' = op_of (rq_write r) (get_vbuf b s')). change (get_op i0 s') with (get_op i0 s). rewrite A7. unfold op_of. by rewrite comp_sector.
  - unfold get_info. cbn. rewrite list_lookup_insert_eq by lia. done.
  - intros Hw. rewrite comp_vbuf, decide_False by (intros [_ ?]; congruence). auto.
  - rewrite (proj2 (comp_fields b)). left. destruct A10 as [(P1 & P2 & _)|(_ & P2 & _)]; [split; [done|]; split; [by rewrite comp_live|done]|]. exfalso. apply P2. unfold live. rewrite Hp, !elem_of_app. right. left. right. left.
Qed.
Lemma comp_others b' r' j0 j1 j2 : R !! b' = Some r' -> b' <> b -> rq_ok s b' r' j0 j1 j2 -> rq_ok s' b' r' j0 j1 j2.
Proof.
  intros Hr' Hb Hok'. destruct (vi_disj _ _ Hi b' b r' r Hr' Hr Hb) as [Hdis Hsec]. rewrite (ro_idx _ _ _ _ _ _ Hok), (ro_idx _ _ _ _ _ _ Hok') in Hdis.
  assert (N0 : j0 <> i0) by (intros ->; by apply (Hdis i0); left). eapply rq_frame; [exact Hok'|..]; try done.
  - unfold get_info. cbn. by rewrite list_lookup_insert_ne by congruence.
  - rewrite comp_vbuf. by rewrite decide_False by naive_solver.
  - by rewrite comp_live.
  - rewrite comp_uses, elem_of_app, list_elem_of_singleton. intros [|E]; [done|]. by apply Nat2Z.inj in E.
  - unfold s'. cbn [dv_disk completed]. unfold dblk. destruct (rq_write r); [|done]. by rewrite lookup_insert_ne by congruence.
Qed.
Lemma vinv_completed : vinv s' R.
Proof.
  destruct (Hi) as [H1 H2 H3 H4 H5 H6 H7 H8]. split; try done.
  - destruct H1 as [? ? ? ? ? ? ? X]. split; cbn; rewrite ?length_insert; try done. split_and!; try apply X; apply Z.mod_pos_bound; lia.
  - by rewrite comp_live.
  - intros x. rewrite comp_live. apply H3.
  - intros b' r' Hr'. destruct (decide (b' = b)) as [->|Hb]; [assert (r' = r) as -> by congruence; exists i0, i1, i2; apply comp_own|]. destruct (H4 b' r' Hr') as (j0 & j1 & j2 & Hok'). exists j0, j1, j2. by apply comp_others.
  - intros b1 b2 r1 r2 R1 R2 Hne. rewrite !comp_sector. by apply (H5 b1 b2 r1 r2).
  - intros b' Hb'. rewrite (proj2 (comp_fields b')). by apply H7.
Qed.
End complete.

Lemma pending_wf s R : vinv s R -> Forall (fun h => is_Some (request h s)) (dv_pending s).
Proof.
  intros Hi. apply Forall_forall. intros h Hh. destruct (live_head _ _ h Hi) as (b & r & i0 & i1 & i2 & Hr & Hok & -> & _); [unfold live; rewrite !elem_of_app; auto|]. rewrite (rq_request _ _ _ _ _ _ Hok). by eexists.
Qed.

Section system.
Context `{VirtioDev}.

Lemma vinv_dev s s' R : vinv s R -> dev_step s s' -> vinv s' R.
Proof.
  intros Hi Hd. destruct (dev_ok _ _ (pending_wf _ _ Hi) Hd) as [Hf|(h & l1 & l2 & op & b & k & Hp & Hq & ->)]; [by eapply vinv_fetch|].
  destruct (live_head _ _ h Hi) as (b' & r & i0 & i1 & i2 & Hr & Hok & -> & _); [unfold live; rewrite Hp, !elem_of_app; right; left; right; left|]. rewrite (rq_request _ _ _ _ _ _ Hok) in Hq. injection Hq as <- <- <-.
  rewrite transfer_completed. by eapply vinv_completed.
Qed.

Lemma vinv_step x y : vstep x y -> vinv x.1 x.2 -> vinv y.1 y.2.
Proof.
  intros Hs. destruct Hs as [s R b wr s' i0 i1 i2 HR Hb Hsec Hrun Hd0 Hd1|s R b wr s' HR Hrun|s R b r i0 s' HR Hhd Hrun|s R b r i0 s' HR Hhd Hrun|s R s' Hrun|s R s' Hd|s R b x HR Hx]; cbn; intros Hi.
  - pose proof (disk_start_spec b wr s (vi_shape _ _ Hi)) as W. unfold wp in W. rewrite Hrun in W. destruct W as (j1 & j2 & Hnd & Hfr & ->). rewrite Forall_forall in Hfr. pose proof (start_new s R b wr i0 j1 j2 Hi Hnd ltac:(by apply Forall_forall) Hb) as Hnew.
    destruct Hnew as [_ _ _ E0 E1 _ _ _ _ _]. rewrite Hd0 in E0. injection E0 as E0. apply Nat2Z.inj in E0 as ->. rewrite E1 in Hd1. cbn in Hd1. apply Nat2Z.inj in Hd1 as ->. apply vinv_start; try done. by apply Forall_forall.
  - pose proof (disk_start_spec b wr s (vi_shape _ _ Hi)) as W. unfold wp in W. rewrite Hrun in W. destruct W as (Hn & D & -> & Hl & HD). by apply vinv_start_wait.
  - destruct (vi_rq _ _ Hi b r HR) as (j0 & j1 & j2 & Hok). rewrite (ro_idx _ _ _ _ _ _ Hok) in Hhd. injection Hhd as <-.
    pose proof (disk_finish_spec s b j0 j1 j2 (DATA_FLAGS (rq_write r)) (POp j0) (PData b) (vi_shape _ _ Hi) (ro_nodup _ _ _ _ _ _ Hok) (ro_busy _ _ _ _ _ _ Hok) (ro_d0 _ _ _ _ _ _ Hok) (ro_d1 _ _ _ _ _ _ Hok) ltac:(by destruct (rq_write r)) ltac:(by rewrite (ro_d2 _ _ _ _ _ _ Hok))) as W.
    unfold wp in W. rewrite Hrun in W. destruct W as [Hd ->]. by eapply vinv_finish.
  - destruct (vi_rq _ _ Hi b r HR) as (j0 & j1 & j2 & Hok). rewrite (ro_idx _ _ _ _ _ _ Hok) in Hhd. injection Hhd as <-.
    pose proof (disk_finish_spec s b j0 j1 j2 (DATA_FLAGS (rq_write r)) (POp j0) (PData b) (vi_shape _ _ Hi) (ro_nodup _ _ _ _ _ _ Hok) (ro_busy _ _ _ _ _ _ Hok) (ro_d0 _ _ _ _ _ _ Hok) (ro_d1 _ _ _ _ _ _ Hok) ltac:(by destruct (rq_write r)) ltac:(by rewrite (ro_d2 _ _ _ _ _ _ Hok))) as W.
    unfold wp in W. rewrite Hrun in W. destruct W as [Hd ->]. by eapply vinv_finish_wait.
  - pose proof (virtio_disk_intr_ok s R Hi) as W. unfold wp in W. rewrite Hrun in W. apply W.
  - by eapply vinv_dev.
  - by apply vinv_owner.
Qed.

Definition reachable m s R : Prop := rtc vstep (virtio_init m, ∅) (s, R).
Lemma reach_vinv m s R : reachable m s R -> vinv s R.
Proof.
  intros Hr. assert (Hg : forall x y, rtc vstep x y -> vinv x.1 x.2 -> vinv y.1 y.2) by (induction 1; eauto using vinv_step). apply (Hg _ _ Hr). apply vinv_init.
Qed.

Lemma quiet_done s R : vinv s R -> live s = [] -> (forall b r, R !! b = Some r -> vb_disk (get_vbuf b s) = 0) /\ v_sleep_buf s = ∅.
Proof.
  intros Hi Hl. assert (Hd : forall b r, R !! b = Some r -> vb_disk (get_vbuf b s) = 0).
  { intros b r Hr. destruct (vi_rq _ _ Hi b r Hr) as (i0 & i1 & i2 & Hok). destruct (ro_phase _ _ _ _ _ _ Hok) as [(_ & Hin & _)|(H0 & _)]; [|done]. rewrite Hl in Hin. by apply not_elem_of_nil in Hin. }
  split; [done|]. apply set_eq. intros b. split; [|set_solver]. intros Hb. destruct (vi_sleep_buf _ _ Hi b Hb) as [H1 [r Hr]]. rewrite (Hd b r Hr) in H1. done.
Qed.

Lemma free_after s b i0 i1 i2 i : shape s -> Forall (fun x => (x < 8)%nat /\ is_free x s = false) [i0; i1; i2] -> i ∈ [i0; i1; i2] -> is_free i (finished s b i0 i1 i2) = true.
Proof.
  intros Hs Hf Hi. pose proof (sh_free _ Hs) as Hl. apply Forall_cons in Hf as [[A0 _] Hf]. apply Forall_cons in Hf as [[A1 _] Hf]. apply Forall_cons in Hf as [[A2 _] _]. unfold is_free. cbn.
  destruct (decide (i = i2)) as [->|]; [by rewrite list_lookup_insert_eq by (rewrite !length_insert; lia)|]. rewrite list_lookup_insert_ne by congruence.
  destruct (decide (i = i1)) as [->|]; [by rewrite list_lookup_insert_eq by (rewrite !length_insert; lia)|]. rewrite list_lookup_insert_ne by congruence.
  rewrite !elem_of_cons in Hi. destruct Hi as [->|[|[|Hi]]]; [by rewrite list_lookup_insert_eq by lia|done|done|by apply not_elem_of_nil in Hi].
Qed.

(** C18: in every state that callers, the interrupt handler, the owners of
    buffers and the device can reach, the second half of virtio_disk_rw()
    terminates without panic.  When it returns, the buffer holds what the disk
    holds at its sector, a write has put there the data the buffer had when
    the request was made, and the three descriptors of the request are free
    again; otherwise the request is still in flight and the caller sleeps on
    the buffer. *)
Theorem virtio_disk_rw_correct m s R b r i0 : reachable m s R -> R !! b = Some r -> head (rq_idx r) = Some i0 ->
  wp (disk_finish b i0) (fun fin s' =>
    if fin then vb_data (get_vbuf b s') = dblk (dv_disk s') (sector_of (get_vbuf b s')) /\ (rq_write r = true -> dblk (dv_disk s') (sector_of (get_vbuf b s')) = rq_data r) /\
      (forall i, i ∈ rq_idx r -> is_free i s' = true) /\ reachable m s' (delete b R)
    else Z.of_nat i0 ∈ live s /\ b ∈ v_sleep_buf s' /\ reachable m s' R) s.
Proof.
  intros Hreach Hr Hh. pose proof (reach_vinv _ _ _ Hreach) as Hi. destruct (vi_rq _ _ Hi b r Hr) as (j0 & j1 & j2 & Hok). pose proof Hh as Hh'. rewrite (ro_idx _ _ _ _ _ _ Hok) in Hh'. injection Hh' as <-.
  pose proof (disk_finish_spec s b j0 j1 j2 (DATA_FLAGS (rq_write r)) (POp j0) (PData b) (vi_shape _ _ Hi) (ro_nodup _ _ _ _ _ _ Hok) (ro_busy _ _ _ _ _ _ Hok) (ro_d0 _ _ _ _ _ _ Hok) (ro_d1 _ _ _ _ _ _ Hok) ltac:(by destruct (rq_write r)) ltac:(by rewrite (ro_d2 _ _ _ _ _ _ Hok))) as W.
  unfold wp in *. destruct (disk_finish b j0 s) as [[|] s'| | |] eqn:E; try done; destruct W as [Hd Hs']; destruct (ro_phase _ _ _ _ _ _ Hok) as [(P1 & P2 & _)|(P1 & _ & _ & P3)]; try lia.
  - assert (Hb : get_vbuf b s' = get_vbuf b s) by (by subst s'). assert (Hm : dv_disk s' = dv_disk s) by (by subst s'). rewrite Hb, Hm. split; [done|]. split; [intros Hw; rewrite <- P3; by apply (ro_data _ _ _ _ _ _ Hok)|].
    split; [|by eapply rtc_r; [exact Hreach|eapply vs_finish]]. rewrite (ro_idx _ _ _ _ _ _ Hok). intros i Hin. subst s'. apply free_after; [apply Hi|apply (ro_busy _ _ _ _ _ _ Hok)|done].
  - split; [done|]. split; [subst s'; cbn; set_solver|]. by eapply rtc_r; [exact Hreach|eapply vs_finish_wait].
Qed.

(** C19: in every reachable state the first half of virtio_disk_rw() and the
    interrupt handler terminate without panic.  The first takes three
    descriptors that were free, or sleeps because fewer than three are, with
    the ones it took given back; a process sleeps for descriptors only while
    fewer than three are free.  The handler leaves no completed request
    unnoticed, and once the device has nothing left to do it leaves every
    buffer done and nobody asleep on one; with no request in progress all
    eight descriptors are free. *)
Theorem virtio_driver_safe m s R : reachable m s R ->
  (forall b wr, wp (disk_start b wr) (fun r s' => match r with Some i0 => is_free i0 s = true /\ is_free i0 s' = false /\ vb_disk (get_vbuf b s') = 1 | None => (nfree s < 3)%nat /\ v_free s' = v_free s /\ v_sleep_free s' = true end) s) /\
  wp virtio_disk_intr (fun _ s' => uses s' = [] /\ (avails s = [] -> dv_pending s = [] -> (forall b r, R !! b = Some r -> vb_disk (get_vbuf b s') = 0) /\ v_sleep_buf s' = ∅)) s /\
  (v_sleep_free s = true -> (nfree s < 3)%nat) /\ (R = ∅ -> v_free s = replicate 8 true).
Proof.
  intros Hreach. pose proof (reach_vinv _ _ _ Hreach) as Hi. split_and!.
  - intros b wr. eapply wp_mono; [by apply disk_start_spec, Hi|]. intros [i0|] s'.
    + intros (i1 & i2 & Hnd & Hfr & ->). split_and!; [by apply Forall_cons in Hfr as [[_ ?] _]| |by unfold get_vbuf; cbn; rewrite lookup_insert_eq].
      by eapply (start_free s R b wr i0 i1 i2 Hi Hfr); left.
    + intros [Hn (D & -> & _)]. done.
  - eapply wp_mono; [by apply virtio_disk_intr_ok|]. intros [] s' (Hi' & Hu & Ha & Hp). split; [done|]. intros Ea Ep. apply (quiet_done s' R Hi'). unfold live. by rewrite Ha, Hp, Hu, Ea, Ep.
  - apply Hi.
  - intros ->. pose proof (sh_free _ (vi_shape _ _ Hi)) as Hl. apply list_eq_same_length with 8%nat; [by rewrite length_replicate|done|]. intros i x y Hlt Hx Hy. apply lookup_replicate in Hy as [-> _]. destruct x; [done|].
    destruct (vi_owned _ _ Hi i Hlt) as (b & r & Hr & _); [unfold is_free; by rewrite Hx|]. by rewrite lookup_empty in Hr.
Qed.

(** the device touches nothing else: a step of it changes the data of a
    buffer only when a read of that buffer is in flight, and a block of the
    disk only when a write to it is. *)
Theorem virtio_dma_confined m s R s' b sec : reachable m s R -> dev_step s s' ->
  (get_vbuf b s' <> get_vbuf b s -> exists r, R !! b = Some r /\ rq_write r = false /\ vb_disk (get_vbuf b s) = 1) /\
  (dblk (dv_disk s') sec <> dblk (dv_disk s) sec -> exists b' r, R !! b' = Some r /\ rq_write r = true /\ sector_of (get_vbuf b' s) = sec /\ vb_disk (get_vbuf b' s) = 1 /\ dblk (dv_disk s') sec = rq_data r).
Proof.
  intros Hreach Hd. pose proof (reach_vinv _ _ _ Hreach) as Hi. destruct (dev_ok _ _ (pending_wf _ _ Hi) Hd) as [[_ ->]|(h & l1 & l2 & op & b0 & k & Hp & Hq & ->)]; [by split|].
  destruct (live_head _ _ h Hi) as (b' & r & i0 & i1 & i2 & Hr & Hok & -> & _); [unfold live; rewrite Hp, !elem_of_app; right; left; right; left|]. rewrite (rq_request _ _ _ _ _ _ Hok) in Hq. injection Hq as <- <- <-. rewrite transfer_completed.
  assert (Hdisk : vb_disk (get_vbuf b' s) = 1). { destruct (ro_phase _ _ _ _ _ _ Hok) as [(? & _)|(_ & Hn & _)]; [done|]. destruct Hn. unfold live. rewrite Hp, !elem_of_app. right; left; right; left. }
  split.
  - rewrite (comp_vbuf s b' r i0 l1 l2). case_decide as Hc; [|done]. destruct Hc as [-> Hw]. eauto.
  - cbn [dv_disk completed]. destruct (rq_write r) eqn:Hw; [|done]. intros Hne. unfold dblk in *. destruct (decide (sec = sector_of (get_vbuf b' s))) as [->|Hs]; [|by rewrite lookup_insert_ne in Hne by congruence].
    exists b', r. split_and!; try done. rewrite lookup_insert_eq. cbn. by apply (ro_data _ _ _ _ _ _ Hok).
Qed.
End system.

(** ** A device that serves the requests, and a write that runs through *)

#[local] Instance plain_dev : VirtioDev := { dev_step s s' := dev_fetch s s' \/ dev_complete s s'; dev_ok s s' _ Hd := Hd }.

Definition after {A} (m : M vd A) s : vd := match m s with Ok _ s' => s' | _ => s end.
Definition demo_0 : vd := on_bufs <[0%nat := Vbuf 5 (replicate 1024 7) 0]> (virtio_init ∅).
Definition demo_1 : vd := after (disk_start 0 true) demo_0.
Definition demo_2 : vd := set_dev 1 [0] demo_1.
Definition demo_3 : vd := transfer (op_of true (get_vbuf 0 demo_2)) 0 0 0 (set_dev 1 [] demo_2).
Definition demo_4 : vd := after virtio_disk_intr demo_3.
Definition demo_rq : rq := Rq [0; 1; 2]%nat true (replicate 1024 7).
Definition demo_R : gmap nat rq := <[0%nat := demo_rq]> ∅.

Lemma demo_reach_2 : reachable ∅ demo_2 demo_R.
Proof.
  eapply rtc_l; [apply (vs_owner (virtio_init ∅) ∅ 0 (Vbuf 5 (replicate 1024 7) 0)); done|]. change (on_bufs _ (virtio_init ∅)) with demo_0.
  eapply rtc_l; [eapply (vs_start demo_0 ∅ 0 true demo_1 0 1 2); [done|by eexists|by intros b' r; rewrite lookup_empty|by vm_compute|by vm_compute|by vm_compute]|].
  eapply rtc_l; [apply vs_dev; left; split; [by vm_compute|reflexivity]|]. replace (_, _) with (demo_2, demo_R) by (vm_compute; reflexivity). reflexivity.
Qed.
Lemma demo_step_3 : dev_step demo_2 demo_3.
Proof. right. exists 0, [], [], (op_of true (get_vbuf 0 demo_2)), 0%nat, 0%nat. split_and!; vm_compute; reflexivity. Qed.
Lemma demo_reach_4 : reachable ∅ demo_4 demo_R.
Proof. eapply rtc_r; [eapply rtc_r; [exact demo_reach_2|apply vs_dev, demo_step_3]|]. apply vs_intr. vm_compute. reflexivity. Qed.

Lemma after_ok {A} (m : M vd A) Q s a : wp m Q s -> m s = Ok a (after m s) -> Q a (after m s).
Proof. unfold wp. intros W E. by rewrite E in W. Qed.
Lemma demo_finish : disk_finish 0 0 demo_4 = Ok true (after (disk_finish 0 0) demo_4) /\ sector_of (get_vbuf 0 (after (disk_finish 0 0) demo_4)) = 10.
Proof. split; vm_compute; reflexivity. Qed.
Lemma demo_intr : virtio_disk_intr demo_4 = Ok tt (after virtio_disk_intr demo_4) /\ avails demo_4 = [] /\ dv_pending demo_4 = [].
Proof. split_and!; vm_compute; reflexivity. Qed.
Lemma demo_moved : dblk (dv_disk demo_3) 10 <> dblk (dv_disk demo_2) 10.
Proof. vm_compute. discriminate. Qed.

Lemma virtio_disk_rw_correct_witness : disk_finish 0 0 demo_4 = Ok true (after (disk_finish 0 0) demo_4) /\ dblk (dv_disk (after (disk_finish 0 0) demo_4)) 10 = rq_data demo_rq.
Proof.
  destruct demo_finish as [E Es]. split; [exact E|]. destruct (after_ok _ _ _ _ (virtio_disk_rw_correct ∅ demo_4 demo_R 0 demo_rq 0 demo_reach_4 eq_refl eq_refl) E) as (_ & W & _). rewrite Es in W. exact (W eq_refl).
Defined.
Lemma virtio_driver_safe_witness : v_sleep_buf (after virtio_disk_intr demo_4) = ∅.
Proof.
  destruct demo_intr as (E & Ea & Ep). destruct (virtio_driver_safe ∅ demo_4 demo_R demo_reach_4) as (_ & W & _). destruct (after_ok _ _ _ _ W E) as [_ W']. exact (proj2 (W' Ea Ep)).
Defined.
Lemma virtio_dma_confined_witness : exists b r, demo_R !! b = Some r /\ rq_write r = true /\ dblk (dv_disk demo_3) 10 = rq_data r.
Proof.
  destruct (virtio_dma_confined ∅ demo_2 demo_R demo_3 0 10 demo_reach_2 demo_step_3) as [_ W]. destruct (W demo_moved) as (b & r & H1 & H2 & _ & _ & H3). exists b, r. exact (conj H1 (conj H2 H3)).
Defined.
