(* ===== verification/VirtioInit.v ===== *)
(** kernel/virtio_disk.c: virtio_disk_init(), the handshake with the device.

    The registers belong to the device: [reg io a] is what it answers to a read
    of register [a] after the stores [io].  The state is the list of stores and
    the memory the rings are allocated from. *)
From S2P Require Import Prelude Mem Str Kalloc Vm VmSpec VmUser VmProps Ring Virtio.

(** The registers that the driver uses, and where they are. *)
Inductive vreg :=
| VIRTIO_MMIO_MAGIC_VALUE | VIRTIO_MMIO_VERSION | VIRTIO_MMIO_DEVICE_ID | VIRTIO_MMIO_VENDOR_ID | VIRTIO_MMIO_DEVICE_FEATURES | VIRTIO_MMIO_DRIVER_FEATURES
| VIRTIO_MMIO_QUEUE_SEL | VIRTIO_MMIO_QUEUE_NUM_MAX | VIRTIO_MMIO_QUEUE_NUM | VIRTIO_MMIO_QUEUE_READY | VIRTIO_MMIO_STATUS
| VIRTIO_MMIO_QUEUE_DESC_LOW | VIRTIO_MMIO_QUEUE_DESC_HIGH | VIRTIO_MMIO_DRIVER_DESC_LOW | VIRTIO_MMIO_DRIVER_DESC_HIGH | VIRTIO_MMIO_DEVICE_DESC_LOW | VIRTIO_MMIO_DEVICE_DESC_HIGH.
#[export] Instance vreg_eq_dec : EqDecision vreg.
Proof. solve_decision. Defined.
Definition vreg_offset (r : vreg) : Z :=
  match r with
  | VIRTIO_MMIO_MAGIC_VALUE => 0x000 | VIRTIO_MMIO_VERSION => 0x004 | VIRTIO_MMIO_DEVICE_ID => 0x008 | VIRTIO_MMIO_VENDOR_ID => 0x00c
  | VIRTIO_MMIO_DEVICE_FEATURES => 0x010 | VIRTIO_MMIO_DRIVER_FEATURES => 0x020 | VIRTIO_MMIO_QUEUE_SEL => 0x030 | VIRTIO_MMIO_QUEUE_NUM_MAX => 0x034
  | VIRTIO_MMIO_QUEUE_NUM => 0x038 | VIRTIO_MMIO_QUEUE_READY => 0x044 | VIRTIO_MMIO_STATUS => 0x070
  | VIRTIO_MMIO_QUEUE_DESC_LOW => 0x080 | VIRTIO_MMIO_QUEUE_DESC_HIGH => 0x084 | VIRTIO_MMIO_DRIVER_DESC_LOW => 0x090
  | VIRTIO_MMIO_DRIVER_DESC_HIGH => 0x094 | VIRTIO_MMIO_DEVICE_DESC_LOW => 0x0a0 | VIRTIO_MMIO_DEVICE_DESC_HIGH => 0x0a4
  end.
Definition VIRTIO_CONFIG_S_ACKNOWLEDGE : Z := 1.
Definition VIRTIO_CONFIG_S_DRIVER : Z := 2.
Definition VIRTIO_CONFIG_S_DRIVER_OK : Z := 4.
Definition VIRTIO_CONFIG_S_FEATURES_OK : Z := 8.
(** The features that the driver clears, and their bits. *)
Inductive vfeature := VIRTIO_BLK_F_RO | VIRTIO_BLK_F_SCSI | VIRTIO_BLK_F_CONFIG_WCE | VIRTIO_BLK_F_MQ | VIRTIO_F_ANY_LAYOUT | VIRTIO_RING_F_INDIRECT_DESC | VIRTIO_RING_F_EVENT_IDX.
Definition vfeature_bit (f : vfeature) : Z :=
  match f with
  | VIRTIO_BLK_F_RO => 5 | VIRTIO_BLK_F_SCSI => 7 | VIRTIO_BLK_F_CONFIG_WCE => 11 | VIRTIO_BLK_F_MQ => 12
  | VIRTIO_F_ANY_LAYOUT => 27 | VIRTIO_RING_F_INDIRECT_DESC => 28 | VIRTIO_RING_F_EVENT_IDX => 29
  end.

Record vis := Vis { vi_io : list (vreg * Z); vi_mach : mach }.
Definition set_io x s := Vis x (vi_mach s).
Definition set_vimach x s := Vis (vi_io s) x.

(** [features &= ~(1 << n)] *)
Definition without (f : vfeature) (features : Z) : Z := Z.ldiff features (2 ^ vfeature_bit f).
Definition negotiate (features : Z) : Z :=
  without VIRTIO_RING_F_INDIRECT_DESC (without VIRTIO_RING_F_EVENT_IDX (without VIRTIO_F_ANY_LAYOUT (without VIRTIO_BLK_F_MQ
    (without VIRTIO_BLK_F_CONFIG_WCE (without VIRTIO_BLK_F_SCSI (without VIRTIO_BLK_F_RO features)))))).

Section init.
Context `{L : Layout}.
Variable reg : list (vreg * Z) -> vreg -> Z.

Definition vrd (a : vreg) : M vis Z := gets (fun s => reg (vi_io s) a).
Definition vwr (a : vreg) (v : Z) : M vis unit := modify (fun s => set_io (vi_io s ++ [(a, u32 v)]) s).
Definition onmach {A} (m : M mach A) : M vis A := zoom vi_mach set_vimach m.

(** The pages of the descriptors and of the two rings. *)
Definition virtio_disk_init : M vis (Z * Z * Z) :=
  let! magic := vrd VIRTIO_MMIO_MAGIC_VALUE in
  let! version := vrd VIRTIO_MMIO_VERSION in
  let! device := vrd VIRTIO_MMIO_DEVICE_ID in
  let! vendor := vrd VIRTIO_MMIO_VENDOR_ID in
  if negb (magic =? 0x74726976) || negb (version =? 2) || negb (device =? 2) || negb (vendor =? 0x554d4551) then panic "could not find virtio disk" else
  let status := 0 in
  vwr VIRTIO_MMIO_STATUS status ;;
  let status := Z.lor status VIRTIO_CONFIG_S_ACKNOWLEDGE in
  vwr VIRTIO_MMIO_STATUS status ;;
  let status := Z.lor status VIRTIO_CONFIG_S_DRIVER in
  vwr VIRTIO_MMIO_STATUS status ;;
  let! features := vrd VIRTIO_MMIO_DEVICE_FEATURES in
  vwr VIRTIO_MMIO_DRIVER_FEATURES (negotiate features) ;;
  let status := Z.lor status VIRTIO_CONFIG_S_FEATURES_OK in
  vwr VIRTIO_MMIO_STATUS status ;;
  let! status := vrd VIRTIO_MMIO_STATUS in
  if Z.land status VIRTIO_CONFIG_S_FEATURES_OK =? 0 then panic "virtio disk FEATURES_OK unset" else
  vwr VIRTIO_MMIO_QUEUE_SEL 0 ;;
  let! ready := vrd VIRTIO_MMIO_QUEUE_READY in
  if negb (ready =? 0) then panic "virtio disk should not be ready" else
  let! max := vrd VIRTIO_MMIO_QUEUE_NUM_MAX in
  if max =? 0 then panic "virtio disk has no queue 0" else
  if max <? NUM then panic "virtio disk max queue too short" else
  let! desc := onmach kalloc in
  let! avail := onmach kalloc in
  let! used := onmach kalloc in
  if (desc =? 0) || (avail =? 0) || (used =? 0) then panic "virtio disk kalloc" else
  onmach (mset desc 0 PGSIZE) ;;
  onmach (mset avail 0 PGSIZE) ;;
  onmach (mset used 0 PGSIZE) ;;
  vwr VIRTIO_MMIO_QUEUE_NUM NUM ;;
  vwr VIRTIO_MMIO_QUEUE_DESC_LOW desc ;;
  vwr VIRTIO_MMIO_QUEUE_DESC_HIGH (Z.shiftr desc 32) ;;
  vwr VIRTIO_MMIO_DRIVER_DESC_LOW avail ;;
  vwr VIRTIO_MMIO_DRIVER_DESC_HIGH (Z.shiftr avail 32) ;;
  vwr VIRTIO_MMIO_DEVICE_DESC_LOW used ;;
  vwr VIRTIO_MMIO_DEVICE_DESC_HIGH (Z.shiftr used 32) ;;
  vwr VIRTIO_MMIO_QUEUE_READY 1 ;;
  vwr VIRTIO_MMIO_STATUS (Z.lor status VIRTIO_CONFIG_S_DRIVER_OK) ;;
  ret (desc, avail, used).
End init.

(** * Specification *)

(** The value last stored in a register. *)
Fixpoint last_store (io : list (vreg * Z)) (a : vreg) : option Z :=
  match io with
  | [] => None
  | (b, v) :: io => match last_store io a with Some w => Some w | None => if decide (b = a) then Some v else None end
  end.

(** What the specification of the device says of its registers: a disk, that
    accepts the features chosen among the ones it offers, has a queue 0 that is
    long enough, and reports the status that has been stored. *)
Record disk_regs (reg : list (vreg * Z) -> vreg -> Z) (features : Z) : Prop := {
  dr_magic io : reg io VIRTIO_MMIO_MAGIC_VALUE = 0x74726976;
  dr_version io : reg io VIRTIO_MMIO_VERSION = 2;
  dr_device io : reg io VIRTIO_MMIO_DEVICE_ID = 2;
  dr_vendor io : reg io VIRTIO_MMIO_VENDOR_ID = 0x554d4551;
  dr_features io : reg io VIRTIO_MMIO_DEVICE_FEATURES = features;
  dr_status io v : last_store io VIRTIO_MMIO_STATUS = Some v -> reg io VIRTIO_MMIO_STATUS = v;
  dr_ready io : last_store io VIRTIO_MMIO_QUEUE_READY = None -> reg io VIRTIO_MMIO_QUEUE_READY = 0;
  dr_max io : NUM <= reg io VIRTIO_MMIO_QUEUE_NUM_MAX
}.

(** The stores of a handshake that succeeds. *)
Definition handshake (features desc avail used : Z) : list (vreg * Z) :=
  [(VIRTIO_MMIO_STATUS, 0); (VIRTIO_MMIO_STATUS, 1); (VIRTIO_MMIO_STATUS, 3);
   (VIRTIO_MMIO_DRIVER_FEATURES, u32 (negotiate features)); (VIRTIO_MMIO_STATUS, 11); (VIRTIO_MMIO_QUEUE_SEL, 0);
   (VIRTIO_MMIO_QUEUE_NUM, NUM); (VIRTIO_MMIO_QUEUE_DESC_LOW, u32 desc); (VIRTIO_MMIO_QUEUE_DESC_HIGH, desc / 2 ^ 32);
   (VIRTIO_MMIO_DRIVER_DESC_LOW, u32 avail); (VIRTIO_MMIO_DRIVER_DESC_HIGH, avail / 2 ^ 32);
   (VIRTIO_MMIO_DEVICE_DESC_LOW, u32 used); (VIRTIO_MMIO_DEVICE_DESC_HIGH, used / 2 ^ 32);
   (VIRTIO_MMIO_QUEUE_READY, 1); (VIRTIO_MMIO_STATUS, 15)].

(** The features the driver does not know how to handle. *)
Definition refused : list Z := [5; 7; 11; 12; 27; 28; 29].
Lemma negotiate_spec features k : 0 <= k -> Z.testbit (negotiate features) k = Z.testbit features k && negb (bool_decide (k ∈ refused)).
Proof.
  intros Hk. unfold negotiate, without. cbn [vfeature_bit]. rewrite !Z.ldiff_spec, !Z.pow2_bits_eqb by lia. rewrite <- !andb_assoc. f_equal.
  unfold refused. case_bool_decide as H; rewrite !elem_of_cons in H.
  - destruct H as [->|[->|[->|[->|[->|[->|[->|H]]]]]]]; try done. by apply not_elem_of_nil in H.
  - cbn [negb]. repeat match goal with |- context [?a =? k] => rewrite (proj2 (Z.eqb_neq a k)) by (intros <-; tauto) end. done.
Qed.

Section init_spec.
Context `{L : Layout} `{!LayoutOk L}.

Lemma kalloc_page s l : kmem_inv s l -> (0 < length l)%nat -> wp kalloc (fun r s' => exists l', l = r :: l' /\ kmem_inv s' l' /\ page_ok r /\ (r =? 0) = false) s.
Proof.
  intros Hk Hl. eapply wp_mono; [by apply kalloc_spec|]. cbn beta. intros r s'. destruct l as [|p l']; [cbn in Hl; lia|]. intros (-> & Hk' & _). pose proof (km_ok _ _ Hk) as Hok. apply Forall_cons in Hok as [Hp _]. pose proof (page_ok_pos p Hp). exists l'. split_and!; try done. apply Z.eqb_neq. lia.
Qed.

(** Zeroing three pages that are not free. *)
Definition zero3 (a b c : Z) (m : mem) : mem := memset (memset (memset m a 0 PGSIZE) b 0 PGSIZE) c 0 PGSIZE.
Lemma zero3_inside a b c m x : in_page a x \/ in_page b x \/ in_page c x -> ld8 (zero3 a b c m) x = 0.
Proof. unfold zero3, in_page. rewrite !memset_spec by done. intros H. zcases; lia || done. Qed.
Lemma zero3_kmem a b c s l : kmem_inv s l -> page_ok a -> page_ok b -> page_ok c -> a ∉ l -> b ∉ l -> c ∉ l -> kmem_inv (set_mem (zero3 a b c) s) l.
Proof.
  intros Hk Ha Hb Hc La Lb Lc. eapply kmem_inv_frame; [exact Hk|done|done|]. intros x (q & Hq & Hx). pose proof (km_ok _ _ Hk) as Hok. rewrite Forall_forall in Hok. specialize (Hok q Hq). cbn. unfold zero3.
  rewrite !memset_page; [done|..]; eapply in_page_ne; eauto; congruence.
Qed.

Lemma wp_vrd reg a (Q : Z -> vis -> Prop) io m : wp (vrd reg a) Q (Vis io m) = Q (reg io a) (Vis io m).
Proof. done. Qed.
Lemma wp_vwr a v (Q : unit -> vis -> Prop) io m : wp (vwr a v) Q (Vis io m) = Q tt (Vis (io ++ [(a, u32 v)]) m).
Proof. done. Qed.
Lemma wp_onmach {A} (f : M mach A) Q io m : wp (onmach f) Q (Vis io m) = wp f (fun a m' => Q a (Vis io m')) m.
Proof. unfold onmach. by rewrite wp_zoom. Qed.
Lemma wp_mset a c n (Q : unit -> mach -> Prop) m : wp (mset a c n) Q m = Q tt (set_mem (fun x => memset x a c n) m).
Proof. done. Qed.

(** virtio_disk_init() on a working disk, with three free pages: it does not
    panic, the descriptor table and the rings are three different pages full of
    zeroes, taken from the free list, and the stores to the registers are those
    of the protocol, in its order: the features are the offered ones without
    those the driver cannot handle, the queue becomes ready only when its size
    and addresses are set, and the device is started last. *)
Theorem virtio_disk_init_correct reg features s l : disk_regs reg features -> vi_io s = [] -> kmem_inv (vi_mach s) l -> (3 <= length l)%nat ->
  wp (virtio_disk_init reg) (fun '(desc, avail, used) s' => exists l', l = desc :: avail :: used :: l' /\ kmem_inv (vi_mach s') l' /\
    (forall x, in_page desc x \/ in_page avail x \/ in_page used x -> ld8 (mmem (vi_mach s')) x = 0) /\ vi_io s' = handshake features desc avail used) s.
Proof.
  intros [D1 D2 D3 D4 D5 D6 D7 D8] Hio Hk Hl. destruct s as [io0 m0]. cbn in Hio, Hk. subst io0. unfold virtio_disk_init. rewrite !wp_bind, wp_vrd, wp_bind, wp_vrd, wp_bind, wp_vrd, wp_bind, wp_vrd, D1, D2, D3, D4. change (negb _ || negb _ || negb _ || negb _) with false. cbv iota.
  do 3 rewrite wp_bind, wp_vwr. rewrite wp_bind, wp_vrd, D5. do 2 rewrite wp_bind, wp_vwr. cbn [app]. rewrite wp_bind, wp_vrd, (D6 _ 11) by reflexivity. change (Z.land 11 VIRTIO_CONFIG_S_FEATURES_OK =? 0) with false. cbv iota.
  rewrite wp_bind, wp_vwr. cbn [app]. rewrite wp_bind, wp_vrd, D7 by reflexivity. change (negb (0 =? 0)) with false. cbv iota. rewrite wp_bind, wp_vrd.
  set (io := _ :: _). pose proof (D8 io) as Hm. unfold NUM in Hm. rewrite (proj2 (Z.eqb_neq (reg io VIRTIO_MMIO_QUEUE_NUM_MAX) 0)), (proj2 (Z.ltb_ge (reg io VIRTIO_MMIO_QUEUE_NUM_MAX) NUM)) by (unfold NUM; lia).
  rewrite wp_bind, wp_onmach. eapply wp_mono; [by apply (kalloc_page _ l); [|lia]|]. intros desc m1 (l1 & -> & K1 & P1 & N1). cbn [length] in Hl.
  rewrite wp_bind, wp_onmach. eapply wp_mono; [by apply (kalloc_page _ l1); [|lia]|]. intros avail m2 (l2 & -> & K2 & P2 & N2). cbn [length] in Hl.
  rewrite wp_bind, wp_onmach. eapply wp_mono; [by apply (kalloc_page _ l2); [|lia]|]. intros used m3 (l3 & -> & K3 & P3 & N3). rewrite N1, N2, N3. cbn [orb].
  do 3 rewrite wp_bind, wp_onmach, wp_mset. do 9 rewrite wp_bind, wp_vwr. rewrite wp_ret.
  pose proof (km_nodup _ _ Hk) as Hnd. rewrite !NoDup_cons, !not_elem_of_cons in Hnd. destruct Hnd as ((X1 & X2 & X3) & (X4 & X5) & X6 & _).
  exists l3. split; [done|]. split; [|split].
  - exact (zero3_kmem desc avail used m3 l3 K3 P1 P2 P3 X3 X5 X6).
  - intros x Hx. exact (zero3_inside desc avail used (mmem m3) x Hx).
  - cbn [vi_io]. unfold io. cbn [app]. assert (Hs : forall p, page_ok p -> u32 (Z.shiftr p 32) = p / 2 ^ 32) by (intros p Hp; pose proof (page_ok_pos p Hp); destruct Hp as [_ Hp]; rewrite Z.shiftr_div_pow2 by lia; unfold PHYSTOP, KERNBASE in Hp; apply u32_small; split; [apply Z.div_pos; lia|apply Z.div_lt_upper_bound; lia]).
    rewrite !Hs by done. reflexivity.
Qed.
End init_spec.
