(* ===== verification/Bio.v ===== *)
(** The buffer cache, kernel/bio.c.

    The cache is the array of NBUF buffers and the list head, linked in
    both directions by indices ([HEAD] is the list head); the disk is the
    contents of its blocks.  [dtrace] is a history variable: the writes the
    disk has received, oldest first, which the crash theorems of [LogSpec]
    cut at every point. *)
From S2P Require Import Prelude Mem Spinlock.

Definition BSIZE : Z := 1024.
Definition MAXOPBLOCKS : Z := 10.
Definition NBUF : nat := Z.to_nat (MAXOPBLOCKS * 3).
Definition HEAD : nat := NBUF.

Record buf := Buf {
  b_valid : bool; b_dev : Z; b_blockno : Z; b_lock : sleeplock; b_refcnt : Z;
  b_prev : nat; b_next : nat; b_data : list Z }.
Definition set_valid v b := Buf v (b_dev b) (b_blockno b) (b_lock b) (b_refcnt b) (b_prev b) (b_next b) (b_data b).
Definition set_id d n b := Buf (b_valid b) d n (b_lock b) (b_refcnt b) (b_prev b) (b_next b) (b_data b).
Definition set_lock l b := Buf (b_valid b) (b_dev b) (b_blockno b) l (b_refcnt b) (b_prev b) (b_next b) (b_data b).
Definition set_refcnt r b := Buf (b_valid b) (b_dev b) (b_blockno b) (b_lock b) r (b_prev b) (b_next b) (b_data b).
Definition set_prev p b := Buf (b_valid b) (b_dev b) (b_blockno b) (b_lock b) (b_refcnt b) p (b_next b) (b_data b).
Definition set_next n b := Buf (b_valid b) (b_dev b) (b_blockno b) (b_lock b) (b_refcnt b) (b_prev b) n (b_data b).
Definition set_data d b := Buf (b_valid b) (b_dev b) (b_blockno b) (b_lock b) (b_refcnt b) (b_prev b) (b_next b) d.

Definition zero_block : list Z := replicate (Z.to_nat BSIZE) 0.
Definition buf0 : buf := Buf false 0 0 initsleeplock 0 0 0 zero_block.

Record bio := Bio {
  bc_lock : lockst;
  bc_buf : list buf;
  disk : gmap Z (list Z);
  dtrace : list (Z * list Z) }.
Definition set_bc_lock l s := Bio l (bc_buf s) (disk s) (dtrace s).
Definition set_bc_buf f s := Bio (bc_lock s) (f (bc_buf s)) (disk s) (dtrace s).
(** A write reaches the disk. *)
Definition disk_put (n : Z) (d : list Z) (s : bio) : bio :=
  Bio (bc_lock s) (bc_buf s) (<[n := d]> (disk s)) (dtrace s ++ [(n, d)]).
Definition dblock (d : gmap Z (list Z)) (n : Z) : list Z := default zero_block (d !! n).

Definition getb (i : nat) (s : bio) : buf := default buf0 (bc_buf s !! i).
Definition modb (i : nat) (f : buf -> buf) : M bio unit := modify (set_bc_buf (alter f i)).
Definition bc_acquire : M bio unit := lock_acquire bc_lock set_bc_lock.
Definition bc_release : M bio unit := lock_release bc_lock set_bc_lock.
(** An operation on the sleep lock of buffer [i]. *)
Definition on_lock {A} (i : nat) (m : M sleeplock A) : M bio A :=
  zoom (fun s => b_lock (getb i s)) (fun l => set_bc_buf (alter (set_lock l) i)) m.

(** The loop of binit(), for the buffers from [b] on. *)
Fixpoint binit_loop (n : nat) (b : nat) : M bio unit :=
  match n with
  | O => ret tt
  | S n =>
      let! h := gets (getb HEAD) in
      modb b (set_next (b_next h)) ;;
      modb b (set_prev HEAD) ;;
      modb b (set_lock initsleeplock) ;;
      let! h := gets (getb HEAD) in
      modb (b_next h) (set_prev b) ;;
      modb HEAD (set_next b) ;;
      binit_loop n (S b)
  end.
Definition binit : M bio unit :=
  modify (set_bc_lock Free) ;;
  modb HEAD (set_prev HEAD) ;;
  modb HEAD (set_next HEAD) ;;
  binit_loop NBUF 0.

(** The first loop of bget(): is the block cached? *)
Fixpoint bget_cached (fuel : nat) (b : nat) (dev blockno : Z) : M bio (option nat) :=
  if decide (b = HEAD) then ret None else
  match fuel with
  | O => nofuel
  | S fuel =>
      let! x := gets (getb b) in
      if (b_dev x =? dev) && (b_blockno x =? blockno) then ret (Some b)
      else bget_cached fuel (b_next x) dev blockno
  end.
(** The second loop: the least recently used unused buffer. *)
Fixpoint bget_lru (fuel : nat) (b : nat) : M bio (option nat) :=
  if decide (b = HEAD) then ret None else
  match fuel with
  | O => nofuel
  | S fuel =>
      let! x := gets (getb b) in
      if b_refcnt x =? 0 then ret (Some b) else bget_lru fuel (b_prev x)
  end.
Definition bget (me : Z) (dev blockno : Z) : M bio nat :=
  bc_acquire ;;
  let! h := gets (getb HEAD) in
  let! r := bget_cached NBUF (b_next h) dev blockno in
  match r with
  | Some b =>
      modb b (fun x => set_refcnt (u32 (b_refcnt x + 1)) x) ;;
      bc_release ;;
      on_lock b (acquiresleep me) ;;
      ret b
  | None =>
      let! h := gets (getb HEAD) in
      let! r := bget_lru NBUF (b_prev h) in
      match r with
      | Some b =>
          modb b (fun x => set_refcnt 1 (set_valid false (set_id dev blockno x))) ;;
          bc_release ;;
          on_lock b (acquiresleep me) ;;
          ret b
      | None => panic "bget: no buffers"
      end
  end.

(** What virtio_disk_rw() does to the buffer and the disk. *)
Definition disk_rw (b : nat) (write : bool) : M bio unit :=
  let! x := gets (getb b) in
  if write then modify (disk_put (b_blockno x) (b_data x))
  else let! d := gets disk in modb b (set_data (dblock d (b_blockno x))).

Definition bread (me : Z) (dev blockno : Z) : M bio nat :=
  let! b := bget me dev blockno in
  let! x := gets (getb b) in
  (if negb (b_valid x) then disk_rw b false ;; modb b (set_valid true) else ret tt) ;;
  ret b.

Definition bwrite (me : Z) (b : nat) : M bio unit :=
  let! h := on_lock b (holdingsleep me) in
  if negb h then panic "bwrite" else disk_rw b true.

Definition brelse (me : Z) (b : nat) : M bio unit :=
  let! h := on_lock b (holdingsleep me) in
  if negb h then panic "brelse" else
  on_lock b releasesleep ;;
  bc_acquire ;;
  modb b (fun x => set_refcnt (u32 (b_refcnt x - 1)) x) ;;
  let! x := gets (getb b) in
  (if b_refcnt x =? 0 then
     modb (b_next x) (set_prev (b_prev x)) ;;
     let! x := gets (getb b) in
     modb (b_prev x) (set_next (b_next x)) ;;
     let! h := gets (getb HEAD) in
     modb b (set_next (b_next h)) ;;
     modb b (set_prev HEAD) ;;
     let! h := gets (getb HEAD) in
     modb (b_next h) (set_prev b) ;;
     modb HEAD (set_next b)
   else ret tt) ;;
  bc_release.

Definition bpin (b : nat) : M bio unit :=
  bc_acquire ;; modb b (fun x => set_refcnt (u32 (b_refcnt x + 1)) x) ;; bc_release.
Definition bunpin (b : nat) : M bio unit :=
  bc_acquire ;; modb b (fun x => set_refcnt (u32 (b_refcnt x - 1)) x) ;; bc_release.
