(* ===== verification/BioSpec.v ===== *)
(** Specification of the buffer cache: the LRU list, the uniqueness of
    cached blocks, and the view of the disk through the cache. *)
From S2P Require Import Prelude Mem Spinlock Bio.

(** * The doubly linked list *)

Section dll.
Implicit Types (nxt prv : nat -> nat) (l : list nat).

(** From [a] the pointers lead through [l] to [z], and back. *)
Fixpoint seg nxt prv (a : nat) l (z : nat) : Prop :=
  match l with
  | [] => nxt a = z /\ prv z = a
  | x :: l => nxt a = x /\ prv x = a /\ seg nxt prv x l z
  end.

Lemma seg_app nxt prv a l x l' z :
  seg nxt prv a (l ++ x :: l') z <-> seg nxt prv a l x /\ seg nxt prv x l' z.
Proof. revert a. induction l as [|y l IH]; intros a; simpl; [tauto|]. rewrite IH. tauto. Qed.

Lemma seg_ext nxt prv nxt' prv' a l z :
  (forall x, x = a \/ x ∈ l -> nxt' x = nxt x) -> (forall x, x = z \/ x ∈ l -> prv' x = prv x) ->
  seg nxt prv a l z -> seg nxt' prv' a l z.
Proof.
  revert a. induction l as [|y l IH]; intros a Hn Hp; simpl.
  - intros [E1 E2]. rewrite Hn, Hp by auto. done.
  - intros (E1 & E2 & Hs). rewrite Hn by auto. rewrite Hp by (right; left).
    split_and!; [done|done|]. apply IH; [| |done].
    + intros x [->|Hx]; apply Hn; right; [left|by right].
    + intros x [->|Hx]; apply Hp; [by left|right; by right].
Qed.

(** Follow [n] pointers. *)
Lemma seg_nth nxt prv a l z i x : seg nxt prv a l z -> l !! i = Some x ->
  Nat.iter (S i) nxt a = x.
Proof.
  revert a i. induction l as [|y l IH]; intros a i; [done|]. simpl. intros (<- & _ & Hs).
  destruct i as [|i]; simpl; [by intros [= <-]|]. intros Hi. specialize (IH _ _ Hs Hi).
  by rewrite <- IH, <- Nat.iter_succ_r.
Qed.

Definition fupd {A} (f : nat -> A) (i : nat) (v : A) : nat -> A := fun j => if decide (j = i) then v else f j.

Lemma fupd_eq {A} (f : nat -> A) i v : fupd f i v i = v.
Proof. unfold fupd. by rewrite decide_True. Qed.
Lemma fupd_ne {A} (f : nat -> A) i v j : j <> i -> fupd f i v j = f j.
Proof. intros H. unfold fupd. by rewrite decide_False. Qed.

Lemma seg_prv nxt prv a l z : seg nxt prv a l z -> prv z = a \/ prv z ∈ l.
Proof.
  revert a. induction l as [|x l IH]; intros a; simpl; [intros [_ ?]; by left|].
  intros (_ & _ & Hs). right. destruct (IH _ Hs) as [->|?]; [left|by right].
Qed.

Lemma seg_nxt nxt prv a l z : seg nxt prv a l z -> nxt a = z \/ nxt a ∈ l.
Proof. destruct l as [|x l]; simpl; [intros [? _]; by left|]. intros (-> & _). right. left. Qed.

(** Taking [b] out of the middle. *)
Lemma seg_join nxt prv a l1 b l2 z :
  NoDup (a :: l1) -> NoDup l2 -> (forall x, x ∈ a :: l1 -> x ∉ l2) -> z ∉ l1 -> z ∉ l2 ->
  seg nxt prv a l1 b -> seg nxt prv b l2 z ->
  seg (fupd nxt (prv b) (nxt b)) (fupd prv (nxt b) (prv b)) a (l1 ++ l2) z.
Proof.
  revert a. induction l1 as [|x l1 IH]; intros a Hnd1 Hnd2 Hd Hz1 Hz2 H1 H2; simpl in H1 |- *.
  - destruct H1 as [E1 E2]. destruct l2 as [|y l2]; simpl in *.
    + destruct H2 as [E3 E4]. by rewrite E2, E3, !fupd_eq.
    + destruct H2 as (E3 & E4 & Hs). rewrite E2, E3, !fupd_eq. split_and!; [done..|].
      apply NoDup_cons in Hnd2 as [Hy _]. eapply seg_ext; [| |exact Hs].
      * intros x Hx. apply fupd_ne. intros ->. apply (Hd a); [left|]. destruct Hx as [->|?]; [left|by right].
      * intros x Hx. apply fupd_ne. intros ->. destruct Hx as [->|?]; [apply Hz2; left|done].
  - destruct H1 as (E1 & E2 & Hs). apply NoDup_cons in Hnd1 as [Ha Hnd1].
    rewrite fupd_ne, fupd_ne.
    + split_and!; [done..|]. apply IH; try done; [intros y Hy; apply Hd; by right|].
      intros ?. apply Hz1. by right.
    + intros ->. destruct (seg_nxt _ _ _ _ _ H2) as [E|E].
      * apply Hz1. rewrite <- E. left.
      * apply (Hd (nxt b)); [right; left|done].
    + intros ->. destruct (seg_prv _ _ _ _ _ Hs) as [E|E]; apply Ha; [rewrite E; left|by right].
Qed.

(** Putting [b] right after [h]. *)
Lemma seg_push nxt prv h b l :
  h ∉ l -> b ∉ l -> b <> h -> NoDup l -> seg nxt prv h l h ->
  seg (fupd (fupd nxt b (nxt h)) h b) (fupd (fupd prv b h) (nxt h) b) h (b :: l) h.
Proof.
  intros Hh Hb Hbh Hnd Hs. simpl. rewrite fupd_eq. split; [done|].
  assert (nxt h <> b) as Hne.
  { destruct (seg_nxt _ _ _ _ _ Hs) as [->|E]; [done|]. intros <-. done. }
  split; [by rewrite fupd_ne, fupd_eq|].
  destruct l as [|y l]; simpl in *.
  - destruct Hs as [-> _]. rewrite fupd_ne, fupd_eq, fupd_eq by done. done.
  - destruct Hs as (E1 & E2 & Hs). rewrite E1 in *. rewrite fupd_ne, fupd_eq, fupd_eq by done.
    split_and!; [done..|]. apply NoDup_cons in Hnd as [Hy _]. eapply seg_ext; [| |exact Hs].
    + intros x Hx. rewrite !fupd_ne; [done|intros ->..]; destruct Hx as [->|Hx];
        [apply Hb; left|apply Hb; by right|apply Hh; left|apply Hh; by right].
    + intros x Hx. assert (x <> y) by (intros ->; destruct Hx as [->|?]; [apply Hh; left|done]).
      rewrite fupd_ne by done. destruct (decide (x = b)) as [->|]; [|by rewrite fupd_ne].
      destruct Hx as [->|Hx]; [done|]. destruct Hb. by right.
Qed.

End dll.

(** * The invariant *)

Definition nxts (s : bio) (i : nat) : nat := b_next (getb i s).
Definition prvs (s : bio) (i : nat) : nat := b_prev (getb i s).

(** A buffer without its links. *)
Definition core (b : buf) : buf := set_prev 0 (set_next 0 b).

Definition caches (dev n : Z) (b : buf) : Prop := b_dev b = dev /\ b_blockno b = n.
#[global] Instance caches_dec dev n b : Decision (caches dev n b).
Proof. unfold caches. apply _. Defined.

(** [l] is the list from most to least recently used. *)
Record bio_inv (dev : Z) (s : bio) (l : list nat) : Prop := {
  bi_lock : bc_lock s = Free;
  bi_len : length (bc_buf s) = S NBUF;
  bi_seg : seg (nxts s) (prvs s) HEAD l HEAD;
  bi_perm : l ≡ₚ seq 0 NBUF;
  bi_uniq : forall i j n, (i < NBUF)%nat -> (j < NBUF)%nat ->
    caches dev n (getb i s) -> caches dev n (getb j s) -> i = j;
  bi_dev : forall i, (i < NBUF)%nat -> b_valid (getb i s) = true -> b_dev (getb i s) = dev;
  bi_ref : forall i, (i < NBUF)%nat -> 0 <= b_refcnt (getb i s) < 2 ^ 32;
  bi_sl : forall i, (i < NBUF)%nat -> sl_lk (b_lock (getb i s)) = Free;
  bi_free : forall i, (i < NBUF)%nat -> b_refcnt (getb i s) = 0 ->
    sl_locked (b_lock (getb i s)) = false /\
    (b_valid (getb i s) = true -> b_data (getb i s) = dblock (disk s) (b_blockno (getb i s)))
}.

(** The contents of block [n] as seen through the cache. *)
Definition bview (s : bio) (n : Z) : list Z :=
  match list_find (fun b => b_valid b = true /\ b_blockno b = n) (take NBUF (bc_buf s)) with
  | Some (_, b) => b_data b
  | None => dblock (disk s) n
  end.

Lemma getb_alter f i j s : (i < length (bc_buf s))%nat ->
  getb j (set_bc_buf (alter f i) s) = if decide (j = i) then f (getb i s) else getb j s.
Proof.
  intros Hi. unfold getb. simpl. destruct (decide (j = i)) as [->|Hne].
  - rewrite list_lookup_alter_eq. by destruct (lookup_lt_is_Some_2 (bc_buf s) i Hi) as [b ->].
  - by rewrite list_lookup_alter_ne.
Qed.

Lemma perm_in l i : l ≡ₚ seq 0 NBUF -> i ∈ l <-> (i < NBUF)%nat.
Proof. intros ->. rewrite elem_of_seq. lia. Qed.

Lemma perm_head l : l ≡ₚ seq 0 NBUF -> HEAD ∉ l.
Proof. intros Hl. rewrite (perm_in l _ Hl). unfold HEAD. lia. Qed.

Lemma perm_nodup l : l ≡ₚ seq 0 NBUF -> NoDup l.
Proof. intros ->. apply NoDup_seq. Qed.

Lemma getb_lookup s i : (i < length (bc_buf s))%nat -> bc_buf s !! i = Some (getb i s).
Proof. intros Hi. unfold getb. by destruct (lookup_lt_is_Some_2 (bc_buf s) i Hi) as [b ->]. Qed.

Lemma bview_hit dev s l i :
  bio_inv dev s l -> (i < NBUF)%nat -> b_valid (getb i s) = true ->
  bview s (b_blockno (getb i s)) = b_data (getb i s).
Proof.
  intros Hinv Hi Hv. unfold bview. pose proof (bi_len _ _ _ Hinv) as Hlen.
  destruct (list_find _ _) as [[j b]|] eqn:E.
  - apply list_find_Some in E as (Hj & [Hvb Hnb] & _). apply lookup_take_Some in Hj as [Hj Hjn].
    assert (b = getb j s) as -> by (unfold getb; by rewrite Hj).
    rewrite (bi_uniq _ _ _ Hinv j i (b_blockno (getb i s))); try done.
    + split; [by apply (bi_dev _ _ _ Hinv)|done].
    + split; [by apply (bi_dev _ _ _ Hinv)|done].
  - apply list_find_None in E. exfalso. rewrite Forall_forall in E. eapply (E (getb i s)); [|done].
    eapply list_elem_of_lookup_2. apply lookup_take_Some. split; [apply getb_lookup; lia|done].
Qed.

Lemma bview_miss s n :
  (length (bc_buf s) = S NBUF) ->
  (forall i, (i < NBUF)%nat -> b_valid (getb i s) = true -> b_blockno (getb i s) <> n) ->
  bview s n = dblock (disk s) n.
Proof.
  intros Hlen Hn. unfold bview. destruct (list_find _ _) as [[j b]|] eqn:E; [|done].
  apply list_find_Some in E as (Hj & [Hvb Hnb] & _). apply lookup_take_Some in Hj as [Hj Hjn].
  assert (b = getb j s) as -> by (unfold getb; by rewrite Hj). by edestruct (Hn j).
Qed.

(** The view depends on the cores and the disk only. *)
Lemma bview_core s s' n :
  length (bc_buf s) = S NBUF -> length (bc_buf s') = S NBUF -> disk s' = disk s ->
  (forall i, (i < NBUF)%nat -> core (getb i s') = core (getb i s)) -> bview s' n = bview s n.
Proof.
  intros Hl Hl' Hd Hc. unfold bview. rewrite Hd.
  assert (core <$> take NBUF (bc_buf s') = core <$> take NBUF (bc_buf s)) as E.
  { apply list_eq. intros i. rewrite !list_lookup_fmap. destruct (decide (i < NBUF)%nat) as [Hi|Hi].
    - rewrite !lookup_take_lt, !getb_lookup by lia. simpl. by rewrite Hc.
    - rewrite !lookup_take_ge by lia. done. }
  clear -E. revert E. generalize (take NBUF (bc_buf s')) (take NBUF (bc_buf s)).
  intros k k'. revert k'. induction k as [|b k IH]; intros [|b' k'] E; simpl in E; try done.
  injection E as E1 E2 E3 E4 E5 E6 Ek. specialize (IH _ Ek). simpl.
  destruct (decide _) as [D1|D1], (decide _) as [D2|D2]; simpl.
  1: done.
  1, 2: rewrite E1, E3 in D1; tauto.
  destruct (list_find _ k) as [[??]|], (list_find _ k') as [[??]|]; done.
Qed.

(** * bget() *)

Lemma seg_rev nxt prv a l z : seg nxt prv a l z -> seg prv nxt z (reverse l) a.
Proof.
  revert a. induction l as [|x l IH]; intros a; [simpl; tauto|].
  rewrite reverse_cons. intros (E1 & E2 & Hs). apply seg_app. split; [by apply IH|done].
Qed.

Lemma bget_cached_spec s l a fuel dev n :
  seg (nxts s) (prvs s) a l HEAD -> HEAD ∉ l -> (length l <= fuel)%nat ->
  (exists i, i ∈ l /\ caches dev n (getb i s) /\ bget_cached fuel (nxts s a) dev n s = Ok (Some i) s) \/
  ((forall i, i ∈ l -> ~ caches dev n (getb i s)) /\ bget_cached fuel (nxts s a) dev n s = Ok None s).
Proof.
  revert a fuel. induction l as [|x l IH]; intros a fuel; simpl.
  - intros [-> _] _ _. right. split; [by intros i ?%not_elem_of_nil|]. by destruct fuel.
  - intros (-> & _ & Hs) Hh Hf. destruct fuel as [|fuel]; [simpl in Hf; lia|].
    assert (x <> HEAD) by (intros ->; apply Hh; left). cbn [bget_cached].
    rewrite decide_False by done. unfold bind, gets.
    destruct (decide (caches dev n (getb x s))) as [[E1 E2]|Hno].
    + left. exists x. split_and!; [left|done|]. by rewrite E1, E2, !Z.eqb_refl.
    + assert ((b_dev (getb x s) =? dev) && (b_blockno (getb x s) =? n) = false) as ->.
      { apply not_true_iff_false. intros [?%Z.eqb_eq ?%Z.eqb_eq]%andb_true_iff. by apply Hno. }
      destruct (IH x fuel) as [(i & Hi & Hc & E)|[Hn E]]; [done|intros ?; apply Hh; by right|simpl in Hf; lia|..].
      * left. exists i. split_and!; [by right|done|done].
      * right. split; [|done]. intros i [->|Hi]%elem_of_cons; [done|by apply Hn].
Qed.

Lemma bget_lru_spec s l a fuel :
  seg (prvs s) (nxts s) a l HEAD -> HEAD ∉ l -> (length l <= fuel)%nat ->
  (exists i l1 l2, l = l1 ++ i :: l2 /\ b_refcnt (getb i s) = 0 /\
     (forall j, j ∈ l1 -> b_refcnt (getb j s) <> 0) /\ bget_lru fuel (prvs s a) s = Ok (Some i) s) \/
  ((forall i, i ∈ l -> b_refcnt (getb i s) <> 0) /\ bget_lru fuel (prvs s a) s = Ok None s).
Proof.
  revert a fuel. induction l as [|x l IH]; intros a fuel; simpl.
  - intros [-> _] _ _. right. split; [by intros i ?%not_elem_of_nil|]. by destruct fuel.
  - intros (-> & _ & Hs) Hh Hf. destruct fuel as [|fuel]; [simpl in Hf; lia|].
    assert (x <> HEAD) by (intros ->; apply Hh; left). cbn [bget_lru].
    rewrite decide_False by done. unfold bind, gets.
    destruct (Z.eqb_spec (b_refcnt (getb x s)) 0) as [E|E].
    + left. exists x, [], l. split_and!; [done|done|by intros j ?%not_elem_of_nil|done].
    + destruct (IH x fuel) as [(i & l1 & l2 & -> & Hi & Hl & Er)|[Hn Er]];
        [done|intros ?; apply Hh; by right|simpl in Hf; lia|..].
      * left. exists i, (x :: l1), l2. split_and!; [done|done| |done].
        intros j [->|Hj]%elem_of_cons; [done|by apply Hl].
      * right. split; [|done]. intros i [->|Hi]%elem_of_cons; [done|by apply Hn].
Qed.

Lemma acquiresleep_free me lk :
  sl_lk lk = Free -> sl_locked lk = false -> acquiresleep me lk = Ok tt (Sleeplock Free true me).
Proof. destruct lk as [k b p]. simpl. by intros -> ->. Qed.

(** [s'] differs from [s] in the core of buffer [i] only, which is [b]. *)
Record one_buf (s s' : bio) (i : nat) (b : buf) : Prop := {
  ob_lock : bc_lock s' = bc_lock s;
  ob_len : length (bc_buf s') = length (bc_buf s);
  ob_at : core (getb i s') = core b;
  ob_other : forall j, j <> i -> core (getb j s') = core (getb j s);
  ob_disk : disk s' = disk s;
  ob_trace : dtrace s' = dtrace s
}.

(** Updating a buffer's core, links untouched. *)
Lemma one_buf_alter s i f : (i < length (bc_buf s))%nat -> one_buf s (set_bc_buf (alter f i) s) i (f (getb i s)).
Proof.
  intros Hi. split; try done; simpl.
  - by rewrite length_alter.
  - by rewrite getb_alter, decide_True.
  - intros j Hj. by rewrite getb_alter, decide_False.
Qed.

Lemma core_valid b b' : core b = core b' -> b_valid b = b_valid b'.
Proof. exact (f_equal b_valid (x := core b) (y := core b')). Qed.
Lemma core_dev b b' : core b = core b' -> b_dev b = b_dev b'.
Proof. exact (f_equal b_dev (x := core b) (y := core b')). Qed.
Lemma core_blockno b b' : core b = core b' -> b_blockno b = b_blockno b'.
Proof. exact (f_equal b_blockno (x := core b) (y := core b')). Qed.
Lemma core_lock b b' : core b = core b' -> b_lock b = b_lock b'.
Proof. exact (f_equal b_lock (x := core b) (y := core b')). Qed.
Lemma core_refcnt b b' : core b = core b' -> b_refcnt b = b_refcnt b'.
Proof. exact (f_equal b_refcnt (x := core b) (y := core b')). Qed.
Lemma core_data b b' : core b = core b' -> b_data b = b_data b'.
Proof. exact (f_equal b_data (x := core b) (y := core b')). Qed.

(** What a buffer must satisfy in the state [s] with disk [d]. *)
Definition buf_ok (dev : Z) (d : gmap Z (list Z)) (b : buf) : Prop :=
  (b_valid b = true -> b_dev b = dev) /\ 0 <= b_refcnt b < 2 ^ 32 /\ sl_lk (b_lock b) = Free /\
  (b_refcnt b = 0 -> sl_locked (b_lock b) = false /\
    (b_valid b = true -> b_data b = dblock d (b_blockno b))).

Lemma buf_ok_core dev d b b' : core b = core b' -> buf_ok dev d b -> buf_ok dev d b'.
Proof.
  intros E. unfold buf_ok. rewrite (core_valid _ _ E), (core_dev _ _ E), (core_refcnt _ _ E),
    (core_lock _ _ E), (core_data _ _ E), (core_blockno _ _ E). done.
Qed.

Lemma bio_inv_buf_ok dev s l i : bio_inv dev s l -> (i < NBUF)%nat -> buf_ok dev (disk s) (getb i s).
Proof. intros Hinv Hi. split_and!; by apply Hinv. Qed.

Lemma caches_core dev n b b' : core b = core b' -> caches dev n b -> caches dev n b'.
Proof. intros E. unfold caches. by rewrite (core_dev _ _ E), (core_blockno _ _ E). Qed.

(** The invariant after a change to one buffer. *)
Lemma bio_inv_one dev s l s' l' i b :
  bio_inv dev s l -> one_buf s s' i b -> (i < NBUF)%nat ->
  seg (nxts s') (prvs s') HEAD l' HEAD -> l' ≡ₚ seq 0 NBUF -> buf_ok dev (disk s) b ->
  (forall j n, (j < NBUF)%nat -> j <> i -> caches dev n b -> ~ caches dev n (getb j s)) ->
  bio_inv dev s' l'.
Proof.
  intros Hinv Ho Hi Hseg Hperm Hb Hu.
  assert (Hall : forall j, (j < NBUF)%nat -> buf_ok dev (disk s') (getb j s')).
  { intros j Hj. rewrite (ob_disk _ _ _ _ Ho). destruct (decide (j = i)) as [->|Hne].
    - eapply buf_ok_core; [symmetry; apply Ho|done].
    - eapply buf_ok_core; [symmetry; by apply Ho|by eapply bio_inv_buf_ok]. }
  split; try done.
  - rewrite (ob_lock _ _ _ _ Ho). apply Hinv.
  - rewrite (ob_len _ _ _ _ Ho). apply Hinv.
  - intros j k n Hj Hk Cj Ck. destruct (decide (j = i)) as [->|Hji], (decide (k = i)) as [->|Hki]; [done|..].
    + exfalso. eapply (Hu k n); [done|done|by eapply caches_core; [apply Ho|]|].
      eapply caches_core; [by apply (ob_other _ _ _ _ Ho)|done].
    + exfalso. eapply (Hu j n); [done|done|by eapply caches_core; [apply Ho|]|].
      eapply caches_core; [by apply (ob_other _ _ _ _ Ho)|done].
    + apply (bi_uniq _ _ _ Hinv j k n); [done|done|..]; (eapply caches_core; [by apply (ob_other _ _ _ _ Ho)|done]).
  - intros j Hj. by apply Hall.
  - intros j Hj. by apply Hall.
  - intros j Hj. by apply Hall.
  - intros j Hj. by apply Hall.
Qed.

Lemma view_cases s m : length (bc_buf s) = S NBUF ->
  (exists j, (j < NBUF)%nat /\ b_valid (getb j s) = true /\ b_blockno (getb j s) = m) \/
  (forall j, (j < NBUF)%nat -> b_valid (getb j s) = true -> b_blockno (getb j s) <> m).
Proof.
  intros Hlen.
  destruct (list_find (fun b => b_valid b = true /\ b_blockno b = m) (take NBUF (bc_buf s))) as [[j b]|] eqn:E.
  - left. apply list_find_Some in E as (Hj & ? & _). apply lookup_take_Some in Hj as [Hj Hjn].
    exists j. unfold getb. by rewrite Hj.
  - right. apply list_find_None in E. rewrite Forall_forall in E. intros j Hj Hv Hm.
    eapply (E (getb j s)); [|done]. eapply list_elem_of_lookup_2. apply lookup_take_Some.
    split; [apply getb_lookup; lia|done].
Qed.

(** The view when the core of buffer [i] changes to [b], which holds what
    the view says, and what was in [i] was on disk. *)
Lemma bview_one dev s l s' l' i b m :
  bio_inv dev s l -> bio_inv dev s' l' -> one_buf s s' i b -> (i < NBUF)%nat ->
  (b_valid b = true -> b_data b = bview s (b_blockno b)) ->
  (b_valid (getb i s) = true -> (b_valid b = true /\ b_blockno b = b_blockno (getb i s)) \/
     b_data (getb i s) = dblock (disk s) (b_blockno (getb i s))) ->
  bview s' m = bview s m.
Proof.
  intros Hinv Hinv' Ho Hi Hb Hold. pose proof (bi_len _ _ _ Hinv) as Hl. pose proof (bi_len _ _ _ Hinv') as Hl'.
  destruct (view_cases s' m Hl') as [(j & Hj & Hv & Hm)|Hn].
  - rewrite <- Hm. rewrite (bview_hit _ _ _ _ Hinv') by done.
    destruct (decide (j = i)) as [->|Hne].
    + pose proof (ob_at _ _ _ _ Ho) as Hc.
      rewrite (core_data _ _ Hc), (core_blockno _ _ Hc), Hb; [done|]. by rewrite <- (core_valid _ _ Hc).
    + pose proof (ob_other _ _ _ _ Ho j Hne) as Hc.
      rewrite (core_data _ _ Hc), (core_blockno _ _ Hc), (bview_hit _ _ _ _ Hinv); [done|done|].
      by rewrite <- (core_valid _ _ Hc).
  - rewrite (bview_miss s') by done. rewrite (ob_disk _ _ _ _ Ho).
    destruct (view_cases s m Hl) as [(j & Hj & Hv & Hm)|Hn']; [|by rewrite bview_miss].
    rewrite <- Hm. rewrite (bview_hit _ _ _ _ Hinv) by done.
    destruct (decide (j = i)) as [->|Hne].
    + destruct (Hold Hv) as [[Hbv Hbn]|?]; [|done]. exfalso.
      pose proof (ob_at _ _ _ _ Ho) as Hc. eapply Hn; [done|by rewrite (core_valid _ _ Hc)|].
      by rewrite (core_blockno _ _ Hc), Hbn.
    + exfalso. pose proof (ob_other _ _ _ _ Ho j Hne) as Hc. eapply Hn; [done|by rewrite (core_valid _ _ Hc)|].
      by rewrite (core_blockno _ _ Hc).
Qed.

(** * bread() *)

(** The buffer bread() returns. *)
Definition held (me dev n r : Z) (d : list Z) : buf := Buf true dev n (Sleeplock Free true me) r 0 0 d.

Definition bread_post (me dev n : Z) (s : bio) (l : list nat) (i : nat) (s' : bio) : Prop :=
  (i < NBUF)%nat /\ bio_inv dev s' l /\
  one_buf s s' i (held me dev n (b_refcnt (getb i s) + 1) (bview s n)) /\
  (caches dev n (getb i s) \/
   (b_refcnt (getb i s) = 0 /\ forall j, (j < NBUF)%nat -> ~ caches dev n (getb j s))) /\
  (forall m, bview s' m = bview s m).

(** bread() can proceed: the block's buffer is free, or it is not cached
    and some buffer is unused. *)
Definition can_bread (dev n : Z) (s : bio) : Prop :=
  (forall i, (i < NBUF)%nat -> caches dev n (getb i s) ->
     sl_locked (b_lock (getb i s)) = false /\ b_refcnt (getb i s) + 1 < 2 ^ 32) /\
  ((exists i, (i < NBUF)%nat /\ caches dev n (getb i s)) \/ (exists i, (i < NBUF)%nat /\ b_refcnt (getb i s) = 0)).

(** The links are those of [s]. *)
Definition same_links (s s' : bio) : Prop := forall j, b_next (getb j s') = b_next (getb j s) /\ b_prev (getb j s') = b_prev (getb j s).

Lemma same_links_seg s s' a l z : same_links s s' -> seg (nxts s) (prvs s) a l z -> seg (nxts s') (prvs s') a l z.
Proof. intros H. apply seg_ext; intros x _; apply H. Qed.

(** The end of bread(): read the block in if the buffer is not valid. *)
Definition bread_fill (b : nat) : M bio nat :=
  let! x := gets (getb b) in
  (if negb (b_valid x) then disk_rw b false ;; modb b (set_valid true) else ret tt) ;; ret b.

Lemma bread_fill_spec s i x :
  (i < length (bc_buf s))%nat -> getb i s = x ->
  exists s', bread_fill i s = Ok i s' /\ same_links s s' /\
    one_buf s s' i (set_valid true (set_data (if b_valid x then b_data x else dblock (disk s) (b_blockno x)) x)).
Proof.
  intros Hi Hx. unfold bread_fill, bind, gets, disk_rw, modb, modify, ret. rewrite Hx.
  destruct (b_valid x) eqn:Hv; simpl.
  - exists s. split_and!; [done|done|]. split; try done. rewrite Hx. destruct x. simpl in *. by subst.
  - rewrite Hx. eexists. split_and!; [done|..].
    + intros j. rewrite getb_alter by (simpl; by rewrite length_alter). rewrite getb_alter by done.
      rewrite (decide_True (P := i = i)) by done. rewrite getb_alter by done.
      destruct (decide (j = i)) as [->|]; [|done]. rewrite Hx. by destruct x.
    + split; simpl; try done.
      * by rewrite !length_alter.
      * rewrite getb_alter, decide_True by (simpl; rewrite ?length_alter; done).
        rewrite getb_alter, decide_True by done. rewrite Hx. by destruct x.
      * intros j Hj. rewrite getb_alter, decide_False by (simpl; rewrite ?length_alter; done).
        by rewrite getb_alter, decide_False.
Qed.

Lemma one_buf_trans s s1 s2 i b1 b2 : one_buf s s1 i b1 -> one_buf s1 s2 i b2 -> one_buf s s2 i b2.
Proof.
  intros A B. split; [rewrite (ob_lock _ _ _ _ B); apply A|rewrite (ob_len _ _ _ _ B); apply A|apply B|..].
  - intros j Hj. rewrite (ob_other _ _ _ _ B) by done. by apply A.
  - rewrite (ob_disk _ _ _ _ B). apply A.
  - rewrite (ob_trace _ _ _ _ B). apply A.
Qed.

(** The tail of bget(): update the buffer, drop the cache lock, take the
    buffer's sleep lock. *)
Lemma bget_take s i me f :
  (i < length (bc_buf s))%nat -> bc_lock s = Free ->
  b_next (f (getb i s)) = b_next (getb i s) -> b_prev (f (getb i s)) = b_prev (getb i s) ->
  sl_lk (b_lock (f (getb i s))) = Free -> sl_locked (b_lock (f (getb i s))) = false ->
  exists s', (modb i f ;; bc_release ;; on_lock i (acquiresleep me) ;; ret i) (set_bc_lock Mine s) = Ok i s' /\
    same_links s s' /\ one_buf s s' i (set_lock (Sleeplock Free true me) (f (getb i s))).
Proof.
  intros Hi Hl Hn Hp Hf Hu. unfold bind, modb, modify, bc_release, lock_release, gets, on_lock, zoom, ret. simpl.
  set (s1 := set_bc_lock Free (set_bc_buf (alter f i) s)).
  change (set_bc_lock Free (set_bc_buf (alter f i) (set_bc_lock Mine s))) with s1.
  assert (E1 : forall j, getb j s1 = if decide (j = i) then f (getb i s) else getb j s).
  { intros j. change (getb j s1) with (getb j (set_bc_buf (alter f i) s)). by apply getb_alter. }
  assert (Hi1 : (i < length (bc_buf s1))%nat) by (simpl; by rewrite length_alter).
  rewrite (acquiresleep_free me); [|by rewrite E1, decide_True..].
  eexists. split_and!; [done|..].
  - intros j. rewrite getb_alter, !E1, (decide_True (P := i = i)) by done.
    destruct (decide (j = i)) as [->|]; [|done]. by rewrite <- Hn, <- Hp.
  - split; try done.
    + simpl. by rewrite !length_alter.
    + by rewrite getb_alter, decide_True, E1, decide_True.
    + intros j Hj. by rewrite getb_alter, decide_False, E1, decide_False.
Qed.

Lemma bget_spec me dev n s l :
  bio_inv dev s l -> can_bread dev n s ->
  exists i s', bget me dev n s = Ok i s' /\ (i < NBUF)%nat /\ same_links s s' /\
    ((caches dev n (getb i s) /\
      one_buf s s' i (set_lock (Sleeplock Free true me) (set_refcnt (b_refcnt (getb i s) + 1) (getb i s)))) \/
     (b_refcnt (getb i s) = 0 /\ (forall j, (j < NBUF)%nat -> ~ caches dev n (getb j s)) /\
      (exists l1 l2, l = l1 ++ i :: l2 /\ forall j, j ∈ l2 -> b_refcnt (getb j s) <> 0) /\
      one_buf s s' i (set_lock (Sleeplock Free true me) (set_refcnt 1 (set_valid false (set_id dev n (getb i s))))))).
Proof.
  intros Hinv [Hfree Hsome]. pose proof (bi_perm _ _ _ Hinv) as Hperm.
  pose proof (bi_len _ _ _ Hinv) as Hlen. pose proof (bi_lock _ _ _ Hinv) as Hlk.
  assert (Hll : length l = NBUF) by (rewrite Hperm; apply length_seq).
  unfold bget. unfold bind at 1. unfold bc_acquire, lock_acquire. unfold bind at 1, gets at 1. rewrite Hlk.
  unfold modify at 1, bind at 1, gets at 1. set (s0 := set_bc_lock Mine s).
  change (b_next (getb HEAD s0)) with (nxts s0 HEAD). unfold bind at 1.
  destruct (bget_cached_spec s0 l HEAD NBUF dev n) as [(i & Hi & Hc & ->)|[Hno ->]];
    [apply Hinv|by apply perm_head|lia|..].
  - apply (perm_in l i Hperm) in Hi. change (getb i s0) with (getb i s) in Hc.
    destruct (Hfree i Hi Hc) as [Hul Href]. pose proof (bi_ref _ _ _ Hinv i Hi) as Hr.
    destruct (bget_take s i me (fun x => set_refcnt (u32 (b_refcnt x + 1)) x)) as (s' & E & H1 & H2);
      [lia|done|done|done|by apply Hinv|done|].
    exists i, s'. split; [exact E|]. split_and!; try done. left. split; [done|]. by rewrite u32_small in H2 by lia.
  - unfold bind at 1, gets at 1, bind at 1. change (b_prev (getb HEAD s0)) with (prvs s0 HEAD).
    assert (Hno' : forall j, (j < NBUF)%nat -> ~ caches dev n (getb j s)).
    { intros j Hj. by apply Hno, (perm_in l j Hperm). }
    destruct (bget_lru_spec s0 (reverse l) HEAD NBUF) as [(i & l1 & l2 & El & Hi0 & Hl1 & ->)|[Hall ->]].
    + apply seg_rev. apply Hinv.
    + rewrite elem_of_reverse. by apply perm_head.
    + rewrite length_reverse. lia.
    + assert (Hi : (i < NBUF)%nat).
      { apply (perm_in l i Hperm), elem_of_reverse. rewrite El. apply elem_of_app. right. left. }
      change (getb i s0) with (getb i s) in Hi0. destruct (bi_free _ _ _ Hinv i Hi Hi0) as [Hul _].
      destruct (bget_take s i me (fun x => set_refcnt 1 (set_valid false (set_id dev n x)))) as (s' & E & H1 & H2);
        [lia|done|done|done|by apply Hinv|done|].
      exists i, s'. split; [exact E|]. split_and!; try done. right. split_and!; try done.
      exists (reverse l2), (reverse l1). split.
      * rewrite <- (reverse_involutive l), El, reverse_app, reverse_cons, <- (assoc_L (++)). done.
      * intros j Hj. apply (Hl1 j). by apply elem_of_reverse.
    + exfalso. destruct Hsome as [(i & Hi & Hc)|(i & Hi & H0)]; [by eapply Hno'|].
      apply (Hall i); [|done]. by apply elem_of_reverse, (perm_in l i Hperm).
Qed.

Lemma bview_invalid dev s l n :
  bio_inv dev s l -> (forall j, (j < NBUF)%nat -> caches dev n (getb j s) -> b_valid (getb j s) = false) ->
  bview s n = dblock (disk s) n.
Proof.
  intros Hinv Hn. apply bview_miss; [apply Hinv|]. intros j Hj Hv Hb.
  rewrite (Hn j Hj) in Hv; [done|]. split; [by apply (bi_dev _ _ _ Hinv)|done].
Qed.

(** The buffer at the end of bread() holds the block's contents. *)
Lemma bread_held dev n s l i x me :
  bio_inv dev s l -> (i < NBUF)%nat ->
  ((caches dev n (getb i s) /\ core x = core (set_lock (Sleeplock Free true me) (set_refcnt (b_refcnt (getb i s) + 1) (getb i s)))) \/
   (b_refcnt (getb i s) = 0 /\ (forall j, (j < NBUF)%nat -> ~ caches dev n (getb j s)) /\
    core x = core (set_lock (Sleeplock Free true me) (set_refcnt 1 (set_valid false (set_id dev n (getb i s))))))) ->
  core (set_valid true (set_data (if b_valid x then b_data x else dblock (disk s) (b_blockno x)) x)) =
  held me dev n (b_refcnt (getb i s) + 1) (bview s n).
Proof.
  intros Hinv Hi Hx.
  assert (Hcore : forall d, core (set_valid true (set_data d x)) =
    Buf true (b_dev x) (b_blockno x) (b_lock x) (b_refcnt x) 0 0 d) by (intros d; by destruct x).
  rewrite Hcore. unfold held. destruct Hx as [[[Hd Hb] Hc]|(Hr & Hno & Hc)];
    rewrite (core_dev _ _ Hc), (core_blockno _ _ Hc), (core_lock _ _ Hc), (core_refcnt _ _ Hc), (core_valid _ _ Hc), (core_data _ _ Hc); simpl.
  - rewrite Hd, Hb. f_equal. destruct (b_valid (getb i s)) eqn:Hv.
    + symmetry. rewrite <- Hb. by eapply bview_hit.
    + symmetry. eapply bview_invalid; [done|]. intros j Hj Hcj.
      rewrite (bi_uniq _ _ _ Hinv j i n); done.
  - rewrite Hr. f_equal. symmetry. eapply bview_invalid; [done|]. intros j Hj Hcj. by edestruct Hno.
Qed.

Lemma bread_spec me dev n s l :
  bio_inv dev s l -> can_bread dev n s ->
  wp (bread me dev n) (fun i s' => bread_post me dev n s l i s' /\
    (caches dev n (getb i s) \/
     exists l1 l2, l = l1 ++ i :: l2 /\ b_refcnt (getb i s) = 0 /\ forall j, j ∈ l2 -> b_refcnt (getb j s) <> 0)) s.
Proof.
  intros Hinv Hcan. unfold bread. change (wp (let! b := bget me dev n in bread_fill b) (fun i s' =>
    bread_post me dev n s l i s' /\ (caches dev n (getb i s) \/
     exists l1 l2, l = l1 ++ i :: l2 /\ b_refcnt (getb i s) = 0 /\ forall j, j ∈ l2 -> b_refcnt (getb j s) <> 0)) s).
  destruct (bget_spec me dev n s l Hinv Hcan) as (i & s1 & Eg & Hi & Hlinks & Hcase).
  rewrite wp_bind. eapply wp_of_ok; [exact Eg|].
  assert (Hob1 : exists b1, one_buf s s1 i b1) by (destruct Hcase as [[_ ?]|(_ & _ & _ & ?)]; by eexists).
  destruct Hob1 as [b1 Hob1]. pose proof (bi_len _ _ _ Hinv) as Hlen.
  destruct (bread_fill_spec s1 i (getb i s1)) as (s2 & Ef & Hlinks2 & Hob2);
    [rewrite (ob_len _ _ _ _ Hob1); lia|done|].
  eapply wp_of_ok; [exact Ef|]. rewrite (ob_disk _ _ _ _ Hob1) in Hob2.
  assert (Hob : one_buf s s2 i (held me dev n (b_refcnt (getb i s) + 1) (bview s n))).
  { pose proof (one_buf_trans _ _ _ _ _ _ Hob1 Hob2) as H. destruct H. split; try done. rewrite ob_at0.
    rewrite (bread_held dev n s l i (getb i s1) me Hinv Hi); [done|].
    destruct Hcase as [[? Ho]|(? & ? & _ & Ho)]; [left; split; [done|apply Ho]|right; split_and!; [done|done|apply Ho]]. }
  assert (Hinv2 : bio_inv dev s2 l).
  { eapply bio_inv_one; [exact Hinv|exact Hob|done| |apply Hinv|..].
    - eapply same_links_seg; [|apply Hinv]. intros j. destruct (Hlinks j), (Hlinks2 j). split; congruence.
    - pose proof (bi_ref _ _ _ Hinv i Hi). unfold buf_ok, held. simpl. split_and!; try done; [lia| |lia].
      destruct Hcase as [[Hc _]|(-> & _)]; [by apply Hcan|done].
    - intros j m Hj Hne Hm Hcj. destruct Hm as [_ Em]. simpl in Em. subst m.
      destruct Hcase as [[Hc _]|(_ & Hno & _)]; [apply Hne; by eapply (bi_uniq _ _ _ Hinv)|by eapply Hno]. }
  split; [split_and!; try done|].
  - destruct Hcase as [[? _]|(? & ? & _)]; [by left|right; done].
  - intros m. eapply bview_one; [exact Hinv|exact Hinv2|exact Hob|done|done|].
    intros Hv. destruct Hcase as [[[_ Hb] _]|(H0 & _)]; [left; split; done|right].
    by apply (bi_free _ _ _ Hinv).
  - destruct Hcase as [[? _]|(? & _ & (l1 & l2 & ? & ?) & _)]; [by left|right; by exists l1, l2].
Qed.

(** * brelse() *)

(** [s'] is [s] with the links given by [nxt] and [prv]. *)
Record relinked (s s' : bio) (nxt prv : nat -> nat) : Prop := {
  rl_nxt : forall j, nxts s' j = nxt j;
  rl_prv : forall j, prvs s' j = prv j;
  rl_core : forall j, core (getb j s') = core (getb j s);
  rl_len : length (bc_buf s') = length (bc_buf s);
  rl_lock : bc_lock s' = bc_lock s;
  rl_disk : disk s' = disk s;
  rl_trace : dtrace s' = dtrace s
}.

Lemma relinked_refl s : relinked s s (nxts s) (prvs s).
Proof. done. Qed.

Lemma relinked_next s s' nxt prv k v :
  relinked s s' nxt prv -> (k < length (bc_buf s))%nat ->
  relinked s (set_bc_buf (alter (set_next v) k) s') (fupd nxt k v) prv.
Proof.
  intros [R1 R2 R3 R4 R5 R6 R7] Hk. rewrite <- R4 in Hk.
  split; try done; try (intros j; unfold nxts, prvs; rewrite getb_alter by done).
  - unfold fupd. destruct (decide (j = k)); [done|apply R1].
  - destruct (decide (j = k)) as [->|]; [apply (R2 k)|apply R2].
  - rewrite <- R3. destruct (decide (j = k)) as [->|]; done.
  - simpl. by rewrite length_alter.
Qed.

Lemma relinked_prev s s' nxt prv k v :
  relinked s s' nxt prv -> (k < length (bc_buf s))%nat ->
  relinked s (set_bc_buf (alter (set_prev v) k) s') nxt (fupd prv k v).
Proof.
  intros [R1 R2 R3 R4 R5 R6 R7] Hk. rewrite <- R4 in Hk.
  split; try done; try (intros j; unfold nxts, prvs; rewrite getb_alter by done).
  - destruct (decide (j = k)) as [->|]; [apply (R1 k)|apply R1].
  - unfold fupd. destruct (decide (j = k)); [done|apply R2].
  - rewrite <- R3. destruct (decide (j = k)) as [->|]; done.
  - simpl. by rewrite length_alter.
Qed.

(** The pointer updates of brelse(). *)
Definition to_front (b : nat) : M bio unit :=
  let! x := gets (getb b) in
  modb (b_next x) (set_prev (b_prev x)) ;;
  let! x := gets (getb b) in
  modb (b_prev x) (set_next (b_next x)) ;;
  let! h := gets (getb HEAD) in
  modb b (set_next (b_next h)) ;;
  modb b (set_prev HEAD) ;;
  let! h := gets (getb HEAD) in
  modb (b_next h) (set_prev b) ;;
  modb HEAD (set_next b).

Lemma to_front_spec s l1 b l2 :
  length (bc_buf s) = S NBUF -> seg (nxts s) (prvs s) HEAD (l1 ++ b :: l2) HEAD ->
  l1 ++ b :: l2 ≡ₚ seq 0 NBUF ->
  exists s' nxt prv, to_front b s = Ok tt s' /\ relinked s s' nxt prv /\
    seg nxt prv HEAD (b :: l1 ++ l2) HEAD.
Proof.
  intros Hlen Hseg Hperm. pose proof (perm_nodup _ Hperm) as Hnd. pose proof (perm_head _ Hperm) as Hh.
  assert (Hlt : forall j, j = HEAD \/ j ∈ l1 ++ b :: l2 -> (j < length (bc_buf s))%nat).
  { intros j [->|Hj]; [unfold HEAD; lia|]. apply (perm_in _ j Hperm) in Hj. lia. }
  assert (Hb : b ∈ l1 ++ b :: l2) by (apply elem_of_app; right; left).
  assert (Hbh : b <> HEAD) by (intros ->; done).
  pose proof Hseg as [H1 H2]%seg_app. apply NoDup_app in Hnd as (Hnd1 & Hd & [Hb2 Hnd2]%NoDup_cons).
  assert (Hb1 : b ∉ l1) by (intros ?; apply (Hd b); [done|left]).
  assert (Hnb : nxts s b = HEAD \/ nxts s b ∈ l2) by (by apply seg_nxt in H2).
  assert (Hpb : prvs s b = HEAD \/ prvs s b ∈ l1) by (by apply seg_prv in H1).
  assert (Hnb' : nxts s b <> b) by (intros E; rewrite E in Hnb; destruct Hnb; done).
  assert (Hpb' : prvs s b <> b) by (intros E; rewrite E in Hpb; destruct Hpb; done).
  assert (Hin : forall j, j = HEAD \/ j ∈ l2 -> (j < length (bc_buf s))%nat).
  { intros j [->|Hj]; apply Hlt; [by left|right; apply elem_of_app; right; by right]. }
  assert (Hin1 : forall j, j = HEAD \/ j ∈ l1 -> (j < length (bc_buf s))%nat).
  { intros j [->|Hj]; apply Hlt; [by left|right; apply elem_of_app; by left]. }
  assert (Hj : seg (fupd (nxts s) (prvs s b) (nxts s b)) (fupd (prvs s) (nxts s b) (prvs s b)) HEAD (l1 ++ l2) HEAD).
  { apply seg_join; try done.
    - apply NoDup_cons. split; [|done]. intros ?. apply Hh, elem_of_app. by left.
    - intros x [->|Hx]%elem_of_cons Hx2; [apply Hh, elem_of_app; right; by right|]. apply (Hd x); [done|by right].
    - intros ?. apply Hh, elem_of_app. by left.
    - intros ?. apply Hh, elem_of_app. right. by right. }
  set (nxt1 := fupd (nxts s) (prvs s b) (nxts s b)) in *. set (prv1 := fupd (prvs s) (nxts s b) (prvs s b)) in *.
  assert (Hn1 : nxt1 HEAD = HEAD \/ nxt1 HEAD ∈ l1 ++ l2) by (by apply seg_nxt in Hj).
  pose proof (relinked_prev _ _ _ _ (nxts s b) (prvs s b) (relinked_refl s) (Hin _ Hnb)) as R1.
  pose proof (relinked_next _ _ _ _ (prvs s b) (nxts s b) R1 (Hin1 _ Hpb)) as R2.
  pose proof (relinked_next _ _ _ _ b (nxt1 HEAD) R2 (Hlt _ (or_intror Hb))) as R3.
  pose proof (relinked_prev _ _ _ _ b HEAD R3 (Hlt _ (or_intror Hb))) as R4.
  assert (Hl1 : (nxt1 HEAD < length (bc_buf s))%nat).
  { apply Hlt. destruct Hn1 as [?|[?|?]%elem_of_app]; [by left|right; apply elem_of_app; by left|].
    right. apply elem_of_app. right. by right. }
  pose proof (relinked_prev _ _ _ _ (nxt1 HEAD) b R4 Hl1) as R5.
  pose proof (relinked_next _ _ _ _ HEAD b R5 (Hlt _ (or_introl eq_refl))) as R6.
  fold nxt1 prv1 in R2, R3, R4, R5, R6.
  do 3 eexists. split_and!; [|exact R6|].
  - unfold to_front, bind, gets, modb, modify.
    change (b_next (getb b s)) with (nxts s b). change (b_prev (getb b s)) with (prvs s b).
    change (b_next (getb b (set_bc_buf ?f s))) with (nxts (set_bc_buf f s) b).
    change (b_prev (getb b (set_bc_buf ?f s))) with (prvs (set_bc_buf f s) b).
    rewrite (rl_nxt _ _ _ _ R1), (rl_prv _ _ _ _ R1), fupd_ne by done.
    pose proof (rl_nxt _ _ _ _ R2 HEAD) as E2. pose proof (rl_nxt _ _ _ _ R4 HEAD) as E4.
    unfold nxts in E2 at 1, E4 at 1. rewrite E2, E4, fupd_ne by done. done.
  - apply seg_push; try done.
    + intros [?|?]%elem_of_app; apply Hh, elem_of_app; [by left|right; by right].
    + intros [?|?]%elem_of_app; done.
    + apply NoDup_app. split_and!; try done. intros x Hx Hx2. apply (Hd x); [done|by right].
Qed.

Lemma on_lock_holding s i me :
  (i < length (bc_buf s))%nat -> b_lock (getb i s) = Sleeplock Free true me ->
  exists s', on_lock i (holdingsleep me) s = Ok true s' /\ same_links s s' /\ one_buf s s' i (getb i s).
Proof.
  intros Hi Hl. unfold on_lock, zoom. rewrite Hl.
  assert (holdingsleep me (Sleeplock Free true me) = Ok true (Sleeplock Free true me)) as ->.
  { unfold holdingsleep, bind, lock_acquire, lock_release, gets, modify, ret. simpl. by rewrite Z.eqb_refl. }
  eexists. split_and!; [done|..].
  - intros j. rewrite getb_alter by done. by destruct (decide (j = i)) as [->|].
  - pose proof (one_buf_alter s i (set_lock (Sleeplock Free true me)) Hi) as H.
    replace (set_lock _ (getb i s)) with (getb i s) in H; [done|]. rewrite <- Hl. by destruct (getb i s).
Qed.

(** [brelse] up to the LRU update. *)
Lemma brelse_drop s i :
  (i < length (bc_buf s))%nat -> bc_lock s = Free -> sl_lk (b_lock (getb i s)) = Free ->
  exists s', (on_lock i releasesleep ;; bc_acquire ;;
      modb i (fun x => set_refcnt (u32 (b_refcnt x - 1)) x)) s = Ok tt (set_bc_lock Mine s') /\
    same_links s s' /\
    one_buf s s' i (set_refcnt (u32 (b_refcnt (getb i s) - 1)) (set_lock (Sleeplock Free false 0) (getb i s))).
Proof.
  intros Hi Hl Hf. unfold on_lock, zoom, bind, bc_acquire, lock_acquire, gets, modb, modify.
  assert (releasesleep (b_lock (getb i s)) = Ok tt (Sleeplock Free false 0)) as ->.
  { destruct (b_lock (getb i s)) as [k b p]. simpl in Hf. by subst. }
  assert (El : forall f, bc_lock (set_bc_buf f s) = Free) by done.
  unfold bind. rewrite El. 
  exists (set_bc_buf (alter (fun x => set_refcnt (u32 (b_refcnt x - 1)) x) i)
    (set_bc_buf (alter (set_lock (Sleeplock Free false 0)) i) s)). split_and!; [reflexivity|..].
  - intros j. rewrite getb_alter by (simpl; by rewrite length_alter). rewrite !getb_alter by done.
    rewrite (decide_True (P := i = i)) by done. by destruct (decide (j = i)) as [->|].
  - split; try done.
    + simpl. by rewrite !length_alter.
    + rewrite getb_alter, decide_True by (simpl; by rewrite ?length_alter).
      by rewrite getb_alter, decide_True by done.
    + intros j Hj. rewrite getb_alter, decide_False by (simpl; by rewrite ?length_alter).
      by rewrite getb_alter, decide_False.
Qed.

(** The LRU list after brelse(). *)
Definition lru_touch (i : nat) (r : Z) (l : list nat) : list nat :=
  if r =? 1 then i :: filter (fun j => j <> i) l else l.

Lemma filter_ne_split (l1 : list nat) i l2 : NoDup (l1 ++ i :: l2) ->
  filter (fun j => j <> i) (l1 ++ i :: l2) = l1 ++ l2.
Proof.
  intros (_ & Hd & [Hi _]%NoDup_cons)%NoDup_app.
  assert (Hf : forall l : list nat, i ∉ l -> filter (fun j => j <> i) l = l).
  { intros l. induction l as [|x l IH]; intros Hl; [done|]. rewrite filter_cons_True.
    - f_equal. apply IH. intros ?. apply Hl. by right.
    - intros ->. apply Hl. left. }
  rewrite filter_app, filter_cons_False by (intros ?; done). rewrite !Hf; [done|done|].
  intros ?. apply (Hd i); [done|left].
Qed.

Lemma one_buf_relink s s' s'' i b nxt prv :
  one_buf s s' i b -> relinked s' s'' nxt prv -> one_buf s s'' i b.
Proof.
  intros A B. split; [rewrite (rl_lock _ _ _ _ B); apply A|rewrite (rl_len _ _ _ _ B); apply A|..].
  - rewrite (rl_core _ _ _ _ B). apply A.
  - intros j Hj. rewrite (rl_core _ _ _ _ B). by apply A.
  - rewrite (rl_disk _ _ _ _ B). apply A.
  - rewrite (rl_trace _ _ _ _ B). apply A.
Qed.

Lemma relinked_seg s s' nxt prv a l z :
  relinked s s' nxt prv -> seg nxt prv a l z -> seg (nxts s') (prvs s') a l z.
Proof. intros R. apply seg_ext; intros x _; apply R. Qed.

Lemma bind_seq3 {S B} (m1 m2 m3 : M S unit) (k : M S B) s a s' :
  (m1 ;; m2 ;; m3) s = Ok a s' -> (m1 ;; m2 ;; m3 ;; k) s = k s'.
Proof.
  unfold bind. destruct (m1 s) as [? t1| | |]; try done. destruct (m2 t1) as [? t2| | |]; try done. by intros ->.
Qed.

Lemma brelse_ok me s i l dev :
  bio_inv dev s l -> (i < NBUF)%nat -> b_lock (getb i s) = Sleeplock Free true me ->
  1 <= b_refcnt (getb i s) ->
  exists s', brelse me i s = Ok tt s' /\
    one_buf s s' i (set_refcnt (b_refcnt (getb i s) - 1) (set_lock (Sleeplock Free false 0) (getb i s))) /\
    seg (nxts s') (prvs s') HEAD (lru_touch i (b_refcnt (getb i s)) l) HEAD.
Proof.
  intros Hinv Hi Hl Hr. pose proof (bi_len _ _ _ Hinv) as Hlen. pose proof (bi_ref _ _ _ Hinv i Hi) as Hrr.
  destruct (on_lock_holding s i me) as (s1 & E1 & L1 & O1); [lia|done|].
  pose proof (ob_at _ _ _ _ O1) as C1.
  assert (Hlen1 : length (bc_buf s1) = S NBUF) by (rewrite (ob_len _ _ _ _ O1); lia).
  destruct (brelse_drop s1 i) as (s2 & E2 & L2 & O2).
  { lia. } { rewrite (ob_lock _ _ _ _ O1). apply Hinv. } { rewrite (core_lock _ _ C1). by rewrite Hl. }
  rewrite (core_refcnt _ _ C1), u32_small in O2 by lia.
  assert (O : one_buf s s2 i (set_refcnt (b_refcnt (getb i s) - 1) (set_lock (Sleeplock Free false 0) (getb i s)))).
  { pose proof (one_buf_trans _ _ _ _ _ _ O1 O2) as [H1 H2 H3 H4 H5 H6]. split; try done. rewrite H3.
    unfold core in *. destruct (getb i s), (getb i s1); simpl in *. unfold set_prev, set_next, set_refcnt, set_lock in *. simpl in *. congruence. }
  assert (S2 : seg (nxts s2) (prvs s2) HEAD l HEAD).
  { do 2 (eapply same_links_seg; [eassumption|]). apply Hinv. }
  assert (Hlen2 : length (bc_buf s2) = S NBUF) by (rewrite (ob_len _ _ _ _ O); lia).
  assert (Er2 : b_refcnt (getb i s2) = b_refcnt (getb i s) - 1) by (by rewrite (core_refcnt _ _ (ob_at _ _ _ _ O))).
  assert (Eb : brelse me i s =
    ((if b_refcnt (getb i s2) =? 0 then to_front i else ret tt) ;; bc_release) (set_bc_lock Mine s2)).
  { unfold brelse. unfold bind at 1. rewrite E1. simpl negb. cbv iota.
    etransitivity; [refine (bind_seq3 _ _ _ _ _ _ _ E2)|]. unfold bind at 1, gets at 1.
    change (getb i (set_bc_lock Mine s2)) with (getb i s2). by destruct (b_refcnt (getb i s2) =? 0). }
  rewrite Eb. rewrite Er2. unfold lru_touch. pose proof (ob_lock _ _ _ _ O) as Hlk2. rewrite (bi_lock _ _ _ Hinv) in Hlk2.
  destruct (Z.eqb_spec (b_refcnt (getb i s) - 1) 0) as [H0|H0], (Z.eqb_spec (b_refcnt (getb i s)) 1) as [H1|H1]; try lia.
  - assert (Hin : i ∈ l) by (by apply (perm_in l i (bi_perm _ _ _ Hinv))).
    apply list_elem_of_split in Hin as (l1 & l2 & ->).
    destruct (to_front_spec (set_bc_lock Mine s2) l1 i l2) as (s3 & nxt & prv & E3 & R & S3);
      [done|done|apply Hinv|].
    unfold bind at 1. rewrite E3. unfold bc_release, lock_release, bind, gets, modify.
    rewrite (rl_lock _ _ _ _ R). simpl. eexists. split; [done|split].
    + pose proof R as [R1 R2 R3 R4 R5 R6 R7]. split; simpl.
      * by rewrite (bi_lock _ _ _ Hinv).
      * rewrite R4. simpl. apply O.
      * rewrite <- (ob_at _ _ _ _ O). apply R3.
      * intros j Hj. rewrite <- (ob_other _ _ _ _ O j Hj). apply R3.
      * rewrite R6. apply O.
      * rewrite R7. apply O.
    + rewrite filter_ne_split by (eapply perm_nodup, Hinv). 
      change (seg (nxts (set_bc_lock Free s3)) (prvs (set_bc_lock Free s3)) HEAD (i :: l1 ++ l2) HEAD).
      apply (seg_ext nxt prv); [intros x _; exact (rl_nxt _ _ _ _ R x)|intros x _; exact (rl_prv _ _ _ _ R x)|done].
  - unfold bind, ret, bc_release, lock_release, gets, modify. simpl. exists s2.
    split_and!; [|done|done]. destruct s2. simpl in *. by subst.
Qed.

Lemma lru_touch_perm i r l : (i < NBUF)%nat -> l ≡ₚ seq 0 NBUF -> lru_touch i r l ≡ₚ seq 0 NBUF.
Proof.
  intros Hi Hl. unfold lru_touch. destruct (r =? 1); [|done].
  assert (Hin : i ∈ l) by (by apply (perm_in l i Hl)). pose proof (perm_nodup l Hl) as Hnd.
  apply list_elem_of_split in Hin as (l1 & l2 & ->). rewrite filter_ne_split by done.
  by rewrite Permutation_middle.
Qed.

Lemma brelse_spec me s i l dev :
  bio_inv dev s l -> (i < NBUF)%nat -> b_lock (getb i s) = Sleeplock Free true me ->
  1 <= b_refcnt (getb i s) ->
  (b_refcnt (getb i s) = 1 -> b_valid (getb i s) = true ->
     b_data (getb i s) = dblock (disk s) (b_blockno (getb i s))) ->
  wp (brelse me i) (fun _ s' => bio_inv dev s' (lru_touch i (b_refcnt (getb i s)) l) /\
    one_buf s s' i (set_refcnt (b_refcnt (getb i s) - 1) (set_lock (Sleeplock Free false 0) (getb i s))) /\
    forall m, bview s' m = bview s m) s.
Proof.
  intros Hinv Hi Hl Hr Hclean. pose proof (bi_ref _ _ _ Hinv i Hi) as Hrr.
  destruct (brelse_ok me s i l dev) as (s' & E & O & Hs); [done..|]. eapply wp_of_ok; [exact E|].
  assert (Hinv' : bio_inv dev s' (lru_touch i (b_refcnt (getb i s)) l)).
  { eapply bio_inv_one; [exact Hinv|exact O|done|done|apply lru_touch_perm; [done|apply Hinv]|..].
    - unfold buf_ok. simpl. split_and!; [by apply Hinv|lia|lia|done|]. intros H0. split; [done|].
      intros Hv. apply Hclean; [lia|done].
    - intros j n Hj Hne Hc Hcj. apply Hne. by eapply (bi_uniq _ _ _ Hinv). }
  split_and!; [done|done|]. intros m.
  eapply bview_one; [exact Hinv|exact Hinv'|exact O|done|..]; simpl.
  - intros Hv. symmetry. by eapply bview_hit.
  - intros Hv. left. done.
Qed.

Lemma bwrite_spec me s i l dev :
  bio_inv dev s l -> (i < NBUF)%nat -> b_lock (getb i s) = Sleeplock Free true me ->
  1 <= b_refcnt (getb i s) -> b_valid (getb i s) = true ->
  wp (bwrite me i) (fun _ s' => bio_inv dev s' l /\
    (forall j, core (getb j s') = core (getb j s)) /\
    disk s' = <[b_blockno (getb i s) := b_data (getb i s)]> (disk s) /\
    dtrace s' = dtrace s ++ [(b_blockno (getb i s), b_data (getb i s))] /\
    forall m, bview s' m = bview s m) s.
Proof.
  intros Hinv Hi Hl Hr Hv. pose proof (bi_len _ _ _ Hinv) as Hlen. unfold bwrite. wp_simp.
  destruct (on_lock_holding s i me) as (s1 & E1 & L1 & O1); [lia|done|]. eapply wp_of_ok; [exact E1|].
  simpl negb. cbv iota. unfold disk_rw. wp_simp. cbv iota. wp_simp.
  pose proof (ob_at _ _ _ _ O1) as C1. rewrite (core_blockno _ _ C1), (core_data _ _ C1).
  set (s2 := disk_put _ _ s1).
  assert (Hcore : forall j, core (getb j s2) = core (getb j s)).
  { intros j. change (getb j s2) with (getb j s1). destruct (decide (j = i)) as [->|]; [done|by apply O1]. }
  assert (Hd : disk s2 = <[b_blockno (getb i s) := b_data (getb i s)]> (disk s)).
  { simpl. by rewrite (ob_disk _ _ _ _ O1). }
  assert (Hinv2 : bio_inv dev s2 l).
  { split.
    - simpl. rewrite (ob_lock _ _ _ _ O1). apply Hinv.
    - simpl. rewrite (ob_len _ _ _ _ O1). apply Hinv.
    - apply (same_links_seg s); [exact L1|apply Hinv].
    - apply Hinv.
    - intros j k n Hj Hk Cj Ck. apply (bi_uniq _ _ _ Hinv j k n); [done|done|by eapply caches_core; [apply Hcore|]..].
    - intros j Hj. rewrite (core_valid _ _ (Hcore j)), (core_dev _ _ (Hcore j)). by apply Hinv.
    - intros j Hj. rewrite (core_refcnt _ _ (Hcore j)). by apply Hinv.
    - intros j Hj. rewrite (core_lock _ _ (Hcore j)). by apply Hinv.
    - intros j Hj. rewrite (core_refcnt _ _ (Hcore j)), (core_lock _ _ (Hcore j)), (core_valid _ _ (Hcore j)),
        (core_data _ _ (Hcore j)), (core_blockno _ _ (Hcore j)). intros H0.
      destruct (bi_free _ _ _ Hinv j Hj H0) as [H1 H2]. split; [done|]. intros Hvj. rewrite Hd.
      unfold dblock. rewrite lookup_insert_ne; [by apply H2|]. intros E.
      assert (i = j) as <-; [|lia]. apply (bi_uniq _ _ _ Hinv i j (b_blockno (getb i s))); [done|done|..];
        (split; [by apply (bi_dev _ _ _ Hinv)|done]). }
  split_and!; [done|done|done| |].
  - simpl. by rewrite (ob_trace _ _ _ _ O1).
  - intros m. destruct (view_cases s m Hlen) as [(j & Hj & Hvj & Hm)|Hn].
    + rewrite <- Hm at 2. rewrite (bview_hit _ _ _ _ Hinv) by done.
      rewrite <- (core_data _ _ (Hcore j)), <- Hm, <- (core_blockno _ _ (Hcore j)).
      eapply bview_hit; [done|done|]. by rewrite (core_valid _ _ (Hcore j)).
    + rewrite (bview_miss s), (bview_miss s2); [|apply Hinv2| |done|done].
      * rewrite Hd. unfold dblock. rewrite lookup_insert_ne; [done|]. by apply Hn.
      * intros j Hj. rewrite (core_valid _ _ (Hcore j)), (core_blockno _ _ (Hcore j)). by apply Hn.
Qed.
