(* ===== verification/BCache.v ===== *)
(** What the buffer cache promises its clients.

    A client thread [me] sees the cache as the contents of each block, the
    set of blocks whose buffers it holds locked, and the set of pinned
    blocks; [rep] relates this view to the state of kernel/bio.c, and each
    operation is specified on it. *)
From S2P Require Import Prelude Mem Spinlock Bio BioSpec.

Record cst := Cst {
  cv : Z -> list Z;              (** contents of a block, through the cache *)
  cd : gmap Z (list Z);          (** the disk *)
  cP : gset Z;                   (** pinned blocks *)
  cH : gset Z;                   (** blocks whose buffers are held *)
  ctr : list (Z * list Z)        (** disk writes so far *)
}.

Definition ref_of (c : cst) (n : Z) : Z :=
  Z.b2z (bool_decide (n ∈ cP c)) + Z.b2z (bool_decide (n ∈ cH c)).

(** Buffer [i] holds block [n]. *)
Definition buf_is (s : bio) (i : nat) (n : Z) : Prop :=
  (i < NBUF)%nat /\ b_valid (getb i s) = true /\ b_blockno (getb i s) = n.

Record rep (me dev : Z) (s : bio) (c : cst) : Prop := {
  rp_inv : exists l, bio_inv dev s l;
  rp_valid : forall i, (i < NBUF)%nat -> b_refcnt (getb i s) <> 0 -> b_valid (getb i s) = true;
  rp_ref : forall i n, buf_is s i n -> b_refcnt (getb i s) = ref_of c n;
  rp_lock : forall i n, buf_is s i n -> n ∈ cH c -> b_lock (getb i s) = Sleeplock Free true me;
  rp_unlock : forall i, (i < NBUF)%nat -> (forall n, buf_is s i n -> n ∉ cH c) ->
    sl_locked (b_lock (getb i s)) = false;
  rp_cached : forall n, n ∈ cP c ∪ cH c -> exists i, buf_is s i n;
  rp_view : forall n, bview s n = cv c n;
  rp_disk : disk s = cd c;
  rp_trace : dtrace s = ctr c
}.

Definition c_hold (n : Z) (c : cst) : cst := Cst (cv c) (cd c) (cP c) ({[n]} ∪ cH c) (ctr c).
Definition c_drop (n : Z) (c : cst) : cst := Cst (cv c) (cd c) (cP c) (cH c ∖ {[n]}) (ctr c).
Definition c_write (n : Z) (c : cst) : cst :=
  Cst (cv c) (<[n := cv c n]> (cd c)) (cP c) (cH c) (ctr c ++ [(n, cv c n)]).
Definition c_set (n : Z) (d : list Z) (c : cst) : cst :=
  Cst (fun m => if m =? n then d else cv c m) (cd c) (cP c) (cH c) (ctr c).
Definition c_pin (n : Z) (c : cst) : cst := Cst (cv c) (cd c) ({[n]} ∪ cP c) (cH c) (ctr c).
Definition c_unpin (n : Z) (c : cst) : cst := Cst (cv c) (cd c) (cP c ∖ {[n]}) (cH c) (ctr c).

Section spec.
Context (me dev : Z).

Lemma buf_is_uniq s c i j n : rep me dev s c -> buf_is s i n -> buf_is s j n -> i = j.
Proof.
  intros [[l Hinv] _ _ _ _ _ _ _ _] (Hi & Vi & Bi) (Hj & Vj & Bj).
  apply (bi_uniq _ _ _ Hinv i j n); [done|done|..]; (split; [by apply (bi_dev _ _ _ Hinv)|done]).
Qed.

Lemma ref_of_range c n : 0 <= ref_of c n <= 2.
Proof. unfold ref_of. repeat destruct (bool_decide _); simpl; lia. Qed.

Lemma buf_is_data s c i n : rep me dev s c -> buf_is s i n -> b_data (getb i s) = cv c n.
Proof.
  intros Hr (Hi & Vi & <-). destruct (rp_inv _ _ _ _ Hr) as [l Hinv].
  rewrite <- (rp_view _ _ _ _ Hr). symmetry. by eapply bview_hit.
Qed.

(** Blocks in use, and the pigeonhole that gives bget() a buffer. *)
Lemma room s c : rep me dev s c -> (size (cP c ∪ cH c) < NBUF)%nat ->
  exists i, (i < NBUF)%nat /\ b_refcnt (getb i s) = 0.
Proof.
  intros Hr Hsz. destruct (rp_inv _ _ _ _ Hr) as [l Hinv].
  destruct (decide (Exists (fun i => b_refcnt (getb i s) = 0) (seq 0 NBUF))) as [H|H].
  - apply Exists_exists in H as (i & Hi & H0). exists i. apply elem_of_seq in Hi. split; [lia|done].
  - exfalso. apply not_Exists_Forall in H; [|apply _]. rewrite Forall_forall in H.
    assert (Hv : forall i, (i < NBUF)%nat -> buf_is s i (b_blockno (getb i s))).
    { intros i Hi. split_and!; [done| |done]. apply (rp_valid _ _ _ _ Hr); [done|].
      apply H, elem_of_seq. lia. }
    assert (Hsub : list_to_set ((fun i => b_blockno (getb i s)) <$> seq 0 NBUF) ⊆ cP c ∪ cH c).
    { intros n (i & -> & Hi%elem_of_seq)%elem_of_list_to_set%list_elem_of_fmap.
      assert (Hi' : (i < NBUF)%nat) by lia. pose proof (rp_ref _ _ _ _ Hr _ _ (Hv i Hi')) as E.
      assert (Hne : b_refcnt (getb i s) <> 0) by (apply H, elem_of_seq; lia). rewrite E in Hne.
      unfold ref_of in Hne. apply elem_of_union.
      destruct (bool_decide_reflect (b_blockno (getb i s) ∈ cP c)); [by left|].
      destruct (bool_decide_reflect (b_blockno (getb i s) ∈ cH c)); [by right|]. simpl in Hne. lia. }
    apply subseteq_size in Hsub. rewrite size_list_to_set, length_fmap, length_seq in Hsub; [lia|].
    apply NoDup_fmap_2_strong; [|apply NoDup_seq]. intros i j Hi%elem_of_seq Hj%elem_of_seq E.
    eapply buf_is_uniq; [done|apply Hv; lia|]. rewrite E. apply Hv. lia.
Qed.

Lemma buf_is_other s s' i b j n : one_buf s s' i b -> j <> i -> buf_is s' j n <-> buf_is s j n.
Proof.
  intros O Hne. unfold buf_is. pose proof (ob_other _ _ _ _ O j Hne) as C.
  by rewrite (core_valid _ _ C), (core_blockno _ _ C).
Qed.

Lemma buf_is_at s s' i b n : one_buf s s' i b -> (i < NBUF)%nat ->
  buf_is s' i n <-> b_valid b = true /\ b_blockno b = n.
Proof.
  intros O Hi. unfold buf_is. pose proof (ob_at _ _ _ _ O) as C.
  rewrite (core_valid _ _ C), (core_blockno _ _ C). tauto.
Qed.

(** [rep] after the change of one buffer. *)
Lemma rep_one s c s' c' l' i b :
  rep me dev s c -> bio_inv dev s' l' -> one_buf s s' i b -> (i < NBUF)%nat ->
  (b_refcnt b <> 0 -> b_valid b = true) ->
  (b_valid b = true -> b_refcnt b = ref_of c' (b_blockno b)) ->
  (b_valid b = true -> b_blockno b ∈ cH c' -> b_lock b = Sleeplock Free true me) ->
  ((b_valid b = true -> b_blockno b ∉ cH c') -> sl_locked (b_lock b) = false) ->
  (forall j n, j <> i -> buf_is s j n -> ref_of c' n = ref_of c n /\ (n ∈ cH c' <-> n ∈ cH c)) ->
  (forall n, n ∈ cP c' ∪ cH c' -> (b_valid b = true /\ b_blockno b = n) \/ exists j, j <> i /\ buf_is s j n) ->
  (forall n, bview s' n = cv c' n) -> disk s' = cd c' -> dtrace s' = ctr c' ->
  rep me dev s' c'.
Proof.
  intros Hr Hinv O Hi H1 H2 H3 H4 H5 H6 H7 H8 H9. pose proof (ob_at _ _ _ _ O) as C.
  split; [by exists l'|..|done|done|done].
  - intros j Hj. destruct (decide (j = i)) as [->|Hne].
    + by rewrite (core_refcnt _ _ C), (core_valid _ _ C).
    + pose proof (ob_other _ _ _ _ O j Hne) as C'. rewrite (core_refcnt _ _ C'), (core_valid _ _ C').
      by apply Hr.
  - intros j n Hb. destruct (decide (j = i)) as [->|Hne].
    + apply (buf_is_at _ _ _ _ _ O Hi) in Hb as [Hv <-]. rewrite (core_refcnt _ _ C). by apply H2.
    + apply (buf_is_other _ _ _ _ _ _ O Hne) in Hb. destruct (H5 j n Hne Hb) as [-> _].
      rewrite (core_refcnt _ _ (ob_other _ _ _ _ O j Hne)). by apply (rp_ref _ _ _ _ Hr).
  - intros j n Hb Hn. destruct (decide (j = i)) as [->|Hne].
    + apply (buf_is_at _ _ _ _ _ O Hi) in Hb as [Hv <-]. rewrite (core_lock _ _ C). by apply H3.
    + apply (buf_is_other _ _ _ _ _ _ O Hne) in Hb. destruct (H5 j n Hne Hb) as [_ E].
      rewrite (core_lock _ _ (ob_other _ _ _ _ O j Hne)). apply (rp_lock _ _ _ _ Hr j n); [done|by apply E].
  - intros j Hj Hn. destruct (decide (j = i)) as [->|Hne].
    + rewrite (core_lock _ _ C). apply H4. intros Hv. apply Hn. by apply (buf_is_at _ _ _ _ _ O Hi).
    + rewrite (core_lock _ _ (ob_other _ _ _ _ O j Hne)). apply (rp_unlock _ _ _ _ Hr); [done|].
      intros n Hb. destruct (H5 j n Hne Hb) as [_ E]. rewrite <- E. apply Hn.
      by apply (buf_is_other _ _ _ _ _ _ O Hne).
  - intros n Hn. destruct (H6 n Hn) as [Hb|(j & Hne & Hb)].
    + exists i. by apply (buf_is_at _ _ _ _ _ O Hi).
    + exists j. by apply (buf_is_other _ _ _ _ _ _ O Hne).
Qed.

(** Buffers that hold blocks in use stay where they are. *)
Definition stays (s s' : bio) (c : cst) : Prop := forall j n, n ∈ cP c ∪ cH c -> buf_is s j n -> buf_is s' j n.

Lemma b2z_in_union (X : gset Z) n m :
  Z.b2z (bool_decide (m ∈ {[n]} ∪ X)) = if decide (m = n) then 1 else Z.b2z (bool_decide (m ∈ X)).
Proof.
  destruct (decide (m = n)) as [->|Hne].
  - rewrite bool_decide_eq_true_2; [done|set_solver].
  - f_equal. apply bool_decide_ext. set_solver.
Qed.

Lemma b2z_in_diff (X : gset Z) n m :
  Z.b2z (bool_decide (m ∈ X ∖ {[n]})) = if decide (m = n) then 0 else Z.b2z (bool_decide (m ∈ X)).
Proof.
  destruct (decide (m = n)) as [->|Hne].
  - rewrite bool_decide_eq_false_2; [done|set_solver].
  - f_equal. apply bool_decide_ext. set_solver.
Qed.

Lemma ref_active c n : 0 < ref_of c n <-> n ∈ cP c ∪ cH c.
Proof.
  unfold ref_of. rewrite elem_of_union.
  destruct (bool_decide_reflect (n ∈ cP c)), (bool_decide_reflect (n ∈ cH c)); simpl; intuition lia.
Qed.

Lemma rep_can_bread s c n :
  rep me dev s c -> n ∉ cH c -> (n ∈ cP c \/ (size (cP c ∪ cH c) < NBUF)%nat) -> can_bread dev n s.
Proof.
  intros Hr Hn Hroom. destruct (rp_inv _ _ _ _ Hr) as [l Hinv]. split.
  - intros i Hi [_ Hb]. split.
    + apply (rp_unlock _ _ _ _ Hr); [done|]. intros m (_ & _ & <-). by rewrite Hb.
    + destruct (decide (b_refcnt (getb i s) = 0)) as [->|Hne]; [lia|].
      pose proof (rp_valid _ _ _ _ Hr i Hi Hne) as Hv.
      rewrite (rp_ref _ _ _ _ Hr i n) by done. pose proof (ref_of_range c n). lia.
  - destruct Hroom as [Hp|Hsz]; [left|right; by eapply room].
    destruct (rp_cached _ _ _ _ Hr n) as [i (Hi & Hv & Hb)]; [by apply elem_of_union_l|].
    exists i. split; [done|]. split; [by apply (bi_dev _ _ _ Hinv)|done].
Qed.

Lemma rep_bread s c n :
  rep me dev s c -> n ∉ cH c -> (n ∈ cP c \/ (size (cP c ∪ cH c) < NBUF)%nat) ->
  wp (bread me dev n) (fun i s' => rep me dev s' (c_hold n c) /\ buf_is s' i n /\ stays s s' c) s.
Proof.
  intros Hr Hn Hroom. destruct (rp_inv _ _ _ _ Hr) as [l Hinv].
  eapply wp_mono; [apply (bread_spec me dev n s l Hinv); by eapply rep_can_bread|].
  intros i s' [(Hi & Hinv' & O & Hcase & Hview) _].
  assert (Hat : forall m, buf_is s' i m <-> m = n).
  { intros m. rewrite (buf_is_at _ _ _ _ _ O Hi). simpl. intuition congruence. }
  assert (Hoth : forall j m, j <> i -> buf_is s j m -> m <> n).
  { intros j m Hne Hb ->. apply Hne. apply (buf_is_other _ _ _ _ _ _ O Hne) in Hb as (Hj & Vj & Bj).
    destruct (proj2 (Hat n) eq_refl) as (_ & Vi & Bi).
    apply (bi_uniq _ _ _ Hinv' j i n); [done|done|..]; (split; [by apply (bi_dev _ _ _ Hinv')|done]). }
  assert (Hact : forall m, m ∈ cP c ∪ cH c -> buf_is s i m -> m = n).
  { intros m Hm Hb. destruct Hcase as [[_ Ec]|[H0 _]]; [destruct Hb as (_ & _ & <-); done|].
    apply ref_active in Hm. rewrite <- (rp_ref _ _ _ _ Hr _ _ Hb) in Hm. lia. }
  assert (Href : b_refcnt (getb i s) = Z.b2z (bool_decide (n ∈ cP c))).
  { destruct (b_valid (getb i s)) eqn:Hv.
    - destruct Hcase as [[_ Ec]|[H0 Hno]].
      + rewrite (rp_ref _ _ _ _ Hr i n) by done. unfold ref_of. rewrite (bool_decide_eq_false_2 (n ∈ cH c)) by done. simpl. lia.
      + rewrite H0, bool_decide_eq_false_2; [done|]. intros Hp.
        destruct (rp_cached _ _ _ _ Hr n) as [j (Hj & Vj & Bj)]; [by apply elem_of_union_l|].
        eapply (Hno j Hj). split; [by apply (bi_dev _ _ _ Hinv)|done].
    - destruct (decide (b_refcnt (getb i s) = 0)) as [->|Hne]; [|by rewrite (rp_valid _ _ _ _ Hr) in Hv].
      rewrite bool_decide_eq_false_2; [done|]. intros Hp.
      destruct (rp_cached _ _ _ _ Hr n) as [j (Hj & Vj & Bj)]; [by apply elem_of_union_l|].
      assert (Cj : caches dev n (getb j s)) by (split; [by apply (bi_dev _ _ _ Hinv)|done]).
      destruct Hcase as [Ci|[_ Hno]]; [|by eapply Hno].
      rewrite (bi_uniq _ _ _ Hinv i j n) in Hv by done. congruence. }
  split_and!; [|by apply Hat|].
  - eapply rep_one; [exact Hr|exact Hinv'|exact O|done|..]; simpl.
    + done.
    + intros _. rewrite Href. unfold ref_of, c_hold. simpl. rewrite b2z_in_union, decide_True by done. done.
    + done.
    + intros Hx. exfalso. apply Hx; [done|]. set_solver.
    + intros j m Hne Hb. pose proof (Hoth j m Hne Hb). unfold ref_of. simpl.
      rewrite b2z_in_union, decide_False by done. split; [done|set_solver].
    + intros m Hm. destruct (decide (m = n)) as [->|Hmn]; [by left|right].
      assert (Hm' : m ∈ cP c ∪ cH c) by set_solver.
      destruct (rp_cached _ _ _ _ Hr m Hm') as [j Hb]. exists j. split; [|done].
      intros ->. apply Hmn. by apply Hact.
    + intros m. rewrite Hview. apply Hr.
    + rewrite (ob_disk _ _ _ _ O). apply Hr.
    + rewrite (ob_trace _ _ _ _ O). apply Hr.
  - intros j m Hm Hb. destruct (decide (j = i)) as [->|Hne]; [apply Hat; by apply Hact|].
    by apply (buf_is_other _ _ _ _ _ _ O Hne).
Qed.

Lemma rep_brelse s c i n :
  rep me dev s c -> buf_is s i n -> n ∈ cH c -> (n ∈ cP c \/ cv c n = dblock (cd c) n) ->
  wp (brelse me i) (fun _ s' => rep me dev s' (c_drop n c) /\ stays s s' (c_drop n c)) s.
Proof.
  intros Hr Hb Hn Hclean. destruct (rp_inv _ _ _ _ Hr) as [l Hinv]. pose proof Hb as (Hi & Hv & Hbn).
  pose proof (rp_ref _ _ _ _ Hr _ _ Hb) as Href. pose proof (rp_lock _ _ _ _ Hr _ _ Hb Hn) as Hlk.
  assert (Eref : ref_of c n = Z.b2z (bool_decide (n ∈ cP c)) + 1).
  { unfold ref_of. rewrite (bool_decide_eq_true_2 (n ∈ cH c)) by done. simpl. lia. }
  eapply wp_mono; [apply (brelse_spec me s i l dev Hinv Hi Hlk)|].
  - rewrite Href, Eref. destruct (bool_decide _); simpl; lia.
  - intros H1 _. rewrite (buf_is_data s c i n), Hbn, (rp_disk _ _ _ _ Hr) by done.
    destruct Hclean as [Hp|?]; [|done]. rewrite Href, Eref, bool_decide_eq_true_2 in H1 by done. simpl in H1. lia.
  - intros _ s' (Hinv' & O & Hview).
    assert (Hst : forall j m, m <> n -> buf_is s j m -> buf_is s' j m).
    { intros j m Hm Hbj. destruct (decide (j = i)) as [->|Hne]; [|by apply (buf_is_other _ _ _ _ _ _ O Hne)].
      destruct Hbj as (_ & _ & <-). congruence. }
    assert (Hbi : buf_is s' i n) by (apply (buf_is_at _ _ _ _ _ O Hi); done).
    split.
    + eapply rep_one; [exact Hr|exact Hinv'|exact O|done|..]; simpl.
      * done.
      * intros _. rewrite Hbn, Href, Eref. unfold ref_of. simpl. rewrite b2z_in_diff, decide_True by done. lia.
      * rewrite Hbn. set_solver.
      * done.
      * intros j m Hne Hbj. assert (m <> n) by (intros ->; apply Hne; by eapply buf_is_uniq).
        unfold ref_of. simpl. rewrite b2z_in_diff, decide_False by done. split; [done|set_solver].
      * intros m Hm. destruct (decide (m = n)) as [->|Hmn]; [by left|right].
        destruct (rp_cached _ _ _ _ Hr m) as [j Hbj]; [set_solver|]. exists j. split; [|done].
        intros ->. destruct Hbj as (_ & _ & <-). congruence.
      * intros m. rewrite Hview. apply Hr.
      * rewrite (ob_disk _ _ _ _ O). apply Hr.
      * rewrite (ob_trace _ _ _ _ O). apply Hr.
    + intros j m Hm Hbj. destruct (decide (m = n)) as [->|Hmn]; [|by apply Hst].
      by replace j with i by (by eapply buf_is_uniq).
Qed.

Lemma buf_is_cores s s' j n : (forall j, core (getb j s') = core (getb j s)) -> buf_is s' j n <-> buf_is s j n.
Proof. intros C. unfold buf_is. by rewrite (core_valid _ _ (C j)), (core_blockno _ _ (C j)). Qed.

Lemma rep_bwrite s c i n :
  rep me dev s c -> buf_is s i n -> n ∈ cH c ->
  wp (bwrite me i) (fun _ s' => rep me dev s' (c_write n c) /\ stays s s' c) s.
Proof.
  intros Hr Hb Hn. destruct (rp_inv _ _ _ _ Hr) as [l Hinv]. pose proof Hb as (Hi & Hv & Hbn).
  eapply wp_mono; [apply (bwrite_spec me s i l dev Hinv Hi)|].
  - by eapply rp_lock.
  - rewrite (rp_ref _ _ _ _ Hr _ _ Hb). enough (0 < ref_of c n) by lia. apply ref_active. set_solver.
  - done.
  - intros _ s' (Hinv' & C & Hd & Ht & Hview). rewrite (buf_is_data s c i n), Hbn in Hd, Ht by done.
    split; [|intros j m _; by apply (buf_is_cores _ _ _ _ C)]. split; simpl.
    + by exists l.
    + intros j Hj. rewrite (core_refcnt _ _ (C j)), (core_valid _ _ (C j)). by apply Hr.
    + intros j m Hbj%(buf_is_cores _ _ _ _ C). rewrite (core_refcnt _ _ (C j)). by apply (rp_ref _ _ _ _ Hr).
    + intros j m Hbj%(buf_is_cores _ _ _ _ C). rewrite (core_lock _ _ (C j)). by apply Hr.
    + intros j Hj Hm. rewrite (core_lock _ _ (C j)). apply Hr; [done|]. intros m Hbj. apply Hm.
      by apply (buf_is_cores _ _ _ _ C).
    + intros m Hm. destruct (rp_cached _ _ _ _ Hr m Hm) as [j Hbj]. exists j. by apply (buf_is_cores _ _ _ _ C).
    + intros m. rewrite Hview. apply Hr.
    + by rewrite Hd, (rp_disk _ _ _ _ Hr).
    + by rewrite Ht, (rp_trace _ _ _ _ Hr).
Qed.

Lemma links_alter s i f :
  (i < length (bc_buf s))%nat -> b_next (f (getb i s)) = b_next (getb i s) -> b_prev (f (getb i s)) = b_prev (getb i s) ->
  same_links s (set_bc_buf (alter f i) s).
Proof. intros Hi Hn Hp j. rewrite getb_alter by done. by destruct (decide (j = i)) as [->|]. Qed.

(** A change of the data or the reference count of a held buffer. *)
Lemma rep_alter s c c' i n b :
  rep me dev s c -> buf_is s i n -> n ∈ cH c ->
  b_valid b = true -> b_dev b = dev -> b_blockno b = n -> b_lock b = Sleeplock Free true me ->
  b_next b = b_next (getb i s) -> b_prev b = b_prev (getb i s) ->
  cH c' = cH c -> b_refcnt b = ref_of c' n -> (forall m, m <> n -> m ∈ cP c' <-> m ∈ cP c) ->
  cd c' = cd c -> ctr c' = ctr c -> (forall m, cv c' m = if m =? n then b_data b else cv c m) ->
  forall s', bc_lock s' = bc_lock s -> disk s' = disk s -> dtrace s' = dtrace s ->
    bc_buf s' = alter (fun _ => b) i (bc_buf s) ->
  rep me dev s' c' /\ stays s s' c.
Proof.
  intros Hr Hb Hn Hv Hd Hbn Hl Hnx Hpv EH Eref EP Ed Et Ev s' E1 E2 E3 E4.
  destruct (rp_inv _ _ _ _ Hr) as [l Hinv]. pose proof Hb as (Hi & Hvi & Hbi). pose proof (bi_len _ _ _ Hinv) as Hlen.
  assert (Hsb : forall j, getb j s' = getb j (set_bc_buf (alter (fun _ => b) i) s)) by (intros j; unfold getb; by rewrite E4).
  assert (O : one_buf s s' i b).
  { destruct (one_buf_alter s i (fun _ => b)) as [O1 O2 O3 O4 O5 O6]; [lia|].
    split; try done; [by rewrite E4|by rewrite Hsb|intros j Hj; rewrite Hsb; by apply O4]. }
  assert (Hact : n ∈ cP c' ∪ cH c') by (rewrite EH; set_solver).
  assert (Hinv' : bio_inv dev s' l).
  { eapply bio_inv_one; [exact Hinv|exact O|done| |apply Hinv|..].
    - apply (same_links_seg s); [|apply Hinv]. intros j. rewrite !Hsb. by apply links_alter; [lia|..].
    - pose proof (ref_of_range c' n). apply ref_active in Hact. unfold buf_ok. rewrite Eref, Hl.
      split_and!; [done|lia|lia|done|lia].
    - intros j m Hj Hne [_ Em] [Cd Cm]. apply Hne. apply (bi_uniq _ _ _ Hinv j i m); [done..|].
      split; [|congruence]. by apply (bi_dev _ _ _ Hinv). }
  split.
  - eapply rep_one; [exact Hr|exact Hinv'|exact O|done|done|by rewrite Hbn|done|..].
    + intros Hx. exfalso. apply Hx; [done|]. by rewrite Hbn, EH.
    + intros j m Hne Hbj. assert (Hmn : m <> n) by (intros ->; apply Hne; by eapply buf_is_uniq).
      split; [|by rewrite EH]. unfold ref_of. rewrite EH. f_equal. f_equal. apply bool_decide_ext. by apply EP.
    + intros m Hm. destruct (decide (m = n)) as [->|Hmn]; [by left|right].
      destruct (rp_cached _ _ _ _ Hr m) as [j Hbj].
      { rewrite elem_of_union, EH, EP in Hm by done. by apply elem_of_union. }
      exists j. split; [|done]. intros ->. destruct Hbj as (_ & _ & <-). congruence.
    + intros m. rewrite Ev. destruct (Z.eqb_spec m n) as [->|Hmn].
      * assert (Hbi' : buf_is s' i n) by (by apply (buf_is_at _ _ _ _ _ O Hi)). destruct Hbi' as (_ & V' & B').
        rewrite <- B', (bview_hit _ _ _ _ Hinv') by done. apply (core_data _ _ (ob_at _ _ _ _ O)).
      * rewrite <- (rp_view _ _ _ _ Hr). destruct (view_cases s m Hlen) as [(j & Hj & Vj & Bj)|Hno].
        -- assert (Hne : j <> i) by (intros ->; congruence). pose proof (ob_other _ _ _ _ O j Hne) as C.
           rewrite <- Bj at 2. rewrite (bview_hit _ _ _ _ Hinv) by done. rewrite <- (core_data _ _ C), <- Bj, <- (core_blockno _ _ C).
           eapply bview_hit; [done|done|]. by rewrite (core_valid _ _ C).
        -- rewrite !bview_miss; [by rewrite E2|done|done|apply Hinv'|]. intros j Hj Vj Bj.
           destruct (decide (j = i)) as [->|Hne].
           ++ apply Hmn. rewrite <- Bj. rewrite <- Hbn. apply (core_blockno _ _ (ob_at _ _ _ _ O)).
           ++ pose proof (ob_other _ _ _ _ O j Hne) as C. eapply (Hno j Hj); [by rewrite <- (core_valid _ _ C)|].
              by rewrite <- (core_blockno _ _ C).
    + rewrite Ed, E2. apply Hr.
    + rewrite Et, E3. apply Hr.
  - intros j m Hm Hbj. destruct (decide (j = i)) as [->|Hne]; [|by apply (buf_is_other _ _ _ _ _ _ O Hne)].
    apply (buf_is_at _ _ _ _ _ O Hi). destruct Hbj as (_ & _ & <-). split; [done|congruence].
Qed.

(** Writing into a held buffer. *)
Lemma rep_set_data s c i n d :
  rep me dev s c -> buf_is s i n -> n ∈ cH c ->
  wp (modb i (set_data d)) (fun _ s' => rep me dev s' (c_set n d c) /\ stays s s' c) s.
Proof.
  intros Hr Hb Hn. destruct (rp_inv _ _ _ _ Hr) as [l Hinv]. pose proof Hb as (Hi & Hvi & Hbi).
  pose proof (bi_len _ _ _ Hinv) as Hlen. unfold modb. wp_simp.
  apply (rep_alter s c (c_set n d c) i n (set_data d (getb i s))); try done; simpl.
  - by apply (bi_dev _ _ _ Hinv).
  - by eapply rp_lock.
  - rewrite (rp_ref _ _ _ _ Hr _ _ Hb). done.
  - by apply list_eq; intros j; destruct (decide (j = i)) as [->|]; rewrite ?list_lookup_alter_eq, ?list_lookup_alter_ne, ?getb_lookup by (done || lia).
Qed.

Lemma rep_bpin s c i n :
  rep me dev s c -> buf_is s i n -> n ∈ cH c -> n ∉ cP c ->
  wp (bpin i) (fun _ s' => rep me dev s' (c_pin n c) /\ stays s s' c) s.
Proof.
  intros Hr Hb Hn Hp. destruct (rp_inv _ _ _ _ Hr) as [l Hinv]. pose proof Hb as (Hi & Hvi & Hbi).
  pose proof (bi_len _ _ _ Hinv) as Hlen. unfold bpin, bc_acquire, bc_release, modb. wp_simp.
  apply wp_lock_acquire; [apply Hinv|]. wp_simp. apply wp_lock_release; [done|].
  assert (Eref : b_refcnt (getb i s) = 1).
  { rewrite (rp_ref _ _ _ _ Hr _ _ Hb). unfold ref_of. by rewrite bool_decide_eq_false_2, bool_decide_eq_true_2. }
  apply (rep_alter s c (c_pin n c) i n (set_refcnt 2 (getb i s))); try done; simpl.
  - by apply (bi_dev _ _ _ Hinv).
  - by eapply rp_lock.
  - unfold ref_of. simpl. rewrite b2z_in_union, decide_True, bool_decide_eq_true_2 by done. done.
  - set_solver.
  - intros m. destruct (Z.eqb_spec m n) as [->|]; [|done]. symmetry. by eapply buf_is_data.
  - symmetry. apply (bi_lock _ _ _ Hinv).
  - apply list_eq; intros j; destruct (decide (j = i)) as [->|]; rewrite ?list_lookup_alter_eq, ?list_lookup_alter_ne, ?getb_lookup by (done || lia); [|done].
    simpl. by rewrite Eref.
Qed.

Lemma rep_bunpin s c i n :
  rep me dev s c -> buf_is s i n -> n ∈ cH c -> n ∈ cP c ->
  wp (bunpin i) (fun _ s' => rep me dev s' (c_unpin n c) /\ stays s s' c) s.
Proof.
  intros Hr Hb Hn Hp. destruct (rp_inv _ _ _ _ Hr) as [l Hinv]. pose proof Hb as (Hi & Hvi & Hbi).
  pose proof (bi_len _ _ _ Hinv) as Hlen. unfold bunpin, bc_acquire, bc_release, modb. wp_simp.
  apply wp_lock_acquire; [apply Hinv|]. wp_simp. apply wp_lock_release; [done|].
  assert (Eref : b_refcnt (getb i s) = 2).
  { rewrite (rp_ref _ _ _ _ Hr _ _ Hb). unfold ref_of. by rewrite !bool_decide_eq_true_2. }
  apply (rep_alter s c (c_unpin n c) i n (set_refcnt 1 (getb i s))); try done; simpl.
  - by apply (bi_dev _ _ _ Hinv).
  - by eapply rp_lock.
  - unfold ref_of. simpl. rewrite b2z_in_diff, decide_True, bool_decide_eq_true_2 by done. done.
  - set_solver.
  - intros m. destruct (Z.eqb_spec m n) as [->|]; [|done]. symmetry. by eapply buf_is_data.
  - symmetry. apply (bi_lock _ _ _ Hinv).
  - apply list_eq; intros j; destruct (decide (j = i)) as [->|]; rewrite ?list_lookup_alter_eq, ?list_lookup_alter_ne, ?getb_lookup by (done || lia); [|done].
    simpl. by rewrite Eref.
Qed.

(** A block neither pinned nor held is on disk as the cache shows it. *)
Lemma rep_clean s c n : rep me dev s c -> n ∉ cP c ∪ cH c -> cv c n = dblock (cd c) n.
Proof.
  intros Hr Hn. destruct (rp_inv _ _ _ _ Hr) as [l Hinv]. rewrite <- (rp_view _ _ _ _ Hr), <- (rp_disk _ _ _ _ Hr).
  destruct (view_cases s n (bi_len _ _ _ Hinv)) as [(i & Hi & Hv & <-)|Hno].
  - rewrite (bview_hit _ _ _ _ Hinv) by done. apply (bi_free _ _ _ Hinv); [done| |done].
    rewrite (rp_ref _ _ _ _ Hr i (b_blockno (getb i s))) by done.
    destruct (decide (0 < ref_of c (b_blockno (getb i s)))) as [Ha%ref_active|Ha]; [done|].
    pose proof (ref_of_range c (b_blockno (getb i s))). lia.
  - apply bview_miss; [apply Hinv|done].
Qed.

Lemma rep_ext s c c' : rep me dev s c -> (forall n, cv c n = cv c' n) -> cd c = cd c' -> cP c = cP c' ->
  cH c = cH c' -> ctr c = ctr c' -> rep me dev s c'.
Proof.
  intros [R1 R2 R3 R4 R5 R6 R7 R8 R9] E1 E2 E3 E4 E5. split; try done; unfold ref_of in *.
  - intros i n. rewrite <- E3, <- E4. apply R3.
  - intros i n. rewrite <- E4. apply R4.
  - intros i. rewrite <- E4. apply R5.
  - intros n. rewrite <- E3, <- E4. apply R6.
  - intros n. rewrite R7. apply E1.
  - congruence.
  - congruence.
Qed.


End spec.

(** * binit() *)

Lemma relinked_initlock s s' nxt prv k :
  relinked s s' nxt prv -> (k < length (bc_buf s))%nat -> b_lock (getb k s) = initsleeplock ->
  relinked s (set_bc_buf (alter (set_lock initsleeplock) k) s') nxt prv.
Proof.
  intros [R1 R2 R3 R4 R5 R6 R7] Hk Hl. rewrite <- R4 in Hk.
  split; try done; try (intros j; unfold nxts, prvs; rewrite getb_alter by done).
  - destruct (decide (j = k)) as [->|]; [apply (R1 k)|apply R1].
  - destruct (decide (j = k)) as [->|]; [apply (R2 k)|apply R2].
  - destruct (decide (j = k)) as [->|]; [|done]. rewrite <- R3. pose proof (core_lock _ _ (R3 k)) as E.
    rewrite Hl in E. unfold core, set_lock. destruct (getb k s'). simpl in *. by subst.
  - simpl. by rewrite length_alter.
Qed.

Lemma binit_loop_spec n b s nxt prv l s0 :
  relinked s0 s nxt prv -> seg nxt prv HEAD l HEAD -> length (bc_buf s0) = S NBUF -> (b + n <= NBUF)%nat ->
  (forall i, b_lock (getb i s0) = initsleeplock) -> l ≡ₚ seq 0 b ->
  exists s' nxt' prv' l', binit_loop n b s = Ok tt s' /\ relinked s0 s' nxt' prv' /\
    seg nxt' prv' HEAD l' HEAD /\ l' ≡ₚ seq 0 (b + n).
Proof.
  revert b s nxt prv l. induction n as [|n IH]; intros b s nxt prv l R Hs Hlen Hb Hlk Hl.
  { exists s, nxt, prv, l. rewrite Nat.add_0_r. by repeat (split; [done|]). }
  assert (Hin : forall j, j ∈ l -> (j < b)%nat) by (intros j; rewrite Hl, elem_of_seq; lia).
  assert (Hbl : b ∉ l) by (intros ?%Hin; lia). assert (Hhl : HEAD ∉ l) by (unfold HEAD; intros ?%Hin; lia).
  assert (Hbh : b <> HEAD) by (unfold HEAD; lia).
  assert (Hh : nxt HEAD = HEAD \/ nxt HEAD ∈ l) by (by apply seg_nxt in Hs).
  assert (Hhlen : (nxt HEAD < length (bc_buf s0))%nat).
  { destruct Hh as [->|?%Hin]; unfold HEAD in *; lia. }
  pose proof (relinked_next _ _ _ _ b (nxt HEAD) R ltac:(lia)) as R1.
  pose proof (relinked_prev _ _ _ _ b HEAD R1 ltac:(lia)) as R2.
  pose proof (relinked_initlock _ _ _ _ b R2 ltac:(lia) (Hlk b)) as R3.
  pose proof (relinked_prev _ _ _ _ (nxt HEAD) b R3 Hhlen) as R4.
  pose proof (relinked_next _ _ _ _ HEAD b R4 ltac:(unfold HEAD; lia)) as R5.
  edestruct (IH (S b)) as (s' & nxt' & prv' & l' & E & R' & S' & P').
  { exact R5. }
  { apply (seg_push nxt prv HEAD b l); try done. rewrite Hl. apply NoDup_seq. }
  1-3: done || lia.
  { rewrite Hl, seq_S. simpl. by rewrite Permutation_cons_append. }
  exists s', nxt', prv', l'. split; [|split; [done|split; [done|by replace (b + S n)%nat with (S b + n)%nat by lia]]].
  rewrite <- E. cbn [binit_loop]. unfold bind, gets, modb, modify.
  pose proof (rl_nxt _ _ _ _ R HEAD) as E1. unfold nxts in E1. rewrite E1.
  pose proof (rl_nxt _ _ _ _ R3 HEAD) as E3. unfold nxts in E3. rewrite E3, fupd_ne by done. done.
Qed.

(** The kernel boots with zeroed buffers. *)
Definition boot_bio (d : gmap Z (list Z)) : bio := Bio Free (replicate (S NBUF) buf0) d [].

Lemma getb_boot d i : getb i (boot_bio d) = buf0.
Proof.
  unfold getb, boot_bio. cbn [bc_buf]. destruct (decide (i < S NBUF)%nat).
  - by rewrite lookup_replicate_2.
  - rewrite lookup_ge_None_2; [done|]. rewrite length_replicate. lia.
Qed.

(** binit() yields a cache in which every block reads as it is on disk. *)
Lemma rep_binit me dev d : dev <> 0 ->
  wp binit (fun _ s' => rep me dev s' (Cst (dblock d) d ∅ ∅ [])) (boot_bio d).
Proof.
  intros Hdev. set (s0 := boot_bio d).
  assert (Hlen : length (bc_buf s0) = S NBUF) by (unfold s0, boot_bio; apply length_replicate).
  pose proof (relinked_refl s0) as R0.
  pose proof (relinked_prev _ _ _ _ HEAD HEAD R0 ltac:(unfold HEAD; lia)) as R1.
  pose proof (relinked_next _ _ _ _ HEAD HEAD R1 ltac:(unfold HEAD; lia)) as R2.
  destruct (binit_loop_spec NBUF 0 _ _ _ [] _ R2) as (s' & nxt & prv & l & E & R & Hs & Hl).
  { simpl. by rewrite !fupd_eq. }
  { done. }
  { done. }
  { intros i. unfold s0. by rewrite getb_boot. }
  { done. }
  eapply (wp_of_ok _ _ _ tt s'); [exact E|].
  assert (C : forall j, core (getb j s') = buf0) by (intros j; rewrite (rl_core _ _ _ _ R); unfold s0; by rewrite getb_boot).
  assert (Hno : forall j, b_valid (getb j s') = false) by (intros j; exact (f_equal b_valid (C j))).
  assert (Hinv : bio_inv dev s' l).
  { split.
    - by rewrite (rl_lock _ _ _ _ R).
    - by rewrite (rl_len _ _ _ _ R).
    - by eapply relinked_seg.
    - done.
    - intros i j n _ _ [Hd _]. pose proof (f_equal b_dev (C i)) as Ei. simpl in Ei. congruence.
    - intros i _. by rewrite Hno.
    - intros i _. pose proof (f_equal b_refcnt (C i)) as Ei. simpl in Ei. rewrite Ei. lia.
    - intros i _. pose proof (f_equal b_lock (C i)) as Ei. simpl in Ei. by rewrite Ei.
    - intros i _ _. pose proof (f_equal b_lock (C i)) as Ei. simpl in Ei. rewrite Ei, Hno. done. }
  split; simpl.
  - by exists l.
  - intros i _. pose proof (f_equal b_refcnt (C i)) as Ei. simpl in Ei. congruence.
  - intros i n (_ & Hv & _). by rewrite Hno in Hv.
  - intros i n (_ & Hv & _). by rewrite Hno in Hv.
  - intros i _ _. pose proof (f_equal b_lock (C i)) as Ei. simpl in Ei. by rewrite Ei.
  - intros n Hn. set_solver.
  - intros n. rewrite bview_miss; [by rewrite (rl_disk _ _ _ _ R)|apply Hinv|]. intros j _. by rewrite Hno.
  - by rewrite (rl_disk _ _ _ _ R).
  - by rewrite (rl_trace _ _ _ _ R).
Qed.
