(* ===== verification/Log.v ===== *)
(** The write-ahead log, kernel/log.c.

    The state is struct log and the buffer cache below it.  sleep() on
    [&log] is the outcome [Blocked]: the caller tries again when it is
    woken.  The array lh.block has LOGBLOCKS entries; an access past its
    end, which C leaves undefined, is the outcome Panic "log: bounds", and
    the theorems show that it does not happen. *)
From S2P Require Import Prelude Mem Spinlock Bio.

Definition LOGBLOCKS : Z := MAXOPBLOCKS * 3.

Record logst := Logst {
  lg_bio : bio;
  lg_lock : lockst;
  lg_start : Z;
  lg_outstanding : Z;
  lg_committing : bool;
  lg_dev : Z;
  lh_n : Z;
  lh_block : list Z }.
Definition set_lg_bio b s := Logst b (lg_lock s) (lg_start s) (lg_outstanding s) (lg_committing s) (lg_dev s) (lh_n s) (lh_block s).
Definition set_lg_lock l s := Logst (lg_bio s) l (lg_start s) (lg_outstanding s) (lg_committing s) (lg_dev s) (lh_n s) (lh_block s).
Definition set_where st d s := Logst (lg_bio s) (lg_lock s) st (lg_outstanding s) (lg_committing s) d (lh_n s) (lh_block s).
Definition set_outstanding o s := Logst (lg_bio s) (lg_lock s) (lg_start s) o (lg_committing s) (lg_dev s) (lh_n s) (lh_block s).
Definition set_committing c s := Logst (lg_bio s) (lg_lock s) (lg_start s) (lg_outstanding s) c (lg_dev s) (lh_n s) (lh_block s).
Definition set_lh_n n s := Logst (lg_bio s) (lg_lock s) (lg_start s) (lg_outstanding s) (lg_committing s) (lg_dev s) n (lh_block s).
Definition set_lh_block b s := Logst (lg_bio s) (lg_lock s) (lg_start s) (lg_outstanding s) (lg_committing s) (lg_dev s) (lh_n s) b.

Definition onb {A} (m : M bio A) : M logst A := zoom lg_bio set_lg_bio m.
Definition log_acquire : M logst unit := lock_acquire lg_lock set_lg_lock.
Definition log_release : M logst unit := lock_release lg_lock set_lg_lock.

(** Reading and writing an int of struct logheader in a block: [n] is at
    offset 0, [block[i]] at offset 4 + 4*i. *)
Definition get32 (off : Z) (d : list Z) : Z := s32 (le_decode (take 4 (drop (Z.to_nat off) d))).
Definition put32 (off v : Z) (d : list Z) : list Z :=
  take (Z.to_nat off) d ++ le_encode 4 v ++ drop (Z.to_nat off + 4) d.

Definition lh_get (i : Z) : M logst Z :=
  let! bs := gets lh_block in
  match bs !! Z.to_nat i with Some b => ret b | None => panic "log: bounds" end.
Definition lh_put (i b : Z) : M logst unit :=
  let! bs := gets lh_block in
  if i <? Z.of_nat (length bs) then modify (set_lh_block (<[Z.to_nat i := b]> bs)) else panic "log: bounds".

(** One iteration of install_trans(). *)
Definition install_body (me tail : Z) (recovering : bool) : M logst unit :=
  let! start := gets lg_start in
  let! dev := gets lg_dev in
  let! lbuf := onb (bread me dev (start + tail + 1)) in
  let! dst := lh_get tail in
  let! dbuf := onb (bread me dev dst) in
  let! x := gets (fun s => getb lbuf (lg_bio s)) in
  onb (modb dbuf (set_data (b_data x))) ;;
  onb (bwrite me dbuf) ;;
  (if negb recovering then onb (bunpin dbuf) else ret tt) ;;
  onb (brelse me lbuf) ;;
  onb (brelse me dbuf).
(** [for (tail = 0; tail < log.lh.n; tail++)]; [k] counts the iterations left. *)
Fixpoint install_loop (k : nat) (me tail : Z) (recovering : bool) : M logst unit :=
  match k with
  | O => ret tt
  | S k => install_body me tail recovering ;; install_loop k me (tail + 1) recovering
  end.
Definition install_trans (me : Z) (recovering : bool) : M logst unit :=
  let! n := gets lh_n in install_loop (Z.to_nat n) me 0 recovering.

Fixpoint read_head_loop (k : nat) (i : Z) (d : list Z) : M logst unit :=
  match k with
  | O => ret tt
  | S k => lh_put i (get32 (4 + 4 * i) d) ;; read_head_loop k (i + 1) d
  end.
Definition read_head (me : Z) : M logst unit :=
  let! start := gets lg_start in
  let! dev := gets lg_dev in
  let! b := onb (bread me dev start) in
  let! x := gets (fun s => getb b (lg_bio s)) in
  modify (set_lh_n (get32 0 (b_data x))) ;;
  let! n := gets lh_n in
  read_head_loop (Z.to_nat n) 0 (b_data x) ;;
  onb (brelse me b).

Fixpoint write_head_loop (k : nat) (i : Z) (b : nat) : M logst unit :=
  match k with
  | O => ret tt
  | S k =>
      let! v := lh_get i in
      onb (modb b (fun x => set_data (put32 (4 + 4 * i) v (b_data x)) x)) ;;
      write_head_loop k (i + 1) b
  end.
Definition write_head (me : Z) : M logst unit :=
  let! start := gets lg_start in
  let! dev := gets lg_dev in
  let! b := onb (bread me dev start) in
  let! n := gets lh_n in
  onb (modb b (fun x => set_data (put32 0 n (b_data x)) x)) ;;
  write_head_loop (Z.to_nat n) 0 b ;;
  onb (bwrite me b) ;;
  onb (brelse me b).

Definition recover_from_log (me : Z) : M logst unit :=
  read_head me ;;
  install_trans me true ;;
  modify (set_lh_n 0) ;;
  write_head me.

(** [logstart] is the field of the super block. *)
Definition initlog (me dev logstart : Z) : M logst unit :=
  modify (set_lg_lock Free) ;;
  modify (set_where logstart dev) ;;
  recover_from_log me.

Definition begin_op : M logst unit :=
  log_acquire ;;
  let! s := gets id in
  if lg_committing s then log_release ;; block
  else if LOGBLOCKS <? lh_n s + (lg_outstanding s + 1) * MAXOPBLOCKS then log_release ;; block
  else modify (set_outstanding (lg_outstanding s + 1)) ;; log_release.

(** One iteration of write_log(). *)
Definition write_log_body (me tail : Z) : M logst unit :=
  let! start := gets lg_start in
  let! dev := gets lg_dev in
  let! to := onb (bread me dev (start + tail + 1)) in
  let! src := lh_get tail in
  let! from := onb (bread me dev src) in
  let! x := gets (fun s => getb from (lg_bio s)) in
  onb (modb to (set_data (b_data x))) ;;
  onb (bwrite me to) ;;
  onb (brelse me from) ;;
  onb (brelse me to).
Fixpoint write_log_loop (k : nat) (me tail : Z) : M logst unit :=
  match k with
  | O => ret tt
  | S k => write_log_body me tail ;; write_log_loop k me (tail + 1)
  end.
Definition write_log (me : Z) : M logst unit :=
  let! n := gets lh_n in write_log_loop (Z.to_nat n) me 0.

Definition commit (me : Z) : M logst unit :=
  let! n := gets lh_n in
  if 0 <? n then
    write_log me ;;
    write_head me ;;
    install_trans me false ;;
    modify (set_lh_n 0) ;;
    write_head me
  else ret tt.

Definition end_op (me : Z) : M logst unit :=
  log_acquire ;;
  let! o := gets lg_outstanding in
  modify (set_outstanding (o - 1)) ;;
  let! c := gets lg_committing in
  if c then panic "log.committing" else
  let do_commit := o - 1 =? 0 in
  (if do_commit then modify (set_committing true) else ret tt) ;;
  log_release ;;
  if do_commit then
    commit me ;;
    log_acquire ;;
    modify (set_committing false) ;;
    log_release
  else ret tt.

(** [for (i = 0; i < log.lh.n; i++) if (log.lh.block[i] == b->blockno) break;] *)
Fixpoint log_find (k : nat) (i : Z) (blockno : Z) : M logst Z :=
  match k with
  | O => ret i
  | S k => let! x := lh_get i in if x =? blockno then ret i else log_find k (i + 1) blockno
  end.
Definition log_write (b : nat) : M logst unit :=
  log_acquire ;;
  let! n := gets lh_n in
  if LOGBLOCKS <=? n then panic "too big a transaction" else
  let! o := gets lg_outstanding in
  if o <? 1 then panic "log_write outside of trans" else
  let! blockno := gets (fun s => b_blockno (getb b (lg_bio s))) in
  let! i := log_find (Z.to_nat n) 0 blockno in
  lh_put i blockno ;;
  (if i =? n then onb (bpin b) ;; modify (set_lh_n (n + 1)) else ret tt) ;;
  log_release.
