(* ===== verification/LogSpec.v ===== *)
(** Specification of the log: what commit() writes to the disk and in which
    order, what recovery makes of the disk a crash leaves behind, and that
    a transaction is atomic with respect to crashes. *)
From S2P Require Import Prelude Mem Spinlock Bio BioSpec BCache Log.

(** * Header blocks *)

Lemma length_put32 off v d : 0 <= off -> (Z.to_nat off + 4 <= length d)%nat -> length (put32 off v d) = length d.
Proof.
  intros H0 H. unfold put32. rewrite !length_app, length_le_encode, length_take, length_drop. lia.
Qed.

Lemma get_put32 off v d : 0 <= off -> (Z.to_nat off + 4 <= length d)%nat -> - 2 ^ 31 <= v < 2 ^ 31 ->
  get32 off (put32 off v d) = v.
Proof.
  intros H0 H Hv. unfold get32, put32.
  rewrite drop_app_length' by (rewrite length_take; lia).
  rewrite take_app_length' by (by rewrite length_le_encode).
  rewrite le_decode_encode. change (2 ^ (8 * Z.of_nat 4)) with (2 ^ 32).
  unfold s32. rewrite Z.add_mod_idemp_l by lia. rewrite Z.mod_small by lia. lia.
Qed.

Lemma get_put32_ne off off' v d : 0 <= off -> 0 <= off' -> off + 4 <= off' \/ off' + 4 <= off ->
  (Z.to_nat off + 4 <= length d)%nat -> get32 off' (put32 off v d) = get32 off' d.
Proof.
  intros H0 H0' Hne Hl. unfold get32. do 2 f_equal. apply list_eq. intros i.
  destruct (decide (i < 4)%nat) as [Hi|Hi]; [|by rewrite !lookup_take_ge by lia].
  rewrite !lookup_take_lt, !lookup_drop by done. unfold put32.
  destruct Hne.
  - rewrite lookup_app_r by (rewrite length_take; lia). rewrite lookup_app_r by (rewrite length_take, length_le_encode; lia).
    rewrite lookup_drop, length_take, length_le_encode. f_equal. lia.
  - rewrite lookup_app_l by (rewrite length_take; lia). rewrite lookup_take_lt by lia. done.
Qed.

(** The header block as the loops of write_head() fill it in. *)
Fixpoint hput (i : Z) (bl : list Z) (d : list Z) : list Z :=
  match bl with [] => d | b :: bl => hput (i + 1) bl (put32 (4 + 4 * i) b d) end.
Definition hdr (bl : list Z) (d : list Z) : list Z := hput 0 bl (put32 0 (Z.of_nat (length bl)) d).

Definition int_list (bl : list Z) : Prop := Forall (fun b => - 2 ^ 31 <= b < 2 ^ 31) bl.

Lemma hput_spec i bl d : 0 <= i -> 4 + 4 * (i + Z.of_nat (length bl)) <= Z.of_nat (length d) -> int_list bl ->
  length (hput i bl d) = length d /\
  (forall off, 0 <= off -> off + 4 <= 4 + 4 * i -> get32 off (hput i bl d) = get32 off d) /\
  (forall k b, bl !! k = Some b -> get32 (4 + 4 * (i + Z.of_nat k)) (hput i bl d) = b).
Proof.
  revert i d. induction bl as [|b bl IH]; intros i d Hi Hl Hb; simpl; [done|].
  apply Forall_cons in Hb as [Hb Hbl]. simpl in Hl.
  assert (Hlen : length (put32 (4 + 4 * i) b d) = length d) by (apply length_put32; lia).
  destruct (IH (i + 1) (put32 (4 + 4 * i) b d)) as (H1 & H2 & H3); [lia|lia|done|].
  split_and!; [congruence|..].
  - intros off H0 Ho. rewrite H2 by lia. apply get_put32_ne; lia.
  - intros [|k] x; simpl.
    + intros [= <-]. rewrite Z.add_0_r, H2 by lia. apply get_put32; lia.
    + intros Hk. rewrite <- (H3 k x Hk). f_equal. lia.
Qed.

Lemma hdr_spec bl d : 4 + 4 * Z.of_nat (length bl) <= Z.of_nat (length d) -> int_list bl ->
  Z.of_nat (length bl) < 2 ^ 31 ->
  length (hdr bl d) = length d /\ get32 0 (hdr bl d) = Z.of_nat (length bl) /\
  (forall k b, bl !! k = Some b -> get32 (4 + 4 * Z.of_nat k) (hdr bl d) = b).
Proof.
  intros Hl Hb Hn. unfold hdr.
  assert (Hlen : length (put32 0 (Z.of_nat (length bl)) d) = length d) by (apply length_put32; lia).
  destruct (hput_spec 0 bl (put32 0 (Z.of_nat (length bl)) d)) as (H1 & H2 & H3); [lia|lia|done|].
  split_and!; [congruence| |done]. rewrite H2 by lia. apply get_put32; lia.
Qed.

(** * Steps on the client's view of the cache *)

(** Copy block [src] to [dst] and write it out. *)
Definition c_put (dst : Z) (d : list Z) (c : cst) : cst := c_write dst (c_set dst d c).
Definition c_copy (src dst : Z) (c : cst) : cst := c_put dst (cv c src) c.

Definition lrep (me : Z) (s : logst) (c : cst) : Prop := rep me (lg_dev s) (lg_bio s) c.

(** [s'] is [s] with another state of the cache. *)
Definition only_bio (s s' : logst) : Prop := s' = set_lg_bio (lg_bio s') s.

Lemma only_bio_set s b : only_bio s (set_lg_bio b s).
Proof. done. Qed.
Lemma only_bio_trans s s1 s2 : only_bio s s1 -> only_bio s1 s2 -> only_bio s s2.
Proof. unfold only_bio. intros -> ->. done. Qed.

Lemma wp_onb {A} (m : M bio A) Q s : wp (onb m) Q s = wp m (fun a b => Q a (set_lg_bio b s)) (lg_bio s).
Proof. apply wp_zoom. Qed.
#[local] Hint Rewrite @wp_onb : wp.

Lemma wp_lh_get i Q s b : lh_block s !! Z.to_nat i = Some b -> Q b s -> wp (lh_get i) Q s.
Proof. intros Hb HQ. unfold lh_get. wp_simp. by rewrite Hb. Qed.

Lemma set_lg_bio_set b b' s : set_lg_bio b (set_lg_bio b' s) = set_lg_bio b s.
Proof. done. Qed.

Lemma write_log_body_spec me s c tail src :
  lrep me s c -> cH c = ∅ -> lh_block s !! Z.to_nat tail = Some src -> src ∈ cP c ->
  (lg_start s + tail + 1) ∉ cP c -> (size (cP c) < NBUF)%nat ->
  wp (write_log_body me tail)
     (fun _ s' => only_bio s s' /\ lrep me s' (c_copy src (lg_start s + tail + 1) c)) s.
Proof.
  intros Hr Hh Hb Hsrc Hdst Hsz. unfold write_log_body. remember (lg_start s + tail + 1) as dst eqn:Edst.
  assert (Hne : src <> dst) by (intros ->; done). wp_simp. rewrite <- Edst.
  eapply wp_mono; [apply (rep_bread me (lg_dev s) (lg_bio s) c dst Hr); [rewrite Hh; apply not_elem_of_empty|right; by rewrite Hh, union_empty_r_L]|].
  intros to b1 (R1 & T1 & _). cbv beta. wp_simp. eapply wp_lh_get; [done|]. wp_simp.
  eapply wp_mono; [apply (rep_bread me (lg_dev s) b1 _ src R1); [simpl; set_solver|left; done]|].
  intros from b2 (R2 & F2 & S2). cbv beta. wp_simp.
  assert (T2 : buf_is b2 to dst) by (apply S2; [simpl; set_solver|done]).
  cbn [lg_bio set_lg_bio]. rewrite (buf_is_data _ _ _ _ _ _ R2 F2). simpl cv.
  eapply wp_mono; [apply (rep_set_data me (lg_dev s) b2 _ to dst (cv c src) R2 T2); simpl; set_solver|].
  intros _ b3 (R3 & S3). cbv beta. wp_simp.
  assert (T3 : buf_is b3 to dst) by (apply S3; [simpl; set_solver|done]).
  assert (F3 : buf_is b3 from src) by (apply S3; [simpl; set_solver|done]).
  eapply wp_mono; [apply (rep_bwrite me (lg_dev s) b3 _ to dst R3 T3); simpl; set_solver|].
  intros _ b4 (R4 & S4). cbv beta. wp_simp.
  assert (T4 : buf_is b4 to dst) by (apply S4; [simpl; set_solver|done]).
  assert (F4 : buf_is b4 from src) by (apply S4; [simpl; set_solver|done]).
  eapply wp_mono; [apply (rep_brelse me (lg_dev s) b4 _ from src R4 F4); [simpl; set_solver|by left]|].
  intros _ b5 (R5 & S5). cbv beta. wp_simp.
  assert (T5 : buf_is b5 to dst) by (apply S5; [simpl; set_solver|done]).
  eapply wp_mono; [apply (rep_brelse me (lg_dev s) b5 _ to dst R5 T5); [simpl; set_solver|]|].
  { right. simpl. rewrite Z.eqb_refl. unfold dblock. by rewrite lookup_insert_eq. }
  intros _ b6 (R6 & _). split; [done|]. eapply rep_ext; [exact R6|..]; simpl; try done. set_solver.
Qed.

(** The view after one block has been installed. *)
Definition c_install (src dst : Z) (recovering : bool) (c : cst) : cst :=
  if recovering then c_copy src dst c else c_unpin dst (c_copy src dst c).

Lemma install_body_spec me s c tail dst (recovering : bool) :
  lrep me s c -> cH c = ∅ -> lh_block s !! Z.to_nat tail = Some dst ->
  (lg_start s + tail + 1) ∉ cP c -> lg_start s + tail + 1 <> dst ->
  (if recovering then (S (size (cP c)) < NBUF)%nat else dst ∈ cP c /\ (size (cP c) < NBUF)%nat) ->
  wp (install_body me tail recovering)
     (fun _ s' => only_bio s s' /\ lrep me s' (c_install (lg_start s + tail + 1) dst recovering c)) s.
Proof.
  intros Hr Hh Hb Hsrc Hne Hroom. unfold install_body. remember (lg_start s + tail + 1) as src eqn:Esrc.
  pose proof (rep_clean _ _ _ _ src Hr ltac:(rewrite Hh; set_solver)) as Hcl.
  wp_simp. rewrite <- Esrc.
  eapply wp_mono; [apply (rep_bread me (lg_dev s) (lg_bio s) c src Hr);
    [rewrite Hh; apply not_elem_of_empty|right; rewrite Hh, union_empty_r_L; destruct recovering; lia]|].
  intros lb b1 (R1 & T1 & _). cbv beta. wp_simp. eapply wp_lh_get; [done|]. wp_simp.
  eapply wp_mono; [apply (rep_bread me (lg_dev s) b1 _ dst R1); simpl|].
  { rewrite Hh. set_solver. }
  { destruct recovering; [right|left; apply Hroom]. rewrite Hh, union_empty_r_L.
    rewrite size_union, size_singleton by set_solver. lia. }
  intros db b2 (R2 & D2 & S2). cbv beta. wp_simp.
  assert (T2 : buf_is b2 lb src) by (apply S2; [simpl; set_solver|done]).
  cbn [lg_bio set_lg_bio]. rewrite (buf_is_data _ _ _ _ _ _ R2 T2). simpl cv.
  eapply wp_mono; [apply (rep_set_data me (lg_dev s) b2 _ db dst (cv c src) R2 D2); simpl; set_solver|].
  intros _ b3 (R3 & S3). cbv beta. wp_simp.
  assert (T3 : buf_is b3 lb src) by (apply S3; [simpl; set_solver|done]).
  assert (D3 : buf_is b3 db dst) by (apply S3; [simpl; set_solver|done]).
  eapply wp_mono; [apply (rep_bwrite me (lg_dev s) b3 _ db dst R3 D3); simpl; set_solver|].
  intros _ b4 (R4 & S4). cbv beta. wp_simp.
  assert (T4 : buf_is b4 lb src) by (apply S4; [simpl; set_solver|done]).
  assert (D4 : buf_is b4 db dst) by (apply S4; [simpl; set_solver|done]).
  remember (c_write dst (c_set dst (cv c src) (c_hold dst (c_hold src c)))) as c4 eqn:Ec4.
  remember (if recovering then c4 else c_unpin dst c4) as c5 eqn:Ec5.
  assert (Hc5 : cv c5 = cv c4 /\ cd c5 = cd c4 /\ cH c5 = cH c4 /\ ctr c5 = ctr c4) by (subst c5; by destruct recovering).
  destruct Hc5 as (Ev & Ed & EH & Et).
  assert (Hmid : wp (if negb recovering then onb (bunpin db) else ret tt)
    (fun _ s' => only_bio s s' /\ lrep me s' c5 /\ buf_is (lg_bio s') lb src /\ buf_is (lg_bio s') db dst) (set_lg_bio b4 s)).
  { subst c5. destruct recovering; simpl negb; cbv iota; wp_simp; [by split_and!|].
    eapply wp_mono; [apply (rep_bunpin me (lg_dev s) b4 _ db dst R4 D4); subst c4; simpl; [set_solver|apply Hroom]|].
    intros _ b5 (R5 & S5). split_and!; try done; (apply S5; [subst c4; simpl; set_solver|done]). }
  eapply wp_mono; [exact Hmid|]. intros _ s5 (O5 & R5 & T5 & D5). wp_simp.
  assert (Edev : lg_dev s5 = lg_dev s) by (by rewrite O5).
  eapply wp_mono; [apply (rep_brelse me (lg_dev s5) (lg_bio s5) _ lb src R5 T5)|].
  { rewrite EH. subst c4. simpl. set_solver. }
  { right. rewrite Ev, Ed. subst c4. simpl. rewrite (proj2 (Z.eqb_neq src dst)) by done.
    unfold dblock in *. by rewrite lookup_insert_ne. }
  intros _ b6 (R6 & S6). cbv beta. wp_simp.
  eapply wp_mono; [apply (rep_brelse me (lg_dev s5) b6 _ db dst R6)|].
  { apply S6; [|done]. simpl. rewrite EH. subst c4. simpl. set_solver. }
  { simpl. rewrite EH. subst c4. simpl. set_solver. }
  { right. simpl. rewrite Ev, Ed. subst c4. simpl. rewrite Z.eqb_refl. unfold dblock. by rewrite lookup_insert_eq. }
  intros _ b7 (R7 & _). split; [rewrite O5; done|]. unfold lrep. cbn [lg_dev lg_bio set_lg_bio].
  eapply rep_ext; [exact R7|..]; unfold c_install; simpl.
  - intros m. rewrite Ev. subst c4. by destruct recovering.
  - rewrite Ed. subst c4. by destruct recovering.
  - subst c5 c4. by destruct recovering.
  - rewrite EH. subst c4. destruct recovering; simpl; set_solver.
  - rewrite Et. subst c4. by destruct recovering.
Qed.

(** * Sequences of disk writes *)

Definition apply_writes (d : gmap Z (list Z)) (ws : list (Z * list Z)) : gmap Z (list Z) :=
  foldl (fun d w => <[w.1 := w.2]> d) d ws.
(** The last write to block [m]. *)
Definition last_write (ws : list (Z * list Z)) (m : Z) : option (list Z) :=
  foldl (fun r w => if w.1 =? m then Some w.2 else r) None ws.
Definition put_all (ws : list (Z * list Z)) (c : cst) : cst := foldl (fun c w => c_put w.1 w.2 c) c ws.

Lemma last_write_snoc ws w m : last_write (ws ++ [w]) m = if w.1 =? m then Some w.2 else last_write ws m.
Proof. unfold last_write. by rewrite foldl_app. Qed.

Lemma last_write_app ws ws' m :
  last_write (ws ++ ws') m = match last_write ws' m with Some d => Some d | None => last_write ws m end.
Proof.
  induction ws' as [|w ws' IH] using rev_ind; [by rewrite app_nil_r|].
  rewrite (assoc_L (++)), !last_write_snoc. destruct (w.1 =? m); [done|exact IH].
Qed.

Lemma last_write_none ws m : m ∉ ws.*1 -> last_write ws m = None.
Proof.
  induction ws as [|w ws IH] using rev_ind; [done|]. rewrite fmap_app, elem_of_app. simpl.
  rewrite list_elem_of_singleton. intros Hm. rewrite last_write_snoc, IH by tauto.
  destruct (Z.eqb_spec w.1 m); [|done]. subst. tauto.
Qed.

Lemma last_write_in ws m d : NoDup (ws.*1) -> (m, d) ∈ ws -> last_write ws m = Some d.
Proof.
  induction ws as [|w ws IH] using rev_ind; [by intros _ ?%not_elem_of_nil|].
  rewrite fmap_app, NoDup_app. intros (Hnd & Hd & _). rewrite elem_of_app, last_write_snoc, list_elem_of_singleton.
  intros [Hin| <-]; simpl; [|by rewrite Z.eqb_refl].
  destruct (Z.eqb_spec w.1 m) as [E|]; [|by apply IH]. exfalso.
  apply (Hd m); [apply list_elem_of_fmap; by exists (m, d)|]. simpl. rewrite E. left.
Qed.

Lemma dblock_apply d ws m : dblock (apply_writes d ws) m = default (dblock d m) (last_write ws m).
Proof.
  induction ws as [|w ws IH] using rev_ind; [done|]. unfold apply_writes. rewrite foldl_app, last_write_snoc. simpl.
  unfold dblock at 1. destruct (Z.eqb_spec w.1 m) as [->|Hne]; [by rewrite lookup_insert_eq|].
  rewrite lookup_insert_ne by done. apply IH.
Qed.

Lemma put_all_spec ws c :
  cd (put_all ws c) = apply_writes (cd c) ws /\ ctr (put_all ws c) = ctr c ++ ws /\
  cP (put_all ws c) = cP c /\ cH (put_all ws c) = cH c /\
  forall m, cv (put_all ws c) m = default (cv c m) (last_write ws m).
Proof.
  induction ws as [|w ws IH] using rev_ind; [by rewrite app_nil_r|].
  destruct IH as (H1 & H2 & H3 & H4 & H5). unfold put_all, apply_writes in *. rewrite !foldl_app. simpl.
  split_and!; try done.
  - rewrite H1. by rewrite Z.eqb_refl.
  - rewrite H2, Z.eqb_refl, <- (assoc_L (++)). by destruct w.
  - intros m. rewrite last_write_snoc, (Z.eqb_sym w.1 m). destruct (m =? w.1); [done|]. apply H5.
Qed.

(** The writes of write_log() and of install_trans(). *)
Fixpoint log_writes (v : Z -> list Z) (first : Z) (bl : list Z) : list (Z * list Z) :=
  match bl with [] => [] | b :: bl => (first, v b) :: log_writes v (first + 1) bl end.
Fixpoint home_writes (v : Z -> list Z) (first : Z) (bl : list Z) : list (Z * list Z) :=
  match bl with [] => [] | b :: bl => (b, v first) :: home_writes v (first + 1) bl end.

Lemma log_writes_keys v first bl : (log_writes v first bl).*1 = seqZ first (Z.of_nat (length bl)).
Proof.
  revert first. induction bl as [|b bl IH]; intros first; [done|]. simpl log_writes. rewrite fmap_cons, IH.
  simpl length. rewrite Nat2Z.inj_succ, (seqZ_cons first) by lia. rewrite Z.pred_succ, <- Z.add_1_r. done.
Qed.

Lemma home_writes_keys v first bl : (home_writes v first bl).*1 = bl.
Proof. revert first. induction bl as [|b bl IH]; intros first; simpl; [done|by rewrite IH]. Qed.

Lemma log_writes_lookup v first bl j b : bl !! j = Some b -> (first + Z.of_nat j, v b) ∈ log_writes v first bl.
Proof.
  revert first j. induction bl as [|x bl IH]; intros first [|j]; simpl; try done.
  - intros [= ->]. rewrite Z.add_0_r. left.
  - intros Hj. right. replace (first + Z.of_nat (S j)) with (first + 1 + Z.of_nat j) by lia. by apply IH.
Qed.

Lemma home_writes_lookup v first bl j b : bl !! j = Some b -> (b, v (first + Z.of_nat j)) ∈ home_writes v first bl.
Proof.
  revert first j. induction bl as [|x bl IH]; intros first [|j]; simpl; try done.
  - intros [= ->]. rewrite Z.add_0_r. left.
  - intros Hj. right. replace (first + Z.of_nat (S j)) with (first + 1 + Z.of_nat j) by lia. by apply IH.
Qed.

Lemma log_writes_ext v v' first bl : (forall b, b ∈ bl -> v b = v' b) -> log_writes v first bl = log_writes v' first bl.
Proof.
  revert first. induction bl as [|b bl IH]; intros first H; simpl; [done|].
  rewrite H by left. f_equal. apply IH. intros x Hx. apply H. by right.
Qed.

Lemma home_writes_ext v v' first bl :
  (forall j, (j < length bl)%nat -> v (first + Z.of_nat j) = v' (first + Z.of_nat j)) ->
  home_writes v first bl = home_writes v' first bl.
Proof.
  revert first. induction bl as [|b bl IH]; intros first H; simpl; [done|]. f_equal.
  - f_equal. specialize (H 0%nat). rewrite Z.add_0_r in H. apply H. simpl. lia.
  - apply IH. intros j Hj. specialize (H (S j)). replace (first + 1 + Z.of_nat j) with (first + Z.of_nat (S j)) by lia.
    apply H. simpl. lia.
Qed.

(** * The loops *)

(** [bl] is what lh.block holds from index [tail] on. *)
Definition lh_at (s : logst) (tail : Z) (bl : list Z) : Prop :=
  0 <= tail /\ forall j b, bl !! j = Some b -> lh_block s !! Z.to_nat (tail + Z.of_nat j) = Some b.

Lemma lh_at_cons s tail b bl : lh_at s tail (b :: bl) ->
  lh_block s !! Z.to_nat tail = Some b /\ lh_at s (tail + 1) bl.
Proof.
  intros [H0 H]. split.
  - specialize (H 0%nat b eq_refl). by rewrite Z.add_0_r in H.
  - split; [lia|]. intros j x Hj. specialize (H (S j) x Hj). by replace (tail + 1 + Z.of_nat j) with (tail + Z.of_nat (S j)) by lia.
Qed.

Lemma lh_at_only s s' tail bl : only_bio s s' -> lh_at s tail bl -> lh_at s' tail bl.
Proof. intros ->. done. Qed.

Lemma write_log_loop_spec me bl tail s c :
  lrep me s c -> cH c = ∅ -> lh_at s tail bl -> (forall b, b ∈ bl -> b ∈ cP c) ->
  (forall j, tail <= j < tail + Z.of_nat (length bl) -> (lg_start s + j + 1) ∉ cP c) -> (size (cP c) < NBUF)%nat ->
  wp (write_log_loop (length bl) me tail)
     (fun _ s' => only_bio s s' /\ lrep me s' (put_all (log_writes (cv c) (lg_start s + tail + 1) bl) c)) s.
Proof.
  revert tail s c. induction bl as [|b bl IH]; intros tail s c Hr Hh Hlh Hin Hdst Hsz.
  { wp_simp. split; [by destruct s|done]. }
  apply lh_at_cons in Hlh as [Hb Hlh].
  change (wp (write_log_body me tail ;; write_log_loop (length bl) me (tail + 1))
    (fun _ s' => only_bio s s' /\ lrep me s' (put_all (log_writes (cv c) (lg_start s + tail + 1) (b :: bl)) c)) s).
  assert (Hb' : b ∈ cP c) by (apply Hin; left). simpl length in *.
  wp_simp. eapply wp_mono; [apply (write_log_body_spec me s c tail b); try done; apply Hdst; lia|].
  intros _ s1 [O1 R1]. pose proof (only_bio_trans) as Htr.
  eapply wp_mono; [apply (IH (tail + 1) s1 _ R1); try done|].
  - by eapply lh_at_only.
  - intros x Hx. simpl. apply Hin. by right.
  - intros j Hj. simpl. rewrite O1. apply Hdst. lia.
  - intros _ s2 [O2 R2]. split; [by eapply only_bio_trans|].
    replace (lg_start s1) with (lg_start s) in R2 by (by rewrite O1).
    replace (lg_start s + (tail + 1) + 1) with (lg_start s + tail + 1 + 1) in R2 by lia.
    erewrite log_writes_ext in R2; [exact R2|]. intros x Hx. simpl.
    destruct (Z.eqb_spec x (lg_start s + tail + 1)) as [->|]; [|done].
    exfalso. apply (Hdst tail); [lia|]. apply Hin. by right.
Qed.

(** What install_trans(0) leaves pinned. *)
Definition c_unpin_all (bl : list Z) (c : cst) : cst :=
  Cst (cv c) (cd c) (cP c ∖ list_to_set bl) (cH c) (ctr c).

Lemma install_loop_spec me (recovering : bool) bl tail s c :
  lrep me s c -> cH c = ∅ -> lh_at s tail bl -> NoDup bl ->
  (forall j, tail <= j < tail + Z.of_nat (length bl) -> ((lg_start s + j + 1) ∉ cP c) /\ (lg_start s + j + 1) ∉ bl) ->
  (if recovering then (S (size (cP c)) < NBUF)%nat else (forall b, b ∈ bl -> b ∈ cP c) /\ (size (cP c) < NBUF)%nat) ->
  wp (install_loop (length bl) me tail recovering)
     (fun _ s' => only_bio s s' /\
        lrep me s' (let c' := put_all (home_writes (cv c) (lg_start s + tail + 1) bl) c in
                    if recovering then c' else c_unpin_all bl c')) s.
Proof.
  revert tail s c. induction bl as [|b bl IH]; intros tail s c Hr Hh Hlh Hnd Hdst Hroom.
  { wp_simp. split; [by destruct s|]. destruct recovering; [done|]. eapply rep_ext; [exact Hr|done..| |done|done].
    simpl. by rewrite difference_empty_L. }
  apply lh_at_cons in Hlh as [Hb Hlh]. apply NoDup_cons in Hnd as [Hnb Hnd]. simpl length in Hdst.
  change (wp (install_body me tail recovering ;; install_loop (length bl) me (tail + 1) recovering)
    (fun _ s' => only_bio s s' /\ lrep me s' (let c' := put_all (home_writes (cv c) (lg_start s + tail + 1) (b :: bl)) c in
       if recovering then c' else c_unpin_all (b :: bl) c')) s).
  destruct (Hdst tail ltac:(lia)) as [Hd1 Hd2]. assert (Hne : lg_start s + tail + 1 <> b) by (intros E; apply Hd2; rewrite E; left).
  wp_simp. eapply wp_mono; [apply (install_body_spec me s c tail b recovering); try done|].
  { destruct recovering; [done|]. split; [apply Hroom; left|apply Hroom]. }
  intros _ s1 [O1 R1].
  assert (HP1 : cP (c_install (lg_start s + tail + 1) b recovering c) ⊆ cP c) by (destruct recovering; simpl; set_solver).
  eapply wp_mono; [apply (IH (tail + 1) s1 _ R1); try done|].
  - by destruct recovering.
  - by eapply lh_at_only.
  - intros j Hj. rewrite O1. destruct (Hdst j ltac:(lia)) as [? Hn]. split; [by intros ?%HP1|].
    intros ?. apply Hn. by right.
  - pose proof (subseteq_size _ _ HP1). destruct recovering; [simpl; lia|]. simpl in *. split; [|destruct Hroom; lia].
    intros x Hx. apply elem_of_difference. split; [apply Hroom; by right|]. intros ->%elem_of_singleton. done.
  - intros _ s2 [O2 R2]. split; [by eapply only_bio_trans|].
    replace (lg_start s1) with (lg_start s) in R2 by (by rewrite O1).
    replace (lg_start s + (tail + 1) + 1) with (lg_start s + tail + 1 + 1) in R2 by lia.
    assert (Ews : home_writes (cv (c_install (lg_start s + tail + 1) b recovering c)) (lg_start s + tail + 1 + 1) bl =
      home_writes (cv c) (lg_start s + tail + 1 + 1) bl).
    { apply home_writes_ext. intros j Hj.
      assert (E : cv (c_install (lg_start s + tail + 1) b recovering c) (lg_start s + tail + 1 + 1 + Z.of_nat j) =
        if lg_start s + tail + 1 + 1 + Z.of_nat j =? b then cv c (lg_start s + tail + 1) else cv c (lg_start s + tail + 1 + 1 + Z.of_nat j))
        by (by destruct recovering).
      rewrite E. destruct (Z.eqb_spec (lg_start s + tail + 1 + 1 + Z.of_nat j) b) as [E'|]; [|done].
      exfalso. destruct (Hdst (tail + 1 + Z.of_nat j)) as [_ Hn]; [lia|]. apply Hn. rewrite <- E'.
      replace (lg_start s + (tail + 1 + Z.of_nat j) + 1) with (lg_start s + tail + 1 + 1 + Z.of_nat j) by lia. left. }
    rewrite Ews in R2. simpl. unfold lrep in *. replace (lg_dev s1) with (lg_dev s) in R2 by (by rewrite O1).
    destruct recovering; [done|].
    eapply rep_ext; [exact R2|..]; simpl.
    + intros m. rewrite !(proj2 (proj2 (proj2 (proj2 (put_all_spec _ _))))). done.
    + rewrite !(proj1 (put_all_spec _ _)). done.
    + rewrite !(proj1 (proj2 (proj2 (put_all_spec _ _)))). simpl. set_solver.
    + rewrite !(proj1 (proj2 (proj2 (proj2 (put_all_spec _ _))))). done.
    + rewrite !(proj1 (proj2 (put_all_spec _ _))). done.
Qed.

(** * Header *)

Lemma modb_data_fun i (F : list Z -> list Z) s :
  modb i (fun x => set_data (F (b_data x)) x) s = modb i (set_data (F (b_data (getb i s)))) s.
Proof.
  unfold modb, modify, set_bc_buf. do 2 f_equal. apply list_alter_ext; [|done].
  intros x Hx. unfold getb. by rewrite Hx.
Qed.

Lemma rep_mod_data me dev s c i n F :
  rep me dev s c -> buf_is s i n -> n ∈ cH c ->
  wp (modb i (fun x => set_data (F (b_data x)) x))
     (fun _ s' => rep me dev s' (c_set n (F (cv c n)) c) /\ stays s s' c) s.
Proof.
  intros Hr Hb Hn. unfold wp. rewrite modb_data_fun, (buf_is_data _ _ _ _ _ _ Hr Hb).
  by apply rep_set_data.
Qed.

Lemma write_head_loop_spec me bl i b s c :
  lrep me s c -> buf_is (lg_bio s) b (lg_start s) -> lg_start s ∈ cH c -> lh_at s i bl ->
  wp (write_head_loop (length bl) i b)
     (fun _ s' => only_bio s s' /\ lrep me s' (c_set (lg_start s) (hput i bl (cv c (lg_start s))) c) /\
        buf_is (lg_bio s') b (lg_start s)) s.
Proof.
  revert i s c. induction bl as [|x bl IH]; intros i s c Hr Hb Hn Hlh; cbn [length write_head_loop].
  { wp_simp. split_and!; [by destruct s| |done]. eapply rep_ext; [exact Hr|..]; simpl; try done.
    intros m. by destruct (Z.eqb_spec m (lg_start s)) as [->|]. }
  apply lh_at_cons in Hlh as [Hx Hlh]. wp_simp. eapply wp_lh_get; [done|]. wp_simp.
  eapply wp_mono; [apply (rep_mod_data me (lg_dev s) (lg_bio s) c b (lg_start s) _ Hr Hb Hn)|].
  intros _ b1 [R1 S1]. cbv beta.
  assert (B1 : buf_is b1 b (lg_start s)) by (apply S1; [set_solver|done]).
  eapply wp_mono; [apply (IH (i + 1) (set_lg_bio b1 s) _ R1 B1 Hn Hlh)|].
  intros _ s2 (O2 & R2 & B2). split_and!; [by rewrite O2| |done].
  eapply rep_ext; [exact R2|..]; simpl; try done. intros m. rewrite Z.eqb_refl. by destruct (Z.eqb_spec m (lg_start s)).
Qed.

(** write_head() writes the header for the first lh.n blocks of lh.block. *)
Lemma write_head_spec me bl s c :
  lrep me s c -> cH c = ∅ -> lh_at s 0 bl -> lh_n s = Z.of_nat (length bl) ->
  lg_start s ∉ cP c -> (size (cP c) < NBUF)%nat ->
  wp (write_head me)
     (fun _ s' => only_bio s s' /\ lrep me s' (c_put (lg_start s) (hdr bl (cv c (lg_start s))) c)) s.
Proof.
  intros Hr Hh Hlh Hn Hst Hsz. unfold write_head. wp_simp.
  eapply wp_mono; [apply (rep_bread me (lg_dev s) (lg_bio s) c (lg_start s) Hr);
    [rewrite Hh; apply not_elem_of_empty|right; by rewrite Hh, union_empty_r_L]|].
  intros b b1 (R1 & B1 & _). cbv beta. wp_simp. cbn [lh_n set_lg_bio]. rewrite Hn.
  eapply wp_mono; [apply (rep_mod_data me (lg_dev s) b1 _ b (lg_start s) _ R1 B1); simpl; set_solver|].
  intros _ b2 [R2 S2]. cbv beta. wp_simp. rewrite Nat2Z.id.
  assert (B2 : buf_is b2 b (lg_start s)) by (apply S2; [simpl; set_solver|done]).
  eapply wp_mono; [apply (write_head_loop_spec me bl 0 b (set_lg_bio b2 (set_lg_bio b1 s)) _ R2 B2 ltac:(simpl; set_solver) Hlh)|].
  intros _ s3 (O3 & R3 & B3). cbv beta. wp_simp. cbn [lg_start set_lg_bio] in *.
  assert (Edev : lg_dev s3 = lg_dev s) by (by rewrite O3). unfold lrep in R3.
  eapply wp_mono; [apply (rep_bwrite me (lg_dev s3) (lg_bio s3) _ b (lg_start s) R3 B3); simpl; set_solver|].
  intros _ b4 [R4 S4]. cbv beta. wp_simp.
  assert (B4 : buf_is b4 b (lg_start s)) by (apply S4; [simpl; set_solver|done]).
  eapply wp_mono; [apply (rep_brelse me (lg_dev s3) b4 _ b (lg_start s) R4 B4); simpl; [set_solver|]|].
  { right. rewrite Z.eqb_refl. unfold dblock. by rewrite lookup_insert_eq. }
  intros _ b5 [R5 _]. split; [by rewrite O3|]. unfold lrep. cbn [lg_dev lg_bio set_lg_bio].
  eapply rep_ext; [exact R5|..]; simpl; rewrite ?Z.eqb_refl; try done.
  - intros m. by destruct (Z.eqb_spec m (lg_start s)).
  - rewrite Hh. set_solver.
Qed.

(** read_head() *)
Lemma read_head_loop_spec k i d s :
  0 <= i -> (Z.to_nat i + k <= length (lh_block s))%nat ->
  wp (read_head_loop k i d) (fun _ s' => exists bs, s' = set_lh_block bs s /\ length bs = length (lh_block s) /\
    (forall j, (j < Z.to_nat i)%nat -> bs !! j = lh_block s !! j) /\
    (forall j, (j < k)%nat -> bs !! (Z.to_nat i + j)%nat = Some (get32 (4 + 4 * (i + Z.of_nat j)) d))) s.
Proof.
  revert i s. induction k as [|k IH]; intros i s Hi Hlen; cbn [read_head_loop].
  { wp_simp. exists (lh_block s). split_and!; [by destruct s|done|done|lia]. }
  unfold lh_put. wp_simp. destruct (Z.ltb_spec i (Z.of_nat (length (lh_block s)))); [|lia]. wp_simp.
  eapply wp_mono; [apply (IH (i + 1)); [lia|simpl; rewrite length_insert; lia]|].
  intros _ s' (bs & -> & Hl & Hlo & Hhi). exists bs. simpl in *. rewrite length_insert in Hl.
  split_and!; [done|done|..].
  - intros j Hj. rewrite Hlo by lia. apply list_lookup_insert_ne. lia.
  - intros [|j] Hj.
    + rewrite Nat.add_0_r, Z.add_0_r, Hlo by lia. by apply list_lookup_insert_eq; lia.
    + replace (Z.to_nat i + S j)%nat with (Z.to_nat (i + 1) + j)%nat by lia. rewrite Hhi by lia.
      do 2 f_equal. lia.
Qed.

(** The block list a header block describes. *)
Definition head_blocks (d : list Z) : list Z :=
  (fun j => get32 (4 + 4 * Z.of_nat j) d) <$> seq 0 (Z.to_nat (get32 0 d)).

Lemma read_head_spec me s c :
  lrep me s c -> cH c = ∅ -> lg_start s ∉ cP c -> (size (cP c) < NBUF)%nat ->
  get32 0 (cv c (lg_start s)) <= Z.of_nat (length (lh_block s)) ->
  wp (read_head me) (fun _ s' => lrep me s' c /\ lh_at s' 0 (head_blocks (cv c (lg_start s))) /\
    Z.to_nat (lh_n s') = length (head_blocks (cv c (lg_start s))) /\
    exists b n bs, length bs = length (lh_block s) /\ s' = set_lg_bio b (set_lh_block bs (set_lh_n n s))) s.
Proof.
  intros Hr Hh Hst Hsz Hn. unfold read_head. wp_simp.
  pose proof (rep_clean _ _ _ _ (lg_start s) Hr ltac:(rewrite Hh; set_solver)) as Hcl.
  eapply wp_mono; [apply (rep_bread me (lg_dev s) (lg_bio s) c (lg_start s) Hr);
    [rewrite Hh; apply not_elem_of_empty|right; by rewrite Hh, union_empty_r_L]|].
  intros b b1 (R1 & B1 & _). cbv beta. wp_simp. cbn [lg_bio set_lg_bio lh_n set_lh_n].
  rewrite (buf_is_data _ _ _ _ _ _ R1 B1). simpl cv. set (d := cv c (lg_start s)) in *.
  eapply wp_mono; [apply read_head_loop_spec; [lia|simpl; lia]|].
  intros _ s2 (bs & -> & Hl & _ & Hhi). cbv beta. wp_simp.
  eapply wp_mono; [apply (rep_brelse me (lg_dev s) b1 _ b (lg_start s) R1 B1); simpl; [set_solver|by right]|].
  intros _ b3 [R3 _]. split_and!.
  - unfold lrep. simpl. eapply rep_ext; [exact R3|..]; simpl; try done. rewrite Hh. set_solver.
  - split; [lia|]. intros j x. unfold head_blocks. rewrite list_lookup_fmap_Some. intros (k & -> & Hk).
    apply lookup_seq in Hk as [-> Hk]. specialize (Hhi j Hk).
    replace (Z.to_nat (0 + Z.of_nat j)) with (Z.to_nat 0 + j)%nat by lia. exact Hhi.
  - simpl. unfold head_blocks. by rewrite length_fmap, length_seq.
  - eexists _, _, bs. simpl in Hl. split; [done|]. done.
Qed.

(** * commit() *)

(** A transaction ready to commit: no buffer is held, the blocks of the
    transaction are pinned, and they lie outside the log. *)
Record trans (me : Z) (s : logst) (c : cst) (bl : list Z) : Prop := {
  tr_rep : lrep me s c;
  tr_held : cH c = ∅;
  tr_pins : cP c = list_to_set bl;
  tr_nodup : NoDup bl;
  tr_lh : lh_at s 0 bl;
  tr_n : lh_n s = Z.of_nat (length bl);
  tr_len : Z.of_nat (length bl) <= LOGBLOCKS;
  tr_ints : int_list bl;
  tr_out : forall b, b ∈ bl -> ~ (lg_start s <= b <= lg_start s + LOGBLOCKS)
}.

(** The writes of a commit, in order: the blocks into the log, the header,
    the blocks to their places, the empty header. *)
Definition commit_writes (v : Z -> list Z) (start : Z) (h : list Z) (bl : list Z) : list (Z * list Z) :=
  log_writes v (start + 1) bl ++ [(start, hdr bl h)] ++ ((fun b => (b, v b)) <$> bl) ++ [(start, hdr [] (hdr bl h))].

Lemma put_all_app ws ws' c : put_all (ws ++ ws') c = put_all ws' (put_all ws c).
Proof. unfold put_all. apply foldl_app. Qed.

Lemma home_writes_pairs v v' first bl :
  (forall j b, bl !! j = Some b -> v (first + Z.of_nat j) = v' b) ->
  home_writes v first bl = (fun b => (b, v' b)) <$> bl.
Proof.
  revert first. induction bl as [|b bl IH]; intros first H; simpl; [done|]. f_equal.
  - f_equal. specialize (H 0%nat b eq_refl). by rewrite Z.add_0_r in H.
  - apply IH. intros j x Hj. specialize (H (S j) x Hj). by replace (first + 1 + Z.of_nat j) with (first + Z.of_nat (S j)) by lia.
Qed.

Lemma cP_put_all ws c : cP (put_all ws c) = cP c.
Proof. by destruct (put_all_spec ws c) as (_ & _ & -> & _). Qed.
Lemma cH_put_all ws c : cH (put_all ws c) = cH c.
Proof. by destruct (put_all_spec ws c) as (_ & _ & _ & -> & _). Qed.
Lemma cd_put_all ws c : cd (put_all ws c) = apply_writes (cd c) ws.
Proof. by destruct (put_all_spec ws c) as (-> & _). Qed.
Lemma ctr_put_all ws c : ctr (put_all ws c) = ctr c ++ ws.
Proof. by destruct (put_all_spec ws c) as (_ & -> & _). Qed.
Lemma cv_put_all ws c m : cv (put_all ws c) m = default (cv c m) (last_write ws m).
Proof. by destruct (put_all_spec ws c) as (_ & _ & _ & _ & ->). Qed.

Lemma log_writes_last v first bl j b :
  bl !! j = Some b -> last_write (log_writes v first bl) (first + Z.of_nat j) = Some (v b).
Proof.
  intros Hj. apply last_write_in; [rewrite log_writes_keys; apply NoDup_seqZ|]. by apply log_writes_lookup.
Qed.

Lemma log_writes_none v first bl m :
  ~ (first <= m < first + Z.of_nat (length bl)) -> last_write (log_writes v first bl) m = None.
Proof. intros Hm. apply last_write_none. rewrite log_writes_keys, elem_of_seqZ. lia. Qed.

Lemma size_pins bl : NoDup bl -> size (list_to_set bl : gset Z) = length bl.
Proof. apply size_list_to_set. Qed.

Lemma commit_spec me s c bl :
  trans me s c bl -> bl <> [] -> (length bl < NBUF)%nat ->
  wp (commit me) (fun _ s' =>
    (exists b, s' = set_lg_bio b (set_lh_n 0 s)) /\
    lrep me s' (c_unpin_all bl (put_all (commit_writes (cv c) (lg_start s) (cv c (lg_start s)) bl) c))) s.
Proof.
  intros [Hr Hh HP Hnd Hlh Hn Hlen Hint Hout] Hne Hroom. unfold commit, write_log, install_trans. wp_simp.
  rewrite Hn. destruct (Z.ltb_spec 0 (Z.of_nat (length bl))); [|destruct bl; simpl in *; [done|lia]].
  assert (Hsz : (size (cP c) < NBUF)%nat) by (by rewrite HP, size_pins).
  assert (Hin : forall b, b ∈ bl -> b ∈ cP c) by (intros b Hb; rewrite HP; by apply elem_of_list_to_set).
  assert (Hreg : forall j, 0 <= j < Z.of_nat (length bl) -> (lg_start s + j + 1) ∉ bl) by (intros j Hj Hb%Hout; lia).
  assert (HregP : forall j, 0 <= j < Z.of_nat (length bl) -> (lg_start s + j + 1) ∉ cP c)
    by (intros j Hj; rewrite HP, elem_of_list_to_set; by apply Hreg).
  assert (HstP : lg_start s ∉ cP c).
  { rewrite HP, elem_of_list_to_set. intros Hb%Hout. unfold LOGBLOCKS, MAXOPBLOCKS in Hb. lia. }
  wp_simp. rewrite Hn, Nat2Z.id.
  eapply wp_mono; [apply (write_log_loop_spec me bl 0 s c Hr Hh Hlh Hin); [intros j Hj; apply HregP; lia|done]|].
  intros _ s1 [O1 R1]. cbv beta. replace (lg_start s + 0 + 1) with (lg_start s + 1) in R1 by lia.
  remember (put_all (log_writes (cv c) (lg_start s + 1) bl) c) as c1 eqn:Ec1.
  destruct (put_all_spec (log_writes (cv c) (lg_start s + 1) bl) c) as (D1 & T1 & P1 & H1 & V1).
  rewrite <- Ec1 in D1, T1, P1, H1, V1.
  assert (Est1 : lg_start s1 = lg_start s) by (by rewrite O1).
  assert (Vst : cv c1 (lg_start s) = cv c (lg_start s)) by (rewrite V1, log_writes_none by lia; done).
  wp_simp. eapply wp_mono; [apply (write_head_spec me bl s1 c1 R1); [by rewrite H1|by eapply lh_at_only|by rewrite O1|by rewrite P1, Est1|by rewrite P1]|].
  intros _ s2 [O2 R2]. cbv beta. rewrite Est1, Vst in R2. wp_simp.
  assert (En2 : lh_n s2 = Z.of_nat (length bl)) by (rewrite O2, O1; done). rewrite En2, Nat2Z.id.
  remember (c_put (lg_start s) (hdr bl (cv c (lg_start s))) c1) as c2 eqn:Ec2.
  assert (Est2 : lg_start s2 = lg_start s) by (by rewrite O2).
  eapply wp_mono; [apply (install_loop_spec me false bl 0 s2 c2 R2)|].
  { rewrite Ec2. simpl. by rewrite H1. } { eapply lh_at_only; [exact O2|]. by eapply lh_at_only. } { done. }
  { intros j Hj. rewrite Est2, Ec2. simpl. rewrite P1. split; [apply HregP; lia|apply Hreg; lia]. }
  { rewrite Ec2. simpl. by rewrite P1. }
  intros _ s3 [O3 R3]. cbv beta. rewrite Est2 in R3. replace (lg_start s + 0 + 1) with (lg_start s + 1) in R3 by lia.
  rewrite (home_writes_pairs _ (cv c)) in R3.
  2: { intros j b Hj. rewrite Ec2. simpl. rewrite (proj2 (Z.eqb_neq _ _)) by lia.
       rewrite V1, (log_writes_last _ _ _ _ _ Hj). done. }
  remember (c_unpin_all bl (put_all ((fun b => (b, cv c b)) <$> bl) c2)) as c3 eqn:Ec3.
  assert (Ekeys : ((fun b => (b, cv c b)) <$> bl).*1 = bl) by (rewrite <- list_fmap_compose; apply list_fmap_id).
  wp_simp. eapply wp_mono; [apply (write_head_spec me [] (set_lh_n 0 s3) c3 R3)|].
  { rewrite Ec3. simpl. rewrite cH_put_all, Ec2. simpl. by rewrite H1. }
  { split; [lia|]. intros j b Hj. by rewrite lookup_nil in Hj. }
  { done. }
  { simpl. replace (lg_start s3) with (lg_start s) by (by rewrite O3, O2, O1). rewrite Ec3. simpl. rewrite cP_put_all, Ec2. simpl. rewrite P1. set_solver. }
  { rewrite Ec3. simpl. rewrite cP_put_all, Ec2. simpl. rewrite P1. apply (Nat.le_lt_trans _ (size (cP c))); [apply subseteq_size; set_solver|done]. }
  intros _ s4 [O4 R4]. split.
  { exists (lg_bio s4). rewrite O4. simpl. rewrite O3. simpl. rewrite O2. simpl. by rewrite O1. }
  simpl in R4. replace (lg_start s3) with (lg_start s) in R4 by (by rewrite O3, O2, O1).
  assert (Vst3 : cv c3 (lg_start s) = hdr bl (cv c (lg_start s))).
  { rewrite Ec3. simpl. rewrite cv_put_all, last_write_none, Ec2; simpl; [by rewrite Z.eqb_refl|].
    rewrite Ekeys. intros Hb%Hout. unfold LOGBLOCKS, MAXOPBLOCKS in Hb. lia. }
  rewrite Vst3 in R4. unfold commit_writes. rewrite !put_all_app. simpl. rewrite <- Ec1, <- Ec2.
  unfold lrep in *. eapply rep_ext; [exact R4|..]; rewrite Ec3; simpl; rewrite ?Z.eqb_refl; done.
Qed.

(** * Recovery *)

(** What recovery writes to a disk [d]: the blocks of the header to their
    places, then the empty header. *)
Definition recovery_writes (d : gmap Z (list Z)) (start : Z) : list (Z * list Z) :=
  home_writes (dblock d) (start + 1) (head_blocks (dblock d start)) ++ [(start, hdr [] (dblock d start))].

(** The header found on disk is one that write_head() writes. *)
Record head_ok (start : Z) (h : list Z) : Prop := {
  ho_len : Z.of_nat (length (head_blocks h)) <= LOGBLOCKS;
  ho_nodup : NoDup (head_blocks h);
  ho_out : forall b, b ∈ head_blocks h -> ~ (start <= b <= start + LOGBLOCKS)
}.

Lemma recover_spec me s d :
  lrep me s (Cst (dblock d) d ∅ ∅ []) -> Z.of_nat (length (lh_block s)) = LOGBLOCKS ->
  head_ok (lg_start s) (dblock d (lg_start s)) ->
  wp (recover_from_log me) (fun _ s' => lrep me s' (put_all (recovery_writes d (lg_start s)) (Cst (dblock d) d ∅ ∅ [])) /\
    lh_n s' = 0 /\ lg_start s' = lg_start s /\ lg_dev s' = lg_dev s) s.
Proof.
  intros Hr Hlh [Hlen Hnd Hout]. set (c := Cst (dblock d) d ∅ ∅ []) in *. unfold recover_from_log, install_trans. wp_simp.
  set (bl := head_blocks (dblock d (lg_start s))) in *.
  assert (Hn : get32 0 (cv c (lg_start s)) <= Z.of_nat (length (lh_block s))).
  { unfold bl, head_blocks in Hlen. rewrite length_fmap, length_seq in Hlen.
    change (cv c (lg_start s)) with (dblock d (lg_start s)). lia. }
  assert (Hz : (size (∅ : gset Z) < NBUF)%nat) by (rewrite size_empty; by apply Nat.ltb_lt).
  eapply wp_mono; [apply (read_head_spec me s c Hr); [done|set_solver|done|done]|].
  intros _ s1 (R1 & L1 & N1 & (b1 & n1 & bs & _ & E1)). cbv beta. wp_simp. rewrite N1.
  change (cv c (lg_start s)) with (dblock d (lg_start s)) in *.
  change (length (head_blocks (dblock d (lg_start s)))) with (length bl). change (head_blocks (dblock d (lg_start s))) with bl in L1.
  assert (Est1 : lg_start s1 = lg_start s) by (by rewrite E1).
  eapply wp_mono; [apply (install_loop_spec me true bl 0 s1 c R1); [done|done|done| |]|].
  { intros j Hj. split; [apply not_elem_of_empty|]. rewrite Est1. intros Hb%Hout. lia. }
  { change (cP c) with (∅ : gset Z). rewrite size_empty. by apply Nat.ltb_lt. }
  intros _ s2 [O2 R2]. cbv beta. cbv zeta in R2. rewrite Est1 in R2. replace (lg_start s + 0 + 1) with (lg_start s + 1) in R2 by lia.
  wp_simp. set (ws := home_writes (cv c) (lg_start s + 1) bl) in *.
  eapply wp_mono; [apply (write_head_spec me [] (set_lh_n 0 s2) _ R2)|].
  { rewrite cH_put_all. done. } { split; [lia|]. intros j b Hj. by rewrite lookup_nil in Hj. } { done. }
  { rewrite cP_put_all. apply not_elem_of_empty. } { by rewrite cP_put_all. }
  intros _ s3 [O3 R3]. simpl in R3. assert (Est2 : lg_start s2 = lg_start s) by (by rewrite O2).
  rewrite Est2 in R3. split_and!.
  - unfold recovery_writes. rewrite put_all_app. simpl.
    assert (Vst : cv (put_all ws c) (lg_start s) = dblock d (lg_start s)).
    { rewrite cv_put_all, last_write_none; [done|]. unfold ws. rewrite home_writes_keys. intros Hb%Hout.
      unfold LOGBLOCKS, MAXOPBLOCKS in Hb. lia. }
    rewrite Vst in R3. exact R3.
  - by rewrite O3.
  - rewrite O3. simpl. done.
  - rewrite O3. simpl. rewrite O2. simpl. by rewrite E1.
Qed.

(** * Crashes *)

(** The machine restarts with the disk [d]: the kernel's memory is fresh. *)
Definition boot_log (d : gmap Z (list Z)) : logst :=
  Logst (boot_bio d) Free 0 0 false 0 0 (replicate (Z.to_nat LOGBLOCKS) 0).
Definition recovery (me dev logstart : Z) : M logst unit := onb binit ;; initlog me dev logstart.

Lemma recovery_spec me dev start d :
  dev <> 0 -> head_ok start (dblock d start) ->
  wp (recovery me dev start) (fun _ s' =>
    lrep me s' (put_all (recovery_writes d start) (Cst (dblock d) d ∅ ∅ [])) /\ lh_n s' = 0) (boot_log d).
Proof.
  intros Hdev Hh. unfold recovery, initlog. wp_simp.
  eapply wp_mono; [apply (rep_binit me dev d Hdev)|]. intros ? b Hb. cbv beta. wp_simp.
  eapply wp_mono; [apply (recover_spec me _ d); [exact Hb|done|done]|].
  by intros _ s' (H1 & H2 & _).
Qed.

(** The disk after the first [k] writes of [ws]. *)
Definition crash_disk (d : gmap Z (list Z)) (ws : list (Z * list Z)) (k : nat) : gmap Z (list Z) :=
  apply_writes d (take k ws).

(** A block outside the log. *)
Definition data_block (start n : Z) : Prop := ~ (start <= n <= start + LOGBLOCKS).

Lemma head_blocks_hdr bl h : 4 + 4 * Z.of_nat (length bl) <= Z.of_nat (length h) -> int_list bl ->
  Z.of_nat (length bl) < 2 ^ 31 -> head_blocks (hdr bl h) = bl.
Proof.
  intros Hl Hb Hn. destruct (hdr_spec bl h Hl Hb Hn) as (_ & H0 & Hk). unfold head_blocks. rewrite H0, Nat2Z.id.
  apply list_eq. intros i. rewrite list_lookup_fmap.
  destruct (bl !! i) as [b|] eqn:E.
  - rewrite lookup_seq_lt by (by eapply lookup_lt_Some). simpl. by rewrite (Hk i b E).
  - rewrite lookup_seq_ge by (by apply lookup_ge_None_1). done.
Qed.

Lemma head_blocks_nil h : get32 0 h = 0 -> head_blocks h = [].
Proof. intros E. unfold head_blocks. by rewrite E. Qed.

(** ** The disk at each point of a commit *)

Section crash.
Context (start : Z) (d : gmap Z (list Z)) (v : Z -> list Z) (bl : list Z) (h : list Z).
Context (Hh : h = dblock d start) (Hh0 : get32 0 h = 0) (Hhlen : length h = Z.to_nat BSIZE).
Context (Hnd : NoDup bl) (Hlen : Z.of_nat (length bl) <= LOGBLOCKS) (Hint : int_list bl).
Context (Hout : forall b, b ∈ bl -> data_block start b).
(** Blocks outside the transaction are on disk as the cache shows them. *)
Context (Hclean : forall n, n ∉ bl -> v n = dblock d n).

Let A := log_writes v (start + 1) bl.
Let B := (fun b => (b, v b)) <$> bl.

Lemma hdr_blocks : head_blocks (hdr bl h) = bl.
Proof.
  apply head_blocks_hdr; [|done|]; unfold LOGBLOCKS, MAXOPBLOCKS, BSIZE in *; simpl in *; lia.
Qed.

Lemma take_A_none k m : ~ (start + 1 <= m < start + 1 + Z.of_nat (length bl)) -> last_write (take k A) m = None.
Proof.
  intros Hm. apply last_write_none. rewrite fmap_take. intros Hin.
  apply (subseteq_take k) in Hin. unfold A in Hin. rewrite log_writes_keys, elem_of_seqZ in Hin. lia.
Qed.

Lemma take_B_key k m : last_write (take k B) m = None \/ (m ∈ bl /\ last_write (take k B) m = Some (v m)).
Proof.
  assert (EB : B.*1 = bl) by (unfold B; rewrite <- list_fmap_compose; apply list_fmap_id).
  destruct (decide (m ∈ (take k B).*1)) as [Hin|Hin]; [|left; by apply last_write_none].
  right. rewrite fmap_take, EB in Hin. pose proof (subseteq_take k bl m Hin). split; [done|].
  apply last_write_in.
  - rewrite fmap_take, EB. eapply sublist_NoDup; [done|apply sublist_take].
  - apply list_elem_of_lookup in Hin as [i Hi]. apply lookup_take_Some in Hi as [Hi Hk].
    apply list_elem_of_lookup. exists i. rewrite lookup_take_lt by done. unfold B. by rewrite list_lookup_fmap, Hi.
Qed.

(** Before the header is written nothing has happened to the data blocks. *)
Lemma crash_before k : (k <= length bl)%nat ->
  let dk := crash_disk d (commit_writes v start h bl) k in
  dblock dk start = h /\ forall n, data_block start n -> dblock dk n = dblock d n.
Proof.
  intros Hk dk. assert (Elen : length A = length bl).
  { unfold A. rewrite <- (length_fmap fst), log_writes_keys, length_seqZ. lia. }
  assert (Edk : dk = apply_writes d (take k A)).
  { unfold dk, crash_disk, commit_writes. fold A. by rewrite take_app_le by lia. }
  rewrite Edk. split.
  - by rewrite dblock_apply, take_A_none by lia.
  - intros n Hn. rewrite dblock_apply, take_A_none; [done|]. unfold data_block in Hn. lia.
Qed.

(** After it, the log holds the whole transaction, and each data block is
    old or new. *)
Lemma crash_mid j :
  let dk := apply_writes d (A ++ [(start, hdr bl h)] ++ take j B) in
  dblock dk start = hdr bl h /\
  (forall i b, bl !! i = Some b -> dblock dk (start + 1 + Z.of_nat i) = v b) /\
  (forall n, data_block start n -> n ∉ bl -> dblock dk n = v n).
Proof.
  intros dk. unfold dk. assert (Hst : ~ data_block start start).
  { unfold data_block, LOGBLOCKS, MAXOPBLOCKS. lia. }
  assert (HB : forall m, m ∉ bl -> last_write (take j B) m = None) by (intros m Hm; by destruct (take_B_key j m) as [|[? _]]).
  split_and!.
  - rewrite dblock_apply, !last_write_app, HB by (intros Hb; by apply Hst, Hout).
    unfold last_write at 1. simpl. by rewrite Z.eqb_refl.
  - intros i b Hi. assert ((i < length bl)%nat) by (by eapply lookup_lt_Some).
    rewrite dblock_apply, !last_write_app, HB.
    + unfold last_write at 1. simpl. rewrite (proj2 (Z.eqb_neq _ _)) by lia.
      unfold A. by rewrite (log_writes_last v (start + 1) bl i b Hi).
    + intros Hb%Hout. unfold data_block in Hb. lia.
  - intros n Hn Hnb. rewrite dblock_apply, !last_write_app, HB by done.
    unfold last_write at 1. simpl. rewrite (proj2 (Z.eqb_neq _ _)) by (intros ->; done).
    replace A with (take (length A) A) by (by apply take_ge).
    rewrite take_A_none; [symmetry; by apply Hclean|]. unfold data_block in Hn. lia.
Qed.

(** Once the empty header is written everything is in place. *)
Lemma crash_end :
  let dk := apply_writes d (commit_writes v start h bl) in
  dblock dk start = hdr [] (hdr bl h) /\ forall n, data_block start n -> dblock dk n = v n.
Proof.
  intros dk. unfold dk, commit_writes. assert (Hst : ~ data_block start start).
  { unfold data_block, LOGBLOCKS, MAXOPBLOCKS. lia. }
  split.
  - rewrite dblock_apply, !last_write_app. unfold last_write at 1. simpl. by rewrite Z.eqb_refl.
  - intros n Hn. rewrite dblock_apply, !last_write_app. unfold last_write at 1. simpl.
    rewrite (proj2 (Z.eqb_neq _ _)) by (intros ->; done).
    destruct (decide (n ∈ bl)) as [Hb|Hb].
    + destruct (take_B_key (length B) n) as [E|[_ E]]; rewrite take_ge in E by done; fold B; [|by rewrite E].
      exfalso. apply list_elem_of_lookup in Hb as [i Hi].
      rewrite (last_write_in B n (v n)) in E; [done| |].
      * unfold B. by rewrite <- list_fmap_compose, list_fmap_id.
      * apply list_elem_of_lookup. exists i. unfold B. by rewrite list_lookup_fmap, Hi.
    + rewrite last_write_none by (rewrite <- list_fmap_compose; by rewrite list_fmap_id).
      unfold last_write at 1. simpl. rewrite (proj2 (Z.eqb_neq _ _)) by (intros ->; done).
      rewrite last_write_none; [symmetry; by apply Hclean|]. rewrite log_writes_keys, elem_of_seqZ.
      unfold data_block in Hn. lia.
Qed.

(** Recovery from a disk whose header is empty. *)
Lemma recover_empty dk : head_blocks (dblock dk start) = [] ->
  head_ok start (dblock dk start) /\
  forall n, data_block start n -> dblock (apply_writes dk (recovery_writes dk start)) n = dblock dk n.
Proof.
  intros E. split.
  - split; rewrite E; [done|apply NoDup_nil_2|by intros b ?%not_elem_of_nil].
  - intros n Hn. unfold recovery_writes. rewrite E, dblock_apply. unfold last_write. simpl.
    rewrite (proj2 (Z.eqb_neq _ _)); [done|]. intros ->. apply Hn. unfold LOGBLOCKS, MAXOPBLOCKS. lia.
Qed.

(** Recovery from a disk whose log holds the transaction. *)
Lemma recover_full dk :
  dblock dk start = hdr bl h -> (forall i b, bl !! i = Some b -> dblock dk (start + 1 + Z.of_nat i) = v b) ->
  (forall n, data_block start n -> n ∉ bl -> dblock dk n = v n) ->
  head_ok start (dblock dk start) /\
  forall n, data_block start n -> dblock (apply_writes dk (recovery_writes dk start)) n = v n.
Proof.
  intros E Hlog Hrest. rewrite E. split; [split; by rewrite hdr_blocks|].
  intros n Hn. unfold recovery_writes. rewrite E, hdr_blocks, dblock_apply, last_write_app.
  unfold last_write at 1. simpl. rewrite (proj2 (Z.eqb_neq start n)).
  2: { intros ->. apply Hn. unfold LOGBLOCKS, MAXOPBLOCKS. lia. }
  destruct (decide (n ∈ bl)) as [Hb|Hb].
  - apply list_elem_of_lookup in Hb as [i Hi].
    rewrite (last_write_in _ n (v n)); [done|by rewrite home_writes_keys|].
    rewrite <- (Hlog i n Hi). by apply home_writes_lookup.
  - rewrite last_write_none by (by rewrite home_writes_keys). by apply Hrest.
Qed.

Lemma recovered k : (k <= length (commit_writes v start h bl))%nat ->
  let dk := crash_disk d (commit_writes v start h bl) k in
  head_ok start (dblock dk start) /\
  forall n, data_block start n ->
    dblock (apply_writes dk (recovery_writes dk start)) n = if (k <=? length bl)%nat then dblock d n else v n.
Proof.
  intros Hk dk. assert (Elen : length A = length bl).
  { unfold A. rewrite <- (length_fmap fst), log_writes_keys, length_seqZ. lia. }
  destruct (Nat.leb_spec k (length bl)) as [Hle|Hgt].
  - destruct (crash_before k Hle) as [E1 E2]. fold dk in E1, E2.
    destruct (recover_empty dk) as [H1 H2]; [rewrite E1; by apply head_blocks_nil|].
    split; [done|]. intros n Hn. rewrite H2 by done. by apply E2.
  - assert (Elen2 : length (commit_writes v start h bl) = (length bl + 1 + length bl + 1)%nat).
    { unfold commit_writes. fold A. rewrite !length_app, length_fmap, Elen. simpl. lia. }
    destruct (decide (k = length (commit_writes v start h bl))) as [->|Hlast].
    + destruct crash_end as [E1 E2].
      assert (Edk : dk = apply_writes d (commit_writes v start h bl)) by (unfold dk, crash_disk; by rewrite take_ge by lia).
      rewrite <- Edk in E1, E2. destruct (recover_empty dk) as [H1 H2].
      { rewrite E1. apply head_blocks_nil.
        destruct (hdr_spec [] (hdr bl h)) as (_ & -> & _); [|constructor|done|done].
        destruct (hdr_spec bl h) as (-> & _); unfold LOGBLOCKS, MAXOPBLOCKS, BSIZE in *; simpl in *; try done; lia. }
      split; [done|]. intros n Hn. rewrite H2 by done. by apply E2.
    + destruct (crash_mid (k - length bl - 1)) as (E1 & E2 & E3).
      assert (Edk : dk = apply_writes d (A ++ [(start, hdr bl h)] ++ take (k - length bl - 1) B)).
      { unfold dk, crash_disk, commit_writes. fold A B. f_equal.
        rewrite take_app_ge by lia. f_equal. rewrite Elen.
        replace (k - length bl)%nat with (S (k - length bl - 1)) at 1 by lia. simpl. f_equal.
        apply take_app_le. unfold B. rewrite length_fmap. lia. }
      rewrite <- Edk in E1, E2, E3. by apply recover_full.
Qed.

End crash.

(** * log_write() *)

(** An open transaction on the blocks [bl]; buffers may be held. *)
Record open_tx (me : Z) (s : logst) (c : cst) (bl : list Z) : Prop := {
  ot_rep : lrep me s c;
  ot_lock : lg_lock s = Free;
  ot_pins : cP c = list_to_set bl;
  ot_nodup : NoDup bl;
  ot_lh : lh_at s 0 bl;
  ot_n : lh_n s = Z.of_nat (length bl);
  ot_arr : Z.of_nat (length (lh_block s)) = LOGBLOCKS;
  ot_ints : int_list bl;
  ot_out : forall b, b ∈ bl -> data_block (lg_start s) b
}.

Lemma log_find_spec bl i n s :
  lh_at s i bl ->
  wp (log_find (length bl) i n) (fun r s' => s' = s /\
    (((n ∉ bl) /\ r = i + Z.of_nat (length bl)) \/
     (exists j, bl !! j = Some n /\ r = i + Z.of_nat j))) s.
Proof.
  revert i. induction bl as [|b bl IH]; intros i Hlh; cbn [length log_find].
  { wp_simp. split; [done|left]. split; [apply not_elem_of_nil|lia]. }
  apply lh_at_cons in Hlh as [Hb Hlh]. wp_simp. eapply wp_lh_get; [done|].
  destruct (Z.eqb_spec b n) as [->|Hne].
  { wp_simp. split; [done|right]. exists 0%nat. split; [done|lia]. }
  eapply wp_mono; [by apply IH|]. intros r s' [-> [[Hn ->]|(j & Hj & ->)]]; (split; [done|]).
  - left. split; [|lia]. intros [->|?]%elem_of_cons; done.
  - right. exists (S j). split; [done|lia].
Qed.

Lemma lh_at_insert s bl n : lh_at s 0 bl -> (length bl < length (lh_block s))%nat ->
  lh_at (set_lh_block (<[length bl := n]> (lh_block s)) s) 0 (bl ++ [n]).
Proof.
  intros [_ H] Hlen. split; [lia|]. intros j b Hj. simpl.
  replace (Z.to_nat (0 + Z.of_nat j)) with j by lia.
  destruct (decide (j = length bl)) as [->|Hne].
  - rewrite list_lookup_insert_eq by done. by rewrite list_lookup_middle in Hj by done.
  - rewrite list_lookup_insert_ne by done. apply lookup_app_Some in Hj as [Hj|[Hj1 Hj2]].
    + specialize (H j b Hj). by replace (Z.to_nat (0 + Z.of_nat j)) with j in H by lia.
    + apply lookup_lt_Some in Hj2. simpl in Hj2. lia.
Qed.

Lemma lh_at_overwrite s bl n j : lh_at s 0 bl -> bl !! j = Some n ->
  lh_at (set_lh_block (<[j := n]> (lh_block s)) s) 0 bl.
Proof.
  intros [_ H] Hj. split; [lia|]. intros i b Hi. simpl. specialize (H i b Hi).
  replace (Z.to_nat (0 + Z.of_nat i)) with i in * by lia.
  destruct (decide (i = j)) as [->|Hne]; [|by rewrite list_lookup_insert_ne].
  rewrite Hj in Hi. injection Hi as <-. rewrite list_lookup_insert_eq; [done|]. by eapply lookup_lt_Some.
Qed.

(** log_write() of a held buffer: the block joins the transaction, unless
    it is already part of it. *)
Lemma log_write_spec me s c bl b n :
  open_tx me s c bl -> buf_is (lg_bio s) b n -> n ∈ cH c -> Z.of_nat (length bl) < LOGBLOCKS ->
  1 <= lg_outstanding s -> - 2 ^ 31 <= n < 2 ^ 31 -> data_block (lg_start s) n ->
  wp (log_write b) (fun _ s' =>
    open_tx me s' (if decide (n ∈ bl) then c else c_pin n c) (if decide (n ∈ bl) then bl else bl ++ [n]) /\
    stays (lg_bio s) (lg_bio s') c /\
    lg_outstanding s' = lg_outstanding s /\ lg_start s' = lg_start s /\ lg_dev s' = lg_dev s) s.
Proof.
  intros [Hr Hl HP Hnd Hlh Hn Harr Hint Hout] Hb HH Hlen Ho Hni Hno. pose proof Hb as (_ & _ & Hbn).
  unfold log_write, log_acquire, log_release. wp_simp. apply wp_lock_acquire; [done|]. wp_simp.
  cbn [lh_n lg_outstanding lg_bio set_lg_lock]. rewrite Hn.
  destruct (Z.leb_spec LOGBLOCKS (Z.of_nat (length bl))); [lia|]. wp_simp.
  cbn [lh_n lg_outstanding lg_bio set_lg_lock].
  destruct (Z.ltb_spec (lg_outstanding s) 1); [lia|]. wp_simp. cbn [lg_bio set_lg_lock]. rewrite Hbn, Nat2Z.id.
  eapply wp_mono; [apply (log_find_spec bl 0 n); exact Hlh|].
  intros r s1 [-> Hr1]. unfold lh_put. wp_simp. cbn [lh_block set_lg_lock].
  destruct Hr1 as [[Hnb ->]|(j & Hj & ->)].
  - destruct (Z.ltb_spec (0 + Z.of_nat (length bl)) (Z.of_nat (length (lh_block s)))); [|lia]. wp_simp.
    destruct (Z.eqb_spec (0 + Z.of_nat (length bl)) (Z.of_nat (length bl))); [|lia]. wp_simp.
    assert (Hnp : n ∉ cP c) by (by rewrite HP, elem_of_list_to_set).
    eapply wp_mono; [apply (rep_bpin me (lg_dev s) (lg_bio s) c b n Hr Hb HH Hnp)|].
    intros _ b2 [R2 S2]. cbv beta. wp_simp. apply wp_lock_release; [done|].
    rewrite !decide_False by done. split_and!; try done. split; simpl; try done.
    + rewrite HP, list_to_set_app_L. simpl. set_solver.
    + apply NoDup_app. split_and!; [done| |apply NoDup_singleton]. intros x Hx ->%list_elem_of_singleton. done.
    + replace (Z.to_nat (0 + Z.of_nat (length bl))) with (length bl) by lia.
      exact (lh_at_insert s bl n Hlh ltac:(lia)).
    + rewrite length_app. simpl. lia.
    + by rewrite length_insert.
    + apply Forall_app. split; [done|by constructor].
    + intros x [?| ->%list_elem_of_singleton]%elem_of_app; [by apply Hout|done].
  - assert (Hjl : (j < length bl)%nat) by (by eapply lookup_lt_Some).
    assert (Hin : n ∈ bl) by (apply list_elem_of_lookup; by exists j).
    destruct (Z.ltb_spec (0 + Z.of_nat j) (Z.of_nat (length (lh_block s)))); [|lia]. wp_simp.
    destruct (Z.eqb_spec (0 + Z.of_nat j) (Z.of_nat (length bl))); [lia|]. wp_simp. apply wp_lock_release; [done|].
    rewrite !decide_True by done. split_and!; try done; [|by intros ???]. split; simpl; try done.
    + replace (Z.to_nat (0 + Z.of_nat j)) with j by lia. exact (lh_at_overwrite s bl n j Hlh Hj).
    + by rewrite length_insert.
Qed.
