(* ===== verification/LogProps.v ===== *)
(** The properties of the buffer cache and of the log (kernel/bio.c and
    kernel/log.c): crash atomicity of transactions, absorption, the
    reservation of log space, and the order in which buffers are reused. *)
From S2P Require Import Prelude Mem Spinlock Bio BioSpec BCache Log LogSpec.

#[local] Hint Rewrite @wp_onb : wp.

(** C1: A transaction is atomic with respect to crashes.  When the last
    operation of a transaction ends, end_op() commits: every block of the
    transaction reaches its place on disk and the log is empty again.  If
    the machine stops after any number [k] of the disk writes of the
    commit, recovery at the next boot terminates and leaves every block
    outside the log as it was before the transaction ([k] at most the
    number of blocks: the header is not written yet) or as the transaction
    made it ([k] greater); never a mixture. *)
Theorem end_op_crash_safe me s c bl :
  trans me s c bl -> bl <> [] -> (length bl < NBUF)%nat ->
  lg_lock s = Free -> lg_outstanding s = 1 -> lg_committing s = false -> lg_dev s <> 0 ->
  get32 0 (dblock (disk (lg_bio s)) (lg_start s)) = 0 ->
  length (dblock (disk (lg_bio s)) (lg_start s)) = Z.to_nat BSIZE ->
  wp (end_op me) (fun _ s' =>
    lg_outstanding s' = 0 /\ lg_committing s' = false /\ lh_n s' = 0 /\
    (forall n, data_block (lg_start s) n -> dblock (disk (lg_bio s')) n = bview (lg_bio s) n) /\
    exists ws, dtrace (lg_bio s') = dtrace (lg_bio s) ++ ws /\
      disk (lg_bio s') = apply_writes (disk (lg_bio s)) ws /\
      forall k, (k <= length ws)%nat ->
        wp (recovery me (lg_dev s) (lg_start s)) (fun _ r => forall n, data_block (lg_start s) n ->
          dblock (disk (lg_bio r)) n =
            if (k <=? length bl)%nat then dblock (disk (lg_bio s)) n else bview (lg_bio s) n)
          (boot_log (crash_disk (disk (lg_bio s)) ws k))) s.
Proof.
  intros Htr Hne Hroom Hlk Ho Hc Hdev Hh0 Hhlen. pose proof Htr as [Hr Hh HP Hnd Hlh Hn Hlen Hint Hout].
  set (ws := commit_writes (cv c) (lg_start s) (cv c (lg_start s)) bl).
  pose proof (rp_disk _ _ _ _ Hr) as Ed. pose proof (rp_view _ _ _ _ Hr) as Ev. pose proof (rp_trace _ _ _ _ Hr) as Et.
  assert (Hclean : forall n, n ∉ bl -> cv c n = dblock (disk (lg_bio s)) n).
  { intros n Hnb. rewrite Ed. apply (rep_clean _ _ _ _ n Hr). rewrite Hh, HP, union_empty_r_L. by rewrite elem_of_list_to_set. }
  assert (Est : cv c (lg_start s) = dblock (disk (lg_bio s)) (lg_start s)).
  { apply Hclean. intros Hb%Hout. unfold LOGBLOCKS, MAXOPBLOCKS in Hb. lia. }
  unfold end_op, log_acquire, log_release. wp_simp. apply wp_lock_acquire; [done|]. wp_simp.
  cbn [lg_outstanding lg_committing set_lg_lock set_outstanding]. rewrite Hc, Ho. simpl (1 - 1 =? 0). cbv iota. wp_simp.
  apply wp_lock_release; [done|].
  wp_simp. eapply wp_mono; [apply (commit_spec me _ c bl); [split; done|done|done]|].
  intros _ s1 [[b1 ->] R1]. cbv beta. wp_simp. apply wp_lock_acquire; [done|]. wp_simp. apply wp_lock_release; [done|].
  cbn [lg_bio lg_outstanding lg_committing lh_n set_lg_bio set_lh_n set_lg_lock set_committing set_outstanding].
  unfold lrep in R1. cbn [lg_bio lg_dev lg_start set_lg_bio set_lh_n set_lg_lock set_committing set_outstanding] in R1. fold ws in R1.
  pose proof (rp_disk _ _ _ _ R1) as Ed1. pose proof (rp_trace _ _ _ _ R1) as Et1. simpl in Ed1, Et1.
  rewrite cd_put_all, <- Ed in Ed1. rewrite ctr_put_all, <- Et in Et1.
  split_and!; try done.
  - intros n Hn'. rewrite Ed1, Ev. unfold ws.
    exact (proj2 (crash_end (lg_start s) _ (cv c) bl _ Est ltac:(by rewrite Est) Hnd Hlen Hout Hclean) n Hn').
  - exists ws. split; [exact Et1|split; [exact Ed1|]]. intros k Hk.
    destruct (recovered (lg_start s) (disk (lg_bio s)) (cv c) bl (cv c (lg_start s)) Est ltac:(by rewrite Est) ltac:(by rewrite Est) Hnd Hlen Hint Hout Hclean k Hk) as [Hok Hrec].
    eapply wp_mono; [apply recovery_spec; [done|exact Hok]|].
    intros _ r [Rr _] n Hn'. rewrite (rp_disk _ _ _ _ Rr), cd_put_all. simpl cd.
    rewrite Hrec by done. by rewrite Ev.
Qed.

(** A first transaction after boot on a blank disk: block 40 is filled with
    sevens. *)
Definition sevens : list Z := replicate 1024 7.
Definition demo_boot : M logst unit := recovery 1 1 2 ;; begin_op.
Definition demo_write : M logst unit :=
  let! b := onb (bread 1 1 40) in
  onb (modb b (set_data sevens)) ;; log_write b ;; onb (brelse 1 b).

Definition demo_fields (s : logst) : bool :=
  (match lg_lock s with Free => true | _ => false end) && (lg_outstanding s =? 1) && negb (lg_committing s) &&
  (lg_dev s =? 1) && (lg_start s =? 2) && (Z.of_nat (length (lh_block s)) =? LOGBLOCKS).

Lemma demo_fields_true s : demo_fields s = true ->
  lg_lock s = Free /\ lg_outstanding s = 1 /\ lg_committing s = false /\ lg_dev s = 1 /\ lg_start s = 2 /\
  Z.of_nat (length (lh_block s)) = LOGBLOCKS.
Proof.
  unfold demo_fields. rewrite !andb_true_iff, negb_true_iff, !Z.eqb_eq.
  intros (((((H1 & H2) & H3) & H4) & H5) & H6). split_and!; try done. by destruct (lg_lock s).
Qed.

Lemma head_ok_empty start h : head_blocks h = [] -> head_ok start h.
Proof. intros E. split; rewrite E; [done|apply NoDup_nil_2|by intros b ?%not_elem_of_nil]. Qed.

Lemma begin_op_wp (Q : logst -> Prop) s :
  lg_lock s = Free -> lg_committing s = false -> lh_n s + (lg_outstanding s + 1) * MAXOPBLOCKS <= LOGBLOCKS ->
  Q (set_lg_lock Free (set_outstanding (lg_outstanding s + 1) (set_lg_lock Mine s))) -> wp begin_op (fun _ => Q) s.
Proof.
  intros Hl Hc Hn HQ. unfold begin_op, log_acquire, log_release. wp_simp. apply wp_lock_acquire; [done|]. wp_simp.
  cbn [lg_committing set_lg_lock lh_n lg_outstanding id]. rewrite Hc. rewrite (proj2 (Z.ltb_ge _ _) Hn). wp_simp.
  by apply wp_lock_release.
Qed.

(** Booting from a disk with an empty log. *)
Lemma demo_boot_disk d :
  head_blocks (dblock d 2) = [] ->
  wp (recovery 1 1 2) (fun _ s => demo_fields (set_outstanding 1 s) && (lg_outstanding s =? 0) = true) (boot_log d) ->
  wp demo_boot (fun _ s => demo_fields s = true /\ exists c, open_tx 1 s c [] /\ cP c = ∅ /\ cH c = ∅ /\
    forall n, cv c n = if n =? 2 then hdr [] (dblock d 2) else dblock d n) (boot_log d).
Proof.
  intros Hh Hf. unfold demo_boot. rewrite wp_bind.
  eapply wp_mono; [exact (wp_and _ _ _ _ (recovery_spec 1 1 2 d ltac:(lia) (head_ok_empty 2 _ Hh)) Hf)|].
  clear Hf. intros _ s [[Hr Hn] [Hd Ho%Z.eqb_eq]%andb_true_iff]. pose proof (demo_fields_true _ Hd) as (H1 & H2 & H3 & H4 & H5 & H6).
  cbn in H1, H2, H3, H4, H5, H6. apply begin_op_wp; [done|done|rewrite Hn, Ho; done|]. rewrite Ho.
    split; [unfold demo_fields in *; cbn in *; by rewrite H1 in Hd|].
    exists (put_all (recovery_writes d 2) (Cst (dblock d) d ∅ ∅ [])).
    split; [|split; [apply cP_put_all|split; [apply cH_put_all|]]].
    + split; try done; [by rewrite cP_put_all|apply NoDup_nil_2|apply Forall_nil_2|by intros b ?%not_elem_of_nil].
    + intros n. rewrite cv_put_all. unfold recovery_writes. rewrite Hh. destruct (Z.eqb_spec n 2) as [->|Hne].
      * done.
      * rewrite last_write_none; [done|]. simpl. by rewrite list_elem_of_singleton.
Qed.

Lemma demo_boot_spec :
  wp demo_boot (fun _ s => demo_fields s = true /\ exists c, open_tx 1 s c [] /\ cP c = ∅ /\ cH c = ∅) (boot_log ∅).
Proof.
  eapply wp_mono; [apply demo_boot_disk; [vm_compute; reflexivity|vm_compute; reflexivity]|].
  intros ? s (Hd & c & H1 & H2 & H3 & _). split; [done|]. by exists c.
Qed.

Lemma demo_tx : exists s c,
  trans 1 s c [40] /\ lg_lock s = Free /\ lg_outstanding s = 1 /\ lg_committing s = false /\ lg_dev s = 1 /\ lg_start s = 2 /\
  get32 0 (dblock (disk (lg_bio s)) 2) = 0 /\ length (dblock (disk (lg_bio s)) 2) = Z.to_nat BSIZE /\
  bview (lg_bio s) 40 = sevens.
Proof.
  assert (W : wp (demo_boot ;; demo_write) (fun _ s => exists c, trans 1 s c [40] /\ bview (lg_bio s) 40 = sevens) (boot_log ∅)).
  { wp_simp. eapply wp_mono; [apply demo_boot_spec|]. intros _ s [Hd (c & Ht & HP & HH)]. cbv beta.
    apply demo_fields_true in Hd as (H1 & H2 & H3 & H4 & H5 & H6). unfold demo_write. wp_simp.
    pose proof (ot_rep _ _ _ _ Ht) as Hr. unfold lrep in Hr. rewrite H4 in Hr.
    eapply wp_mono; [apply (rep_bread 1 1 _ c 40 Hr)|]; [set_solver|right; rewrite HP, HH; by apply Nat.ltb_lt|].
    intros b s1 (R1 & B1 & _). cbv beta. wp_simp.
    eapply wp_mono; [apply (rep_set_data 1 1 _ _ b 40 sevens R1 B1); set_solver|].
    intros ? s2 [R2 S2]. cbv beta. wp_simp.
    assert (B2 : buf_is s2 b 40) by (apply S2; [set_solver|done]).
    assert (O2 : open_tx 1 (set_lg_bio s2 (set_lg_bio s1 s)) (c_set 40 sevens (c_hold 40 c)) []).
    { destruct Ht. split; try done. unfold lrep. cbn. by rewrite H4. }
    eapply wp_mono; [apply (log_write_spec 1 _ _ [] b 40 O2 B2); simpl; try done; try lia|].
    + set_solver.
    + unfold data_block, LOGBLOCKS, MAXOPBLOCKS. rewrite H5. lia.
    + intros _ s3 (O3 & S3 & E3 & E4 & E5). cbv beta. wp_simp.
      rewrite decide_False in O3 by apply not_elem_of_nil. cbn in E3, E4, E5.
      pose proof (ot_rep _ _ _ _ O3) as R3. unfold lrep in R3. rewrite E5, H4 in R3. 
      eapply wp_mono; [apply (rep_brelse 1 1 _ _ b 40 R3)|]; [apply S3; [set_solver|done]|set_solver|left; set_solver|].
      intros ? s4 [R4 _]. exists (c_drop 40 (c_pin 40 (c_set 40 sevens (c_hold 40 c)))). destruct O3. split; [split|]; try done.
      - unfold lrep. cbn. by rewrite E5, H4.
      - cbn. rewrite HH. set_solver.
      - exact (rp_view _ _ _ _ R4 40). }
  assert (F : wp (demo_boot ;; demo_write) (fun _ s => demo_fields s && (get32 0 (dblock (disk (lg_bio s)) 2) =? 0) &&
    (length (dblock (disk (lg_bio s)) 2) =? Z.to_nat BSIZE)%nat = true) (boot_log ∅)).
  { vm_compute. reflexivity. }
  destruct (wp_ok _ _ _ (wp_and _ _ _ _ W F)) as (_ & s & _ & (c & Ht & Hv) & Hd).
  apply andb_true_iff in Hd as [[Hd Hg%Z.eqb_eq]%andb_true_iff Hl%Nat.eqb_eq].
  apply demo_fields_true in Hd as (H1 & H2 & H3 & H4 & H5 & _).
  exists s, c. repeat (split; [assumption|]). assumption.
Qed.

Lemma end_op_crash_safe_witness : exists s c,
  trans 1 s c [40] /\ wp (end_op 1) (fun _ s' => dblock (disk (lg_bio s')) 40 = sevens) s.
Proof.
  destruct demo_tx as (s & c & Ht & H1 & H2 & H3 & H4 & H5 & H6 & H7 & H8). exists s, c. split; [exact Ht|].
  rewrite <- H5 in H6, H7.
  eapply wp_mono; [apply (end_op_crash_safe 1 s c [40] Ht); [done|by apply Nat.ltb_lt|exact H1|exact H2|exact H3|by rewrite H4|exact H6|exact H7]|].
  intros ? s' (_ & _ & _ & Hd & _). rewrite <- H8. apply Hd. unfold data_block, LOGBLOCKS, MAXOPBLOCKS. rewrite H5. lia.
Defined.

(** * The buffer cache *)

(** bread() returns a locked buffer holding the current contents of the
    block: those in the cache if it is cached, those on disk if not.  No
    block is ever in two buffers, what the cache shows of every other
    block is unchanged, and nothing is written to the disk.  A block that
    is not cached takes the least recently used buffer that nobody
    references, never one in use. *)
Theorem bread_correct me dev n s l :
  bio_inv dev s l -> can_bread dev n s ->
  wp (bread me dev n) (fun i s' =>
    (i < NBUF)%nat /\ bio_inv dev s' l /\ caches dev n (getb i s') /\
    b_data (getb i s') = bview s n /\ b_lock (getb i s') = Sleeplock Free true me /\
    b_refcnt (getb i s') = b_refcnt (getb i s) + 1 /\
    (forall j, (j < NBUF)%nat -> caches dev n (getb j s') -> j = i) /\
    (forall m, bview s' m = bview s m) /\ disk s' = disk s /\ dtrace s' = dtrace s /\
    (caches dev n (getb i s) \/
     exists l1 l2, l = l1 ++ i :: l2 /\ b_refcnt (getb i s) = 0 /\ forall j, j ∈ l2 -> b_refcnt (getb j s) <> 0)) s.
Proof.
  intros Hinv Hcan. eapply wp_mono; [by apply (bread_spec me dev n s l)|].
  intros i s' [(Hi & Hinv' & O & _ & Hv) Hlru]. pose proof (ob_at _ _ _ _ O) as C.
  assert (Hc : caches dev n (getb i s')).
  { split; [by rewrite (core_dev _ _ C)|by rewrite (core_blockno _ _ C)]. }
  repeat (split; [first [done|by rewrite ?(core_data _ _ C), ?(core_lock _ _ C), ?(core_refcnt _ _ C)]|]).
  split; [|split; [done|split; [apply O|split; [apply O|done]]]].
  intros j Hj Hcj. by apply (bi_uniq _ _ _ Hinv' j i n).
Qed.

(** The cache after binit(), on the disk [d]. *)
Lemma booted d : exists s l, bio_inv 1 s l /\ disk s = d /\ forall n, can_bread 1 n s.
Proof.
  destruct (wp_ok _ _ _ (rep_binit 1 1 d ltac:(done))) as (_ & s & _ & R).
  destruct (rp_inv _ _ _ _ R) as [l Hinv]. exists s, l. split; [done|]. split; [apply R|].
  intros n. apply (rep_can_bread 1 1 s _ n R); [set_solver|]. right. by apply Nat.ltb_lt.
Qed.

Lemma bread_correct_witness : exists s l, bio_inv 1 s l /\
  wp (bread 5 1 9) (fun i s' => b_data (getb i s') = bview s 9) s.
Proof.
  destruct (booted {[9 := sevens]}) as (s & l & Hinv & _ & Hcan). exists s, l. split; [exact Hinv|].
  eapply wp_mono; [exact (bread_correct 5 1 9 s l Hinv (Hcan 9))|]. intros i s' H. exact (proj1 (proj2 (proj2 (proj2 H)))).
Defined.

(** brelse() unlocks the buffer and drops one reference.  When the last
    reference goes the buffer becomes the most recently used one; the
    order of the other buffers stays, and so does what the cache shows. *)
Theorem brelse_correct me s i l dev :
  bio_inv dev s l -> (i < NBUF)%nat -> b_lock (getb i s) = Sleeplock Free true me -> 1 <= b_refcnt (getb i s) ->
  (b_refcnt (getb i s) = 1 -> b_valid (getb i s) = true -> b_data (getb i s) = dblock (disk s) (b_blockno (getb i s))) ->
  wp (brelse me i) (fun _ s' =>
    bio_inv dev s' (if b_refcnt (getb i s) =? 1 then i :: filter (fun j => j <> i) l else l) /\
    sl_locked (b_lock (getb i s')) = false /\ b_refcnt (getb i s') = b_refcnt (getb i s) - 1 /\
    (forall j, j <> i -> b_refcnt (getb j s') = b_refcnt (getb j s) /\ b_lock (getb j s') = b_lock (getb j s)) /\
    (forall m, bview s' m = bview s m) /\ disk s' = disk s) s.
Proof.
  intros Hinv Hi Hl Hr Hclean. eapply wp_mono; [by apply (brelse_spec me s i l dev)|].
  intros ? s' (Hinv' & O & Hv). pose proof (ob_at _ _ _ _ O) as C.
  split; [exact Hinv'|]. split; [by rewrite (core_lock _ _ C)|]. split; [by rewrite (core_refcnt _ _ C)|].
  split; [|split; [done|apply O]]. intros j Hj. pose proof (ob_other _ _ _ _ O j Hj) as Cj.
  by rewrite (core_lock _ _ Cj), (core_refcnt _ _ Cj).
Qed.

Lemma brelse_correct_witness : exists s i l, bio_inv 1 s l /\
  wp (brelse 5 i) (fun _ s' => bio_inv 1 s' (i :: filter (fun j => j <> i) l)) s.
Proof.
  destruct (wp_ok _ _ _ (rep_binit 5 1 ∅ ltac:(done))) as (_ & s & _ & R).
  assert (Hroom : (size (∅ ∪ ∅ : gset Z) < NBUF)%nat) by (by apply Nat.ltb_lt).
  destruct (wp_ok _ _ _ (rep_bread 5 1 s _ 9 R ltac:(set_solver) (or_intror Hroom))) as (i & s1 & _ & R1 & B1 & _).
  destruct (rp_inv _ _ _ _ R1) as [l Hinv]. exists s1, i, l. split; [exact Hinv|].
  pose proof (rp_ref _ _ _ _ R1 i 9 B1) as Href. cbn in Href. pose proof B1 as (Hi & _ & Hn).
  eapply wp_mono; [apply (brelse_correct 5 s1 i l 1 Hinv Hi)|].
  - apply (rp_lock _ _ _ _ R1 i 9 B1). set_solver.
  - rewrite Href. vm_compute. done.
  - intros _ _. rewrite Hn, (buf_is_data 5 1 s1 _ i 9 R1 B1), (rp_disk _ _ _ _ R1). reflexivity.
  - intros ? s' [H _]. rewrite Href in H. exact H.
Defined.

(** * The use of the log *)

(** log_write() records a block of the open transaction once.  A block
    already in the transaction is absorbed; any other block is appended,
    and its buffer pinned so that the cache keeps the new contents until
    the commit.  No panic is possible while the transaction is smaller
    than the log, and no buffer in use is moved or changed. *)
Theorem log_write_correct me s c bl b n :
  open_tx me s c bl -> buf_is (lg_bio s) b n -> n ∈ cH c -> Z.of_nat (length bl) < LOGBLOCKS ->
  1 <= lg_outstanding s -> - 2 ^ 31 <= n < 2 ^ 31 -> data_block (lg_start s) n ->
  wp (log_write b) (fun _ s' =>
    open_tx me s' (if decide (n ∈ bl) then c else c_pin n c) (if decide (n ∈ bl) then bl else bl ++ [n]) /\
    stays (lg_bio s) (lg_bio s') c /\ (forall m, bview (lg_bio s') m = bview (lg_bio s) m) /\
    disk (lg_bio s') = disk (lg_bio s) /\ lg_outstanding s' = lg_outstanding s) s.
Proof.
  intros Ht Hb Hn Hlen Ho Hr Hd. eapply wp_mono; [by apply (log_write_spec me s c bl b n)|].
  intros _ s' (Ht' & Hs & Hout & _). pose proof (ot_rep _ _ _ _ Ht) as R. pose proof (ot_rep _ _ _ _ Ht') as R'.
  split; [exact Ht'|]. split; [exact Hs|]. split_and!; [|..|exact Hout].
  - intros m. rewrite (rp_view _ _ _ _ R m), (rp_view _ _ _ _ R' m). by case_decide.
  - rewrite (rp_disk _ _ _ _ R), (rp_disk _ _ _ _ R'). by case_decide.
Qed.

Lemma log_write_correct_witness : exists s b, buf_is (lg_bio s) b 40 /\
  wp (log_write b) (fun _ s' => disk (lg_bio s') = disk (lg_bio s)) s.
Proof.
  destruct (wp_ok _ _ _ demo_boot_spec) as (_ & s & _ & Hd & c & Ht & HP & HH).
  apply demo_fields_true in Hd as (H1 & H2 & H3 & H4 & H5 & H6).
  pose proof (ot_rep _ _ _ _ Ht) as R. assert (Hroom : (size (cP c ∪ cH c) < NBUF)%nat) by (rewrite HP, HH; by apply Nat.ltb_lt).
  destruct (wp_ok _ _ _ (rep_bread _ _ _ c 40 R ltac:(set_solver) (or_intror Hroom))) as (b & s1 & _ & R1 & B1 & _).
  exists (set_lg_bio s1 s), b. split; [exact B1|].
  eapply wp_mono; [apply (log_write_correct 1 _ (c_hold 40 c) [] b 40); [| exact B1|set_solver|done|cbn; lia|lia|]|].
  - destruct Ht. split; done.
  - cbn. rewrite H5. unfold data_block, LOGBLOCKS, MAXOPBLOCKS. lia.
  - intros ? s' H. exact (proj1 (proj2 (proj2 (proj2 H)))).
Defined.

(** ** Reservation of log space

    Operations run concurrently inside begin_op()/end_op().  [fs_step]
    interleaves them: the list counts what each operation in progress has
    passed to log_write(), at most MAXOPBLOCKS each; between those calls
    the operations use the buffer cache. *)
Inductive fs_step : logst * list Z -> logst * list Z -> Prop :=
| fs_begin s s' ws : begin_op s = Ok tt s' -> fs_step (s, ws) (s', ws ++ [0])
| fs_write s s' ws i w b : ws !! i = Some w -> w < MAXOPBLOCKS -> log_write b s = Ok tt s' ->
    fs_step (s, ws) (s', <[i := w + 1]> ws)
| fs_end s s' ws i me : (i < length ws)%nat -> end_op me s = Ok tt s' -> fs_step (s, ws) (s', delete i ws)
| fs_cache s b ws : fs_step (s, ws) (set_lg_bio b s, ws).

(** What the operations in progress may still add to the log. *)
Definition reserved (ws : list Z) : Z := foldr (fun w r => MAXOPBLOCKS - w + r) 0 ws.

Record resv_inv (s : logst) (ws : list Z) : Prop := {
  rv_out : lg_outstanding s = Z.of_nat (length ws);
  rv_n : 0 <= lh_n s;
  rv_space : lh_n s + reserved ws <= LOGBLOCKS;
  rv_each : Forall (fun w => 0 <= w <= MAXOPBLOCKS) ws }.

(** [m] leaves [f] of the state alone whenever it returns. *)
Definition keeps {A B} (f : logst -> B) (m : M logst A) : Prop :=
  forall s, match m s with Ok _ s' => f s' = f s | _ => True end.

Lemma keeps_bind {A A' B} (f : logst -> B) (m : M logst A) (k : A -> M logst A') :
  keeps f m -> (forall a, keeps f (k a)) -> keeps f (bind m k).
Proof.
  intros Hm Hk s. unfold bind. specialize (Hm s). destruct (m s) as [a s1| | |]; try done.
  specialize (Hk a s1). destruct (k a s1); try done. congruence.
Qed.
Lemma keeps_ret {A B} (f : logst -> B) (a : A) : keeps f (ret a).
Proof. by intros s. Qed.
Lemma keeps_gets {A B} (f : logst -> B) (g : logst -> A) : keeps f (gets g).
Proof. by intros s. Qed.
Lemma keeps_panic {A B} (f : logst -> B) m : keeps f (panic (A := A) m).
Proof. by intros s. Qed.
Lemma keeps_onb {A B} (f : logst -> B) (m : M bio A) : (forall b s, f (set_lg_bio b s) = f s) -> keeps f (onb m).
Proof. intros H s. unfold onb, zoom. by destruct (m (lg_bio s)). Qed.
Lemma keeps_modify {B} (f : logst -> B) g : (forall s, f (g s) = f s) -> keeps f (modify g).
Proof. intros H s. apply H. Qed.
Create HintDb keeps.
#[local] Hint Resolve keeps_ret keeps_gets keeps_panic : keeps.
#[local] Hint Extern 1 (keeps _ (onb _)) => (by apply keeps_onb) : keeps.
#[local] Hint Extern 1 (keeps _ (modify _)) => (by apply keeps_modify) : keeps.
#[local] Hint Extern 1 (keeps _ (bind _ _)) => (apply keeps_bind; [|intros ?]) : keeps.
#[local] Hint Extern 1 (keeps _ (match ?x with _ => _ end)) => (destruct x) : keeps.
#[local] Hint Extern 2 (keeps _ (lh_get _)) => (unfold lh_get) : keeps.

Definition counts (s : logst) : Z * Z := (lh_n s, lg_outstanding s).

Lemma write_log_counts k me i : keeps counts (write_log_loop k me i).
Proof. revert i. induction k; intros i; simpl; unfold write_log_body; eauto 20 with keeps. Qed.
Lemma install_counts k me i r : keeps counts (install_loop k me i r).
Proof. revert i. induction k; intros i; simpl; unfold install_body; eauto 30 with keeps. Qed.
Lemma write_head_loop_counts k i b : keeps counts (write_head_loop k i b).
Proof. revert i. induction k; intros i; simpl; eauto 20 with keeps. Qed.
Lemma write_head_counts me : keeps counts (write_head me).
Proof. pose proof write_head_loop_counts. unfold write_head. eauto 20 with keeps. Qed.
#[local] Hint Resolve write_log_counts install_counts write_head_counts : keeps.

Lemma keeps_run {A B} (f : logst -> B) (m : M logst A) {A'} (k : A -> M logst A') s r s' :
  keeps f m -> bind m k s = Ok r s' -> exists a s1, f s1 = f s /\ k a s1 = Ok r s'.
Proof.
  intros Hm. unfold bind. specialize (Hm s). destruct (m s) as [a s1| | |] eqn:E; try done. intros H. by exists a, s1.
Qed.

Lemma commit_counts me s s' : 0 <= lh_n s -> commit me s = Ok tt s' ->
  lh_n s' = 0 /\ lg_outstanding s' = lg_outstanding s.
Proof.
  intros Hn. unfold commit. cbn [bind gets]. destruct (Z.ltb_spec 0 (lh_n s)) as [H|H].
  2: { intros [= <-]. split; [lia|done]. }
  unfold write_log, install_trans. intros Hc.
  apply (keeps_run counts) in Hc as (? & s1 & [= _ E1] & Hc); [|eauto with keeps].
  apply (keeps_run counts) in Hc as (? & s2 & [= _ E2] & Hc); [|eauto with keeps].
  apply (keeps_run counts) in Hc as (? & s3 & [= _ E3] & Hc); [|eauto with keeps].
  cbn [bind modify] in Hc. pose proof (write_head_counts me (set_lh_n 0 s3)) as Hk. rewrite Hc in Hk.
  injection Hk as K1 K2. cbn in K1, K2. split; [done|congruence].
Qed.

Lemma log_acquire_run {A} (k : M logst A) s r s' : (log_acquire ;; k) s = Ok r s' -> k (set_lg_lock Mine s) = Ok r s'.
Proof.
  unfold log_acquire, lock_acquire, bind, gets, modify. by destruct (lg_lock s).
Qed.

Lemma log_release_counts : keeps counts log_release.
Proof. intros s. unfold log_release, lock_release, bind, gets, modify. by destruct (lg_lock s). Qed.
#[local] Hint Resolve log_release_counts : keeps.

Lemma keeps_ok {A B} (f : logst -> B) (m : M logst A) s a s' : keeps f m -> m s = Ok a s' -> f s' = f s.
Proof. intros Hm H. specialize (Hm s). by rewrite H in Hm. Qed.

Lemma begin_op_counts s s' : begin_op s = Ok tt s' ->
  lh_n s' = lh_n s /\ lg_outstanding s' = lg_outstanding s + 1 /\ lh_n s + (lg_outstanding s + 1) * MAXOPBLOCKS <= LOGBLOCKS.
Proof.
  unfold begin_op. intros H%log_acquire_run. cbn [bind gets id] in H. cbn [lg_committing lh_n lg_outstanding set_lg_lock] in H.
  destruct (lg_committing s).
  { by apply (keeps_run counts) in H as (? & ? & _ & ?); [|eauto with keeps]. }
  destruct (Z.ltb_spec LOGBLOCKS (lh_n s + (lg_outstanding s + 1) * MAXOPBLOCKS)).
  { by apply (keeps_run counts) in H as (? & ? & _ & ?); [|eauto with keeps]. }
  cbn [bind modify] in H. apply (keeps_ok counts) in H; [|eauto with keeps]. injection H as -> ->. cbn. split_and!; [done|done|lia].
Qed.

Lemma end_op_counts me s s' : 0 <= lh_n s -> end_op me s = Ok tt s' ->
  lg_outstanding s' = lg_outstanding s - 1 /\ (lh_n s' = lh_n s \/ lh_n s' = 0).
Proof.
  intros Hn. unfold end_op. intros H%log_acquire_run. cbn [bind gets modify] in H.
  cbn [lg_committing lg_outstanding set_lg_lock set_outstanding] in H. destruct (lg_committing s); [done|].
  destruct (lg_outstanding s - 1 =? 0).
  - cbn [bind modify] in H. apply (keeps_run counts) in H as (? & s1 & [= E1 E2] & H); [|eauto with keeps]. cbn in E1, E2.
    unfold bind in H at 1. destruct (commit me s1) as [[] s2| | |] eqn:Ec; try done.
    apply commit_counts in Ec as [C1 C2]; [|lia]. apply log_acquire_run in H. cbn [bind modify] in H.
    apply (keeps_ok counts) in H; [|eauto with keeps]. injection H as -> ->. cbn. split; [lia|by right].
  - cbn [bind ret] in H. apply (keeps_run counts) in H as (? & s1 & [= E1 E2] & H); [|eauto with keeps].
    injection H as <-. cbn in E1, E2. split; [done|by left].
Qed.

Lemma log_find_counts k i n : keeps counts (log_find k i n).
Proof. revert i. induction k; intros i; simpl; eauto 20 with keeps. Qed.
Lemma lh_put_counts i b : keeps counts (lh_put i b).
Proof. unfold lh_put. eauto 20 with keeps. Qed.
#[local] Hint Resolve log_find_counts lh_put_counts : keeps.

Lemma log_write_counts b s s' : log_write b s = Ok tt s' ->
  lg_outstanding s' = lg_outstanding s /\ (lh_n s' = lh_n s \/ lh_n s' = lh_n s + 1).
Proof.
  unfold log_write. intros H%log_acquire_run. cbn [bind gets] in H. cbn [lh_n lg_outstanding set_lg_lock] in H.
  destruct (LOGBLOCKS <=? lh_n s); [done|]. cbn [bind gets] in H. cbn [lg_outstanding set_lg_lock] in H.
  destruct (lg_outstanding s <? 1); [done|]. cbn [bind gets] in H.
  apply (keeps_run counts) in H as (i & s1 & [= E1 E2] & H); [|eauto with keeps].
  apply (keeps_run counts) in H as (? & s2 & [= E3 E4] & H); [|eauto with keeps]. cbn in E1, E2.
  destruct (i =? lh_n s).
  - unfold bind in H at 1. destruct ((onb (bpin b) ;; modify (set_lh_n (lh_n s + 1))) s2) as [[] s3| | |] eqn:E; try done.
    apply (keeps_run counts) in E as (? & s4 & [= E5 E6] & E); [|eauto with keeps]. injection E as <-.
    apply (keeps_ok counts) in H; [|eauto with keeps]. injection H as -> ->. cbn. split; [lia|by right].
  - cbn [bind ret] in H. apply (keeps_ok counts) in H; [|eauto with keeps]. injection H as -> ->. split; [lia|left; lia].
Qed.

Lemma reserved_nonneg ws : Forall (fun w => 0 <= w <= MAXOPBLOCKS) ws -> 0 <= reserved ws.
Proof. induction 1; simpl; lia. Qed.
Lemma reserved_app ws w : reserved (ws ++ [w]) = reserved ws + (MAXOPBLOCKS - w).
Proof. induction ws; simpl; lia. Qed.
Lemma reserved_insert ws i w : ws !! i = Some w -> reserved (<[i := w + 1]> ws) = reserved ws - 1.
Proof. revert i. induction ws as [|x ws IH]; intros [|i]; simpl; intros H; simplify_eq; [lia|]. rewrite IH by done. lia. Qed.
Lemma reserved_delete ws i w : ws !! i = Some w -> reserved (delete i ws) = reserved ws - (MAXOPBLOCKS - w).
Proof. revert i. induction ws as [|x ws IH]; intros [|i]; simpl; intros H; simplify_eq; [lia|]. rewrite IH by done. lia. Qed.
Lemma reserved_max ws : Forall (fun w => 0 <= w <= MAXOPBLOCKS) ws -> reserved ws <= Z.of_nat (length ws) * MAXOPBLOCKS.
Proof. induction 1; cbn [reserved foldr length]; [lia|]. fold (reserved l). lia. Qed.

Lemma resv_step p q : fs_step p q -> resv_inv p.1 p.2 -> resv_inv q.1 q.2.
Proof.
  intros Hs [Ho Hn Hsp He]. destruct Hs as [s s' ws H|s s' ws i w b Hi Hw H|s s' ws i me Hi H|s b ws]; simpl in *.
  - apply begin_op_counts in H as (E1 & E2 & E3). pose proof (reserved_max _ He). split.
    + rewrite length_app. simpl. lia.
    + lia.
    + rewrite reserved_app. lia.
    + apply Forall_app_2; [done|]. apply Forall_singleton. unfold MAXOPBLOCKS. lia.
  - apply log_write_counts in H as [E1 E2]. pose proof (Forall_lookup_1 _ _ _ _ He Hi) as Hb. simpl in Hb. split.
    + rewrite length_insert. lia.
    + lia.
    + rewrite (reserved_insert _ _ w) by done. lia.
    + apply Forall_insert; [done|]. lia.
  - apply end_op_counts in H as [E1 E2]; [|done]. destruct (lookup_lt_is_Some_2 ws i Hi) as [w Hw].
    pose proof (Forall_lookup_1 _ _ _ _ He Hw) as Hb. simpl in Hb. pose proof (reserved_nonneg _ He). split.
    + rewrite length_delete by (by eexists). lia.
    + lia.
    + rewrite (reserved_delete _ _ w) by done. lia.
    + by apply Forall_delete.
  - by split.
Qed.

Lemma resv_reach p q : rtc fs_step p q -> resv_inv p.1 p.2 -> resv_inv q.1 q.2.
Proof. induction 1 as [|p q r Hs _ IH]; [done|]. intros H. by apply IH, (resv_step p). Qed.

(** [m] never panics with message [e]. *)
Definition never {S A} (e : string) (m : M S A) : Prop := forall s, m s <> Panic e.

Lemma never_bind {S A A'} e (m : M S A) (k : A -> M S A') : never e m -> (forall a, never e (k a)) -> never e (bind m k).
Proof.
  intros Hm Hk s. unfold bind. specialize (Hm s). destruct (m s) as [a s1| | |]; [apply Hk|congruence..].
Qed.
Lemma never_pure {S A} e (f : S -> A) g : never e (fun s => Ok (f s) (g s)).
Proof. by intros s. Qed.
Lemma never_ret {S A} e (a : A) : never e (ret (S := S) a).
Proof. by intros s. Qed.
Lemma never_panic {S A} e e' : e <> e' -> never e (panic (S := S) (A := A) e').
Proof. intros H s [= ?]. congruence. Qed.
Lemma never_zoom {S T A} e (get : S -> T) put (m : M T A) : never e m -> never e (zoom get put m).
Proof. intros Hm s. unfold zoom. specialize (Hm (get s)). destruct (m (get s)); congruence. Qed.
#[local] Hint Resolve never_ret : keeps.
#[local] Hint Extern 1 (never _ (gets _)) => (apply never_pure) : keeps.
#[local] Hint Extern 1 (never _ (modify _)) => (apply never_pure) : keeps.
#[local] Hint Extern 1 (never _ (modb _ _)) => (apply never_pure) : keeps.
#[local] Hint Extern 1 (never _ (panic _)) => (by apply never_panic) : keeps.
#[local] Hint Extern 1 (never _ block) => (by intros ?) : keeps.
#[local] Hint Extern 1 (never _ (onb _)) => (apply never_zoom) : keeps.
#[local] Hint Extern 1 (never _ (bind _ _)) => (apply never_bind; [|intros ?]) : keeps.
#[local] Hint Extern 1 (never _ (match ?x with _ => _ end)) => (destruct x) : keeps.

Lemma log_write_never e b s :
  e = "too big a transaction" \/ e = "log_write outside of trans" ->
  lh_n s < LOGBLOCKS -> 1 <= lg_outstanding s -> log_write b s <> Panic e.
Proof.
  intros He Hn Ho. assert (Hf : forall k i n, never e (log_find k i n)).
  { intros k. induction k; intros i n; simpl; unfold lh_get; destruct He as [-> | ->]; eauto 20 with keeps. }
  unfold log_write, log_acquire, lock_acquire, bind at 1 2, gets at 1 2, modify at 1.
  destruct (lg_lock s); [|destruct He; by subst..]. cbn [bind gets]. cbn [lh_n lg_outstanding set_lg_lock].
  destruct (Z.leb_spec LOGBLOCKS (lh_n s)); [lia|]. cbn [bind gets]. cbn [lg_outstanding set_lg_lock].
  destruct (Z.ltb_spec (lg_outstanding s) 1); [lia|]. cbn [bind gets].
  apply (never_bind e (log_find _ _ _)); [done|]. intros i.
  unfold lh_put, bpin, bc_acquire, bc_release, log_release, lock_acquire, lock_release.
  destruct He as [-> | ->]; eauto 40 with keeps.
Qed.

(** C36: The log never overflows.  However the operations between begin_op()
    and end_op() interleave, as long as each writes at most MAXOPBLOCKS
    blocks, the blocks logged plus those the operations may still write
    fit in the log; so log_write() by an operation within its share never
    panics with "too big a transaction" or "log_write outside of trans". *)
Theorem log_reservation s0 s ws i w b :
  lh_n s0 = 0 -> lg_outstanding s0 = 0 -> rtc fs_step (s0, []) (s, ws) ->
  ws !! i = Some w -> w < MAXOPBLOCKS ->
  lh_n s + reserved ws <= LOGBLOCKS /\ lh_n s < LOGBLOCKS /\
  log_write b s <> Panic "too big a transaction" /\ log_write b s <> Panic "log_write outside of trans".
Proof.
  intros Hn Ho Hr Hi Hw. destruct (resv_reach _ _ Hr) as [Ro Rn Rs Re]; simpl in *.
  { split; [done|simpl; lia|simpl; rewrite Hn; done|apply Forall_nil_2]. }
  assert (Hlt : lh_n s < LOGBLOCKS).
  { pose proof (reserved_nonneg (delete i ws)) as Hd. rewrite (reserved_delete _ _ w) in Hd by done.
    specialize (Hd ltac:(by apply Forall_delete)). lia. }
  apply lookup_lt_Some in Hi. split; [done|]. split; [done|]. split; apply log_write_never; first [by left|by right|lia].
Qed.

Lemma log_reservation_witness : exists s b, rtc fs_step (boot_log ∅, []) (s, [0]) /\ log_write b s <> Panic "too big a transaction".
Proof.
  assert (Hb : exists s, begin_op (boot_log ∅) = Ok tt s) by (eexists; reflexivity). destruct Hb as [s Hs].
  exists s, 0%nat. assert (Hr : rtc fs_step (boot_log ∅, []) (s, [0])) by (apply rtc_once; by apply (fs_begin _ _ [])).
  split; [exact Hr|].
  apply (log_reservation (boot_log ∅) s [0] 0 0 0); [reflexivity|reflexivity|exact Hr|reflexivity|reflexivity].
Defined.
