(* ===== verification/UserMem.v ===== *)
(** User memory as the rest of the kernel sees it.

    Pipes, the console, files and system calls move bytes between the
    kernel and a process with copyin() and copyout().  [UserMem] names the
    two operations, [UserMemOk] what they promise; the virtual memory layer
    implements the interface (instances at the end), and the components
    above are proved against it. *)
From S2P Require Import Prelude Mem Kalloc Vm VmSpec VmUser VmCopy.

(** [U]: the state that holds the processes' memory; [P]: what identifies a
    process (its page table and size). *)
Class UserMem (U P : Type) := {
  um_in : P -> Z -> Z -> M U (list Z * bool);  (** copyin(p, dst, va, len): the bytes copied, and success *)
  um_out : P -> Z -> list Z -> M U Z           (** copyout(p, va, src, len) *)
}.

(** [um_view p u va]: the byte process [p] sees at [va], if it may read it. *)
Class UserMemOk (U P : Type) {C : UserMem U P} := {
  um_inv : P -> U -> Prop;
  um_view : P -> U -> Z -> option Z;
  um_in_ok p u va len : um_inv p u -> 0 <= va -> 0 <= len ->
    wp (um_in p va len) (fun r u' => um_inv p u' /\ (forall a, um_view p u' a = um_view p u a) /\
      (forall i, (i < length r.1)%nat -> um_view p u (va + Z.of_nat i) = r.1 !! i) /\
      if r.2 then Z.of_nat (length r.1) = len else Z.of_nat (length r.1) < len) u;
  um_out_ok p u va bs : um_inv p u -> 0 <= va -> byte_list bs ->
    wp (um_out p va bs) (fun r u' => um_inv p u' /\ exists k, (k <= length bs)%nat /\
      (forall a, um_view p u' a =
         if (va <=? a) && (a <? va + Z.of_nat k) then bs !! Z.to_nat (a - va) else um_view p u a) /\
      ((r = 0 /\ k = length bs) \/ (r = -1 /\ (k < length bs)%nat))) u;
  um_view_byte p u a b : um_view p u a = Some b -> 0 <= b < 2 ^ 8
}.

(** The virtual memory layer implements the interface. *)
#[export] Instance mach_usermem `{L : Layout} : UserMem mach uproc := {
  um_in p va len := copyin p (p_pagetable p) va len;
  um_out p va bs := copyout p (p_pagetable p) va bs
}.

Definition mach_inv `{L : Layout} (p : uproc) (s : mach) : Prop :=
  0 <= p_sz p <= MAXVA /\ exists l own ups, as_inv s l (p_pagetable p) own ups /\ ucover (mmem s) (p_pagetable p) ups.

Section instance.
Context `{L : Layout} `{!LayoutOk L}.

Lemma mach_in_ok p s va len : mach_inv p s -> 0 <= va -> 0 <= len ->
  wp (um_in p va len) (fun r s' => mach_inv p s' /\
    (forall a, uview (mmem s') (p_pagetable p) (p_sz p) a = uview (mmem s) (p_pagetable p) (p_sz p) a) /\
    (forall i, (i < length r.1)%nat -> uview (mmem s) (p_pagetable p) (p_sz p) (va + Z.of_nat i) = r.1 !! i) /\
    if r.2 then Z.of_nat (length r.1) = len else Z.of_nat (length r.1) < len) s.
Proof.
  intros [Hsz (l & own & ups & Hinv & Hc)] Hva Hlen. destruct p as [pt sz]. simpl in *. unfold copyin.
  eapply wp_mono; [apply (copyin_loop_spec pt sz Hsz _ s l own ups); try done; lia|].
  intros r s' (l' & own' & ups' & H1 & H2 & H3 & H4). destruct H1. split; [|split; [|split; [done|]]].
  - split; [done|]. by exists l', own', ups'.
  - intros a. by destruct (H2 a).
  - destruct r as [bs []]; [done|]. apply H4.
Qed.

Lemma mach_out_ok p s va bs : mach_inv p s -> 0 <= va -> byte_list bs ->
  wp (um_out p va bs) (fun r s' => mach_inv p s' /\ exists k, (k <= length bs)%nat /\
    (forall a, uview (mmem s') (p_pagetable p) (p_sz p) a =
       if (va <=? a) && (a <? va + Z.of_nat k) then bs !! Z.to_nat (a - va)
       else uview (mmem s) (p_pagetable p) (p_sz p) a) /\
    ((r = 0 /\ k = length bs) \/ (r = -1 /\ (k < length bs)%nat))) s.
Proof.
  intros [Hsz (l & own & ups & Hinv & Hc)] Hva Hbs. destruct p as [pt sz]. simpl in *. unfold copyout.
  eapply wp_mono; [by apply (copyout_loop_spec pt sz Hsz _ s l own ups)|].
  intros r s' (l' & own' & ups' & k & H1 & Hk & H2 & H3). destruct H1. split.
  { split; [done|]. by exists l', own', ups'. }
  exists k. split; [done|]. split; [|naive_solver].
  intros a. destruct (H2 a) as [-> _]. rewrite length_take, Nat.min_l by done.
  destruct (Z.leb_spec va a), (Z.ltb_spec a (va + Z.of_nat k)); try done. cbn [andb].
  apply lookup_take_lt. lia.
Qed.

#[export] Instance mach_usermem_ok : UserMemOk mach uproc.
Proof.
  refine {| um_inv := mach_inv; um_view p s := uview (mmem s) (p_pagetable p) (p_sz p);
            um_in_ok := mach_in_ok; um_out_ok := mach_out_ok |}.
  intros p u a b. unfold uview. repeat case_match; intros [= <-]; [apply ld8_range|lia].
Defined.

End instance.

(** A small memory for examples: one address space, all of it mapped. *)
#[export] Instance flat_usermem : UserMem mem unit := {
  um_in _ va len := let! m := gets id in ret (ld_bytes m va (Z.to_nat len), true);
  um_out _ va bs := modify (fun m => st_bytes m va bs) ;; ret 0
}.

#[export] Instance flat_usermem_ok : UserMemOk mem unit.
Proof.
  refine {| um_inv _ _ := True; um_view _ m a := Some (ld8 m a) |}.
  - intros ? m va len _ _ Hlen. cbn [um_in flat_usermem]. wp_simp. simpl. rewrite length_ld_bytes. split_and!; try done; [|lia].
    intros i Hi. by rewrite lookup_ld_bytes.
  - intros ? m va bs _ _ Hbs. cbn [um_out flat_usermem]. wp_simp. split; [done|]. exists (length bs). split; [done|].
    split; [|by left]. intros a. rewrite ld8_st_bytes. destruct ((va <=? a) && (a <? va + Z.of_nat (length bs))) eqn:E; [|done].
    apply andb_true_iff in E as [E1%Z.leb_le E2%Z.ltb_lt].
    destruct (lookup_lt_is_Some_2 bs (Z.to_nat (a - va)) ltac:(lia)) as [b Hb]. rewrite Hb. simpl. f_equal.
    apply u8_small. by apply (Forall_lookup_1 _ _ _ _ Hbs Hb).
  - intros ? m a b [= <-]. apply ld8_range.
Defined.
