(* ===== verification/Pipe.v ===== *)
(** Pipes, kernel/pipe.c (pipealloc() is in File).

    A call that sleeps gives up the pipe's lock and continues later with
    the same local variables, so a call is a sequence of segments, each run
    under the lock: a segment ends with the call's result ([Done]) or
    asleep ([Slept]), and then the next segment starts where the C code
    reacquires the lock in sleep().  Between segments other processes run
    theirs. *)
From S2P Require Import Prelude Mem UserMem.

Definition PIPESIZE : Z := 512.

Record pipe := Pipe {
  pi_lock : lockst;
  pi_data : list Z;
  nread : Z;
  nwrite : Z;
  readopen : bool;
  writeopen : bool }.

(** The pipe; the processes' memory; whether some process sleeps on
    [&pi->nread] and on [&pi->nwrite]; whether the page of the pipe has been
    freed; and the history of the bytes that entered and left the pipe. *)
Record pst (U : Type) := Pst {
  pp : pipe;
  pu : U;
  rsleep : bool;
  wsleep : bool;
  pfreed : bool;
  hin : list Z;
  hout : list Z }.
Arguments Pst {U}. Arguments pp {U}. Arguments pu {U}. Arguments rsleep {U}. Arguments wsleep {U}.
Arguments pfreed {U}. Arguments hin {U}. Arguments hout {U}.

Inductive seg_res := Slept (i : Z) | Done (r : Z).

Section pipe.
Context {U P : Type} `{UM : UserMem U P}.
Implicit Types s : pst U.

Definition set_plock l s := Pst (Pipe l (pi_data (pp s)) (nread (pp s)) (nwrite (pp s)) (readopen (pp s)) (writeopen (pp s)))
  (pu s) (rsleep s) (wsleep s) (pfreed s) (hin s) (hout s).
Definition set_pu (u : U) s := Pst (pp s) u (rsleep s) (wsleep s) (pfreed s) (hin s) (hout s).
Definition set_rsleep b s := Pst (pp s) (pu s) b (wsleep s) (pfreed s) (hin s) (hout s).
Definition set_wsleep b s := Pst (pp s) (pu s) (rsleep s) b (pfreed s) (hin s) (hout s).
Definition set_pfreed s := Pst (pp s) (pu s) (rsleep s) (wsleep s) true (hin s) (hout s).
Definition close_read s := Pst (Pipe (pi_lock (pp s)) (pi_data (pp s)) (nread (pp s)) (nwrite (pp s)) false (writeopen (pp s)))
  (pu s) (rsleep s) (wsleep s) (pfreed s) (hin s) (hout s).
Definition close_write s := Pst (Pipe (pi_lock (pp s)) (pi_data (pp s)) (nread (pp s)) (nwrite (pp s)) (readopen (pp s)) false)
  (pu s) (rsleep s) (wsleep s) (pfreed s) (hin s) (hout s).
(** [pi->data[pi->nwrite++ % PIPESIZE] = ch] *)
Definition push ch s :=
  let p := pp s in
  Pst (Pipe (pi_lock p) (<[Z.to_nat (nwrite p mod PIPESIZE) := ch]> (pi_data p)) (nread p) (u32 (nwrite p + 1))
        (readopen p) (writeopen p))
    (pu s) (rsleep s) (wsleep s) (pfreed s) (hin s ++ [ch]) (hout s).
(** [pi->data[pi->nread % PIPESIZE]] *)
Definition front s : Z := default 0 (pi_data (pp s) !! Z.to_nat (nread (pp s) mod PIPESIZE)).
(** [pi->nread++] *)
Definition pop s :=
  let p := pp s in
  Pst (Pipe (pi_lock p) (pi_data p) (u32 (nread p + 1)) (nwrite p) (readopen p) (writeopen p))
    (pu s) (rsleep s) (wsleep s) (pfreed s) (hin s) (hout s ++ [front s]).

Definition pacquire : M (pst U) unit := lock_acquire (fun s => pi_lock (pp s)) set_plock.
Definition prelease : M (pst U) unit := lock_release (fun s => pi_lock (pp s)) set_plock.
Definition wakeup_readers : M (pst U) unit := modify (set_rsleep false).
Definition wakeup_writers : M (pst U) unit := modify (set_wsleep false).
Definition onu {A} (m : M U A) : M (pst U) A := zoom pu set_pu m.

Definition pipeclose (writable : bool) : M (pst U) unit :=
  pacquire ;;
  (if writable then modify close_write ;; wakeup_readers else modify close_read ;; wakeup_writers) ;;
  let! s := gets id in
  if negb (readopen (pp s)) && negb (writeopen (pp s)) then prelease ;; modify set_pfreed else prelease.

(** The loop of pipewrite() for process [p], from index [i]; [killed k] is
    what killed(pr) returns at the [k]th test of this segment. *)
Fixpoint pipewrite_loop (fuel : nat) (killed : nat -> bool) (k : nat) (p : P) (addr n i : Z) : M (pst U) seg_res :=
  if i <? n then
    match fuel with
    | O => nofuel
    | S fuel =>
        let! s := gets id in
        if negb (readopen (pp s)) || killed k then prelease ;; ret (Done (-1))
        else if nwrite (pp s) =? u32 (nread (pp s) + PIPESIZE) then
          wakeup_readers ;; modify (set_wsleep true) ;; prelease ;; ret (Slept i)
        else
          let! r := onu (um_in p (u64 (addr + i)) 1) in
          if negb r.2 then wakeup_readers ;; prelease ;; ret (Done i) else
          modify (push (hd 0 r.1)) ;; pipewrite_loop fuel killed (S k) p addr n (i + 1)
    end
  else wakeup_readers ;; prelease ;; ret (Done i).
(** A segment of pipewrite(): the call starts with [i = 0]; after sleep()
    it goes on with the [i] it had. *)
Definition pipewrite (killed : nat -> bool) (p : P) (addr n i : Z) : M (pst U) seg_res :=
  pacquire ;; pipewrite_loop (Z.to_nat (n - i)) killed 0 p addr n i.

Fixpoint piperead_loop (fuel : nat) (p : P) (addr n i : Z) : M (pst U) Z :=
  if i <? n then
    match fuel with
    | O => nofuel
    | S fuel =>
        let! s := gets id in
        if nread (pp s) =? nwrite (pp s) then ret i else
        let! r := onu (um_out p (u64 (addr + i)) [front s]) in
        if r =? -1 then ret (if i =? 0 then -1 else i) else
        modify pop ;; piperead_loop fuel p addr n (i + 1)
    end
  else ret i.
(** A segment of piperead(): it sleeps only before it has read anything. *)
Definition piperead (killed : bool) (p : P) (addr n : Z) : M (pst U) seg_res :=
  pacquire ;;
  let! s := gets id in
  if (nread (pp s) =? nwrite (pp s)) && writeopen (pp s) then
    if killed then prelease ;; ret (Done (-1))
    else modify (set_rsleep true) ;; prelease ;; ret (Slept 0)
  else
    let! i := piperead_loop (Z.to_nat n) p addr n 0 in
    wakeup_writers ;; prelease ;; ret (Done i).

(** * Contents and invariant *)

(** The bytes in the pipe, oldest first. *)
Definition used s : Z := u32 (nwrite (pp s) - nread (pp s)).
Definition slot s (k : nat) : Z := default 0 (pi_data (pp s) !! Z.to_nat ((nread (pp s) + Z.of_nat k) mod PIPESIZE)).
Definition ring s : list Z := slot s <$> seq 0 (Z.to_nat (used s)).

Record pipe_inv l s : Prop := {
  pv_lock : pi_lock (pp s) = l;
  pv_len : Z.of_nat (length (pi_data (pp s))) = PIPESIZE;
  pv_r : 0 <= nread (pp s) < 2 ^ 32;
  pv_w : 0 <= nwrite (pp s) < 2 ^ 32;
  pv_used : used s <= PIPESIZE;
  pv_hist : hin s = hout s ++ ring s }.

(** Nobody sleeps on a condition that already holds. *)
Record awake_inv s : Prop := {
  av_r : rsleep s = true -> ring s = [] /\ writeopen (pp s) = true;
  av_w : wsleep s = true -> Z.of_nat (length (ring s)) = PIPESIZE /\ readopen (pp s) = true }.

(** [s'] is [s] after the bytes [ws] entered the pipe. *)
Record entered s s' (ws : list Z) : Prop := {
  en_in : hin s' = hin s ++ ws;
  en_out : hout s' = hout s;
  en_ring : ring s' = ring s ++ ws;
  en_open : readopen (pp s') = readopen (pp s) /\ writeopen (pp s') = writeopen (pp s) /\ pfreed s' = pfreed s }.

(** ** The arithmetic of the counters *)

Lemma used_range s : 0 <= used s.
Proof. apply u32_range. Qed.

Lemma length_ring s : Z.of_nat (length (ring s)) = used s.
Proof. unfold ring. rewrite length_fmap, length_seq. pose proof (used_range s). lia. Qed.

(** The two tests of the code, full and empty, as facts about [used]. *)
Lemma full_test s : 0 <= nread (pp s) < 2 ^ 32 -> 0 <= nwrite (pp s) < 2 ^ 32 ->
  (nwrite (pp s) =? u32 (nread (pp s) + PIPESIZE)) = (used s =? PIPESIZE).
Proof.
  intros Hr Hw. unfold used, u32, PIPESIZE. apply eq_iff_eq_true. rewrite !Z.eqb_eq.
  pose proof (Z.div_mod (nread (pp s) + 512) (2 ^ 32) ltac:(lia)).
  pose proof (Z.mod_pos_bound (nread (pp s) + 512) (2 ^ 32) ltac:(lia)).
  pose proof (Z.div_mod (nwrite (pp s) - nread (pp s)) (2 ^ 32) ltac:(lia)).
  pose proof (Z.mod_pos_bound (nwrite (pp s) - nread (pp s)) (2 ^ 32) ltac:(lia)). split; intros; lia.
Qed.

Lemma empty_test s : 0 <= nread (pp s) < 2 ^ 32 -> 0 <= nwrite (pp s) < 2 ^ 32 ->
  (nread (pp s) =? nwrite (pp s)) = (used s =? 0).
Proof.
  intros Hr Hw. unfold used, u32. apply eq_iff_eq_true. rewrite !Z.eqb_eq.
  pose proof (Z.div_mod (nwrite (pp s) - nread (pp s)) (2 ^ 32) ltac:(lia)).
  pose proof (Z.mod_pos_bound (nwrite (pp s) - nread (pp s)) (2 ^ 32) ltac:(lia)). split; intros; lia.
Qed.

(** 2^32 is a multiple of PIPESIZE, so the counters may wrap. *)
Lemma mod_wrap a : u32 a mod PIPESIZE = a mod PIPESIZE.
Proof.
  unfold u32, PIPESIZE. change (2 ^ 32) with (512 * 2 ^ 23).
  rewrite Z.rem_mul_r, Z.mul_comm, Z.mod_add, Z.mod_mod by lia. done.
Qed.
Lemma mod_wrap_add a b : (u32 a + b) mod PIPESIZE = (a + b) mod PIPESIZE.
Proof. rewrite <- Zplus_mod_idemp_l, mod_wrap. by apply Zplus_mod_idemp_l. Qed.

Lemma used_push ch s : used s < PIPESIZE -> used (push ch s) = used s + 1.
Proof.
  unfold used, push. cbn [pp nwrite nread]. unfold u32, PIPESIZE. intros H.
  rewrite Zminus_mod_idemp_l. replace (nwrite (pp s) + 1 - nread (pp s)) with (nwrite (pp s) - nread (pp s) + 1) by lia.
  rewrite <- Zplus_mod_idemp_l. apply Z.mod_small. pose proof (Z.mod_pos_bound (nwrite (pp s) - nread (pp s)) (2 ^ 32)). lia.
Qed.

Lemma used_pop s : 0 < used s -> used (pop s) = used s - 1.
Proof.
  unfold used, pop. cbn [pp nwrite nread]. unfold u32. intros H.
  rewrite Zminus_mod_idemp_r. replace (nwrite (pp s) - (nread (pp s) + 1)) with (nwrite (pp s) - nread (pp s) - 1) by lia.
  rewrite <- Zminus_mod_idemp_l. apply Z.mod_small. pose proof (Z.mod_pos_bound (nwrite (pp s) - nread (pp s)) (2 ^ 32)). lia.
Qed.

(** Where the next byte goes is no byte of the ring. *)
Lemma write_slot s : (nread (pp s) + used s) mod PIPESIZE = nwrite (pp s) mod PIPESIZE.
Proof.
  unfold used. rewrite Z.add_comm, mod_wrap_add. f_equal. lia.
Qed.

Lemma slot_apart a j k : 0 <= j < k -> k < PIPESIZE -> (a + j) mod PIPESIZE <> (a + k) mod PIPESIZE.
Proof.
  intros Hj Hk E. unfold PIPESIZE in *. pose proof (Z.div_mod (a + j) 512 ltac:(lia)).
  pose proof (Z.div_mod (a + k) 512 ltac:(lia)). lia.
Qed.

Lemma ring_push ch s : Z.of_nat (length (pi_data (pp s))) = PIPESIZE -> used s < PIPESIZE ->
  ring (push ch s) = ring s ++ [ch].
Proof.
  intros Hlen Hu. unfold ring. rewrite used_push by done. pose proof (used_range s).
  replace (Z.to_nat (used s + 1)) with (Z.to_nat (used s) + 1)%nat by lia. rewrite seq_app, fmap_app. simpl.
  assert (B : forall x, 0 <= x mod PIPESIZE < PIPESIZE) by (intros x; by apply Z.mod_pos_bound).
  f_equal.
  - apply list_fmap_ext. intros i k Hk. apply lookup_seq in Hk as [-> Hk]. unfold slot, push. cbn [pp pi_data nread].
    rewrite list_lookup_insert_ne; [done|]. rewrite <- write_slot. intros E.
    pose proof (B (nread (pp s) + used s)). pose proof (B (nread (pp s) + Z.of_nat (0 + i))).
    apply (slot_apart (nread (pp s)) (Z.of_nat (0 + i)) (used s)); lia.
  - f_equal. unfold slot, push. cbn [pp pi_data nread].
    replace (Z.of_nat (Z.to_nat (used s))) with (used s) by lia. rewrite write_slot.
    pose proof (B (nwrite (pp s))). rewrite list_lookup_insert_eq by lia. done.
Qed.

Lemma ring_pop s : 0 < used s -> ring s = front s :: ring (pop s).
Proof.
  intros Hu. unfold ring. rewrite used_pop by done.
  replace (Z.to_nat (used s)) with (S (Z.to_nat (used s - 1))) by lia. cbn [seq fmap list_fmap]. f_equal.
  - unfold slot, front. by rewrite Z.add_0_r.
  - rewrite <- fmap_S_seq, <- list_fmap_compose. apply list_fmap_ext. intros i k _.
    unfold slot, pop. cbn [compose pp pi_data nread]. rewrite mod_wrap_add. do 4 f_equal. lia.
Qed.


(** ** Segments *)

Lemma pipe_inv_push ch s : pipe_inv Mine s -> used s < PIPESIZE -> pipe_inv Mine (push ch s).
Proof.
  intros [H1 H2 H3 H4 H5 H6] Hu. split; try done.
  - cbn. by rewrite length_insert.
  - apply u32_range.
  - rewrite used_push by done. lia.
  - rewrite ring_push by done. cbn. by rewrite H6, app_assoc.
Qed.

Lemma pipe_inv_pop s : pipe_inv Mine s -> 0 < used s -> pipe_inv Mine (pop s).
Proof.
  intros [H1 H2 H3 H4 H5 H6] Hu. split; try done.
  - apply u32_range.
  - rewrite used_pop by done. lia.
  - cbn. rewrite H6, (ring_pop s) by done. by rewrite <- app_assoc.
Qed.

Lemma entered_refl s : entered s s [].
Proof. split; [by rewrite app_nil_r|done|by rewrite app_nil_r|done]. Qed.

Lemma entered_push ch s s' ws : pipe_inv Mine s -> used s < PIPESIZE ->
  entered (push ch s) s' ws -> entered s s' (ch :: ws).
Proof.
  intros Hi Hu [E1 E2 E3 E4]. split; [|done| |done].
  - rewrite E1. cbn. by rewrite <- app_assoc.
  - rewrite E3, ring_push by (done || apply Hi). by rewrite <- app_assoc.
Qed.

Lemma entered_pu u s s' ws : entered (set_pu u s) s' ws -> entered s s' ws.
Proof. by intros []. Qed.

(** The end of a segment: the lock is released, sleepers may be woken. *)
Lemma unlocked s s' : pipe_inv Mine s -> pp s' = pp (set_plock Free s) -> hin s' = hin s -> hout s' = hout s ->
  pfreed s' = pfreed s -> pipe_inv Free s' /\ entered s s' [].
Proof.
  intros [H1 H2 H3 H4 H5 H6] E1 E2 E3 E4.
  assert (Er : ring s' = ring s) by (unfold ring, used, slot; by rewrite E1).
  assert (Eu : used s' = used s) by (unfold used; by rewrite E1). split.
  - split; rewrite ?Eu, ?Er, ?E2, ?E3, ?E1; done.
  - split; rewrite ?app_nil_r, ?E1; done.
Qed.

Lemma prelease_run {A} (k : M (pst U) A) s : pi_lock (pp s) = Mine -> (prelease ;; k) s = k (set_plock Free s).
Proof. intros H. unfold prelease, lock_release, bind, gets, modify. by rewrite H. Qed.

Lemma onu_run {A B} (m : M U A) (k : A -> M (pst U) B) s r s' :
  bind (onu m) k s = Ok r s' -> exists a u, m (pu s) = Ok a u /\ k a (set_pu u s) = Ok r s'.
Proof. unfold onu, zoom, bind. destruct (m (pu s)) as [a u| | |]; try done. intros H. by exists a, u. Qed.

(** How a segment of pipewrite() ends. *)
Definition write_end (killed : nat -> bool) (k : nat) (n i : Z) s (ws : list Z) (r : seg_res) s' : Prop :=
  match r with
  | Slept i' => i' = i + Z.of_nat (length ws) /\ i' < n /\ used s' = PIPESIZE /\ readopen (pp s') = true /\
      rsleep s' = false /\ wsleep s' = true
  | Done r =>
      (r = i + Z.of_nat (length ws) /\ rsleep s' = false /\ wsleep s' = wsleep s) \/
      (r = -1 /\ rsleep s' = rsleep s /\ wsleep s' = wsleep s /\
       ((ws = [] /\ (readopen (pp s) = false \/ killed k = true)) \/
        (readopen (pp s) = true /\ killed k = false /\ exists j, killed j = true)))
  end.

Lemma finish_run killed k n i s r s' :
  (wakeup_readers ;; prelease ;; ret (Done i)) s = Ok r s' -> pipe_inv Mine s ->
  exists ws, pipe_inv Free s' /\ entered s s' ws /\ write_end killed k n i s ws r s'.
Proof.
  unfold wakeup_readers. cbn [bind modify]. intros H Hi. rewrite prelease_run in H by apply Hi. injection H as <- <-.
  exists []. edestruct (unlocked s) as [H1 H2]; [done| | | | |split; [apply H1|split; [apply H2|]]]; try done.
  left. split; [simpl; lia|done].
Qed.

Lemma pipewrite_loop_run fuel killed k p addr n i s r s' :
  pipewrite_loop fuel killed k p addr n i s = Ok r s' -> pipe_inv Mine s ->
  exists ws, pipe_inv Free s' /\ entered s s' ws /\ write_end killed k n i s ws r s'.
Proof.
  revert k i s. induction fuel as [|fuel IH]; intros k i s; cbn [pipewrite_loop];
    destruct (Z.ltb_spec i n) as [Hin|Hin]; try (by intros [=]).
  1,3: intros H Hi; by apply finish_run.
  cbn [bind gets id]. intros H Hi. destruct (negb (readopen (pp s)) || killed k) eqn:Ero.
  { rewrite prelease_run in H by apply Hi. injection H as <- <-. exists [].
    destruct (unlocked s (set_plock Free s) Hi) as [H1 H2]; try done. split_and!; try done. right. split_and!; try done.
    left. split; [done|]. apply orb_true_iff in Ero as [?%negb_true_iff|?]; auto. }
  apply orb_false_iff in Ero as [Ero%negb_false_iff Ek].
  rewrite full_test in H by apply Hi. destruct (Z.eqb_spec (used s) PIPESIZE) as [Hf|Hf].
  { unfold wakeup_readers in H; cbn [bind modify] in H; rewrite prelease_run in H by apply Hi. injection H as <- <-.
    exists []. edestruct (unlocked s) as [H1 H2]; [done| | | | |split; [apply H1|split; [apply H2|]]]; try done.
    split_and!; (done || simpl; lia). }
  assert (Hu : used s < PIPESIZE) by (pose proof (pv_used _ _ Hi); lia).
  apply onu_run in H as (a & u & _ & H). assert (Hi' : pipe_inv Mine (set_pu u s)) by (destruct Hi; by split).
  destruct (negb a.2).
  { apply (finish_run killed k n) in H as (ws & H1 & H2%entered_pu & H3); [|done]. by exists ws. }
  generalize dependent (hd 0 a.1). intros ch H.
  cbn [bind modify] in H. apply IH in H as (ws & H1 & H2 & H3); [|by apply pipe_inv_push].
  exists (ch :: ws). split; [done|]. split; [by apply (entered_pu u), (entered_push ch)|].
  destruct r as [i'|r']; cbn [write_end length] in *.
  - destruct H3 as (-> & ?). split; [lia|done].
  - destruct H3 as [(-> & ?)|(-> & ? & ? & H3)]; [left; split; [lia|done]|right]. split_and!; try done.
    right. split_and!; try done. destruct H3 as [(-> & [H3|H3])|(_ & _ & H3)]; [|by exists (S k)|done].
    cbn in H3. congruence.
Qed.

(** The copy loop of piperead() takes bytes from the front. *)
Lemma piperead_loop_run fuel p addr n i s r s' :
  piperead_loop fuel p addr n i s = Ok r s' -> pipe_inv Mine s -> 0 <= i ->
  exists rs, pipe_inv Mine s' /\ hin s' = hin s /\ hout s' = hout s ++ rs /\ ring s = rs ++ ring s' /\
    readopen (pp s') = readopen (pp s) /\ writeopen (pp s') = writeopen (pp s) /\ rsleep s' = rsleep s /\
    (r = i + Z.of_nat (length rs) \/ (r = -1 /\ rs = [] /\ i = 0)).
Proof.
  revert i s. induction fuel as [|fuel IH]; intros i s; cbn [piperead_loop];
    destruct (Z.ltb_spec i n) as [Hin|Hin]; try (by intros [=]).
  1,3: intros [= <- <-] Hi Hge; exists []; rewrite app_nil_r; split_and!; (done || (left; simpl; lia)).
  cbn [bind gets id]. intros H Hi Hge. rewrite empty_test in H by apply Hi.
  destruct (Z.eqb_spec (used s) 0) as [H0|H0].
  { injection H as <- <-. exists []. rewrite app_nil_r. split_and!; (done || (left; simpl; lia)). }
  assert (Hu : 0 < used s) by (pose proof (used_range s); lia).
  apply onu_run in H as (a & u & _ & H). assert (Hi' : pipe_inv Mine (set_pu u s)) by (destruct Hi; by split).
  destruct (a =? -1).
  { injection H as <- <-. exists []. rewrite app_nil_r. split_and!; try done.
    destruct (Z.eqb_spec i 0); [by right|left; simpl; lia]. }
  cbn [bind modify] in H. apply IH in H as (rs & H1 & H2 & H3 & H4 & H5 & H6 & H7 & H8); [|by apply pipe_inv_pop|lia].
  exists (front s :: rs). split_and!; try done.
  - rewrite H3. cbn. by rewrite <- app_assoc.
  - rewrite (ring_pop s) by done. change (ring (pop s)) with (ring (pop (set_pu u s))). by rewrite H4.
  - destruct H8 as [H8|(_ & _ & H8)]; [left; simpl; lia|lia].
Qed.

(** ** Interleavings *)

(** One segment of some process; [K] restricts how killed() may change
    during a segment. *)
Inductive pipe_step (K : (nat -> bool) -> Prop) : pst U -> pst U -> Prop :=
| st_write killed p addr n i r s s' : K killed -> pipewrite killed p addr n i s = Ok r s' -> pipe_step K s s'
| st_read killed p addr n r s s' : piperead killed p addr n s = Ok r s' -> pipe_step K s s'
| st_close w s s' : pipeclose w s = Ok tt s' -> pipe_step K s s'
| st_user u s : pipe_step K s (set_pu u s).

(** The pipe as pipealloc() makes it. *)
Definition new_pipe (data : list Z) (u : U) : pst U := Pst (Pipe Free data 0 0 true true) u false false false [] [].

Lemma pacquire_run {A} (k : M (pst U) A) s r s' :
  (pacquire ;; k) s = Ok r s' -> pi_lock (pp s) = Free -> k (set_plock Mine s) = Ok r s'.
Proof. unfold pacquire, lock_acquire, bind, gets, modify. intros H E. by rewrite E in H. Qed.

Lemma lock_inv s : pipe_inv Free s -> pipe_inv Mine (set_plock Mine s).
Proof. intros [H1 H2 H3 H4 H5 H6]. by split. Qed.

Lemma pipewrite_run killed p addr n i s r s' :
  pipewrite killed p addr n i s = Ok r s' -> pipe_inv Free s ->
  exists ws, pipe_inv Free s' /\ entered s s' ws /\ write_end killed 0 n i s ws r s'.
Proof.
  unfold pipewrite. intros H Hi. apply pacquire_run in H; [|apply Hi].
  apply pipewrite_loop_run in H as (ws & H1 & [] & H3); [|by apply lock_inv].
  exists ws. split; [done|]. split; [by split|exact H3].
Qed.

(** A segment of piperead() that ends with a result [>= 0] has taken that
    many bytes from the front. *)
Lemma piperead_run killed p addr n s r s' :
  piperead killed p addr n s = Ok r s' -> pipe_inv Free s ->
  exists rs, pipe_inv Free s' /\ hin s' = hin s /\ hout s' = hout s ++ rs /\ ring s = rs ++ ring s' /\
    readopen (pp s') = readopen (pp s) /\ writeopen (pp s') = writeopen (pp s) /\
    match r with
    | Slept i => rs = [] /\ ring s = [] /\ writeopen (pp s) = true /\ rsleep s' = true /\ wsleep s' = wsleep s
    | Done v => (v = -1 /\ rs = [] /\ rsleep s' = rsleep s /\ (wsleep s' = wsleep s \/ wsleep s' = false)) \/
        (v = Z.of_nat (length rs) /\ rsleep s' = rsleep s /\ wsleep s' = false)
    end.
Proof.
  unfold piperead. intros H Hi. apply pacquire_run in H; [|apply Hi]. apply lock_inv in Hi.
  set (s1 := set_plock Mine s) in *. cbn [bind gets id] in H. rewrite empty_test in H by apply Hi.
  destruct ((used s1 =? 0) && writeopen (pp s1)) eqn:E.
  - apply andb_true_iff in E as [E%Z.eqb_eq Ew].
    assert (E0 : ring s = []) by (apply nil_length_inv; pose proof (length_ring s1); change (ring s) with (ring s1); lia).
    destruct killed; [|cbn [bind modify] in H]; rewrite prelease_run in H by apply Hi; injection H as <- <-; exists [];
      (edestruct (unlocked s1) as [H1 _]; [exact Hi| | | | |split; [exact H1|]]; try done);
      rewrite app_nil_r; split_and!; try done. left. auto.
  - unfold bind in H at 1. destruct (piperead_loop _ _ _ _ _ s1) as [v s2| | |] eqn:El; try done.
    apply piperead_loop_run in El as (rs & H1 & H2 & H3 & H4 & H5 & H6 & H7 & H8); [|done|done].
    unfold wakeup_writers in H. cbn [bind modify] in H. rewrite prelease_run in H by apply H1. injection H as <- <-.
    exists rs. edestruct (unlocked s2) as [Hf _]; [exact H1| | | | |split; [exact Hf|]]; try done. split_and!; try done.
    destruct H8 as [->|(-> & -> & _)]; [right; split_and!; try done; lia|left; split_and!; try done; by right].
Qed.

Lemma pipeclose_run w s s' : pipeclose w s = Ok tt s' -> pipe_inv Free s ->
  pipe_inv Free s' /\ hin s' = hin s /\ hout s' = hout s /\ ring s' = ring s /\
  readopen (pp s') = (readopen (pp s) && w) /\ writeopen (pp s') = (writeopen (pp s) && negb w) /\
  rsleep s' = (if w then false else rsleep s) /\ wsleep s' = (if w then wsleep s else false).
Proof.
  unfold pipeclose. intros H Hi. apply pacquire_run in H; [|apply Hi]. pose proof Hi as [H1 H2 H3 H4 H5 H6].
  unfold wakeup_readers, wakeup_writers in H.
  assert (Hx : forall s2, pi_lock (pp s2) = Mine ->
    (if negb (readopen (pp s2)) && negb (writeopen (pp s2)) then prelease ;; modify set_pfreed else prelease) s2 = Ok tt s' ->
    s' = set_plock Free s2 \/ s' = set_pfreed (set_plock Free s2)).
  { intros s2 Hl. destruct (negb _ && negb _); [rewrite prelease_run by done; intros [= <-]; auto|].
    unfold prelease, lock_release, bind, gets, modify. cbn beta. rewrite Hl. intros [= <-]. auto. }
  destruct w; cbn [bind modify gets id] in H; apply Hx in H as [-> | ->]; try done;
    rewrite ?andb_true_r, ?andb_false_r; split_and!; try done; by split.
Qed.


Lemma pipe_step_inv K s s' : pipe_step K s s' -> pipe_inv Free s -> pipe_inv Free s'.
Proof.
  intros Hs Hi. destruct Hs as [killed p addr n i r s s' _ H|killed p addr n r s s' H|w s s' H|u s].
  - by apply pipewrite_run in H as (ws & H & _).
  - by apply piperead_run in H as (rs & H & _).
  - by apply pipeclose_run in H as (H & _).
  - destruct Hi. by split.
Qed.

Definition steady (killed : nat -> bool) : Prop := forall k, killed k = killed 0%nat.

Lemma awake_step s s' : pipe_step steady s s' -> pipe_inv Free s -> awake_inv s -> awake_inv s'.
Proof.
  intros Hs Hi [Ar Aw]. destruct Hs as [killed p addr n i r s s' HK H|killed p addr n r s s' H|w s s' H|u s].
  - apply pipewrite_run in H as (ws & Hi' & [E1 E2 E3 (E4 & E5 & _)] & He); [|done].
    assert (Hfull : wsleep s = true -> pipe_inv Free s' -> ws = []).
    { intros Hw Hp. destruct (Aw Hw) as [Hl _]. pose proof (length_ring s') as L. pose proof (pv_used _ _ Hp).
      apply (f_equal length) in E3. rewrite length_app in E3. apply nil_length_inv. lia. }
    destruct r as [i'|v]; cbn [write_end] in He.
    + destruct He as (_ & _ & Hu & Ho & Hr & Hw). split; [by rewrite Hr|]. intros _. by rewrite length_ring.
    + destruct He as [(_ & Hr & Hw)|(_ & Hr & Hw & He)].
      * split; [by rewrite Hr|]. rewrite Hw, E4, E3. intros H. rewrite (Hfull H Hi'), app_nil_r. auto.
      * destruct He as [(-> & _)|(_ & Hk & j & Hj)]; [|rewrite HK in Hj; congruence].
        split; rewrite ?Hr, ?Hw, ?E4, ?E5, E3, app_nil_r; auto.
  - apply piperead_run in H as (rs & Hi' & E1 & E2 & E3 & E4 & E5 & He); [|done].
    assert (Hemp : ring s = [] -> rs = [] /\ ring s' = []) by (intros H0; rewrite H0 in E3; by symmetry in E3; apply app_nil in E3 as [-> ->]).
    destruct r as [i'|v].
    + destruct He as (-> & Hr & Ho & Hs & Hw). simpl in E3. split; [by rewrite <- E3, E5|]. rewrite Hw, E4, <- E3. auto.
    + destruct He as [(_ & -> & Hr & Hw)|(_ & Hr & Hw)]; simpl in *.
      * split; [rewrite Hr, E5, <- E3; auto|]. destruct Hw as [-> | ->]; [|done]. rewrite E4, <- E3. auto.
      * split; [|by rewrite Hw]. rewrite Hr, E5. intros H. destruct (Ar H) as [H0 ?]. by destruct (Hemp H0) as [_ ?].
  - apply pipeclose_run in H as (Hi' & E1 & E2 & E3 & E4 & E5 & E6 & E7); [|done].
    split; destruct w; rewrite ?E6, ?E7, ?E3, ?E4, ?E5, ?andb_true_r; auto; done.
  - by split.
Qed.

Lemma new_pipe_inv data u : Z.of_nat (length data) = PIPESIZE -> pipe_inv Free (new_pipe data u).
Proof. intros H. by split. Qed.

Lemma pipe_reach K s0 s : rtc (pipe_step K) s0 s -> pipe_inv Free s0 -> pipe_inv Free s.
Proof. induction 1 as [|x y z H _ IH]; [done|]. intros Hi. by eapply IH, pipe_step_inv. Qed.


(** No wakeup is lost.  In every reachable state, a process that sleeps
    in piperead() finds the pipe empty with a writer left, and one that
    sleeps in pipewrite() finds it full with a reader left: any segment
    that changes this has called wakeup().  killed() is taken not to change
    while a writer holds the lock. *)
Theorem pipe_no_lost_wakeup data u s :
  Z.of_nat (length data) = PIPESIZE -> rtc (pipe_step steady) (new_pipe data u) s ->
  (rsleep s = true -> ring s = [] /\ writeopen (pp s) = true) /\
  (wsleep s = true -> Z.of_nat (length (ring s)) = PIPESIZE /\ readopen (pp s) = true).
Proof.
  intros Hd Hr. assert (H : awake_inv s /\ pipe_inv Free s); [|by destruct H as [[] _]].
  assert (Ha : awake_inv (new_pipe data u)) by (by split).
  pose proof (new_pipe_inv data u Hd) as Hi. revert Ha Hi. induction Hr as [|x y z Hs _ IH]; [done|].
  intros Ha Hi. apply IH; [by apply (awake_step x)|by apply (pipe_step_inv steady x)].
Qed.

(** ** What pipewrite() takes from the writer's memory *)

Context `{UO : !UserMemOk U P}.

Lemma stop_ok p a s s' : um_inv p (pu s') -> hin s' = hin s ->
  um_inv p (pu s') /\ exists ws, hin s' = hin s ++ ws /\
    forall j, (j < length ws)%nat -> um_view p (pu s) (a + Z.of_nat j) = ws !! j.
Proof. intros Hu ->. split; [done|]. exists []. split; [by rewrite app_nil_r|]. simpl. lia. Qed.

Lemma pipewrite_loop_ok fuel killed k p addr n i s :
  pi_lock (pp s) = Mine -> um_inv p (pu s) -> 0 <= addr -> 0 <= i -> addr + n < 2 ^ 64 -> n - i <= Z.of_nat fuel ->
  wp (pipewrite_loop fuel killed k p addr n i) (fun r s' => um_inv p (pu s') /\ exists ws, hin s' = hin s ++ ws /\
    forall j, (j < length ws)%nat -> um_view p (pu s) (addr + i + Z.of_nat j) = ws !! j) s.
Proof.
  intros Hl Hu Ha Hi Hn Hf. revert k i s Hl Hu Hi Hf. induction fuel as [|fuel IH]; intros k i s Hl Hu Hi Hf;
    cbn [pipewrite_loop]; unfold wakeup_readers; destruct (Z.ltb_spec i n); try lia.
  1,3: wp_simp; apply wp_lock_release; [done|]; wp_simp; by apply stop_ok.
  wp_simp. cbn [id]. destruct (negb _ || _).
  { wp_simp. apply wp_lock_release; [done|]. wp_simp. by apply stop_ok. }
  destruct (_ =? _).
  { wp_simp. apply wp_lock_release; [done|]. wp_simp. by apply stop_ok. }
  unfold onu. wp_simp. rewrite u64_small by lia. eapply wp_mono; [apply um_in_ok; [done|lia|lia]|].
  intros [bs ok] u (Hu' & Hv & Hbs & Hlen). cbv beta. simpl in *. destruct ok; simpl.
  2: { wp_simp. apply wp_lock_release; [done|]. wp_simp. by apply stop_ok. }
  destruct bs as [|ch bs]; [simpl in Hlen; lia|]. simpl. wp_simp. eapply wp_mono; [apply IH; [done|done|lia|lia]|].
  intros r s' (H1 & ws & H2 & H3). split; [done|]. exists (ch :: ws). split; [rewrite H2; cbn; by rewrite <- app_assoc|].
  intros [|j] Hj.
  - rewrite Z.add_0_r. specialize (Hbs 0%nat). simpl in Hbs. rewrite Z.add_0_r in Hbs. apply Hbs. lia.
  - simpl in Hj. specialize (H3 j ltac:(lia)). change ((ch :: ws) !! S j) with (ws !! j). rewrite <- H3. cbn [push pu set_pu]. rewrite Hv. f_equal. lia.
Qed.

(** A segment of pipewrite() always comes to an end, and appends to the
    pipe bytes of the writer's memory, in order, from address [addr + i]
    on.  If it sleeps the pipe is full and it goes on later at the byte it
    stopped at; if it returns the count, that is how far it came; it
    returns -1 only when no reader is left or the process is killed. *)
Theorem pipewrite_correct killed p addr n i s :
  pipe_inv Free s -> um_inv p (pu s) -> 0 <= addr -> 0 <= i -> addr + n < 2 ^ 64 ->
  wp (pipewrite killed p addr n i) (fun r s' => exists ws,
    pipe_inv Free s' /\ um_inv p (pu s') /\ ring s' = ring s ++ ws /\
    (forall j, (j < length ws)%nat -> um_view p (pu s) (addr + i + Z.of_nat j) = ws !! j) /\
    match r with
    | Slept i' => i' = i + Z.of_nat (length ws) /\ i' < n /\ Z.of_nat (length (ring s')) = PIPESIZE /\ wsleep s' = true
    | Done v => (v = i + Z.of_nat (length ws) /\ rsleep s' = false) \/
        (v = -1 /\ (readopen (pp s) = false \/ exists k, killed k = true))
    end) s.
Proof.
  intros Hinv Hu Ha Hi Hn.
  assert (W : wp (pipewrite killed p addr n i) (fun r s' => um_inv p (pu s') /\ exists ws, hin s' = hin s ++ ws /\
    forall j, (j < length ws)%nat -> um_view p (pu s) (addr + i + Z.of_nat j) = ws !! j) s).
  { unfold pipewrite. wp_simp. apply wp_lock_acquire; [apply Hinv|].
    eapply wp_mono; [apply pipewrite_loop_ok; try done; lia|]. by intros r s'. }
  apply wp_ok in W as (r & s' & E & Hu' & ws & Ein & Hv). eapply wp_of_ok; [exact E|].
  apply pipewrite_run in E as (ws' & Hinv' & [E1 E2 E3 E4] & He); [|done].
  rewrite Ein in E1. apply app_inv_head in E1 as <-. exists ws. split_and!; try done.
  destruct r as [i'|v]; cbn [write_end] in He.
  - rewrite length_ring. naive_solver.
  - destruct He as [(-> & ? & _)|(-> & _ & _ & [(_ & [?|?])|(_ & _ & ?)])]; [by left|right..]; split; eauto.
Qed.

End pipe.

(** ** Examples *)

Definition demo_pipe : pst mem := new_pipe (replicate 512 0) (st_bytes ∅ 100 [104; 105; 33]).

Lemma demo_pipe_step K : K (fun _ => false) -> exists s, rtc (pipe_step (P := unit) K) demo_pipe s /\ ring s = [104; 105; 33].
Proof.
  intros HK. eexists. split; [eapply rtc_once, (st_write K (fun _ => false) tt 100 3 0 (Done 3)); [exact HK|vm_compute; reflexivity]|].
  vm_compute. reflexivity.
Qed.


Lemma pipe_no_lost_wakeup_witness : exists s, rtc (pipe_step (P := unit) steady) demo_pipe s /\
  (rsleep s = true -> ring s = [] /\ writeopen (pp s) = true).
Proof.
  destruct (demo_pipe_step steady (fun _ => eq_refl)) as (s & Hr & _). exists s. split; [exact Hr|].
  exact (proj1 (pipe_no_lost_wakeup (replicate 512 0) _ s ltac:(reflexivity) Hr)).
Defined.

Lemma pipewrite_correct_witness : wp (pipewrite (fun _ => false) tt 100 3 0) (fun _ s' => pipe_inv Free s') demo_pipe.
Proof.
  eapply wp_mono; [apply (pipewrite_correct (fun _ => false) tt 100 3 0 demo_pipe); [by apply new_pipe_inv|exact I|lia|lia|lia]|].
  intros r s' (ws & H & _). exact H.
Defined.

(** killed() is tested in every iteration, without the pipe's lock: a writer
    killed after it has put a byte in returns -1 without wakeup(), and a
    reader stays asleep although the pipe is not empty. *)
Lemma pipe_kill_loses_wakeup :
  wp (let! r1 := piperead (P := unit) false tt 0 1 in
      let! r2 := pipewrite (fun k => (0 <? Z.of_nat k)) tt 100 3 0 in ret (r1, r2))
    (fun r s => r = (Slept 0, Done (-1)) /\ rsleep s = true /\ ring s = [104]) demo_pipe.
Proof. vm_compute. repeat split. Qed.
