(* ===== verification/Console.v ===== *)
(** The console's input discipline, kernel/console.c.

    Characters arrive from the UART in consoleintr(), which edits the line
    being typed and commits it when it is complete; consoleread() hands
    committed bytes to processes.  As in Pipe, a call that sleeps is a
    sequence of segments under cons.lock.  What is sent to the UART is
    recorded in [c_out]. *)
From S2P Require Import Prelude Mem UserMem Pipe.

Definition INPUT_BUF_SIZE : Z := 128.
Definition BACKSPACE : Z := 0x100.
Definition NL : Z := 10.
Definition CTRL_D : Z := 4.
Definition CTRL_H : Z := 8.
Definition CTRL_P : Z := 16.
Definition CTRL_U : Z := 21.
Definition DEL : Z := 127.

Record cons := Cons { c_lock : lockst; c_buf : list Z; c_r : Z; c_w : Z; c_e : Z }.
(** The console; the memory of the processes; whether some process sleeps on
    [&cons.r]; the bytes sent to the UART. *)
Record cst (U : Type) := Cst { cc : cons; cu : U; c_sleep : bool; c_out : list Z }.
Arguments Cst {U}. Arguments cc {U}. Arguments cu {U}. Arguments c_sleep {U}. Arguments c_out {U}.

Section console.
Context {U P : Type} `{UM : UserMem U P}.
Implicit Types s : cst U.

Definition on_cons (f : cons -> cons) s : cst U := Cst (f (cc s)) (cu s) (c_sleep s) (c_out s).
Definition set_clock l := on_cons (fun c => Cons l (c_buf c) (c_r c) (c_w c) (c_e c)).
Definition set_cr r := on_cons (fun c => Cons (c_lock c) (c_buf c) r (c_w c) (c_e c)).
Definition set_cw w := on_cons (fun c => Cons (c_lock c) (c_buf c) (c_r c) w (c_e c)).
Definition set_ce e := on_cons (fun c => Cons (c_lock c) (c_buf c) (c_r c) (c_w c) e).
Definition set_cbuf b := on_cons (fun c => Cons (c_lock c) b (c_r c) (c_w c) (c_e c)).
Definition set_cu u s : cst U := Cst (cc s) u (c_sleep s) (c_out s).
Definition set_csleep b s : cst U := Cst (cc s) (cu s) b (c_out s).
Definition emit (bs : list Z) s : cst U := Cst (cc s) (cu s) (c_sleep s) (c_out s ++ bs).

Definition cacquire : M (cst U) unit := lock_acquire (fun s => c_lock (cc s)) set_clock.
Definition crelease : M (cst U) unit := lock_release (fun s => c_lock (cc s)) set_clock.
Definition oncu {A} (m : M U A) : M (cst U) A := zoom cu set_cu m.
Definition buf_at (i : Z) s : Z := default 0 (c_buf (cc s) !! Z.to_nat (i mod INPUT_BUF_SIZE)).

(** * Operations *)

Definition consputc (c : Z) : M (cst U) unit :=
  if c =? BACKSPACE then modify (emit [CTRL_H; 32; CTRL_H]) else modify (emit [u8 c]).

(** The loop of Control-U. *)
Fixpoint kill_line (fuel : nat) : M (cst U) unit :=
  let! s := gets id in
  if negb (c_e (cc s) =? c_w (cc s)) && negb (buf_at (u32 (c_e (cc s) - 1)) s =? NL) then
    match fuel with
    | O => nofuel
    | S fuel => modify (set_ce (u32 (c_e (cc s) - 1))) ;; consputc BACKSPACE ;; kill_line fuel
    end
  else ret tt.

(** [dump]: what procdump() prints. *)
Definition consoleintr (dump : list Z) (c : Z) : M (cst U) unit :=
  cacquire ;;
  let! s := gets id in
  (if c =? CTRL_P then modify (emit dump)
   else if c =? CTRL_U then kill_line (Z.to_nat INPUT_BUF_SIZE)
   else if (c =? CTRL_H) || (c =? DEL) then
     if negb (c_e (cc s) =? c_w (cc s)) then modify (set_ce (u32 (c_e (cc s) - 1))) ;; consputc BACKSPACE else ret tt
   else if negb (c =? 0) && (u32 (c_e (cc s) - c_r (cc s)) <? INPUT_BUF_SIZE) then
     let c := if c =? 13 then NL else c in
     consputc c ;;
     modify (fun s => set_cbuf (<[Z.to_nat (c_e (cc s) mod INPUT_BUF_SIZE) := c]> (c_buf (cc s))) s) ;;
     modify (fun s => set_ce (u32 (c_e (cc s) + 1)) s) ;;
     let! s := gets id in
     if (c =? NL) || (c =? CTRL_D) || (u32 (c_e (cc s) - c_r (cc s)) =? INPUT_BUF_SIZE) then
       modify (set_cw (c_e (cc s))) ;; modify (set_csleep false)
     else ret tt
   else ret tt) ;;
  crelease.

(** consoleread() from the point where [n] bytes of [target] are still
    wanted; [dst] is where the first one went. *)
Fixpoint consoleread_loop (fuel : nat) (killed : bool) (p : P) (dst target n : Z) : M (cst U) seg_res :=
  if 0 <? n then
    match fuel with
    | O => nofuel
    | S fuel =>
        let! s := gets id in
        if c_r (cc s) =? c_w (cc s) then
          if killed then crelease ;; ret (Done (-1))
          else modify (set_csleep true) ;; crelease ;; ret (Slept n)
        else
          let c := buf_at (c_r (cc s)) s in
          modify (set_cr (u32 (c_r (cc s) + 1))) ;;
          if c =? CTRL_D then
            (if n <? target then modify (fun s => set_cr (u32 (c_r (cc s) - 1)) s) else ret tt) ;;
            crelease ;; ret (Done (target - n))
          else
            let! r := oncu (um_out p (u64 (dst + (target - n))) [c]) in
            if r =? -1 then ret (Done (-1))
            else if c =? NL then crelease ;; ret (Done (target - (n - 1)))
            else consoleread_loop fuel killed p dst target (n - 1)
    end
  else crelease ;; ret (Done (target - n)).
Definition consoleread (killed : bool) (p : P) (dst target n : Z) : M (cst U) seg_res :=
  cacquire ;; consoleread_loop (Z.to_nat n) killed p dst target n.

(** consolewrite(), with [i] bytes sent; uartwrite() is the bytes going out. *)
Fixpoint consolewrite_loop (fuel : nat) (p : P) (src n i : Z) : M (cst U) Z :=
  if i <? n then
    match fuel with
    | O => nofuel
    | S fuel =>
        let nn := if n - i <? 32 then n - i else 32 in
        let! r := oncu (um_in p (u64 (src + i)) nn) in
        if negb r.2 then ret (-1)
        else modify (emit r.1) ;; consolewrite_loop fuel p src n (i + nn)
    end
  else ret i.
Definition consolewrite (p : P) (src n : Z) : M (cst U) Z := consolewrite_loop (Z.to_nat n) p src n 0.

End console.

(** * The line editor, abstractly *)

(** Committed bytes that nobody has read, and the line being typed. *)
Record editor := Ed { ed_lines : list Z; ed_cur : list Z }.
Definition ed_room (x : editor) : Z := INPUT_BUF_SIZE - Z.of_nat (length (ed_lines x) + length (ed_cur x)).
Definition ed_type (c : Z) (x : editor) : editor :=
  if c =? CTRL_P then x
  else if c =? CTRL_U then Ed (ed_lines x) []
  else if (c =? CTRL_H) || (c =? DEL) then Ed (ed_lines x) (take (length (ed_cur x) - 1) (ed_cur x))
  else if negb (c =? 0) && (0 <? ed_room x) then
    let c := if c =? 13 then NL else c in
    if (c =? NL) || (c =? CTRL_D) || (ed_room x =? 1) then Ed (ed_lines x ++ ed_cur x ++ [c]) [] else Ed (ed_lines x) (ed_cur x ++ [c])
  else x.

(** What a read of [n] bytes takes from the committed bytes: the bytes, what
    is left, and whether it has to wait for more; [fresh] if it has none yet. *)
Fixpoint ed_read (n : nat) (fresh : bool) (l : list Z) : list Z * list Z * bool :=
  match n with
  | O => ([], l, false)
  | S n =>
      match l with
      | [] => ([], [], true)
      | c :: l' =>
          if c =? CTRL_D then ([], if fresh then l' else l, false)
          else if c =? NL then ([c], l', false)
          else let '(bs, rest, wait) := ed_read n false l' in (c :: bs, rest, wait)
      end
  end.

Section proofs.
Context {U P : Type} `{UM : UserMem U P}.
Implicit Types s : cst U.

(** * The ring *)

(** The bytes from [r] to [e], and how many of them are committed. *)
Definition committed s : Z := u32 (c_w (cc s) - c_r (cc s)).
Definition stored s : Z := u32 (c_e (cc s) - c_r (cc s)).
Definition cring s : list Z := (fun j => buf_at (c_r (cc s) + Z.of_nat j) s) <$> seq 0 (Z.to_nat (stored s)).
Definition ed_of s : editor := Ed (take (Z.to_nat (committed s)) (cring s)) (drop (Z.to_nat (committed s)) (cring s)).

Record cons_inv (l : lockst) s : Prop := {
  ci_lock : c_lock (cc s) = l;
  ci_buf : Z.of_nat (length (c_buf (cc s))) = INPUT_BUF_SIZE;
  ci_bytes : byte_list (c_buf (cc s));
  ci_range : 0 <= c_r (cc s) < 2 ^ 32 /\ 0 <= c_w (cc s) < 2 ^ 32 /\ 0 <= c_e (cc s) < 2 ^ 32;
  ci_order : committed s <= stored s <= INPUT_BUF_SIZE;
  ci_cur : NL ∉ ed_cur (ed_of s)
}.

Lemma length_cring s : Z.of_nat (length (cring s)) = stored s.
Proof. unfold cring, stored. rewrite length_fmap, length_seq. pose proof (u32_range (c_e (cc s) - c_r (cc s))). lia. Qed.
Lemma buf_mod a : u32 a mod INPUT_BUF_SIZE = a mod INPUT_BUF_SIZE.
Proof.
  unfold u32, INPUT_BUF_SIZE. change (2 ^ 32) with (128 * 2 ^ 25). rewrite Z.rem_mul_r, Z.mul_comm, Z.mod_add, Z.mod_mod by lia. done.
Qed.
Lemma u32_sub a b c : u32 (u32 (a + c) - b) = u32 (u32 (a - b) + c).
Proof.
  unfold u32. rewrite Zminus_mod_idemp_l, Zplus_mod_idemp_l. f_equal. lia.
Qed.
Lemma u32_sub_r a b c : u32 (a - u32 (b + c)) = u32 (u32 (a - b) - c).
Proof. unfold u32. rewrite Zminus_mod_idemp_r, Zminus_mod_idemp_l. f_equal. lia. Qed.
Lemma u32_eq0 a b : 0 <= a < 2 ^ 32 -> 0 <= b < 2 ^ 32 -> (a =? b) = (u32 (a - b) =? 0).
Proof.
  intros Ha Hb. unfold u32. apply eq_iff_eq_true. rewrite !Z.eqb_eq. pose proof (Z.div_mod (a - b) (2 ^ 32) ltac:(lia)).
  pose proof (Z.mod_pos_bound (a - b) (2 ^ 32) ltac:(lia)). split; intros; lia.
Qed.
(** The distance from [w] to [e]. *)
Lemma pending s : committed s <= stored s -> u32 (c_e (cc s) - c_w (cc s)) = stored s - committed s.
Proof.
  unfold committed, stored. intros H. pose proof (u32_range (c_w (cc s) - c_r (cc s))). pose proof (u32_range (c_e (cc s) - c_r (cc s))).
  rewrite <- (u32_small (u32 (c_e (cc s) - c_r (cc s)) - u32 (c_w (cc s) - c_r (cc s)))) by lia. unfold u32. rewrite Zminus_mod_idemp_l, Zminus_mod_idemp_r. f_equal. lia.
Qed.
Lemma buf_at_index i j s : i mod INPUT_BUF_SIZE = j mod INPUT_BUF_SIZE -> buf_at i s = buf_at j s.
Proof. intros H. unfold buf_at. by rewrite H. Qed.

(** ** Typing *)

Definition put_char (c : Z) s : cst U :=
  set_ce (u32 (c_e (cc s) + 1)) (set_cbuf (<[Z.to_nat (c_e (cc s) mod INPUT_BUF_SIZE) := c]> (c_buf (cc s))) s).

Lemma stored_put c s : stored s < INPUT_BUF_SIZE -> stored (put_char c s) = stored s + 1.
Proof.
  intros H. unfold stored in *. cbn. rewrite u32_sub. pose proof (u32_range (c_e (cc s) - c_r (cc s))). apply u32_small. unfold INPUT_BUF_SIZE in *. lia.
Qed.
Lemma end_slot s : (c_r (cc s) + stored s) mod INPUT_BUF_SIZE = c_e (cc s) mod INPUT_BUF_SIZE.
Proof. unfold stored. rewrite <- Zplus_mod_idemp_r, buf_mod, Zplus_mod_idemp_r. f_equal. lia. Qed.
Lemma cring_put c s : Z.of_nat (length (c_buf (cc s))) = INPUT_BUF_SIZE -> stored s < INPUT_BUF_SIZE -> cring (put_char c s) = cring s ++ [c].
Proof.
  intros Hlen Hs. unfold cring. rewrite stored_put by done. pose proof (u32_range (c_e (cc s) - c_r (cc s))) as H0. fold (stored s) in H0.
  replace (Z.to_nat (stored s + 1)) with (Z.to_nat (stored s) + 1)%nat by lia. rewrite seq_app, fmap_app. cbn [seq fmap list_fmap Nat.add].
  assert (Bd : forall x, 0 <= x mod INPUT_BUF_SIZE < INPUT_BUF_SIZE) by (intros x; by apply Z.mod_pos_bound). f_equal.
  - apply list_fmap_ext. intros i k Hk. apply lookup_seq in Hk as [-> Hk]. unfold buf_at, put_char. cbn.
    rewrite list_lookup_insert_ne; [done|]. rewrite <- end_slot. intros E. apply Z2Nat.inj in E; [|apply Bd..].
    unfold INPUT_BUF_SIZE in *. pose proof (Z.div_mod (c_r (cc s) + stored s) 128 ltac:(lia)). pose proof (Z.div_mod (c_r (cc s) + Z.of_nat i) 128 ltac:(lia)). lia.
  - f_equal. unfold buf_at, put_char. cbn. rewrite Z2Nat.id by lia. rewrite end_slot. rewrite list_lookup_insert_eq; [done|].
    pose proof (Bd (c_e (cc s))). lia.
Qed.
Lemma committed_put c s : committed (put_char c s) = committed s.
Proof. done. Qed.

(** ** Erasing *)

Lemma stored_erase s : 0 < stored s -> stored (set_ce (u32 (c_e (cc s) - 1)) s) = stored s - 1.
Proof.
  intros H. unfold stored in *. cbn. replace (c_e (cc s) - 1) with (c_e (cc s) + -1) by lia. rewrite u32_sub. pose proof (u32_range (c_e (cc s) - c_r (cc s))).
  rewrite u32_small by lia. lia.
Qed.
Lemma cring_erase s : 0 < stored s -> cring (set_ce (u32 (c_e (cc s) - 1)) s) = take (length (cring s) - 1) (cring s).
Proof.
  intros H. pose proof (length_cring s) as Hl. unfold cring at 1. rewrite stored_erase by done. unfold cring. rewrite <- fmap_take, take_seq. rewrite length_fmap, length_seq.
  replace (Init.Nat.min _ _) with (Z.to_nat (stored s - 1)) by lia. done.
Qed.
Lemma last_slot s : 0 < stored s -> buf_at (u32 (c_e (cc s) - 1)) s = default 0 (cring s !! (length (cring s) - 1)%nat).
Proof.
  intros H. pose proof (length_cring s) as Hl. set (k := (length (cring s) - 1)%nat). assert (Hk : Z.of_nat k = stored s - 1) by lia. clearbody k.
  unfold cring. rewrite list_lookup_fmap, lookup_seq_lt by lia. cbn. apply buf_at_index. rewrite buf_mod, Hk.
  rewrite Z.add_sub_assoc. rewrite <- (Zminus_mod_idemp_l (c_r (cc s) + stored s)), end_slot, Zminus_mod_idemp_l. done.
Qed.

(** * consoleintr *)

Lemma committed_range s : 0 <= committed s.
Proof. apply u32_range. Qed.
Lemma split_len s : cons_inv Mine s -> Z.of_nat (length (ed_lines (ed_of s))) = committed s /\ Z.of_nat (length (ed_cur (ed_of s))) = stored s - committed s.
Proof.
  intros Hi. pose proof (length_cring s). pose proof (committed_range s). pose proof (ci_order _ _ Hi). cbn. rewrite length_take, length_drop. lia.
Qed.
Lemma ed_room_of s : cons_inv Mine s -> ed_room (ed_of s) = INPUT_BUF_SIZE - stored s.
Proof. intros Hi. destruct (split_len s Hi). unfold ed_room. lia. Qed.

Lemma erase_ok s : cons_inv Mine s -> committed s < stored s -> let s' := set_ce (u32 (c_e (cc s) - 1)) s in
  cons_inv Mine s' /\ ed_of s' = Ed (ed_lines (ed_of s)) (take (length (ed_cur (ed_of s)) - 1) (ed_cur (ed_of s))).
Proof.
  intros Hi Hlt s'. pose proof (committed_range s) as H0. destruct (split_len s Hi) as [_ Hc]. pose proof (length_cring s) as Hl.
  assert (E : ed_of s' = Ed (ed_lines (ed_of s)) (take (length (ed_cur (ed_of s)) - 1) (ed_cur (ed_of s)))).
  { unfold ed_of, s'. rewrite cring_erase by lia. change (committed (set_ce _ s)) with (committed s). cbn [ed_lines ed_cur] in *. rewrite length_drop in *.
    rewrite take_take, Nat.min_l by lia. f_equal. rewrite skipn_firstn_comm. f_equal. lia. }
  split; [|done]. destruct Hi as [H1 H2 Hb H3 H4 H5]. split; try done.
  - cbn. split; [apply H3|]. split; [apply H3|apply u32_range].
  - unfold s'. rewrite stored_erase by lia. change (committed (set_ce _ s)) with (committed s). lia.
  - rewrite E. cbn [ed_cur]. intros Hin. apply H5. apply elem_of_take in Hin as (j & Hj & _). by eapply list_elem_of_lookup_2.
Qed.

Lemma kill_line_spec fuel s : cons_inv Mine s -> stored s - committed s <= Z.of_nat fuel ->
  wp (kill_line fuel) (fun _ s' => cons_inv Mine s' /\ ed_of s' = Ed (ed_lines (ed_of s)) [] /\ cu s' = cu s /\ c_sleep s' = c_sleep s) s.
Proof.
  revert s. induction fuel as [|fuel IH]; intros s Hi Hf; cbn [kill_line]; rewrite wp_bind, wp_gets; change (id s) with s;
    rewrite u32_eq0 by apply Hi; rewrite pending by apply Hi; destruct (split_len s Hi) as [_ Hc]; pose proof (ci_order _ _ Hi) as Ho;
    destruct (Z.eqb_spec (stored s - committed s) 0) as [E|E]; cbn [negb andb]; try lia.
  1,2: rewrite wp_ret; split; [done|]; split; [|done]; destruct (ed_of s) as [l c]; cbn in *; destruct c; [done|cbn in Hc; lia].
  pose proof (length_cring s) as Hl. pose proof (committed_range s) as H0. rewrite last_slot by lia.
  assert (Hne : (default 0 (cring s !! (length (cring s) - 1)%nat) =? NL) = false).
  { apply Z.eqb_neq. intros EN. apply (ci_cur _ _ Hi). destruct (lookup_lt_is_Some_2 (cring s) (length (cring s) - 1)) as [x Hx]; [lia|].
    rewrite Hx in EN. cbn in EN. subst x. cbn [ed_of ed_cur]. eapply (list_elem_of_lookup_2 _ (length (cring s) - 1 - Z.to_nat (committed s))).
    rewrite lookup_drop. rewrite <- Hx. f_equal. lia. }
  rewrite Hne. cbn [negb]. unfold consputc. change (BACKSPACE =? BACKSPACE) with true. wp_simp.
  destruct (erase_ok s Hi ltac:(lia)) as [Hi' E']. set (s1 := set_ce _ s) in *.
  assert (He : cons_inv Mine (emit [CTRL_H; 32; CTRL_H] s1)) by (destruct Hi'; by split).
  eapply wp_mono; [apply IH; [exact He|]|].
  - change (stored (emit _ s1)) with (stored s1). change (committed (emit _ s1)) with (committed s). unfold s1. rewrite stored_erase by lia. lia.
  - intros ? s2 (H1 & H2 & H3 & H4). split; [done|]. split; [|done]. rewrite H2. change (ed_of (emit _ s1)) with (ed_of s1). by rewrite E'.
Qed.

Lemma put_ok c s : cons_inv Mine s -> stored s < INPUT_BUF_SIZE -> 0 <= c < 2 ^ 8 ->
  ed_of (put_char c s) = Ed (ed_lines (ed_of s)) (ed_cur (ed_of s) ++ [c]) /\ (c <> NL -> cons_inv Mine (put_char c s)) /\
  cons_inv Mine (set_cw (c_e (cc (put_char c s))) (put_char c s)) /\
  ed_of (set_cw (c_e (cc (put_char c s))) (put_char c s)) = Ed (ed_lines (ed_of s) ++ ed_cur (ed_of s) ++ [c]) [].
Proof.
  intros Hi Hs Hc8. pose proof (committed_range s) as H0. pose proof (length_cring s) as Hl. destruct (Hi) as [H1 H2 Hby H3 H4 H5].
  pose proof (cring_put c s H2 Hs) as Hr. pose proof (stored_put c s Hs) as Hst.
  assert (E : ed_of (put_char c s) = Ed (ed_lines (ed_of s)) (ed_cur (ed_of s) ++ [c])).
  { unfold ed_of. rewrite Hr, committed_put. cbn. by rewrite take_app_le, drop_app_le by lia. }
  assert (Hb : Z.of_nat (length (c_buf (cc (put_char c s)))) = INPUT_BUF_SIZE) by (cbn; by rewrite length_insert).
  assert (Hbl : byte_list (c_buf (cc (put_char c s)))) by (cbn; by apply Forall_insert).
  assert (Hrange : 0 <= c_r (cc (put_char c s)) < 2 ^ 32 /\ 0 <= c_w (cc (put_char c s)) < 2 ^ 32 /\ 0 <= c_e (cc (put_char c s)) < 2 ^ 32).
  { cbn. split; [apply H3|]. split; [apply H3|apply u32_range]. }
  set (t := put_char c s) in *. set (v := set_cw (c_e (cc t)) t).
  assert (Hv : committed v = stored v) by done. assert (Hrv : cring v = cring s ++ [c]) by exact Hr. assert (Hsv : stored v = stored s + 1) by exact Hst.
  assert (Ev : ed_of v = Ed (ed_lines (ed_of s) ++ ed_cur (ed_of s) ++ [c]) []).
  { unfold ed_of. rewrite Hrv, Hv, Hsv. cbn. rewrite take_ge, drop_ge by (rewrite length_app; cbn; lia). by rewrite app_assoc, take_drop. }
  split; [done|]. split; [|split; [|done]].
  - intros Hc. split; try done; [change (committed t) with (committed s); lia|]. rewrite E. cbn [ed_cur]. rewrite elem_of_app, list_elem_of_singleton. naive_solver.
  - split; try done; [cbn; split; [apply Hrange|]; split; apply Hrange|lia|]. rewrite Ev. by apply not_elem_of_nil.
Qed.

Lemma inv_lock l l' s : cons_inv l s -> cons_inv l' (set_clock l' s).
Proof. intros []. by split. Qed.
Lemma inv_emit l bs s : cons_inv l s -> cons_inv l (emit bs s).
Proof. intros []. by split. Qed.
Lemma inv_sleep l b s : cons_inv l s -> cons_inv l (set_csleep b s).
Proof. intros []. by split. Qed.

(** What a keystroke did, before the lock is released. *)
Definition keyed (c : Z) s s' : Prop := cons_inv Mine s' /\ ed_of s' = ed_type c (ed_of s) /\ cu s' = cu s /\
  (ed_lines (ed_of s') <> ed_lines (ed_of s) -> c_sleep s' = false).

Lemma type_char c s : cons_inv Mine s -> 0 <= c < 2 ^ 8 -> c <> CTRL_P -> c <> CTRL_U -> c <> CTRL_H -> c <> DEL -> c <> 0 -> stored s < INPUT_BUF_SIZE ->
  wp (let c := if c =? 13 then NL else c in
     consputc c ;;
     modify (fun s => set_cbuf (<[Z.to_nat (c_e (cc s) mod INPUT_BUF_SIZE) := c]> (c_buf (cc s))) s) ;;
     modify (fun s => set_ce (u32 (c_e (cc s) + 1)) s) ;;
     let! s := gets id in
     if (c =? NL) || (c =? CTRL_D) || (u32 (c_e (cc s) - c_r (cc s)) =? INPUT_BUF_SIZE) then
       modify (set_cw (c_e (cc s))) ;; modify (set_csleep false)
     else ret tt) (fun _ s' => keyed c s s') s.
Proof.
  intros Hi Hc N1 N2 N3 N4 N5 Hs. cbv zeta. unfold keyed, ed_type.
  rewrite (proj2 (Z.eqb_neq _ _) N1), (proj2 (Z.eqb_neq _ _) N2), (proj2 (Z.eqb_neq _ _) N3), (proj2 (Z.eqb_neq _ _) N4), (proj2 (Z.eqb_neq _ _) N5).
  rewrite ed_room_of by done. rewrite (proj2 (Z.ltb_lt 0 _)) by lia. cbn [orb negb andb]. cbv zeta. set (c' := if c =? 13 then NL else c).
  assert (Hc' : 0 <= c' < 2 ^ 8) by (unfold c', NL; destruct (c =? 13); lia). clearbody c'.
  unfold consputc. rewrite (proj2 (Z.eqb_neq c' BACKSPACE)) by (unfold BACKSPACE; lia). wp_simp. set (s0 := emit [u8 c'] s).
  destruct (put_ok c' s0 (inv_emit _ _ _ Hi) Hs Hc') as (E1 & K1 & K2 & E2). change (ed_of s0) with (ed_of s) in *.
  change (set_ce _ (set_cbuf _ s0)) with (put_char c' s0). change (id (put_char c' s0)) with (put_char c' s0). fold (stored (put_char c' s0)). rewrite (stored_put c' s0 Hs).
  change (stored s0) with (stored s). replace (stored s + 1 =? INPUT_BUF_SIZE) with (INPUT_BUF_SIZE - stored s =? 1) by (apply eq_iff_eq_true; rewrite !Z.eqb_eq; lia).
  destruct ((c' =? NL) || (c' =? CTRL_D) || (INPUT_BUF_SIZE - stored s =? 1)) eqn:Ec; wp_simp.
  - split; [by apply inv_sleep|]. split; [exact E2|]. done.
  - apply orb_false_iff in Ec as [[Ec _]%orb_false_iff _]. split; [apply K1; by apply Z.eqb_neq|]. rewrite E1. split; [done|]. split; done.
Qed.

Lemma consoleintr_ok dump c s : cons_inv Free s -> 0 <= c < 2 ^ 8 ->
  wp (consoleintr dump c) (fun _ s' => cons_inv Free s' /\ ed_of s' = ed_type c (ed_of s) /\ cu s' = cu s /\
    (ed_lines (ed_of s') <> ed_lines (ed_of s) -> c_sleep s' = false)) s.
Proof.
  intros Hi Hc. unfold consoleintr. rewrite wp_bind. apply wp_lock_acquire; [apply Hi|]. set (s1 := set_clock Mine s).
  assert (Hi1 : cons_inv Mine s1) by (by eapply inv_lock). change (ed_of s) with (ed_of s1). change (cu s) with (cu s1).
  rewrite wp_bind, wp_gets, wp_bind. change (id s1) with s1.
  eapply (wp_mono _ (fun _ s' => keyed c s1 s')).
  2:{ intros ? s2 (H1 & H2 & H3 & H4). apply wp_lock_release; [apply H1|]. split; [by eapply inv_lock|]. done. }
  destruct (Z.eqb_spec c CTRL_P) as [->|N1]; [wp_simp; split; [by apply inv_emit|]; done|].
  destruct (split_len s1 Hi1) as [_ Hcl]. pose proof (ci_order _ _ Hi1) as Ho. destruct (Z.eqb_spec c CTRL_U) as [->|N2].
  { eapply wp_mono; [apply kill_line_spec; [done|]|]. { pose proof (committed_range s1). unfold INPUT_BUF_SIZE in *. lia. }
    intros ? s2 (H1 & H2 & H3 & H4). split; [done|]. rewrite H2. split; [done|]. split; [done|]. done. }
  destruct ((c =? CTRL_H) || (c =? DEL)) eqn:N3.
  { rewrite u32_eq0 by apply Hi1. rewrite pending by apply Hi1. unfold keyed, ed_type. rewrite (proj2 (Z.eqb_neq _ _) N1), (proj2 (Z.eqb_neq _ _) N2), N3.
    destruct (Z.eqb_spec (stored s1 - committed s1) 0) as [E|E]; cbn [negb]; unfold consputc; change (BACKSPACE =? BACKSPACE) with true; wp_simp.
    - split; [done|]. split; [|done]. destruct (ed_of s1) as [l cur]; cbn in *. destruct cur; [done|cbn in Hcl; lia].
    - destruct (erase_ok s1 Hi1 ltac:(lia)) as [H1 H2]. split; [by apply inv_emit|]. change (ed_of (emit _ ?x)) with (ed_of x). rewrite H2. done. }
  apply orb_false_iff in N3 as [N3%Z.eqb_neq N4%Z.eqb_neq]. fold (stored s1).
  destruct (Z.eqb_spec c 0) as [->|N5]; cbn [negb andb]; [wp_simp; split; done|].
  destruct (Z.ltb_spec (stored s1) INPUT_BUF_SIZE) as [Hs|Hs]; [by apply type_char|].
  wp_simp. split; [done|]. unfold ed_type. rewrite (proj2 (Z.eqb_neq _ _) N1), (proj2 (Z.eqb_neq _ _) N2), (proj2 (Z.eqb_neq _ _) N3), (proj2 (Z.eqb_neq _ _) N4).
  rewrite ed_room_of by done. rewrite (proj2 (Z.ltb_ge 0 _)) by lia. by rewrite andb_false_r.
Qed.

(** C12: Every keystroke does to the console's ring buffer what it does to a line
    editor: printable characters are appended while there is room, backspace and
    Control-U erase only the line being typed, and a newline, Control-D or a full
    buffer commits the line and wakes the readers.  Nothing is lost when the
    counters wrap. *)
Theorem consoleintr_correct dump c s : cons_inv Free s -> 0 <= c < 2 ^ 8 ->
  wp (consoleintr dump c) (fun _ s' => cons_inv Free s' /\ ed_of s' = ed_type c (ed_of s) /\ cu s' = cu s /\
    (ed_lines (ed_of s') <> ed_lines (ed_of s) -> c_sleep s' = false)) s.
Proof. apply consoleintr_ok. Qed.

(** * consoleread *)

Definition pop s : cst U := set_cr (u32 (c_r (cc s) + 1)) s.

Lemma pop_counts s : 0 < committed s -> committed s <= stored s -> committed (pop s) = committed s - 1 /\ stored (pop s) = stored s - 1.
Proof.
  intros H1 H2. unfold committed, stored in *. cbn. rewrite !u32_sub_r. pose proof (u32_range (c_e (cc s) - c_r (cc s))).
  pose proof (u32_range (c_w (cc s) - c_r (cc s))). split; by rewrite u32_small by lia.
Qed.
Lemma cring_pop s : 0 < committed s -> committed s <= stored s -> cring s = buf_at (c_r (cc s)) s :: cring (pop s).
Proof.
  intros H1 H2. destruct (pop_counts s H1 H2) as [_ Hp]. unfold cring at 1. replace (Z.to_nat (stored s)) with (S (Z.to_nat (stored (pop s)))) by lia.
  cbn [seq]. rewrite fmap_cons. f_equal; [f_equal; lia|]. rewrite <- fmap_S_seq, <- list_fmap_compose. apply list_fmap_ext.
  intros i k _. change (buf_at _ (pop s)) with (buf_at (c_r (cc (pop s)) + Z.of_nat k) s). apply buf_at_index. cbn [compose].
  change (c_r (cc (pop s))) with (u32 (c_r (cc s) + 1)). rewrite <- (Zplus_mod_idemp_l (u32 _)), buf_mod, Zplus_mod_idemp_l. f_equal. lia.
Qed.
Lemma pop_ok s : cons_inv Mine s -> 0 < committed s ->
  cons_inv Mine (pop s) /\ ed_lines (ed_of s) = buf_at (c_r (cc s)) s :: ed_lines (ed_of (pop s)) /\ ed_cur (ed_of (pop s)) = ed_cur (ed_of s).
Proof.
  intros Hi Hc. destruct (Hi) as [H1 H2 Hb H3 H4 H5]. destruct (pop_counts s Hc ltac:(lia)) as [P1 P2]. pose proof (cring_pop s Hc ltac:(lia)) as P3.
  assert (E : ed_lines (ed_of s) = buf_at (c_r (cc s)) s :: ed_lines (ed_of (pop s)) /\ ed_cur (ed_of (pop s)) = ed_cur (ed_of s)).
  { unfold ed_of. cbn. rewrite P3, P1. replace (Z.to_nat (committed s)) with (S (Z.to_nat (committed s - 1))) by lia. done. }
  split; [|done]. split; try done.
  - cbn. split; [apply u32_range|]. split; apply H3.
  - lia.
  - by rewrite (proj2 E).
Qed.
Lemma unpop s : 0 <= c_r (cc s) < 2 ^ 32 -> set_cr (u32 (c_r (cc (pop s)) - 1)) (pop s) = s.
Proof.
  intros H. unfold pop. cbn. unfold u32 at 1. unfold u32. rewrite Zminus_mod_idemp_l, Z.add_simpl_r, Z.mod_small by lia. by destruct s as [[]].
Qed.
Lemma buf_at_byte l i s : cons_inv l s -> 0 <= buf_at i s < 2 ^ 8.
Proof.
  intros Hi. unfold buf_at. destruct (c_buf (cc s) !! _) as [b|] eqn:E; cbn; [|lia]. by apply (Forall_lookup_1 _ _ _ _ (ci_bytes _ _ Hi) E).
Qed.
Lemma empty_lines s : cons_inv Mine s -> committed s = 0 -> ed_lines (ed_of s) = [].
Proof. intros Hi E. destruct (split_len s Hi) as [Hl _]. destruct (ed_lines (ed_of s)); [done|cbn in Hl; lia]. Qed.
Lemma inv_cu l u s : cons_inv l s -> cons_inv l (set_cu u s).
Proof. intros []. by split. Qed.

Context `{!UserMemOk U P}.

(** The outcome of a read that ran to a release of the lock: [n] bytes were
    wanted, [off] the offset of the first; the editor's answer decides. *)
Definition read_done (killed : bool) (p : P) (dst target n : Z) s (r : seg_res) s' : Prop :=
  let '(bs, rest, wait) := ed_read (Z.to_nat n) (n =? target) (ed_lines (ed_of s)) in
  cons_inv Free s' /\ ed_of s' = Ed rest (ed_cur (ed_of s)) /\ c_out s' = c_out s /\
  (forall a, um_view p (cu s') a = if (dst + (target - n) <=? a) && (a <? dst + (target - n) + Z.of_nat (length bs)) then bs !! Z.to_nat (a - (dst + (target - n))) else um_view p (cu s) a) /\
  c_sleep s' = (c_sleep s || (wait && negb killed)) /\
  r = if wait then if killed then Done (-1) else Slept (n - Z.of_nat (length bs)) else Done (target - n + Z.of_nat (length bs)).
(** The outcome of one that could not store a byte. *)
Definition read_fault (p : P) s (r : seg_res) s' : Prop := r = Done (-1) /\ cons_inv Mine s' /\ ed_cur (ed_of s') = ed_cur (ed_of s) /\ c_sleep s' = c_sleep s.

Lemma read_nothing killed p dst target n s s' r rest wait : ed_read (Z.to_nat n) (n =? target) (ed_lines (ed_of s)) = ([], rest, wait) ->
  cons_inv Free s' -> ed_of s' = Ed rest (ed_cur (ed_of s)) -> c_out s' = c_out s -> cu s' = cu s -> c_sleep s' = (c_sleep s || (wait && negb killed)) ->
  r = (if wait then if killed then Done (-1) else Slept n else Done (target - n)) -> read_done killed p dst target n s r s'.
Proof.
  intros E H1 H2 H3 H4 H5 ->. unfold read_done. rewrite E. split; [done|]. split; [done|]. split; [done|]. split; [|split; [done|]].
  - intros a. rewrite H4. cbn [length]. destruct (Z.leb_spec (dst + (target - n)) a), (Z.ltb_spec a (dst + (target - n) + Z.of_nat 0)); try done; lia.
  - cbn. destruct wait, killed; try done; f_equal; lia.
Qed.

(** One more byte read before the rest. *)
Lemma read_more killed p dst target n s s1 s' r c l : 0 < n -> n <= target -> c <> CTRL_D -> c <> NL -> ed_lines (ed_of s) = c :: l -> ed_of s1 = Ed l (ed_cur (ed_of s)) ->
  c_out s1 = c_out s -> c_sleep s1 = c_sleep s ->
  (forall a, um_view p (cu s1) a = if a =? dst + (target - n) then Some c else um_view p (cu s) a) ->
  read_done killed p dst target (n - 1) s1 r s' -> read_done killed p dst target n s r s'.
Proof.
  intros Hn Ht N1 N2 Hl E1 Ho Hsl Hv. unfold read_done. rewrite Hl, E1. cbn [ed_lines ed_cur].
  replace (Z.to_nat n) with (S (Z.to_nat (n - 1))) by lia. cbn [ed_read]. rewrite (proj2 (Z.eqb_neq _ _) N1), (proj2 (Z.eqb_neq _ _) N2).
  rewrite (proj2 (Z.eqb_neq (n - 1) target)) by lia. destruct (ed_read _ false l) as [[bs rest] wait]. intros (H1 & H2 & H3 & H4 & H5 & H6).
  split; [done|]. split; [done|]. split; [congruence|]. split; [|split; [congruence|]].
  - intros a. rewrite H4, Hv. cbn [length].
    destruct (Z.leb_spec (dst + (target - (n - 1))) a), (Z.ltb_spec a (dst + (target - (n - 1)) + Z.of_nat (length bs))), (Z.leb_spec (dst + (target - n)) a),
      (Z.ltb_spec a (dst + (target - n) + Z.of_nat (S (length bs)))), (Z.eqb_spec a (dst + (target - n))); cbn [andb]; try lia; try done.
    + replace (Z.to_nat (a - (dst + (target - n)))) with (S (Z.to_nat (a - (dst + (target - (n - 1)))))) by lia. done.
    + subst a. by rewrite Z.sub_diag.
  - rewrite H6. cbn [length]. destruct wait, killed; try done; f_equal; lia.
Qed.

(** One byte stored in user memory. *)
Lemma wp_out1 p a c (Q : Z -> cst U -> Prop) s : um_inv p (cu s) -> 0 <= a -> 0 <= c < 2 ^ 8 ->
  (forall u, um_inv p u -> (forall b, um_view p u b = if b =? a then Some c else um_view p (cu s) b) -> Q 0 (set_cu u s)) ->
  (forall u, Q (-1) (set_cu u s)) -> wp (oncu (um_out p a [c])) Q s.
Proof.
  intros Hu Ha Hc H0 H1. unfold oncu. wp_simp. eapply wp_mono; [apply um_out_ok; [done..|by apply Forall_singleton]|].
  intros r u (Hu' & k & _ & Hv & [[-> ->]|[-> _]]); [|apply H1]. apply H0; [done|]. intros b. rewrite Hv. cbn [length].
  destruct (Z.leb_spec a b), (Z.ltb_spec b (a + Z.of_nat 1)), (Z.eqb_spec b a); cbn [andb]; try done; try lia. subst b. by rewrite Z.sub_diag.
Qed.

Lemma consoleread_loop_spec killed p dst target fuel n s : cons_inv Mine s -> um_inv p (cu s) -> 0 <= dst -> dst + target < 2 ^ 64 -> n <= target -> n <= Z.of_nat fuel ->
  wp (consoleread_loop fuel killed p dst target n) (fun r s' => read_done killed p dst target n s r s' \/ read_fault p s r s') s.
Proof.
  revert n s. induction fuel as [|fuel IH]; intros n s Hi Hu Hd Ht Hn Hf; cbn [consoleread_loop]; destruct (Z.ltb_spec 0 n) as [Hp|Hp]; try lia.
  1,3: rewrite wp_bind; apply wp_lock_release; [apply Hi|]; rewrite wp_ret; left; eapply (read_nothing _ _ _ _ _ _ _ _ (ed_lines (ed_of s)) false); try done;
    [by replace (Z.to_nat n) with 0%nat by lia|by eapply inv_lock|by rewrite orb_false_r].
  rewrite wp_bind, wp_gets. change (id s) with s. rewrite Z.eqb_sym, u32_eq0 by apply Hi. fold (committed s). pose proof (committed_range s) as H0.
  assert (Hsuc : Z.to_nat n = S (Z.to_nat (n - 1))) by lia.
  destruct (Z.eqb_spec (committed s) 0) as [E|E].
  { pose proof (empty_lines s Hi E) as El.
    assert (Er : ed_read (Z.to_nat n) (n =? target) (ed_lines (ed_of s)) = ([], [], true)) by (by rewrite Hsuc, El).
    destruct killed; wp_simp; (apply wp_lock_release; [apply Hi|]); wp_simp; left; eapply (read_nothing _ _ _ _ _ _ _ _ [] true); try done;
      try (by eapply inv_lock); try (by eapply inv_lock, inv_sleep); try (by rewrite orb_false_r); try (by rewrite orb_true_r); by rewrite <- El. }
  destruct (pop_ok s Hi ltac:(lia)) as (Hi1 & El & Ec). pose proof (buf_at_byte _ (c_r (cc s)) s Hi) as Hc. set (c := buf_at (c_r (cc s)) s) in *.
  cbv zeta. rewrite wp_bind, wp_modify. change (set_cr (u32 (c_r (cc s) + 1)) s) with (pop s).
  destruct (Z.eqb_spec c CTRL_D) as [N1|N1].
  { assert (Er : ed_read (Z.to_nat n) (n =? target) (ed_lines (ed_of s)) = ([], if n =? target then ed_lines (ed_of (pop s)) else ed_lines (ed_of s), false)) by (rewrite Hsuc, El; cbn [ed_read]; by rewrite N1, Z.eqb_refl).
    rewrite wp_bind. destruct (Z.ltb_spec n target) as [Hlt|Hge].
    - rewrite (proj2 (Z.eqb_neq n target)) in Er at 2 by lia. rewrite wp_modify, (unpop s) by apply Hi. wp_simp. apply wp_lock_release; [apply Hi|]. wp_simp. left.
      eapply read_nothing; [exact Er|..]; try done; [by eapply inv_lock|by rewrite orb_false_r].
    - rewrite (proj2 (Z.eqb_eq n target)) in Er at 2 by lia. wp_simp. apply wp_lock_release; [apply Hi1|]. wp_simp. left.
      eapply read_nothing; [exact Er|..]; try done; [by eapply inv_lock|by rewrite <- Ec|by rewrite orb_false_r]. }
  rewrite wp_bind. rewrite u64_small by lia. apply wp_out1; [done|lia|done|..].
  2:{ intros u. wp_simp. right. split; [done|]. split; [by apply inv_cu|]. done. }
  intros u Hu' Hv. change (0 =? -1) with false. cbv iota. set (s1 := set_cu u (pop s)). change (cu (pop s)) with (cu s) in Hv.
  assert (Hi2 : cons_inv Mine s1) by (by apply inv_cu).
  assert (E1 : ed_of s1 = Ed (ed_lines (ed_of (pop s))) (ed_cur (ed_of s))) by (by rewrite <- Ec).
  destruct (Z.eqb_spec c NL) as [N2|N2].
  - wp_simp. apply wp_lock_release; [apply Hi2|]. wp_simp. left. unfold read_done. rewrite Hsuc, El. cbn [ed_read]. rewrite (proj2 (Z.eqb_neq _ _) N1), (proj2 (Z.eqb_eq _ _) N2).
    split; [by eapply inv_lock|]. split; [exact E1|]. split; [done|]. split; [|split; [by rewrite orb_false_r|cbn; f_equal; lia]].
    intros a. change (cu (set_clock Free s1)) with u. rewrite Hv. cbn [length].
    destruct (Z.leb_spec (dst + (target - n)) a), (Z.ltb_spec a (dst + (target - n) + Z.of_nat 1)), (Z.eqb_spec a (dst + (target - n))); cbn [andb]; try done; try lia. subst a. by rewrite Z.sub_diag.
  - eapply wp_mono; [apply (IH (n - 1) s1); try done; lia|]. intros r s' [Hr|Hr]; [left|right].
    + by eapply read_more.
    + destruct Hr as (R1 & R2 & R3 & R4). rewrite E1 in R3. done.
Qed.


(** * consolewrite *)

(** [bs] is what the process sees from [a] on. *)
Definition sees (p : P) (u : U) (a : Z) (bs : list Z) : Prop := forall j, (j < length bs)%nat -> um_view p u (a + Z.of_nat j) = bs !! j.

Lemma sees_app p u a l1 l2 : sees p u a l1 -> sees p u (a + Z.of_nat (length l1)) l2 -> sees p u a (l1 ++ l2).
Proof.
  intros H1 H2 j Hj. rewrite length_app in Hj. destruct (decide (j < length l1)%nat) as [H|H]; [by rewrite lookup_app_l; [apply H1|]|].
  rewrite lookup_app_r by lia. rewrite <- (H2 (j - length l1)%nat) by lia. f_equal. lia.
Qed.

(** The bytes sent are those the process sees, from [src + i] on. *)
Lemma consolewrite_loop_spec p src n fuel i s : um_inv p (cu s) -> 0 <= src -> src + n < 2 ^ 64 -> 0 <= i -> n - i <= Z.of_nat fuel ->
  wp (consolewrite_loop fuel p src n i) (fun r s' => cc s' = cc s /\ um_inv p (cu s') /\ exists bs, c_out s' = c_out s ++ bs /\ sees p (cu s) (src + i) bs /\
    (r = -1 /\ Z.of_nat (length bs) < n - i \/ r = Z.max i n /\ Z.of_nat (length bs) = Z.max 0 (n - i))) s.
Proof.
  revert i s. induction fuel as [|fuel IH]; intros i s Hu Hs Hn Hi Hf; cbn [consolewrite_loop]; destruct (Z.ltb_spec i n) as [Hl|Hl]; try lia.
  1,3: wp_simp; split; [done|]; split; [done|]; exists []; rewrite app_nil_r; split; [done|]; split; [intros j Hj; cbn in Hj; lia|right; cbn; lia].
  set (nn := if n - i <? 32 then n - i else 32). assert (Hnn : 0 < nn <= n - i) by (unfold nn; destruct (Z.ltb_spec (n - i) 32); lia). cbv zeta. clearbody nn.
  rewrite wp_bind. unfold oncu. wp_simp. rewrite u64_small by lia. eapply wp_mono; [apply um_in_ok; [done|lia|lia]|].
  intros [bs ok] u (H1 & H2 & H3 & H4). cbn [fst snd] in *. destruct ok; cbn [negb]; [|wp_simp; split; [done|]; split; [done|]; exists []; rewrite app_nil_r; split; [done|]; split; [intros j Hj; cbn in Hj; lia|left; cbn; lia]].
  rewrite wp_bind, wp_modify. eapply wp_mono; [apply IH; try done; lia|]. intros r s' (K1 & K2 & bs' & K3 & K4 & K5).
  split; [done|]. split; [done|]. exists (bs ++ bs'). rewrite K3. cbn [emit c_out]. split; [by rewrite <- app_assoc|]. split.
  - apply sees_app; [exact H3|]. intros j Hj. rewrite <- H2, <- (K4 j Hj). cbn. f_equal. lia.
  - rewrite length_app. lia.
Qed.
End proofs.

Section fault.
Context {U P : Type} `{UM : UserMem U P}.

(** C40: A reader whose buffer is not writable gets -1 with the console's lock
    still held: the CPU's next keystroke or read of the console panics in
    acquire(), and no other CPU can take the lock either. *)
Theorem consoleread_fault_keeps_lock killed p dst n (s : cst U) u : cons_inv Free s -> 0 < n -> 0 <= dst -> dst < 2 ^ 64 -> 0 < committed s ->
  buf_at (c_r (cc s)) s <> CTRL_D -> um_out p dst [buf_at (c_r (cc s)) s] (cu s) = Ok (-1) u ->
  exists s', consoleread killed p dst n n s = Ok (Done (-1)) s' /\ c_lock (cc s') = Mine /\
    (forall dump c, consoleintr dump c s' = Panic "acquire") /\ (forall q d m k b, consoleread b q d m k s' = Panic "acquire").
Proof.
  intros Hi Hn Hd0 Hd Hc N1 Ho. exists (set_cu u (pop (set_clock Mine s))). split; [|done]. unfold consoleread, bind, cacquire, lock_acquire, gets, bind. rewrite (ci_lock _ _ Hi).
  unfold modify. replace (Z.to_nat n) with (S (Z.to_nat (n - 1))) by lia. cbn [consoleread_loop]. rewrite (proj2 (Z.ltb_lt 0 n)) by lia. unfold bind, gets, modify. change (id ?x) with x.
  change (cc (set_clock Mine s)) with (Cons Mine (c_buf (cc s)) (c_r (cc s)) (c_w (cc s)) (c_e (cc s))). cbn [c_r c_w]. rewrite Z.eqb_sym, u32_eq0 by apply Hi. fold (committed s).
  rewrite (proj2 (Z.eqb_neq (committed s) 0)) by lia. cbv zeta. change (buf_at (c_r (cc s)) (set_clock Mine s)) with (buf_at (c_r (cc s)) s).
  rewrite (proj2 (Z.eqb_neq _ _) N1). replace (u64 (dst + (n - n))) with dst by (rewrite Z.sub_diag, Z.add_0_r; symmetry; by apply u64_small).
  unfold oncu, zoom. cbn. by rewrite Ho.
Qed.
End fault.

(** * Examples *)

(** A console on which [hi] and a newline have been typed. *)
Definition demo_cons {U} (u : U) : cst U := Cst (Cons Free (<[0%nat := 104]> (<[1%nat := 105]> (<[2%nat := NL]> (replicate 128 0)))) 0 3 3) u false [].

Lemma demo_cons_inv {U} (u : U) : cons_inv Free (demo_cons u).
Proof.
  split; try done.
  - unfold demo_cons, byte_list; cbn [cc c_buf]. repeat (apply Forall_insert; [|unfold NL; lia]). apply Forall_replicate. lia.
  - vm_compute. by apply not_elem_of_nil.
Qed.

Lemma consoleintr_correct_witness : wp (consoleintr [] 97) (fun _ s' => ed_of s' = Ed [104; 105; 10] [97]) (demo_cons tt).
Proof.
  eapply wp_mono; [apply (consoleintr_correct [] 97 (demo_cons tt) (demo_cons_inv tt)); lia|]. intros ? s' (_ & -> & _). reflexivity.
Defined.


(** A process without writable memory. *)
Definition unmapped_usermem : UserMem unit unit := {| um_in _ _ _ := ret ([], false); um_out _ _ _ := ret (-1) |}.

Lemma consoleread_fault_keeps_lock_witness : exists s', @consoleread unit unit unmapped_usermem false tt 0 10 10 (demo_cons tt) = Ok (Done (-1)) s' /\ c_lock (cc s') = Mine.
Proof.
  destruct (@consoleread_fault_keeps_lock unit unit unmapped_usermem false tt 0 10 (demo_cons tt) tt (demo_cons_inv tt)) as (s' & H1 & H2 & _);
    [lia|lia|lia|reflexivity|vm_compute; congruence|reflexivity|]. by exists s'.
Defined.
