(* ===== verification/Uart.v ===== *)
(** kernel/uart.c: the driver of the 16550a UART.

    Output goes to the transmit FIFO of the device by two ways: uartwrite(),
    which sleeps until an interrupt says that the device has sent everything,
    and uartputc_sync(), which polls the device and takes no lock.  Both run on
    several CPUs, so the state below has one place per CPU for a call of
    uartputc_sync() between its test and its store (push_off() keeps it to
    one), and the interrupt handler is cut where it reads and where it stores.
    The critical sections of uartwrite() are single steps: within one, only the
    store to THR touches what others see.

    Input is a second FIFO, emptied into the console by uartintr(). *)
From S2P Require Import Prelude Mem UserMem Pipe Console.

Definition NCPU : nat := 8.
(** The control registers, and where they are; some mean different things for
    loads and stores. *)
Inductive ureg := RHR | THR | IER | FCR | ISR | LCR | LSR.
Definition ureg_offset (r : ureg) : Z := match r with RHR | THR => 0 | IER => 1 | FCR | ISR => 2 | LCR => 3 | LSR => 5 end.
Inductive ubit := IER_RX_ENABLE | IER_TX_ENABLE | FCR_FIFO_ENABLE | FCR_FIFO_CLEAR | LCR_EIGHT_BITS | LCR_BAUD_LATCH.
Definition ubit_mask (b : ubit) : Z :=
  match b with
  | IER_RX_ENABLE => Z.shiftl 1 0
  | IER_TX_ENABLE => Z.shiftl 1 1
  | FCR_FIFO_ENABLE => Z.shiftl 1 0
  | FCR_FIFO_CLEAR => Z.shiftl 3 1
  | LCR_EIGHT_BITS => Z.shiftl 3 0
  | LCR_BAUD_LATCH => Z.shiftl 1 7
  end.

(** The stores of uartinit() to the registers, in order. *)
Definition uartinit : list (Z * Z) :=
  [(ureg_offset IER, 0); (ureg_offset LCR, ubit_mask LCR_BAUD_LATCH); (0, 3); (1, 0); (ureg_offset LCR, ubit_mask LCR_EIGHT_BITS);
   (ureg_offset FCR, Z.lor (ubit_mask FCR_FIFO_ENABLE) (ubit_mask FCR_FIFO_CLEAR)); (ureg_offset IER, Z.lor (ubit_mask IER_TX_ENABLE) (ubit_mask IER_RX_ENABLE))].

(** * Output *)

(** Who stored a byte in THR. *)
Inductive src := ByWrite (k : nat) | BySync (cpu : nat).
#[export] Instance src_eq_dec : EqDecision src.
Proof. solve_decision. Defined.
(** A call uartwrite(buf, n): the bytes of [buf] not yet sent; does it sleep. *)
Record writer := Writer { w_buf : list Z; w_rest : list Z; w_asleep : bool }.
(** Where uartintr() is: not running; past the acknowledgement; holding
    tx_lock; past the test of LSR, with its result. *)
Inductive ipc := IOut | IAck | ILocked | ISaw (idle : bool).

(** tx_lock and tx_busy; the calls of uartwrite(); for each CPU the character
    of a uartputc_sync() between test and store; the handler.  The device: its
    FIFO, what it has sent, a pending interrupt.  [u_hist]: all stores to THR. *)
Record uart := Uart {
  u_held : bool; u_busy : Z; u_wr : list writer; u_cpu : list (option Z); u_ipc : ipc;
  u_fifo : list Z; u_line : list Z; u_thri : bool; u_hist : list (src * Z) }.

Definition set_held x u := Uart x (u_busy u) (u_wr u) (u_cpu u) (u_ipc u) (u_fifo u) (u_line u) (u_thri u) (u_hist u).
Definition set_busy x u := Uart (u_held u) x (u_wr u) (u_cpu u) (u_ipc u) (u_fifo u) (u_line u) (u_thri u) (u_hist u).
Definition on_wr f u := Uart (u_held u) (u_busy u) (f (u_wr u)) (u_cpu u) (u_ipc u) (u_fifo u) (u_line u) (u_thri u) (u_hist u).
Definition on_cpu f u := Uart (u_held u) (u_busy u) (u_wr u) (f (u_cpu u)) (u_ipc u) (u_fifo u) (u_line u) (u_thri u) (u_hist u).
Definition set_ipc x u := Uart (u_held u) (u_busy u) (u_wr u) (u_cpu u) x (u_fifo u) (u_line u) (u_thri u) (u_hist u).
Definition set_thri x u := Uart (u_held u) (u_busy u) (u_wr u) (u_cpu u) (u_ipc u) (u_fifo u) (u_line u) x (u_hist u).

(** [ReadReg(LSR) & LSR_TX_IDLE]: the FIFO is empty. *)
Definition tx_idle u : bool := match u_fifo u with [] => true | _ => false end.
Definition wake_all (l : list writer) : list writer := (fun w => Writer (w_buf w) (w_rest w) false) <$> l.

Section uart.
(** The number of bytes the FIFO holds; a byte stored in a full one is lost. *)
Variable depth : nat.

Definition WriteTHR (by_ : src) (c : Z) u :=
  Uart (u_held u) (u_busy u) (u_wr u) (u_cpu u) (u_ipc u) (if (length (u_fifo u) <? depth)%nat then u_fifo u ++ [u8 c] else u_fifo u)
    (u_line u) (u_thri u) (u_hist u ++ [(by_, u8 c)]).

(** [while(i < n)], for the bytes from [buf[i]] on: what is left when the
    caller sleeps. *)
Fixpoint uartwrite_loop (k : nat) (bs : list Z) u : list Z * uart :=
  match bs with
  | [] => ([], u)
  | b :: bs' => if negb (u_busy u =? 0) then (bs, u) else uartwrite_loop k bs' (set_busy 1 (WriteTHR (ByWrite k) b u))
  end.
(** From acquire() or the end of a sleep() to the next sleep() or release();
    [None] while another thread holds tx_lock. *)
Definition uartwrite (k : nat) (w : writer) u : option uart :=
  if u_held u then None else
  let '(rest, u') := uartwrite_loop k (w_rest w) u in
  Some (on_wr <[k := Writer (w_buf w) rest (match rest with [] => false | _ => true end)]> u').

(** uartputc_sync() up to the end of its loop, on CPU [i]. *)
Definition putc_test (i : nat) (c : Z) u : option uart := if tx_idle u then Some (on_cpu <[i := Some c]> u) else None.
(** And its store. *)
Definition putc_store (i : nat) u : option uart :=
  match u_cpu u !! i with
  | Some (Some c) => Some (on_cpu <[i := None]> (WriteTHR (BySync i) c u))
  | _ => None
  end.

(** uartintr() up to the end of its critical section, one access at a time. *)
Definition uartintr_step u : option uart :=
  match u_ipc u with
  | IOut => Some (set_ipc IAck (set_thri false u))
  | IAck => if u_held u then None else Some (set_ipc ILocked (set_held true u))
  | ILocked => Some (set_ipc (ISaw (tx_idle u)) u)
  | ISaw idle => Some (set_ipc IOut (set_held false (if idle then on_wr wake_all (set_busy 0 u) else u)))
  end.

(** The device sends a byte, and raises an interrupt when it was the last. *)
Definition dev_send u : option uart :=
  match u_fifo u with
  | [] => None
  | b :: r => Some (Uart (u_held u) (u_busy u) (u_wr u) (u_cpu u) (u_ipc u) r (u_line u ++ [b]) (u_thri u || match r with [] => true | _ => false end) (u_hist u))
  end.

Inductive ustep : uart -> uart -> Prop :=
| us_call u bs : ustep u (on_wr (fun l => l ++ [Writer bs bs false]) u)
| us_write u k w u' : u_wr u !! k = Some w -> w_asleep w = false -> uartwrite k w u = Some u' -> ustep u u'
| us_test u i c u' : u_cpu u !! i = Some None -> putc_test i c u = Some u' -> ustep u u'
| us_store u i u' : putc_store i u = Some u' -> ustep u u'
| us_intr u u' : uartintr_step u = Some u' -> ustep u u'
| us_send u u' : dev_send u = Some u' -> ustep u u'.

Definition uart_init : uart := Uart false 0 [] (replicate NCPU None) IOut [] [] false [].
Definition uart_reachable (u : uart) : Prop := rtc ustep uart_init u.

(** * Invariants *)

Definition passed u : nat := length (filter is_Some (u_cpu u)).
(** uartwrite() may store before the FIFO is found empty again. *)
Definition granted u : nat := match u_ipc u with ISaw true => 1 | _ => if u_busy u =? 0 then 1 else 0 end.
Definition stores (by_ : src) u : list Z := snd <$> filter (fun x => x.1 = by_) (u_hist u).

Record uinv u : Prop := {
  ui_cpus : length (u_cpu u) = NCPU;
  ui_held : u_held u = match u_ipc u with ILocked | ISaw _ => true | _ => false end;
  ui_fifo : u_fifo u <> [] -> (length (u_fifo u) + passed u + granted u <= NCPU + 1)%nat;
  ui_hist : u_line u ++ u_fifo u = snd <$> u_hist u;
  ui_wr k w : u_wr u !! k = Some w -> stores (ByWrite k) u ++ (u8 <$> w_rest w) = u8 <$> w_buf w;
  ui_new k : (length (u_wr u) <= k)%nat -> stores (ByWrite k) u = [];
  ui_asleep w : w ∈ u_wr u -> w_asleep w = true -> u_busy u <> 0;
  ui_wake : u_busy u <> 0 -> u_fifo u <> [] \/ u_thri u = true \/ match u_ipc u with IAck | ILocked | ISaw true => True | _ => False end
}.

Lemma passed_le u : (passed u <= length (u_cpu u))%nat.
Proof. apply length_filter. Qed.
Lemma granted_le u : (granted u <= 1)%nat.
Proof. unfold granted. destruct (u_ipc u) as [| | |[]]; try destruct (_ =? _); lia. Qed.
Lemma passed_clear u i c : u_cpu u !! i = Some (Some c) -> passed u = S (passed (on_cpu <[i := None]> u)).
Proof.
  intros Hi. unfold passed. cbn. rewrite <- (take_drop_middle _ _ _ Hi) at 1. rewrite insert_take_drop by (by eapply lookup_lt_Some).
  rewrite !filter_app, !length_app. rewrite filter_cons_True by (by eexists). rewrite filter_cons_False by (by intros [? ?]). cbn. lia.
Qed.
Lemma stores_write b c u by_ : stores by_ (WriteTHR b c u) = stores by_ u ++ if decide (b = by_) then [u8 c] else [].
Proof.
  unfold stores. cbn. rewrite filter_app, fmap_app. f_equal. case_decide as E; [by rewrite filter_cons_True|by rewrite filter_cons_False].
Qed.
Lemma write_fifo b c u : (length (u_fifo u) < depth)%nat -> u_fifo (WriteTHR b c u) = u_fifo u ++ [u8 c].
Proof. intros H. unfold WriteTHR; cbn [u_fifo]; by rewrite (proj2 (Nat.ltb_lt _ _) H). Qed.

Lemma loop_stop k bs u : u_busy u <> 0 -> uartwrite_loop k bs u = (bs, u).
Proof. intros H. destruct bs as [|b bs]; [done|]. cbn. by rewrite (proj2 (Z.eqb_neq _ _) H). Qed.
Lemma loop_one k b bs u : u_busy u = 0 -> uartwrite_loop k (b :: bs) u = (bs, set_busy 1 (WriteTHR (ByWrite k) b u)).
Proof. intros H. cbn [uartwrite_loop]. rewrite H. change (negb (0 =? 0)) with false. cbv iota. by apply loop_stop. Qed.

Context (Hdepth : (NCPU + 1 <= depth)%nat).

Lemma fifo_room u : uinv u -> (0 < passed u + granted u)%nat -> (length (u_fifo u) < depth)%nat.
Proof. intros Hi Hp. destruct (decide (u_fifo u = [])) as [->|Hne]; [unfold NCPU in *; cbn; lia|]. pose proof (ui_fifo _ Hi Hne). lia. Qed.

Lemma wr_same u k w w' : uinv u -> u_wr u !! k = Some w -> w_rest w' = w_rest w -> w_buf w' = w_buf w -> (w_asleep w' = true -> u_busy u <> 0) -> uinv (on_wr <[k := w']> u).
Proof.
  intros Hi Hk E1 E2 Ha. pose proof (lookup_lt_Some _ _ _ Hk) as Hlt. destruct Hi as [H1 H2 H3 H4 H5 H6 H7 H8]. split; try done.
  - intros j x Hj. cbn in Hj. apply list_lookup_insert_Some in Hj as [(<- & <- & _)|(Hne & Hj)]; [rewrite E1, E2; by apply (H5 k)|by apply (H5 j)].
  - intros j. cbn. rewrite length_insert. apply H6.
  - intros x Hx Hs. cbn in Hx. apply list_elem_of_lookup in Hx as [j Hj]. apply list_lookup_insert_Some in Hj as [(<- & <- & _)|(_ & Hj)]; [by apply Ha|]. eapply H7; [by eapply list_elem_of_lookup_2|done].
Qed.

Lemma uinv_write u k w u' : uinv u -> u_wr u !! k = Some w -> uartwrite k w u = Some u' -> uinv u'.
Proof.
  intros Hi Hk Hu. unfold uartwrite in Hu. destruct (u_held u) eqn:Eh; [done|]. destruct (decide (u_busy u = 0)) as [Hb|Hb].
  2:{ rewrite loop_stop in Hu by done. injection Hu as <-. by eapply wr_same. }
  destruct (w_rest w) as [|b bs] eqn:Er; [cbn in Hu; injection Hu as <-; by eapply wr_same|]. rewrite loop_one in Hu by done. injection Hu as <-.
  pose proof (lookup_lt_Some _ _ _ Hk) as Hlt. assert (Hg : granted u = 1%nat). { unfold granted. rewrite Hb. pose proof (ui_held _ Hi) as Hh. rewrite Eh in Hh. by destruct (u_ipc u) as [| | |[]]. }
  assert (Hroom : (length (u_fifo u) < depth)%nat) by (apply fifo_room; [done|lia]). pose proof (write_fifo (ByWrite k) b u Hroom) as Hf. set (v := WriteTHR (ByWrite k) b u) in *.
  set (w' := Writer _ _ _). destruct (Hi) as [H1 H2 H3 H4 H5 H6 H7 H8]. split; try done.
  - cbn [u_fifo on_wr set_busy]. intros _. rewrite Hf, length_app. change (passed (on_wr _ _)) with (passed u). assert (Hg' : granted (on_wr <[k:=w']> (set_busy 1 v)) = 0%nat).
    { unfold granted. cbn. pose proof (ui_held _ Hi) as Hh. rewrite Eh in Hh. by destruct (u_ipc u) as [| | |[]]. }
    rewrite Hg'. cbn [length]. destruct (decide (u_fifo u = [])) as [->|Hne]; [pose proof (passed_le u); cbn [length]; lia|]. specialize (H3 Hne). lia.
  - cbn [u_line u_fifo u_hist on_wr set_busy]. change (u_line v) with (u_line u). rewrite Hf, app_assoc, H4. unfold v. cbn. by rewrite fmap_app.
  - intros j x Hj. change (stores (ByWrite j) (on_wr _ (set_busy 1 v))) with (stores (ByWrite j) v). unfold v. rewrite stores_write. cbn in Hj. apply list_lookup_insert_Some in Hj as [(<- & <- & _)|(Hne & Hj)].
    + rewrite decide_True by done. cbn. rewrite <- app_assoc. specialize (H5 k w Hk). by rewrite Er in H5.
    + rewrite decide_False by congruence. rewrite app_nil_r. by apply H5.
  - intros j. cbn [u_wr on_wr]. rewrite length_insert. change (stores (ByWrite j) (on_wr _ (set_busy 1 v))) with (stores (ByWrite j) v). change (u_wr (set_busy 1 v)) with (u_wr u). intros Hj. unfold v. rewrite stores_write, decide_False by (intros [= ->]; lia). rewrite app_nil_r. by apply H6.
  - intros _. left. cbn [u_fifo on_wr set_busy]. rewrite Hf. by destruct (u_fifo u).
Qed.

Lemma uinv_call u bs : uinv u -> uinv (on_wr (fun l => l ++ [Writer bs bs false]) u).
Proof.
  intros [H1 H2 H3 H4 H5 H6 H7 H8]. split; try done.
  - intros k w Hk. cbn in Hk. apply lookup_app_Some in Hk as [Hk|[Hk Hl]]; [by apply H5|]. apply list_lookup_singleton_Some in Hl as [Hz <-]. change (stores (ByWrite k) (on_wr _ u)) with (stores (ByWrite k) u). by rewrite H6.
  - intros k. cbn. rewrite length_app. cbn. intros Hk. apply H6. lia.
  - intros w Hw Hs. cbn in Hw. apply elem_of_app in Hw as [Hw|Hw]; [by eapply H7|]. apply list_elem_of_singleton in Hw as ->. done.
Qed.
Lemma uinv_test u i c u' : uinv u -> putc_test i c u = Some u' -> uinv u'.
Proof.
  intros [H1 H2 H3 H4 H5 H6 H7 H8] Hu. unfold putc_test, tx_idle in Hu. destruct (u_fifo u) eqn:Ef; [|done]. injection Hu as <-. split; try done; cbn [u_fifo on_cpu u_cpu]; rewrite ?Ef, ?length_insert; done.
Qed.
Lemma uinv_store u i u' : uinv u -> putc_store i u = Some u' -> uinv u'.
Proof.
  intros Hi Hu. unfold putc_store in Hu. destruct (u_cpu u !! i) as [[c|]|] eqn:Ec; [|done|done]. injection Hu as <-. pose proof (passed_clear u i c Ec) as Hp.
  assert (Hroom : (length (u_fifo u) < depth)%nat) by (apply fifo_room; [done|lia]). pose proof (write_fifo (BySync i) c u Hroom) as Hf. set (v := WriteTHR (BySync i) c u) in *.
  assert (Hst : forall k, stores (ByWrite k) (on_cpu <[i:=None]> v) = stores (ByWrite k) u). { intros k. change (stores (ByWrite k) (on_cpu _ v)) with (stores (ByWrite k) v). unfold v. rewrite stores_write, decide_False by done. apply app_nil_r. }
  destruct (Hi) as [H1 H2 H3 H4 H5 H6 H7 H8]. split; try done.
  - cbn. by rewrite length_insert.
  - cbn [u_fifo on_cpu]. intros _. rewrite Hf, length_app. change (granted (on_cpu _ v)) with (granted u). change (passed (on_cpu <[i:=None]> v)) with (passed (on_cpu <[i:=None]> u)). cbn [length]. pose proof (granted_le u). destruct (decide (u_fifo u = [])) as [->|Hne]; [pose proof (passed_le u); cbn [length]; lia|]. specialize (H3 Hne). lia.
  - cbn [u_line u_fifo u_hist on_cpu]. change (u_line v) with (u_line u). rewrite Hf, app_assoc, H4. unfold v. cbn. by rewrite fmap_app.
  - intros k w Hk. rewrite Hst. by apply H5.
  - intros k Hk. rewrite Hst. by apply H6.
  - intros _. left. cbn [u_fifo on_cpu]. rewrite Hf. by destruct (u_fifo u).
Qed.
Lemma uinv_send u u' : uinv u -> dev_send u = Some u' -> uinv u'.
Proof.
  intros [H1 H2 H3 H4 H5 H6 H7 H8] Hu. unfold dev_send in Hu. destruct (u_fifo u) as [|b r] eqn:Ef; [done|]. injection Hu as <-. split; try done.
  - cbn. intros _. specialize (H3 ltac:(done)). cbn in H3. unfold passed, granted in *. cbn in *. lia.
  - cbn. by rewrite <- app_assoc.
  - cbn. intros Hb. destruct r; [right; left; by rewrite orb_true_r|by left].
Qed.
Lemma uinv_intr u u' : uinv u -> uartintr_step u = Some u' -> uinv u'.
Proof.
  intros [H1 H2 H3 H4 H5 H6 H7 H8] Hu. unfold uartintr_step in Hu. unfold granted in H3. destruct (u_ipc u) as [| | |idle] eqn:Ep.
  - injection Hu as <-. split; try done. right. right. exact I.
  - destruct (u_held u); [done|]. injection Hu as <-. split; try done; auto.
  - injection Hu as <-. split; try done; unfold tx_idle, granted; cbn.
    + intros Hf. specialize (H3 Hf). by destruct (u_fifo u).
    + intros Hb. destruct (u_fifo u); [right; right; exact I|by left].
  - injection Hu as <-. destruct idle; [|split; done]. split; try done; cbn.
    + intros k w Hk. apply list_lookup_fmap_Some in Hk as (w0 & -> & Hk). by apply (H5 k w0).
    + intros k. unfold wake_all. rewrite length_fmap. apply H6.
    + intros w Hw. apply list_elem_of_fmap in Hw as (w0 & -> & _). done.
Qed.

Lemma uinv_step u u' : ustep u u' -> uinv u -> uinv u'.
Proof. destruct 1; eauto using uinv_call, uinv_write, uinv_test, uinv_store, uinv_intr, uinv_send. Qed.
Lemma uinv_init : uinv uart_init.
Proof. split; try done. by intros w ?%not_elem_of_nil. Qed.
Lemma reach_uinv u : uart_reachable u -> uinv u.
Proof. intros Hr. assert (Hg : forall x y, rtc ustep x y -> uinv x -> uinv y) by (induction 1; eauto using uinv_step). apply (Hg _ _ Hr). apply uinv_init. Qed.

(** The steps of the device and of the interrupt handler. *)
Definition hw_step u u' : Prop := dev_send u = Some u' \/ uartintr_step u = Some u'.
Definition all_awake u : Prop := Forall (fun w => w_asleep w = false) (u_wr u).

Lemma drain u : exists u', rtc hw_step u u' /\ u_fifo u' = [].
Proof.
  remember (u_fifo u) as l eqn:El. revert u El. induction l as [|b r IH]; intros u El; [exists u; split; [reflexivity|done]|].
  assert (Hs : exists v, dev_send u = Some v /\ u_fifo v = r) by (unfold dev_send; rewrite <- El; eexists; split; [reflexivity|done]). destruct Hs as (v & Hv & Hf).
  destruct (IH v ltac:(done)) as (u' & Hr & He). exists u'. split; [|done]. eapply rtc_l; [left; exact Hv|exact Hr].
Qed.
Lemma hw_uinv u u' : rtc hw_step u u' -> uinv u -> uinv u'.
Proof. induction 1 as [|x y z [Hs|Hs] _ IH]; [done|intros Hi; apply IH; by eapply uinv_send|intros Hi; apply IH; by eapply uinv_intr]. Qed.

Lemma wake_saw u : u_ipc u = ISaw true -> exists u', rtc hw_step u u' /\ all_awake u'.
Proof.
  intros Hp. eexists. split; [apply rtc_once; right; unfold uartintr_step; rewrite Hp; reflexivity|]. unfold all_awake, wake_all. cbn. by apply Forall_fmap, Forall_true.
Qed.
Lemma wake_locked u : u_ipc u = ILocked -> u_fifo u = [] -> exists u', rtc hw_step u u' /\ all_awake u'.
Proof.
  intros Hp Hf. destruct (wake_saw (set_ipc (ISaw true) u) eq_refl) as (u' & Hr & Ha). exists u'. split; [|done]. eapply rtc_l; [|exact Hr]. right. unfold uartintr_step, tx_idle. by rewrite Hp, Hf.
Qed.
Lemma wake_ack u : u_ipc u = IAck -> u_held u = false -> u_fifo u = [] -> exists u', rtc hw_step u u' /\ all_awake u'.
Proof.
  intros Hp Hh Hf. destruct (wake_locked (set_ipc ILocked (set_held true u)) eq_refl Hf) as (u' & Hr & Ha). exists u'. split; [|done]. eapply rtc_l; [|exact Hr]. right. unfold uartintr_step. by rewrite Hp, Hh.
Qed.
Lemma wake_out u : u_ipc u = IOut -> u_held u = false -> u_fifo u = [] -> exists u', rtc hw_step u u' /\ all_awake u'.
Proof.
  intros Hp Hh Hf. destruct (wake_ack (set_ipc IAck (set_thri false u)) eq_refl Hh Hf) as (u' & Hr & Ha). exists u'. split; [|done]. eapply rtc_l; [|exact Hr]. right. unfold uartintr_step. by rewrite Hp.
Qed.

(** C26: output of the UART driver.  However calls of uartwrite(), of
    uartputc_sync() on the eight CPUs, the interrupt handler and the device
    interleave, the FIFO never holds more than nine bytes, so on a device whose
    FIFO is at least that deep no byte is lost: what has been sent and what is
    in the FIFO are all the bytes ever stored, in order, and those of each
    uartwrite() are a prefix of its buffer. *)
Theorem uart_output_correct u : uart_reachable u ->
  (length (u_fifo u) <= NCPU + 1)%nat /\ u_line u ++ u_fifo u = snd <$> u_hist u /\
  (forall k w, u_wr u !! k = Some w -> stores (ByWrite k) u ++ (u8 <$> w_rest w) = u8 <$> w_buf w).
Proof.
  intros Hr. pose proof (reach_uinv u Hr) as Hi. split; [|split; [apply Hi|intros k w; apply Hi]]. destruct (decide (u_fifo u = [])) as [->|Hne]; [cbn [length]; lia|]. pose proof (ui_fifo _ Hi Hne). lia.
Qed.

(** C27: no sleeping writer is forgotten.  A process sleeps in uartwrite() only
    while tx_busy is set, and then the device has bytes to send, or its
    interrupt is pending or being handled; from every reachable state the
    device and the handler alone lead to one where nobody sleeps. *)
Theorem uart_writers_woken u : uart_reachable u ->
  (forall w, w ∈ u_wr u -> w_asleep w = true -> u_busy u <> 0 /\ (u_fifo u <> [] \/ u_thri u = true \/ match u_ipc u with IAck | ILocked | ISaw true => True | _ => False end)) /\
  exists u', rtc hw_step u u' /\ all_awake u'.
Proof.
  intros Hr. pose proof (reach_uinv u Hr) as Hi. split; [intros w Hw Hs; pose proof (ui_asleep _ Hi w Hw Hs) as Hb; split; [done|by apply Hi]|].
  destruct (drain u) as (v & Hv & Hf). pose proof (hw_uinv _ _ Hv Hi) as Hi'. pose proof (ui_held _ Hi') as Hh.
  assert (Hw : exists u', rtc hw_step v u' /\ all_awake u'); [|destruct Hw as (u' & H1 & H2); exists u'; split; [by etrans|done]].
  destruct (u_ipc v) as [| | |[]] eqn:Ep; [by apply wake_out|by apply wake_ack|by apply wake_locked|by apply wake_saw|].
  assert (Hs : uartintr_step v = Some (set_ipc IOut (set_held false v))) by (unfold uartintr_step; by rewrite Ep). destruct (wake_out (set_ipc IOut (set_held false v)) eq_refl eq_refl Hf) as (u' & H1 & H2).
  exists u'. split; [|done]. eapply rtc_l; [right; exact Hs|exact H1].
Qed.
End uart.

(** * Input *)

Section rx.
Context {U : Type}.
(** The receive FIFO of the device and the console. *)
Abbreviation rx := (list Z * cst U)%type.

Definition uartgetc : M rx Z :=
  let! s := gets id in
  match s.1 with
  | c :: r => modify (fun s => (r, s.2)) ;; ret c
  | [] => ret (-1)
  end.
(** The loop of uartintr(); [dump] is what procdump() prints. *)
Fixpoint uartintr_rx (fuel : nat) (dump : list Z) : M rx unit :=
  match fuel with
  | O => nofuel
  | S fuel =>
      let! c := uartgetc in
      if c =? -1 then ret tt
      else zoom snd (fun x s => (s.1, x)) (consoleintr dump c) ;; uartintr_rx fuel dump
  end.

(** the interrupt handler gives every character that has arrived to the
    line editor of the console, in order, and terminates. *)
Theorem uartintr_types_all dump (s : rx) : Forall (fun c => 0 <= c < 2 ^ 8) s.1 -> cons_inv Free s.2 ->
  wp (uartintr_rx (S (length s.1)) dump) (fun _ s' => s'.1 = [] /\ cons_inv Free s'.2 /\ ed_of s'.2 = foldl (fun e c => ed_type c e) (ed_of s.2) s.1) s.
Proof.
  destruct s as [l c]. revert c. induction l as [|b l IH]; intros c Hb Hi; cbn [length uartintr_rx fst snd] in *.
  - unfold uartgetc. wp_simp. cbn. wp_simp. done.
  - apply Forall_cons in Hb as [Hb Hl]. unfold uartgetc. wp_simp. change (id (b :: l, c)) with (b :: l, c). cbn [fst snd]. wp_simp. cbn [fst snd]. rewrite (proj2 (Z.eqb_neq b (-1))) by lia. wp_simp. cbn [fst snd].
    eapply wp_mono; [by apply consoleintr_ok|]. intros [] c' (H1 & H2 & _ & _). cbn [fst snd]. eapply wp_mono; [apply (IH c' Hl H1)|]. intros [] s' (K1 & K2 & K3). rewrite K3, H2. done.
Qed.
End rx.

(** * Examples *)

(** A process writes two bytes on a device with a FIFO of 16: one is in the
    FIFO and the process sleeps. *)
Definition demo_call : uart := on_wr (fun l => l ++ [Writer [72; 105] [72; 105] false]) uart_init.
Definition demo_asleep : uart := default demo_call (uartwrite 16 0 (Writer [72; 105] [72; 105] false) demo_call).
Lemma demo_asleep_reach : uart_reachable 16 demo_asleep.
Proof.
  eapply rtc_l; [apply (us_call 16 uart_init [72; 105])|]. eapply rtc_l; [eapply (us_write 16 demo_call 0 (Writer [72; 105] [72; 105] false)); reflexivity|]. reflexivity.
Qed.

Lemma uart_output_correct_witness : stores (ByWrite 0) demo_asleep ++ [105] = [72; 105].
Proof.
  destruct (uart_output_correct 16 ltac:(unfold NCPU; lia) demo_asleep demo_asleep_reach) as (_ & _ & H). exact (H 0%nat (Writer [72; 105] [105] true) eq_refl).
Defined.
Lemma uart_writers_woken_witness : u_wr demo_asleep = [Writer [72; 105] [105] true] /\ exists u', rtc hw_step demo_asleep u' /\ all_awake u'.
Proof. split; [reflexivity|]. exact (proj2 (uart_writers_woken 16 ltac:(unfold NCPU; lia) demo_asleep demo_asleep_reach)). Defined.

Lemma uartintr_types_all_witness : wp (uartintr_rx 3 []) (fun _ s' => ed_of s'.2 = Ed [104; 105; 10] [97; 98]) ([97; 98], demo_cons tt).
Proof.
  eapply wp_mono; [apply (uartintr_types_all [] ([97; 98], demo_cons tt)); [cbn; repeat constructor; lia|apply demo_cons_inv]|]. intros ? s' (_ & _ & ->). vm_compute. reflexivity.
Defined.
