(* ===== verification/Bytes.v ===== *)
(** Fields of C structures inside blocks.

    A disk block is a list of bytes; a struct in it is read and written
    through its fields, each an unsigned little-endian number of [k] bytes
    at an offset. *)
From S2P Require Import Prelude Mem.

(** [bs] stored over [d] at offset [off]. *)
Definition overwrite (off : Z) (bs d : list Z) : list Z :=
  take (Z.to_nat off) d ++ bs ++ drop (Z.to_nat off + length bs) d.
(** [len] bytes of [d] from offset [off]. *)
Definition slice (off len : Z) (d : list Z) : list Z := take (Z.to_nat len) (drop (Z.to_nat off) d).

Definition getn (k : nat) (off : Z) (d : list Z) : Z := le_decode (slice off (Z.of_nat k) d).
Definition putn (k : nat) (off v : Z) (d : list Z) : list Z := overwrite off (le_encode k v) d.

Definition fits (off : Z) (n : nat) (d : list Z) : Prop := 0 <= off /\ off + Z.of_nat n <= Z.of_nat (length d).

Lemma length_overwrite off bs d : fits off (length bs) d -> length (overwrite off bs d) = length d.
Proof. intros [H0 H]. unfold overwrite. rewrite !length_app, length_take, length_drop. lia. Qed.

Lemma lookup_overwrite off bs d i : fits off (length bs) d ->
  overwrite off bs d !! i =
    if (off <=? Z.of_nat i) && (Z.of_nat i <? off + Z.of_nat (length bs)) then bs !! (i - Z.to_nat off)%nat else d !! i.
Proof.
  intros [H0 H]. unfold overwrite. destruct (decide (Z.of_nat i < off)) as [Hlt|Hge].
  - rewrite lookup_app_l by (rewrite length_take; lia). rewrite lookup_take_lt by lia. zcases; done.
  - rewrite lookup_app_r by (rewrite length_take; lia). rewrite length_take, Nat.min_l by lia.
    destruct (decide (Z.of_nat i < off + Z.of_nat (length bs))).
    + rewrite lookup_app_l by lia. zcases; done.
    + rewrite lookup_app_r by lia. rewrite lookup_drop. zcases; try (f_equal; lia).
Qed.

Lemma lookup_slice off len d i : 0 <= off -> Z.of_nat i < len -> slice off len d !! i = d !! (Z.to_nat off + i)%nat.
Proof. intros H0 H. unfold slice. rewrite lookup_take_lt by lia. by rewrite lookup_drop. Qed.

Lemma length_slice off len d : 0 <= off -> 0 <= len -> off + len <= Z.of_nat (length d) -> Z.of_nat (length (slice off len d)) = len.
Proof. intros. unfold slice. rewrite length_take, length_drop. lia. Qed.

Lemma slice_overwrite_eq off bs d : fits off (length bs) d -> slice off (Z.of_nat (length bs)) (overwrite off bs d) = bs.
Proof.
  intros Hf. pose proof Hf as [H0 H]. unfold slice, overwrite. rewrite Nat2Z.id.
  rewrite drop_app_ge by (rewrite length_take; lia). rewrite length_take, Nat.min_l, Nat.sub_diag, drop_0 by lia.
  by rewrite take_app_le, take_ge by lia.
Qed.

Lemma slice_overwrite_ne off bs d off' len' : fits off (length bs) d -> 0 <= off' -> 0 <= len' ->
  off' + len' <= off \/ off + Z.of_nat (length bs) <= off' ->
  slice off' len' (overwrite off bs d) = slice off' len' d.
Proof.
  intros Hf H0 Hl Hd. unfold slice. apply list_eq. intros i. destruct (decide (i < Z.to_nat len')%nat) as [Hi|Hi].
  - rewrite !lookup_take_lt, !lookup_drop, lookup_overwrite by (lia || done). zcases; done.
  - rewrite !lookup_take_ge by lia. done.
Qed.

Lemma overwrite_bytes off bs d : byte_list bs -> byte_list d -> byte_list (overwrite off bs d).
Proof. intros H1 H2. unfold overwrite. apply Forall_app_2; [by apply Forall_take|]. apply Forall_app_2; [done|by apply Forall_drop]. Qed.

Lemma length_putn k off v d : fits off k d -> length (putn k off v d) = length d.
Proof. intros H. apply length_overwrite. by rewrite length_le_encode. Qed.
Lemma putn_bytes k off v d : byte_list d -> byte_list (putn k off v d).
Proof. intros H. apply overwrite_bytes; [apply le_encode_bytes|done]. Qed.
Lemma fits_putn k off v d off' n : fits off k d -> fits off' n (putn k off v d) <-> fits off' n d.
Proof. intros H. unfold fits. by rewrite length_putn. Qed.

Lemma getn_putn_eq k off v d : fits off k d -> getn k off (putn k off v d) = v mod 2 ^ (8 * Z.of_nat k).
Proof.
  intros H. unfold getn, putn. pose proof (slice_overwrite_eq off (le_encode k v) d) as E.
  rewrite length_le_encode in E. rewrite E by done. apply le_decode_encode.
Qed.
Lemma getn_putn_ne k off v d k' off' : fits off k d -> 0 <= off' ->
  off' + Z.of_nat k' <= off \/ off + Z.of_nat k <= off' -> getn k' off' (putn k off v d) = getn k' off' d.
Proof.
  intros H H0 Hd. unfold getn, putn. rewrite slice_overwrite_ne; rewrite ?length_le_encode; try done; lia.
Qed.
Lemma slice_putn_ne k off v d off' len' : fits off k d -> 0 <= off' -> 0 <= len' ->
  off' + len' <= off \/ off + Z.of_nat k <= off' -> slice off' len' (putn k off v d) = slice off' len' d.
Proof. intros H H0 Hl Hd. unfold putn. apply slice_overwrite_ne; rewrite ?length_le_encode; done. Qed.

Lemma getn_range k off d : byte_list d -> fits off k d -> 0 <= getn k off d < 2 ^ (8 * Z.of_nat k).
Proof.
  intros Hb [H0 H]. unfold getn. pose proof (length_slice off (Z.of_nat k) d) as Hl.
  pose proof (le_decode_range (slice off (Z.of_nat k) d)) as Hr.
  assert (Z.of_nat (length (slice off (Z.of_nat k) d)) = Z.of_nat k) as E by (apply Hl; lia).
  rewrite E in Hr. apply Hr. unfold slice. by apply Forall_take, Forall_drop.
Qed.

(** An array of 32-bit numbers at [off]. *)
Definition get_arr (n : nat) (off : Z) (d : list Z) : list Z := (fun i => getn 4 (off + 4 * Z.of_nat i) d) <$> seq 0 n.
Fixpoint put_arr (off : Z) (vs d : list Z) : list Z :=
  match vs with
  | [] => d
  | v :: vs => put_arr (off + 4) vs (putn 4 off v d)
  end.

Lemma length_put_arr off vs d : fits off (4 * length vs) d -> length (put_arr off vs d) = length d.
Proof.
  revert off d. induction vs as [|v vs IH]; intros off d [H0 H]; [done|]. cbn [put_arr length] in *.
  assert (fits off 4 d) by (split; lia). rewrite IH; [by apply length_putn|]. split; [lia|]. rewrite length_putn by done. lia.
Qed.

Lemma getn_put_arr_ne off vs d k' off' : fits off (4 * length vs) d -> 0 <= off' ->
  off' + Z.of_nat k' <= off \/ off + 4 * Z.of_nat (length vs) <= off' -> getn k' off' (put_arr off vs d) = getn k' off' d.
Proof.
  revert off d. induction vs as [|v vs IH]; intros off d [H0 H] Ho Hd; [done|]. cbn [put_arr length] in *.
  assert (fits off 4 d) by (split; lia). rewrite IH; [apply getn_putn_ne; (done || lia)| |done|lia].
  split; [lia|]. rewrite length_putn by done. lia.
Qed.

Lemma getn_put_arr off vs d i v : fits off (4 * length vs) d -> vs !! i = Some v ->
  getn 4 (off + 4 * Z.of_nat i) (put_arr off vs d) = u32 v.
Proof.
  revert off d i. induction vs as [|w vs IH]; intros off d i [H0 H] Hi; [done|]. cbn [put_arr length] in *.
  assert (fits off 4 d) by (split; lia). assert (Hf' : fits (off + 4) (4 * length vs) (putn 4 off w d)).
  { split; [lia|]. rewrite length_putn by done. lia. }
  destruct i as [|i]; simpl in Hi.
  - injection Hi as ->. rewrite Z.add_0_r, getn_put_arr_ne by (done || lia). by rewrite getn_putn_eq.
  - replace (off + 4 * Z.of_nat (S i)) with (off + 4 + 4 * Z.of_nat i) by lia. by apply IH.
Qed.

Lemma put_arr_bytes off vs d : byte_list d -> byte_list (put_arr off vs d).
Proof. revert off d. induction vs as [|v vs IH]; intros off d H; [done|]. simpl. by apply IH, putn_bytes. Qed.

Lemma get_put_arr off vs d : fits off (4 * length vs) d -> Forall (fun v => 0 <= v < 2 ^ 32) vs ->
  get_arr (length vs) off (put_arr off vs d) = vs.
Proof.
  intros Hf Hv. unfold get_arr. apply list_eq. intros i. rewrite list_lookup_fmap.
  destruct (decide (i < length vs)%nat) as [Hi|Hi].
  - rewrite lookup_seq_lt by done. simpl. destruct (lookup_lt_is_Some_2 vs i Hi) as [v Ev].
    rewrite (getn_put_arr off vs d i v) by done. rewrite Ev, u32_small; [done|]. by apply (Forall_lookup_1 _ _ _ _ Hv Ev).
  - rewrite lookup_seq_ge by lia. simpl. by rewrite lookup_ge_None_2 by lia.
Qed.
