(* ===== verification/Blocks.v ===== *)
(** The block layer as the file system sees it.

    kernel/fs.c works on blocks through a few calls: bread(), the data of
    the buffer, log_write(), brelse(), begin_op()/end_op() around an
    operation, and initlog() at boot.  [Blocks] names them; [BlocksOk] states what they promise
    inside a transaction, in terms of the contents of every block, the
    buffers held, the blocks changed but not logged yet, and the space left
    in the log.  The buffer cache and the log implement the interface. *)
From S2P Require Import Prelude Mem Spinlock Bio BioSpec BCache Log LogSpec.

Class Blocks (S : Type) := {
  bk_bread : Z -> Z -> M S nat;         (** bread(dev, blockno) *)
  bk_data : nat -> S -> list Z;         (** b->data *)
  bk_set : nat -> list Z -> M S unit;   (** stores to b->data *)
  bk_log_write : nat -> M S unit;
  bk_brelse : nat -> M S unit;
  bk_begin_op : M S unit;
  bk_end_op : M S unit;
  bk_initlog : Z -> Z -> M S unit       (** initlog(dev, sb), of sb its logstart *)
}.

(** [kv]: the contents of every block; [kheld]: the block each buffer held
    by the caller contains; [kdirty]: blocks changed and not passed to
    log_write() yet; [kroom]: how many more log_write()s fit. *)
Record kst := Kst { kv : Z -> list Z; kheld : gmap nat Z; kdirty : gset Z; kroom : Z }.
Definition k_hold (i : nat) (n : Z) (k : kst) : kst := Kst (kv k) (<[i := n]> (kheld k)) (kdirty k) (kroom k).
Definition k_drop (i : nat) (k : kst) : kst := Kst (kv k) (delete i (kheld k)) (kdirty k) (kroom k).
Definition k_set (n : Z) (d : list Z) (k : kst) : kst :=
  Kst (fun m => if m =? n then d else kv k m) (kheld k) ({[n]} ∪ kdirty k) (kroom k).
Definition k_log (n : Z) (k : kst) : kst := Kst (kv k) (kheld k) (kdirty k ∖ {[n]}) (kroom k - 1).

Class BlocksOk (S : Type) {C : Blocks S} (dev : Z) := {
  bk_rep : S -> kst -> Prop;
  loggable : Z -> Prop;
  bk_bread_ok s k n : bk_rep s k -> (forall i m, kheld k !! i = Some m -> m <> n) -> (size (kheld k) <= 2)%nat ->
    wp (bk_bread dev n) (fun i s' => kheld k !! i = None /\ bk_rep s' (k_hold i n k)) s;
  bk_data_ok s k i n : bk_rep s k -> kheld k !! i = Some n -> bk_data i s = kv k n;
  bk_set_ok s k i n d : bk_rep s k -> kheld k !! i = Some n -> wp (bk_set i d) (fun _ s' => bk_rep s' (k_set n d k)) s;
  bk_log_ok s k i n : bk_rep s k -> kheld k !! i = Some n -> 1 <= kroom k -> loggable n ->
    wp (bk_log_write i) (fun _ s' => bk_rep s' (k_log n k)) s;
  bk_brelse_ok s k i n : bk_rep s k -> kheld k !! i = Some n -> n ∉ kdirty k ->
    wp (bk_brelse i) (fun _ s' => bk_rep s' (k_drop i k)) s;
  bk_ext s k k' : bk_rep s k -> (forall n, kv k n = kv k' n) -> kheld k = kheld k' ->
    (forall n, n ∈ kdirty k <-> n ∈ kdirty k') -> kroom k = kroom k' -> bk_rep s k'
}.

(** * The log implements the interface *)

(** [me] is the process that runs the operation. *)
Definition log_blocks (me : Z) : Blocks logst := {|
  bk_bread dev n := onb (bread me dev n);
  bk_data i s := b_data (getb i (lg_bio s));
  bk_set i d := onb (modb i (set_data d));
  bk_log_write := log_write;
  bk_brelse i := onb (brelse me i);
  bk_begin_op := begin_op;
  bk_end_op := end_op me;
  bk_initlog := initlog me
|}.

Section instance.
Context (me dev start : Z).

(** The state of an open transaction, as the interface describes it.  Three
    buffers are kept free for reading. *)
Record log_rep (s : logst) (k : kst) (c : cst) (bl : list Z) : Prop := {
  lr_tx : open_tx me s c bl;
  lr_dev : lg_dev s = dev;
  lr_start : lg_start s = start;
  lr_out : 1 <= kroom k -> 1 <= lg_outstanding s;
  lr_view : forall n, cv c n = kv k n;
  lr_held : forall n, n ∈ cH c <-> exists i, kheld k !! i = Some n;
  lr_bufs : forall i n, kheld k !! i = Some n -> buf_is (lg_bio s) i n;
  lr_clean : forall n, n ∈ cH c -> n ∉ kdirty k -> n ∈ cP c \/ cv c n = dblock (cd c) n;
  lr_room : Z.of_nat (length bl) + kroom k + 3 <= LOGBLOCKS /\ 0 <= kroom k
}.

Lemma size_list_to_set_le (l : list Z) : (size (list_to_set l : gset Z) <= length l)%nat.
Proof.
  induction l as [|x l IH]; [done|]. cbn [list_to_set length]. rewrite size_union_alt, size_singleton.
  assert (Hs : (list_to_set l : gset Z) ∖ {[x]} ⊆ list_to_set l) by set_solver. apply subseteq_size in Hs. simpl. lia.
Qed.

Lemma size_held (k : kst) c : (forall n, n ∈ cH c <-> exists i, kheld k !! i = Some n) -> (size (cH c) <= size (kheld k))%nat.
Proof.
  intros H. assert (E : cH c = map_img (kheld k)).
  { apply set_eq. intros n. rewrite H, elem_of_map_img. done. }
  rewrite E, map_img_alt. rewrite <- length_map_to_list. etransitivity; [apply size_list_to_set_le|]. by rewrite length_fmap.
Qed.

Definition log_loggable (n : Z) : Prop := - 2 ^ 31 <= n < 2 ^ 31 /\ data_block start n.
Definition log_bk (s : logst) (k : kst) : Prop := exists c bl, log_rep s k c bl.

#[local] Existing Instance log_blocks.
#[local] Hint Rewrite @wp_onb : wp.

(** The transaction on another state of the cache. *)
Lemma open_tx_bio s c bl b c' : open_tx me s c bl -> rep me (lg_dev s) b c' -> cP c' = cP c -> open_tx me (set_lg_bio b s) c' bl.
Proof. intros [T1 T2 T3 T4 T5 T6 T7 T8 T9] Hr HP. split; try done. by rewrite HP. Qed.

Lemma length_pins s c bl : open_tx me s c bl -> size (cP c) = length bl.
Proof. intros Ht. rewrite (ot_pins _ _ _ _ Ht). apply size_list_to_set, Ht. Qed.

Lemma log_bread_ok s k n : log_bk s k -> (forall i m, kheld k !! i = Some m -> m <> n) -> (size (kheld k) <= 2)%nat ->
  wp (onb (bread me dev n)) (fun i s' => kheld k !! i = None /\ log_bk s' (k_hold i n k)) s.
Proof.
  intros (c & bl & [Ht Hd Hs Ho Hv Hh Hb Hc [Hr Hr0]]) Hn Hsz. wp_simp.
  assert (HnH : n ∉ cH c) by (rewrite Hh; intros [i Hi]; by eapply Hn).
  pose proof (ot_rep _ _ _ _ Ht) as R. unfold lrep in R. rewrite Hd in R.
  eapply wp_mono; [apply (rep_bread me dev _ c n R HnH)|].
  { right. pose proof (size_held k c Hh). pose proof (length_pins _ _ _ Ht). rewrite size_union_alt.
    assert (Hsub : cH c ∖ cP c ⊆ cH c) by set_solver. apply subseteq_size in Hsub.
    unfold LOGBLOCKS, MAXOPBLOCKS in Hr. change NBUF with 30%nat. lia. }
  intros i s' (R' & Hi & Hst). assert (Hnone : kheld k !! i = None).
  { destruct (kheld k !! i) as [m|] eqn:E; [|done]. exfalso. apply (Hn i m E).
    assert (Hm : buf_is s' i m) by (apply Hst; [apply elem_of_union_r, Hh; eauto|by apply Hb]).
    destruct Hi as (_ & _ & <-). by destruct Hm as (_ & _ & <-). }
  split; [done|]. exists (c_hold n c), bl. split; try done.
  - by apply (open_tx_bio s c); [|rewrite Hd|].
  - intros m. cbn. rewrite elem_of_union, elem_of_singleton, Hh. split.
    + intros [->|[j Hj]]; [exists i; by rewrite lookup_insert_eq|]. exists j. rewrite lookup_insert_ne; [done|].
      intros ->. congruence.
    + intros [j Hj]. destruct (decide (i = j)) as [->|]; [rewrite lookup_insert_eq in Hj; left; congruence|].
      rewrite lookup_insert_ne in Hj by done. eauto.
  - intros j m. cbn. destruct (decide (i = j)) as [->|]; [rewrite lookup_insert_eq; by intros [= <-]|].
    rewrite lookup_insert_ne by done. intros Hj. apply Hst; [apply elem_of_union_r, Hh; eauto|by apply Hb].
  - intros m. cbn. rewrite elem_of_union, elem_of_singleton. intros Hm Hk. destruct (decide (m ∈ cH c)) as [HH|HH]; [auto|].
    destruct (decide (m ∈ cP c)); [by left|]. right. apply (rep_clean _ _ _ _ m R). set_solver.
Qed.

Lemma log_data_ok s k i n : log_bk s k -> kheld k !! i = Some n -> b_data (getb i (lg_bio s)) = kv k n.
Proof.
  intros (c & bl & []) Hi. rewrite <- lr_view0. eapply buf_is_data; [apply lr_tx0|by apply lr_bufs0].
Qed.

Lemma log_set_ok s k i n d : log_bk s k -> kheld k !! i = Some n ->
  wp (onb (modb i (set_data d))) (fun _ s' => log_bk s' (k_set n d k)) s.
Proof.
  intros (c & bl & [Ht Hd Hs Ho Hv Hh Hb Hc [Hr Hr0]]) Hi. wp_simp.
  pose proof (ot_rep _ _ _ _ Ht) as R. unfold lrep in R. rewrite Hd in R.
  assert (HnH : n ∈ cH c) by (apply Hh; eauto).
  eapply wp_mono; [apply (rep_set_data me dev _ c i n d R (Hb _ _ Hi) HnH)|].
  intros ? s' [R' Hst]. exists (c_set n d c), bl. split; try done.
  - by apply (open_tx_bio s c); [|rewrite Hd|].
  - intros m. cbn. by rewrite Hv.
  - intros j m Hj. apply Hst; [apply elem_of_union_r, Hh; eauto|by apply Hb].
  - intros m Hm Hk. cbn in *. destruct (Z.eqb_spec m n) as [->|Hne]; [set_solver|]. apply Hc; [done|set_solver].
Qed.

Lemma log_log_ok s k i n : log_bk s k -> kheld k !! i = Some n -> 1 <= kroom k -> log_loggable n ->
  wp (log_write i) (fun _ s' => log_bk s' (k_log n k)) s.
Proof.
  intros (c & bl & [Ht Hd Hs Ho Hv Hh Hb Hc [Hr Hr0]]) Hi Hroom [Hn1 Hn2].
  assert (HnH : n ∈ cH c) by (apply Hh; eauto).
  eapply wp_mono; [apply (log_write_spec me s c bl i n Ht (Hb _ _ Hi) HnH); try done; [lia|by apply Ho|by rewrite Hs]|].
  intros ? s' (Ht' & Hst & E1 & E2 & E3). set (c' := if decide (n ∈ bl) then c else c_pin n c) in *.
  assert (Ec : cv c' = cv c /\ cH c' = cH c /\ cd c' = cd c /\ cP c ⊆ cP c' /\ n ∈ cP c').
  { unfold c'. case_decide as Hin; cbn; [|set_solver]. rewrite (ot_pins _ _ _ _ Ht). set_solver. }
  destruct Ec as (C1 & C2 & C3 & C4 & C5). exists c', (if decide (n ∈ bl) then bl else bl ++ [n]).
  split; [done|congruence|congruence|cbn; intros _; rewrite E1; by apply Ho|..].
  - intros m. rewrite C1. apply Hv.
  - intros m. rewrite C2. apply Hh.
  - intros j m Hj. apply Hst; [apply elem_of_union_r, Hh; eauto|by apply Hb].
  - intros m. rewrite C1, C2, C3. cbn. intros Hm Hk. destruct (decide (m = n)) as [->|]; [by left|].
    destruct (Hc m Hm) as [?|?]; [set_solver|left; by apply C4|by right].
  - cbn. case_decide; rewrite ?length_app; simpl; lia.
Qed.

Lemma log_brelse_ok s k i n : log_bk s k -> kheld k !! i = Some n -> n ∉ kdirty k ->
  wp (onb (brelse me i)) (fun _ s' => log_bk s' (k_drop i k)) s.
Proof.
  intros (c & bl & [Ht Hd Hs Ho Hv Hh Hb Hc [Hr Hr0]]) Hi Hcl. wp_simp.
  pose proof (ot_rep _ _ _ _ Ht) as R. unfold lrep in R. rewrite Hd in R.
  assert (HnH : n ∈ cH c) by (apply Hh; eauto).
  eapply wp_mono; [apply (rep_brelse me dev _ c i n R (Hb _ _ Hi) HnH); auto|].
  intros ? s' [R' Hst]. exists (c_drop n c), bl.
  assert (Hinj : forall j m, delete i (kheld k) !! j = Some m -> kheld k !! j = Some m /\ m <> n).
  { intros j m [Hj Hjm]%lookup_delete_Some. split; [done|]. intros ->. apply Hj.
    by apply (buf_is_uniq me dev _ c _ _ n R); apply Hb. }
  split; try done.
  - by apply (open_tx_bio s c); [|rewrite Hd|].
  - intros m. cbn. rewrite elem_of_difference, elem_of_singleton, Hh. split.
    + intros [[j Hj] Hne]. exists j. apply lookup_delete_Some. split; [|done]. intros ->. congruence.
    + intros [j [Hj Hne]%Hinj]. split; [by exists j|done].
  - intros j m [Hj Hne]%Hinj. apply Hst; [|by apply Hb]. apply elem_of_union_r. cbn. apply elem_of_difference.
    split; [apply Hh; eauto|set_solver].
  - intros m. cbn. intros Hm Hk. apply Hc; [set_solver|done].
Qed.

Lemma log_bk_ext s k k' : log_bk s k -> (forall n, kv k n = kv k' n) -> kheld k = kheld k' ->
  (forall n, n ∈ kdirty k <-> n ∈ kdirty k') -> kroom k = kroom k' -> log_bk s k'.
Proof.
  intros (c & bl & [Ht Hd Hs Ho Hv Hh Hb Hc [Hr Hr0]]) E1 E2 E3 E4. exists c, bl. split; try done.
  - rewrite <- E4. done.
  - intros n. by rewrite Hv.
  - intros n. by rewrite <- E2.
  - intros i n. rewrite <- E2. auto.
  - intros n Hn Hk. apply Hc; [done|]. by rewrite E3.
  - lia.
Qed.

Definition log_blocks_ok : BlocksOk (C := log_blocks me) logst dev :=
  Build_BlocksOk logst (log_blocks me) dev log_bk log_loggable
    log_bread_ok log_data_ok log_set_ok log_log_ok log_brelse_ok log_bk_ext.

End instance.
