(* ===== verification/Fs.v ===== *)
(** The file system, kernel/fs.c.

    Written against the block layer ([Blocks]) and user memory ([UserMem]).
    The in-memory inode table is a list of NINODE entries, and an inode
    pointer an index into it; null results are [None].  printf() messages
    are not modelled. *)
From S2P Require Import Prelude Mem Str Spinlock UserMem Bytes Blocks Bio.

Definition ROOTDEV : Z := 1.
Definition ROOTINO : Z := 1.
Definition NINODE : nat := 50.
Definition FSMAGIC : Z := 270544960.
Definition NDIRECT : Z := 12.
Definition NINDIRECT : Z := BSIZE / 4.
Definition MAXFILE : Z := NDIRECT + NINDIRECT.
Definition DINODE_SZ : Z := 64.
Definition IPB : Z := BSIZE / DINODE_SZ.
Definition BPB : Z := BSIZE * 8.
Definition DIRSIZ : Z := 14.
Definition DIRENT_SZ : Z := 16.
Definition T_DIR : Z := 1.
Definition T_FILE : Z := 2.
Definition T_DEVICE : Z := 3.

Record superblock := Superblock {
  sb_magic : Z; sb_size : Z; sb_nblocks : Z; sb_ninodes : Z; sb_nlog : Z; sb_logstart : Z;
  sb_inodestart : Z; sb_bmapstart : Z }.

(** In-memory inode, struct inode of kernel/file.h. *)
Record inode := Inode {
  i_dev : Z; i_inum : Z; i_ref : Z; i_lock : sleeplock; i_valid : bool;
  i_type : Z; i_major : Z; i_minor : Z; i_nlink : Z; i_size : Z; i_addrs : list Z }.
Definition inode0 : inode := Inode 0 0 0 initsleeplock false 0 0 0 0 0 (replicate 13 0).
Definition set_i_ref r ip := Inode (i_dev ip) (i_inum ip) r (i_lock ip) (i_valid ip) (i_type ip) (i_major ip) (i_minor ip) (i_nlink ip) (i_size ip) (i_addrs ip).
Definition set_i_id d n ip := Inode d n 1 (i_lock ip) false (i_type ip) (i_major ip) (i_minor ip) (i_nlink ip) (i_size ip) (i_addrs ip).
Definition set_i_lock l ip := Inode (i_dev ip) (i_inum ip) (i_ref ip) l (i_valid ip) (i_type ip) (i_major ip) (i_minor ip) (i_nlink ip) (i_size ip) (i_addrs ip).
Definition set_i_valid v ip := Inode (i_dev ip) (i_inum ip) (i_ref ip) (i_lock ip) v (i_type ip) (i_major ip) (i_minor ip) (i_nlink ip) (i_size ip) (i_addrs ip).
Definition set_i_type t ip := Inode (i_dev ip) (i_inum ip) (i_ref ip) (i_lock ip) (i_valid ip) t (i_major ip) (i_minor ip) (i_nlink ip) (i_size ip) (i_addrs ip).
Definition set_i_devno j n ip := Inode (i_dev ip) (i_inum ip) (i_ref ip) (i_lock ip) (i_valid ip) (i_type ip) j n (i_nlink ip) (i_size ip) (i_addrs ip).
Definition set_i_nlink n ip := Inode (i_dev ip) (i_inum ip) (i_ref ip) (i_lock ip) (i_valid ip) (i_type ip) (i_major ip) (i_minor ip) n (i_size ip) (i_addrs ip).
Definition set_i_size z ip := Inode (i_dev ip) (i_inum ip) (i_ref ip) (i_lock ip) (i_valid ip) (i_type ip) (i_major ip) (i_minor ip) (i_nlink ip) z (i_addrs ip).
Definition set_i_addrs a ip := Inode (i_dev ip) (i_inum ip) (i_ref ip) (i_lock ip) (i_valid ip) (i_type ip) (i_major ip) (i_minor ip) (i_nlink ip) (i_size ip) a.

(** struct dinode at offset [o] of an inode block: into an in-memory inode
    and back. *)
Definition load_dinode (o : Z) (d : list Z) (ip : inode) : inode :=
  Inode (i_dev ip) (i_inum ip) (i_ref ip) (i_lock ip) (i_valid ip)
    (s16 (getn 2 o d)) (s16 (getn 2 (o + 2) d)) (s16 (getn 2 (o + 4) d)) (s16 (getn 2 (o + 6) d))
    (getn 4 (o + 8) d) (get_arr 13 (o + 12) d).
Definition store_dinode (o : Z) (ip : inode) (d : list Z) : list Z :=
  put_arr (o + 12) (i_addrs ip) (putn 4 (o + 8) (i_size ip) (putn 2 (o + 6) (i_nlink ip)
    (putn 2 (o + 4) (i_minor ip) (putn 2 (o + 2) (i_major ip) (putn 2 o (i_type ip) d))))).

Definition IBLOCK (i : Z) (sb : superblock) : Z := i / IPB + sb_inodestart sb.
Definition BBLOCK (b : Z) (sb : superblock) : Z := b / BPB + sb_bmapstart sb.
Definition IOFF (i : Z) : Z := i mod IPB * DINODE_SZ.

Record fsst (S U : Type) := Fsst {
  fs_blk : S; fs_um : U; fs_sb : superblock; it_lock : lockst; it_inode : list inode }.
Arguments Fsst {S U}. Arguments fs_blk {S U}. Arguments fs_um {S U}. Arguments fs_sb {S U}.
Arguments it_lock {S U}. Arguments it_inode {S U}.

(** Where readi() copies to and writei() copies from. *)
Inductive dest (P : Type) := ToUser (p : P) (a : Z) | ToKernel.
Inductive source (P : Type) := FromUser (p : P) (a : Z) | FromKernel (bs : list Z).
Arguments ToUser {P}. Arguments ToKernel {P}. Arguments FromUser {P}. Arguments FromKernel {P}.

Section fs.
Context {S U P : Type} `{BK : Blocks S} `{UM : UserMem U P}.
(** The pid of the running process and the inode of its working directory. *)
Context (me : Z).
Implicit Types s : fsst S U.
Abbreviation FM := (M (fsst S U)).

Definition set_fs_blk (b : S) s := Fsst b (fs_um s) (fs_sb s) (it_lock s) (it_inode s).
Definition set_fs_um (u : U) s := Fsst (fs_blk s) u (fs_sb s) (it_lock s) (it_inode s).
Definition set_fs_sb b s := Fsst (fs_blk s) (fs_um s) b (it_lock s) (it_inode s).
Definition set_it_lock l s := Fsst (fs_blk s) (fs_um s) (fs_sb s) l (it_inode s).
Definition set_it_inode f s := Fsst (fs_blk s) (fs_um s) (fs_sb s) (it_lock s) (f (it_inode s)).

Definition onk {A} (m : M S A) : FM A := zoom fs_blk set_fs_blk m.
Definition onum {A} (m : M U A) : FM A := zoom fs_um set_fs_um m.
Definition bdata (b : nat) : FM (list Z) := gets (fun s => bk_data b (fs_blk s)).
Definition geti (ip : nat) s : inode := default inode0 (it_inode s !! ip).
Definition modi (ip : nat) (f : inode -> inode) : FM unit := modify (set_it_inode (alter f ip)).
Definition on_ilock {A} (ip : nat) (m : M sleeplock A) : FM A :=
  zoom (fun s => i_lock (geti ip s)) (fun l => set_it_inode (alter (set_i_lock l) ip)) m.
Definition it_acquire : FM unit := lock_acquire it_lock set_it_lock.
Definition it_release : FM unit := lock_release it_lock set_it_lock.

Definition readsb (dev : Z) : FM unit :=
  let! bp := onk (bk_bread dev 1) in
  let! d := bdata bp in
  modify (set_fs_sb (Superblock (getn 4 0 d) (getn 4 4 d) (getn 4 8 d) (getn 4 12 d) (getn 4 16 d) (getn 4 20 d)
    (getn 4 24 d) (getn 4 28 d))) ;;
  onk (bk_brelse bp).

(** * Blocks *)

Definition bzero (dev bno : Z) : FM unit :=
  let! bp := onk (bk_bread dev bno) in
  onk (bk_set bp (replicate (Z.to_nat BSIZE) 0)) ;;
  onk (bk_log_write bp) ;;
  onk (bk_brelse bp).

Definition byte_at (d : list Z) (i : Z) : Z := default 0 (d !! Z.to_nat i).
(** [d[bi/8] & (1 << (bi % 8))], [|=] and [&= ~]. *)
Definition bit_test (d : list Z) (bi : Z) : bool := negb (Z.land (byte_at d (bi / 8)) (Z.shiftl 1 (bi mod 8)) =? 0).
Definition bit_set (d : list Z) (bi : Z) : list Z :=
  <[Z.to_nat (bi / 8) := Z.lor (byte_at d (bi / 8)) (Z.shiftl 1 (bi mod 8))]> d.
Definition bit_clear (d : list Z) (bi : Z) : list Z :=
  <[Z.to_nat (bi / 8) := u8 (Z.land (byte_at d (bi / 8)) (Z.lnot (Z.shiftl 1 (bi mod 8))))]> d.

(** The inner loop of balloc(): the first clear bit from [bi] on. *)
Fixpoint balloc_find (n : nat) (d : list Z) (b bi size : Z) : option Z :=
  match n with
  | O => None
  | Datatypes.S n =>
      if (bi <? BPB) && (b + bi <? size) then
        if bit_test d bi then balloc_find n d b (bi + 1) size else Some bi
      else None
  end.
Fixpoint balloc_loop (fuel : nat) (dev b : Z) : FM Z :=
  let! sb := gets fs_sb in
  if b <? sb_size sb then
    match fuel with
    | O => nofuel
    | Datatypes.S fuel =>
        let! bp := onk (bk_bread dev (BBLOCK b sb)) in
        let! d := bdata bp in
        match balloc_find (Z.to_nat BPB) d b 0 (sb_size sb) with
        | Some bi =>
            onk (bk_set bp (bit_set d bi)) ;;
            onk (bk_log_write bp) ;;
            onk (bk_brelse bp) ;;
            bzero dev (b + bi) ;;
            ret (b + bi)
        | None => onk (bk_brelse bp) ;; balloc_loop fuel dev (b + BPB)
        end
    end
  else ret 0.
Definition balloc (dev : Z) : FM Z :=
  let! sb := gets fs_sb in balloc_loop (Z.to_nat (sb_size sb / BPB + 1)) dev 0.

Definition bfree (dev b : Z) : FM unit :=
  let! sb := gets fs_sb in
  let! bp := onk (bk_bread dev (BBLOCK b sb)) in
  let! d := bdata bp in
  if negb (bit_test d (b mod BPB)) then panic "freeing free block" else
  onk (bk_set bp (bit_clear d (b mod BPB))) ;;
  onk (bk_log_write bp) ;;
  onk (bk_brelse bp).

(** * Inodes *)

Definition iinit : FM unit :=
  modify (set_it_lock Free) ;; modify (set_it_inode (fmap (set_i_lock initsleeplock))).

(** The scan of iget(): a table entry for the inode, or the first empty
    one. *)
Fixpoint iget_scan (l : list inode) (i : nat) (empty : option nat) (dev inum : Z) : nat + option nat :=
  match l with
  | [] => inr empty
  | ip :: l =>
      if (0 <? i_ref ip) && (i_dev ip =? dev) && (i_inum ip =? inum) then inl i
      else iget_scan l (Datatypes.S i) (match empty with
        | None => if i_ref ip =? 0 then Some i else None
        | Some e => Some e
        end) dev inum
  end.
Definition iget (dev inum : Z) : FM nat :=
  it_acquire ;;
  let! l := gets it_inode in
  match iget_scan l 0 None dev inum with
  | inl ip => modi ip (fun x => set_i_ref (i_ref x + 1) x) ;; it_release ;; ret ip
  | inr None => panic "iget: no inodes"
  | inr (Some ip) => modi ip (set_i_id dev inum) ;; it_release ;; ret ip
  end.

(** [for(inum = 1; inum < sb.ninodes; inum++)] *)
Fixpoint ialloc_loop (fuel : nat) (dev type inum : Z) : FM (option nat) :=
  let! sb := gets fs_sb in
  if inum <? sb_ninodes sb then
    match fuel with
    | O => nofuel
    | Datatypes.S fuel =>
        let! bp := onk (bk_bread dev (IBLOCK inum sb)) in
        let! d := bdata bp in
        if s16 (getn 2 (IOFF inum) d) =? 0 then
          onk (bk_set bp (putn 2 (IOFF inum) type (overwrite (IOFF inum) (replicate (Z.to_nat DINODE_SZ) 0) d))) ;;
          onk (bk_log_write bp) ;;
          onk (bk_brelse bp) ;;
          let! ip := iget dev inum in ret (Some ip)
        else
          onk (bk_brelse bp) ;; ialloc_loop fuel dev type (inum + 1)
    end
  else ret None.
Definition ialloc (dev type : Z) : FM (option nat) :=
  let! sb := gets fs_sb in ialloc_loop (Z.to_nat (sb_ninodes sb)) dev type 1.

Definition iupdate (ip : nat) : FM unit :=
  let! sb := gets fs_sb in
  let! x := gets (geti ip) in
  let! bp := onk (bk_bread (i_dev x) (IBLOCK (i_inum x) sb)) in
  let! d := bdata bp in
  onk (bk_set bp (store_dinode (IOFF (i_inum x)) x d)) ;;
  onk (bk_log_write bp) ;;
  onk (bk_brelse bp).

Definition idup (ip : nat) : FM nat :=
  it_acquire ;; modi ip (fun x => set_i_ref (i_ref x + 1) x) ;; it_release ;; ret ip.

Definition ilock (ip : nat) : FM unit :=
  let! x := gets (geti ip) in
  if i_ref x <? 1 then panic "ilock" else
  on_ilock ip (acquiresleep me) ;;
  let! x := gets (geti ip) in
  if i_valid x then ret tt else
  let! sb := gets fs_sb in
  let! bp := onk (bk_bread (i_dev x) (IBLOCK (i_inum x) sb)) in
  let! d := bdata bp in
  modi ip (load_dinode (IOFF (i_inum x)) d) ;;
  onk (bk_brelse bp) ;;
  modi ip (set_i_valid true) ;;
  let! x := gets (geti ip) in
  if i_type x =? 0 then panic "ilock: no type" else ret tt.

Definition iunlock (ip : nat) : FM unit :=
  let! h := on_ilock ip (holdingsleep me) in
  let! x := gets (geti ip) in
  if negb h || (i_ref x <? 1) then panic "iunlock" else on_ilock ip releasesleep.

(** * Contents *)

Definition addr_at (ip : nat) (i : Z) s : Z := default 0 (i_addrs (geti ip s) !! Z.to_nat i).
Definition set_addr (ip : nat) (i a : Z) : FM unit :=
  modi ip (fun x => set_i_addrs (<[Z.to_nat i := a]> (i_addrs x)) x).

(** The direct case of bmap(): block [i] of the inode's own array, allocated
    if it is missing. *)
Definition bmap_slot (ip : nat) (i : Z) : FM Z :=
  let! a := gets (addr_at ip i) in
  if a =? 0 then
    let! x := gets (geti ip) in
    let! a := balloc (i_dev x) in
    if a =? 0 then ret 0 else set_addr ip i a ;; ret a
  else ret a.
(** The rest of the indirect case: entry [bn] of the indirect block [addr]. *)
Definition bmap_entry (ip : nat) (addr bn : Z) : FM Z :=
  let! x := gets (geti ip) in
  let! bp := onk (bk_bread (i_dev x) addr) in
  let! d := bdata bp in
  let! addr :=
    (if getn 4 (4 * bn) d =? 0 then
       let! a := balloc (i_dev x) in
       (if a =? 0 then ret tt else
        onk (bk_set bp (putn 4 (4 * bn) a d)) ;;
        onk (bk_log_write bp)) ;;
       ret a
     else ret (getn 4 (4 * bn) d)) in
  onk (bk_brelse bp) ;;
  ret addr.
Definition bmap (ip : nat) (bn : Z) : FM Z :=
  if bn <? NDIRECT then bmap_slot ip bn else
  let bn := bn - NDIRECT in
  if bn <? NINDIRECT then
    let! addr := bmap_slot ip NDIRECT in
    if addr =? 0 then ret 0 else bmap_entry ip addr bn
  else panic "bmap: out of range".

(** [for(i = 0; i < NDIRECT; i++)] *)
Fixpoint itrunc_direct (n : nat) (ip : nat) (i : Z) : FM unit :=
  match n with
  | O => ret tt
  | Datatypes.S n =>
      let! a := gets (addr_at ip i) in
      (if a =? 0 then ret tt else
       let! x := gets (geti ip) in
       bfree (i_dev x) a ;; set_addr ip i 0) ;;
      itrunc_direct n ip (i + 1)
  end.
(** [for(j = 0; j < NINDIRECT; j++)] *)
Fixpoint itrunc_indirect (n : nat) (dev : Z) (bp : nat) (j : Z) : FM unit :=
  match n with
  | O => ret tt
  | Datatypes.S n =>
      let! d := bdata bp in
      (if getn 4 (4 * j) d =? 0 then ret tt else bfree dev (getn 4 (4 * j) d)) ;;
      itrunc_indirect n dev bp (j + 1)
  end.
Definition itrunc (ip : nat) : FM unit :=
  itrunc_direct (Z.to_nat NDIRECT) ip 0 ;;
  let! a := gets (addr_at ip NDIRECT) in
  (if a =? 0 then ret tt else
   let! x := gets (geti ip) in
   let! bp := onk (bk_bread (i_dev x) a) in
   itrunc_indirect (Z.to_nat NINDIRECT) (i_dev x) bp 0 ;;
   onk (bk_brelse bp) ;;
   bfree (i_dev x) a ;;
   set_addr ip NDIRECT 0) ;;
  modi ip (set_i_size 0) ;;
  iupdate ip.

Definition iput (ip : nat) : FM unit :=
  it_acquire ;;
  let! x := gets (geti ip) in
  (if (i_ref x =? 1) && i_valid x && (i_nlink x =? 0) then
     on_ilock ip (acquiresleep me) ;;
     it_release ;;
     itrunc ip ;;
     modi ip (set_i_type 0) ;;
     iupdate ip ;;
     modi ip (set_i_valid false) ;;
     on_ilock ip releasesleep ;;
     it_acquire
   else ret tt) ;;
  modi ip (fun x => set_i_ref (i_ref x - 1) x) ;;
  it_release.

Definition iunlockput (ip : nat) : FM unit := iunlock ip ;; iput ip.

(** [for (int inum = 1; inum < sb.ninodes; inum++)] *)
Fixpoint ireclaim_loop (fuel : nat) (dev inum : Z) : FM unit :=
  let! sb := gets fs_sb in
  if inum <? sb_ninodes sb then
    match fuel with
    | O => nofuel
    | Datatypes.S fuel =>
        let! bp := onk (bk_bread dev (IBLOCK inum sb)) in
        let! d := bdata bp in
        let o := IOFF inum in
        let! ip := (if negb (s16 (getn 2 o d) =? 0) && (s16 (getn 2 (o + 6) d) =? 0)
                    then let! ip := iget dev inum in ret (Some ip) else ret None) in
        onk (bk_brelse bp) ;;
        match ip with
        | Some ip => onk bk_begin_op ;; ilock ip ;; iunlock ip ;; iput ip ;; onk bk_end_op
        | None => ret tt
        end ;;
        ireclaim_loop fuel dev (inum + 1)
    end
  else ret tt.
Definition ireclaim (dev : Z) : FM unit :=
  let! sb := gets fs_sb in ireclaim_loop (Z.to_nat (sb_ninodes sb)) dev 1.

Definition fsinit (dev : Z) : FM unit :=
  readsb dev ;;
  let! sb := gets fs_sb in
  if negb (sb_magic sb =? FSMAGIC) then panic "invalid file system" else
  onk (bk_initlog dev (sb_logstart sb)) ;;
  ireclaim dev.

(** stati(): dev, ino, type, nlink, size of struct stat. *)
Definition stati (ip : nat) s : Z * Z * Z * Z * Z :=
  let x := geti ip s in (i_dev x, i_inum x, i_type x, i_nlink x, i_size x).

(** either_copyout() and either_copyin() of kernel/proc.c; [k] is how far the
    pointer has advanced. *)
Definition either_copyout (d : dest P) (k : Z) (bs : list Z) : FM Z :=
  match d with
  | ToUser p a => onum (um_out p (u64 (a + k)) bs)
  | ToKernel => ret 0
  end.
Definition either_copyin (src : source P) (k len : Z) : FM (list Z * bool) :=
  match src with
  | FromUser p a => onum (um_in p (u64 (a + k)) len)
  | FromKernel bs => ret (slice k len bs, true)
  end.

(** The loop of readi(); the result is the count and the bytes copied. *)
Fixpoint readi_loop (fuel : nat) (ip : nat) (d : dest P) (off n tot : Z) : FM (Z * list Z) :=
  if tot <? n then
    match fuel with
    | O => nofuel
    | Datatypes.S fuel =>
        let! addr := bmap ip (off / BSIZE) in
        if addr =? 0 then ret (tot, []) else
        let! x := gets (geti ip) in
        let! bp := onk (bk_bread (i_dev x) addr) in
        let m := Z.min (n - tot) (BSIZE - off mod BSIZE) in
        let! data := bdata bp in
        let bs := slice (off mod BSIZE) m data in
        let! r := either_copyout d tot bs in
        onk (bk_brelse bp) ;;
        if r =? -1 then ret (-1, []) else
        let! (t, rest) := readi_loop fuel ip d (off + m) n (tot + m) in
        ret (t, bs ++ rest)
    end
  else ret (tot, []).
Definition readi (ip : nat) (d : dest P) (off n : Z) : FM (Z * list Z) :=
  let! x := gets (geti ip) in
  if (i_size x <? off) || (u32 (off + n) <? off) then ret (0, []) else
  let n := if i_size x <? u32 (off + n) then i_size x - off else n in
  readi_loop (Z.to_nat (n / BSIZE + 2)) ip d off n 0.

(** The loop of writei(); the result is [tot] and [off]. *)
Fixpoint writei_loop (fuel : nat) (ip : nat) (src : source P) (off n tot : Z) : FM (Z * Z) :=
  if tot <? n then
    match fuel with
    | O => nofuel
    | Datatypes.S fuel =>
        let! addr := bmap ip (off / BSIZE) in
        if addr =? 0 then ret (tot, off) else
        let! x := gets (geti ip) in
        let! bp := onk (bk_bread (i_dev x) addr) in
        let m := Z.min (n - tot) (BSIZE - off mod BSIZE) in
        let! data := bdata bp in
        let! (bs, ok) := either_copyin src tot m in
        onk (bk_set bp (overwrite (off mod BSIZE) bs data)) ;;
        if negb ok then onk (bk_brelse bp) ;; ret (tot, off) else
        onk (bk_log_write bp) ;;
        onk (bk_brelse bp) ;;
        writei_loop fuel ip src (off + m) n (tot + m)
    end
  else ret (tot, off).
Definition writei (ip : nat) (src : source P) (off n : Z) : FM Z :=
  let! x := gets (geti ip) in
  if (i_size x <? off) || (u32 (off + n) <? off) then ret (-1) else
  if MAXFILE * BSIZE <? u32 (off + n) then ret (-1) else
  let! (tot, off) := writei_loop (Z.to_nat (n / BSIZE + 2)) ip src off n 0 in
  (if i_size x <? off then modi ip (set_i_size off) else ret tt) ;;
  iupdate ip ;;
  ret tot.

(** * Directories *)

(** The name buffers, side by side in memory. *)
Definition namecmp (s t : list Z) : Z := strncmp (st_bytes (st_bytes ∅ 0 s) 64 t) 0 64 DIRSIZ.
Definition name_copy (name : list Z) : list Z :=
  ld_bytes (strncpy (st_bytes ∅ 64 name) 0 64 DIRSIZ) 0 (Z.to_nat DIRSIZ).

Definition de_inum (de : list Z) : Z := getn 2 0 de.
Definition de_name (de : list Z) : list Z := slice 2 DIRSIZ de.

(** The loop of dirlookup(): the inode and the offset of its entry. *)
Fixpoint dirlookup_loop (fuel : nat) (dp : nat) (name : list Z) (off : Z) : FM (option (nat * Z)) :=
  let! x := gets (geti dp) in
  if off <? i_size x then
    match fuel with
    | O => nofuel
    | Datatypes.S fuel =>
        let! (r, de) := readi dp ToKernel off DIRENT_SZ in
        if negb (r =? DIRENT_SZ) then panic "dirlookup read" else
        if de_inum de =? 0 then dirlookup_loop fuel dp name (off + DIRENT_SZ) else
        if namecmp name (de_name de) =? 0 then
          let! ip := iget (i_dev x) (de_inum de) in ret (Some (ip, off))
        else dirlookup_loop fuel dp name (off + DIRENT_SZ)
    end
  else ret None.
Definition dirlookup (dp : nat) (name : list Z) : FM (option (nat * Z)) :=
  let! x := gets (geti dp) in
  if negb (i_type x =? T_DIR) then panic "dirlookup not DIR" else
  dirlookup_loop (Z.to_nat (i_size x / DIRENT_SZ + 1)) dp name 0.

(** The search of dirlink() for an empty entry: its offset. *)
Fixpoint dirlink_find (fuel : nat) (dp : nat) (off : Z) : FM Z :=
  let! x := gets (geti dp) in
  if off <? i_size x then
    match fuel with
    | O => nofuel
    | Datatypes.S fuel =>
        let! (r, de) := readi dp ToKernel off DIRENT_SZ in
        if negb (r =? DIRENT_SZ) then panic "dirlink read" else
        if de_inum de =? 0 then ret off else dirlink_find fuel dp (off + DIRENT_SZ)
    end
  else ret off.
Definition dirlink (dp : nat) (name : list Z) (inum : Z) : FM Z :=
  let! r := dirlookup dp name in
  match r with
  | Some (ip, _) => iput ip ;; ret (-1)
  | None =>
      let! x := gets (geti dp) in
      let! off := dirlink_find (Z.to_nat (i_size x / DIRENT_SZ + 1)) dp 0 in
      let! r := writei dp (FromKernel (le_encode 2 inum ++ name_copy name)) off DIRENT_SZ in
      if r =? DIRENT_SZ then ret 0 else ret (-1)
  end.

(** * Paths

    A path is the list of its bytes, without the terminating NUL; the
    pointer returned by skipelem() is the rest of the list. *)

Definition SLASH : Z := 47.
Fixpoint skip_slashes (path : list Z) : list Z :=
  match path with
  | c :: rest => if c =? SLASH then skip_slashes rest else path
  | [] => []
  end.
(** The bytes up to the next '/' or the end, and what follows. *)
Fixpoint take_elem (path : list Z) : list Z * list Z :=
  match path with
  | c :: rest => if c =? SLASH then ([], path) else let '(e, r) := take_elem rest in (c :: e, r)
  | [] => ([], [])
  end.
(** [name] is the buffer of DIRSIZ bytes: a short element is followed by a
    NUL and whatever the buffer held, a long one is cut. *)
Definition skipelem (path name : list Z) : option (list Z * list Z) :=
  match skip_slashes path with
  | [] => None
  | path =>
      let '(e, rest) := take_elem path in
      let name :=
        if DIRSIZ <=? Z.of_nat (length e) then overwrite 0 (take (Z.to_nat DIRSIZ) e) name
        else overwrite 0 (e ++ [0]) name in
      Some (skip_slashes rest, name)
  end.

(** The loop of namex(): the inode, and the last value of [name]. *)
Fixpoint namex_loop (fuel : nat) (ip : nat) (path : list Z) (parent : bool) (name : list Z) : FM (option nat * list Z) :=
  match skipelem path name with
  | None => if parent then iput ip ;; ret (None, name) else ret (Some ip, name)
  | Some (path, name) =>
      match fuel with
      | O => nofuel
      | Datatypes.S fuel =>
          ilock ip ;;
          let! x := gets (geti ip) in
          if negb (i_type x =? T_DIR) then iunlockput ip ;; ret (None, name) else
          if parent && (match path with [] => true | _ => false end) then iunlock ip ;; ret (Some ip, name) else
          let! next := dirlookup ip name in
          match next with
          | None => iunlockput ip ;; ret (None, name)
          | Some (next, _) => iunlockput ip ;; namex_loop fuel next path parent name
          end
      end
  end.
Definition namex (cwd : nat) (path : list Z) (parent : bool) (name : list Z) : FM (option nat * list Z) :=
  let! ip := (match path with
    | c :: _ => if c =? SLASH then iget ROOTDEV ROOTINO else idup cwd
    | [] => idup cwd
    end) in
  namex_loop (length path) ip path parent name.

Definition namei (cwd : nat) (path : list Z) : FM (option nat) :=
  let! (r, _) := namex cwd path false (replicate (Z.to_nat DIRSIZ) 0) in ret r.
Definition nameiparent (cwd : nat) (path name : list Z) : FM (option nat * list Z) := namex cwd path true name.

End fs.
