(* ===== verification/FsSpec.v ===== *)
(** The free-block bitmap and the block map of an inode: the invariant of
    the on-disk structures and what balloc(), bfree() and bmap() do to
    them. *)
From S2P Require Import Prelude Mem Str Spinlock UserMem Bytes Blocks Bio Fs.

(** * Bits of a bitmap block *)

Lemma bit_test_eq d i : 0 <= i -> bit_test d i = Z.testbit (byte_at d (i / 8)) (i mod 8).
Proof.
  intros Hi. pose proof (Z.mod_pos_bound i 8 ltac:(lia)). unfold bit_test.
  rewrite Z.shiftl_mul_pow2, Z.mul_1_l by lia. rewrite land_pow2_testbit by lia. apply negb_involutive.
Qed.

Lemma byte_at_insert d i j v : 0 <= i -> 0 <= j -> i < Z.of_nat (length d) ->
  byte_at (<[Z.to_nat i := v]> d) j = if i =? j then v else byte_at d j.
Proof.
  intros Hi Hj Hl. unfold byte_at. destruct (Z.eqb_spec i j) as [->|Hne].
  - by rewrite list_lookup_insert_eq by lia.
  - rewrite list_lookup_insert_ne by lia. done.
Qed.

Lemma bit_split i j : 0 <= i -> 0 <= j -> i = j <-> i / 8 = j / 8 /\ i mod 8 = j mod 8.
Proof.
  intros Hi Hj. split; [by intros ->|]. intros [H1 H2].
  rewrite (Z.div_mod i 8), (Z.div_mod j 8), H1, H2 by lia. done.
Qed.

Lemma bit_test_set d i j : 0 <= i -> 0 <= j -> i / 8 < Z.of_nat (length d) ->
  bit_test (bit_set d i) j = (i =? j) || bit_test d j.
Proof.
  intros Hi Hj Hl. rewrite !bit_test_eq by done. unfold bit_set.
  pose proof (Z.mod_pos_bound i 8 ltac:(lia)). pose proof (Z.mod_pos_bound j 8 ltac:(lia)).
  rewrite byte_at_insert by (done || apply Z.div_pos; lia). destruct (Z.eqb_spec (i / 8) (j / 8)) as [E|E].
  - rewrite Z.lor_spec, Z.shiftl_mul_pow2, Z.mul_1_l, Z.pow2_bits_eqb by lia. rewrite E, orb_comm. f_equal.
    apply eq_iff_eq_true. rewrite !Z.eqb_eq, (bit_split i j) by done. tauto.
  - destruct (Z.eqb_spec i j) as [->|]; done.
Qed.

Lemma bit_test_clear d i j : 0 <= i -> 0 <= j -> i / 8 < Z.of_nat (length d) ->
  bit_test (bit_clear d i) j = negb (i =? j) && bit_test d j.
Proof.
  intros Hi Hj Hl. rewrite !bit_test_eq by done. unfold bit_clear.
  pose proof (Z.mod_pos_bound i 8 ltac:(lia)). pose proof (Z.mod_pos_bound j 8 ltac:(lia)).
  rewrite byte_at_insert by (done || apply Z.div_pos; lia). destruct (Z.eqb_spec (i / 8) (j / 8)) as [E|E].
  - unfold u8. rewrite Z.mod_pow2_bits_low by lia.
    rewrite Z.land_spec, Z.lnot_spec, Z.shiftl_mul_pow2, Z.mul_1_l, Z.pow2_bits_eqb by lia. rewrite E, andb_comm. f_equal. f_equal.
    apply eq_iff_eq_true. rewrite !Z.eqb_eq, (bit_split i j) by done. tauto.
  - destruct (Z.eqb_spec i j) as [->|]; done.
Qed.

Lemma byte_at_range d i : byte_list d -> 0 <= byte_at d i < 2 ^ 8.
Proof.
  intros H. unfold byte_at. destruct (d !! Z.to_nat i) eqn:E; simpl; [|lia]. by apply (Forall_lookup_1 _ _ _ _ H E).
Qed.

Lemma lor_byte a k : 0 <= a < 2 ^ 8 -> 0 <= k < 8 -> 0 <= Z.lor a (Z.shiftl 1 k) < 2 ^ 8.
Proof.
  intros Ha Hk. rewrite Z.shiftl_mul_pow2, Z.mul_1_l by lia.
  assert (H0 : 0 <= Z.lor a (2 ^ k)) by (apply Z.lor_nonneg; lia).
  split; [done|]. destruct (Z.eq_dec (Z.lor a (2 ^ k)) 0) as [->|Hne]; [lia|].
  apply Z.log2_lt_pow2; [lia|]. rewrite Z.log2_lor by lia. rewrite Z.log2_pow2 by lia.
  apply Z.max_lub_lt; [|lia]. destruct (Z.eq_dec a 0) as [->|]; [done|]. apply Z.log2_lt_pow2; lia.
Qed.

Lemma bit_set_bytes d i : byte_list d -> byte_list (bit_set d i).
Proof.
  intros H. apply Forall_insert; [done|]. apply lor_byte; [by apply byte_at_range|apply Z.mod_pos_bound; lia].
Qed.
Lemma bit_clear_bytes d i : byte_list d -> byte_list (bit_clear d i).
Proof. intros H. apply Forall_insert; [done|]. apply u8_range. Qed.

Lemma balloc_find_spec n d b bi size r : balloc_find n d b bi size = r -> 0 <= bi -> BPB - bi <= Z.of_nat n ->
  match r with
  | Some x => bi <= x < BPB /\ b + x < size /\ bit_test d x = false /\ forall j, bi <= j < x -> bit_test d j = true
  | None => forall j, bi <= j < BPB -> b + j < size -> bit_test d j = true
  end.
Proof.
  revert bi. induction n as [|n IH]; intros bi; simpl.
  - intros <- H0 Hn j Hj. lia.
  - destruct (Z.ltb_spec bi BPB), (Z.ltb_spec (b + bi) size); cbn [andb].
    2-4: intros <- H0' Hn j Hj ?; lia.
    destruct (bit_test d bi) eqn:E.
    + intros Hr H0' Hn. specialize (IH (bi + 1) Hr ltac:(lia) ltac:(lia)). destruct r as [x|].
      * destruct IH as (? & ? & ? & Hj). split; [lia|]. split; [done|]. split; [done|]. intros j Hj'. destruct (Z.eq_dec j bi) as [->|]; [done|]. apply Hj. lia.
      * intros j Hj Hs. destruct (Z.eq_dec j bi) as [->|]; [done|]. apply IH; lia.
    + intros <- H0' Hn. split; [lia|]. split; [done|]. split; [done|]. intros j Hj. lia.
Qed.

Lemma BPB_eq : BPB = 8192. Proof. done. Qed.

Section spec.
Context {S U P : Type} `{BK : Blocks S} `{UM : UserMem U P} (dev : Z) `{BO : !BlocksOk S dev}.
Implicit Types s : fsst S U.
Implicit Types k : kst.
Implicit Types sb : superblock.

(** * Steps of the block layer inside the file system *)

(** A block replaced in the transaction: bread, store, log_write, brelse. *)
Definition k_put (n : Z) (d : list Z) k : kst :=
  Kst (fun m => if m =? n then d else kv k m) (kheld k) (kdirty k) (kroom k - 1).

Definition unheld (n : Z) k : Prop := forall i m, kheld k !! i = Some m -> m <> n.

Lemma wp_onk {A} (m : M S A) (Q : A -> fsst S U -> Prop) s : wp (onk m) Q s = wp m (fun a b => Q a (set_fs_blk b s)) (fs_blk s).
Proof. apply wp_zoom. Qed.

Lemma wp_bread (Q : nat -> fsst S U -> Prop) s k n :
  bk_rep (fs_blk s) k -> unheld n k -> (size (kheld k) <= 2)%nat ->
  (forall i b, kheld k !! i = None -> bk_rep b (k_hold i n k) -> Q i (set_fs_blk b s)) ->
  wp (onk (bk_bread dev n)) Q s.
Proof.
  intros Hr Hn Hs HQ. rewrite wp_onk. eapply wp_mono; [by apply (bk_bread_ok _ k)|].
  intros i b [H1 H2]. by apply HQ.
Qed.

Lemma wp_bdata (Q : list Z -> fsst S U -> Prop) s k i n :
  bk_rep (fs_blk s) k -> kheld k !! i = Some n -> Q (kv k n) s -> wp (bdata i) Q s.
Proof. intros Hr Hi HQ. unfold bdata. rewrite wp_gets. by rewrite (bk_data_ok _ k i n). Qed.

(** brelse() of a buffer that was only read. *)
Lemma wp_brelse (Q : unit -> fsst S U -> Prop) s k i n :
  bk_rep (fs_blk s) (k_hold i n k) -> kheld k !! i = None -> n ∉ kdirty k ->
  (forall b, bk_rep b k -> Q tt (set_fs_blk b s)) -> wp (onk (bk_brelse i)) Q s.
Proof.
  intros Hr Hi Hd HQ. rewrite wp_onk. eapply wp_mono; [apply (bk_brelse_ok _ _ i n Hr); [by apply lookup_insert_eq|done]|].
  intros [] b Hb. apply HQ. apply (bk_ext _ _ _ Hb); try done. cbn. by apply delete_insert_id.
Qed.

(** The sequence that changes a block, last in a function and not. *)
Lemma wp_put_last (Q : unit -> fsst S U -> Prop) s k i n d :
  bk_rep (fs_blk s) (k_hold i n k) -> kheld k !! i = None -> kdirty k = ∅ -> 1 <= kroom k -> loggable n ->
  (forall b, bk_rep b (k_put n d k) -> Q tt (set_fs_blk b s)) ->
  wp (onk (bk_set i d)) (fun _ s1 => wp (onk (bk_log_write i) ;; onk (bk_brelse i)) Q s1) s.
Proof.
  intros Hr Hi Hd Hroom Hlog HQ. rewrite wp_onk.
  eapply wp_mono; [apply (bk_set_ok _ _ i n d Hr); apply lookup_insert_eq|]. intros [] b1 R1. rewrite wp_bind, wp_onk.
  eapply wp_mono; [apply (bk_log_ok _ _ i n R1); [apply lookup_insert_eq|done|done]|]. intros [] b2 R2. rewrite wp_onk.
  eapply wp_mono; [apply (bk_brelse_ok _ _ i n R2); [apply lookup_insert_eq|cbn; set_solver]|]. intros [] b3 R3.
  apply HQ. apply (bk_ext _ _ _ R3); try done; cbn; [by apply delete_insert_id|rewrite Hd; set_solver].
Qed.

Lemma wp_put {A} (rest : M (fsst S U) A) (Q : A -> fsst S U -> Prop) s k i n d :
  bk_rep (fs_blk s) (k_hold i n k) -> kheld k !! i = None -> kdirty k = ∅ -> 1 <= kroom k -> loggable n ->
  (forall b, bk_rep b (k_put n d k) -> wp rest Q (set_fs_blk b s)) ->
  wp (onk (bk_set i d)) (fun _ s1 => wp (onk (bk_log_write i) ;; onk (bk_brelse i) ;; rest) Q s1) s.
Proof.
  intros Hr Hi Hd Hroom Hlog HQ. eapply wp_mono; [apply (wp_put_last (fun _ => wp rest Q) s k i n d); try done; apply HQ|].
  intros ? s1 H. cbv beta in *. rewrite wp_bind in H. rewrite wp_bind. eapply wp_mono; [exact H|]. intros ? s2 H2. by rewrite wp_bind.
Qed.

(** * The invariant of the disk layout *)

(** Is block [b] marked in use? *)
Definition used sb k (b : Z) : bool := bit_test (kv k (BBLOCK b sb)) (b mod BPB).

Definition in_fs sb (n : Z) : Prop := 0 <= n < sb_size sb.
Definition bitmap_block sb (n : Z) : Prop := exists b, in_fs sb b /\ n = BBLOCK b sb.

Record fs_wf sb k : Prop := {
  wf_clean : kdirty k = ∅;
  wf_blk : forall n, in_fs sb n -> length (kv k n) = Z.to_nat BSIZE /\ byte_list (kv k n);
  wf_bm : forall n, bitmap_block sb n -> in_fs sb n /\ used sb k n = true /\ loggable n;
  wf_zero : in_fs sb 0 /\ used sb k 0 = true;
  wf_free : forall b, in_fs sb b -> used sb k b = false -> loggable b
}.

(** The caller holds blocks in use, none of them a block of the bitmap. *)
Definition held_ok sb k : Prop := forall i m, kheld k !! i = Some m -> in_fs sb m /\ used sb k m = true /\ ~ bitmap_block sb m.

Definition zero_blk : list Z := replicate (Z.to_nat BSIZE) 0.
(** The effect of a successful allocation of [b], and of freeing it. *)
Definition k_alloc sb (b : Z) k : kst := k_put b zero_blk (k_put (BBLOCK b sb) (bit_set (kv k (BBLOCK b sb)) (b mod BPB)) k).
Definition k_free sb (b : Z) k : kst := k_put (BBLOCK b sb) (bit_clear (kv k (BBLOCK b sb)) (b mod BPB)) k.

Lemma bb_split sb b c : 0 <= b -> 0 <= c -> BBLOCK b sb = BBLOCK c sb -> b mod BPB = c mod BPB -> b = c.
Proof.
  intros Hb Hc H1 H2. unfold BBLOCK in H1. rewrite (Z.div_mod b BPB), (Z.div_mod c BPB) by done. f_equal; [f_equal; lia|lia].
Qed.

Lemma mod_byte b : 0 <= b mod BPB < BPB /\ b mod BPB / 8 < BSIZE.
Proof.
  pose proof (Z.mod_pos_bound b BPB ltac:(done)). split; [done|]. rewrite BPB_eq in *. unfold BSIZE.
  apply Z.div_lt_upper_bound; lia.
Qed.

Lemma used_alloc sb k b c : fs_wf sb k -> in_fs sb b -> used sb k b = false -> in_fs sb c ->
  used sb (k_alloc sb b k) c = (b =? c) || used sb k c.
Proof.
  intros W Hb Hu Hc. pose proof (mod_byte b) as [Hm Hm8]. pose proof (mod_byte c) as [Hc0 _].
  destruct (wf_bm _ _ W (BBLOCK c sb)) as (Hin & Hub & _); [by exists c|].
  unfold used at 1, k_alloc, k_put. cbn [kv]. destruct (Z.eqb_spec (BBLOCK c sb) b) as [E|E]; [congruence|].
  destruct (Z.eqb_spec (BBLOCK c sb) (BBLOCK b sb)) as [E'|E'].
  - assert (Hbm : bitmap_block sb (BBLOCK b sb)) by (by exists b). destruct (wf_bm _ _ W _ Hbm) as [Hbi _].
    rewrite bit_test_set; [|lia|lia|rewrite (proj1 (wf_blk _ _ W _ Hbi)); lia]. unfold used. rewrite E'. f_equal.
    apply eq_iff_eq_true. rewrite !Z.eqb_eq. split; [intros H; apply (bb_split sb); unfold in_fs in *; (done || lia)|by intros ->].
  - destruct (Z.eqb_spec b c) as [->|]; done.
Qed.

Lemma used_free sb k b c : fs_wf sb k -> in_fs sb b -> in_fs sb c ->
  used sb (k_free sb b k) c = negb (b =? c) && used sb k c.
Proof.
  intros W Hb Hc. pose proof (mod_byte b) as [Hm Hm8]. pose proof (mod_byte c) as [Hc0 _].
  unfold used at 1, k_free, k_put. cbn [kv]. destruct (Z.eqb_spec (BBLOCK c sb) (BBLOCK b sb)) as [E'|E'].
  - assert (Hbm : bitmap_block sb (BBLOCK b sb)) by (by exists b). destruct (wf_bm _ _ W _ Hbm) as [Hbi _].
    rewrite bit_test_clear; [|lia|lia|rewrite (proj1 (wf_blk _ _ W _ Hbi)); lia]. unfold used. rewrite E'. do 2 f_equal.
    apply eq_iff_eq_true. rewrite !Z.eqb_eq. split; [intros H; apply (bb_split sb); unfold in_fs in *; (done || lia)|by intros ->].
  - destruct (Z.eqb_spec b c) as [->|]; done.
Qed.


(** Replacing the contents of a block keeps the lengths. *)
Lemma put_blk sb n d k m : (forall n, in_fs sb n -> length (kv k n) = Z.to_nat BSIZE /\ byte_list (kv k n)) ->
  length d = Z.to_nat BSIZE -> byte_list d ->
  in_fs sb m -> length (kv (k_put n d k) m) = Z.to_nat BSIZE /\ byte_list (kv (k_put n d k) m).
Proof. intros H Hd Hb Hm. unfold k_put. cbn [kv]. destruct (m =? n); [done|by apply H]. Qed.

Lemma zero_blk_ok : length zero_blk = Z.to_nat BSIZE /\ byte_list zero_blk.
Proof. split; [apply length_replicate|]. apply Forall_replicate. lia. Qed.

Lemma bm_in sb b : in_fs sb b -> bitmap_block sb (BBLOCK b sb).
Proof. by exists b. Qed.

Lemma wf_alloc sb k b : fs_wf sb k -> in_fs sb b -> used sb k b = false -> fs_wf sb (k_alloc sb b k).
Proof.
  intros W Hb Hu. destruct (wf_bm _ _ W _ (bm_in sb b Hb)) as (Hin & Hub & _).
  destruct (wf_blk _ _ W _ Hin) as [L1 L2]. split.
  - apply W.
  - intros n Hn. apply (put_blk sb); [|apply zero_blk_ok..|done]. intros m Hm.
    apply (put_blk sb); [apply W|unfold bit_set; by rewrite length_insert|by apply bit_set_bytes|done].
  - intros n Hn. destruct (wf_bm _ _ W n Hn) as (H1 & H2 & H3). split_and!; try done.
    rewrite used_alloc by done. by rewrite H2, orb_true_r.
  - destruct (wf_zero _ _ W) as [H1 H2]. split; [done|]. rewrite used_alloc by done. by rewrite H2, orb_true_r.
  - intros c Hc. rewrite used_alloc by done. intros [_ H]%orb_false_iff. by apply (wf_free _ _ W).
Qed.

Lemma wf_freed sb k b : fs_wf sb k -> in_fs sb b -> ~ bitmap_block sb b -> b <> 0 -> loggable b -> fs_wf sb (k_free sb b k).
Proof.
  intros W Hb Hnb H0 Hl. destruct (wf_bm _ _ W _ (bm_in sb b Hb)) as (Hin & Hub & _).
  destruct (wf_blk _ _ W _ Hin) as [L1 L2]. split.
  - apply W.
  - intros n Hn. apply (put_blk sb); [apply W|unfold bit_clear; by rewrite length_insert|by apply bit_clear_bytes|done].
  - intros n Hn. destruct (wf_bm _ _ W n Hn) as (H1 & H2 & H3). split_and!; try done.
    rewrite used_free by done. rewrite H2, andb_true_r. apply negb_true_iff, Z.eqb_neq. by intros ->.
  - destruct (wf_zero _ _ W) as [H1 H2]. split; [done|]. rewrite used_free by done. rewrite H2, andb_true_r.
    by apply negb_true_iff, Z.eqb_neq.
  - intros c Hc. rewrite used_free by done. intros [H%negb_false_iff%Z.eqb_eq|H]%andb_false_iff; [by subst|].
    by apply (wf_free _ _ W).
Qed.

Lemma held_unheld sb k n : held_ok sb k -> bitmap_block sb n -> unheld n k.
Proof. intros Hh Hb i m Hm ->. by destruct (Hh i n Hm) as (_ & _ & ?). Qed.

Lemma bzero_spec (Q : unit -> fsst S U -> Prop) s k bno :
  bk_rep (fs_blk s) k -> unheld bno k -> (size (kheld k) <= 2)%nat -> kdirty k = ∅ -> 1 <= kroom k -> loggable bno ->
  (forall b, bk_rep b (k_put bno zero_blk k) -> Q tt (set_fs_blk b s)) -> wp (bzero dev bno) Q s.
Proof.
  intros Hr Hh Hs Hd Hroom Hl HQ. unfold bzero. wp_simp. apply (wp_bread _ s k bno); [done..|].
  intros i b1 Hi R1. cbv beta. wp_simp. by apply (wp_put_last _ _ k i bno).
Qed.

Lemma bm_index sb b x : b mod BPB = 0 -> 0 <= x < BPB -> (b + x) mod BPB = x /\ BBLOCK (b + x) sb = BBLOCK b sb.
Proof.
  intros Hb Hx. unfold BBLOCK. pose proof (Z.div_mod b BPB ltac:(done)) as E. rewrite Hb, Z.add_0_r in E.
  remember (b / BPB) as q eqn:Eq. clear Eq Hb. subst b. split.
  - rewrite Z.mul_comm, Z.add_comm, Z.mod_add by done. by apply Z.mod_small.
  - rewrite (Z.mul_comm BPB q), Z.div_add_l, Z.div_small by (done || lia). lia.
Qed.

(** The search has covered every block below [b + x]. *)
Lemma covered sb k b x : b mod BPB = 0 -> 0 <= b -> x <= BPB ->
  (forall c, 0 <= c < b -> in_fs sb c -> used sb k c = true) ->
  (forall j, 0 <= j < x -> b + j < sb_size sb -> bit_test (kv k (BBLOCK b sb)) j = true) ->
  forall c, 0 <= c < b + x -> in_fs sb c -> used sb k c = true.
Proof.
  intros Hb0 Hb Hx Hpre Hbits c Hc Hin. destruct (decide (c < b)) as [|Hge]; [apply Hpre; (done || lia)|].
  destruct (bm_index sb b (c - b)) as [E1 E2]; [done|lia|]. replace (b + (c - b)) with c in * by lia.
  unfold used. rewrite E1, E2. apply Hbits; unfold in_fs in Hin; lia.
Qed.

(** One bitmap block of balloc(). *)
Lemma balloc_loop_spec (Q : Z -> fsst S U -> Prop) fuel b s k : let sb := fs_sb s in
  bk_rep (fs_blk s) k -> fs_wf sb k -> held_ok sb k -> (size (kheld k) <= 2)%nat -> 2 <= kroom k ->
  0 <= b -> b mod BPB = 0 -> sb_size sb - b <= Z.of_nat fuel * BPB ->
  (forall c, 0 <= c < b -> in_fs sb c -> used sb k c = true) ->
  (forall blk, bk_rep blk k -> (forall c, in_fs sb c -> used sb k c = true) -> Q 0 (set_fs_blk blk s)) ->
  (forall r blk, bk_rep blk (k_alloc sb r k) -> in_fs sb r -> used sb k r = false ->
     (forall c, in_fs sb c -> c < r -> used sb k c = true) -> Q r (set_fs_blk blk s)) ->
  wp (balloc_loop fuel dev b) Q s.
Proof.
  cbv zeta. revert b s k. induction fuel as [|fuel IH]; intros b s k Hr W Hh Hsz Hroom Hb Hb0 Hfuel Hpre Hfull Hok;
    cbn [balloc_loop]; wp_simp; destruct (Z.ltb_spec b (sb_size (fs_sb s))) as [Hlt|Hge]; try lia.
  1,3: wp_simp; replace s with (set_fs_blk (fs_blk s) s) by (by destruct s); apply Hfull; [done|]; intros c Hc; apply Hpre;
    unfold in_fs in *; (done || lia).
  assert (Hbin : in_fs (fs_sb s) b) by (unfold in_fs; lia).
  wp_simp. apply (wp_bread _ s k); [done|by apply (held_unheld (fs_sb s)), bm_in|done|].
  intros i b1 Hi R1. cbv beta. wp_simp. eapply wp_bdata; [exact R1|apply lookup_insert_eq|].
  cbn [kv k_hold].
  destruct (balloc_find _ _ _ _ _) as [x|] eqn:E;
    pose proof (balloc_find_spec _ _ _ _ _ _ E ltac:(lia) ltac:(rewrite BPB_eq; lia)) as F.
  - destruct F as (Hx & Hxs & Hxt & Hxj). assert (Hm : (b + x) mod BPB = x /\ BBLOCK (b + x) (fs_sb s) = BBLOCK b (fs_sb s)).
    { apply bm_index; (done || lia). }
    destruct Hm as [Hm1 Hm2]. wp_simp. apply (wp_put _ _ _ k i (BBLOCK b (fs_sb s))); try done; [apply W|lia|apply (wf_bm _ _ W), (bm_in _ _ Hbin)|].
    intros b2 R2. wp_simp.
    assert (Hin : in_fs (fs_sb s) (b + x)) by (unfold in_fs; lia).
    assert (Hu : used (fs_sb s) k (b + x) = false) by (unfold used; by rewrite Hm1, Hm2).
    apply (bzero_spec _ _ (k_put (BBLOCK b (fs_sb s)) (bit_set (kv k (BBLOCK b (fs_sb s))) x) k)); try done.
    + intros j m Hj ->. destruct (Hh j _ Hj) as (_ & Hu' & _). congruence.
    + apply W.
    + cbn. lia.
    + by apply (wf_free _ _ W).
    + intros b3 R3. wp_simp. apply Hok; try done.
      * unfold k_alloc. by rewrite Hm1, Hm2.
      * intros c Hc Hcx. apply (covered (fs_sb s) k b x); try done; [lia| |unfold in_fs in Hc; lia].
        intros j Hj _. by apply Hxj.
  - wp_simp. apply (wp_brelse _ _ k i (BBLOCK b (fs_sb s))); [done|done|by rewrite (wf_clean _ _ W)|].
    intros b2 R2. apply (IH (b + BPB) (set_fs_blk b2 (set_fs_blk b1 s)) k); try done.
    + rewrite BPB_eq in *. lia.
    + rewrite <- Z.add_mod_idemp_r, Z.mod_same, Z.add_0_r by done. done.
    + cbn. lia.
    + by apply (covered (fs_sb s) k b BPB).
Qed.

(** balloc(): first fit. *)
Lemma balloc_spec (Q : Z -> fsst S U -> Prop) s k : let sb := fs_sb s in
  bk_rep (fs_blk s) k -> fs_wf sb k -> held_ok sb k -> (size (kheld k) <= 2)%nat -> 2 <= kroom k ->
  (forall blk, bk_rep blk k -> (forall c, in_fs sb c -> used sb k c = true) -> Q 0 (set_fs_blk blk s)) ->
  (forall r blk, bk_rep blk (k_alloc sb r k) -> in_fs sb r -> used sb k r = false ->
     (forall c, in_fs sb c -> c < r -> used sb k c = true) -> Q r (set_fs_blk blk s)) ->
  wp (balloc dev) Q s.
Proof.
  intros sb Hr W Hh Hsz Hroom Hf Hok. unfold balloc. wp_simp. destruct (wf_zero _ _ W) as [[_ Hs0] _].
  apply (balloc_loop_spec Q _ 0 s k); try done; [|lia].
  pose proof (Z.div_mod (sb_size (fs_sb s)) BPB ltac:(done)). pose proof (Z.mod_pos_bound (sb_size (fs_sb s)) BPB ltac:(done)).
  pose proof (Z.div_pos (sb_size (fs_sb s)) BPB). rewrite BPB_eq in *. lia.
Qed.

Lemma bfree_spec (Q : unit -> fsst S U -> Prop) s k b : let sb := fs_sb s in
  bk_rep (fs_blk s) k -> fs_wf sb k -> held_ok sb k -> (size (kheld k) <= 2)%nat -> 1 <= kroom k ->
  in_fs sb b -> used sb k b = true ->
  (forall blk, bk_rep blk (k_free sb b k) -> Q tt (set_fs_blk blk s)) ->
  wp (bfree dev b) Q s.
Proof.
  intros sb Hr W Hh Hsz Hroom Hb Hu HQ. unfold bfree. wp_simp.
  apply (wp_bread _ s k); [done|by apply (held_unheld (fs_sb s)), bm_in|done|].
  intros i b1 Hi R1. cbv beta. wp_simp. eapply wp_bdata; [exact R1|apply lookup_insert_eq|].
  cbn [kv k_hold]. unfold used, sb in Hu. rewrite Hu. cbn [negb]. wp_simp.
  apply (wp_put_last _ _ k i (BBLOCK b (fs_sb s))); try done; [apply W|apply (wf_bm _ _ W), (bm_in _ _ Hb)].
Qed.
End spec.
