(* ===== verification/FsFile.v ===== *)
(** The contents of a file: the block map of an inode as a function from
    offsets to bytes, and what bmap(), readi() and writei() do to it. *)
From S2P Require Import Prelude Mem Str Spinlock UserMem Bytes Blocks Bio Fs FsSpec.

Lemma MAXFILE_eq : MAXFILE = 268. Proof. done. Qed.
Lemma NINDIRECT_eq : NINDIRECT = 256. Proof. done. Qed.

Section file.
Context {S U P : Type} `{BK : Blocks S} `{UM : UserMem U P} (dev : Z) `{BO : !BlocksOk S dev}.
Implicit Types s : fsst S U.
Implicit Types k : kst.
Implicit Types sb : superblock.
Implicit Types x : inode.

(** * The block map *)

Definition slot (x : inode) (i : Z) : Z := default 0 (i_addrs x !! Z.to_nat i).
(** The indirect block. *)
Definition ind (x : inode) : Z := slot x NDIRECT.
(** The block that holds block [bn] of the file; 0 if there is none. *)
Definition blk_of k x (bn : Z) : Z :=
  if bn <? NDIRECT then slot x bn
  else if ind x =? 0 then 0 else getn 4 (4 * (bn - NDIRECT)) (kv k (ind x)).
(** The byte of the file at [off]; holes read as 0. *)
Definition fbyte k x (off : Z) : Z :=
  let a := blk_of k x (off / BSIZE) in if a =? 0 then 0 else byte_at (kv k a) (off mod BSIZE).

(** A block that may hold file data. *)
Definition good sb k (a : Z) : Prop :=
  in_fs sb a /\ used sb k a = true /\ ~ bitmap_block sb a /\ loggable a.

Record file_wf sb k x : Prop := {
  fw_len : length (i_addrs x) = 13%nat;
  fw_ind : ind x <> 0 -> good sb k (ind x);
  fw_blk : forall bn, 0 <= bn < MAXFILE -> blk_of k x bn <> 0 -> good sb k (blk_of k x bn) /\ blk_of k x bn <> ind x;
  fw_inj : forall bn bn', 0 <= bn < MAXFILE -> 0 <= bn' < MAXFILE -> blk_of k x bn = blk_of k x bn' ->
    blk_of k x bn <> 0 -> bn = bn'
}.

(** The file may have gained blocks of zeroes; nothing else has changed. *)
Record grown sb k x k' x' : Prop := {
  gr_wf : fs_wf dev sb k';
  gr_file : file_wf sb k' x';
  gr_bytes : forall off, 0 <= off < MAXFILE * BSIZE -> fbyte k' x' off = fbyte k x off;
  gr_meta : x' = set_i_addrs (i_addrs x') x;
  gr_held : kheld k' = kheld k;
  gr_used : forall n, in_fs sb n -> used sb k n = true -> used sb k' n = true;
  gr_frame : forall n, in_fs sb n -> used sb k n = true -> ~ bitmap_block sb n -> n <> ind x -> kv k' n = kv k n;
  gr_ind : ind x' = ind x \/ (in_fs sb (ind x') /\ used sb k (ind x') = false);
  gr_maps : forall bn, 0 <= bn < MAXFILE -> blk_of k x bn <> 0 -> blk_of k' x' bn = blk_of k x bn;
  gr_new : forall bn, 0 <= bn < MAXFILE -> blk_of k x bn = 0 ->
    blk_of k' x' bn = 0 \/ (in_fs sb (blk_of k' x' bn) /\ used sb k (blk_of k' x' bn) = false)
}.


(** ** Allocation and the block map *)

Lemma le_decode_zeros n : le_decode (replicate n 0) = 0.
Proof. induction n as [|n IH]; [done|]. cbn [replicate le_decode]. by rewrite IH. Qed.
Lemma getn_zero n off : getn n off zero_blk = 0.
Proof. unfold getn, slice, zero_blk. rewrite drop_replicate, take_replicate. apply le_decode_zeros. Qed.
Lemma byte_zero i : byte_at zero_blk i = 0.
Proof. unfold byte_at, zero_blk. destruct (replicate _ _ !! _) eqn:E; [|done]. by apply lookup_replicate in E as [-> _]. Qed.

Lemma alloc_frame sb k r n : in_fs sb r -> used sb k r = false -> in_fs sb n -> used sb k n = true -> ~ bitmap_block sb n ->
  kv (k_alloc sb r k) n = kv k n.
Proof.
  intros Hr Hu Hn Hun Hb. unfold k_alloc, k_put. cbn [kv]. destruct (Z.eqb_spec n r) as [->|]; [congruence|].
  destruct (Z.eqb_spec n (BBLOCK r sb)) as [->|]; [|done]. by destruct Hb; exists r.
Qed.

Lemma alloc_at sb k r : kv (k_alloc sb r k) r = zero_blk.
Proof. unfold k_alloc, k_put. cbn [kv]. by rewrite Z.eqb_refl. Qed.

Section alloc.
Context (sb : superblock) (k : kst) (r : Z) (W : fs_wf dev sb k).
Context (Hr : in_fs sb r) (Hu : used sb k r = false).

Lemma good_alloc a : good sb k a -> good sb (k_alloc sb r k) a.
Proof.
  intros (H1 & H2 & H3 & H4). split; [done|]. split; [|done]. rewrite (used_alloc dev) by done. by rewrite H2, orb_true_r.
Qed.
Lemma good_new : good sb (k_alloc sb r k) r.
Proof.
  split; [done|]. split; [|split].
  - rewrite (used_alloc dev) by done. by rewrite Z.eqb_refl.
  - intros Hb. destruct (wf_bm _ _ _ W _ Hb) as (_ & H & _). congruence.
  - by apply (wf_free _ _ _ W).
Qed.
Lemma new_nonzero : r <> 0.
Proof. intros ->. destruct (wf_zero _ _ _ W) as [_ H]. congruence. Qed.
Lemma good_not_new a : good sb k a -> a <> r.
Proof. intros (_ & H & _) ->. congruence. Qed.
Lemma good_same a : good sb k a -> kv (k_alloc sb r k) a = kv k a.
Proof. intros (H1 & H2 & H3 & _). by apply alloc_frame. Qed.

Context (x : inode) (F : file_wf sb k x).

(** The file's map after slot [i] of the inode got block [r]. *)
Definition with_slot (i : Z) : inode := set_i_addrs (<[Z.to_nat i := r]> (i_addrs x)) x.

Lemma slot_with i j : 0 <= i <= NDIRECT -> 0 <= j <= NDIRECT -> slot (with_slot i) j = if j =? i then r else slot x j.
Proof.
  intros Hi Hj. unfold slot, with_slot. cbn [i_addrs set_i_addrs]. pose proof (fw_len _ _ _ F) as L. unfold NDIRECT in *.
  destruct (Z.eqb_spec j i) as [->|Hne].
  - by rewrite list_lookup_insert_eq by lia.
  - by rewrite list_lookup_insert_ne by lia.
Qed.

Lemma blk_with i bn : 0 <= i <= NDIRECT -> slot x i = 0 -> 0 <= bn < MAXFILE ->
  blk_of (k_alloc sb r k) (with_slot i) bn = if (bn =? i) && (i <? NDIRECT) then r else blk_of k x bn.
Proof.
  intros Hi H0 Hbn. unfold blk_of. destruct (Z.ltb_spec bn NDIRECT) as [Hd|Hd].
  - rewrite slot_with by lia. destruct (Z.eqb_spec bn i) as [->|]; [|done]. cbn [andb]. by rewrite (proj2 (Z.ltb_lt i NDIRECT)).
  - replace ((bn =? i) && (i <? NDIRECT)) with false.
    2: { destruct (Z.eqb_spec bn i), (Z.ltb_spec i NDIRECT); try done. lia. }
    unfold ind. rewrite slot_with by (unfold NDIRECT in *; lia). destruct (Z.eqb_spec NDIRECT i) as [<-|Hne].
    + rewrite H0. pose proof new_nonzero. destruct (Z.eqb_spec r 0); [done|]. by rewrite alloc_at, getn_zero.
    + fold (ind x). destruct (Z.eqb_spec (ind x) 0) as [|Hi0]; [done|]. rewrite good_same; [done|]. by apply (fw_ind _ _ _ F).
Qed.

(** What a map that gained block [r] at [b], and nothing else, gives. *)
Lemma fbyte_gain k' x' b : 0 <= b < MAXFILE -> blk_of k x b = 0 ->
  (forall bn, 0 <= bn < MAXFILE -> blk_of k' x' bn = if bn =? b then r else blk_of k x bn) ->
  (forall a, good sb k a -> a <> ind x -> kv k' a = kv k a) -> kv k' r = zero_blk ->
  forall off, 0 <= off < MAXFILE * BSIZE -> fbyte k' x' off = fbyte k x off.
Proof.
  intros Hb H0 Hmap Hsame Hz off Ho. assert (Hbn : 0 <= off / BSIZE < MAXFILE).
  { split; [apply Z.div_pos; [lia|done]|apply Z.div_lt_upper_bound; [done|lia]]. }
  unfold fbyte. rewrite Hmap by done. destruct (Z.eqb_spec (off / BSIZE) b) as [->|Hne].
  - rewrite H0, Hz, byte_zero. by destruct (r =? 0).
  - destruct (Z.eqb_spec (blk_of k x (off / BSIZE)) 0) as [|Hn0]; [done|].
    destruct (fw_blk _ _ _ F _ Hbn Hn0) as [Hg Hi]. by rewrite Hsame.
Qed.

Lemma file_wf_gain k' x' b : 0 <= b < MAXFILE -> blk_of k x b = 0 ->
  length (i_addrs x') = 13%nat -> ind x' = ind x ->
  (forall bn, 0 <= bn < MAXFILE -> blk_of k' x' bn = if bn =? b then r else blk_of k x bn) ->
  (forall a, good sb k a -> good sb k' a) -> good sb k' r -> file_wf sb k' x'.
Proof.
  intros Hb H0 Hlen Hind Hmap Hgood Hgr. split; [done|..].
  - rewrite Hind. intros H. by apply Hgood, (fw_ind _ _ _ F).
  - intros bn Hbn. rewrite Hmap, Hind by done. destruct (Z.eqb_spec bn b) as [->|Hne].
    + intros _. split; [done|]. intros E. destruct (Z.eq_dec (ind x) 0) as [E0|E0]; [by apply new_nonzero; congruence|].
      apply (good_not_new (ind x)); [by apply (fw_ind _ _ _ F)|done].
    + intros Hn0. destruct (fw_blk _ _ _ F bn Hbn Hn0) as [? ?]. split; [by apply Hgood|done].
  - intros bn bn' Hbn Hbn'. rewrite !Hmap by done.
    assert (Hnr : forall m, 0 <= m < MAXFILE -> blk_of k x m <> r).
    { intros m Hm E. pose proof new_nonzero. apply (good_not_new (blk_of k x m)); [|done]. apply (fw_blk _ _ _ F m Hm). congruence. }
    destruct (Z.eqb_spec bn b) as [->|Hne], (Z.eqb_spec bn' b) as [->|Hne']; try done.
    + intros E _. by destruct (Hnr bn' Hbn').
    + intros E _. by destruct (Hnr bn Hbn).
    + by apply (fw_inj _ _ _ F).
Qed.
End alloc.


Lemma slot_ind_len x i r : length (i_addrs (with_slot r x i)) = length (i_addrs x).
Proof. unfold with_slot. cbn. apply length_insert. Qed.

Lemma grow_direct sb k x i r : fs_wf dev sb k -> file_wf sb k x -> 0 <= i < NDIRECT -> slot x i = 0 ->
  in_fs sb r -> used sb k r = false -> grown sb k x (k_alloc sb r k) (with_slot r x i).
Proof.
  intros W F Hi H0 Hr Hu. pose proof (fw_len _ _ _ F) as Hlen.
  assert (Hi12 : 0 <= i < MAXFILE) by (rewrite MAXFILE_eq; unfold NDIRECT in Hi; lia).
  assert (Hmap : forall bn, 0 <= bn < MAXFILE ->
    blk_of (k_alloc sb r k) (with_slot r x i) bn = if bn =? i then r else blk_of k x bn).
  { intros bn Hbn. rewrite (blk_with sb k r W Hr Hu x F i) by (done || lia).
    by rewrite (proj2 (Z.ltb_lt i NDIRECT)), andb_true_r by lia. }
  assert (Hb0 : blk_of k x i = 0) by (unfold blk_of; by rewrite (proj2 (Z.ltb_lt i NDIRECT)) by lia).
  assert (Hind : ind (with_slot r x i) = ind x).
  { unfold ind. rewrite (slot_with sb k r x F) by (unfold NDIRECT in *; lia).
    destruct (Z.eqb_spec NDIRECT i); [lia|done]. }
  split.
  - by apply wf_alloc.
  - apply (file_wf_gain sb k r W Hr Hu x F _ _ i); try done; [by rewrite slot_ind_len|intros a; by apply good_alloc|by apply good_new].
  - apply (fbyte_gain sb k r x F _ _ i); try done; [intros a Hg _; by apply good_same|apply alloc_at].
  - done.
  - done.
  - intros n Hn Hun. rewrite (used_alloc dev) by done. by rewrite Hun, orb_true_r.
  - intros n Hn Hun Hb _. by apply alloc_frame.
  - by left.
  - intros bn Hbn Hn0. rewrite Hmap by done. destruct (Z.eqb_spec bn i) as [->|]; [congruence|done].
  - intros bn Hbn Hn0. rewrite Hmap by done. destruct (Z.eqb_spec bn i) as [->|]; auto.
Qed.

Lemma grow_ind sb k x r : fs_wf dev sb k -> file_wf sb k x -> ind x = 0 ->
  in_fs sb r -> used sb k r = false -> grown sb k x (k_alloc sb r k) (with_slot r x NDIRECT).
Proof.
  intros W F H0 Hr Hu. pose proof (fw_len _ _ _ F) as Hlen.
  assert (Hmap : forall bn, 0 <= bn < MAXFILE -> blk_of (k_alloc sb r k) (with_slot r x NDIRECT) bn = blk_of k x bn).
  { intros bn Hbn. rewrite (blk_with sb k r W Hr Hu x F NDIRECT) by (done || (unfold NDIRECT; lia)).
    by rewrite (Z.ltb_irrefl NDIRECT), andb_false_r. }
  assert (Hind : ind (with_slot r x NDIRECT) = r).
  { unfold ind. rewrite (slot_with sb k r x F) by (unfold NDIRECT in *; lia). by rewrite Z.eqb_refl. }
  split.
  - by apply wf_alloc.
  - split; [by rewrite slot_ind_len|..].
    + intros _. rewrite Hind. by apply good_new.
    + intros bn Hbn. rewrite Hmap, Hind by done. intros Hn0. destruct (fw_blk _ _ _ F bn Hbn Hn0) as [Hg _].
      split; [by apply good_alloc|by apply (good_not_new sb k)].
    + intros bn bn' Hbn Hbn'. rewrite !Hmap by done. by apply (fw_inj _ _ _ F).
  - intros off Ho. unfold fbyte. assert (Hbn : 0 <= off / BSIZE < MAXFILE).
    { split; [apply Z.div_pos; [lia|done]|apply Z.div_lt_upper_bound; [done|lia]]. }
    rewrite Hmap by done. destruct (Z.eqb_spec (blk_of k x (off / BSIZE)) 0) as [|Hn0]; [done|].
    rewrite (good_same sb k r) by (done || apply (fw_blk _ _ _ F _ Hbn Hn0)). done.
  - done.
  - done.
  - intros n Hn Hun. rewrite (used_alloc dev) by done. by rewrite Hun, orb_true_r.
  - intros n Hn Hun Hb _. by apply alloc_frame.
  - right. by rewrite Hind.
  - intros bn Hbn _. by apply Hmap.
  - intros bn Hbn Hn0. left. by rewrite Hmap.
Qed.

(** Writing a block that is not part of the bitmap. *)
Lemma used_put sb k n d b : ~ bitmap_block sb n -> in_fs sb b -> used sb (k_put n d k) b = used sb k b.
Proof.
  intros Hn Hb. unfold used, k_put. cbn [kv]. destruct (Z.eqb_spec (BBLOCK b sb) n) as [<-|]; [|done].
  by destruct Hn; exists b.
Qed.

Lemma wf_put sb k n d : fs_wf dev sb k -> ~ bitmap_block sb n -> length d = Z.to_nat BSIZE -> byte_list d ->
  fs_wf dev sb (k_put n d k).
Proof.
  intros W Hn Hl Hb. split.
  - apply W.
  - intros m Hm. apply (put_blk sb); try done. apply W.
  - intros m Hm. destruct (wf_bm _ _ _ W m Hm) as (H1 & H2 & H3). by rewrite used_put.
  - destruct (wf_zero _ _ _ W) as [H1 H2]. by rewrite used_put.
  - intros b Hbb. rewrite used_put by done. by apply (wf_free _ _ _ W).
Qed.

Lemma good_put sb k n d a : ~ bitmap_block sb n -> good sb (k_put n d k) a <-> good sb k a.
Proof. intros Hn. unfold good. split; intros (H1 & H2 & H3); (split; [done|split; [|done]]); by rewrite used_put in *. Qed.

Lemma entry_fits sb k x e : fs_wf dev sb k -> file_wf sb k x -> ind x <> 0 -> 0 <= e < NINDIRECT -> fits (4 * e) 4 (kv k (ind x)).
Proof.
  intros W F Hi He. destruct (fw_ind _ _ _ F Hi) as (Hin & _). unfold fits. rewrite (proj1 (wf_blk _ _ _ W _ Hin)).
  rewrite NINDIRECT_eq in He. unfold BSIZE. lia.
Qed.

Lemma grow_entry sb k x e r : fs_wf dev sb k -> file_wf sb k x -> ind x <> 0 -> 0 <= e < NINDIRECT ->
  getn 4 (4 * e) (kv k (ind x)) = 0 -> in_fs sb r -> used sb k r = false -> r < 2 ^ 32 ->
  grown sb k x (k_put (ind x) (putn 4 (4 * e) r (kv k (ind x))) (k_alloc sb r k)) x.
Proof.
  intros W F Hi He H0 Hr Hu Hr32. pose proof (fw_ind _ _ _ F Hi) as Hgi. pose proof (entry_fits _ _ _ _ W F Hi He) as Hf.
  pose proof Hgi as (Hin & _ & Hnb & _). destruct (wf_blk _ _ _ W _ Hin) as [L1 L2].
  set (k1 := k_alloc sb r k). set (k2 := k_put (ind x) (putn 4 (4 * e) r (kv k (ind x))) k1).
  assert (Hb : 0 <= e + NDIRECT < MAXFILE) by (rewrite MAXFILE_eq; rewrite NINDIRECT_eq in He; unfold NDIRECT; lia).
  assert (Hb0 : blk_of k x (e + NDIRECT) = 0).
  { unfold blk_of. destruct (Z.ltb_spec (e + NDIRECT) NDIRECT); [lia|]. destruct (Z.eqb_spec (ind x) 0); [done|].
    replace (e + NDIRECT - NDIRECT) with e by lia. done. }
  assert (Hkv : kv k2 (ind x) = putn 4 (4 * e) r (kv k (ind x))) by (unfold k2, k_put; cbn [kv]; by rewrite Z.eqb_refl).
  assert (Hother : forall a, good sb k a -> a <> ind x -> kv k2 a = kv k a).
  { intros a Hg Hne. unfold k2, k_put at 1. cbn [kv]. destruct (Z.eqb_spec a (ind x)); [done|]. by apply good_same. }
  assert (Hmap : forall bn, 0 <= bn < MAXFILE -> blk_of k2 x bn = if bn =? e + NDIRECT then r else blk_of k x bn).
  { intros bn Hbn. unfold blk_of. destruct (Z.ltb_spec bn NDIRECT) as [Hd|Hd].
    - destruct (Z.eqb_spec bn (e + NDIRECT)); [lia|done].
    - destruct (Z.eqb_spec (ind x) 0); [done|]. rewrite Hkv. destruct (Z.eqb_spec bn (e + NDIRECT)) as [->|Hne].
      + replace (e + NDIRECT - NDIRECT) with e by lia. rewrite getn_putn_eq by done. apply Z.mod_small. unfold in_fs in Hr. lia.
      + apply getn_putn_ne; [done|lia|lia]. }
  assert (Hg2 : forall a, good sb k a -> good sb k2 a) by (intros a Hg; apply good_put; [done|by apply good_alloc]).
  assert (Hnr : ind x <> r) by (by apply (good_not_new sb k)).
  split.
  - apply wf_put; [by apply wf_alloc|done|by rewrite length_putn|by apply putn_bytes].
  - apply (file_wf_gain sb k r W Hr Hu x F _ _ (e + NDIRECT)); try done; [apply F|]. apply good_put; [done|by apply good_new].
  - apply (fbyte_gain sb k r x F _ _ (e + NDIRECT)); try done. unfold k2, k_put at 1. cbn [kv].
    destruct (Z.eqb_spec r (ind x)); [congruence|]. apply alloc_at.
  - by destruct x.
  - done.
  - intros n Hn Hun. unfold k2. rewrite used_put by done. unfold k1. rewrite (used_alloc dev) by done. by rewrite Hun, orb_true_r.
  - intros n Hn Hun Hbm Hne. unfold k2, k_put at 1. cbn [kv]. destruct (Z.eqb_spec n (ind x)); [done|]. by apply alloc_frame.
  - by left.
  - intros bn Hbn Hn0. rewrite Hmap by done. destruct (Z.eqb_spec bn (e + NDIRECT)) as [->|]; [congruence|done].
  - intros bn Hbn Hn0. rewrite Hmap by done. destruct (Z.eqb_spec bn (e + NDIRECT)) as [->|]; auto.
Qed.


Lemma grown_refl sb k x : fs_wf dev sb k -> file_wf sb k x -> grown sb k x k x.
Proof. intros W F. split; try done; [by destruct x|by left|by left]. Qed.

Lemma grown_trans sb k x k1 x1 k2 x2 : grown sb k x k1 x1 -> grown sb k1 x1 k2 x2 -> grown sb k x k2 x2.
Proof.
  intros [A1 A2 A3 A4 A5 A6 A7 A8 A9 A10] [B1 B2 B3 B4 B5 B6 B7 B8 B9 B10]. split; try done.
  - intros off Ho. by rewrite B3, A3.
  - rewrite B4, A4. done.
  - by rewrite B5.
  - intros n Hn Hu. by apply B6, A6.
  - intros n Hn Hu Hb Hi. rewrite B7; auto. intros ->. destruct A8 as [A8|[_ A8]]; congruence.
  - destruct B8 as [->|[H1 H2]]; [done|]. right. split; [done|]. destruct (used sb k (ind x2)) eqn:E; [|done].
    by rewrite (A6 _ H1 E) in H2.
  - intros bn Hbn Hn0. rewrite B9; [by apply A9|done|]. by rewrite A9.
  - intros bn Hbn Hn0. destruct (Z.eq_dec (blk_of k1 x1 bn) 0) as [E|E].
    + destruct (B10 bn Hbn E) as [|[H1 H2]]; [by left|right]. split; [done|].
      destruct (used sb k (blk_of k2 x2 bn)) eqn:Eu; [|done]. by rewrite (A6 _ H1 Eu) in H2.
    + rewrite B9 by done. by apply A10.
Qed.

(** * bmap() *)

(** The state after the buffers and inode [ip] have changed. *)
Definition upd (ip : nat) (b : S) (x : inode) s : fsst S U := set_it_inode (fun l => <[ip := x]> l) (set_fs_blk b s).

Lemma alter_insert {A} (f : A -> A) i (l : list A) a : l !! i = Some a -> alter f i l = <[i := f a]> l.
Proof.
  intros H. apply list_eq. intros j. destruct (decide (i = j)) as [->|Hne].
  - rewrite list_lookup_alter_eq, H, list_lookup_insert_eq by (by eapply lookup_lt_Some). done.
  - by rewrite list_lookup_alter_ne, list_lookup_insert_ne.
Qed.

Lemma geti_eq ip s x : it_inode s !! ip = Some x -> geti ip s = x.
Proof. unfold geti. by intros ->. Qed.

Lemma upd_id ip s x : it_inode s !! ip = Some x -> upd ip (fs_blk s) x s = s.
Proof. intros H. unfold upd, set_it_inode, set_fs_blk. cbn. rewrite list_insert_id by done. by destruct s. Qed.
Lemma upd_blk ip s x b : it_inode s !! ip = Some x -> upd ip b x s = set_fs_blk b s.
Proof. intros H. unfold upd, set_it_inode, set_fs_blk. cbn. by rewrite list_insert_id. Qed.
Lemma upd_upd ip s x x' b b' : upd ip b' x' (upd ip b x s) = upd ip b' x' s.
Proof. unfold upd, set_it_inode, set_fs_blk. cbn. by rewrite list_insert_insert_eq. Qed.
Lemma upd_lookup ip s x x' b : it_inode s !! ip = Some x -> it_inode (upd ip b x' s) !! ip = Some x'.
Proof. intros H. cbn. apply list_lookup_insert_eq. by eapply lookup_lt_Some. Qed.

(** A file being worked on: no buffer is held. *)
Record fpre (ip : nat) s k x : Prop := {
  fp_rep : bk_rep (fs_blk s) k;
  fp_wf : fs_wf dev (fs_sb s) k;
  fp_file : file_wf (fs_sb s) k x;
  fp_ino : it_inode s !! ip = Some x;
  fp_dev : i_dev x = dev;
  fp_held : kheld k = ∅;
  fp_size : sb_size (fs_sb s) <= 2 ^ 32
}.

Lemma fpre_upd ip s k x blk k' x' : fpre ip s k x -> grown (fs_sb s) k x k' x' -> bk_rep blk k' -> fpre ip (upd ip blk x' s) k' x'.
Proof.
  intros [P1 P2 P3 P4 P5 P6 P7] [G1 G2 G3 G4 G5 G6 G7 G8 G9 G10] Hr. split; try done.
  - by eapply upd_lookup.
  - by rewrite G4.
  - by rewrite G5.
Qed.

Lemma held_none sb k : kheld k = ∅ -> held_ok sb k.
Proof. intros H i m. by rewrite H, lookup_empty. Qed.

(** The array of the inode: the slot has a block afterwards unless the disk
    is full. *)
Lemma bmap_slot_spec (Q : Z -> fsst S U -> Prop) ip s k x i :
  fpre ip s k x -> 0 <= i <= NDIRECT -> 2 <= kroom k ->
  (slot x i <> 0 -> Q (slot x i) s) ->
  (slot x i = 0 -> forall blk, bk_rep blk k -> (forall c, in_fs (fs_sb s) c -> used (fs_sb s) k c = true) -> Q 0 (set_fs_blk blk s)) ->
  (forall r blk k' x', slot x i = 0 -> grown (fs_sb s) k x k' x' -> bk_rep blk k' -> slot x' i = r -> r <> 0 ->
     kroom k' = kroom k - 2 -> Q r (upd ip blk x' s)) ->
  wp (bmap_slot ip i) Q s.
Proof.
  intros [P1 P2 P3 P4 P5 P6 P7] Hi Hroom Hhit Hfull Hok. unfold bmap_slot. wp_simp. unfold addr_at. rewrite (geti_eq _ _ _ P4).
  fold (slot x i). destruct (Z.eqb_spec (slot x i) 0) as [E|E]; [|wp_simp; auto].
  wp_simp. rewrite (geti_eq _ _ _ P4), P5. apply (balloc_spec dev _ s k); try done.
  - by apply held_none.
  - rewrite P6. by vm_compute; lia.
  - intros blk Hb Hall. wp_simp. by apply Hfull.
  - intros r blk Hb Hin Hu _. pose proof (new_nonzero _ _ _ P2 Hin Hu) as Hr0. wp_simp. rewrite (proj2 (Z.eqb_neq r 0)) by done.
    unfold set_addr, modi. wp_simp.
    assert (Es : set_it_inode (alter (fun x0 => set_i_addrs (<[Z.to_nat i := r]> (i_addrs x0)) x0) ip) (set_fs_blk blk s)
      = upd ip blk (with_slot r x i) s).
    { unfold upd, set_it_inode. cbn. by rewrite (alter_insert _ _ _ _ P4). }
    rewrite Es. apply (Hok r blk (k_alloc (fs_sb s) r k) (with_slot r x i)); try done.
    + destruct (decide (i = NDIRECT)) as [->|]; [by apply grow_ind|]. apply grow_direct; (done || lia).
    + rewrite (slot_with (fs_sb s) k) by done. by rewrite Z.eqb_refl.
    + cbn. lia.
Qed.


Definition disk_full sb k : Prop := forall c, in_fs sb c -> used sb k c = true.

(** What bmap() did: block [bn] of the file is [r], or the disk is full. *)
Definition bmap_post (c : Z) (ip : nat) s k x (bn r : Z) s' : Prop := exists blk k' x',
  s' = upd ip blk x' s /\ bk_rep blk k' /\ grown (fs_sb s) k x k' x' /\ kroom k - c <= kroom k' /\
  ((r = 0 /\ disk_full (fs_sb s) k') \/ (r <> 0 /\ r = blk_of k' x' bn)) /\
  (blk_of k x bn <> 0 -> k' = k /\ x' = x /\ r <> 0).

Lemma bmap_post_same c ip s k x bn blk : fpre ip s k x -> bk_rep blk k -> blk_of k x bn <> 0 -> 0 <= c ->
  bmap_post c ip s k x bn (blk_of k x bn) (set_fs_blk blk s).
Proof.
  intros [P1 P2 P3 P4 P5 P6 P7] Hr Hb Hc. exists blk, k, x. split; [by rewrite (upd_blk _ _ x)|]. split; [done|].
  split; [by apply grown_refl|]. split; [lia|]. split; [by right|done].
Qed.

Lemma bmap_post_full c ip s k x bn blk : fpre ip s k x -> bk_rep blk k -> blk_of k x bn = 0 -> disk_full (fs_sb s) k -> 0 <= c ->
  bmap_post c ip s k x bn 0 (set_fs_blk blk s).
Proof.
  intros [P1 P2 P3 P4 P5 P6 P7] Hr Hb Hf Hc. exists blk, k, x. split; [by rewrite (upd_blk _ _ x)|]. split; [done|].
  split; [by apply grown_refl|]. split; [lia|]. split; [by left|done].
Qed.

Lemma wf_hold sb k i n : fs_wf dev sb k -> fs_wf dev sb (k_hold i n k).
Proof. intros [W1 W2 W3 W4 W5]. by split. Qed.

Lemma held_one sb k i n : kheld k = ∅ -> good sb k n -> held_ok sb (k_hold i n k).
Proof.
  intros H (G1 & G2 & G3 & _) j m. cbn. rewrite H, insert_empty. intros [-> ->]%lookup_singleton_Some. done.
Qed.

(** The entry of the indirect block. *)
Lemma bmap_entry_spec (Q : Z -> fsst S U -> Prop) ip s k x bn :
  fpre ip s k x -> ind x <> 0 -> 0 <= bn < NINDIRECT -> 3 <= kroom k ->
  (forall r s', bmap_post 3 ip s k x (bn + NDIRECT) r s' -> Q r s') ->
  wp (bmap_entry ip (ind x) bn) Q s.
Proof.
  intros Hp Hi Hbn Hroom HQ. pose proof Hp as [P1 P2 P3 P4 P5 P6 P7]. unfold bmap_entry. wp_simp. rewrite (geti_eq _ _ _ P4), P5.
  assert (Hlen0 : (size (kheld k) <= 2)%nat) by (rewrite P6; by vm_compute; lia).
  assert (Eb : blk_of k x (bn + NDIRECT) = getn 4 (4 * bn) (kv k (ind x))).
  { unfold blk_of. destruct (Z.ltb_spec (bn + NDIRECT) NDIRECT); [lia|]. destruct (Z.eqb_spec (ind x) 0); [done|].
    by replace (bn + NDIRECT - NDIRECT) with bn by lia. }
  apply (wp_bread dev _ s k); [done|intros i m; by rewrite P6, lookup_empty|done|].
  intros i b1 Hn R1. cbv beta. wp_simp. eapply wp_bdata; [exact R1|apply lookup_insert_eq|]. cbn [kv k_hold].
  destruct (Z.eqb_spec (getn 4 (4 * bn) (kv k (ind x))) 0) as [E|E].
  - wp_simp. apply (balloc_spec dev _ (set_fs_blk b1 s) (k_hold i (ind x) k)); try done; [by apply wf_hold|apply held_one; [done|by apply (fw_ind _ _ _ P3)]|cbn; rewrite P6, insert_empty, map_size_singleton; lia|cbn; lia|..].
    + intros b2 R2 Hf. wp_simp. change (0 =? 0) with true. cbv iota. wp_simp. apply (wp_brelse dev _ _ k i (ind x)); [done|done|by rewrite (wf_clean _ _ _ P2)|].
      intros b3 R3. wp_simp. apply HQ. change (set_fs_blk b3 _) with (set_fs_blk b3 s). apply bmap_post_full; [done|done|congruence|done|lia].
    + intros r b2 R2 Hin Hu _. cbn [set_fs_blk fs_sb] in *. change (used (fs_sb s) (k_hold i (ind x) k) r) with (used (fs_sb s) k r) in Hu.
      pose proof (new_nonzero _ _ _ P2 Hin Hu) as Hr0. wp_simp. rewrite (proj2 (Z.eqb_neq r 0)) by done. wp_simp.
      pose proof (fw_ind _ _ _ P3 Hi) as Hgi.
      eapply wp_mono; [apply (wp_put dev (ret r) Q _ (k_alloc (fs_sb s) r k) i (ind x)); [exact R2|done|apply P2|cbn; lia|apply Hgi|]|].
      2: { intros ? s1 H. cbv beta in H. rewrite wp_bind in H. exact H. }
      intros b3 R3. wp_simp. apply HQ. change (set_fs_blk b3 _) with (set_fs_blk b3 s).
      assert (G := grow_entry (fs_sb s) k x bn r P2 P3 Hi Hbn E Hin Hu ltac:(unfold in_fs in Hin; lia)).
      eexists b3, _, x. split; [by rewrite (upd_blk _ _ x)|]. split; [exact R3|]. split; [exact G|]. split; [cbn; lia|].
      split; [right; split; [done|]|congruence].
      unfold blk_of. destruct (Z.ltb_spec (bn + NDIRECT) NDIRECT); [lia|]. destruct (Z.eqb_spec (ind x) 0); [done|].
      cbn [k_put kv]. rewrite Z.eqb_refl. replace (bn + NDIRECT - NDIRECT) with bn by lia.
      rewrite getn_putn_eq by (by eapply entry_fits). symmetry. apply Z.mod_small. unfold in_fs in Hin. lia.
  - wp_simp. apply (wp_brelse dev _ _ k i (ind x)); [done|done|by rewrite (wf_clean _ _ _ P2)|].
    intros b2 R2. wp_simp. apply HQ. rewrite <- Eb. change (set_fs_blk b2 _) with (set_fs_blk b2 s).
    apply bmap_post_same; [done|done|congruence|lia].
Qed.

Lemma bmap_spec ip s k x bn : fpre ip s k x -> 0 <= bn < MAXFILE -> 5 <= kroom k ->
  wp (bmap ip bn) (bmap_post 5 ip s k x bn) s.
Proof.
  intros Hp Hbn Hroom. pose proof Hp as [P1 P2 P3 P4 P5 P6 P7]. unfold bmap.
  destruct (Z.ltb_spec bn NDIRECT) as [Hd|Hd].
  - assert (Eb : forall k x, blk_of k x bn = slot x bn) by (intros; unfold blk_of; by rewrite (proj2 (Z.ltb_lt bn NDIRECT))).
    apply (bmap_slot_spec _ ip s k x); try done; [lia|lia|..].
    + intros Hn. rewrite <- (Eb k x). replace s with (set_fs_blk (fs_blk s) s) at 2 by (by destruct s).
      apply bmap_post_same; [done|done|by rewrite Eb|lia].
    + intros H0 blk Hb Hf. apply bmap_post_full; [done|done|by rewrite Eb|done|lia].
    + intros r blk k' x' H0 G Hb Hs Hr Hk. exists blk, k', x'. rewrite !Eb.
      split; [done|]. split; [done|]. split; [done|]. split; [lia|]. split; [by right|congruence].
  - assert (Hbn' : 0 <= bn - NDIRECT < NINDIRECT) by (rewrite MAXFILE_eq in Hbn; rewrite NINDIRECT_eq; unfold NDIRECT in *; lia).
    destruct (Z.ltb_spec (bn - NDIRECT) NINDIRECT); [|lia]. wp_simp.
    apply (bmap_slot_spec _ ip s k x); try done; [lia|..].
    + intros Hn. fold (ind x). rewrite (proj2 (Z.eqb_neq (ind x) 0)) by done.
      apply (bmap_entry_spec _ ip s k x); try done; [lia|]. intros r s'. replace (bn - NDIRECT + NDIRECT) with bn by lia.
      intros (b & k' & x' & ? & ? & ? & ? & ?). exists b, k', x'. split_and!; (done || lia || naive_solver).
    + intros H0 blk Hb Hf. change (0 =? 0) with true. cbv iota. wp_simp. apply bmap_post_full; try done.
      unfold blk_of. destruct (Z.ltb_spec bn NDIRECT); [lia|]. unfold ind. by rewrite H0.
    + intros r blk k' x' H0 G Hb Hs Hr Hk. rewrite (proj2 (Z.eqb_neq r 0)) by done.
      pose proof (fpre_upd _ _ _ _ _ _ _ Hp G Hb) as Hp'.
      assert (Ei : r = ind x') by (symmetry; exact Hs). rewrite Ei.
      apply (bmap_entry_spec _ ip _ k' x'); try done; [congruence|lia|].
      intros r' s'. replace (bn - NDIRECT + NDIRECT) with bn by lia.
      intros (blk2 & k2 & x2 & -> & R2 & G2 & Hk2 & Hr2 & Hm2). exists blk2, k2, x2. rewrite upd_upd. split; [done|].
      split; [done|]. split; [by eapply grown_trans|]. split; [lia|]. split; [done|].
      intros Hn. exfalso. apply Hn. unfold blk_of. destruct (Z.ltb_spec bn NDIRECT); [lia|]. unfold ind. by rewrite H0.
Qed.
End file.
