(* ===== verification/FsIO.v ===== *)
(** Reading and writing files: readi() returns the bytes of the file, and
    writei() replaces them, whatever blocks they lie in. *)
From S2P Require Import Prelude Mem Str Spinlock UserMem Bytes Blocks Bio Fs FsSpec FsFile.

Lemma BSIZE_eq : BSIZE = 1024. Proof. done. Qed.

Section io.
Context {S U P : Type} `{BK : Blocks S} `{UM : UserMem U P} (dev : Z) `{BO : !BlocksOk S dev}.
Implicit Types s : fsst S U.
Implicit Types k : kst.
Implicit Types x : inode.

(** * The part of an operation that stays in one block *)

(** bmap() of a block that exists changes nothing. *)
Lemma bmap_hit (Q : Z -> fsst S U -> Prop) ip s k x bn :
  fpre dev ip s k x -> 0 <= bn < MAXFILE -> blk_of k x bn <> 0 ->
  (forall blk, bk_rep blk k -> Q (blk_of k x bn) (set_fs_blk blk s)) -> wp (bmap ip bn) Q s.
Proof.
  intros [P1 P2 P3 P4 P5 P6 P7] Hbn Hb HQ.
  assert (Hslot : forall (Q' : Z -> fsst S U -> Prop) i, slot x i <> 0 -> Q' (slot x i) s -> wp (bmap_slot ip i) Q' s).
  { intros Q' i Hi HQ'. unfold bmap_slot. wp_simp. unfold addr_at. rewrite (geti_eq _ _ _ P4). fold (slot x i).
    by rewrite (proj2 (Z.eqb_neq _ _) Hi). }
  unfold bmap, blk_of in *. destruct (Z.ltb_spec bn NDIRECT).
  - apply Hslot; [done|]. specialize (HQ (fs_blk s) P1). by destruct s.
  - assert (Hbn' : 0 <= bn - NDIRECT < NINDIRECT) by (rewrite MAXFILE_eq in Hbn; rewrite NINDIRECT_eq; unfold NDIRECT in *; lia).
    destruct (Z.ltb_spec (bn - NDIRECT) NINDIRECT); [|lia]. destruct (Z.eqb_spec (ind x) 0) as [|Hi]; [done|].
    wp_simp. apply Hslot; [done|]. fold (ind x). rewrite (proj2 (Z.eqb_neq _ _) Hi). unfold bmap_entry. wp_simp.
    rewrite (geti_eq _ _ _ P4), P5.
    apply (wp_bread dev _ s k); [done|intros i m; by rewrite P6, lookup_empty|rewrite P6; by vm_compute; lia|].
    intros i b1 Hn R1. cbv beta. wp_simp. eapply wp_bdata; [exact R1|apply lookup_insert_eq|]. cbn [kv k_hold].
    rewrite (proj2 (Z.eqb_neq _ _) Hb). wp_simp.
    apply (wp_brelse dev _ _ k i (ind x)); [done|done|by rewrite (wf_clean _ _ _ P2)|].
    intros b2 R2. wp_simp. by apply HQ.
Qed.

Lemma chunk off m : 0 <= off -> 0 < m -> m <= BSIZE - off mod BSIZE ->
  forall j, off <= j < off + m -> j / BSIZE = off / BSIZE /\ j mod BSIZE = off mod BSIZE + (j - off).
Proof.
  intros H0 Hm Hle j Hj. rewrite BSIZE_eq in *. pose proof (Z.div_mod off 1024 ltac:(lia)).
  pose proof (Z.mod_pos_bound off 1024 ltac:(lia)).
  assert (E : j = 1024 * (off / 1024) + (off mod 1024 + (j - off))) by lia.
  split; [symmetry; apply (Z.div_unique j 1024 _ (off mod 1024 + (j - off))); lia|].
  symmetry. apply (Z.mod_unique j 1024 (off / 1024)); lia.
Qed.

(** The bytes a block holds are those of the file. *)
Lemma chunk_bytes sb k x off m i : fs_wf dev sb k -> file_wf dev sb k x -> 0 <= off -> 0 < m -> m <= BSIZE - off mod BSIZE ->
  off + m <= MAXFILE * BSIZE -> blk_of k x (off / BSIZE) <> 0 -> Z.of_nat i < m ->
  slice (off mod BSIZE) m (kv k (blk_of k x (off / BSIZE))) !! i = Some (fbyte k x (off + Z.of_nat i)).
Proof.
  intros W F H0 Hm Hle Hmax Hb Hi. pose proof (Z.mod_pos_bound off BSIZE ltac:(done)) as Hmod.
  destruct (chunk off m H0 Hm Hle (off + Z.of_nat i)) as [E1 E2]; [lia|].
  assert (Hbn : 0 <= off / BSIZE < MAXFILE).
  { split; [apply Z.div_pos; [lia|done]|apply Z.div_lt_upper_bound; [done|lia]]. }
  destruct (fw_blk _ _ _ _ F _ Hbn Hb) as [(Hin & _) _]. destruct (wf_blk _ _ _ W _ Hin) as [L1 _].
  rewrite lookup_slice by lia. unfold fbyte. rewrite E1, E2, (proj2 (Z.eqb_neq _ _) Hb). unfold byte_at.
  replace (Z.to_nat (off mod BSIZE + (off + Z.of_nat i - off))) with (Z.to_nat (off mod BSIZE) + i)%nat by lia.
  destruct (lookup_lt_is_Some_2 (kv k (blk_of k x (off / BSIZE))) (Z.to_nat (off mod BSIZE) + i)) as [b Eb]; [|by rewrite Eb].
  rewrite L1. rewrite BSIZE_eq in *. lia.
Qed.

Lemma next_block off : 0 <= off -> (off + (BSIZE - off mod BSIZE)) mod BSIZE = 0.
Proof.
  intros H0. replace (off + (BSIZE - off mod BSIZE)) with ((off / BSIZE + 1) * BSIZE); [by apply Z.mod_mul|].
  pose proof (Z.div_mod off BSIZE ltac:(done)). lia.
Qed.

(** [n] bytes of the file from [off] on. *)
Definition fbytes k x (off n : Z) : list Z := (fun i => fbyte k x (off + Z.of_nat i)) <$> seq 0 (Z.to_nat n).

Lemma length_fbytes k x off n : 0 <= n -> Z.of_nat (length (fbytes k x off n)) = n.
Proof. intros H. unfold fbytes. rewrite length_fmap, length_seq. lia. Qed.

Lemma fbytes_app k x off n m : 0 <= n -> 0 <= m -> fbytes k x off (n + m) = fbytes k x off n ++ fbytes k x (off + n) m.
Proof.
  intros Hn Hm. unfold fbytes. rewrite Z2Nat.inj_add, seq_app, fmap_app by lia. f_equal. rewrite Nat.add_0_l.
  apply list_eq. intros i. rewrite !list_lookup_fmap. destruct (decide (i < Z.to_nat m)%nat).
  - rewrite !lookup_seq_lt by done. simpl. do 2 f_equal. lia.
  - by rewrite !lookup_seq_ge by lia.
Qed.

Lemma chunk_fbytes sb k x off m : fs_wf dev sb k -> file_wf dev sb k x -> 0 <= off -> 0 < m -> m <= BSIZE - off mod BSIZE ->
  off + m <= MAXFILE * BSIZE -> blk_of k x (off / BSIZE) <> 0 ->
  slice (off mod BSIZE) m (kv k (blk_of k x (off / BSIZE))) = fbytes k x off m.
Proof.
  intros W F H0 Hm Hle Hmax Hb. apply list_eq. intros i. destruct (decide (Z.of_nat i < m)) as [Hi|Hi].
  - rewrite (chunk_bytes sb) by done. unfold fbytes. rewrite list_lookup_fmap, lookup_seq_lt by lia. done.
  - unfold fbytes. rewrite list_lookup_fmap, lookup_seq_ge by lia. unfold slice. by rewrite lookup_take_ge by lia.
Qed.


(** * readi() *)

Context `{UO : !UserMemOk U P}.

Definition dest_ok (d : dest P) (u : U) (n : Z) : Prop :=
  match d with ToKernel => True | ToUser p a => um_inv p u /\ 0 <= a /\ a + n < 2 ^ 64 end.

(** [bs] has been copied to the destination, from position [tot] on. *)
Definition delivered (d : dest P) (u u' : U) (tot : Z) (bs : list Z) : Prop :=
  match d with
  | ToKernel => u' = u
  | ToUser p a => forall va, um_view p u' va =
      if (a + tot <=? va) && (va <? a + tot + Z.of_nat (length bs)) then bs !! Z.to_nat (va - (a + tot)) else um_view p u va
  end.

Lemma wp_onum {A} (m : M U A) (Q : A -> fsst S U -> Prop) s : wp (onum m) Q s = wp m (fun a u => Q a (set_fs_um u s)) (fs_um s).
Proof. apply wp_zoom. Qed.

Lemma wp_copyout (Q : Z -> fsst S U -> Prop) d tot bs n s :
  dest_ok d (fs_um s) n -> byte_list bs -> 0 <= tot -> tot + Z.of_nat (length bs) <= n ->
  (forall u, dest_ok d u n -> delivered d (fs_um s) u tot bs -> Q 0 (set_fs_um u s)) ->
  (forall u p a, d = ToUser p a -> dest_ok d u n -> Q (-1) (set_fs_um u s)) ->
  wp (either_copyout d tot bs) Q s.
Proof.
  intros Hd Hb Ht Hn HQ HF. destruct d as [p a|]; simpl.
  - destruct Hd as (Hu & Ha & Han). rewrite wp_onum, u64_small by lia. eapply wp_mono; [apply um_out_ok; [done|lia|done]|].
    intros r u (Hu' & j & Hj & Hv & [(-> & ->)|(-> & _)]); [|by eapply HF].
    apply HQ; [done|]. intros va. by rewrite Hv.
  - wp_simp. specialize (HQ (fs_um s) I eq_refl). by destruct s.
Qed.

Lemma delivered_app d u u1 u2 tot bs bs' :
  delivered d u u1 tot bs -> delivered d u1 u2 (tot + Z.of_nat (length bs)) bs' -> delivered d u u2 tot (bs ++ bs').
Proof.
  destruct d as [p a|]; simpl; [|congruence]. intros H1 H2 va. rewrite H2, H1, length_app.
  destruct (Z.leb_spec (a + (tot + Z.of_nat (length bs))) va), (Z.ltb_spec va (a + (tot + Z.of_nat (length bs)) + Z.of_nat (length bs'))),
    (Z.leb_spec (a + tot) va), (Z.ltb_spec va (a + tot + Z.of_nat (length bs))), (Z.ltb_spec va (a + tot + Z.of_nat (length bs + length bs')));
    cbn [andb]; try lia; try done.
  - rewrite lookup_app_r by lia. f_equal. lia.
  - by rewrite lookup_app_l by lia.
Qed.

Lemma delivered_nil d u tot : delivered d u u tot [].
Proof.
  destruct d as [p a|]; simpl; [|done]. intros va. rewrite Z.add_0_r.
  destruct (Z.leb_spec (a + tot) va), (Z.ltb_spec va (a + tot)); try done. lia.
Qed.

(** Every block of [off .. off+n) is there. *)
Definition mapped k x (off n : Z) : Prop := forall j, off <= j < off + n -> blk_of k x (j / BSIZE) <> 0.

Lemma fbytes_bytes sb k x off n : fs_wf dev sb k -> file_wf dev sb k x -> 0 <= off -> off + n <= MAXFILE * BSIZE -> byte_list (fbytes k x off n).
Proof.
  intros W F H0 Hm. apply Forall_lookup_2. intros i b Hi. unfold fbytes in Hi. rewrite list_lookup_fmap in Hi.
  destruct (decide (i < Z.to_nat n)%nat); [|by rewrite lookup_seq_ge in Hi by lia].
  rewrite lookup_seq_lt in Hi by done. injection Hi as <-. unfold fbyte.
  destruct (Z.eqb_spec (blk_of k x ((off + Z.of_nat i) / BSIZE)) 0); [lia|]. apply byte_at_range.
  apply (wf_blk _ _ _ W). apply (fw_blk _ _ _ _ F); [|done].
  split; [apply Z.div_pos; [lia|done]|apply Z.div_lt_upper_bound; [done|lia]].
Qed.

Lemma set_set b u b' u' s : set_fs_um u' (set_fs_blk b' (set_fs_um u (set_fs_blk b s))) = set_fs_um u' (set_fs_blk b' s).
Proof. done. Qed.

Lemma fpre_io ip s k x b u : fpre dev ip s k x -> bk_rep b k -> fpre dev ip (set_fs_um u (set_fs_blk b s)) k x.
Proof. intros [P1 P2 P3 P4 P5 P6 P7] Hb. by split. Qed.

Definition read_ok (d : dest P) k x (off n tot : Z) s (r : Z * list Z) s' : Prop := exists blk u,
  s' = set_fs_um u (set_fs_blk blk s) /\ bk_rep blk k /\
  ((r = (n, fbytes k x off (n - tot)) /\ delivered d (fs_um s) u tot (fbytes k x off (n - tot)) /\ dest_ok d u n) \/
   (r.1 = -1 /\ exists p a, d = ToUser p a /\ um_inv p u)).

Lemma readi_loop_spec fuel ip d s k x off n tot :
  fpre dev ip s k x -> dest_ok d (fs_um s) n -> 0 <= off -> 0 <= tot <= n -> off + (n - tot) <= MAXFILE * BSIZE ->
  mapped k x off (n - tot) -> (tot < n -> n - tot + off mod BSIZE <= Z.of_nat fuel * BSIZE) ->
  wp (readi_loop fuel ip d off n tot) (read_ok d k x off n tot s) s.
Proof.
  revert off tot s. induction fuel as [|fuel IH]; intros off tot s Hp Hd H0 Ht Hmax Hmap Hfuel;
    pose proof (Z.mod_pos_bound off BSIZE ltac:(done)) as Hmod; cbn [readi_loop]; destruct (Z.ltb_spec tot n); try lia.
  1,3: wp_simp; assert (tot = n) as -> by lia; unfold read_ok; rewrite Z.sub_diag; exists (fs_blk s), (fs_um s);
    split; [by destruct s|split; [apply Hp|left; split; [done|split; [apply delivered_nil|done]]]].
  pose proof Hp as [P1 P2 P3 P4 P5 P6 P7].
  assert (Hbn : 0 <= off / BSIZE < MAXFILE) by (split; [apply Z.div_pos; [lia|done]|apply Z.div_lt_upper_bound; [done|lia]]).
  assert (Hb : blk_of k x (off / BSIZE) <> 0) by (apply Hmap; lia).
  wp_simp. apply (bmap_hit _ ip s k x); try done. intros b1 R1. cbv beta. rewrite (proj2 (Z.eqb_neq _ _) Hb). wp_simp.
  change (geti ip (set_fs_blk b1 s)) with (geti ip s). rewrite (geti_eq _ _ _ P4), P5.
  apply (wp_bread dev _ _ k); [done|intros i m; by rewrite P6, lookup_empty|rewrite P6; by vm_compute; lia|].
  intros i b2 Hn R2. cbv beta. wp_simp. eapply wp_bdata; [exact R2|apply lookup_insert_eq|]. cbn [kv k_hold].
  remember (Z.min (n - tot) (BSIZE - off mod BSIZE)) as m eqn:Em.
  rewrite (chunk_fbytes (fs_sb s)) by (done || lia). wp_simp.
  assert (Hfl : Z.of_nat (length (fbytes k x off m)) = m) by (apply length_fbytes; lia).
  apply (wp_copyout _ d tot _ n); [done|apply (fbytes_bytes (fs_sb s)); (done || lia)|lia|lia|..].
  - intros u Hdu Hdel. wp_simp. apply (wp_brelse dev _ _ k i (blk_of k x (off / BSIZE))); [done|done|by rewrite (wf_clean _ _ _ P2)|].
    intros b3 R3. change (0 =? -1) with false. cbv iota. wp_simp.
    change (set_fs_blk b3 _) with (set_fs_um u (set_fs_blk b3 s)).
    eapply wp_mono; [apply IH; [by apply fpre_io|done|lia|lia|lia| |]|].
    + intros j Hj. apply Hmap. lia.
    + intros Hlt. assert (m = BSIZE - off mod BSIZE) as Em' by lia. rewrite Em', next_block by done. lia.
    + intros [t rest] s' (b4 & u4 & -> & R4 & Hr). wp_simp. exists b4, u4. split; [done|]. split; [done|].
      replace (n - tot) with (m + (n - (tot + m))) by lia. rewrite fbytes_app by lia.
      destruct Hr as [([= -> ->] & Hdel' & Hd4)|(Et & Hu)]; [left|right; done].
      split; [done|]. split; [|done]. eapply delivered_app; [exact Hdel|]. by rewrite Hfl.
  - intros u p a -> [Hu _]. wp_simp. apply (wp_brelse dev _ _ k i (blk_of k x (off / BSIZE))); [done|done|by rewrite (wf_clean _ _ _ P2)|].
    intros b3 R3. change (-1 =? -1) with true. cbv iota. wp_simp. exists b3, u. split; [done|]. split; [done|]. right.
    split; [done|]. by exists p, a.
Qed.


(** The overflow test [off + n < off] of unsigned 32-bit numbers. *)
Lemma wrap_test off n : 0 <= off < 2 ^ 32 -> 0 <= n < 2 ^ 32 ->
  (u32 (off + n) <? off) = (2 ^ 32 <=? off + n) /\ (off + n < 2 ^ 32 -> u32 (off + n) = off + n).
Proof.
  intros Ho Hn. unfold u32. destruct (Z.lt_ge_cases (off + n) (2 ^ 32)) as [Hlt|Hge].
  - rewrite Z.mod_small by lia. split; [|done]. destruct (Z.ltb_spec (off + n) off), (Z.leb_spec (2 ^ 32) (off + n)); lia.
  - replace ((off + n) mod 2 ^ 32) with (off + n - 2 ^ 32); [|apply (Z.mod_unique _ _ 1); lia].
    split; [|lia]. destruct (Z.ltb_spec (off + n - 2 ^ 32) off), (Z.leb_spec (2 ^ 32) (off + n)); lia.
Qed.

Lemma chunks_fuel off n : 0 <= off -> 0 <= n -> n + off mod BSIZE <= Z.of_nat (Z.to_nat (n / BSIZE + 2)) * BSIZE.
Proof.
  intros H0 Hn. pose proof (Z.mod_pos_bound off BSIZE ltac:(done)). pose proof (Z.div_mod n BSIZE ltac:(done)).
  pose proof (Z.mod_pos_bound n BSIZE ltac:(done)). pose proof (Z.div_pos n BSIZE Hn ltac:(done)).
  rewrite Z2Nat.id by lia. rewrite BSIZE_eq in *. lia.
Qed.

(** readi(), on every path: out of range it reads nothing; otherwise the
    bytes up to the end of the file. *)
Lemma readi_spec ip d s k x off n :
  fpre dev ip s k x -> 0 <= off < 2 ^ 32 -> 0 <= n < 2 ^ 32 ->
  (off <= i_size x -> dest_ok d (fs_um s) (Z.min n (i_size x - off))) ->
  0 <= i_size x <= MAXFILE * BSIZE -> mapped k x 0 (i_size x) ->
  wp (readi ip d off n) (fun r s' =>
    if (i_size x <? off) || (2 ^ 32 <=? off + n) then r = (0, []) /\ s' = s
    else read_ok d k x off (Z.min n (i_size x - off)) 0 s r s') s.
Proof.
  intros Hp H0 Hn Hd Hsz Hmap. pose proof (fp_ino _ _ _ _ _ Hp) as Hino. unfold readi. wp_simp. rewrite (geti_eq _ _ _ Hino).
  destruct (wrap_test off n H0 Hn) as [-> Hu]. destruct (Z.ltb_spec (i_size x) off) as [|Hle]; cbn [orb]; [by wp_simp|].
  destruct (Z.leb_spec (2 ^ 32) (off + n)) as [|Hw]; [by wp_simp|]. rewrite (Hu Hw).
  assert (Hm : (if i_size x <? off + n then i_size x - off else n) = Z.min n (i_size x - off)) by (zcases).
  rewrite Hm. eapply wp_mono; [apply readi_loop_spec; [done|auto|lia|lia|lia| |]|].
  - intros j Hj. apply Hmap. lia.
  - intros _. pose proof (chunks_fuel off (Z.min n (i_size x - off))). lia.
  - by rewrite ?Z.sub_0_r.
Qed.

(** * writei() *)

Definition source_ok (src : source P) (u : U) (n : Z) : Prop :=
  match src with
  | FromKernel bs => byte_list bs /\ Z.of_nat (length bs) = n
  | FromUser p a => um_inv p u /\ 0 <= a /\ a + n < 2 ^ 64 /\
      (** copyin() of this range does not fail *)
      forall u1 va len, um_inv p u1 -> (forall b, um_view p u1 b = um_view p u b) -> a <= va -> va + len <= a + n ->
        wp (um_in p va len) (fun r _ => r.2 = true) u1
  end.
Definition src_byte (src : source P) (u : U) (j : Z) : option Z :=
  match src with FromKernel bs => bs !! Z.to_nat j | FromUser p a => um_view p u (a + j) end.
Definition src_same (src : source P) (u u' : U) : Prop :=
  match src with FromKernel _ => u' = u | FromUser p _ => forall b, um_view p u' b = um_view p u b end.

Lemma src_byte_same src u u' j : src_same src u u' -> src_byte src u' j = src_byte src u j.
Proof. destruct src; simpl; auto. Qed.

Lemma wp_copyin (Q : list Z * bool -> fsst S U -> Prop) src tot m n s :
  source_ok src (fs_um s) n -> 0 <= tot -> 0 <= m -> tot + m <= n ->
  (forall u bs, source_ok src u n -> src_same src (fs_um s) u -> byte_list bs -> Z.of_nat (length bs) = m ->
     (forall i, (i < length bs)%nat -> src_byte src (fs_um s) (tot + Z.of_nat i) = bs !! i) -> Q (bs, true) (set_fs_um u s)) ->
  wp (either_copyin src tot m) Q s.
Proof.
  intros Hs Ht Hm Hn HQ. destruct src as [p a|bs]; simpl.
  - destruct Hs as (Hu & Ha & Han & Hlive). rewrite wp_onum, u64_small by lia.
    eapply wp_mono; [apply wp_and; [apply um_in_ok; [done|lia|done]|apply Hlive; [done|done|lia|lia]]|].
    intros [bs ok] u [(Hu' & Hv & Hbs & Hlen) Eok]. simpl in *. subst ok. apply HQ; try done.
    + split; [done|]. split; [done|]. split; [done|]. intros u1 va len H1 H2. apply Hlive; [done|]. intros b. by rewrite H2.
    + apply Forall_lookup_2. intros i b Hi. pose proof (lookup_lt_Some _ _ _ Hi). eapply (um_view_byte p (fs_um s)).
      rewrite Hbs by done. exact Hi.
    + intros i Hi. rewrite <- Hbs by done. f_equal. lia.
  - destruct Hs as [Hb Hl]. wp_simp. replace s with (set_fs_um (fs_um s) s) by (by destruct s). apply HQ; try done.
    + unfold slice. by apply Forall_take, Forall_drop.
    + rewrite length_slice; lia.
    + intros i Hi. assert (Z.of_nat (length (slice tot m bs)) = m) by (rewrite length_slice; lia).
      rewrite lookup_slice by lia. simpl. by rewrite Z2Nat.inj_add, Nat2Z.id by lia.
Qed.


(** The file after the bytes [bs] have been stored at [off]. *)
Record wrote sb k x k' x' (off : Z) (bs : list Z) : Prop := {
  wr_wf : fs_wf dev sb k';
  wr_file : file_wf dev sb k' x';
  wr_bytes : forall o, 0 <= o < MAXFILE * BSIZE -> fbyte k' x' o =
    if (off <=? o) && (o <? off + Z.of_nat (length bs)) then default 0 (bs !! Z.to_nat (o - off)) else fbyte k x o;
  wr_meta : x' = set_i_addrs (i_addrs x') x;
  wr_held : kheld k' = kheld k;
  wr_used : forall n, in_fs sb n -> used sb k n = true -> used sb k' n = true;
  wr_frame : forall n, in_fs sb n -> used sb k n = true -> ~ bitmap_block sb n -> n <> ind x ->
    (forall bn, 0 <= bn < MAXFILE -> blk_of k x bn <> n) -> kv k' n = kv k n;
  wr_ind : ind x' = ind x \/ (in_fs sb (ind x') /\ used sb k (ind x') = false);
  wr_maps : forall bn, 0 <= bn < MAXFILE -> blk_of k x bn <> 0 -> blk_of k' x' bn = blk_of k x bn;
  wr_new : forall bn, 0 <= bn < MAXFILE -> blk_of k x bn = 0 ->
    blk_of k' x' bn = 0 \/ (in_fs sb (blk_of k' x' bn) /\ used sb k (blk_of k' x' bn) = false);
  wr_mapped : mapped k' x' off (Z.of_nat (length bs))
}.

Lemma wrote_none sb k x k' x' off : grown dev sb k x k' x' -> wrote sb k x k' x' off [].
Proof.
  intros [G1 G2 G3 G4 G5 G6 G7 G8 G9 G10]. split; try done.
  - intros o Ho. rewrite G3 by done. simpl. destruct (Z.leb_spec off o), (Z.ltb_spec o (off + Z.of_nat 0)); (done || lia).
  - intros n Hn Hu Hb Hi _. by apply G7.
  - intros j Hj. simpl in Hj. lia.
Qed.

Lemma wrote_trans sb k x k1 x1 k2 x2 off bs bs' :
  wrote sb k x k1 x1 off bs -> wrote sb k1 x1 k2 x2 (off + Z.of_nat (length bs)) bs' ->
  0 <= off -> off + Z.of_nat (length bs) <= MAXFILE * BSIZE -> wrote sb k x k2 x2 off (bs ++ bs').
Proof.
  intros [A1 A2 A3 A4 A5 A6 A7 A8 A9 A10 A11] [B1 B2 B3 B4 B5 B6 B7 B8 B9 B10 B11] H0 Hmax.
  assert (Hu : forall n, in_fs sb n -> used sb k1 n = false -> used sb k n = false).
  { intros n Hn Hf. destruct (used sb k n) eqn:E; [|done]. by rewrite (A6 _ Hn E) in Hf. }
  split; try done.
  - intros o Ho. rewrite B3, A3, length_app by done.
    destruct (Z.leb_spec off o), (Z.ltb_spec o (off + Z.of_nat (length bs))), (Z.leb_spec (off + Z.of_nat (length bs)) o),
      (Z.ltb_spec o (off + Z.of_nat (length bs) + Z.of_nat (length bs'))), (Z.ltb_spec o (off + Z.of_nat (length bs + length bs')));
      cbn [andb]; try lia; try done.
    + by rewrite lookup_app_l by lia.
    + rewrite lookup_app_r by lia. do 2 f_equal. lia.
  - rewrite B4, A4. done.
  - by rewrite B5.
  - auto.
  - intros n Hn Hun Hb Hi Hm. rewrite B7; [by apply A7|done|by apply A6|done|..].
    + intros ->. destruct A8 as [A8|[_ A8]]; congruence.
    + intros bn Hbn E. destruct (Z.eq_dec (blk_of k x bn) 0) as [E0|E0].
      * destruct (A10 bn Hbn E0) as [E1|[_ E1]]; [|congruence].
        apply (Hm bn Hbn). congruence.
      * apply (Hm bn Hbn). by rewrite <- A9.
  - destruct B8 as [->|[H1 H2]]; [done|]. right. auto.
  - intros bn Hbn Hn0. rewrite B9; [by apply A9|done|]. by rewrite A9.
  - intros bn Hbn Hn0. destruct (Z.eq_dec (blk_of k1 x1 bn) 0) as [E|E].
    + destruct (B10 bn Hbn E) as [|[H1 H2]]; [by left|right; auto].
    + rewrite B9 by done. by apply A10.
  - intros j Hj. rewrite length_app in Hj. destruct (Z.lt_ge_cases j (off + Z.of_nat (length bs))) as [Hlt|Hge].
    + pose proof (A11 j ltac:(lia)) as Hn0. rewrite B9; [done| |done].
      split; [apply Z.div_pos; [lia|done]|apply Z.div_lt_upper_bound; [done|lia]].
    + apply B11. lia.
Qed.


Lemma byte_overwrite d o bs j : fits o (length bs) d -> 0 <= j ->
  byte_at (overwrite o bs d) j = if (o <=? j) && (j <? o + Z.of_nat (length bs)) then default 0 (bs !! Z.to_nat (j - o)) else byte_at d j.
Proof.
  intros Hf Hj. unfold byte_at. rewrite lookup_overwrite, Z2Nat.id by done.
  destruct (Z.leb_spec o j), (Z.ltb_spec j (o + Z.of_nat (length bs))); cbn [andb]; try done.
  do 2 f_equal. destruct Hf. lia.
Qed.

(** Storing into one block of the file. *)
Lemma wrote_block sb k x off bs : fs_wf dev sb k -> file_wf dev sb k x -> 0 <= off -> byte_list bs -> (0 < length bs)%nat ->
  Z.of_nat (length bs) <= BSIZE - off mod BSIZE -> off + Z.of_nat (length bs) <= MAXFILE * BSIZE ->
  blk_of k x (off / BSIZE) <> 0 ->
  wrote sb k x (k_put (blk_of k x (off / BSIZE)) (overwrite (off mod BSIZE) bs (kv k (blk_of k x (off / BSIZE)))) k) x off bs.
Proof.
  intros W F H0 Hbs Hpos Hlen Hmax Hb. set (a := blk_of k x (off / BSIZE)) in *. set (d := overwrite _ _ _).
  pose proof (Z.mod_pos_bound off BSIZE ltac:(done)) as Hmod.
  assert (Hbn : 0 <= off / BSIZE < MAXFILE) by (split; [apply Z.div_pos; [lia|done]|apply Z.div_lt_upper_bound; [done|lia]]).
  destruct (fw_blk _ _ _ _ F _ Hbn Hb) as [Hg Hai]. fold a in Hg, Hai. pose proof Hg as (Hin & Hu & Hnb & _).
  destruct (wf_blk _ _ _ W _ Hin) as [L1 L2].
  assert (Hf : fits (off mod BSIZE) (length bs) (kv k a)) by (split; [lia|rewrite L1, BSIZE_eq in *; lia]).
  assert (Hmap : forall bn, blk_of (k_put a d k) x bn = blk_of k x bn).
  { intros bn. unfold blk_of. destruct (bn <? NDIRECT); [done|]. destruct (ind x =? 0); [done|]. unfold k_put. cbn [kv].
    destruct (Z.eqb_spec (ind x) a); [congruence|done]. }
  split.
  - apply wf_put; [done|done|unfold d; by rewrite length_overwrite|by apply overwrite_bytes].
  - destruct F as [F1 F2 F3 F4]. split; [done|..]; repeat setoid_rewrite Hmap.
    + intros Hi. apply good_put; auto.
    + intros bn Hbn' Hn0. destruct (F3 bn Hbn' Hn0). split; [by apply good_put|done].
    + done.
  - intros o Ho. unfold fbyte. rewrite Hmap. set (c := blk_of k x (o / BSIZE)).
    assert (Hbo : 0 <= o / BSIZE < MAXFILE) by (split; [apply Z.div_pos; [lia|done]|apply Z.div_lt_upper_bound; [done|lia]]).
    pose proof (Z.mod_pos_bound o BSIZE ltac:(done)) as Hmo.
    destruct (Z.eq_dec (o / BSIZE) (off / BSIZE)) as [E|E].
    + assert (Ec : c = a) by (unfold c; by rewrite E). rewrite Ec, (proj2 (Z.eqb_neq _ _) Hb). unfold k_put. cbn [kv].
      rewrite Z.eqb_refl. unfold d. rewrite byte_overwrite by (done || lia).
      pose proof (Z.div_mod o BSIZE ltac:(done)). pose proof (Z.div_mod off BSIZE ltac:(done)).
      assert (Ho' : o - off = o mod BSIZE - off mod BSIZE) by (rewrite E in *; lia). rewrite Ho'.
      destruct (Z.leb_spec off o), (Z.leb_spec (off mod BSIZE) (o mod BSIZE)), (Z.ltb_spec o (off + Z.of_nat (length bs))),
        (Z.ltb_spec (o mod BSIZE) (off mod BSIZE + Z.of_nat (length bs))); try lia; done.
    + replace ((off <=? o) && (o <? off + Z.of_nat (length bs))) with false.
      2: { destruct (Z.leb_spec off o), (Z.ltb_spec o (off + Z.of_nat (length bs))); try done. exfalso. apply E.
           apply (chunk off (Z.of_nat (length bs))); lia. }
      destruct (Z.eqb_spec c 0) as [|Hc0]; [done|]. unfold k_put. cbn [kv]. destruct (Z.eqb_spec c a) as [Eca|]; [|done].
      exfalso. apply E. by apply (fw_inj _ _ _ _ F).
  - by destruct x.
  - done.
  - intros n Hn Hun. by rewrite used_put.
  - intros n Hn Hun Hbm Hi Hm. unfold k_put. cbn [kv]. destruct (Z.eqb_spec n a) as [->|]; [|done]. by destruct (Hm _ Hbn).
  - by left.
  - intros bn Hbn' _. apply Hmap.
  - intros bn Hbn' Hn0. left. by rewrite Hmap.
  - intros j Hj. rewrite Hmap. destruct (chunk off (Z.of_nat (length bs)) H0 ltac:(lia) Hlen j Hj) as [-> _]. done.
Qed.

Definition src_bytes (src : source P) (u : U) (tot : Z) (bs : list Z) : Prop :=
  forall i, (i < length bs)%nat -> src_byte src u (tot + Z.of_nat i) = bs !! i.

Definition write_post (src : source P) (ip : nat) s k x (off n tot c : Z) (r : Z * Z) s' : Prop := exists blk u k' x' bs,
  s' = set_fs_um u (upd ip blk x' s) /\ bk_rep blk k' /\ wrote (fs_sb s) k x k' x' off bs /\
  src_bytes src (fs_um s) tot bs /\ src_same src (fs_um s) u /\
  r = (tot + Z.of_nat (length bs), off + Z.of_nat (length bs)) /\ Z.of_nat (length bs) <= n - tot /\
  (Z.of_nat (length bs) = n - tot \/ disk_full (fs_sb s) k') /\ kroom k - c <= kroom k'.


Lemma fpre_wrote ip s k x blk u k' x' off bs : fpre dev ip s k x -> wrote (fs_sb s) k x k' x' off bs -> bk_rep blk k' ->
  fpre dev ip (set_fs_um u (upd ip blk x' s)) k' x'.
Proof.
  intros [P1 P2 P3 P4 P5 P6 P7] [W1 W2 W3 W4 W5 W6 W7 W8 W9 W10 W11] Hr. split; try done.
  - by eapply upd_lookup.
  - by rewrite W4.
  - by rewrite W5.
Qed.

Lemma src_bytes_app src u u1 tot bs bs' : src_bytes src u tot bs -> src_same src u u1 ->
  src_bytes src u1 (tot + Z.of_nat (length bs)) bs' -> src_bytes src u tot (bs ++ bs').
Proof.
  intros H1 Hs H2 i Hi. rewrite length_app in Hi. destruct (decide (i < length bs)%nat).
  - rewrite lookup_app_l by done. by apply H1.
  - rewrite lookup_app_r by lia. rewrite <- H2 by lia. rewrite (src_byte_same src u u1) by done. f_equal. lia.
Qed.

Lemma src_same_trans src u u1 u2 : src_same src u u1 -> src_same src u1 u2 -> src_same src u u2.
Proof. destruct src; simpl; [|congruence]. intros H1 H2 b. by rewrite H2. Qed.
Lemma src_same_refl src u : src_same src u u.
Proof. by destruct src. Qed.

Lemma write_post_stop src ip s k x off n tot c b k' x' : grown dev (fs_sb s) k x k' x' -> bk_rep b k' -> tot <= n ->
  (n - tot = 0 \/ disk_full (fs_sb s) k') -> kroom k - c <= kroom k' ->
  write_post src ip s k x off n tot c (tot, off) (upd ip b x' s).
Proof.
  intros G Hb Ht Hf Hc. exists b, (fs_um s), k', x', []. split; [done|]. split; [done|]. split; [by apply wrote_none|].
  split; [intros i Hi; simpl in Hi; lia|]. split; [apply src_same_refl|]. split; [simpl; by rewrite !Z.add_0_r|]. simpl.
  split; [lia|]. split; [|done]. destruct Hf; [left; lia|by right].
Qed.

Lemma write_post_none src ip s k x off n tot c : fpre dev ip s k x -> n - tot = 0 -> 0 <= c ->
  write_post src ip s k x off n tot c (tot, off) s.
Proof.
  intros [P1 P2 P3 P4 P5 P6 P7] Hn Hc.
  pose proof (write_post_stop src ip s k x off n tot c (fs_blk s) k x) as H. rewrite upd_id in H by done.
  apply H; [by apply grown_refl|done|lia|by left|lia].
Qed.

(** [c] blocks are enough for the bytes left; each costs up to six log
    entries. *)
Lemma writei_loop_spec fuel c ip src s k x off n tot :
  fpre dev ip s k x -> source_ok src (fs_um s) n -> 0 <= off -> 0 <= tot <= n -> off + (n - tot) <= MAXFILE * BSIZE ->
  (tot < n -> n - tot + off mod BSIZE <= c * BSIZE) -> 0 <= c <= Z.of_nat fuel -> 6 * c <= kroom k ->
  wp (writei_loop fuel ip src off n tot) (write_post src ip s k x off n tot (6 * c)) s.
Proof.
  revert c off tot s k x. induction fuel as [|fuel IH]; intros c off tot s k x Hp Hsrc H0 Ht Hmax Hfuel Hc Hroom;
    pose proof (Z.mod_pos_bound off BSIZE ltac:(done)) as Hmod;
    assert (Hc1 : tot < n -> 1 <= c) by (intros Hlt; specialize (Hfuel Hlt); rewrite BSIZE_eq in *; lia); cbn [writei_loop]; destruct (Z.ltb_spec tot n); try lia.
  1,3: wp_simp; apply write_post_none; (done || lia).
  assert (Hbn : 0 <= off / BSIZE < MAXFILE) by (split; [apply Z.div_pos; [lia|done]|apply Z.div_lt_upper_bound; [done|lia]]).
  wp_simp. eapply wp_mono; [apply (bmap_spec dev ip s k x); [done|done|lia]|].
  intros addr s1 (b1 & k1 & x1 & -> & R1 & G & Hk1 & Haddr & _). cbv beta.
  destruct Haddr as [(-> & Hfull)|(Hn0 & ->)].
  { change (0 =? 0) with true. cbv iota. wp_simp. apply (write_post_stop _ _ _ _ _ _ _ _ _ _ k1); [done|done|lia|by right|lia]. }
  rewrite (proj2 (Z.eqb_neq _ _) Hn0). wp_simp. pose proof (fpre_upd _ _ _ _ _ _ _ _ Hp G R1) as Hp1.
  pose proof Hp1 as [P1 P2 P3 P4 P5 P6 P7]. rewrite (geti_eq _ _ _ P4), P5.
  apply (wp_bread dev _ _ k1); [done|intros i m; by rewrite P6, lookup_empty|rewrite P6; by vm_compute; lia|].
  intros i b2 Hn R2. cbv beta. wp_simp. eapply wp_bdata; [exact R2|apply lookup_insert_eq|]. cbn [kv k_hold]. wp_simp.
  remember (Z.min (n - tot) (BSIZE - off mod BSIZE)) as m eqn:Em.
  apply (wp_copyin _ src tot m n); [done|lia|lia|lia|]. intros u bs Hsrc' Hsame Hbytes Hlen Hbs. cbv beta. cbn [fst snd negb]. wp_simp.
  set (a := blk_of k1 x1 (off / BSIZE)) in *. destruct (fw_blk _ _ _ _ P3 _ Hbn Hn0) as [Hg _]. fold a in Hg.
  apply (wp_put dev _ _ _ k1 i a); [exact R2|done|apply P2|lia|apply Hg|]. intros b3 R3.
  assert (W1 : wrote (fs_sb s) k1 x1 (k_put a (overwrite (off mod BSIZE) bs (kv k1 a)) k1) x1 off bs).
  { apply wrote_block; try done; lia. }
  set (k3 := k_put a _ k1) in *.
  assert (W : wrote (fs_sb s) k x k3 x1 off bs).
  { apply (wrote_trans _ _ _ k1 x1 k3 x1 off [] bs); [by apply wrote_none|by rewrite Z.add_0_r|done|simpl; lia]. }
  change (set_fs_blk b3 _) with (set_fs_um u (upd ip b3 x1 s)).
  pose proof (fpre_wrote ip s k x b3 u k3 x1 off bs Hp W R3) as Hp3.
  eapply wp_mono; [apply (IH (c - 1)); [exact Hp3|exact Hsrc'|lia|lia|lia| |lia|]|].
  - intros Hlt. assert (m = BSIZE - off mod BSIZE) as Em' by lia. rewrite Em', next_block by done. lia.
  - unfold k3. cbn [kroom k_put]. lia.
  - intros r s' (b4 & u4 & k4 & x4 & bs4 & -> & R4 & W4 & Hb4 & Hs4 & -> & Hl4 & Hd4 & Hk4).
    exists b4, u4, k4, x4, (bs ++ bs4). rewrite <- Hlen in *. split.
    { unfold upd, set_it_inode, set_fs_um, set_fs_blk. cbn. by rewrite list_insert_insert_eq. }
    split; [done|]. split; [eapply wrote_trans; (done || lia)|]. split; [by eapply src_bytes_app|]. split; [by eapply src_same_trans|].
    rewrite length_app. split; [f_equal; lia|]. split; [lia|]. split; [destruct Hd4; [left; lia|by right]|].
    unfold k3 in Hk4. cbn [kroom k_put] in Hk4. lia.
Qed.


(** * The inode on disk *)

Definition short (v : Z) : Prop := - 2 ^ 15 <= v < 2 ^ 15.
(** The fields of an inode fit those of struct dinode. *)
Record inode_ok x : Prop := {
  io_type : short (i_type x); io_major : short (i_major x); io_minor : short (i_minor x); io_nlink : short (i_nlink x);
  io_size : 0 <= i_size x < 2 ^ 32; io_len : length (i_addrs x) = 13%nat;
  io_addrs : Forall (fun a => 0 <= a < 2 ^ 32) (i_addrs x) }.

Lemma s16_u16 v : short v -> s16 (v mod 2 ^ 16) = v.
Proof.
  intros H. unfold short, s16 in *. rewrite Zplus_mod_idemp_l. rewrite Z.mod_small; lia.
Qed.

(** What iupdate() stores, ilock() loads. *)
Lemma dinode_roundtrip o x d : inode_ok x -> fits o 64 d -> load_dinode o (store_dinode o x d) x = x.
Proof.
  intros [H1 H2 H3 H4 H5 H6 H7] Hf. unfold load_dinode, store_dinode.
  set (d1 := putn 2 o (i_type x) d). set (d2 := putn 2 (o + 2) (i_major x) d1). set (d3 := putn 2 (o + 4) (i_minor x) d2).
  set (d4 := putn 2 (o + 6) (i_nlink x) d3). set (d5 := putn 4 (o + 8) (i_size x) d4).
  destruct Hf as [Ho Hl].
  assert (F1 : fits o 2 d) by (split; lia). assert (L1 : length d1 = length d) by (by apply length_putn).
  assert (F2 : fits (o + 2) 2 d1) by (split; lia). assert (L2 : length d2 = length d1) by (by apply length_putn).
  assert (F3 : fits (o + 4) 2 d2) by (split; lia). assert (L3 : length d3 = length d2) by (by apply length_putn).
  assert (F4 : fits (o + 6) 2 d3) by (split; lia). assert (L4 : length d4 = length d3) by (by apply length_putn).
  assert (F5 : fits (o + 8) 4 d4) by (split; lia). assert (L5 : length d5 = length d4) by (by apply length_putn).
  assert (F6 : fits (o + 12) (4 * length (i_addrs x)) d5) by (split; lia).
  rewrite !getn_put_arr_ne by (done || lia). unfold d5 at 1 2 3 4. rewrite !getn_putn_ne by (done || lia).
  unfold d4 at 1 2 3. rewrite !getn_putn_ne by (done || lia). unfold d3 at 1 2. rewrite !getn_putn_ne by (done || lia).
  unfold d2 at 1. rewrite !getn_putn_ne by (done || lia).
  unfold d1, d2, d3, d4, d5. rewrite !getn_putn_eq by done. cbn [Z.mul Z.of_nat Pos.of_succ_nat Pos.succ Pos.mul].
  rewrite !s16_u16 by done. rewrite Z.mod_small by done.
  fold d1 d2 d3 d4 d5. rewrite <- H6. rewrite get_put_arr by (done || by rewrite H6). by destruct x.
Qed.

(** The inode's own block is in use and holds no data of the file. *)
Record ino_home sb k x : Prop := {
  ih_good : good dev sb k (IBLOCK (i_inum x) sb);
  ih_off : 0 <= i_inum x;
  ih_ind : ind x <> IBLOCK (i_inum x) sb;
  ih_data : forall bn, 0 <= bn < MAXFILE -> blk_of k x bn <> IBLOCK (i_inum x) sb }.

Lemma ioff_fits n d : 0 <= n -> length d = Z.to_nat BSIZE -> fits (IOFF n) 64 d.
Proof.
  intros Hn Hl. unfold fits, IOFF, DINODE_SZ. rewrite Hl. pose proof (Z.mod_pos_bound n IPB ltac:(done)) as H.
  change IPB with 16 in *. rewrite BSIZE_eq. lia.
Qed.
(** Lengths of blocks after stores into their fields. *)
Ltac fields := repeat first [lia|split|rewrite length_putn].
Lemma store_dinode_ok o x d : fits o 64 d -> length (i_addrs x) = 13%nat -> byte_list d ->
  length (store_dinode o x d) = length d /\ byte_list (store_dinode o x d).
Proof.
  intros [Ho Hl] Ha Hb. unfold store_dinode. split.
  - rewrite length_put_arr; rewrite ?Ha; fields.
  - apply put_arr_bytes. by repeat apply putn_bytes.
Qed.

Lemma ino_good_blk sb k x : fs_wf dev sb k -> ino_home sb k x ->
  length (kv k (IBLOCK (i_inum x) sb)) = Z.to_nat BSIZE /\ byte_list (kv k (IBLOCK (i_inum x) sb)).
Proof. intros W [(H & _) _ _ _]. by apply (wf_blk _ _ _ W). Qed.

Lemma iupdate_spec (Q : unit -> fsst S U -> Prop) ip s k x :
  fpre dev ip s k x -> ino_home (fs_sb s) k x -> 1 <= kroom k ->
  (forall b, bk_rep b (k_put (IBLOCK (i_inum x) (fs_sb s)) (store_dinode (IOFF (i_inum x)) x (kv k (IBLOCK (i_inum x) (fs_sb s)))) k) ->
     Q tt (set_fs_blk b s)) -> wp (iupdate ip) Q s.
Proof.
  intros [P1 P2 P3 P4 P5 P6 P7] [Hg _ _ _] Hroom HQ. unfold iupdate. wp_simp. rewrite (geti_eq _ _ _ P4), P5.
  apply (wp_bread dev _ s k); [done|intros i m; by rewrite P6, lookup_empty|rewrite P6; by vm_compute; lia|].
  intros i b1 Hn R1. cbv beta. wp_simp. eapply wp_bdata; [exact R1|apply lookup_insert_eq|]. cbn [kv k_hold]. wp_simp.
  apply (wp_put_last dev _ _ k i (IBLOCK (i_inum x) (fs_sb s))); try done; [apply P2|apply Hg].
Qed.

(** Storing the inode leaves the file alone. *)
Lemma put_home sb k x d : fs_wf dev sb k -> file_wf dev sb k x -> ino_home sb k x -> length d = Z.to_nat BSIZE -> byte_list d ->
  let k' := k_put (IBLOCK (i_inum x) sb) d k in
  fs_wf dev sb k' /\ file_wf dev sb k' x /\ ino_home sb k' x /\
  (forall o, 0 <= o < MAXFILE * BSIZE -> fbyte k' x o = fbyte k x o) /\ (forall bn, blk_of k' x bn = blk_of k x bn).
Proof.
  intros W F [Hg Ho Hi Hd] Hl Hb k'. pose proof Hg as (Hin & Hu & Hnb & Hlog).
  assert (Hmap : forall bn, blk_of k' x bn = blk_of k x bn).
  { intros bn. unfold blk_of. destruct (bn <? NDIRECT); [done|]. destruct (ind x =? 0); [done|]. unfold k', k_put. cbn [kv].
    by rewrite (proj2 (Z.eqb_neq _ _) Hi). }
  split; [by apply wf_put|]. split; [|split; [|split; [|done]]].
  - destruct F as [F1 F2 F3 F4]. split; [done|..]; repeat setoid_rewrite Hmap.
    + intros H. apply good_put; auto.
    + intros bn Hbn Hn0. destruct (F3 bn Hbn Hn0). split; [by apply good_put|done].
    + done.
  - split; [by apply good_put|done|done|]. intros bn Hbn. rewrite Hmap. by apply Hd.
  - intros o Hoo. unfold fbyte. rewrite Hmap. destruct (Z.eqb_spec (blk_of k x (o / BSIZE)) 0); [done|]. unfold k', k_put. cbn [kv].
    rewrite (proj2 (Z.eqb_neq (blk_of k x (o / BSIZE)) (IBLOCK (i_inum x) sb))); [done|]. apply Hd.
    split; [apply Z.div_pos; [lia|done]|apply Z.div_lt_upper_bound; [done|lia]].
Qed.

(** The inode keeps its home while the file is written. *)
Lemma home_wrote sb k x k' x' off bs : fs_wf dev sb k -> ino_home sb k x -> wrote sb k x k' x' off bs -> ino_home sb k' x'.
Proof.
  intros W0 [(G1 & G2 & G3 & G4) Ho Hi Hd] [W1 W2 W3 W4 W5 W6 W7 W8 W9 W10 W11].
  assert (Ei : i_inum x' = i_inum x) by (by rewrite W4).
  rewrite <- Ei in *. split; [split; [done|split; [by apply W6|done]]|done|..].
  - rewrite Ei in *. destruct W8 as [->|[_ W8]]; [done|]. intros E. rewrite E in W8. congruence.
  - intros bn Hbn E. rewrite Ei in *. destruct (Z.eq_dec (blk_of k x bn) 0) as [E0|E0].
    + destruct (W10 bn Hbn E0) as [E1|[_ E1]]; [|congruence]. apply (Hd bn Hbn). congruence.
    + apply (Hd bn Hbn). by rewrite <- W9.
Qed.

Lemma addrs_ok sb k x : file_wf dev sb k x -> sb_size sb <= 2 ^ 32 -> Forall (fun a => 0 <= a < 2 ^ 32) (i_addrs x).
Proof.
  intros F Hs. apply Forall_lookup_2. intros i a Hi. destruct (Z.eq_dec a 0) as [->|Hn0]; [lia|].
  assert (Hsl : slot x (Z.of_nat i) = a) by (unfold slot; by rewrite Nat2Z.id, Hi).
  pose proof (lookup_lt_Some _ _ _ Hi) as Hl. rewrite (fw_len _ _ _ _ F) in Hl.
  destruct (decide (i = 12)%nat) as [->|Hne].
  - change (ind x = a) in Hsl. destruct (fw_ind _ _ _ _ F) as ([H1 H2] & _); [by rewrite Hsl|]. rewrite Hsl in *. lia.
  - assert (Eb : blk_of k x (Z.of_nat i) = a).
    { unfold blk_of. rewrite (proj2 (Z.ltb_lt (Z.of_nat i) NDIRECT)) by (unfold NDIRECT; lia). done. }
    destruct (fw_blk _ _ _ _ F (Z.of_nat i)) as [([H1 H2] & _) _]; [rewrite MAXFILE_eq; lia|by rewrite Eb|]. rewrite Eb in *. lia.
Qed.

(** The file after writei() stored [bs] at [off]. *)
Record writei_post sb k x k' x' (off : Z) (bs : list Z) : Prop := {
  wp_wf : fs_wf dev sb k';
  wp_file : file_wf dev sb k' x';
  wp_home : ino_home sb k' x';
  wp_bytes : forall o, 0 <= o < MAXFILE * BSIZE -> fbyte k' x' o =
    if (off <=? o) && (o <? off + Z.of_nat (length bs)) then default 0 (bs !! Z.to_nat (o - off)) else fbyte k x o;
  wp_size : i_size x' = Z.max (i_size x) (off + Z.of_nat (length bs));
  wp_meta : x' = set_i_size (i_size x') (set_i_addrs (i_addrs x') x);
  wp_mapped : mapped k' x' off (Z.of_nat (length bs)) /\ (forall o n, 0 <= o -> o + n <= MAXFILE * BSIZE -> mapped k x o n -> mapped k' x' o n);
  wp_disk : load_dinode (IOFF (i_inum x)) (kv k' (IBLOCK (i_inum x) sb)) x' = x';
  wp_frame : forall n, in_fs sb n -> used sb k n = true -> ~ bitmap_block sb n -> n <> ind x -> n <> IBLOCK (i_inum x) sb ->
    (forall bn, 0 <= bn < MAXFILE -> blk_of k x bn <> n) -> kv k' n = kv k n
}.

Lemma resize_home sb k x z : ino_home sb k x -> ino_home sb k (set_i_size z x).
Proof. intros [H1 H2 H3 H4]. by split. Qed.
Lemma resize_file sb k x z : file_wf dev sb k x -> file_wf dev sb k (set_i_size z x).
Proof. intros [H1 H2 H3 H4]. by split. Qed.

(** The end of writei(): the new size and the inode go to disk. *)
Lemma finish_wrote sb k x k1 x1 off bs : fs_wf dev sb k -> sb_size sb <= 2 ^ 32 -> inode_ok x -> ino_home sb k x ->
  wrote sb k x k1 x1 off bs -> 0 <= off -> off + Z.of_nat (length bs) <= MAXFILE * BSIZE ->
  let x2 := set_i_size (Z.max (i_size x) (off + Z.of_nat (length bs))) x1 in
  writei_post sb k x (k_put (IBLOCK (i_inum x2) sb) (store_dinode (IOFF (i_inum x2)) x2 (kv k1 (IBLOCK (i_inum x2) sb))) k1) x2 off bs.
Proof.
  intros W Hs Hok Hh Hw H0 Hmax x2. pose proof (home_wrote _ _ _ _ _ _ _ W Hh Hw) as Hh1. pose proof Hw as [W1 W2 W3 W4 W5 W6 W7 W8 W9 W10 W11].
  assert (Hh2 : ino_home sb k1 x2) by (by apply resize_home). assert (F2 : file_wf dev sb k1 x2) by (by apply resize_file).
  destruct (ino_good_blk _ _ _ W1 Hh2) as [L1 L2]. assert (Hfit := ioff_fits (i_inum x2) _ (ih_off _ _ _ Hh2) L1).
  destruct (store_dinode_ok _ x2 _ Hfit (fw_len _ _ _ _ F2) L2) as [S1 S2].
  destruct (put_home sb k1 x2 _ W1 F2 Hh2 (eq_trans S1 L1) S2) as (A1 & A2 & A3 & A4 & A5).
  assert (Ei : i_inum x2 = i_inum x) by (unfold x2; cbn; by rewrite W4).
  split; try done.
  - intros o Ho. rewrite A4 by done. by apply (W3 o).
  - unfold x2. rewrite W4. done.
  - split.
    + intros j Hj. rewrite A5. by apply W11.
    + intros o n Ho Hn Hm j Hj. rewrite A5. change (blk_of k1 x1 (j / BSIZE) <> 0). rewrite W9; [by apply Hm| |by apply Hm].
      split; [apply Z.div_pos; [lia|done]|apply Z.div_lt_upper_bound; [done|lia]].
  - rewrite <- Ei. unfold k_put. cbn [kv]. rewrite Z.eqb_refl. apply dinode_roundtrip; [|done].
    destruct Hok as [O1 O2 O3 O4 O5 O6 O7]. unfold x2. rewrite W4. split; cbn; try done.
    + rewrite MAXFILE_eq, BSIZE_eq in Hmax. lia.
    + apply (fw_len _ _ _ _ W2).
    + by apply (addrs_ok sb k1).
  - intros n Hn Hu Hb Hi Hib Hd. rewrite Ei. unfold k_put. cbn [kv]. rewrite (proj2 (Z.eqb_neq _ _) Hib). by apply W7.
Qed.

(** The number of blocks a write of [n] bytes at [off] touches. *)
Definition chunks (off n : Z) : Z := (n + off mod BSIZE + (BSIZE - 1)) / BSIZE.

Lemma chunks_ok off n : 0 <= off -> 0 <= n ->
  0 <= chunks off n <= Z.of_nat (Z.to_nat (n / BSIZE + 2)) /\ n + off mod BSIZE <= chunks off n * BSIZE.
Proof.
  intros H0 Hn. unfold chunks. rewrite BSIZE_eq. pose proof (Z.mod_pos_bound off 1024 ltac:(lia)).
  set (y := n + off mod 1024 + (1024 - 1)). pose proof (Z.div_mod y 1024 ltac:(lia)). pose proof (Z.mod_pos_bound y 1024 ltac:(lia)).
  pose proof (Z.div_mod n 1024 ltac:(lia)). pose proof (Z.mod_pos_bound n 1024 ltac:(lia)). pose proof (Z.div_pos n 1024 Hn ltac:(lia)).
  rewrite Z2Nat.id by lia. unfold y in *. lia.
Qed.

Lemma upd_modi ip blk x1 x s f : it_inode s !! ip = Some x ->
  set_it_inode (alter f ip) (upd ip blk x1 s) = upd ip blk (f x1) s.
Proof.
  intros H. unfold upd, set_it_inode. cbn. f_equal.
  rewrite (alter_insert f ip _ x1) by (apply list_lookup_insert_eq; by eapply lookup_lt_Some). by rewrite list_insert_insert_eq.
Qed.

Lemma writei_spec ip src s k x off n :
  fpre dev ip s k x -> inode_ok x -> ino_home (fs_sb s) k x -> source_ok src (fs_um s) n ->
  0 <= off <= i_size x -> 0 <= n -> off + n <= MAXFILE * BSIZE -> 6 * chunks off n + 1 <= kroom k ->
  wp (writei ip src off n) (fun r s' => exists blk u k' x' bs,
    s' = set_fs_um u (upd ip blk x' s) /\ bk_rep blk k' /\ writei_post (fs_sb s) k x k' x' off bs /\
    src_bytes src (fs_um s) 0 bs /\ r = Z.of_nat (length bs) /\ r <= n /\ (r = n \/ disk_full (fs_sb s) k') /\
    kheld k' = ∅ /\ kroom k - (6 * chunks off n + 1) <= kroom k') s.
Proof.
  intros Hp Hok Hh Hsrc Hoff Hn Hmax Hroom. pose proof (fp_ino _ _ _ _ _ Hp) as Hino. pose proof (fp_wf _ _ _ _ _ Hp) as Hwf.
  pose proof (fp_size _ _ _ _ _ Hp) as Hsb. destruct (chunks_ok off n ltac:(lia) Hn) as [Hc1 Hc2].
  assert (Hlim : MAXFILE * BSIZE < 2 ^ 32) by (rewrite MAXFILE_eq, BSIZE_eq; lia).
  unfold writei. wp_simp. rewrite (geti_eq _ _ _ Hino). destruct (wrap_test off n) as [-> Hu]; [lia|lia|].
  rewrite (proj2 (Z.ltb_ge (i_size x) off)) by lia. rewrite (proj2 (Z.leb_gt (2 ^ 32) (off + n))) by lia. cbn [orb].
  rewrite Hu by lia. rewrite (proj2 (Z.ltb_ge (MAXFILE * BSIZE) (off + n))) by lia. wp_simp.
  eapply wp_mono; [apply (writei_loop_spec _ (chunks off n)); [done|done|lia|lia|lia|lia|done|lia]|].
  intros [tot off'] s1 (b1 & u1 & k1 & x1 & bs & -> & R1 & W1 & Hb1 & Hs1 & [= -> ->] & Hl1 & Hd1 & Hk1). wp_simp.
  pose proof (fpre_wrote ip s k x b1 u1 k1 x1 off bs Hp W1 R1) as Hp1.
  set (x2 := set_i_size (Z.max (i_size x) (off + Z.of_nat (length bs))) x1).
  assert (Hx : x2 = if i_size x <? off + Z.of_nat (length bs) then set_i_size (off + Z.of_nat (length bs)) x1 else x1).
  { unfold x2. pose proof (wr_meta _ _ _ _ _ _ _ W1) as E. destruct (Z.ltb_spec (i_size x) (off + Z.of_nat (length bs))).
    - by rewrite Z.max_r by lia.
    - rewrite Z.max_l by lia. rewrite E. by destruct x. }
  assert (Hp2 : fpre dev ip (set_fs_um u1 (upd ip b1 x2 s)) k1 x2).
  { destruct Hp1 as [Q1 Q2 Q3 Q4 Q5 Q6 Q7]. split; try done; [by apply resize_file|by eapply upd_lookup]. }
  pose proof (finish_wrote _ _ _ _ _ _ _ Hwf Hsb Hok Hh W1 ltac:(lia) ltac:(lia)) as FW. fold x2 in FW.
  pose proof (resize_home _ _ _ (Z.max (i_size x) (off + Z.of_nat (length bs))) (home_wrote _ _ _ _ _ _ _ Hwf Hh W1)) as Hh2.
  assert (Hmod : forall (Q : unit -> fsst S U -> Prop), Q tt (set_fs_um u1 (upd ip b1 x2 s)) ->
    wp (if i_size x <? off + Z.of_nat (length bs) then modi ip (set_i_size (off + Z.of_nat (length bs))) else ret tt) Q
      (set_fs_um u1 (upd ip b1 x1 s))).
  { intros Q HQ. rewrite Hx in HQ. destruct (i_size x <? off + Z.of_nat (length bs)); unfold modi; wp_simp; [|done].
    change (Q tt (set_fs_um u1 (set_it_inode (alter (set_i_size (off + Z.of_nat (length bs))) ip) (upd ip b1 x1 s)))).
    by rewrite (upd_modi ip b1 x1 x) by done. }
  apply Hmod. wp_simp. apply (iupdate_spec _ ip _ k1 x2 Hp2 Hh2); [lia|]. intros b3 R3. wp_simp.
  eexists b3, u1, _, x2, bs. split; [done|]. split; [exact R3|]. split; [exact FW|]. split; [done|]. split; [lia|]. split; [lia|].
  split; [|split; [apply (fp_held _ _ _ _ _ Hp2)|cbn; lia]].
  destruct Hd1 as [|Hfull]; [left; lia|right]. intros c Hc. cbn in Hc. rewrite used_put; [by apply Hfull|apply Hh2|done].
Qed.
End io.
