(* ===== verification/FsProps.v ===== *)
(** The properties of the file system, and a small disk on which they are
    exercised: block 0 and 1, the log in 2..32, one block of inodes, the
    bitmap, and 29 data blocks, the first with a small program, under the real
    log and buffer cache. *)
From S2P Require Import Prelude Mem Str Spinlock UserMem Bytes Blocks Bio BioSpec BCache Log LogSpec LogProps Fs FsSpec FsFile FsIO.

(** * An example disk *)

Definition demo_bm : list Z := [255; 255; 255; 255; 15] ++ replicate 1019 0.
(** A program header for four bytes of code in a segment of 100 bytes. *)
Definition demo_prog : list Z :=
  le_encode 4 1 ++ le_encode 4 5 ++ le_encode 8 56 ++ le_encode 8 0 ++ le_encode 8 0 ++ le_encode 8 4 ++ le_encode 8 100 ++ le_encode 8 4096 ++
  [19; 0; 0; 0] ++ replicate 964 0.
Definition demo_disk : gmap Z (list Z) := {[34 := demo_bm; 35 := demo_prog]}.
Definition demo_sb : superblock := Superblock FSMAGIC 64 29 16 31 2 33 34.
(** A new, empty file, locked by the running process. *)
Definition demo_ino : inode := Inode 1 1 1 (Sleeplock Free true 1) true T_FILE 0 0 1 0 (replicate 13 0).
Definition demo_fs (l : logst) : fsst logst mem := Fsst l ∅ demo_sb Free (demo_ino :: replicate 49 inode0).
Definition demo_k (l : kst) : Prop := forall n, kv l n = dblock demo_disk n.

#[local] Existing Instance log_blocks.
#[local] Instance demo_blocks : Blocks logst := log_blocks 1.
#[local] Instance demo_blocks_ok : BlocksOk logst 1 := log_blocks_ok 1 1 2.

Lemma demo_used k b : demo_k k -> in_fs demo_sb b -> used demo_sb k b = (b <=? 35).
Proof.
  intros Hk [H0 Hb]. unfold used. rewrite Hk.
  assert (E : BBLOCK b demo_sb = 34).
  { unfold BBLOCK. rewrite Z.div_small; [done|]. cbn in Hb. rewrite BPB_eq. lia. }
  rewrite E, Z.mod_small by (cbn in Hb; rewrite BPB_eq; lia).
  assert (A : forallb (fun i => Bool.eqb (bit_test (dblock demo_disk 34) i) (i <=? 35)) (seqZ 0 64) = true) by (vm_compute; reflexivity).
  rewrite forallb_forall in A. specialize (A b). apply Bool.eqb_prop, A. apply list_elem_of_In, elem_of_seqZ. cbn in Hb. lia.
Qed.

Lemma demo_bitmap n : bitmap_block demo_sb n <-> n = 34.
Proof.
  split.
  - intros (b & [H0 Hb] & ->). unfold BBLOCK. rewrite Z.div_small; [done|]. cbn in Hb. rewrite BPB_eq. lia.
  - intros ->. exists 0. split; [split; [done|reflexivity]|reflexivity].
Qed.

Lemma demo_loggable n : 33 <= n < 64 -> loggable n.
Proof. intros H. split; [lia|]. unfold data_block, LOGBLOCKS, MAXOPBLOCKS. lia. Qed.

Lemma demo_wf k : demo_k k -> kdirty k = ∅ -> fs_wf 1 demo_sb k.
Proof.
  intros Hk Hd. split; [done|..].
  - intros n Hn. rewrite Hk. unfold dblock, demo_disk. destruct (Z.eq_dec n 34) as [->|Hne]; [|destruct (Z.eq_dec n 35) as [->|Hne2]].
    + rewrite lookup_insert_eq. cbn [default from_option id]. split; [reflexivity|]. unfold demo_bm.
      apply Forall_app_2; [repeat (apply Forall_cons_2; [lia|]); apply Forall_nil_2|apply Forall_replicate; lia].
    + rewrite lookup_insert_ne, lookup_singleton_eq by done. cbn [default from_option id]. split; [reflexivity|]. unfold demo_prog.
      repeat (apply Forall_app_2; [apply le_encode_bytes || (repeat (apply Forall_cons_2; [lia|]); apply Forall_nil_2)|]). apply Forall_replicate; lia.
    + rewrite lookup_insert_ne, lookup_singleton_ne by done. cbn [default from_option]. apply zero_blk_ok.
  - intros n ->%demo_bitmap. split; [split; [done|reflexivity]|]. split; [by rewrite demo_used|]. apply demo_loggable. lia.
  - split; [split; [done|reflexivity]|]. by rewrite demo_used.
  - intros b Hb. rewrite demo_used by done. intros H%Z.leb_gt. apply demo_loggable. destruct Hb as [_ Hb]. cbn in Hb. lia.
Qed.

Lemma demo_slot i : slot demo_ino i = 0.
Proof.
  unfold slot. cbn [i_addrs demo_ino]. destruct (replicate 13 0 !! Z.to_nat i) eqn:E; [|done]. by apply lookup_replicate in E as [-> _].
Qed.
Lemma demo_blk k bn : blk_of k demo_ino bn = 0.
Proof. unfold blk_of, ind. rewrite !demo_slot. by destruct (bn <? NDIRECT). Qed.

Lemma demo_file k : demo_k k -> file_wf 1 demo_sb k demo_ino /\ inode_ok demo_ino /\ ino_home 1 demo_sb k demo_ino.
Proof.
  intros Hk. split; [|split].
  - split; [reflexivity|..].
    + intros H. by destruct H; apply demo_slot.
    + intros bn _ H. by destruct H; apply demo_blk.
    + intros bn bn' _ _ _ H. by destruct H; apply demo_blk.
  - split; try (split; vm_compute; congruence); try reflexivity. apply Forall_replicate. lia.
  - split; [|cbn; lia|..].
    + split; [split; [done|reflexivity]|]. split; [by rewrite demo_used|]. split; [by rewrite demo_bitmap|]. apply demo_loggable. vm_compute. split; congruence.
    + unfold ind. by rewrite demo_slot.
    + intros bn _. by rewrite demo_blk.
Qed.

(** The file system after boot, inside begin_op()/end_op(). *)
Lemma demo_state : exists l k,
  fpre 1 0 (demo_fs l) k demo_ino /\ demo_k k /\ kheld k = ∅ /\ kdirty k = ∅ /\ kroom k = 20.
Proof.
  assert (B : wp demo_boot (fun _ s => demo_fields s = true /\ exists c, open_tx 1 s c [] /\ cP c = ∅ /\ cH c = ∅ /\
    forall n, cv c n = if n =? 2 then hdr [] (dblock demo_disk 2) else dblock demo_disk n) (boot_log demo_disk)).
  { apply demo_boot_disk; vm_compute; reflexivity. }
  apply wp_ok in B as (_ & l & _ & Hd & c & Ht & HP & HH & Hv).
  apply demo_fields_true in Hd as (H1 & H2 & H3 & H4 & H5 & H6).
  assert (Hk : demo_k (Kst (cv c) ∅ ∅ 20)).
  { intros n. cbn [kv]. rewrite Hv. destruct (Z.eqb_spec n 2) as [->|]; [|reflexivity]. vm_compute. reflexivity. }
  exists l, (Kst (cv c) ∅ ∅ 20). split; [|by split_and!]. destruct (demo_file _ Hk) as [Hf _].
  split; try reflexivity; [|by apply demo_wf|done|vm_compute; congruence].
  exists c, []. split; try done.
  - intros _. change (1 <= lg_outstanding l). rewrite H2. lia.
  - intros n. rewrite HH. cbn [kheld]. split; [by intros ?%elem_of_empty|]. intros [i Hi]. by rewrite lookup_empty in Hi.
  - intros n. rewrite HH. by intros ?%elem_of_empty.
Qed.

Section props.
Context {S U P : Type} `{BK : Blocks S} `{UM : UserMem U P} (dev : Z) `{BO : !BlocksOk S dev} `{UO : !UserMemOk U P}.
Implicit Types (s : fsst S U) (k : kst) (x : inode).

Lemma no_held sb k : kheld k = ∅ -> held_ok sb k /\ (size (kheld k) <= 2)%nat.
Proof. intros E. split; [|rewrite E, map_size_empty; lia]. intros i m. by rewrite E, lookup_empty. Qed.

(** balloc() returns the lowest-numbered free block of the disk, marked used
    in the bitmap and zeroed, every other block's status and contents unchanged;
    it returns 0, and changes no block, exactly when no block is free. *)
Theorem balloc_correct s k : bk_rep (fs_blk s) k -> fs_wf dev (fs_sb s) k -> kheld k = ∅ -> 2 <= kroom k ->
  wp (balloc dev) (fun r s' => exists blk k', s' = set_fs_blk blk s /\ bk_rep blk k' /\ fs_wf dev (fs_sb s) k' /\
    if r =? 0 then k' = k /\ disk_full (fs_sb s) k
    else in_fs (fs_sb s) r /\ used (fs_sb s) k r = false /\ (forall c, in_fs (fs_sb s) c -> c < r -> used (fs_sb s) k c = true) /\
      (forall c, in_fs (fs_sb s) c -> used (fs_sb s) k' c = (r =? c) || used (fs_sb s) k c) /\
      kv k' r = zero_blk /\ (forall n, n <> r -> ~ bitmap_block (fs_sb s) n -> kv k' n = kv k n)) s.
Proof.
  intros R W Hh Hr. destruct (no_held (fs_sb s) k Hh) as [H1 H2]. apply (balloc_spec dev _ s k); try done.
  - intros blk R' Hf. exists blk, k. by split_and!.
  - intros r blk R' Hin Hu Hlow. exists blk, (k_alloc (fs_sb s) r k). split; [done|]. split; [done|].
    split; [by apply wf_alloc|]. destruct (Z.eqb_spec r 0) as [->|_]; [by rewrite (proj2 (wf_zero _ _ _ W)) in Hu|].
    split; [done|]. split; [done|]. split; [done|]. split; [intros c; by apply (used_alloc dev)|].
    unfold k_alloc, k_put. cbn [kv]. rewrite Z.eqb_refl. split; [done|]. intros n Hn Hb.
    rewrite (proj2 (Z.eqb_neq _ _) Hn). destruct (Z.eqb_spec n (BBLOCK r (fs_sb s))) as [->|]; [|done]. destruct Hb. by exists r.
Qed.

(** readi() refuses an offset past the end of the file or a range that
    wraps; otherwise it delivers exactly the bytes of the file between the offset
    and the smaller of the end of the request and the end of the file, without
    changing any block, or reports the failure of a copy to user space. *)
Theorem readi_correct ip d s k x off n :
  fpre dev ip s k x -> 0 <= off < 2 ^ 32 -> 0 <= n < 2 ^ 32 ->
  (off <= i_size x -> dest_ok d (fs_um s) (Z.min n (i_size x - off))) ->
  0 <= i_size x <= MAXFILE * BSIZE -> mapped k x 0 (i_size x) ->
  wp (readi ip d off n) (fun r s' =>
    if (i_size x <? off) || (2 ^ 32 <=? off + n) then r = (0, []) /\ s' = s
    else exists blk u, s' = set_fs_um u (set_fs_blk blk s) /\ bk_rep blk k /\
      let m := Z.min n (i_size x - off) in
      ((r = (m, fbytes k x off m) /\ delivered d (fs_um s) u 0 (fbytes k x off m)) \/ (r.1 = -1 /\ d <> ToKernel))) s.
Proof.
  intros Hp H0 Hn Hd Hsz Hm. eapply wp_mono; [by apply (readi_spec dev _ d s k x)|]. intros r s'. cbv beta.
  destruct ((i_size x <? off) || (2 ^ 32 <=? off + n)); [done|]. intros (blk & u & -> & Hr & Hres).
  exists blk, u. split; [done|]. split; [done|]. cbv zeta. rewrite Z.sub_0_r in Hres. destruct Hres as [(-> & H1 & _)|(H1 & p & a & -> & _)].
  - by left.
  - right. split; [done|congruence].
Qed.


Lemma fbytes_written k' x' off bs : 0 <= off -> off + Z.of_nat (length bs) <= MAXFILE * BSIZE ->
  (forall o, 0 <= o < MAXFILE * BSIZE -> off <= o < off + Z.of_nat (length bs) -> fbyte k' x' o = default 0 (bs !! Z.to_nat (o - off))) ->
  fbytes k' x' off (Z.of_nat (length bs)) = bs.
Proof.
  intros H0 Hm H. apply list_eq. intros i. unfold fbytes. rewrite Nat2Z.id, list_lookup_fmap.
  destruct (decide (i < length bs)%nat) as [Hi|Hi].
  - rewrite lookup_seq_lt by done. cbn [fmap option_fmap option_map]. rewrite H by lia.
    replace (Z.to_nat (off + Z.of_nat (0 + i) - off)) with i by lia. destruct (lookup_lt_is_Some_2 _ _ Hi) as [b ->]. done.
  - rewrite lookup_seq_ge by lia. by rewrite lookup_ge_None_2 by lia.
Qed.

(** C4: What writei() reports as written is what readi() then returns: writing
    [bs] at an offset inside the file and reading back as many bytes as were
    written yields exactly that prefix of [bs], which is all of [bs] unless the
    disk filled up. *)
Theorem write_read_roundtrip ip s k x off bs :
  fpre dev ip s k x -> inode_ok x -> ino_home dev (fs_sb s) k x -> byte_list bs ->
  0 <= off <= i_size x -> off + Z.of_nat (length bs) <= MAXFILE * BSIZE -> i_size x <= MAXFILE * BSIZE ->
  mapped k x 0 (i_size x) -> 6 * chunks off (Z.of_nat (length bs)) + 1 <= kroom k ->
  wp (let! r := writei ip (FromKernel bs) off (Z.of_nat (length bs)) in let! q := readi ip ToKernel off r in ret (r, q))
    (fun rq s' => rq.2 = (rq.1, take (Z.to_nat rq.1) bs) /\ 0 <= rq.1 <= Z.of_nat (length bs) /\
      (rq.1 = Z.of_nat (length bs) \/ exists k', bk_rep (fs_blk s') k' /\ disk_full (fs_sb s) k')) s.
Proof.
  intros Hp Hi Hh Hb Ho Hm Hsz Hmap Hr. wp_simp. assert (Hlim : MAXFILE * BSIZE < 2 ^ 32) by (rewrite MAXFILE_eq, BSIZE_eq; lia).
  eapply wp_mono; [apply (writei_spec dev ip (FromKernel bs) s k x off); try done; lia|].
  intros r s1 (blk & u & k' & x' & ws & -> & R & W & Hws & -> & Hle & Hfull & Hheld & _). cbv beta.
  assert (Hw : ws = take (length ws) bs).
  { apply list_eq. intros i. destruct (decide (i < length ws)%nat) as [Hlt|Hge].
    - rewrite lookup_take_lt by done. rewrite <- (Hws i Hlt). cbn. f_equal. lia.
    - by rewrite !lookup_ge_None_2 by (rewrite ?length_take; lia). }
  pose proof (wp_size _ _ _ _ _ _ _ _ W) as Hs'. wp_simp.
  assert (Hp' : fpre dev ip (set_fs_um u (upd ip blk x' s)) k' x').
  { split; [exact R|apply W|apply W|by eapply upd_lookup, Hp| |done|apply Hp]. rewrite (wp_meta _ _ _ _ _ _ _ _ W). apply (fp_dev _ _ _ _ _ Hp). }
  eapply wp_mono; [apply (readi_spec dev ip ToKernel _ k' x' off (Z.of_nat (length ws)) Hp'); [lia|lia|done|lia|]|].
  - rewrite Hs'. destruct (wp_mapped _ _ _ _ _ _ _ _ W) as [W1 W2]. intros j Hj. destruct (decide (j < i_size x)).
    + apply (W2 0 (i_size x)); [lia|lia|done|lia].
    + apply W1. lia.
  - intros q s2. cbv beta. rewrite (proj2 (Z.ltb_ge _ _)) by lia. rewrite (proj2 (Z.leb_gt _ _)) by lia. cbn [orb].
    rewrite Z.min_l by lia. intros (blk2 & u2 & -> & R2 & [(-> & _)|(_ & p & a & [=] & _)]). wp_simp. cbn [fst snd].
    rewrite Z.sub_0_r, Nat2Z.id, fbytes_written; [|lia|lia|].
    + rewrite <- Hw. split; [done|]. split; [lia|]. destruct Hfull; [by left|right]. by exists k'.
    + intros o Ho1 Ho2. rewrite (wp_bytes _ _ _ _ _ _ _ _ W) by done.
      rewrite (proj2 (Z.leb_le _ _)) by lia. by rewrite (proj2 (Z.ltb_lt _ _)) by lia.
Qed.

End props.

(** * The properties on the example disk *)

Lemma balloc_correct_witness : exists l k, wp (balloc 1) (fun r s' => used demo_sb k r = false \/ r = 0) (demo_fs l).
Proof.
  destruct demo_state as (l & k & Hp & _ & Hh & Hd & Hr). exists l, k.
  eapply wp_mono; [apply (balloc_correct 1 (demo_fs l) k); [apply Hp|apply Hp|done|lia]|].
  intros r s' (blk & k' & _ & _ & _ & H). destruct (Z.eqb_spec r 0); [by right|left; apply H].
Defined.

Lemma demo_mapped k : mapped k demo_ino 0 (i_size demo_ino).
Proof. intros j Hj. cbn in Hj. lia. Qed.

Lemma readi_correct_witness : exists l, wp (readi 0 ToKernel 0 10) (fun r _ => r = (0, [])) (demo_fs l).
Proof.
  destruct demo_state as (l & k & Hp & _). exists l.
  eapply wp_mono; [apply (readi_correct 1 0 ToKernel (demo_fs l) k demo_ino 0 10 Hp); [lia|lia|done| |apply demo_mapped]|].
  - rewrite MAXFILE_eq, BSIZE_eq. cbn. lia.
  - intros r s' H. destruct H as (? & ? & _ & _ & [[-> _]|[_ H]]); [reflexivity|by destruct H].
Defined.


Lemma write_read_roundtrip_witness : exists l,
  wp (let! r := writei 0 (FromKernel [104; 105]) 0 2 in let! q := readi 0 ToKernel 0 r in ret (r, q))
    (fun rq _ => rq.2 = (rq.1, take (Z.to_nat rq.1) [104; 105])) (demo_fs l).
Proof.
  destruct demo_state as (l & k & Hp & Hk & _ & _ & Hr). exists l. destruct (demo_file k Hk) as (_ & Hi & Hh).
  eapply wp_mono; [apply (write_read_roundtrip 1 0 (demo_fs l) k demo_ino 0 [104; 105] Hp Hi Hh); try done;
    rewrite ?Hr; try (vm_compute; congruence); try apply demo_mapped|].
  - by repeat constructor.
  - intros rq s' [H _]. exact H.
Defined.
