(* ===== verification/DirProps.v ===== *)
(** Directories: dirlookup() and dirlink() of kernel/fs.c see a directory as
    a finite map from names to inode numbers. *)
From S2P Require Import Prelude Mem Str Spinlock UserMem Bio BCache Log LogSpec LogProps Bytes Blocks Fs FsSpec FsFile FsIO FsProps.

(** * Names *)

(** A name ends at its first NUL. *)
Fixpoint cname (l : list Z) : list Z := match l with [] => [] | c :: l => if c =? 0 then [] else c :: cname l end.

Lemma cname_length l : (length (cname l) <= length l)%nat.
Proof. induction l as [|c l IH]; cbn; [done|]. destruct (c =? 0); cbn; lia. Qed.
Lemma cname_bytes l : byte_list l -> byte_list (cname l).
Proof. induction 1 as [|c l Hc _ IH]; cbn; [constructor|]. destruct (c =? 0); [constructor|by constructor]. Qed.

(** In memory that is zero behind the name. *)
Lemma cstring_cname m a l : (forall i, (i <= length l)%nat -> ld8 m (a + Z.of_nat i) = default 0 (l !! i)) -> cstring m a (cname l).
Proof.
  revert a. induction l as [|c l IH]; intros a H; cbn [cname].
  - pose proof (H 0%nat) as H0. rewrite Z.add_0_r in H0. by apply H0.
  - pose proof (H 0%nat ltac:(lia)) as H0. rewrite Z.add_0_r in H0. cbn in H0. destruct (Z.eqb_spec c 0) as [->|Hc]; [exact H0|].
    split; [done|]. split; [done|]. apply IH. intros i Hi. specialize (H (Datatypes.S i) ltac:(cbn; lia)). cbn in H. etrans; [|exact H]. f_equal. lia.
Qed.

Lemma ld8_empty a : ld8 ∅ a = 0.
Proof. unfold ld8. by rewrite lookup_empty. Qed.
Lemma byte_at_list l i : byte_list l -> u8 (default 0 (l !! i)) = default 0 (l !! i).
Proof. intros Hb. destruct (l !! i) as [b|] eqn:E; [|done]. cbn. apply u8_small. exact (Forall_lookup_1 _ _ _ _ Hb E). Qed.

Lemma namecmp_zero a b : byte_list a -> byte_list b -> Z.of_nat (length a) <= DIRSIZ -> Z.of_nat (length b) <= DIRSIZ ->
  namecmp a b = 0 <-> cname a = cname b.
Proof.
  intros Ha Hb La Lb. unfold namecmp, DIRSIZ in *. rewrite (strncmp_zero_iff _ 0 64 14 (cname a) (cname b)).
  - pose proof (cname_length a). pose proof (cname_length b). by rewrite !take_ge by lia.
  - lia.
  - apply cstring_cname. intros i Hi. rewrite !ld8_st_bytes, ld8_empty. rewrite (proj2 (Z.leb_gt 64 (0 + Z.of_nat i))) by lia. cbn [andb].
    rewrite (proj2 (Z.leb_le 0 (0 + Z.of_nat i))) by lia. cbn [andb]. replace (Z.to_nat (0 + Z.of_nat i - 0)) with i by lia. rewrite byte_at_list by done.
    destruct (Z.ltb_spec (0 + Z.of_nat i) (0 + Z.of_nat (length a))); [done|]. by rewrite lookup_ge_None_2 by lia.
  - apply cstring_cname. intros i Hi. rewrite ld8_st_bytes. rewrite (proj2 (Z.leb_le 64 (64 + Z.of_nat i))) by lia. cbn [andb].
    replace (Z.to_nat (64 + Z.of_nat i - 64)) with i by lia. rewrite byte_at_list by done.
    destruct (Z.ltb_spec (64 + Z.of_nat i) (64 + Z.of_nat (length b))); [done|]. rewrite lookup_ge_None_2 by lia.
    rewrite ld8_st_bytes_out by lia. apply ld8_empty.
Qed.

Lemma name_copy_eq name : byte_list name -> Z.of_nat (length name) <= DIRSIZ -> name_copy name = padded 14 (cname name).
Proof.
  intros Hb Hl. unfold name_copy, DIRSIZ in *. pose proof (cname_length name).
  apply (strncpy_fills_field (st_bytes ∅ 64 name) 0 64 14 (cname name)); [lia| |lia].
  apply cstring_cname. intros i Hi. rewrite ld8_st_bytes, ld8_empty. rewrite (proj2 (Z.leb_le 64 (64 + Z.of_nat i))) by lia. cbn [andb].
  replace (Z.to_nat (64 + Z.of_nat i - 64)) with i by lia. rewrite byte_at_list by done.
  destruct (Z.ltb_spec (64 + Z.of_nat i) (64 + Z.of_nat (length name))); [done|]. by rewrite lookup_ge_None_2 by lia.
Qed.

Lemma cname_padded l n : (length (cname l) <= n)%nat -> cname (padded n (cname l)) = cname l.
Proof.
  intros Hn. unfold padded. rewrite take_ge by done. generalize (n - length (cname l))%nat as k. clear Hn. intros k.
  induction l as [|c l IH]; cbn; [by destruct k|]. destruct (c =? 0) eqn:E; [by destruct k|]. cbn. rewrite E. by rewrite IH.
Qed.

(** * Entries *)

Section dir.
Context {S U P : Type} `{BK : Blocks S} `{UM : UserMem U P} (dev : Z) `{BO : !BlocksOk S dev} `{UO : !UserMemOk U P}.
Implicit Types (s : fsst S U) (k : kst) (x : inode).

(** Entry [j] of a directory: an inode number and a name. *)
Definition dent k x (j : Z) : Z * list Z := let de := fbytes k x (16 * j) 16 in (de_inum de, cname (de_name de)).
Definition ents k x : list (Z * list Z) := (fun j => dent k x (Z.of_nat j)) <$> seq 0 (Z.to_nat (i_size x / 16)).

(** The first entry in use with the name, from number [j] on. *)
Fixpoint find_ent (nm : list Z) (l : list (Z * list Z)) (j : nat) : option (nat * Z) :=
  match l with
  | [] => None
  | e :: l => if negb (e.1 =? 0) && bool_decide (e.2 = nm) then Some (j, e.1) else find_ent nm l (Datatypes.S j)
  end.
(** The directory as a map. *)
Definition dir_at k x (nm : list Z) : option Z := snd <$> find_ent nm (ents k x) 0.

Record dir_ok (dp : nat) s k x : Prop := {
  do_pre : fpre dev dp s k x;
  do_type : i_type x = T_DIR;
  do_size : 0 <= i_size x <= MAXFILE * BSIZE /\ i_size x mod 16 = 0;
  do_mapped : mapped k x 0 (i_size x)
}.

Lemma dir_ok_blk dp s k x blk : dir_ok dp s k x -> bk_rep blk k -> dir_ok dp (set_fs_blk blk s) k x.
Proof. intros [[P1 P2 P3 P4 P5 P6 P7] D2 D3 D4] Hb. split; [|done..]. by split. Qed.

Lemma ents_lookup k x j : (Z.of_nat j < i_size x / 16) -> ents k x !! j = Some (dent k x (Z.of_nat j)).
Proof. intros H. unfold ents. rewrite list_lookup_fmap, lookup_seq_lt by lia. done. Qed.
Lemma ents_length k x : length (ents k x) = Z.to_nat (i_size x / 16).
Proof. unfold ents. by rewrite length_fmap, length_seq. Qed.

Lemma readi_ent dp s k x off : dir_ok dp s k x -> 0 <= off -> off + 16 <= i_size x ->
  wp (readi dp ToKernel off DIRENT_SZ) (fun r s' => r = (16, fbytes k x off 16) /\ exists blk, bk_rep blk k /\ s' = set_fs_blk blk s) s.
Proof.
  intros [Hp _ [Hs _] Hm] H0 H1. assert (Hlim : MAXFILE * BSIZE < 2 ^ 31) by reflexivity.
  eapply wp_mono; [apply (readi_spec dev dp ToKernel s k x off DIRENT_SZ Hp); try done; unfold DIRENT_SZ; lia|].
  intros r s'. unfold DIRENT_SZ. rewrite (proj2 (Z.ltb_ge (i_size x) off)), (proj2 (Z.leb_gt (2 ^ 32) (off + 16))) by lia. cbn [orb].
  rewrite Z.min_l by lia. intros (blk & u & -> & Hb & [(-> & Hd & _)|(_ & p & a & [=] & _)]). cbn in Hd. subst u.
  split; [done|]. exists blk. split; [done|]. by destruct s.
Qed.

Lemma fbytes_entry dp s k x off : dir_ok dp s k x -> 0 <= off -> off + 16 <= i_size x -> byte_list (fbytes k x off 16) /\ length (fbytes k x off 16) = 16%nat.
Proof.
  intros [[_ P2 P3 _ _ _ _] _ [Hs _] _] H0 H1. split; [apply (fbytes_bytes dev (fs_sb s)); try done; lia|].
  pose proof (length_fbytes k x off 16 ltac:(lia)). lia.
Qed.

Lemma de_name_ok de : byte_list de -> length de = 16%nat -> byte_list (de_name de) /\ Z.of_nat (length (de_name de)) <= DIRSIZ.
Proof.
  intros Hb Hl. unfold de_name, slice, DIRSIZ. split; [by apply Forall_take, Forall_drop|]. rewrite length_take, length_drop. lia.
Qed.

Lemma dirlookup_loop_spec fuel dp name s k x j (Q : option (nat * Z) -> fsst S U -> Prop) :
  dir_ok dp s k x -> byte_list name -> Z.of_nat (length name) <= DIRSIZ -> Z.of_nat j <= i_size x / 16 -> i_size x / 16 - Z.of_nat j < Z.of_nat fuel ->
  (forall blk, bk_rep blk k -> match find_ent (cname name) (drop j (ents k x)) j with
    | None => Q None (set_fs_blk blk s)
    | Some (i, inum) => wp (iget dev inum) (fun ip s' => Q (Some (ip, 16 * Z.of_nat i)) s') (set_fs_blk blk s)
    end) -> wp (dirlookup_loop fuel dp name (16 * Z.of_nat j)) Q s.
Proof.
  revert j s. induction fuel as [|fuel IH]; intros j s Hd Hb Hl Hj Hf HQ; [lia|]. cbn [dirlookup_loop]. pose proof Hd as [Hp Ht [Hs Hs16] Hm].
  wp_simp. rewrite (geti_eq _ _ _ (fp_ino _ _ _ _ _ Hp)). pose proof (Z.div_mod (i_size x) 16 ltac:(lia)) as Hdm.
  destruct (Z.ltb_spec (16 * Z.of_nat j) (i_size x)) as [Hlt|Hge].
  - rewrite (drop_S _ (dent k x (Z.of_nat j))) in HQ by (apply ents_lookup; lia). cbn [find_ent] in HQ.
    rewrite wp_bind. eapply wp_mono; [apply (readi_ent dp s k x _ Hd); lia|]. intros r s1 [-> (blk & Hblk & ->)]. cbv beta iota.
    change (negb (16 =? DIRENT_SZ)) with false. cbv iota.
    destruct (fbytes_entry dp s k x (16 * Z.of_nat j) Hd ltac:(lia) ltac:(lia)) as [Eb El]. destruct (de_name_ok _ Eb El) as [Nb Nl].
    assert (Hnext : (forall blk, bk_rep blk k -> match find_ent (cname name) (drop (Datatypes.S j) (ents k x)) (Datatypes.S j) with
        | None => Q None (set_fs_blk blk s) | Some (i, inum) => wp (iget dev inum) (fun ip s' => Q (Some (ip, 16 * Z.of_nat i)) s') (set_fs_blk blk s) end) ->
      wp (dirlookup_loop fuel dp name (16 * Z.of_nat j + DIRENT_SZ)) Q (set_fs_blk blk s)).
    { intros HQ'. unfold DIRENT_SZ. replace (16 * Z.of_nat j + 16) with (16 * Z.of_nat (Datatypes.S j)) by lia. apply IH; try done; [by apply dir_ok_blk|lia|lia]. }
    change (dent k x (Z.of_nat j)).1 with (de_inum (fbytes k x (16 * Z.of_nat j) 16)) in HQ. change (dent k x (Z.of_nat j)).2 with (cname (de_name (fbytes k x (16 * Z.of_nat j) 16))) in HQ.
    destruct (Z.eqb_spec (de_inum (fbytes k x (16 * Z.of_nat j) 16)) 0) as [E0|E0]; [by apply Hnext|]. cbn [negb andb] in HQ.
    destruct (Z.eqb_spec (namecmp name (de_name (fbytes k x (16 * Z.of_nat j) 16))) 0) as [En|En].
    + rewrite bool_decide_true in HQ by (symmetry; by apply namecmp_zero). rewrite wp_bind. specialize (HQ blk Hblk). rewrite (fp_dev _ _ _ _ _ Hp).
      eapply wp_mono; [exact HQ|]. intros ip s2 H2. by rewrite wp_ret.
    + rewrite bool_decide_false in HQ by (intros E; apply En; by apply namecmp_zero). by apply Hnext.
  - wp_simp. rewrite drop_ge in HQ by (rewrite ents_length; lia). specialize (HQ (fs_blk s) (fp_rep _ _ _ _ _ Hp)). cbn [find_ent] in HQ. by destruct s.
Qed.

Lemma dirlookup_spec dp name s k x (Q : option (nat * Z) -> fsst S U -> Prop) : dir_ok dp s k x -> byte_list name -> Z.of_nat (length name) <= DIRSIZ ->
  (forall blk, bk_rep blk k -> match find_ent (cname name) (ents k x) 0 with
    | None => Q None (set_fs_blk blk s)
    | Some (i, inum) => wp (iget dev inum) (fun ip s' => Q (Some (ip, 16 * Z.of_nat i)) s') (set_fs_blk blk s)
    end) -> wp (dirlookup dp name) Q s.
Proof.
  intros Hd Hb Hl HQ. unfold dirlookup. wp_simp. rewrite (geti_eq _ _ _ (fp_ino _ _ _ _ _ (do_pre _ _ _ _ Hd))), (do_type _ _ _ _ Hd). change (negb (T_DIR =? T_DIR)) with false. cbv iota.
  pose proof (do_size _ _ _ _ Hd) as [Hs _]. assert (0 <= i_size x / 16) by (apply Z.div_pos; lia). unfold DIRENT_SZ.
  apply (dirlookup_loop_spec _ dp name s k x 0); try done; lia.
Qed.

(** ** Adding an entry *)

(** The number of the first empty entry, or of the one behind the last. *)
Fixpoint first_free (l : list (Z * list Z)) (j : nat) : nat :=
  match l with [] => j | e :: l => if e.1 =? 0 then j else first_free l (Datatypes.S j) end.

Lemma first_free_shift l j : first_free l j = (j + first_free l 0)%nat.
Proof. revert j. induction l as [|e l IH]; intros j; cbn; [lia|]. destruct (e.1 =? 0); [lia|]. rewrite IH, (IH 1%nat). lia. Qed.
Lemma first_free_le l : (first_free l 0 <= length l)%nat.
Proof. induction l as [|e l IH]; cbn; [done|]. destruct (e.1 =? 0); [lia|]. rewrite first_free_shift. lia. Qed.
Lemma first_free_split l e : l !! first_free l 0 = Some e -> e.1 = 0.
Proof.
  induction l as [|e' l IH]; cbn; [done|]. destruct (Z.eqb_spec e'.1 0) as [E|E]; [by intros [= <-]|]. rewrite first_free_shift. cbn. apply IH.
Qed.

Lemma dirlink_find_spec fuel dp s k x j (Q : Z -> fsst S U -> Prop) :
  dir_ok dp s k x -> Z.of_nat j <= i_size x / 16 -> i_size x / 16 - Z.of_nat j < Z.of_nat fuel ->
  (forall blk, bk_rep blk k -> Q (16 * Z.of_nat (first_free (drop j (ents k x)) j)) (set_fs_blk blk s)) -> wp (dirlink_find fuel dp (16 * Z.of_nat j)) Q s.
Proof.
  revert j s. induction fuel as [|fuel IH]; intros j s Hd Hj Hf HQ; [lia|]. cbn [dirlink_find]. pose proof Hd as [Hp Ht [Hs Hs16] Hm].
  wp_simp. rewrite (geti_eq _ _ _ (fp_ino _ _ _ _ _ Hp)). pose proof (Z.div_mod (i_size x) 16 ltac:(lia)) as Hdm.
  destruct (Z.ltb_spec (16 * Z.of_nat j) (i_size x)) as [Hlt|Hge].
  - rewrite (drop_S _ (dent k x (Z.of_nat j))) in HQ by (apply ents_lookup; lia). cbn [first_free] in HQ.
    rewrite wp_bind. eapply wp_mono; [apply (readi_ent dp s k x _ Hd); lia|]. intros r s1 [-> (blk & Hblk & ->)]. cbv beta iota.
    change (negb (16 =? DIRENT_SZ)) with false. cbv iota.
    change (dent k x (Z.of_nat j)).1 with (de_inum (fbytes k x (16 * Z.of_nat j) 16)) in HQ.
    destruct (Z.eqb_spec (de_inum (fbytes k x (16 * Z.of_nat j) 16)) 0) as [E0|E0]; [rewrite wp_ret; by apply HQ|].
    unfold DIRENT_SZ. replace (16 * Z.of_nat j + 16) with (16 * Z.of_nat (Datatypes.S j)) by lia.
    apply IH; [by apply dir_ok_blk|lia|lia|]. intros blk' Hb'. by apply (HQ blk').
  - wp_simp. rewrite drop_ge in HQ by (rewrite ents_length; lia). specialize (HQ (fs_blk s) (fp_rep _ _ _ _ _ Hp)). cbn [first_free] in HQ. by destruct s.
Qed.

(** A new entry in an empty place changes the map at its name only. *)
Lemma find_ent_app nm l1 l2 j : find_ent nm (l1 ++ l2) j = match find_ent nm l1 j with Some r => Some r | None => find_ent nm l2 (j + length l1) end.
Proof.
  revert j. induction l1 as [|e l1 IH]; intros j; cbn; [by rewrite Nat.add_0_r|]. destruct (negb (e.1 =? 0) && bool_decide (e.2 = nm)); [done|].
  rewrite IH. by rewrite Nat.add_succ_r.
Qed.
Lemma find_ent_shift nm l j j' : snd <$> find_ent nm l j = snd <$> find_ent nm l j'.
Proof. revert j j'. induction l as [|e l IH]; intros j j'; cbn; [done|]. destruct (negb (e.1 =? 0) && bool_decide (e.2 = nm)); [done|apply IH]. Qed.

Lemma find_ent_lookup nm l j i m : find_ent nm l j = Some (i, m) -> (j <= i)%nat /\ l !! (i - j)%nat = Some (m, nm).
Proof.
  revert j. induction l as [|e l IH]; intros j F; [done|]. cbn [find_ent] in F. destruct (negb (e.1 =? 0) && bool_decide (e.2 = nm)) eqn:E.
  - apply andb_true_iff in E as [_ <-%bool_decide_eq_true]. simplify_eq. split; [done|]. rewrite Nat.sub_diag. by destruct e.
  - destruct (IH _ F) as [Hi Hl]. split; [lia|]. by replace (i - j)%nat with (Datatypes.S (i - Datatypes.S j)) by lia.
Qed.

Lemma find_ent_new l e nm : e.1 <> 0 -> find_ent e.2 l 0 = None ->
  let i := first_free l 0 in
  snd <$> find_ent nm (take i l ++ e :: drop (Datatypes.S i) l) 0 = if bool_decide (nm = e.2) then Some e.1 else snd <$> find_ent nm l 0.
Proof.
  intros He Hnone i. assert (Hl : find_ent nm l 0 = find_ent nm (take i l ++ drop i l) 0) by by rewrite take_drop.
  assert (Hl' : find_ent e.2 (take i l ++ drop i l) 0 = None) by by rewrite take_drop.
  rewrite Hl, !find_ent_app. rewrite find_ent_app in Hl'. destruct (find_ent e.2 (take i l) 0) as [?|] eqn:E1; [done|].
  destruct (find_ent nm (take i l) 0) as [r|] eqn:E2.
  - rewrite bool_decide_false; [done|]. intros ->. congruence.
  - cbn [find_ent]. rewrite (proj2 (Z.eqb_neq _ _) He). cbn [negb andb]. destruct (bool_decide_reflect (nm = e.2)) as [->|Hne]; [by rewrite bool_decide_true|].
    rewrite bool_decide_false by congruence. destruct (l !! i) as [e0|] eqn:E0.
    + rewrite (drop_S l e0 i) by done. cbn [find_ent]. rewrite (first_free_split l e0 E0). cbn [negb andb Z.eqb]. done.
    + apply lookup_ge_None in E0. rewrite !drop_ge by lia. done.
Qed.

Lemma ents_written sb k x k' x' bs i : writei_post dev sb k x k' x' (16 * Z.of_nat i) bs -> length bs = 16%nat -> 0 <= i_size x -> i_size x mod 16 = 0 ->
  (i <= length (ents k x))%nat -> 16 * Z.of_nat i + 16 <= MAXFILE * BSIZE -> i_size x <= MAXFILE * BSIZE ->
  ents k' x' = take i (ents k x) ++ (de_inum bs, cname (de_name bs)) :: drop (Datatypes.S i) (ents k x).
Proof.
  intros W Hl H0 H16 Hi Hmax Hsz. rewrite ents_length in Hi. pose proof (Z.div_mod (i_size x) 16 ltac:(lia)) as Hdm.
  pose proof (wp_size _ _ _ _ _ _ _ _ W) as Hs. pose proof (wp_bytes _ _ _ _ _ _ _ _ W) as Hby. rewrite Hl in Hs, Hby. change (Z.of_nat 16) with 16 in Hs, Hby.
  assert (HN : i_size x' / 16 = Z.max (i_size x / 16) (Z.of_nat i + 1)) by (rewrite Hs; Z.to_euclidean_division_equations; lia).
  assert (Hn : 0 <= i_size x / 16) by (apply Z.div_pos; lia).
  assert (Hsame : forall j, Z.of_nat j < i_size x / 16 -> j <> i -> dent k' x' (Z.of_nat j) = dent k x (Z.of_nat j)).
  { intros j Hj Hne. assert (E : fbytes k' x' (16 * Z.of_nat j) 16 = fbytes k x (16 * Z.of_nat j) 16).
    { unfold fbytes. apply list_fmap_ext. intros a b [-> Hab]%lookup_seq. rewrite Hby by lia.
      destruct (Z.leb_spec (16 * Z.of_nat i) (16 * Z.of_nat j + Z.of_nat (0 + a))), (Z.ltb_spec (16 * Z.of_nat j + Z.of_nat (0 + a)) (16 * Z.of_nat i + 16)); try done. lia. }
    unfold dent. by rewrite E. }
  assert (Hnew : dent k' x' (Z.of_nat i) = (de_inum bs, cname (de_name bs))).
  { unfold dent. replace 16 with (Z.of_nat (length bs)) at 2 4 by lia. rewrite fbytes_written; [done|lia|lia|]. intros o Ho1 Ho2. rewrite Hby by done.
    rewrite (proj2 (Z.leb_le _ _)), (proj2 (Z.ltb_lt _ _)) by lia. done. }
  apply list_eq. intros j. destruct (decide (Z.of_nat j < i_size x' / 16)) as [Hj|Hj].
  - rewrite ents_lookup by done. destruct (decide (j = i)) as [->|Hne].
    + rewrite lookup_app_r, length_take by (rewrite length_take, ents_length; lia). rewrite ents_length, Nat.min_l, Nat.sub_diag by lia. cbn. by rewrite Hnew.
    + rewrite Hsame by lia. destruct (decide (j < i)%nat).
      * rewrite lookup_app_l by (rewrite length_take, ents_length; lia). rewrite lookup_take_lt by done. symmetry. apply ents_lookup. lia.
      * rewrite lookup_app_r by (rewrite length_take, ents_length; lia). rewrite length_take, ents_length, Nat.min_l by lia.
        replace (j - i)%nat with (Datatypes.S (j - Datatypes.S i)) by lia. rewrite lookup_cons_ne_0 by done. cbn [Nat.pred]. rewrite lookup_drop.
        replace (Datatypes.S i + (j - Datatypes.S i))%nat with j by lia. symmetry. apply ents_lookup. lia.
  - rewrite lookup_ge_None_2 by (rewrite ents_length; lia). symmetry. apply lookup_ge_None_2.
    rewrite length_app, length_take. cbn [length]. rewrite length_drop, ents_length. lia.
Qed.

Lemma entry_bytes inum name : 0 <= inum < 2 ^ 16 -> byte_list name -> Z.of_nat (length name) <= DIRSIZ ->
  let bs := le_encode 2 inum ++ name_copy name in byte_list bs /\ length bs = 16%nat /\ de_inum bs = inum /\ cname (de_name bs) = cname name.
Proof.
  intros Hi Hb Hl bs. unfold bs. rewrite name_copy_eq by done. pose proof (cname_length name) as Hc. unfold DIRSIZ in Hl.
  assert (Hp : length (padded 14 (cname name)) = 14%nat) by (unfold padded; rewrite length_app, length_take, length_replicate; lia).
  split_and!.
  - apply Forall_app_2; [apply le_encode_bytes|]. unfold padded. apply Forall_app_2; [by apply Forall_take, cname_bytes|by apply Forall_replicate].
  - by rewrite length_app, length_le_encode, Hp.
  - unfold de_inum, getn, slice. change (Z.to_nat (Z.of_nat 2)) with 2%nat. change (Z.to_nat 0) with 0%nat. rewrite drop_0.
    rewrite take_app_length' by (by rewrite length_le_encode). rewrite le_decode_encode. by apply Z.mod_small.
  - unfold de_name, slice. change (Z.to_nat 2) with 2%nat. rewrite drop_app_length' by (by rewrite length_le_encode).
    rewrite take_ge by (rewrite Hp; done). apply cname_padded. lia.
Qed.

Lemma iget_scan_ok l n e inum : match iget_scan l n e dev inum with
  | inl i => (n <= i)%nat /\ exists y, l !! (i - n)%nat = Some y /\ 0 < i_ref y /\ i_dev y = dev /\ i_inum y = inum
  | inr (Some i) => e = Some i \/ (n <= i)%nat /\ is_Some (l !! (i - n)%nat)
  | inr None => True
  end.
Proof.
  revert n e. induction l as [|y l IH]; intros n e; cbn [iget_scan]; [destruct e; by left || done|].
  set (e' := match e with Some _ => e | None => if i_ref y =? 0 then Some n else None end).
  destruct ((0 <? i_ref y) && (i_dev y =? dev) && (i_inum y =? inum)) eqn:E.
  - apply andb_true_iff in E as [[E1%Z.ltb_lt E2%Z.eqb_eq]%andb_true_iff E3%Z.eqb_eq]. split; [done|]. exists y. by rewrite Nat.sub_diag.
  - replace (match e with Some e => Some e | None => if i_ref y =? 0 then Some n else None end) with e' by (unfold e'; by destruct e).
    specialize (IH (Datatypes.S n) e'). destruct (iget_scan l (Datatypes.S n) e' dev inum) as [i|[i|]]; [| |done].
    + destruct IH as [Hi (z & Hz & ?)]. split; [lia|]. exists z. split; [|done]. by replace (i - n)%nat with (Datatypes.S (i - Datatypes.S n)) by lia.
    + destruct IH as [He|[Hi Hz]]; [|right; split; [lia|]; by replace (i - n)%nat with (Datatypes.S (i - Datatypes.S n)) by lia].
      unfold e' in He. destruct e; [by left|]. destruct (i_ref y =? 0); simplify_eq. right. split; [done|]. rewrite Nat.sub_diag. by eexists.
Qed.

(** iget() takes a reference to the inode in its table. *)
Lemma iget_spec inum s : it_lock s = Free -> iget_scan (it_inode s) 0 None dev inum <> inr None ->
  wp (iget dev inum) (fun ip s' => exists y, s' = set_it_inode (<[ip:=y]>) s /\ (ip < length (it_inode s))%nat /\ i_dev y = dev /\ i_inum y = inum /\ 0 < i_ref y) s.
Proof.
  intros Hl Hr. pose proof (iget_scan_ok (it_inode s) 0 None inum) as Hok. unfold iget, it_acquire, it_release, lock_acquire, lock_release, modi.
  destruct s as [b u sb lk tab]. cbn in Hl, Hr. cbn [it_inode] in Hok. subst lk. wp_simp. cbn. wp_simp. cbn.
  destruct (iget_scan tab 0 None dev inum) as [i|[i|]] ; [| |done]; wp_simp; cbn; wp_simp; cbn.
  - destruct Hok as [_ (y & Hy & Href & Hd & Hi)]. rewrite Nat.sub_0_r in Hy. exists (set_i_ref (i_ref y + 1) y). unfold set_it_inode. cbn.
    rewrite (alter_insert _ _ _ _ Hy). split_and!; [done|by eapply lookup_lt_Some|done|done|cbn; lia].
  - destruct Hok as [[=]|[_ [y Hy]]]. rewrite Nat.sub_0_r in Hy. exists (set_i_id dev inum y). unfold set_it_inode. cbn.
    rewrite (alter_insert _ _ _ _ Hy). split_and!; [done|by eapply lookup_lt_Some|done|done|cbn; lia].
Qed.

Lemma dir_at_new k x k' x' name inum : inum <> 0 -> dir_at k x (cname name) = None ->
  (let i := first_free (ents k x) 0 in ents k' x' = take i (ents k x) ++ (inum, cname name) :: drop (Datatypes.S i) (ents k x)) ->
  forall nm, dir_at k' x' nm = if bool_decide (nm = cname name) then Some inum else dir_at k x nm.
Proof.
  intros Hi Hn He nm. unfold dir_at in *. rewrite He. assert (Hf : find_ent (cname name) (ents k x) 0 = None) by (by destruct (find_ent _ _ _)).
  by rewrite (find_ent_new (ents k x) (inum, cname name) nm Hi Hf).
Qed.

(** What a write of one whole entry at the first free place leaves. *)
Lemma dir_ok_written dp s k x blk u k' x' i bs : dir_ok dp s k x -> bk_rep blk k' -> kheld k' = ∅ -> (i <= length (ents k x))%nat -> length bs = 16%nat ->
  i_size x + 16 <= MAXFILE * BSIZE -> writei_post dev (fs_sb s) k x k' x' (16 * Z.of_nat i) bs -> dir_ok dp (set_fs_um u (upd dp blk x' s)) k' x'.
Proof.
  intros [[P1 P2 P3 P4 P5 P6 P7] Ht [Hs Hs16] Hm] R Hh Hi Hl Hmax W. rewrite ents_length in Hi. pose proof (Z.div_mod (i_size x) 16 ltac:(lia)) as Hdm.
  assert (0 <= i_size x / 16) by (apply Z.div_pos; lia).
  pose proof (wp_size _ _ _ _ _ _ _ _ W) as Hsz. pose proof (wp_mapped _ _ _ _ _ _ _ _ W) as [M1 M2]. rewrite Hl in Hsz, M1. change (Z.of_nat 16) with 16 in *.
  pose proof (wp_meta _ _ _ _ _ _ _ _ W) as Hmeta. split.
  - split; cbn; try done; [apply W|apply W| |by rewrite Hmeta]. rewrite list_lookup_insert_eq by (by eapply lookup_lt_Some). done.
  - by rewrite Hmeta.
  - rewrite Hsz. split; [lia|]. Z.to_euclidean_division_equations; lia.
  - rewrite Hsz. intros j Hj. destruct (decide (j < i_size x)); [apply (M2 0 (i_size x)); try done; lia|apply M1; lia].
Qed.

Lemma dirlink_spec me dp name inum s k x : dir_ok dp s k x -> inode_ok x -> ino_home dev (fs_sb s) k x -> 7 <= kroom k ->
  byte_list name -> Z.of_nat (length name) <= DIRSIZ -> 0 < inum < 2 ^ 16 -> i_size x + 16 <= MAXFILE * BSIZE -> dir_at k x (cname name) = None ->
  wp (dirlink me dp name inum) (fun r s' => exists k' x' b u, s' = set_fs_um u (upd dp b x' s) /\ (r = -1 -> disk_full (fs_sb s) k') /\
    (r <> -1 -> r = 0 /\ dir_ok dp s' k' x' /\ forall nm, dir_at k' x' nm = if bool_decide (nm = cname name) then Some inum else dir_at k x nm)) s.
Proof.
  intros Hd Hio Hh Hroom Hb Hl Hin Hmax Hnone. pose proof Hd as [Hp Ht [Hs Hs16] Hm].
  assert (Hfn : find_ent (cname name) (ents k x) 0 = None) by (unfold dir_at in Hnone; by destruct (find_ent _ _ _)).
  unfold dirlink. rewrite wp_bind. apply (dirlookup_spec dp name s k x); [done|done|done|]. intros b1 R1. rewrite Hfn.
  pose proof (dir_ok_blk dp s k x b1 Hd R1) as Hd1. set (s1 := set_fs_blk b1 s) in *. wp_simp. rewrite (geti_eq dp s1 x) by apply Hd1.
  assert (Hn : 0 <= i_size x / 16) by (apply Z.div_pos; lia). pose proof (Z.div_mod (i_size x) 16 ltac:(lia)) as Hdm. unfold DIRENT_SZ at 1.
  apply (dirlink_find_spec _ dp s1 k x 0); [done|lia|lia|]. intros b2 R2. rewrite drop_0. pose proof (first_free_le (ents k x)) as Hff.
  set (i := first_free (ents k x) 0) in *. rewrite ents_length in Hff. pose proof (dir_ok_blk dp s1 k x b2 Hd1 R2) as Hd2. set (s2 := set_fs_blk b2 s1) in *.
  destruct (entry_bytes inum name ltac:(lia) Hb Hl) as (B1 & B2 & B3 & B4). set (bs := le_encode 2 inum ++ name_copy name) in *.
  assert (Hch : chunks (16 * Z.of_nat i) 16 = 1) by (unfold chunks, BSIZE; Z.to_euclidean_division_equations; lia).
  rewrite wp_bind. eapply wp_mono; [apply (writei_spec dev dp (FromKernel bs) s2 k x (16 * Z.of_nat i) 16); try exact (do_pre _ _ _ _ Hd2); try done; lia|].
  intros r s3 (blk & u & k' & x' & ws & -> & R & W & Hws & -> & Hle & Hfull & Hheld & _). change DIRENT_SZ with 16.
  destruct (Z.eqb_spec (Z.of_nat (length ws)) 16) as [E|E]; wp_simp; exists k', x', blk, u; (split; [by destruct s|]); [|split; [intros _; by destruct Hfull|done]].
  assert (ws = bs) as ->.
  { apply (list_eq_same_length _ _ 16); [lia|lia|]. intros j y z Hj Hy Hz. specialize (Hws j ltac:(lia)). cbn [src_byte] in Hws. rewrite Z.add_0_l, Nat2Z.id in Hws. congruence. }
  split; [done|]. intros _. split; [done|]. split; [apply (dir_ok_written dp s2 k x blk u k' x' i bs); try done; rewrite ents_length; lia|].
  apply dir_at_new; [lia|done|]. rewrite (ents_written (fs_sb s) k x k' x' bs i); try done; [by rewrite B3, B4|lia|rewrite ents_length; lia|lia|lia].
Qed.

(** Every inode number that iget() may be asked for has its entry in the
    table, or there is a free one. *)
Definition table_room s : Prop := it_lock s = Free /\ forall inum, iget_scan (it_inode s) 0 None dev inum <> inr None.

(** What dirlookup() promises: no entry exactly when the directory does not
    bind the name; otherwise a referenced entry of the inode table for the
    number the name is bound to, and the offset of a directory entry with that
    number and name.  Nothing else is changed. *)
Definition lookup_post s k x name (r : option (nat * Z)) (s' : fsst S U) : Prop := exists b, bk_rep b k /\ match r with
  | None => dir_at k x (cname name) = None /\ s' = set_fs_blk b s
  | Some (ip, off) => exists inum y, dir_at k x (cname name) = Some inum /\ 0 <= off < i_size x /\ dent k x (off / 16) = (inum, cname name) /\
      s' = set_it_inode (<[ip:=y]>) (set_fs_blk b s) /\ (ip < length (it_inode s))%nat /\ i_dev y = dev /\ i_inum y = inum /\ 0 < i_ref y
  end.

Lemma dirlookup_entry dp name s k x : dir_ok dp s k x -> table_room s -> byte_list name -> Z.of_nat (length name) <= DIRSIZ ->
  wp (dirlookup dp name) (lookup_post s k x name) s.
Proof.
  intros Hd [Hl Hr] Hb Hlen. apply (dirlookup_spec dp name s k x); [done|done|done|]. intros b R. unfold lookup_post, dir_at.
  destruct (find_ent (cname name) (ents k x) 0) as [[i inum]|] eqn:F; [|by exists b].
  eapply wp_mono; [apply iget_spec; [done|apply Hr]|]. intros ip s' (y & -> & Hip & Hy). exists b. split; [done|]. exists inum, y.
  apply find_ent_lookup in F as [_ F]. rewrite Nat.sub_0_r in F. pose proof (lookup_lt_Some _ _ _ F) as Hlt. rewrite ents_length in Hlt.
  rewrite ents_lookup in F by lia. pose proof (do_size _ _ _ _ Hd) as [Hs Hs16]. pose proof (Z.div_mod (i_size x) 16 ltac:(lia)).
  split; [done|]. split; [lia|]. rewrite (Z.mul_comm 16), Z.div_mul by done. by split; [congruence|].
Qed.

(** C32: a directory is a finite map from names to inode numbers.  dirlink()
    of a name that is not in it either binds the name to the number and
    leaves the binding of every other name as it was, in the first empty
    entry or in a new one at the end, and the result is again a directory;
    or it reports an error, and then the disk is full.  No other inode of
    the table is touched.  dirlookup() decides this map, before and after:
    for every name it returns no entry exactly when the name is not bound,
    and otherwise a referenced inode of the number it is bound to. *)
Theorem dirlink_correct me dp name inum s k x : dir_ok dp s k x -> inode_ok x -> ino_home dev (fs_sb s) k x -> 7 <= kroom k ->
  byte_list name -> Z.of_nat (length name) <= DIRSIZ -> 0 < inum < 2 ^ 16 -> i_size x + 16 <= MAXFILE * BSIZE -> dir_at k x (cname name) = None ->
  let looks s k x := forall nm, byte_list nm -> Z.of_nat (length nm) <= DIRSIZ -> table_room s -> wp (dirlookup dp nm) (lookup_post s k x nm) s in
  looks s k x /\
  wp (dirlink me dp name inum) (fun r s' => exists k' x' b u, s' = set_fs_um u (upd dp b x' s) /\ (r = -1 -> disk_full (fs_sb s) k') /\
    (r <> -1 -> r = 0 /\ dir_ok dp s' k' x' /\ looks s' k' x' /\
      forall nm, dir_at k' x' nm = if bool_decide (nm = cname name) then Some inum else dir_at k x nm)) s.
Proof.
  intros Hd Hio Hh Hroom Hb Hl Hin Hmax Hnone looks. split; [intros nm ? ? ?; by apply dirlookup_entry|].
  eapply wp_mono; [by apply (dirlink_spec me dp name inum s k x)|]. intros r s' (k' & x' & b & u & Hs & Hf & H). exists k', x', b, u.
  split; [done|]. split; [done|]. intros Hr. destruct (H Hr) as (H1 & H2 & H3). split; [done|]. split; [done|]. split; [|done].
  intros nm ? ? ?. by apply dirlookup_entry.
Qed.
End dir.

(** * Example

    An empty directory on the demonstration disk. *)
Definition demo_dir : inode := set_i_type T_DIR demo_ino.
Definition demo_dirfs (l : logst) : fsst logst mem := set_it_inode (<[0%nat:=demo_dir]>) (demo_fs l).
Definition demo_name : list Z := [97; 98].
#[local] Existing Instance demo_blocks.
#[local] Existing Instance demo_blocks_ok.

Lemma demo_dir_ok : exists l k, dir_ok 1 0 (demo_dirfs l) k demo_dir /\ inode_ok demo_dir /\ ino_home 1 demo_sb k demo_dir /\ 7 <= kroom k.
Proof.
  destruct demo_state as (l & k & [P1 P2 [F1 F2 F3 F4] P4 P5 P6 P7] & Hk & _ & _ & Hr). destruct (demo_file k Hk) as (_ & [I1 I2 I3 I4 I5 I6 I7] & [H1 H2 H3 H4]).
  exists l, k. split_and!; [|by split|by split|lia]. split; [by split|done|done|]. intros j Hj. cbn in Hj. lia.
Qed.

Lemma demo_table_room l b u x : table_room 1 (set_fs_um u (upd 0 b x (demo_dirfs l))).
Proof. split; [done|]. intros inum. cbn -[Z.eqb Z.ltb]. destruct (_ && _ && _); [done|]. by destruct (i_ref x =? 0). Qed.

Lemma dirlink_correct_witness : exists l, wp (let! r := dirlink 7 0 demo_name 5 in if r =? 0 then dirlookup 0 demo_name else ret None)
  (fun r s' => forall ip off, r = Some (ip, off) -> exists y, it_inode s' !! ip = Some y /\ i_inum y = 5 /\ 0 < i_ref y) (demo_dirfs l).
Proof.
  destruct demo_dir_ok as (l & k & Hd & Hi & Hh & Hr). exists l. rewrite wp_bind.
  eapply wp_mono; [apply (dirlink_correct 1 7 0 demo_name 5 (demo_dirfs l) k demo_dir Hd Hi Hh Hr); try done; by repeat constructor|].
  intros r s' (k' & x' & b & u & -> & _ & H). destruct (Z.eqb_spec r 0) as [->|]; [|by wp_simp]. destruct (H ltac:(done)) as (_ & _ & Hlook & Hat).
  eapply wp_mono; [apply (Hlook demo_name); [by repeat constructor|done|apply demo_table_room]|].
  intros r s' (b' & _ & Hr') ip off ->. destruct Hr' as (inum & y & Hin & _ & _ & -> & Hip & _ & Hy & Href). exists y. rewrite Hat in Hin. cbn in Hin.
  split_and!; [by apply list_lookup_insert_eq|by injection Hin as <-|done].
Defined.
