(* ===== verification/Mkfs.v ===== *)
(** mkfs/mkfs.c: the host program that builds the disk image.

    The image file is a finite map from sector numbers to blocks; reading a
    sector past its end makes mkfs die, as does a failed assert().  The
    static variables freeinode and freeblock are the rest of the state.  A
    file of the command line is its name and the results of the successive
    read() calls on it, [None] if open() fails.  xint() and xshort() store a
    number little-endian, so a struct that is written out is the block with
    its fields put in by [putn]. *)
From S2P Require Import Prelude Mem Str Bytes Bio Log Fs FsSpec.

Definition FSSIZE : Z := 2000.
Definition NINODES : Z := 200.
Definition nbitmap : Z := FSSIZE / BPB + 1.
Definition ninodeblocks : Z := NINODES / IPB + 1.
Definition nlog : Z := LOGBLOCKS + 1.
Definition nmeta : Z := 2 + nlog + ninodeblocks + nbitmap.
Definition nblocks : Z := FSSIZE - nmeta.
(** The static [sb], as main() fills it in. *)
Definition mk_sb : superblock :=
  Superblock FSMAGIC FSSIZE nblocks NINODES nlog 2 (2 + nlog) (2 + nlog + ninodeblocks).
Definition sb_fields (b : superblock) : list Z :=
  [sb_magic b; sb_size b; sb_nblocks b; sb_ninodes b; sb_nlog b; sb_logstart b; sb_inodestart b; sb_bmapstart b].

Record mkst := Mk { mk_img : gmap Z (list Z); mk_inode : Z; mk_block : Z }.
Definition set_mk_img i s := Mk i (mk_inode s) (mk_block s).
Definition set_mk_inode n s := Mk (mk_img s) n (mk_block s).
Definition set_mk_block n s := Mk (mk_img s) (mk_inode s) n.
Abbreviation MK := (M mkst).

Definition wsect (sec : Z) (buf : list Z) : MK unit := modify (fun s => set_mk_img (<[sec := buf]> (mk_img s)) s).
Definition rsect (sec : Z) : MK (list Z) :=
  let! r := gets (fun s => mk_img s !! sec) in
  match r with Some d => ret d | None => panic "read" end.

Definition winode (inum : Z) (ip : inode) : MK unit :=
  let bn := IBLOCK inum mk_sb in
  let! buf := rsect bn in
  wsect bn (store_dinode (IOFF inum) ip buf).
Definition rinode (inum : Z) : MK inode :=
  let bn := IBLOCK inum mk_sb in
  let! buf := rsect bn in
  ret (load_dinode (IOFF inum) buf inode0).

(** [freeblock++], and [freeinode++] in ialloc(). *)
Definition new_block : MK Z :=
  let! b := gets mk_block in
  modify (set_mk_block (u32 (b + 1))) ;;
  ret b.
Definition ialloc (type : Z) : MK Z :=
  let! inum := gets mk_inode in
  modify (set_mk_inode (u32 (inum + 1))) ;;
  winode inum (set_i_nlink 1 (set_i_type (s16 type) inode0)) ;;
  ret inum.

Fixpoint balloc_bits (n : nat) (i : Z) (buf : list Z) : list Z :=
  match n with
  | O => buf
  | Datatypes.S n => balloc_bits n (i + 1) (bit_set buf i)
  end.
Definition balloc (used : Z) : MK unit :=
  if negb (used <? BPB) then panic "used < BPB" else
  wsect (sb_bmapstart mk_sb) (balloc_bits (Z.to_nat used) 0 zero_blk).

Definition addr (din : inode) (i : Z) : Z := default 0 (i_addrs din !! Z.to_nat i).
Definition set_addr (i a : Z) (din : inode) : inode := set_i_addrs (<[Z.to_nat i := a]> (i_addrs din)) din.
(** One entry of din.addrs, given a block if it has none. *)
Definition want_addr (din : inode) (i : Z) : MK inode :=
  if addr din i =? 0 then let! b := new_block in ret (set_addr i b din) else ret din.
(** One entry of the indirect block, the same. *)
Definition want_entry (din : inode) (fbn : Z) : MK Z :=
  let! indirect := rsect (addr din NDIRECT) in
  let e := 4 * (fbn - NDIRECT) in
  if getn 4 e indirect =? 0 then
    let! b := new_block in
    let indirect := putn 4 e b indirect in
    wsect (addr din NDIRECT) indirect ;;
    ret (getn 4 e indirect)
  else ret (getn 4 e indirect).
(** The block of file block [fbn], the body of the loop before the copy. *)
Definition want_block (din : inode) (fbn : Z) : MK (inode * Z) :=
  if fbn <? NDIRECT then
    let! din := want_addr din fbn in ret (din, addr din fbn)
  else
    let! din := want_addr din NDIRECT in
    let! x := want_entry din fbn in
    ret (din, x).

(** The loop of iappend(): the inode and [off] at its end. *)
Fixpoint iappend_loop (fuel : nat) (din : inode) (off : Z) (p : list Z) : MK (inode * Z) :=
  if 0 <? Z.of_nat (length p) then
    match fuel with
    | O => nofuel
    | Datatypes.S fuel =>
        let fbn := off / BSIZE in
        if negb (fbn <? MAXFILE) then panic "fbn < MAXFILE" else
        let! (din, x) := want_block din fbn in
        let n1 := Z.min (Z.of_nat (length p)) ((fbn + 1) * BSIZE - off) in
        let! buf := rsect x in
        wsect x (overwrite (off - fbn * BSIZE) (take (Z.to_nat n1) p) buf) ;;
        iappend_loop fuel din (u32 (off + n1)) (drop (Z.to_nat n1) p)
    end
  else ret (din, off).
Definition iappend (inum : Z) (p : list Z) : MK unit :=
  let! din := rinode inum in
  let! (din, off) := iappend_loop (length p) din (i_size din) p in
  winode inum (set_i_size off din).

(** struct dirent, zeroed and filled in: the name is at most DIRSIZ bytes. *)
Definition dirent_bytes (inum : Z) (name : list Z) : list Z :=
  le_encode 2 inum ++ name ++ replicate (Z.to_nat DIRSIZ - length name) 0.

Definition slash : Z := 47.
Definition underscore : Z := 95.
Definition user_dir : list Z := [117; 115; 101; 114; 47].
Definition strip_dir (arg : list Z) : list Z := if bool_decide (take 5 arg = user_dir) then drop 5 arg else arg.
Definition strip_underscore (name : list Z) : list Z :=
  match name with c :: rest => if c =? underscore then rest else name | [] => [] end.

Record hostfile := Hostfile { h_arg : list Z; h_reads : option (list (list Z)) }.

Fixpoint copy_reads (inum : Z) (reads : list (list Z)) : MK unit :=
  match reads with
  | [] => ret tt
  | r :: reads => if 0 <? Z.of_nat (length r) then iappend inum r ;; copy_reads inum reads else ret tt
  end.

(** The body of the loop over the arguments. *)
Definition add_file (rootino : Z) (f : hostfile) : MK unit :=
  let shortname := strip_dir (h_arg f) in
  if existsb (Z.eqb slash) shortname then panic "index(shortname, '/') == 0" else
  match h_reads f with
  | None => panic "die"
  | Some reads =>
      let shortname := strip_underscore shortname in
      if negb (Z.of_nat (length shortname) <=? DIRSIZ) then panic "strlen(shortname) <= DIRSIZ" else
      let! inum := ialloc T_FILE in
      iappend rootino (dirent_bytes inum shortname) ;;
      copy_reads inum reads
  end.
Fixpoint add_files (rootino : Z) (fs : list hostfile) : MK unit :=
  match fs with
  | [] => ret tt
  | f :: fs => add_file rootino f ;; add_files rootino fs
  end.

(** FSSIZE sectors of zeroes. *)
Fixpoint zero_image (n : nat) (i : Z) : MK unit :=
  match n with
  | O => ret tt
  | Datatypes.S n => wsect i zero_blk ;; zero_image n (i + 1)
  end.

Definition fix_root (rootino : Z) : MK unit :=
  let! din := rinode rootino in
  winode rootino (set_i_size (u32 (u32 (i_size din / BSIZE + 1) * BSIZE)) din).

Definition mkfs_main (fs : list hostfile) : MK unit :=
  modify (set_mk_block nmeta) ;;
  zero_image (Z.to_nat FSSIZE) 0 ;;
  wsect 1 (put_arr 0 (sb_fields mk_sb) zero_blk) ;;
  let! rootino := ialloc T_DIR in
  if negb (rootino =? ROOTINO) then panic "rootino == ROOTINO" else
  iappend rootino (dirent_bytes rootino [46]) ;;
  iappend rootino (dirent_bytes rootino [46; 46]) ;;
  add_files rootino fs ;;
  fix_root rootino ;;
  let! used := gets mk_block in
  balloc used.

(** What the statics hold when main() starts; the image is truncated. *)
Definition mk_start : mkst := Mk ∅ 1 0.
