(* ===== verification/MkfsSpec.v ===== *)
(** What mkfs does to the image, one call at a time.

    The image is seen through its blocks ([v]), the address arrays of the
    inodes written so far ([A], entry [j] for inode [j + 1]) and the contents
    the files should have ([C]).  [store_ok] says that the blocks in use are
    shared by no two places of any two files, [bytes_ok] that the files read
    as their contents, and [map_ok] that they have exactly the blocks they
    need. *)
From S2P Require Import Prelude Mem Str Bytes Blocks Bio Log Fs FsSpec FsFile FsIO Mkfs.

Definition vset (n : Z) (d : list Z) (v : Z -> list Z) : Z -> list Z := fun m => if m =? n then d else v m.
Definition view (v : Z -> list Z) : kst := Kst v ∅ ∅ 0.
(** An inode of type [t] and size [n], as mkfs writes it. *)
Definition mkino (t n : Z) (a : list Z) : inode := Inode 0 0 0 Spinlock.initsleeplock false t 0 0 1 n a.

(** A place of the file system that may have a block: block [bn] of file
    [j], or its indirect block. *)
Definition cell (v : Z -> list Z) (A : list (list Z)) (c : nat * option Z) : Z :=
  let x := mkino 0 0 (default [] (A !! c.1)) in
  match c.2 with None => ind x | Some bn => blk_of (view v) x bn end.
Definition cell_ok (c : nat * option Z) : Prop := match c.2 with None => True | Some bn => 0 <= bn < MAXFILE end.

Record store_ok (v : Z -> list Z) (A : list (list Z)) (fb : Z) : Prop := {
  so_blk : forall n, 0 <= n < FSSIZE -> length (v n) = Z.to_nat BSIZE /\ byte_list (v n);
  so_zero : forall n, fb <= n < FSSIZE -> v n = zero_blk;
  so_fb : nmeta <= fb <= FSSIZE;
  so_len : Forall (fun a => length a = 13%nat) A;
  so_range : forall c, cell_ok c -> cell v A c <> 0 -> nmeta <= cell v A c < fb;
  so_inj : forall c c', cell_ok c -> cell_ok c' -> cell v A c = cell v A c' -> cell v A c <> 0 -> c = c'
}.

Definition file_byte (v : Z -> list Z) (A : list (list Z)) (j : nat) (off : Z) : Z :=
  fbyte (view v) (mkino 0 0 (default [] (A !! j))) off.
Definition content (C : list (list Z)) (j : nat) : list Z := default [] (C !! j).
Definition bytes_ok v A C : Prop := forall j off, 0 <= off < MAXFILE * BSIZE ->
  file_byte v A j off = default 0 (content C j !! Z.to_nat off).

Definition clen (C : list (list Z)) (j : nat) : Z := Z.of_nat (length (content C j)).
Definition map_ok v A C : Prop := forall j,
  (forall bn, 0 <= bn < MAXFILE -> cell v A (j, Some bn) = 0 <-> clen C j <= bn * BSIZE) /\
  (cell v A (j, None) = 0 <-> clen C j <= NDIRECT * BSIZE).

Lemma nmeta_eq : nmeta = 47. Proof. done. Qed.
Lemma FSSIZE_eq : FSSIZE = 2000. Proof. done. Qed.
Lemma NDIRECT_eq : NDIRECT = 12. Proof. done. Qed.
Ltac consts := rewrite ?nmeta_eq, ?FSSIZE_eq, ?NDIRECT_eq, ?MAXFILE_eq, ?BSIZE_eq, ?NINDIRECT_eq in *.

(** * Giving a block to a place *)


Section gain.
Context (v : Z -> list Z) (A : list (list Z)) (fb : Z) (v' : Z -> list Z) (A' : list (list Z)).
Context (c0 : nat * option Z) (St : store_ok v A fb) (Hroom : fb < FSSIZE) (H0 : cell v A c0 = 0) (Hc0 : cell_ok c0).
Context (Hcell : forall c, cell_ok c -> cell v' A' c = if decide (c = c0) then fb else cell v A c).

Lemma fb_pos : 0 < fb.
Proof. pose proof (so_fb _ _ _ St). consts. lia. Qed.

Lemma store_gain : (forall n, 0 <= n < FSSIZE -> length (v' n) = Z.to_nat BSIZE /\ byte_list (v' n)) ->
  (forall n, fb < n < FSSIZE -> v' n = v n) -> Forall (fun a => length a = 13%nat) A' -> store_ok v' A' (fb + 1).
Proof.
  intros Hb Hz Hl. destruct St as [S1 S2 S3 S4 S5 S6]. pose proof fb_pos. split; [done|..|done| |].
  - intros n Hn. rewrite Hz by lia. apply S2. lia.
  - lia.
  - intros c Hc. rewrite Hcell by done. case_decide; [lia|]. intros Hn. pose proof (S5 c Hc Hn). lia.
  - intros c c' Hc Hc'. rewrite !Hcell by done. assert (Hnew : forall d, cell_ok d -> cell v A d <> fb).
    { intros d Hd E. pose proof (S5 d Hd ltac:(lia)). lia. }
    do 2 case_decide; subst; try done; intros E; [by destruct (Hnew c' Hc')|by destruct (Hnew c Hc)|by apply S6].
Qed.

Lemma bytes_gain C : (forall j bn, cell_ok (j, Some bn) -> cell v A (j, Some bn) <> 0 -> v' (cell v A (j, Some bn)) = v (cell v A (j, Some bn))) ->
  v' fb = zero_blk -> bytes_ok v A C -> bytes_ok v' A' C.
Proof.
  intros Hsame Hz B j off Ho. rewrite <- B by done. assert (Hbn : 0 <= off / BSIZE < MAXFILE).
  { split; [apply Z.div_pos; [lia|done]|apply Z.div_lt_upper_bound; [done|lia]]. }
  unfold file_byte, fbyte. cbn [kv view].
  change (blk_of (view v') _ _) with (cell v' A' (j, Some (off / BSIZE))).
  change (blk_of (view v) _ _) with (cell v A (j, Some (off / BSIZE))).
  rewrite Hcell by done. case_decide as E.
  - rewrite E, H0, Hz, byte_zero. by destruct (fb =? 0).
  - destruct (Z.eqb_spec (cell v A (j, Some (off / BSIZE))) 0) as [|Hn]; [done|]. by rewrite Hsame.
Qed.
End gain.

(** ** The three places a block is given to *)

Lemma slot_mkino t n a i : slot (mkino t n a) i = default 0 (a !! Z.to_nat i). Proof. done. Qed.

Lemma cell_ind v w A j : cell v A (j, None) = cell w A (j, None). Proof. done. Qed.
Lemma cell_blk v A j bn : cell v A (j, Some bn) =
  if bn <? NDIRECT then slot (mkino 0 0 (default [] (A !! j))) bn
  else if cell v A (j, None) =? 0 then 0 else getn 4 (4 * (bn - NDIRECT)) (v (cell v A (j, None))).
Proof. done. Qed.

Section places.
Context (v : Z -> list Z) (A : list (list Z)) (j : nat) (a : list Z) (Ha : A !! j = Some a) (Hl : length a = 13%nat).

Lemma slot_insert i b i' : 0 <= i <= NDIRECT -> 0 <= i' <= NDIRECT ->
  slot (mkino 0 0 (<[Z.to_nat i := b]> a)) i' = if i' =? i then b else slot (mkino 0 0 a) i'.
Proof.
  intros Hi Hi'. rewrite !slot_mkino. consts. destruct (Z.eqb_spec i' i) as [->|Hne].
  - by rewrite list_lookup_insert_eq by lia.
  - by rewrite list_lookup_insert_ne by lia.
Qed.

Lemma cell_other a' c : c.1 <> j -> cell v (<[j := a']> A) c = cell v A c.
Proof. intros H. unfold cell. by rewrite list_lookup_insert_ne. Qed.
Lemma cell_self a' o : cell v (<[j := a']> A) (j, o) =
  match o with None => ind (mkino 0 0 a') | Some bn => blk_of (view v) (mkino 0 0 a') bn end.
Proof. unfold cell. cbn [fst snd]. by rewrite list_lookup_insert_eq by (by eapply lookup_lt_Some). Qed.
Lemma cell_here o : cell v A (j, o) = match o with None => ind (mkino 0 0 a) | Some bn => blk_of (view v) (mkino 0 0 a) bn end.
Proof. unfold cell. cbn [fst snd]. by rewrite Ha. Qed.

Lemma cell_direct i b c : 0 <= i < NDIRECT -> cell_ok c ->
  cell v (<[j := <[Z.to_nat i := b]> a]> A) c = if decide (c = (j, Some i)) then b else cell v A c.
Proof.
  intros Hi Hc. destruct c as [j' o]. destruct (decide (j' = j)) as [->|Hj].
  2: { rewrite cell_other by done. case_decide; [congruence|done]. }
  rewrite cell_self, cell_here. destruct o as [bn|].
  - cbn in Hc. unfold blk_of, ind. rewrite (slot_insert i b NDIRECT) by (consts; lia). case_decide as E.
    + injection E as ->. rewrite slot_insert, Z.eqb_refl by lia. by rewrite (proj2 (Z.ltb_lt _ _)) by lia.
    + assert (bn <> i) by congruence. destruct (Z.ltb_spec bn NDIRECT).
      * rewrite slot_insert by lia. by rewrite (proj2 (Z.eqb_neq _ _)).
      * by rewrite (proj2 (Z.eqb_neq NDIRECT i)) by lia.
  - case_decide; [done|]. unfold ind. rewrite slot_insert by (consts; lia). by rewrite (proj2 (Z.eqb_neq NDIRECT i)) by lia.
Qed.

Lemma cell_indirect b c : cell v A (j, None) = 0 -> b <> 0 -> v b = zero_blk -> cell_ok c ->
  cell v (<[j := <[Z.to_nat NDIRECT := b]> a]> A) c = if decide (c = (j, None)) then b else cell v A c.
Proof.
  intros H0 Hb Hz Hc. destruct c as [j' o]. destruct (decide (j' = j)) as [->|Hj].
  2: { rewrite cell_other by done. case_decide; [congruence|done]. }
  rewrite cell_here in H0. rewrite cell_self, cell_here. destruct o as [bn|]; case_decide as E; try congruence.
  - cbn in Hc. unfold blk_of. destruct (Z.ltb_spec bn NDIRECT).
    + rewrite slot_insert by (consts; lia). by rewrite (proj2 (Z.eqb_neq bn NDIRECT)) by lia.
    + rewrite H0. unfold ind. rewrite slot_insert, Z.eqb_refl by (consts; lia). cbn [kv view]. rewrite (proj2 (Z.eqb_neq _ _) Hb).
      by rewrite Hz, getn_zero.
  - unfold ind. by rewrite slot_insert, Z.eqb_refl by (consts; lia).
Qed.

Lemma cell_entry fb bn b c : store_ok v A fb -> cell v A (j, None) <> 0 -> NDIRECT <= bn < MAXFILE -> 0 <= b < 2 ^ 32 -> cell_ok c ->
  let i := cell v A (j, None) in
  cell (vset i (putn 4 (4 * (bn - NDIRECT)) b (v i)) v) A c = if decide (c = (j, Some bn)) then b else cell v A c.
Proof.
  intros St Hi Hbn Hb Hc i. pose proof (so_range _ _ _ St (j, None) ltac:(done) Hi) as Hr. pose proof (so_fb _ _ _ St) as Hfb.
  destruct (so_blk _ _ _ St i ltac:(unfold i; consts; lia)) as [L _].
  assert (Hf : fits (4 * (bn - NDIRECT)) 4 (v i)) by (split; [lia|rewrite L; consts; lia]).
  destruct c as [j' [m|]]; [|case_decide; [congruence|done]]. cbn in Hc.
  rewrite !(cell_blk _ _ j' m), (cell_ind (vset _ _ v) v).
  destruct (Z.ltb_spec m NDIRECT) as [Hm|Hm]; [case_decide; [exfalso; simplify_eq; lia|done]|]. destruct (decide (j' = j)) as [->|Hj].
  - unfold i in *. rewrite (proj2 (Z.eqb_neq _ _) Hi). unfold vset. rewrite Z.eqb_refl. case_decide as E.
    + simplify_eq. rewrite getn_putn_eq by done. by rewrite Z.mod_small.
    + assert (m <> bn) by congruence. apply getn_putn_ne; [done|lia|lia].
  - case_decide; [congruence|]. destruct (Z.eqb_spec (cell v A (j', None)) 0) as [|Hn]; [done|]. unfold vset.
    destruct (Z.eqb_spec (cell v A (j', None)) i) as [E|]; [|done]. exfalso. apply Hj.
    by injection (so_inj _ _ _ St (j', None) (j, None) ltac:(done) ltac:(done) E Hn).
Qed.
End places.

(** * Allocation steps *)

(** Place [c0] has a block, a new one if it had none; nothing else changed. *)
Record gained v A fb v' A' fb' (c0 : nat * option Z) : Prop := {
  ga_store : store_ok v' A' fb';
  ga_bytes : forall C, bytes_ok v A C -> bytes_ok v' A' C;
  ga_cell : cell v' A' c0 <> 0;
  ga_rest : forall c, cell_ok c -> c <> c0 -> cell v' A' c = cell v A c;
  ga_fb : fb' = fb + (if cell v A c0 =? 0 then 1 else 0);
  ga_low : forall n, n < nmeta -> v' n = v n
}.

Lemma gained_same v A fb c0 : store_ok v A fb -> cell v A c0 <> 0 -> gained v A fb v A fb c0.
Proof. intros St Hn. split; try done. rewrite (proj2 (Z.eqb_neq _ _) Hn). lia. Qed.

Lemma gained_new v A fb v' A' c0 : store_ok v A fb -> fb < FSSIZE -> cell v A c0 = 0 -> cell_ok c0 ->
  (forall c, cell_ok c -> cell v' A' c = if decide (c = c0) then fb else cell v A c) ->
  Forall (fun a => length a = 13%nat) A' ->
  (forall n, 0 <= n < FSSIZE -> length (v' n) = Z.to_nat BSIZE /\ byte_list (v' n)) ->
  (forall n, v' n = v n \/ exists j, n = cell v A (j, None) /\ n <> 0) -> gained v A fb v' A' (fb + 1) c0.
Proof.
  intros St Hr H0 Hc0 Hcell Hl Hb Hv.
  assert (Hhigh : forall n, n < nmeta \/ fb <= n -> v' n = v n).
  { intros n Hn. destruct (Hv n) as [|(j & -> & E)]; [done|]. pose proof (so_range _ _ _ St (j, None) ltac:(done) E). lia. }
  split.
  - eapply store_gain; try done. intros n Hn. apply Hhigh. lia.
  - intros C. eapply bytes_gain; try done; [|rewrite Hhigh by lia; apply (so_zero _ _ _ St); lia]. intros j bn Hok Hn.
    destruct (Hv (cell v A (j, Some bn))) as [|(j' & E & _)]; [done|].
    by pose proof (so_inj _ _ _ St (j, Some bn) (j', None) Hok ltac:(done) E Hn).
  - rewrite Hcell by done. rewrite decide_True by done. pose proof (fb_pos v A fb St). lia.
  - intros c Hc Hne. rewrite Hcell by done. by rewrite decide_False.
  - by rewrite H0.
  - intros n Hn. apply Hhigh. lia.
Qed.

Lemma lens_insert A j a i b : Forall (fun a => length a = 13%nat) A -> length a = 13%nat ->
  Forall (fun a : list Z => length a = 13%nat) (<[j := <[i := b]> a]> A).
Proof. intros H Ha. apply Forall_insert; [done|]. by rewrite length_insert. Qed.

Lemma gained_slot v A fb j a i : store_ok v A fb -> fb < FSSIZE -> A !! j = Some a -> 0 <= i <= NDIRECT -> slot (mkino 0 0 a) i = 0 ->
  gained v A fb v (<[j := <[Z.to_nat i := fb]> a]> A) (fb + 1) (j, if i <? NDIRECT then Some i else None).
Proof.
  intros St Hr Ha Hi H0. pose proof (Forall_lookup_1 _ _ _ _ (so_len _ _ _ St) Ha) as Hl. cbn beta in Hl.
  pose proof (fb_pos v A fb St) as Hpos. destruct (Z.ltb_spec i NDIRECT) as [Hd|Hd].
  - assert (E0 : cell v A (j, Some i) = 0).
    { rewrite (cell_here v A j a Ha). unfold blk_of. by rewrite (proj2 (Z.ltb_lt _ _)) by lia. }
    apply gained_new; try done; [cbn; consts; lia| |by apply lens_insert; [apply St|]|apply St|by left].
    intros c Hc. apply cell_direct; (done || lia).
  - assert (i = NDIRECT) as -> by lia. assert (E0 : cell v A (j, None) = 0) by (by rewrite (cell_here v A j a Ha)).
    apply gained_new; try done; [|by apply lens_insert; [apply St|]|apply St|by left].
    intros c Hc. apply cell_indirect; try done; [lia|]. apply (so_zero _ _ _ St). lia.
Qed.

Lemma vset_blk v n d m : (length (v m) = Z.to_nat BSIZE /\ byte_list (v m)) -> length d = Z.to_nat BSIZE -> byte_list d ->
  length (vset n d v m) = Z.to_nat BSIZE /\ byte_list (vset n d v m).
Proof. intros H H1 H2. unfold vset. by destruct (m =? n). Qed.

Lemma gained_entry v A fb j a bn : store_ok v A fb -> fb < FSSIZE -> A !! j = Some a -> NDIRECT <= bn < MAXFILE ->
  cell v A (j, None) <> 0 -> cell v A (j, Some bn) = 0 -> let i := cell v A (j, None) in
  gained v A fb (vset i (putn 4 (4 * (bn - NDIRECT)) fb (v i)) v) A (fb + 1) (j, Some bn).
Proof.
  intros St Hr Ha Hbn Hi H0 i. pose proof (fb_pos v A fb St) as Hpos.
  pose proof (so_range _ _ _ St (j, None) ltac:(done) Hi) as Hir. fold i in Hir.
  destruct (so_blk _ _ _ St i ltac:(consts; lia)) as [L1 L2].
  apply gained_new; try done; [cbn; consts; lia| |apply St|..].
  - intros c Hc. eapply cell_entry; try done. 1: by apply (Forall_lookup_1 _ _ _ _ (so_len _ _ _ St) Ha). consts; lia.
  - intros n Hn. apply vset_blk; [by apply St| |by apply putn_bytes].
    rewrite length_putn; [done|]. split; [lia|]. rewrite L1. consts; lia.
  - intros n. unfold vset. destruct (Z.eqb_spec n i) as [->|]; [right; by exists j|by left].
Qed.

(** * The calls on the image *)

(** Every sector of the image is [v]'s; the two counters. *)
Record holds (s : mkst) (v : Z -> list Z) (fb ni : Z) : Prop := {
  h_img : forall n, 0 <= n < FSSIZE -> mk_img s !! n = Some (v n);
  h_block : mk_block s = fb;
  h_inode : mk_inode s = ni
}.

Lemma wp_rsect (Q : list Z -> mkst -> Prop) s v fb ni n : holds s v fb ni -> 0 <= n < FSSIZE -> Q (v n) s -> wp (rsect n) Q s.
Proof. intros H Hn HQ. unfold rsect. wp_simp. rewrite (h_img _ _ _ _ H) by done. by wp_simp. Qed.

Lemma wp_wsect (Q : unit -> mkst -> Prop) s v fb ni n d : holds s v fb ni ->
  (forall s', holds s' (vset n d v) fb ni -> Q tt s') -> wp (wsect n d) Q s.
Proof.
  intros H HQ. unfold wsect. wp_simp. apply HQ. destruct H as [H1 H2 H3]. split; [|done|done]. intros m Hm. cbn. unfold vset.
  destruct (Z.eqb_spec m n) as [->|]; [by rewrite lookup_insert_eq|]. rewrite lookup_insert_ne by done. by apply H1.
Qed.

Lemma wp_new_block (Q : Z -> mkst -> Prop) s v fb ni : holds s v fb ni -> 0 <= fb < FSSIZE ->
  (forall s', holds s' v (fb + 1) ni -> Q fb s') -> wp new_block Q s.
Proof.
  intros H Hfb HQ. unfold new_block. wp_simp. rewrite (h_block _ _ _ _ H). apply HQ.
  rewrite u32_small by (consts; lia). by destruct H as [H1 H2 H3].
Qed.

Lemma addr_slot t n a i : addr (mkino t n a) i = slot (mkino 0 0 a) i. Proof. done. Qed.

Definition slot_cell (j : nat) (i : Z) : nat * option Z := (j, if i <? NDIRECT then Some i else None).
Lemma slot_cell_eq v A j a i : A !! j = Some a -> 0 <= i <= NDIRECT -> cell v A (slot_cell j i) = slot (mkino 0 0 a) i.
Proof.
  intros Ha Hi. unfold slot_cell. rewrite (cell_here v A j a Ha). destruct (Z.ltb_spec i NDIRECT) as [H|H].
  - unfold blk_of. by rewrite (proj2 (Z.ltb_lt _ _)).
  - by assert (i = NDIRECT) as -> by lia.
Qed.

Lemma want_addr_spec (Q : inode -> mkst -> Prop) s v A fb ni j a t n i :
  holds s v fb ni -> store_ok v A fb -> A !! j = Some a -> 0 <= i <= NDIRECT -> (cell v A (slot_cell j i) = 0 -> fb < FSSIZE) ->
  (forall s' a' fb', holds s' v fb' ni -> gained v A fb v (<[j := a']> A) fb' (slot_cell j i) -> Q (mkino t n a') s') ->
  wp (want_addr (mkino t n a) i) Q s.
Proof.
  intros Hs St Ha Hi Hr HQ. pose proof (slot_cell_eq v A j a i Ha Hi) as E. unfold want_addr. rewrite addr_slot, <- E.
  pose proof (so_fb _ _ _ St). destruct (Z.eqb_spec (cell v A (slot_cell j i)) 0) as [E0|E0].
  - wp_simp. apply (wp_new_block _ s v fb ni); [done|consts; lia|]. intros s' Hs'. wp_simp.
    apply (HQ s' _ (fb + 1) Hs'). apply gained_slot; auto. cbn [i_addrs mkino]. congruence.
  - wp_simp. apply (HQ s a fb Hs). rewrite list_insert_id by done. by apply gained_same.
Qed.

(** Block [bn] of file [j] has a block, and the file an indirect block if
    [bn] needs it. *)
Record grew v A fb v' A' fb' (j : nat) (bn : Z) : Prop := {
  gw_store : store_ok v' A' fb';
  gw_bytes : forall C, bytes_ok v A C -> bytes_ok v' A' C;
  gw_cell : cell v' A' (j, Some bn) <> 0;
  gw_ind : NDIRECT <= bn -> cell v' A' (j, None) <> 0;
  gw_rest : forall c, cell_ok c -> c <> (j, Some bn) -> (NDIRECT <= bn -> c <> (j, None)) -> cell v' A' c = cell v A c;
  gw_fb : fb' = fb + (if cell v A (j, Some bn) =? 0 then 1 else 0) +
    (if (NDIRECT <=? bn) && (cell v A (j, None) =? 0) then 1 else 0);
  gw_low : forall n, n < nmeta -> v' n = v n
}.

Lemma grew_direct v A fb v' A' fb' j bn : bn < NDIRECT -> gained v A fb v' A' fb' (j, Some bn) -> grew v A fb v' A' fb' j bn.
Proof.
  intros Hd [G1 G2 G3 G4 G5 G6]. split; try done; [lia|by auto|]. rewrite G5.
  rewrite (proj2 (Z.leb_gt NDIRECT bn)) by lia. cbn [andb]. lia.
Qed.

Lemma grew_indirect v A fb v1 A1 fb1 v2 A2 fb2 j bn : NDIRECT <= bn < MAXFILE ->
  gained v A fb v1 A1 fb1 (j, None) -> gained v1 A1 fb1 v2 A2 fb2 (j, Some bn) -> grew v A fb v2 A2 fb2 j bn.
Proof.
  intros Hd [G1 G2 G3 G4 G5 G6] [G1' G2' G3' G4' G5' G6']. split; try done.
  - auto.
  - intros _. by rewrite G4'.
  - intros c Hc H1 H2. rewrite G4', G4; auto. apply H2. lia.
  - rewrite G5', G5, G4 by (done || cbn; consts; lia). rewrite (proj2 (Z.leb_le NDIRECT bn)) by lia. cbn [andb]. lia.
  - intros n Hn. by rewrite G6', G6.
Qed.

Lemma want_entry_spec (Q : Z -> mkst -> Prop) s v A fb ni j a t n bn :
  holds s v fb ni -> store_ok v A fb -> A !! j = Some a -> NDIRECT <= bn < MAXFILE -> cell v A (j, None) <> 0 ->
  (cell v A (j, Some bn) = 0 -> fb < FSSIZE) ->
  (forall s' v' fb', holds s' v' fb' ni -> gained v A fb v' A fb' (j, Some bn) -> Q (cell v' A (j, Some bn)) s') ->
  wp (want_entry (mkino t n a) bn) Q s.
Proof.
  intros Hs St Ha Hbn Hi Hr HQ. unfold want_entry. wp_simp. rewrite addr_slot.
  rewrite <- (slot_cell_eq v A j a NDIRECT Ha) by done. change (slot_cell j NDIRECT) with (j, None : option Z).
  pose proof (so_range _ _ _ St (j, None) ltac:(done) Hi) as Hir. pose proof (so_fb _ _ _ St) as Hfb.
  apply (wp_rsect _ s v fb ni); [done|consts; lia|].
  assert (Eg : forall w, getn 4 (4 * (bn - NDIRECT)) (w (cell v A (j, None))) = cell w A (j, Some bn)).
  { intros w. rewrite (cell_blk w A j bn), (cell_ind w v), (proj2 (Z.ltb_ge _ _)), (proj2 (Z.eqb_neq _ _) Hi) by lia. done. }
  rewrite Eg. destruct (Z.eqb_spec (cell v A (j, Some bn)) 0) as [E0|E0]; wp_simp.
  - apply (wp_new_block _ s v fb ni); [done|consts; lia|]. intros s1 Hs1. wp_simp.
    apply (wp_wsect _ s1 v (fb + 1) ni); [done|]. intros s2 Hs2. wp_simp.
    set (d := putn 4 _ fb _) in *. pose proof (Eg (vset (cell v A (j, None)) d v)) as E. unfold vset in E at 1.
    rewrite Z.eqb_refl in E. rewrite E. apply (HQ s2 _ (fb + 1) Hs2). apply (gained_entry v A fb j a bn); auto.
  - apply (HQ s v fb Hs). by apply gained_same.
Qed.

Lemma want_block_spec (Q : inode * Z -> mkst -> Prop) s v A fb ni j a t n bn :
  holds s v fb ni -> store_ok v A fb -> A !! j = Some a -> 0 <= bn < MAXFILE ->
  fb + (if cell v A (j, Some bn) =? 0 then 1 else 0) + (if (NDIRECT <=? bn) && (cell v A (j, None) =? 0) then 1 else 0) <= FSSIZE ->
  (forall s' v' a' fb', let A' := <[j := a']> A in holds s' v' fb' ni -> grew v A fb v' A' fb' j bn ->
     Q (mkino t n a', cell v' A' (j, Some bn)) s') ->
  wp (want_block (mkino t n a) bn) Q s.
Proof.
  intros Hs St Ha Hbn Hroom HQ. unfold want_block. destruct (Z.ltb_spec bn NDIRECT) as [Hd|Hd].
  - wp_simp. assert (Ec : slot_cell j bn = (j, Some bn)) by (unfold slot_cell; by rewrite (proj2 (Z.ltb_lt _ _))).
    apply (want_addr_spec _ s v A fb ni j a); [done|done|done|lia|rewrite Ec; intros E; rewrite E, Z.eqb_refl in Hroom; destruct (_ && _) in Hroom; lia|].
    rewrite Ec. intros s' a' fb' Hs' G. wp_simp. rewrite addr_slot.
    rewrite <- (slot_cell_eq v (<[j := a']> A) j a' bn), Ec; [|apply list_lookup_insert_eq; by eapply lookup_lt_Some|lia].
    apply (HQ s' v a' fb'); [done|by apply grew_direct].
  - wp_simp. assert (Ec : slot_cell j NDIRECT = (j, None)) by done. rewrite (proj2 (Z.leb_le NDIRECT bn)) in Hroom by lia. cbn [andb] in Hroom.
    apply (want_addr_spec _ s v A fb ni j a); [done|done|done|done|rewrite Ec; intros E; rewrite E, Z.eqb_refl in Hroom; destruct (_ =? 0) in Hroom; lia|].
    rewrite Ec. intros s1 a1 fb1 Hs1 G. wp_simp. pose proof G as [G1 G2 G3 G4 G5 G6].
    apply (want_entry_spec _ s1 v (<[j := a1]> A) fb1 ni j a1); [done|done| |lia|done|..].
    + apply list_lookup_insert_eq. by eapply lookup_lt_Some.
    + rewrite G4 by done. intros E. rewrite E, Z.eqb_refl in Hroom. lia.
    + intros s2 v2 fb2 Hs2 G'. wp_simp. apply (HQ s2 v2 a1 fb2 Hs2). eapply grew_indirect; [lia|exact G|done].
Qed.

(** * Appending *)

Section write.
Context (v : Z -> list Z) (A : list (list Z)) (fb : Z) (C : list (list Z)) (j : nat) (c q : list Z) (bn : Z).
Context (St : store_ok v A fb) (B : bytes_ok v A C) (Hc : C !! j = Some c).
Let len := Z.of_nat (length c).
Context (Hbn : 0 <= bn < MAXFILE) (Hlen : bn * BSIZE <= len) (Hq : len + Z.of_nat (length q) <= (bn + 1) * BSIZE).
Context (Hqb : byte_list q) (Hcell : cell v A (j, Some bn) <> 0).
Let a := cell v A (j, Some bn).
Let v' := vset a (overwrite (len - bn * BSIZE) q (v a)) v.

Lemma write_range : nmeta <= a < fb /\ fb <= FSSIZE /\ length (v a) = Z.to_nat BSIZE /\ byte_list (v a) /\
  fits (len - bn * BSIZE) (length q) (v a).
Proof.
  pose proof (so_range _ _ _ St (j, Some bn) Hbn Hcell) as Hr. pose proof (so_fb _ _ _ St) as Hf. fold a in Hr.
  destruct (so_blk _ _ _ St a ltac:(consts; lia)) as [L1 L2]. split; [lia|]. split; [lia|]. split; [done|]. split; [done|].
  split; [lia|]. rewrite L1. consts. lia.
Qed.

Lemma write_cells d : cell_ok d -> cell v' A d = cell v A d.
Proof.
  intros Hd. destruct d as [j' [m|]]; [|done]. rewrite !(cell_blk _ _ j' m), (cell_ind v' v).
  destruct (m <? NDIRECT); [done|]. destruct (Z.eqb_spec (cell v A (j', None)) 0) as [|Hn]; [done|].
  unfold v', vset. destruct (Z.eqb_spec (cell v A (j', None)) a) as [E|]; [|done].
  by pose proof (so_inj _ _ _ St (j', None) (j, Some bn) ltac:(done) Hbn E Hn).
Qed.

Lemma write_store : store_ok v' A fb.
Proof.
  destruct write_range as (R1 & R2 & R3 & R4 & R5). destruct St as [S1 S2 S3 S4 S5 S6]. split; try done.
  - intros n Hn. apply vset_blk; [auto|by rewrite length_overwrite|by apply overwrite_bytes].
  - intros n Hn. unfold v', vset. destruct (Z.eqb_spec n a); [lia|auto].
  - intros d Hd. rewrite write_cells by done. auto.
  - intros d d' Hd Hd'. rewrite !write_cells by done. auto.
Qed.

Lemma write_bytes : bytes_ok v' A (<[j := c ++ q]> C).
Proof.
  destruct write_range as (R1 & R2 & R3 & R4 & R5). pose proof nmeta_eq. intros j' off Ho.
  assert (Hob : 0 <= off / BSIZE < MAXFILE).
  { split; [apply Z.div_pos; [lia|done]|apply Z.div_lt_upper_bound; [done|lia]]. }
  pose proof (Z.div_mod off BSIZE ltac:(done)) as Hdm. pose proof (Z.mod_pos_bound off BSIZE ltac:(done)) as Hmod.
  specialize (B j' off Ho). unfold file_byte, fbyte in B |- *. cbn [kv view] in *.
  change (blk_of (view v') _ _) with (cell v' A (j', Some (off / BSIZE))).
  change (blk_of (view v) _ _) with (cell v A (j', Some (off / BSIZE))) in B. rewrite write_cells by done.
  destruct (decide ((j', Some (off / BSIZE)) = (j, Some bn))) as [E|E].
  - injection E as -> E. rewrite E in *. fold a in B |- *. rewrite (proj2 (Z.eqb_neq a 0)) in B |- * by lia.
    unfold v', vset. rewrite Z.eqb_refl, byte_overwrite by (done || lia).
    unfold content in *. rewrite list_lookup_insert_eq by (by eapply lookup_lt_Some). rewrite Hc in B. cbn [from_option id] in *.
    rewrite B. destruct (Z.lt_ge_cases off len).
    + rewrite lookup_app_l by lia. rewrite (proj2 (Z.leb_gt _ _)) by lia. done.
    + rewrite lookup_app_r by lia. rewrite (proj2 (Z.leb_le _ _)) by lia. cbn [andb].
      destruct (Z.ltb_spec (off mod BSIZE) (len - bn * BSIZE + Z.of_nat (length q))).
      * do 2 f_equal. lia.
      * rewrite !lookup_ge_None_2 by lia. done.
  - transitivity (default 0 (content C j' !! Z.to_nat off)).
    + rewrite <- B. destruct (Z.eqb_spec (cell v A (j', Some (off / BSIZE))) 0) as [|Hn]; [done|].
      unfold v', vset. destruct (Z.eqb_spec (cell v A (j', Some (off / BSIZE))) a) as [E'|]; [|done].
      destruct E. by apply (so_inj _ _ _ St).
    + unfold content. destruct (decide (j' = j)) as [->|]; [|by rewrite list_lookup_insert_ne].
      rewrite list_lookup_insert_eq by (by eapply lookup_lt_Some). rewrite Hc. cbn [from_option id].
      assert (off / BSIZE <> bn) by congruence. destruct (Z.lt_ge_cases off len).
      * by rewrite lookup_app_l by lia.
      * rewrite lookup_ge_None_2 by lia. rewrite lookup_ge_None_2; [done|]. rewrite length_app. consts. lia.
Qed.
End write.

(** The blocks a file of [n] bytes takes. *)
Definition need (n : Z) : Z := let b := (n + BSIZE - 1) / BSIZE in b + (if NDIRECT <? b then 1 else 0).

Lemma need_step n m bn : bn * BSIZE <= n -> 0 < m -> n + m <= (bn + 1) * BSIZE -> 0 <= bn ->
  need (n + m) = need n + (if n <=? bn * BSIZE then 1 else 0) + (if (NDIRECT <=? bn) && (n <=? NDIRECT * BSIZE) then 1 else 0).
Proof.
  intros H1 H2 H3 H4. unfold need. consts. assert (E : (n + m + 1024 - 1) / 1024 = bn + 1) by (Z.to_euclidean_division_equations; lia). rewrite E.
  assert (E' : (n + 1024 - 1) / 1024 = if n <=? bn * 1024 then bn else bn + 1) by (destruct (Z.leb_spec n (bn * 1024)); Z.to_euclidean_division_equations; lia). rewrite E'.
  destruct (Z.leb_spec n (bn * 1024)), (Z.leb_spec 12 bn), (Z.leb_spec n (12 * 1024)); cbn [andb]; zcases; lia.
Qed.

Record files_ok v A C fb : Prop := {
  fo_store : store_ok v A fb;
  fo_bytes : bytes_ok v A C;
  fo_map : map_ok v A C;
  fo_len : length A = length C
}.

Lemma clen_insert C j c c' j' : C !! j = Some c -> clen (<[j := c']> C) j' = if decide (j' = j) then Z.of_nat (length c') else clen C j'.
Proof.
  intros H. unfold clen, content. case_decide as E; [subst j'|by rewrite list_lookup_insert_ne].
  by rewrite list_lookup_insert_eq by (by eapply lookup_lt_Some).
Qed.

Lemma map_step v A C fb v1 A1 fb1 v2 j c q bn : map_ok v A C -> C !! j = Some c -> 0 <= bn < MAXFILE ->
  bn * BSIZE <= Z.of_nat (length c) -> (0 < length q)%nat -> Z.of_nat (length c) + Z.of_nat (length q) <= (bn + 1) * BSIZE ->
  grew v A fb v1 A1 fb1 j bn -> (forall d, cell_ok d -> cell v2 A1 d = cell v1 A1 d) -> map_ok v2 A1 (<[j := c ++ q]> C).
Proof.
  intros Hm Hc Hbn H1 H2 H3 G Hcells j'. destruct (Hm j') as [M1 M2]. rewrite (clen_insert _ _ c) by done.
  assert (El : j' = j -> clen C j' = Z.of_nat (length c)) by (intros ->; unfold clen, content; by rewrite Hc).
  split.
  - intros m Hm'. rewrite Hcells by done. destruct (decide ((j', Some m) = (j, Some bn))) as [E|E].
    + injection E as -> ->. rewrite decide_True by done. rewrite length_app. pose proof (gw_cell _ _ _ _ _ _ _ _ G). consts. lia.
    + rewrite (gw_rest _ _ _ _ _ _ _ _ G), M1 by done. case_decide as Ej; [|done]. rewrite El, length_app by done.
      assert (m <> bn) by congruence. consts. lia.
  - rewrite Hcells by done. case_decide as Ej; [|rewrite (gw_rest _ _ _ _ _ _ _ _ G), M2; try done; congruence].
    subst j'. rewrite length_app. destruct (Z.lt_ge_cases bn NDIRECT).
    + rewrite (gw_rest _ _ _ _ _ _ _ _ G), M2, El by (done || lia). consts. lia.
    + pose proof (gw_ind _ _ _ _ _ _ _ _ G ltac:(lia)). consts. lia.
Qed.

Lemma append_chunk v A C fb v1 a1 fb1 j c q bn : files_ok v A C fb -> C !! j = Some c -> 0 <= bn < MAXFILE ->
  bn * BSIZE <= Z.of_nat (length c) -> (0 < length q)%nat -> Z.of_nat (length c) + Z.of_nat (length q) <= (bn + 1) * BSIZE ->
  byte_list q -> let A1 := <[j := a1]> A in grew v A fb v1 A1 fb1 j bn -> let x := cell v1 A1 (j, Some bn) in
  let v2 := vset x (overwrite (Z.of_nat (length c) - bn * BSIZE) q (v1 x)) v1 in
  files_ok v2 A1 (<[j := c ++ q]> C) fb1 /\ nmeta <= x < FSSIZE /\ (forall n, n < nmeta -> v2 n = v n).
Proof.
  intros [F1 F2 F3 F4] Hc Hbn H1 H2 H3 Hq A1 G x v2. pose proof (gw_store _ _ _ _ _ _ _ _ G) as St1.
  pose proof (gw_bytes _ _ _ _ _ _ _ _ G _ F2) as B1. pose proof (gw_cell _ _ _ _ _ _ _ _ G) as Hx.
  destruct (write_range v1 A1 fb1 j c q bn St1 Hbn H1 H3 Hx) as (R1 & R2 & _). fold x in R1. split; [split|split].
  - by apply write_store.
  - by apply (write_bytes v1 A1 fb1).
  - apply (map_step v A C fb v1 A1 fb1 v2 j c q bn); try done. intros d Hd. by apply (write_cells v1 A1 fb1).
  - unfold A1. by rewrite !length_insert.
  - lia.
  - intros n Hn. unfold v2, vset. rewrite (proj2 (Z.eqb_neq n x)) by lia. by apply G.
Qed.

Lemma grew_room v A C fb j c m bn : map_ok v A C -> C !! j = Some c -> 0 <= bn < MAXFILE -> bn * BSIZE <= Z.of_nat (length c) ->
  0 < m -> Z.of_nat (length c) + m <= (bn + 1) * BSIZE ->
  fb + (if cell v A (j, Some bn) =? 0 then 1 else 0) + (if (NDIRECT <=? bn) && (cell v A (j, None) =? 0) then 1 else 0) =
  fb + need (Z.of_nat (length c) + m) - need (Z.of_nat (length c)).
Proof.
  intros Hm Hc Hbn H1 H2 H3. destruct (Hm j) as [M1 M2]. specialize (M1 bn Hbn).
  rewrite (need_step _ m bn) by lia. unfold clen, content in *. rewrite Hc in *. cbn [from_option id] in *.
  assert (E1 : (cell v A (j, Some bn) =? 0) = (Z.of_nat (length c) <=? bn * BSIZE)).
  { destruct (Z.eqb_spec (cell v A (j, Some bn)) 0), (Z.leb_spec (Z.of_nat (length c)) (bn * BSIZE)); try done; lia. }
  assert (E2 : (cell v A (j, None) =? 0) = (Z.of_nat (length c) <=? NDIRECT * BSIZE)).
  { destruct (Z.eqb_spec (cell v A (j, None)) 0), (Z.leb_spec (Z.of_nat (length c)) (NDIRECT * BSIZE)); try done; lia. }
  rewrite E1, E2. lia.
Qed.

Lemma need_mono n m : 0 <= n <= m -> need n <= need m.
Proof.
  intros H. unfold need. assert (Hd : (n + BSIZE - 1) / BSIZE <= (m + BSIZE - 1) / BSIZE) by (apply Z.div_le_mono; [done|lia]).
  consts. zcases; lia.
Qed.

(** The loop of iappend() appends all of [p], whatever block boundaries it
    crosses, and takes the blocks the longer file needs. *)
Lemma iappend_loop_spec fuel s v A C fb ni j a c t sz p : let n := Z.of_nat (length c) in let n' := n + Z.of_nat (length p) in
  holds s v fb ni -> files_ok v A C fb -> A !! j = Some a -> C !! j = Some c -> byte_list p -> (length p <= fuel)%nat ->
  n' <= MAXFILE * BSIZE -> fb + need n' - need n <= FSSIZE ->
  wp (iappend_loop fuel (mkino t sz a) n p) (fun r s' => exists v' a', r = (mkino t sz a', n') /\
    let fb' := fb + need n' - need n in
    holds s' v' fb' ni /\ files_ok v' (<[j := a']> A) (<[j := c ++ p]> C) fb' /\ forall m, m < nmeta -> v' m = v m) s.
Proof.
  cbv zeta. revert s v A C fb a c p. induction fuel as [|fuel IH]; intros s v A C fb a c p Hs F Ha Hc Hp Hfuel Hmax Hroom;
    cbn [iappend_loop]; destruct (Z.ltb_spec 0 (Z.of_nat (length p))) as [Hpos|Hpos]; try lia.
  1,3: destruct p; [|simpl in *; lia]; wp_simp; exists v, a; rewrite app_nil_r, !list_insert_id, Z.add_0_r, Z.add_simpl_r by done; done.
  set (n := Z.of_nat (length c)) in *. pose proof (Z.div_mod n BSIZE ltac:(done)) as Hdm.
  pose proof (Z.mod_pos_bound n BSIZE ltac:(done)) as Hmod. set (bn := n / BSIZE) in *.
  assert (Hbn : 0 <= bn < MAXFILE) by (split; [apply Z.div_pos; [lia|done]|apply Z.div_lt_upper_bound; [done|lia]]).
  rewrite (proj2 (Z.ltb_lt bn MAXFILE)) by lia. cbn [negb].
  remember (Z.min (Z.of_nat (length p)) ((bn + 1) * BSIZE - n)) as m eqn:Em. assert (Hm : 0 < m) by lia.
  set (q := take (Z.to_nat m) p). assert (Hq : Z.of_nat (length q) = m) by (unfold q; rewrite length_take; lia).
  assert (Hn1 : need (n + m) <= need (n + Z.of_nat (length p))) by (apply need_mono; lia).
  pose proof (grew_room v A C fb j c m bn (fo_map _ _ _ _ F) Hc Hbn ltac:(lia) Hm ltac:(lia)) as Hg.
  wp_simp. apply (want_block_spec _ s v A fb ni j a t sz bn Hs (fo_store _ _ _ _ F) Ha Hbn); [rewrite Hg; fold n; lia|].
  intros s1 v1 a1 fb1 A1 Hs1 G. wp_simp. pose proof (gw_fb _ _ _ _ _ _ _ _ G) as Hfb1. rewrite Hg in Hfb1. fold n in Hfb1.
  destruct (append_chunk v A C fb v1 a1 fb1 j c q bn F Hc Hbn) as (F2 & Hx & Hlow); try done; [lia|lia|lia|by apply Forall_take|].
  fold A1 in F2, Hx, Hlow. cbv zeta in F2, Hx, Hlow. fold n in F2, Hlow.
  apply (wp_rsect _ s1 v1 fb1 ni); [done|consts; lia|]. wp_simp.
  apply (wp_wsect _ s1 v1 fb1 ni); [done|]. intros s2 Hs2. rewrite u32_small by (consts; lia).
  replace (n + m) with (Z.of_nat (length (c ++ q))) by (rewrite length_app; lia).
  assert (El : Z.of_nat (length (c ++ q)) + Z.of_nat (length (drop (Z.to_nat m) p)) = n + Z.of_nat (length p)).
  { rewrite length_app, length_drop. lia. }
  eapply wp_mono; [apply (IH _ _ A1 _ fb1 a1 (c ++ q) _ Hs2 F2)|].
  - apply list_lookup_insert_eq. by eapply lookup_lt_Some.
  - apply list_lookup_insert_eq. by eapply lookup_lt_Some.
  - by apply Forall_drop.
  - rewrite length_drop. lia.
  - rewrite El. done.
  - rewrite El, length_app, Nat2Z.inj_add, Hq. fold n. lia.
  - intros r s3 (v3 & a3 & -> & Hs3 & F3 & L3). exists v3, a3.
    rewrite El, length_app, Nat2Z.inj_add, Hq in *. fold n in Hs3, F3.
    replace (fb1 + need (n + Z.of_nat (length p)) - need (n + m)) with (fb + need (n + Z.of_nat (length p)) - need n) in * by lia.
    unfold A1 in F3. rewrite !list_insert_insert_eq, <- app_assoc in F3. unfold q in F3. rewrite take_drop in F3.
    split; [done|]. split; [done|]. split; [done|]. intros k Hk. by rewrite L3, Hlow.
Qed.

(** * Inodes on the image *)

(** Lengths of blocks after stores into their fields. *)
Ltac fields := repeat first [lia|split|rewrite length_putn].

(** A struct dinode touches its 64 bytes only. *)
Lemma getn_store_ne k o x d p : fits o 64 d -> length (i_addrs x) = 13%nat -> 0 <= p -> p + Z.of_nat k <= o \/ o + 64 <= p ->
  getn k p (store_dinode o x d) = getn k p d.
Proof.
  intros [Ho Hl] Ha Hp Hd. unfold store_dinode. rewrite getn_put_arr_ne; [|rewrite Ha; fields|done|rewrite Ha; lia].
  rewrite !getn_putn_ne; try done; fields.
Qed.

Lemma load_store_ne o x d p ip : fits o 64 d -> length (i_addrs x) = 13%nat -> 0 <= p -> p + 64 <= o \/ o + 64 <= p ->
  load_dinode p (store_dinode o x d) ip = load_dinode p d ip.
Proof.
  intros Hf Ha Hp Hd. unfold load_dinode. rewrite !(getn_store_ne _ o x d) by (done || lia). f_equal.
  unfold get_arr. apply list_fmap_ext. intros i k Hi. apply lookup_seq in Hi as [-> Hi]. apply getn_store_ne; (done || lia).
Qed.

Lemma load_mkino o t n a d : inode_ok (mkino t n a) -> fits o 64 d -> load_dinode o (store_dinode o (mkino t n a) d) inode0 = mkino t n a.
Proof. intros H Hf. exact (dinode_roundtrip o (mkino t n a) d H Hf). Qed.

Definition inum_ok (i : Z) : Prop := 0 <= i < 208.
Lemma iblock_range i : inum_ok i -> 33 <= IBLOCK i mk_sb < 46.
Proof.
  unfold inum_ok, IBLOCK. change IPB with 16. change (sb_inodestart mk_sb) with 33. intros H. Z.to_euclidean_division_equations. lia.
Qed.
Lemma ioff_apart i i' : IBLOCK i mk_sb = IBLOCK i' mk_sb -> i <> i' -> IOFF i + 64 <= IOFF i' \/ IOFF i' + 64 <= IOFF i.
Proof.
  unfold IBLOCK, IOFF, DINODE_SZ. change IPB with 16. intros H Hne. assert (i / 16 = i' / 16) by lia.
  Z.to_euclidean_division_equations. lia.
Qed.
Lemma ioff_pos i : 0 <= IOFF i.
Proof. unfold IOFF, DINODE_SZ. change IPB with 16. Z.to_euclidean_division_equations. lia. Qed.

Definition kind (j : nat) : Z := if decide (j = 0%nat) then T_DIR else T_FILE.
(** The inodes on the image: types, sizes and block addresses. *)
Definition disk_ok (v : Z -> list Z) (A : list (list Z)) (sz : nat -> Z) : Prop := forall j a, A !! j = Some a ->
  let i := Z.of_nat j + 1 in load_dinode (IOFF i) (v (IBLOCK i mk_sb)) inode0 = mkino (kind j) (sz j) a.

Lemma disk_low v v' A sz : (length A <= 207)%nat -> (forall n, 0 <= n < 46 -> v' n = v n) -> disk_ok v A sz -> disk_ok v' A sz.
Proof.
  intros Hl Hv D j a Ha i. pose proof (lookup_lt_Some _ _ _ Ha). pose proof (iblock_range i ltac:(unfold i, inum_ok; lia)).
  rewrite Hv by (consts; lia). by apply D.
Qed.

Lemma disk_put v A sz sz' j a : disk_ok v A sz -> (length A <= 207)%nat -> (j <= length A)%nat -> (j < 207)%nat ->
  let i := Z.of_nat j + 1 in let x := mkino (kind j) (sz' j) a in inode_ok x ->
  (length (v (IBLOCK i mk_sb)) = Z.to_nat BSIZE) -> (forall j', j' <> j -> sz' j' = sz j') ->
  let v' := vset (IBLOCK i mk_sb) (store_dinode (IOFF i) x (v (IBLOCK i mk_sb))) v in
  forall j' a', (j' = j -> a' = a) -> (j' <> j -> A !! j' = Some a') -> let i' := Z.of_nat j' + 1 in
  load_dinode (IOFF i') (v' (IBLOCK i' mk_sb)) inode0 = mkino (kind j') (sz' j') a'.
Proof.
  intros D Hl Hj Hj2 i x Hx Hlen Hsz v' j' a' E1 E2 i'. assert (Hf : fits (IOFF i) 64 (v (IBLOCK i mk_sb))) by (apply ioff_fits; [lia|done]).
  unfold v', vset. destruct (decide (j' = j)) as [->|Hne].
  - rewrite E1, Z.eqb_refl by done. by apply load_mkino.
  - rewrite Hsz by done. rewrite <- (D j' a' (E2 Hne)). fold i'. destruct (Z.eqb_spec (IBLOCK i' mk_sb) (IBLOCK i mk_sb)) as [E|]; [|done].
    rewrite E. apply load_store_ne; [done|apply Hx|apply ioff_pos|]. apply ioff_apart; [done|]. unfold i, i'. lia.
Qed.

(** The blocks of the files lie past the metadata. *)
Lemma files_low v v' A C fb : files_ok v A C fb -> (forall n, nmeta <= n < FSSIZE -> v' n = v n) ->
  (forall n, 0 <= n < FSSIZE -> length (v' n) = Z.to_nat BSIZE /\ byte_list (v' n)) -> files_ok v' A C fb.
Proof.
  intros [[S1 S2 S3 S4 S5 S6] F2 F3 F4] Hv Hb.
  assert (Hcell : forall c, cell_ok c -> cell v' A c = cell v A c).
  { intros [j [m|]] Hc; [|done]. rewrite !(cell_blk _ _ j m), (cell_ind v' v). destruct (m <? NDIRECT); [done|].
    destruct (Z.eqb_spec (cell v A (j, None)) 0) as [|Hn]; [done|]. rewrite Hv; [done|]. pose proof (S5 (j, None) ltac:(done) Hn). lia. }
  split; [split|..]; try done.
  - intros n Hn. rewrite Hv by lia. auto.
  - intros c Hc. rewrite Hcell by done. auto.
  - intros c c' Hc Hc'. rewrite !Hcell by done. auto.
  - intros j off Ho. rewrite <- F2 by done. unfold file_byte, fbyte. cbn [kv view].
    assert (Hob : 0 <= off / BSIZE < MAXFILE) by (split; [apply Z.div_pos; [lia|done]|apply Z.div_lt_upper_bound; [done|lia]]).
    change (blk_of (view v') _ _) with (cell v' A (j, Some (off / BSIZE))).
    change (blk_of (view v) _ _) with (cell v A (j, Some (off / BSIZE))). rewrite Hcell by done.
    destruct (Z.eqb_spec (cell v A (j, Some (off / BSIZE))) 0) as [|Hn]; [done|]. rewrite Hv; [done|].
    pose proof (S5 (j, Some _) Hob Hn). lia.
  - intros j. destruct (F3 j) as [M1 M2]. split; [|by rewrite Hcell]. intros bn Hbn. rewrite Hcell by done. auto.
Qed.

Lemma addrs_range v A fb j a : store_ok v A fb -> A !! j = Some a -> Forall (fun b => 0 <= b < 2 ^ 32) a.
Proof.
  intros St Ha. pose proof (Forall_lookup_1 _ _ _ _ (so_len _ _ _ St) Ha) as Hl. cbn beta in Hl.
  apply Forall_lookup_2. intros i b Hb. pose proof (lookup_lt_Some _ _ _ Hb) as Hi.
  pose proof (slot_cell_eq v A j a (Z.of_nat i) Ha ltac:(consts; lia)) as E. rewrite slot_mkino, Nat2Z.id, Hb in E. cbn in E.
  destruct (Z.eq_dec b 0) as [->|Hn]; [lia|]. rewrite <- E in Hn. pose proof (so_fb _ _ _ St).
  assert (Hok : cell_ok (slot_cell j (Z.of_nat i))) by (unfold slot_cell, cell_ok; cbn; zcases; consts; lia).
  pose proof (so_range _ _ _ St _ Hok Hn). rewrite E in *. consts. lia.
Qed.

Lemma mkino_ok v A fb j a n : store_ok v A fb -> A !! j = Some a -> 0 <= n <= MAXFILE * BSIZE -> inode_ok (mkino (kind j) n a).
Proof.
  intros St Ha Hn. pose proof (Forall_lookup_1 _ _ _ _ (so_len _ _ _ St) Ha).
  split; cbn; try done; [unfold kind; case_decide; by vm_compute|consts; lia|by eapply addrs_range].
Qed.

(** The blocks all files take. *)
Definition total (C : list (list Z)) : Z := foldr (fun c n => need (Z.of_nat (length c)) + n) 0 C.
Lemma total_cons c C : total (c :: C) = need (Z.of_nat (length c)) + total C. Proof. done. Qed.
Lemma total_app C c : total (C ++ [c]) = total C + need (Z.of_nat (length c)).
Proof. induction C as [|d C IH]; [unfold total; simpl; lia|]. rewrite <- app_comm_cons, !total_cons, IH. lia. Qed.
Lemma total_insert C j c c' : C !! j = Some c ->
  total (<[j := c']> C) = total C + need (Z.of_nat (length c')) - need (Z.of_nat (length c)).
Proof.
  revert j. induction C as [|d C IH]; intros [|j] H; try done.
  - injection H as ->. change (<[0%nat := c']> (c :: C)) with (c' :: C). rewrite !total_cons. lia.
  - change (<[S j := c']> (d :: C)) with (d :: <[j := c']> C). rewrite !total_cons, (IH j) by done. lia.
Qed.

(** What is on the image before the inodes: the superblock, and no log. *)
Definition image0 : Z -> list Z := vset 1 (put_arr 0 (sb_fields mk_sb) zero_blk) (fun _ => zero_blk).

(** The state of mkfs between two calls. *)
Record fsrep (s : mkst) (v : Z -> list Z) (A C : list (list Z)) : Prop := {
  fr_holds : holds s v (nmeta + total C) (Z.of_nat (length C) + 1);
  fr_files : files_ok v A C (nmeta + total C);
  fr_disk : disk_ok v A (clen C);
  fr_count : (length C <= 207)%nat;
  fr_low : forall n, 0 <= n < 33 -> v n = image0 n;
  fr_max : Forall (fun c => Z.of_nat (length c) <= MAXFILE * BSIZE) C
}.

Lemma rinode_spec (Q : inode -> mkst -> Prop) s v A C j a : fsrep s v A C -> A !! j = Some a ->
  Q (mkino (kind j) (clen C j) a) s -> wp (rinode (Z.of_nat j + 1)) Q s.
Proof.
  intros [H1 H2 H3 H4 H5 H6] Ha HQ. unfold rinode. wp_simp. pose proof (lookup_lt_Some _ _ _ Ha) as Hj.
  rewrite (fo_len _ _ _ _ H2) in Hj. pose proof (iblock_range (Z.of_nat j + 1) ltac:(unfold inum_ok; lia)).
  apply (wp_rsect _ s v _ _ _ H1); [consts; lia|]. wp_simp. by rewrite (H3 j a Ha).
Qed.

Lemma winode_spec (Q : unit -> mkst -> Prop) s v fb ni i x : holds s v fb ni -> inum_ok i ->
  (forall s', holds s' (vset (IBLOCK i mk_sb) (store_dinode (IOFF i) x (v (IBLOCK i mk_sb))) v) fb ni -> Q tt s') ->
  wp (winode i x) Q s.
Proof.
  intros H Hi HQ. unfold winode. wp_simp. pose proof (iblock_range i Hi).
  apply (wp_rsect _ s v _ _ _ H); [consts; lia|]. wp_simp. by apply (wp_wsect _ s v fb ni).
Qed.

(** Writing an inode: the files are untouched. *)
Lemma files_winode v A C fb i x : files_ok v A C fb -> inum_ok i -> length (i_addrs x) = 13%nat ->
  let v' := vset (IBLOCK i mk_sb) (store_dinode (IOFF i) x (v (IBLOCK i mk_sb))) v in
  files_ok v' A C fb /\ forall n, 0 <= n < 33 -> v' n = v n.
Proof.
  intros F Hi Hx v'. pose proof (iblock_range i Hi) as Hr. pose proof (so_blk _ _ _ (fo_store _ _ _ _ F)) as Hb.
  assert (Hne : forall n, n <> IBLOCK i mk_sb -> v' n = v n) by (intros n Hn; unfold v', vset; by rewrite (proj2 (Z.eqb_neq _ _) Hn)).
  split; [|intros n Hn; apply Hne; lia]. apply (files_low v); [done|intros n Hn; apply Hne; consts; lia|].
  intros n Hn. destruct (Hb (IBLOCK i mk_sb) ltac:(consts; lia)) as [L1 L2].
  destruct (store_dinode_ok (IOFF i) x (v (IBLOCK i mk_sb))) as [L3 L4]; [apply ioff_fits; [apply Hi|done]|done|done|].
  apply vset_blk; [auto|congruence|done].
Qed.

Lemma len_of v A C fb j a : files_ok v A C fb -> A !! j = Some a -> length a = 13%nat.
Proof. intros F Ha. by apply (Forall_lookup_1 _ _ _ _ (so_len _ _ _ (fo_store _ _ _ _ F)) Ha). Qed.

(** iappend(): the file grows by [p], every other file is as it was. *)
Lemma iappend_spec (Q : unit -> mkst -> Prop) s v A C j c p : fsrep s v A C -> C !! j = Some c -> byte_list p ->
  let n' := Z.of_nat (length c) + Z.of_nat (length p) in
  n' <= MAXFILE * BSIZE -> nmeta + total (<[j := c ++ p]> C) <= FSSIZE ->
  (forall s' v' A', fsrep s' v' A' (<[j := c ++ p]> C) -> Q tt s') -> wp (iappend (Z.of_nat j + 1) p) Q s.
Proof.
  intros R Hc Hp n' Hmax Hroom HQ. pose proof R as [H1 H2 H3 H4 H5 H6]. pose proof (lookup_lt_Some _ _ _ Hc) as Hj.
  destruct (lookup_lt_is_Some_2 A j) as [a Ha]; [by rewrite (fo_len _ _ _ _ H2)|].
  unfold iappend. wp_simp. apply (rinode_spec _ s v A C j a R Ha). wp_simp. cbn [i_size mkino].
  assert (El : clen C j = Z.of_nat (length c)) by (unfold clen, content; by rewrite Hc). rewrite El.
  rewrite (total_insert _ _ c), length_app, Nat2Z.inj_add in Hroom by done. fold n' in Hroom.
  eapply wp_mono; [apply (iappend_loop_spec _ s v A C _ _ j a c (kind j) _ p H1 H2 Ha Hc Hp); [lia|done|fold n'; lia]|].
  intros r s1 (v1 & a1 & -> & Hs1 & F1 & L1). wp_simp. set (A1 := <[j := a1]> A) in *. set (C1 := <[j := c ++ p]> C) in *.
  change (set_i_size _ _) with (mkino (kind j) n' a1).
  assert (Ea1 : A1 !! j = Some a1) by (apply list_lookup_insert_eq; by eapply lookup_lt_Some).
  assert (Et : nmeta + total C + need n' - need (Z.of_nat (length c)) = nmeta + total C1).
  { unfold C1. rewrite (total_insert _ _ c), length_app, Nat2Z.inj_add by done. fold n'. lia. }
  fold n' in Hs1, F1. rewrite Et in Hs1, F1. assert (Hi : inum_ok (Z.of_nat j + 1)) by (unfold inum_ok; lia).
  apply (winode_spec _ s1 v1 _ _ _ _ Hs1 Hi). intros s2 Hs2.
  destruct (files_winode v1 A1 C1 _ _ (mkino (kind j) n' a1) F1 Hi) as [F2 L2]; [by apply (len_of _ _ _ _ _ _ F1 Ea1)|].
  assert (Ec1 : clen C1 j = n').
  { unfold C1. rewrite (clen_insert _ _ c), decide_True by done. unfold n'. rewrite length_app. lia. }
  eapply (HQ s2 _ A1). split.
  - replace (length C1) with (length C) by (unfold C1; by rewrite length_insert). exact Hs2.
  - exact F2.
  - intros j' a' Ha'. rewrite <- Ec1. assert (HlA : length A = length C) by apply H2.
    apply (disk_put v1 A (clen C) (clen C1) j a1); try lia.
    + apply (disk_low v); [lia|intros n Hn; apply L1; consts; lia|done].
    + rewrite Ec1. eapply mkino_ok; [apply F1|done|]. unfold n' in *. lia.
    + pose proof (iblock_range _ Hi). apply (so_blk _ _ _ (fo_store _ _ _ _ F1)). consts. lia.
    + intros j2 Hj2. unfold C1. rewrite (clen_insert _ _ c) by done. by rewrite decide_False.
    + intros ->. congruence.
    + intros Hne. unfold A1 in Ha'. by rewrite list_lookup_insert_ne in Ha'.
  - unfold C1. by rewrite length_insert.
  - intros n Hn. rewrite L2, L1, H5 by (consts; lia). done.
  - apply Forall_insert; [done|]. rewrite length_app. unfold n' in *. lia.
Qed.

(** * New inodes *)

Definition no_addrs : list Z := replicate 13 0.

Lemma slot_none t n i : slot (mkino t n no_addrs) i = 0.
Proof.
  rewrite slot_mkino. destruct (no_addrs !! Z.to_nat i) as [b|] eqn:E; [|done]. by apply lookup_replicate in E as [-> _].
Qed.
Lemma slot_nil t n i : slot (mkino t n []) i = 0. Proof. done. Qed.

Lemma cell_app v A c : cell v (A ++ [no_addrs]) c = cell v A c.
Proof.
  destruct c as [j o]. unfold cell. cbn [fst snd]. destruct (decide (j < length A)%nat); [by rewrite lookup_app_l|].
  rewrite lookup_app_r, (lookup_ge_None_2 A j) by lia. destruct (j - length A)%nat; [|done]. cbn [lookup list_lookup from_option id].
  unfold blk_of, ind. destruct o; by rewrite !slot_none, !slot_nil.
Qed.
Lemma content_app C j : content (C ++ [[]]) j = content C j.
Proof.
  unfold content. destruct (decide (j < length C)%nat); [by rewrite lookup_app_l|].
  rewrite lookup_app_r, (lookup_ge_None_2 C j) by lia. by destruct (j - length C)%nat.
Qed.

Lemma files_app v A C fb : files_ok v A C fb -> files_ok v (A ++ [no_addrs]) (C ++ [[]]) fb.
Proof.
  intros [[S1 S2 S3 S4 S5 S6] F2 F3 F4]. split; [split|..]; try done.
  - by apply Forall_app_2; [|constructor].
  - intros c Hc. rewrite cell_app. auto.
  - intros c c'. rewrite !cell_app. auto.
  - intros j off Ho. rewrite content_app, <- F2 by done. unfold file_byte, fbyte.
    change (blk_of (view v) (mkino 0 0 (default [] ((A ++ [no_addrs]) !! j))) (off / BSIZE))
      with (cell v (A ++ [no_addrs]) (j, Some (off / BSIZE))). by rewrite cell_app.
  - intros j. unfold clen. rewrite content_app. setoid_rewrite cell_app. apply F3.
  - rewrite !length_app, F4. done.
Qed.

Lemma kind_short j : s16 (kind j) = kind j. Proof. unfold kind. by case_decide. Qed.

(** ialloc(): the next inode number; an empty file of the given type. *)
Lemma ialloc_spec (Q : Z -> mkst -> Prop) s v A C : fsrep s v A C -> (length C < 207)%nat ->
  (forall s' v', fsrep s' v' (A ++ [no_addrs]) (C ++ [[]]) -> Q (Z.of_nat (length C) + 1) s') ->
  wp (ialloc (kind (length C))) Q s.
Proof.
  intros [H1 H2 H3 H4 H5 H6] Hl HQ. unfold ialloc. wp_simp. rewrite (h_inode _ _ _ _ H1), u32_small by lia. wp_simp.
  rewrite kind_short. set (j := length C). set (i := Z.of_nat j + 1). change (set_i_nlink _ _) with (mkino (kind j) 0 no_addrs).
  assert (Hs1 : holds (set_mk_inode (i + 1) s) v (nmeta + total C) (i + 1)) by (by destruct H1).
  assert (Hi : inum_ok i) by (unfold inum_ok, i; lia). apply (winode_spec _ _ v _ _ _ _ Hs1 Hi). intros s2 Hs2. wp_simp.
  destruct (files_winode v _ _ _ _ (mkino (kind j) 0 no_addrs) (files_app _ _ _ _ H2) Hi eq_refl) as [F2 L2].
  assert (Ec : forall j', clen (C ++ [[]]) j' = clen C j') by (intros j'; unfold clen; by rewrite content_app).
  assert (Ej : clen C j = 0) by (unfold clen, content, j; by rewrite lookup_ge_None_2 by lia).
  assert (HlA : length A = j) by apply H2.
  assert (Et : total (C ++ [[]]) = total C) by (rewrite total_app; change (need _) with 0; lia).
  eapply HQ. split.
  - rewrite Et, length_app, Nat2Z.inj_add. exact Hs2.
  - rewrite Et. exact F2.
  - intros j' a' Ha'. rewrite <- Ej, <- (Ec j). apply (disk_put v A (clen C) (clen (C ++ [[]])) j no_addrs); try done; try lia.
    + rewrite Ec, Ej. eapply (mkino_ok v (A ++ [no_addrs])); [apply (files_app _ _ _ _ H2)| |consts; lia].
      rewrite lookup_app_r, HlA, Nat.sub_diag by lia. done.
    + pose proof (iblock_range _ Hi). apply (so_blk _ _ _ (fo_store _ _ _ _ H2)). fold i. consts. lia.
    + intros ->. rewrite lookup_app_r, HlA, Nat.sub_diag in Ha' by lia. by injection Ha' as <-.
    + intros Hne. apply lookup_app_Some in Ha' as [?|[Hge Hx]]; [done|]. apply list_lookup_singleton_Some in Hx as [? _]. lia.
  - rewrite length_app. simpl. lia.
  - intros n Hn. by rewrite L2, H5.
  - apply Forall_app_2; [done|]. constructor; [done|constructor].
Qed.
