(* ===== verification/MkfsProps.v ===== *)
(** The image mkfs leaves: the kernel finds a well-formed file system on it,
    and reads from every inode what was put there. *)
From S2P Require Import Prelude Mem Str Bytes Blocks Bio BioSpec BCache Log LogSpec LogProps UserMem Fs FsSpec FsFile FsIO Mkfs MkfsSpec.

(** * What should be on the image *)

Definition file_name (f : hostfile) : list Z := strip_underscore (strip_dir (h_arg f)).
Definition file_data (f : hostfile) : list Z := concat (default [] (h_reads f)).

(** The entries of the root directory from inode [i] on. *)
Fixpoint entries (i : Z) (fs : list hostfile) : list Z :=
  match fs with
  | [] => []
  | f :: fs => dirent_bytes i (file_name f) ++ entries (i + 1) fs
  end.
Definition dots : list Z := dirent_bytes ROOTINO [46] ++ dirent_bytes ROOTINO [46; 46].
(** The contents of inodes 1, 2, ...: the root directory and the files. *)
Definition image_files (fs : list hostfile) : list (list Z) := (dots ++ entries 2 fs) :: (file_data <$> fs).

(** A file mkfs accepts. *)
Definition reads_ok (rs : list (list Z)) : Prop := Forall (fun r => (0 < length r)%nat /\ byte_list r) rs.
Record file_ok (f : hostfile) : Prop := {
  ok_slash : existsb (Z.eqb slash) (strip_dir (h_arg f)) = false;
  ok_name : Z.of_nat (length (file_name f)) <= DIRSIZ;
  ok_chars : byte_list (file_name f);
  ok_open : is_Some (h_reads f);
  ok_reads : reads_ok (default [] (h_reads f));
  ok_size : Z.of_nat (length (file_data f)) <= MAXFILE * BSIZE
}.

(** The command line fits: inode numbers below NINODES, blocks below FSSIZE. *)
Record mkfs_ok (fs : list hostfile) : Prop := {
  mo_files : Forall file_ok fs;
  mo_inodes : Z.of_nat (length fs) + 2 <= NINODES;
  mo_blocks : nmeta + total (image_files fs) <= FSSIZE
}.

(** * The loops of main() *)

Lemma need_pos n : 0 <= n -> 0 <= need n.
Proof.
  intros H. unfold need. assert (0 <= (n + BSIZE - 1) / BSIZE) by (apply Z.div_pos; [consts; lia|done]). zcases; lia.
Qed.
Lemma total_pos C : 0 <= total C.
Proof. induction C as [|c C IH]; [done|]. rewrite total_cons. pose proof (need_pos (Z.of_nat (length c)) ltac:(lia)). lia. Qed.
Lemma total_app2 C D : total (C ++ D) = total C + total D.
Proof. induction C as [|c C IH]; [done|]. rewrite <- app_comm_cons, !total_cons, IH. lia. Qed.

Lemma copy_reads_spec (Q : unit -> mkst -> Prop) s v A C j c rs : fsrep s v A C -> C !! j = Some c -> reads_ok rs ->
  Z.of_nat (length (c ++ concat rs)) <= MAXFILE * BSIZE -> nmeta + total (<[j := c ++ concat rs]> C) <= FSSIZE ->
  (forall s' v' A', fsrep s' v' A' (<[j := c ++ concat rs]> C) -> Q tt s') -> wp (copy_reads (Z.of_nat j + 1) rs) Q s.
Proof.
  revert s v A C c. induction rs as [|r rs IH]; intros s v A C c R Hc Hrs Hmax Hroom HQ; cbn [copy_reads concat] in *.
  - wp_simp. apply (HQ s v A). by rewrite app_nil_r, list_insert_id.
  - apply Forall_cons in Hrs as [[Hr1 Hr2] Hrs]. rewrite (proj2 (Z.ltb_lt _ _)) by lia. rewrite app_assoc in *. wp_simp.
    assert (Hlen : (length (c ++ r) <= length ((c ++ r) ++ concat rs))%nat) by (rewrite (length_app (c ++ r)); lia).
    rewrite (total_insert _ _ c) in Hroom by done.
    pose proof (need_mono (Z.of_nat (length (c ++ r))) (Z.of_nat (length ((c ++ r) ++ concat rs))) ltac:(lia)).
    apply (iappend_spec _ s v A C j c r R Hc Hr2).
    + rewrite length_app in Hlen. lia.
    + rewrite (total_insert _ _ c) by done. lia.
    + intros s1 v1 A1 R1. apply (IH s1 v1 A1 (<[j := c ++ r]> C) (c ++ r)); try done.
      * apply list_lookup_insert_eq. by eapply lookup_lt_Some.
      * rewrite list_insert_insert_eq, (total_insert _ _ c) by done. lia.
      * intros s2 v2 A2. rewrite list_insert_insert_eq. apply HQ.
Qed.

Lemma dirent_len i name : Z.of_nat (length name) <= DIRSIZ -> length (dirent_bytes i name) = 16%nat.
Proof.
  intros H. unfold dirent_bytes. rewrite !length_app, length_le_encode, length_replicate. unfold DIRSIZ in *. lia.
Qed.
Lemma dirent_byte_list i name : byte_list name -> byte_list (dirent_bytes i name).
Proof.
  intros H. unfold dirent_bytes. apply Forall_app_2; [apply le_encode_bytes|]. apply Forall_app_2; [done|]. by apply Forall_replicate.
Qed.

Lemma add_file_spec (Q : unit -> mkst -> Prop) s v A root D f : fsrep s v A (root :: D) -> file_ok f -> (length D < 206)%nat ->
  let i := Z.of_nat (length D) + 2 in let root' := root ++ dirent_bytes i (file_name f) in
  Z.of_nat (length root') <= MAXFILE * BSIZE -> nmeta + total (root' :: D ++ [file_data f]) <= FSSIZE ->
  (forall s' v' A', fsrep s' v' A' (root' :: D ++ [file_data f]) -> Q tt s') -> wp (add_file ROOTINO f) Q s.
Proof.
  intros R [O1 O2 O3 [rs O4] O5 O6] Hl i root' Hmax Hroom HQ. unfold add_file. rewrite O1, O4. fold (file_name f).
  rewrite (proj2 (Z.leb_le _ _) O2). cbn [negb]. unfold file_data in *. rewrite O4 in *. cbn [from_option id] in *. wp_simp.
  change T_FILE with (kind (length (root :: D))). apply (ialloc_spec _ s v A _ R); [simpl; lia|]. intros s1 v1 R1. wp_simp.
  replace (Z.of_nat (length (root :: D)) + 1) with i by (unfold i; simpl; lia).
  pose proof (need_pos (Z.of_nat (length (concat rs))) ltac:(lia)) as Hn.
  rewrite total_cons, total_app in Hroom. change ROOTINO with (Z.of_nat 0 + 1).
  apply (iappend_spec _ s1 v1 _ _ 0%nat root _ R1 eq_refl); [by apply dirent_byte_list|unfold root' in Hmax; rewrite length_app in Hmax; lia|..].
  { change (<[0%nat := _]> _) with (root' :: D ++ [[]]). rewrite total_cons, total_app. change (need (Z.of_nat (length []))) with 0. lia. }
  intros s2 v2 A2 R2. change (<[0%nat := _]> _) with (root' :: D ++ [[]]) in R2.
  assert (E : forall c, <[S (length D) := c]> (root' :: D ++ [[]]) = root' :: D ++ [c]).
  { intros c. change (<[S (length D) := c]> (root' :: D ++ [[]])) with (root' :: <[length D := c]> (D ++ [[]])). f_equal. rewrite insert_app_r_alt, Nat.sub_diag by lia. done. }
  replace i with (Z.of_nat (S (length D)) + 1) by (unfold i; lia).
  apply (copy_reads_spec _ s2 v2 A2 _ (S (length D)) [] rs R2); rewrite ?app_nil_l, ?E; try done.
  - change ((D ++ [[]]) !! length D = Some ([] : list Z)). rewrite lookup_app_r, Nat.sub_diag by lia. done.
  - rewrite total_cons, total_app. lia.
Qed.

Lemma entries_len fs i : Forall file_ok fs -> length (entries i fs) = (16 * length fs)%nat.
Proof.
  revert i. induction fs as [|f fs IH]; intros i H; [done|]. apply Forall_cons in H as [Hf H]. cbn [entries length].
  rewrite length_app, IH, dirent_len by (done || apply Hf). lia.
Qed.

Lemma add_files_spec (Q : unit -> mkst -> Prop) fs s v A root D : fsrep s v A (root :: D) -> Forall file_ok fs ->
  (length D + length fs <= 206)%nat -> let C' := (root ++ entries (Z.of_nat (length D) + 2) fs) :: D ++ (file_data <$> fs) in
  Z.of_nat (length root) + 16 * Z.of_nat (length fs) <= MAXFILE * BSIZE -> nmeta + total C' <= FSSIZE ->
  (forall s' v' A', fsrep s' v' A' C' -> Q tt s') -> wp (add_files ROOTINO fs) Q s.
Proof.
  revert s v A root D. induction fs as [|f fs IH]; intros s v A root D R Hf Hl C' Hmax Hroom HQ; unfold C' in *; clear C';
    cbn [add_files entries length fmap list_fmap] in *.
  - wp_simp. apply (HQ s v A). by rewrite !app_nil_r.
  - apply Forall_cons in Hf as [H1 Hf]. wp_simp. set (e := dirent_bytes (Z.of_nat (length D) + 2) (file_name f)) in *.
    assert (He : length e = 16%nat) by (apply dirent_len, H1). set (i' := Z.of_nat (length D) + 2 + 1) in *.
    rewrite app_assoc in *. change (file_data f :: (file_data <$> fs)) with ([file_data f] ++ (file_data <$> fs)) in *.
    rewrite (app_assoc D) in *. rewrite total_cons, total_app2 in Hroom. pose proof (total_pos (file_data <$> fs)).
    pose proof (need_mono (Z.of_nat (length (root ++ e))) (Z.of_nat (length ((root ++ e) ++ entries i' fs)))
      ltac:(rewrite (length_app (root ++ e)); lia)).
    apply (add_file_spec _ s v A root D f R H1); [lia|fold e; rewrite length_app; lia|fold e; rewrite total_cons; lia|].
    fold e. intros s1 v1 A1 R1. assert (Ei : Z.of_nat (length (D ++ [file_data f])) + 2 = i') by (rewrite length_app; cbn [length]; lia).
    apply (IH s1 v1 A1 _ _ R1 Hf).
    + rewrite length_app. cbn [length]. lia.
    + rewrite length_app. lia.
    + rewrite Ei, total_cons, total_app2. lia.
    + rewrite Ei. apply HQ.
Qed.

(** * The ends of main() *)

Lemma zero_image_spec (Q : unit -> mkst -> Prop) n i s : (forall s', mk_block s' = mk_block s -> mk_inode s' = mk_inode s ->
    (forall m, i <= m < i + Z.of_nat n -> mk_img s' !! m = Some zero_blk) ->
    (forall m, m < i -> mk_img s' !! m = mk_img s !! m) -> Q tt s') -> wp (zero_image n i) Q s.
Proof.
  revert i s. induction n as [|n IH]; intros i s HQ; cbn [zero_image].
  - wp_simp. apply HQ; try done. lia.
  - unfold wsect. wp_simp. apply IH. intros s' E1 E2 H1 H2. apply HQ; try done.
    + intros m Hm. destruct (Z.eq_dec m i) as [->|]; [|apply H1; lia]. rewrite H2 by lia. cbn. apply lookup_insert_eq.
    + intros m Hm. rewrite H2 by lia. cbn. rewrite lookup_insert_ne by lia. done.
Qed.

Lemma image0_blk n : length (image0 n) = Z.to_nat BSIZE /\ byte_list (image0 n).
Proof.
  apply vset_blk; [apply zero_blk_ok| |apply put_arr_bytes, zero_blk_ok].
  rewrite length_put_arr; [apply zero_blk_ok|]. split; [done|]. rewrite (proj1 zero_blk_ok). by vm_compute.
Qed.

Lemma files_none : files_ok image0 [] [] nmeta.
Proof.
  assert (Hc : forall v c, cell_ok c -> cell v [] c = 0).
  { intros v [j [bn|]] _; [|done]. rewrite cell_blk. change (cell v [] (j, None)) with 0. by destruct (bn <? NDIRECT). }
  split; [split|..]; try done.
  - intros n _. apply image0_blk.
  - intros n Hn. unfold image0, vset. rewrite (proj2 (Z.eqb_neq _ _)) by (consts; lia). done.
  - intros c Hok. by rewrite Hc.
  - intros c c' Hok _. by rewrite Hc.
  - intros j off Ho. unfold file_byte, fbyte.
    change (blk_of (view image0) _ _) with (cell image0 [] (j, Some (off / BSIZE))). rewrite Hc; [done|].
    split; [apply Z.div_pos; [lia|done]|apply Z.div_lt_upper_bound; [done|lia]].
  - intros j. rewrite Hc by done. change (clen [] j) with 0. split; [|consts; lia]. intros bn Hbn. rewrite Hc by done. consts. lia.
Qed.

(** The image with the superblock and nothing else. *)
Lemma fsrep_start s : mk_block s = nmeta -> mk_inode s = 1 -> (forall n, 0 <= n < FSSIZE -> mk_img s !! n = Some (image0 n)) ->
  fsrep s image0 [] [].
Proof. intros H1 H2 H3. split; [by split|apply files_none|done|simpl; lia|done|done]. Qed.

(** The size the root directory gets in the end. *)
Definition disk_size (C : list (list Z)) (j : nat) : Z :=
  if decide (j = 0%nat) then (clen C 0 / BSIZE + 1) * BSIZE else clen C j.

Lemma fix_root_spec (Q : unit -> mkst -> Prop) s v A C : fsrep s v A C -> (0 < length C)%nat -> clen C 0 < MAXFILE * BSIZE ->
  (forall s' v', holds s' v' (nmeta + total C) (Z.of_nat (length C) + 1) -> files_ok v' A C (nmeta + total C) ->
     disk_ok v' A (disk_size C) -> (forall n, 0 <= n < 33 -> v' n = image0 n) -> Q tt s') -> wp (fix_root ROOTINO) Q s.
Proof.
  intros R Hl Hmax HQ. pose proof R as [H1 H2 H3 H4 H5 H6]. pose proof (fo_len _ _ _ _ H2) as HlA.
  destruct (lookup_lt_is_Some_2 A 0) as [a Ha]; [by rewrite HlA|]. unfold fix_root. wp_simp.
  change ROOTINO with (Z.of_nat 0 + 1). apply (rinode_spec _ s v A C 0 a R Ha). cbn [i_size mkino].
  assert (Hd : 0 <= clen C 0 / BSIZE < MAXFILE).
  { split; [apply Z.div_pos; [unfold clen; lia|done]|apply Z.div_lt_upper_bound; [done|lia]]. }
  rewrite (u32_small (clen C 0 / BSIZE + 1)), u32_small by (consts; lia). change ((clen C 0 / BSIZE + 1) * BSIZE) with (disk_size C 0).
  change (set_i_size _ _) with (mkino (kind 0) (disk_size C 0) a).
  assert (Hi : inum_ok (Z.of_nat 0 + 1)) by done. apply (winode_spec _ s v _ _ _ _ H1 Hi). intros s1 Hs1.
  destruct (files_winode v A C _ _ (mkino (kind 0) (disk_size C 0) a) H2 Hi) as [F1 L1]; [by apply (len_of _ _ _ _ _ _ H2 Ha)|].
  apply (HQ s1 _ Hs1 F1); [|intros n Hn; by rewrite L1, H5]. intros j' a' Ha'.
  apply (disk_put v A (clen C) (disk_size C) 0 a); try done; try lia.
  - eapply mkino_ok; [apply H2|done|]. change (disk_size C 0) with ((clen C 0 / BSIZE + 1) * BSIZE). consts. lia.
  - pose proof (iblock_range _ Hi). apply (so_blk _ _ _ (fo_store _ _ _ _ H2)). consts. lia.
  - intros j Hj. unfold disk_size. by rewrite decide_False.
  - intros ->. congruence.
Qed.

Lemma balloc_bits_spec n i buf : 0 <= i -> i + Z.of_nat n <= BPB -> length buf = Z.to_nat BSIZE -> byte_list buf ->
  length (balloc_bits n i buf) = Z.to_nat BSIZE /\ byte_list (balloc_bits n i buf) /\
  forall b, 0 <= b -> bit_test (balloc_bits n i buf) b = ((i <=? b) && (b <? i + Z.of_nat n)) || bit_test buf b.
Proof.
  revert i buf. induction n as [|n IH]; intros i buf Hi Hn Hl Hb; cbn [balloc_bits].
  - split; [done|]. split; [done|]. intros b _. zcases; done.
  - assert (Hd : i / 8 < Z.of_nat (length buf)).
    { rewrite Hl. change BPB with 8192 in Hn. apply Z.div_lt_upper_bound; [done|]. change (Z.of_nat (Z.to_nat BSIZE)) with 1024. lia. }
    destruct (IH (i + 1) (bit_set buf i)) as (I1 & I2 & I3); [lia|lia|unfold bit_set; by rewrite length_insert|by apply bit_set_bytes|].
    split; [done|]. split; [done|]. intros b Hb0. rewrite I3, bit_test_set by done. destruct (bit_test buf b); [by rewrite !orb_true_r|].
    rewrite !orb_false_r. destruct (Z.eqb_spec i b), (Z.leb_spec i b), (Z.leb_spec (i + 1) b), (Z.ltb_spec b (i + 1 + Z.of_nat n)),
      (Z.ltb_spec b (i + Z.of_nat (S n))); try done; lia.
Qed.

(** The image once main() is done. *)
Record image_ok (fs : list hostfile) (t : mkst) (v : Z -> list Z) (A : list (list Z)) (fb : Z) : Prop := {
  im_sect : forall n, 0 <= n < FSSIZE -> mk_img t !! n = Some (v n);
  im_files : files_ok v A (image_files fs) fb;
  im_disk : disk_ok v A (disk_size (image_files fs));
  im_low : forall n, 0 <= n < 33 -> v n = image0 n;
  im_map : forall b, 0 <= b -> bit_test (v 46) b = (b <? fb);
  im_fb : fb = nmeta + total (image_files fs);
  im_count : (length A <= 207)%nat
}.

Lemma dots_len : length dots = 32%nat. Proof. done. Qed.
Lemma root_len fs : mkfs_ok fs -> clen (image_files fs) 0 = 32 + 16 * Z.of_nat (length fs).
Proof.
  intros [H _ _]. change (clen _ _) with (Z.of_nat (length (dots ++ entries 2 fs))).
  rewrite length_app, entries_len by done. rewrite dots_len. lia.
Qed.

Lemma mk_balloc_spec (Q : unit -> mkst -> Prop) s v A C fb ni : holds s v fb ni -> files_ok v A C fb -> disk_ok v A (disk_size C) ->
  (length A <= 207)%nat -> (forall s' v', holds s' v' fb ni -> files_ok v' A C fb -> disk_ok v' A (disk_size C) ->
    (forall b, 0 <= b -> bit_test (v' 46) b = (b <? fb)) -> (forall n, n < 46 -> v' n = v n) -> Q tt s') -> wp (balloc fb) Q s.
Proof.
  intros Hs F D HA HQ. pose proof (so_fb _ _ _ (fo_store _ _ _ _ F)) as Hfb. unfold balloc.
  rewrite (proj2 (Z.ltb_lt fb BPB)) by (change BPB with 8192; consts; lia). cbn [negb].
  destruct zero_blk_ok as [Z1 Z2]. destruct (balloc_bits_spec (Z.to_nat fb) 0 zero_blk) as (B1 & B2 & B3);
    [lia|change BPB with 8192; consts; lia|done|done|]. set (d := balloc_bits _ _ _) in *. change (sb_bmapstart mk_sb) with 46.
  apply (wp_wsect _ s v fb ni _ _ Hs). intros s' Hs'.
  assert (Hne : forall n, n <> 46 -> vset 46 d v n = v n) by (intros n Hn; unfold vset; by rewrite (proj2 (Z.eqb_neq _ _) Hn)).
  apply (HQ s' _ Hs').
  - apply (files_low v); [done|intros n Hn; apply Hne; consts; lia|]. intros n Hn. apply vset_blk; [|done|done].
    by apply (so_blk _ _ _ (fo_store _ _ _ _ F)).
  - apply (disk_low v); [done|intros n Hn; apply Hne; lia|done].
  - intros b Hb. unfold vset. rewrite Z.eqb_refl, B3 by done. assert (E : bit_test zero_blk b = false).
    { unfold bit_test. by rewrite byte_zero, Z.land_0_l. }
    rewrite E, orb_false_r, (proj2 (Z.leb_le 0 b) Hb), Z2Nat.id by (consts; lia). done.
  - intros n Hn. apply Hne. lia.
Qed.

Lemma dot_bytes : byte_list [46] /\ byte_list [46; 46].
Proof. split; repeat (apply Forall_cons; split; [lia|]); by apply Forall_nil. Qed.

Lemma main_spec (Q : unit -> mkst -> Prop) fs : mkfs_ok fs ->
  (forall t v A fb, image_ok fs t v A fb -> Q tt t) -> wp (mkfs_main fs) Q mk_start.
Proof.
  intros O HQ. pose proof O as [O1 O2 O3]. change NINODES with 200 in O2. pose proof (root_len fs O) as Hroot. unfold mkfs_main. wp_simp.
  apply zero_image_spec. intros s1 E1 E2 H1 _. wp_simp. unfold wsect at 1. wp_simp.
  set (s2 := set_mk_img _ s1). assert (R2 : fsrep s2 image0 [] []).
  { apply fsrep_start; [exact E1|exact E2|]. intros n Hn. unfold s2, image0, vset. cbn.
    destruct (Z.eqb_spec n 1) as [->|]; [by rewrite lookup_insert_eq|]. rewrite lookup_insert_ne by done. apply H1. lia. }
  change T_DIR with (kind (length ([] : list (list Z)))). apply (ialloc_spec _ s2 image0 [] [] R2); [simpl; lia|]. intros s3 v3 R3.
  change (negb (_ =? ROOTINO)) with false. wp_simp. change (Z.of_nat (length []) + 1) with (Z.of_nat 0 + 1).
  assert (Hd : forall c, (length c <= 32)%nat -> nmeta + total [c] <= FSSIZE).
  { intros c Hc. rewrite total_cons. pose proof (need_mono (Z.of_nat (length c)) 32 ltac:(lia)). change (need 32) with 1 in *.
    change (total []) with 0. consts. lia. }
  apply (iappend_spec _ s3 v3 _ _ 0%nat [] _ R3 eq_refl); [apply dirent_byte_list, dot_bytes|done|apply (Hd (dirent_bytes ROOTINO [46])); rewrite dirent_len by done; lia|].
  intros s4 v4 A4 R4. wp_simp. change (<[0%nat := _]> _) with [dirent_bytes (Z.of_nat 0 + 1) [46]] in R4.
  apply (iappend_spec _ s4 v4 _ _ 0%nat _ _ R4 eq_refl); [apply dirent_byte_list, dot_bytes|done|apply (Hd dots); rewrite dots_len; lia|].
  intros s5 v5 A5 R5. wp_simp. change (<[0%nat := _]> _) with [dots] in R5. change (Z.of_nat 0 + 1) with ROOTINO.
  apply (add_files_spec _ fs s5 v5 A5 dots [] R5 O1); [simpl; lia|rewrite dots_len; consts; lia|exact O3|].
  intros s6 v6 A6 R6. wp_simp. change (_ :: [] ++ _) with (image_files fs) in R6.
  apply (fix_root_spec _ s6 v6 A6 _ R6); [simpl; lia|rewrite Hroot; consts; lia|]. intros s7 v7 Hs7 F7 D7 L7. wp_simp.
  assert (HA : (length A6 <= 207)%nat).
  { rewrite (fo_len _ _ _ _ F7). unfold image_files. cbn [length]. rewrite length_fmap. lia. }
  rewrite (h_block _ _ _ _ Hs7). apply (mk_balloc_spec _ s7 v7 A6 _ _ _ Hs7 F7 D7 HA).
  intros s8 v8 Hs8 F8 D8 B8 L8. apply (HQ s8 v8 A6 (nmeta + total (image_files fs))). split; try done; [apply Hs8|].
  intros n Hn. rewrite L8, L7 by lia. done.
Qed.

(** * The image as the kernel sees it *)

Definition image (t : mkst) : Z -> list Z := dblock (mk_img t).

Lemma image_ok_image fs t v A fb : image_ok fs t v A fb -> image_ok fs t (image t) A fb.
Proof.
  intros [I1 I2 I3 I4 I5 I6 I7].
  assert (E : forall n, 0 <= n < FSSIZE -> image t n = v n) by (intros n Hn; unfold image, dblock; by rewrite I1).
  pose proof (so_blk _ _ _ (fo_store _ _ _ _ I2)) as Hb. split; try done.
  - intros n Hn. rewrite E by done. auto.
  - apply (files_low v); [done|intros n Hn; apply E; consts; lia|]. intros n Hn. rewrite E by done. auto.
  - apply (disk_low v); [done|intros n Hn; apply E; consts; lia|done].
  - intros n Hn. rewrite E by (consts; lia). auto.
  - intros b Hb0. rewrite E by done. auto.
Qed.

(** The superblock that readsb() finds in a block. *)
Definition sb_of (d : list Z) : superblock :=
  Superblock (getn 4 0 d) (getn 4 4 d) (getn 4 8 d) (getn 4 12 d) (getn 4 16 d) (getn 4 20 d) (getn 4 24 d) (getn 4 28 d).

Lemma sb_roundtrip : sb_of (image0 1) = mk_sb.
Proof. vm_compute. done. Qed.

(** The state of the block layer with the image on the disk. *)
Definition on_image (t : mkst) (room : Z) : kst := Kst (image t) ∅ ∅ room.

(** Inode [j + 1] of the image, in the in-memory inode [ip]. *)
Definition disk_inode (t : mkst) (j : nat) (ip : inode) : inode :=
  let i := Z.of_nat j + 1 in load_dinode (IOFF i) (image t (IBLOCK i mk_sb)) ip.

Lemma load_base o d ip : load_dinode o d ip = let y := load_dinode o d inode0 in
  Inode (i_dev ip) (i_inum ip) (i_ref ip) (i_lock ip) (i_valid ip) (i_type y) (i_major y) (i_minor y) (i_nlink y) (i_size y) (i_addrs y).
Proof. done. Qed.

Section kernel.
Context {S U P : Type} `{BK : Blocks S} `{UM : UserMem U P} (dev : Z) `{BO : !BlocksOk S dev} `{UO : !UserMemOk U P}.
(** The blocks past the log may be written through it. *)
Context (Hlog : forall n, 2 + nlog <= n < FSSIZE -> loggable n).

Context (fs : list hostfile) (t : mkst) (A : list (list Z)) (fb room : Z) (I : image_ok fs t (image t) A fb).
Let k := on_image t room.

Lemma img_loggable n : 33 <= n < FSSIZE -> loggable n.
Proof. apply Hlog. Qed.

Lemma img_fb : nmeta <= fb <= FSSIZE.
Proof. apply (so_fb _ _ _ (fo_store _ _ _ _ (im_files _ _ _ _ _ I))). Qed.

Lemma bblock_eq b : in_fs mk_sb b -> BBLOCK b mk_sb = 46 /\ b mod BPB = b.
Proof.
  unfold in_fs, BBLOCK. change (sb_size mk_sb) with 2000. change BPB with 8192. change (sb_bmapstart mk_sb) with 46. intros H.
  rewrite Z.div_small, Z.mod_small by lia. done.
Qed.
Lemma img_used b : in_fs mk_sb b -> used mk_sb k b = (b <? fb).
Proof. intros H. unfold used. destruct (bblock_eq b H) as [-> ->]. apply (im_map _ _ _ _ _ I). apply H. Qed.
Lemma img_bitmap n : bitmap_block mk_sb n <-> n = 46.
Proof.
  split; [intros (b & Hb & ->); by apply bblock_eq|]. intros ->. exists 0. split; [by vm_compute|done].
Qed.

Lemma img_wf : fs_wf dev mk_sb k.
Proof.
  pose proof img_fb as Hfb. split; [done|..].
  - intros n Hn. by apply (so_blk _ _ _ (fo_store _ _ _ _ (im_files _ _ _ _ _ I))).
  - intros n ->%img_bitmap. assert (Hin : in_fs mk_sb 46) by (split; by vm_compute). split; [done|].
    rewrite img_used by done. split; [apply Z.ltb_lt; consts; lia|by apply img_loggable].
  - assert (Hin : in_fs mk_sb 0) by (split; by vm_compute). split; [done|]. rewrite img_used by done. apply Z.ltb_lt. consts. lia.
  - intros b Hb. rewrite img_used by done. intros Hge%Z.ltb_ge. apply img_loggable. destruct Hb as [_ Hb].
    change (sb_size mk_sb) with FSSIZE in Hb. consts. lia.
Qed.

Lemma img_good a : nmeta <= a < fb -> good dev mk_sb k a.
Proof.
  intros Ha. pose proof img_fb as Hfb. assert (Hin : in_fs mk_sb a) by (split; [|change (sb_size mk_sb) with FSSIZE]; consts; lia).
  split; [done|]. rewrite img_used by done. split; [apply Z.ltb_lt; lia|]. rewrite img_bitmap. split; [consts; lia|].
  apply img_loggable. consts. lia.
Qed.

Context (j : nat) (c : list Z) (Hc : image_files fs !! j = Some c).

Lemma img_addrs : exists a, A !! j = Some a.
Proof. apply lookup_lt_is_Some_2. rewrite (fo_len _ _ _ _ (im_files _ _ _ _ _ I)). by eapply lookup_lt_Some. Qed.

Lemma img_inode a ip : A !! j = Some a -> disk_inode t j ip =
  Inode (i_dev ip) (i_inum ip) (i_ref ip) (i_lock ip) (i_valid ip) (kind j) 0 0 1 (disk_size (image_files fs) j) a.
Proof. intros Ha. pose proof (im_disk _ _ _ _ _ I j a Ha) as E. cbv zeta in E. unfold disk_inode. by rewrite load_base, E. Qed.

Lemma img_size : Z.of_nat (length c) <= disk_size (image_files fs) j /\ (j <> 0%nat -> disk_size (image_files fs) j = Z.of_nat (length c)).
Proof.
  assert (E : clen (image_files fs) j = Z.of_nat (length c)) by (unfold clen, content; by rewrite Hc).
  unfold disk_size. case_decide as Ej; [|by rewrite E]. subst j. rewrite E. split; [|done].
  pose proof (Z.div_mod (Z.of_nat (length c)) BSIZE ltac:(done)). pose proof (Z.mod_pos_bound (Z.of_nat (length c)) BSIZE ltac:(done)). lia.
Qed.

(** The block map and the bytes of the file, in the terms of fs.c. *)
Lemma img_blk a ip bn : A !! j = Some a -> blk_of k (disk_inode t j ip) bn = cell (image t) A (j, Some bn).
Proof. intros Ha. rewrite (img_inode a) by done. by rewrite (cell_here _ _ _ _ Ha). Qed.
Lemma img_ind a ip : A !! j = Some a -> ind (disk_inode t j ip) = cell (image t) A (j, None).
Proof. intros Ha. rewrite (img_inode a) by done. by rewrite (cell_here _ _ _ _ Ha). Qed.
Lemma img_byte ip off : 0 <= off < MAXFILE * BSIZE -> fbyte k (disk_inode t j ip) off = default 0 (c !! Z.to_nat off).
Proof.
  intros Ho. destruct img_addrs as [a Ha]. unfold fbyte. rewrite (img_blk a) by done.
  pose proof (fo_bytes _ _ _ _ (im_files _ _ _ _ _ I) j off Ho) as B. unfold content in B. rewrite Hc in B. exact B.
Qed.

Lemma img_bytes ip : Z.of_nat (length c) <= MAXFILE * BSIZE -> fbytes k (disk_inode t j ip) 0 (Z.of_nat (length c)) = c.
Proof.
  intros Hmax. apply list_eq. intros i. unfold fbytes. rewrite list_lookup_fmap, Nat2Z.id. destruct (decide (i < length c)%nat) as [Hi|Hi].
  - rewrite lookup_seq_lt by done. cbn [fmap option_fmap option_map]. rewrite img_byte by lia. rewrite Z.add_0_l, Nat2Z.id, Nat.add_0_l.
    by destruct (lookup_lt_is_Some_2 c i Hi) as [b ->].
  - rewrite lookup_seq_ge by lia. by rewrite lookup_ge_None_2 by lia.
Qed.

Lemma img_file ip : i_inum ip = Z.of_nat j + 1 -> let x := disk_inode t j ip in file_wf dev mk_sb k x /\ ino_home dev mk_sb k x.
Proof.
  intros Hi x. destruct img_addrs as [a Ha]. pose proof (im_files _ _ _ _ _ I) as [St _ _ HlA].
  pose proof (so_fb _ _ _ St) as Hfb. pose proof (lookup_lt_Some _ _ _ Ha) as Hj. pose proof (im_count _ _ _ _ _ I) as Hcnt.
  assert (Hn : i_inum x = Z.of_nat j + 1) by done. pose proof (iblock_range (Z.of_nat j + 1) ltac:(unfold inum_ok; lia)) as Hib.
  assert (Hr : forall o, cell_ok (j, o) -> cell (image t) A (j, o) <> 0 -> nmeta <= cell (image t) A (j, o) < fb) by (intros; by apply St).
  split; split.
  - unfold x. rewrite (img_inode a) by done. exact (Forall_lookup_1 _ _ _ _ (so_len _ _ _ St) Ha).
  - unfold x. rewrite (img_ind a) by done. intros H. apply img_good. by apply Hr.
  - intros bn Hbn. unfold x. rewrite (img_blk a), (img_ind a) by done. intros H. split; [apply img_good; by apply Hr|].
    intros E. by pose proof (so_inj _ _ _ St (j, Some bn) (j, None) Hbn ltac:(done) E H).
  - intros bn bn' H1 H2. unfold x. rewrite !(img_blk a) by done. intros E H.
    by injection (so_inj _ _ _ St (j, Some bn) (j, Some bn') H1 H2 E H).
  - rewrite Hn. assert (Hin : in_fs mk_sb (IBLOCK (Z.of_nat j + 1) mk_sb)) by (split; [|change (sb_size mk_sb) with FSSIZE]; consts; lia).
    split; [done|]. rewrite img_used by done. split; [apply Z.ltb_lt; consts; lia|]. rewrite img_bitmap. split; [lia|].
    apply img_loggable. consts. lia.
  - lia.
  - rewrite Hn. unfold x. rewrite (img_ind a) by done. intros E. rewrite <- E in Hib. pose proof (Hr None ltac:(done) ltac:(lia)). consts. lia.
  - intros bn Hbn. rewrite Hn. unfold x. rewrite (img_blk a) by done. intros E. rewrite <- E in Hib.
    pose proof (Hr (Some bn) Hbn ltac:(lia)). consts. lia.
Qed.
End kernel.

(** * The properties *)

Lemma main_image (Q : unit -> mkst -> Prop) fs : mkfs_ok fs ->
  (forall t A fb, image_ok fs t (image t) A fb -> Q tt t) -> wp (mkfs_main fs) Q mk_start.
Proof. intros O HQ. apply (main_spec Q fs O). intros t v A fb I%image_ok_image. eauto. Qed.

Lemma content_max fs j c : mkfs_ok fs -> image_files fs !! j = Some c -> Z.of_nat (length c) <= MAXFILE * BSIZE.
Proof.
  intros O Hc. pose proof (root_len fs O) as Hr. destruct O as [O1 O2 _]. change NINODES with 200 in O2. destruct j as [|j].
  - unfold clen, content in Hr. rewrite Hc in Hr. cbn [from_option id] in Hr. consts. lia.
  - change ((file_data <$> fs) !! j = Some c) in Hc. apply list_lookup_fmap_Some in Hc as (f & -> & Hf).
    apply (Forall_lookup_1 _ _ _ _ O1 Hf).
Qed.

(** With 62 files on the command line (or 126, or 190), the entries of the
    root directory fill its last block, and the size mkfs rounds the directory
    up to covers a block that it never allocated. *)
Theorem mkfs_root_hole fs : mkfs_ok fs -> Z.of_nat (length fs + 2) mod 64 = 0 -> wp (mkfs_main fs) (fun _ t => forall room ip,
  let x := disk_inode t 0 ip in ~ mapped (on_image t room) x 0 (i_size x)) mk_start.
Proof.
  intros O Hm. apply (main_image _ fs O). intros t A fb I room ip x Hmap. pose proof (root_len fs O) as Hr.
  pose proof (mo_inodes _ O) as Hn. change NINODES with 200 in Hn.
  destruct (img_addrs fs t A fb I 0 _ eq_refl) as [a Ha]. set (q := Z.of_nat (length fs + 2) / 64).
  assert (Hq : Z.of_nat (length fs + 2) = 64 * q) by (pose proof (Z.div_mod (Z.of_nat (length fs + 2)) 64 ltac:(done)); lia).
  assert (Hr' : clen (image_files fs) 0 = q * BSIZE) by (consts; lia).
  assert (Hs : i_size x = (q + 1) * BSIZE).
  { unfold x. rewrite (img_inode fs t A fb I 0 a ip Ha). cbn [i_size]. change (disk_size _ 0) with ((clen (image_files fs) 0 / BSIZE + 1) * BSIZE).
    by rewrite Hr', Z.div_mul. }
  apply (Hmap (q * BSIZE)); [rewrite Hs; consts; lia|]. rewrite Z.div_mul by done. unfold x. rewrite (img_blk fs t A fb room I 0 a) by done.
  apply (fo_map _ _ _ _ (im_files _ _ _ _ _ I) 0%nat); [consts; lia|]. lia.
Qed.
Section props.
Context {S U P : Type} `{BK : Blocks S} `{UM : UserMem U P} (dev : Z) `{BO : !BlocksOk S dev} `{UO : !UserMemOk U P}.
Context (Hlog : forall n, 2 + nlog <= n < FSSIZE -> loggable n).

(** C7: On any command line that fits the disk, mkfs terminates without dying
    and leaves a well-formed file system: the kernel's layout in the
    superblock, an empty log, a bitmap that marks exactly the metadata and the
    blocks given out, and for the root directory and every file an inode of the
    right type, link count and size whose blocks are allocated, are shared with
    no other place of any file, and hold exactly the file's bytes. *)
Theorem mkfs_image_correct fs : mkfs_ok fs -> wp (mkfs_main fs) (fun _ t => forall room, let k := on_image t room in
  sb_of (kv k 1) = mk_sb /\ (forall n, sb_logstart mk_sb <= n < sb_logstart mk_sb + sb_nlog mk_sb -> kv k n = zero_blk) /\
  fs_wf dev mk_sb k /\ (forall b, in_fs mk_sb b -> used mk_sb k b = (b <? nmeta + total (image_files fs))) /\
  (forall j c ip, image_files fs !! j = Some c -> i_inum ip = Z.of_nat j + 1 -> let x := disk_inode t j ip in
    i_type x = kind j /\ i_nlink x = 1 /\ i_size x = disk_size (image_files fs) j /\
    file_wf dev mk_sb k x /\ ino_home dev mk_sb k x /\ fbytes k x 0 (Z.of_nat (length c)) = c) /\
  (forall j j' bn bn' ip ip', (j < length (image_files fs))%nat -> (j' < length (image_files fs))%nat -> 0 <= bn < MAXFILE -> 0 <= bn' < MAXFILE ->
    blk_of k (disk_inode t j ip) bn = blk_of k (disk_inode t j' ip') bn' -> blk_of k (disk_inode t j ip) bn <> 0 -> j = j' /\ bn = bn')) mk_start.
Proof.
  intros O. apply (main_image _ fs O). intros t A fb I room k. pose proof (im_low _ _ _ _ _ I) as L. split_and!.
  - cbn [kv k on_image]. rewrite L by done. apply sb_roundtrip.
  - intros n Hn. change (2 <= n < 33) in Hn. cbn [kv k on_image]. rewrite L by lia. unfold image0, vset.
    by rewrite (proj2 (Z.eqb_neq n 1)) by lia.
  - by apply (img_wf dev Hlog fs t A fb).
  - intros b Hb. rewrite <- (im_fb _ _ _ _ _ I). by apply (img_used fs t A fb).
  - intros j c ip Hc Hi. destruct (img_addrs fs t A fb I j c Hc) as [a Ha].
    destruct (img_file dev Hlog fs t A fb room I j c Hc ip Hi) as [F1 F2]. pose proof (content_max fs j c O Hc).
    pose proof (img_inode fs t A fb I j a ip Ha) as E. split_and!; try done; [by rewrite E..|]. by apply (img_bytes fs t A fb).
  - intros j j' bn bn' ip ip' Hj Hj' Hb Hb'. destruct (lookup_lt_is_Some_2 _ j Hj) as [c Hc], (lookup_lt_is_Some_2 _ j' Hj') as [c' Hc'].
    destruct (img_addrs fs t A fb I j c Hc) as [a Ha], (img_addrs fs t A fb I j' c' Hc') as [a' Ha'].
    rewrite (img_blk fs t A fb room I j a), (img_blk fs t A fb room I j' a') by done. intros E Hn.
    by injection (so_inj _ _ _ (fo_store _ _ _ _ (im_files _ _ _ _ _ I)) (j, Some bn) (j', Some bn') Hb Hb' E Hn).
Qed.

(** readsb() loads the superblock mkfs wrote. *)
Lemma readsb_spec (Q : unit -> fsst S U -> Prop) s k : bk_rep (fs_blk s) k -> kheld k = ∅ -> kdirty k = ∅ ->
  (forall b, bk_rep b k -> Q tt (set_fs_sb (sb_of (kv k 1)) (set_fs_blk b s))) -> wp (readsb dev) Q s.
Proof.
  intros R Hh Hd HQ. unfold readsb. wp_simp. apply (wp_bread dev _ s k); [done|intros i m; by rewrite Hh, lookup_empty|rewrite Hh; by vm_compute; lia|].
  intros i b Hn R1. wp_simp. apply (wp_bdata dev _ _ (k_hold i 1 k) i 1); [done|apply lookup_insert_eq|]. cbn [kv k_hold]. wp_simp.
  apply (wp_brelse dev _ _ k i 1); [done|done|by rewrite Hd|]. intros b2 R2. by apply HQ.
Qed.

Lemma img_mapped fs t A fb room j c ip : image_ok fs t (image t) A fb -> image_files fs !! j = Some c -> Z.of_nat (length c) <= MAXFILE * BSIZE ->
  (j = 0%nat -> Z.of_nat (length c) mod BSIZE <> 0) -> let x := disk_inode t j ip in
  mapped (on_image t room) x 0 (i_size x) /\ Z.of_nat (length c) <= i_size x <= MAXFILE * BSIZE.
Proof.
  intros I Hc Hmax H0 x. destruct (img_addrs fs t A fb I j c Hc) as [a Ha]. destruct (img_size fs j c Hc) as [Z1 Z2].
  assert (Ex : i_size x = disk_size (image_files fs) j) by (unfold x; by rewrite (img_inode fs t A fb I j a ip Ha)).
  assert (E : clen (image_files fs) j = Z.of_nat (length c)) by (unfold clen, content; by rewrite Hc).
  set (n := Z.of_nat (length c)) in *. pose proof (Z.div_mod n BSIZE ltac:(done)). pose proof (Z.mod_pos_bound n BSIZE ltac:(done)).
  assert (Hs : disk_size (image_files fs) j <= (n / BSIZE + 1) * BSIZE /\ (n mod BSIZE = 0 -> disk_size (image_files fs) j = n)).
  { destruct (decide (j = 0%nat)) as [->|Hj]; [|rewrite Z2 by done; split; [lia|done]]. unfold disk_size. cbn [decide]. rewrite E.
    split; [done|]. intros Hz. by destruct (H0 eq_refl). }
  split; [|rewrite Ex; consts; lia]. intros o Ho. rewrite Ex in Ho.
  assert (Hob : 0 <= o / BSIZE < MAXFILE) by (split; [apply Z.div_pos; [lia|done]|apply Z.div_lt_upper_bound; [done|consts; lia]]).
  unfold x. rewrite (img_blk fs t A fb room I j a) by done. destruct (fo_map _ _ _ _ (im_files _ _ _ _ _ I) j) as [M _].
  rewrite (M _ Hob), E. pose proof (Z.div_mod o BSIZE ltac:(done)). pose proof (Z.mod_pos_bound o BSIZE ltac:(done)). consts. lia.
Qed.

(** C8: A kernel that finds the image of mkfs on its disk loads the superblock
    mkfs computed, and readi() on the inode of any file returns the bytes the
    file had on the host, whole; so it does for the root directory, unless its
    entries exactly fill their last block. *)
Theorem mkfs_readback fs : mkfs_ok fs -> wp (mkfs_main fs) (fun _ t => forall (s : fsst S U) room ip x j c,
  bk_rep (fs_blk s) (on_image t room) -> image_files fs !! j = Some c -> (j = 0%nat -> Z.of_nat (length c) mod BSIZE <> 0) ->
  it_inode s !! ip = Some (disk_inode t j x) -> i_dev x = dev -> i_inum x = Z.of_nat j + 1 ->
  wp (readsb dev ;; readi ip ToKernel 0 (Z.of_nat (length c))) (fun r s' => fs_sb s' = mk_sb /\ r = (Z.of_nat (length c), c)) s) mk_start.
Proof.
  intros O. apply (main_image _ fs O). intros t A fb I s room ip x j c R Hc H0 Hip Hd Hi. set (k := on_image t room) in *.
  pose proof (content_max fs j c O Hc) as Hmax. wp_simp. apply (readsb_spec _ s k R eq_refl eq_refl). intros b Rb. cbn [kv k on_image].
  rewrite (im_low _ _ _ _ _ I), sb_roundtrip by done. set (s1 := set_fs_sb _ _).
  destruct (img_file dev Hlog fs t A fb room I j c Hc x Hi) as [F1 _].
  destruct (img_mapped fs t A fb room j c x I Hc Hmax H0) as [M1 M2].
  assert (Hp : fpre dev ip s1 k (disk_inode t j x)).
  { split; try done. by apply (img_wf dev Hlog fs t A fb). }
  eapply wp_mono; [apply (readi_spec dev ip ToKernel s1 k _ 0 _ Hp); [lia|consts; lia|done|lia|done]|]. cbv beta.
  rewrite (proj2 (Z.ltb_ge _ _)), (proj2 (Z.leb_gt _ _)) by (consts; lia). cbn [orb]. rewrite Z.sub_0_r, Z.min_l by lia.
  intros r s' (blk & u & -> & _ & [(-> & _)|(_ & p & a & E & _)]); [|done]. split; [done|].
  rewrite Z.sub_0_r. f_equal. exact (img_bytes fs t A fb room I j c Hc x Hmax).
Qed.
End props.

(** * An example image *)

(** user/_cat in two reads, and a file that needs its indirect block. *)
Definition demo_cat : hostfile := Hostfile (user_dir ++ [95; 99; 97; 116]) (Some [replicate 1024 7; [1; 2; 3]]).
Definition demo_big : hostfile := Hostfile [82] (Some (replicate 14 (replicate 1024 9))).
Definition demo_files : list hostfile := [demo_cat; demo_big].

Ltac decide_it := apply (bool_decide_unpack _); vm_compute; exact Logic.I.

Lemma demo_mkfs_ok : mkfs_ok demo_files.
Proof.
  split; [|by vm_compute|by vm_compute]. repeat (apply Forall_cons; split); [..|by apply Forall_nil].
  all: split; [reflexivity|by vm_compute|decide_it|by eexists|decide_it|by vm_compute].
Qed.

(** Files enough to fill the root directory's block. *)
Definition demo_many : list hostfile := replicate 62 (Hostfile [97] (Some [])).
Lemma demo_many_ok : mkfs_ok demo_many.
Proof.
  split; [|by vm_compute|by vm_compute]. apply Forall_replicate.
  split; [reflexivity|by vm_compute|decide_it|by eexists|decide_it|by vm_compute].
Qed.

#[local] Existing Instance log_blocks.
#[local] Instance demo_blocks : Blocks logst := log_blocks 1.
#[local] Instance demo_blocks_ok : BlocksOk logst ROOTDEV := log_blocks_ok 1 ROOTDEV (sb_logstart mk_sb).

Lemma demo_log n : 2 + nlog <= n < FSSIZE -> loggable n.
Proof.
  intros H. change (33 <= n < 2000) in H. split; [lia|]. unfold data_block. change (sb_logstart mk_sb) with 2. change LOGBLOCKS with 30. lia.
Qed.

Definition demo_disk : gmap Z (list Z) := match mkfs_main demo_files mk_start with Ok _ t => mk_img t | _ => ∅ end.

(** The kernel booted from an image, inside a transaction. *)
Lemma image_booted t : let d := mk_img t in head_blocks (dblock d 2) = [] -> hdr [] (dblock d 2) = dblock d 2 ->
  wp (recovery 1 1 2) (fun _ s => demo_fields (set_outstanding 1 s) && (lg_outstanding s =? 0) = true) (boot_log d) ->
  exists l, bk_rep l (on_image t 20).
Proof.
  intros d Hh He Hf. pose proof (demo_boot_disk d Hh Hf) as B. apply wp_ok in B as (_ & l & _ & Hd & c & Hx & HP & HH & Hv).
  apply demo_fields_true in Hd as (H1 & H2 & H3 & H4 & H5 & H6). exists l, c, [].
  assert (Hv' : forall n, cv c n = dblock d n) by (intros n; rewrite Hv, He; destruct (Z.eqb_spec n 2) as [->|]; reflexivity).
  clear Hh He Hf Hv. split; [exact Hx|exact H4|exact H5|..].
  - intros _. change (1 <= lg_outstanding l). rewrite H2. lia.
  - exact Hv'.
  - intros n. rewrite HH. cbn [kheld on_image]. split; [by intros ?%elem_of_empty|]. intros [i Hi]. by rewrite lookup_empty in Hi.
  - intros i n. cbn [kheld on_image]. by rewrite lookup_empty.
  - intros n. rewrite HH. by intros ?%elem_of_empty.
  - cbn [kroom on_image length]. split; [by vm_compute|lia].
Qed.

Lemma demo_disk_facts : head_blocks (dblock demo_disk 2) = [] /\ hdr [] (dblock demo_disk 2) = dblock demo_disk 2 /\
  wp (recovery 1 1 2) (fun _ s => demo_fields (set_outstanding 1 s) && (lg_outstanding s =? 0) = true) (boot_log demo_disk).
Proof. split_and!; vm_compute; reflexivity. Qed.

Lemma demo_booted t : mkfs_main demo_files mk_start = Ok tt t -> exists l, bk_rep l (on_image t 20).
Proof.
  intros Ht. assert (Ed : mk_img t = demo_disk) by (unfold demo_disk; by rewrite Ht).
  destruct demo_disk_facts as (F1 & F2 & F3). rewrite <- Ed in F1, F2, F3. exact (image_booted t F1 F2 F3).
Qed.

Lemma mkfs_image_correct_witness : exists t, mkfs_main demo_files mk_start = Ok tt t /\ fs_wf ROOTDEV mk_sb (on_image t 20).
Proof.
  pose proof (mkfs_image_correct ROOTDEV demo_log demo_files demo_mkfs_ok) as W. apply wp_ok in W as ([] & t & E & H).
  exists t. split; [exact E|]. apply (H 20).
Defined.

Lemma mkfs_readback_witness : exists l, wp (readsb ROOTDEV ;; readi 0 ToKernel 0 1027)
  (fun r (_ : fsst logst mem) => r = (1027, replicate 1024 7 ++ [1; 2; 3])) l.
Proof.
  pose proof (mkfs_readback ROOTDEV demo_log demo_files demo_mkfs_ok) as W. apply wp_ok in W as ([] & t & E & H).
  destruct (demo_booted t E) as [l R]. set (x := Inode ROOTDEV 2 1 (Spinlock.Sleeplock Free true 1) true 0 0 0 0 0 []).
  set (s0 := Fsst l ∅ (Superblock 0 0 0 0 0 0 0 0) Free [disk_inode t 1 x] : fsst logst mem). exists s0.
  eapply wp_mono; [apply (H s0 20 0%nat x 1%nat (replicate 1024 7 ++ [1; 2; 3]) R); [reflexivity|done|reflexivity|reflexivity|reflexivity]|].
  intros r s' [_ Hr]. exact Hr.
Defined.

Lemma mkfs_root_hole_witness : exists t, mkfs_main demo_many mk_start = Ok tt t /\
  ~ mapped (on_image t 20) (disk_inode t 0 inode0) 0 (i_size (disk_inode t 0 inode0)).
Proof.
  pose proof (mkfs_root_hole demo_many demo_many_ok eq_refl) as W. apply wp_ok in W as ([] & t & E & H).
  exists t. split; [exact E|]. apply (H 20 inode0).
Defined.
