(* ===== verification/Usys.v ===== *)
(** The system calls as user programs see them (user/user.h, user/usys.pl):
    an interface that the models of the user programs are written against,
    with the laws their theorems rely on, and an instance of it.

    A C string argument is the list of its characters, without the NUL. *)
From S2P Require Import Prelude.

(** The characters of a C string literal. *)
Fixpoint str (s : string) : list Z :=
  match s with
  | EmptyString => []
  | String a s => Z.of_N (Ascii.N_of_ascii a) :: str s
  end.
(** The C string that starts a buffer. *)
Fixpoint cstr (b : list Z) : list Z :=
  match b with [] => [] | c :: b => if c =? 0 then [] else c :: cstr b end.

(** * Programs that may call exit() *)

Inductive ures (A : Type) : Type :=
| Val (a : A)
| Exited (status : Z).
Arguments Val {A} a.
Arguments Exited {A} status.

Definition ubind {W A B} (m : M W (ures A)) (k : A -> M W (ures B)) : M W (ures B) :=
  let! r := m in match r with Val a => k a | Exited n => ret (Exited n) end.
Definition up {W A} (m : M W A) : M W (ures A) := let! a := m in ret (Val a).
Definition exit {W A} (n : Z) : M W (ures A) := ret (Exited n).

Notation "'let^' x := m 'in' k" := (ubind m (fun x => k))
  (at level 10, x pattern, m at level 100, k at level 200) : krn_scope.
Notation "m '^;' k" := (ubind m (fun _ => k))
  (at level 100, k at level 200, right associativity) : krn_scope.

Lemma wp_ubind {W A B} (m : M W (ures A)) (k : A -> M W (ures B)) Q w :
  wp (ubind m k) Q w = wp m (fun r w' => match r with Val a => wp (k a) Q w' | Exited n => Q (Exited n) w' end) w.
Proof. unfold ubind, wp, bind. destruct (m w) as [[a|n] w'| | |]; done. Qed.
Lemma wp_up {W A} (m : M W A) Q w : wp (up m) Q w = wp m (fun a w' => Q (Val a) w') w.
Proof. unfold up, wp, bind. by destruct (m w). Qed.
Lemma wp_exit {W A} n (Q : ures A -> W -> Prop) w : wp (exit n) Q w = Q (Exited n) w.
Proof. done. Qed.
#[export] Hint Rewrite @wp_ubind @wp_up @wp_exit : wp.

(** * System calls *)

(** kernel/fcntl.h, kernel/stat.h *)
Definition O_RDONLY : Z := 0.
Definition O_WRONLY : Z := 1.
Definition O_RDWR : Z := 2.
Definition O_CREATE : Z := 512.
Definition O_TRUNC : Z := 1024.

Record stat : Type := Stat { st_dev : Z; st_ino : Z; st_type : Z; st_nlink : Z; st_size : Z }.

Class Sys (W : Type) := {
  (** the result, and the bytes stored in the buffer *)
  u_read (fd n : Z) : M W (Z * list Z);
  u_write (fd : Z) (bs : list Z) : M W Z;
  u_open (path : list Z) (omode : Z) : M W Z;
  u_close (fd : Z) : M W Z;
  u_fstat (fd : Z) : M W (Z * stat);
  u_unlink (path : list Z) : M W Z;
  u_mkdir (path : list Z) : M W Z;
  u_link (old new : list Z) : M W Z;
  u_kill (pid : Z) : M W Z;
  u_uptime : M W Z;
  (** fork() of a child that runs the given code; the parent's result *)
  u_fork (child : M W (ures unit)) : M W Z;
  u_wait : M W Z;
  (** exec() returns only when it fails; otherwise the new program runs to its exit *)
  u_exec (path : list Z) (argv : list (list Z)) : M W (ures Z)
}.

(** What the programs rely on.  read() on a descriptor delivers the next
    bytes of its input, as many as the kernel likes but at least one unless
    the input is exhausted.  write() to a terminal or a pipe takes all its
    bytes and disturbs neither inputs nor files.  open() for reading gives a
    descriptor on the contents of the file, or fails. *)
Class SysOk (W : Type) `{SY : Sys W} := {
  stream : W -> Z -> list Z;
  output : W -> Z -> list Z;
  readable : W -> Z -> Prop;
  writable : W -> Z -> Prop;
  contents : W -> list Z -> option (list Z);
  sys_keeps (w w' : W) : Prop :=
    (forall f, readable w f -> readable w' f) /\ (forall f, writable w f -> writable w' f) /\ (forall p, contents w' p = contents w p);
  u_read_ok w fd n : readable w fd -> 0 <= n ->
    wp (u_read fd n) (fun rb w' => exists k, rb = (Z.of_nat k, take k (stream w fd)) /\ (k <= length (stream w fd))%nat /\
      Z.of_nat k <= n /\ (k = 0%nat -> n = 0 \/ stream w fd = []) /\
      (forall f, stream w' f = if f =? fd then drop k (stream w fd) else stream w f) /\
      (forall f, output w' f = output w f) /\ sys_keeps w w') w;
  u_write_ok w fd bs : writable w fd ->
    wp (u_write fd bs) (fun r w' => r = Z.of_nat (length bs) /\
      (forall f, output w' f = if f =? fd then output w fd ++ bs else output w f) /\
      (forall f, stream w' f = stream w f) /\ sys_keeps w w') w;
  u_open_ok w path :
    wp (u_open path O_RDONLY) (fun fd w' => (forall f, output w' f = output w f) /\ sys_keeps w w' /\
      match contents w path with Some c => 2 < fd /\ readable w' fd /\ stream w' fd = c | None => fd = -1 end) w;
  u_close_ok w fd : 2 < fd ->
    wp (u_close fd) (fun r w' => (forall f, output w' f = output w f) /\ (forall f, f <> fd -> writable w f -> writable w' f) /\
      (forall p, contents w' p = contents w p)) w
}.

Section emitted.
Context {W : Type} `{SO : SysOk W}.

Lemma keeps_refl w : sys_keeps w w.
Proof. by split_and!. Qed.
Lemma keeps_trans w w1 w2 : sys_keeps w w1 -> sys_keeps w1 w2 -> sys_keeps w w2.
Proof. intros (A1 & A2 & A3) (B1 & B2 & B3). split_and!; auto. intros p. by rewrite B3. Qed.

(** [out] has been written through [fd], and nothing else has changed. *)
Definition emitted (fd : Z) (w w' : W) (out : list Z) : Prop :=
  (forall f, output w' f = if f =? fd then output w fd ++ out else output w f) /\
  (forall f, stream w' f = stream w f) /\ sys_keeps w w'.

Lemma emitted_out fd w w' out : emitted fd w w' out -> output w' fd = output w fd ++ out.
Proof. intros [H _]. by rewrite H, Z.eqb_refl. Qed.
Lemma emitted_nil fd w : emitted fd w w [].
Proof. split_and!; try done. intros f. destruct (Z.eqb_spec f fd) as [->|]; [by rewrite app_nil_r|done]. Qed.
Lemma emitted_trans fd w w1 w2 a b : emitted fd w w1 a -> emitted fd w1 w2 b -> emitted fd w w2 (a ++ b).
Proof.
  intros (A1 & A2 & A3) (B1 & B2 & B3). split_and!; [|intros f; by rewrite B2|by eapply keeps_trans..].
  intros f. rewrite B1, !A1, Z.eqb_refl. destruct (f =? fd); [by rewrite app_assoc|done].
Qed.
Lemma write_emitted (Q : Z -> W -> Prop) fd bs w : writable w fd ->
  (forall w', emitted fd w w' bs -> Q (Z.of_nat (length bs)) w') -> wp (u_write fd bs) Q w.
Proof. intros Hw HQ. eapply wp_mono; [by apply u_write_ok|]. intros r w' (-> & H). by apply HQ. Qed.

End emitted.

(** * An instance

    The kernel decides how much of its input a read() returns; here it is
    a list of sizes, then as much as fits.  Descriptor 1 and 2 are output. *)

Record world : Type := World {
  w_in : gmap Z (list Z);
  w_out : gmap Z (list Z);
  w_sizes : list nat;
  w_files : list Z -> option (list Z)
}.

Definition no_files : list Z -> option (list Z) := fun _ => None.

Definition w_read (fd n : Z) : M world (Z * list Z) := fun w =>
  let s := default [] (w_in w !! fd) in
  let m := Nat.min (Z.to_nat n) (length s) in
  let k := match w_sizes w with [] => m | z :: _ => Nat.min m (Nat.max 1 z) end in
  Ok (Z.of_nat k, take k s) (World (<[fd := drop k s]> (w_in w)) (w_out w) (tail (w_sizes w)) (w_files w)).
Definition w_write (fd : Z) (bs : list Z) : M world Z := fun w =>
  Ok (Z.of_nat (length bs)) (World (w_in w) (<[fd := default [] (w_out w !! fd) ++ bs]> (w_out w)) (w_sizes w) (w_files w)).
Definition w_open (path : list Z) (omode : Z) : M world Z := fun w =>
  match w_files w path with
  | Some c => Ok 3 (World (<[3 := c]> (w_in w)) (w_out w) (w_sizes w) (w_files w))
  | None => if omode =? O_RDONLY then Ok (-1) w else Ok 3 (World (<[3 := []]> (w_in w)) (w_out w) (w_sizes w) (fun p => if bool_decide (p = path) then Some [] else w_files w p))
  end.
Definition w_unlink (path : list Z) : M world Z := fun w =>
  match w_files w path with
  | Some _ => Ok 0 (World (w_in w) (w_out w) (w_sizes w) (fun p => if bool_decide (p = path) then None else w_files w p))
  | None => Ok (-1) w
  end.

#[export] Instance world_sys : Sys world := {
  u_read := w_read; u_write := w_write; u_open := w_open;
  u_close _ := ret 0; u_fstat _ := ret (-1, Stat 0 0 0 0 0);
  u_unlink := w_unlink; u_mkdir _ := ret (-1); u_link _ _ := ret (-1); u_kill _ := ret (-1);
  u_uptime := ret 36005;
  u_fork _ := ret 1; u_wait := ret 1; u_exec _ _ := ret (Val (-1))
}.

#[export] Instance world_sys_ok : SysOk world.
Proof.
  refine {| stream w fd := default [] (w_in w !! fd); output w fd := default [] (w_out w !! fd);
            readable _ _ := True; writable _ _ := True; contents w p := w_files w p |}.
  - intros w fd n _ Hn. cbn [u_read world_sys]. unfold wp, w_read. eexists. split; [reflexivity|].
    set (s := default [] (w_in w !! fd)). set (m := Nat.min (Z.to_nat n) (length s)).
    set (k := match w_sizes w with [] => m | z :: _ => Nat.min m (Nat.max 1 z) end).
    assert (Hk : (k <= m)%nat /\ (k = 0 -> m = 0)%nat) by (unfold k; destruct (w_sizes w); lia).
    split; [unfold m in *; lia|]. split; [unfold m in *; lia|]. split.
    { intros E. destruct s; [by right|left]. unfold m in *. simpl length in *. lia. }
    split; [|done]. intros f. cbn. destruct (Z.eqb_spec f fd) as [->|Hne]; [by rewrite lookup_insert_eq|by rewrite lookup_insert_ne].
  - intros w fd bs _. cbn [u_write world_sys]. unfold wp, w_write. split; [done|]. split; [|done].
    intros f. cbn. destruct (Z.eqb_spec f fd) as [->|Hne]; [by rewrite lookup_insert_eq|by rewrite lookup_insert_ne].
  - intros w path. cbn [u_open world_sys]. unfold wp, w_open. destruct (w_files w path); [|done]. split_and!; try done.
    cbn. by rewrite lookup_insert_eq.
  - by intros.
Defined.
