(* ===== verification/Ulib.v ===== *)
(** user/ulib.c: the C library of the user programs, on the byte-addressed
    memory of the process.  A loop that runs to the NUL of a string is
    bounded by [fuel] characters. *)
From S2P Require Import Prelude Mem Str Usys.

(** * Operations *)

Fixpoint strcpy (m : mem) (s t : Z) (fuel : nat) : option mem :=
  match fuel with
  | O => None
  | S fuel =>
      let c := ld8 m t in
      let m := st8 m s c in
      if c =? 0 then Some m else strcpy m (s + 1) (t + 1) fuel
  end.

Fixpoint strcmp (m : mem) (p q : Z) (fuel : nat) : option Z :=
  match fuel with
  | O => None
  | S fuel =>
      if negb (ld8 m p =? 0) && (ld8 m p =? ld8 m q) then strcmp m (p + 1) (q + 1) fuel
      else Some (ld8 m p - ld8 m q)
  end.

(** The address of the first [c], or 0. *)
Fixpoint strchr (m : mem) (s c : Z) (fuel : nat) : option Z :=
  match fuel with
  | O => None
  | S fuel =>
      if ld8 m s =? 0 then Some 0
      else if ld8 m s =? c then Some s
      else strchr m (s + 1) c fuel
  end.

Fixpoint atoi_loop (m : mem) (n s : Z) (fuel : nat) : option Z :=
  match fuel with
  | O => None
  | S fuel =>
      let c := ld8 m s in
      if (48 <=? c) && (c <=? 57) then atoi_loop m (s32 (s32 (n * 10) + c - 48)) (s + 1) fuel
      else Some n
  end.
Definition atoi (m : mem) (s : Z) (fuel : nat) : option Z := atoi_loop m 0 s fuel.

(** strcmp() and atoi() on strings given as their characters. *)
Fixpoint strcmp_chars (p q : list Z) : Z :=
  match p, q with
  | x :: p', y :: q' => if x =? y then strcmp_chars p' q' else x - y
  | [], [] => 0
  | x :: _, [] => x
  | [], y :: _ => - y
  end.
Fixpoint atoi_chars (n : Z) (s : list Z) : Z :=
  match s with
  | [] => n
  | c :: s => if (48 <=? c) && (c <=? 57) then atoi_chars (s32 (s32 (n * 10) + c - 48)) s else n
  end.

(** The user library's memmove decides by the order of the pointers alone;
    [n] is a signed int, and nothing is copied when it is negative. *)
Definition umemmove (m : mem) (vdst vsrc n : Z) : mem :=
  if vdst <? vsrc then move_fwd m vdst vsrc (Z.to_nat n)
  else move_bwd m (vdst + n) (vsrc + n) (Z.to_nat n).

Fixpoint umemset_from (m : mem) (cdst c i : Z) (n : nat) : mem :=
  match n with
  | O => m
  | S n => umemset_from (st8 m (cdst + i) c) cdst c (i + 1) n
  end.
Definition umemset (m : mem) (dst c n : Z) : mem := umemset_from m dst c 0 (Z.to_nat (u32 n)).

Section syscalls.
Context {W : Type} `{SY : Sys W}.

(** gets(): the bytes left in [buf], up to and including the NUL it stores. *)
Fixpoint gets_loop (fuel : nat) (acc : list Z) (max : Z) : M W (list Z) :=
  match fuel with
  | O => nofuel
  | S fuel =>
      if Z.of_nat (length acc) + 1 <? max then
        let! rb := u_read 0 1 in
        let '(cc, bs) := rb in
        if cc <? 1 then ret acc
        else
          let c := hd 0 bs in
          let acc := acc ++ [c] in
          if (c =? 10) || (c =? 13) then ret acc else gets_loop fuel acc max
      else ret acc
  end.
Definition ugets (max : Z) : M W (list Z) :=
  let! l := gets_loop (S (Z.to_nat max)) [] max in ret (l ++ [0]).

(** stat(): open, fstat, close. *)
Definition ustat (n : list Z) : M W (Z * option stat) :=
  let! fd := u_open n O_RDONLY in
  if fd <? 0 then ret (-1, None)
  else
    let! rs := u_fstat fd in
    let '(r, st) := rs in
    u_close fd ;;
    ret (r, Some st).

End syscalls.

(** * Specifications *)

Lemma strcpy_cstring m s t bs fuel :
  cstring m t bs -> (s + Z.of_nat (length bs) < t \/ t + Z.of_nat (length bs) < s) -> (length bs < fuel)%nat ->
  exists m', strcpy m s t fuel = Some m' /\ cstring m' s bs /\
    forall x, x < s \/ s + Z.of_nat (length bs) < x -> ld8 m' x = ld8 m x.
Proof.
  revert m s t fuel. induction bs as [|b bs IH]; intros m s t [|fuel] Hc Hd Hf; simpl in Hf; try lia; cbn [strcpy].
  - simpl in Hc. rewrite Hc. eexists. split; [reflexivity|]. simpl. split; [rewrite ld8_st8; zcases; done|].
    intros x Hx. rewrite ld8_st8. zcases; done.
  - destruct Hc as (Hb & Hb0 & Hc). rewrite Hb. destruct (Z.eqb_spec b 0); [done|]. simpl length in Hd.
    assert (Hu : u8 b = b) by (rewrite <- Hb; apply u8_small, ld8_range).
    destruct (IH (st8 m s b) (s + 1) (t + 1) fuel) as (m' & -> & H1 & H2); [|lia|lia|].
    { eapply cstring_ext; [|exact Hc]. intros y Hy. rewrite ld8_st8. zcases; done. }
    exists m'. split; [done|]. split.
    + simpl. split_and!; [|done|done]. rewrite H2, ld8_st8 by lia. zcases; done.
    + intros x Hx. simpl length in Hx. rewrite H2, ld8_st8 by lia. zcases; done.
Qed.

(** Lexicographic comparison of two strings. *)
Fixpoint str_lt (a b : list Z) : bool :=
  match a, b with
  | _, [] => false
  | [], _ :: _ => true
  | x :: a, y :: b => (x <? y) || ((x =? y) && str_lt a b)
  end.

Lemma strcmp_cstring m p q bp bq fuel :
  cstring m p bp -> cstring m q bq -> (length bp < fuel)%nat ->
  exists r, strcmp m p q fuel = Some r /\ (r = 0 <-> bp = bq) /\ (r < 0 <-> str_lt bp bq = true).
Proof.
  revert p q bq fuel. induction bp as [|b bp IH]; intros p q bq [|fuel] Hp Hq Hf; simpl in Hf; try lia; cbn [strcmp].
  - simpl in Hp. rewrite Hp. simpl. eexists. split; [reflexivity|]. destruct bq as [|c bq]; simpl in *; [rewrite Hq; simpl; split; [done|split; [lia|done]]|].
    pose proof (ld8_range m q). destruct Hq as (E & Hc0 & _). rewrite E in *. split; [split; [intros; exfalso; lia|done]|split; [done|]]. lia.
  - destruct Hp as (Hb & Hb0 & Hp). pose proof (ld8_range m p) as Rp. pose proof (ld8_range m q) as Rq. rewrite Hb in *.
    destruct (Z.eqb_spec b 0); [done|]. cbn [negb andb]. destruct bq as [|c bq]; simpl in Hq.
    + rewrite Hq. destruct (Z.eqb_spec b 0); [done|]. eexists. split; [reflexivity|]. simpl. split; [split; [intros; exfalso; lia|done]|]. split; [intros; exfalso; lia|done].
    + destruct Hq as (Hc & Hc0 & Hq). rewrite Hc in *. simpl. destruct (Z.eqb_spec b c) as [->|Hne].
      * destruct (IH _ _ _ fuel Hp Hq ltac:(lia)) as (r & -> & H1 & H2). exists r. split; [done|].
        rewrite H1, H2, Z.ltb_irrefl. simpl. split; [split; [by intros ->|by intros [=]]|done].
      * eexists. split; [reflexivity|]. rewrite orb_false_r. split; [split; [intros; exfalso; lia|intros [=]; done]|]. rewrite Z.ltb_lt. lia.
Qed.

(** The value of a decimal numeral, and the reader of its leading digits. *)
Definition digit (c : Z) : bool := (48 <=? c) && (c <=? 57).
Definition dec_from (n : Z) (ds : list Z) : Z := fold_left (fun a c => a * 10 + (c - 48)) ds n.

Lemma s32_add_mul n c : s32 (s32 (n * 10) + c - 48) = s32 (n * 10 + (c - 48)).
Proof.
  unfold s32. replace ((n * 10 + 2 ^ 31) mod 2 ^ 32 - 2 ^ 31 + c - 48 + 2 ^ 31) with ((n * 10 + 2 ^ 31) mod 2 ^ 32 + (c - 48)) by lia.
  rewrite Zplus_mod_idemp_l. do 2 f_equal. lia.
Qed.
Lemma s32_step a b c : s32 a = s32 b -> s32 (a * 10 + c) = s32 (b * 10 + c).
Proof.
  unfold s32. intros H. f_equal. assert (E : (a + 2 ^ 31) mod 2 ^ 32 = (b + 2 ^ 31) mod 2 ^ 32) by lia.
  replace (a * 10 + c + 2 ^ 31) with ((a + 2 ^ 31) * 10 + (c + 2 ^ 31 - 2 ^ 31 * 10)) by lia.
  replace (b * 10 + c + 2 ^ 31) with ((b + 2 ^ 31) * 10 + (c + 2 ^ 31 - 2 ^ 31 * 10)) by lia.
  rewrite (Zplus_mod ((a + 2 ^ 31) * 10)), (Zplus_mod ((b + 2 ^ 31) * 10)), (Zmult_mod (a + _)), (Zmult_mod (b + _)). by rewrite E.
Qed.
Lemma dec_from_s32 a b ds : s32 a = s32 b -> s32 (dec_from a ds) = s32 (dec_from b ds).
Proof. revert a b. induction ds as [|c ds IH]; intros a b H; [done|]. simpl. by apply IH, s32_step. Qed.
Lemma s32_s32 a : s32 (s32 a) = s32 a.
Proof. apply s32_small. unfold s32. pose proof (Z.mod_pos_bound (a + 2 ^ 31) (2 ^ 32)). lia. Qed.

Lemma atoi_loop_spec m n s bs rest fuel : Forall (fun c => digit c = true) bs -> (forall c, head rest = Some c -> digit c = false) ->
  cstring m s (bs ++ rest) -> (length bs < fuel)%nat -> s32 n = n -> atoi_loop m n s fuel = Some (s32 (dec_from n bs)).
Proof.
  revert n s fuel. induction bs as [|b bs IH]; intros n s [|fuel] Hd Hr Hc Hf Hn; simpl in Hf; try lia; cbn [atoi_loop].
  - simpl in Hc. change (dec_from n []) with n. rewrite Hn. destruct rest as [|c rest]; simpl in Hc.
    + rewrite Hc. done.
    + destruct Hc as (-> & _ & _). by rewrite (Hr c eq_refl : (48 <=? c) && (c <=? 57) = false).
  - inversion Hd as [|? ? Hb Hd']; subst. destruct Hc as (-> & Hb0 & Hc). rewrite (Hb : (48 <=? b) && (b <=? 57) = true).
    rewrite IH; [|done|done|done|lia|by rewrite s32_s32]. f_equal. change (dec_from n (b :: bs)) with (dec_from (n * 10 + (b - 48)) bs). apply dec_from_s32. by rewrite s32_s32, s32_add_mul.
Qed.

Lemma strcmp_chars_spec m p q bp bq fuel :
  cstring m p bp -> cstring m q bq -> (length bp < fuel)%nat -> strcmp m p q fuel = Some (strcmp_chars bp bq).
Proof.
  revert p q bq fuel. induction bp as [|b bp IH]; intros p q bq [|fuel] Hp Hq Hf; simpl in Hf; try lia; cbn [strcmp].
  - simpl in Hp. rewrite Hp. simpl. destruct bq as [|c bq]; simpl in *; [by rewrite Hq|]. destruct Hq as (-> & _). done.
  - destruct Hp as (Hb & Hb0 & Hp). rewrite Hb, (proj2 (Z.eqb_neq _ _) Hb0). cbn [negb andb]. destruct bq as [|c bq]; simpl in Hq |- *.
    + rewrite Hq, (proj2 (Z.eqb_neq _ _) Hb0). f_equal. lia.
    + destruct Hq as (-> & Hc0 & Hq). destruct (Z.eqb_spec b c) as [->|]; [|done]. apply IH; [done|done|lia].
Qed.

Lemma strcmp_chars_eq p q : Forall (fun c => c <> 0) p -> Forall (fun c => c <> 0) q -> strcmp_chars p q = 0 <-> p = q.
Proof.
  revert q. induction p as [|x p IH]; intros [|y q] Hp Hq; simpl; try done.
  - inversion Hq; subst. split; [lia|done].
  - inversion Hp; subst. split; [done|done].
  - inversion Hp; inversion Hq; subst. destruct (Z.eqb_spec x y) as [->|Hne].
    + rewrite IH by done. split; [by intros ->|by intros [=]].
    + split; [lia|by intros [=]].
Qed.

Lemma atoi_chars_spec m n a s fuel : cstring m a s -> (length s < fuel)%nat -> atoi_loop m n a fuel = Some (atoi_chars n s).
Proof.
  revert n a fuel. induction s as [|c s IH]; intros n a [|fuel] Hc Hf; simpl in *; try lia.
  - by rewrite Hc.
  - destruct Hc as (-> & _ & Hc). destruct ((48 <=? c) && (c <=? 57)); [|done]. apply IH; [done|lia].
Qed.

Lemma umemmove_ld8 m dst src n x : 0 <= n ->
  ld8 (umemmove m dst src n) x = if (dst <=? x) && (x <? dst + n) then ld8 m (src + (x - dst)) else ld8 m x.
Proof.
  intros Hn. unfold umemmove. destruct (Z.ltb_spec dst src).
  - rewrite move_fwd_spec by lia. rewrite Z2Nat.id by lia. done.
  - rewrite move_bwd_spec by lia. rewrite Z2Nat.id by lia. zcases; f_equal; lia.
Qed.

(** The user library's memmove, which looks only at the order of the two
    pointers, leaves every byte of memory as the kernel's memmove, which looks
    for an overlap, does; and its memset agrees with the kernel's. *)
Theorem ulib_agrees_with_kernel m dst src n c x : 0 <= n < 2 ^ 31 ->
  ld8 (umemmove m dst src n) x = ld8 (memmove m dst src n) x /\ ld8 (umemset m dst c n) x = ld8 (memset m dst c n) x.
Proof.
  intros Hn. rewrite umemmove_ld8, memmove_ld8 by lia. split; [done|]. by rewrite !memset_spec by lia.
Qed.

Lemma ulib_agrees_with_kernel_witness :
  let m := st_bytes (∅ : mem) 100 [1; 2; 3] in ld8 (umemmove m 101 100 3) 103 = ld8 (memmove m 101 100 3) 103.
Proof. intros m. apply (ulib_agrees_with_kernel m 101 100 3 0 103). lia. Defined.

(** * Words *)

(** The words of [s] between separators, [cur] being the start of the first. *)
Fixpoint words (sep : Z -> bool) (cur s : list Z) : list (list Z) :=
  match s with
  | [] => match cur with [] => [] | _ => [cur] end
  | c :: s =>
      if sep c then match cur with [] => words sep [] s | _ => cur :: words sep [] s end
      else words sep (cur ++ [c]) s
  end.

(** The word [s] starts with. *)
Fixpoint run (sep : Z -> bool) (s : list Z) : list Z :=
  match s with [] => [] | c :: s => if sep c then [] else c :: run sep s end.
Definition after (sep : Z -> bool) (s : list Z) : list (list Z) := words sep [] (drop (length (run sep s)) s).

Lemma words_cur sep cur s : cur <> [] -> words sep cur s = (cur ++ run sep s) :: after sep s.
Proof.
  revert cur. induction s as [|c s IH]; intros cur Hc; unfold after; simpl.
  - rewrite app_nil_r. by destruct cur.
  - destruct (sep c) eqn:E; simpl.
    + rewrite app_nil_r, E. by destruct cur.
    + rewrite IH by (by destruct cur). by rewrite <- app_assoc.
Qed.

Lemma words_word sep l s : l <> [] -> Forall (fun c => sep c = false) l -> (forall c, head s = Some c -> sep c = true) ->
  words sep [] (l ++ s) = l :: words sep [] s.
Proof.
  intros Hl H Hs. destruct l as [|c l]; [done|]. inversion H as [|? ? Hc H']; subst. simpl. rewrite Hc, words_cur by done.
  assert (E : run sep (l ++ s) = l).
  { clear -H' Hs. induction H' as [|d l Hd _ IH]; simpl; [destruct s as [|d s]; [done|simpl; by rewrite (Hs d eq_refl)]|by rewrite Hd, IH]. }
  unfold after. by rewrite E, drop_app_length.
Qed.

(** * gets() *)

Section gets.
Context {W : Type} `{SO : SysOk W}.

Definition eol (c : Z) : bool := (c =? 10) || (c =? 13).
(** The characters up to and including the first end of line. *)
Fixpoint line_of (s : list Z) : list Z :=
  match s with [] => [] | c :: s => if eol c then [c] else c :: line_of s end.

Lemma line_of_prefix s : line_of s = take (length (line_of s)) s.
Proof. induction s as [|c s IH]; [done|]. simpl. destruct (eol c); simpl; [by rewrite take_0|by rewrite <- IH]. Qed.

Lemma gets_loop_spec fuel acc max (w : W) : readable w 0 -> max <= Z.of_nat fuel + Z.of_nat (length acc) -> (0 < fuel)%nat ->
  Z.of_nat (length acc) < max ->
  wp (gets_loop fuel acc max) (fun l w' =>
    let t := take (Z.to_nat (max - 1 - Z.of_nat (length acc))) (line_of (stream w 0)) in
    l = acc ++ t /\ stream w' 0 = drop (length t) (stream w 0) /\ (forall f, f <> 0 -> stream w' f = stream w f) /\
    (forall f, output w' f = output w f) /\ sys_keeps w w') w.
Proof.
  revert acc w. induction fuel as [|fuel IH]; intros acc w Hr Hf H0 Ha; [lia|]. cbn [gets_loop]. cbv zeta.
  destruct (Z.ltb_spec (Z.of_nat (length acc) + 1) max) as [Hlt|Hge].
  2: { replace (Z.to_nat (max - 1 - Z.of_nat (length acc))) with 0%nat by lia. rewrite take_0. wp_simp. simpl. rewrite drop_0, app_nil_r. by split_and!. }
  rewrite wp_bind. eapply wp_mono; [apply (u_read_ok w 0 1 Hr); lia|].
  intros rb w1 (k & -> & Hk1 & Hk2 & Hk3 & Hs & Ho & Hrd). cbv beta iota.
  destruct (Z.ltb_spec (Z.of_nat k) 1) as [Hk|Hk].
  - assert (k = 0%nat) as -> by lia. destruct (Hk3 eq_refl) as [?|E]; [lia|]. wp_simp. rewrite E. simpl.
    rewrite take_nil, drop_nil, app_nil_r. split; [done|]. split; [rewrite Hs, E; done|]. split; [|done].
    intros f Hne. rewrite Hs. by destruct (Z.eqb_spec f 0).
  - assert (k = 1%nat) as -> by lia. specialize (Hs : forall f, stream w1 f = _). pose proof (Hs 0) as Hs0. rewrite Z.eqb_refl in Hs0.
    destruct (stream w 0) as [|c s] eqn:E; [simpl in Hk1; lia|]. simpl in Hs0. simpl hd. simpl line_of. fold (eol c).
    assert (Hs' : forall f, f <> 0 -> stream w1 f = stream w f) by (intros f Hne; rewrite Hs; by destruct (Z.eqb_spec f 0)).
    replace (Z.to_nat (max - 1 - Z.of_nat (length acc))) with (S (Z.to_nat (max - 2 - Z.of_nat (length acc)))) by lia.
    destruct (eol c) eqn:Ec; wp_simp.
    + simpl. rewrite take_nil. simpl. rewrite drop_0. by split_and!.
    + eapply wp_mono; [apply IH; [by apply Hrd|rewrite length_app; simpl; lia|lia|rewrite length_app; simpl; lia]|].
      intros l w' (-> & H1 & H2 & H3 & H4). rewrite Hs0, drop_0 in *. rewrite length_app in *. simpl length in *. simpl take.
      replace (Z.to_nat (max - 1 - Z.of_nat (length acc + 1))) with (Z.to_nat (max - 2 - Z.of_nat (length acc))) in H1 |- * by lia.
      split; [by rewrite <- app_assoc|]. split; [done|]. split; [intros f Hne; rewrite H2 by done; by apply Hs'|].
      split; [intros f; by rewrite H3, Ho|]. by eapply keeps_trans.
Qed.

Lemma ugets_spec max (w : W) : readable w 0 -> 0 < max ->
  wp (ugets max) (fun b w' =>
    let t := take (Z.to_nat (max - 1)) (line_of (stream w 0)) in
    b = t ++ [0] /\ Z.of_nat (length b) <= max /\ stream w 0 = t ++ stream w' 0 /\
    (forall f, f <> 0 -> stream w' f = stream w f) /\ (forall f, output w' f = output w f) /\ sys_keeps w w') w.
Proof.
  intros Hr Hm. unfold ugets. wp_simp. eapply wp_mono; [apply gets_loop_spec; [done|simpl; lia|lia|simpl; lia]|].
  intros l w' (-> & H1 & H2 & H3 & H4). wp_simp. cbv zeta. simpl length in *. rewrite Z.sub_0_r in *. simpl app in *.
  split; [done|]. split; [rewrite length_app, length_take; simpl; lia|]. split; [|done].
  rewrite H1. set (n := Z.to_nat (max - 1)). rewrite length_take.
  assert (E : take n (line_of (stream w 0)) = take (Nat.min n (length (line_of (stream w 0)))) (stream w 0)).
  { rewrite line_of_prefix at 1. by rewrite take_take. }
  by rewrite E, take_drop.
Qed.

(** gets(buf, max) terminates and leaves in the buffer the next line of the
    standard input, its end-of-line character included, cut to max-1 characters
    and followed by a NUL, so that it never writes past the buffer; it consumes
    exactly the characters it returns and nothing else. *)
Theorem gets_correct max (w : W) : readable w 0 -> 0 < max ->
  wp (ugets max) (fun b w' =>
    let t := take (Z.to_nat (max - 1)) (line_of (stream w 0)) in
    b = t ++ [0] /\ Z.of_nat (length b) <= max /\ stream w 0 = t ++ stream w' 0 /\
    (forall f, f <> 0 -> stream w' f = stream w f) /\ (forall f, output w' f = output w f) /\ sys_keeps w w') w.
Proof. apply ugets_spec. Qed.

End gets.

Lemma gets_correct_witness :
  wp (ugets 5) (fun b _ => b = [104; 105; 10; 0]) (World {[0 := [104; 105; 10; 106]]} ∅ [] no_files).
Proof.
  eapply wp_mono; [apply (gets_correct 5 (World {[0 := [104; 105; 10; 106]]} ∅ [] no_files)); [exact I|lia]|].
  intros b w' [-> _]. vm_compute. reflexivity.
Defined.
