(* ===== verification/Uprintf.v ===== *)
(** user/printf.c: formatted output of the user programs.

    The arguments after the format are the list of the 8-byte slots of the
    va_list: an integer, or a pointer to a string ([None] when null). *)
From S2P Require Import Prelude Mem Str Usys Ulib.

(** * Operations *)

Inductive varg : Type := VInt (v : Z) | VStr (s : option (list Z)).

(** [digits[d]] *)
Definition digits (d : Z) : Z := if d <? 10 then 48 + d else 55 + d.

(** The do-while loop of printint: the digits of [x], lowest first. *)
Fixpoint digit_loop (fuel : nat) (x base : Z) : list Z :=
  match fuel with
  | O => []
  | S fuel =>
      let d := digits (x mod base) in
      let x := x / base in
      if x =? 0 then [d] else d :: digit_loop fuel x base
  end.
(** What printint leaves in [buf], as it is filled. *)
Definition printint_buf (xx base : Z) (sgn : bool) : list Z :=
  let neg := sgn && (xx <? 0) in
  let x := if neg then u64 (- xx) else u64 xx in
  digit_loop 64 x base ++ (if neg then [45] else []).

Fixpoint ptr_loop (n : nat) (x : Z) : list Z :=
  match n with
  | O => []
  | S n => digits (Z.shiftr x 60) :: ptr_loop n (u64 (Z.shiftl x 4))
  end.

Section printf.
Context {W : Type} `{SY : Sys W}.

Definition putc (fd c : Z) : M W unit := let! _ := u_write fd [u8 c] in ret tt.
Fixpoint putcs (fd : Z) (cs : list Z) : M W unit :=
  match cs with
  | [] => ret tt
  | c :: cs => putc fd c ;; putcs fd cs
  end.
Definition printint (fd xx base : Z) (sgn : bool) : M W unit := putcs fd (reverse (printint_buf xx base sgn)).
Definition printptr (fd x : Z) : M W unit := putc fd 48 ;; putc fd 120 ;; putcs fd (ptr_loop 16 x).

(** va_arg: the next slot, which must hold what is asked for. *)
Definition va_num (ap : list varg) (k : Z -> list varg -> M W unit) : M W unit :=
  match ap with VInt v :: ap => k v ap | _ => panic "va_arg" end.
Definition va_str (ap : list varg) (k : option (list Z) -> list varg -> M W unit) : M W unit :=
  match ap with VStr s :: ap => k s ap | _ => panic "va_arg" end.

Definition null_text : list Z := [40; 110; 117; 108; 108; 41].

(** [pct] is [state == '%']. *)
Fixpoint vprintf (fd : Z) (pct : bool) (fmt : list Z) (ap : list varg) {struct fmt} : M W unit :=
  match fmt with
  | [] => ret tt
  | c0 :: f1 =>
      if negb pct then
        if c0 =? 37 then vprintf fd true f1 ap
        else putc fd c0 ;; vprintf fd false f1 ap
      else
        let c1 := hd 0 f1 in
        let f2 := match f1 with [] => f1 | _ :: f => f end in
        let c2 := hd 0 f2 in
        let f3 := match f2 with [] => f2 | _ :: f => f end in
        let int (conv : Z -> Z) base sgn f := va_num ap (fun v ap => printint fd (conv v) base sgn ;; f ap) in
        if c0 =? 100 then int s32 10 true (vprintf fd false f1)
        else if (c0 =? 108) && (c1 =? 100) then int s64 10 true (vprintf fd false f2)
        else if (c0 =? 108) && (c1 =? 108) && (c2 =? 100) then int s64 10 true (vprintf fd false f3)
        else if c0 =? 117 then int u32 10 false (vprintf fd false f1)
        else if (c0 =? 108) && (c1 =? 117) then int s64 10 false (vprintf fd false f2)
        else if (c0 =? 108) && (c1 =? 108) && (c2 =? 117) then int s64 10 false (vprintf fd false f3)
        else if c0 =? 120 then int u32 16 false (vprintf fd false f1)
        else if (c0 =? 108) && (c1 =? 120) then int s64 16 false (vprintf fd false f2)
        else if (c0 =? 108) && (c1 =? 108) && (c2 =? 120) then int s64 16 false (vprintf fd false f3)
        else if c0 =? 112 then va_num ap (fun v ap => printptr fd (u64 v) ;; vprintf fd false f1 ap)
        else if c0 =? 99 then va_num ap (fun v ap => putc fd (u32 v) ;; vprintf fd false f1 ap)
        else if c0 =? 115 then va_str ap (fun s ap => putcs fd (default null_text s) ;; vprintf fd false f1 ap)
        else if c0 =? 37 then putc fd 37 ;; vprintf fd false f1 ap
        else putc fd 37 ;; putc fd c0 ;; vprintf fd false f1 ap
  end.
Definition fprintf (fd : Z) (fmt : list Z) (ap : list varg) : M W unit := vprintf fd false fmt ap.
Definition printf (fmt : list Z) (ap : list varg) : M W unit := vprintf 1 false fmt ap.

End printf.

(** * Numerals *)

Definition digit_val (c : Z) : Z := if c <? 58 then c - 48 else c - 55.
Definition num_val (base : Z) (ds : list Z) : Z := fold_left (fun a c => a * base + digit_val c) ds 0.

Lemma digit_val_digits d : 0 <= d < 16 -> digit_val (digits d) = d.
Proof. intros H. unfold digit_val, digits. zcases. Qed.

Lemma num_val_snoc base ds c : num_val base (ds ++ [c]) = num_val base ds * base + digit_val c.
Proof. unfold num_val. by rewrite fold_left_app. Qed.

Lemma digit_loop_val fuel x base : 2 <= base <= 16 -> 0 <= x < base ^ Z.of_nat fuel -> (0 < fuel)%nat ->
  num_val base (reverse (digit_loop fuel x base)) = x.
Proof.
  intros Hb. revert x. induction fuel as [|fuel IH]; intros x Hx Hf; [lia|]. cbn [digit_loop].
  pose proof (Z.mod_pos_bound x base ltac:(lia)). pose proof (Z.div_mod x base ltac:(lia)) as E.
  destruct (Z.eqb_spec (x / base) 0) as [E0|E0].
  - rewrite reverse_singleton. unfold num_val. simpl. rewrite digit_val_digits by lia. rewrite E0 in E. lia.
  - rewrite reverse_cons, num_val_snoc, digit_val_digits by lia. rewrite IH; [lia| |].
    + rewrite Nat2Z.inj_succ, Z.pow_succ_r in Hx by lia. split; [apply Z.div_pos; lia|apply Z.div_lt_upper_bound; lia].
    + destruct fuel; [|lia]. change (base ^ Z.of_nat 1) with (base * 1) in Hx. rewrite Z.div_small in E0 by lia. done.
Qed.

Lemma digit_loop_len fuel n x base : 2 <= base -> 0 <= x < base ^ Z.of_nat n -> (0 < n)%nat -> (length (digit_loop fuel x base) <= n)%nat.
Proof.
  intros Hb. revert n x. induction fuel as [|fuel IH]; intros n x Hx Hn; cbn [digit_loop]; [simpl; lia|].
  destruct (Z.eqb_spec (x / base) 0) as [E0|E0]; [simpl; lia|]. simpl. destruct n as [|n]; [lia|]. apply le_n_S, IH.
  - rewrite Nat2Z.inj_succ, Z.pow_succ_r in Hx by lia. split; [apply Z.div_pos; lia|apply Z.div_lt_upper_bound; lia].
  - destruct n; [|lia]. change (base ^ Z.of_nat 1) with (base * 1) in Hx. rewrite Z.div_small in E0 by lia. done.
Qed.

(** The most significant digit is not 0, except in the numeral 0. *)
Lemma digit_loop_lead fuel x base : 2 <= base <= 16 -> 0 < x < base ^ Z.of_nat fuel -> head (reverse (digit_loop fuel x base)) <> Some 48.
Proof.
  intros Hb. revert x. induction fuel as [|fuel IH]; intros x Hx; cbn [digit_loop]; [simpl; done|].
  pose proof (Z.mod_pos_bound x base ltac:(lia)). pose proof (Z.div_mod x base ltac:(lia)) as E.
  destruct (Z.eqb_spec (x / base) 0) as [E0|E0].
  - rewrite reverse_singleton. simpl. unfold digits. rewrite E0 in E. intros [= H0]. revert H0. zcases.
  - rewrite reverse_cons. assert (Hd : 0 < x / base < base ^ Z.of_nat fuel).
    { pose proof (Z.div_pos x base ltac:(lia) ltac:(lia)). rewrite Nat2Z.inj_succ, Z.pow_succ_r in Hx by lia.
      split; [lia|apply Z.div_lt_upper_bound; lia]. }
    specialize (IH _ Hd). destruct (reverse (digit_loop fuel (x / base) base)) as [|c l] eqn:El; [|done]. simpl.
    destruct fuel; [simpl in Hd; lia|]. apply (f_equal length) in El. rewrite length_reverse in El. cbn [digit_loop] in El.
    by destruct (x / base / base =? 0).
Qed.

Lemma digit_loop_digits fuel x : Forall (fun c => digit c = true) (digit_loop fuel x 10).
Proof.
  revert x. induction fuel as [|fuel IH]; intros x; cbn [digit_loop]; [constructor|].
  assert (H : digit (digits (x mod 10)) = true).
  { pose proof (Z.mod_pos_bound x 10 ltac:(lia)). unfold digits, digit. zcases. }
  destruct (x / 10 =? 0); by repeat constructor.
Qed.

Lemma num_val_dec ds : Forall (fun c => digit c = true) ds -> num_val 10 ds = dec_from 0 ds.
Proof.
  unfold num_val, dec_from. generalize 0. induction ds as [|c ds IH]; intros a H; simpl; [done|].
  inversion H as [|? ? Hc Hds]; subst. rewrite IH by done. f_equal. unfold digit_val. unfold digit in Hc. revert Hc. zcases; done.
Qed.

Arguments digit_loop : simpl never.

(** printint never writes past its 20-byte buffer: for every 64-bit value, in
    base 10 or 16, signed or not, the digits and the sign fit in it. *)
Theorem printint_fits_buffer xx base sgn : - 2 ^ 63 <= xx < 2 ^ 64 -> base = 10 \/ base = 16 ->
  (length (printint_buf xx base sgn) <= 20)%nat.
Proof.
  intros Hx Hb. unfold printint_buf. rewrite length_app. pose proof (u64_range xx) as R1.
  destruct (sgn && (xx <? 0)) eqn:E.
  - apply andb_true_iff in E as [_ E%Z.ltb_lt]. rewrite u64_small by lia.
    assert (length (digit_loop 64 (- xx) base) <= 19)%nat; [|simpl; lia].
    apply digit_loop_len; [destruct Hb; lia| |lia]. split; [lia|]. destruct Hb as [->| ->]; simpl Z.of_nat; lia.
  - assert (length (digit_loop 64 (u64 xx) base) <= 20)%nat; [|simpl; lia].
    apply digit_loop_len; [destruct Hb; lia| |lia]. split; [lia|]. destruct Hb as [->| ->]; simpl Z.of_nat; lia.
Qed.

Lemma printint_fits_buffer_witness : (length (printint_buf (- 2 ^ 63) 10 true) <= 20)%nat.
Proof. apply (printint_fits_buffer (- 2 ^ 63) 10 true); [lia|by left]. Defined.

(** Printing a number and reading it back gives the number: for every
    non-negative int, atoi() applied to the text printint() produces in base 10
    returns it; and the text has no leading zero (but for the numeral 0 itself). *)
Theorem atoi_printint x m s fuel : 0 <= x < 2 ^ 31 -> let t := reverse (printint_buf x 10 true) in
  (20 < fuel)%nat -> cstring m s t -> atoi m s fuel = Some x /\ (head t = Some 48 -> x = 0).
Proof.
  intros Hx t Hf Hc. subst t. unfold printint_buf in *. rewrite (proj2 (Z.ltb_ge x 0)), andb_false_r, u64_small in * by lia.
  rewrite app_nil_r in *. pose proof (digit_loop_digits 64 x) as Hd. split.
  - unfold atoi. rewrite <- (app_nil_r (reverse _)) in Hc. rewrite (atoi_loop_spec m 0 s (reverse (digit_loop 64 x 10)) []); try done.
    + rewrite <- num_val_dec by (by apply Forall_reverse). rewrite digit_loop_val by (simpl Z.of_nat; lia). f_equal. apply s32_small. lia.
    + by apply Forall_reverse.
    + rewrite length_reverse. pose proof (digit_loop_len 64 20 x 10 ltac:(lia)). simpl Z.of_nat in *. lia.
  - intros Hh. destruct (Z.eq_dec x 0); [done|]. exfalso. apply (digit_loop_lead 64 x 10); [lia|simpl Z.of_nat; lia|done].
Qed.

Lemma atoi_printint_witness : atoi (st_bytes ∅ 100 [52; 50; 0]) 100 30 = Some 42.
Proof.
  apply (atoi_printint 42 (st_bytes ∅ 100 [52; 50; 0]) 100 30); [lia|lia|]. vm_compute. split_and!; done.
Defined.

(** * Formats *)

(** The conversions of a format, with the number of l's before the letter. *)
Inductive conv : Type := CDec | CUns | CHex.
Inductive lsize : Type := L0 | L1 | L2.
Inductive piece : Type := PLit (c : Z) | PInt (n : lsize) (cv : conv) | PPtr | PChr | PStr | PPct.

Definition conv_char (cv : conv) : Z := match cv with CDec => 100 | CUns => 117 | CHex => 120 end.
Definition unparse (p : piece) : list Z :=
  match p with
  | PLit c => [c]
  | PInt L0 cv => [37; conv_char cv]
  | PInt L1 cv => [37; 108; conv_char cv]
  | PInt L2 cv => [37; 108; 108; conv_char cv]
  | PPtr => [37; 112]
  | PChr => [37; 99]
  | PStr => [37; 115]
  | PPct => [37; 37]
  end.

Definition int_text (n : lsize) (cv : conv) (v : Z) : list Z :=
  let x := match n, cv with L0, CDec => s32 v | L0, _ => u32 v | _, _ => s64 v end in
  reverse (printint_buf x (match cv with CHex => 16 | _ => 10 end) (match cv with CDec => true | _ => false end)).

(** The text of a format applied to arguments of the types it asks for. *)
Fixpoint render (ps : list piece) (ap : list varg) : option (list Z) :=
  match ps with
  | [] => Some []
  | PLit c :: ps => app [c] <$> render ps ap
  | PPct :: ps => app [37] <$> render ps ap
  | PInt n cv :: ps => match ap with VInt v :: ap => app (int_text n cv v) <$> render ps ap | _ => None end
  | PPtr :: ps => match ap with VInt v :: ap => app (48 :: 120 :: ptr_loop 16 (u64 v)) <$> render ps ap | _ => None end
  | PChr :: ps => match ap with VInt v :: ap => app [u32 v] <$> render ps ap | _ => None end
  | PStr :: ps => match ap with VStr s :: ap => app (default null_text s) <$> render ps ap | _ => None end
  end.
Definition literal (p : piece) : Prop := match p with PLit c => c <> 37 | _ => True end.

Section printf_spec.
Context {W : Type} `{SO : SysOk W}.

Lemma putc_emitted (Q : unit -> W -> Prop) fd c w : writable w fd -> (forall w', emitted fd w w' [u8 c] -> Q tt w') -> wp (putc fd c) Q w.
Proof. intros Hw HQ. unfold putc. wp_simp. apply write_emitted; [done|]. intros w' H. wp_simp. by apply HQ. Qed.

Lemma putcs_emitted (Q : unit -> W -> Prop) fd cs w : writable w fd -> (forall w', emitted fd w w' (u8 <$> cs) -> Q tt w') -> wp (putcs fd cs) Q w.
Proof.
  revert w Q. induction cs as [|c cs IH]; intros w Q Hw HQ; cbn [putcs]; [apply HQ, emitted_nil|]. wp_simp.
  apply putc_emitted; [done|]. intros w1 H1. apply IH; [by apply H1|]. intros w2 H2. apply HQ. rewrite fmap_cons.
  exact (emitted_trans _ _ _ _ [u8 c] _ H1 H2).
Qed.

Lemma vprintf_render fd ps ap out (w : W) : Forall literal ps -> render ps ap = Some out -> writable w fd ->
  wp (vprintf fd false (concat (unparse <$> ps)) ap) (fun _ w' => emitted fd w w' (u8 <$> out)) w.
Proof.
  revert ap out w. induction ps as [|p ps IH]; intros ap out w Hl Hr Hw; [injection Hr as <-; apply emitted_nil|].
  inversion Hl as [|? ? Hp Hl']; subst.
  assert (K : forall o ap' (w1 : W), app o <$> render ps ap' = Some out -> emitted fd w w1 (u8 <$> o) ->
    wp (vprintf fd false (concat (unparse <$> ps)) ap') (fun _ w' => emitted fd w w' (u8 <$> out)) w1).
  { intros o ap' w1 E H1. destruct (render ps ap') as [r|] eqn:Er; [|done]. injection E as <-.
    eapply wp_mono; [apply (IH ap' r w1); [done|done|by apply H1]|]. intros ? w2 H2. rewrite fmap_app. by eapply emitted_trans. }
  rewrite fmap_cons. cbn [concat]. set (rest := concat (unparse <$> ps)) in *. cbn [render] in Hr.
  destruct p as [c|n cv| | | |].
  - cbn in Hp |- *. rewrite (proj2 (Z.eqb_neq _ _) Hp). wp_simp. apply putc_emitted; [done|]. intros w1 H1. by apply (K [c]).
  - destruct ap as [|[v|] ap]; [done| |done]. destruct n, cv; cbn [unparse app vprintf negb]; cbn -[s32 s64 u32 u64]; wp_simp;
      unfold printint; (apply putcs_emitted; [done|]); intros w1 H1; by eapply K.
  - destruct ap as [|[v|] ap]; [done| |done]. cbn -[u64]. unfold printptr. wp_simp. apply putc_emitted; [done|]. intros w1 H1.
    wp_simp. apply putc_emitted; [by apply H1|]. intros w2 H2. wp_simp. apply putcs_emitted; [by apply H2, H1|]. intros w3 H3.
    eapply K; [exact Hr|]. exact (emitted_trans _ _ _ _ _ _ H1 (emitted_trans _ _ _ _ _ _ H2 H3)).
  - destruct ap as [|[v|] ap]; [done| |done]. cbn -[u32]. wp_simp. apply putc_emitted; [done|]. intros w1 H1. by apply (K [u32 v]).
  - destruct ap as [|[|s] ap]; [done|done|]. cbn. wp_simp. apply putcs_emitted; [done|]. intros w1 H1. by eapply K.
  - cbn. wp_simp. apply putc_emitted; [done|]. intros w1 H1. by apply (K [37]).
Qed.

Lemma unparse_lits l : concat (unparse <$> (PLit <$> l)) = l.
Proof. induction l as [|c l IH]; [done|]. rewrite !fmap_cons. simpl. by rewrite IH. Qed.
Lemma render_lits l ps ap : render ((PLit <$> l) ++ ps) ap = app l <$> render ps ap.
Proof.
  induction l as [|c l IH]; [simpl; by destruct (render ps ap)|]. rewrite fmap_cons. cbn [app render]. rewrite IH. by destruct (render ps ap).
Qed.
Definition plain (l : list Z) : Prop := Forall (fun c => c <> 37 /\ 0 <= c < 2 ^ 8) l.
Lemma plain_u8 l : plain l -> u8 <$> l = l.
Proof. induction 1 as [|c l [_ Hc] _ IH]; [done|]. by rewrite fmap_cons, IH, u8_small. Qed.
Lemma plain_literal l : plain l -> Forall literal (PLit <$> l).
Proof. induction 1 as [|c l [Hc _] _ IH]; [constructor|]. rewrite fmap_cons. by constructor. Qed.

(** A format without conversions, and one followed by conversions. *)
Lemma vprintf_plain (Q : unit -> W -> Prop) fd l w : plain l -> writable w fd ->
  (forall w', emitted fd w w' l -> Q tt w') -> wp (vprintf fd false l []) Q w.
Proof.
  intros Hp Hw HQ. rewrite <- (unparse_lits l). eapply wp_mono; [apply (vprintf_render fd (PLit <$> l) [] l); [by apply plain_literal| |done]|].
  - pose proof (render_lits l [] []) as E. rewrite app_nil_r in E. rewrite E. simpl. by rewrite app_nil_r.
  - intros [] w' H. apply HQ. by rewrite plain_u8 in H.
Qed.
Lemma vprintf_prefix (Q : unit -> W -> Prop) fd l ps ap out w : plain l -> Forall literal ps -> render ps ap = Some out -> writable w fd ->
  (forall w', emitted fd w w' (l ++ (u8 <$> out)) -> Q tt w') -> wp (vprintf fd false (l ++ concat (unparse <$> ps)) ap) Q w.
Proof.
  intros Hp Hl Hr Hw HQ. rewrite <- (unparse_lits l) at 1. rewrite <- concat_app, <- fmap_app.
  eapply wp_mono; [apply (vprintf_render fd ((PLit <$> l) ++ ps) ap (l ++ out)); [|by rewrite render_lits, Hr|done]|].
  - apply Forall_app. split; [by apply plain_literal|done].
  - intros [] w' H. apply HQ. by rewrite fmap_app, plain_u8 in H.
Qed.

(** printf is type safe and prints what its format says: when the format is
    built from literal characters and the supported conversions and the arguments
    have the types those ask for, vprintf never reads a missing or wrongly typed
    argument, terminates, and writes to the descriptor, and nowhere else, exactly
    the text of the format. *)
Theorem vprintf_typed fd ps ap out (w : W) : Forall literal ps -> render ps ap = Some out -> writable w fd ->
  wp (vprintf fd false (concat (unparse <$> ps)) ap) (fun _ w' =>
    (forall f, output w' f = if f =? fd then output w fd ++ (u8 <$> out) else output w f) /\ (forall f, stream w' f = stream w f)) w.
Proof. intros Hl Hr Hw. eapply wp_mono; [by apply vprintf_render|]. intros ? w' H. by split; apply H. Qed.

End printf_spec.

(** "n=%d %s" with -7 and "ok" *)
Lemma vprintf_typed_witness :
  wp (vprintf 1 false [110; 61; 37; 100; 32; 37; 115] [VInt (2 ^ 32 - 7); VStr (Some [111; 107])])
    (fun _ w' => output w' 1 = [110; 61; 45; 55; 32; 111; 107]) (World ∅ ∅ [] no_files).
Proof.
  eapply wp_mono; [apply (vprintf_typed 1 [PLit 110; PLit 61; PInt L0 CDec; PLit 32; PStr] [VInt (2 ^ 32 - 7); VStr (Some [111; 107])]
    [110; 61; 45; 55; 32; 111; 107] (World ∅ ∅ [] no_files)); [|vm_compute; reflexivity|exact I]|].
  - repeat constructor; simpl; lia.
  - intros _ w' [H _]. exact (H 1).
Defined.
