(* ===== verification/Kprintf.v ===== *)
(** kernel/printf.c: the kernel's formatted output, and panic().

    Arguments are as in Uprintf; what is printed goes to the console
    ([consputc] of Console), which uartputc_sync() freezes once [panicked] is
    set. *)
From S2P Require Import Prelude Mem Str UserMem Pipe Console Usys Ulib Uprintf.

(** pr.lock, panicking and panicked; the console. *)
Record prst (U : Type) := Prst { pr_lock : lockst; panicking : Z; panicked : Z; pr_cons : cst U }.
Arguments Prst {U}. Arguments pr_lock {U}. Arguments panicking {U}. Arguments panicked {U}. Arguments pr_cons {U}.

(** [digits[d]] of "0123456789abcdef" *)
Definition kdigits (d : Z) : Z := if d <? 10 then 48 + d else 87 + d.

(** The do-while loop of printint. *)
Fixpoint kdigit_loop (fuel : nat) (x base : Z) : list Z :=
  match fuel with
  | O => []
  | S fuel =>
      let d := kdigits (x mod base) in
      let x := x / base in
      if x =? 0 then [d] else d :: kdigit_loop fuel x base
  end.
(** What printint leaves in [buf], as it is filled. *)
Definition kprintint_buf (xx base : Z) (sign : bool) : list Z :=
  let sign := sign && (xx <? 0) in
  let x := if sign then u64 (- xx) else u64 xx in
  kdigit_loop 64 x base ++ (if sign then [45] else []).
Fixpoint kptr_loop (n : nat) (x : Z) : list Z :=
  match n with
  | O => []
  | S n => kdigits (Z.shiftr x 60) :: kptr_loop n (u64 (Z.shiftl x 4))
  end.

Section kprintf.
Context {U : Type}.
Implicit Types s : prst U.

Definition set_prlock l s : prst U := Prst l (panicking s) (panicked s) (pr_cons s).
Definition set_panicking x s : prst U := Prst (pr_lock s) x (panicked s) (pr_cons s).
Definition set_panicked x s : prst U := Prst (pr_lock s) (panicking s) x (pr_cons s).
Definition set_prcons c s : prst U := Prst (pr_lock s) (panicking s) (panicked s) c.

(** consputc(c): uartputc_sync() spins for ever once [panicked] is set. *)
Definition kputc (c : Z) : M (prst U) unit :=
  let! p := gets panicked in
  if negb (p =? 0) then block else zoom pr_cons set_prcons (consputc c).
Fixpoint kputcs (cs : list Z) : M (prst U) unit :=
  match cs with
  | [] => ret tt
  | c :: cs => kputc c ;; kputcs cs
  end.
Definition kprintint (xx base : Z) (sign : bool) : M (prst U) unit := kputcs (reverse (kprintint_buf xx base sign)).
Definition kprintptr (x : Z) : M (prst U) unit := kputc 48 ;; kputc 120 ;; kputcs (kptr_loop 16 x).

Definition kva_num (ap : list varg) (k : Z -> list varg -> M (prst U) unit) : M (prst U) unit :=
  match ap with VInt v :: ap => k v ap | _ => panic "va_arg" end.
Definition kva_str (ap : list varg) (k : option (list Z) -> list varg -> M (prst U) unit) : M (prst U) unit :=
  match ap with VStr t :: ap => k t ap | _ => panic "va_arg" end.

(** The loop over the format. *)
Fixpoint kprintf_loop (fmt : list Z) (ap : list varg) {struct fmt} : M (prst U) unit :=
  match fmt with
  | [] => ret tt
  | cx :: f =>
      if negb (cx =? 37) then kputc cx ;; kprintf_loop f ap
      else match f with
      | [] => ret tt
      | c0 :: f1 =>
          let c1 := hd 0 f1 in
          let f2 := match f1 with [] => f1 | _ :: f => f end in
          let c2 := hd 0 f2 in
          let f3 := match f2 with [] => f2 | _ :: f => f end in
          let int (conv : Z -> Z) base sign f := kva_num ap (fun v ap => kprintint (conv v) base sign ;; f ap) in
          if c0 =? 100 then int s32 10 true (kprintf_loop f1)
          else if (c0 =? 108) && (c1 =? 100) then int s64 10 true (kprintf_loop f2)
          else if (c0 =? 108) && (c1 =? 108) && (c2 =? 100) then int s64 10 true (kprintf_loop f3)
          else if c0 =? 117 then int u32 10 false (kprintf_loop f1)
          else if (c0 =? 108) && (c1 =? 117) then int s64 10 false (kprintf_loop f2)
          else if (c0 =? 108) && (c1 =? 108) && (c2 =? 117) then int s64 10 false (kprintf_loop f3)
          else if c0 =? 120 then int u32 16 false (kprintf_loop f1)
          else if (c0 =? 108) && (c1 =? 120) then int s64 16 false (kprintf_loop f2)
          else if (c0 =? 108) && (c1 =? 108) && (c2 =? 120) then int s64 16 false (kprintf_loop f3)
          else if c0 =? 112 then kva_num ap (fun v ap => kprintptr (u64 v) ;; kprintf_loop f1 ap)
          else if c0 =? 99 then kva_num ap (fun v ap => kputc (u32 v) ;; kprintf_loop f1 ap)
          else if c0 =? 115 then kva_str ap (fun t ap => kputcs (default null_text t) ;; kprintf_loop f1 ap)
          else if c0 =? 37 then kputc 37 ;; kprintf_loop f1 ap
          else kputc 37 ;; kputc c0 ;; kprintf_loop f1 ap
      end
  end.

Definition kprintf (fmt : list Z) (ap : list varg) : M (prst U) unit :=
  let! p := gets panicking in
  (if p =? 0 then lock_acquire pr_lock set_prlock else ret tt) ;;
  kprintf_loop fmt ap ;;
  let! p := gets panicking in
  if p =? 0 then lock_release pr_lock set_prlock else ret tt.

(** panic(s), up to its endless loop. *)
Definition kpanic (msg : list Z) : M (prst U) unit :=
  modify (set_panicking 1) ;;
  kprintf (str "panic: ") [] ;;
  kprintf [37; 115; 10] [VStr (Some msg)] ;;
  modify (set_panicked 1).
End kprintf.

(** * Numerals *)

(** The kernel prints hexadecimal digits in lower case. *)
Definition lower (c : Z) : Z := if (65 <=? c) && (c <=? 70) then c + 32 else c.

Lemma kdigits_lower d : 0 <= d < 16 -> kdigits d = lower (digits d).
Proof. intros H. unfold kdigits, lower, digits. zcases. Qed.
Lemma kdigit_loop_lower fuel x base : 2 <= base <= 16 -> kdigit_loop fuel x base = lower <$> digit_loop fuel x base.
Proof.
  intros Hb. revert x. induction fuel as [|fuel IH]; intros x; [done|]. cbn [kdigit_loop]. unfold digit_loop; fold digit_loop. cbv zeta. pose proof (Z.mod_pos_bound x base ltac:(lia)). rewrite kdigits_lower by lia. destruct (x / base =? 0); [done|]. by rewrite IH.
Qed.
Lemma kprintint_lower xx base sign : 2 <= base <= 16 -> kprintint_buf xx base sign = lower <$> printint_buf xx base sign.
Proof. intros Hb. unfold kprintint_buf, printint_buf. rewrite fmap_app, kdigit_loop_lower by done. by destruct (sign && (xx <? 0)). Qed.
Lemma kptr_lower n x : 0 <= x < 2 ^ 64 -> kptr_loop n x = lower <$> ptr_loop n x.
Proof.
  revert x. induction n as [|n IH]; intros x Hx; [done|]. cbn [kptr_loop ptr_loop]. rewrite fmap_cons, IH by apply u64_range. f_equal. apply kdigits_lower. rewrite Z.shiftr_div_pow2 by lia. split; [apply Z.div_pos; lia|apply Z.div_lt_upper_bound; lia].
Qed.

(** * Formats *)

Definition chr_text (v : Z) : list Z := if u32 v =? BACKSPACE then [CTRL_H; 32; CTRL_H] else [u8 (u32 v)].
(** The text of a format: that of Uprintf but for the case of digits and for
    the character that consputc() takes for an erasure. *)
Fixpoint krender (ps : list piece) (ap : list varg) : option (list Z) :=
  match ps with
  | [] => Some []
  | PLit c :: ps => app [c] <$> krender ps ap
  | PPct :: ps => app [37] <$> krender ps ap
  | PInt n cv :: ps => match ap with VInt v :: ap => app (lower <$> int_text n cv v) <$> krender ps ap | _ => None end
  | PPtr :: ps => match ap with VInt v :: ap => app (48 :: 120 :: (lower <$> ptr_loop 16 (u64 v))) <$> krender ps ap | _ => None end
  | PChr :: ps => match ap with VInt v :: ap => app (chr_text v) <$> krender ps ap | _ => None end
  | PStr :: ps => match ap with VStr s :: ap => app (default null_text s) <$> krender ps ap | _ => None end
  end.
Definition byte (c : Z) : Prop := 0 <= c < 2 ^ 8.
Definition kliteral (p : piece) : Prop := match p with PLit c => c <> 37 /\ byte c | _ => True end.
Definition byte_arg (a : varg) : Prop := match a with VStr (Some s) => Forall byte s | _ => True end.

Lemma lower_byte c : byte c -> byte (lower c).
Proof. unfold byte, lower. zcases. Qed.
Lemma digits_byte d : 0 <= d < 16 -> byte (digits d).
Proof. unfold byte, digits. zcases. Qed.
Lemma digit_loop_byte fuel x base : 2 <= base <= 16 -> Forall byte (digit_loop fuel x base).
Proof.
  intros Hb. revert x. induction fuel as [|fuel IH]; intros x; [constructor|]. unfold digit_loop; fold digit_loop. pose proof (Z.mod_pos_bound x base ltac:(lia)). pose proof (digits_byte (x mod base) ltac:(lia)). destruct (x / base =? 0); by constructor.
Qed.
Lemma printint_byte xx base sgn : 2 <= base <= 16 -> Forall byte (printint_buf xx base sgn).
Proof. intros Hb. unfold printint_buf. apply Forall_app. split; [by apply digit_loop_byte|]. destruct (sgn && (xx <? 0)); repeat constructor; unfold byte; lia. Qed.
Lemma ptr_byte n x : 0 <= x < 2 ^ 64 -> Forall byte (ptr_loop n x).
Proof.
  revert x. induction n as [|n IH]; intros x Hx; [constructor|]. constructor; [|apply IH, u64_range]. apply digits_byte. rewrite Z.shiftr_div_pow2 by lia. split; [apply Z.div_pos; lia|apply Z.div_lt_upper_bound; lia].
Qed.
Lemma lowers_byte l : Forall byte l -> Forall byte (lower <$> l).
Proof. intros H. apply Forall_fmap. eapply Forall_impl; [exact H|]. apply lower_byte. Qed.

Section kprintf_spec.
Context {U : Type}.
Implicit Types s : prst U.

Definition kemit (bs : list Z) s : prst U := set_prcons (emit bs (pr_cons s)) s.
Lemma kemit_nil s : kemit [] s = s.
Proof. destruct s as [l p q [c u b o]]. unfold kemit, set_prcons, emit. cbn. by rewrite app_nil_r. Qed.
Lemma kemit_app a b s : kemit b (kemit a s) = kemit (a ++ b) s.
Proof. unfold kemit, set_prcons, emit. cbn. by rewrite app_assoc. Qed.

Lemma kputc_any c (Q : unit -> prst U -> Prop) s : panicked s = 0 -> Q tt (kemit (if c =? BACKSPACE then [CTRL_H; 32; CTRL_H] else [u8 c]) s) -> wp (kputc c) Q s.
Proof. intros Hp HQ. unfold kputc, consputc. wp_simp. rewrite Hp. change (negb (0 =? 0)) with false. cbv iota. rewrite wp_zoom. destruct (c =? BACKSPACE); rewrite wp_modify; exact HQ. Qed.
Lemma kputc_ok c (Q : unit -> prst U -> Prop) s : byte c -> panicked s = 0 -> Q tt (kemit [c] s) -> wp (kputc c) Q s.
Proof. intros Hc Hp HQ. apply kputc_any; [done|]. unfold byte, BACKSPACE in *. rewrite (proj2 (Z.eqb_neq _ _)) by lia. by rewrite u8_small by lia. Qed.
Lemma kputcs_ok cs (Q : unit -> prst U -> Prop) s : Forall byte cs -> panicked s = 0 -> Q tt (kemit cs s) -> wp (kputcs cs) Q s.
Proof.
  intros H. revert s. induction H as [|c cs Hc _ IH]; intros s Hp HQ; cbn [kputcs]; [wp_simp; by rewrite kemit_nil in HQ|]. wp_simp. apply kputc_ok; [done|done|]. apply IH; [done|]. by rewrite kemit_app.
Qed.

Lemma kprintf_loop_ok ps ap out s : Forall kliteral ps -> Forall byte_arg ap -> krender ps ap = Some out -> panicked s = 0 ->
  wp (kprintf_loop (concat (unparse <$> ps)) ap) (fun _ s' => s' = kemit out s) s.
Proof.
  revert ap out s. induction ps as [|p ps IH]; intros ap out s Hl Ha Hr Hw; [injection Hr as <-; cbn; wp_simp; by rewrite kemit_nil|]. apply Forall_cons in Hl as [Hp Hl].
  assert (K : forall o ap', Forall byte_arg ap' -> app o <$> krender ps ap' = Some out -> wp (kprintf_loop (concat (unparse <$> ps)) ap') (fun _ s' => s' = kemit out s) (kemit o s)).
  { intros o ap' Ha' E. destruct (krender ps ap') as [r|] eqn:Er; [|done]. injection E as <-. eapply wp_mono; [by apply (IH ap' r (kemit o s))|]. intros ? s' ->. by rewrite kemit_app. }
  rewrite fmap_cons. cbn [concat]. set (rest := concat (unparse <$> ps)) in *. cbn [krender] in Hr. destruct p as [c|n cv| | | |].
  - destruct Hp as [Hp Hb]. cbn [unparse app kprintf_loop]. rewrite (proj2 (Z.eqb_neq _ _) Hp). cbn [negb]. wp_simp. apply kputc_ok; [done|done|]. by apply (K [c]).
  - destruct ap as [|[v|] ap]; [done| |done]. apply Forall_cons in Ha as [_ Ha]. pose proof (lowers_byte _ (printint_byte (match n, cv with L0, CDec => s32 v | L0, _ => u32 v | _, _ => s64 v end) (match cv with CHex => 16 | _ => 10 end) (match cv with CDec => true | _ => false end) ltac:(destruct cv; lia))) as Hb. apply Forall_reverse in Hb.
    unfold int_text in Hr. rewrite fmap_reverse in Hr. destruct n, cv; cbn [unparse app kprintf_loop negb]; cbn -[s32 s64 u32 u64 kprintint_buf]; wp_simp; unfold kprintint; rewrite kprintint_lower by lia; (apply kputcs_ok; [exact Hb|done|]); by eapply K.
  - destruct ap as [|[v|] ap]; [done| |done]. apply Forall_cons in Ha as [_ Ha]. cbn -[u64 kptr_loop]. unfold kprintptr. wp_simp. apply kputc_ok; [unfold byte; lia|done|]. wp_simp. apply kputc_ok; [unfold byte; lia|done|]. wp_simp.
    pose proof (u64_range v). rewrite kptr_lower by lia. apply kputcs_ok; [apply lowers_byte, ptr_byte; lia|done|]. rewrite !kemit_app. by apply (K (48 :: 120 :: (lower <$> ptr_loop 16 (u64 v)))).
  - destruct ap as [|[v|] ap]; [done| |done]. apply Forall_cons in Ha as [_ Ha]. cbn -[u32]. wp_simp. apply kputc_any; [done|]. by apply (K (chr_text v)).
  - destruct ap as [|[|x] ap]; [done|done|]. apply Forall_cons in Ha as [Hx Ha]. cbn. wp_simp. apply kputcs_ok; [|done|by apply (K (default null_text x))]. destruct x; [done|]. repeat constructor; unfold byte; lia.
  - cbn. wp_simp. apply kputc_ok; [unfold byte; lia|done|]. by apply (K [37]).
Qed.

Lemma kprintf_ok ps ap out s : Forall kliteral ps -> Forall byte_arg ap -> krender ps ap = Some out -> panicked s = 0 -> (panicking s = 0 -> pr_lock s = Free) ->
  wp (kprintf (concat (unparse <$> ps)) ap) (fun _ s' => s' = kemit out s) s.
Proof.
  intros Hl Ha Hr Hp Hlk. unfold kprintf. wp_simp. destruct (Z.eqb_spec (panicking s) 0) as [E|E].
  - apply wp_lock_acquire; [auto|]. wp_simp. eapply wp_mono; [by apply kprintf_loop_ok|]. intros [] s' ->. wp_simp. cbn [panicking kemit set_prcons set_prlock]. rewrite E. change (0 =? 0) with true. cbv iota. apply wp_lock_release; [done|]. specialize (Hlk E). destruct s as [l q1 q2 c]. cbn in Hlk. subst l. done.
  - wp_simp. eapply wp_mono; [by apply kprintf_loop_ok|]. intros [] s' ->. wp_simp. cbn [panicking kemit set_prcons]. rewrite (proj2 (Z.eqb_neq _ _) E). by wp_simp.
Qed.

(** the kernel's printf().  With arguments of the types that the format
    asks for, and pr.lock free, it terminates, never reads a missing or wrongly
    typed argument, sends exactly the text of the format to the console, and
    leaves the lock free. *)
Theorem kprintf_typed ps ap out s : Forall kliteral ps -> Forall byte_arg ap -> krender ps ap = Some out -> panicked s = 0 -> panicking s = 0 -> pr_lock s = Free ->
  wp (kprintf (concat (unparse <$> ps)) ap) (fun _ s' => c_out (pr_cons s') = c_out (pr_cons s) ++ out /\ pr_lock s' = Free /\ cc (pr_cons s') = cc (pr_cons s)) s.
Proof. intros Hl Ha Hr Hp Hq Hlk. eapply wp_mono; [by apply kprintf_ok|]. intros [] s' ->. done. Qed.

Lemma kpanic_ok msg s : Forall byte msg -> panicked s = 0 -> wp (kpanic msg) (fun _ s' => s' = set_panicked 1 (kemit (str "panic: " ++ msg ++ [10]) (set_panicking 1 s))) s.
Proof.
  intros Hm Hp. unfold kpanic. wp_simp. set (s1 := set_panicking 1 s).
  assert (Hl : Forall kliteral (PLit <$> str "panic: ")) by (apply Forall_fmap; unfold str; cbn; repeat constructor; cbn; unfold byte; lia).
  pose proof (kprintf_ok (PLit <$> str "panic: ") [] (str "panic: ") s1 Hl ltac:(done) eq_refl Hp ltac:(done)) as W. rewrite unparse_lits in W. eapply wp_mono; [exact W|]. intros [] s2 ->. wp_simp. eapply wp_mono; [apply (kprintf_ok [PStr; PLit 10] [VStr (Some msg)] (msg ++ [10]) (kemit (str "panic: ") s1)); try done|].
  - repeat constructor; cbn; unfold byte; lia.
  - by repeat constructor.
  - intros [] s3 ->. wp_simp. by rewrite kemit_app.
Qed.

(** panic() always gets its message out.  Whoever holds pr.lock, also when
    the CPU that panics holds it itself in the middle of a printf(), the
    message is printed in full without waiting; from then on every attempt of
    any CPU to print waits for ever, so that the message stays the last. *)
Theorem panic_prints msg s : Forall byte msg -> panicked s = 0 ->
  wp (kpanic msg) (fun _ s' => c_out (pr_cons s') = c_out (pr_cons s) ++ str "panic: " ++ msg ++ [10] /\ (forall c, kputc c s' = Blocked s')) s.
Proof. intros Hm Hp. eapply wp_mono; [by apply kpanic_ok|]. intros [] s' ->. done. Qed.
End kprintf_spec.

(** * Examples *)

Definition demo_pr (l : lockst) : prst unit := Prst l 0 0 (demo_cons tt).
(** "pid %d" with 3 *)
Lemma kprintf_typed_witness : wp (kprintf [112; 105; 100; 32; 37; 100] [VInt 3]) (fun _ s' => c_out (pr_cons s') = [112; 105; 100; 32; 51]) (demo_pr Free).
Proof.
  eapply wp_mono; [apply (kprintf_typed [PLit 112; PLit 105; PLit 100; PLit 32; PInt L0 CDec] [VInt 3] [112; 105; 100; 32; 51] (demo_pr Free)); try done|].
  - repeat constructor; cbn; unfold byte; lia.
  - by repeat constructor.
  - intros _ s' [H _]. exact H.
Defined.
Lemma panic_prints_witness : wp (kpanic [111; 111; 112; 115]) (fun _ s' => c_out (pr_cons s') = str "panic: " ++ [111; 111; 112; 115; 10]) (demo_pr Mine).
Proof.
  eapply wp_mono; [apply (panic_prints [111; 111; 112; 115] (demo_pr Mine)); [repeat constructor; unfold byte; lia|reflexivity]|]. intros _ s' [H _]. exact H.
Defined.
