(* ===== verification/Grep.v ===== *)
(** user/grep.c: the regular-expression matcher of Kernighan and Pike and
    the loop that applies it to the lines of a file.

    [re] and [text] are C strings, the lists of their characters: reading
    the NUL at the end is reaching the empty list. *)
From S2P Require Import Prelude Usys.

(** * Operations *)

(** The characters with a meaning in a pattern. *)
Definition HAT : Z := 94.
Definition STAR : Z := 42.
Definition DOLLAR : Z := 36.
Definition DOT : Z := 46.
Definition NL : Z := 10.

(** matchstar(c, re, text), [here] being matchhere(re, .). *)
Fixpoint matchstar (here : list Z -> bool) (c : Z) (text : list Z) : bool :=
  if here text then true else
  match text with
  | [] => false
  | t :: text => if (t =? c) || (c =? DOT) then matchstar here c text else false
  end.

Fixpoint matchhere (re text : list Z) {struct re} : bool :=
  match re with
  | [] => true
  | r0 :: re1 =>
      let step :=
        match text with
        | [] => false
        | t :: text1 => if (r0 =? DOT) || (r0 =? t) then matchhere re1 text1 else false
        end in
      match re1 with
      | r1 :: re2 => if r1 =? STAR then matchstar (matchhere re2) r0 text else step
      | [] => if r0 =? DOLLAR then match text with [] => true | _ => false end else step
      end
  end.

(** The do-while loop of match(). *)
Fixpoint match_loop (re text : list Z) : bool :=
  if matchhere re text then true else
  match text with
  | [] => false
  | _ :: text => match_loop re text
  end.
Definition match_ (re text : list Z) : bool :=
  match re with
  | r0 :: re1 => if r0 =? HAT then matchhere re1 text else match_loop re text
  | [] => match_loop re text
  end.

(** strchr() in a buffer: the offset of the first [c] before a NUL. *)
Fixpoint strchr_at (b : list Z) (c : Z) : option nat :=
  match b with
  | [] => None
  | x :: b => if x =? 0 then None else if x =? c then Some 0%nat else S <$> strchr_at b c
  end.

Section grep.
Context {W : Type} `{SY : Sys W}.

(** The inner loop, from [p] to the end of the buffer: the final [p]. *)
Fixpoint grep_lines (fuel : nat) (pattern p : list Z) : M W (list Z) :=
  match fuel with
  | O => nofuel
  | S fuel =>
      match strchr_at p NL with
      | None => ret p
      | Some q =>
          (if match_ pattern (take q p) then let! _ := u_write 1 (take (S q) p) in ret tt else ret tt) ;;
          grep_lines fuel pattern (drop (S q) p)
      end
  end.

(** The outer loop; [b] is the part of a line the buffer starts with. *)
Fixpoint grep_loop (fuel : nat) (pattern : list Z) (fd : Z) (b : list Z) : M W unit :=
  match fuel with
  | O => nofuel
  | S fuel =>
      let! nb := u_read fd (1024 - Z.of_nat (length b) - 1) in
      let '(n, bs) := nb in
      if 0 <? n then
        let! b := grep_lines (S (length (b ++ bs))) pattern (b ++ bs) in
        grep_loop fuel pattern fd b
      else ret tt
  end.
Definition grep (fuel : nat) (pattern : list Z) (fd : Z) : M W unit := grep_loop fuel pattern fd [].

End grep.

(** * Regular expressions *)

Inductive rx : Type := REps | RChar (c : Z) | RAny | RSeq (r1 r2 : rx) | RStar (r : rx).

Inductive lang : rx -> list Z -> Prop :=
| lang_eps : lang REps []
| lang_char c : lang (RChar c) [c]
| lang_any c : lang RAny [c]
| lang_seq r1 r2 a b : lang r1 a -> lang r2 b -> lang (RSeq r1 r2) (a ++ b)
| lang_star0 r : lang (RStar r) []
| lang_star r a b : lang r a -> lang (RStar r) b -> lang (RStar r) (a ++ b).

(** The expression a pattern stands for (after its ^), and whether it ends in $. *)
Definition atom (c : Z) : rx := if c =? DOT then RAny else RChar c.
Fixpoint parse (re : list Z) : rx * bool :=
  match re with
  | [] => (REps, false)
  | r0 :: re1 =>
      match re1 with
      | r1 :: re2 =>
          if r1 =? STAR then let '(r, e) := parse re2 in (RSeq (RStar (atom r0)) r, e)
          else let '(r, e) := parse re1 in (RSeq (atom r0) r, e)
      | [] => if r0 =? DOLLAR then (REps, true) else (RSeq (atom r0) REps, false)
      end
  end.

(** [re] matches at the beginning of [text]. *)
Definition matches_here (re text : list Z) : Prop :=
  exists mid post, text = mid ++ post /\ lang (parse re).1 mid /\ ((parse re).2 = true -> post = []).

Definition atom_ok (c t : Z) : Prop := t = c \/ c = DOT.

Lemma lang_atom c a : lang (atom c) a <-> exists t, a = [t] /\ atom_ok c t.
Proof.
  unfold atom, atom_ok. destruct (Z.eqb_spec c DOT) as [->|Hc]; split.
  - inversion 1; subst. eauto.
  - intros (t & -> & _). constructor.
  - inversion 1; subst. eauto.
  - intros (t & -> & [->|]); [constructor|done].
Qed.

Lemma lang_atom_star c a : lang (RStar (atom c)) a <-> Forall (atom_ok c) a.
Proof.
  split.
  - intros H. remember (RStar (atom c)) as r eqn:E. induction H; try done. injection E as ->.
    apply lang_atom in H as (t & -> & Ht). constructor; [done|]. by apply IHlang2.
  - induction 1 as [|t a Ht _ IH]; [constructor|]. change (t :: a) with ([t] ++ a). constructor; [|done]. apply lang_atom. eauto.
Qed.

Lemma matchstar_spec here c text : matchstar here c text = true <->
  exists mid post, text = mid ++ post /\ Forall (atom_ok c) mid /\ here post = true.
Proof.
  induction text as [|t text IH]; cbn [matchstar].
  - split.
    + destruct (here []) eqn:E; [|done]. intros _. exists [], []. by split_and!.
    + intros (mid & post & E & _ & H). symmetry in E. apply app_nil in E as [-> ->]. by rewrite H.
  - split.
    + destruct (here (t :: text)) eqn:E; [intros _; exists [], (t :: text); by split_and!|].
      destruct ((t =? c) || (c =? DOT)) eqn:Ea; [|done]. intros (mid & post & -> & H1 & H2)%IH.
      exists (t :: mid), post. split; [done|]. split; [|done]. constructor; [|done].
      unfold atom_ok. apply orb_true_iff in Ea as [Ea%Z.eqb_eq|Ea%Z.eqb_eq]; auto.
    + intros (mid & post & E & H1 & H2). destruct mid as [|t' mid]; simpl in E.
      { subst post. by rewrite H2. }
      injection E as -> ->. inversion H1 as [|? ? Ht H1']; subst. destruct (here (t' :: mid ++ post)); [done|].
      assert ((t' =? c) || (c =? DOT) = true) as ->.
      { apply orb_true_iff. destruct Ht as [->| ->]; [left|right]; apply Z.eqb_refl. }
      apply IH. eauto.
Qed.

Lemma parse_cons r0 r1 re2 : (r1 =? STAR) = false ->
  parse (r0 :: r1 :: re2) = (RSeq (atom r0) (parse (r1 :: re2)).1, (parse (r1 :: re2)).2).
Proof. intros E. cbn [parse]. rewrite E. by destruct re2 as [|r2 re3]; [|]; repeat case_match. Qed.
Lemma parse_star r0 re2 : parse (r0 :: STAR :: re2) = (RSeq (RStar (atom r0)) (parse re2).1, (parse re2).2).
Proof. cbn [parse]. rewrite Z.eqb_refl. by destruct (parse re2). Qed.

(** One ordinary character of the pattern. *)
Lemma step_spec r0 text (here : list Z -> bool) r (e : bool) :
  (forall text, here text = true <-> exists mid post, text = mid ++ post /\ lang r mid /\ (e = true -> post = [])) ->
  match text with [] => false | t :: text1 => if (r0 =? DOT) || (r0 =? t) then here text1 else false end = true <->
  exists mid post, text = mid ++ post /\ lang (RSeq (atom r0) r) mid /\ (e = true -> post = []).
Proof.
  intros H. split.
  - destruct text as [|t text1]; [done|]. destruct ((r0 =? DOT) || (r0 =? t)) eqn:E; [|done].
    intros (mid & post & -> & H1 & H2)%H. exists ([t] ++ mid), post. split; [done|]. split; [|done]. constructor; [|done].
    apply lang_atom. exists t. split; [done|]. unfold atom_ok. apply orb_true_iff in E as [E%Z.eqb_eq|E%Z.eqb_eq]; auto.
  - intros (mid & post & -> & H1 & H2). inversion H1 as [| | |? ? a b Ha Hb| |]; subst. apply lang_atom in Ha as (t & -> & Ht).
    simpl. assert ((r0 =? DOT) || (r0 =? t) = true) as ->.
    { apply orb_true_iff. destruct Ht as [->| ->]; [right|left]; apply Z.eqb_refl. }
    apply H. eauto.
Qed.

Lemma matchhere_spec re : forall text, matchhere re text = true <-> matches_here re text.
Proof.
  remember (length re) as n eqn:E. assert (Hn : (length re <= n)%nat) by lia. clear E. revert re Hn.
  unfold matches_here. induction n as [n IH] using lt_wf_ind. intros [|r0 [|r1 re2]] Hn text; simpl in Hn.
  - simpl. split; [intros _; exists [], text; split_and!; [done|constructor|done]|done].
  - cbn [matchhere parse]. destruct (r0 =? DOLLAR).
    + split.
      * destruct text; [|done]. intros _. exists [], []. split_and!; [done|constructor|done].
      * intros (mid & post & -> & H1 & H2). cbn in H1, H2. inversion H1; subst. by rewrite (H2 eq_refl).
    + apply (step_spec r0 text (fun _ => true)). intros t. split; [intros _; exists [], t; split_and!; [done|constructor|done]|done].
  - destruct (Z.eqb_spec r1 STAR) as [->|Hs].
    + rewrite parse_star. cbn [fst snd matchhere]. rewrite Z.eqb_refl, matchstar_spec. split.
      * intros (mid & post & -> & H1 & H2). apply (IH (length re2)) in H2 as (mid' & post' & -> & H2 & H3); [|lia|lia].
        exists (mid ++ mid'), post'. split; [by rewrite app_assoc|]. split; [|done]. constructor; [by apply lang_atom_star|done].
      * intros (mid & post & -> & H1 & H2). inversion H1 as [| | |? ? a b Ha Hb| |]; subst. exists a, (b ++ post).
        split; [by rewrite app_assoc|]. split; [by apply lang_atom_star|]. apply (IH (length re2)); [lia|lia|]. eauto.
    + apply Z.eqb_neq in Hs. rewrite parse_cons by done. cbn [fst snd].
      change (matchhere (r0 :: r1 :: re2) text) with (if r1 =? STAR then matchstar (matchhere re2) r0 text else
        match text with [] => false | t :: text1 => if (r0 =? DOT) || (r0 =? t) then matchhere (r1 :: re2) text1 else false end).
      rewrite Hs. apply step_spec. apply (IH (length (r1 :: re2))); simpl; lia.
Qed.

Lemma match_loop_spec re text : match_loop re text = true <-> exists pre rest, text = pre ++ rest /\ matches_here re rest.
Proof.
  induction text as [|t text IH]; cbn [match_loop].
  - split.
    + destruct (matchhere re []) eqn:E; [|done]. intros _. exists [], []. split; [done|]. by apply matchhere_spec.
    + intros (pre & rest & E & H). symmetry in E. apply app_nil in E as [-> ->]. apply matchhere_spec in H. by rewrite H.
  - split.
    + destruct (matchhere re (t :: text)) eqn:E; [intros _; exists [], (t :: text); split; [done|by apply matchhere_spec]|].
      intros (pre & rest & -> & H)%IH. by exists (t :: pre), rest.
    + intros (pre & rest & E & H). destruct (matchhere re (t :: text)) eqn:E'; [done|]. destruct pre as [|p pre]; simpl in E.
      { subst rest. apply matchhere_spec in H. congruence. }
      injection E as -> ->. apply IH. eauto.
Qed.

(** The language of a pattern: some substring of the text, at its beginning
    if the pattern starts with ^ and at its end if it ends in $, belongs to
    the language of the expression that the pattern denotes. *)
Definition denotes (re text : list Z) : Prop :=
  let '(anchored, body) := match re with r0 :: re1 => if r0 =? HAT then (true, re1) else (false, re) | [] => (false, re) end in
  exists pre mid post, text = pre ++ mid ++ post /\ lang (parse body).1 mid /\ (anchored = true -> pre = []) /\ ((parse body).2 = true -> post = []).

(** match() decides it. *)
Lemma match_denotes re text : match_ re text = true <-> denotes re text.
Proof.
  assert (L : forall re, match_loop re text = true <-> exists pre mid post, text = pre ++ mid ++ post /\ lang (parse re).1 mid /\
    (false = true -> pre = []) /\ ((parse re).2 = true -> post = [])).
  { intros re'. rewrite match_loop_spec. unfold matches_here. naive_solver. }
  unfold denotes. destruct re as [|r0 re1]; [apply L|]. cbn [match_]. destruct (r0 =? HAT); [|apply L]. rewrite matchhere_spec. unfold matches_here. split.
  - intros (mid & post & -> & H1 & H2). by exists [], mid, post.
  - intros (pre & mid & post & -> & H1 & H2 & H3). rewrite (H2 eq_refl). by exists mid, post.
Qed.

#[global] Instance denotes_dec re text : Decision (denotes re text).
Proof. refine (cast_if (decide (match_ re text = true))); by rewrite <- match_denotes. Defined.

(** * The lines of the input *)

(** The complete lines of [s], [cur] being the start of the first, and what
    follows the last newline. *)
Fixpoint split_lines (cur s : list Z) : list (list Z) * list Z :=
  match s with
  | [] => ([], cur)
  | c :: s =>
      if c =? NL then let '(ls, t) := split_lines [] s in (cur :: ls, t)
      else split_lines (cur ++ [c]) s
  end.

Definition grep_output (pattern : list Z) (ls : list (list Z)) : list Z :=
  concat ((fun l => if match_ pattern l then l ++ [NL] else []) <$> ls).

Lemma grep_output_filter pattern ls : grep_output pattern ls = concat ((fun l => l ++ [NL]) <$> filter (denotes pattern) ls).
Proof.
  unfold grep_output. induction ls as [|l ls IH]; [done|]. rewrite filter_cons, fmap_cons. cbn [concat]. rewrite IH.
  destruct (decide (denotes pattern l)) as [H|H]; rewrite <- match_denotes in H; [by rewrite H|]. by apply not_true_is_false in H as ->.
Qed.

Lemma split_lines_app cur a b :
  split_lines cur (a ++ b) = let '(l1, t1) := split_lines cur a in let '(l2, t2) := split_lines t1 b in (l1 ++ l2, t2).
Proof.
  revert cur. induction a as [|c a IH]; intros cur; simpl.
  - by destruct (split_lines cur b).
  - destruct (c =? NL); [|apply IH]. rewrite IH. destruct (split_lines [] a) as [l1 t1]. by destruct (split_lines t1 b).
Qed.

Lemma split_lines_cur cur a : strchr_at a NL = None -> Forall (fun c => c <> 0) a -> split_lines cur a = ([], cur ++ a).
Proof.
  revert cur. induction a as [|c a IH]; intros cur H Hz; simpl in *; [by rewrite app_nil_r|].
  inversion Hz as [|? ? Hc Hz']; subst. rewrite (proj2 (Z.eqb_neq c 0) Hc) in H. destruct (c =? NL); [done|].
  rewrite IH; [by rewrite <- app_assoc|by destruct (strchr_at a NL)|done].
Qed.

Lemma split_lines_tail cur s : split_lines [] cur = ([], cur) -> split_lines [] (split_lines cur s).2 = ([], (split_lines cur s).2).
Proof.
  revert cur. induction s as [|c s IH]; intros cur H; simpl; [done|]. destruct (Z.eqb_spec c NL) as [->|Hc].
  - specialize (IH [] eq_refl). by destruct (split_lines [] s).
  - apply IH. rewrite split_lines_app, H. simpl. by rewrite (proj2 (Z.eqb_neq _ _) Hc).
Qed.

Lemma split_lines_first cur s k :
  Forall (fun l => (length l <= k)%nat) (split_lines cur s).1 -> (length (split_lines cur s).2 <= k)%nat -> (length cur <= k)%nat.
Proof.
  revert cur. induction s as [|c s IH]; intros cur; simpl; [done|]. destruct (c =? NL).
  - destruct (split_lines [] s). simpl. by inversion 1.
  - intros H1 H2. specialize (IH _ H1 H2). rewrite length_app in IH. lia.
Qed.

Lemma strchr_at_some a q : strchr_at a NL = Some q -> exists l r, a = l ++ NL :: r /\ length l = q /\ strchr_at l NL = None /\ Forall (fun c => c <> 0) l.
Proof.
  revert q. induction a as [|c a IH]; intros q; simpl; [done|]. destruct (Z.eqb_spec c 0) as [|H0]; [done|].
  destruct (Z.eqb_spec c NL) as [->|Hc]; [intros [= <-]; by exists [], a|].
  destruct (strchr_at a NL) as [q'|]; [|done]. intros [= <-]. destruct (IH q' eq_refl) as (l & r & -> & <- & H1 & H2).
  exists (c :: l), r. split_and!; [done|done| |by constructor]. simpl. rewrite (proj2 (Z.eqb_neq _ _) H0), (proj2 (Z.eqb_neq _ _) Hc). by rewrite H1.
Qed.

Section grep_spec.
Context {W : Type} `{SO : SysOk W}.

Lemma grep_lines_spec fuel pattern p (w : W) : writable w 1 -> Forall (fun c => c <> 0) p -> (length p < fuel)%nat ->
  wp (grep_lines fuel pattern p) (fun p' w' => p' = (split_lines [] p).2 /\ emitted 1 w w' (grep_output pattern (split_lines [] p).1)) w.
Proof.
  revert p w. induction fuel as [|fuel IH]; intros p w Hw Hz Hf; [lia|]. cbn [grep_lines].
  destruct (strchr_at p NL) as [q|] eqn:E.
  2: { wp_simp. rewrite (split_lines_cur [] p E Hz). split; [done|]. apply emitted_nil. }
  apply strchr_at_some in E as (l & r & -> & <- & H1 & H2).
  rewrite take_app_length. replace (take (S (length l)) (l ++ NL :: r)) with (l ++ [NL]).
  2: { rewrite take_app_ge by lia. replace (S (length l) - length l)%nat with 1%nat by lia. done. }
  replace (drop (S (length l)) (l ++ NL :: r)) with r.
  2: { rewrite drop_app_ge by lia. by replace (S (length l) - length l)%nat with 1%nat by lia. }
  apply Forall_app in Hz as [_ Hz]. inversion Hz as [|? ? _ Hz']; subst. rewrite length_app in Hf. simpl in Hf.
  assert (E : split_lines [] (l ++ NL :: r) = (l :: (split_lines [] r).1, (split_lines [] r).2)).
  { rewrite split_lines_app, (split_lines_cur [] l H1 H2). simpl. by destruct (split_lines [] r). }
  rewrite E. cbn [fst snd]. unfold grep_output. rewrite fmap_cons. cbn [concat].
  assert (K : forall w1 o, emitted 1 w w1 o -> wp (grep_lines fuel pattern r) (fun p' w' => p' = (split_lines [] r).2 /\
    emitted 1 w w' (o ++ grep_output pattern (split_lines [] r).1)) w1).
  { intros w1 o Ho. eapply wp_mono; [apply IH; [by apply Ho|done|lia]|]. intros p' w' [-> Hp]. split; [done|]. by eapply emitted_trans. }
  destruct (match_ pattern l); wp_simp.
  - apply write_emitted; [done|]. intros w1 Hw1. wp_simp. by apply K.
  - apply K, emitted_nil.
Qed.

Definition line_limit : nat := 1022.

Lemma grep_loop_spec fuel pattern fd b (w : W) : readable w fd -> writable w 1 -> split_lines [] b = ([], b) ->
  Forall (fun c => c <> 0) (b ++ stream w fd) ->
  Forall (fun l => (length l <= line_limit)%nat) (split_lines b (stream w fd)).1 -> (length (split_lines b (stream w fd)).2 <= line_limit)%nat ->
  (length (stream w fd) < fuel)%nat ->
  wp (grep_loop fuel pattern fd b) (fun _ w' =>
    output w' 1 = output w 1 ++ grep_output pattern (split_lines b (stream w fd)).1 /\ stream w' fd = []) w.
Proof.
  revert b w. induction fuel as [|fuel IH]; intros b w Hr Hw Hb Hz H1 H2 Hf; [lia|]. cbn [grep_loop]. wp_simp.
  pose proof (split_lines_first _ _ _ H1 H2) as Hlen. unfold line_limit in Hlen.
  eapply wp_mono; [apply (u_read_ok w fd); [done|lia]|].
  intros nb w1 (k & -> & Hk1 & Hk2 & Hk3 & Hs & Ho & Hrd & Hwr & _). cbv beta iota. specialize (Hs fd). rewrite Z.eqb_refl in Hs.
  destruct (Z.ltb_spec 0 (Z.of_nat k)) as [Hk|Hk].
  2: { assert (k = 0%nat) as -> by lia. destruct (Hk3 eq_refl) as [?|E]; [lia|]. wp_simp. rewrite Ho, Hs, E. simpl. by rewrite app_nil_r. }
  set (s1 := take k (stream w fd)) in *. set (s2 := drop k (stream w fd)) in *.
  assert (Es : stream w fd = s1 ++ s2) by (symmetry; apply take_drop). rewrite Es in H1, H2, Hz |- *.
  assert (E1 : split_lines [] (b ++ s1) = split_lines b s1).
  { rewrite split_lines_app, Hb. by destruct (split_lines b s1). }
  assert (E2 : split_lines b (s1 ++ s2) = ((split_lines b s1).1 ++ (split_lines (split_lines b s1).2 s2).1, (split_lines (split_lines b s1).2 s2).2)).
  { rewrite split_lines_app. destruct (split_lines b s1) as [l1 t1]. simpl. by destruct (split_lines t1 s2). }
  rewrite E2 in H1, H2 |- *. cbn [fst snd] in *. apply Forall_app in H1 as [H1 H1'].
  rewrite app_assoc in Hz. apply Forall_app in Hz as [Hz1 Hz2]. wp_simp.
  eapply wp_mono; [apply grep_lines_spec; [by apply Hwr|done|lia]|]. intros b' w2 [-> P]. pose proof (emitted_out _ _ _ _ P) as P1. destruct P as (_ & P2 & P3 & P4 & _). rewrite E1 in *.
  assert (Hs2 : stream w2 fd = s2) by (by rewrite P2).
  eapply wp_mono; [apply IH|].
  - by apply P3, Hrd.
  - by apply P4, Hwr.
  - by apply split_lines_tail.
  - rewrite Hs2. apply Forall_app. split; [|done]. rewrite <- E1.
    clear -Hz1. generalize (b ++ s1) Hz1. intros s Hs. assert (G : forall s cur, Forall (fun c => c <> 0) cur -> Forall (fun c => c <> 0) s ->
      Forall (fun c => c <> 0) (split_lines cur s).2).
    { clear. induction s as [|c s IH]; intros cur Hc Hs; simpl; [done|]. inversion Hs; subst. destruct (c =? NL).
      - specialize (IH [] ltac:(constructor) ltac:(done)). by destruct (split_lines [] s).
      - apply IH; [|done]. apply Forall_app. split; [done|by repeat constructor]. }
    apply G; [constructor|done].
  - by rewrite Hs2.
  - by rewrite Hs2.
  - rewrite Hs2. unfold s2. rewrite length_drop. lia.
  - intros ? w' [Hout Hst]. rewrite Hs2 in Hout. rewrite Hout, P1, Ho. split; [|done].
    unfold grep_output. by rewrite fmap_app, concat_app, app_assoc.
Qed.

(** C37: grep prints exactly the lines of its input that are in the regular
    language of the pattern, whole and in order, however the kernel splits the
    input into reads, and stops at its end, provided the input has no NUL and no
    line longer than 1022 characters; characters after the last newline are not
    a line. *)
Theorem grep_correct fuel pattern fd (w : W) : readable w fd -> writable w 1 -> Forall (fun c => c <> 0) (stream w fd) ->
  Forall (fun l => (length l <= line_limit)%nat) (split_lines [] (stream w fd)).1 -> (length (split_lines [] (stream w fd)).2 <= line_limit)%nat ->
  (length (stream w fd) < fuel)%nat ->
  wp (grep fuel pattern fd) (fun _ w' =>
    output w' 1 = output w 1 ++ concat ((fun l => l ++ [NL]) <$> filter (denotes pattern) (split_lines [] (stream w fd)).1) /\ stream w' fd = []) w.
Proof. intros Hr Hw Hz H1 H2 Hf. rewrite <- grep_output_filter. apply grep_loop_spec; auto. Qed.

End grep_spec.

(** Reads of 2, 1 and 3 bytes of "ab", "b", "ca"; the pattern is a$. *)
Lemma grep_correct_witness :
  wp (grep 20 [97; 36] 0) (fun _ w' => output w' 1 = [99; 97; 10]) (World {[0 := [97; 98; 10; 98; 10; 99; 97; 10; 97]]} ∅ [2; 1; 3]%nat no_files).
Proof.
  eapply wp_mono; [apply (grep_correct 20 [97; 36] 0 (World {[0 := [97; 98; 10; 98; 10; 99; 97; 10; 97]]} ∅ [2; 1; 3]%nat no_files)); try exact I|].
  - change (Forall (fun c => c <> 0) [97; 98; 10; 98; 10; 99; 97; 10; 97]). repeat constructor; lia.
  - change (Forall (fun l => (length l <= line_limit)%nat) [[97; 98]; [98]; [99; 97]]). unfold line_limit. repeat constructor; simpl; lia.
  - change (length [97] <= line_limit)%nat. unfold line_limit. simpl. lia.
  - change (9 < 20)%nat. lia.
  - intros _ w' [H _]. rewrite H. vm_compute. reflexivity.
Defined.
