(* ===== verification/UserProgs.v ===== *)
(** The small user programs: user/cat.c, wc.c, echo.c, ls.c, rm.c, mkdir.c,
    kill.c, ln.c, and main() of user/grep.c.

    [argv] is the argument vector; a loop that reads a file to its end is
    bounded by [fuel] reads. *)
From S2P Require Import Prelude Usys Ulib Uprintf Grep.

Definition NLs : list Z := [10].

Section programs.
Context {W : Type} `{SY : Sys W}.

(** * cat *)

Fixpoint cat (fuel : nat) (fd : Z) : M W (ures unit) :=
  match fuel with
  | O => nofuel
  | S fuel =>
      let^ nb := up (u_read fd 512) in
      let '(n, buf) := nb in
      if 0 <? n then
        let^ r := up (u_write 1 buf) in
        if negb (r =? n) then up (fprintf 2 (str "cat: write error" ++ NLs) []) ^; exit 1
        else cat fuel fd
      else if n <? 0 then up (fprintf 2 (str "cat: read error" ++ NLs) []) ^; exit 1
      else ret (Val tt)
  end.

Fixpoint cat_files (fuel : nat) (args : list (list Z)) : M W (ures unit) :=
  match args with
  | [] => exit 0
  | a :: args =>
      let^ fd := up (u_open a O_RDONLY) in
      if fd <? 0 then up (fprintf 2 (str "cat: cannot open %s" ++ NLs) [VStr (Some a)]) ^; exit 1
      else
        cat fuel fd ^;
        up (u_close fd) ^;
        cat_files fuel args
  end.
Definition cat_main (fuel : nat) (argv : list (list Z)) : M W (ures unit) :=
  if (length argv <=? 1)%nat then cat fuel 0 ^; exit 0
  else cat_files fuel (tail argv).

(** * wc *)

Record counts : Type := Counts { c_l : Z; c_w : Z; c_c : Z; c_inword : bool }.

(** One turn of the inner loop; strchr() does not find the NUL character. *)
Definition wc_char (k : counts) (b : Z) : counts :=
  let c := s32 (c_c k + 1) in
  let l := if b =? 10 then s32 (c_l k + 1) else c_l k in
  if negb (b =? 0) && existsb (Z.eqb b) [32; 13; 9; 10; 11] then Counts l (c_w k) c false
  else if negb (c_inword k) then Counts l (s32 (c_w k + 1)) c true
  else Counts l (c_w k) c (c_inword k).

Fixpoint wc_loop (fuel : nat) (fd : Z) (name : list Z) (k : counts) : M W (ures unit) :=
  match fuel with
  | O => nofuel
  | S fuel =>
      let^ nb := up (u_read fd 512) in
      let '(n, buf) := nb in
      if 0 <? n then wc_loop fuel fd name (fold_left wc_char buf k)
      else if n <? 0 then up (printf (str "wc: read error" ++ NLs) []) ^; exit 1
      else up (printf (str "%d %d %d %s" ++ NLs) [VInt (c_l k); VInt (c_w k); VInt (c_c k); VStr (Some name)])
  end.
Definition wc (fuel : nat) (fd : Z) (name : list Z) : M W (ures unit) := wc_loop fuel fd name (Counts 0 0 0 false).

Fixpoint wc_files (fuel : nat) (args : list (list Z)) : M W (ures unit) :=
  match args with
  | [] => exit 0
  | a :: args =>
      let^ fd := up (u_open a O_RDONLY) in
      if fd <? 0 then up (printf (str "wc: cannot open %s" ++ NLs) [VStr (Some a)]) ^; exit 1
      else
        wc fuel fd a ^;
        up (u_close fd) ^;
        wc_files fuel args
  end.
Definition wc_main (fuel : nat) (argv : list (list Z)) : M W (ures unit) :=
  if (length argv <=? 1)%nat then wc fuel 0 [] ^; exit 0
  else wc_files fuel (tail argv).

(** * grep's main *)

Fixpoint grep_files (fuel : nat) (pattern : list Z) (args : list (list Z)) : M W (ures unit) :=
  match args with
  | [] => exit 0
  | a :: args =>
      let^ fd := up (u_open a O_RDONLY) in
      if fd <? 0 then up (printf (str "grep: cannot open %s" ++ NLs) [VStr (Some a)]) ^; exit 1
      else
        up (grep fuel pattern fd) ^;
        up (u_close fd) ^;
        grep_files fuel pattern args
  end.
Definition grep_main (fuel : nat) (argv : list (list Z)) : M W (ures unit) :=
  match argv with
  | _ :: pattern :: [] => up (grep fuel pattern 0) ^; exit 0
  | _ :: pattern :: args => grep_files fuel pattern args
  | _ => up (fprintf 2 (str "usage: grep pattern [file ...]" ++ NLs) []) ^; exit 1
  end.

(** * echo, rm, mkdir, kill, ln *)

Fixpoint echo_args (args : list (list Z)) : M W (ures unit) :=
  match args with
  | [] => exit 0
  | a :: args =>
      up (u_write 1 a) ^;
      up (u_write 1 (match args with [] => NLs | _ => str " " end)) ^;
      echo_args args
  end.
Definition echo_main (argv : list (list Z)) : M W (ures unit) := echo_args (tail argv).

Fixpoint rm_args (args : list (list Z)) : M W (ures unit) :=
  match args with
  | [] => exit 0
  | a :: args =>
      let^ r := up (u_unlink a) in
      if r <? 0 then up (fprintf 2 (str "rm: %s failed to delete" ++ NLs) [VStr (Some a)]) ^; exit 0
      else rm_args args
  end.
Definition rm_main (argv : list (list Z)) : M W (ures unit) :=
  if (length argv <? 2)%nat then up (fprintf 2 (str "Usage: rm files..." ++ NLs) []) ^; exit 1
  else rm_args (tail argv).

Fixpoint mkdir_args (args : list (list Z)) : M W (ures unit) :=
  match args with
  | [] => exit 0
  | a :: args =>
      let^ r := up (u_mkdir a) in
      if r <? 0 then up (fprintf 2 (str "mkdir: %s failed to create" ++ NLs) [VStr (Some a)]) ^; exit 0
      else mkdir_args args
  end.
Definition mkdir_main (argv : list (list Z)) : M W (ures unit) :=
  if (length argv <? 2)%nat then up (fprintf 2 (str "Usage: mkdir files..." ++ NLs) []) ^; exit 1
  else mkdir_args (tail argv).

Fixpoint kill_args (args : list (list Z)) : M W (ures unit) :=
  match args with
  | [] => exit 0
  | a :: args => up (u_kill (atoi_chars 0 a)) ^; kill_args args
  end.
Definition kill_main (argv : list (list Z)) : M W (ures unit) :=
  if (length argv <? 2)%nat then up (fprintf 2 (str "usage: kill pid..." ++ NLs) []) ^; exit 1
  else kill_args (tail argv).

Definition ln_main (argv : list (list Z)) : M W (ures unit) :=
  match argv with
  | [_; a1; a2] =>
      let^ r := up (u_link a1 a2) in
      (if r <? 0 then up (fprintf 2 (str "link %s %s: failed" ++ NLs) [VStr (Some a1); VStr (Some a2)]) else ret (Val tt)) ^;
      exit 0
  | _ => up (fprintf 2 (str "Usage: ln old new" ++ NLs) []) ^; exit 1
  end.

(** * ls *)

Definition DIRSIZ : nat := 14.

(** fmtname(): the part after the last slash, padded with blanks. *)
Fixpoint after_slash (path : list Z) : list Z :=
  match path with
  | [] => []
  | c :: path => if existsb (Z.eqb 47) path then after_slash path else if c =? 47 then path else c :: path
  end.
Definition fmtname (path : list Z) : list Z :=
  let p := after_slash path in
  if (DIRSIZ <=? length p)%nat then p else p ++ replicate (DIRSIZ - length p) 32.

Definition ls_print (name : list Z) (st : stat) : M W unit :=
  printf (str "%s %d %d %d" ++ NLs) [VStr (Some (fmtname name)); VInt (st_type st); VInt (st_ino st); VInt (s32 (st_size st))].

(** The entries of a directory: 16 bytes each, an inode number and a name. *)
Fixpoint ls_loop (fuel : nat) (fd : Z) (path : list Z) : M W (ures unit) :=
  match fuel with
  | O => nofuel
  | S fuel =>
      let^ nb := up (u_read fd 16) in
      let '(n, de) := nb in
      if negb (n =? 16) then ret (Val tt)
      else if hd 0 de + 2 ^ 8 * hd 0 (tail de) =? 0 then ls_loop fuel fd path
      else
        let buf := path ++ str "/" ++ cstr (take DIRSIZ (drop 2 de)) in
        let^ rs := up (ustat buf) in
        (match rs with
         | (r, Some st) => if r <? 0 then up (printf (str "ls: cannot stat %s" ++ NLs) [VStr (Some buf)]) else up (ls_print buf st)
         | (_, None) => up (printf (str "ls: cannot stat %s" ++ NLs) [VStr (Some buf)])
         end) ^;
        ls_loop fuel fd path
  end.

Definition ls (fuel : nat) (path : list Z) : M W (ures unit) :=
  let^ fd := up (u_open path O_RDONLY) in
  if fd <? 0 then up (fprintf 2 (str "ls: cannot open %s" ++ NLs) [VStr (Some path)])
  else
    let^ rs := up (u_fstat fd) in
    let '(r, st) := rs in
    if r <? 0 then
      up (fprintf 2 (str "ls: cannot stat %s" ++ NLs) [VStr (Some path)]) ^;
      let^ _ := up (u_close fd) in ret (Val tt)
    else
      (if (st_type st =? 3) || (st_type st =? 2) then up (ls_print path st)
       else if st_type st =? 1 then
         if (512 <? length path + 1 + DIRSIZ + 1)%nat then up (printf (str "ls: path too long" ++ NLs) [])
         else ls_loop fuel fd path
       else ret (Val tt)) ^;
      let^ _ := up (u_close fd) in ret (Val tt).

Fixpoint ls_args (fuel : nat) (args : list (list Z)) : M W (ures unit) :=
  match args with
  | [] => exit 0
  | a :: args => ls fuel a ^; ls_args fuel args
  end.
Definition ls_main (fuel : nat) (argv : list (list Z)) : M W (ures unit) :=
  if (length argv <? 2)%nat then ls fuel (str ".") ^; exit 0
  else ls_args fuel (tail argv).

End programs.

(** * Specifications *)

Section specs.
Context {W : Type} `{SO : SysOk W}.

Lemma cat_spec fuel fd (w : W) : readable w fd -> writable w 1 -> (length (stream w fd) < fuel)%nat ->
  wp (cat fuel fd) (fun r w' => r = Val tt /\ output w' 1 = output w 1 ++ stream w fd /\
    (forall f, f <> 1 -> output w' f = output w f) /\ stream w' fd = [] /\ sys_keeps w w') w.
Proof.
  revert w. induction fuel as [|fuel IH]; intros w Hr Hw Hf; [lia|]. cbn [cat]. wp_simp.
  eapply wp_mono; [apply (u_read_ok w fd 512); [done|lia]|].
  intros nb w1 (k & -> & Hk1 & Hk2 & Hk3 & Hs & Ho & Hkp). cbv beta iota. specialize (Hs fd). rewrite Z.eqb_refl in Hs.
  destruct (Z.ltb_spec 0 (Z.of_nat k)) as [Hk|Hk].
  - wp_simp. apply write_emitted; [by apply Hkp|]. intros w2 Hw2. cbv beta iota.
    rewrite length_take, Nat.min_l, Z.eqb_refl by lia. cbn [negb]. destruct (Hw2) as (E1 & E2 & E3).
    assert (Hst : stream w2 fd = drop k (stream w fd)) by (by rewrite E2).
    eapply wp_mono; [apply IH; [by apply E3, Hkp|by apply E3, Hkp|rewrite Hst, length_drop; lia]|].
    intros r w' (-> & H1 & H2 & H3 & H4). split; [done|]. split.
    { rewrite H1, Hst, (emitted_out _ _ _ _ Hw2), Ho, <- app_assoc, take_drop. done. }
    split; [intros f Hne; rewrite H2, E1 by done; by rewrite (proj2 (Z.eqb_neq _ _) Hne), Ho|]. split; [done|].
    eapply keeps_trans; [exact Hkp|]. by eapply keeps_trans.
  - rewrite (proj2 (Z.ltb_ge _ _)) by lia. wp_simp. assert (k = 0%nat) as -> by lia. destruct (Hk3 eq_refl) as [?|E]; [lia|].
    rewrite Hs, E, app_nil_r. by split_and!.
Qed.

Lemma cat_files_spec fuel args cs (w : W) : writable w 1 ->
  Forall2 (fun a c => contents w a = Some c /\ (length c < fuel)%nat) args cs ->
  wp (cat_files fuel args) (fun r w' => r = Exited 0 /\ output w' 1 = output w 1 ++ concat cs) w.
Proof.
  intros Hw H. revert w Hw H. revert cs. induction args as [|a args IH]; intros cs w Hw H; inversion H as [|? c ? cs' [Hc Hl] Hcs]; subst; cbn [cat_files].
  - wp_simp. simpl. by rewrite app_nil_r.
  - wp_simp. eapply wp_mono; [apply (u_open_ok w a)|]. intros fd w1 (Ho & Hk & Hm). cbv beta iota. rewrite Hc in Hm. destruct Hm as (Hfd & Hr & Hs).
    rewrite (proj2 (Z.ltb_ge _ _)) by lia. wp_simp. eapply wp_mono; [apply cat_spec; [done|by apply Hk|by rewrite Hs]|].
    intros r w2 (-> & H1 & H2 & _ & H3). cbv beta iota. wp_simp. eapply wp_mono; [by apply u_close_ok|].
    intros r w3 (H4 & H5 & H6). cbv beta iota. eapply wp_mono; [apply (IH cs')|].
    + apply H5; [lia|]. by apply H3, Hk.
    + eapply Forall2_impl; [exact Hcs|]. intros a' c' [Ha' ?]. split; [|done]. rewrite H6.
      destruct H3 as (_ & _ & H3), Hk as (_ & _ & Hk). by rewrite H3, Hk.
    + intros r' w' [-> H7]. split; [done|]. rewrite H7, H4, H1, Ho, Hs. simpl. by rewrite app_assoc.
Qed.

(** cat concatenates: given the names of existing files it writes exactly their
    contents, in order, to the standard output, however the kernel splits the
    reads, and exits with status 0. *)
Theorem cat_main_correct fuel name args cs (w : W) : writable w 1 -> args <> [] ->
  Forall2 (fun a c => contents w a = Some c /\ (length c < fuel)%nat) args cs ->
  wp (cat_main fuel (name :: args)) (fun r w' => r = Exited 0 /\ output w' 1 = output w 1 ++ concat cs) w.
Proof. intros Hw Ha H. destruct args as [|a args]; [done|]. change (cat_main fuel (name :: a :: args)) with (cat_files fuel (a :: args)). by apply cat_files_spec. Qed.

(** ** wc *)

Definition space (c : Z) : bool := (c =? 32) || (c =? 13) || (c =? 9) || (c =? 10) || (c =? 11).
Definition started (cur : list Z) : Z := match cur with [] => 0 | _ => 1 end.

Lemma wc_char_space c : negb (c =? 0) && existsb (Z.eqb c) [32; 13; 9; 10; 11] = space c.
Proof. unfold space. simpl. zcases; done. Qed.

Lemma wc_fold cur s k pre : c_inword k = negb (bool_decide (cur = [])) ->
  0 <= c_l k <= c_c k -> 0 <= c_w k <= c_c k -> c_c k + Z.of_nat (length s) < 2 ^ 31 ->
  let k' := fold_left wc_char s k in
  c_l k' = c_l k + Z.of_nat (length (split_lines pre s).1) /\ c_w k' = c_w k + Z.of_nat (length (words space cur s)) - started cur /\
  c_c k' = c_c k + Z.of_nat (length s).
Proof.
  revert cur k pre. induction s as [|c s IH]; intros cur k pre Hi Hl Hw Hc; cbv zeta; cbn [fold_left].
  - simpl. destruct cur; simpl; lia.
  - simpl length in Hc. assert (E1 : s32 (c_c k + 1) = c_c k + 1) by (apply s32_small; lia).
    assert (E2 : s32 (c_l k + 1) = c_l k + 1) by (apply s32_small; lia). assert (E3 : s32 (c_w k + 1) = c_w k + 1) by (apply s32_small; lia).
    cbn [words split_lines]. unfold wc_char at 2 4 6. rewrite wc_char_space, E1, E2, E3. unfold NL. destruct (space c) eqn:Es.
    + edestruct (IH [] (Counts (if c =? 10 then c_l k + 1 else c_l k) (c_w k) (c_c k + 1) false) (if c =? 10 then [] else pre ++ [c])) as (H1 & H2 & H3);
        cbn [c_l c_w c_c c_inword]; [done|zcases|lia|lia|]. rewrite H1, H2, H3. cbn [c_l c_w c_c].
      destruct (c =? 10); [destruct (split_lines [] s)|]; destruct cur; simpl length; simpl started; lia.
    + assert (Hn : (c =? 10) = false) by (unfold space in Es; destruct (Z.eqb_spec c 10) as [->|]; [done|done]). rewrite Hn, Hi.
      assert (Hcur : forall k', c_inword k' = true -> c_l k' = c_l k -> c_c k' = c_c k + 1 -> 0 <= c_w k' <= c_c k' ->
        let k'' := fold_left wc_char s k' in
        c_l k'' = c_l k + Z.of_nat (length (split_lines (pre ++ [c]) s).1) /\ c_w k'' = c_w k' + Z.of_nat (length (words space (cur ++ [c]) s)) - 1 /\
        c_c k'' = c_c k + Z.of_nat (S (length s))).
      { intros k' A1 A2 A3 A4. edestruct (IH (cur ++ [c]) k' (pre ++ [c])) as (H1 & H2 & H3); [|lia|lia|lia|].
        - rewrite A1. by rewrite bool_decide_false by (by destruct cur).
        - cbv zeta. rewrite H1, H2, H3. replace (started (cur ++ [c])) with 1 by (by destruct cur). lia. }
      destruct cur as [|d cur]; cbn [bool_decide]; rewrite ?bool_decide_true by done; rewrite ?bool_decide_false by done; cbn [negb].
      * destruct (Hcur (Counts (c_l k) (c_w k + 1) (c_c k + 1) true)) as (H1 & H2 & H3); cbn [c_l c_w c_c c_inword]; try done; try lia.
        rewrite H1, H2, H3. cbn [c_w started length]. lia.
      * destruct (Hcur (Counts (c_l k) (c_w k) (c_c k + 1) true)) as (H1 & H2 & H3); cbn [c_l c_w c_c c_inword]; try done; try lia.
Qed.

Definition wc_text (l w c : Z) (name : list Z) : list Z :=
  int_text L0 CDec l ++ [32] ++ int_text L0 CDec w ++ [32] ++ int_text L0 CDec c ++ [32] ++ name ++ [10].

Lemma wc_print l n c name (w : W) : writable w 1 ->
  wp (printf (str "%d %d %d %s" ++ NLs) [VInt l; VInt n; VInt c; VStr (Some name)])
    (fun _ w' => emitted 1 w w' (u8 <$> wc_text l n c name)) w.
Proof.
  intros Hw. set (ps := [PInt L0 CDec; PLit 32; PInt L0 CDec; PLit 32; PInt L0 CDec; PLit 32; PStr; PLit 10]).
  assert (E : str "%d %d %d %s" ++ NLs = concat (unparse <$> ps)) by reflexivity.
  unfold printf. rewrite E. apply vprintf_render; [by repeat constructor| |done]. subst ps. clear E.
  unfold wc_text. cbn [render default]. cbn [fmap option_fmap option_map app]. by rewrite <- ?app_assoc.
Qed.

Lemma wc_loop_spec fuel fd name k (w : W) : readable w fd -> writable w 1 -> (length (stream w fd) < fuel)%nat ->
  let k' := fold_left wc_char (stream w fd) k in
  wp (wc_loop fuel fd name k) (fun r w' => r = Val tt /\ output w' 1 = output w 1 ++ (u8 <$> wc_text (c_l k') (c_w k') (c_c k') name)) w.
Proof.
  revert w k. induction fuel as [|fuel IH]; intros w k Hr Hw Hf; [lia|]. cbn [wc_loop]. cbv zeta. wp_simp.
  eapply wp_mono; [apply (u_read_ok w fd 512); [done|lia]|].
  intros nb w1 (n & -> & Hk1 & Hk2 & Hk3 & Hs & Ho & Hkp). cbv beta iota. specialize (Hs fd). rewrite Z.eqb_refl in Hs.
  destruct (Z.ltb_spec 0 (Z.of_nat n)) as [Hk|Hk].
  - eapply wp_mono; [apply IH; [by apply Hkp|by apply Hkp|rewrite Hs, length_drop; lia]|]. cbv zeta.
    intros r w' [-> H]. split; [done|]. rewrite H, Hs, Ho, <- fold_left_app, take_drop. done.
  - rewrite (proj2 (Z.ltb_ge _ _)) by lia. wp_simp. assert (n = 0%nat) as -> by lia. destruct (Hk3 eq_refl) as [?|E]; [lia|].
    rewrite E. eapply wp_mono; [apply wc_print; by apply Hkp|]. intros ? w' H. split; [by destruct a|]. by rewrite (emitted_out _ _ _ _ H), Ho.
Qed.

(** wc counts the lines, words and characters of its input and prints the three
    numbers and the name: lines are newlines, words the maximal runs of characters
    other than blank, tab, carriage return, newline and vertical tab, whatever
    pieces the input arrives in (for inputs below 2^31 characters). *)
Theorem wc_correct fuel fd name (w : W) : readable w fd -> writable w 1 ->
  (length (stream w fd) < fuel)%nat -> Z.of_nat (length (stream w fd)) < 2 ^ 31 ->
  wp (wc fuel fd name) (fun r w' => r = Val tt /\ output w' 1 = output w 1 ++ (u8 <$> wc_text
    (Z.of_nat (length (split_lines [] (stream w fd)).1)) (Z.of_nat (length (words space [] (stream w fd)))) (Z.of_nat (length (stream w fd))) name)) w.
Proof.
  intros Hr Hw Hf Hl. destruct (wc_fold [] (stream w fd) (Counts 0 0 0 false) []) as (H1 & H2 & H3); cbn [c_l c_w c_c]; try done; try lia.
  eapply wp_mono; [by apply wc_loop_spec|]. cbv zeta. rewrite H1, H2, H3. cbn [c_l c_w c_c started]. intros r w' [-> H]. split; [done|].
  rewrite H, Z.sub_0_r. done.
Qed.

(** echo prints its arguments separated by blanks and ended by a newline. *)
Theorem echo_correct name a args (w : W) : writable w 1 ->
  wp (echo_main (name :: a :: args)) (fun r w' => r = Exited 0 /\
    output w' 1 = output w 1 ++ a ++ concat ((fun x => 32 :: x) <$> args) ++ [10]) w.
Proof.
  intros Hw. unfold echo_main. cbn [tail]. revert a w Hw. induction args as [|b args IH]; intros a w Hw; cbn [echo_args]; wp_simp.
  - apply write_emitted; [done|]. intros w1 H1. cbv beta iota. wp_simp. apply write_emitted; [by apply H1|]. intros w2 H2. wp_simp.
    split; [done|]. rewrite (emitted_out _ _ _ _ H2), (emitted_out _ _ _ _ H1). simpl. by rewrite <- app_assoc.
  - apply write_emitted; [done|]. intros w1 H1. cbv beta iota. wp_simp. apply write_emitted; [by apply H1|]. intros w2 H2. cbv beta iota.
    eapply wp_mono; [apply (IH b); by apply H2, H1|].
    intros r w' [-> H]. split; [done|]. rewrite H, (emitted_out _ _ _ _ H2), (emitted_out _ _ _ _ H1). simpl. by rewrite <- !app_assoc.
Qed.

End specs.

Definition demo_world : world := World ∅ ∅ [2; 3]%nat (fun p => if bool_decide (p = str "a") then Some (str "one two") else if bool_decide (p = str "b") then Some (str "three") else None).

Lemma cat_main_correct_witness :
  wp (cat_main 20 [str "cat"; str "a"; str "b"]) (fun r w' => r = Exited 0 /\ output w' 1 = str "one twothree") demo_world.
Proof.
  eapply wp_mono; [apply (cat_main_correct 20 (str "cat") [str "a"; str "b"] [str "one two"; str "three"] demo_world); [exact I|done|]|].
  2: { intros r w' [-> H]. rewrite H. split; [reflexivity|]. vm_compute. reflexivity. }
  assert (E : contents demo_world (str "a") = Some (str "one two") /\ contents demo_world (str "b") = Some (str "three")) by (split; vm_compute; reflexivity).
  destruct E as [E1 E2]. apply Forall2_cons. split; [split; [exact E1|simpl; lia]|]. apply Forall2_cons. split; [split; [exact E2|simpl; lia]|].
  apply Forall2_nil_2.
Defined.

Lemma wc_correct_witness :
  wp (wc 20 0 (str "x")) (fun r w' => output w' 1 = str "1 3 12 x" ++ [10]) (World {[0 := str "ab c" ++ [10] ++ str " defghi"]} ∅ [3; 1]%nat no_files).
Proof.
  eapply wp_mono; [apply (wc_correct 20 0 (str "x") (World {[0 := str "ab c" ++ [10] ++ str " defghi"]} ∅ [3; 1]%nat no_files)); try exact I|].
  - change (12 < 20)%nat. lia.
  - reflexivity.
  - intros r w' [_ H]. rewrite H. vm_compute. reflexivity.
Defined.

Lemma echo_correct_witness : wp (echo_main [str "echo"; str "hi"; str "you"]) (fun _ w' => output w' 1 = str "hi you" ++ [10]) demo_world.
Proof.
  eapply wp_mono; [apply (echo_correct (str "echo") (str "hi") [str "you"] demo_world); exact I|].
  intros r w' [_ H]. rewrite H. vm_compute. reflexivity.
Defined.
