(* ===== verification/EAFITos.v ===== *)
(** src/utils/apps/EAFITos.c: the interactive shell with Spanish commands.

    The line buffer is the list of its bytes; [args] holds offsets into it,
    as the C array holds pointers.  One turn of the endless loop is
    [eaf_step]; [eaf_main] bounds the number of turns. *)
From S2P Require Import Prelude Usys Ulib Uprintf.

Definition TICKS_PER_SEC : Z := 10.

(** * Splitting the line *)

Definition eaf_sep (c : Z) : bool := (c =? 32) || (c =? 9) || (c =? 10) || (c =? 13).

(** The loop over line[i]: separators become NULs and the first five words
    are recorded. *)
Fixpoint eaf_scan (i : nat) (line : list Z) (args : list nat) (inword : bool) : list Z * list nat :=
  match line with
  | [] => ([], args)
  | c :: rest =>
      if c =? 0 then (line, args)
      else if eaf_sep c then
        let '(b, a) := eaf_scan (S i) rest args false in (0 :: b, a)
      else
        let args := if negb inword then if (length args <? 6 - 1)%nat then args ++ [i] else args else args in
        let '(b, a) := eaf_scan (S i) rest args true in (c :: b, a)
  end.
(** The strings args[0], args[1], ... point to. *)
Definition eaf_args (line : list Z) : list (list Z) :=
  let '(b, a) := eaf_scan 0 line [] false in (fun off => cstr (drop off b)) <$> a.

(** * The commands *)

Definition nl : list Z := [10].

Section eafitos.
Context {W : Type} `{SY : Sys W}.

Definition say (s : string) : M W unit := printf (str s ++ nl) [].

Definition eaf_ayuda : M W unit :=
  printf (nl ++ str "Comandos:" ++ nl) [] ;;
  say "  listar" ;;
  say "  leer <archivo>" ;;
  say "  tiempo" ;;
  say "  calc <num1> <operador> <num2>" ;;
  say "  crear <archivo>" ;;
  say "  eliminar <archivo>" ;;
  say "  limpiar" ;;
  say "  ayuda" ;;
  say "  salir".

(** fork(), exec() in the child, wait() in the parent. *)
Definition eaf_run (prog : list Z) (argv : list (list Z)) (msg : string) : M W unit :=
  let! pid := u_fork (let^ _ := u_exec prog argv in up (fprintf 2 (str msg ++ nl) []) ^; exit 1) in
  if 0 <? pid then let! _ := u_wait in ret tt else ret tt.
Definition eaf_listar : M W unit := eaf_run (str "ls") [str "ls"] "No se pudo ejecutar ls".
Definition eaf_leer (args : list (list Z)) : M W unit :=
  match args with
  | _ :: f :: _ => eaf_run (str "cat") [str "cat"; f] "No se pudo ejecutar cat"
  | _ => say "Uso: leer <archivo>"
  end.

Definition eaf_tiempo : M W unit :=
  let! ticks := u_uptime in
  let total := Z.quot ticks TICKS_PER_SEC in
  let hora := Z.quot total 3600 in
  let minuto := Z.quot (Z.rem total 3600) 60 in
  let segundo := Z.rem total 60 in
  printf (str "Tiempo desde arranque: %d%d:%d%d:%d%d" ++ nl)
    [VInt (Z.quot hora 10); VInt (Z.rem hora 10); VInt (Z.quot minuto 10); VInt (Z.rem minuto 10);
     VInt (Z.quot segundo 10); VInt (Z.rem segundo 10)].

Fixpoint eaf_blank (n : nat) : M W unit :=
  match n with O => ret tt | S n => printf nl [] ;; eaf_blank n end.
Definition eaf_limpiar : M W unit := eaf_blank 30.

Definition eaf_crear (args : list (list Z)) : M W unit :=
  match args with
  | [_; f] =>
      let! fd := u_open f (Z.lor O_CREATE O_WRONLY) in
      if fd <? 0 then say "No se pudo crear el archivo"
      else
        let! _ := u_close fd in
        printf (str "Archivo creado: %s" ++ nl) [VStr (Some f)]
  | _ => say "Uso: crear <archivo>"
  end.

(** The test of confirm[0] and confirm[1]. *)
Definition eaf_confirmed (confirm : list Z) : bool :=
  let c0 := hd 0 confirm in
  let c1 := hd 0 (tail confirm) in
  (c0 =? 115) && ((c1 =? 105) || (c1 =? 10) || (c1 =? 0)).
Definition eaf_eliminar (args : list (list Z)) : M W unit :=
  match args with
  | [_; f] =>
      printf (str "Seguro que quieres eliminar '%s'? (si/no): ") [VStr (Some f)] ;;
      let! confirm := ugets 16 in
      if negb (eaf_confirmed confirm) then say "Cancelado"
      else
        let! r := u_unlink f in
        if r <? 0 then say "No se pudo eliminar el archivo"
        else printf (str "Archivo eliminado: %s" ++ nl) [VStr (Some f)]
  | _ => say "Uso: eliminar <archivo>"
  end.

(** int arithmetic; division truncates. *)
Definition eaf_calc (args : list (list Z)) : M W unit :=
  match args with
  | [_; a1; a2; a3] =>
      let a := atoi_chars 0 a1 in
      let b := atoi_chars 0 a3 in
      let op := hd 0 a2 in
      let result r := printf (str "Resultado: %d" ++ nl) [VInt (s32 r)] in
      if op =? 43 then result (a + b)
      else if op =? 45 then result (a - b)
      else if op =? 42 then result (a * b)
      else if op =? 47 then
        if b =? 0 then say "Error: division por cero" else result (Z.quot a b)
      else say "Operador invalido. Usa + - * /"
  | _ => say "Uso: calc <num1> <operador> <num2>"
  end.

(** One turn of the loop; [false] is the break of "salir".  gets() returns
    its argument, so the test for 0 never succeeds. *)
Definition eaf_step : M W bool :=
  printf (nl ++ str "EAFITos> ") [] ;;
  let! line := ugets 128 in
  match eaf_args line with
  | [] => ret true
  | cmd :: rest =>
      let args := cmd :: rest in
      let cmdis (s : string) := (strcmp_chars cmd (str s) =? 0) in
      if cmdis "salir"%string then ret false
      else
        (if cmdis "ayuda"%string then eaf_ayuda
         else if cmdis "listar"%string then eaf_listar
         else if cmdis "leer"%string then eaf_leer args
         else if cmdis "tiempo"%string then eaf_tiempo
         else if cmdis "limpiar"%string then eaf_limpiar
         else if cmdis "crear"%string then eaf_crear args
         else if cmdis "eliminar"%string then eaf_eliminar args
         else if cmdis "calc"%string then eaf_calc args
         else say "Comando no reconocido. Escribe ayuda.") ;;
        ret true
  end.

Fixpoint eaf_loop (fuel : nat) : M W unit :=
  match fuel with
  | O => nofuel
  | S fuel => let! go := eaf_step in if go : bool then eaf_loop fuel else ret tt
  end.
Definition eaf_main (fuel : nat) : M W (ures unit) :=
  up (printf (nl ++ str "===============================================================" ++ nl) []) ^;
  up (say "                    Bienvenido a EAFITos                    ") ^;
  up (say "===============================================================") ^;
  up (printf (nl ++ str "Escribe ayuda para ver comandos." ++ nl) []) ^;
  up (eaf_loop fuel) ^;
  up (printf (str "Saliendo de EAFITos " ++ nl) []) ^;
  exit 0.

End eafitos.

(** * Splitting the line *)

Lemma eaf_scan_spec i l args inword : Forall (fun c => c <> 0) l -> (length args <= 5)%nat ->
  let '(b, a) := eaf_scan i (l ++ [0]) args inword in
  exists new, a = args ++ new /\ Forall (fun off => (i <= off)%nat) new /\ cstr b = run eaf_sep l /\
    (fun off => cstr (drop (off - i) b)) <$> new =
      take (5 - length args) (if inword then after eaf_sep l else words eaf_sep [] l).
Proof.
  revert i args inword. induction l as [|c l IH]; intros i args inword Hz Ha.
  - simpl. exists []. rewrite app_nil_r. unfold after. simpl. by destruct inword; rewrite take_nil.
  - inversion Hz as [|? ? Hc Hz']; subst. cbn [eaf_scan app]. rewrite (proj2 (Z.eqb_neq _ _) Hc). cbn [run words]. destruct (eaf_sep c) eqn:Es.
    + specialize (IH (S i) args false Hz' Ha). destruct (eaf_scan (S i) (l ++ [0]) args false) as [b a]. destruct IH as (new & -> & H1 & H2 & H3).
      exists new. split; [done|]. split; [eapply Forall_impl; [exact H1|]; intros; simpl in *; lia|]. split; [done|].
      replace (after eaf_sep (c :: l)) with (words eaf_sep [] l) by (unfold after; simpl; by rewrite Es; simpl; rewrite Es).
      transitivity (take (5 - length args) (words eaf_sep [] l)); [|by destruct inword]. rewrite <- H3.
      apply list_fmap_ext. intros k off Hk. rewrite Forall_lookup in H1. specialize (H1 k off Hk). simpl in H1.
      by replace (off - i)%nat with (S (off - S i)) by lia.
    + set (args' := if negb inword then if (length args <? 6 - 1)%nat then args ++ [i] else args else args).
      assert (Ha' : (length args' <= 5)%nat).
      { unfold args'. destruct (negb inword), (Nat.ltb_spec (length args) (6 - 1)); rewrite ?length_app; simpl; lia. }
      specialize (IH (S i) args' true Hz' Ha'). destruct (eaf_scan (S i) (l ++ [0]) args' true) as [b a].
      destruct IH as (new & -> & H1 & H2 & H3).
      assert (Hb : cstr (c :: b) = c :: run eaf_sep l) by (simpl; by rewrite (proj2 (Z.eqb_neq _ _) Hc), H2).
      assert (Hn : (fun off => cstr (drop (off - i) (c :: b))) <$> new = take (5 - length args') (after eaf_sep l)).
      { rewrite <- H3. apply list_fmap_ext. intros k off Hk. rewrite Forall_lookup in H1. specialize (H1 k off Hk). simpl in H1.
        by replace (off - i)%nat with (S (off - S i)) by lia. }
      assert (Hn' : Forall (fun off => (i <= off)%nat) new) by (eapply Forall_impl; [exact H1|]; intros; simpl in *; lia).
      assert (Eaf : after eaf_sep (c :: l) = after eaf_sep l) by (unfold after; simpl; by rewrite Es).
      assert (Ew : words eaf_sep [c] l = (c :: run eaf_sep l) :: after eaf_sep l) by (by rewrite words_cur).
      unfold args' in *. destruct inword; cbn [negb] in *.
      * exists new. by rewrite Eaf.
      * destruct (Nat.ltb_spec (length args) (6 - 1)) as [Hlt|Hge].
        -- exists (i :: new). split; [by rewrite <- app_assoc|]. split; [by constructor|]. split; [done|].
           change ([] ++ [c]) with [c]. rewrite fmap_cons, Hn, Nat.sub_diag, drop_0, Hb, Ew, length_app. simpl length.
           by replace (5 - length args)%nat with (S (5 - (length args + 1))) by lia.
        -- exists new. split; [done|]. split; [done|]. split; [done|]. rewrite Hn. by replace (5 - length args)%nat with 0%nat by lia.
Qed.

Lemma eaf_args_words l : Forall (fun c => c <> 0) l -> eaf_args (l ++ [0]) = take 5 (words eaf_sep [] l).
Proof.
  intros H. unfold eaf_args. pose proof (eaf_scan_spec 0 l [] false H ltac:(simpl; lia)) as S.
  destruct (eaf_scan 0 (l ++ [0]) [] false) as [b a]. destruct S as (new & -> & _ & _ & S). simpl in S |- *. rewrite <- S.
  apply list_fmap_ext. intros k off _. by rewrite Nat.sub_0_r.
Qed.

(** * Specifications *)

Section specs.
Context {W : Type} `{SO : SysOk W}.

(** A format without conversions. *)
Definition plainb (l : list Z) : bool := forallb (fun c => negb (c =? 37) && (0 <=? c) && (c <? 2 ^ 8)) l.
Lemma plainb_plain l : plainb l = true -> plain l.
Proof.
  unfold plainb. rewrite forallb_forall. intros H. apply Forall_forall. intros c Hc. apply list_elem_of_In in Hc. specialize (H c Hc).
  apply andb_true_iff in H as [[H1%negb_true_iff%Z.eqb_neq H2%Z.leb_le]%andb_true_iff H3%Z.ltb_lt]. lia.
Qed.

Definition prompt : list Z := nl ++ str "EAFITos> ".

(** The prompt, then the line typed. *)
Lemma eaf_read_line (Q : bool -> W -> Prop) (k : list Z -> M W bool) l rest w : readable w 0 -> writable w 1 ->
  stream w 0 = l ++ 10 :: rest -> Forall (fun c => eol c = false) l -> (length l < 127)%nat ->
  (forall w', stream w' 0 = rest -> output w' 1 = output w 1 ++ prompt -> sys_keeps w w' -> wp (k (l ++ [10] ++ [0])) Q w') ->
  wp (printf prompt [] ;; let! line := ugets 128 in k line) Q w.
Proof.
  intros Hr Hw Hs Hl Hlen HQ. wp_simp. apply vprintf_plain; [apply plainb_plain; vm_compute; reflexivity|done|].
  intros w1 H1. wp_simp. pose proof (emitted_out _ _ _ _ H1) as Ho. destruct H1 as (_ & Hst & Hk).
  eapply wp_mono; [apply ugets_spec; [by apply Hk|lia]|]. cbv zeta. rewrite Hst, Hs.
  assert (E : line_of (l ++ 10 :: rest) = l ++ [10]).
  { clear -Hl. induction Hl as [|c l Hc _ IH]; simpl; [done|]. by rewrite Hc, IH. }
  rewrite E, take_ge by (rewrite length_app; simpl; lia). intros b w2 (-> & _ & H2 & H3 & H4 & H5).
  rewrite <- app_assoc. apply HQ.
  - change (10 :: rest) with ([10] ++ rest) in H2. rewrite app_assoc in H2. by apply app_inv_head in H2.
  - by rewrite H4.
  - by eapply keeps_trans.
Qed.
(** ** calc *)

(** The decimal numeral of a number. *)
Definition dec (z : Z) : list Z := reverse (printint_buf z 10 true).

Lemma dec_digits z : 0 <= z < 2 ^ 31 -> Forall (fun c => digit c = true) (dec z) /\ dec z <> [] /\ (length (dec z) <= 10)%nat /\ dec_from 0 (dec z) = z.
Proof.
  intros Hz. unfold dec, printint_buf. rewrite (proj2 (Z.ltb_ge z 0)), andb_false_r, u64_small, app_nil_r by lia.
  pose proof (digit_loop_digits 64 z) as Hd. split; [by apply Forall_reverse|]. split; [|split].
  - intros E. apply (f_equal length) in E. rewrite length_reverse in E. by cbn [digit_loop] in E; unfold digit_loop in E; destruct (z / 10 =? 0).
  - rewrite length_reverse. apply digit_loop_len; [lia|simpl Z.of_nat; lia|lia].
  - rewrite <- num_val_dec by (by apply Forall_reverse). apply digit_loop_val; [lia|simpl Z.of_nat; lia|lia].
Qed.

Lemma atoi_digits n ds : Forall (fun c => digit c = true) ds -> s32 n = n -> atoi_chars n ds = s32 (dec_from n ds).
Proof.
  intros H. revert n. induction H as [|c ds Hc _ IH]; intros n Hn; [by simpl; rewrite Hn|].
  cbn [atoi_chars]. rewrite (Hc : (48 <=? c) && (c <=? 57) = true), IH by apply s32_s32.
  change (dec_from n (c :: ds)) with (dec_from (n * 10 + (c - 48)) ds). apply dec_from_s32. by rewrite s32_s32, s32_add_mul.
Qed.

Lemma atoi_dec z : 0 <= z < 2 ^ 31 -> atoi_chars 0 (dec z) = z.
Proof. intros Hz. destruct (dec_digits z Hz) as (H1 & _ & _ & H2). rewrite atoi_digits, H2 by done. apply s32_small. lia. Qed.

Definition calc_value (a op b : Z) : option Z :=
  if op =? 43 then Some (a + b) else if op =? 45 then Some (a - b) else if op =? 42 then Some (a * b)
  else if op =? 47 then if b =? 0 then None else Some (a / b) else None.

Definition calc_answer (r : Z) : list Z := str "Resultado: " ++ (u8 <$> dec r ++ [10]).

Lemma eaf_calc_spec (Q : unit -> W -> Prop) name a op b r w : writable w 1 -> 0 <= a < 2 ^ 31 -> 0 <= b < 2 ^ 31 ->
  calc_value a op b = Some r -> - 2 ^ 31 <= r < 2 ^ 31 -> (forall w', emitted 1 w w' (calc_answer r) -> Q tt w') ->
  wp (eaf_calc [name; dec a; [op]; dec b]) Q w.
Proof.
  intros Hw Ha Hb Hv Hr HQ.
  assert (P : wp (printf (str "Resultado: %d" ++ nl) [VInt (s32 r)]) Q w).
  { change (str "Resultado: %d" ++ nl) with (str "Resultado: " ++ concat (unparse <$> [PInt L0 CDec; PLit 10])).
    eapply (vprintf_prefix Q 1 _ _ _ (dec r ++ [10])); [apply plainb_plain; vm_compute; reflexivity|by repeat constructor| |done|exact HQ].
    cbn [render]. unfold int_text. rewrite s32_s32, s32_small by lia. done. }
  unfold eaf_calc. cbv zeta. rewrite !atoi_dec by done. cbn [hd]. unfold calc_value in Hv.
  destruct (op =? 43); [injection Hv as <-; exact P|]. destruct (op =? 45); [injection Hv as <-; exact P|]. destruct (op =? 42); [injection Hv as <-; exact P|].
  destruct (op =? 47); [|discriminate Hv]. destruct (Z.eqb_spec b 0); [discriminate Hv|]. rewrite Z.quot_div_nonneg by lia. injection Hv as <-; exact P.
Qed.

Lemma digit_facts c : digit c = true -> eaf_sep c = false /\ eol c = false /\ c <> 0.
Proof. unfold digit, eaf_sep, eol. intros [H1%Z.leb_le H2%Z.leb_le]%andb_true_iff. zcases; done. Qed.

Lemma digits_facts ds : Forall (fun c => digit c = true) ds ->
  Forall (fun c => eaf_sep c = false) ds /\ Forall (fun c => eol c = false) ds /\ Forall (fun c => c <> 0) ds.
Proof. intros H. split_and!; (eapply Forall_impl; [exact H|]); intros c Hc; by apply digit_facts. Qed.

Definition calc_line (a op b : Z) : list Z := str "calc " ++ dec a ++ [32; op; 32] ++ dec b.

Lemma calc_line_args a op b : 0 <= a < 2 ^ 31 -> 0 <= b < 2 ^ 31 -> eaf_sep op = false -> op <> 0 ->
  eaf_args (calc_line a op b ++ [10] ++ [0]) = [str "calc"; dec a; [op]; dec b] /\
  Forall (fun c => eol c = false) (calc_line a op b) /\ (length (calc_line a op b) < 127)%nat.
Proof.
  intros Ha Hb Hop Hop0. destruct (dec_digits a Ha) as (A1 & A2 & A3 & _), (dec_digits b Hb) as (B1 & B2 & B3 & _).
  destruct (digits_facts _ A1) as (C1 & C2 & C3), (digits_facts _ B1) as (D1 & D2 & D3). split; [|split].
  - rewrite app_assoc, eaf_args_words.
    + unfold calc_line. rewrite <- !app_assoc. change (str "calc ") with (str "calc" ++ [32]). rewrite <- app_assoc.
      rewrite words_word; [|done|by repeat constructor|by intros c [= <-]].
      change (words eaf_sep [] ([32] ++ ?x)) with (words eaf_sep [] x).
      rewrite words_word; [|done|done|by intros c [= <-]].
      change (words eaf_sep [] ([32; op; 32] ++ ?x)) with (words eaf_sep [] ([op] ++ [32] ++ x)).
      rewrite words_word; [|done|by repeat constructor|by intros c [= <-]].
      change (words eaf_sep [] ([32] ++ ?x)) with (words eaf_sep [] x).
      rewrite words_word; [|done|done|by intros c [= <-]]. done.
    + unfold calc_line. repeat (apply Forall_app; split); try done; repeat constructor; done.
  - unfold calc_line. assert (eol op = false) by (unfold eol, eaf_sep in *; destruct (op =? 10), (op =? 13); rewrite ?orb_true_r in Hop; done).
    repeat (apply Forall_app; split); try done; repeat constructor; done.
  - unfold calc_line. rewrite !length_app. simpl. lia.
Qed.

(** C38: The calculator, from keyboard to screen: typing "calc a op b" with a and b
    numbers below 2^31 makes EAFITos print the prompt and "Resultado: r" with r the
    value of the operation whenever it exists and fits an int, consume exactly that
    line of input, and go on to the next command. *)
Theorem eaf_calc_correct a op b r rest (w : W) : readable w 0 -> writable w 1 -> 0 <= a < 2 ^ 31 -> 0 <= b < 2 ^ 31 ->
  calc_value a op b = Some r -> - 2 ^ 31 <= r < 2 ^ 31 -> stream w 0 = calc_line a op b ++ 10 :: rest ->
  wp eaf_step (fun go w' => go = true /\ stream w' 0 = rest /\ output w' 1 = output w 1 ++ prompt ++ calc_answer r) w.
Proof.
  intros Hr Hw Ha Hb Hv Hres Hs. assert (Hop : eaf_sep op = false /\ op <> 0).
  { unfold calc_value in Hv. unfold eaf_sep. revert Hv. zcases; done. }
  destruct Hop as [Hop Hop0]. destruct (calc_line_args a op b Ha Hb Hop Hop0) as (E & E1 & E2).
  unfold eaf_step. eapply eaf_read_line; [done|done|exact Hs|done|done|]. intros w1 S1 O1 K1. cbv beta. rewrite E.
  change (wp (eaf_calc [str "calc"; dec a; [op]; dec b] ;; ret true) (fun go w' => go = true /\ stream w' 0 = rest /\
    output w' 1 = output w 1 ++ prompt ++ calc_answer r) w1).
  wp_simp. apply (eaf_calc_spec _ _ a op b r); [by apply K1|done..|]. intros w2 H2. wp_simp. split; [done|].
  split; [destruct H2 as (_ & H2 & _); by rewrite H2|]. by rewrite (emitted_out _ _ _ _ H2), O1, app_assoc.
Qed.

(** ** End of input *)

Lemma eaf_step_eof (w : W) : readable w 0 -> writable w 1 -> stream w 0 = [] ->
  wp eaf_step (fun go w' => go = true /\ readable w' 0 /\ writable w' 1 /\ stream w' 0 = []) w.
Proof.
  intros Hr Hw Hs. unfold eaf_step. fold prompt. wp_simp. apply vprintf_plain; [apply plainb_plain; vm_compute; reflexivity|done|].
  intros w1 (_ & Hst & Hk). wp_simp. eapply wp_mono; [apply ugets_spec; [by apply Hk|lia]|].
  cbv zeta. rewrite Hst, Hs. simpl line_of. rewrite take_nil. intros b w2 (-> & _ & H2 & _ & _ & H5). simpl app.
  change (eaf_args [0]) with (@nil (list Z)). wp_simp. split; [done|]. split; [by apply H5, Hk|]. split; [by apply H5, Hk|]. by symmetry.
Qed.

(** EAFITos does not stop at the end of its input: once the standard input is
    exhausted the command loop never ends, whatever number of turns it is given
    (gets() returns its buffer, never 0, so the test for end of file is dead). *)
Theorem eaf_eof_never_ends fuel (w : W) : readable w 0 -> writable w 1 -> stream w 0 = [] -> eaf_loop fuel w = NoFuel.
Proof.
  revert w. induction fuel as [|fuel IH]; intros w Hr Hw Hs; [done|]. cbn [eaf_loop]. unfold bind.
  destruct (wp_ok _ _ _ (eaf_step_eof w Hr Hw Hs)) as (go & w' & -> & -> & H1 & H2 & H3). by apply IH.
Qed.

(** ** eliminar *)

Lemma eaf_eliminar_spec f (w : W) : readable w 0 -> writable w 1 -> eaf_confirmed (take 15 (line_of (stream w 0)) ++ [0]) = false ->
  wp (eaf_eliminar [str "eliminar"; f]) (fun _ w' => sys_keeps w w' /\ output w' 1 =
    output w 1 ++ str "Seguro que quieres eliminar '" ++ (u8 <$> (f ++ str "'? (si/no): ")) ++ str "Cancelado" ++ nl) w.
Proof.
  intros Hr Hw Hc. unfold eaf_eliminar. wp_simp.
  change (str "Seguro que quieres eliminar '%s'? (si/no): ") with
    (str "Seguro que quieres eliminar '" ++ concat (unparse <$> (PStr :: (PLit <$> str "'? (si/no): ")))).
  eapply (vprintf_prefix _ 1 _ _ _ (f ++ str "'? (si/no): ")); [apply plainb_plain; vm_compute; reflexivity| |reflexivity|done|].
  { constructor; [exact I|]. apply plain_literal, plainb_plain. vm_compute. reflexivity. }
  intros w1 H1. wp_simp. pose proof (emitted_out _ _ _ _ H1) as O1. destruct H1 as (_ & S1 & K1).
  eapply wp_mono; [apply ugets_spec; [by apply K1|lia]|]. cbv zeta. rewrite S1. change (Z.to_nat (16 - 1)) with 15%nat.
  intros b w2 (-> & _ & _ & _ & O2 & K2). rewrite Hc. cbn [negb]. unfold say.
  apply vprintf_plain; [apply plainb_plain; vm_compute; reflexivity|by apply K2, K1|]. intros w3 H3.
  pose proof (emitted_out _ _ _ _ H3) as O3. destruct H3 as (_ & _ & K3). split.
  - eapply keeps_trans; [exact K1|]. by eapply keeps_trans.
  - rewrite O3, O2, O1. by rewrite <- !app_assoc.
Qed.

(** A file is not deleted without confirmation: unless the answer starts with
    "si", or is "s" alone, the command eliminar leaves every file as it was and
    prints "Cancelado". *)
Theorem eaf_eliminar_safe f (w : W) : readable w 0 -> writable w 1 ->
  let answer := take 15 (line_of (stream w 0)) in
  ~ (exists rest, answer = 115 :: rest /\ (rest = [] \/ head rest = Some 105 \/ head rest = Some 10 \/ head rest = Some 0)) ->
  wp (eaf_eliminar [str "eliminar"; f]) (fun _ w' => (forall p, contents w' p = contents w p) /\
    exists shown, output w' 1 = output w 1 ++ shown ++ str "Cancelado" ++ nl) w.
Proof.
  intros Hr Hw answer Hn. assert (Hc : eaf_confirmed (answer ++ [0]) = false).
  { unfold eaf_confirmed. destruct answer as [|c0 rest]; [done|]. simpl. destruct (Z.eqb_spec c0 115) as [->|]; [|done]. simpl.
    destruct rest as [|c1 rest]; simpl; [destruct Hn; eauto|].
    destruct (Z.eqb_spec c1 105) as [->|]; [destruct Hn; eauto 6|]. destruct (Z.eqb_spec c1 10) as [->|]; [destruct Hn; eauto 7|].
    destruct (Z.eqb_spec c1 0) as [->|]; [destruct Hn; eauto 7|done]. }
  eapply wp_mono; [by apply eaf_eliminar_spec|]. intros ? w' [K O]. split; [apply K|].
  eexists (str "Seguro que quieres eliminar '" ++ (u8 <$> (f ++ str "'? (si/no): "))). rewrite O. by rewrite <- !app_assoc.
Qed.

End specs.

(** * Examples *)

(** The line splitter of EAFITos finds the words: for every line, args holds
    exactly its first five words, in order, so that argc never exceeds 5 and
    args[argc] = 0 stays inside the array of six. *)
Theorem eaf_split_correct l : Forall (fun c => c <> 0) l ->
  eaf_args (l ++ [0]) = take 5 (words eaf_sep [] l) /\ (length (eaf_args (l ++ [0%Z])) < 6)%nat.
Proof. intros H. rewrite eaf_args_words by done. split; [done|]. rewrite length_take. lia. Qed.

Lemma eaf_split_correct_witness : eaf_args (str " calc  1 + 2 " ++ [0]) = [str "calc"; str "1"; str "+"; str "2"].
Proof.
  transitivity (take 5 (words eaf_sep [] (str " calc  1 + 2 "))); [|reflexivity].
  apply (eaf_split_correct (str " calc  1 + 2 ")). vm_compute. repeat constructor; discriminate.
Defined.

Definition typed (l : list Z) : world := World {[0 := l]} ∅ [] no_files.

Lemma eaf_calc_correct_witness :
  wp eaf_step (fun _ w' => output w' 1 = prompt ++ str "Resultado: -3" ++ nl) (typed (str "calc 4 - 7" ++ nl)).
Proof.
  eapply wp_mono; [apply (eaf_calc_correct 4 45 7 (-3) [] (typed (str "calc 4 - 7" ++ nl))); [exact I|exact I|lia|lia|reflexivity|lia|]|].
  - vm_compute. reflexivity.
  - intros go w' (_ & _ & H). rewrite H. vm_compute. reflexivity.
Defined.

Lemma eaf_eof_never_ends_witness : eaf_loop 3 (typed []) = NoFuel.
Proof. apply (eaf_eof_never_ends 3 (typed [])); [exact I|exact I|reflexivity]. Defined.

Lemma eaf_eliminar_safe_witness :
  wp (eaf_eliminar [str "eliminar"; str "f"]) (fun _ w' => contents w' (str "f") = Some [1])
    (World {[0 := str "no" ++ nl]} ∅ [] (fun _ => Some [1])).
Proof.
  eapply wp_mono; [apply (eaf_eliminar_safe (str "f") (World {[0 := str "no" ++ nl]} ∅ [] (fun _ => Some [1]))); [exact I|exact I|]|].
  - vm_compute. intros (rest & E & _). discriminate E.
  - intros ? w' [H _]. by rewrite H.
Defined.
