(* ===== verification/Umalloc.v ===== *)
(** user/umalloc.c: the allocator of Kernighan and Ritchie.

    Free blocks form a circular list in address order, threaded through
    their headers (16 bytes: the next block and the size in units of 16
    bytes); [base] is the static header that starts it.  The heap is the
    memory between [heap0], the size of the program when it starts, and the
    break; sbrk() moves the break (user/ulib.c, kernel/sysproc.c).  Loops
    over the list are bounded by [fuel], and the theorems say how much is
    enough. *)
From stdpp Require Import sorting.
From S2P Require Import Prelude Mem Kalloc Vm.

Record hst := Hst { h_mem : mem; h_freep : Z; h_brk : Z }.
Definition set_hmem (f : mem -> mem) (s : hst) : hst := Hst (f (h_mem s)) (h_freep s) (h_brk s).
Definition set_freep (p : Z) (s : hst) : hst := Hst (h_mem s) p (h_brk s).
Definition set_hbrk (b : Z) (s : hst) : hst := Hst (h_mem s) (h_freep s) b.

(** * Headers *)

Definition HDR : Z := 16.
Definition h_ptr (m : mem) (p : Z) : Z := ld64 m p.
Definition h_size (m : mem) (p : Z) : Z := ld32 m (p + 8).
Definition set_ptr (p v : Z) : M hst unit := modify (set_hmem (fun m => st64 m p v)).
Definition set_size (p v : Z) : M hst unit := modify (set_hmem (fun m => st32 m (p + 8) (u32 v))).
Definition get_ptr (p : Z) : M hst Z := gets (fun s => h_ptr (h_mem s) p).
Definition get_size (p : Z) : M hst Z := gets (fun s => h_size (h_mem s) p).
(** [p + n], pointer arithmetic on headers. *)
Definition hdr_add (p n : Z) : Z := u64 (p + HDR * n).

Definition SBRK_ERROR : Z := u64 (-1).
(** sbrk(n): the break of the process moves; growing is lazy. *)
Definition sbrk (n : Z) : M hst Z :=
  let! addr := gets h_brk in
  if n <? 0 then
    let sz := u64 (addr + n) in
    modify (set_hbrk (if addr <=? sz then addr else sz)) ;; ret addr
  else if u64 (addr + n) <? addr then ret SBRK_ERROR
  else if TRAPFRAME <? u64 (addr + n) then ret SBRK_ERROR
  else modify (set_hbrk (u64 (addr + n))) ;; ret addr.

(** * free *)

(** The loop that finds the block after which [bp] goes. *)
Fixpoint free_find (fuel : nat) (bp p : Z) : M hst Z :=
  match fuel with
  | O => nofuel
  | S fuel =>
      let! next := get_ptr p in
      if (p <? bp) && (bp <? next) then ret p
      else if (next <=? p) && ((p <? bp) || (bp <? next)) then ret p
      else free_find fuel bp next
  end.

Definition free_right (bp p : Z) : M hst unit :=
  let! next := get_ptr p in
  let! n := get_size bp in
  if hdr_add bp n =? next then
    let! k := get_size next in
    set_size bp (n + k) ;;
    let! q := get_ptr next in
    set_ptr bp q
  else set_ptr bp next.

Definition free_left (bp p : Z) : M hst unit :=
  let! n := get_size p in
  if hdr_add p n =? bp then
    let! k := get_size bp in
    set_size p (n + k) ;;
    let! q := get_ptr bp in
    set_ptr p q
  else set_ptr p bp.

Definition free (fuel : nat) (ap : Z) : M hst unit :=
  let bp := u64 (ap - HDR) in
  let! p := gets h_freep in
  let! p := free_find fuel bp p in
  free_right bp p ;;
  free_left bp p ;;
  modify (set_freep p).

(** * malloc *)

Definition morecore (fuel : nat) (nu : Z) : M hst Z :=
  let nu := if nu <? 4096 then 4096 else nu in
  let! p := sbrk (s32 (nu * HDR)) in
  if p =? SBRK_ERROR then ret 0
  else
    set_size p nu ;;
    free fuel (hdr_add p 1) ;;
    gets h_freep.

(** What malloc() does with a block [p] that is large enough. *)
Definition take_block (nunits prevp p : Z) : M hst Z :=
  let! n := get_size p in
  let! p := (if n =? nunits then let! q := get_ptr p in set_ptr prevp q ;; ret p
             else
               set_size p (n - nunits) ;;
               let! k := get_size p in
               let p := hdr_add p k in
               set_size p nunits ;;
               ret p) in
  modify (set_freep prevp) ;;
  ret (hdr_add p 1).

Fixpoint malloc_loop (fuel : nat) (nunits prevp p : Z) : M hst Z :=
  match fuel with
  | O => nofuel
  | S fuel' =>
      let! n := get_size p in
      if nunits <=? n then take_block nunits prevp p
      else
        let! fp := gets h_freep in
        if p =? fp then
          let! p := morecore fuel nunits in
          if p =? 0 then ret 0
          else let! q := get_ptr p in malloc_loop fuel' nunits p q
        else let! q := get_ptr p in malloc_loop fuel' nunits p q
  end.

Definition units (nbytes : Z) : Z := u32 (u64 (nbytes + HDR - 1) / HDR + 1).

Definition malloc (base : Z) (fuel : nat) (nbytes : Z) : M hst Z :=
  let nunits := units nbytes in
  let! prevp := gets h_freep in
  let! prevp := (if prevp =? 0 then
                   modify (set_freep base) ;; set_ptr base base ;; set_size base 0 ;; ret base
                 else ret prevp) in
  let! p := get_ptr prevp in
  malloc_loop fuel nunits prevp p.

(** * The free list

    A block is its address and its size in units. *)

Abbreviation block := (Z * Z)%type.
Implicit Types (N w : list block) (al : gmap Z Z) (m : mem) (s : hst).

Definition hda N (q : Z) : Z := match N with [] => q | x :: _ => x.1 end.
(** The nodes of [N] are linked in memory, the last one to [q]. *)
Fixpoint seg m N (q : Z) : Prop :=
  match N with
  | [] => True
  | x :: N => h_size m x.1 = x.2 /\ h_ptr m x.1 = hda N q /\ seg m N q
  end.
(** The blocks are in address order, with a gap between them. *)
Definition before (x y : block) : Prop := x.1 + HDR * x.2 < y.1 /\ x.1 + HDR <= y.1.
Definition spaced N : Prop := StronglySorted before N.
Definition apart (a n b k : Z) : Prop := a + HDR * n <= b \/ b + HDR * k <= a.

Section heap.
Variables base heap0 : Z.

Definition ring_of (fl : list block) : list block := (base, 0) :: fl.
Definition in_heap s (a n : Z) : Prop := heap0 <= a /\ a + HDR * n <= h_brk s /\ 1 <= n.

(** [fl]: the free blocks; [al]: the blocks in use, by the address of their
    header. *)
Record heap_inv (fl : list block) al s : Prop := {
  hi_base : 0 < base /\ base + HDR <= heap0;
  hi_brk : heap0 <= h_brk s <= TRAPFRAME /\ h_brk s - heap0 < 2 ^ 36;
  hi_ring : seg (h_mem s) (ring_of fl) base;
  hi_spaced : spaced (ring_of fl);
  hi_free : Forall (fun x => in_heap s x.1 x.2) fl;
  hi_freep : h_freep s ∈ (ring_of fl).*1;
  hi_used a n : al !! a = Some n -> in_heap s a n /\ h_size (h_mem s) a = n /\ Forall (fun x => apart a n x.1 x.2) fl;
  hi_apart a n b k : al !! a = Some n -> al !! b = Some k -> a <> b -> apart a n b k
}.

(** ** Links *)

Lemma hda_app N N' q : hda (N ++ N') q = hda N (hda N' q).
Proof. by destruct N. Qed.
Lemma cells_app m N N' q : seg m (N ++ N') q <-> seg m N (hda N' q) /\ seg m N' q.
Proof.
  induction N as [|x N IH]; cbn; [naive_solver|]. rewrite IH, hda_app. naive_solver.
Qed.
Lemma seg_snoc m N x q : seg m (N ++ [x]) q <-> seg m N x.1 /\ h_size m x.1 = x.2 /\ h_ptr m x.1 = q.
Proof. rewrite cells_app. cbn. naive_solver. Qed.

(** Memory that keeps the header at [a]. *)
Definition hdr_same m m' (a : Z) : Prop := forall x, a <= x < a + HDR -> ld8 m' x = ld8 m x.
Lemma hdr_same_fields m m' a : hdr_same m m' a -> h_ptr m' a = h_ptr m a /\ h_size m' a = h_size m a.
Proof.
  unfold hdr_same, h_ptr, h_size, HDR. intros H. split; [apply ld64_ext|apply ld32_ext]; intros x Hx; apply H; lia.
Qed.
Lemma seg_frame m m' N q : seg m N q -> Forall (fun x => hdr_same m m' x.1) N -> seg m' N q.
Proof.
  induction N as [|x N IH]; cbn; [done|]. intros (H1 & H2 & H3) HF. apply Forall_cons in HF as [Hx HF].
  destruct (hdr_same_fields _ _ _ Hx) as [-> ->]. auto.
Qed.

(** ** Writes of a header *)

Lemma st64_hdr m p v a : p + HDR <= a \/ a + HDR <= p -> hdr_same m (st64 m p v) a.
Proof. unfold HDR. intros H x Hx. unfold HDR in Hx. apply ld8_st64_out. lia. Qed.
Lemma st32_hdr m p v a : p + HDR <= a \/ a + HDR <= p -> hdr_same m (st32 m (p + 8) v) a.
Proof. unfold HDR. intros H x Hx. unfold HDR in Hx. apply ld8_st32_out. lia. Qed.
Lemma h_size_ptr m p v : h_size (st64 m p v) p = h_size m p.
Proof. apply ld32_ext. intros x Hx. apply ld8_st64_out. lia. Qed.
Lemma h_ptr_size m p v : h_ptr (st32 m (p + 8) v) p = h_ptr m p.
Proof. apply ld64_ext. intros x Hx. apply ld8_st32_out. lia. Qed.
Lemma h_ptr_eq m p v : 0 <= v < 2 ^ 64 -> h_ptr (st64 m p v) p = v.
Proof. apply ld64_st64_eq. Qed.
Lemma h_size_eq m p v : 0 <= v < 2 ^ 32 -> h_size (st32 m (p + 8) (u32 v)) p = v.
Proof. intros H. rewrite u32_small by done. by apply ld32_st32_eq. Qed.
Lemma hdr_same_trans m1 m2 m3 a : hdr_same m1 m2 a -> hdr_same m2 m3 a -> hdr_same m1 m3 a.
Proof. intros H1 H2 x Hx. by rewrite H2, H1. Qed.

(** ** free_find *)

Lemma find_above s bp w x k : seg (h_mem s) (x :: w) base -> spaced (x :: w) -> base <= x.1 -> x.1 < bp -> Forall (fun y => bp <> y.1) w ->
  exists w1 z w2, x :: w = w1 ++ z :: w2 /\ z.1 < bp /\ Forall (fun y => bp < y.1) w2 /\ free_find (S (length w) + k) bp x.1 s = Ok z.1 s.
Proof.
  revert x. induction w as [|y w IH]; intros x Hseg Hsp Hb Hlt Hne; destruct (Hseg) as (_ & Hp & Hrest); cbn [free_find Nat.add length]; unfold get_ptr, bind, gets; rewrite Hp; cbn [hda].
  - exists [], x, []. split_and!; try done. rewrite (proj2 (Z.leb_le base x.1)), (proj2 (Z.ltb_lt x.1 bp)) by lia. by destruct (bp <? base).
  - apply StronglySorted_inv in Hsp as [Hsp Hx]. apply Forall_cons in Hx as [[Hx Hx'] _]. apply Forall_cons in Hne as [Hy Hne]. unfold HDR in *.
    rewrite (proj2 (Z.ltb_lt x.1 bp)) by lia. cbn [andb]. destruct (Z.ltb_spec bp y.1) as [H|H].
    + exists [], x, (y :: w). split; [done|]. split; [done|]. split; [|done]. apply StronglySorted_inv in Hsp as [_ Hw]. constructor; [done|].
      eapply Forall_impl; [exact Hw|]. intros z [_ Hz]. unfold HDR in Hz. cbn in Hz. lia.
    + rewrite (proj2 (Z.leb_gt y.1 x.1)) by lia. cbn [andb]. destruct (IH y Hrest Hsp ltac:(lia) ltac:(lia) Hne) as (w1 & z & w2 & E & H1 & H2 & H3).
      exists (x :: w1), z, w2. rewrite E. split_and!; try done.
Qed.
Lemma find_below s bp w x k : seg (h_mem s) (x :: w) base -> spaced (x :: w) -> base < bp -> bp < x.1 ->
  free_find (S (length w) + k) bp x.1 s = free_find k bp base s.
Proof.
  revert x. induction w as [|y w IH]; intros x Hseg Hsp Hb Hlt; destruct (Hseg) as (_ & Hp & Hrest); cbn [free_find Nat.add length]; unfold get_ptr, bind, gets; rewrite Hp; cbn [hda];
    rewrite (proj2 (Z.ltb_ge x.1 bp)) by lia; cbn [andb orb].
  - rewrite (proj2 (Z.ltb_ge bp base)) by lia. by rewrite andb_false_r.
  - apply StronglySorted_inv in Hsp as [Hsp Hx]. apply Forall_cons in Hx as [[Hx Hx'] _]. unfold HDR in *.
    rewrite (proj2 (Z.leb_gt y.1 x.1)) by lia. cbn [andb]. apply (IH y); try done. lia.
Qed.

Lemma free_find_ok fl al s bp fuel : heap_inv fl al s -> base < bp -> Forall (fun y => bp <> y.1) fl -> (2 * length (ring_of fl) <= fuel)%nat ->
  exists w1 z w2, ring_of fl = w1 ++ z :: w2 /\ z.1 < bp /\ Forall (fun y => bp < y.1) w2 /\ free_find fuel bp (h_freep s) s = Ok z.1 s.
Proof.
  intros Hi Hb Hne Hf. destruct (Hi) as [_ _ Hring Hsp _ Hfp _ _]. apply list_elem_of_fmap in Hfp as (x & Hx & Hin). apply list_elem_of_split in Hin as (A & B & E).
  assert (Hx1 : base <= x.1). { destruct A as [|a A]; [by injection E as <- <-|]. injection E as <- E. apply StronglySorted_inv in Hsp as [_ Hall].
    rewrite E in Hall. eapply Forall_forall in Hall; [|apply elem_of_app; right; left]. destruct Hall as [_ H]. unfold HDR in H. cbn in H. lia. }
  assert (Hxs : spaced (x :: B)) by (rewrite E in Hsp; by eapply StronglySorted_app_1_r).
  assert (Hxr : seg (h_mem s) (x :: B) base) by (rewrite E in Hring; by apply cells_app in Hring as [_ ?]).
  assert (Hxb : x.1 <> bp). { destruct A as [|a A]; injection E as <- E; [cbn; lia|]. rewrite E in Hne. eapply Forall_forall in Hne; [|apply elem_of_app; right; left]. cbn in Hne. congruence. }
  assert (Hlen : length (ring_of fl) = (length A + S (length B))%nat) by (rewrite E, length_app; done). rewrite Hx.
  destruct (decide (x.1 < bp)) as [Hlt|Hge].
  - replace fuel with (S (length B) + (fuel - S (length B)))%nat by lia.
    destruct (find_above s bp B x (fuel - S (length B)) Hxr Hxs Hx1 Hlt) as (w1 & z & w2 & E' & H1 & H2 & H3).
    { destruct A as [|a A]; injection E as <- E; subst fl; [done|]. apply Forall_app in Hne as [_ Hne]. by apply Forall_cons in Hne as [_ ?]. }
    exists (A ++ w1), z, w2. split_and!; try done. rewrite E, E'. by rewrite app_assoc.
  - replace fuel with (S (length B) + (fuel - S (length B)))%nat by lia. rewrite find_below by (done || lia).
    replace (fuel - S (length B))%nat with (S (length fl) + (fuel - S (length B) - S (length fl)))%nat by (cbn in *; lia).
    apply (find_above s bp fl (base, 0)); cbn; try done; lia.
Qed.

(** ** Joining blocks *)

Definition only_hdr (a : Z) m m' : Prop := forall x, x < a \/ a + HDR <= x -> ld8 m' x = ld8 m x.
Definition covers N (x : Z) : Prop := Exists (fun b => b.1 <= x < b.1 + HDR * b.2) N.
(** The state changed only in the header at [a]. *)
Definition upd_hdr (a : Z) s s' : Prop := h_freep s' = h_freep s /\ h_brk s' = h_brk s /\ only_hdr a (h_mem s) (h_mem s').

Lemma only_hdr_64 a v m m' : only_hdr a m m' -> only_hdr a m (st64 m' a v).
Proof. unfold only_hdr, HDR. intros H x Hx. rewrite <- H by done. apply ld8_st64_out. lia. Qed.
Lemma only_hdr_32 a v m m' : only_hdr a m m' -> only_hdr a m (st32 m' (a + 8) v).
Proof. unfold only_hdr, HDR. intros H x Hx. rewrite <- H by done. apply ld8_st32_out. lia. Qed.
Lemma only_hdr_refl a m : only_hdr a m m.
Proof. done. Qed.
Lemma only_hdr_same a m m' b : only_hdr a m m' -> a + HDR <= b \/ b + HDR <= a -> hdr_same m m' b.
Proof. unfold HDR. intros H Hd x Hx. unfold HDR in Hx. apply H. unfold HDR. lia. Qed.
Lemma only_hdr_seg a m m' N q : only_hdr a m m' -> Forall (fun x => a + HDR <= x.1 \/ x.1 + HDR <= a) N -> seg m N q -> seg m' N q.
Proof. intros H HF Hs. eapply seg_frame; [done|]. eapply Forall_impl; [exact HF|]. intros x Hx. by eapply only_hdr_same. Qed.
Hint Resolve only_hdr_64 only_hdr_32 only_hdr_refl : core.

Ltac upd := split; [done|]; split; [done|]; cbn; eauto.
Lemma hdr_add_small p n : 0 <= p -> 0 <= n -> p + HDR * n < 2 ^ 64 -> hdr_add p n = p + HDR * n.
Proof. intros. unfold hdr_add. apply u64_small. unfold HDR in *. lia. Qed.

Lemma free_right_ok s bp n p w2 hi : h_ptr (h_mem s) p = hda w2 base -> h_size (h_mem s) bp = n -> seg (h_mem s) w2 base -> spaced w2 ->
  Forall (fun x => bp + HDR * n <= x.1 /\ 1 <= x.2 /\ x.1 + HDR * x.2 <= hi) w2 -> 0 < base < bp -> 1 <= n -> bp + HDR * n <= hi -> hi < 2 ^ 63 -> hi - bp < 2 ^ 36 ->
  wp (free_right bp p) (fun _ s' => upd_hdr bp s s' /\ exists n' w2', seg (h_mem s') ((bp, n') :: w2') base /\ spaced ((bp, n') :: w2') /\
    n <= n' /\ bp + HDR * n' <= hi /\ (exists d, w2 = d ++ w2') /\ (length w2' <= length w2)%nat /\ forall x, covers ((bp, n') :: w2') x <-> covers w2 x \/ bp <= x < bp + HDR * n) s.
Proof.
  intros Hp Hn Hseg Hsp Hall Hb Hn1 Hhi H63 H36. unfold free_right, get_ptr, get_size, set_size, set_ptr. wp_simp. rewrite Hp, Hn, hdr_add_small by (unfold HDR in *; lia).
  destruct w2 as [|y w2]; cbn [hda].
  - rewrite (proj2 (Z.eqb_neq _ base)) by (unfold HDR in *; lia). wp_simp. cbn [h_mem set_hmem]. split; [upd|]. exists n, [].
    cbn [seg fst snd h_mem set_hmem hda]. rewrite h_ptr_eq, h_size_ptr by (unfold HDR in *; lia). split_and!; try done; [by repeat constructor|by exists []|]. intros x. unfold covers. rewrite Exists_cons, Exists_nil. cbn. tauto.
  - apply Forall_cons in Hall as [(Hy1 & Hy2 & Hy3) Hall]. destruct (Hseg) as (Hys & Hyp & Hrest). destruct (StronglySorted_inv Hsp) as [Hsp' Hy].
    assert (Haw : Forall (fun x => bp + HDR <= x.1 \/ x.1 + HDR <= bp) (y :: w2)).
    { constructor; [unfold HDR in *; lia|]. eapply Forall_impl; [exact Hall|]. cbn. intros x Hx. unfold HDR in *. lia. }
    apply Forall_cons in Haw as [Hay Haw]. destruct (Z.eqb_spec (bp + HDR * n) y.1) as [E|E]; wp_simp; cbn [h_mem set_hmem].
    + assert (Hq : 0 <= hda w2 base < 2 ^ 64). { destruct w2 as [|v w2]; cbn; [unfold HDR in *; lia|]. apply Forall_cons in Hall as [Hv _]. unfold HDR in *. lia. }
      rewrite Hys. destruct (hdr_same_fields _ _ _ (only_hdr_same bp _ (st32 (h_mem s) (bp + 8) (u32 (n + y.2))) y.1 (only_hdr_32 _ _ _ _ (only_hdr_refl _ _)) Hay)) as [-> _].
      rewrite Hyp. split; [upd|]. exists (n + y.2), w2. cbn [seg fst snd h_mem set_hmem hda]. rewrite h_ptr_eq, h_size_ptr, h_size_eq by (unfold HDR in *; lia). split_and!; try done; [eapply (only_hdr_seg bp (h_mem s)); eauto|..].
      * constructor; [done|]. eapply Forall_impl; [exact Hy|]. intros v [Hv1 Hv2]. unfold before. cbn. unfold HDR in *. lia.
      * lia.
      * unfold HDR in *. lia.
      * by exists [y].
      * cbn. lia.
      * intros x. unfold covers. rewrite !Exists_cons. cbn. unfold HDR in *. split; [|tauto || (intros [[H|H]|H]; [left; lia|by right|left; lia])]. intros [H|H]; [|by left; right]. destruct (decide (x < y.1)); [right; lia|left; left; lia].
    + split; [upd|]. exists n, (y :: w2). cbn [seg fst snd h_mem set_hmem hda]. rewrite h_ptr_eq, h_size_ptr by (unfold HDR in *; lia).
      assert (Hfr : forall q, seg (h_mem s) (y :: w2) q -> seg (st64 (h_mem s) bp y.1) (y :: w2) q) by (intros q; apply (only_hdr_seg bp); eauto). destruct (Hfr base Hseg) as (F1 & F2 & F3).
      split_and!; try done.
      * constructor; [done|]. constructor; [unfold before; cbn; unfold HDR in *; lia|]. eapply Forall_impl; [exact Hy|]. intros v [Hv1 Hv2]. unfold before. cbn. unfold HDR in *. lia.
      * by exists [].
      * intros x. unfold covers. rewrite !Exists_cons. cbn. tauto.
Qed.

Definition join_left (z : block) (bp n : Z) w : list block := if z.1 + HDR * z.2 =? bp then (z.1, z.2 + n) :: w else z :: (bp, n) :: w.

Lemma join_spaced w1 z bp n w2 : spaced (w1 ++ [z]) -> spaced ((bp, n) :: w2) -> z.1 + HDR <= bp -> z.1 + HDR * z.2 <= bp -> 1 <= n -> 0 <= z.2 -> spaced (w1 ++ join_left z bp n w2).
Proof.
  intros H1 H2 Hz Hz' Hn Hz2. apply StronglySorted_app in H1 as (H1 & H1' & _). destruct (StronglySorted_inv H2) as [H2' Hb].
  assert (Hw : forall x, x ∈ w1 -> before x z) by (intros x Hx; apply H1; [done|by left]).
  assert (Hafter : forall y, y ∈ w2 -> bp + HDR * n < y.1) by (intros y Hy; eapply Forall_forall in Hb; [|exact Hy]; apply Hb).
  unfold join_left, before, HDR in *. destruct (Z.eqb_spec (z.1 + 16 * z.2) bp) as [E|E]; apply StronglySorted_app; (split; [|split; [done|]]).
  - intros x y Hx [->|Hy]%elem_of_cons; specialize (Hw x Hx); unfold before, HDR; cbn; [lia|]. specialize (Hafter y Hy). lia.
  - constructor; [done|]. apply Forall_forall. intros y Hy. specialize (Hafter y Hy). unfold before, HDR. cbn. lia.
  - intros x y Hx [->|[->|Hy]%elem_of_cons]%elem_of_cons; specialize (Hw x Hx); unfold before, HDR; cbn; [lia|lia|]. specialize (Hafter y Hy). lia.
  - constructor; [done|]. constructor; [unfold before, HDR; cbn; lia|]. apply Forall_forall. intros y Hy. specialize (Hafter y Hy). unfold before, HDR. lia.
Qed.

Lemma join_covers z bp n w x : 0 <= z.2 -> 1 <= n -> covers (join_left z bp n w) x <-> covers (z :: (bp, n) :: w) x.
Proof.
  intros Hz Hn. unfold join_left. destruct (Z.eqb_spec (z.1 + HDR * z.2) bp) as [E|E]; [|done]. unfold covers. rewrite !Exists_cons. cbn. unfold HDR in *. split.
  - intros [H|H]; [|by right; right]. destruct (decide (x < bp)); [left; lia|right; left; lia].
  - intros [H|[H|H]]; [left; lia|left; lia|by right].
Qed.

Lemma free_left_ok s bp n z w1 w2 hi : seg (h_mem s) w1 z.1 -> h_size (h_mem s) z.1 = z.2 -> seg (h_mem s) ((bp, n) :: w2) base ->
  spaced (w1 ++ [z]) -> spaced ((bp, n) :: w2) -> z.1 + HDR <= bp -> z.1 + HDR * z.2 <= bp -> 0 <= z.2 -> 1 <= n -> 0 < base <= z.1 -> bp + HDR * n <= hi ->
  Forall (fun x => x.1 < hi) w2 -> hi < 2 ^ 63 -> (z.2 = 0 \/ hi - z.1 < 2 ^ 36) ->
  wp (free_left bp z.1) (fun _ s' => upd_hdr z.1 s s' /\ seg (h_mem s') (w1 ++ join_left z bp n w2) base) s.
Proof.
  intros Hw1 Hzs Hseg Hs1 Hs2 Hz Hz' Hz2 Hn Hb Hhi Hlt H63 H36. unfold free_left, get_ptr, get_size, set_size, set_ptr. wp_simp. rewrite Hzs, hdr_add_small by (unfold HDR in *; lia).
  apply StronglySorted_app in Hs1 as (Hs1 & _ & _). destruct (StronglySorted_inv Hs2) as [_ Hb2]. destruct (Hseg) as (Hbs & Hbp & Hrest). cbn [fst snd] in *.
  assert (F1 : Forall (fun x => z.1 + HDR <= x.1 \/ x.1 + HDR <= z.1) w1).
  { apply Forall_forall. intros x Hx. right. apply (Hs1 x z Hx). by left. }
  assert (F2 : Forall (fun x => z.1 + HDR <= x.1 \/ x.1 + HDR <= z.1) ((bp, n) :: w2)).
  { constructor; [by left|]. eapply Forall_impl; [exact Hb2|]. intros y [_ Hy]. cbn in Hy. left. unfold HDR in *. lia. }
  unfold join_left. destruct (Z.eqb_spec (z.1 + HDR * z.2) bp) as [E|E]; wp_simp; cbn [h_mem set_hmem].
  - assert (Hq : 0 <= hda w2 base < 2 ^ 64).
    { destruct w2 as [|v w2]; cbn; [unfold HDR in *; lia|]. apply Forall_cons in Hlt as [Hv _]. apply Forall_cons in Hb2 as [[_ Hv'] _]. unfold HDR in *. cbn in Hv'. lia. }
    rewrite Hbs. destruct (hdr_same_fields _ _ _ (only_hdr_same z.1 _ (st32 (h_mem s) (z.1 + 8) (u32 (z.2 + n))) bp (only_hdr_32 _ _ _ _ (only_hdr_refl _ _)) ltac:(by left))) as [-> _].
    rewrite Hbp. split; [upd|]. apply cells_app. cbn [hda seg fst snd]. rewrite h_ptr_eq, h_size_ptr, h_size_eq by (unfold HDR in *; lia). apply Forall_cons in F2 as [_ F2].
    split_and!; try done; eapply (only_hdr_seg z.1 (h_mem s)); eauto.
  - split; [upd|]. apply cells_app. cbn [hda fst]. split; [eapply (only_hdr_seg z.1 (h_mem s)); eauto|]. change (z :: (bp, n) :: w2) with ([z] ++ (bp, n) :: w2). apply cells_app.
    split; [|eapply (only_hdr_seg z.1 (h_mem s)); eauto]. cbn [seg hda fst]. rewrite h_ptr_eq, h_size_ptr by (unfold HDR in *; lia). done.
Qed.

(** ** The invariant by bytes *)

Lemma apart_bytes a n b k : 1 <= n -> 1 <= k -> apart a n b k <-> forall x, ~ (a <= x < a + HDR * n /\ b <= x < b + HDR * k).
Proof.
  intros Hn Hk. unfold apart, HDR. split; [lia|]. intros H. pose proof (H (Z.max a b)). lia.
Qed.
Definition used al (x : Z) : Prop := exists a n, al !! a = Some n /\ a <= x < a + HDR * n.

Lemma inv_bytes fl al s : heap_inv fl al s -> (forall x, covers fl x -> heap0 <= x < h_brk s) /\ (forall x, used al x -> heap0 <= x < h_brk s /\ ~ covers fl x).
Proof.
  intros Hi. split.
  - intros x Hx. apply Exists_exists in Hx as (b & Hb & Hx). pose proof (hi_free _ _ _ Hi) as Hf. eapply Forall_forall in Hf; [|exact Hb]. destruct Hf as (? & ? & ?). lia.
  - intros x (a & n & Ha & Hx). destruct (hi_used _ _ _ Hi a n Ha) as ((? & ? & ?) & _ & Hap). split; [lia|]. intros Hc.
    apply Exists_exists in Hc as (b & Hb & Hx'). eapply Forall_forall in Hap; [|exact Hb]. unfold apart in Hap. lia.
Qed.

Lemma rebuild fl' al' s' : 0 < base /\ base + HDR <= heap0 -> heap0 <= h_brk s' <= TRAPFRAME /\ h_brk s' - heap0 < 2 ^ 36 ->
  seg (h_mem s') (ring_of fl') base -> spaced (ring_of fl') -> Forall (fun x => 1 <= x.2) fl' -> h_freep s' ∈ (ring_of fl').*1 ->
  (forall x, covers fl' x -> heap0 <= x < h_brk s' /\ ~ used al' x) ->
  (forall a n, al' !! a = Some n -> in_heap s' a n /\ h_size (h_mem s') a = n) ->
  (forall a n b k, al' !! a = Some n -> al' !! b = Some k -> a <> b -> apart a n b k) -> heap_inv fl' al' s'.
Proof.
  intros H1 H2 H3 H4 H5 H6 H7 H8 H9. split; try done.
  - apply Forall_forall. intros y Hy. eapply Forall_forall in H5; [|exact Hy]. cbn in H5. unfold in_heap.
    assert (Hc : forall x, y.1 <= x < y.1 + HDR * y.2 -> covers fl' x) by (intros x Hx; apply Exists_exists; eauto).
    pose proof (H7 y.1) as K1. pose proof (H7 (y.1 + HDR * y.2 - 1)) as K2. unfold HDR in *. split; [apply K1, Hc; lia|]. split; [|done].
    enough (y.1 + 16 * y.2 - 1 < h_brk s') by lia. apply K2, Hc. lia.
  - intros a n Ha. destruct (H8 a n Ha) as [K1 K2]. split; [done|]. split; [done|]. apply Forall_forall. intros y Hy. eapply Forall_forall in H5; [|exact Hy].
    apply apart_bytes; [apply K1|done|]. intros x [Hx1 Hx2]. apply (H7 x); [apply Exists_exists; eauto|]. by exists a, n.
Qed.

(** Moving the break up. *)
Lemma inv_brk fl al s b : heap_inv fl al s -> h_brk s <= b <= TRAPFRAME -> b - heap0 < 2 ^ 36 -> heap_inv fl al (set_hbrk b s).
Proof.
  intros [H1 H2 H3 H4 H5 H6 H7 H8] Hb Hs. split; try done.
  - cbn. lia.
  - eapply Forall_impl; [exact H5|]. intros x (? & ? & ?). split; [done|]. cbn. lia.
  - intros a n Ha. destruct (H7 a n Ha) as ((? & ? & ?) & ? & ?). split; [|done]. split; [done|]. cbn. lia.
Qed.

(** A byte changed inside a block in use, behind its header. *)
Lemma inv_store fl al s a n x v : heap_inv fl al s -> al !! a = Some n -> a + HDR <= x < a + HDR * n -> heap_inv fl al (set_hmem (fun m => st8 m x v) s).
Proof.
  intros Hi Ha Hx. destruct (inv_bytes _ _ _ Hi) as [Hb1 Hb2].
  assert (Hu : used al x) by (exists a, n; unfold HDR in *; split; [done|lia]). destruct (Hb2 x Hu) as [Hr Hnc].
  assert (Hf : forall b, (forall y, b <= y < b + HDR -> y <> x) -> hdr_same (h_mem s) (st8 (h_mem s) x v) b).
  { intros b Hy y Hyb. rewrite ld8_st8. specialize (Hy y Hyb). by rewrite (proj2 (Z.eqb_neq y x)). }
  destruct (Hi) as [H1 H2 H3 H4 H5 H6 H7 H8]. split; try done.
  - eapply seg_frame; [exact H3|]. constructor; [apply Hf; cbn; intros y Hy; unfold HDR in *; lia|]. apply Forall_forall. intros b Hb. apply Hf. intros y Hy ->. apply Hnc.
    apply Exists_exists. exists b. split; [done|]. eapply Forall_forall in H5; [|exact Hb]. destruct H5 as (_ & _ & ?). unfold HDR in *. lia.
  - intros b k Hb. destruct (H7 b k Hb) as (K1 & K2 & K3). split; [done|]. split; [|done]. destruct (hdr_same_fields _ _ _ (Hf b ltac:(intros y Hy ->;
      destruct (decide (a = b)) as [->|Hne]; [unfold HDR in *; lia|]; destruct K1 as (_ & _ & ?); destruct (H8 a n b k Ha Hb Hne); unfold HDR in *; lia))) as [_ Hsz]. cbn [h_mem set_hmem]. by rewrite Hsz.
Qed.

Lemma covers_ring fl x : covers fl x <-> covers (ring_of fl) x.
Proof. unfold covers, ring_of. rewrite Exists_cons. cbn. unfold HDR. intuition lia. Qed.

(** * free: proof *)

(** Memory in use keeps its contents. *)
Definition keeps_used al s s' : Prop := forall x, used al x -> ld8 (h_mem s') x = ld8 (h_mem s) x.

Lemma ring_node fl al s w1 z w2 : heap_inv fl al s -> ring_of fl = w1 ++ z :: w2 ->
  (z = (base, 0) /\ w1 = [] /\ fl = w2) \/ (exists w1', w1 = (base, 0) :: w1' /\ fl = w1' ++ z :: w2 /\ in_heap s z.1 z.2).
Proof.
  intros Hi E. destruct w1 as [|x w1]; injection E as <- E; [by left|]. right. exists w1. split; [done|]. split; [done|].
  pose proof (hi_free _ _ _ Hi) as Hf. rewrite E in Hf. apply Forall_app in Hf as [_ Hf]. by apply Forall_cons in Hf as [? _].
Qed.

(** Neither the block freed nor its neighbour's header is in use elsewhere. *)
Lemma freed_away fl al s z w1 w2 bp n x : heap_inv fl al s -> al !! bp = Some n -> ring_of fl = w1 ++ z :: w2 -> used (delete bp al) x ->
  (x < bp \/ bp + HDR * n <= x) /\ (x < z.1 \/ z.1 + HDR <= x).
Proof.
  intros Hi Hbp E (a & k & Ha & Hx). apply lookup_delete_Some in Ha as [Hne Ha]. destruct (inv_bytes _ _ _ Hi) as [_ Hu].
  destruct (Hu x ltac:(by exists a, k)) as [Hr Hc]. split; [destruct (hi_apart _ _ _ Hi bp n a k Hbp Ha Hne); lia|].
  destruct (ring_node _ _ _ _ _ _ Hi E) as [(-> & _)|(w1' & _ & -> & Hz)].
  - cbn. pose proof (hi_base _ _ _ Hi). lia.
  - destruct (decide (x < z.1 \/ z.1 + HDR <= x)) as [H|H]; [done|]. exfalso. apply Hc. apply Exists_exists. exists z. split; [apply elem_of_app; right; left|].
    destruct Hz as (_ & _ & ?). unfold HDR in *. lia.
Qed.

(** The list after the two joins. *)
Lemma joined_ring fl al s w1 z w2 bp n w : heap_inv fl al s -> ring_of fl = w1 ++ z :: w2 -> base < bp -> 1 <= n -> (exists d, w2 = d ++ w) -> (length w <= length w2)%nat ->
  exists fl', w1 ++ join_left z bp n w = ring_of fl' /\ Forall (fun x => 1 <= x.2) fl' /\ (length fl' <= S (length fl))%nat /\
    (exists y, y ∈ fl' /\ y.1 <= bp /\ bp + HDR * n <= y.1 + HDR * y.2) /\ z.1 ∈ (ring_of fl').*1 /\
    (forall x, covers fl' x <-> covers (w1 ++ z :: (bp, n) :: w) x).
Proof.
  intros Hi E Hb Hn [d Hd] Hlen. pose proof (hi_free _ _ _ Hi) as Hf. pose proof (hi_base _ _ _ Hi) as Hbase.
  assert (Hone : forall l, Forall (fun x => in_heap s x.1 x.2) l -> Forall (fun x => 1 <= x.2) l) by (intros l Hl; eapply Forall_impl; [exact Hl|intros x Hx; apply Hx]).
  assert (Hcov : forall A B x, covers (A ++ B) x <-> covers A x \/ covers B x) by (intros; apply Exists_app).
  destruct (ring_node _ _ _ _ _ _ Hi E) as [(-> & -> & ->)|(w1' & -> & -> & Hz)].
  - unfold join_left. cbn [fst snd]. rewrite (proj2 (Z.eqb_neq _ bp)) by (unfold HDR; lia). exists ((bp, n) :: w). subst w2. apply Forall_app in Hf as [_ Hf]. split_and!; try done; [constructor; auto|cbn; lia| |by left|].
    + exists (bp, n). split; [by left|]. cbn. lia.
    + intros x. unfold covers. cbn [app]. rewrite (Exists_cons _ (base, 0)). cbn. unfold HDR. split; [tauto|]. intros [H|H]; [lia|done].
  - exists (w1' ++ join_left z bp n w). rewrite Hd in Hf. apply Forall_app in Hf as [Hf1 Hf2]. apply Forall_cons in Hf2 as [_ Hf2]. apply Forall_app in Hf2 as [_ Hf2]. destruct Hz as (Hz1 & Hz2 & Hz3).
    split; [done|]. split; [|split; [|split; [|split]]].
    + apply Forall_app. split; [auto|]. unfold join_left. destruct (_ =? _); repeat (constructor; cbn; try lia); auto.
    + unfold join_left. rewrite !length_app. destruct (_ =? _); cbn; lia.
    + unfold join_left. destruct (Z.eqb_spec (z.1 + HDR * z.2) bp) as [E'|E'].
      * exists (z.1, z.2 + n). split; [apply elem_of_app; right; left|]. cbn. unfold HDR in *. lia.
      * exists (bp, n). split; [apply elem_of_app; right; right; left|]. cbn. lia.
    + unfold ring_of. rewrite fmap_cons, fmap_app. right. apply elem_of_app. right. unfold join_left. destruct (_ =? _); left.
    + intros x. change (((base, 0) :: w1') ++ z :: (bp, n) :: w) with ([(base, 0)] ++ w1' ++ z :: (bp, n) :: w). rewrite !Hcov, join_covers by lia.
      unfold covers at 3. rewrite Exists_cons, Exists_nil. cbn. unfold HDR. intuition lia.
Qed.

(** Where the block to free lies between its neighbours. *)
Lemma freed_place fl al s w1 z w2 bp n : heap_inv fl al s -> al !! bp = Some n -> ring_of fl = w1 ++ z :: w2 -> z.1 < bp -> Forall (fun y => bp < y.1) w2 ->
  z.1 + HDR <= bp /\ z.1 + HDR * z.2 <= bp /\ 0 <= z.2 /\ base <= z.1 /\ (z.2 = 0 \/ h_brk s - z.1 < 2 ^ 36) /\
  Forall (fun x => bp + HDR * n <= x.1 /\ 1 <= x.2 /\ x.1 + HDR * x.2 <= h_brk s) w2.
Proof.
  intros Hi Hbp E Hlt Hgt. destruct (hi_used _ _ _ Hi bp n Hbp) as (Hh & _ & Hap). pose proof (hi_free _ _ _ Hi) as Hf. pose proof (hi_base _ _ _ Hi) as Hb. pose proof (hi_brk _ _ _ Hi) as Hk.
  assert (Hw : Forall (fun x => in_heap s x.1 x.2 /\ apart bp n x.1 x.2) w2 /\ z.1 + HDR <= bp /\ z.1 + HDR * z.2 <= bp /\ 0 <= z.2 /\ base <= z.1 /\ (z.2 = 0 \/ h_brk s - z.1 < 2 ^ 36)).
  { unfold in_heap, apart in *. destruct (ring_node _ _ _ _ _ _ Hi E) as [(-> & -> & ->)|(w1' & -> & -> & Hz)].
    - split; [by apply Forall_and|]. cbn. unfold HDR in *. lia.
    - apply Forall_app in Hf as [_ Hf]. apply Forall_app in Hap as [_ Hap]. apply Forall_cons in Hf as [_ Hf]. apply Forall_cons in Hap as [Hzap Hap].
      split; [by apply Forall_and|]. unfold in_heap, HDR in *. lia. }
  destruct Hw as (Hw & H1 & H2 & H3 & H4 & H5). split_and!; try done. apply Forall_forall. intros y Hy. eapply Forall_forall in Hw; [|exact Hy]. eapply Forall_forall in Hgt; [|exact Hy].
  destruct Hw as [(? & ? & ?) ?]. unfold apart, HDR in *. cbn in Hgt. lia.
Qed.

Lemma trapframe_small : TRAPFRAME < 2 ^ 63.
Proof. reflexivity. Qed.

Lemma free_ok fl al s bp n fuel : heap_inv fl al s -> al !! bp = Some n -> (2 * length (ring_of fl) <= fuel)%nat ->
  wp (free fuel (bp + HDR)) (fun _ s' => h_brk s' = h_brk s /\ keeps_used (delete bp al) s s' /\ exists fl', heap_inv fl' (delete bp al) s' /\ (length fl' <= S (length fl))%nat /\
    (exists y, y ∈ fl' /\ y.1 <= bp /\ bp + HDR * n <= y.1 + HDR * y.2) /\ forall x, covers fl' x <-> covers fl x \/ bp <= x < bp + HDR * n) s.
Proof.
  intros Hi Hbp Hfuel. destruct (hi_used _ _ _ Hi bp n Hbp) as ((Hh1 & Hh2 & Hh3) & Hsz & Hap). pose proof (hi_base _ _ _ Hi) as Hb. pose proof (hi_brk _ _ _ Hi) as Hk.
  pose proof trapframe_small as HT. unfold free. rewrite Z.add_simpl_r, u64_small by (unfold HDR in *; lia). rewrite wp_bind, wp_gets, wp_bind.
  destruct (free_find_ok fl al s bp fuel Hi) as (w1 & z & w2 & E & Hz & Hgt & Hrun); [unfold HDR in *; lia| |done|].
  { eapply Forall_impl; [apply Forall_and; exact (conj Hap (hi_free _ _ _ Hi))|]. intros y [Hy (_ & _ & Hy')] ->. unfold apart, HDR in *. lia. }
  unfold wp at 1. rewrite Hrun. destruct (freed_place _ _ _ _ _ _ _ _ Hi Hbp E Hz Hgt) as (P1 & P2 & P3 & P4 & P5 & P6).
  pose proof (hi_ring _ _ _ Hi) as Hring. pose proof (hi_spaced _ _ _ Hi) as Hsp. rewrite E in Hring, Hsp. apply cells_app in Hring as (R1 & R2 & R3 & R4). cbn [hda] in R1.
  apply StronglySorted_app in Hsp as (Sp1 & Sp2 & Sp3). destruct (StronglySorted_inv Sp3) as [Sp4 Sp5].
  rewrite wp_bind. eapply wp_mono; [apply (free_right_ok s bp n z.1 w2 (h_brk s)); try done; unfold HDR in *; lia|].
  intros [] s1 ((F1 & F2 & F3) & n' & w2' & G1 & G2 & G3 & G4 & G5 & G6 & G7). rewrite wp_bind.
  assert (Hhd : forall a, a + HDR <= bp -> hdr_same (h_mem s) (h_mem s1) a) by (intros a Ha; eapply only_hdr_same; [exact F3|by right]).
  assert (Hw1 : forall x, x ∈ w1 -> before x z) by (intros x Hx; apply Sp1; [done|left]).
  eapply wp_mono; [apply (free_left_ok s1 bp n' z w1 w2' (h_brk s)); try done|].
  - eapply seg_frame; [exact R1|]. apply Forall_forall. intros x Hx. apply Hhd. destruct (Hw1 x Hx). lia.
  - rewrite <- R2. apply hdr_same_fields. by apply Hhd.
  - apply StronglySorted_app. split; [|split; [done|by repeat constructor]]. intros x y Hx ->%list_elem_of_singleton. auto.
  - lia.
  - lia.
  - destruct G5 as [d ->]. apply Forall_app in P6 as [_ P6]. eapply Forall_impl; [exact P6|]. intros y Hy. cbn in Hy. unfold HDR in *. lia.
  - lia.
  - intros [] s2 ((L1 & L2 & L3) & L4). rewrite wp_modify.
    destruct (joined_ring fl al s w1 z w2 bp n' w2' Hi E ltac:(unfold HDR in *; lia) ltac:(lia) G5 G6) as (fl' & J1 & J2 & J3 & (y & J4 & J4') & J5 & J6).
    assert (Hku : keeps_used (delete bp al) s (set_freep z.1 s2)).
    { intros x Hx. destruct (freed_away _ _ _ _ _ _ _ _ _ Hi Hbp E Hx) as [K1 K2]. cbn. rewrite L3 by done. apply F3. unfold HDR in *. lia. }
    assert (Hcov : forall x, covers fl' x <-> covers fl x \/ bp <= x < bp + HDR * n).
    { intros x. rewrite J6, (covers_ring fl), E. pose proof (G7 x) as G7x. unfold covers in *. rewrite !Exists_app, !Exists_cons in *. cbn [fst snd] in *. tauto. }
    split; [cbn; congruence|]. split; [done|]. exists fl'. split; [|split; [done|split; [|done]]].
    2:{ exists y. split; [done|]. unfold HDR in *. lia. }
    destruct (inv_bytes _ _ _ Hi) as [B1 B2]. apply rebuild; try done; cbn [h_brk h_mem h_freep set_freep]; rewrite ?L2, ?F2; try done.
    + by rewrite <- J1.
    + rewrite <- J1. apply join_spaced; try done; [|lia]. apply StronglySorted_app. split; [|split; [done|by repeat constructor]]. intros x v Hx ->%list_elem_of_singleton. auto.
    + intros x Hx. split; [apply Hcov in Hx as [Hx|Hx]; [by apply B1|unfold HDR in *; lia]|]. intros Hu. destruct (freed_away _ _ _ _ _ _ _ _ _ Hi Hbp E Hu) as [K1 _].
      destruct Hu as (a & k & Ha & Hxa). apply lookup_delete_Some in Ha as [_ Ha]. apply Hcov in Hx as [Hx|Hx]; [|lia]. apply (proj2 (B2 x ltac:(by exists a, k))). done.
    + intros a k Ha. destruct (lookup_delete_Some al bp a k) as [Hd _]. destruct (Hd Ha) as [_ Ha']. destruct (hi_used _ _ _ Hi a k Ha') as ((? & ? & ?) & <- & _). split; [split; [done|]; split; [cbn; congruence|done]|].
      apply hdr_same_fields. intros x Hx. apply Hku. exists a. eexists. split; [exact Ha|]. unfold HDR in *. lia.
    + intros a k b j Ha Hb'. apply lookup_delete_Some in Ha as [_ Ha]. apply lookup_delete_Some in Hb' as [_ Hb']. by apply (hi_apart _ _ _ Hi).
Qed.

(** * malloc: proof *)

Lemma ring_replace fl w1 z t t' : ring_of fl = w1 ++ z :: t -> exists fl', ring_of fl' = w1 ++ z :: t' /\ forall x, x ∈ fl' -> x ∈ fl \/ x ∈ t'.
Proof.
  intros E. destruct w1 as [|b w1]; injection E as <- E.
  - exists t'. split; [done|]. auto.
  - exists (w1 ++ z :: t'). split; [done|]. intros x. rewrite E, !elem_of_app, !elem_of_cons. tauto.
Qed.

(** What remains when [y] gives up its last [nu] units. *)
Definition cut_block (y : block) (nu : Z) w : list block := if y.2 =? nu then w else (y.1, y.2 - nu) :: w.

Lemma cut_covers y nu w x : 1 <= nu <= y.2 ->
  covers (y :: w) x <-> covers (cut_block y nu w) x \/ y.1 + HDR * (y.2 - nu) <= x < y.1 + HDR * (y.2 - nu) + HDR * nu.
Proof.
  intros H. unfold cut_block, covers. destruct (Z.eqb_spec y.2 nu) as [E|E]; rewrite !Exists_cons; cbn; unfold HDR.
  - rewrite E, Z.sub_diag, Z.mul_0_r, Z.add_0_r. tauto.
  - split; [|intros [[|]|]; [left; lia|by right|left; lia]]. intros [|]; [|tauto]. destruct (decide (x < y.1 + 16 * (y.2 - nu))); [left; left; lia|right; lia].
Qed.
Lemma cut_spaced w1 z y nu w2 : 1 <= nu <= y.2 -> spaced (w1 ++ z :: y :: w2) -> spaced (w1 ++ z :: cut_block y nu w2).
Proof.
  intros H Hsp. unfold cut_block. destruct (Z.eqb_spec y.2 nu) as [E|E].
  - change (z :: y :: w2) with ([z] ++ [y] ++ w2) in Hsp. rewrite app_assoc in Hsp. apply StronglySorted_app in Hsp as (H1 & H2 & H3). apply StronglySorted_inv in H3 as [H3 _].
    change (z :: w2) with ([z] ++ w2). rewrite app_assoc. apply StronglySorted_app. split; [|done]. intros a b Ha Hb. apply H1; [done|by right].
  - change (z :: ?t) with ([z] ++ t) in *. rewrite app_assoc in *. apply StronglySorted_app in Hsp as (H1 & H2 & H3). apply StronglySorted_inv in H3 as [H3 H4].
    apply StronglySorted_app. split; [|split; [done|]].
    + intros a b Ha [->|Hb]%elem_of_cons; [apply (H1 a y Ha); left|]. apply H1; [done|by right].
    + constructor; [done|]. eapply Forall_impl; [exact H4|]. intros b. unfold before, HDR. cbn. lia.
Qed.

Lemma cut_disjoint w1 z y nu w2 x : 1 <= nu <= y.2 -> spaced (w1 ++ z :: y :: w2) -> covers (w1 ++ z :: cut_block y nu w2) x ->
  ~ (y.1 + HDR * (y.2 - nu) <= x < y.1 + HDR * (y.2 - nu) + HDR * nu).
Proof.
  intros H Hsp Hc. apply Exists_exists in Hc as (b & Hb & Hx). change (z :: ?t) with ([z] ++ t) in *. rewrite app_assoc in *. apply StronglySorted_app in Hsp as (H1 & _ & H3).
  apply StronglySorted_inv in H3 as [_ H4]. apply elem_of_app in Hb as [Hb|Hb].
  - destruct (H1 b y Hb ltac:(left)). unfold HDR in *. lia.
  - assert (Hb' : (b.1 = y.1 /\ b.2 = y.2 - nu) \/ b ∈ w2).
    { unfold cut_block in Hb. destruct (y.2 =? nu); [by right|]. apply elem_of_cons in Hb as [->|Hb]; [by left|by right]. }
    destruct Hb' as [[E1 E2]|Hb']; [rewrite E1, E2 in Hx; unfold HDR in *; lia|]. eapply Forall_forall in H4; [|exact Hb']. destruct H4. unfold HDR in *. lia.
Qed.

(** The memory after take_block: only the header of the node before and the
    block itself are written. *)
Lemma take_block_mem s w1 z y w2 nu : seg (h_mem s) (w1 ++ z :: y :: w2) base -> spaced (w1 ++ z :: y :: w2) -> 1 <= nu <= y.2 -> y.2 < 2 ^ 32 ->
  0 < z.1 -> y.1 + HDR * y.2 < 2 ^ 63 -> 0 <= hda w2 base < 2 ^ 64 -> let a := y.1 + HDR * (y.2 - nu) in
  wp (take_block nu z.1 y.1) (fun r s' => r = a + HDR /\ h_freep s' = z.1 /\ h_brk s' = h_brk s /\ seg (h_mem s') (w1 ++ z :: cut_block y nu w2) base /\ h_size (h_mem s') a = nu /\
    forall x, x < z.1 \/ z.1 + HDR <= x -> x < y.1 \/ y.1 + HDR * y.2 <= x -> ld8 (h_mem s') x = ld8 (h_mem s) x) s.
Proof.
  intros Hseg Hsp Hnu Hy32 Hz Hy63 Hq a. apply cells_app in Hseg as (G1 & Gz1 & Gz2 & Gy1 & Gy2 & G2). cbn [hda] in *.
  apply StronglySorted_app in Hsp as (S1 & _ & S2). apply StronglySorted_inv in S2 as [S2 S3]. apply StronglySorted_inv in S2 as [_ S4]. apply Forall_cons in S3 as [[_ Szy] S3].
  assert (W1 : forall x, x ∈ w1 -> x.1 + HDR <= z.1 /\ x.1 + HDR <= y.1).
  { intros x Hx. split; [apply (S1 x z Hx); left|apply (S1 x y Hx); right; left]. }
  assert (W2 : forall x, x ∈ w2 -> z.1 + HDR <= x.1 /\ y.1 + HDR * y.2 < x.1).
  { intros x Hx. eapply Forall_forall in S3; [|exact Hx]. eapply Forall_forall in S4; [|exact Hx]. split; [apply S3|apply S4]. }
  unfold take_block, get_size, get_ptr, set_size, set_ptr, cut_block. wp_simp. rewrite Gy1. destruct (Z.eqb_spec y.2 nu) as [E|E]; wp_simp; cbn [h_mem set_hmem h_freep h_brk set_freep].
  - rewrite Gy2. assert (Ha : a = y.1) by (unfold a; rewrite E; lia). clearbody a. subst a. rewrite hdr_add_small by (unfold HDR in *; lia).
    assert (Ho : only_hdr z.1 (h_mem s) (st64 (h_mem s) z.1 (hda w2 base))) by eauto.
    split_and!; [lia|done|done| | |intros x Hx _; by apply Ho].
    + apply cells_app. cbn [hda seg]. rewrite h_ptr_eq, h_size_ptr by done. split_and!; try done; eapply only_hdr_seg; eauto; apply Forall_forall; intros x Hx; [right; by apply W1|left; by apply W2].
    + destruct (hdr_same_fields _ _ y.1 (only_hdr_same _ _ _ y.1 Ho ltac:(by left))) as [_ ->]. congruence.
  - rewrite h_size_eq by lia. rewrite (hdr_add_small y.1) by (unfold HDR in *; lia). fold a. rewrite hdr_add_small by (unfold a, HDR in *; lia).
    set (m1 := st32 (h_mem s) (y.1 + 8) (u32 (y.2 - nu))). set (m2 := st32 m1 (a + 8) (u32 nu)).
    assert (O1 : only_hdr y.1 (h_mem s) m1) by (unfold m1; eauto). assert (O2 : only_hdr a m1 m2) by (unfold m2; eauto).
    assert (Hay : y.1 + HDR <= a) by (unfold a, HDR; lia).
    assert (Hend : a + HDR <= y.1 + HDR * y.2) by (unfold a, HDR; lia).
    assert (Hfr : forall b, b + HDR <= y.1 \/ y.1 + HDR * y.2 <= b -> hdr_same (h_mem s) m2 b).
    { intros b Hb. eapply hdr_same_trans; [eapply (only_hdr_same _ _ _ b O1)|eapply (only_hdr_same _ _ _ b O2)]; unfold HDR in *; lia. }
    split_and!; [lia|done|done| | |].
    + apply cells_app. cbn [hda seg fst snd]. destruct (hdr_same_fields _ _ z.1 (Hfr z.1 ltac:(left; lia))) as [-> ->].
      destruct (hdr_same_fields _ _ y.1 (only_hdr_same _ _ _ y.1 O2 ltac:(by right))) as [-> ->]. unfold m1 at 1 2. rewrite h_ptr_size, h_size_eq by lia.
      split_and!; try done; eapply seg_frame; eauto; apply Forall_forall; intros x Hx; apply Hfr; [left; by apply W1|right; pose proof (W2 x Hx); lia].
    + unfold m2. apply h_size_eq. lia.
    + intros x _ Hx. rewrite O2, O1; [done|..]; unfold HDR in *; lia.
Qed.

(** A block of [nu] units moved from the free list to the blocks in use. *)
Definition allocated fl al s nu (r : Z) s' : Prop := exists fl' a, r = a + HDR /\ heap_inv fl' (<[a := nu]> al) s' /\ al !! a = None /\
  (forall x, covers fl x <-> covers fl' x \/ a <= x < a + HDR * nu) /\ keeps_used al s s'.

Lemma ring_bounds fl al s x : heap_inv fl al s -> x ∈ ring_of fl -> 0 < x.1 /\ base <= x.1 /\ x.1 + HDR * x.2 < 2 ^ 63 /\ 0 <= x.2 < 2 ^ 32.
Proof.
  intros Hi Hx. pose proof (hi_base _ _ _ Hi) as Hb. pose proof (hi_brk _ _ _ Hi) as Hk. pose proof trapframe_small as HT. apply elem_of_cons in Hx as [->|Hx]; cbn [fst snd]; [unfold HDR in *; lia|].
  pose proof (hi_free _ _ _ Hi) as Hf. eapply Forall_forall in Hf; [|exact Hx]. destruct Hf as (? & ? & ?). unfold HDR in *. lia.
Qed.

Lemma take_block_ok fl al s w1 z y w2 nu : heap_inv fl al s -> ring_of fl = w1 ++ z :: y :: w2 -> 1 <= nu <= y.2 ->
  wp (take_block nu z.1 y.1) (fun r s' => h_brk s' = h_brk s /\ allocated fl al s nu r s') s.
Proof.
  intros Hi E Hnu. pose proof (hi_ring _ _ _ Hi) as Hring. pose proof (hi_spaced _ _ _ Hi) as Hsp. pose proof (hi_base _ _ _ Hi) as Hb. rewrite E in Hring, Hsp.
  assert (Bd : forall x, x ∈ w1 ++ z :: y :: w2 -> 0 < x.1 /\ base <= x.1 /\ x.1 + HDR * x.2 < 2 ^ 63 /\ 0 <= x.2 < 2 ^ 32) by (rewrite <- E; intros x; by apply (ring_bounds fl al s)).
  assert (Hzin : z ∈ w1 ++ z :: y :: w2) by (apply elem_of_app; right; left). assert (Hyin : y ∈ w1 ++ z :: y :: w2) by (apply elem_of_app; right; right; left).
  destruct (Bd z Hzin) as (Z1 & Z2 & Z3 & Z4). destruct (Bd y Hyin) as (Y1 & Y2 & Y3 & Y4).
  assert (Hyf : y ∈ fl). { destruct w1 as [|b w1]; injection E as <- E; rewrite E; [left|apply elem_of_app; right; right; left]. }
  assert (Hq : 0 <= hda w2 base < 2 ^ 64).
  { destruct w2 as [|v w2]; cbn; [unfold HDR in *; lia|]. destruct (Bd v ltac:(apply elem_of_app; right; right; right; left)) as (? & ? & ? & ?). unfold HDR in *. lia. }
  eapply wp_mono; [apply (take_block_mem s w1 z y w2 nu); try done; lia|]. intros r s' (R1 & R2 & R3 & R4 & R5 & R6). set (a := y.1 + HDR * (y.2 - nu)) in *. split; [done|].
  destruct (ring_replace fl w1 z (y :: w2) (cut_block y nu w2) E) as (fl' & E' & Hin). destruct (inv_bytes _ _ _ Hi) as [B1 B2].
  assert (Hc : forall x, covers fl x <-> covers fl' x \/ a <= x < a + HDR * nu).
  { intros x. rewrite (covers_ring fl), (covers_ring fl'), E, E'. unfold covers. rewrite !Exists_app, (Exists_cons _ z), (Exists_cons _ z (cut_block _ _ _)).
    pose proof (cut_covers y nu w2 x Hnu) as Hcut. unfold covers, a in *. tauto. }
  assert (Hyc : forall x, y.1 <= x < y.1 + HDR * y.2 -> covers fl x) by (intros x Hx; apply Exists_exists; eauto).
  assert (Hd : forall x, used al x -> ~ (a <= x < a + HDR * nu)) by (intros x Hx Hxa; destruct (B2 x Hx) as [_ Hn]; apply Hn, Hc; by right).
  assert (Hku : keeps_used al s s').
  { intros x Hx. destruct (B2 x Hx) as [Hr Hn]. apply R6.
    - destruct (ring_node _ _ _ _ _ _ Hi E) as [(-> & _)|(w1' & _ & Hfl & (_ & _ & Hz1))]; [cbn; lia|]. destruct (decide (x < z.1 \/ z.1 + HDR <= x)); [done|]. exfalso. apply Hn.
      apply Exists_exists. exists z. rewrite Hfl. split; [apply elem_of_app; right; left|]. unfold HDR in *. lia.
    - destruct (decide (x < y.1 \/ y.1 + HDR * y.2 <= x)); [done|]. exfalso. apply Hn, Hyc. lia. }
  exists fl', a. split; [done|]. assert (Hnone : al !! a = None).
  { destruct (al !! a) as [k|] eqn:Ea; [|done]. exfalso. destruct (hi_used _ _ _ Hi a k Ea) as ((_ & _ & ?) & _). apply (Hd a); [|unfold HDR in *; lia]. exists a, k. unfold HDR in *. split; [done|lia]. }
  split; [|done]. apply rebuild; rewrite ?R3; try done; [by apply Hi|by rewrite E'|rewrite E'; by apply cut_spaced|..].
  - apply Forall_forall. intros x Hx. destruct (Hin x Hx) as [Hx'|Hx']; [pose proof (hi_free _ _ _ Hi) as Hf; eapply Forall_forall in Hf; [|exact Hx']; apply Hf|].
    unfold cut_block in Hx'. pose proof (hi_free _ _ _ Hi) as Hf. destruct (Z.eqb_spec y.2 nu) as [En|En].
    + eapply Forall_forall in Hf; [apply Hf|]. destruct w1 as [|b w1]; injection E as <- E; rewrite E; [by right|apply elem_of_app; right; right; by right].
    + apply elem_of_cons in Hx' as [->|Hx']; [cbn; lia|]. eapply Forall_forall in Hf; [apply Hf|]. destruct w1 as [|b w1]; injection E as <- E; rewrite E; [by right|apply elem_of_app; right; right; by right].
  - rewrite R2, E', fmap_app. apply elem_of_app. right. left.
  - intros x Hx. assert (Hxf : covers fl x) by (apply Hc; by left). split; [by apply B1|]. intros (b & k & Hbk & Hxb). apply lookup_insert_Some in Hbk as [[<- <-]|[Hne Hbk]].
    + rewrite covers_ring, E' in Hx. by apply (cut_disjoint w1 z y nu w2 x Hnu Hsp Hx).
    + apply (proj2 (B2 x ltac:(by exists b, k)) Hxf).
  - intros b k [[<- <-]|[Hne Hbk]]%lookup_insert_Some.
    + split; [|done]. pose proof (hi_free _ _ _ Hi) as Hf. eapply Forall_forall in Hf; [|exact Hyf]. destruct Hf as (? & ? & ?). unfold in_heap. rewrite R3. unfold a, HDR in *. lia.
    + destruct (hi_used _ _ _ Hi b k Hbk) as ((? & ? & ?) & <- & _). split; [split; [done|]; rewrite R3; done|]. apply hdr_same_fields. intros x Hx. apply Hku. exists b. eexists. split; [exact Hbk|]. unfold HDR in *. lia.
  - assert (Hnew : forall b k, al !! b = Some k -> apart a nu b k).
    { intros b k Hbk. destruct (hi_used _ _ _ Hi b k Hbk) as ((_ & _ & ?) & _). apply apart_bytes; [lia|done|]. intros x [Hx1 Hx2]. apply (Hd x); [by exists b, k|done]. }
    intros b k c j [[<- <-]|[Hb1 Hb2]]%lookup_insert_Some [[<- <-]|[Hc1 Hc2]]%lookup_insert_Some Hne; [done|by apply Hnew|destruct (Hnew _ _ Hb2); [by right|by left]|by apply (hi_apart _ _ _ Hi)].
Qed.

(** ** The search *)

(** What malloc_loop does when it has been around the list. *)
Definition grow (fuel : nat) (nu : Z) : M hst Z :=
  let! p := morecore (S fuel) nu in
  if p =? 0 then ret 0 else let! q := get_ptr p in malloc_loop fuel nu p q.
Definition last_addr (w : list block) (p : Z) : Z := default p (fst <$> last w).

Lemma walk s nu i x q k : h_freep s = x.1 -> Forall (fun y => y.1 <> x.1) i -> seg (h_mem s) (i ++ [x]) q -> forall prev,
  (exists u y v, i ++ [x] = u ++ y :: v /\ nu <= y.2 /\ malloc_loop (length (i ++ [x]) + k) nu prev (hda (i ++ [x]) 0) s = take_block nu (last_addr u prev) y.1 s) \/
  (Forall (fun y => y.2 < nu) (i ++ [x]) /\ malloc_loop (length (i ++ [x]) + k) nu prev (hda (i ++ [x]) 0) s = grow k nu s).
Proof.
  intros Hf Hne. induction i as [|y i IH]; intros Hseg prev.
  - destruct Hseg as (Hx & _). cbn [app length Nat.add hda malloc_loop]. unfold get_size, bind, gets. rewrite Hx. destruct (Z.leb_spec nu x.2) as [H|H].
    + left. exists [], x, []. done.
    + right. split; [by repeat constructor|]. by rewrite Hf, Z.eqb_refl.
  - apply Forall_cons in Hne as [Hy Hne]. destruct Hseg as (Hsz & Hp & Hseg). cbn [app length Nat.add hda malloc_loop]. unfold get_size, bind, gets. rewrite Hsz. destruct (Z.leb_spec nu y.2) as [H|H].
    + left. by exists [], y, (i ++ [x]).
    + rewrite Hf, (proj2 (Z.eqb_neq _ _) Hy). unfold get_ptr, gets. rewrite Hp. fold (i ++ [x]). replace (hda (i ++ [x]) q) with (hda (i ++ [x]) 0) by (by destruct i).
      destruct (IH Hne Hseg y.1) as [(u & b & v & E & Hb & Hrun)|[Hall Hrun]].
      * left. exists (y :: u), b, v. rewrite E. split; [done|]. split; [done|]. rewrite <- E, Hrun. unfold last_addr. by destruct u as [|? ? _] using rev_ind; [|rewrite app_comm_cons, !last_snoc].
      * right. split; [by constructor|]. done.
Qed.

(** Neighbours in the order of the search are neighbours in the list, unless
    the second is the static header. *)
Lemma rotate A B x u y v : B ++ A ++ [x] = u ++ y :: v -> y.1 <> hda (A ++ [x]) 0 ->
  exists w1 z w2, A ++ x :: B = w1 ++ z :: y :: w2 /\ last_addr u x.1 = z.1.
Proof.
  intros E Hy. assert (Hr : A ++ x :: B = (A ++ [x]) ++ B) by (by rewrite <- app_assoc). destruct u as [|z u _] using rev_ind.
  - destruct B as [|b B]; [cbn in E; rewrite E in Hy; done|]. injection E as <- E. by exists A, x, B.
  - unfold last_addr. rewrite last_snoc. rewrite <- app_assoc in E. cbn [app] in E. rewrite Hr. apply app_eq_inv in E as [(l & -> & E)|(l & -> & E)].
    + destruct l as [|c [|d l]]; cbn [app] in E.
      * exists [], z, (v ++ u). rewrite <- E. by rewrite app_nil_r.
      * injection E as <- E. rewrite <- E in Hy. done.
      * injection E as <- <- E. exists (A ++ [x] ++ u), z, l. by rewrite <- !app_assoc.
    + exists l, z, (v ++ B). rewrite E. by rewrite <- app_assoc.
Qed.

(** From [freep] all around: the first block that fits, or none. *)
Lemma malloc_ring fl al s nu k : heap_inv fl al s -> 1 <= nu ->
  let p := h_freep s in let q := h_ptr (h_mem s) p in
  (exists w1 z y w2, ring_of fl = w1 ++ z :: y :: w2 /\ nu <= y.2 /\ malloc_loop (length (ring_of fl) + k) nu p q s = take_block nu z.1 y.1 s) \/
  (Forall (fun y => y.2 < nu) fl /\ malloc_loop (length (ring_of fl) + k) nu p q s = grow k nu s).
Proof.
  intros Hi Hnu. cbv zeta. pose proof (hi_freep _ _ _ Hi) as Hf. apply list_elem_of_fmap in Hf as (x & Hf & Hin). apply list_elem_of_split in Hin as (A & B & E). rewrite Hf.
  pose proof (hi_ring _ _ _ Hi) as Hring. pose proof (hi_spaced _ _ _ Hi) as Hsp. rewrite E in Hring, Hsp. apply StronglySorted_app in Hsp as (S1 & _ & S2). apply StronglySorted_inv in S2 as [_ S2].
  assert (Hbase : hda (A ++ [x]) 0 = base) by (destruct A as [|a A]; by injection E as <- _).
  assert (Hne : Forall (fun y => y.1 <> x.1) (B ++ A)).
  { apply Forall_app. split; apply Forall_forall; intros y Hy; [eapply Forall_forall in S2; [|exact Hy]; destruct S2|destruct (S1 y x Hy ltac:(left))]; unfold HDR in *; lia. }
  apply cells_app in Hring as (G1 & G2 & G3 & G4). cbn [hda] in G1.
  assert (Hw : seg (h_mem s) ((B ++ A) ++ [x]) (hda B base)).
  { rewrite <- app_assoc. apply cells_app. rewrite hda_app. split; [|apply cells_app; by split].
    replace (hda A (hda [x] (hda B base))) with base; [done|]. cbn. rewrite <- Hbase. by destruct A. }
  assert (Hq : h_ptr (h_mem s) x.1 = hda ((B ++ A) ++ [x]) 0) by (rewrite G3, <- app_assoc, hda_app, Hbase; by destruct B).
  rewrite Hq. replace (length (ring_of fl)) with (length ((B ++ A) ++ [x])) by (rewrite E, !length_app; cbn; lia).
  destruct (walk s nu (B ++ A) x (hda B base) k Hf Hne Hw x.1) as [(u & y & v & E1 & Hy & ->)|[Hall ->]].
  - left. rewrite <- app_assoc in E1. destruct (rotate A B x u y v E1) as (w1 & z & w2 & E2 & E3).
    + rewrite Hbase. intros Hyb. assert (Hyin : y ∈ ring_of fl). { rewrite E. assert (y ∈ B ++ A ++ [x]) by (rewrite E1; apply elem_of_app; right; left). set_solver. }
      apply elem_of_cons in Hyin as [->|Hyin]; [cbn in Hy; lia|]. pose proof (hi_free _ _ _ Hi) as Hfr. eapply Forall_forall in Hfr; [|exact Hyin]. destruct Hfr as (? & _). pose proof (hi_base _ _ _ Hi). unfold HDR in *. lia.
    + exists w1, z, y, w2. rewrite E, E3. done.
  - right. split; [|done]. apply Forall_forall. intros y Hy. eapply Forall_forall in Hall; [exact Hall|]. assert (y ∈ ring_of fl) as Hy' by (by right). rewrite E in Hy'. set_solver.
Qed.

(** ** morecore *)

(** The memory that sbrk() adds, as a block in use. *)
Lemma inv_grow fl al s n : heap_inv fl al s -> 1 <= n < 2 ^ 32 -> h_brk s + HDR * n <= TRAPFRAME -> h_brk s + HDR * n - heap0 < 2 ^ 36 ->
  let s' := set_hmem (fun m => st32 m (h_brk s + 8) (u32 n)) (set_hbrk (h_brk s + HDR * n) s) in
  heap_inv fl (<[h_brk s := n]> al) s' /\ al !! h_brk s = None /\ keeps_used al s s'.
Proof.
  intros Hi Hn HT H36 s'. pose proof (inv_brk _ _ _ (h_brk s + HDR * n) Hi ltac:(unfold HDR in *; lia) H36) as Hi'. destruct (inv_bytes _ _ _ Hi) as [B1 B2].
  assert (O : only_hdr (h_brk s) (h_mem s) (h_mem s')) by (apply only_hdr_32, only_hdr_refl).
  assert (Hku : keeps_used al s s') by (intros x Hx; destruct (B2 x Hx) as [[_ Hx'] _]; apply O; left; lia).
  assert (Hnone : al !! h_brk s = None).
  { destruct (al !! h_brk s) as [k|] eqn:Ek; [|done]. destruct (hi_used _ _ _ Hi _ _ Ek) as ((_ & ? & ?) & _). unfold HDR in *. lia. }
  split; [|done]. destruct (hi_base _ _ _ Hi) as [Hb1 Hb2]. pose proof (hi_brk _ _ _ Hi) as Hk. apply rebuild; try (by apply Hi').
  - eapply only_hdr_seg; [exact O| |apply Hi]. constructor; [right; cbn; lia|]. eapply Forall_impl; [apply (hi_free _ _ _ Hi)|]. intros x (? & ? & ?). right. unfold HDR in *. lia.
  - eapply Forall_impl; [apply (hi_free _ _ _ Hi)|]. intros x Hx. apply Hx.
  - intros x Hx. pose proof (B1 x Hx) as Hx1. split; [cbn; unfold HDR in *; lia|]. intros (a & k & [[<- <-]|[Hne Hak]]%lookup_insert_Some & Hxa); [unfold HDR in *; lia|].
    apply (proj2 (B2 x ltac:(by exists a, k)) Hx).
  - intros a k [[<- <-]|[Hne Hak]]%lookup_insert_Some.
    + split; [unfold in_heap; cbn; unfold HDR in *; lia|]. cbn. apply h_size_eq. lia.
    + destruct (hi_used _ _ _ Hi' a k Hak) as (K1 & K2 & _). split; [exact K1|]. rewrite <- K2. apply hdr_same_fields. intros x Hx. apply Hku. exists a, k. split; [done|]. destruct K1 as (_ & _ & ?). unfold HDR in *. lia.
  - assert (Hnew : forall a k, al !! a = Some k -> a + HDR * k <= h_brk s) by (intros a k Hak; destruct (hi_used _ _ _ Hi a k Hak) as ((_ & ? & _) & _); done).
    intros a k b j [[<- <-]|[Ha1 Ha2]]%lookup_insert_Some [[<- <-]|[Hb1' Hb2']]%lookup_insert_Some Hne; [done|right; by apply Hnew|left; by apply Hnew|by apply (hi_apart _ _ _ Hi)].
Qed.

Definition core_units (nu : Z) : Z := if nu <? 4096 then 4096 else nu.
Lemma morecore_ok fl al s nu fuel : heap_inv fl al s -> 1 <= nu -> core_units nu * HDR < 2 ^ 31 -> h_brk s + HDR * core_units nu - heap0 < 2 ^ 36 ->
  (2 * length (ring_of fl) <= fuel)%nat ->
  wp (morecore fuel nu) (fun r s' => (r = 0 /\ s' = s /\ TRAPFRAME < h_brk s + HDR * core_units nu) \/
    (r = h_freep s' /\ r <> 0 /\ h_brk s' = h_brk s + HDR * core_units nu /\ keeps_used al s s' /\ exists fl', heap_inv fl' al s' /\ (length fl' <= S (length fl))%nat /\
      (exists y, y ∈ fl' /\ nu <= y.2) /\ forall x, covers fl' x <-> covers fl x \/ h_brk s <= x < h_brk s')) s.
Proof.
  intros Hi Hnu H31 H36 Hf. unfold morecore. fold (core_units nu). assert (Hge : nu <= core_units nu /\ 4096 <= core_units nu) by (unfold core_units; destruct (Z.ltb_spec nu 4096); lia). set (n := core_units nu) in *. clearbody n.
  pose proof (hi_base _ _ _ Hi) as Hb. pose proof (hi_brk _ _ _ Hi) as Hk. pose proof trapframe_small as HT. unfold sbrk. rewrite s32_small by (unfold HDR in *; lia). cbv zeta. rewrite wp_bind, wp_bind, wp_gets.
  rewrite (proj2 (Z.ltb_ge (n * HDR) 0)) by (unfold HDR; lia). rewrite (Z.mul_comm n HDR). rewrite u64_small by (unfold HDR in *; lia). rewrite (proj2 (Z.ltb_ge _ (h_brk s))) by (unfold HDR; lia).
  destruct (Z.ltb_spec TRAPFRAME (h_brk s + HDR * n)) as [Hbig|Hfit]; [rewrite !wp_ret, Z.eqb_refl, wp_ret; by left|]. wp_simp.
  rewrite (proj2 (Z.eqb_neq _ SBRK_ERROR)) by (unfold SBRK_ERROR; change (u64 (-1)) with (2 ^ 64 - 1); lia). unfold set_size. rewrite wp_bind, wp_modify.
  destruct (inv_grow _ _ _ n Hi ltac:(unfold HDR in *; lia) Hfit H36) as (Hi' & Hnone & Hku). set (s1 := set_hmem _ _) in *.
  rewrite hdr_add_small by (unfold HDR in *; lia). rewrite Z.mul_1_r, wp_bind.
  eapply wp_mono; [apply (free_ok fl _ s1 (h_brk s) n fuel Hi'); [apply lookup_insert_eq|done]|]. intros [] s2 (F1 & F2 & fl' & F3 & F4 & (y & F5 & F6) & F7). rewrite delete_insert_id in * by done.
  rewrite wp_gets. right. split; [done|]. split.
  { pose proof (hi_freep _ _ _ F3) as Hin. apply list_elem_of_fmap in Hin as (x & -> & Hx). destruct (ring_bounds _ _ _ _ F3 Hx). lia. }
  split; [rewrite F1; done|]. split; [intros x Hx; rewrite F2 by done; by apply Hku|]. exists fl'. split; [done|]. split; [done|]. split; [exists y; split; [done|unfold HDR in *; lia]|]. intros x. rewrite F7, F1. done.
Qed.

(** ** malloc *)

(** Before the first call the list does not exist. *)
Definition fresh_heap s : Prop := (0 < base /\ base + HDR <= heap0) /\ (heap0 <= h_brk s <= TRAPFRAME /\ h_brk s - heap0 < 2 ^ 36) /\ h_freep s = 0.
Definition heap_ok (fl : list block) al s : Prop := heap_inv fl al s \/ fresh_heap s /\ fl = [] /\ al = ∅.

(** No block of [nu] units is free, and the break cannot be moved to make one. *)
Definition no_room (fl : list block) s (nu : Z) : Prop := Forall (fun y => y.2 < nu) fl /\ TRAPFRAME < h_brk s + HDR * core_units nu.
(** [nu] units for the caller, from memory that was free or beyond the break. *)
Definition gets_block (fl : list block) al s (nu r : Z) s' : Prop := exists fl' a, r = a + HDR /\ heap_inv fl' (<[a := nu]> al) s' /\ al !! a = None /\ keeps_used al s s' /\ h_brk s <= h_brk s' /\
  (forall x, a <= x < a + HDR * nu -> covers fl x \/ h_brk s <= x < h_brk s').

Lemma malloc_loop_ok fl al s nu fuel : heap_inv fl al s -> 1 <= nu -> core_units nu * HDR < 2 ^ 31 -> h_brk s + HDR * core_units nu - heap0 < 2 ^ 36 ->
  (3 * length (ring_of fl) + 1 <= fuel)%nat ->
  wp (malloc_loop fuel nu (h_freep s) (h_ptr (h_mem s) (h_freep s))) (fun r s' => (r = 0 /\ s' = s /\ no_room fl s nu) \/ gets_block fl al s nu r s') s.
Proof.
  intros Hi Hnu H31 H36 Hf. replace fuel with (length (ring_of fl) + (fuel - length (ring_of fl)))%nat by lia. set (k := (fuel - length (ring_of fl))%nat). assert (Hk : (2 * length (ring_of fl) + 1 <= k)%nat) by lia. clearbody k.
  destruct (malloc_ring fl al s nu k Hi Hnu) as [(w1 & z & y & w2 & E & Hy & Hrun)|[Hall Hrun]]; unfold wp; rewrite Hrun.
  - change (wp (take_block nu z.1 y.1) (fun r s' => (r = 0 /\ s' = s /\ no_room fl s nu) \/ gets_block fl al s nu r s') s).
    eapply wp_mono; [by apply (take_block_ok fl al s w1 z y w2 nu)|]. intros r s' (Hb & fl' & a & H1 & H2 & H3 & H4 & H5). right. exists fl', a. split_and!; try done; [lia|]. intros x Hx. left. apply H4. by right.
  - change (wp (grow k nu) (fun r s' => (r = 0 /\ s' = s /\ no_room fl s nu) \/ gets_block fl al s nu r s') s). unfold grow. rewrite wp_bind.
    eapply wp_mono; [apply (morecore_ok fl al s nu (S k)); try done; lia|]. intros r s1 [(-> & -> & HT)|(Hr & Hr0 & Hb & Hku & fl1 & Hi1 & Hlen & (y & Hy & Hyn) & Hcov)]; [wp_simp; by left|].
    rewrite (proj2 (Z.eqb_neq _ _) Hr0). unfold get_ptr. rewrite wp_bind, wp_gets. rewrite Hr. replace k with (length (ring_of fl1) + (k - length (ring_of fl1)))%nat by (cbn [ring_of length] in *; lia).
    assert (Hbrk : h_brk s <= h_brk s1) by (rewrite Hb; unfold core_units, HDR; destruct (nu <? 4096); lia).
    destruct (malloc_ring fl1 al s1 nu (k - length (ring_of fl1)) Hi1 Hnu) as [(w1 & z & y1 & w2 & E & Hy1 & Hrun1)|[Hall1 _]]; [|eapply Forall_forall in Hall1; [|exact Hy]; cbn in Hall1; lia].
    unfold wp; rewrite Hrun1. change (wp (take_block nu z.1 y1.1) (fun r s' => (r = 0 /\ s' = s /\ no_room fl s nu) \/ gets_block fl al s nu r s') s1).
    eapply wp_mono; [by apply (take_block_ok fl1 al s1 w1 z y1 w2 nu)|]. intros r' s' (Hb' & fl' & a & H1 & H2 & H3 & H4 & H5). right. exists fl', a. split_and!; try done.
    + intros x Hx. rewrite H5 by done. by apply Hku.
    + lia.
    + intros x Hx. rewrite Hb'. apply Hcov, H4. by right.
Qed.

Lemma units_eq nbytes : 0 <= nbytes < 2 ^ 32 -> units nbytes = (nbytes + 15) / 16 + 1.
Proof.
  intros H. unfold units, HDR. rewrite u64_small by lia. replace (nbytes + 16 - 1) with (nbytes + 15) by lia. apply u32_small. pose proof (Z.div_mod (nbytes + 15) 16 ltac:(lia)). pose proof (Z.mod_pos_bound (nbytes + 15) 16). lia.
Qed.
(** The list made by the first call. *)
Lemma inv_first s : fresh_heap s -> heap_inv [] ∅ (set_hmem (fun m => st32 m (base + 8) (u32 0)) (set_hmem (fun m => st64 m base base) (set_freep base s))).
Proof.
  intros ((Hb1 & Hb2) & Hk & Hf). pose proof trapframe_small. assert (0 <= base < 2 ^ 64) by (unfold HDR in *; lia). split; cbn [h_brk h_mem h_freep set_hmem set_freep]; try done.
  - cbn [ring_of seg hda fst snd]. rewrite h_size_eq, h_ptr_size, h_ptr_eq by lia. done.
  - by repeat constructor.
  - left.
Qed.

Lemma units_bounds nbytes : 0 <= nbytes <= 2 ^ 31 - 32 ->
  1 <= units nbytes /\ nbytes <= HDR * (units nbytes - 1) /\ core_units (units nbytes) * HDR < 2 ^ 31 /\ HDR * core_units (units nbytes) <= nbytes + 2 ^ 16 + 31.
Proof.
  intros H. rewrite units_eq by lia. pose proof (Z.div_mod (nbytes + 15) 16 ltac:(lia)). pose proof (Z.mod_pos_bound (nbytes + 15) 16). unfold core_units, HDR. destruct (Z.ltb_spec ((nbytes + 15) / 16 + 1) 4096); lia.
Qed.


(** C23: free() of a block that malloc() handed out terminates, gives exactly its
    bytes back to the free list, joined with the free neighbours so that no two
    free blocks touch, and changes nothing that is still in use. *)
Theorem free_correct fl al s r n fuel : heap_inv fl al s -> al !! (r - HDR) = Some n -> (2 * S (length fl) <= fuel)%nat ->
  wp (free fuel r) (fun _ s' => h_brk s' = h_brk s /\ keeps_used (delete (r - HDR) al) s s' /\
    exists fl', heap_inv fl' (delete (r - HDR) al) s' /\ forall x, covers fl' x <-> covers fl x \/ r - HDR <= x < r - HDR + HDR * n) s.
Proof.
  intros Hi Hr Hf. eapply wp_mono; [replace r with (r - HDR + HDR) at 1 by lia; by apply (free_ok fl al s (r - HDR) n fuel)|].
  intros [] s' (H1 & H2 & fl' & H3 & _ & _ & H4). split; [done|]. split; [done|]. by exists fl'.
Qed.

End heap.

(** free() of the first block, whatever its size says. *)
Lemma free_first base bp n s fuel : 0 < base -> base + HDR <= bp -> 1 <= n < 2 ^ 32 -> bp + HDR * n < 2 ^ 63 -> h_freep s = base -> seg (h_mem s) [(base, 0)] base -> h_size (h_mem s) bp = n ->
  wp (free (S fuel) (bp + HDR)) (fun _ s' => h_freep s' = base /\ h_brk s' = h_brk s /\ seg (h_mem s') [(base, 0); (bp, n)] base) s.
Proof.
  intros Hb Hbp Hn Hhi Hf Hseg Hsz. destruct (Hseg) as (Hbs & Hbn & _). cbn [fst snd hda] in *. unfold free. rewrite Z.add_simpl_r, u64_small by (unfold HDR in *; lia).
  rewrite wp_bind, wp_gets, Hf. cbn [free_find]. unfold get_ptr at 1. wp_simp. rewrite Hbn, (proj2 (Z.ltb_ge bp base)), andb_false_r, Z.leb_refl, (proj2 (Z.ltb_lt base bp)) by (unfold HDR in *; lia). cbn [andb orb]. wp_simp.
  eapply wp_mono; [apply (free_right_ok base s bp n base [] (bp + HDR * n)); try done; try constructor; unfold HDR in *; lia|].
  intros [] s1 ((F1 & F2 & F3) & n' & w2' & G1 & G2 & G3 & G4 & [d G5] & _). symmetry in G5. apply app_eq_nil in G5 as [_ ->]. assert (n' = n) as -> by (unfold HDR in *; lia).
  rewrite wp_bind. eapply wp_mono; [apply (free_left_ok base s1 bp n (base, 0) [] [] (bp + HDR * n)); cbn [fst snd]; try done; try (unfold HDR in *; lia)|].
  - rewrite <- Hbs. apply hdr_same_fields. apply (only_hdr_same bp); [done|by right].
  - by repeat constructor.
  - intros [] s2 ((L1 & L2 & L3) & L4). rewrite wp_modify; cbn [h_freep h_brk h_mem set_freep]. split; [done|]. split; [congruence|]. unfold join_left in L4. cbn [fst snd app] in L4. by rewrite (proj2 (Z.eqb_neq _ bp)) in L4 by (unfold HDR in *; lia).
Qed.

(** The size of a request is multiplied as unsigned long and passed as int: for
    the largest requests the product wraps to 16, malloc() succeeds, and none
    of the memory it returns belongs to the process. *)
Theorem malloc_huge_unbacked base heap0 s nbytes fuel : fresh_heap base heap0 s -> h_brk s + 16 <= TRAPFRAME -> 2 ^ 32 - 15 <= nbytes < 2 ^ 32 -> (2 <= fuel)%nat ->
  wp (malloc base fuel nbytes) (fun r s' => r = h_brk s + 16 /\ h_brk s' = h_brk s + 16) s.
Proof.
  intros Hfr HT Hn Hf. assert (H63 : TRAPFRAME < 2 ^ 39) by reflexivity. destruct (Hfr) as ((Hb1 & Hb2) & (Hk1 & Hk2) & Hf0). assert (0 <= h_brk s) by (unfold HDR in *; lia). destruct fuel as [|[|fuel]]; [lia|lia|].
  assert (Hu : units nbytes = 2 ^ 28 + 1) by (rewrite units_eq by lia; pose proof (Z.div_mod (nbytes + 15) 16 ltac:(lia)); pose proof (Z.mod_pos_bound (nbytes + 15) 16); lia).
  unfold malloc, set_ptr, set_size, get_ptr. rewrite Hu. wp_simp. rewrite Hf0. change (0 =? 0) with true. wp_simp.
  destruct (hi_ring _ _ _ _ _ (inv_first base heap0 s Hfr)) as (R1 & R2 & _). set (s1 := set_hmem _ (set_hmem _ (set_freep base s))) in *. cbn [fst snd hda] in R1, R2. rewrite R2.
  remember (S fuel) as f eqn:Ef. cbn [malloc_loop]. unfold get_size at 1. wp_simp. rewrite R1. change (2 ^ 28 + 1 <=? 0) with false. wp_simp. change (h_freep s1) with base. rewrite Z.eqb_refl. wp_simp.
  unfold morecore, sbrk. change (2 ^ 28 + 1 <? 4096) with false. wp_simp. change (h_brk s1) with (h_brk s). change (s32 ((2 ^ 28 + 1) * HDR)) with 16. change (16 <? 0) with false. cbv iota.
  rewrite u64_small by lia. rewrite (proj2 (Z.ltb_ge (h_brk s + 16) (h_brk s))), (proj2 (Z.ltb_ge TRAPFRAME (h_brk s + 16))) by lia. wp_simp.
  rewrite (proj2 (Z.eqb_neq _ SBRK_ERROR)) by (unfold SBRK_ERROR; change (u64 (-1)) with (2 ^ 64 - 1); lia). unfold set_size. wp_simp. set (s2 := set_hmem _ (set_hbrk _ s1)).
  rewrite hdr_add_small by (unfold HDR in *; lia). rewrite Z.mul_1_r.
  eapply wp_mono; [apply (free_first base (h_brk s) (2 ^ 28 + 1) s2 f); try done; try (unfold HDR in *; lia)|].
  { eapply (only_hdr_seg (h_brk s) (h_mem s1)); [apply only_hdr_32, only_hdr_refl|constructor; [right; cbn; lia|done]|]. by split. }
  { apply h_size_eq. lia. }
  intros [] s3 (F1 & F2 & F3). wp_simp. rewrite F1, (proj2 (Z.eqb_neq base 0)) by lia. destruct (F3) as (G1 & G2 & G3 & G4 & _). cbn [fst snd hda] in *. unfold get_ptr. wp_simp. rewrite G2.
  rewrite Ef. cbn [malloc_loop]. unfold get_size. wp_simp. rewrite G3, Z.leb_refl.
  eapply wp_mono; [apply (take_block_mem base s3 [] (base, 0) (h_brk s, 2 ^ 28 + 1) []); cbn [fst snd hda]; try done; try (unfold HDR in *; lia)|].
  - repeat constructor; unfold HDR in *; cbn; lia.
  - intros r s' (-> & _ & Hbk & _). rewrite Hbk, F2. unfold HDR. cbn. lia.
Qed.

(** * Examples *)

Definition demo_heap : hst := Hst ∅ 0 0x5000.
Lemma demo_heap_fresh : fresh_heap 0x2000 0x5000 demo_heap.
Proof. vm_compute. repeat split; congruence. Qed.
(** One block of seven units in use. *)
Definition demo_heap1 : hst := match malloc 0x2000 10 96 demo_heap with Ok _ s => s | _ => demo_heap end.

Lemma demo_heap1_inv : heap_inv 0x2000 0x5000 [(0x5000, 4089)] {[ 0x14f90 := 7 ]} demo_heap1.
Proof.
  assert (E : forall a n, ({[ 0x14f90 := 7 ]} : gmap Z Z) !! a = Some n -> a = 0x14f90 /\ n = 7) by (intros a n H; apply lookup_singleton_Some in H; naive_solver).
  split; try (intros a n Ha; destruct (E a n Ha) as [-> ->]).
  - unfold HDR. lia.
  - by vm_compute.
  - by vm_compute.
  - repeat constructor; cbn; unfold HDR; lia.
  - repeat constructor; by vm_compute.
  - vm_compute. left.
  - split; [by vm_compute|]. split; [by vm_compute|]. apply Forall_singleton. unfold apart, HDR. cbn. lia.
  - intros a n b k Ha Hb Hne. destruct (E _ _ Ha), (E _ _ Hb). congruence.
Qed.


Lemma free_correct_witness : wp (free 10 0x14fa0) (fun _ s' => h_brk s' = h_brk demo_heap1) demo_heap1.
Proof.
  eapply wp_mono; [apply (free_correct 0x2000 0x5000 [(0x5000, 4089)] {[ 0x14f90 := 7 ]} demo_heap1 0x14fa0 7 10); [exact demo_heap1_inv|reflexivity|cbn; lia]|].
  intros r s' [H _]. exact H.
Defined.

Lemma malloc_huge_unbacked_witness : wp (malloc 0x2000 10 (2 ^ 32 - 1)) (fun r s' => r = 0x5010 /\ h_brk s' = 0x5010) demo_heap.
Proof. apply (malloc_huge_unbacked 0x2000 0x5000 demo_heap (2 ^ 32 - 1) 10 demo_heap_fresh); [vm_compute; congruence|lia|lia]. Defined.
