(* ===== verification/Sh.v ===== *)
(** user/sh.c: the parser of the shell.

    A pointer into the command line is the suffix it points at: the end [es]
    is [[]], where the line has its NUL.  The parser returns a command whose
    words are still pairs of pointers into the line; nulterminate() then
    writes a NUL behind each word.  panic() of the shell prints a message
    and exits: [Syntax], with what goes to standard error.  Memory for the
    nodes is assumed to be there (malloc() is modelled in Umalloc). *)
From S2P Require Import Prelude Usys.

(** * Characters *)

Definition whitespace : list Z := [32; 9; 13; 10; 11].
Definition BAR : Z := 124.
Definition AMP : Z := 38.
Definition SEMI : Z := 59.
Definition LPAR : Z := 40.
Definition RPAR : Z := 41.
Definition LT : Z := 60.
Definition GT : Z := 62.
Definition PLUS : Z := 43.
Definition WORD : Z := 97.
Definition symbols : list Z := [LT; BAR; GT; AMP; SEMI; LPAR; RPAR].

(** strchr(set, c) != 0 *)
Definition strchr (set : list Z) (c : Z) : bool := existsb (Z.eqb c) set.
Definition is_space (c : Z) : bool := strchr whitespace c.
Definition is_sym (c : Z) : bool := strchr symbols c.

(** * Commands *)

Definition MAXARGS : nat := 10.
(** A word of the line: from [q] up to [eq]. *)
Abbreviation span := (list Z * list Z)%type.

(** [A]: what a word is, a pair of pointers or a string. *)
Inductive cmd (A : Type) : Type :=
| EXEC (argv : list A)
| REDIR (c : cmd A) (file : A) (mode fd : Z)
| PIPE (left right : cmd A)
| LIST (left right : cmd A)
| BACK (c : cmd A).
Arguments EXEC {A}. Arguments REDIR {A}. Arguments PIPE {A}. Arguments LIST {A}. Arguments BACK {A}.

Inductive parse_res (A : Type) : Type :=
| Parsed (a : A) (s : list Z)
| Syntax (out : list Z)
| ParseFuel.
Arguments Parsed {A}. Arguments Syntax {A}. Arguments ParseFuel {A}.

Definition pbind {A B} (r : parse_res A) (k : A -> list Z -> parse_res B) : parse_res B :=
  match r with Parsed a s => k a s | Syntax out => Syntax out | ParseFuel => ParseFuel end.
Notation "'let?' ( x , s ) := r 'in' k" := (pbind r (fun x s => k)) (at level 10, x name, s name, r at level 100, k at level 200) : krn_scope.

(** panic(s) *)
Definition sh_panic {A} (msg : string) : parse_res A := Syntax (str msg ++ [10]).

(** * Tokens *)

(** [while(s < es && strchr(whitespace, *s)) s++] *)
Fixpoint skip (s : list Z) : list Z :=
  match s with c :: s' => if is_space c then skip s' else s | [] => [] end.
Fixpoint word_end (s : list Z) : list Z :=
  match s with c :: s' => if negb (is_space c) && negb (is_sym c) then word_end s' else s | [] => [] end.

(** The token, the pointers [q] and [eq], and the new [*ps]. *)
Definition gettoken (s : list Z) : Z * list Z * list Z * list Z :=
  let s := skip s in
  let '(tok, eq) :=
    match s with
    | [] => (0, s)
    | c :: s' =>
        if strchr [BAR; LPAR; RPAR; SEMI; AMP; LT] c then (c, s')
        else if c =? GT then
          match s' with d :: s'' => if d =? GT then (PLUS, s'') else (c, s') | [] => (c, s') end
        else (WORD, word_end s)
    end in
  (tok, s, eq, skip eq).

(** The new [*ps], and whether the next character is one of [toks]. *)
Definition peek (s : list Z) (toks : list Z) : list Z * bool :=
  let s := skip s in
  (s, match s with c :: _ => strchr toks c | [] => false end).

(** * The parser *)

Definition redir := (span * Z * Z)%type.
Definition redircmd {A} (c : cmd A) (r : A * Z * Z) : cmd A := REDIR c r.1.1 r.1.2 r.2.
(** Redirections wrapped around a command, the first innermost. *)
Definition redircmds {A} (c : cmd A) (rs : list (A * Z * Z)) : cmd A := foldl redircmd c rs.

Fixpoint parseredirs (fuel : nat) (rs : list redir) (s : list Z) : parse_res (list redir) :=
  match fuel with
  | O => ParseFuel
  | S fuel =>
      let '(s, b) := peek s [LT; GT] in
      if negb b then Parsed rs s else
      let '(tok, _, _, s) := gettoken s in
      let '(w, q, eq, s) := gettoken s in
      if negb (w =? WORD) then sh_panic "missing file for redirection" else
      if tok =? LT then parseredirs fuel (rs ++ [((q, eq), O_RDONLY, 0)]) s
      else if tok =? GT then parseredirs fuel (rs ++ [((q, eq), Z.lor (Z.lor O_WRONLY O_CREATE) O_TRUNC, 1)]) s
      else if tok =? PLUS then parseredirs fuel (rs ++ [((q, eq), Z.lor O_WRONLY O_CREATE, 1)]) s
      else parseredirs fuel rs s
  end.

(** The loop over the arguments.  The node that redirections wrap is the one
    that the arguments are stored in, so the two lists grow together. *)
Fixpoint parseargs (fuel : nat) (argv : list span) (rs : list redir) (s : list Z) : parse_res (cmd span) :=
  match fuel with
  | O => ParseFuel
  | S fuel =>
      let '(s, b) := peek s [BAR; RPAR; AMP; SEMI] in
      if b then Parsed (redircmds (EXEC argv) rs) s else
      let '(tok, q, eq, s) := gettoken s in
      if tok =? 0 then Parsed (redircmds (EXEC argv) rs) s
      else if negb (tok =? WORD) then sh_panic "syntax"
      else
        let argv := argv ++ [(q, eq)] in
        if (MAXARGS <=? length argv)%nat then sh_panic "too many args"
        else let? (rs, s) := parseredirs (S (length s)) rs s in parseargs fuel argv rs s
  end.

(** [while(peek(ps, es, "&"))] *)
Fixpoint parsebacks (fuel : nat) (c : cmd span) (s : list Z) : parse_res (cmd span) :=
  match fuel with
  | O => ParseFuel
  | S fuel =>
      let '(s, b) := peek s [AMP] in
      if negb b then Parsed c s else
      let '(_, _, _, s) := gettoken s in
      parsebacks fuel (BACK c) s
  end.

Fixpoint parseline (fuel : nat) (s : list Z) : parse_res (cmd span) :=
  match fuel with
  | O => ParseFuel
  | S fuel =>
      let? (c, s) := parsepipe fuel s in
      let? (c, s) := parsebacks (S (length s)) c s in
      let '(s, b) := peek s [SEMI] in
      if negb b then Parsed c s else
      let '(_, _, _, s) := gettoken s in
      let? (c', s) := parseline fuel s in
      Parsed (LIST c c') s
  end
with parsepipe (fuel : nat) (s : list Z) : parse_res (cmd span) :=
  match fuel with
  | O => ParseFuel
  | S fuel =>
      let? (c, s) := parseexec fuel s in
      let '(s, b) := peek s [BAR] in
      if negb b then Parsed c s else
      let '(_, _, _, s) := gettoken s in
      let? (c', s) := parsepipe fuel s in
      Parsed (PIPE c c') s
  end
with parseexec (fuel : nat) (s : list Z) : parse_res (cmd span) :=
  match fuel with
  | O => ParseFuel
  | S fuel =>
      let '(s, b) := peek s [LPAR] in
      if b then parseblock fuel s
      else
        let? (rs, s) := parseredirs (S (length s)) [] s in
        parseargs (S (length s)) [] rs s
  end
with parseblock (fuel : nat) (s : list Z) : parse_res (cmd span) :=
  match fuel with
  | O => ParseFuel
  | S fuel =>
      let '(s, b) := peek s [LPAR] in
      if negb b then sh_panic "parseblock" else
      let '(_, _, _, s) := gettoken s in
      let? (c, s) := parseline fuel s in
      let '(s, b) := peek s [RPAR] in
      if negb b then sh_panic "syntax - missing )" else
      let '(_, _, _, s) := gettoken s in
      let? (rs, s) := parseredirs (S (length s)) [] s in
      Parsed (redircmds c rs) s
  end.

(** * nulterminate *)

(** [*p = 0], for a pointer [p] into a line of [n] characters; [b] holds the
    line and its NUL. *)
Definition nul_at (n : nat) (p : list Z) (b : list Z) : list Z := <[(n - length p)%nat := 0]> b.

Fixpoint nulterminate (n : nat) (c : cmd span) (b : list Z) : list Z :=
  match c with
  | EXEC argv => foldl (fun b w => nul_at n w.2 b) b argv
  | REDIR c file _ _ => nul_at n file.2 (nulterminate n c b)
  | PIPE l r | LIST l r => nulterminate n r (nulterminate n l b)
  | BACK c => nulterminate n c b
  end.

Fixpoint cmd_map {A B} (f : A -> B) (c : cmd A) : cmd B :=
  match c with
  | EXEC argv => EXEC (f <$> argv)
  | REDIR c file mode fd => REDIR (cmd_map f c) (f file) mode fd
  | PIPE l r => PIPE (cmd_map f l) (cmd_map f r)
  | LIST l r => LIST (cmd_map f l) (cmd_map f r)
  | BACK c => BACK (cmd_map f c)
  end.

(** The C string at a pointer into the line. *)
Definition cstr_at (n : nat) (b : list Z) (w : span) : list Z := cstr (drop (n - length w.1) b).

Definition parse_fuel (s : list Z) : nat := 4 * length s + 4.
(** parsecmd(s): the command with its words as the C strings they then are. *)
Definition parsecmd (s : list Z) : parse_res (cmd (list Z)) :=
  let? (c, s') := parseline (parse_fuel s) s in
  let '(s', _) := peek s' [] in
  match s' with
  | _ :: _ => Syntax (str "leftovers: " ++ s' ++ [10] ++ str "syntax" ++ [10])
  | [] => let n := length s in let b := nulterminate n c (s ++ [0]) in Parsed (cmd_map (cstr_at n b) c) s'
  end.
