(* ===== verification/ShProps.v ===== *)
(** Theorems about the shell's parser: it always ends, it never stores past
    an argument vector, and it inverts printing. *)
From S2P Require Import Prelude Usys Sh.

#[local] Arguments is_space : simpl never.
#[local] Arguments is_sym : simpl never.

(** * Tokens *)

Lemma skip_le s : (length (skip s) <= length s)%nat.
Proof. induction s as [|c s IH]; cbn; [done|]. destruct (is_space c); cbn; lia. Qed.
Lemma skip_skip s : skip (skip s) = skip s.
Proof. induction s as [|c s IH]; cbn; [done|]. destruct (is_space c) eqn:E; [done|]. cbn. by rewrite E. Qed.
Lemma skip_suffix s : skip s `suffix_of` s.
Proof. induction s as [|c s IH]; cbn; [done|]. destruct (is_space c); [by apply suffix_cons_r|done]. Qed.
Lemma word_end_suffix s : word_end s `suffix_of` s.
Proof. induction s as [|c s IH]; cbn; [done|]. destruct (_ && _); [by apply suffix_cons_r|done]. Qed.
Lemma suffix_le (s t : list Z) : s `suffix_of` t -> (length s <= length t)%nat.
Proof. intros [k ->]. rewrite length_app. lia. Qed.

(** What gettoken() returns. *)
Inductive token (s : list Z) : Z * list Z * list Z * list Z -> Prop :=
| tok_end : skip s = [] -> token s (0, [], [], [])
| tok_sym c eq : is_sym c = true -> c <> GT -> skip s = c :: eq -> token s (c, skip s, eq, skip eq)
| tok_gt eq : skip s = GT :: eq -> (forall d eq', eq = d :: eq' -> d <> GT) -> token s (GT, skip s, eq, skip eq)
| tok_app eq : skip s = GT :: GT :: eq -> token s (PLUS, skip s, eq, skip eq)
| tok_word c q : skip s = c :: q -> is_space c = false -> is_sym c = false -> token s (WORD, skip s, word_end (skip s), skip (word_end (skip s))).

Lemma skip_head s c q : skip s = c :: q -> is_space c = false.
Proof. induction s as [|d s IH]; cbn; [done|]. destruct (is_space d) eqn:E; [done|]. by intros [= -> ->]. Qed.
Lemma gettoken_token s : token s (gettoken s).
Proof.
  unfold gettoken. destruct (skip s) as [|c q] eqn:E; [cbn; by constructor|]. rewrite <- E.
  destruct (strchr [BAR; LPAR; RPAR; SEMI; AMP; LT] c) eqn:Ec.
  - apply (tok_sym s c q); [|intros ->; done|done]. unfold strchr, is_sym, symbols in *. cbn in *. repeat (destruct (_ =? _); try done).
  - destruct (Z.eqb_spec c GT) as [->|Hn].
    + destruct q as [|d q']; [by apply tok_gt; [|intros]|]. destruct (Z.eqb_spec d GT) as [->|Hd]; [by apply tok_app|]. apply tok_gt; [done|]. by intros ? ? [= -> ->].
    + eapply tok_word; [exact E|by eapply skip_head|]. unfold is_sym, strchr, symbols in *. cbn in *. rewrite (proj2 (Z.eqb_neq _ _) Hn). repeat (destruct (_ =? _); try done).
Qed.

(** A token that is not the end uses up characters. *)
Lemma gettoken_shorter s tok q eq s' : gettoken s = (tok, q, eq, s') -> tok <> 0 -> (length s' < length s)%nat.
Proof.
  intros E Ht. pose proof (gettoken_token s) as H. rewrite E in H. pose proof (skip_le s) as Hs. pose proof (skip_le eq) as He.
  inversion H as [|c e Hc Hg Hk|e Hk Hd|e Hk|c w Hk Hc1 Hc2]; subst; try done; rewrite Hk in *; cbn in *; try lia.
  rewrite Hc1, Hc2. cbn. pose proof (skip_le (word_end w)). pose proof (suffix_le _ _ (word_end_suffix w)). lia.
Qed.
Lemma sym_nonzero c : is_sym c = true -> c <> 0.
Proof. intros H ->. done. Qed.

(** * The parser always ends, within its bounds *)

Definition word_char (c : Z) : bool := negb (is_space c) && negb (is_sym c).
(** A word of the line [buf]. *)
Definition wf_span (buf : list Z) (w : span) : Prop := w.1 `suffix_of` buf /\ w.2 = word_end w.1 /\ exists c q, w.1 = c :: q /\ word_char c = true.
Fixpoint cmd_ok (buf : list Z) (c : cmd span) : Prop :=
  match c with
  | EXEC argv => Forall (wf_span buf) argv /\ (length argv < MAXARGS)%nat
  | REDIR c file _ _ => cmd_ok buf c /\ wf_span buf file
  | PIPE l r | LIST l r => cmd_ok buf l /\ cmd_ok buf r
  | BACK c => cmd_ok buf c
  end.

(** A result: not out of fuel, and if a command then a good one, with the rest
    of the line shorter by at least [k]. *)
Definition res_ok {A} (buf s : list Z) (P : A -> Prop) (r : parse_res A) : Prop :=
  match r with Parsed a s' => P a /\ (length s' <= length s)%nat /\ s' `suffix_of` buf | Syntax _ => True | ParseFuel => False end.

Lemma res_bind {A B} buf s (P : A -> Prop) (Q : B -> Prop) r k : res_ok buf s P r ->
  (forall a s', P a -> (length s' <= length s)%nat -> s' `suffix_of` buf -> res_ok buf s' Q (k a s')) -> res_ok buf s Q (pbind r k).
Proof.
  destruct r as [a s'| |]; cbn; try done. intros (H1 & H2 & H3) Hk. specialize (Hk a s' H1 H2 H3). destruct (k a s') as [b s''| |]; cbn in *; try done.
  destruct Hk as (? & ? & ?). split; [done|]. split; [lia|done].
Qed.
Lemma res_weaken {A} buf s s1 (P : A -> Prop) r : res_ok buf s1 P r -> (length s1 <= length s)%nat -> res_ok buf s P r.
Proof. destruct r as [a s'| |]; cbn; try done. intros (? & ? & ?) ?. split; [done|]. split; [lia|done]. Qed.

Lemma gettoken_suffix s tok q eq s' buf : gettoken s = (tok, q, eq, s') -> s `suffix_of` buf -> s' `suffix_of` buf.
Proof.
  intros E Hs. pose proof (gettoken_token s) as H. rewrite E in H. pose proof (skip_suffix s) as Hk. pose proof (skip_suffix eq) as He.
  assert (Hq : eq `suffix_of` skip s).
  { inversion H as [Hk'|c e Hc Hg Hk'|e Hk' Hd|e Hk'|c w Hk' Hc1 Hc2]; subst; [by rewrite Hk'|rewrite Hk'..|].
    - by apply suffix_cons_r. - by apply suffix_cons_r. - by do 2 apply suffix_cons_r. - apply word_end_suffix. }
  assert (s' = skip eq) as -> by (by inversion H). by etrans; [|etrans; [|etrans]].
Qed.
Lemma gettoken_word s q eq s' buf : gettoken s = (WORD, q, eq, s') -> s `suffix_of` buf -> wf_span buf (q, eq).
Proof.
  intros E Hs. pose proof (gettoken_token s) as H. rewrite E in H. inversion H as [|c e Hc Hg Hk'|e Hk' Hd|e Hk'|c w Hk' Hc1 Hc2]; subst; try done.
  split; [cbn; etrans; [apply skip_suffix|done]|]. split; [done|]. exists c, w. split; [done|]. unfold word_char. by rewrite Hc1, Hc2.
Qed.
Lemma peek_eq s toks s' b : peek s toks = (s', b) -> s' = skip s /\ b = match skip s with c :: _ => strchr toks c | [] => false end.
Proof. unfold peek. by intros [= <- <-]. Qed.
(** After a successful peek, gettoken() takes a symbol. *)
Lemma peek_token s toks s' : peek s toks = (s', true) -> forallb is_sym toks = true -> (gettoken s').1.1.1 <> 0.
Proof.
  intros (-> & Hb)%peek_eq Hsym. pose proof (gettoken_token (skip s)) as H. destruct (gettoken (skip s)) as [[[tok q] eq] s2]. rewrite skip_skip in H || idtac. cbn.
  inversion H as [Hk|c e Hc Hg Hk|e Hk Hd|e Hk|c w Hk Hc1 Hc2]; subst; try done; [|by apply sym_nonzero]. rewrite skip_skip in Hk. by rewrite Hk in Hb.
Qed.

Section bounds.
Variable buf : list Z.
Definition redir_ok (r : redir) : Prop := wf_span buf r.1.1.

Lemma parseredirs_ok fuel rs s : (length s < fuel)%nat -> s `suffix_of` buf -> Forall redir_ok rs -> res_ok buf s (Forall redir_ok) (parseredirs fuel rs s).
Proof.
  revert rs s. induction fuel as [|fuel IH]; intros rs s Hf Hs Hrs; [lia|]. cbn [parseredirs]. destruct (peek s [LT; GT]) as [s1 b] eqn:Ep.
  destruct (peek_eq _ _ _ _ Ep) as [-> _]. pose proof (skip_le s) as Hl. assert (Hs1 : skip s `suffix_of` buf) by (etrans; [apply skip_suffix|done]).
  destruct b; cbn [negb]; [|done]. pose proof (peek_token _ _ _ Ep eq_refl) as Hnz. destruct (gettoken (skip s)) as [[[tok q0] e0] s2] eqn:E1. cbn in Hnz.
  pose proof (gettoken_shorter _ _ _ _ _ E1 Hnz) as Hl2. pose proof (gettoken_suffix _ _ _ _ _ buf E1 Hs1) as Hs2.
  destruct (gettoken s2) as [[[w q] e] s3] eqn:E2. destruct (Z.eqb_spec w WORD) as [->|]; cbn [negb]; [|done].
  pose proof (gettoken_shorter _ _ _ _ _ E2 ltac:(done)) as Hl3. pose proof (gettoken_suffix _ _ _ _ _ buf E2 Hs2) as Hs3. pose proof (gettoken_word _ _ _ _ buf E2 Hs2) as Hw.
  repeat case_match; (eapply res_weaken; [apply IH; [lia|done|]|lia]); try done; apply Forall_app; split; try done; by apply Forall_singleton.
Qed.

Lemma redircmds_ok c rs : cmd_ok buf c -> Forall redir_ok rs -> cmd_ok buf (redircmds c rs).
Proof.
  revert c. induction rs as [|r rs IH]; intros c Hc Hrs; [done|]. apply Forall_cons in Hrs as [Hr Hrs]. cbn. by apply IH.
Qed.

Lemma parseargs_ok fuel argv rs s : (length s < fuel)%nat -> s `suffix_of` buf -> Forall (wf_span buf) argv -> (length argv < MAXARGS)%nat -> Forall redir_ok rs ->
  res_ok buf s (cmd_ok buf) (parseargs fuel argv rs s).
Proof.
  revert argv rs s. induction fuel as [|fuel IH]; intros argv rs s Hf Hs Ha Hn Hrs; [lia|]. cbn [parseargs]. destruct (peek s _) as [s1 b] eqn:Ep.
  destruct (peek_eq _ _ _ _ Ep) as [-> _]. pose proof (skip_le s) as Hl. assert (Hs1 : skip s `suffix_of` buf) by (etrans; [apply skip_suffix|done]).
  assert (Hok : cmd_ok buf (redircmds (EXEC argv) rs)) by (by apply redircmds_ok).
  destruct b; [done|]. destruct (gettoken (skip s)) as [[[tok q] e] s2] eqn:E1. pose proof (gettoken_suffix _ _ _ _ _ buf E1 Hs1) as Hs2.
  destruct (Z.eqb_spec tok 0) as [->|Ht].
  - cbn. split; [done|]. split; [|done]. pose proof (gettoken_token (skip s)) as Htk. rewrite E1 in Htk. inversion Htk; subst; cbn; try lia. by exfalso; eapply sym_nonzero.
  - destruct (Z.eqb_spec tok WORD) as [->|]; cbn [negb]; [|done]. destruct (Nat.leb_spec MAXARGS (length (argv ++ [(q, e)]))) as [|Hlt]; [done|].
    pose proof (gettoken_shorter _ _ _ _ _ E1 Ht) as Hl2. pose proof (gettoken_word _ _ _ _ buf E1 Hs1) as Hw. eapply res_weaken; [eapply res_bind; [apply parseredirs_ok; [lia|done|exact Hrs]|]|lia].
    intros rs' s3 Hrs' Hl3 Hs3. apply IH; try done; [lia|]. apply Forall_app. split; [done|]. by apply Forall_singleton.
Qed.

Lemma parsebacks_ok fuel c s : (length s < fuel)%nat -> s `suffix_of` buf -> cmd_ok buf c -> res_ok buf s (cmd_ok buf) (parsebacks fuel c s).
Proof.
  revert c s. induction fuel as [|fuel IH]; intros c s Hf Hs Hc; [lia|]. cbn [parsebacks]. destruct (peek s _) as [s1 b] eqn:Ep.
  destruct (peek_eq _ _ _ _ Ep) as [-> _]. pose proof (skip_le s) as Hl. assert (Hs1 : skip s `suffix_of` buf) by (etrans; [apply skip_suffix|done]). destruct b; cbn [negb]; [|done].
  pose proof (peek_token _ _ _ Ep eq_refl) as Hnz. destruct (gettoken (skip s)) as [[[tok q] e] s2] eqn:E1. cbn in Hnz.
  pose proof (gettoken_shorter _ _ _ _ _ E1 Hnz). pose proof (gettoken_suffix _ _ _ _ _ buf E1 Hs1). eapply res_weaken; [apply IH; [lia|done|done]|lia].
Qed.

(** One step past a symbol that peek() saw. *)
Lemma past_symbol {A} s toks s1 b (P : A -> Prop) (k1 : parse_res A) (k2 : list Z -> parse_res A) : peek s toks = (s1, b) -> forallb is_sym toks = true -> s `suffix_of` buf ->
  (b = false -> res_ok buf s P k1) -> (forall s2, s2 `suffix_of` buf -> (length s2 < length s)%nat -> res_ok buf s2 P (k2 s2)) ->
  res_ok buf s P (if negb b then k1 else let '(_, _, _, s2) := gettoken s1 in k2 s2).
Proof.
  intros Ep Hsym Hs H1 H2. destruct (peek_eq _ _ _ _ Ep) as [-> _]. pose proof (skip_le s) as Hl. destruct b; cbn [negb]; [|by apply H1].
  pose proof (peek_token _ _ _ Ep Hsym) as Hnz. destruct (gettoken (skip s)) as [[[tok q] e] s2] eqn:E1. cbn in Hnz. pose proof (gettoken_shorter _ _ _ _ _ E1 Hnz).
  eapply res_weaken; [apply H2; [|lia]|lia]. eapply gettoken_suffix; [exact E1|]. etrans; [apply skip_suffix|done].
Qed.

Lemma parse_ok fuel :
  (forall s, (4 * length s + 4 <= fuel)%nat -> s `suffix_of` buf -> res_ok buf s (cmd_ok buf) (parseline fuel s)) /\
  (forall s, (4 * length s + 3 <= fuel)%nat -> s `suffix_of` buf -> res_ok buf s (cmd_ok buf) (parsepipe fuel s)) /\
  (forall s, (4 * length s + 2 <= fuel)%nat -> s `suffix_of` buf -> res_ok buf s (cmd_ok buf) (parseexec fuel s)) /\
  (forall s, (4 * length s + 1 <= fuel)%nat -> s `suffix_of` buf -> res_ok buf s (cmd_ok buf) (parseblock fuel s)).
Proof.
  induction fuel as [|fuel (IHl & IHp & IHe & IHb)]; [split_and!; intros; lia|].
  split_and!; intros s Hf Hs; cbn [parseline parsepipe parseexec parseblock].
  - eapply res_bind; [apply IHp; [lia|done]|]. intros c s1 Hc Hl1 Hs1. eapply res_bind; [apply parsebacks_ok; [lia|done|exact Hc]|]. intros c2 s2 Hc2 Hl2 Hs2.
    destruct (peek s2 [SEMI]) as [s3 b] eqn:Ep. apply (past_symbol s2 [SEMI]); try done.
    + intros ->. destruct (peek_eq _ _ _ _ Ep) as [-> _]. split; [done|]. split; [apply skip_le|]. etrans; [apply skip_suffix|done].
    + intros s4 Hs4 Hl4. eapply res_bind; [apply IHl; [lia|done]|]. intros c5 s5 Hc5 Hl5 Hs5. done.
  - eapply res_bind; [apply IHe; [lia|done]|]. intros c s1 Hc Hl1 Hs1. destruct (peek s1 [BAR]) as [s3 b] eqn:Ep. apply (past_symbol s1 [BAR]); try done.
    + intros ->. destruct (peek_eq _ _ _ _ Ep) as [-> _]. split; [done|]. split; [apply skip_le|]. etrans; [apply skip_suffix|done].
    + intros s4 Hs4 Hl4. eapply res_bind; [apply IHp; [lia|done]|]. intros c5 s5 Hc5 Hl5 Hs5. done.
  - destruct (peek s [LPAR]) as [s1 b] eqn:Ep. destruct (peek_eq _ _ _ _ Ep) as [-> _]. pose proof (skip_le s) as Hl. assert (Hs1 : skip s `suffix_of` buf) by (etrans; [apply skip_suffix|done]).
    destruct b; (eapply res_weaken; [|exact Hl]); [apply IHb; [lia|done]|]. eapply res_bind; [by apply parseredirs_ok; [lia|done|]|]. intros rs s2 Hrs Hl2 Hs2.
    apply parseargs_ok; try done; [lia|]. cbn. unfold MAXARGS. lia.
  - destruct (peek s [LPAR]) as [s1 b] eqn:Ep. apply (past_symbol s [LPAR]); try done. intros s2 Hs2 Hl2. eapply res_bind; [apply IHl; [lia|done]|]. intros c s3 Hc Hl3 Hs3.
    destruct (peek s3 [RPAR]) as [s4 b'] eqn:Ep'. apply (past_symbol s3 [RPAR]); try done. intros s5 Hs5 Hl5. eapply res_bind; [by apply parseredirs_ok; [lia|done|]|]. intros rs s6 Hrs Hl6 Hs6.
    split; [by apply redircmds_ok|]. done.
Qed.
End bounds.

(** * The words after nulterminate *)

(** The characters from [q] up to [eq]. *)
Definition span_text (w : span) : list Z := take (length w.1 - length w.2) w.1.
#[local] Arguments span_text : simpl never.

Lemma word_end_split q : exists pre, q = pre ++ word_end q /\ Forall (fun c => word_char c = true) pre /\ match word_end q with d :: _ => word_char d = false | [] => True end.
Proof.
  induction q as [|c q IH]; [by exists []|]. cbn [word_end]. fold (word_char c). destruct (word_char c) eqn:E; [|by exists []].
  destruct IH as (pre & H1 & H2 & H3). exists (c :: pre). split; [cbn; by f_equal|]. split; [by constructor|done].
Qed.
Lemma cstr_prefix l r : Forall (fun c => c <> 0) l -> cstr (l ++ 0 :: r) = l.
Proof. intros H. induction H as [|c l Hc _ IH]; [done|]. cbn. by rewrite (proj2 (Z.eqb_neq _ _) Hc), IH. Qed.

Section words.
Variable buf : list Z.
Hypothesis no_nul : Forall (fun c => c <> 0) buf.
Let n := length buf.

(** The line as far as words are concerned. *)
Definition kept (b : list Z) : Prop := length b = S n /\ forall i c, (buf ++ [0]) !! i = Some c -> word_char c = true -> b !! i = Some c.
Definition ended (b : list Z) (w : span) : Prop := b !! (n - length w.2)%nat = Some 0.

Lemma nul_kept w b : wf_span buf w -> kept b -> kept (nul_at n w.2 b) /\ ended (nul_at n w.2 b) w /\ forall w', ended b w' -> ended (nul_at n w.2 b) w'.
Proof.
  intros ((pre & Hb) & He & _) [Hl Hk]. destruct (word_end_split w.1) as (t & Ht & _ & Hd). rewrite <- He in Ht, Hd. unfold nul_at. set (p := (n - length w.2)%nat).
  assert (Hn : n = (length pre + length t + length w.2)%nat) by (unfold n; rewrite Hb, Ht, !length_app; lia). assert (Hp : (p < length b)%nat) by lia.
  assert (Hat : (buf ++ [0]) !! p = Some (hd 0 w.2)).
  { rewrite Hb, Ht, !app_assoc, <- app_assoc, lookup_app_r by (rewrite length_app; lia). rewrite length_app. replace (p - (length pre + length t))%nat with 0%nat by lia. by destruct w.2. }
  split; [split; [by rewrite length_insert|]|split].
  - intros i c Hi Hc. destruct (decide (i = p)) as [->|Hne]; [|rewrite list_lookup_insert_ne by done; auto]. rewrite Hat in Hi. injection Hi as <-. rewrite list_lookup_insert_eq by done. destruct w.2; [done|]. cbn in Hc. congruence.
  - unfold ended. by rewrite list_lookup_insert_eq.
  - intros w' Hw'. unfold ended in *. destruct (decide ((n - length w'.2)%nat = p)) as [->|Hne]; [by rewrite list_lookup_insert_eq|by rewrite list_lookup_insert_ne].
Qed.

(** A word that has been ended is read back whole. *)
Lemma ended_text b w : wf_span buf w -> kept b -> ended b w -> cstr_at n b w = span_text w.
Proof.
  intros ((pre & Hb) & He & _) [Hl Hk] Hend. destruct (word_end_split w.1) as (t & Ht & Hw & _). rewrite <- He in Ht. unfold cstr_at, span_text.
  assert (Hn : n = (length pre + length t + length w.2)%nat) by (unfold n; rewrite Hb, Ht, !length_app; lia). assert (Hq : length w.1 = (length t + length w.2)%nat) by (rewrite Ht, length_app; done).
  replace (n - length w.1)%nat with (length pre) by lia. rewrite Hq, Nat.add_sub, Ht, take_app_length.
  assert (Hdrop : drop (length pre) b = t ++ 0 :: drop (S (length pre + length t)) b).
  { apply list_eq. intros i. rewrite lookup_drop. destruct (decide (i < length t)%nat) as [Hi|Hi].
    - rewrite lookup_app_l by done. destruct (lookup_lt_is_Some_2 t i Hi) as [c Hc]. rewrite Hc. apply Hk; [|by apply (Forall_lookup_1 _ _ _ _ Hw Hc)].
      rewrite Hb, Ht, <- !app_assoc, lookup_app_r by lia. rewrite Nat.add_comm, Nat.add_sub. by rewrite lookup_app_l.
    - rewrite lookup_app_r by lia. destruct (decide (i = length t)) as [->|Hne].
      + rewrite Nat.sub_diag. cbn. unfold ended in Hend. by replace (n - length w.2)%nat with (length pre + length t)%nat in Hend by lia.
      + replace (i - length t)%nat with (S (i - length t - 1)) by lia. change ((0 :: ?l) !! S ?j) with (l !! j). rewrite lookup_drop. f_equal. lia. }
  rewrite Hdrop. apply cstr_prefix. pose proof no_nul as Hnn. rewrite Hb, Ht in Hnn. apply Forall_app in Hnn as [_ Hnn]. by apply Forall_app in Hnn as [? _].
Qed.

Fixpoint cmd_ended (b : list Z) (c : cmd span) : Prop :=
  match c with
  | EXEC argv => Forall (ended b) argv
  | REDIR c file _ _ => cmd_ended b c /\ ended b file
  | PIPE l r | LIST l r => cmd_ended b l /\ cmd_ended b r
  | BACK c => cmd_ended b c
  end.
Lemma cmd_ended_mono b b' c : (forall w, ended b w -> ended b' w) -> cmd_ended b c -> cmd_ended b' c.
Proof. intros H. induction c; cbn; try naive_solver. intros Hf. eapply Forall_impl; [exact Hf|]. auto. Qed.

Lemma nul_argv argv b : Forall (wf_span buf) argv -> kept b -> let b' := foldl (fun b w => nul_at n w.2 b) b argv in
  kept b' /\ Forall (ended b') argv /\ forall w, ended b w -> ended b' w.
Proof.
  revert b. induction argv as [|w argv IH]; intros b Hw Hb; [done|]. apply Forall_cons in Hw as [Hw Hws]. destruct (nul_kept w b Hw Hb) as (H1 & H2 & H3).
  destruct (IH _ Hws H1) as (K1 & K2 & K3). cbn. split; [done|]. split; [constructor; auto|auto].
Qed.
Lemma nulterminate_ok c b : cmd_ok buf c -> kept b -> kept (nulterminate n c b) /\ cmd_ended (nulterminate n c b) c /\ forall w, ended b w -> ended (nulterminate n c b) w.
Proof.
  revert b. induction c as [argv|c IH file mode fd|l IHl r IHr|l IHl r IHr|c IH]; intros b Hc Hb; cbn in *.
  - destruct Hc as [Hc _]. by apply nul_argv.
  - destruct Hc as [Hc Hf]. destruct (IH b Hc Hb) as (H1 & H2 & H3). destruct (nul_kept file _ Hf H1) as (K1 & K2 & K3). split; [done|]. split; [|auto]. split; [|done]. by eapply cmd_ended_mono.
  - destruct Hc as [Hl Hr]. destruct (IHl b Hl Hb) as (H1 & H2 & H3). destruct (IHr _ Hr H1) as (K1 & K2 & K3). split; [done|]. split; [|auto]. split; [|done]. by eapply cmd_ended_mono.
  - destruct Hc as [Hl Hr]. destruct (IHl b Hl Hb) as (H1 & H2 & H3). destruct (IHr _ Hr H1) as (K1 & K2 & K3). split; [done|]. split; [|auto]. split; [|done]. by eapply cmd_ended_mono.
  - by apply IH.
Qed.

Lemma words_text b c : cmd_ok buf c -> kept b -> cmd_ended b c -> cmd_map (cstr_at n b) c = cmd_map span_text c.
Proof.
  intros Hc Hb. revert Hc. induction c as [argv|c IH file mode fd|l IHl r IHr|l IHl r IHr|c IH]; cbn; intros Hc He.
  - f_equal. destruct Hc as [Hc _]. induction argv as [|w argv IH]; [done|]. apply Forall_cons in Hc as [? ?]. apply Forall_cons in He as [? ?]. cbn. f_equal; [by apply ended_text|auto].
  - destruct Hc, He. f_equal; [auto|by apply ended_text].
  - destruct Hc, He. f_equal; auto.
  - destruct Hc, He. f_equal; auto.
  - f_equal. auto.
Qed.
Lemma kept_start : kept (buf ++ [0]).
Proof. split; [rewrite length_app; cbn; fold n; lia|done]. Qed.
Lemma nulterminate_words c : cmd_ok buf c -> cmd_map (cstr_at n (nulterminate n c (buf ++ [0]))) c = cmd_map span_text c.
Proof. intros Hc. destruct (nulterminate_ok c _ Hc kept_start) as (H1 & H2 & _). by apply words_text. Qed.
End words.

(** * Printing *)

(** A token: its kind and its characters. *)
Abbreviation tok := (Z * list Z)%type.
Definition sym (c : Z) : tok := (c, [c]).
Definition word (w : list Z) : tok := (WORD, w).
Definition MODE_IN : Z := O_RDONLY.
Definition MODE_OUT : Z := Z.lor (Z.lor O_WRONLY O_CREATE) O_TRUNC.
Definition MODE_APP : Z := Z.lor O_WRONLY O_CREATE.
Definition redir_toks (r : list Z * Z * Z) : list tok :=
  [if r.2 =? 0 then sym LT else if r.1.2 =? MODE_OUT then sym GT else (PLUS, [GT; GT]); word r.1.1].

(** Where a command stands decides whether it needs parentheses. *)
Inductive level := InLine | InBack | InPipe | InExec.
Definition paren (b : bool) (l : list tok) : list tok := if b then sym LPAR :: l ++ [sym RPAR] else l.
Fixpoint toks (lv : level) (t : cmd (list Z)) : list tok :=
  match t with
  | EXEC argv => word <$> argv
  | REDIR c file mode fd => toks InExec c ++ redir_toks (file, mode, fd)
  | PIPE l r => paren (match lv with InExec => true | _ => false end) (toks InExec l ++ sym BAR :: toks InPipe r)
  | LIST l r => paren (match lv with InLine => false | _ => true end) (toks InBack l ++ sym SEMI :: toks InLine r)
  | BACK c => paren (match lv with InLine | InBack => false | _ => true end) (toks InBack c ++ [sym AMP])
  end.

(** The commands that can be written down. *)
Definition good_word (w : list Z) : Prop := w <> [] /\ Forall (fun c => word_char c = true /\ c <> 0) w.
Definition good_redir (r : list Z * Z * Z) : Prop := (r.1.2, r.2) ∈ [(MODE_IN, 0); (MODE_OUT, 1); (MODE_APP, 1)].
Fixpoint good (t : cmd (list Z)) : Prop :=
  match t with
  | EXEC argv => (length argv < MAXARGS)%nat
  | REDIR c file mode fd => good c /\ good_redir (file, mode, fd)
  | PIPE l r | LIST l r => good l /\ good r
  | BACK c => good c
  end.

(** The line [s] consists of these tokens, whatever the white space. *)
Inductive lexes : list Z -> list tok -> Prop :=
| lex_nil s : skip s = [] -> lexes s []
| lex_cons s c q eq s' l : gettoken s = (c, q, eq, s') -> c <> 0 -> lexes s' l -> lexes s ((c, span_text (q, eq)) :: l).

Lemma gettoken_skip s : gettoken (skip s) = gettoken s.
Proof. unfold gettoken. by rewrite skip_skip. Qed.
Lemma lexes_skip s l : lexes s l -> lexes (skip s) l.
Proof.
  intros H. inversion H as [? E|? c q eq s' l' E Hc H']; subst; [constructor; by rewrite skip_skip|]. econstructor; [|done|exact H']. by rewrite gettoken_skip.
Qed.
Lemma lexes_tok s c w l : lexes s ((c, w) :: l) -> exists q eq s', gettoken s = (c, q, eq, s') /\ span_text (q, eq) = w /\ c <> 0 /\ lexes s' l /\ (length s' < length s)%nat.
Proof. intros H. inversion H as [|? ? q eq s' ? E Hc H']; subst. exists q, eq, s'. split_and!; try done. by eapply gettoken_shorter. Qed.

(** The first character of the line, as peek() sees it. *)
Definition first_in (set : list Z) (l : list tok) : bool := match l with [] => false | t :: _ => strchr set (if t.1 =? PLUS then GT else t.1) end.
Lemma peek_lex s set l : lexes s l -> forallb is_sym set = true -> peek s set = (skip s, first_in set l).
Proof.
  intros H Hset. unfold peek. f_equal. inversion H as [? E|? c q eq s' l' E Hc H']; subst; [by rewrite E|].
  pose proof (gettoken_token s) as Ht. rewrite E in Ht. cbn [first_in fst].
  inversion Ht as [Hk|c' e Hc' Hg Hk|e Hk Hd|e Hk|c' w Hk Hc1 Hc2]; subst; try done; rewrite Hk; [|done|done|].
  - destruct (Z.eqb_spec c PLUS) as [->|]; done.
  - change (WORD =? PLUS) with false. cbv iota. assert (Hf : forall d, is_sym d = false -> strchr set d = false).
    { intros d Hd. unfold strchr. apply not_true_is_false. intros (x & Hx & Hdx)%existsb_exists. apply Z.eqb_eq in Hdx as ->. rewrite (proj1 (forallb_forall is_sym set) Hset x Hx) in Hd. done. }
    by rewrite !Hf.
Qed.

(** * The parser inverts printing *)

Definition texts (c : cmd span) : cmd (list Z) := cmd_map span_text c.
Definition rtext (r : redir) : list Z * Z * Z := (span_text r.1.1, r.1.2, r.2).
Lemma texts_redircmds c rs : texts (redircmds c rs) = redircmds (texts c) (rtext <$> rs).
Proof. revert c. induction rs as [|[[w mode] fd] rs IH]; intros c; [done|]. exact (IH (REDIR c w mode fd)). Qed.

Lemma redirs_lex rs fuel rs0 s l : Forall good_redir rs -> lexes s (mjoin (redir_toks <$> rs) ++ l) -> first_in [LT; GT] l = false -> (length s < fuel)%nat ->
  exists rs' s', parseredirs fuel rs0 s = Parsed (rs0 ++ rs') s' /\ rtext <$> rs' = rs /\ lexes s' l /\ (length s' <= length s)%nat.
Proof.
  revert fuel rs0 s. induction rs as [|[[w mode] fd] rs IH]; intros fuel rs0 s Hg Hs Hl Hf; (destruct fuel as [|fuel]; [lia|]); cbn [parseredirs].
  - rewrite (peek_lex _ _ l) by done. rewrite Hl. exists [], (skip s). rewrite app_nil_r. split; [done|]. split; [done|]. split; [by apply lexes_skip|apply skip_le].
  - apply Forall_cons in Hg as [Hr Hg]. assert (Hp : first_in [LT; GT] (redir_toks (w, mode, fd) ++ (mjoin (redir_toks <$> rs) ++ l)) = true) by (unfold redir_toks; cbn; by repeat case_match).
    cbn in Hs. rewrite (peek_lex s _ (redir_toks (w, mode, fd) ++ mjoin (redir_toks <$> rs) ++ l)) by done. rewrite Hp. cbn [negb]. pose proof (skip_le s) as Hk. apply lexes_skip in Hs.
    assert (Hsplit : exists c x, redir_toks (w, mode, fd) = [(c, x); word w] /\ ((c = LT /\ mode = O_RDONLY /\ fd = 0) \/ (c = GT /\ mode = MODE_OUT /\ fd = 1) \/ (c = PLUS /\ mode = MODE_APP /\ fd = 1))).
    { unfold good_redir in Hr. cbn [fst snd] in Hr. rewrite !elem_of_cons in Hr. destruct Hr as [[= -> ->]|[[= -> ->]|[[= -> ->]|Hn]]]; [do 2 eexists; split; [reflexivity|]; auto..|by apply elem_of_nil in Hn]. }
    destruct Hsplit as (c & x & Ex & Hc). unfold redir_toks in Ex. injection Ex as Ex. cbn [fst snd] in *. rewrite Ex in Hs. apply lexes_tok in Hs as (q1 & e1 & s1 & G1 & _ & _ & Hs1 & L1). rewrite G1.
    apply lexes_tok in Hs1 as (q2 & e2 & s2 & G2 & T2 & _ & Hs2 & L2). rewrite G2. change (WORD =? WORD) with true. cbn [negb].
    destruct (IH fuel (rs0 ++ [((q2, e2), mode, fd)]) s2 Hg Hs2 Hl ltac:(lia)) as (rs' & s' & Hrun & Hrs & Hs' & Hlen).
    exists (((q2, e2), mode, fd) :: rs'), s'. rewrite <- app_assoc in Hrun. cbn in Hrun. split; [|split; [rewrite fmap_cons, Hrs; unfold rtext; cbn [fst snd]; by rewrite T2|split; [done|lia]]].
    destruct Hc as [(-> & -> & ->)|[(-> & -> & ->)|(-> & -> & ->)]]; exact Hrun.
Qed.

Definition exec_end (l : list tok) : Prop := l = [] \/ first_in [BAR; RPAR; AMP; SEMI] l = true.
Definition pipe_end (l : list tok) : Prop := l = [] \/ first_in [RPAR; AMP; SEMI] l = true.
Definition line_end (l : list tok) : Prop := l = [] \/ first_in [RPAR] l = true.
Lemma first_weaken set set' l : first_in set l = true -> (forall c, strchr set c = true -> strchr set' c = true) -> first_in set' l = true.
Proof. destruct l; cbn; auto. Qed.
Lemma first_excl set set' l : first_in set l = true -> (forall c, strchr set c = true -> strchr set' c = false) -> first_in set' l = false.
Proof. destruct l; cbn; auto. Qed.
Ltac sets := intros c; unfold strchr, BAR, AMP, SEMI, LPAR, RPAR, LT, GT; cbn [existsb]; lia.
Lemma exec_end_redir l : exec_end l -> first_in [LT; GT] l = false.
Proof. intros [->|H]; [done|]. eapply first_excl; [exact H|]. sets. Qed.
Lemma pipe_exec_end l : pipe_end l -> exec_end l.
Proof. intros [->|H]; [by left|]. right. eapply first_weaken; [exact H|]. sets. Qed.
Lemma line_pipe_end l : line_end l -> pipe_end l.
Proof. intros [->|H]; [by left|]. right. eapply first_weaken; [exact H|]. sets. Qed.
Lemma pipe_end_bar l : pipe_end l -> first_in [BAR] l = false.
Proof. intros [->|H]; [done|]. eapply first_excl; [exact H|]. sets. Qed.
Lemma line_end_amp l : line_end l -> first_in [AMP] l = false /\ first_in [SEMI] l = false.
Proof. intros [->|H]; [done|]. split; (eapply first_excl; [exact H|]); sets. Qed.

Lemma args_end fuel argv rs s l : lexes s l -> exec_end l -> exists s', parseargs (S fuel) argv rs s = Parsed (redircmds (EXEC argv) rs) s' /\ lexes s' l.
Proof.
  intros Hs Hl. cbn [parseargs]. rewrite (peek_lex s _ l) by done. destruct Hl as [->|Hl]; [|rewrite Hl; exists (skip s); split; [done|by apply lexes_skip]].
  inversion Hs as [? E|]; subst. cbn [first_in]. unfold gettoken. rewrite E. exists []. split; [done|by constructor].
Qed.

Lemma args_lex w ws rs fuel argv0 s l : Forall good_redir rs -> lexes s ((word <$> w :: ws) ++ mjoin (redir_toks <$> rs) ++ l) -> exec_end l ->
  (length argv0 + length (w :: ws) < MAXARGS)%nat -> (length s < fuel)%nat ->
  exists a' rs' s', parseargs fuel argv0 [] s = Parsed (redircmds (EXEC (argv0 ++ a')) rs') s' /\ span_text <$> a' = w :: ws /\ rtext <$> rs' = rs /\ lexes s' l.
Proof.
  revert w fuel argv0 s. induction ws as [|w2 ws IH]; intros w fuel argv0 s Hg Hs Hl Hn Hf; (destruct fuel as [|fuel]; [lia|]); cbn [parseargs]; rewrite (peek_lex s _ _ Hs) by done; cbn [first_in fmap list_fmap app word fst];
    change (strchr [BAR; RPAR; AMP; SEMI] (if WORD =? PLUS then GT else WORD)) with false; cbv iota; pose proof (skip_le s) as Hk; apply lexes_skip in Hs; cbn in Hs;
    apply lexes_tok in Hs as (q & e & s1 & G & T & _ & Hs1 & L1); rewrite G; change (WORD =? 0) with false; change (WORD =? WORD) with true; cbn [negb]; cbn [length] in Hn;
    (destruct (Nat.leb_spec MAXARGS (length (argv0 ++ [(q, e)]))) as [Hbad|_]; [rewrite length_app in Hbad; cbn in Hbad; lia|]).
  - destruct (redirs_lex rs (S (length s1)) [] s1 l Hg Hs1 (exec_end_redir _ Hl) ltac:(lia)) as (rs' & s2 & R1 & R2 & R3 & R4). rewrite R1. cbn [pbind app].
    destruct fuel as [|fuel]; [lia|]. destruct (args_end fuel (argv0 ++ [(q, e)]) rs' s2 l R3 Hl) as (s3 & A1 & A2). exists [(q, e)], rs', s3. rewrite A1. split_and!; try done. cbn. by rewrite T.
  - destruct (redirs_lex [] (S (length s1)) [] s1 (word w2 :: (word <$> ws) ++ mjoin (redir_toks <$> rs) ++ l) ltac:(constructor) Hs1 eq_refl ltac:(lia)) as (rs' & s2 & R1 & R2 & R3 & R4). rewrite R1.
    apply fmap_nil_inv in R2 as ->. cbn [pbind app]. destruct (IH w2 fuel (argv0 ++ [(q, e)]) s2 Hg R3 Hl) as (a' & rs2 & s3 & A1 & A2 & A3 & A4); [rewrite length_app; cbn in *; lia|lia|].
    exists ((q, e) :: a'), rs2, s3. rewrite A1. rewrite <- app_assoc. split_and!; try done. cbn. by rewrite T, A2.
Qed.

Section levels.
Definition parses (p : nat -> list Z -> parse_res (cmd span)) (k : nat) (ends : list tok -> Prop) (E : list tok) (t : cmd (list Z)) : Prop :=
  forall s l fuel, lexes s (E ++ l) -> ends l -> (4 * length s + k <= fuel)%nat -> exists c s', p fuel s = Parsed c s' /\ texts c = t /\ lexes s' l /\ (length s' <= length s)%nat.
Definition PLine := parses parseline 4 line_end.
Definition PPipe := parses parsepipe 3 pipe_end.
Definition PExec := parses parseexec 2 exec_end.
(** With redirections behind it. *)
Definition PExecR (E : list tok) (t : cmd (list Z)) : Prop := forall rs, Forall good_redir rs -> PExec (E ++ mjoin (redir_toks <$> rs)) (redircmds t rs).
(** Up to the ampersands that follow. *)
Definition PBack (E : list tok) (t : cmd (list Z)) : Prop := forall s l fuel, lexes s (E ++ l) -> pipe_end l -> (4 * length s + 3 <= fuel)%nat ->
  exists c s' f, pbind (parsepipe fuel s) (fun c s => parsebacks (S (length s)) c s) = parsebacks f c s' /\ texts c = t /\ lexes s' l /\ (length s' < f)%nat /\ (length s' <= length s)%nat.

(** The rest of the line is no longer than the line. *)
Lemma parses_intro p k ends E t : (forall fuel s, (4 * length s + k <= fuel)%nat -> forall buf, s `suffix_of` buf -> res_ok buf s (cmd_ok buf) (p fuel s)) ->
  (forall s l fuel, lexes s (E ++ l) -> ends l -> (4 * length s + k <= fuel)%nat -> exists c s', p fuel s = Parsed c s' /\ texts c = t /\ lexes s' l) -> parses p k ends E t.
Proof.
  intros Hok H s l fuel Hs Hl Hf. destruct (H s l fuel Hs Hl Hf) as (c & s' & H1 & H2 & H3). exists c, s'. split_and!; try done.
  pose proof (Hok fuel s Hf s ltac:(done)) as Hr. rewrite H1 in Hr. apply Hr.
Qed.

Lemma exec_pipe E t : PExec E t -> PPipe E t.
Proof.
  intros H. apply parses_intro; [intros fuel s Hf buf Hs; by apply (parse_ok buf fuel)|]. intros s l fuel Hs Hl Hf. destruct fuel as [|fuel]; [lia|]. cbn [parsepipe].
  destruct (H s l fuel Hs (pipe_exec_end _ Hl) ltac:(lia)) as (c & s1 & R1 & R2 & R3 & R4). rewrite R1. cbn [pbind]. rewrite (peek_lex s1 _ l R3), (pipe_end_bar _ Hl) by done. cbn [negb].
  exists c, (skip s1). split_and!; try done. by apply lexes_skip.
Qed.
Lemma pipe_back E t : PPipe E t -> PBack E t.
Proof.
  intros H s l fuel Hs Hl Hf. destruct (H s l fuel Hs Hl Hf) as (c & s1 & R1 & R2 & R3 & R4). rewrite R1. exists c, s1, (S (length s1)). split_and!; try done; lia.
Qed.
Lemma back_snoc E t : PBack E t -> PBack (E ++ [sym AMP]) (BACK t).
Proof.
  intros H s l fuel Hs Hl Hf. rewrite <- app_assoc in Hs. destruct (H s _ fuel Hs ltac:(by right) Hf) as (c & s1 & f & R1 & R2 & R3 & R4 & R5). rewrite R1. destruct f as [|f]; [lia|]. cbn [parsebacks].
  rewrite (peek_lex s1 _ _ R3) by done. cbn [first_in app]. change (strchr [AMP] _) with true. cbn [negb]. pose proof (skip_le s1) as Hk. apply lexes_skip in R3. cbn in R3. apply lexes_tok in R3 as (q & e & s2 & G & _ & _ & Hs2 & L2). rewrite G.
  exists (BACK c), s2, f. split_and!; try done; [cbn; by rewrite <- R2|lia|lia].
Qed.
Lemma backs_stop f c s l : lexes s l -> first_in [AMP] l = false -> parsebacks (S f) c s = Parsed c (skip s).
Proof. intros Hs Hl. cbn [parsebacks]. by rewrite (peek_lex s _ l Hs), Hl by done. Qed.
(** A line that ends after its ampersands. *)
Lemma back_line E t : PBack E t -> PLine E t.
Proof.
  intros H. apply parses_intro; [intros fuel s Hf buf Hs; by apply (parse_ok buf fuel)|]. intros s l fuel Hs Hl Hf. destruct fuel as [|fuel]; [lia|]. cbn [parseline].
  destruct (H s l fuel Hs (line_pipe_end _ Hl) ltac:(lia)) as (c & s1 & f & R1 & R2 & R3 & R4 & R5). destruct (line_end_amp _ Hl) as [Ha Hsm]. destruct f as [|f]; [lia|]. rewrite (backs_stop f c s1 _ R3 Ha) in R1.
  destruct (parsepipe fuel s) as [c0 s0| |]; try done. cbn [pbind] in *. rewrite R1. cbn [pbind]. apply lexes_skip in R3. rewrite (peek_lex _ _ _ R3), Hsm by done. cbn [negb]. exists c, (skip (skip s1)). split_and!; try done. by apply lexes_skip.
Qed.
Lemma list_line E1 t1 E2 t2 : PBack E1 t1 -> PLine E2 t2 -> PLine (E1 ++ sym SEMI :: E2) (LIST t1 t2).
Proof.
  intros H1 H2. apply parses_intro; [intros fuel s Hf buf Hs; by apply (parse_ok buf fuel)|]. intros s l fuel Hs Hl Hf. destruct fuel as [|fuel]; [lia|]. cbn [parseline]. rewrite <- app_assoc in Hs. cbn [app] in Hs.
  destruct (H1 s _ fuel Hs ltac:(by right) ltac:(lia)) as (c & s1 & f & R1 & R2 & R3 & R4 & R5). destruct f as [|f]; [lia|]. rewrite (backs_stop f c s1 _ R3 eq_refl) in R1.
  destruct (parsepipe fuel s) as [c0 s0| |]; try done. cbn [pbind] in *. rewrite R1. cbn [pbind]. pose proof (skip_le s1) as K1. pose proof (skip_le (skip s1)) as K2. apply lexes_skip in R3. rewrite (peek_lex _ _ _ R3) by done. cbn [first_in]. change (strchr [SEMI] _) with true. cbn [negb].
  apply lexes_skip in R3. apply lexes_tok in R3 as (q & e & s2 & G & _ & _ & Hs2 & L2). rewrite G. destruct (H2 s2 l fuel Hs2 Hl ltac:(lia)) as (c2 & s3 & Q1 & Q2 & Q3 & Q4). rewrite Q1. cbn [pbind].
  exists (LIST c c2), s3. split_and!; try done. cbn. by rewrite <- R2, <- Q2.
Qed.
Lemma pipe_pipe E1 t1 E2 t2 : PExec E1 t1 -> PPipe E2 t2 -> PPipe (E1 ++ sym BAR :: E2) (PIPE t1 t2).
Proof.
  intros H1 H2. apply parses_intro; [intros fuel s Hf buf Hs; by apply (parse_ok buf fuel)|]. intros s l fuel Hs Hl Hf. destruct fuel as [|fuel]; [lia|]. cbn [parsepipe]. rewrite <- app_assoc in Hs. cbn [app] in Hs.
  destruct (H1 s _ fuel Hs ltac:(by right) ltac:(lia)) as (c & s1 & R1 & R2 & R3 & R4). rewrite R1. cbn [pbind]. rewrite (peek_lex _ _ _ R3) by done. cbn [first_in]. change (strchr [BAR] _) with true. cbn [negb]. pose proof (skip_le s1) as K1.
  apply lexes_skip in R3. apply lexes_tok in R3 as (q & e & s2 & G & _ & _ & Hs2 & L2). rewrite G. destruct (H2 s2 l fuel Hs2 Hl ltac:(lia)) as (c2 & s3 & Q1 & Q2 & Q3 & Q4). rewrite Q1. cbn [pbind].
  exists (PIPE c c2), s3. split_and!; try done. cbn. by rewrite <- R2, <- Q2.
Qed.
Lemma line_block E t : PLine E t -> PExecR (sym LPAR :: E ++ [sym RPAR]) t.
Proof.
  intros H rs Hrs. apply parses_intro; [intros fuel s Hf buf Hs; by apply (parse_ok buf fuel)|]. intros s l fuel Hs Hl Hf. destruct fuel as [|[|fuel]]; [lia|lia|]. cbn [parseexec].
  cbn [app] in Hs. rewrite <- !app_assoc in Hs. cbn [app] in Hs. rewrite (peek_lex s _ _ Hs) by done. cbn [first_in]. change (strchr [LPAR] _) with true. cbv iota. cbn [parseblock].
  pose proof (skip_le s) as K1. pose proof (skip_le (skip s)) as K2. apply lexes_skip in Hs. rewrite (peek_lex _ _ _ Hs) by done. cbn [first_in]. change (strchr [LPAR] _) with true. cbn [negb].
  apply lexes_skip in Hs. apply lexes_tok in Hs as (q & e & s1 & G & _ & _ & Hs1 & L1). rewrite G. destruct (H s1 _ fuel Hs1 ltac:(by right) ltac:(lia)) as (c & s2 & R1 & R2 & R3 & R4). rewrite R1. cbn [pbind].
  rewrite (peek_lex _ _ _ R3) by done. cbn [first_in]. change (strchr [RPAR] _) with true. cbn [negb]. apply lexes_skip in R3. apply lexes_tok in R3 as (q' & e' & s3 & G' & _ & _ & Hs3 & L3). rewrite G'.
  destruct (redirs_lex rs (S (length s3)) [] s3 l Hrs Hs3 (exec_end_redir _ Hl) ltac:(lia)) as (rs' & s4 & Q1 & Q2 & Q3 & Q4). rewrite Q1. cbn [pbind app].
  exists (redircmds c rs'), s4. split_and!; try done. by rewrite texts_redircmds, R2, Q2.
Qed.

Lemma words_exec ws : (length ws < MAXARGS)%nat -> PExecR (word <$> ws) (EXEC ws).
Proof.
  intros Hn rs Hrs. apply parses_intro; [intros fuel s Hf buf Hs; by apply (parse_ok buf fuel)|]. intros s l fuel Hs Hl Hf. destruct fuel as [|fuel]; [lia|]. cbn [parseexec]. rewrite <- app_assoc in Hs.
  assert (Hp : first_in [LPAR] ((word <$> ws) ++ mjoin (redir_toks <$> rs) ++ l) = false).
  { destruct ws as [|w ws]; [|done]. destruct rs as [|r rs]; [|cbn; by repeat case_match]. cbn. destruct Hl as [->|Hl]; [done|]. eapply first_excl; [exact Hl|]. sets. }
  rewrite (peek_lex s _ _ Hs), Hp by done. apply lexes_skip in Hs. destruct ws as [|w ws].
  - destruct (redirs_lex rs (S (length (skip s))) [] (skip s) l Hrs Hs (exec_end_redir _ Hl) ltac:(lia)) as (rs' & s1 & Q1 & Q2 & Q3 & Q4). rewrite Q1. cbn [pbind app].
    destruct (args_end (length s1) [] rs' s1 l Q3 Hl) as (s2 & A1 & A2). rewrite A1. exists (redircmds (EXEC []) rs'), s2. split_and!; try done. by rewrite texts_redircmds, Q2.
  - destruct (redirs_lex [] (S (length (skip s))) [] (skip s) _ ltac:(constructor) Hs eq_refl ltac:(lia)) as (rs' & s1 & Q1 & Q2 & Q3 & Q4). rewrite Q1. apply fmap_nil_inv in Q2 as ->. cbn [pbind app].
    destruct (args_lex w ws rs (S (length s1)) [] s1 l Hrs Q3 Hl ltac:(cbn in *; lia) ltac:(lia)) as (a' & rs2 & s2 & A1 & A2 & A3 & A4). rewrite A1. exists (redircmds (EXEC a') rs2), s2.
    split_and!; try done. rewrite texts_redircmds, A3. unfold texts. cbn [cmd_map]. by rewrite A2.
Qed.
Lemma execR_exec E t : PExecR E t -> PExec E t.
Proof. intros H. specialize (H [] ltac:(constructor)). cbn in H. by rewrite app_nil_r in H. Qed.

(** Every command is read back at every level. *)
Lemma toks_parse t : good t -> PExecR (toks InExec t) t /\ PPipe (toks InPipe t) t /\ PBack (toks InBack t) t /\ PLine (toks InLine t) t.
Proof.
  assert (up : forall E t, PExecR E t -> PExecR E t /\ PPipe E t /\ PBack E t /\ PLine E t).
  { intros E u H. pose proof (exec_pipe _ _ (execR_exec _ _ H)) as H1. pose proof (pipe_back _ _ H1) as H2. auto using back_line. }
  induction t as [argv|c IH file mode fd|l IHl r IHr|l IHl r IHr|c IH]; cbn [good toks]; intros Hg.
  - by apply up, words_exec.
  - destruct Hg as [Hc Hr]. destruct (IH Hc) as (H1 & _). apply up. intros rs Hrs. pose proof (H1 ((file, mode, fd) :: rs) ltac:(by constructor)) as H2. cbn in H2. by rewrite <- app_assoc.
  - destruct Hg as [Hl Hr]. destruct (IHl Hl) as (L1 & _). destruct (IHr Hr) as (_ & R2 & _). pose proof (pipe_pipe _ _ _ _ (execR_exec _ _ L1) R2) as H. pose proof (pipe_back _ _ H) as H2. pose proof (back_line _ _ H2) as H3.
    cbn [paren]. split; [by apply line_block|]. done.
  - destruct Hg as [Hl Hr]. destruct (IHl Hl) as (_ & _ & L3 & _). destruct (IHr Hr) as (_ & _ & _ & R4). pose proof (list_line _ _ _ _ L3 R4) as H. cbn [paren]. destruct (up _ _ (line_block _ _ H)) as (U1 & U2 & U3 & _). done.
  - destruct (IH Hg) as (_ & _ & H3 & _). pose proof (back_snoc _ _ H3) as H4. pose proof (back_line _ _ H4) as H5. cbn [paren]. destruct (up _ _ (line_block _ _ H5)) as (U1 & U2 & _). done.
Qed.
End levels.

Lemma parse_toks t s : good t -> Forall (fun c => c <> 0) s -> lexes s (toks InLine t) -> parsecmd s = Parsed t [].
Proof.
  intros Hg Hs Hl. destruct (toks_parse t Hg) as (_ & _ & _ & H). destruct (H s [] (parse_fuel s)) as (c & s' & R1 & R2 & R3 & R4); [by rewrite app_nil_r|by left|done|].
  unfold parsecmd. rewrite R1. cbn [pbind]. rewrite (peek_lex s' _ _ R3) by done. inversion R3 as [? E|]; subst. rewrite E.
  pose proof (proj1 (parse_ok s (parse_fuel s)) s ltac:(done) ltac:(done)) as Hok. rewrite R1 in Hok. destruct Hok as (Hok & _). by rewrite (nulterminate_words s Hs c Hok).
Qed.


(** The parser ends on every line, and either prints a message or returns a
    command whose argument vectors all have room for the terminating null
    pointer and whose words lie within the line. *)
Theorem parse_total s : match parseline (parse_fuel s) s with Parsed c s' => cmd_ok s c /\ s' `suffix_of` s | Syntax _ => True | ParseFuel => False end.
Proof. pose proof (proj1 (parse_ok s (parse_fuel s)) s ltac:(done) ltac:(done)) as H. destruct (parseline _ s); cbn in H; naive_solver. Qed.

(** * An example *)

Definition demo_line : list Z := str "ls -l|(cat <in; wc) >> out &".
Definition demo_cmd : cmd (list Z) :=
  BACK (PIPE (EXEC [str "ls"; str "-l"]) (REDIR (LIST (REDIR (EXEC [str "cat"]) (str "in") MODE_IN 0) (EXEC [str "wc"])) (str "out") MODE_APP 1)).

(** Tokens one by one, by computation. *)
Definition is_tok (s : list Z) (c : Z) (w : list Z) : bool := let '(c', q, eq, _) := gettoken s in (c' =? c) && negb (c =? 0) && bool_decide (span_text (q, eq) = w).
Lemma lex_step s c w l : is_tok s c w = true -> lexes (gettoken s).2 l -> lexes s ((c, w) :: l).
Proof.
  unfold is_tok. destruct (gettoken s) as [[[c' q] eq] s'] eqn:E. intros [[->%Z.eqb_eq Hc]%andb_true_iff <-%bool_decide_eq_true]%andb_true_iff Hl. econstructor; [exact E| |done]. intros ->. done.
Qed.
Lemma demo_lexes : lexes demo_line (toks InLine demo_cmd).
Proof. repeat (apply lex_step; [vm_compute; reflexivity|]). constructor. vm_compute. reflexivity. Qed.

