(* ===== verification/ShRun.v ===== *)
(** user/sh.c: running commands.

    The shell is a tree of the system calls it makes ([prog]); the answers
    come from the kernel.  [runs] is what the kernel does with the tree: file
    descriptors are a table of each process, fork() copies it, open(), dup()
    and pipe() take the lowest free descriptor, and every call may fail.  It
    collects the programs that the process and its children start, each with
    its descriptors.  [sem] says the same of a command directly: redirection
    changes one descriptor, a pipeline connects standard output of the left
    side with standard input of the right side, and nobody else holds an end
    of the pipe. *)
From S2P Require Import Prelude Usys Sh ShProps.

(** * The shell as a tree of system calls *)

Inductive prog : Type :=
| Exit (status : Z)
| Exec (path : list Z) (argv : list (list Z)) (k : prog)
| Close (fd : Z) (k : prog)
| Dup (fd : Z) (k : prog)
| Open (path : list Z) (mode : Z) (k : Z -> prog)
| Pipe (k : Z -> Z -> Z -> prog)
| Fork (k : Z -> prog)
| Wait (k : prog)
| Write (fd : Z) (bs : list Z) (k : prog)
| Chdir (path : list Z) (k : Z -> prog)
| Gets (k : list Z -> prog)
| More.

Definition panic_prog (msg : string) : prog := Write 2 (str msg ++ [10]) (Exit 1).
Definition fork1 (k : Z -> prog) : prog := Fork (fun pid => if pid =? -1 then panic_prog "fork" else k pid).

Fixpoint runcmd (c : cmd (list Z)) : prog :=
  match c with
  | EXEC argv =>
      match argv with
      | [] => Exit 1
      | path :: _ => Exec path argv (Write 2 (str "exec " ++ path ++ str " failed" ++ [10]) (Exit 0))
      end
  | REDIR c file mode fd =>
      Close fd (Open file mode (fun r =>
        if r <? 0 then Write 2 (str "open " ++ file ++ str " failed" ++ [10]) (Exit 1) else runcmd c))
  | LIST l r => fork1 (fun pid => if pid =? 0 then runcmd l else Wait (runcmd r))
  | PIPE l r =>
      Pipe (fun res p0 p1 =>
        if res <? 0 then panic_prog "pipe" else
        fork1 (fun pid =>
          if pid =? 0 then Close 1 (Dup p1 (Close p0 (Close p1 (runcmd l))))
          else fork1 (fun pid =>
            if pid =? 0 then Close 0 (Dup p0 (Close p0 (Close p1 (runcmd r))))
            else Close p0 (Close p1 (Wait (Wait (Exit 0)))))))
  | BACK c => fork1 (fun pid => if pid =? 0 then runcmd c else Exit 0)
  end.

(** [while((fd = open("console", O_RDWR)) >= 0)] *)
Fixpoint open_console (fuel : nat) (k : prog) : prog :=
  match fuel with
  | O => More
  | S fuel => Open (str "console") O_RDWR (fun fd => if fd <? 0 then k else if 3 <=? fd then Close fd k else open_console fuel k)
  end.

Fixpoint skip_blanks (s : list Z) : list Z :=
  match s with c :: s' => if (c =? 32) || (c =? 9) then skip_blanks s' else s | [] => [] end.

(** One line of input; [loop] is the rest of the session. *)
Definition sh_line (buf : list Z) (loop : prog) : prog :=
  let c := skip_blanks buf in
  if nth 0 c 0 =? 10 then loop
  else if (nth 0 c 0 =? 99) && (nth 1 c 0 =? 100) && (nth 2 c 0 =? 32) then
    let dir := drop 3 (take (length c - 1) c) in
    Chdir dir (fun r => if r <? 0 then Write 2 (str "cannot cd " ++ dir ++ [10]) loop else loop)
  else
    fork1 (fun pid =>
      if pid =? 0 then
        match parsecmd c with
        | Parsed t _ => runcmd t
        | Syntax out => Write 2 out (Exit 1)
        | ParseFuel => More
        end
      else Wait loop).

(** The command loop over at most [fuel] lines. *)
Fixpoint sh_loop (fuel : nat) : prog :=
  match fuel with
  | O => More
  | S fuel => Write 2 (str "$ ") (Gets (fun buf => match buf with [] => Exit 0 | _ => sh_line buf (sh_loop fuel) end))
  end.
Definition sh_main (fuel : nat) : prog := open_console 4 (sh_loop fuel).

(** * What the kernel does with it *)

Inductive fobj := FFile (path : list Z) (mode : Z) | FPipe (id : nat) (wr : bool).
#[export] Instance fobj_eq_dec : EqDecision fobj.
Proof. solve_decision. Defined.
Abbreviation fdt := (gmap Z fobj).
Definition NOFILE : nat := 16.

Definition lowest (f : fdt) : option Z := List.find (fun i => bool_decide (f !! i = None)) (Z.of_nat <$> seq 0 NOFILE).
#[global] Arguments lowest : simpl never.
Definition fresh_pipe (id : nat) (f : fdt) : Prop := forall fd wr, f !! fd <> Some (FPipe id wr).

(** The two descriptors that pipe() takes. *)
Definition pipe_room (f : fdt) : option (Z * Z) :=
  n0 ← lowest f; n1 ← lowest (<[n0 := FPipe 0 false]> f); Some (n0, n1).

(** A program started, with its descriptors. *)
Abbreviation started := (list (list Z) * fdt)%type.

(** [fails]: calls may fail although there is room. *)
Section semantics.
Variable fails : Prop.

Inductive runs : fdt -> prog -> list started -> Prop :=
| run_exit f st : runs f (Exit st) []
| run_exec f path argv k : runs f (Exec path argv k) [(argv, f)]
| run_exec_fail f path argv k l : fails -> runs f k l -> runs f (Exec path argv k) l
| run_close f fd k l : runs (delete fd f) k l -> runs f (Close fd k) l
| run_dup f fd k l o n : f !! fd = Some o -> lowest f = Some n -> runs (<[n := o]> f) k l -> runs f (Dup fd k) l
| run_dup_fail f fd k l : f !! fd = None \/ lowest f = None -> runs f k l -> runs f (Dup fd k) l
| run_open f path mode k l n : lowest f = Some n -> runs (<[n := FFile path mode]> f) (k n) l -> runs f (Open path mode k) l
| run_open_fail f path mode k l : fails \/ lowest f = None -> runs f (k (-1)) l -> runs f (Open path mode k) l
| run_pipe f k l n0 n1 id : fresh_pipe id f -> lowest f = Some n0 -> lowest (<[n0 := FPipe id false]> f) = Some n1 ->
    runs (<[n1 := FPipe id true]> (<[n0 := FPipe id false]> f)) (k 0 n0 n1) l -> runs f (Pipe k) l
| run_pipe_fail f k l a b : fails \/ pipe_room f = None -> runs f (k (-1) a b) l -> runs f (Pipe k) l
| run_fork f k pid l1 l2 : 0 < pid -> runs f (k 0) l1 -> runs f (k pid) l2 -> runs f (Fork k) (l1 ++ l2)
| run_fork_fail f k l : fails -> runs f (k (-1)) l -> runs f (Fork k) l
| run_wait f k l : runs f k l -> runs f (Wait k) l
| run_write f fd bs k l : runs f k l -> runs f (Write fd bs k) l
| run_chdir f path k l r : runs f (k r) l -> runs f (Chdir path k) l
| run_gets f k l buf : runs f (k buf) l -> runs f (Gets k) l.

(** * What a command means *)

Inductive sem : fdt -> cmd (list Z) -> list started -> Prop :=
| sem_exec f a argv : sem f (EXEC (a :: argv)) [(a :: argv, f)]
| sem_exec_none f argv : fails \/ argv = [] -> sem f (EXEC argv) []
| sem_redir f c file mode fd l : sem (<[fd := FFile file mode]> f) c l -> sem f (REDIR c file mode fd) l
| sem_redir_fail f c file mode fd : fails -> sem f (REDIR c file mode fd) []
| sem_list f a b la lb : sem f a la -> sem f b lb -> sem f (LIST a b) (la ++ lb)
| sem_list_fail f a b : fails -> sem f (LIST a b) []
| sem_pipe f a b la lb id : fresh_pipe id f -> is_Some (pipe_room f) ->
    sem (<[1 := FPipe id true]> f) a la -> sem (<[0 := FPipe id false]> f) b lb -> sem f (PIPE a b) (la ++ lb)
| sem_pipe_half f a b la id : fails -> fresh_pipe id f -> is_Some (pipe_room f) -> sem (<[1 := FPipe id true]> f) a la -> sem f (PIPE a b) la
| sem_pipe_fail f a b : fails \/ pipe_room f = None -> sem f (PIPE a b) []
| sem_back f c l : sem f c l -> sem f (BACK c) l
| sem_back_fail f c : fails -> sem f (BACK c) [].
End semantics.

(** * Descriptors *)

Lemma find_min {A} (P : A -> bool) l x : List.find P l = Some x -> exists l1 l2, l = l1 ++ x :: l2 /\ P x = true /\ Forall (fun y => P y = false) l1.
Proof.
  induction l as [|y l IH]; cbn; [done|]. destruct (P y) eqn:E; [intros [= ->]; by exists [], l|].
  intros H. destruct (IH H) as (l1 & l2 & -> & H1 & H2). exists (y :: l1), l2. split; [done|]. split; [done|by constructor].
Qed.
Lemma lowest_spec f n : lowest f = Some n <-> 0 <= n < Z.of_nat NOFILE /\ f !! n = None /\ forall i, 0 <= i < n -> is_Some (f !! i).
Proof.
  unfold lowest. split.
  - intros H. destruct (find_min _ _ _ H) as (l1 & l2 & E & H1 & H2). apply bool_decide_eq_true in H1.
    assert (Hn : (Z.of_nat <$> seq 0 NOFILE) !! length l1 = Some n) by (rewrite E, lookup_app_r by done; by rewrite Nat.sub_diag).
    rewrite list_lookup_fmap in Hn. destruct (seq 0 NOFILE !! length l1) as [m|] eqn:Em; [|done]. injection Hn as <-. apply lookup_seq in Em as [-> Hm]. rewrite Nat.add_0_l in *. split; [lia|]. split; [done|].
    intros i Hi. assert (Hx : l1 !! Z.to_nat i = Some i).
    { assert (Hy : (l1 ++ Z.of_nat (length l1) :: l2) !! Z.to_nat i = Some i) by (rewrite <- E, list_lookup_fmap, lookup_seq_lt by lia; cbn; f_equal; lia). by rewrite lookup_app_l in Hy by lia. }
    eapply Forall_lookup_1 in H2; [|exact Hx]. cbn in H2. apply bool_decide_eq_false in H2. by destruct (f !! i); [eexists|].
  - intros (Hr & Hf & Hl). destruct (List.find _ _) as [m|] eqn:Em.
    + destruct (find_min _ _ _ Em) as (l1 & l2 & E & H1 & H2). apply bool_decide_eq_true in H1. f_equal.
      assert (Hin : m ∈ Z.of_nat <$> seq 0 NOFILE) by (rewrite E; apply elem_of_app; right; left). apply list_elem_of_fmap in Hin as (k & -> & Hk). apply elem_of_seq in Hk.
      destruct (decide (Z.of_nat k < n)) as [Hlt|Hge]; [destruct (Hl (Z.of_nat k) ltac:(lia)); congruence|].
      destruct (decide (Z.of_nat k = n)) as [|Hne]; [done|]. exfalso. assert (Hk' : l1 !! Z.to_nat n = Some n).
      { assert (Hlen : length l1 = k). { assert (Hy : (Z.of_nat <$> seq 0 NOFILE) !! length l1 = Some (Z.of_nat k)) by (rewrite E, lookup_app_r by done; by rewrite Nat.sub_diag).
          rewrite list_lookup_fmap in Hy. destruct (seq 0 NOFILE !! length l1) as [j|] eqn:Ej; [|done]. apply lookup_seq in Ej as [-> _]. injection Hy. lia. }
        assert (Hy : (l1 ++ Z.of_nat k :: l2) !! Z.to_nat n = Some n) by (rewrite <- E, list_lookup_fmap, lookup_seq_lt by lia; cbn; f_equal; lia). by rewrite lookup_app_l in Hy by lia. }
      eapply Forall_lookup_1 in H2; [|exact Hk']. cbn in H2. apply bool_decide_eq_false in H2. done.
    + exfalso. assert (Hx := List.find_none _ _ Em n). cbn in Hx. rewrite bool_decide_eq_true_2 in Hx by done. discriminate Hx. unfold NOFILE in Hr. lia.
Qed.

Definition std_open (f : fdt) : Prop := forall i, 0 <= i < 3 -> is_Some (f !! i).
Lemma std_insert f i o : std_open f -> std_open (<[i := o]> f).
Proof. intros H j Hj. destruct (decide (i = j)) as [->|Hne]; [rewrite lookup_insert_eq; by eexists|rewrite lookup_insert_ne by done; auto]. Qed.
(** After close(fd), a standard descriptor is the lowest. *)
Lemma lowest_closed f fd : std_open f -> 0 <= fd < 3 -> lowest (delete fd f) = Some fd.
Proof.
  intros H Hf. apply lowest_spec. split; [unfold NOFILE; lia|]. split; [by rewrite lookup_delete_eq|]. intros i Hi. rewrite lookup_delete_ne by lia. apply H. lia.
Qed.
Lemma lowest_ge f n : std_open f -> lowest f = Some n -> 3 <= n /\ f !! n = None.
Proof.
  intros H (Hr & Hn & _)%lowest_spec. split; [|done]. destruct (decide (3 <= n)); [done|]. destruct (H n ltac:(lia)). congruence.
Qed.

Lemma lowest_obj f n o o' : lowest (<[n := o]> f) = lowest (<[n := o']> f).
Proof.
  unfold lowest. generalize (Z.of_nat <$> seq 0 NOFILE). intros l. induction l as [|i l IH]; [done|]. cbn [List.find].
  destruct (decide (n = i)) as [->|Hne]; [rewrite !lookup_insert_eq|rewrite !lookup_insert_ne by done]; rewrite IH; done.
Qed.
Lemma pipe_room_iff f n0 n1 id : pipe_room f = Some (n0, n1) <-> lowest f = Some n0 /\ lowest (<[n0 := FPipe id false]> f) = Some n1.
Proof.
  unfold pipe_room. destruct (lowest f) as [a|]; cbn; [|naive_solver]. rewrite (lowest_obj f a (FPipe 0 false) (FPipe id false)). split.
  - destruct (lowest (<[a := FPipe id false]> f)) as [b|] eqn:E; cbn; [|done]. intros [= -> ->]. done.
  - intros [[= ->] H]. by rewrite H.
Qed.

Section tables.
Context (f : fdt) (n0 n1 : Z) (R W : fobj) (Hstd : std_open f) (H0 : lowest f = Some n0) (H1 : lowest (<[n0 := R]> f) = Some n1).
Let f2 := <[n1 := W]> (<[n0 := R]> f).

Lemma pipe_fds : 3 <= n0 /\ 3 <= n1 /\ n0 <> n1 /\ f !! n0 = None /\ f !! n1 = None.
Proof.
  destruct (lowest_ge _ _ Hstd H0) as [A1 A2]. destruct (lowest_ge _ _ (std_insert f n0 R Hstd) H1) as [B1 B2].
  assert (Hne : n0 <> n1) by (intros ->; by rewrite lookup_insert_eq in B2). rewrite lookup_insert_ne in B2 by done. done.
Qed.
(** Closing both ends restores the table. *)
Lemma pipe_close : delete n1 (delete n0 f2) = f.
Proof.
  destruct pipe_fds as (A1 & A2 & A3 & A4 & A5). unfold f2. rewrite delete_insert_ne by done. rewrite (delete_insert_id f n0) by done. by rewrite delete_insert_id.
Qed.
(** close(fd); dup(one end); close(both ends): the end is descriptor [fd]. *)
Lemma pipe_child fd n o : 0 <= fd < 3 -> f2 !! n = Some o -> n = n0 \/ n = n1 ->
  lowest (delete fd f2) = Some fd /\ delete fd f2 !! n = Some o /\ delete n1 (delete n0 (<[fd := o]> (delete fd f2))) = <[fd := o]> f.
Proof.
  intros Hf Ho Hn. destruct pipe_fds as (A1 & A2 & A3 & A4 & A5). assert (Hne : fd <> n0 /\ fd <> n1 /\ fd <> n) by lia. destruct Hne as (N1 & N2 & N3).
  split; [apply lowest_closed; [by do 2 apply std_insert|done]|]. split; [by rewrite lookup_delete_ne|]. rewrite insert_delete_eq. rewrite !delete_insert_ne by done. by rewrite pipe_close.
Qed.
End tables.

(** * The theorem *)

(** The parser only makes redirections of these. *)
Fixpoint std_redirs (c : cmd (list Z)) : Prop :=
  match c with
  | EXEC _ => True
  | REDIR c _ _ fd => 0 <= fd < 3 /\ std_redirs c
  | PIPE l r | LIST l r => std_redirs l /\ std_redirs r
  | BACK c => std_redirs c
  end.

Section wiring.
Variable fails : Prop.
Abbreviation runs := (runs fails).
Abbreviation sem := (sem fails).

Lemma runs_panic f msg l : runs f (panic_prog msg) l <-> l = [].
Proof. split; [|intros ->; repeat constructor]. intros H. inversion H as [| | | | | | | | | | | | |? ? ? ? ? H'| |]; subst. by inversion H'. Qed.
Lemma runs_fork1 f k l : (forall pid pid', 0 < pid -> 0 < pid' -> k pid = k pid') ->
  runs f (fork1 k) l <-> (exists l1 l2, l = l1 ++ l2 /\ runs f (k 0) l1 /\ runs f (k 1) l2) \/ (fails /\ l = []).
Proof.
  intros Hk. unfold fork1. split.
  - intros H. inversion H as [| | | | | | | | | |? ? pid l1 l2 Hp Hc Hpar|? ? ? Hfail Hpar| | | |]; subst.
    + left. exists l1, l2. split; [done|]. split; [done|]. rewrite (proj2 (Z.eqb_neq pid (-1))) in Hpar by lia. by rewrite (Hk 1 pid).
    + right. split; [done|]. by apply runs_panic in Hpar.
  - intros [(l1 & l2 & -> & Hc & Hp)|[Hf ->]]; [by apply (run_fork _ _ _ 1)|]. apply run_fork_fail; [done|]. by apply runs_panic.
Qed.
Lemma runs_close f fd k l : runs f (Close fd k) l <-> runs (delete fd f) k l.
Proof. split; [by inversion 1|by constructor]. Qed.
Lemma runs_wait f k l : runs f (Wait k) l <-> runs f k l.
Proof. split; [by inversion 1|by constructor]. Qed.
Lemma runs_exit f st l : runs f (Exit st) l <-> l = [].
Proof. split; [by inversion 1|intros ->; constructor]. Qed.
Lemma runs_dup f fd k l o n : f !! fd = Some o -> lowest f = Some n -> runs f (Dup fd k) l <-> runs (<[n := o]> f) k l.
Proof. intros Ho Hn. split; [|by econstructor]. inversion 1; subst; naive_solver. Qed.

(** One side of a pipeline. *)
Lemma runs_side f n0 n1 id fd n o k l : std_open f -> lowest f = Some n0 -> lowest (<[n0 := FPipe id false]> f) = Some n1 -> 0 <= fd < 3 ->
  <[n1 := FPipe id true]> (<[n0 := FPipe id false]> f) !! n = Some o -> n = n0 \/ n = n1 ->
  runs (<[n1 := FPipe id true]> (<[n0 := FPipe id false]> f)) (Close fd (Dup n (Close n0 (Close n1 k)))) l <-> runs (<[fd := o]> f) k l.
Proof.
  intros Hs H0 H1 Hf Ho Hn. destruct (pipe_child f n0 n1 (FPipe id false) (FPipe id true) Hs H0 H1 fd n o Hf Ho Hn) as (A & B & C).
  rewrite runs_close, (runs_dup _ _ _ _ _ _ B A), !runs_close. by rewrite C.
Qed.

Lemma runs_pipeline f n0 n1 id ka kb l : std_open f -> lowest f = Some n0 -> lowest (<[n0 := FPipe id false]> f) = Some n1 ->
  runs (<[n1 := FPipe id true]> (<[n0 := FPipe id false]> f)) (fork1 (fun pid =>
    if pid =? 0 then Close 1 (Dup n1 (Close n0 (Close n1 ka)))
    else fork1 (fun pid => if pid =? 0 then Close 0 (Dup n0 (Close n0 (Close n1 kb))) else Close n0 (Close n1 (Wait (Wait (Exit 0))))))) l <->
  (exists la lb, l = la ++ lb /\ runs (<[1 := FPipe id true]> f) ka la /\ (runs (<[0 := FPipe id false]> f) kb lb \/ fails /\ lb = [])) \/ (fails /\ l = []).
Proof.
  intros Hs H0 H1. destruct (pipe_fds f n0 n1 (FPipe id false) (FPipe id true) Hs H0 H1) as (_ & _ & Hne & _).
  rewrite runs_fork1 by (intros p p' Hp Hp'; by rewrite (proj2 (Z.eqb_neq p 0)), (proj2 (Z.eqb_neq p' 0)) by lia). change (0 =? 0) with true. change (1 =? 0) with false. cbv iota.
  setoid_rewrite (runs_side f n0 n1 id 1 n1 (FPipe id true)); try done; [|by rewrite lookup_insert_eq|by right].
  setoid_rewrite runs_fork1; [|intros p p' Hp Hp'; by rewrite (proj2 (Z.eqb_neq p 0)), (proj2 (Z.eqb_neq p' 0)) by lia]. change (0 =? 0) with true. change (1 =? 0) with false. cbv iota.
  setoid_rewrite (runs_side f n0 n1 id 0 n0 (FPipe id false)); try done; [|by rewrite lookup_insert_ne, lookup_insert_eq|by left].
  setoid_rewrite runs_close. setoid_rewrite runs_close. setoid_rewrite runs_wait. setoid_rewrite runs_wait. setoid_rewrite runs_exit. split.
  - intros [(la & lb & -> & Ha & [(l1 & l2 & -> & Hb & ->)|[Hf ->]])|H]; [left|left|by right]; (exists la; eexists; split; [done|]; split; [done|]); [left; by rewrite app_nil_r|by right].
  - intros [(la & lb & -> & Ha & [Hb|[Hf ->]])|H]; [left|left|by right]; exists la; eexists; (split; [done|]); (split; [done|]); [left; exists lb, []; by rewrite app_nil_r|by right].
Qed.

Lemma runcmd_sem c f l : std_open f -> std_redirs c -> runs f (runcmd c) l <-> sem f c l.
Proof.
  revert f l. induction c as [argv|c IH file mode fd|a IHa b IHb|a IHa b IHb|c IH]; intros f l Hs Hr; cbn [runcmd std_redirs] in *.
  - destruct argv as [|p argv].
    + rewrite runs_exit. split; [intros ->; constructor; by right|by inversion 1].
    + split; [|inversion 1 as [|? ? [Hf|]| | | | | | | | |]; subst; [constructor|apply run_exec_fail; [done|repeat constructor]|done]].
      inversion 1 as [|?|? ? ? ? ? Hf Hk| | | | | | | | | | | | |]; subst; [constructor|]. inversion Hk as [| | | | | | | | | | | | |? ? ? ? ? Hx| |]; subst. apply runs_exit in Hx as ->. constructor. by left.
  - destruct Hr as [Hfd Hr]. rewrite runs_close. pose proof (lowest_closed f fd Hs Hfd) as Hlow. split.
    + inversion 1 as [| | | | | |? ? ? ? ? n Hn Hk|? ? ? ? ? Hn Hk| | | | | | | |]; subst.
      * rewrite Hlow in Hn. injection Hn as <-. rewrite (proj2 (Z.ltb_ge fd 0)) in Hk by lia. rewrite insert_delete_eq in Hk. constructor. apply IH; [by apply std_insert|done|done].
      * destruct Hn as [Hf|Hn]; [|congruence]. inversion Hk as [| | | | | | | | | | | | |? ? ? ? ? Hx| |]; subst. apply runs_exit in Hx as ->. by constructor.
    + inversion 1 as [| |? ? ? ? ? ? Hk|? ? ? ? ? Hf| | | | | | |]; subst.
      * eapply run_open; [exact Hlow|]. rewrite (proj2 (Z.ltb_ge fd 0)) by lia. rewrite insert_delete_eq. apply IH; [by apply std_insert|done|done].
      * apply run_open_fail; [by left|]. repeat constructor.
  - destruct Hr as [Hra Hrb]. split.
    + inversion 1 as [| | | | | | | |? ? ? n0 n1 id Hid H0 H1 Hk|? ? ? x y Hf Hk| | | | | |]; subst.
      * change (0 <? 0) with false in Hk. cbv iota in Hk. apply runs_pipeline in Hk; [|done..]. assert (Hroom : is_Some (pipe_room f)) by (exists (n0, n1); by apply (pipe_room_iff f n0 n1 id)).
        destruct Hk as [(la & lb & -> & Ha & [Hb|[Hf ->]])|[Hf ->]].
        -- apply (sem_pipe _ _ _ _ _ _ id); try done; [apply IHa|apply IHb]; try done; by apply std_insert.
        -- rewrite app_nil_r. apply (sem_pipe_half _ _ _ _ _ id); try done. apply IHa; try done. by apply std_insert.
        -- apply sem_pipe_fail. by left.
      * apply runs_panic in Hk as ->. by apply sem_pipe_fail.
    + assert (Hgo : forall id, fresh_pipe id f -> is_Some (pipe_room f) -> forall la lb, sem (<[1 := FPipe id true]> f) a la -> (sem (<[0 := FPipe id false]> f) b lb \/ fails /\ lb = []) -> runs f (runcmd (PIPE a b)) (la ++ lb)).
      { intros id Hid [[n0 n1] Hroom] la lb Ha Hb. apply (pipe_room_iff f n0 n1 id) in Hroom as [H0 H1]. cbn [runcmd]. apply (run_pipe _ _ _ _ n0 n1 id); try done. change (0 <? 0) with false. cbv iota. apply runs_pipeline; try done.
        left. exists la, lb. split; [done|]. split; [apply IHa; try done; by apply std_insert|]. destruct Hb as [Hb|Hb]; [left|by right]. apply IHb; try done. by apply std_insert. }
      inversion 1 as [| | | | | |? ? ? la lb id Hid Hroom Ha Hb|? ? ? la id Hf Hid Hroom Ha|? ? ? Hf| |]; subst.
      * apply (Hgo id); auto.
      * rewrite <- (app_nil_r l). apply (Hgo id); auto.
      * apply (run_pipe_fail _ _ _ _ 0 0 Hf). change (-1 <? 0) with true. by apply runs_panic.
  - destruct Hr as [Hra Hrb]. rewrite runs_fork1 by (intros p p' Hp Hp'; by rewrite (proj2 (Z.eqb_neq p 0)), (proj2 (Z.eqb_neq p' 0)) by lia). change (0 =? 0) with true. change (1 =? 0) with false. cbv iota. setoid_rewrite runs_wait. setoid_rewrite IHa; [|done|done]. setoid_rewrite IHb; [|done|done]. split.
    + intros [(la & lb & -> & Ha & Hb)|[Hf ->]]; by constructor.
    + inversion 1; subst; [left; eauto|by right].
  - rewrite runs_fork1 by (intros p p' Hp Hp'; by rewrite (proj2 (Z.eqb_neq p 0)), (proj2 (Z.eqb_neq p' 0)) by lia). change (0 =? 0) with true. change (1 =? 0) with false. cbv iota. setoid_rewrite runs_exit. setoid_rewrite IH; [|done|done]. split.
    + intros [(la & lb & -> & Ha & ->)|[Hf ->]]; [rewrite app_nil_r|]; by constructor.
    + inversion 1; subst; [left; exists l, []; by rewrite app_nil_r|by right].
Qed.

(** C21: Running a command starts the programs the command names with the
    descriptors it describes, whatever calls fail: redirections replace exactly
    the descriptor they name, both sides of a pipeline share one fresh pipe, as
    standard output and standard input, and no other end of a pipe stays open
    in any program, so that a reader sees the end of its input. *)
Theorem runcmd_wiring c f l : std_open f -> std_redirs c -> runs f (runcmd c) l <-> sem f c l.
Proof. apply runcmd_sem. Qed.
End wiring.

Lemma good_std_redirs t : good t -> std_redirs t.
Proof.
  induction t as [argv|c IH file mode fd|l IHl r IHr|l IHl r IHr|c IH]; cbn; try naive_solver. intros [Hg Hr]. split; [|auto].
  unfold good_redir in Hr. cbn in Hr. rewrite !elem_of_cons in Hr. destruct Hr as [[= -> ->]|[[= -> ->]|[[= -> ->]|Hn]]]; [lia..|by apply elem_of_nil in Hn].
Qed.

Lemma skip_blanks_forall (P : Z -> Prop) s : Forall P s -> Forall P (skip_blanks s).
Proof. induction s as [|c s IH]; cbn; [done|]. intros H. destruct (_ || _); [apply IH; by apply Forall_cons in H as [_ ?]|done]. Qed.

(** A command line typed at the prompt: the shell forks, and the child starts
    exactly the programs that the command on the line describes, with the
    descriptors it describes; the shell itself keeps its descriptors and goes on
    with the next line. *)
Theorem sh_line_correct fails t buf loop f l : good t -> std_open f -> Forall (fun c => c <> 0) buf -> lexes (skip_blanks buf) (toks InLine t) ->
  nth 0 (skip_blanks buf) 0 <> 10 -> take 3 (skip_blanks buf) <> str "cd " ->
  runs fails f (sh_line buf loop) l <-> (exists l1 l2, l = l1 ++ l2 /\ sem fails f t l1 /\ runs fails f loop l2) \/ (fails /\ l = []).
Proof.
  intros Hg Hs Hn Hl Hnl Hcd. unfold sh_line. rewrite (parse_toks t _ Hg (skip_blanks_forall _ _ Hn) Hl). set (c := skip_blanks buf) in *. rewrite (proj2 (Z.eqb_neq _ _) Hnl).
  assert (Hb : (nth 0 c 0 =? 99) && (nth 1 c 0 =? 100) && (nth 2 c 0 =? 32) = false).
  { apply not_true_is_false. intros [[H1%Z.eqb_eq H2%Z.eqb_eq]%andb_true_iff H3%Z.eqb_eq]%andb_true_iff. apply Hcd. destruct c as [|x [|y [|z c]]]; cbn in *; try done. by subst. }
  rewrite Hb. rewrite runs_fork1 by (intros p p' Hp Hp'; by rewrite (proj2 (Z.eqb_neq p 0)), (proj2 (Z.eqb_neq p' 0)) by lia). change (0 =? 0) with true. change (1 =? 0) with false. cbv iota.
  setoid_rewrite runs_wait. setoid_rewrite (runcmd_sem fails t f); [done|done|by apply good_std_redirs].
Qed.

Lemma lowest_none f i : lowest f = None -> 0 <= i < Z.of_nat NOFILE -> is_Some (f !! i).
Proof.
  intros H Hi. destruct (f !! i) eqn:E; [by eexists|]. unfold lowest in H. pose proof (List.find_none _ _ H i) as Hx. cbn beta in Hx. rewrite bool_decide_eq_true_2 in Hx by done. discriminate Hx. cbn. unfold NOFILE in Hi. lia.
Qed.
Lemma open_console_std fuel f j : (forall i, 0 <= i < j -> is_Some (f !! i)) -> 0 <= j <= 3 -> 4 - j <= Z.of_nat fuel ->
  exists f', std_open f' /\ forall k l, runs False f (open_console fuel k) l <-> runs False f' k l.
Proof.
  revert f j. induction fuel as [|fuel IH]; intros f j Hj Hr Hf; [lia|]. cbn [open_console]. destruct (lowest f) as [n|] eqn:El.
  - assert (Hopen : forall g l, runs False f (Open (str "console") O_RDWR g) l <-> runs False (<[n := FFile (str "console") O_RDWR]> f) (g n) l).
    { intros g l. split; [|by apply run_open]. inversion 1; subst; naive_solver. }
    pose proof El as (Hn & Hnone & Hlow)%lowest_spec. destruct (Z.leb_spec 3 n) as [H3|H3].
    + exists f. split; [intros i Hi; apply Hlow; lia|]. intros k l. rewrite Hopen. rewrite (proj2 (Z.ltb_ge n 0)), (proj2 (Z.leb_le 3 n)) by lia. by rewrite runs_close, delete_insert_id.
    + assert (Hjn : j <= n) by (destruct (decide (j <= n)); [done|]; destruct (Hj n ltac:(lia)); congruence).
      destruct (IH (<[n := FFile (str "console") O_RDWR]> f) (n + 1)) as (f' & Hs & Hk); [|lia|lia|].
      { intros i Hi. destruct (decide (i = n)) as [->|]; [rewrite lookup_insert_eq; by eexists|rewrite lookup_insert_ne by done; apply Hlow; lia]. }
      exists f'. split; [done|]. intros k l. rewrite Hopen. rewrite (proj2 (Z.ltb_ge n 0)), (proj2 (Z.leb_gt 3 n)) by lia. apply Hk.
  - exists f. split; [intros i Hi; apply (lowest_none f i El); unfold NOFILE; lia|]. intros k l. split; [inversion 1; subst; [congruence|done]|]. intros H. apply run_open_fail; [by right|done].
Qed.

(** The loop at the start of the shell ends and leaves the three standard
    descriptors open, whichever of them were open before. *)
Theorem sh_opens_std f : exists f', std_open f' /\ forall fuel l, runs False f (sh_main fuel) l <-> runs False f' (sh_loop fuel) l.
Proof.
  destruct (open_console_std 4 f 0) as (f' & Hs & Hk); [lia|lia|lia|]. exists f'. split; [done|]. intros fuel l. apply Hk.
Qed.

(** * Examples *)

Definition demo_fds : fdt := <[0 := FFile (str "console") O_RDWR]> (<[1 := FFile (str "console") O_RDWR]> {[2 := FFile (str "console") O_RDWR]}).
Lemma demo_std : std_open demo_fds.
Proof. intros i Hi. assert (i = 0 \/ i = 1 \/ i = 2) as [->|[->| ->]] by lia; by eexists. Qed.
Lemma demo_good : good demo_cmd.
Proof. cbn. unfold MAXARGS, good_redir. repeat split; try lia; set_solver. Qed.

Lemma runcmd_wiring_witness : exists l, runs False demo_fds (runcmd (PIPE (EXEC [str "ls"]) (EXEC [str "wc"]))) l /\ length l = 2%nat.
Proof.
  exists ([([str "ls"], <[1 := FPipe 7 true]> demo_fds)] ++ [([str "wc"], <[0 := FPipe 7 false]> demo_fds)]). split; [|done].
  apply (runcmd_wiring False (PIPE (EXEC [str "ls"]) (EXEC [str "wc"])) demo_fds); [exact demo_std|done|].
  apply (sem_pipe _ _ _ _ _ _ 7); [|by exists (3, 4)|constructor|constructor]. intros fd wr H. unfold demo_fds in H. rewrite !lookup_insert_Some, lookup_singleton_Some in H. naive_solver.
Defined.

Lemma sh_line_correct_witness : runs True demo_fds (sh_line demo_line (Exit 0)) [].
Proof.
  apply (sh_line_correct True demo_cmd demo_line (Exit 0) demo_fds []); [exact demo_good|exact demo_std|apply (bool_decide_unpack _); vm_compute; exact I|exact demo_lexes|vm_compute; congruence|vm_compute; congruence|].
  by right.
Defined.
