(* ===== verification/Init.v ===== *)
(** user/init.c: the first user program.

    As in ShRun the program is a tree of the system calls it makes; here the
    answers of the kernel decide how it goes on, so [run] follows the tree
    along a list of answers and collects the calls. *)
From S2P Require Import Prelude Usys.

Definition CONSOLE : Z := 1.

(** A call that returns a number, the end, or more turns than [fuel]. *)
Inductive call :=
| COpen (path : list Z) (mode : Z) | CMknod (path : list Z) (major minor : Z) | CDup (fd : Z) | CPrint (text : list Z)
| CFork | CExec (path : list Z) (argv : list (list Z)) | CWait.
Inductive iprog :=
| Call (c : call) (k : Z -> iprog)
| IExit (status : Z)
| IMore.

(** [for(;;){ wpid = wait(0); ... }] *)
Fixpoint init_wait (fuel : nat) (pid : Z) (restart : iprog) : iprog :=
  match fuel with
  | O => IMore
  | S fuel => Call CWait (fun wpid =>
      if wpid =? pid then restart
      else if wpid <? 0 then Call (CPrint (str "init: wait returned an error" ++ [10])) (fun _ => IExit 1)
      else init_wait fuel pid restart)
  end.

(** The outer loop: [fuel] shells, [wf] turns of the inner loop for each. *)
Fixpoint init_loop (fuel wf : nat) : iprog :=
  match fuel with
  | O => IMore
  | S fuel =>
      Call (CPrint (str "init: starting sh" ++ [10])) (fun _ =>
      Call CFork (fun pid =>
        if pid <? 0 then Call (CPrint (str "init: fork failed" ++ [10])) (fun _ => IExit 1)
        else if pid =? 0 then Call (CExec (str "sh") [str "sh"]) (fun _ => Call (CPrint (str "init: exec sh failed" ++ [10])) (fun _ => IExit 1))
        else init_wait wf pid (init_loop fuel wf)))
  end.

Definition init_main (fuel wf : nat) : iprog :=
  let rest := Call (CDup 0) (fun _ => Call (CDup 0) (fun _ => init_loop fuel wf)) in
  Call (COpen (str "console") O_RDWR) (fun r =>
    if r <? 0 then Call (CMknod (str "console") CONSOLE 0) (fun _ => Call (COpen (str "console") O_RDWR) (fun _ => rest))
    else rest).

(** The calls made while the kernel answers with [ans], and what is left. *)
Fixpoint run (p : iprog) (ans : list Z) : list call * iprog :=
  match p, ans with
  | Call c k, a :: ans => let '(cs, q) := run (k a) ans in (c :: cs, q)
  | _, _ => ([], p)
  end.

(** * What init does *)

(** The life of one shell, seen by init: fork() answers [pid], then come the
    exits of orphans and at last that of the shell. *)
Definition shell_life (x : Z * list Z) : list Z := 0 :: x.1 :: x.2 ++ [x.1].
Definition shell_calls (x : Z * list Z) : list call := CPrint (str "init: starting sh" ++ [10]) :: CFork :: replicate (S (length x.2)) CWait.
Definition life_ok (wf : nat) (x : Z * list Z) : Prop := 0 < x.1 /\ Forall (fun w => 0 <= w /\ w <> x.1) x.2 /\ (length x.2 < wf)%nat.

Lemma run_wait wf pid os restart ans : Forall (fun w => 0 <= w /\ w <> pid) os -> (length os < wf)%nat ->
  run (init_wait wf pid restart) (os ++ pid :: ans) = (replicate (S (length os)) CWait ++ (run restart ans).1, (run restart ans).2).
Proof.
  intros H. revert wf. induction H as [|w os [H0 Hw] _ IH]; intros [|wf] Hl; cbn [length] in Hl; try lia; cbn [init_wait app run length].
  - rewrite Z.eqb_refl. by destruct (run restart ans).
  - rewrite (proj2 (Z.eqb_neq _ _) Hw), (proj2 (Z.ltb_ge w 0)) by lia. rewrite (IH wf) by lia. done.
Qed.

Lemma run_loop lives fuel wf ans : Forall (life_ok wf) lives ->
  run (init_loop (length lives + fuel) wf) (concat (shell_life <$> lives) ++ ans) = (concat (shell_calls <$> lives) ++ (run (init_loop fuel wf) ans).1, (run (init_loop fuel wf) ans).2).
Proof.
  induction 1 as [|[pid os] lives (Hp & Ho & Hl) _ IH]; [cbn; by destruct (run _ ans)|]. cbn in Hp, Ho, Hl. rewrite !fmap_cons. cbn [length Nat.add init_loop concat]. unfold shell_life at 1. cbn [fst snd app run].
  rewrite (proj2 (Z.ltb_ge pid 0)), (proj2 (Z.eqb_neq pid 0)) by lia. rewrite <- !app_assoc. cbn [app]. rewrite run_wait by done. rewrite IH. unfold shell_calls at 2. cbn [fst snd app]. done.
Qed.

(** init keeps a shell running for ever: whatever orphans it inherits and
    however often the shell exits, it reaps them all, starts the shell again
    each time it ends, and is then ready to start the next; it exits only when
    fork() or wait() fails. *)
Theorem init_restarts_sh lives fuel wf r d1 d2 : 0 <= r -> Forall (life_ok wf) lives ->
  run (init_main (length lives + fuel) wf) (r :: d1 :: d2 :: concat (shell_life <$> lives)) =
    (COpen (str "console") O_RDWR :: CDup 0 :: CDup 0 :: concat (shell_calls <$> lives), init_loop fuel wf).
Proof.
  intros Hr Hl. unfold init_main. cbn [run]. rewrite (proj2 (Z.ltb_ge r 0)) by lia. cbn [run]. pose proof (run_loop lives fuel wf [] Hl) as E. rewrite app_nil_r in E. rewrite E. destruct fuel; cbn [run fst snd]; by rewrite app_nil_r.
Qed.
