(* ===== verification/Kern.v ===== *)
(** The state of the kernel above the file system: struct file and the file
    table (kernel/file.h), struct proc with its memory areas and the process
    table (kernel/proc.h), and what one CPU sees of the locks.

    Pointers to files, inodes and processes are indices into their tables;
    a pipe is known by the address of its page.  The memory, page tables and
    trapframes of the processes are in the byte memory of the machine, which
    the state of the file system carries. *)
From S2P Require Import Prelude Mem Kalloc Vm UserMem Pipe Blocks Fs Uprintf.

(** * kernel/file.h *)

Inductive ftype : Type := FD_NONE | FD_PIPE | FD_INODE | FD_DEVICE.
#[export] Instance ftype_eq_dec : EqDecision ftype.
Proof. solve_decision. Defined.

Record file : Type := File {
  f_type : ftype;
  f_ref : Z;
  f_readable : bool;
  f_writable : bool;
  f_pipe : Z;
  f_ip : nat;
  f_off : Z;
  f_major : Z
}.
Definition set_f_type (v : ftype) (s : file) : file := File v (f_ref s) (f_readable s) (f_writable s) (f_pipe s) (f_ip s) (f_off s) (f_major s).
Definition set_f_ref (v : Z) (s : file) : file := File (f_type s) v (f_readable s) (f_writable s) (f_pipe s) (f_ip s) (f_off s) (f_major s).
Definition set_f_readable (v : bool) (s : file) : file := File (f_type s) (f_ref s) v (f_writable s) (f_pipe s) (f_ip s) (f_off s) (f_major s).
Definition set_f_writable (v : bool) (s : file) : file := File (f_type s) (f_ref s) (f_readable s) v (f_pipe s) (f_ip s) (f_off s) (f_major s).
Definition set_f_pipe (v : Z) (s : file) : file := File (f_type s) (f_ref s) (f_readable s) (f_writable s) v (f_ip s) (f_off s) (f_major s).
Definition set_f_ip (v : nat) (s : file) : file := File (f_type s) (f_ref s) (f_readable s) (f_writable s) (f_pipe s) v (f_off s) (f_major s).
Definition set_f_off (v : Z) (s : file) : file := File (f_type s) (f_ref s) (f_readable s) (f_writable s) (f_pipe s) (f_ip s) v (f_major s).
Definition set_f_major (v : Z) (s : file) : file := File (f_type s) (f_ref s) (f_readable s) (f_writable s) (f_pipe s) (f_ip s) (f_off s) v.
Definition file0 : file := File FD_NONE 0 false false 0 0 0 0.

(** The page of a pipe, without the memory of the processes. *)
Record pipeobj : Type := PipeObj {
  po_pipe : pipe;
  po_rsleep : bool;
  po_wsleep : bool;
  po_in : list Z;
  po_out : list Z
}.

(** * kernel/proc.h *)

Inductive procstate : Type := UNUSED | USED | SLEEPING | RUNNABLE | RUNNING | ZOMBIE.
#[export] Instance procstate_eq_dec : EqDecision procstate.
Proof. solve_decision. Defined.

(** What a process may sleep on. *)
Inductive chan : Type := ChanProc (i : nat) | ChanTicks | ChanPipeR (pi : Z) | ChanPipeW (pi : Z) | ChanAddr (a : Z).
#[export] Instance chan_eq_dec : EqDecision chan.
Proof. solve_decision. Defined.

Record vregion : Type := VRegion { vr_start : Z; vr_size : Z; vr_used : bool }.

Record vma : Type := Vma {
  v_used : bool;
  v_addr : Z;
  v_length : Z;
  v_prot : Z;
  v_flags : Z;
  v_file : nat;
  v_offset : Z
}.
Definition set_v_used (v : bool) (s : vma) : vma := Vma v (v_addr s) (v_length s) (v_prot s) (v_flags s) (v_file s) (v_offset s).
Definition set_v_file (v : nat) (s : vma) : vma := Vma (v_used s) (v_addr s) (v_length s) (v_prot s) (v_flags s) v (v_offset s).
Definition vma0 : vma := Vma false 0 0 0 0 0 0.

(** The saved registers of a kernel thread: ra, sp, s0 to s11. *)
Record context : Type := Context { cx_ra : Z; cx_sp : Z; cx_s : list Z }.

Record proc : Type := Proc {
  pr_lock : lockst;
  pr_state : procstate;
  pr_chan : option chan;
  pr_killed : bool;
  pr_xstate : Z;
  pr_pid : Z;
  pr_trace_mask : Z;
  pr_pf_count : Z;
  pr_vregions : list vregion;
  pr_parent : option nat;
  pr_kstack : Z;
  pr_sz : Z;
  pr_pagetable : Z;
  pr_trapframe : Z;
  pr_context : context;
  pr_ofile : list (option nat);
  pr_cwd : option nat;
  pr_name : list Z;
  pr_vmas : list vma
}.
Definition set_pr_lock (v : lockst) (s : proc) : proc := Proc v (pr_state s) (pr_chan s) (pr_killed s) (pr_xstate s) (pr_pid s) (pr_trace_mask s) (pr_pf_count s) (pr_vregions s) (pr_parent s) (pr_kstack s) (pr_sz s) (pr_pagetable s) (pr_trapframe s) (pr_context s) (pr_ofile s) (pr_cwd s) (pr_name s) (pr_vmas s).
Definition set_pr_state (v : procstate) (s : proc) : proc := Proc (pr_lock s) v (pr_chan s) (pr_killed s) (pr_xstate s) (pr_pid s) (pr_trace_mask s) (pr_pf_count s) (pr_vregions s) (pr_parent s) (pr_kstack s) (pr_sz s) (pr_pagetable s) (pr_trapframe s) (pr_context s) (pr_ofile s) (pr_cwd s) (pr_name s) (pr_vmas s).
Definition set_pr_chan (v : option chan) (s : proc) : proc := Proc (pr_lock s) (pr_state s) v (pr_killed s) (pr_xstate s) (pr_pid s) (pr_trace_mask s) (pr_pf_count s) (pr_vregions s) (pr_parent s) (pr_kstack s) (pr_sz s) (pr_pagetable s) (pr_trapframe s) (pr_context s) (pr_ofile s) (pr_cwd s) (pr_name s) (pr_vmas s).
Definition set_pr_killed (v : bool) (s : proc) : proc := Proc (pr_lock s) (pr_state s) (pr_chan s) v (pr_xstate s) (pr_pid s) (pr_trace_mask s) (pr_pf_count s) (pr_vregions s) (pr_parent s) (pr_kstack s) (pr_sz s) (pr_pagetable s) (pr_trapframe s) (pr_context s) (pr_ofile s) (pr_cwd s) (pr_name s) (pr_vmas s).
Definition set_pr_xstate (v : Z) (s : proc) : proc := Proc (pr_lock s) (pr_state s) (pr_chan s) (pr_killed s) v (pr_pid s) (pr_trace_mask s) (pr_pf_count s) (pr_vregions s) (pr_parent s) (pr_kstack s) (pr_sz s) (pr_pagetable s) (pr_trapframe s) (pr_context s) (pr_ofile s) (pr_cwd s) (pr_name s) (pr_vmas s).
Definition set_pr_pid (v : Z) (s : proc) : proc := Proc (pr_lock s) (pr_state s) (pr_chan s) (pr_killed s) (pr_xstate s) v (pr_trace_mask s) (pr_pf_count s) (pr_vregions s) (pr_parent s) (pr_kstack s) (pr_sz s) (pr_pagetable s) (pr_trapframe s) (pr_context s) (pr_ofile s) (pr_cwd s) (pr_name s) (pr_vmas s).
Definition set_pr_trace_mask (v : Z) (s : proc) : proc := Proc (pr_lock s) (pr_state s) (pr_chan s) (pr_killed s) (pr_xstate s) (pr_pid s) v (pr_pf_count s) (pr_vregions s) (pr_parent s) (pr_kstack s) (pr_sz s) (pr_pagetable s) (pr_trapframe s) (pr_context s) (pr_ofile s) (pr_cwd s) (pr_name s) (pr_vmas s).
Definition set_pr_pf_count (v : Z) (s : proc) : proc := Proc (pr_lock s) (pr_state s) (pr_chan s) (pr_killed s) (pr_xstate s) (pr_pid s) (pr_trace_mask s) v (pr_vregions s) (pr_parent s) (pr_kstack s) (pr_sz s) (pr_pagetable s) (pr_trapframe s) (pr_context s) (pr_ofile s) (pr_cwd s) (pr_name s) (pr_vmas s).
Definition set_pr_vregions (v : list vregion) (s : proc) : proc := Proc (pr_lock s) (pr_state s) (pr_chan s) (pr_killed s) (pr_xstate s) (pr_pid s) (pr_trace_mask s) (pr_pf_count s) v (pr_parent s) (pr_kstack s) (pr_sz s) (pr_pagetable s) (pr_trapframe s) (pr_context s) (pr_ofile s) (pr_cwd s) (pr_name s) (pr_vmas s).
Definition set_pr_parent (v : option nat) (s : proc) : proc := Proc (pr_lock s) (pr_state s) (pr_chan s) (pr_killed s) (pr_xstate s) (pr_pid s) (pr_trace_mask s) (pr_pf_count s) (pr_vregions s) v (pr_kstack s) (pr_sz s) (pr_pagetable s) (pr_trapframe s) (pr_context s) (pr_ofile s) (pr_cwd s) (pr_name s) (pr_vmas s).
Definition set_pr_kstack (v : Z) (s : proc) : proc := Proc (pr_lock s) (pr_state s) (pr_chan s) (pr_killed s) (pr_xstate s) (pr_pid s) (pr_trace_mask s) (pr_pf_count s) (pr_vregions s) (pr_parent s) v (pr_sz s) (pr_pagetable s) (pr_trapframe s) (pr_context s) (pr_ofile s) (pr_cwd s) (pr_name s) (pr_vmas s).
Definition set_pr_sz (v : Z) (s : proc) : proc := Proc (pr_lock s) (pr_state s) (pr_chan s) (pr_killed s) (pr_xstate s) (pr_pid s) (pr_trace_mask s) (pr_pf_count s) (pr_vregions s) (pr_parent s) (pr_kstack s) v (pr_pagetable s) (pr_trapframe s) (pr_context s) (pr_ofile s) (pr_cwd s) (pr_name s) (pr_vmas s).
Definition set_pr_pagetable (v : Z) (s : proc) : proc := Proc (pr_lock s) (pr_state s) (pr_chan s) (pr_killed s) (pr_xstate s) (pr_pid s) (pr_trace_mask s) (pr_pf_count s) (pr_vregions s) (pr_parent s) (pr_kstack s) (pr_sz s) v (pr_trapframe s) (pr_context s) (pr_ofile s) (pr_cwd s) (pr_name s) (pr_vmas s).
Definition set_pr_trapframe (v : Z) (s : proc) : proc := Proc (pr_lock s) (pr_state s) (pr_chan s) (pr_killed s) (pr_xstate s) (pr_pid s) (pr_trace_mask s) (pr_pf_count s) (pr_vregions s) (pr_parent s) (pr_kstack s) (pr_sz s) (pr_pagetable s) v (pr_context s) (pr_ofile s) (pr_cwd s) (pr_name s) (pr_vmas s).
Definition set_pr_context (v : context) (s : proc) : proc := Proc (pr_lock s) (pr_state s) (pr_chan s) (pr_killed s) (pr_xstate s) (pr_pid s) (pr_trace_mask s) (pr_pf_count s) (pr_vregions s) (pr_parent s) (pr_kstack s) (pr_sz s) (pr_pagetable s) (pr_trapframe s) v (pr_ofile s) (pr_cwd s) (pr_name s) (pr_vmas s).
Definition set_pr_ofile (v : list (option nat)) (s : proc) : proc := Proc (pr_lock s) (pr_state s) (pr_chan s) (pr_killed s) (pr_xstate s) (pr_pid s) (pr_trace_mask s) (pr_pf_count s) (pr_vregions s) (pr_parent s) (pr_kstack s) (pr_sz s) (pr_pagetable s) (pr_trapframe s) (pr_context s) v (pr_cwd s) (pr_name s) (pr_vmas s).
Definition set_pr_cwd (v : option nat) (s : proc) : proc := Proc (pr_lock s) (pr_state s) (pr_chan s) (pr_killed s) (pr_xstate s) (pr_pid s) (pr_trace_mask s) (pr_pf_count s) (pr_vregions s) (pr_parent s) (pr_kstack s) (pr_sz s) (pr_pagetable s) (pr_trapframe s) (pr_context s) (pr_ofile s) v (pr_name s) (pr_vmas s).
Definition set_pr_name (v : list Z) (s : proc) : proc := Proc (pr_lock s) (pr_state s) (pr_chan s) (pr_killed s) (pr_xstate s) (pr_pid s) (pr_trace_mask s) (pr_pf_count s) (pr_vregions s) (pr_parent s) (pr_kstack s) (pr_sz s) (pr_pagetable s) (pr_trapframe s) (pr_context s) (pr_ofile s) (pr_cwd s) v (pr_vmas s).
Definition set_pr_vmas (v : list vma) (s : proc) : proc := Proc (pr_lock s) (pr_state s) (pr_chan s) (pr_killed s) (pr_xstate s) (pr_pid s) (pr_trace_mask s) (pr_pf_count s) (pr_vregions s) (pr_parent s) (pr_kstack s) (pr_sz s) (pr_pagetable s) (pr_trapframe s) (pr_context s) (pr_ofile s) (pr_cwd s) (pr_name s) v.

Definition NPROC : nat := 64.
Definition NOFILE : nat := 16.
Definition NFILE : nat := 100.
Definition NDEV : Z := 10.
Definition MAXVMA : nat := 16.
Definition NVREG : nat := 4.
Definition ROOTDEV : Z := 1.

(** * The kernel *)

(** [B]: the state of the block layer; [D]: that of the devices. *)
Section kern.
Context {B D : Type}.

Record kern : Type := Kern {
  kr_fs : fsst B mach;
  kr_dev : D;
  kr_ftlock : lockst;
  kr_file : list file;
  kr_pipe : gmap Z pipeobj;
  kr_proc : list proc;
  kr_waitlock : lockst;
  kr_pidlock : lockst;
  kr_nextpid : Z;
  kr_initproc : option nat;
  kr_cur : option nat;
  kr_tickslock : lockst;
  kr_ticks : Z
}.
Definition set_kr_fs (v : fsst B mach) (s : kern) : kern := Kern v (kr_dev s) (kr_ftlock s) (kr_file s) (kr_pipe s) (kr_proc s) (kr_waitlock s) (kr_pidlock s) (kr_nextpid s) (kr_initproc s) (kr_cur s) (kr_tickslock s) (kr_ticks s).
Definition set_kr_dev (v : D) (s : kern) : kern := Kern (kr_fs s) v (kr_ftlock s) (kr_file s) (kr_pipe s) (kr_proc s) (kr_waitlock s) (kr_pidlock s) (kr_nextpid s) (kr_initproc s) (kr_cur s) (kr_tickslock s) (kr_ticks s).
Definition set_kr_ftlock (v : lockst) (s : kern) : kern := Kern (kr_fs s) (kr_dev s) v (kr_file s) (kr_pipe s) (kr_proc s) (kr_waitlock s) (kr_pidlock s) (kr_nextpid s) (kr_initproc s) (kr_cur s) (kr_tickslock s) (kr_ticks s).
Definition set_kr_file (v : list file) (s : kern) : kern := Kern (kr_fs s) (kr_dev s) (kr_ftlock s) v (kr_pipe s) (kr_proc s) (kr_waitlock s) (kr_pidlock s) (kr_nextpid s) (kr_initproc s) (kr_cur s) (kr_tickslock s) (kr_ticks s).
Definition set_kr_pipe (v : gmap Z pipeobj) (s : kern) : kern := Kern (kr_fs s) (kr_dev s) (kr_ftlock s) (kr_file s) v (kr_proc s) (kr_waitlock s) (kr_pidlock s) (kr_nextpid s) (kr_initproc s) (kr_cur s) (kr_tickslock s) (kr_ticks s).
Definition set_kr_proc (v : list proc) (s : kern) : kern := Kern (kr_fs s) (kr_dev s) (kr_ftlock s) (kr_file s) (kr_pipe s) v (kr_waitlock s) (kr_pidlock s) (kr_nextpid s) (kr_initproc s) (kr_cur s) (kr_tickslock s) (kr_ticks s).
Definition set_kr_waitlock (v : lockst) (s : kern) : kern := Kern (kr_fs s) (kr_dev s) (kr_ftlock s) (kr_file s) (kr_pipe s) (kr_proc s) v (kr_pidlock s) (kr_nextpid s) (kr_initproc s) (kr_cur s) (kr_tickslock s) (kr_ticks s).
Definition set_kr_pidlock (v : lockst) (s : kern) : kern := Kern (kr_fs s) (kr_dev s) (kr_ftlock s) (kr_file s) (kr_pipe s) (kr_proc s) (kr_waitlock s) v (kr_nextpid s) (kr_initproc s) (kr_cur s) (kr_tickslock s) (kr_ticks s).
Definition set_kr_nextpid (v : Z) (s : kern) : kern := Kern (kr_fs s) (kr_dev s) (kr_ftlock s) (kr_file s) (kr_pipe s) (kr_proc s) (kr_waitlock s) (kr_pidlock s) v (kr_initproc s) (kr_cur s) (kr_tickslock s) (kr_ticks s).
Definition set_kr_initproc (v : option nat) (s : kern) : kern := Kern (kr_fs s) (kr_dev s) (kr_ftlock s) (kr_file s) (kr_pipe s) (kr_proc s) (kr_waitlock s) (kr_pidlock s) (kr_nextpid s) v (kr_cur s) (kr_tickslock s) (kr_ticks s).
Definition set_kr_cur (v : option nat) (s : kern) : kern := Kern (kr_fs s) (kr_dev s) (kr_ftlock s) (kr_file s) (kr_pipe s) (kr_proc s) (kr_waitlock s) (kr_pidlock s) (kr_nextpid s) (kr_initproc s) v (kr_tickslock s) (kr_ticks s).
Definition set_kr_tickslock (v : lockst) (s : kern) : kern := Kern (kr_fs s) (kr_dev s) (kr_ftlock s) (kr_file s) (kr_pipe s) (kr_proc s) (kr_waitlock s) (kr_pidlock s) (kr_nextpid s) (kr_initproc s) (kr_cur s) v (kr_ticks s).
Definition set_kr_ticks (v : Z) (s : kern) : kern := Kern (kr_fs s) (kr_dev s) (kr_ftlock s) (kr_file s) (kr_pipe s) (kr_proc s) (kr_waitlock s) (kr_pidlock s) (kr_nextpid s) (kr_initproc s) (kr_cur s) (kr_tickslock s) v.

End kern.
Arguments kern : clear implicits.

(** The device switch: what devsw[major].read and .write do. *)
Class Devices (D : Type) := {
  dev_read : Z -> option (uproc -> Z -> Z -> M (D * mach) Z);
  dev_write : Z -> option (uproc -> Z -> Z -> M (D * mach) Z);
  (** printf() of the kernel: a format and its arguments *)
  dev_printf : list Z -> list varg -> M D unit
}.

Definition proc0 : proc :=
  Proc Free UNUSED None false 0 0 0 0 (replicate NVREG (VRegion 0 0 false)) None 0 0 0 0 (Context 0 0 [])
    (replicate NOFILE None) None [] (replicate MAXVMA vma0).

Section ops.
Context {B D : Type} `{BK : Blocks B} `{L : Layout}.
Implicit Types s : kern B D.

(** ** Access to the parts of the state *)

Definition onfs {A} (m : M (fsst B mach) A) : M (kern B D) A := zoom kr_fs set_kr_fs m.
Definition onm {A} (m : M mach A) : M (kern B D) A := onfs (zoom fs_um set_fs_um m).
Definition begin_tx : M (kern B D) unit := onfs (onk bk_begin_op).
Definition end_tx : M (kern B D) unit := onfs (onk bk_end_op).

Definition getp (i : nat) s : proc := default proc0 (kr_proc s !! i).
Definition updp (i : nat) (f : proc -> proc) s : kern B D := set_kr_proc (alter f i (kr_proc s)) s.
Definition modp (i : nat) (f : proc -> proc) : M (kern B D) unit := modify (updp i f).
Definition getf (i : nat) s : file := default file0 (kr_file s !! i).
Definition updf (i : nat) (f : file -> file) s : kern B D := set_kr_file (alter f i (kr_file s)) s.
Definition modf (i : nat) (f : file -> file) : M (kern B D) unit := modify (updf i f).

(** What vm.c needs to know of a process. *)
Definition uproc_of (p : proc) : uproc := Uproc (pr_pagetable p) (pr_sz p).

(** ** Locks *)

Definition p_acquire (i : nat) : M (kern B D) unit := lock_acquire (fun s => pr_lock (getp i s)) (fun l => updp i (set_pr_lock l)).
Definition p_release (i : nat) : M (kern B D) unit := lock_release (fun s => pr_lock (getp i s)) (fun l => updp i (set_pr_lock l)).
Definition ft_acquire : M (kern B D) unit := lock_acquire kr_ftlock set_kr_ftlock.
Definition ft_release : M (kern B D) unit := lock_release kr_ftlock set_kr_ftlock.
Definition wait_acquire : M (kern B D) unit := lock_acquire kr_waitlock set_kr_waitlock.
Definition wait_release : M (kern B D) unit := lock_release kr_waitlock set_kr_waitlock.
Definition ticks_acquire : M (kern B D) unit := lock_acquire kr_tickslock set_kr_tickslock.
Definition ticks_release : M (kern B D) unit := lock_release kr_tickslock set_kr_tickslock.

(** myproc(): the process this CPU runs. *)
Definition myproc : M (kern B D) nat :=
  let! c := gets kr_cur in
  match c with Some i => ret i | None => panic "no current process" end.

Definition kprintf `{DV : Devices D} (fmt : list Z) (ap : list varg) : M (kern B D) unit := zoom kr_dev set_kr_dev (dev_printf fmt ap).

End ops.
