(* ===== verification/Kvm.v ===== *)
(** The kernel's own page table: kvmmake(), kvmmap() and kvminit() of
    kernel/vm.c and proc_mapstacks() of kernel/proc.c.

    The specifications of mappages() say that it fails only when memory has
    run out; here the pages it takes are counted, so that at boot, with enough
    free memory, it is known not to fail. *)
From S2P Require Import Prelude Mem Str Kalloc Vm VmSpec VmUser VmProps Kern.

(** * Operations *)

Section kvm.
Context `{L : Layout}.

Definition kvmmap (kpgtbl va pa sz perm : Z) : M mach unit :=
  let! r := mappages kpgtbl va sz pa perm in
  if negb (r =? 0) then panic "kvmmap" else ret tt.

(** [for(p = proc; p < &proc[NPROC]; p++)], [i] being [p - proc]. *)
Fixpoint proc_mapstacks_loop (n : nat) (i kpgtbl : Z) : M mach unit :=
  match n with
  | O => ret tt
  | S n =>
      let! pa := kalloc in
      if pa =? 0 then panic "kalloc" else
      kvmmap kpgtbl (Vm.KSTACK i) pa PGSIZE (Z.lor PTE_R PTE_W) ;;
      proc_mapstacks_loop n (i + 1) kpgtbl
  end.
Definition proc_mapstacks (kpgtbl : Z) : M mach unit := proc_mapstacks_loop NPROC 0 kpgtbl.

Definition kvmmake : M mach Z :=
  let! kpgtbl := kalloc in
  mset kpgtbl 0 PGSIZE ;;
  kvmmap kpgtbl UART0 UART0 PGSIZE (Z.lor PTE_R PTE_W) ;;
  kvmmap kpgtbl VIRTIO0 VIRTIO0 PGSIZE (Z.lor PTE_R PTE_W) ;;
  kvmmap kpgtbl PLIC PLIC 0x4000000 (Z.lor PTE_R PTE_W) ;;
  kvmmap kpgtbl KERNBASE KERNBASE (u64 (etext - KERNBASE)) (Z.lor PTE_R PTE_X) ;;
  kvmmap kpgtbl etext etext (u64 (PHYSTOP - etext)) (Z.lor PTE_R PTE_W) ;;
  kvmmap kpgtbl TRAMPOLINE trampoline PGSIZE (Z.lor PTE_R PTE_X) ;;
  proc_mapstacks kpgtbl ;;
  ret kpgtbl.

(** What main() does first: the free list, then the page table; the value is
    the new [kernel_pagetable]. *)
Definition boot_memory : M mach Z := kinit ;; kvmmake.
End kvm.

Section count.
Context `{L : Layout} `{!LayoutOk L}.

(** * The pages that page tables take *)

Lemma chain_unique m h l1 l2 : chain m h l1 -> chain m h l2 -> Forall page_ok l1 -> Forall page_ok l2 -> l1 = l2.
Proof.
  revert h l2. induction l1 as [|p l1 IH]; intros h [|q l2]; cbn; try done.
  - intros -> [E _] _ Hq. apply Forall_cons in Hq as [Hq _]. pose proof (page_ok_pos _ Hq). lia.
  - intros [-> _] E Hp _. apply Forall_cons in Hp as [Hp _]. pose proof (page_ok_pos _ Hp). lia.
  - intros [-> C1] [<- C2] H1 H2. apply Forall_cons in H1 as [_ H1]. apply Forall_cons in H2 as [_ H2]. f_equal. by eapply IH.
Qed.
Lemma kmem_inv_unique s l1 l2 : kmem_inv s l1 -> kmem_inv s l2 -> l1 = l2.
Proof. intros [_ C1 _ O1] [_ C2 _ O2]. by eapply chain_unique. Qed.

(** At most [c] pages have left the free list. *)
Definition costs (c : Z) (l : list Z) (s' : mach) : Prop := forall l', kmem_inv s' l' -> Z.of_nat (length l) <= Z.of_nat (length l') + c.

Lemma costs_self l s' l' c : kmem_inv s' l' -> Z.of_nat (length l) <= Z.of_nat (length l') + c -> costs c l s'.
Proof. intros Hk Hl l2 H2. by rewrite (kmem_inv_unique _ _ _ H2 Hk). Qed.
Lemma costs_same s l c : kmem_inv s l -> 0 <= c -> costs c l s.
Proof. intros Hk Hc. eapply costs_self; [done|lia]. Qed.
Lemma costs_trans c c1 c2 l s1 l1 s2 : costs c1 l s1 -> kmem_inv s1 l1 -> costs c2 l1 s2 -> c1 + c2 <= c -> costs c l s2.
Proof. intros H1 Hk H2 Hc l' Hl'. pose proof (H1 _ Hk). pose proof (H2 _ Hl'). lia. Qed.

Lemma walk_level_costs level s l pt own p path va : 0 <= va < MAXVA -> vm_inv s l pt own -> own !! p = Some path -> (length path + level = 2)%nat ->
  wp (walk_level level p va true) (fun _ s' => costs (Z.of_nat level) l s') s.
Proof.
  intros Hva. revert s l own p path. induction level as [|lv IH]; intros s l own p path Hinv Hp Hlen; cbn [walk_level].
  - wp_simp. apply costs_same; [apply Hinv|lia].
  - unfold rd64 at 1. wp_simp. set (i := PX (S lv) va). set (v := ld64 (mmem s) (pte_addr p i)). pose proof (PX_range (S lv) va) as Hi. fold i in Hi. destruct (has_flag v PTE_V) eqn:Hv.
    + assert (own !! PTE2PA v = Some (path ++ [i])) as Hc by (apply (pt_step _ _ _ (vi_pt _ _ _ _ Hinv)); [done|lia|done|done]).
      eapply wp_mono; [eapply IH; [done|exact Hc|rewrite length_app; simpl; lia]|]. intros r s' Hs l' Hl'. specialize (Hs l' Hl'). lia.
    + cbn [negb]. wp_simp. eapply wp_mono; [apply kalloc_spec, Hinv|]. cbn beta. intros r s1. destruct l as [|q l].
      { intros [-> ->]. simpl. wp_simp. apply costs_same; [apply Hinv|lia]. }
      intros (-> & Hk1 & Hm1). pose proof (km_ok _ _ (vi_kmem _ _ _ _ Hinv)) as Hok. apply Forall_cons in Hok as [Hqok _]. pose proof (page_ok_pos _ Hqok). destruct (Z.eqb_spec q 0); [lia|].
      unfold mset, wr64. wp_simp. remember (set_mem _ (set_mem _ s1)) as s3 eqn:Es3.
      destruct (vm_grow s s1 s3 q l pt own p path i) as (Hinv3 & _); [done|done|lia|done| |done|done| |done|].
      { intros ->. cbn in Hlen. injection Hlen as ->. by apply PX_half. }
      { intros x Hx. rewrite Hm1. unfold in_page in Hx. zcases; done. }
      eapply wp_mono; [eapply (IH s3 l _ q (path ++ [i])); [exact Hinv3|by rewrite lookup_insert_eq|rewrite length_app; simpl; lia]|].
      intros r s' Hs l' Hl'. specialize (Hs l' Hl'). cbn [length]. lia.
Qed.

(** The tables that a range needs, given whether there is one for its start. *)
Definition has_slot (m : mem) (pt va : Z) : bool := bool_decide (is_Some (slot_at m 2 pt va)).
Definition REGION : Z := 2 ^ 21.
Definition tables (hit : bool) (va n : Z) : Z := 2 * ((va + n * PGSIZE - 1) / REGION - va / REGION + (if hit then 0 else 1)).

Lemma walk_counted s l pt own va : vm_inv s l pt own -> 0 <= va < MAXVA ->
  wp (walk pt va true) (fun r s' => walk_post s l pt own 2 pt va r s' /\ costs (if has_slot (mmem s) pt va then 0 else 2) l s') s.
Proof.
  intros Hinv Hva. apply wp_and; [apply walk_alloc; [done|lia]|]. unfold has_slot, walk. destruct (Z.leb_spec MAXVA va); [lia|]. destruct (slot_at (mmem s) 2 pt va) as [x|] eqn:Es.
  - eapply wp_of_ok; [by apply walk_level_hit|]. apply costs_same; [apply Hinv|]. by case_bool_decide.
  - rewrite bool_decide_eq_false_2 by (by intros [? ?]). by apply (walk_level_costs 2 s l pt own pt []); [| |apply (pt_root _ _ _ (vi_pt _ _ _ _ Hinv))|].
Qed.

Lemma map_one_costs s l pt own a pa perm : vm_inv s l pt own -> 0 <= a < MAXVA -> a mod PGSIZE = 0 -> has_flag (pte_of (mmem s) pt a) PTE_V = false ->
  wp (map_one pt a pa perm) (fun r s' => costs (if has_slot (mmem s) pt a then 0 else 2) l s' /\ (r = 0 -> has_slot (mmem s') pt a = true)) s.
Proof.
  intros Hinv Ha Hal Hun. unfold map_one. rewrite wp_bind. eapply wp_mono; [by apply (walk_counted s l pt own)|]. intros pte s1 [(own1 & l1 & _ & H1 & _ & _ & _ & _ & H5 & _ & H7) Hc]. destruct H7 as [[-> ->]|[Hpos Hslot]]; [simpl; wp_simp; done|].
  destruct (Z.eqb_spec pte 0); [lia|]. unfold rd64, wr64. wp_simp. assert (ld64 (mmem s1) pte = pte_of (mmem s) pt a) as -> by (rewrite <- H5; unfold pte_of; by rewrite pte_at_slot, Hslot).
  rewrite Hun. wp_simp. pose proof (vm_set_leaf s1 l1 pt own1 a pte (pte_val pa perm) H1 Hslot) as Hs. split.
  - eapply (costs_trans _ _ 0); [exact Hc|apply H1|apply costs_same; [apply Hs|lia]|lia].
  - intros _. unfold has_slot. apply bool_decide_eq_true_2. cbn [mmem set_mem]. destruct (slot_owned (mmem s1) pt own1 2 pt [] a pte) as (q & Hq & ->); [apply H1|apply (vi_pt _ _ _ _ H1)|done|done|].
    rewrite (pte_at_set_leaf (mmem s1) pt own1 q ([] ++ pxs 2 a) (PX 0 a) _ 2 pt []); [by rewrite Hslot|apply H1|done|done|apply PX_range|apply (vi_pt _ _ _ _ H1)|done].
Qed.

Lemma has_slot_region (m : mem) pt va va' : va / REGION = va' / REGION -> has_slot m pt va = has_slot m pt va'.
Proof.
  intros E. assert (P : forall k, (1 <= k)%nat -> (k <= 2)%nat -> PX k va = PX k va').
  { intros k K1 K2. rewrite !PX_eq. f_equal. unfold PXSHIFT. replace (12 + 9 * Z.of_nat k) with (21 + 9 * (Z.of_nat k - 1)) by lia. rewrite Z.pow_add_r by lia. rewrite <- !Z.div_div by lia. by change (2 ^ 21) with REGION; rewrite E. }
  unfold has_slot. apply bool_decide_ext. cbn [slot_at]. rewrite !(P 2%nat), !(P 1%nat) by lia. by repeat destruct (has_flag _ PTE_V).
Qed.

Lemma tables_step (hit : bool) va n : 0 <= va -> va mod PGSIZE = 0 -> 1 < n ->
  (if hit then 0 else 2) + tables (bool_decide (va / REGION = (va + PGSIZE) / REGION)) (va + PGSIZE) (n - 1) <= tables hit va n.
Proof.
  intros Hva Hal Hn. unfold tables. replace (va + PGSIZE + (n - 1) * PGSIZE - 1) with (va + n * PGSIZE - 1) by lia.
  assert (va / REGION <= (va + PGSIZE) / REGION) by (apply Z.div_le_mono; unfold PGSIZE; done || lia). case_bool_decide; destruct hit; lia.
Qed.
Lemma tables_pos (hit : bool) va n : 0 <= va -> 0 < n -> (if hit then 0 else 2) <= tables hit va n.
Proof. intros Hva Hn. unfold tables. assert (va / REGION <= (va + n * PGSIZE - 1) / REGION) by (apply Z.div_le_mono; unfold PGSIZE; done || lia). destruct hit; lia. Qed.

Lemma mappages_loop_costs n s l pt own va pa perm :
  (0 < n)%nat -> vm_inv s l pt own -> 0 <= va -> va + Z.of_nat n * PGSIZE <= MAXVA ->
  va mod PGSIZE = 0 -> 0 <= pa -> pa + Z.of_nat n * PGSIZE <= 2 ^ 56 -> 0 <= perm < 2 ^ 10 ->
  (forall va', va <= va' < va + Z.of_nat n * PGSIZE -> has_flag (pte_of (mmem s) pt va') PTE_V = false) ->
  wp (mappages_loop n pt va (va + (Z.of_nat n - 1) * PGSIZE) pa perm) (fun _ s' => costs (tables (has_slot (mmem s) pt va) va (Z.of_nat n)) l s') s.
Proof.
  intros Hn. revert s l own va pa Hn. induction n as [|n IH]; intros s l own va pa Hn Hinv Hva Hmax Hal Hpa Hpmax Hperm Hun; [lia|].
  pose proof (Nat2Z.is_nonneg n) as Hn0. rewrite Nat2Z.inj_succ in *. unfold Z.succ in *. assert (EP : PGSIZE = 4096) by done. assert (EM : MAXVA = 274877906944) by done.
  apply mappages_loop_S. pose proof (tables_pos (has_slot (mmem s) pt va) va (Z.of_nat n + 1) Hva ltac:(lia)) as Htp.
  eapply wp_mono; [apply wp_and; [apply (map_one_spec s l pt own va pa perm)|apply (map_one_costs s l pt own)]; try done; try lia; apply Hun; lia|].
  intros r s1 [(own1 & l1 & k & _ & H1 & H2 & H3 & H4 & H5 & H6 & H7) [Hc Hs]]. assert (Hweak : costs (tables (has_slot (mmem s) pt va) va (Z.of_nat n + 1)) l s1) by (intros l' Hl'; specialize (Hc l' Hl'); lia).
  destruct H7 as [[-> ->]|(-> & Hk & ->)]; simpl; [|exact Hweak]. destruct n as [|n']; [rewrite (proj2 (Z.eqb_eq _ _)) by lia; exact Hweak|].
  rewrite (proj2 (Z.eqb_neq _ _)) by lia. rewrite !u64_small by lia. replace (va + (Z.of_nat (S n') + 1 - 1) * PGSIZE) with ((va + PGSIZE) + (Z.of_nat (S n') - 1) * PGSIZE) by lia.
  eapply wp_mono; [apply (IH s1 l1 own1); try done; try lia|].
  - rewrite <- (Z.mul_1_l PGSIZE) at 1. by rewrite Z_mod_plus_full.
  - intros va' Hva'. rewrite (H6 va') by lia. rewrite (proj2 (Z.ltb_ge va' _)), andb_false_r by lia. apply Hun. lia.
  - intros r s2 Hc2. eapply costs_trans; [exact Hc|apply H1|exact Hc2|]. pose proof (tables_step (has_slot (mmem s) pt va) va (Z.of_nat (S n') + 1) Hva Hal ltac:(lia)) as Hst. replace (Z.of_nat (S n') + 1 - 1) with (Z.of_nat (S n')) in Hst by lia.
    assert (Ht : tables (has_slot (mmem s1) pt (va + PGSIZE)) (va + PGSIZE) (Z.of_nat (S n')) <= tables (bool_decide (va / REGION = (va + PGSIZE) / REGION)) (va + PGSIZE) (Z.of_nat (S n'))); [|lia].
    case_bool_decide as E; [rewrite <- (has_slot_region _ _ _ _ E), (Hs eq_refl); lia|]. unfold tables. destruct (has_slot (mmem s1) pt (va + PGSIZE)); lia.
Qed.

(** * Regions *)

Record region := Rg { rg_va : Z; rg_pa : Z; rg_sz : Z; rg_perm : Z }.
Definition in_region (r : region) (va : Z) : Prop := rg_va r <= va < rg_va r + rg_sz r.
Definition rg_pte (r : region) (va : Z) : Z := pte_val (rg_pa r + (va - rg_va r) / PGSIZE * PGSIZE) (rg_perm r).
Definition rg_ok (r : region) : Prop :=
  (0 <= rg_va r /\ rg_va r mod PGSIZE = 0 /\ rg_va r + rg_sz r <= MAXVA) /\ (0 < rg_sz r /\ rg_sz r mod PGSIZE = 0) /\ (0 <= rg_pa r /\ rg_pa r mod PGSIZE = 0 /\ rg_pa r + rg_sz r <= 2 ^ 56) /\ 0 <= rg_perm r < 2 ^ 10.
Definition rg_tables (r : region) : Z := 2 * ((rg_va r + rg_sz r - 1) / REGION - rg_va r / REGION + 1).

(** The page table maps exactly the regions [rs]. *)
Definition maps_exactly (m : mem) (pt : Z) (rs : list region) : Prop :=
  (forall r va, r ∈ rs -> in_region r va -> pte_of m pt va = rg_pte r va) /\
  (forall va, 0 <= va < MAXVA -> (forall r, r ∈ rs -> ~ in_region r va) -> pte_of m pt va = 0).

Definition kvmmap_post (s : mach) (l : list Z) (pt : Z) (own : gmap Z (list Z)) (rs : list region) (c : Z) (s' : mach) : Prop :=
  exists own' l', vm_inv s' l' pt own' /\ maps_exactly (mmem s') pt rs /\ from_free own own' l /\ l' `suffix_of` l /\ Z.of_nat (length l) <= Z.of_nat (length l') + c.

Lemma kvmmap_spec s l pt own rs r : vm_inv s l pt own -> maps_exactly (mmem s) pt rs -> rg_ok r -> Forall rg_ok rs ->
  (forall r' va, r' ∈ rs -> in_region r' va -> ~ in_region r va) -> rg_tables r < Z.of_nat (length l) ->
  wp (kvmmap pt (rg_va r) (rg_pa r) (rg_sz r) (rg_perm r)) (fun _ s' => kvmmap_post s l pt own (r :: rs) (rg_tables r) s') s.
Proof.
  intros Hinv [He Hz] ((V1 & V2 & V3) & (S1 & S2) & (P1 & P2 & P3) & Hp) Hok Hdis Hlen. unfold kvmmap, mappages. rewrite V2, S2. simpl. destruct (Z.eqb_spec (rg_sz r) 0) as [|_]; [lia|]. destruct r as [va pa sz perm]. cbn [rg_va rg_pa rg_sz rg_perm] in *.
  apply page_aligned_ex in S2 as [n ->]. assert (EP : PGSIZE = 4096) by done. assert (EM : MAXVA = 274877906944) by done. assert (0 < n) by lia.
  assert (Hun : forall va', va <= va' < va + n * PGSIZE -> pte_of (mmem s) pt va' = 0).
  { intros va' Hva'. apply Hz; [lia|]. intros r' Hr' Hin. apply (Hdis r' va' Hr' Hin). unfold in_region. cbn. lia. }
  rewrite u64_small by lia. rewrite (Z.mul_comm PGSIZE), Z.div_mul by done. rewrite wp_bind. replace (va + n * PGSIZE - PGSIZE) with (va + (Z.of_nat (Z.to_nat n) - 1) * PGSIZE) by (rewrite Z2Nat.id; lia).
  eapply wp_mono; [apply wp_and; [apply (mappages_loop_spec (Z.to_nat n) s l pt own)|apply (mappages_loop_costs (Z.to_nat n) s l pt own)]; try done; rewrite ?Z2Nat.id by lia; try lia; intros va' Hva'; rewrite Hun by lia; apply has_flag_0|].
  intros r s' [(own' & l' & k & _ & H1 & H2 & H3 & H4 & H5 & H6 & H7) Hc]. rewrite Z2Nat.id in H7, Hc by lia. specialize (Hc l' (vi_kmem _ _ _ _ H1)). unfold rg_tables, tables in *. cbn [rg_va rg_sz] in *. rewrite (Z.mul_comm PGSIZE) in *.
  assert (Hc' : Z.of_nat (length l) <= Z.of_nat (length l') + 2 * ((va + n * PGSIZE - 1) / REGION - va / REGION + 1)) by (destruct (has_slot _ _ _); lia).
  destruct H7 as [[-> ->]|(_ & _ & ->)]; [|cbn in Hc'; lia]. simpl. wp_simp. exists own', l'. split_and!; try done. split.
  - intros r' va' Hr' Hin. apply elem_of_cons in Hr' as [->|Hr'].
    + unfold in_region in Hin. cbn in Hin. rewrite (H6 va') by lia. zcases; done.
    + assert (Hr2 : rg_ok r') by (rewrite Forall_forall in Hok; by apply Hok). destruct Hr2 as ((W1 & _ & W3) & _). pose proof (Hdis r' va' Hr' Hin) as Hn. pose proof Hin as Hin'. unfold in_region in Hn, Hin'. cbn in Hn. rewrite (H6 va') by lia. rewrite (He r' va' Hr' Hin). zcases; lia || done.
  - intros va' Hva' Hn. rewrite (H6 va') by lia. pose proof (Hn (Rg va pa (n * PGSIZE) perm) ltac:(left)) as Hn1. unfold in_region in Hn1. cbn in Hn1. zcases; try (exfalso; lia); (apply Hz; [lia|]); intros r' Hr'; apply Hn; by right.
Qed.

Lemma maps_exactly_ext m pt rs rs' : (forall r, r ∈ rs <-> r ∈ rs') -> maps_exactly m pt rs -> maps_exactly m pt rs'.
Proof. intros E [H1 H2]. split; [intros r va Hr; apply H1; by apply E|]. intros va Hva Hn. apply H2; [done|]. intros r Hr. apply Hn. by apply E. Qed.

(** * Kernel stacks *)

Definition RW : Z := Z.lor PTE_R PTE_W.
Definition RX : Z := Z.lor PTE_R PTE_X.
Definition stack_region (i pa : Z) : region := Rg (Vm.KSTACK i) pa PGSIZE RW.
Definition stack_regions (i : Z) (stk : list Z) : list region := imap (fun k pa => stack_region (i + Z.of_nat k) pa) stk.

Lemma stack_regions_cons i pa stk : stack_regions i (pa :: stk) = stack_region i pa :: stack_regions (i + 1) stk.
Proof. unfold stack_regions. rewrite imap_cons. f_equal; [f_equal; lia|]. apply imap_ext. intros k x _. unfold compose. f_equal. lia. Qed.
Lemma stack_region_ok i pa : 0 <= i < 64 -> page_ok pa -> rg_ok (stack_region i pa).
Proof.
  intros Hi [Hal Hp]. pose proof kend_range. destruct etext_range. unfold rg_ok, stack_region, Vm.KSTACK, TRAMPOLINE, RW, PTE_R, PTE_W, PHYSTOP, KERNBASE in *. cbn [rg_va rg_pa rg_sz rg_perm]. assert (EP : PGSIZE = 4096) by done. assert (EM : MAXVA = 67108864 * PGSIZE) by done.
  split_and!; try done; try lia. rewrite EM. replace (67108864 * PGSIZE - PGSIZE - (i + 1) * 2 * PGSIZE) with ((67108863 - (i + 1) * 2) * PGSIZE) by lia. by apply Z.mod_mul.
Qed.
Lemma stack_region_tables i pa : rg_tables (stack_region i pa) <= 2.
Proof.
  unfold rg_tables, stack_region, Vm.KSTACK, TRAMPOLINE, REGION. cbn [rg_va rg_sz]. assert (EP : PGSIZE = 4096) by done. assert (EM : MAXVA = 274877906944) by done. rewrite EP, EM. change (2 ^ 21) with 2097152.
  set (v := 274877906944 - 4096 - (i + 1) * 2 * 4096). assert (Hv : v mod 4096 = 0) by (unfold v; replace (274877906944 - 4096 - (i + 1) * 2 * 4096) with ((67108863 - (i + 1) * 2) * 4096) by lia; by apply Z.mod_mul). clearbody v. Z.to_euclidean_division_equations. lia.
Qed.
Lemma stack_region_disj i j pa pa' va : in_region (stack_region i pa) va -> in_region (stack_region j pa') va -> i = j.
Proof. unfold in_region, stack_region, Vm.KSTACK. cbn. unfold PGSIZE. lia. Qed.

Lemma vm_take s p l pt own s' : vm_inv s (p :: l) pt own -> kmem_inv s' l -> (forall x, ~ in_page p x -> ld8 (mmem s') x = ld8 (mmem s) x) ->
  vm_inv s' l pt own /\ page_ok p /\ own !! p = None /\ (p ∉ l) /\ forall va, pte_of (mmem s') pt va = pte_of (mmem s) pt va.
Proof.
  intros Hinv Hk Hx. assert (Ha : as_inv s (p :: l) pt own ∅) by (split; done). destruct (as_take _ _ _ _ _ _ _ Ha Hk Hx) as (A1 & (A2 & A3 & A4 & _) & A5). split_and!; try done. apply A1.
Qed.
Lemma elem_suffix (x : Z) l' l : l' `suffix_of` l -> x ∈ l' -> x ∈ l.
Proof. intros [k ->] H. apply elem_of_app. by right. Qed.

Lemma mapstacks_loop_spec n i s l pt own rs : vm_inv s l pt own -> maps_exactly (mmem s) pt rs -> Forall rg_ok rs -> 0 <= i -> i + Z.of_nat n <= 64 ->
  (forall r va j pa, r ∈ rs -> in_region r va -> i <= j < 64 -> ~ in_region (stack_region j pa) va) -> 3 * Z.of_nat n < Z.of_nat (length l) ->
  wp (proc_mapstacks_loop n i pt) (fun _ s' => exists own' l' stk, length stk = n /\ NoDup stk /\ (forall p, p ∈ stk -> p ∈ l /\ page_ok p /\ own' !! p = None /\ (p ∉ l')) /\
    vm_inv s' l' pt own' /\ maps_exactly (mmem s') pt (stack_regions i stk ++ rs) /\ from_free own own' l /\ l' `suffix_of` l /\
    Z.of_nat (length l) <= Z.of_nat (length l') + 3 * Z.of_nat n) s.
Proof.
  revert i s l own rs. induction n as [|n IH]; intros i s l own rs Hinv Hm Hok Hi Hn Hdis Hlen; cbn [proc_mapstacks_loop].
  { wp_simp. exists own, l, []. split_and!; try done; [apply NoDup_nil_2|by intros ? ?%not_elem_of_nil|by left|lia]. }
  wp_simp. eapply wp_mono; [apply kalloc_spec, Hinv|]. cbn beta. intros pa s1. destruct l as [|p l]; [cbn in Hlen; lia|]. intros (-> & Hk & Hx).
  destruct (vm_take s p l pt own s1) as (V1 & Hp & V2 & V3 & V4); [done|done|intros x Hnx; rewrite Hx; unfold in_page in Hnx; zcases; done|]. pose proof (page_ok_pos p Hp). destruct (Z.eqb_spec p 0); [lia|]. wp_simp.
  assert (Hm1 : maps_exactly (mmem s1) pt rs) by (destruct Hm as [M1 M2]; split; [intros r va Hr Hv; rewrite V4; by apply M1|intros va Hva Hv; rewrite V4; by apply M2]).
  pose proof (stack_region_tables i p) as Ht. pose proof (stack_region_ok i p ltac:(lia) Hp) as Hrok. cbn [length] in Hlen.
  eapply wp_mono; [apply (kvmmap_spec s1 l pt own rs (stack_region i p)); [done|done|done|done| |lia]|].
  { intros r' va Hr' Hin. by apply (Hdis r' va); [| |lia]. }
  intros [] s2 (own2 & l2 & W1 & W2 & W3 & W4 & W5). eapply wp_mono; [apply (IH (i + 1) s2 l2 own2 (stack_region i p :: rs)); [done|done|by apply Forall_cons|lia|lia| |lia]|].
  { intros r va j pa Hr Hin Hj Hin2. apply elem_of_cons in Hr as [->|Hr]; [|by apply (Hdis r va j pa); [| |lia|]]. pose proof (stack_region_disj _ _ _ _ _ Hin Hin2). lia. }
  intros [] s3 (own3 & l3 & stk & X1 & X2 & X3 & X4 & X5 & X6 & X7 & X8). exists own3, l3, (p :: stk). assert (Hp2 : p ∉ l2) by (intros Hin; apply V3; by eapply elem_suffix). split_and!; try done.
  - cbn. lia.
  - apply NoDup_cons. split; [|done]. intros Hin. by apply Hp2, X3.
  - intros q Hq. apply elem_of_cons in Hq as [->|Hq]; [|destruct (X3 q Hq) as (Y1 & Y2); split; [right; by eapply elem_suffix|done]]. split_and!; [left|done| |intros Hin; apply Hp2; by eapply elem_suffix].
    destruct (own3 !! p) as [path|] eqn:E; [|done]. destruct (X6 _ _ E) as [E2|E2]; [|done]. destruct (W3 _ _ E2) as [E3|E3]; [congruence|done].
  - rewrite stack_regions_cons. eapply maps_exactly_ext; [|exact X5]. intros r. rewrite !elem_of_app, !elem_of_cons. tauto.
  - intros q path Hq. destruct (X6 _ _ Hq) as [Hq'|Hq']; [destruct (W3 _ _ Hq') as [|]; [by left|right; by right]|right; right; by eapply elem_suffix].
  - etrans; [done|]. etrans; [done|]. by exists [p].
  - cbn [length]. lia.
Qed.

(** * The whole table *)

Definition direct_regions : list region :=
  [Rg TRAMPOLINE trampoline PGSIZE RX; Rg etext etext (PHYSTOP - etext) RW; Rg KERNBASE KERNBASE (etext - KERNBASE) RX;
   Rg PLIC PLIC 0x4000000 RW; Rg VIRTIO0 VIRTIO0 PGSIZE RW; Rg UART0 UART0 PGSIZE RW].
Definition kernel_regions (stk : list Z) : list region := stack_regions 0 stk ++ direct_regions.

Lemma layout_facts : (KERNBASE < etext /\ etext <= kend /\ kend < PHYSTOP) /\ (etext mod PGSIZE = 0 /\ trampoline mod PGSIZE = 0) /\ KERNBASE <= trampoline < etext.
Proof. pose proof etext_range. pose proof kend_range. pose proof etext_aligned. pose proof trampoline_aligned. pose proof trampoline_range. tauto. Qed.
Lemma direct_ok : Forall rg_ok direct_regions.
Proof.
  pose proof layout_facts as ((E1 & E2 & E3) & (A1 & A2) & T1). assert (EP : PGSIZE = 4096) by done. assert (EM : MAXVA = 274877906944) by done.
  assert (D1 : (PHYSTOP - etext) mod PGSIZE = 0) by (rewrite Zminus_mod, A1; done). assert (D2 : (etext - KERNBASE) mod PGSIZE = 0) by (rewrite Zminus_mod, A1; done).
  unfold direct_regions, rg_ok, TRAMPOLINE, PHYSTOP, KERNBASE, PLIC, VIRTIO0, UART0, RX, RW, PTE_R, PTE_W, PTE_X in *. repeat constructor; cbn [rg_va rg_pa rg_sz rg_perm]; try done; lia.
Qed.
Lemma direct_disj r va j pa : r ∈ direct_regions -> in_region r va -> 0 <= j < 64 -> ~ in_region (stack_region j pa) va.
Proof.
  pose proof layout_facts as ((E1 & E2 & E3) & _). unfold direct_regions. rewrite !elem_of_cons. unfold in_region, stack_region, Vm.KSTACK, TRAMPOLINE, PHYSTOP, KERNBASE, PLIC, VIRTIO0, UART0 in *. assert (EP : PGSIZE = 4096) by done. assert (EM : MAXVA = 274877906944) by done.
  intros [->|[->|[->|[->|[->|[->|Hn]]]]]]; cbn [rg_va rg_sz]; try lia. by apply not_elem_of_nil in Hn.
Qed.

(** Mapping one of the direct regions, the others of the list done. *)
Lemma kvmmap_direct s l pt own r rs c : vm_inv s l pt own -> maps_exactly (mmem s) pt rs -> r :: rs `suffix_of` direct_regions -> rg_tables r <= c -> c < Z.of_nat (length l) ->
  (forall r' va, r' ∈ rs -> in_region r' va -> ~ in_region r va) ->
  wp (kvmmap pt (rg_va r) (rg_pa r) (rg_sz r) (rg_perm r)) (fun _ s' => kvmmap_post s l pt own (r :: rs) c s') s.
Proof.
  intros Hinv Hm [k Hs] Hc Hlen Hdis. pose proof direct_ok as Hok. rewrite Hs in Hok. apply Forall_app in Hok as [_ Hok]. apply Forall_cons in Hok as [Hr Hok].
  eapply wp_mono; [apply (kvmmap_spec s l pt own rs r); try done; lia|]. intros [] s' (own' & l' & W1 & W2 & W3 & W4 & W5). exists own', l'. split_and!; try done. lia.
Qed.
Lemma direct_rest_disj r rs r' va : r :: rs `suffix_of` direct_regions -> r' ∈ rs -> in_region r' va -> ~ in_region r va.
Proof.
  pose proof layout_facts as ((E1 & E2 & E3) & _). assert (EP : PGSIZE = 4096) by done. assert (EM : MAXVA = 274877906944) by done. unfold direct_regions. intros [k Hk].
  do 6 (destruct k as [|? k]; [injection Hk as <- <-; rewrite ?elem_of_cons; unfold in_region, TRAMPOLINE, PHYSTOP, KERNBASE, PLIC, VIRTIO0, UART0 in *; intros Hin; repeat destruct Hin as [->|Hin]; try (by apply not_elem_of_nil in Hin); cbn [rg_va rg_sz]; lia|injection Hk as _ Hk]). by destruct k.
Qed.

(** The table so far, made of pages of [l0], and at least [b] pages left. *)
Definition building (l0 : list Z) (pt : Z) (rs : list region) (b : Z) (s : mach) : Prop := exists own l,
  vm_inv s l pt own /\ maps_exactly (mmem s) pt rs /\ (forall p path, own !! p = Some path -> p ∈ l0) /\ l `suffix_of` l0 /\ b <= Z.of_nat (length l).

Lemma kvmmap_building l0 pt va pa sz perm rs c b s (Q : unit -> mach -> Prop) : building l0 pt rs b s -> Rg va pa sz perm :: rs `suffix_of` direct_regions -> rg_tables (Rg va pa sz perm) <= c -> c < b ->
  (forall s', building l0 pt (Rg va pa sz perm :: rs) (b - c) s' -> Q tt s') -> wp (kvmmap pt va pa sz perm) Q s.
Proof.
  intros B Hs Hc Hb HQ. set (r := Rg va pa sz perm) in *. assert (H : wp (kvmmap pt (rg_va r) (rg_pa r) (rg_sz r) (rg_perm r)) (fun _ s' => building l0 pt (r :: rs) (b - c) s') s); [|eapply wp_mono; [exact H|]; intros [] s'; apply HQ]. clear HQ. destruct B as (own & l & H1 & H2 & H3 & H4 & H5). eapply wp_mono; [apply (kvmmap_direct s l pt own r rs c); try done; [lia|intros r' va'; by eapply direct_rest_disj]|].
  intros [] s' (own' & l' & W1 & W2 & W3 & W4 & W5). exists own', l'. split_and!; try done; [|by etrans|lia]. intros p path Hp. destruct (W3 _ _ Hp); [by eapply H3|by eapply elem_suffix].
Qed.

Lemma kalloc_root s l : kmem_inv s l -> 1 <= Z.of_nat (length l) -> wp (let! pt := kalloc in mset pt 0 PGSIZE ;; ret pt) (fun pt s' => building l pt [] (Z.of_nat (length l) - 1) s') s.
Proof.
  intros Hk Hl. wp_simp. eapply wp_mono; [by apply kalloc_spec|]. cbn beta. intros pt s1. destruct l as [|p l]; [cbn in Hl; lia|]. intros (-> & Hk1 & Hx). unfold mset. wp_simp.
  pose proof (km_ok _ _ Hk) as Hok. apply Forall_cons in Hok as [Hp _]. pose proof (km_nodup _ _ Hk) as Hnd. apply NoDup_cons in Hnd as [Hpl _].
  set (s2 := set_mem _ s1). assert (Hz : forall x, in_page p x -> ld8 (mmem s2) x = 0) by (intros x Hin; cbn; rewrite memset_spec by done; unfold in_page in Hin; zcases; done).
  assert (Hk2 : kmem_inv s2 l) by (apply (kmem_inv_page _ _ p); [done|done|done|intros m x; apply memset_page]). pose proof (empty_as s2 l p Hk2 Hp Hpl Hz) as Ha.
  exists {[p := []]}, l. split_and!; [apply Ha| | |by exists [p]|cbn [length]; lia].
  - split; [by intros r va ?%not_elem_of_nil|]. intros va _ _. by apply empty_pte.
  - intros q path [<- <-]%lookup_singleton_Some. left.
Qed.

Definition boot_pages : Z := 400.
Definition kernel_map (l : list Z) (pt : Z) (s' : mach) : Prop := exists own' l' stk,
  vm_inv s' l' pt own' /\ (forall p path, own' !! p = Some path -> p ∈ l) /\ l' `suffix_of` l /\ Z.of_nat (length l) <= Z.of_nat (length l') + boot_pages /\
  (length stk = NPROC /\ NoDup stk /\ forall p, p ∈ stk -> page_ok p /\ own' !! p = None /\ (p ∉ l')) /\ maps_exactly (mmem s') pt (kernel_regions stk).

Lemma mapstacks_building l0 pt b s : building l0 pt direct_regions b s -> 192 < b -> Z.of_nat (length l0) <= b + 208 -> wp (proc_mapstacks pt) (fun _ s' => kernel_map l0 pt s') s.
Proof.
  intros (own & l & H1 & H2 & H3 & H4 & H5) Hb Hl0. unfold proc_mapstacks. eapply wp_mono; [apply (mapstacks_loop_spec NPROC 0 s l pt own direct_regions); try done; [apply direct_ok|intros r va j pa; apply direct_disj|change (Z.of_nat NPROC) with 64; lia]|].
  intros [] s' (own' & l' & stk & X1 & X2 & X3 & X4 & X5 & X6 & X7 & X8). exists own', l', stk. split; [done|]. split; [intros p path Hp; destruct (X6 _ _ Hp); [by eapply H3|by eapply elem_suffix]|]. split; [by etrans|]. split; [change (Z.of_nat NPROC) with 64 in X8; unfold boot_pages; lia|]. split; [|done]. split_and!; try done. intros p Hp. by destruct (X3 p Hp) as (_ & ?).
Qed.

Lemma kvmmake_spec s l : kmem_inv s l -> boot_pages <= Z.of_nat (length l) -> wp kvmmake (fun pt s' => kernel_map l pt s') s.
Proof.
  intros Hk Hl. unfold boot_pages in Hl. pose proof layout_facts as ((E1 & E2 & E3) & _). unfold kvmmake. pose proof (kalloc_root s l Hk ltac:(lia)) as Hroot. rewrite wp_bind in Hroot |- *. eapply wp_mono; [exact Hroot|]. clear Hroot. intros pt s1. cbn beta. rewrite !wp_bind. unfold mset. rewrite !wp_modify, wp_ret. intros B0.
  rewrite !u64_small by (unfold PHYSTOP, KERNBASE in *; lia). set (q := etext / REGION).
  assert (Hq1 : (etext - 1) / REGION <= q) by (apply Z.div_le_mono; [done|lia]). assert (Hq2 : 1024 <= q <= 1088) by (unfold q, REGION, PHYSTOP, KERNBASE in *; split; [apply Z.div_le_lower_bound; lia|apply Z.div_le_upper_bound; lia]).
  rewrite wp_bind. apply (kvmmap_building l pt UART0 UART0 PGSIZE RW [] 2 _ _ _ B0); [by exists (take 5 direct_regions)|done|lia|]. clear B0. intros s2 B1.
  rewrite wp_bind. apply (kvmmap_building l pt VIRTIO0 VIRTIO0 PGSIZE RW _ 2 _ _ _ B1); [by exists (take 4 direct_regions)|done|lia|]. clear B1. intros s3 B2.
  rewrite wp_bind. apply (kvmmap_building l pt PLIC PLIC 0x4000000 RW _ 64 _ _ _ B2); [by exists (take 3 direct_regions)|done|lia|]. clear B2. intros s4 B3.
  rewrite wp_bind. apply (kvmmap_building l pt KERNBASE KERNBASE (etext - KERNBASE) RX _ (2 * (q - 1023)) _ _ _ B3); [by exists (take 2 direct_regions)| |lia|].
  { unfold rg_tables. cbn [rg_va rg_sz]. replace (KERNBASE + (etext - KERNBASE) - 1) with (etext - 1) by lia. change (KERNBASE / REGION) with 1024. lia. }
  clear B3. intros s5 B4. rewrite wp_bind. apply (kvmmap_building l pt etext etext (PHYSTOP - etext) RW _ (2 * (1088 - q)) _ _ _ B4); [by exists (take 1 direct_regions)| |lia|].
  { unfold rg_tables. cbn [rg_va rg_sz]. replace (etext + (PHYSTOP - etext) - 1) with (PHYSTOP - 1) by lia. change ((PHYSTOP - 1) / REGION) with 1087. fold q. lia. }
  clear B4. intros s6 B5. rewrite wp_bind. apply (kvmmap_building l pt TRAMPOLINE trampoline PGSIZE RX _ 2 _ _ _ B5); [by exists []|done|lia|]. clear B5. intros s7 B6.
  rewrite wp_bind. eapply wp_mono; [eapply (mapstacks_building l pt _ _ B6); lia|]. intros [] s8 B7. by rewrite wp_ret.
Qed.

(** * Protection *)

#[global] Instance in_region_dec r va : Decision (in_region r va).
Proof. unfold in_region. apply _. Defined.

Lemma pte_val_bit pa perm k : 0 <= pa < 2 ^ 56 -> 0 < k < 10 -> Z.testbit (pte_val pa perm) k = Z.testbit perm k.
Proof.
  intros Hpa Hk. unfold pte_val, PTE_V. rewrite !Z.lor_spec, PA2PTE_eq by done. rewrite Z.shiftl_spec_low by lia. change 1 with (2 ^ 0). rewrite Z.pow2_bits_false by lia. by rewrite orb_false_r.
Qed.
Lemma rg_pa_in r va : rg_ok r -> in_region r va -> let pa := rg_pa r + (va - rg_va r) / PGSIZE * PGSIZE in rg_pa r <= pa < rg_pa r + rg_sz r /\ 0 <= pa < 2 ^ 56 /\ pa mod PGSIZE = 0 /\ PTE2PA (rg_pte r va) = pa.
Proof.
  intros (_ & (S1 & S2) & (P1 & P2 & P3) & Hp) Hin pa. unfold in_region in Hin. apply page_aligned_ex in S2 as [n S2]. assert (EP : PGSIZE = 4096) by done.
  pose proof (Z.div_mod (va - rg_va r) PGSIZE ltac:(done)) as Hd. pose proof (Z.mod_pos_bound (va - rg_va r) PGSIZE ltac:(done)) as Hm. assert (Hal : pa mod PGSIZE = 0) by (unfold pa; by rewrite Z_mod_plus_full).
  assert (Hr : rg_pa r <= pa < rg_pa r + rg_sz r) by (unfold pa; lia). split; [done|]. split; [lia|]. split; [done|]. unfold rg_pte, pte_val. fold pa. rewrite <- Z.lor_assoc. apply PTE2PA_lor; [lia|done|]. apply lor_range; unfold PTE_V; lia.
Qed.

Lemma kernel_region_cases stk r : (forall p, p ∈ stk -> page_ok p) -> length stk = NPROC -> r ∈ kernel_regions stk ->
  rg_ok r /\ ((rg_perm r = RX /\ KERNBASE <= rg_pa r /\ rg_pa r + rg_sz r <= etext) \/ (rg_perm r = RW /\ (rg_pa r + rg_sz r <= KERNBASE \/ etext <= rg_pa r))).
Proof.
  intros Hstk Hlen. pose proof layout_facts as ((E1 & E2 & E3) & (A1 & A2) & T1). unfold kernel_regions. rewrite elem_of_app. intros [Hr|Hr].
  - unfold stack_regions in Hr. apply elem_of_lookup_imap in Hr as (k & pa & -> & Hk). pose proof (lookup_lt_Some _ _ _ Hk) as Hlt. rewrite Hlen in Hlt. unfold NPROC in Hlt. assert (Hp : page_ok pa) by (apply Hstk; by eapply list_elem_of_lookup_2). split; [apply stack_region_ok; [lia|done]|].
    right. split; [done|]. right. destruct Hp as [_ [Hp _]]. cbn. lia.
  - pose proof direct_ok as Hok. rewrite Forall_forall in Hok. split; [by apply Hok|]. unfold direct_regions in Hr. rewrite !elem_of_cons in Hr. assert (EP : PGSIZE = 4096) by done.
    apply page_aligned_ex in A1 as [a A1]. apply page_aligned_ex in A2 as [b A2].
    destruct Hr as [->|[->|[->|[->|[->|[->|Hn]]]]]]; cbn [rg_perm rg_pa rg_sz]; unfold PLIC, VIRTIO0, UART0, KERNBASE in *; try (left; split; [done|lia]); try (right; split; [done|lia]). by apply not_elem_of_nil in Hn.
Qed.

Record protected (m : mem) (pt : Z) : Prop := {
  (** the pages below and above each stack are not mapped *)
  pr_guard i va : 0 <= i < 64 -> Vm.KSTACK i - PGSIZE <= va < Vm.KSTACK i \/ Vm.KSTACK i + PGSIZE <= va < Vm.KSTACK i + 2 * PGSIZE /\ 0 < i -> pte_of m pt va = 0;
  (** no page of memory can both be written and executed *)
  pr_wx va va' : 0 <= va < MAXVA -> 0 <= va' < MAXVA -> has_flag (pte_of m pt va) PTE_X = true -> has_flag (pte_of m pt va') PTE_W = true -> PTE2PA (pte_of m pt va) <> PTE2PA (pte_of m pt va');
  (** user mode has access to nothing *)
  pr_user va : 0 <= va < MAXVA -> has_flag (pte_of m pt va) PTE_U = false
}.

Lemma exactly_cases m pt rs va : maps_exactly m pt rs -> 0 <= va < MAXVA -> pte_of m pt va = 0 \/ exists r, r ∈ rs /\ in_region r va /\ pte_of m pt va = rg_pte r va.
Proof.
  intros [H1 H2] Hva. destruct (decide (Exists (fun r => in_region r va) rs)) as [He|He].
  - apply Exists_exists in He as (r & Hr & Hin). right. exists r. auto.
  - left. apply H2; [done|]. intros r Hr Hin. apply He, Exists_exists. eauto.
Qed.

Lemma kernel_map_protected l pt s : kernel_map l pt s -> protected (mmem s) pt.
Proof.
  intros (own & l' & stk & _ & _ & _ & _ & (Hlen & _ & Hstk) & Hm). assert (Hst : forall p, p ∈ stk -> page_ok p) by (intros p Hp; by apply Hstk). pose proof layout_facts as ((E1 & E2 & E3) & _). assert (EP : PGSIZE = 4096) by done. assert (EM : MAXVA = 274877906944) by done.
  assert (Hflag : forall va k, 0 <= va < MAXVA -> 0 < k < 10 -> Z.testbit (pte_of (mmem s) pt va) k = true -> exists r, r ∈ kernel_regions stk /\ in_region r va /\ rg_ok r /\ Z.testbit (rg_perm r) k = true /\ pte_of (mmem s) pt va = rg_pte r va).
  { intros va k Hva Hk Hb. destruct (exactly_cases _ _ _ va Hm Hva) as [E|(r & Hr & Hin & E)]; [by rewrite E, Z.testbit_0_l in Hb|]. destruct (kernel_region_cases stk r Hst Hlen Hr) as [Hok _]. exists r. split_and!; try done. rewrite E in Hb. destruct (rg_pa_in r va Hok Hin) as (_ & Hp & _). unfold rg_pte in Hb. by rewrite pte_val_bit in Hb. }
  split.
  - intros i va Hi Hg. apply (proj2 Hm); [unfold Vm.KSTACK, TRAMPOLINE in Hg; lia|]. intros r Hr Hin. unfold kernel_regions in Hr. apply elem_of_app in Hr as [Hr|Hr].
    + apply elem_of_lookup_imap in Hr as (k & pa & -> & _). unfold in_region, stack_region, Vm.KSTACK in *. cbn in Hin. lia.
    + unfold direct_regions in Hr. rewrite !elem_of_cons in Hr. unfold in_region, Vm.KSTACK, TRAMPOLINE, PHYSTOP, KERNBASE, PLIC, VIRTIO0, UART0 in *. destruct Hr as [->|[->|[->|[->|[->|[->|Hn]]]]]]; cbn [rg_va rg_sz] in *; try lia. by apply not_elem_of_nil in Hn.
  - intros va va' Hva Hva' Hx Hw Heq. change PTE_X with (2 ^ 3) in Hx. rewrite has_flag_testbit in Hx by lia. rewrite has_flag_W in Hw.
    destruct (Hflag va 3 Hva ltac:(lia) Hx) as (r & Hr & Hin & Hok & Hb & E). destruct (Hflag va' 2 Hva' ltac:(lia) Hw) as (r' & Hr' & Hin' & Hok' & Hb' & E').
    destruct (rg_pa_in r va Hok Hin) as (P1 & _ & _ & P2). destruct (rg_pa_in r' va' Hok' Hin') as (P1' & _ & _ & P2'). rewrite E, E', P2, P2' in Heq. rewrite Heq in P1.
    destruct (kernel_region_cases stk r Hst Hlen Hr) as [_ [(Q1 & Q2)|(Q1 & _)]]; [|by rewrite Q1 in Hb]. destruct (kernel_region_cases stk r' Hst Hlen Hr') as [_ [(Q1' & _)|(_ & Q2')]]; [by rewrite Q1' in Hb'|]. lia.
  - intros va Hva. rewrite has_flag_U. destruct (Z.testbit (pte_of (mmem s) pt va) 4) eqn:Hb; [|done]. destruct (Hflag va 4 Hva ltac:(lia) Hb) as (r & Hr & _ & _ & Hb' & _).
    destruct (kernel_region_cases stk r Hst Hlen Hr) as [_ [(Q1 & _)|(Q1 & _)]]; by rewrite Q1 in Hb'.
Qed.
End count.

(** * Properties *)

Lemma many_pages `{L : Layout} `{!LayoutOk L} n l : 0 <= n -> NoDup l -> (forall p, p ∈ l <-> page_ok p) -> kend + (n + 1) * PGSIZE <= PHYSTOP -> n <= Z.of_nat (length l).
Proof.
  intros Hn0 Hnd Hl Hk. pose proof layout_facts as ((E1 & E2 & _) & _). set (k0 := kend / PGSIZE + 1). pose proof (Z.div_mod kend PGSIZE ltac:(done)) as Hd. pose proof (Z.mod_pos_bound kend PGSIZE ltac:(done)) as Hm.
  set (ps := (fun i => (k0 + i) * PGSIZE) <$> seqZ 0 n). assert (EP : PGSIZE = 4096) by done.
  assert (Hps : NoDup ps) by (apply NoDup_fmap_2_strong; [intros x y _ _; unfold PGSIZE; lia|apply NoDup_seqZ]).
  assert (Hsub : ps ⊆+ l). { apply NoDup_submseteq; [done|]. intros p Hp. apply list_elem_of_fmap in Hp as (i & -> & Hi). apply elem_of_seqZ in Hi. apply Hl. split; [by apply Z.mod_mul|]. unfold k0 in *. lia. }
  apply submseteq_length in Hsub. unfold ps in Hsub. rewrite length_fmap, length_seqZ in Hsub. lia.
Qed.

(** C25: memory at boot.  When at least 401 pages lie between the end of the
    kernel image and PHYSTOP, kinit() and kvmmake() terminate without panic.
    The table maps exactly the device registers, the kernel text (readable and
    executable), all other memory (readable and writable), the trampoline and
    one stack for each process, each made of a page of its own; everything
    else faults, in particular the pages around each stack.  No page of memory
    is both writable and executable, and none is open to user mode. *)
Theorem boot_memory_correct `{L : Layout} `{!LayoutOk L} s : freelist s = 0 -> kend + (boot_pages + 1) * PGSIZE <= PHYSTOP ->
  wp boot_memory (fun pt s' => exists l, (forall p, p ∈ l <-> page_ok p) /\ kernel_map l pt s' /\ protected (mmem s') pt) s.
Proof.
  intros Hf Hk. unfold boot_memory. rewrite wp_bind. eapply wp_mono; [by apply kinit_frees_all|]. intros [] s1 (l & Hl & Hp). eapply wp_mono; [apply (kvmmake_spec s1 l Hl)|].
  - apply many_pages; [done|apply Hl|done|done].
  - intros pt s' Hm. exists l. split; [done|]. split; [done|]. by eapply kernel_map_protected.
Qed.

Lemma demo_room : kend + (boot_pages + 1) * PGSIZE <= PHYSTOP.
Proof. vm_compute. discriminate. Qed.
Lemma boot_memory_correct_witness : exists pt s', boot_memory (Mach ∅ Free 0) = Ok pt s' /\ protected (mmem s') pt.
Proof.
  pose proof (boot_memory_correct (Mach ∅ Free 0) eq_refl demo_room) as W. apply wp_ok in W. destruct W as (pt & s' & E & l & _ & _ & H). exists pt, s'. split; [exact E|exact H].
Defined.
