(* ===== verification/Hart.v ===== *)
(** One RISC-V core as the kernel uses it: the registers, the control and
    status registers behind the inline functions of kernel/riscv.h, Sv39
    address translation, traps, and the instructions of the assembly files.

    The address of the next instruction is kept only where control is
    transferred: an assembly routine is a list of instructions that are
    fetched from one page.  A load or store that does not translate, or is
    not aligned, is the outcome [Panic].  Accessed and dirty bits, superpages
    and sstatus.SUM are not used by the kernel and not modelled. *)
From S2P Require Import Prelude Mem Kalloc Vm VmSpec.

(** * Registers *)

Inductive reg : Type :=
| RA | SP | GP | TP | T0 | T1 | T2 | S0 | S1 | A0 | A1 | A2 | A3 | A4 | A5 | A6 | A7
| S2 | S3 | S4 | S5 | S6 | S7 | S8 | S9 | S10 | S11 | T3 | T4 | T5 | T6.
#[export] Instance reg_eq_dec : EqDecision reg.
Proof. solve_decision. Defined.

(** The registers of kernel/riscv.h that hold state of their own: sstatus and
    sie are views of mstatus and mie. *)
Inductive csr : Type :=
| MHARTID | MSTATUS | MEPC | MIE | MEDELEG | MIDELEG | MENVCFG | PMPCFG0 | PMPADDR0 | MCOUNTEREN
| STVEC | SSCRATCH | SEPC | SCAUSE | STVAL | STIMECMP | SATP | TIME.
#[export] Instance csr_eq_dec : EqDecision csr.
Proof. solve_decision. Defined.

Inductive mode : Type := User | Supervisor | Machine.
#[export] Instance mode_eq_dec : EqDecision mode.
Proof. solve_decision. Defined.

Record hart : Type := Hart { h_x : reg -> Z; h_csr : csr -> Z; h_mode : mode; h_pc : Z; h_mem : mem }.
Definition rset {A} `{EqDecision A} (a : A) (v : Z) (f : A -> Z) : A -> Z := fun b => if decide (b = a) then v else f b.
Definition set_x (r : reg) (v : Z) (h : hart) : hart := Hart (rset r v (h_x h)) (h_csr h) (h_mode h) (h_pc h) (h_mem h).
Definition set_csr (c : csr) (v : Z) (h : hart) : hart := Hart (h_x h) (rset c v (h_csr h)) (h_mode h) (h_pc h) (h_mem h).
Definition set_mode (m : mode) (h : hart) : hart := Hart (h_x h) (h_csr h) m (h_pc h) (h_mem h).
Definition set_pc (a : Z) (h : hart) : hart := Hart (h_x h) (h_csr h) (h_mode h) a (h_mem h).
Definition set_hmem (m : mem) (h : hart) : hart := Hart (h_x h) (h_csr h) (h_mode h) (h_pc h) m.

(** * kernel/riscv.h *)

(** Bits of the status registers. *)
Inductive sbit : Type :=
| MSTATUS_MPP_MASK | MSTATUS_MPP_S | SSTATUS_SPP | SSTATUS_SPIE | SSTATUS_SIE | SIE_SEIE | SIE_STIE | MIE_STIE.
Definition sbits (b : sbit) : Z :=
  match b with
  | MSTATUS_MPP_MASK => Z.shiftl 3 11
  | MSTATUS_MPP_S => Z.shiftl 1 11
  | SSTATUS_SPP => Z.shiftl 1 8
  | SSTATUS_SPIE => Z.shiftl 1 5
  | SSTATUS_SIE => Z.shiftl 1 1
  | SIE_SEIE => Z.shiftl 1 9
  | SIE_STIE => Z.shiftl 1 5
  | MIE_STIE => Z.shiftl 1 5
  end.

(** [x & ~b] on 64 bits. *)
Definition clear64 (x b : Z) : Z := Z.land x (u64 (Z.lnot b)).
(** The part of mstatus that sstatus shows: SIE, SPIE, SPP. *)
Definition SMASK : Z := Z.lor (Z.lor (sbits SSTATUS_SPP) (sbits SSTATUS_SPIE)) (sbits SSTATUS_SIE).
(** The interrupts that can be delegated: software, timer, external. *)
Definition SINTS : Z := 0x222.

Definition r_csr (c : csr) : M hart Z := gets (fun h => h_csr h c).
Definition w_csr (c : csr) (v : Z) : M hart unit := modify (set_csr c v).
Definition sstatus_of (h : hart) : Z := Z.land (h_csr h MSTATUS) SMASK.
Definition r_sstatus : M hart Z := gets sstatus_of.
Definition w_sstatus (v : Z) : M hart unit :=
  modify (fun h => set_csr MSTATUS (Z.lor (clear64 (h_csr h MSTATUS) SMASK) (Z.land v SMASK)) h).
(** Only the delegated bits of mie are visible as sie. *)
Definition r_sie : M hart Z := gets (fun h => Z.land (h_csr h MIE) (h_csr h MIDELEG)).
Definition w_sie (v : Z) : M hart unit :=
  modify (fun h => set_csr MIE (Z.lor (clear64 (h_csr h MIE) (h_csr h MIDELEG)) (Z.land v (h_csr h MIDELEG))) h).
Definition w_mideleg (v : Z) : M hart unit := w_csr MIDELEG (Z.land v SINTS).
Definition r_tp : M hart Z := gets (fun h => h_x h TP).
Definition w_tp (v : Z) : M hart unit := modify (set_x TP v).

Definition intr_on : M hart unit := let! x := r_sstatus in w_sstatus (Z.lor x (sbits SSTATUS_SIE)).
Definition intr_off : M hart unit := let! x := r_sstatus in w_sstatus (clear64 x (sbits SSTATUS_SIE)).
Definition intr_get : M hart bool := let! x := r_sstatus in ret (negb (Z.land x (sbits SSTATUS_SIE) =? 0)).

Definition SATP_SV39 : Z := Z.shiftl 8 60.
Definition MAKE_SATP (pagetable : Z) : Z := Z.lor SATP_SV39 (Z.shiftr pagetable 12).

(** * Address translation *)

Inductive access : Type := Fetch | Load | Store.

Definition satp_mode (satp : Z) : Z := Z.shiftr satp 60.
Definition satp_root (satp : Z) : Z := Z.shiftl (Z.land satp (2 ^ 44 - 1)) 12.

Definition pte_permits (acc : access) (md : mode) (pte : Z) : bool :=
  has_flag pte PTE_V && has_flag pte (match acc with Fetch => PTE_X | Load => PTE_R | Store => PTE_W end) &&
  Bool.eqb (has_flag pte PTE_U) (bool_decide (md = User)).

Definition translate (acc : access) (md : mode) (satp : Z) (m : mem) (va : Z) : option Z :=
  if bool_decide (md = Machine) || (satp_mode satp =? 0) then Some va
  else if (satp_mode satp =? 8) && (0 <=? va) && (va <? MAXVA) then
    let pte := pte_of m (satp_root satp) va in
    if pte_permits acc md pte then Some (PTE2PA pte + va mod PGSIZE) else None
  else None.

Definition haddr (acc : access) (va : Z) (h : hart) : option Z := translate acc (h_mode h) (h_csr h SATP) (h_mem h) va.

(** * Traps and returns from them *)

(** A bit of a status word, and the word with the bit set to [b]. *)
Definition sbit_test (v : Z) (b : sbit) : bool := negb (Z.land v (sbits b) =? 0).
Definition sbit_put (v : Z) (b : sbit) (on : bool) : Z := if on then Z.lor v (sbits b) else clear64 v (sbits b).

(** A trap into supervisor mode. *)
Definition trap (cause tval : Z) (h : hart) : hart :=
  let st := h_csr h MSTATUS in
  let st := sbit_put st SSTATUS_SPIE (sbit_test (h_csr h MSTATUS) SSTATUS_SIE) in
  let st := sbit_put st SSTATUS_SIE false in
  let st := sbit_put st SSTATUS_SPP (bool_decide (h_mode h = Supervisor)) in
  set_pc (h_csr h STVEC) (set_mode Supervisor
    (set_csr STVAL tval (set_csr SCAUSE cause (set_csr SEPC (h_pc h) (set_csr MSTATUS st h))))).

Definition sret (h : hart) : hart :=
  let st := h_csr h MSTATUS in
  let md := if sbit_test st SSTATUS_SPP then Supervisor else User in
  let st := sbit_put st SSTATUS_SIE (sbit_test (h_csr h MSTATUS) SSTATUS_SPIE) in
  let st := sbit_put st SSTATUS_SPIE true in
  let st := sbit_put st SSTATUS_SPP false in
  set_pc (h_csr h SEPC) (set_mode md (set_csr MSTATUS st h)).

(** Of mret, where it goes; MPP is 3 for machine mode and 1 for supervisor
    mode. *)
Definition mret (h : hart) : hart :=
  let mpp := Z.shiftr (Z.land (h_csr h MSTATUS) (sbits MSTATUS_MPP_MASK)) 11 in
  set_pc (h_csr h MEPC) (set_mode (if mpp =? 3 then Machine else if mpp =? 1 then Supervisor else User) h).

(** * Instructions *)

Inductive instr : Type :=
| Sd (rs : reg) (off : Z) (base : reg)
| Ld (rd : reg) (off : Z) (base : reg)
| Li (rd : reg) (v : Z)
| Addi (rd rs : reg) (v : Z)
| Add (rd rs1 rs2 : reg)
| Mul (rd rs1 rs2 : reg)
| Csrw (c : csr) (rs : reg)
| Csrr (rd : reg) (c : csr)
| Sfence_vma
| Jalr (rs : reg) (link : Z)   (** [link]: the address after the instruction *)
| Ret
| Sret.

Definition access_mem (acc : access) (va : Z) : M hart Z :=
  if negb (va mod 8 =? 0) then panic "misaligned" else
  let! pa := gets (haddr acc va) in
  match pa with Some a => ret a | None => panic "page fault" end.

Definition exec (i : instr) : M hart unit :=
  let! h := gets id in
  match i with
  | Sd rs off base =>
      let! pa := access_mem Store (u64 (h_x h base + off)) in modify (set_hmem (st64 (h_mem h) pa (h_x h rs)))
  | Ld rd off base =>
      let! pa := access_mem Load (u64 (h_x h base + off)) in modify (set_x rd (ld64 (h_mem h) pa))
  | Li rd v => modify (set_x rd v)
  | Addi rd rs v => modify (set_x rd (u64 (h_x h rs + v)))
  | Add rd rs1 rs2 => modify (set_x rd (u64 (h_x h rs1 + h_x h rs2)))
  | Mul rd rs1 rs2 => modify (set_x rd (u64 (h_x h rs1 * h_x h rs2)))
  | Csrw c rs => w_csr c (h_x h rs)
  | Csrr rd c => modify (set_x rd (h_csr h c))
  | Sfence_vma => ret tt
  | Jalr rs link => modify (fun h => set_pc (h_x h rs) (set_x RA link h))
  | Ret => modify (fun h => set_pc (h_x h RA) h)
  | Sret => modify sret
  end.

(** A routine whose code is on the physical page [pa], executed at the page
    [va]: every instruction is fetched under the page table of the moment. *)
Fixpoint run (va pa : Z) (code : list instr) : M hart unit :=
  match code with
  | [] => ret tt
  | i :: code =>
      let! f := gets (haddr Fetch va) in
      if bool_decide (f = Some pa) then exec i ;; run va pa code else panic "page fault"
  end.
