(* ===== verification/Asm.v ===== *)
(** The assembly of the kernel: kernel/trampoline.S, kernel/swtch.S,
    kernel/kernelvec.S and kernel/entry.S, with the offsets of struct
    trapframe and struct context of kernel/proc.h. *)
From S2P Require Import Prelude Mem Kalloc Vm VmSpec Hart.

(** Addresses of functions and labels: [uservec_off] and [userret_off] are
    offsets in the trampoline page. *)
Class Symbols := {
  uservec_off : Z; userret_off : Z; usertrap_addr : Z; kernelvec_addr : Z; main_addr : Z; stack0 : Z
}.
Class SymbolsOk (Y : Symbols) : Prop := {
  uservec_range : 0 <= uservec_off < PGSIZE;
  userret_range : 0 <= userret_off < PGSIZE;
  usertrap_range : 0 <= usertrap_addr < 2 ^ 64;
  kernelvec_range : 0 <= kernelvec_addr < 2 ^ 64
}.

(** * struct trapframe and struct context *)

(** Where uservec keeps the user registers. *)
Definition tf_slot (r : reg) : Z :=
  match r with
  | RA => 40 | SP => 48 | GP => 56 | TP => 64 | T0 => 72 | T1 => 80 | T2 => 88 | S0 => 96 | S1 => 104
  | A0 => 112 | A1 => 120 | A2 => 128 | A3 => 136 | A4 => 144 | A5 => 152 | A6 => 160 | A7 => 168
  | S2 => 176 | S3 => 184 | S4 => 192 | S5 => 200 | S6 => 208 | S7 => 216 | S8 => 224 | S9 => 232 | S10 => 240 | S11 => 248
  | T3 => 256 | T4 => 264 | T5 => 272 | T6 => 280
  end.
(** The fields before them. *)
Inductive tf_field : Type := TfKernelSatp | TfKernelSp | TfKernelTrap | TfEpc | TfKernelHartid.
Definition tf_off (f : tf_field) : Z :=
  match f with TfKernelSatp => 0 | TfKernelSp => 8 | TfKernelTrap => 16 | TfEpc => 24 | TfKernelHartid => 32 end.

(** Where swtch() keeps a register in struct context. *)
Definition context_regs : list reg := [RA; SP; S0; S1; S2; S3; S4; S5; S6; S7; S8; S9; S10; S11].

Section asm.
Context `{L : Layout} `{Y : Symbols}.

Definition userret_va : Z := TRAMPOLINE + userret_off.
Definition uservec_va : Z := TRAMPOLINE + uservec_off.

(** * trampoline.S *)

Definition uservec_save : list instr :=
  [ Sd RA 40 A0; Sd SP 48 A0; Sd GP 56 A0; Sd TP 64 A0; Sd T0 72 A0; Sd T1 80 A0; Sd T2 88 A0; Sd S0 96 A0; Sd S1 104 A0;
    Sd A1 120 A0; Sd A2 128 A0; Sd A3 136 A0; Sd A4 144 A0; Sd A5 152 A0; Sd A6 160 A0; Sd A7 168 A0;
    Sd S2 176 A0; Sd S3 184 A0; Sd S4 192 A0; Sd S5 200 A0; Sd S6 208 A0; Sd S7 216 A0; Sd S8 224 A0; Sd S9 232 A0;
    Sd S10 240 A0; Sd S11 248 A0; Sd T3 256 A0; Sd T4 264 A0; Sd T5 272 A0; Sd T6 280 A0 ].
Definition uservec : list instr :=
  [ Csrw SSCRATCH A0; Li A0 TRAPFRAME ] ++ uservec_save ++
  [ Csrr T0 SSCRATCH; Sd T0 112 A0;
    Ld SP 8 A0; Ld TP 32 A0; Ld T0 16 A0; Ld T1 0 A0;
    Sfence_vma; Csrw SATP T1; Sfence_vma; Jalr T0 userret_va ].

Definition userret_restore : list instr :=
  [ Ld RA 40 A0; Ld SP 48 A0; Ld GP 56 A0; Ld TP 64 A0; Ld T0 72 A0; Ld T1 80 A0; Ld T2 88 A0; Ld S0 96 A0; Ld S1 104 A0;
    Ld A1 120 A0; Ld A2 128 A0; Ld A3 136 A0; Ld A4 144 A0; Ld A5 152 A0; Ld A6 160 A0; Ld A7 168 A0;
    Ld S2 176 A0; Ld S3 184 A0; Ld S4 192 A0; Ld S5 200 A0; Ld S6 208 A0; Ld S7 216 A0; Ld S8 224 A0; Ld S9 232 A0;
    Ld S10 240 A0; Ld S11 248 A0; Ld T3 256 A0; Ld T4 264 A0; Ld T5 272 A0; Ld T6 280 A0 ].
Definition userret : list instr :=
  [ Sfence_vma; Csrw SATP A0; Sfence_vma; Li A0 TRAPFRAME ] ++ userret_restore ++ [ Ld A0 112 A0; Sret ].

(** * swtch.S *)

Definition swtch_save : list instr :=
  [ Sd RA 0 A0; Sd SP 8 A0; Sd S0 16 A0; Sd S1 24 A0; Sd S2 32 A0; Sd S3 40 A0; Sd S4 48 A0; Sd S5 56 A0; Sd S6 64 A0;
    Sd S7 72 A0; Sd S8 80 A0; Sd S9 88 A0; Sd S10 96 A0; Sd S11 104 A0 ].
Definition swtch_load : list instr :=
  [ Ld RA 0 A1; Ld SP 8 A1; Ld S0 16 A1; Ld S1 24 A1; Ld S2 32 A1; Ld S3 40 A1; Ld S4 48 A1; Ld S5 56 A1; Ld S6 64 A1;
    Ld S7 72 A1; Ld S8 80 A1; Ld S9 88 A1; Ld S10 96 A1; Ld S11 104 A1 ].
Definition swtch : list instr := swtch_save ++ swtch_load ++ [ Ret ].

(** * kernelvec.S *)

(** Up to the call of kerneltrap(), and after it. *)
Definition kernelvec_save : list instr :=
  [ Sd RA 0 SP; Sd GP 16 SP; Sd TP 24 SP; Sd T0 32 SP; Sd T1 40 SP; Sd T2 48 SP; Sd A0 72 SP; Sd A1 80 SP; Sd A2 88 SP;
    Sd A3 96 SP; Sd A4 104 SP; Sd A5 112 SP; Sd A6 120 SP; Sd A7 128 SP; Sd T3 216 SP; Sd T4 224 SP; Sd T5 232 SP; Sd T6 240 SP ].
Definition kernelvec_restore : list instr :=
  [ Ld RA 0 SP; Ld GP 16 SP; Ld T0 32 SP; Ld T1 40 SP; Ld T2 48 SP; Ld A0 72 SP; Ld A1 80 SP; Ld A2 88 SP;
    Ld A3 96 SP; Ld A4 104 SP; Ld A5 112 SP; Ld A6 120 SP; Ld A7 128 SP; Ld T3 216 SP; Ld T4 224 SP; Ld T5 232 SP; Ld T6 240 SP ].
Definition kernelvec (page : Z) (kerneltrap : M hart unit) : M hart unit :=
  run page page (Addi SP SP (-256) :: kernelvec_save) ;;
  kerneltrap ;;
  run page page (kernelvec_restore ++ [ Addi SP SP 256; Sret ]).

(** * entry.S, up to the call of start() *)

Definition entry : list instr :=
  [ Li SP stack0; Li A0 (1024 * 4); Csrr A1 MHARTID; Addi A1 A1 1; Mul A0 A0 A1; Add SP SP A0 ].

End asm.

(** Addresses as the linker might choose them. *)
#[global] Instance demo_symbols : Symbols := {|
  uservec_off := 0; userret_off := 0x9c; usertrap_addr := 0x80001d00; kernelvec_addr := 0x80005a00; main_addr := 0x80000e00; stack0 := 0x80008a00 |}.
#[global] Instance demo_symbols_ok : SymbolsOk demo_symbols.
Proof. split; vm_compute; split; congruence. Qed.
