(* ===== verification/AsmSpec.v ===== *)
(** What runs of loads and stores do: registers saved in memory and taken
    back from it. *)
From S2P Require Import Prelude Mem Kalloc Vm VmSpec VmUser Hart Asm.

(** * Lists of saves and loads *)

Definition saves (base : reg) (l : list (reg * Z)) : list instr := (fun ro => Sd ro.1 ro.2 base) <$> l.
Definition loads (base : reg) (l : list (reg * Z)) : list instr := (fun ro => Ld ro.1 ro.2 base) <$> l.

(** The memory and the registers afterwards; [a]: the physical address the
    base register stands for. *)
Definition save_all (a : Z) (x : reg -> Z) (l : list (reg * Z)) (m : mem) : mem :=
  foldl (fun m ro => st64 m (a + ro.2) (x ro.1)) m l.
Definition load_all (a : Z) (m : mem) (l : list (reg * Z)) (x : reg -> Z) : reg -> Z :=
  foldl (fun x ro => rset ro.1 (ld64 m (a + ro.2)) x) x l.

Lemma rset_eq {A} `{EqDecision A} (a : A) v f : rset a v f a = v.
Proof. unfold rset. by rewrite decide_True. Qed.
Lemma rset_ne {A} `{EqDecision A} (a b : A) v f : b <> a -> rset a v f b = f b.
Proof. intros H. unfold rset. by rewrite decide_False. Qed.

Lemma rset_range {A} `{EqDecision A} (a : A) v f : 0 <= v < 2 ^ 64 -> (forall b, 0 <= f b < 2 ^ 64) -> forall b, 0 <= rset a v f b < 2 ^ 64.
Proof. intros Hv Hf b. unfold rset. by case_decide. Qed.

(** Slots of eight bytes that do not overlap, below [n]. *)
Fixpoint slots_ok (n : Z) (l : list (reg * Z)) : bool :=
  match l with
  | [] => true
  | ro :: l =>
      (0 <=? ro.2) && (ro.2 + 8 <=? n) && (ro.2 mod 8 =? 0) && forallb (fun so => negb (so.2 =? ro.2)) l && slots_ok n l
  end.

Lemma slots_ok_cons n r o l : slots_ok n ((r, o) :: l) = true ->
  (0 <= o /\ o + 8 <= n /\ o mod 8 = 0) /\ (forall s o', (s, o') ∈ l -> o' <> o) /\ slots_ok n l = true.
Proof.
  cbn [slots_ok fst snd]. rewrite !andb_true_iff, !Z.leb_le, Z.eqb_eq. intros ((((H1 & H2) & H3) & H4) & H5).
  split; [done|]. split; [|done]. intros s o' Hin ->. rewrite forallb_forall in H4.
  specialize (H4 (s, o) (proj1 (list_elem_of_In _ _) Hin)). cbn in H4. by rewrite Z.eqb_refl in H4.
Qed.
Lemma slots_ok_elem n l r o : slots_ok n l = true -> (r, o) ∈ l -> 0 <= o /\ o + 8 <= n /\ o mod 8 = 0.
Proof.
  induction l as [|[s o'] l IH]; intros H Hin; [by apply not_elem_of_nil in Hin|].
  apply slots_ok_cons in H as (H1 & _ & H2). apply elem_of_cons in Hin as [[= -> ->]|Hin]; auto.
Qed.

Lemma apart8 o o' : o mod 8 = 0 -> o' mod 8 = 0 -> o <> o' -> o + 8 <= o' \/ o' + 8 <= o.
Proof. intros H H' Hne. Z.to_euclidean_division_equations. lia. Qed.

Lemma save_all_out n a x l m y : slots_ok n l = true -> y < a \/ a + n <= y -> ld8 (save_all a x l m) y = ld8 m y.
Proof.
  revert m. induction l as [|[r o] l IH]; intros m H Hy; [done|]. apply slots_ok_cons in H as ((H1 & H2 & _) & _ & H4).
  cbn [save_all foldl fst snd]. fold (save_all a x l (st64 m (a + o) (x r))). rewrite IH by done. apply ld8_st64_out. lia.
Qed.

Lemma save_all_keep n a x l m o : slots_ok n l = true -> o mod 8 = 0 -> (forall r o', (r, o') ∈ l -> o' <> o) ->
  ld64 (save_all a x l m) (a + o) = ld64 m (a + o).
Proof.
  revert m. induction l as [|[r o'] l IH]; intros m H Ho Hne; [done|]. apply slots_ok_cons in H as ((H1 & H2 & H3) & _ & H4).
  cbn [save_all foldl fst snd]. fold (save_all a x l (st64 m (a + o') (x r))).
  rewrite IH; [|done|done|intros s o2 Hin; apply (Hne s); by right].
  apply ld64_st64_ne. destruct (apart8 o o' Ho H3); [|lia|lia]. intros ->. apply (Hne r o'); [left|done].
Qed.

(** Every register is where it was saved. *)
Lemma save_all_slot n a x l m r o : slots_ok n l = true -> (forall r, 0 <= x r < 2 ^ 64) -> (r, o) ∈ l ->
  ld64 (save_all a x l m) (a + o) = x r.
Proof.
  intros H Hx. revert m H. induction l as [|[s o'] l IH]; intros m H Hin; [by apply not_elem_of_nil in Hin|].
  pose proof (slots_ok_cons _ _ _ _ H) as ((H1 & H2 & H3) & H4 & H5).
  cbn [save_all foldl fst snd]. fold (save_all a x l (st64 m (a + o') (x s))).
  apply elem_of_cons in Hin as [[= -> ->]|Hin]; [|by apply IH].
  rewrite (save_all_keep n) by done. by apply ld64_st64_eq.
Qed.

Lemma load_all_ne a m l x r : r ∉ l.*1 -> load_all a m l x r = x r.
Proof.
  revert x. induction l as [|[s o] l IH]; intros x H; [done|]. cbn [load_all foldl fst snd fmap list_fmap] in *.
  fold (load_all a m l (rset s (ld64 m (a + o)) x)). apply not_elem_of_cons in H as [H1 H2]. rewrite IH by done. by apply rset_ne.
Qed.
Lemma load_all_range a m l x : (forall r, 0 <= x r < 2 ^ 64) -> forall r, 0 <= load_all a m l x r < 2 ^ 64.
Proof.
  revert x. induction l as [|[s o] l IH]; intros x H; [done|]. cbn [load_all foldl fst snd]. apply IH. by apply rset_range; [apply ld64_range|].
Qed.
Lemma load_all_slot a m l x r o : NoDup l.*1 -> (r, o) ∈ l -> load_all a m l x r = ld64 m (a + o).
Proof.
  revert x. induction l as [|[s o'] l IH]; intros x Hnd Hin; [by apply not_elem_of_nil in Hin|].
  cbn [load_all foldl fst snd fmap list_fmap] in *. fold (load_all a m l (rset s (ld64 m (a + o')) x)).
  apply NoDup_cons in Hnd as [Hn Hnd]. apply elem_of_cons in Hin as [[= -> ->]|Hin]; [|by apply IH].
  rewrite load_all_ne by done. apply rset_eq.
Qed.

(** * Running them *)

Section run.
Context `{L : Layout} `{!LayoutOk L}.

(** Translation looks at the pages of the tree only. *)
Lemma translate_frame acc md satp m m' own va : pt_inv m (satp_root satp) own -> (forall y, owned_byte own y -> ld8 m' y = ld8 m y) ->
  translate acc md satp m' va = translate acc md satp m va.
Proof. intros Hp Hm. unfold translate. by rewrite (pte_frame m m' _ own) by done. Qed.

Lemma wp_run_cons va pa i code (Q : unit -> hart -> Prop) h : haddr Fetch va h = Some pa ->
  wp (exec i) (fun _ h' => wp (run va pa code) Q h') h -> wp (run va pa (i :: code)) Q h.
Proof. intros Hf H. cbn [run]. wp_simp. rewrite bool_decide_true by done. wp_simp. exact H. Qed.

Lemma wp_sd rs off base (Q : unit -> hart -> Prop) h a : u64 (h_x h base + off) mod 8 = 0 ->
  haddr Store (u64 (h_x h base + off)) h = Some a -> Q tt (set_hmem (st64 (h_mem h) a (h_x h rs)) h) -> wp (exec (Sd rs off base)) Q h.
Proof. intros H1 H2 HQ. unfold exec, access_mem. wp_simp. unfold id. rewrite H1. cbn [negb Z.eqb]. wp_simp. rewrite H2. by wp_simp. Qed.

Lemma wp_ld rd off base (Q : unit -> hart -> Prop) h a : u64 (h_x h base + off) mod 8 = 0 ->
  haddr Load (u64 (h_x h base + off)) h = Some a -> Q tt (set_x rd (ld64 (h_mem h) a) h) -> wp (exec (Ld rd off base)) Q h.
Proof. intros H1 H2 HQ. unfold exec, access_mem. wp_simp. unfold id. rewrite H1. cbn [negb Z.eqb]. wp_simp. rewrite H2. by wp_simp. Qed.

(** The base register points to [n] bytes at physical address [a] that are
    no part of the page table. *)
Record window (acc : access) (base : reg) (n a : Z) (own : gmap Z (list Z)) (h : hart) : Prop := {
  w_tree : pt_inv (h_mem h) (satp_root (h_csr h SATP)) own;
  w_align : h_x h base mod 8 = 0;
  w_addr : forall o, 0 <= o -> o + 8 <= n -> haddr acc (u64 (h_x h base + o)) h = Some (a + o);
  w_apart : forall y, a <= y < a + n -> ~ owned_byte own y
}.

Lemma u64_mod8 x o : x mod 8 = 0 -> o mod 8 = 0 -> u64 (x + o) mod 8 = 0.
Proof. intros H1 H2. unfold u64. Z.to_euclidean_division_equations. lia. Qed.

Lemma wp_run_saves va pa base n a own l code (Q : unit -> hart -> Prop) h :
  window Store base n a own h -> haddr Fetch va h = Some pa -> slots_ok n l = true ->
  wp (run va pa code) Q (set_hmem (save_all a (h_x h) l (h_mem h)) h) -> wp (run va pa (saves base l ++ code)) Q h.
Proof.
  revert h. induction l as [|[r o] l IH]; intros h W Hf Hs HQ; [by destruct h|].
  apply slots_ok_cons in Hs as ((H1 & H2 & H3) & _ & Hs). destruct W as [W1 W2 W3 W4]. cbn [saves fmap list_fmap app fst snd].
  apply wp_run_cons; [done|]. eapply wp_sd; [by apply u64_mod8|by apply W3|].
  set (h1 := set_hmem _ h).
  assert (Hm : forall y, owned_byte own y -> ld8 (h_mem h1) y = ld8 (h_mem h) y).
  { intros y Hy. cbn [h1 h_mem set_hmem]. apply ld8_st64_out. destruct (Z.lt_ge_cases y (a + o)); [by left|].
    destruct (Z.lt_ge_cases y (a + o + 8)); [|by right]. exfalso. apply (W4 y); [lia|done]. }
  assert (Ht : forall acc va, haddr acc va h1 = haddr acc va h) by (intros; by apply (translate_frame _ _ _ _ _ own)).
  apply (IH h1); [|by rewrite Ht|done|exact HQ].
  split; [by apply (pt_inv_frame (h_mem h))|done| |done]. intros o' Ho Ho'. rewrite Ht. by apply W3.
Qed.

Lemma wp_run_loads va pa base n a own l code (Q : unit -> hart -> Prop) h :
  window Load base n a own h -> haddr Fetch va h = Some pa -> slots_ok n l = true -> base ∉ l.*1 ->
  wp (run va pa code) Q (Hart (load_all a (h_mem h) l (h_x h)) (h_csr h) (h_mode h) (h_pc h) (h_mem h)) ->
  wp (run va pa (loads base l ++ code)) Q h.
Proof.
  revert h. induction l as [|[r o] l IH]; intros h W Hf Hs Hb HQ; [by destruct h|].
  apply slots_ok_cons in Hs as ((H1 & H2 & H3) & _ & Hs). destruct W as [W1 W2 W3 W4]. cbn [loads fmap list_fmap app fst snd] in *.
  apply not_elem_of_cons in Hb as [Hb1 Hb2].
  apply wp_run_cons; [done|]. eapply wp_ld; [by apply u64_mod8|by apply W3|].
  apply IH; [|done|done|done|exact HQ]. unfold haddr in *. split; cbn [h_x h_mem h_csr h_mode set_x]; rewrite ?rset_ne by done; done.
Qed.
End run.
