(* ===== verification/TrapHart.v ===== *)
(** kernel/trap.c as far as it deals with the registers of the core: the
    ends of usertrap(), prepare_return(), kerneltrap(), the way into user
    space of forkret() of kernel/proc.c, and the whole path of a trap from
    user space through trampoline.S and back.

    What the kernel does in between is a parameter; Trap models it.  The
    arguments [tf] and [kstack] are fields of struct proc; stores
    of C code to the trapframe go to physical memory, which the kernel's page
    table maps one to one. *)
From S2P Require Import Prelude Mem Kalloc Vm VmSpec Hart Asm.

Section trap.
Context `{L : Layout} `{Y : Symbols}.

Definition tf_get (tf : Z) (f : tf_field) : M hart Z := gets (fun h => ld64 (h_mem h) (tf + tf_off f)).
Definition tf_set (tf : Z) (f : tf_field) (v : Z) : M hart unit :=
  modify (fun h => set_hmem (st64 (h_mem h) (tf + tf_off f) v) h).

Definition trapinithart : M hart unit := w_csr STVEC kernelvec_addr.

(** usertrap() up to the test of scause. *)
Definition usertrap_entry (tf : Z) : M hart unit :=
  let! st := r_sstatus in
  if negb (Z.land st (sbits SSTATUS_SPP) =? 0) then panic "usertrap: not from user mode" else
  w_csr STVEC kernelvec_addr ;;
  let! pc := r_csr SEPC in
  tf_set tf TfEpc pc.

Definition prepare_return (kstack tf : Z) : M hart unit :=
  intr_off ;;
  w_csr STVEC uservec_va ;;
  let! satp := r_csr SATP in
  tf_set tf TfKernelSatp satp ;;
  tf_set tf TfKernelSp (u64 (kstack + PGSIZE)) ;;
  tf_set tf TfKernelTrap usertrap_addr ;;
  let! tp := r_tp in
  tf_set tf TfKernelHartid tp ;;
  let! x := r_sstatus in
  let x := clear64 x (sbits SSTATUS_SPP) in
  let x := Z.lor x (sbits SSTATUS_SPIE) in
  w_sstatus x ;;
  let! epc := tf_get tf TfEpc in
  w_csr SEPC epc.

(** usertrap(), [work] being what it does for the cause of the trap; it gives
    p->pagetable, which exec() changes. *)
Definition usertrap_hart (work : M hart Z) (kstack tf : Z) : M hart Z :=
  usertrap_entry tf ;;
  let! pagetable := work in
  prepare_return kstack tf ;;
  ret (MAKE_SATP pagetable).

(** kerneltrap(); [running]: whether a process runs on this CPU. *)
Definition kerneltrap (devintr : M hart Z) (running : bool) (yield : M hart unit) : M hart unit :=
  let! sepc := r_csr SEPC in
  let! sstatus := r_sstatus in
  let! scause := r_csr SCAUSE in
  if Z.land sstatus (sbits SSTATUS_SPP) =? 0 then panic "kerneltrap: not from supervisor mode" else
  let! on := intr_get in
  if on : bool then panic "kerneltrap: interrupts enabled" else
  let! which_dev := devintr in
  if which_dev =? 0 then panic "kerneltrap" else
  (if (which_dev =? 2) && running then yield else ret tt) ;;
  w_csr SEPC sepc ;;
  w_sstatus sstatus.

(** * The whole path *)

(** Control has come to [a]. *)
Definition at_pc (a : Z) : M hart unit :=
  let! pc := gets h_pc in if pc =? a then ret tt else panic "lost".
(** A C function of the address [a] that returns a value. *)
Definition c_call (a : Z) (f : M hart Z) : M hart unit :=
  at_pc a ;;
  let! ra := gets (fun h => h_x h RA) in
  let! v := f in
  modify (fun h => set_pc ra (set_x A0 v h)).

(** A trap from user space, all the way back to user space. *)
Definition user_trap (work : M hart Z) (kstack tf cause tval : Z) : M hart unit :=
  modify (trap cause tval) ;;
  at_pc uservec_va ;;
  run TRAMPOLINE trampoline uservec ;;
  c_call usertrap_addr (usertrap_hart work kstack tf) ;;
  at_pc userret_va ;;
  run TRAMPOLINE trampoline userret.

(** The end of forkret(): it jumps to userret() itself. *)
Definition forkret_end (kstack tf pagetable : Z) : M hart unit :=
  prepare_return kstack tf ;;
  modify (fun h => set_pc userret_va (set_x A0 (MAKE_SATP pagetable) h)) ;;
  run TRAMPOLINE trampoline userret.

(** A trap from supervisor mode; kernelvec is on the page [page]. *)
Definition kernel_trap (page : Z) (devintr : M hart Z) (running : bool) (yield : M hart unit) (cause tval : Z) : M hart unit :=
  modify (trap cause tval) ;;
  at_pc kernelvec_addr ;;
  kernelvec page (kerneltrap devintr running yield).
End trap.
