(* ===== verification/TrapPath.v ===== *)
(** A trap from user space is invisible to the program: all registers come
    back, whatever the kernel did in between, and every trap finds the kernel
    ready for it. *)
From S2P Require Import Prelude Mem Kalloc Vm VmSpec VmUser Kvm Hart Asm AsmSpec TrapHart.

(** * Bits of the status register *)

Lemma clear64_bit x b k : 0 <= k < 64 -> Z.testbit (clear64 x b) k = Z.testbit x k && negb (Z.testbit b k).
Proof. intros H. unfold clear64, u64. rewrite Z.land_spec, Z.mod_pow2_bits_low, Z.lnot_spec by lia. done. Qed.

Lemma sbit_test_eq v b k : sbits b = 2 ^ k -> 0 <= k -> sbit_test v b = Z.testbit v k.
Proof. intros E Hk. rewrite <- (has_flag_testbit v k Hk). unfold has_flag, sbit_test. by rewrite E. Qed.

Lemma sbit_put_bit v b on j k : sbits b = 2 ^ j -> 0 <= j -> 0 <= k < 64 ->
  Z.testbit (sbit_put v b on) k = if k =? j then on else Z.testbit v k.
Proof.
  intros E Hj Hk. unfold sbit_put. destruct on.
  - rewrite Z.lor_spec, E, Z.pow2_bits_eqb by lia. rewrite Z.eqb_sym. destruct (k =? j); [by rewrite orb_true_r|by rewrite orb_false_r].
  - rewrite clear64_bit, E, Z.pow2_bits_eqb by lia. rewrite Z.eqb_sym. destruct (k =? j); [by rewrite andb_false_r|by rewrite andb_true_r].
Qed.

(** SIE, SPIE and SPP. *)
Definition st_sie (h : hart) : bool := Z.testbit (h_csr h MSTATUS) 1.
Definition st_spie (h : hart) : bool := Z.testbit (h_csr h MSTATUS) 5.
Definition st_spp (h : hart) : bool := Z.testbit (h_csr h MSTATUS) 8.

Lemma SMASK_bit k : 0 <= k -> Z.testbit SMASK k = (k =? 8) || (k =? 5) || (k =? 1).
Proof.
  intros Hk. change SMASK with (Z.lor (Z.lor (2 ^ 8) (2 ^ 5)) (2 ^ 1)). rewrite !Z.lor_spec, !Z.pow2_bits_eqb by lia.
  by rewrite (Z.eqb_sym 8), (Z.eqb_sym 5), (Z.eqb_sym 1).
Qed.

(** What w_sstatus() leaves in mstatus. *)
Lemma w_sstatus_bit st v k : 0 <= k < 64 ->
  Z.testbit (Z.lor (clear64 st SMASK) (Z.land v SMASK)) k = if (k =? 8) || (k =? 5) || (k =? 1) then Z.testbit v k else Z.testbit st k.
Proof.
  intros Hk. rewrite Z.lor_spec, clear64_bit, Z.land_spec, SMASK_bit by lia.
  destruct ((k =? 8) || (k =? 5) || (k =? 1)); [by rewrite andb_false_r, andb_true_r|]. by rewrite andb_false_r, andb_true_r, orb_false_r.
Qed.

Lemma sstatus_bit h k : 0 <= k < 64 -> Z.testbit (sstatus_of h) k = ((k =? 8) || (k =? 5) || (k =? 1)) && Z.testbit (h_csr h MSTATUS) k.
Proof. intros Hk. unfold sstatus_of. rewrite Z.land_spec, SMASK_bit by lia. apply andb_comm. Qed.

(** * Page tables during a trap *)

Lemma satp_of pt : 0 <= pt < 2 ^ 56 -> pt mod PGSIZE = 0 -> satp_mode (MAKE_SATP pt) = 8 /\ satp_root (MAKE_SATP pt) = pt.
Proof.
  intros Hp Ha. unfold satp_mode, satp_root, MAKE_SATP. change SATP_SV39 with (Z.shiftl 8 60).
  assert (Hr : 0 <= Z.shiftr pt 12 < 2 ^ 44) by (rewrite Z.shiftr_div_pow2 by lia; split; [apply Z.div_pos; lia|apply Z.div_lt_upper_bound; lia]).
  assert (Hbits : forall k, 44 <= k -> Z.testbit (Z.shiftr pt 12) k = false).
  { intros k Hk. rewrite <- (Z.mod_small (Z.shiftr pt 12) (2 ^ 44)) by lia. apply Z.mod_pow2_bits_high. lia. }
  split.
  - rewrite Z.shiftr_lor, Z.shiftr_shiftl_l by lia. change (Z.shiftl 8 (60 - 60)) with 8.
    assert (E : Z.shiftr (Z.shiftr pt 12) 60 = 0) by (rewrite Z.shiftr_div_pow2 by lia; apply Z.div_small; lia). by rewrite E.
  - assert (E : Z.land (Z.lor (Z.shiftl 8 60) (Z.shiftr pt 12)) (2 ^ 44 - 1) = Z.shiftr pt 12).
    { apply Z.bits_inj'. intros k Hk. change (2 ^ 44 - 1) with (Z.ones 44). rewrite Z.land_spec, Z.lor_spec, Z.shiftl_spec by lia.
      destruct (Z.lt_ge_cases k 44).
      - rewrite Z.ones_spec_low, andb_true_r by lia. rewrite Z.testbit_neg_r by lia. done.
      - rewrite Z.ones_spec_high, andb_false_r by lia. by rewrite Hbits. }
    rewrite E. rewrite Z.shiftr_div_pow2, Z.shiftl_mul_pow2 by lia. change (2 ^ 12) with PGSIZE.
    pose proof (Z.div_mod pt PGSIZE ltac:(done)). lia.
Qed.

Section path.
Context `{L : Layout} `{!LayoutOk L} `{Y : Symbols} `{!SymbolsOk Y}.

Lemma page_ok_56 p : page_ok p -> 0 <= p < 2 ^ 56 /\ p mod PGSIZE = 0.
Proof. intros Hp. pose proof (page_ok_pa p Hp) as (H1 & H2 & H3). unfold PGSIZE in *. split; [lia|done]. Qed.

Lemma pte_val_addr pa perm : 0 <= pa < 2 ^ 56 -> pa mod PGSIZE = 0 -> 0 <= perm < 2 ^ 10 -> PTE2PA (pte_val pa perm) = pa.
Proof.
  intros Hpa Hal Hp. unfold pte_val. rewrite <- Z.lor_assoc. apply PTE2PA_lor; [done|done|]. apply lor_range; unfold PTE_V; lia.
Qed.

(** A page that the table maps. *)
Lemma translate_page acc md pt m va pa perm o :
  md <> Machine -> page_ok pt -> va mod PGSIZE = 0 -> 0 <= va < MAXVA -> 0 <= o < PGSIZE -> 0 <= pa < 2 ^ 56 -> pa mod PGSIZE = 0 ->
  0 <= perm < 2 ^ 10 -> pte_of m pt va = pte_val pa perm -> pte_permits acc md (pte_val pa perm) = true ->
  translate acc md (MAKE_SATP pt) m (va + o) = Some (pa + o).
Proof.
  intros Hmd Hpt Hva Hr Ho Hpa Hpal Hperm Hpte Hok. destruct (page_ok_56 pt Hpt) as [Hp1 Hp2]. destruct (satp_of pt Hp1 Hp2) as [E1 E2].
  unfold translate. rewrite E1, E2, bool_decide_false by done. cbn [orb Z.eqb Pos.eqb andb].
  assert (Hv : va + o < MAXVA) by (rewrite MAXVA_eq in *; unfold PGSIZE in *; Z.to_euclidean_division_equations; lia).
  rewrite (proj2 (Z.leb_le 0 (va + o))), (proj2 (Z.ltb_lt (va + o) MAXVA)) by lia. cbn [andb].
  assert (Ediv : (va + o) / PGSIZE = va / PGSIZE).
  { pose proof (Z.div_mod va PGSIZE ltac:(done)). symmetry. apply (Z.div_unique _ _ _ o); lia. }
  rewrite pte_of_pg, Ediv, <- pte_of_pg, Hpte, Hok. rewrite pte_val_addr by done.
  rewrite <- Zplus_mod_idemp_l, Hva, Z.add_0_l, Z.mod_small by lia. done.
Qed.

(** The page tables of the process and of the kernel, and the trapframe. *)
Record trap_tables (m : mem) (kpt pt tf : Z) (kown own : gmap Z (list Z)) : Prop := {
  tb_user : pt_inv m pt own;
  tb_kernel : pt_inv m kpt kown;
  tb_page : page_ok tf;
  tb_own : own !! tf = None;
  tb_kown : kown !! tf = None;
  tb_frame : pte_of m pt TRAPFRAME = pte_val tf RW;
  tb_tramp : pte_of m pt TRAMPOLINE = pte_val trampoline RX;
  tb_ktramp : pte_of m kpt TRAMPOLINE = pte_val trampoline RX
}.

Lemma tf_not_owned m pt own tf y : pt_inv m pt own -> page_ok tf -> own !! tf = None -> in_page tf y -> ~ owned_byte own y.
Proof.
  intros Hp Htf Ho Hy (p & path & Hpp & Hin). destruct (pt_page _ _ _ Hp p path Hpp) as [Hok _].
  apply (in_page_ne tf p y); try done. intros ->. congruence.
Qed.

Lemma trap_tables_frame m m' kpt pt tf kown own : trap_tables m kpt pt tf kown own -> (forall y, ~ in_page tf y -> ld8 m' y = ld8 m y) ->
  trap_tables m' kpt pt tf kown own.
Proof.
  intros [T1 T2 T3 T4 T5 T6 T7 T8] Hm.
  assert (Hu : forall y, owned_byte own y -> ld8 m' y = ld8 m y) by (intros y Hy; apply Hm; intros Hin; by apply (tf_not_owned m pt own tf y)).
  assert (Hk : forall y, owned_byte kown y -> ld8 m' y = ld8 m y) by (intros y Hy; apply Hm; intros Hin; by apply (tf_not_owned m kpt kown tf y)).
  split; try done; [by apply (pt_inv_frame m)..| | |].
  - by rewrite (pte_frame m m' pt own).
  - by rewrite (pte_frame m m' pt own).
  - by rewrite (pte_frame m m' kpt kown).
Qed.

Lemma root_ok m pt own : pt_inv m pt own -> page_ok pt.
Proof. intros H. by apply (pt_page _ _ _ H pt [] (pt_root _ _ _ H)). Qed.

Lemma trampoline_ok : 0 <= trampoline < 2 ^ 56 /\ trampoline mod PGSIZE = 0.
Proof.
  pose proof trampoline_range as [H1 H2]. pose proof etext_range as [_ H3]. pose proof kend_range as H4. split; [|apply trampoline_aligned].
  unfold PHYSTOP, KERNBASE in *. lia.
Qed.

Lemma RW_permits pa acc : 0 <= pa < 2 ^ 56 -> acc <> Fetch -> pte_permits acc Supervisor (pte_val pa RW) = true.
Proof.
  intros Hpa Ha. unfold pte_permits. rewrite pte_val_valid, has_flag_U, pte_val_bit, bool_decide_false by (done || lia).
  destruct acc; [done| |]; (change PTE_R with (2 ^ 1) || change PTE_W with (2 ^ 2)); rewrite has_flag_testbit, pte_val_bit by lia; done.
Qed.
Lemma RX_permits pa : 0 <= pa < 2 ^ 56 -> pte_permits Fetch Supervisor (pte_val pa RX) = true.
Proof.
  intros Hpa. unfold pte_permits. rewrite pte_val_valid, has_flag_U, pte_val_bit, bool_decide_false by (done || lia).
  change PTE_X with (2 ^ 3). rewrite has_flag_testbit, pte_val_bit by lia. done.
Qed.

Lemma fetch_ok m pt own : pt_inv m pt own -> pte_of m pt TRAMPOLINE = pte_val trampoline RX ->
  translate Fetch Supervisor (MAKE_SATP pt) m TRAMPOLINE = Some trampoline.
Proof.
  intros Hp Hpte. destruct trampoline_ok as [H1 H2].
  pose proof (translate_page Fetch Supervisor pt m TRAMPOLINE trampoline RX 0) as T. rewrite !Z.add_0_r in T.
  apply T; try done. - by eapply root_ok. - by apply RX_permits.
Qed.

Lemma frame_ok acc m kpt pt tf kown own o : trap_tables m kpt pt tf kown own -> acc <> Fetch -> 0 <= o < PGSIZE ->
  translate acc Supervisor (MAKE_SATP pt) m (TRAPFRAME + o) = Some (tf + o).
Proof.
  intros [T1 T2 T3 T4 T5 T6 T7 T8] Ha Ho. destruct (page_ok_56 tf T3) as [H1 H2].
  apply (translate_page acc Supervisor pt m TRAPFRAME tf RW); try done. - by eapply root_ok. - by apply RW_permits.
Qed.

(** The trapframe seen from a0 under the user page table. *)
Lemma tf_window acc h kpt pt tf kown own : trap_tables (h_mem h) kpt pt tf kown own -> acc <> Fetch ->
  h_mode h = Supervisor -> h_csr h SATP = MAKE_SATP pt -> h_x h A0 = TRAPFRAME -> window acc A0 PGSIZE tf own h.
Proof.
  intros T Ha Hm Hs Hx. pose proof T as [T1 T2 T3 T4 T5 T6 T7 T8]. destruct (page_ok_56 pt (root_ok _ _ _ T1)) as [P1 P2].
  destruct (satp_of pt P1 P2) as [_ E]. split; rewrite ?Hx, ?Hs, ?E; try done.
  - intros o H1 H2. unfold haddr. rewrite Hm, Hs. rewrite u64_small by (change TRAPFRAME with (2 ^ 38 - 2 * 4096); unfold PGSIZE in *; lia).
    apply (frame_ok acc _ kpt pt tf kown own); [done|done|lia].
  - intros y Hy. apply (tf_not_owned (h_mem h) pt own tf); try done.
Qed.

(** * Into the kernel *)

Definition other_regs : list reg :=
  [RA; SP; GP; TP; T0; T1; T2; S0; S1; A1; A2; A3; A4; A5; A6; A7; S2; S3; S4; S5; S6; S7; S8; S9; S10; S11; T3; T4; T5; T6].
Definition tf_table : list (reg * Z) := (fun r => (r, tf_slot r)) <$> other_regs.

Lemma uservec_eq : uservec = [Csrw SSCRATCH A0; Li A0 TRAPFRAME] ++ saves A0 tf_table ++ Csrr T0 SSCRATCH :: saves A0 [(T0, 112)] ++
  loads A0 [(SP, 8); (TP, 32); (T0, 16); (T1, 0)] ++ [Sfence_vma; Csrw SATP T1; Sfence_vma; Jalr T0 userret_va].
Proof. done. Qed.
Lemma userret_eq : userret = [Sfence_vma; Csrw SATP A0; Sfence_vma; Li A0 TRAPFRAME] ++ loads A0 tf_table ++ [Ld A0 112 A0; Sret].
Proof. done. Qed.
Lemma tf_table_ok : slots_ok PGSIZE tf_table = true /\ NoDup tf_table.*1 /\ A0 ∉ tf_table.*1.
Proof. split; [done|]. split; [apply (bool_decide_unpack _); by vm_compute|]. apply (bool_decide_unpack _). by vm_compute. Qed.
Lemma tf_table_elem r : r <> A0 -> (r, tf_slot r) ∈ tf_table.
Proof. intros H. apply list_elem_of_fmap. exists r. split; [done|]. apply list_elem_of_In. destruct r; try done; cbn; tauto. Qed.
Lemma tf_table_elem_inv r o : (r, o) ∈ tf_table -> o = tf_slot r /\ r <> A0.
Proof.
  intros (r' & [= -> ->] & H)%list_elem_of_fmap. split; [done|]. intros ->. by apply (proj2 (proj2 tf_table_ok)).
Qed.
Lemma tf_slot_inj r r' : tf_slot r = tf_slot r' -> r = r'.
Proof. by destruct r, r'. Qed.
Lemma tf_slot_range r : 40 <= tf_slot r /\ tf_slot r + 8 <= 288 /\ tf_slot r mod 8 = 0.
Proof. by destruct r. Qed.

(** The saved registers, and the rest of the trapframe. *)
Definition saved (tf : Z) (x : reg -> Z) (m : mem) : Prop := forall r, ld64 m (tf + tf_slot r) = x r.

Lemma uservec_mem tf x m : (forall r, 0 <= x r < 2 ^ 64) -> let m' := st64 (save_all tf x tf_table m) (tf + 112) (x A0) in
  saved tf x m' /\ (forall y, ~ in_page tf y -> ld8 m' y = ld8 m y) /\ (forall f, ld64 m' (tf + tf_off f) = ld64 m (tf + tf_off f)).
Proof.
  intros Hx m'. destruct tf_table_ok as (K1 & _ & _). split; [|split].
  - intros r. unfold m'. destruct (decide (r = A0)) as [->|Hr]; [by apply ld64_st64_eq|].
    pose proof (tf_slot_range r) as (R1 & R2 & R3). rewrite ld64_st64_ne.
    + by apply (save_all_slot PGSIZE); [..|apply tf_table_elem].
    + destruct (apart8 (tf_slot r) 112 R3 eq_refl); [|lia|lia]. intros E. apply Hr. by apply tf_slot_inj.
  - intros y Hy. unfold m', in_page in *. rewrite ld8_st64_out by (unfold PGSIZE in *; lia). apply (save_all_out PGSIZE); [done|lia].
  - intros f. unfold m'. rewrite ld64_st64_ne by (destruct f; cbn; lia). apply (save_all_keep PGSIZE); [done|by destruct f|].
    intros r o [-> _]%tf_table_elem_inv. pose proof (tf_slot_range r). destruct f; cbn; lia.
Qed.

(** The registers of the core are 64 bits wide. *)
Definition regs_ok (h : hart) : Prop := forall r, 0 <= h_x h r < 2 ^ 64.

Lemma wp_straight va pa i code (Q : unit -> hart -> Prop) h h' : haddr Fetch va h = Some pa -> exec i h = Ok tt h' ->
  wp (run va pa code) Q h' -> wp (run va pa (i :: code)) Q h.
Proof. intros Hf He HQ. apply wp_run_cons; [done|]. unfold wp. by rewrite He. Qed.

Lemma trampoline_label o : 0 <= o < PGSIZE -> 0 <= TRAMPOLINE + o < 2 ^ 64.
Proof. change TRAMPOLINE with (2 ^ 38 - 4096). unfold PGSIZE. lia. Qed.

(** The state the C code of the kernel finds after uservec. *)
Record entered (tf kpt : Z) (h h' : hart) : Prop := {
  en_mode : h_mode h' = Supervisor;
  en_pc : h_pc h' = ld64 (h_mem h) (tf + tf_off TfKernelTrap);
  en_sp : h_x h' SP = ld64 (h_mem h) (tf + tf_off TfKernelSp);
  en_tp : h_x h' TP = ld64 (h_mem h) (tf + tf_off TfKernelHartid);
  en_ra : h_x h' RA = userret_va;
  en_satp : h_csr h' SATP = MAKE_SATP kpt;
  en_csr : forall c, c <> SATP -> c <> SSCRATCH -> h_csr h' c = h_csr h c;
  en_saved : saved tf (h_x h) (h_mem h');
  en_fields : forall f, ld64 (h_mem h') (tf + tf_off f) = ld64 (h_mem h) (tf + tf_off f);
  en_mem : forall y, ~ in_page tf y -> ld8 (h_mem h') y = ld8 (h_mem h) y;
  en_regs : regs_ok h'
}.

Lemma uservec_spec h kpt pt tf kown own : trap_tables (h_mem h) kpt pt tf kown own -> regs_ok h -> h_mode h = Supervisor ->
  h_csr h SATP = MAKE_SATP pt -> ld64 (h_mem h) (tf + tf_off TfKernelSatp) = MAKE_SATP kpt ->
  wp (run TRAMPOLINE trampoline uservec) (fun _ h' => entered tf kpt h h') h.
Proof.
  intros T Hx Hm Hs Hk. rewrite uservec_eq. destruct tf_table_ok as (K1 & _ & _).
  assert (Hf : forall g m, h_csr g SATP = MAKE_SATP pt -> h_mode g = Supervisor -> h_mem g = m -> trap_tables m kpt pt tf kown own ->
    haddr Fetch TRAMPOLINE g = Some trampoline).
  { intros g m E1 E2 <- Tg. unfold haddr. rewrite E1, E2. by apply (fetch_ok _ _ own); apply Tg. }
  cbn [app]. eapply wp_straight; [by apply (Hf h (h_mem h))|done|]. eapply wp_straight; [by apply (Hf _ (h_mem h))|done|].
  set (h1 := set_x A0 TRAPFRAME _). set (m1 := save_all tf (h_x h1) tf_table (h_mem h1)).
  apply (wp_run_saves _ _ A0 PGSIZE tf own); [by apply (tf_window _ _ kpt pt tf kown own)|by apply (Hf _ (h_mem h))|done|].
  destruct (uservec_mem tf (h_x h) (h_mem h) Hx) as (U1 & U2 & U3).
  assert (Em : m1 = save_all tf (h_x h) tf_table (h_mem h)) by done.
  assert (T1 : trap_tables m1 kpt pt tf kown own).
  { apply (trap_tables_frame (h_mem h)); [done|]. intros y Hy. rewrite Em. apply (save_all_out PGSIZE); [done|]. unfold in_page in Hy. lia. }
  eapply wp_straight; [by apply (Hf _ m1)|done|]. set (h2 := set_x T0 _ _).
  apply (wp_run_saves _ _ A0 PGSIZE tf own); [by apply (tf_window _ _ kpt pt tf kown own)|by apply (Hf _ m1)|done|].
  set (m2 := st64 m1 (tf + 112) (h_x h A0)). set (h3 := set_hmem _ h2). change (h_mem h3) with m2 in *.
  assert (T2 : trap_tables m2 kpt pt tf kown own) by (apply (trap_tables_frame (h_mem h)); [done|]; intros y Hy; by apply U2).
  apply (wp_run_loads _ _ A0 PGSIZE tf own); [by apply (tf_window _ _ kpt pt tf kown own)|by apply (Hf _ m2)|done|apply (bool_decide_unpack _); by vm_compute|].
  set (h4 := Hart _ _ _ _ _). assert (Ef : forall f, ld64 m2 (tf + tf_off f) = ld64 (h_mem h) (tf + tf_off f)) by apply U3.
  eapply wp_straight; [by apply (Hf h4 m2)|done|]. eapply wp_straight; [by apply (Hf h4 m2)|done|].
  set (h5 := set_csr SATP _ h4). assert (E5 : h_csr h5 SATP = MAKE_SATP kpt) by (rewrite <- Hk; exact (Ef TfKernelSatp)).
  assert (Hf5 : haddr Fetch TRAMPOLINE h5 = Some trampoline).
  { unfold haddr. rewrite E5. change (h_mode h5) with (h_mode h). rewrite Hm. apply (fetch_ok _ _ kown); apply T2. }
  eapply wp_straight; [done|done|]. eapply wp_straight; [done|done|]. cbn [run]. wp_simp.
  split; [exact Hm|exact (Ef TfKernelTrap)|exact (Ef TfKernelSp)|exact (Ef TfKernelHartid)|done|exact E5| |exact U1|exact Ef|exact U2|].
  - intros c' H1 H2. cbn. rewrite !rset_ne by done. done.
  - intros r. refine (rset_range RA userret_va (h_x h5) (trampoline_label _ userret_range) _ r). apply load_all_range.
    refine (rset_range T0 (h_x h A0) (h_x h1) (Hx A0) _). by refine (rset_range A0 TRAPFRAME (h_x h) _ Hx).
Qed.

(** * Back to user space *)

(** The state userret leaves. *)
Record returned (tf pt : Z) (h h' : hart) : Prop := {
  re_regs : saved tf (h_x h') (h_mem h);
  re_mem : h_mem h' = h_mem h;
  re_satp : h_csr h' SATP = MAKE_SATP pt;
  re_csr : forall c, c <> SATP -> c <> MSTATUS -> h_csr h' c = h_csr h c;
  re_pc : h_pc h' = h_csr h SEPC;
  re_mode : h_mode h' = if st_spp h then Supervisor else User;
  re_sie : st_sie h' = st_spie h
}.

Lemma sret_sie h : st_sie (sret h) = st_spie h.
Proof.
  unfold st_sie, sret. cbn [h_csr set_pc set_mode set_csr]. rewrite rset_eq.
  rewrite (sbit_put_bit _ SSTATUS_SPP _ 8), (sbit_put_bit _ SSTATUS_SPIE _ 5), (sbit_put_bit _ SSTATUS_SIE _ 1) by (done || lia).
  cbn [Z.eqb Pos.eqb]. by apply sbit_test_eq.
Qed.
Lemma sret_mode h : h_mode (sret h) = if st_spp h then Supervisor else User.
Proof. unfold sret. cbn [h_mode set_pc set_mode]. by rewrite (sbit_test_eq _ SSTATUS_SPP 8). Qed.

Lemma userret_spec h kpt pt tf kown own : trap_tables (h_mem h) kpt pt tf kown own -> h_mode h = Supervisor ->
  h_csr h SATP = MAKE_SATP kpt -> h_x h A0 = MAKE_SATP pt ->
  wp (run TRAMPOLINE trampoline userret) (fun _ h' => returned tf pt h h') h.
Proof.
  intros T Hm Hs Ha. rewrite userret_eq. destruct tf_table_ok as (K1 & K2 & K3).
  assert (Hk : haddr Fetch TRAMPOLINE h = Some trampoline) by (unfold haddr; rewrite Hs, Hm; apply (fetch_ok _ _ kown); apply T).
  cbn [app]. eapply wp_straight; [done|done|]. eapply wp_straight; [done|done|].
  set (h1 := set_csr SATP _ h). assert (E1 : h_csr h1 SATP = MAKE_SATP pt) by exact Ha.
  assert (Hf : forall g, h_csr g = h_csr h1 -> h_mode g = h_mode h -> h_mem g = h_mem h -> haddr Fetch TRAMPOLINE g = Some trampoline).
  { intros g G1 G2 G3. unfold haddr. rewrite G1, G2, G3, E1, Hm. apply (fetch_ok _ _ own); apply T. }
  eapply wp_straight; [by apply Hf|done|]. eapply wp_straight; [by apply Hf|done|]. set (h2 := set_x A0 TRAPFRAME h1).
  apply (wp_run_loads _ _ A0 PGSIZE tf own); [by apply (tf_window _ _ kpt pt tf kown own)|by apply Hf|done|done|].
  set (h3 := Hart _ _ _ _ _). assert (Ea : h_x h3 A0 = TRAPFRAME) by (cbn [h3 h_x]; by rewrite load_all_ne).
  pose proof (tf_window Load h3 kpt pt tf kown own T ltac:(done) Hm E1 Ea) as W.
  apply wp_run_cons; [by apply Hf|]. eapply wp_ld; [apply u64_mod8; [apply W|done]|apply W; unfold PGSIZE; lia|]. set (h4 := set_x A0 _ h3).
  eapply wp_straight; [by apply Hf|done|]. cbn [run]. wp_simp. split; [|done|exact E1| |done|exact (sret_mode h4)|exact (sret_sie h4)].
  - intros r. cbn [h_x sret h4 set_pc set_mode set_csr set_x]. destruct (decide (r = A0)) as [->|Hr]; [by rewrite rset_eq|].
    rewrite rset_ne by done. cbn [h3 h_x]. by rewrite (load_all_slot _ _ _ _ _ (tf_slot r)) by (done || by apply tf_table_elem).
  - intros c H1 H2. cbn. by rewrite !rset_ne.
Qed.

(** * prepare_return() *)

Lemma tf_off_range f : 0 <= tf_off f /\ tf_off f + 8 <= 40 /\ tf_off f mod 8 = 0. Proof. by destruct f. Qed.
Lemma tf_off_inj f g : tf_off f = tf_off g -> f = g. Proof. by destruct f, g. Qed.

(** A store to a field of the trapframe. *)
Lemma tf_store tf f v m : 0 <= v < 2 ^ 64 -> let m' := st64 m (tf + tf_off f) v in
  ld64 m' (tf + tf_off f) = v /\ (forall g, g <> f -> ld64 m' (tf + tf_off g) = ld64 m (tf + tf_off g)) /\
  (forall r, ld64 m' (tf + tf_slot r) = ld64 m (tf + tf_slot r)) /\ (forall y, ~ in_page tf y -> ld8 m' y = ld8 m y).
Proof.
  intros Hv m'. pose proof (tf_off_range f) as (F1 & F2 & F3). split; [by apply ld64_st64_eq|]. split; [|split].
  - intros g Hg. pose proof (tf_off_range g) as (G1 & G2 & G3). apply ld64_st64_ne.
    destruct (apart8 (tf_off f) (tf_off g) F3 G3); [|lia|lia]. intros E. apply Hg. symmetry. by apply tf_off_inj.
  - intros r. pose proof (tf_slot_range r). apply ld64_st64_ne. lia.
  - intros y Hy. apply ld8_st64_out. unfold in_page, PGSIZE in Hy. lia.
Qed.

Definition tf_fields (tf : Z) (f : tf_field -> Z) (m : mem) : Prop := forall g, ld64 m (tf + tf_off g) = f g.

Record prepared (kstack tf : Z) (h h' : hart) : Prop := {
  pp_x : h_x h' = h_x h;
  pp_mode : h_mode h' = h_mode h;
  pp_csr : forall c, c <> STVEC -> c <> SEPC -> c <> MSTATUS -> h_csr h' c = h_csr h c;
  pp_stvec : h_csr h' STVEC = uservec_va;
  pp_sepc : h_csr h' SEPC = ld64 (h_mem h) (tf + tf_off TfEpc);
  pp_bits : st_spp h' = false /\ st_spie h' = true;
  pp_fields : ld64 (h_mem h') (tf + tf_off TfKernelSatp) = h_csr h SATP /\
    ld64 (h_mem h') (tf + tf_off TfKernelSp) = u64 (kstack + PGSIZE) /\
    ld64 (h_mem h') (tf + tf_off TfKernelTrap) = usertrap_addr /\
    ld64 (h_mem h') (tf + tf_off TfKernelHartid) = h_x h TP /\
    ld64 (h_mem h') (tf + tf_off TfEpc) = ld64 (h_mem h) (tf + tf_off TfEpc);
  pp_slots : forall r, ld64 (h_mem h') (tf + tf_slot r) = ld64 (h_mem h) (tf + tf_slot r);
  pp_mem : forall y, ~ in_page tf y -> ld8 (h_mem h') y = ld8 (h_mem h) y
}.

Lemma prepare_mem tf satp ksp trap tp m : 0 <= satp < 2 ^ 64 -> 0 <= ksp < 2 ^ 64 -> 0 <= trap < 2 ^ 64 -> 0 <= tp < 2 ^ 64 ->
  let m' := st64 (st64 (st64 (st64 m (tf + tf_off TfKernelSatp) satp) (tf + tf_off TfKernelSp) ksp) (tf + tf_off TfKernelTrap) trap)
    (tf + tf_off TfKernelHartid) tp in
  tf_fields tf (fun g => match g with TfKernelSatp => satp | TfKernelSp => ksp | TfKernelTrap => trap | TfKernelHartid => tp
    | TfEpc => ld64 m (tf + tf_off TfEpc) end) m' /\
  (forall r, ld64 m' (tf + tf_slot r) = ld64 m (tf + tf_slot r)) /\ (forall y, ~ in_page tf y -> ld8 m' y = ld8 m y).
Proof.
  intros R1 R2 R3 R4 m'. set (m1 := st64 m _ satp) in m'. set (m2 := st64 m1 _ ksp) in m'. set (m3 := st64 m2 _ trap) in m'.
  destruct (tf_store tf TfKernelSatp satp m R1) as (A1 & A2 & A3 & A4). destruct (tf_store tf TfKernelSp ksp m1 R2) as (B1 & B2 & B3 & B4).
  destruct (tf_store tf TfKernelTrap trap m2 R3) as (C1 & C2 & C3 & C4). destruct (tf_store tf TfKernelHartid tp m3 R4) as (D1 & D2 & D3 & D4).
  fold m1 in A1, A2, A3, A4. fold m2 in B1, B2, B3, B4. fold m3 in C1, C2, C3, C4. fold m' in D1, D2, D3, D4.
  split; [|split].
  - intros [| | | |]; [by rewrite D2, C2, B2|by rewrite D2, C2|by rewrite D2|by rewrite D2, C2, B2, A2|done].
  - intros r. by rewrite D3, C3, B3, A3.
  - intros y Hy. by rewrite D4, C4, B4, A4.
Qed.

Lemma prepare_return_spec h kstack tf : 0 <= h_csr h SATP < 2 ^ 64 -> regs_ok h ->
  wp (prepare_return kstack tf) (fun _ h' => prepared kstack tf h h') h.
Proof.
  intros Hs Hx. pose proof usertrap_range as Hu. unfold prepare_return, intr_off, r_sstatus, w_sstatus, w_csr, r_csr, r_tp, tf_set, tf_get. wp_simp.
  destruct (prepare_mem tf (h_csr h SATP) (u64 (kstack + PGSIZE)) usertrap_addr (h_x h TP) (h_mem h) Hs (u64_range _) Hu (Hx TP)) as (P1 & P2 & P3).
  split; [done|done| |done|exact (P1 TfEpc)| | |exact P2|exact P3].
  - intros c H1 H2 H3. cbn. by rewrite !rset_ne.
  - unfold st_spp, st_spie. cbn [h_csr set_csr set_hmem]. rewrite (rset_ne SEPC MSTATUS), rset_eq by done.
    rewrite !w_sstatus_bit by lia. cbn [Z.eqb Pos.eqb orb]. rewrite !Z.lor_spec, clear64_bit by lia.
    split; [|by rewrite orb_true_r]. change (Z.testbit (sbits SSTATUS_SPP) 8) with true. change (Z.testbit (sbits SSTATUS_SPIE) 8) with false.
    by rewrite andb_false_r.
  - split_and!; [exact (P1 TfKernelSatp)|exact (P1 TfKernelSp)|exact (P1 TfKernelTrap)|exact (P1 TfKernelHartid)|exact (P1 TfEpc)].
Qed.

(** * There and back *)

(** The kernel works for a process that stopped with the registers [x] at
    [epc]. *)
Record in_kernel (kpt pt tf : Z) (kown own : gmap Z (list Z)) (x : reg -> Z) (epc : Z) (h : hart) : Prop := {
  ik_mode : h_mode h = Supervisor;
  ik_satp : h_csr h SATP = MAKE_SATP kpt;
  ik_tables : trap_tables (h_mem h) kpt pt tf kown own;
  ik_regs : regs_ok h;
  ik_tp : h_x h TP = h_csr h MHARTID;
  ik_saved : saved tf x (h_mem h);
  ik_epc : ld64 (h_mem h) (tf + tf_off TfEpc) = epc
}.

(** The process runs, and the kernel is ready for its next trap. *)
Record in_user (kpt pt tf kstack : Z) (kown own : gmap Z (list Z)) (h : hart) : Prop := {
  iu_mode : h_mode h = User;
  iu_satp : h_csr h SATP = MAKE_SATP pt;
  iu_stvec : h_csr h STVEC = uservec_va;
  iu_sie : st_sie h = true;
  iu_tables : trap_tables (h_mem h) kpt pt tf kown own;
  iu_regs : regs_ok h;
  iu_pc : 0 <= h_pc h < 2 ^ 64;
  iu_ksatp : ld64 (h_mem h) (tf + tf_off TfKernelSatp) = MAKE_SATP kpt;
  iu_ksp : ld64 (h_mem h) (tf + tf_off TfKernelSp) = u64 (kstack + PGSIZE);
  iu_ktrap : ld64 (h_mem h) (tf + tf_off TfKernelTrap) = usertrap_addr;
  iu_khart : ld64 (h_mem h) (tf + tf_off TfKernelHartid) = h_csr h MHARTID
}.

(** What usertrap() finds when it looks at the cause. *)
Record at_cause (kpt pt tf kstack : Z) (kown own : gmap Z (list Z)) (x : reg -> Z) (epc cause tval : Z) (h : hart) : Prop := {
  ac_kernel : in_kernel kpt pt tf kown own x epc h;
  ac_sp : h_x h SP = u64 (kstack + PGSIZE);
  ac_sie : st_sie h = false;
  ac_stvec : h_csr h STVEC = kernelvec_addr;
  ac_scause : h_csr h SCAUSE = cause;
  ac_stval : h_csr h STVAL = tval
}.

Lemma trap_bits cause tval h : st_sie (trap cause tval h) = false /\ st_spie (trap cause tval h) = st_sie h /\
  st_spp (trap cause tval h) = bool_decide (h_mode h = Supervisor).
Proof.
  assert (E : forall k, 0 <= k < 64 -> Z.testbit (h_csr (trap cause tval h) MSTATUS) k =
    if k =? 8 then bool_decide (h_mode h = Supervisor) else if k =? 1 then false else if k =? 5 then st_sie h else Z.testbit (h_csr h MSTATUS) k).
  { intros k Hk. unfold trap. cbn [h_csr set_pc set_mode set_csr]. rewrite !rset_ne, rset_eq by done.
    rewrite (sbit_put_bit _ SSTATUS_SPP _ 8), (sbit_put_bit _ SSTATUS_SIE _ 1), (sbit_put_bit _ SSTATUS_SPIE _ 5) by (done || lia).
    by rewrite (sbit_test_eq _ SSTATUS_SIE 1). }
  unfold st_sie at 1, st_spie, st_spp. by rewrite !E by lia.
Qed.

Lemma usertrap_entry_spec h tf : st_spp h = false ->
  wp (usertrap_entry tf) (fun _ h' => h' = set_hmem (st64 (h_mem h) (tf + tf_off TfEpc) (h_csr h SEPC)) (set_csr STVEC kernelvec_addr h)) h.
Proof.
  intros Hs. unfold usertrap_entry, r_sstatus, w_csr, r_csr, tf_set. wp_simp.
  assert (E : (Z.land (sstatus_of h) (sbits SSTATUS_SPP) =? 0) = true).
  { pose proof (sbit_test_eq (sstatus_of h) SSTATUS_SPP 8 eq_refl ltac:(lia)) as T. unfold sbit_test in T. rewrite sstatus_bit in T by lia.
    unfold st_spp in Hs. rewrite Hs in T. by apply negb_false_iff. }
  rewrite E. cbn [negb]. by wp_simp.
Qed.

Lemma MAKE_SATP_range pt : 0 <= pt < 2 ^ 56 -> 0 <= MAKE_SATP pt < 2 ^ 64.
Proof.
  intros Hp. unfold MAKE_SATP. change SATP_SV39 with (2 ^ 63). rewrite Z.shiftr_div_pow2 by lia.
  assert (0 <= pt / 2 ^ 12 < 2 ^ 44) by (split; [apply Z.div_pos; lia|apply Z.div_lt_upper_bound; lia]). apply lor_range; lia.
Qed.

(** The way out, from prepare_return() on. *)
Lemma return_spec h kpt pt tf kstack kown own x epc : in_kernel kpt pt tf kown own x epc h ->
  wp (prepare_return kstack tf ;; modify (fun h => set_pc userret_va (set_x A0 (MAKE_SATP pt) h)) ;; run TRAMPOLINE trampoline userret)
    (fun _ h' => in_user kpt pt tf kstack kown own h' /\ (forall r, h_x h' r = x r) /\ h_pc h' = epc) h.
Proof.
  intros [K1 K2 K3 K4 K5 K6 K7].
  assert (Hr : 0 <= h_csr h SATP < 2 ^ 64) by (rewrite K2; apply MAKE_SATP_range, page_ok_56, (root_ok (h_mem h) _ kown), K3).
  rewrite wp_bind. eapply wp_mono; [by apply prepare_return_spec|]. intros [] h1 [P1 P2 P3 P4 P5 [P6 P6'] (F1 & F2 & F3 & F4 & F5) P8 P9].
  wp_simp. set (h2 := set_pc _ _).
  assert (T2 : trap_tables (h_mem h1) kpt pt tf kown own) by by apply (trap_tables_frame (h_mem h)).
  eapply wp_mono; [apply (userret_spec h2 kpt pt tf kown own); [done|by rewrite <- K1|by rewrite <- K2, <- P3|by cbn; rewrite rset_eq]|].
  intros [] h3 [R1 R2 R3 R4 R5 R6 R7]. change (h_mem h2) with (h_mem h1) in *. change (h_csr h2) with (h_csr h1) in *.
  change (st_spp h2) with (st_spp h1) in R6. change (st_spie h2) with (st_spie h1) in R7. rewrite P6 in R6. rewrite P6' in R7.
  assert (Ex : forall r, h_x h3 r = x r) by (intros r; by rewrite <- R1, P8).
  assert (Epc : h_pc h3 = epc) by congruence.
  split; [|done]. split; rewrite ?R2; try congruence.
  - by rewrite R4.
  - intros r. rewrite <- R1. apply ld64_range.
  - rewrite Epc, <- K7. apply ld64_range.
  - by rewrite R4, P3, <- K5.
Qed.

(** The way in, as far as the test of scause. *)
Lemma enter_spec h kpt pt tf kstack kown own cause tval : in_user kpt pt tf kstack kown own h ->
  wp (modify (trap cause tval) ;; at_pc uservec_va ;; run TRAMPOLINE trampoline uservec)
    (fun _ h1 => h_pc h1 = usertrap_addr /\ h_x h1 RA = userret_va /\
      wp (usertrap_entry tf) (fun _ => at_cause kpt pt tf kstack kown own (h_x h) (h_pc h) cause tval) h1) h.
Proof.
  intros [U1 U2 U3 U4 U5 U6 U7 U8 U9 U10 U11]. wp_simp. unfold at_pc. wp_simp. change (h_pc (trap cause tval h)) with (h_csr h STVEC).
  rewrite U3, Z.eqb_refl. wp_simp. destruct (trap_bits cause tval h) as (B1 & B2 & B3). rewrite U1, bool_decide_false in B3 by done.
  set (h0 := trap cause tval h) in *.
  eapply wp_mono; [by apply (uservec_spec h0 kpt pt tf kown own)|]. intros [] h1 [E1 E2 E3 E4 E5 E6 E7 E8 E9 E10 E11].
  change (h_mem h0) with (h_mem h) in *. split; [congruence|]. split; [done|].
  assert (Hs : st_spp h1 = false) by (unfold st_spp; by rewrite E7).
  assert (Hp : h_csr h1 SEPC = h_pc h) by by rewrite E7.
  destruct (tf_store tf TfEpc (h_csr h1 SEPC) (h_mem h1)) as (S1 & S2 & S3 & S4); [by rewrite Hp|].
  eapply wp_mono; [by apply usertrap_entry_spec|]. intros [] ? ->. split.
  - split; [done|done| |done| |intros r; cbn [h_mem set_hmem]; by rewrite S3, E8|cbn [h_mem set_hmem]; by rewrite S1].
    + apply (trap_tables_frame (h_mem h1)); [by apply (trap_tables_frame (h_mem h))|done].
    + change (h_x h1 TP = h_csr h1 MHARTID). by rewrite E4, E7, U11.
  - change (h_x h1 SP = u64 (kstack + PGSIZE)). congruence.
  - change (st_sie h1 = false). unfold st_sie. by rewrite E7.
  - done.
  - change (h_csr h1 SCAUSE = cause). by rewrite E7.
  - change (h_csr h1 STVAL = tval). by rewrite E7.
Qed.

(** The first entry of a process into user space. *)
Lemma forkret_end_spec h kpt pt tf kstack kown own x epc : in_kernel kpt pt tf kown own x epc h ->
  wp (forkret_end kstack tf pt) (fun _ h' => in_user kpt pt tf kstack kown own h' /\ (forall r, h_x h' r = x r) /\ h_pc h' = epc) h.
Proof. apply return_spec. Qed.

(** What the kernel may do in usertrap(): from the state it finds, end with
    the page table [pt'] and the registers and program counter in the
    trapframe, which may all be new. *)
Definition serves (work : M hart Z) (kpt pt tf kstack : Z) (kown own : gmap Z (list Z)) (x : reg -> Z) (epc cause tval : Z)
    (Q : Z -> (reg -> Z) -> Z -> Prop) : Prop :=
  forall h, at_cause kpt pt tf kstack kown own x epc cause tval h ->
    wp work (fun pt' h' => exists own' x' epc', in_kernel kpt pt' tf kown own' x' epc' h' /\ Q pt' x' epc') h.
End path.
