(* ===== verification/KernPath.v ===== *)
(** The assembly that runs under the kernel's page table: swtch() exchanges
    exactly the registers of struct context, and an interrupt of the kernel
    itself (kernelvec and kerneltrap()) is invisible to the code it
    interrupts. *)
From S2P Require Import Prelude Mem Kalloc Vm VmSpec VmUser VmProps Kern Kvm Hart Asm AsmSpec TrapHart TrapPath.

Section kern.
Context `{L : Layout} `{!LayoutOk L} `{Y : Symbols} `{!SymbolsOk Y}.

(** The core runs kernel code under the table of kvmmake(). *)
Record on_kernel (kpt : Z) (kown : gmap Z (list Z)) (stk : list Z) (h : hart) : Prop := {
  ok_mode : h_mode h = Supervisor;
  ok_satp : h_csr h SATP = MAKE_SATP kpt;
  ok_tree : pt_inv (h_mem h) kpt kown;
  ok_maps : maps_exactly (h_mem h) kpt (kernel_regions stk);
  ok_stacks : length stk = NPROC /\ forall p, p ∈ stk -> page_ok p
}.

Definition in_text (a : Z) : Prop := KERNBASE <= a < etext.
(** [n] bytes at the virtual address [va], in a writable region of the
    kernel and outside its page table; their physical address is [a]. *)
Definition kdata (kown : gmap Z (list Z)) (stk : list Z) (va n a : Z) : Prop := va mod 8 = 0 /\ 0 < n /\
  (exists r, r ∈ kernel_regions stk /\ rg_perm r = RW /\ rg_va r <= va /\ va + n <= rg_va r + rg_sz r /\ a = rg_pa r + (va - rg_va r)) /\
  (forall y, a <= y < a + n -> ~ owned_byte kown y).

Lemma region_addr acc kpt kown stk h r va : on_kernel kpt kown stk h -> r ∈ kernel_regions stk -> in_region r va ->
  (acc = Fetch /\ rg_perm r = RX \/ acc <> Fetch /\ rg_perm r = RW) -> haddr acc va h = Some (rg_pa r + (va - rg_va r)).
Proof.
  intros [K1 K2 K3 [K4 _] [K5 K6]] Hr Hin Hacc. destruct (kernel_region_cases stk r K6 K5 Hr) as [Hok _].
  destruct (page_ok_56 kpt (root_ok _ _ _ K3)) as [P1 P2]. destruct (satp_of kpt P1 P2) as [E1 E2].
  destruct (rg_pa_in r va Hok Hin) as (_ & Q1 & _ & Q2). destruct Hok as ((V1 & V2 & V3) & _). unfold haddr, translate.
  rewrite K1, K2, E1, E2, bool_decide_false by done. cbn [orb Z.eqb Pos.eqb]. unfold in_region in Hin.
  rewrite (proj2 (Z.leb_le 0 va)), (proj2 (Z.ltb_lt va MAXVA)) by lia. cbn [andb]. rewrite (K4 r va Hr Hin), Q2.
  assert (Hp : pte_permits acc Supervisor (rg_pte r va) = true).
  { unfold rg_pte. destruct Hacc as [[-> ->]|[Ha ->]]; [by apply RX_permits|by apply RW_permits]. }
  rewrite Hp. f_equal. pose proof (Z.div_mod (va - rg_va r) PGSIZE ltac:(done)) as D.
  rewrite Zminus_mod, V2, Z.sub_0_r, Zmod_mod in D. lia.
Qed.

Lemma text_fetch kpt kown stk h a : on_kernel kpt kown stk h -> in_text a -> haddr Fetch a h = Some a.
Proof.
  intros K Ha. rewrite (region_addr Fetch kpt kown stk h (Rg KERNBASE KERNBASE (etext - KERNBASE) RX) a K).
  - cbn. f_equal. lia.
  - apply elem_of_app. right. unfold direct_regions. rewrite !elem_of_cons. auto.
  - unfold in_region, in_text in *. cbn. lia.
  - by left.
Qed.

Lemma kdata_window acc kpt kown stk h base n a : on_kernel kpt kown stk h -> acc <> Fetch -> kdata kown stk (h_x h base) n a ->
  window acc base n a kown h.
Proof.
  intros K Ha (A1 & A2 & (r & R1 & R2 & R3 & R4 & ->) & A4). pose proof K as [K1 K2 K3 K4 [K5 K6]].
  destruct (page_ok_56 kpt (root_ok _ _ _ K3)) as [P1 P2]. destruct (satp_of kpt P1 P2) as [_ E2].
  destruct (kernel_region_cases stk r K6 K5 R1) as [((V1 & V2 & V3) & _) _].
  split; [by rewrite K2, E2|done| |done]. intros o H1 H2. rewrite MAXVA_eq in V3. rewrite u64_small by lia.
  rewrite (region_addr acc kpt kown stk h r _ K R1); [f_equal; lia|unfold in_region; lia|by right].
Qed.

Lemma on_kernel_frame kpt kown stk h h' : on_kernel kpt kown stk h -> h_mode h' = h_mode h -> h_csr h' SATP = h_csr h SATP ->
  (forall y, owned_byte kown y -> ld8 (h_mem h') y = ld8 (h_mem h) y) -> on_kernel kpt kown stk h'.
Proof.
  intros [K1 K2 K3 [K4 K4'] K5] Hm Hs Hy. assert (E : forall va, pte_of (h_mem h') kpt va = pte_of (h_mem h) kpt va) by (intros va; by apply (pte_frame _ _ kpt kown)).
  split; [congruence|congruence|by apply (pt_inv_frame (h_mem h))| |done].
  split; [intros r va H1 H2; rewrite E; by apply K4|intros va H1 H2; rewrite E; by apply K4'].
Qed.

(** * swtch() *)

Definition ctx_table : list (reg * Z) := imap (fun i r => (r, 8 * Z.of_nat i)) context_regs.
Lemma swtch_eq : swtch = saves A0 ctx_table ++ loads A1 ctx_table ++ [Ret].
Proof. done. Qed.
Lemma ctx_table_ok : slots_ok 112 ctx_table = true /\ NoDup ctx_table.*1 /\ A1 ∉ ctx_table.*1.
Proof. split; [done|]. split; apply (bool_decide_unpack _); by vm_compute. Qed.

(** The context at [c] in [m] has the registers of [x]. *)
Definition context_of (m : mem) (c : Z) (x : reg -> Z) : Prop := forall i r, context_regs !! i = Some r -> ld64 m (c + 8 * Z.of_nat i) = x r.

Lemma ctx_elem i r : context_regs !! i = Some r -> (r, 8 * Z.of_nat i) ∈ ctx_table.
Proof. intros H. apply list_elem_of_lookup. exists i. unfold ctx_table. by rewrite list_lookup_imap, H. Qed.
Lemma ctx_range i r : context_regs !! i = Some r -> 0 <= 8 * Z.of_nat i /\ 8 * Z.of_nat i + 8 <= 112.
Proof. intros H%lookup_lt_Some. cbn in H. lia. Qed.

Record switched (c1 c2 : Z) (h h' : hart) : Prop := {
  sw_new : context_of (h_mem h) c2 (h_x h');
  sw_pc : h_pc h' = h_x h' RA;
  sw_old : context_of (h_mem h') c1 (h_x h);
  sw_regs : forall r, r ∉ context_regs -> h_x h' r = h_x h r;
  sw_csr : h_csr h' = h_csr h /\ h_mode h' = h_mode h;
  sw_mem : forall y, y < c1 \/ c1 + 112 <= y -> ld8 (h_mem h') y = ld8 (h_mem h) y
}.

Lemma swtch_spec kpt kown stk page c1 c2 h : on_kernel kpt kown stk h -> regs_ok h -> in_text page ->
  kdata kown stk (h_x h A0) 112 c1 -> kdata kown stk (h_x h A1) 112 c2 -> c1 + 112 <= c2 \/ c2 + 112 <= c1 ->
  wp (run page page swtch) (fun _ h' => switched c1 c2 h h' /\ on_kernel kpt kown stk h') h.
Proof.
  intros K Hx Ht D1 D2 Hd. rewrite swtch_eq. destruct ctx_table_ok as (T1 & T2 & T3).
  apply (wp_run_saves _ _ A0 112 c1 kown); [by apply (kdata_window _ kpt _ stk)|by apply (text_fetch kpt kown stk)|done|].
  set (m1 := save_all c1 (h_x h) ctx_table (h_mem h)). set (h1 := set_hmem m1 h).
  assert (Hm : forall y, y < c1 \/ c1 + 112 <= y -> ld8 m1 y = ld8 (h_mem h) y) by (intros y Hy; by apply (save_all_out 112)).
  assert (K1 : on_kernel kpt kown stk h1).
  { apply (on_kernel_frame _ _ _ h); [done|done|done|]. intros y Hy. apply Hm. destruct D1 as (_ & _ & _ & Hap).
    destruct (Z.lt_ge_cases y c1); [by left|]. destruct (Z.lt_ge_cases y (c1 + 112)); [|by right]. exfalso. by apply (Hap y). }
  apply (wp_run_loads _ _ A1 112 c2 kown); [by apply (kdata_window _ kpt _ stk)|by apply (text_fetch kpt kown stk)|done|done|].
  set (h2 := Hart _ _ _ _ _). assert (K2 : on_kernel kpt kown stk h2) by by apply (on_kernel_frame _ _ _ h1).
  eapply wp_straight; [by apply (text_fetch kpt kown stk)|done|]. cbn [run]. wp_simp. split; [|by apply (on_kernel_frame _ _ _ h2)].
  split; [|done| | |done|exact Hm].
  - intros i r Hi. pose proof (ctx_range i r Hi). cbn [h_x set_pc h2]. rewrite (load_all_slot _ _ _ _ _ _ T2 (ctx_elem i r Hi)).
    apply ld64_ext. intros j Hj. symmetry. apply Hm. lia.
  - intros i r Hi. apply (save_all_slot 112); [done|done|by apply ctx_elem].
  - intros r Hr. cbn [h_x set_pc h2]. by rewrite load_all_ne.
Qed.

(** * Interrupts of the kernel *)

Definition kv_regs : list reg := [RA; GP; T0; T1; T2; A0; A1; A2; A3; A4; A5; A6; A7; T3; T4; T5; T6].
Definition kv_off (r : reg) : Z :=
  match r with RA => 0 | GP => 16 | T0 => 32 | T1 => 40 | T2 => 48 | A0 => 72 | A1 => 80 | A2 => 88 | A3 => 96 | A4 => 104 | A5 => 112
  | A6 => 120 | A7 => 128 | T3 => 216 | T4 => 224 | T5 => 232 | T6 => 240 | _ => 24 end.
Definition kv_table : list (reg * Z) := (fun r => (r, kv_off r)) <$> kv_regs.
Definition kv_saved : list (reg * Z) := take 2 kv_table ++ (TP, 24) :: drop 2 kv_table.
Definition callee_saved : list reg := [SP; S0; S1; S2; S3; S4; S5; S6; S7; S8; S9; S10; S11].

Lemma kernelvec_save_eq : kernelvec_save = saves SP kv_saved ++ [].
Proof. done. Qed.
Lemma kernelvec_restore_eq : kernelvec_restore = loads SP kv_table.
Proof. done. Qed.
Lemma kv_tables_ok : slots_ok 256 kv_saved = true /\ slots_ok 256 kv_table = true /\ NoDup kv_table.*1 /\ SP ∉ kv_table.*1.
Proof. split; [done|]. split; [done|]. split; apply (bool_decide_unpack _); by vm_compute. Qed.
Lemma kv_elem r : r ∉ callee_saved -> r <> TP -> (r, kv_off r) ∈ kv_table /\ (r, kv_off r) ∈ kv_saved.
Proof.
  intros H Ht. rewrite !list_elem_of_In. destruct r; try done; try (exfalso; apply H, list_elem_of_In; cbn; tauto); split; cbn; tauto.
Qed.
Lemma kv_not_elem r : r ∈ callee_saved \/ r = TP -> r ∉ kv_table.*1.
Proof. intros [H%list_elem_of_In| ->] Hin%list_elem_of_In; [cbn in H, Hin; intuition congruence|cbn in Hin; intuition congruence]. Qed.

(** A C function that is called with the stack pointer [sp] keeps the
    callee-saved registers and the stack above, which is at [a]. *)
Record c_returns (kpt : Z) (kown : gmap Z (list Z)) (stk : list Z) (a : Z) (g g' : hart) : Prop := {
  cr_kernel : on_kernel kpt kown stk g';
  cr_callee : forall r, r ∈ callee_saved -> h_x g' r = h_x g r;
  cr_stack : forall y, a <= y < a + 256 -> ld8 (h_mem g') y = ld8 (h_mem g) y
}.
Definition c_func {A} (kpt : Z) (kown : gmap Z (list Z)) (stk : list Z) (sp a : Z) (f : M hart A) (Q : A -> Prop) : Prop :=
  forall g, on_kernel kpt kown stk g -> h_x g SP = sp -> wp f (fun v g' => c_returns kpt kown stk a g g' /\ Q v) g.

Lemma c_returns_trans kpt kown stk a g1 g2 g3 : c_returns kpt kown stk a g1 g2 -> c_returns kpt kown stk a g2 g3 -> c_returns kpt kown stk a g1 g3.
Proof.
  intros [A1 A2 A3] [B1 B2 B3]. split; [done| |]. - intros r Hr. by rewrite B2, A2. - intros y Hy. by rewrite B3, A3.
Qed.

(** kerneltrap() returns with the status and the program counter it found. *)
Lemma kerneltrap_spec kpt kown stk a devintr running yield g : on_kernel kpt kown stk g -> st_spp g = true -> st_sie g = false ->
  c_func kpt kown stk (h_x g SP) a devintr (fun d => d <> 0) -> c_func kpt kown stk (h_x g SP) a yield (fun _ => True) ->
  wp (kerneltrap devintr running yield) (fun _ g' => c_returns kpt kown stk a g g' /\ h_csr g' SEPC = h_csr g SEPC /\
    st_spp g' = st_spp g /\ st_spie g' = st_spie g /\ st_sie g' = st_sie g) g.
Proof.
  intros K Hp Hi Hd Hy. unfold kerneltrap, r_csr, r_sstatus, w_sstatus, w_csr, intr_get, r_sstatus. wp_simp.
  assert (E1 : (Z.land (sstatus_of g) (sbits SSTATUS_SPP) =? 0) = false).
  { pose proof (sbit_test_eq (sstatus_of g) SSTATUS_SPP 8 eq_refl ltac:(lia)) as T. unfold sbit_test in T. rewrite sstatus_bit in T by lia.
    unfold st_spp in Hp. rewrite Hp in T. by apply negb_true_iff. }
  assert (E2 : (Z.land (sstatus_of g) (sbits SSTATUS_SIE) =? 0) = true).
  { pose proof (sbit_test_eq (sstatus_of g) SSTATUS_SIE 1 eq_refl ltac:(lia)) as T. unfold sbit_test in T. rewrite sstatus_bit in T by lia.
    unfold st_sie in Hi. rewrite Hi in T. by apply negb_false_iff. }
  rewrite E1. wp_simp. rewrite E2. cbn [negb]. wp_simp. eapply wp_mono; [by apply Hd|]. intros d g1 [C1 Hd0].
  rewrite (proj2 (Z.eqb_neq d 0)) by done.
  assert (Hend : forall g2, c_returns kpt kown stk a g g2 ->
    let g' := set_csr MSTATUS (Z.lor (clear64 (h_csr (set_csr SEPC (h_csr g SEPC) g2) MSTATUS) SMASK) (Z.land (sstatus_of g) SMASK)) (set_csr SEPC (h_csr g SEPC) g2) in
    c_returns kpt kown stk a g g' /\ h_csr g' SEPC = h_csr g SEPC /\ st_spp g' = st_spp g /\ st_spie g' = st_spie g /\ st_sie g' = st_sie g).
  { intros g2 [R1 R2 R3] g'. split; [split; [by apply (on_kernel_frame _ _ _ g2)|done|done]|]. split; [done|].
    unfold st_spp, st_spie, st_sie. cbn [h_csr g' set_csr]. rewrite rset_eq, !w_sstatus_bit by lia. cbn [Z.eqb Pos.eqb orb].
    by rewrite !sstatus_bit by lia. }
  destruct ((d =? 2) && running); wp_simp; [|by apply Hend].
  eapply wp_mono; [apply Hy; [apply C1|apply (cr_callee _ _ _ _ _ _ C1); left]|]. intros [] g2 [C2 _]. wp_simp. apply Hend. by eapply c_returns_trans.
Qed.

(** The registers after the two halves of kernelvec. *)
Lemma restored h h3 a m2 r : regs_ok h -> let sp := u64 (h_x h SP - 256) in
  m2 = save_all a (rset SP sp (h_x h)) kv_saved (h_mem h) -> (forall r, r ∈ callee_saved -> h_x h3 r = rset SP sp (h_x h) r) ->
  (forall y, a <= y < a + 256 -> ld8 (h_mem h3) y = ld8 m2 y) -> r <> TP ->
  rset SP (u64 (load_all a (h_mem h3) kv_table (h_x h3) SP + 256)) (load_all a (h_mem h3) kv_table (h_x h3)) r = h_x h r.
Proof.
  intros Hx sp -> Hc Hm Hr. destruct kv_tables_ok as (T1 & T2 & T3 & T4). destruct (decide (r = SP)) as [->|Hs].
  - rewrite rset_eq, load_all_ne, Hc, rset_eq by (done || left). unfold sp. pose proof (Hx SP). unfold u64.
    rewrite Zplus_mod_idemp_l. replace (h_x h SP - 256 + 256) with (h_x h SP) by lia. by apply Z.mod_small.
  - rewrite rset_ne by done. destruct (decide (r ∈ callee_saved)) as [Hin|Hin].
    + rewrite load_all_ne by (apply kv_not_elem; by left). rewrite Hc by done. by apply rset_ne.
    + destruct (kv_elem r Hin Hr) as [E1 E2]. rewrite (load_all_slot _ _ _ _ _ _ T3 E1).
      destruct (slots_ok_elem _ _ _ _ T1 E2) as (O1 & O2 & _). rewrite (ld64_ext _ (save_all a (rset SP sp (h_x h)) kv_saved (h_mem h))) by (intros y Hy; apply Hm; lia).
      rewrite (save_all_slot 256 _ _ _ _ r) by (done || (apply rset_range; [apply u64_range|done])). by apply rset_ne.
Qed.
End kern.
