(* ===== verification/Sched.v ===== *)
(** kernel/proc.c, scheduling: sched, yield, sleep, wakeup, kill, and the
    scheduler, on the process table of Kern.

    A process gives up the CPU in sched(); the CPU is then in scheduler(),
    which releases the lock of the process it came from ([resched]).  The
    process goes on when the scheduler picks it again ([sleep_tail] is what
    is left of sleep() then). *)
From S2P Require Import Prelude Mem Kalloc Vm UserMem Pipe Blocks Fs Kern.

Section sched.
Context {B D : Type} `{BK : Blocks B} `{L : Layout}.
Implicit Types s : kern B D.

(** * Operations *)

(** The number of locks this CPU holds, mycpu()->noff. *)
Definition mine (l : lockst) : nat := if decide (l = Mine) then 1 else 0.
Definition noff s : nat :=
  mine (kr_ftlock s) + mine (kr_waitlock s) + mine (kr_pidlock s) + mine (kr_tickslock s) +
  mine (it_lock (kr_fs s)) + mine (kmem_lock (fs_um (kr_fs s))) + sum_list (mine ∘ pr_lock <$> kr_proc s).

Definition sched (i : nat) : M (kern B D) unit :=
  let! s := gets id in
  if negb (bool_decide (pr_lock (getp i s) = Mine)) then panic "sched p->lock"
  else if negb (noff s =? 1)%nat then panic "sched locks"
  else if bool_decide (pr_state (getp i s) = RUNNING) then panic "sched RUNNING"
  else ret tt.
(** sched(), swtch(), and the scheduler's lines after its swtch(). *)
Definition resched (i : nat) : M (kern B D) unit :=
  sched i ;; modify (set_kr_cur None) ;; p_release i.

Definition yield : M (kern B D) unit :=
  let! p := myproc in
  p_acquire p ;;
  modp p (set_pr_state RUNNABLE) ;;
  resched p.

(** sleep(chan, lk), up to the switch; [release_lk] is release(lk). *)
Definition sleep (ch : chan) (release_lk : M (kern B D) unit) : M (kern B D) unit :=
  let! p := myproc in
  p_acquire p ;;
  release_lk ;;
  modp p (set_pr_chan (Some ch)) ;;
  modp p (set_pr_state SLEEPING) ;;
  resched p.
(** The rest of sleep(), when the process runs again. *)
Definition sleep_tail (acquire_lk : M (kern B D) unit) : M (kern B D) unit :=
  let! p := myproc in
  modp p (set_pr_chan None) ;;
  p_release p ;;
  acquire_lk.

(** The loop of wakeup() from the process of index [i]; [n] are left. *)
Fixpoint wakeup_loop (n i : nat) (ch : chan) : M (kern B D) unit :=
  match n with
  | O => ret tt
  | S n =>
      let! me := gets kr_cur in
      (if bool_decide (me = Some i) then ret tt
       else
         p_acquire i ;;
         let! s := gets id in
         (if bool_decide (pr_state (getp i s) = SLEEPING) && bool_decide (pr_chan (getp i s) = Some ch)
          then modp i (set_pr_state RUNNABLE) else ret tt) ;;
         p_release i) ;;
      wakeup_loop n (S i) ch
  end.
Definition wakeup (ch : chan) : M (kern B D) unit := wakeup_loop NPROC 0 ch.

Fixpoint kkill_loop (n i : nat) (pid : Z) : M (kern B D) Z :=
  match n with
  | O => ret (-1)
  | S n =>
      p_acquire i ;;
      let! s := gets id in
      if pr_pid (getp i s) =? pid then
        modp i (set_pr_killed true) ;;
        (if bool_decide (pr_state (getp i s) = SLEEPING) then modp i (set_pr_state RUNNABLE) else ret tt) ;;
        p_release i ;;
        ret 0
      else
        p_release i ;;
        kkill_loop n (S i) pid
  end.
Definition kkill (pid : Z) : M (kern B D) Z := kkill_loop NPROC 0 pid.

Definition setkilled (i : nat) : M (kern B D) unit :=
  p_acquire i ;; modp i (set_pr_killed true) ;; p_release i.
Definition killed (i : nat) : M (kern B D) bool :=
  p_acquire i ;;
  let! k := gets (fun s => pr_killed (getp i s)) in
  p_release i ;;
  ret k.

(** One pass of the scheduler over the table.  [run i] is what process [i]
    does from where it left off until it is back in the scheduler; the result
    is the processes that ran ([found] is whether there is one). *)
Fixpoint scheduler_loop (run : nat -> M (kern B D) unit) (n i : nat) (ran : list nat) : M (kern B D) (list nat) :=
  match n with
  | O => ret ran
  | S n =>
      p_acquire i ;;
      let! s := gets id in
      if bool_decide (pr_state (getp i s) = RUNNABLE) then
        modp i (set_pr_state RUNNING) ;;
        modify (set_kr_cur (Some i)) ;;
        run i ;;
        scheduler_loop run n (S i) (ran ++ [i])
      else
        p_release i ;;
        scheduler_loop run n (S i) ran
  end.
Definition scheduler_pass (run : nat -> M (kern B D) unit) : M (kern B D) (list nat) := scheduler_loop run NPROC 0 [].

Definition allocpid : M (kern B D) Z :=
  lock_acquire kr_pidlock set_kr_pidlock ;;
  let! pid := gets kr_nextpid in
  modify (set_kr_nextpid (s32 (pid + 1))) ;;
  lock_release kr_pidlock set_kr_pidlock ;;
  ret pid.

(** procinit(): KSTACK(i) is the stack of process [i]. *)
Definition KSTACK (p : Z) : Z := TRAMPOLINE - (p + 1) * 2 * PGSIZE.
Fixpoint procinit_loop (n i : nat) : M (kern B D) unit :=
  match n with
  | O => ret tt
  | S n =>
      modp i (set_pr_lock Free) ;;
      modp i (set_pr_state UNUSED) ;;
      modp i (set_pr_kstack (KSTACK (Z.of_nat i))) ;;
      procinit_loop n (S i)
  end.
Definition procinit : M (kern B D) unit :=
  modify (set_kr_pidlock Free) ;;
  modify (set_kr_waitlock Free) ;;
  procinit_loop NPROC 0.

End sched.
