(* ===== verification/KernSpec.v ===== *)
(** Lemmas on the process and file tables of Kern, and the specifications of
    the scheduling operations of Sched as functions of the process table. *)
From S2P Require Import Prelude Mem Kalloc Vm UserMem Pipe Blocks Fs Kern Sched.

Section tables.
Context {B D : Type} `{BK : Blocks B} `{L : Layout}.
Implicit Types (s : kern B D) (p : proc).

(** Two states with the same processes and the same rest. *)
Lemma kern_proc_ext s t : kr_proc s = kr_proc t -> set_kr_proc [] s = set_kr_proc [] t -> s = t.
Proof. intros H1 H2. destruct s, t; cbn in *. injection H2 as -> -> -> -> -> -> -> -> -> -> -> ->. by subst. Qed.

Lemma getp_updp_eq i f s : (i < length (kr_proc s))%nat -> getp i (updp i f s) = f (getp i s).
Proof.
  intros H. unfold getp, updp. cbn [kr_proc set_kr_proc]. rewrite list_lookup_alter_eq.
  by destruct (lookup_lt_is_Some_2 _ _ H) as [p ->].
Qed.
Lemma getp_updp_ne i j f s : i <> j -> getp j (updp i f s) = getp j s.
Proof. intros H. unfold getp, updp. cbn [kr_proc set_kr_proc]. by rewrite list_lookup_alter_ne. Qed.
Lemma length_updp i f s : length (kr_proc (updp i f s)) = length (kr_proc s).
Proof. apply length_alter. Qed.
Lemma updp_updp i f g s : updp i f (updp i g s) = updp i (f ∘ g) s.
Proof.
  apply kern_proc_ext; [|by destruct s]. cbn. apply list_eq. intros j.
  destruct (decide (i = j)) as [->|]; [|by rewrite !list_lookup_alter_ne]. rewrite !list_lookup_alter_eq. by destruct (_ !! j).
Qed.
Lemma updp_id i f s : f (getp i s) = getp i s -> updp i f s = s.
Proof.
  intros H. apply kern_proc_ext; [|by destruct s]. cbn. apply list_eq. intros j. unfold getp in H.
  destruct (decide (i = j)) as [->|]; [|by rewrite list_lookup_alter_ne]. rewrite list_lookup_alter_eq.
  destruct (kr_proc s !! j) as [p|] eqn:E; [|done]. cbn in *. by rewrite H.
Qed.
Lemma getp_lookup i s p : kr_proc s !! i = Some p -> getp i s = p.
Proof. intros H. unfold getp. by rewrite H. Qed.
Lemma lookup_getp i s : (i < length (kr_proc s))%nat -> kr_proc s !! i = Some (getp i s).
Proof. intros H. unfold getp. by destruct (lookup_lt_is_Some_2 _ _ H) as [p ->]. Qed.

(** Acquire, change, release. *)
Lemma wp_p_acquire (Q : unit -> kern B D -> Prop) i s : pr_lock (getp i s) = Free -> Q tt (updp i (set_pr_lock Mine) s) -> wp (p_acquire i) Q s.
Proof. intros H HQ. by apply wp_lock_acquire. Qed.
Lemma wp_p_release (Q : unit -> kern B D -> Prop) i s : pr_lock (getp i s) = Mine -> Q tt (updp i (set_pr_lock Free) s) -> wp (p_release i) Q s.
Proof. intros H HQ. by apply wp_lock_release. Qed.

Lemma locked_update i f s : (forall p, pr_lock (f p) = pr_lock p) -> (forall p, set_pr_lock Free (f (set_pr_lock Mine p)) = f (set_pr_lock Free p)) ->
  pr_lock (getp i s) = Free -> updp i (set_pr_lock Free) (updp i f (updp i (set_pr_lock Mine) s)) = updp i f s.
Proof.
  intros H1 H2 Hl. rewrite !updp_updp. apply kern_proc_ext; [|by destruct s]. cbn. apply list_eq. intros j. destruct (decide (i = j)) as [->|]; [|by rewrite !list_lookup_alter_ne].
  rewrite !list_lookup_alter_eq. unfold getp in Hl. destruct (kr_proc s !! j) as [p|]; [|done]. cbn in *. rewrite H2. do 2 f_equal.
  destruct p; cbn in *; by subst.
Qed.
Lemma unlock_same i s : pr_lock (getp i s) = Free -> updp i (set_pr_lock Free) (updp i (set_pr_lock Mine) s) = s.
Proof.
  intros Hl. rewrite updp_updp. apply updp_id. cbn. destruct (getp i s); cbn in *; by subst.
Qed.

(** * wakeup *)

(** The effect on one process. *)
Definition wake (ch : chan) p : proc :=
  if bool_decide (pr_state p = SLEEPING) && bool_decide (pr_chan p = Some ch) then set_pr_state RUNNABLE p else p.
(** The table is full size, and the locks of the other processes are free. *)
Definition table s : Prop := length (kr_proc s) = NPROC.
Definition others_free s : Prop := forall i, (i < NPROC)%nat -> kr_cur s <> Some i -> pr_lock (getp i s) = Free.

(** [s'] is [s] with process [i] changed to [f i p]. *)
Definition mapped_procs (f : nat -> proc -> proc) s s' : Prop :=
  set_kr_proc [] s' = set_kr_proc [] s /\ length (kr_proc s') = length (kr_proc s) /\
  forall i, (i < length (kr_proc s))%nat -> getp i s' = f i (getp i s).

Lemma mapped_refl s : mapped_procs (fun _ p => p) s s.
Proof. by split. Qed.
Lemma mapped_cur f s s' : mapped_procs f s s' -> kr_cur s' = kr_cur s.
Proof. intros [H _]. by apply (f_equal kr_cur) in H. Qed.
Lemma mapped_updp f i g s s' : mapped_procs f s s' -> (i < length (kr_proc s))%nat ->
  mapped_procs (fun j p => if decide (j = i) then g (f j p) else f j p) s (updp i g s').
Proof.
  intros (H1 & H2 & H3) Hi. split; [done|]. split; [by rewrite length_updp|]. intros j Hj. case_decide as E.
  - subst. rewrite getp_updp_eq by (by rewrite H2). by rewrite H3.
  - rewrite getp_updp_ne by done. by apply H3.
Qed.
Lemma mapped_ext f g s s' : mapped_procs f s s' -> (forall i p, (i < length (kr_proc s))%nat -> p = getp i s -> f i p = g i p) -> mapped_procs g s s'.
Proof. intros (H1 & H2 & H3) E. split; [done|]. split; [done|]. intros i Hi. rewrite H3 by done. by apply E. Qed.

(** One turn of the loop, for another process. *)
Lemma wake_one (Q : unit -> kern B D -> Prop) ch i s : pr_lock (getp i s) = Free -> (i < length (kr_proc s))%nat ->
  Q tt (updp i (wake ch) s) ->
  wp (p_acquire i ;; let! s := gets id in
      (if bool_decide (pr_state (getp i s) = SLEEPING) && bool_decide (pr_chan (getp i s) = Some ch)
       then modp i (set_pr_state RUNNABLE) else ret tt) ;; p_release i) Q s.
Proof.
  intros Hl Hi HQ. wp_simp. apply wp_p_acquire; [done|]. wp_simp. change (id ?x) with x. rewrite !getp_updp_eq by done. cbn [pr_state pr_chan set_pr_lock id].
  unfold wake in HQ. destruct (bool_decide (pr_state (getp i s) = SLEEPING) && bool_decide (pr_chan (getp i s) = Some ch)) eqn:Es; unfold modp; wp_simp.
  - apply wp_p_release; [by rewrite !getp_updp_eq by (by rewrite ?length_updp)|]. rewrite locked_update by done.
    replace (updp i (set_pr_state RUNNABLE) s) with (updp i (wake ch) s); [done|]. apply kern_proc_ext; [|by destruct s]. cbn. apply list_eq. intros j.
    destruct (decide (i = j)) as [<-|]; [|by rewrite !list_lookup_alter_ne]. rewrite !list_lookup_alter_eq, (lookup_getp _ _ Hi). cbn. f_equal.
    unfold wake. by rewrite Es.
  - apply wp_p_release; [by rewrite getp_updp_eq|]. rewrite unlock_same by done. rewrite updp_id in HQ; [done|]. by rewrite Es.
Qed.

Lemma wakeup_loop_spec ch n i f s0 s : table s0 -> others_free s0 -> (n + i = NPROC)%nat ->
  mapped_procs f s0 s -> (forall j p, f j p = if bool_decide (kr_cur s0 = Some j) || (i <=? j)%nat then p else wake ch p) ->
  wp (wakeup_loop n i ch) (fun _ s' => mapped_procs (fun j p => if bool_decide (kr_cur s0 = Some j) then p else wake ch p) s0 s') s.
Proof.
  intros Ht Hf. revert i f s. induction n as [|n IH]; intros i f s Hn Hm E; cbn [wakeup_loop]; wp_simp.
  - eapply mapped_ext; [exact Hm|]. intros j p Hj _. rewrite E. unfold table in Ht. rewrite (proj2 (Nat.leb_gt i j)) by lia. by rewrite orb_false_r.
  - assert (Hi : (i < length (kr_proc s0))%nat) by (unfold table in Ht; lia). pose proof (mapped_cur _ _ _ Hm) as Hc. destruct (Hm) as (_ & Hlen & Hg).
    rewrite Hc. destruct (bool_decide (kr_cur s0 = Some i)) eqn:Ec.
    + wp_simp. eapply (IH (S i) f); [lia|done|]. intros j p. rewrite E. destruct (decide (j = i)) as [->|Hne]; [by rewrite Ec|].
      destruct (Nat.leb_spec i j), (Nat.leb_spec (S i) j); try done; lia.
    + cbv iota. apply wake_one.
      * rewrite Hg, E by done. rewrite (proj2 (Nat.leb_le i i)) by lia. rewrite orb_true_r. apply Hf; [lia|]. by apply bool_decide_eq_false in Ec.
      * by rewrite Hlen.
      * eapply (IH (S i)); [lia|by apply mapped_updp|]. intros j p. cbv beta. rewrite E. destruct (decide (j = i)) as [Eji|Eji].
        -- subst j. rewrite Ec, (proj2 (Nat.leb_le i i)), (proj2 (Nat.leb_gt (S i) i)) by lia. done.
        -- destruct (Nat.leb_spec i j), (Nat.leb_spec (S i) j); try done; lia.
Qed.

Lemma wakeup_spec ch s : table s -> others_free s ->
  wp (wakeup ch) (fun _ s' => mapped_procs (fun j p => if bool_decide (kr_cur s = Some j) then p else wake ch p) s s') s.
Proof.
  intros Ht Hf. apply (wakeup_loop_spec ch NPROC 0 (fun _ p => p) s s Ht Hf); [lia|apply mapped_refl|].
  intros j p. by rewrite orb_true_r.
Qed.

(** * kill *)

Definition all_free s : Prop := forall i, (i < NPROC)%nat -> pr_lock (getp i s) = Free.
(** The effect of kill() on its target. *)
Definition doom p : proc :=
  if bool_decide (pr_state p = SLEEPING) then set_pr_state RUNNABLE (set_pr_killed true p) else set_pr_killed true p.

Lemma updp_ext i f g s : f (getp i s) = g (getp i s) -> updp i f s = updp i g s.
Proof.
  intros E. apply kern_proc_ext; [|by destruct s]. cbn. apply list_eq. intros j. destruct (decide (i = j)) as [<-|]; [|by rewrite !list_lookup_alter_ne].
  rewrite !list_lookup_alter_eq. unfold getp in E. destruct (kr_proc s !! i); [|done]. cbn in *. by rewrite E.
Qed.

Lemma kkill_loop_spec (Q : Z -> kern B D -> Prop) pid n i s : table s -> all_free s -> (n + i = NPROC)%nat ->
  (forall j, (i <= j < NPROC)%nat -> pr_pid (getp j s) = pid -> (forall k, (i <= k < j)%nat -> pr_pid (getp k s) <> pid) -> Q 0 (updp j doom s)) ->
  ((forall k, (i <= k < NPROC)%nat -> pr_pid (getp k s) <> pid) -> Q (-1) s) ->
  wp (kkill_loop n i pid) Q s.
Proof.
  intros Ht Hf. revert i. induction n as [|n IH]; intros i Hn H0 H1; cbn [kkill_loop]; wp_simp.
  - apply H1. intros k Hk. lia.
  - assert (Hi : (i < length (kr_proc s))%nat) by (unfold table in Ht; lia). assert (Hl : pr_lock (getp i s) = Free) by (apply Hf; lia).
    apply wp_p_acquire; [done|]. wp_simp. change (id ?x) with x. rewrite !getp_updp_eq by done. cbn [pr_pid pr_state set_pr_lock].
    destruct (Z.eqb_spec (pr_pid (getp i s)) pid) as [E|E].
    + specialize (H0 i ltac:(lia) E ltac:(lia)).
      assert (Hd : updp i (set_pr_lock Free) (updp i doom (updp i (set_pr_lock Mine) s)) = updp i doom s).
      { apply locked_update; [| |done]; intros p; unfold doom; destruct p; cbn; by case_match. }
      rewrite updp_updp in Hd.
      assert (K : forall s1, s1 = updp i (doom ∘ set_pr_lock Mine) s -> wp (p_release i) (fun _ s' => wp (ret 0) Q s') s1).
      { intros s1 ->. apply wp_p_release; [rewrite getp_updp_eq by done; unfold doom; cbn; by case_match|]. wp_simp. rewrite updp_updp. rewrite <- Hd in H0.
        by rewrite updp_updp in H0. }
      unfold modp. destruct (bool_decide (pr_state (getp i s) = SLEEPING)) eqn:Es; wp_simp; (eapply wp_mono; [apply K|done]); rewrite !updp_updp; apply updp_ext; unfold doom; cbn; by rewrite Es.
    + wp_simp. apply wp_p_release; [by rewrite getp_updp_eq|]. rewrite unlock_same by done. apply IH; [lia| |].
      * intros j Hj Hp Hk. apply H0; [lia|done|]. intros k Hki. destruct (decide (k = i)) as [->|]; [done|]. apply Hk. lia.
      * intros H. apply H1. intros k Hk. destruct (decide (k = i)) as [->|]; [done|]. apply H. lia.
Qed.

(** * The scheduler *)

Section scheduler.
Context (run : nat -> M (kern B D) unit).

(** What a process may count on when it is switched to, and must leave when
    it switches back: it does not stop another process from being runnable. *)
Definition switched_to (i : nat) s : Prop :=
  table s /\ kr_cur s = Some i /\ pr_lock (getp i s) = Mine /\ pr_state (getp i s) = RUNNING /\
  forall j, (j < NPROC)%nat -> j <> i -> pr_lock (getp j s) = Free.
Definition switched_back (i : nat) s s' : Prop :=
  table s' /\ kr_cur s' = None /\ all_free s' /\
  forall j, j <> i -> pr_state (getp j s) = RUNNABLE -> pr_state (getp j s') = RUNNABLE.
Definition run_ok : Prop := forall i s, (i < NPROC)%nat -> switched_to i s -> wp (run i) (fun _ s' => switched_back i s s') s.

Lemma scheduler_loop_spec (Hrun : run_ok) n i ran s : table s -> kr_cur s = None -> all_free s -> (n + i = NPROC)%nat ->
  wp (scheduler_loop run n i ran) (fun ran' s' => (exists new, ran' = ran ++ new) /\
    (forall j, (i <= j < NPROC)%nat -> pr_state (getp j s) = RUNNABLE -> j ∈ ran') /\ table s' /\ kr_cur s' = None /\ all_free s') s.
Proof.
  revert i ran s. induction n as [|n IH]; intros i ran s Ht Hc Hf Hn; cbn [scheduler_loop].
  - wp_simp. split; [exists []; by rewrite app_nil_r|]. split; [intros j Hj; lia|done].
  - assert (Hi : (i < length (kr_proc s))%nat) by (unfold table in Ht; lia). assert (Hl : pr_lock (getp i s) = Free) by (apply Hf; lia).
    wp_simp. apply wp_p_acquire; [done|]. wp_simp. change (id ?x) with x. rewrite getp_updp_eq by done. cbn [pr_state set_pr_lock].
    destruct (bool_decide (pr_state (getp i s) = RUNNABLE)) eqn:Er.
    + unfold modp. wp_simp. rewrite updp_updp. set (s1 := set_kr_cur (Some i) (updp i _ s)).
      assert (G : getp i s1 = set_pr_state RUNNING (set_pr_lock Mine (getp i s))) by (exact (getp_updp_eq i (set_pr_state RUNNING ∘ set_pr_lock Mine) s Hi)).
      assert (Gn : forall j, j <> i -> getp j s1 = getp j s) by (intros j Hj; exact (getp_updp_ne i j (set_pr_state RUNNING ∘ set_pr_lock Mine) s (not_eq_sym Hj))).
      eapply wp_mono; [apply Hrun; [lia|]|].
      * split; [unfold table; by rewrite <- Ht; apply length_alter|]. split; [done|]. rewrite G. split; [done|]. split; [done|].
        intros j Hj Hne. rewrite Gn by done. by apply Hf.
      * intros ? s2 (T2 & C2 & F2 & R2). cbv beta. eapply wp_mono; [apply (IH (S i) (ran ++ [i]) s2 T2 C2 F2); lia|].
        intros ran' s' ([new ->] & Hr & Hrest). split; [exists (i :: new); by rewrite <- app_assoc|]. split; [|done].
        intros j Hj Hjr. destruct (decide (j = i)) as [->|Hne].
        -- apply elem_of_app. left. apply elem_of_app. right. by apply list_elem_of_singleton.
        -- apply Hr; [lia|]. apply R2; [done|]. by rewrite Gn.
    + wp_simp. apply wp_p_release; [by rewrite getp_updp_eq|]. rewrite unlock_same by done.
      eapply wp_mono; [by apply (IH (S i) ran s Ht Hc Hf); lia|]. intros ran' s' (H1 & H2 & H3). split; [done|]. split; [|done].
      intros j Hj Hjr. destruct (decide (j = i)) as [->|]; [by apply bool_decide_eq_false in Er|]. apply H2; [lia|done].
Qed.

End scheduler.
End tables.
