(* ===== verification/KInv.v ===== *)
(** The invariant of the process and file tables: every reference count of the
    file table is the number of descriptors and mapped areas that refer to
    the file, live processes have distinct pids, and dead ones hold nothing.

    [kinv d] is the invariant in the middle of a system call, when the code
    holds [d f] references to file [f] in its local variables.  Steps that
    do not matter to it are recognised by the relation [kstep] and the
    hint database [kview]. *)
From S2P Require Import Prelude Mem Kalloc Vm UserMem Pipe Blocks Fs Uprintf Kern Sched KernSpec.

(** * Sums over lists *)

Fixpoint zsum {A} (g : A -> Z) (l : list A) : Z := match l with [] => 0 | x :: l => g x + zsum g l end.

Lemma zsum_insert {A} (g : A -> Z) l k x y : l !! k = Some y -> zsum g (<[k := x]> l) = zsum g l - g y + g x.
Proof.
  revert k. induction l as [|z l IH]; intros [|k] H; simplify_eq/=; [lia|]. rewrite (IH _ H). lia.
Qed.
Lemma zsum_alter {A} (g : A -> Z) l k f y : l !! k = Some y -> zsum g (alter f k l) = zsum g l - g y + g (f y).
Proof.
  revert k. induction l as [|z l IH]; intros [|k] H; simplify_eq/=; [lia|]. rewrite (IH _ H). lia.
Qed.
Lemma zsum_bound {A} (g : A -> Z) l c : (forall x, 0 <= g x <= c) -> 0 <= zsum g l <= c * Z.of_nat (length l).
Proof. intros H. induction l as [|x l IH]; cbn [zsum length]; [lia|]. pose proof (H x). rewrite Nat2Z.inj_succ, Z.mul_succ_r. lia. Qed.
Lemma zsum_zero {A} (g : A -> Z) l : (forall x, x ∈ l -> g x = 0) -> zsum g l = 0.
Proof. induction l as [|x l IH]; intros H; cbn; [done|]. rewrite H, IH by set_solver. done. Qed.
Lemma zsum_zero_inv {A} (g : A -> Z) l : (forall x, 0 <= g x) -> zsum g l = 0 -> forall x, x ∈ l -> g x = 0.
Proof.
  intros Hg. induction l as [|y l IH]; cbn; intros Hz x Hx; [set_solver|].
  assert (0 <= zsum g l) by (clear -Hg; induction l; cbn; [lia|]; specialize (Hg a); lia). pose proof (Hg y).
  apply elem_of_cons in Hx as [->|Hx]; [lia|]. apply IH; [lia|done].
Qed.
Lemma zsum_ext {A} (g h : A -> Z) l : (forall x, g x = h x) -> zsum g l = zsum h l.
Proof. intros H. induction l as [|x l IH]; cbn; [done|]. by rewrite H, IH. Qed.
Lemma zsum_fmap {A B} (g : B -> Z) (h : A -> B) l : zsum g (h <$> l) = zsum (g ∘ h) l.
Proof. induction l as [|x l IH]; cbn; [done|]. by rewrite IH. Qed.

(** * References *)

Definition fd_ref (f : nat) (o : option nat) : Z := if bool_decide (o = Some f) then 1 else 0.
Definition vma_ref (f : nat) (v : vma) : Z := if v_used v && bool_decide (v_file v = f) then 1 else 0.
(** The references of a descriptor table and a table of areas. *)
Definition trefs (f : nat) (t : list (option nat) * list vma) : Z := zsum (fd_ref f) t.1 + zsum (vma_ref f) t.2.
Definition prefs (f : nat) (p : proc) : Z := trefs f (pr_ofile p, pr_vmas p).

Lemma fd_ref_bound f o : 0 <= fd_ref f o <= 1.
Proof. unfold fd_ref. case_bool_decide; lia. Qed.
Lemma vma_ref_bound f v : 0 <= vma_ref f v <= 1.
Proof. unfold vma_ref. destruct (v_used v && _); lia. Qed.
Lemma prefs_bound f p : 0 <= prefs f p <= Z.of_nat (length (pr_ofile p)) + Z.of_nat (length (pr_vmas p)).
Proof.
  unfold prefs, trefs. cbn. pose proof (zsum_bound (fd_ref f) (pr_ofile p) 1 (fd_ref_bound f)).
  pose proof (zsum_bound (vma_ref f) (pr_vmas p) 1 (vma_ref_bound f)). lia.
Qed.

(** ** What the invariant depends on *)

(** States of a process, up to the ones the scheduler moves between. *)
Inductive pclass := Unused | Alive | Dead.
#[export] Instance pclass_eq_dec : EqDecision pclass.
Proof. solve_decision. Defined.
Definition class_of (st : procstate) : pclass :=
  match st with UNUSED => Unused | ZOMBIE => Dead | _ => Alive end.
Definition pview (p : proc) : list (option nat) * list vma * Z * pclass := (pr_ofile p, pr_vmas p, pr_pid p, class_of (pr_state p)).

Section inv.
Context {B D : Type} `{BK : Blocks B} `{L : Layout}.
Implicit Types (s : kern B D) (p : proc) (d : nat -> Z).

Definition refs (f : nat) s : Z := zsum (prefs f) (kr_proc s).

Record kinv d s : Prop := KInv {
  ki_table : table s;
  ki_files : length (kr_file s) = NFILE;
  ki_refs : forall f, f_ref (getf f s) = refs f s + d f;
  ki_shape : forall i, length (pr_ofile (getp i s)) = NOFILE /\ length (pr_vmas (getp i s)) = MAXVMA;
  ki_idle : forall i f, class_of (pr_state (getp i s)) <> Alive -> prefs f (getp i s) = 0;
  ki_cur : forall i, kr_cur s = Some i -> (i < NPROC)%nat /\ class_of (pr_state (getp i s)) = Alive;
  ki_pid : forall i, (i < NPROC)%nat -> class_of (pr_state (getp i s)) <> Unused -> 0 < pr_pid (getp i s) < kr_nextpid s;
  ki_pids : forall i j, (i < NPROC)%nat -> (j < NPROC)%nat -> class_of (pr_state (getp i s)) <> Unused ->
    class_of (pr_state (getp j s)) <> Unused -> pr_pid (getp i s) = pr_pid (getp j s) -> i = j
}.

Definition kview s := (f_ref <$> kr_file s, pview <$> kr_proc s, kr_nextpid s, kr_cur s).
Definition kstep s s' : Prop := kview s' = kview s.

Lemma kstep_refl s : kstep s s.
Proof. reflexivity. Qed.
Lemma kstep_trans s t u : kstep s t -> kstep t u -> kstep s u.
Proof. unfold kstep. congruence. Qed.

Lemma pview_getp s s' i : kstep s s' -> pview (getp i s') = pview (getp i s).
Proof.
  intros H. injection H as _ H _ _. apply (f_equal (fun l => l !! i)) in H. rewrite !list_lookup_fmap in H. unfold getp.
  destruct (kr_proc s !! i), (kr_proc s' !! i); cbn [default from_option id fmap option_fmap option_map] in *; congruence.
Qed.
Lemma f_ref_getf s s' f : kstep s s' -> f_ref (getf f s') = f_ref (getf f s).
Proof.
  intros H. injection H as H _ _ _. apply (f_equal (fun l => l !! f)) in H. rewrite !list_lookup_fmap in H. unfold getf.
  destruct (kr_file s !! f), (kr_file s' !! f); cbn [default from_option id fmap option_fmap option_map] in *; congruence.
Qed.
Lemma refs_kstep s s' f : kstep s s' -> refs f s' = refs f s.
Proof.
  intros H. injection H as _ H _ _. apply (f_equal (zsum (fun v => trefs f (v.1.1.1, v.1.1.2)))) in H. rewrite !zsum_fmap in H. exact H.
Qed.

Lemma kinv_kstep d s s' : kstep s s' -> kinv d s -> kinv d s'.
Proof.
  intros H [H1 H2 H3 H4 H5 H6 H7 H8].
  assert (V : forall i, pr_ofile (getp i s') = pr_ofile (getp i s) /\ pr_vmas (getp i s') = pr_vmas (getp i s) /\
    pr_pid (getp i s') = pr_pid (getp i s) /\ class_of (pr_state (getp i s')) = class_of (pr_state (getp i s))).
  { intros i. pose proof (pview_getp s s' i H) as E. by injection E as -> -> -> ->. }
  assert (Hn : kr_nextpid s' = kr_nextpid s) by (by injection H). assert (Hc : kr_cur s' = kr_cur s) by (by injection H).
  split.
  - unfold table in *. injection H as _ H _ _. apply (f_equal length) in H. rewrite !length_fmap in H. congruence.
  - injection H as H _ _ _. apply (f_equal length) in H. rewrite !length_fmap in H. congruence.
  - intros f. rewrite (f_ref_getf s s' f H), (refs_kstep s s' f H). apply H3.
  - intros i. destruct (V i) as (-> & -> & _). apply H4.
  - intros i f. destruct (V i) as (E1 & E2 & _ & E4). unfold prefs. rewrite E1, E2, E4. apply H5.
  - intros i. destruct (V i) as (_ & _ & _ & ->). rewrite Hc. apply H6.
  - intros i. destruct (V i) as (_ & _ & -> & ->). rewrite Hn. apply H7.
  - intros i j. destruct (V i) as (_ & _ & -> & ->), (V j) as (_ & _ & -> & ->). apply H8.
Qed.

(** * Operations that leave the view alone *)

Definition keeps {A} (m : M (kern B D) A) : Prop := forall s, wlp m (fun _ s' => kstep s s') s.

Lemma kp_ret {A} (a : A) : keeps (ret a).
Proof. intros s. wlp_simp. apply kstep_refl. Qed.
Lemma kp_bind {A C} (m : M (kern B D) A) (k : A -> M (kern B D) C) : keeps m -> (forall a, keeps (k a)) -> keeps (bind m k).
Proof.
  intros Hm Hk s. rewrite wlp_bind. eapply wlp_mono; [apply Hm|]. intros a t Ht. eapply wlp_mono; [apply Hk|].
  intros c u Hu. exact (kstep_trans _ _ _ Ht Hu).
Qed.
Lemma kp_gets {A} (f : kern B D -> A) : keeps (gets f).
Proof. intros s. wlp_simp. apply kstep_refl. Qed.
Lemma kp_modify f : (forall s, kview (f s) = kview s) -> keeps (modify f).
Proof. intros H s. wlp_simp. apply H. Qed.
Lemma kp_panic {A} msg : keeps (@panic _ A msg).
Proof. intros s. apply wlp_panic. Qed.
Lemma kp_nofuel {A} : keeps (@nofuel _ A).
Proof. intros s. exact I. Qed.
Lemma kp_onfs {A} (m : M (fsst B mach) A) : keeps (onfs m).
Proof. intros s. apply wlp_zoom. intros. reflexivity. Qed.
Lemma kp_onm {A} (m : M mach A) : keeps (onm m).
Proof. apply kp_onfs. Qed.
Lemma kp_zoom {T A} (get : kern B D -> T) put (m : M T A) : (forall t s, kview (put t s) = kview s) -> keeps (zoom get put m).
Proof. intros H s. apply wlp_zoom. intros. apply H. Qed.
Lemma kp_begin_tx : keeps begin_tx.
Proof. apply kp_onfs. Qed.
Lemma kp_end_tx : keeps end_tx.
Proof. apply kp_onfs. Qed.
Lemma kp_modp i f : (forall p, pview (f p) = pview p) -> keeps (modp i f).
Proof.
  intros H. apply kp_modify. intros s. unfold kview, updp. cbn. enough (pview <$> alter f i (kr_proc s) = pview <$> kr_proc s) as -> by done. apply list_eq. intros j.
  rewrite !list_lookup_fmap. destruct (decide (i = j)) as [->|]; [|by rewrite list_lookup_alter_ne].
  rewrite list_lookup_alter_eq. destruct (_ !! j); cbn; [|done]. by rewrite H.
Qed.
Lemma kp_modf i f : (forall x, f_ref (f x) = f_ref x) -> keeps (modf i f).
Proof.
  intros H. apply kp_modify. intros s. unfold kview, updf. cbn. enough (f_ref <$> alter f i (kr_file s) = f_ref <$> kr_file s) as -> by done. apply list_eq. intros j.
  rewrite !list_lookup_fmap. destruct (decide (i = j)) as [->|]; [|by rewrite list_lookup_alter_ne].
  rewrite list_lookup_alter_eq. destruct (_ !! j); cbn; [|done]. by rewrite H.
Qed.
Lemma kview_updp i f s : (forall p, pview (f p) = pview p) -> kview (updp i f s) = kview s.
Proof. intros H. exact (kp_modp i f H s). Qed.
Lemma kp_acquire get set : (forall l s, kview (set l s) = kview s) -> keeps (lock_acquire get set).
Proof. intros H s. apply wlp_acquire. intros _. apply H. Qed.
Lemma kp_release get set : (forall l s, kview (set l s) = kview s) -> keeps (lock_release get set).
Proof. intros H s. apply wlp_release. intros _. apply H. Qed.
Lemma kp_p_acquire i : keeps (p_acquire i).
Proof. apply kp_acquire. intros l s. by apply kview_updp. Qed.
Lemma kp_p_release i : keeps (p_release i).
Proof. apply kp_release. intros l s. by apply kview_updp. Qed.
Lemma kp_ft_acquire : keeps ft_acquire.
Proof. by apply kp_acquire. Qed.
Lemma kp_ft_release : keeps ft_release.
Proof. by apply kp_release. Qed.
Lemma kp_wait_acquire : keeps wait_acquire.
Proof. by apply kp_acquire. Qed.
Lemma kp_wait_release : keeps wait_release.
Proof. by apply kp_release. Qed.
Lemma kp_ticks_acquire : keeps ticks_acquire.
Proof. by apply kp_acquire. Qed.
Lemma kp_ticks_release : keeps ticks_release.
Proof. by apply kp_release. Qed.
Lemma kp_myproc : keeps myproc.
Proof. apply kp_bind; [apply kp_gets|]. intros [i|]; [apply kp_ret|apply kp_panic]. Qed.
Lemma kp_kprintf `{DV : Devices D} fmt ap : keeps (kprintf fmt ap).
Proof. by apply kp_zoom. Qed.

End inv.

Create HintDb kview discriminated.
#[export] Hint Resolve kp_ret kp_gets kp_panic kp_nofuel kp_onfs kp_onm kp_begin_tx kp_end_tx
  kp_p_acquire kp_p_release kp_ft_acquire kp_ft_release kp_wait_acquire kp_wait_release
  kp_ticks_acquire kp_ticks_release kp_myproc kp_kprintf : kview.

(** Prove [keeps m] by following the code of [m]. *)
Ltac kp_step :=
  match goal with
  | |- forall _, keeps _ => intros ?
  | |- keeps (bind _ _) => apply kp_bind; [|intros ?]
  | |- keeps (let _ := _ in _) => cbv zeta
  | |- keeps (modp _ _) => apply kp_modp; intros ?; reflexivity
  | |- keeps (modf _ _) => apply kp_modf; intros ?; reflexivity
  | |- keeps (modify _) => apply kp_modify; intros ?; reflexivity
  | |- keeps (if ?b then _ else _) => destruct b
  | |- keeps (match ?x with _ => _ end) => destruct x
  | |- keeps _ => solve [auto with kview nocore]
  end.
Ltac kp_tac := repeat kp_step.
