(* ===== verification/File.v ===== *)
(** kernel/file.c and pipealloc() of kernel/pipe.c: the file table.

    A read or write of a pipe may sleep: then the call is over for now
    ([Slept i]) and is called again, with the same arguments and, for a
    write, the index [i] it had reached, when the process has been woken. *)
From S2P Require Import Prelude Mem Kalloc Vm UserMem Pipe Bio Blocks Fs Kern Sched.

Section file.
Context {B D : Type} `{BK : Blocks B} `{L : Layout} `{DV : Devices D}.
Implicit Types s : kern B D.

(** * The table *)

(** The loop of filealloc(): the first entry without references. *)
Fixpoint filealloc_loop (n i : nat) : M (kern B D) (option nat) :=
  match n with
  | O => ft_release ;; ret None
  | S n =>
      let! f := gets (getf i) in
      if f_ref f =? 0 then
        modf i (set_f_ref 1) ;;
        ft_release ;;
        ret (Some i)
      else filealloc_loop n (S i)
  end.
Definition filealloc : M (kern B D) (option nat) := ft_acquire ;; filealloc_loop NFILE 0.

Definition filedup (i : nat) : M (kern B D) nat :=
  ft_acquire ;;
  let! f := gets (getf i) in
  if f_ref f <? 1 then panic "filedup"
  else
    modf i (set_f_ref (s32 (f_ref f + 1))) ;;
    ft_release ;;
    ret i.

(** ** Pipes *)

(** Run an operation of Pipe on the pipe at [pi] and the machine's memory. *)
Definition pipe_state (o : pipeobj) s : pst mach :=
  Pst (po_pipe o) (fs_um (kr_fs s)) (po_rsleep o) (po_wsleep o) false (po_in o) (po_out o).
Definition put_pipe (pi : Z) (t : pst mach) s : kern B D :=
  let s := set_kr_fs (set_fs_um (pu t) (kr_fs s)) s in
  set_kr_pipe (if pfreed t then delete pi (kr_pipe s)
               else <[pi := PipeObj (pp t) (rsleep t) (wsleep t) (hin t) (hout t)]> (kr_pipe s)) s.
Definition onpipe {A} (pi : Z) (m : M (pst mach) A) : M (kern B D) A := fun s =>
  match kr_pipe s !! pi with
  | None => Panic "no pipe"
  | Some o =>
      match m (pipe_state o s) with
      | Ok a t => Ok a (put_pipe pi t s)
      | Panic msg => Panic msg
      | Blocked t => Blocked (put_pipe pi t s)
      | NoFuel => NoFuel
      end
  end.
(** The wakeups a segment asked for: nobody is left asleep on that end. *)
Definition pipe_wakeups (pi : Z) : M (kern B D) unit :=
  let! s := gets id in
  match kr_pipe s !! pi with
  | None => wakeup (ChanPipeR pi) ;; wakeup (ChanPipeW pi)
  | Some o =>
      (if po_rsleep o then ret tt else wakeup (ChanPipeR pi)) ;;
      (if po_wsleep o then ret tt else wakeup (ChanPipeW pi))
  end.
Definition k_pipeclose (pi : Z) (writable : bool) : M (kern B D) unit :=
  onpipe pi (pipeclose writable) ;;
  pipe_wakeups pi ;;
  let! s := gets id in
  match kr_pipe s !! pi with None => onm (kfree pi) | Some _ => ret tt end.

Definition fileclose (i : nat) : M (kern B D) unit :=
  ft_acquire ;;
  let! f := gets (getf i) in
  if f_ref f <? 1 then panic "fileclose"
  else
    let r := f_ref f - 1 in
    modf i (set_f_ref r) ;;
    if 0 <? r then ft_release
    else
      let! ff := gets (getf i) in
      modf i (set_f_ref 0) ;;
      modf i (set_f_type FD_NONE) ;;
      ft_release ;;
      match f_type ff with
      | FD_PIPE => k_pipeclose (f_pipe ff) (f_writable ff)
      | FD_INODE | FD_DEVICE =>
          let! me := myproc in
          let! pid := gets (fun s => pr_pid (getp me s)) in
          begin_tx ;; onfs (iput pid (f_ip ff)) ;; end_tx
      | FD_NONE => ret tt
      end.

Definition pipe_new : pipeobj := PipeObj (Pipe Free (replicate (Z.to_nat PIPESIZE) 0) 0 0 true true) false false [] [].

(** pipealloc(): the two files, or nothing. *)
Definition pipealloc_bad (f0 f1 : option nat) : M (kern B D) (option (nat * nat)) :=
  (match f0 with Some f => fileclose f | None => ret tt end) ;;
  (match f1 with Some f => fileclose f | None => ret tt end) ;;
  ret None.
Definition pipealloc : M (kern B D) (option (nat * nat)) :=
  let! f0 := filealloc in
  match f0 with
  | None => pipealloc_bad f0 None
  | Some i0 =>
      let! f1 := filealloc in
      match f1 with
      | None => pipealloc_bad f0 f1
      | Some i1 =>
          let! pi := onm kalloc in
          if pi =? 0 then pipealloc_bad f0 f1
          else
            modify (fun s => set_kr_pipe (<[pi := pipe_new]> (kr_pipe s)) s) ;;
            modf i0 (set_f_type FD_PIPE) ;; modf i0 (set_f_readable true) ;;
            modf i0 (set_f_writable false) ;; modf i0 (set_f_pipe pi) ;;
            modf i1 (set_f_type FD_PIPE) ;; modf i1 (set_f_readable false) ;;
            modf i1 (set_f_writable true) ;; modf i1 (set_f_pipe pi) ;;
            ret (Some (i0, i1))
      end
  end.

(** * Reading and writing *)

(** struct stat as it is laid out in memory. *)
Definition stat_bytes (st : Z * Z * Z * Z * Z) : list Z :=
  let '(dev, ino, type, nlink, size) := st in
  le_encode 4 dev ++ le_encode 4 ino ++ le_encode 2 type ++ le_encode 2 nlink ++ [0; 0; 0; 0] ++ le_encode 8 size.

Definition filestat (i : nat) (addr : Z) : M (kern B D) Z :=
  let! p := myproc in
  let! s := gets id in
  let f := getf i s in
  match f_type f with
  | FD_INODE | FD_DEVICE =>
      let pid := pr_pid (getp p s) in
      onfs (ilock pid (f_ip f)) ;;
      let! st := onfs (gets (stati (f_ip f))) in
      onfs (iunlock pid (f_ip f)) ;;
      let! r := onm (copyout (uproc_of (getp p s)) (pr_pagetable (getp p s)) addr (stat_bytes st)) in
      if r <? 0 then ret (-1) else ret 0
  | _ => ret (-1)
  end.

(** Put the process to sleep on the pipe, whose lock the segment released. *)
Definition pipe_sleep (ch : chan) (r : seg_res) : M (kern B D) seg_res :=
  match r with
  | Slept i => sleep ch (ret tt) ;; ret r
  | Done _ => ret r
  end.

Definition ondev {A} (m : M (D * mach) A) : M (kern B D) A :=
  zoom (fun s => (kr_dev s, fs_um (kr_fs s)))
       (fun t s => set_kr_fs (set_fs_um (snd t) (kr_fs s)) (set_kr_dev (fst t) s)) m.

Definition fileread (i : nat) (addr n : Z) : M (kern B D) seg_res :=
  let! p := myproc in
  let! s := gets id in
  let f := getf i s in
  let u := uproc_of (getp p s) in
  if negb (f_readable f) then ret (Done (-1))
  else
    match f_type f with
    | FD_PIPE =>
        let! k := killed p in
        let! r := onpipe (f_pipe f) (piperead k u addr n) in
        pipe_wakeups (f_pipe f) ;;
        pipe_sleep (ChanPipeR (f_pipe f)) r
    | FD_DEVICE =>
        if (f_major f <? 0) || (NDEV <=? f_major f) then ret (Done (-1))
        else
          match dev_read (f_major f) with
          | None => ret (Done (-1))
          | Some rd => let! r := ondev (rd u addr n) in ret (Done r)
          end
    | FD_INODE =>
        let pid := pr_pid (getp p s) in
        onfs (ilock pid (f_ip f)) ;;
        let! r := onfs (readi (f_ip f) (ToUser u addr) (f_off f) (u32 n)) in
        (if 0 <? r.1 then modf i (set_f_off (u32 (f_off f + r.1))) else ret tt) ;;
        onfs (iunlock pid (f_ip f)) ;;
        ret (Done r.1)
    | FD_NONE => panic "fileread"
    end.

(** The chunks of filewrite() on an inode: as many bytes as one transaction
    can hold each time. *)
Definition WRITE_MAX : Z := ((MAXOPBLOCKS - 1 - 1 - 2) / 2) * BSIZE.
Fixpoint filewrite_loop (fuel : nat) (p i : nat) (addr n k : Z) : M (kern B D) Z :=
  if k <? n then
    match fuel with
    | O => nofuel
    | S fuel =>
        let n1 := if WRITE_MAX <? n - k then WRITE_MAX else n - k in
        begin_tx ;;
        let! s := gets id in
        let f := getf i s in
        let pid := pr_pid (getp p s) in
        onfs (ilock pid (f_ip f)) ;;
        let! r := onfs (writei (f_ip f) (FromUser (uproc_of (getp p s)) (u64 (addr + k))) (f_off f) n1) in
        (if 0 <? r then modf i (set_f_off (u32 (f_off f + r))) else ret tt) ;;
        onfs (iunlock pid (f_ip f)) ;;
        end_tx ;;
        if negb (r =? n1) then ret k
        else filewrite_loop fuel p i addr n (k + r)
    end
  else ret k.

Definition filewrite (i : nat) (addr n k : Z) : M (kern B D) seg_res :=
  let! p := myproc in
  let! s := gets id in
  let f := getf i s in
  let u := uproc_of (getp p s) in
  if negb (f_writable f) then ret (Done (-1))
  else
    match f_type f with
    | FD_PIPE =>
        let! kl := killed p in
        let! r := onpipe (f_pipe f) (pipewrite (fun _ => kl) u addr n k) in
        pipe_wakeups (f_pipe f) ;;
        pipe_sleep (ChanPipeW (f_pipe f)) r
    | FD_DEVICE =>
        if (f_major f <? 0) || (NDEV <=? f_major f) then ret (Done (-1))
        else
          match dev_write (f_major f) with
          | None => ret (Done (-1))
          | Some wr => let! r := ondev (wr u addr n) in ret (Done r)
          end
    | FD_INODE =>
        let! done_ := filewrite_loop (Z.to_nat n) p i addr n 0 in
        ret (Done (if done_ =? n then n else -1))
    | FD_NONE => panic "filewrite"
    end.

End file.
