(* ===== verification/ProcLife.v ===== *)
(** kernel/proc.c, the life of a process: allocproc, freeproc, fork, exit and
    wait, with the page tables and trapframes in the machine's memory and the
    open files in the file table. *)
From S2P Require Import Prelude Mem Kalloc Vm UserMem Pipe Bio Blocks Fs Kern Sched File.

(** Offsets in struct trapframe, and its size. *)
Definition TF_EPC : Z := 24.
Definition TF_SP : Z := 48.
Definition TF_A0 : Z := 112.
Definition TF_A1 : Z := 120.
Definition TF_A7 : Z := 168.
Definition TF_SIZE : nat := 288.

(** kernel/fcntl.h *)
Definition PROT_READ : Z := 1.
Definition PROT_WRITE : Z := 2.
Definition PROT_EXEC : Z := 4.
Definition MAP_SHARED : Z := 1.

Section proc.
Context {B D : Type} `{BK : Blocks B} `{L : Layout} `{DV : Devices D}.
(** The address of forkret(). *)
Context (forkret : Z).
Implicit Types s : kern B D.

(** * Page tables *)

Definition proc_pagetable (trapframe : Z) : M (kern B D) Z :=
  let! pagetable := onm uvmcreate in
  if pagetable =? 0 then ret 0
  else
    let! r := onm (mappages pagetable TRAMPOLINE PGSIZE trampoline (Z.lor PTE_R PTE_X)) in
    if r <? 0 then onm (uvmfree pagetable 0) ;; ret 0
    else
      let! r := onm (mappages pagetable TRAPFRAME PGSIZE trapframe (Z.lor PTE_R PTE_W)) in
      if r <? 0 then
        onm (uvmunmap pagetable TRAMPOLINE 1 false) ;;
        onm (uvmfree pagetable 0) ;;
        ret 0
      else ret pagetable.

Definition proc_freepagetable (pagetable sz : Z) : M (kern B D) unit :=
  onm (uvmunmap pagetable TRAMPOLINE 1 false) ;;
  onm (uvmunmap pagetable TRAPFRAME 1 false) ;;
  onm (uvmfree pagetable sz).

Definition freeproc (i : nat) : M (kern B D) unit :=
  let! p := gets (getp i) in
  (if pr_trapframe p =? 0 then ret tt else onm (kfree (pr_trapframe p))) ;;
  modp i (set_pr_trapframe 0) ;;
  (if pr_pagetable p =? 0 then ret tt else proc_freepagetable (pr_pagetable p) (pr_sz p)) ;;
  modp i (set_pr_pagetable 0) ;;
  modp i (set_pr_sz 0) ;;
  modp i (set_pr_pid 0) ;;
  modp i (set_pr_parent None) ;;
  modp i (set_pr_name []) ;;
  modp i (set_pr_chan None) ;;
  modp i (set_pr_killed false) ;;
  modp i (set_pr_xstate 0) ;;
  modp i (set_pr_state UNUSED).

(** * Allocation *)

(** The search for an UNUSED entry; its lock is held on return. *)
Fixpoint allocproc_find (n i : nat) : M (kern B D) (option nat) :=
  match n with
  | O => ret None
  | S n =>
      p_acquire i ;;
      let! p := gets (getp i) in
      if bool_decide (pr_state p = UNUSED) then ret (Some i)
      else p_release i ;; allocproc_find n (S i)
  end.

Definition unuse (v : vregion) : vregion := VRegion (vr_start v) (vr_size v) false.

Definition allocproc : M (kern B D) (option nat) :=
  let! o := allocproc_find NPROC 0 in
  match o with
  | None => ret None
  | Some i =>
      let! pid := allocpid in
      modp i (set_pr_pid pid) ;;
      modp i (set_pr_state USED) ;;
      let! tf := onm kalloc in
      modp i (set_pr_trapframe tf) ;;
      if tf =? 0 then freeproc i ;; p_release i ;; ret None
      else
        let! pt := proc_pagetable tf in
        modp i (set_pr_pagetable pt) ;;
        if pt =? 0 then freeproc i ;; p_release i ;; ret None
        else
          let! p := gets (getp i) in
          modp i (set_pr_context (Context forkret (pr_kstack p + PGSIZE) (replicate 12 0))) ;;
          modp i (set_pr_pf_count 0) ;;
          modp i (set_pr_vregions (unuse <$> pr_vregions p)) ;;
          ret (Some i)
  end.

(** userinit(): the first process. *)
Definition userinit : M (kern B D) unit :=
  let! o := allocproc in
  match o with
  | None => panic "userinit"
  | Some p =>
      modify (set_kr_initproc (Some p)) ;;
      let! pid := gets (fun s => pr_pid (getp p s)) in
      let! cwd := onfs (namei pid 0 [47]) in
      modp p (set_pr_cwd cwd) ;;
      modp p (set_pr_state RUNNABLE) ;;
      p_release p
  end.

Definition growproc (n : Z) : M (kern B D) Z :=
  let! i := myproc in
  let! p := gets (getp i) in
  let sz := pr_sz p in
  if 0 <? n then
    if TRAPFRAME <? u64 (sz + n) then ret (-1)
    else
      let! sz' := onm (uvmalloc (pr_pagetable p) sz (u64 (sz + n)) PTE_W) in
      if sz' =? 0 then ret (-1) else modp i (set_pr_sz sz') ;; ret 0
  else if n <? 0 then
    let! sz' := onm (uvmdealloc (pr_pagetable p) sz (u64 (sz + n))) in
    modp i (set_pr_sz sz') ;; ret 0
  else ret 0.

(** * fork *)

(** [for(i) if(np->vmas[i].used) np->vmas[i].file = filedup(p->vmas[i].file);] *)
Fixpoint dup_vmas (n i p np : nat) : M (kern B D) unit :=
  match n with
  | O => ret tt
  | S n =>
      let! s := gets id in
      (if v_used (default vma0 (pr_vmas (getp np s) !! i)) then
         let! f := filedup (v_file (default vma0 (pr_vmas (getp p s) !! i))) in
         modp np (fun q => set_pr_vmas (alter (set_v_file f) i (pr_vmas q)) q)
       else ret tt) ;;
      dup_vmas n (S i) p np
  end.
(** [for(i) if(p->ofile[i]) np->ofile[i] = filedup(p->ofile[i]);] *)
Fixpoint dup_ofile (n i p np : nat) : M (kern B D) unit :=
  match n with
  | O => ret tt
  | S n =>
      let! s := gets id in
      (match default None (pr_ofile (getp p s) !! i) with
       | Some f =>
           let! f := filedup f in
           modp np (fun q => set_pr_ofile (<[i := Some f]> (pr_ofile q)) q)
       | None => ret tt
       end) ;;
      dup_ofile n (S i) p np
  end.

Definition kfork : M (kern B D) Z :=
  let! p := myproc in
  let! o := allocproc in
  match o with
  | None => ret (-1)
  | Some np =>
      let! s := gets id in
      let pp := getp p s in
      let q := getp np s in
      let! r := onm (uvmcopy (pr_pagetable pp) (pr_pagetable q) (pr_sz pp)) in
      if r <? 0 then freeproc np ;; p_release np ;; ret (-1)
      else
        modp np (set_pr_sz (pr_sz pp)) ;;
        onm (modify (set_mem (fun m => st_bytes m (pr_trapframe q) (ld_bytes m (pr_trapframe pp) TF_SIZE)))) ;;
        onm (modify (set_mem (fun m => st64 m (pr_trapframe q + TF_A0) 0))) ;;
        modp np (set_pr_trace_mask (pr_trace_mask pp)) ;;
        modp np (set_pr_pf_count 0) ;;
        modp np (set_pr_vregions (pr_vregions pp)) ;;
        modp np (set_pr_vmas (pr_vmas pp)) ;;
        dup_vmas MAXVMA 0 p np ;;
        dup_ofile NOFILE 0 p np ;;
        (match pr_cwd pp with
         | Some ip => let! ip := onfs (idup ip) in modp np (set_pr_cwd (Some ip))
         | None => panic "idup"
         end) ;;
        modp np (set_pr_name (take 15 (pr_name pp))) ;;
        let! pid := gets (fun s => pr_pid (getp np s)) in
        p_release np ;;
        wait_acquire ;;
        modp np (set_pr_parent (Some p)) ;;
        wait_release ;;
        p_acquire np ;;
        modp np (set_pr_state RUNNABLE) ;;
        p_release np ;;
        ret pid
  end.

(** * exit *)

Fixpoint reparent_loop (n i p : nat) : M (kern B D) unit :=
  match n with
  | O => ret tt
  | S n =>
      let! s := gets id in
      (if bool_decide (pr_parent (getp i s) = Some p) then
         modp i (set_pr_parent (kr_initproc s)) ;;
         match kr_initproc s with Some q => wakeup (ChanProc q) | None => ret tt end
       else ret tt) ;;
      reparent_loop n (S i) p
  end.
Definition reparent (p : nat) : M (kern B D) unit := reparent_loop NPROC 0 p.

(** Give back the pages of a memory area between [va] and [va_end], writing
    a shared writable one to its file first. *)
Fixpoint vma_unmap (fuel p : nat) (v : vma) (va va_end : Z) : M (kern B D) unit :=
  if va <? va_end then
    match fuel with
    | O => nofuel
    | S fuel =>
        let! s := gets id in
        let pp := getp p s in
        let! pte := onm (walk (pr_pagetable pp) va false) in
        let! e := onm (if pte =? 0 then ret 0 else rd64 pte) in
        (if negb (pte =? 0) && has_flag e PTE_V then
           (if has_flag (v_flags v) MAP_SHARED && has_flag (v_prot v) PROT_WRITE then
              let file_off := u64 (v_offset v + (va - v_addr v)) in
              let ip := f_ip (getf (v_file v) s) in
              begin_tx ;;
              onfs (ilock (pr_pid pp) ip) ;;
              let! _ := onfs (writei ip (FromUser (uproc_of pp) va) (u32 file_off) PGSIZE) in
              onfs (iunlock (pr_pid pp) ip) ;;
              end_tx
            else ret tt) ;;
           onm (uvmunmap (pr_pagetable pp) va 1 true)
         else ret tt) ;;
        vma_unmap fuel p v (u64 (va + PGSIZE)) va_end
    end
  else ret tt.

Fixpoint exit_vmas (n i p : nat) : M (kern B D) unit :=
  match n with
  | O => ret tt
  | S n =>
      let! v := gets (fun s => default vma0 (pr_vmas (getp p s) !! i)) in
      (if v_used v then
         vma_unmap (Z.to_nat (v_length v / PGSIZE + 1)) p v (v_addr v) (u64 (v_addr v + v_length v)) ;;
         fileclose (v_file v) ;;
         modp p (fun q => set_pr_vmas (alter (set_v_used false) i (pr_vmas q)) q)
       else ret tt) ;;
      exit_vmas n (S i) p
  end.

Fixpoint close_files (n fd p : nat) : M (kern B D) unit :=
  match n with
  | O => ret tt
  | S n =>
      let! o := gets (fun s => default None (pr_ofile (getp p s) !! fd)) in
      (match o with
       | Some f => fileclose f ;; modp p (fun q => set_pr_ofile (<[fd := None]> (pr_ofile q)) q)
       | None => ret tt
       end) ;;
      close_files n (S fd) p
  end.

Definition kexit (status : Z) : M (kern B D) unit :=
  let! p := myproc in
  let! init := gets kr_initproc in
  if bool_decide (init = Some p) then panic "init exiting"
  else
    exit_vmas MAXVMA 0 p ;;
    close_files NOFILE 0 p ;;
    let! pp := gets (getp p) in
    (match pr_cwd pp with
     | Some ip => begin_tx ;; onfs (iput (pr_pid pp) ip) ;; end_tx
     | None => panic "iput"
     end) ;;
    modp p (set_pr_cwd None) ;;
    wait_acquire ;;
    reparent p ;;
    let! pp := gets (getp p) in
    (match pr_parent pp with Some q => wakeup (ChanProc q) | None => ret tt end) ;;
    p_acquire p ;;
    modp p (set_pr_xstate status) ;;
    modp p (set_pr_state ZOMBIE) ;;
    wait_release ;;
    resched p.

(** * wait *)

Fixpoint kwait_scan (n i p : nat) (addr : Z) (havekids : bool) : M (kern B D) (Z + bool) :=
  match n with
  | O => ret (inr havekids)
  | S n =>
      let! s := gets id in
      if bool_decide (pr_parent (getp i s) = Some p) then
        p_acquire i ;;
        let! pp := gets (getp i) in
        if bool_decide (pr_state pp = ZOMBIE) then
          let! r := (if addr =? 0 then ret 0
                     else onm (copyout (uproc_of (getp p s)) (pr_pagetable (getp p s)) addr (le_encode 4 (pr_xstate pp)))) in
          if r <? 0 then p_release i ;; wait_release ;; ret (inl (-1))
          else freeproc i ;; p_release i ;; wait_release ;; ret (inl (pr_pid pp))
        else p_release i ;; kwait_scan n (S i) p addr true
      else kwait_scan n (S i) p addr havekids
  end.

(** One turn of the endless loop of kwait(), from acquire(&wait_lock) or
    from the return of sleep(). *)
Definition kwait (addr : Z) : M (kern B D) seg_res :=
  let! p := myproc in
  wait_acquire ;;
  let! o := kwait_scan NPROC 0 p addr false in
  match o with
  | inl r => ret (Done r)
  | inr havekids =>
      let! k := (if havekids then killed p else ret true) in
      if k : bool then wait_release ;; ret (Done (-1))
      else sleep (ChanProc p) wait_release ;; ret (Slept 0)
  end.

End proc.
