(* ===== verification/TrapProps.v ===== *)
(** The page table that proc_pagetable() makes is one that traps can work
    with, and the properties of the ways between user space, the kernel and
    its processes. *)
From S2P Require Import Prelude Mem Kalloc Vm VmSpec VmUser VmProps Blocks Fs Kern Kvm Sched File ProcLife Hart Asm AsmSpec TrapHart TrapPath KernPath.

(** * The page table of a process *)

Section proc_tables.
Context `{L : Layout} `{!LayoutOk L}.

(** A new table is built from the free pages [l0] and nothing else changes. *)
Definition fresh (s0 : mach) (l0 : list Z) (pt : Z) (rs : list region) (b : Z) (s : mach) : Prop :=
  building l0 pt rs b s /\ forall x, ~ free_byte l0 x -> ld8 (mmem s) x = ld8 (mmem s0) x.

Lemma uvmcreate_fresh s l : kmem_inv s l -> 1 <= Z.of_nat (length l) ->
  wp uvmcreate (fun pt s' => pt <> 0 /\ fresh s l pt [] (Z.of_nat (length l) - 1) s') s.
Proof.
  intros Hk Hl. pose proof (kalloc_root s l Hk Hl) as R. unfold uvmcreate. rewrite wp_bind in R |- *.
  pose proof (kalloc_spec s l Hk) as A. eapply wp_mono; [apply wp_and; [exact A|exact R]|]. cbn beta. intros pt s1 [A1 R1].
  destruct l as [|p l]; [cbn in Hl; lia|]. destruct A1 as (-> & _ & Hx). pose proof (km_ok _ _ Hk) as Hok. apply Forall_cons in Hok as [Hp _].
  assert (Hp0 : p <> 0) by (destruct Hp as (_ & H & _); pose proof layout_facts; unfold KERNBASE in *; lia).
  rewrite (proj2 (Z.eqb_neq p 0)) by done. unfold mset in R1 |- *. rewrite !wp_bind, !wp_modify, !wp_ret in *. split; [done|]. split; [exact R1|].
  intros x Hf. assert (Hn : ~ in_page p x) by (intros Hin; apply Hf; exists p; split; [left|done]).
  cbn [mmem set_mem]. rewrite memset_page, Hx by done. unfold in_page in Hn. zcases; lia || done.
Qed.

Lemma map_fresh s0 l0 pt rs b s r c : fresh s0 l0 pt rs b s -> rg_ok r -> Forall rg_ok rs ->
  (forall r' va, r' ∈ rs -> in_region r' va -> ~ in_region r va) -> rg_tables r <= c -> c < b ->
  wp (mappages pt (rg_va r) (rg_sz r) (rg_pa r) (rg_perm r)) (fun x s' => x = 0 /\ fresh s0 l0 pt (r :: rs) (b - c) s') s.
Proof.
  intros [(own & l & H1 & H2 & H3 & H4 & H5) Hb] Hr Hrs Hd Hc Hcb.
  pose proof (kvmmap_spec s l pt own rs r H1 H2 Hr Hrs Hd ltac:(lia)) as K. unfold kvmmap in K. rewrite wp_bind in K.
  pose proof Hr as ((V1 & V2 & V3) & (S1 & S2) & (P1 & P2 & P3) & P4).
  eapply wp_mono; [apply wp_and; [exact K|apply (mappages_correct s l pt own (rg_va r) (rg_sz r) (rg_pa r) (rg_perm r)); try done]|].
  - intros va Hva. destruct H2 as [_ H2]. rewrite H2; [apply has_flag_0|lia|]. intros r' Hr' Hin. by apply (Hd r' va).
  - cbn beta. intros x s' [K' (own1 & l1 & k & _ & _ & _ & Hx & _)]. destruct (Z.eqb_spec x 0) as [->|]; [|done]. cbn [negb] in K'.
    rewrite wp_ret in K'. destruct K' as (own' & l' & W1 & W2 & W3 & W4 & W5). split; [done|]. split.
    + exists own', l'. split_and!; try done; [|by etrans|lia]. intros p path Hp. destruct (W3 _ _ Hp); [by eapply H3|by eapply elem_suffix].
    + intros y Hy. rewrite Hx; [by apply Hb| |].
      * intros (p & path & Hp & Hin). apply Hy. exists p. split; [by eapply H3|done].
      * intros (p & Hp & Hin). apply Hy. exists p. split; [by eapply elem_suffix|done].
Qed.

Definition proc_regions (tf : Z) : list region := [Rg TRAPFRAME tf PGSIZE RW; Rg TRAMPOLINE trampoline PGSIZE RX].
Lemma proc_regions_ok tf : page_ok tf -> Forall rg_ok (proc_regions tf).
Proof.
  intros Hp. destruct (page_ok_pa tf Hp) as (P1 & P2 & P3). destruct trampoline_ok as [T1 T2].
  assert (EP : PGSIZE = 4096) by done. assert (Ht : trampoline + PGSIZE <= 2 ^ 56).
  { pose proof trampoline_range as [_ H]. pose proof etext_range as [_ H3]. pose proof kend_range as H4. unfold PHYSTOP, KERNBASE in *. lia. }
  repeat constructor; cbn [rg_va rg_pa rg_sz rg_perm]; try done; unfold RW, RX, PTE_R, PTE_W, PTE_X; cbn; lia.
Qed.
End proc_tables.

Section proc_pagetable.
Context {B D : Type} `{BK : Blocks B} `{L : Layout} `{!LayoutOk L} `{DV : Devices D}.

Definition machine (k : kern B D) : mach := fs_um (kr_fs k).

Lemma proc_pagetable_spec (k : kern B D) l tf : kmem_inv (machine k) l -> page_ok tf -> 8 <= Z.of_nat (length l) ->
  wp (proc_pagetable tf) (fun pt k' => pt <> 0 /\ fresh (machine k) l pt (proc_regions tf) 1 (machine k')) k.
Proof.
  intros Hk Htf Hl. unfold proc_pagetable, onm, onfs. pose proof (proc_regions_ok tf Htf) as Hok. apply Forall_cons in Hok as [Hf Ht].
  wp_simp. eapply wp_mono; [apply (uvmcreate_fresh _ l); [done|lia]|]. intros pt s1 [Hp F1]. rewrite (proj2 (Z.eqb_neq pt 0)) by done. wp_simp.
  eapply wp_mono; [apply (map_fresh _ l pt [] _ _ (Rg TRAMPOLINE trampoline PGSIZE RX) 2 F1)|].
  - by apply Forall_cons in Ht as [? _].
  - done.
  - by intros r' va ?%not_elem_of_nil.
  - done.
  - lia.
  - intros r s2 [-> F2]. cbn [Z.ltb Z.compare]. wp_simp.
    eapply wp_mono; [apply (map_fresh _ l pt _ _ _ (Rg TRAPFRAME tf PGSIZE RW) 2 F2)|]; try done; try lia.
    + intros r' va ->%list_elem_of_singleton. unfold in_region. cbn [rg_va rg_sz]. change TRAMPOLINE with (2 ^ 38 - 4096). change TRAPFRAME with (2 ^ 38 - 8192). unfold PGSIZE. lia.
    + intros r s3 [-> [F3 F3']]. cbn [Z.ltb Z.compare]. wp_simp. split; [done|]. split; [|exact F3'].
      destruct F3 as (own & l' & G1 & G2 & G3 & G4 & G5). exists own, l'. split_and!; try done. lia.
Qed.
End proc_pagetable.

(** * Traps and interrupts *)

Section traps.
Context `{L : Layout} `{!LayoutOk L} `{Y : Symbols} `{!SymbolsOk Y}.

(** The table of a new process beside the one of the kernel. *)
Lemma fresh_tables s0 l kpt kown tf pt b s : vm_inv s0 l kpt kown -> page_ok tf -> tf ∉ l -> kown !! tf = None ->
  pte_of (mmem s0) kpt TRAMPOLINE = pte_val trampoline RX -> fresh s0 l pt (proc_regions tf) b s -> exists own, trap_tables (mmem s) kpt pt tf kown own.
Proof.
  intros [V1 V2 V3] Htf Hl Hk Ht [(own & l' & H1 & [H2 _] & H3 & H4 & H5) Hb].
  assert (Hy : forall y, owned_byte kown y -> ld8 (mmem s) y = ld8 (mmem s0) y).
  { intros y (p & path & Hp & Hin). apply Hb. destruct (pt_page _ _ _ V2 _ _ Hp) as [Hok _]. apply (page_not_free s0 l p); try done.
    intros Hpl. apply V3 in Hpl. congruence. }
  exists own. split; [apply H1|by apply (pt_inv_frame (mmem s0))|done| |done| | |].
  - destruct (own !! tf) as [path|] eqn:E; [|done]. exfalso. by apply Hl, (H3 tf path).
  - rewrite (H2 (Rg TRAPFRAME tf PGSIZE RW)); [|left|unfold in_region; cbn [rg_va rg_sz]; unfold PGSIZE; lia].
    unfold rg_pte. cbn [rg_pa rg_va rg_perm]. by rewrite Z.sub_diag, Z.add_0_r.
  - rewrite (H2 (Rg TRAMPOLINE trampoline PGSIZE RX)); [|right; left|unfold in_region; cbn [rg_va rg_sz]; unfold PGSIZE; lia].
    unfold rg_pte. cbn [rg_pa rg_va rg_perm]. by rewrite Z.sub_diag, Z.add_0_r.
  - by rewrite (pte_frame (mmem s0) (mmem s) kpt kown).
Qed.

Lemma kernel_tramp kpt kown stk h : on_kernel kpt kown stk h -> pte_of (h_mem h) kpt TRAMPOLINE = pte_val trampoline RX.
Proof.
  intros [_ _ _ [K _] _]. rewrite (K (Rg TRAMPOLINE trampoline PGSIZE RX)).
  - unfold rg_pte. cbn [rg_pa rg_va rg_perm]. by rewrite Z.sub_diag, Z.add_0_r.
  - apply elem_of_app. right. left.
  - unfold in_region. cbn [rg_va rg_sz]. unfold PGSIZE. lia.
Qed.

(** C16: the way of a new process into user space.  With eight free pages
    proc_pagetable() succeeds, and when forkret() then goes through
    prepare_return() and userret, the core ends in user mode at the saved
    program counter, with the registers of the trapframe, the process's page
    table, interrupts enabled, and everything in place for the next trap. *)
Theorem new_process_enters {B D} (k : kern B D) h l kpt kown stk tf kstack :
  on_kernel kpt kown stk h -> h_mem h = mmem (machine k) -> regs_ok h -> h_x h TP = h_csr h MHARTID ->
  vm_inv (machine k) l kpt kown -> page_ok tf -> tf ∉ l -> kown !! tf = None -> 8 <= Z.of_nat (length l) ->
  wp (proc_pagetable tf) (fun pt k' => pt <> 0 /\
    wp (forkret_end kstack tf pt) (fun _ h' => exists own, in_user kpt pt tf kstack kown own h' /\
      (forall r, h_x h' r = ld64 (mmem (machine k)) (tf + tf_slot r)) /\ h_pc h' = ld64 (mmem (machine k)) (tf + tf_off TfEpc))
      (set_hmem (mmem (machine k')) h)) k.
Proof.
  intros K Hm Hx Htp V Htf Hl Ho Hn. eapply wp_mono; [apply (proc_pagetable_spec k l tf); [apply V|done|done]|].
  intros pt k' [Hp F]. split; [done|].
  destruct (fresh_tables (machine k) l kpt kown tf pt 1 (machine k')) as [own T]; try done; [rewrite <- Hm; by eapply kernel_tramp|].
  assert (Hy : forall o, 0 <= o -> o + 8 <= PGSIZE -> ld64 (mmem (machine k')) (tf + o) = ld64 (mmem (machine k)) (tf + o)).
  { intros o O1 O2. apply ld64_ext. intros y Hy. apply F. apply (page_not_free (machine k) l tf); try done; [apply V|unfold in_page; lia]. }
  eapply wp_mono; [eapply (forkret_end_spec _ kpt pt tf kstack kown own (fun r => ld64 (mmem (machine k)) (tf + tf_slot r)))|].
  - split; [apply K|apply K|exact T|exact Hx|exact Htp| |exact (Hy 24 ltac:(lia) ltac:(done))].
    intros r. pose proof (tf_slot_range r). apply Hy; unfold PGSIZE; lia.
  - intros [] h' (U & U1 & U2). exists own. done.
Qed.

(** C3: a trap from user space.  Whatever the cause, the core reaches the
    code of usertrap() that looks at it with the kernel's page table, stack
    and hart number, interrupts disabled, the vector set to kernelvec and all
    31 registers and the program counter of the process in its trapframe.
    When that code leaves a (possibly different) page table, registers and
    program counter behind, the process goes on with exactly those in user
    mode, and the kernel is again ready for the next trap.  Every instruction
    of the trampoline can be fetched under both page tables. *)
Theorem user_trap_correct h work kpt pt tf kstack kown own cause tval Q : in_user kpt pt tf kstack kown own h ->
  serves work kpt pt tf kstack kown own (h_x h) (h_pc h) cause tval Q ->
  wp (user_trap work kstack tf cause tval) (fun _ h' => exists pt' own' x', in_user kpt pt' tf kstack kown own' h' /\
    (forall r, h_x h' r = x' r) /\ Q pt' x' (h_pc h')) h.
Proof.
  intros U W. pose proof (enter_spec h kpt pt tf kstack kown own cause tval U) as E. unfold user_trap. rewrite !wp_bind in E |- *.
  eapply wp_mono; [exact E|]. clear E. intros [] h0 E. rewrite !wp_bind in E |- *. eapply wp_mono; [exact E|]. clear E. intros [] h1 E.
  rewrite wp_bind. eapply wp_mono; [exact E|]. clear E. intros [] h2 (Epc & Era & E). unfold c_call, usertrap_hart. rewrite !wp_bind.
  unfold at_pc at 1. wp_simp. rewrite Epc, Z.eqb_refl. wp_simp.
  eapply wp_mono; [exact E|]. clear E. intros [] h3 C. rewrite wp_bind. eapply wp_mono; [by apply W|]. clear C. intros pt' h4 (own' & x' & epc' & K & HQ).
  pose proof (return_spec h4 kpt pt' tf kstack kown own' x' epc' K) as R. rewrite wp_bind in R. rewrite wp_bind. eapply wp_mono; [exact R|]. clear R.
  intros [] h5 R. rewrite wp_bind, wp_modify in R. wp_simp. rewrite Era. unfold at_pc. wp_simp. cbn [h_pc set_pc]. rewrite Z.eqb_refl. wp_simp.
  eapply wp_mono; [exact R|]. intros [] h6 (R1 & R2 & R3). exists pt', own', x'. by rewrite R3.
Qed.

(** C15: an interrupt of kernel code.  kernelvec saves the registers on
    the stack of the interrupted code, kerneltrap() calls the handler and
    perhaps yield(), and afterwards the interrupted code goes on at the same
    instruction in supervisor mode, with the same interrupt enable bit and the
    same registers; only tp may differ, since yield() may have moved the
    thread to another core. *)
Theorem kernel_trap_correct kpt kown stk page a h devintr running yield cause tval :
  on_kernel kpt kown stk h -> regs_ok h -> h_csr h STVEC = kernelvec_addr -> in_text page ->
  let sp := u64 (h_x h SP - 256) in kdata kown stk sp 256 a ->
  c_func kpt kown stk sp a devintr (fun d => d <> 0) -> c_func kpt kown stk sp a yield (fun _ => True) ->
  wp (kernel_trap page devintr running yield cause tval) (fun _ h' => on_kernel kpt kown stk h' /\
    (forall r, r <> TP -> h_x h' r = h_x h r) /\ h_pc h' = h_pc h /\ st_sie h' = st_sie h) h.
Proof.
  intros K Hx Hv Ht sp D Fd Fy. destruct kv_tables_ok as (T1 & T2 & T3 & T4). unfold kernel_trap, at_pc, kernelvec. wp_simp.
  change (h_pc (trap cause tval h)) with (h_csr h STVEC). rewrite Hv, Z.eqb_refl. wp_simp.
  destruct (trap_bits cause tval h) as (B1 & B2 & B3). rewrite (ok_mode _ _ _ _ K), bool_decide_true in B3 by done. set (h0 := trap cause tval h) in *.
  assert (K0 : on_kernel kpt kown stk h0) by (apply (on_kernel_frame _ _ _ h); [done|symmetry; apply K|done|done]).
  eapply wp_straight; [by apply (text_fetch kpt kown stk)|done|]. set (h1 := set_x SP _ _).
  assert (K1 : on_kernel kpt kown stk h1) by by apply (on_kernel_frame _ _ _ h0).
  rewrite kernelvec_save_eq. apply (wp_run_saves _ _ SP 256 a kown); [by apply (kdata_window _ kpt _ stk)|by apply (text_fetch kpt kown stk)|done|].
  set (m2 := save_all a _ _ _). set (h2 := set_hmem m2 h1). cbn [run]. wp_simp.
  assert (K2 : on_kernel kpt kown stk h2).
  { apply (on_kernel_frame _ _ _ h1); [done|done|done|]. intros y Hy. apply (save_all_out 256); [done|]. destruct D as (_ & _ & _ & Hap).
    destruct (Z.lt_ge_cases y a); [by left|]. destruct (Z.lt_ge_cases y (a + 256)); [|by right]. exfalso. by apply (Hap y). }
  eapply wp_mono; [by apply (kerneltrap_spec kpt kown stk a)|]. intros [] h3 ([R1 R2 R3] & S1 & S2 & S3 & _).
  assert (Esp : h_x h3 SP = sp) by (rewrite R2 by left; done).
  rewrite kernelvec_restore_eq. apply (wp_run_loads _ _ SP 256 a kown); [by apply (kdata_window _ kpt _ stk); rewrite ?Esp|by apply (text_fetch kpt kown stk)|done|done|].
  set (h4 := Hart _ _ _ _ _). assert (K4 : on_kernel kpt kown stk h4) by by apply (on_kernel_frame _ _ _ h3).
  eapply wp_straight; [by apply (text_fetch kpt kown stk)|done|]. set (h5 := set_x SP _ h4).
  assert (K5 : on_kernel kpt kown stk h5) by by apply (on_kernel_frame _ _ _ h4).
  eapply wp_straight; [by apply (text_fetch kpt kown stk)|done|]. cbn [run]. wp_simp.
  assert (P5 : st_spp h5 = true) by (etrans; [exact S2|exact B3]).
  split; [|split; [|split; [exact S1|rewrite sret_sie; etrans; [exact S3|exact B2]]]].
  - apply (on_kernel_frame _ _ _ h5); [done|by rewrite sret_mode, P5; symmetry; apply K5|done|done].
  - intros r Hr. change (h_x (sret h5) r) with (h_x h5 r). by apply (restored h h3 a m2 r).
Qed.

(** C17: swtch() from one thread to another and back.  The second thread
    gets the registers of its context; when some swtch() later loads the
    context of the first, which nobody has changed, the first thread goes on
    behind its call with the stack pointer and the saved registers it had. *)
Theorem swtch_roundtrip kpt kown stk page c1 c2 c3 h h2 : on_kernel kpt kown stk h -> regs_ok h -> in_text page ->
  kdata kown stk (h_x h A0) 112 c1 -> kdata kown stk (h_x h A1) 112 c2 -> c1 + 112 <= c2 \/ c2 + 112 <= c1 ->
  on_kernel kpt kown stk h2 -> regs_ok h2 -> kdata kown stk (h_x h2 A0) 112 c3 -> kdata kown stk (h_x h2 A1) 112 c1 ->
  c3 + 112 <= c1 \/ c1 + 112 <= c3 ->
  wp (run page page swtch) (fun _ h1 => context_of (h_mem h) c2 (h_x h1) /\ h_pc h1 = ld64 (h_mem h) c2 /\
    (forall r, r ∉ context_regs -> h_x h1 r = h_x h r) /\
    ((forall y, c1 <= y < c1 + 112 -> ld8 (h_mem h2) y = ld8 (h_mem h1) y) ->
      wp (run page page swtch) (fun _ h3 => h_pc h3 = h_x h RA /\ forall r, r ∈ context_regs -> h_x h3 r = h_x h r) h2)) h.
Proof.
  intros K Hx Ht D1 D2 Hd K2 Hx2 D3 D4 Hd2. eapply wp_mono; [by apply (swtch_spec kpt kown stk page c1 c2)|].
  intros [] h1 [[S1 S2 S3 S4 S5 S6] _]. split; [done|]. split; [rewrite S2, <- (S1 0%nat RA eq_refl); by rewrite Z.add_0_r|]. split; [done|].
  intros Hsame. eapply wp_mono; [by apply (swtch_spec kpt kown stk page c3 c1)|]. intros [] h3 [[R1 R2 _ _ _ _] _].
  assert (E : forall i r, context_regs !! i = Some r -> h_x h3 r = h_x h r).
  { intros i r Hi. rewrite <- (R1 i r Hi), <- (S3 i r Hi). apply ld64_ext. intros y Hy. pose proof (ctx_range i r Hi). apply Hsame. lia. }
  split; [rewrite R2; by apply (E 0%nat)|]. intros r [i Hi]%list_elem_of_lookup. by apply (E i).
Qed.
End traps.

(** * The theorems at work *)

(** The first core after boot. *)
Definition demo_hart (kpt : Z) (m : mem) : hart :=
  Hart (fun r => match r with A0 => 0x80010000 | A1 => 0x80010100 | SP => 0x80009a00 | _ => 0 end)
    (fun c => match c with SATP => MAKE_SATP kpt | STVEC => kernelvec_addr | _ => 0 end) Supervisor 0x80001000 m.
Lemma demo_hart_regs kpt m : regs_ok (demo_hart kpt m).
Proof. intros r. destruct r; vm_compute; split; congruence. Qed.

Lemma demo_kernel_up : exists kpt kown stk l s, on_kernel kpt kown stk (demo_hart kpt (mmem s)) /\ vm_inv s l kpt kown /\ 9 <= Z.of_nat (length l) /\
  (forall p path, kown !! p = Some path -> page_ok p).
Proof.
  destruct (wp_ok _ _ _ (kinit_frees_all (Mach ∅ Free 0) eq_refl)) as ([] & s & _ & l0 & Hk & Hp).
  assert (H409 : 409 <= Z.of_nat (length l0)) by (apply many_pages; [done|apply Hk|done|vm_compute; congruence]).
  destruct (wp_ok _ _ _ (kvmmake_spec s l0 Hk ltac:(unfold boot_pages; lia))) as (kpt & s' & _ & kown & l & stk & V & _ & _ & Hl & (S1 & _ & S2) & Hm).
  exists kpt, kown, stk, l, s'. split; [|split; [done|split; [unfold boot_pages in Hl; lia|]]].
  - split; [done|done|apply V|done|]. split; [done|]. intros p Hps. by apply S2.
  - intros p path Hpp. by apply (pt_page _ _ _ (vi_pt _ _ _ _ V) p path).
Qed.

(** Static data of the kernel image is writable and no part of its page table. *)
Lemma demo_kdata kown stk va n : (forall p path, kown !! p = Some path -> page_ok p) -> va mod 8 = 0 -> 0 < n -> etext <= va -> va + n <= kend ->
  kdata kown stk va n va.
Proof.
  intros Hk Ha Hn H1 H2. assert (E : kend < PHYSTOP) by (vm_compute; congruence). split; [done|]. split; [done|]. split.
  - exists (Rg etext etext (PHYSTOP - etext) RW). split; [apply elem_of_app; right; right; left|]. cbn [rg_va rg_sz rg_pa rg_perm]. split; [done|]. lia.
  - intros y Hy (p & path & Hp & Hin). destruct (Hk p path Hp) as (_ & H & _). unfold in_page in Hin. lia.
Qed.

(** It has a page for a trapframe. *)
Lemma demo_trapframe : exists kpt kown stk l s tf, on_kernel kpt kown stk (demo_hart kpt (mmem s)) /\ vm_inv s l kpt kown /\
  page_ok tf /\ (tf ∉ l) /\ kown !! tf = None /\ 8 <= Z.of_nat (length l).
Proof.
  destruct demo_kernel_up as (kpt & kown & stk & l & s & K & V & Hl & _). destruct l as [|p l]; [cbn in Hl; lia|].
  destruct (wp_ok _ _ _ (kalloc_spec s (p :: l) (vi_kmem _ _ _ _ V))) as (r & s1 & _ & -> & Hk & Hx).
  destruct (vm_take s p l kpt kown s1) as (V1 & Hp & V2 & V3 & V4); [done|done|intros x Hnx; rewrite Hx; unfold in_page in Hnx; zcases; done|].
  exists kpt, kown, stk, l, s1, p. split_and!; try done; [|cbn in Hl; lia].
  apply (on_kernel_frame _ _ _ (demo_hart kpt (mmem s))); [done|done|done|]. intros y (q & path & Hq & Hin). cbn [h_mem demo_hart]. rewrite Hx.
  destruct (pt_page _ _ _ (vi_pt _ _ _ _ V) q path Hq) as [Hqok _].
  assert (Hn : ~ in_page p y) by (intros Hin'; apply (in_page_ne p q y); try done; congruence). unfold in_page in Hn. zcases; done || lia.
Qed.

Definition demo_proc_kern (s : mach) : kern unit unit :=
  Kern (Fsst tt s (Superblock 0 0 0 0 0 0 0 0) Free []) tt Free [] ∅ [] Free Free 1 None None Free 0.

Lemma demo_in_user : exists h kpt pt tf kown own, in_user kpt pt tf 0x3fffffd000 kown own h.
Proof.
  destruct demo_trapframe as (kpt & kown & stk & l & s & tf & K & V & H1 & H2 & H3 & H4).
  destruct (wp_ok _ _ _ (proc_pagetable_spec (demo_proc_kern s) l tf (vi_kmem _ _ _ _ V) H1 H4)) as (pt & k' & _ & _ & F).
  destruct (fresh_tables s l kpt kown tf pt 1 (machine k') V H1 H2 H3 (kernel_tramp _ _ _ _ K) F) as [own T].
  set (h := demo_hart kpt (mmem (machine k'))).
  assert (I : in_kernel kpt pt tf kown own (fun r => ld64 (h_mem h) (tf + tf_slot r)) (ld64 (h_mem h) (tf + tf_off TfEpc)) h) by by split; [..|apply demo_hart_regs| | |].
  destruct (wp_ok _ _ _ (forkret_end_spec h kpt pt tf 0x3fffffd000 kown own _ _ I)) as ([] & h' & _ & U & _). by exists h', kpt, pt, tf, kown, own.
Qed.

Lemma new_process_enters_witness : exists s tf kpt, wp (proc_pagetable tf) (fun pt k' => wp (forkret_end 0x3fffffd000 tf pt)
  (fun _ h' => h_mode h' = User /\ h_csr h' SATP = MAKE_SATP pt) (demo_hart kpt (mmem (machine k')))) (demo_proc_kern s).
Proof.
  destruct demo_trapframe as (kpt & kown & stk & l & s & tf & K & V & H1 & H2 & H3 & H4). exists s, tf, kpt.
  eapply wp_mono; [apply (new_process_enters (demo_proc_kern s) (demo_hart kpt (mmem s)) l kpt kown stk tf 0x3fffffd000 K eq_refl
    (demo_hart_regs _ _) eq_refl V H1 H2 H3 H4)|].
  intros pt k' [_ W]. eapply wp_mono; [exact W|]. intros [] h' (own & U & _). split; apply U.
Defined.

(** A trap for which the kernel does nothing. *)
Lemma user_trap_correct_witness : exists h tf pt, wp (user_trap (ret pt) 0x3fffffd000 tf 0x8000000000000005 0)
  (fun _ h' => h_mode h' = User /\ (forall r, h_x h' r = h_x h r) /\ h_pc h' = h_pc h) h.
Proof.
  destruct demo_in_user as (h & kpt & pt & tf & kown & own & U). exists h, tf, pt.
  eapply wp_mono; [apply (user_trap_correct h (ret pt) kpt pt tf 0x3fffffd000 kown own 0x8000000000000005 0 (fun _ x e => x = h_x h /\ e = h_pc h) U)|].
  - intros g [G _ _ _ _ _]. rewrite wp_ret. exists own, (h_x h), (h_pc h). done.
  - intros [] h' (pt' & own' & x' & U' & Hr & -> & Hpc). split; [apply U'|done].
Defined.

Lemma kernel_trap_correct_witness : exists h, wp (kernel_trap 0x80005000 (ret 1) true (ret tt) 0x8000000000000009 0)
  (fun _ h' => h_mode h' = Supervisor /\ (forall r, r <> TP -> h_x h' r = h_x h r) /\ h_pc h' = h_pc h) h.
Proof.
  destruct demo_kernel_up as (kpt & kown & stk & l & s & K & V & _ & Hk). exists (demo_hart kpt (mmem s)).
  eapply wp_mono; [apply (kernel_trap_correct kpt kown stk 0x80005000 0x80009900 (demo_hart kpt (mmem s)) (ret 1) true (ret tt) 0x8000000000000009 0 K
    (demo_hart_regs _ _) eq_refl)|].
  - vm_compute. split; congruence.
  - apply demo_kdata; [done|reflexivity|lia|vm_compute; congruence|vm_compute; congruence].
  - intros g Hg _. rewrite wp_ret. by split.
  - intros g Hg _. rewrite wp_ret. by split.
  - intros [] h' (K' & H1 & H2 & _). split; [apply K'|done].
Defined.

Lemma swtch_roundtrip_witness : exists h, wp (run 0x80001000 0x80001000 swtch) (fun _ h1 => h_pc h1 = ld64 (h_mem h) 0x80010100) h.
Proof.
  destruct demo_kernel_up as (kpt & kown & stk & l & s & K & V & _ & Hk). set (h := demo_hart kpt (mmem s)) in *. exists h.
  set (h2 := set_x A0 0x80010100 (set_x A1 0x80010000 h)).
  assert (D : forall va, va = 0x80010000 \/ va = 0x80010100 -> kdata kown stk va 112 va).
  { intros va [-> | ->]; (apply demo_kdata; [done|reflexivity|lia|vm_compute; congruence|vm_compute; congruence]). }
  eapply wp_mono; [apply (swtch_roundtrip kpt kown stk 0x80001000 0x80010000 0x80010100 0x80010100 h h2 K)|].
  - apply demo_hart_regs.
  - vm_compute. split; congruence.
  - apply D. by left.
  - apply D. by right.
  - lia.
  - by apply (on_kernel_frame _ _ _ h).
  - intros r. destruct r; vm_compute; split; congruence.
  - apply D. by right.
  - apply D. by left.
  - lia.
  - intros [] h1 (_ & E & _). exact E.
Defined.
