(* ===== verification/Sysfile.v ===== *)
(** kernel/sysfile.c (but for sys_exec, in Exec) and the argument fetching of
    kernel/syscall.c.

    System-call arguments are the registers saved in the trapframe page of
    the process.  The parts that only involve the file system are written on
    its state and lifted with [onfs]. *)
From S2P Require Import Prelude Mem Kalloc Vm UserMem Pipe Bio Bytes Blocks Fs Kern Sched File ProcLife Usys.

(** * Arguments *)

Section args.
Context {B D : Type} `{BK : Blocks B} `{L : Layout}.
Implicit Types s : kern B D.

Definition argraw (n : Z) : M (kern B D) Z :=
  let! p := myproc in
  if (0 <=? n) && (n <=? 5) then
    let! tf := gets (fun s => pr_trapframe (getp p s)) in
    onm (rd64 (tf + TF_A0 + 8 * n))
  else panic "argraw".
Definition argint (n : Z) : M (kern B D) Z := let! v := argraw n in ret (s32 v).
Definition argaddr (n : Z) : M (kern B D) Z := argraw n.

Definition fetchaddr (addr : Z) : M (kern B D) (option Z) :=
  let! i := myproc in
  let! p := gets (getp i) in
  if (pr_sz p <=? addr) || (pr_sz p <? u64 (addr + 8)) then ret None
  else
    let! r := onm (copyin (uproc_of p) (pr_pagetable p) addr 8) in
    ret (if snd r : bool then Some (le_decode (fst r)) else None).
(** The string; its length is what the C function returns. *)
Definition fetchstr (addr max : Z) : M (kern B D) (option (list Z)) :=
  let! i := myproc in
  let! p := gets (getp i) in
  onm (copyinstr (uproc_of p) (pr_pagetable p) addr max).
Definition argstr (n max : Z) : M (kern B D) (option (list Z)) :=
  let! addr := argaddr n in fetchstr addr max.

End args.

Definition MAXPATH : Z := 128.

(** * Directory operations *)

Section dirs.
Context {B U P : Type} `{BK : Blocks B} `{UM : UserMem U P}.
(** The pid of the caller and the inode of its working directory. *)
Context (me : Z) (cwd : nat).
Implicit Types s : fsst B U.

Definition link_bad (ip : nat) : M (fsst B U) Z :=
  ilock me ip ;;
  modi ip (fun x => set_i_nlink (s16 (i_nlink x - 1)) x) ;;
  iupdate ip ;;
  iunlockput me ip ;;
  onk bk_end_op ;;
  ret (-1).
Definition fs_link (old new : list Z) : M (fsst B U) Z :=
  onk bk_begin_op ;;
  let! o := namei me cwd old in
  match o with
  | None => onk bk_end_op ;; ret (-1)
  | Some ip =>
      ilock me ip ;;
      let! x := gets (geti ip) in
      if i_type x =? T_DIR then iunlockput me ip ;; onk bk_end_op ;; ret (-1)
      else
        modi ip (fun x => set_i_nlink (s16 (i_nlink x + 1)) x) ;;
        iupdate ip ;;
        iunlock me ip ;;
        let! dn := nameiparent me cwd new [] in
        match dn with
        | (None, _) => link_bad ip
        | (Some dp, name) =>
            ilock me dp ;;
            let! d := gets (geti dp) in
            let! x := gets (geti ip) in
            let! r := (if negb (i_dev d =? i_dev x) then ret (-1) else dirlink me dp name (i_inum x)) in
            if r <? 0 then iunlockput me dp ;; link_bad ip
            else
              iunlockput me dp ;;
              iput me ip ;;
              onk bk_end_op ;;
              ret 0
        end
  end.

(** The loop of isdirempty() from [off]. *)
Fixpoint isdirempty_loop (fuel dp : nat) (off : Z) : M (fsst B U) bool :=
  let! x := gets (geti dp) in
  if off <? i_size x then
    match fuel with
    | O => nofuel
    | S fuel =>
        let! (r, de) := readi dp ToKernel off DIRENT_SZ in
        if negb (r =? DIRENT_SZ) then panic "isdirempty: readi"
        else if negb (de_inum de =? 0) then ret false
        else isdirempty_loop fuel dp (off + DIRENT_SZ)
    end
  else ret true.
Definition isdirempty (dp : nat) : M (fsst B U) bool :=
  let! x := gets (geti dp) in
  isdirempty_loop (Z.to_nat (i_size x / DIRENT_SZ + 1)) dp (2 * DIRENT_SZ).

Definition unlink_bad (dp : nat) : M (fsst B U) Z := iunlockput me dp ;; onk bk_end_op ;; ret (-1).
Definition fs_unlink (path : list Z) : M (fsst B U) Z :=
  onk bk_begin_op ;;
  let! dn := nameiparent me cwd path [] in
  match dn with
  | (None, _) => onk bk_end_op ;; ret (-1)
  | (Some dp, name) =>
      ilock me dp ;;
      if (namecmp name [46] =? 0) || (namecmp name [46; 46] =? 0) then unlink_bad dp
      else
        let! o := dirlookup dp name in
        match o with
        | None => unlink_bad dp
        | Some (ip, off) =>
            ilock me ip ;;
            let! x := gets (geti ip) in
            if i_nlink x <? 1 then panic "unlink: nlink < 1"
            else
              let! empty := (if i_type x =? T_DIR then isdirempty ip else ret true) in
              if negb empty then iunlockput me ip ;; unlink_bad dp
              else
                let! r := writei dp (FromKernel (replicate 16 0)) off DIRENT_SZ in
                if negb (r =? DIRENT_SZ) then panic "unlink: writei"
                else
                  (if i_type x =? T_DIR then
                     modi dp (fun d => set_i_nlink (s16 (i_nlink d - 1)) d) ;; iupdate dp
                   else ret tt) ;;
                  iunlockput me dp ;;
                  modi ip (fun x => set_i_nlink (s16 (i_nlink x - 1)) x) ;;
                  iupdate ip ;;
                  iunlockput me ip ;;
                  onk bk_end_op ;;
                  ret 0
        end
  end.

Definition create_fail (ip dp : nat) : M (fsst B U) (option nat) :=
  modi ip (set_i_nlink 0) ;;
  iupdate ip ;;
  iunlockput me ip ;;
  iunlockput me dp ;;
  ret None.
(** create(): the new (or existing) inode, locked. *)
Definition create (path : list Z) (type major minor : Z) : M (fsst B U) (option nat) :=
  let! dn := nameiparent me cwd path [] in
  match dn with
  | (None, _) => ret None
  | (Some dp, name) =>
      ilock me dp ;;
      let! o := dirlookup dp name in
      match o with
      | Some (ip, _) =>
          iunlockput me dp ;;
          ilock me ip ;;
          let! x := gets (geti ip) in
          if (type =? T_FILE) && ((i_type x =? T_FILE) || (i_type x =? T_DEVICE)) then ret (Some ip)
          else iunlockput me ip ;; ret None
      | None =>
          let! d := gets (geti dp) in
          let! o := ialloc (i_dev d) type in
          match o with
          | None => iunlockput me dp ;; ret None
          | Some ip =>
              ilock me ip ;;
              modi ip (set_i_devno major minor) ;;
              modi ip (set_i_nlink 1) ;;
              iupdate ip ;;
              let! x := gets (geti ip) in
              let! r := (if type =? T_DIR then
                           let! r1 := dirlink me ip [46] (i_inum x) in
                           if r1 <? 0 then ret (-1) else dirlink me ip [46; 46] (i_inum d)
                         else ret 0) in
              if r <? 0 then create_fail ip dp
              else
                let! r := dirlink me dp name (i_inum x) in
                if r <? 0 then create_fail ip dp
                else
                  (if type =? T_DIR then
                     modi dp (fun d => set_i_nlink (s16 (i_nlink d + 1)) d) ;; iupdate dp
                   else ret tt) ;;
                  iunlockput me dp ;;
                  ret (Some ip)
          end
      end
  end.

(** sys_mkdir and sys_mknod, after their arguments have been fetched. *)
Definition fs_mknod (path : option (list Z)) (type major minor : Z) : M (fsst B U) Z :=
  let! o := match path with None => ret None | Some path => create path type major minor end in
  match o with
  | None => onk bk_end_op ;; ret (-1)
  | Some ip => iunlockput me ip ;; onk bk_end_op ;; ret 0
  end.

(** The part of sys_open() that finds the inode, which is left locked. *)
Definition open_inode (path : list Z) (omode : Z) : M (fsst B U) (option nat) :=
  let! o := (if has_flag omode O_CREATE then create path T_FILE 0 0
             else
               let! o := namei me cwd path in
               match o with
               | None => ret None
               | Some ip =>
                   ilock me ip ;;
                   let! x := gets (geti ip) in
                   if (i_type x =? T_DIR) && negb (omode =? O_RDONLY) then iunlockput me ip ;; ret None
                   else ret (Some ip)
               end) in
  match o with
  | None => ret None
  | Some ip =>
      let! x := gets (geti ip) in
      if (i_type x =? T_DEVICE) && ((i_major x <? 0) || (NDEV <=? i_major x)) then iunlockput me ip ;; ret None
      else ret (Some ip)
  end.

End dirs.

(** * Descriptors *)

Section calls.
Context {B D : Type} `{BK : Blocks B} `{L : Layout} `{DV : Devices D}.
Implicit Types s : kern B D.

(** The descriptor given as argument [n], and its file. *)
Definition argfd (n : Z) : M (kern B D) (option (nat * nat)) :=
  let! fd := argint n in
  let! i := myproc in
  let! p := gets (getp i) in
  if (fd <? 0) || (Z.of_nat NOFILE <=? fd) then ret None
  else
    match pr_ofile p !! Z.to_nat fd with
    | Some (Some f) => ret (Some (Z.to_nat fd, f))
    | _ => ret None
    end.

Fixpoint fdalloc_loop (n fd i f : nat) : M (kern B D) Z :=
  match n with
  | O => ret (-1)
  | S n =>
      let! o := gets (fun s => default None (pr_ofile (getp i s) !! fd)) in
      match o with
      | None => modp i (fun q => set_pr_ofile (<[fd := Some f]> (pr_ofile q)) q) ;; ret (Z.of_nat fd)
      | Some _ => fdalloc_loop n (S fd) i f
      end
  end.
Definition fdalloc (f : nat) : M (kern B D) Z := let! i := myproc in fdalloc_loop NOFILE 0 i f.

Definition clear_fd (fd : nat) : M (kern B D) unit :=
  let! i := myproc in modp i (fun q => set_pr_ofile (<[fd := None]> (pr_ofile q)) q).

Definition sys_dup : M (kern B D) Z :=
  let! o := argfd 0 in
  match o with
  | None => ret (-1)
  | Some (_, f) =>
      let! fd := fdalloc f in
      if fd <? 0 then ret (-1)
      else let! _ := filedup f in ret fd
  end.

Definition sys_read : M (kern B D) seg_res :=
  let! p := argaddr 1 in
  let! n := argint 2 in
  let! o := argfd 0 in
  match o with
  | None => ret (Done (-1))
  | Some (_, f) => fileread f p n
  end.
(** [k]: how far the call had come when it went to sleep. *)
Definition sys_write (k : Z) : M (kern B D) seg_res :=
  let! p := argaddr 1 in
  let! n := argint 2 in
  let! o := argfd 0 in
  match o with
  | None => ret (Done (-1))
  | Some (_, f) => filewrite f p n k
  end.

Definition sys_close : M (kern B D) Z :=
  let! o := argfd 0 in
  match o with
  | None => ret (-1)
  | Some (fd, f) => clear_fd fd ;; fileclose f ;; ret 0
  end.

Definition sys_fstat : M (kern B D) Z :=
  let! st := argaddr 1 in
  let! o := argfd 0 in
  match o with
  | None => ret (-1)
  | Some (_, f) => filestat f st
  end.

(** * Names *)

(** The caller's pid and working directory. *)
Definition whoami : M (kern B D) (Z * nat) :=
  let! i := myproc in
  let! p := gets (getp i) in
  match pr_cwd p with Some c => ret (pr_pid p, c) | None => panic "no cwd" end.

Definition sys_link : M (kern B D) Z :=
  let! old := argstr 0 MAXPATH in
  match old with
  | None => ret (-1)
  | Some old =>
      let! new := argstr 1 MAXPATH in
      match new with
      | None => ret (-1)
      | Some new => let! (pid, cwd) := whoami in onfs (fs_link pid cwd old new)
      end
  end.

Definition sys_unlink : M (kern B D) Z :=
  let! path := argstr 0 MAXPATH in
  match path with
  | None => ret (-1)
  | Some path => let! (pid, cwd) := whoami in onfs (fs_unlink pid cwd path)
  end.

Definition sys_open : M (kern B D) Z :=
  let! omode := argint 1 in
  let! path := argstr 0 MAXPATH in
  match path with
  | None => ret (-1)
  | Some path =>
      let! (pid, cwd) := whoami in
      begin_tx ;;
      let! o := onfs (open_inode pid cwd path omode) in
      match o with
      | None => end_tx ;; ret (-1)
      | Some ip =>
          let! x := onfs (gets (geti ip)) in
          let! fo := filealloc in
          match fo with
          | None => onfs (iunlockput pid ip) ;; end_tx ;; ret (-1)
          | Some f =>
              let! fd := fdalloc f in
              if fd <? 0 then
                fileclose f ;; onfs (iunlockput pid ip) ;; end_tx ;; ret (-1)
              else
                (if i_type x =? T_DEVICE then
                   modf f (set_f_type FD_DEVICE) ;; modf f (set_f_major (i_major x))
                 else
                   modf f (set_f_type FD_INODE) ;; modf f (set_f_off 0)) ;;
                modf f (set_f_ip ip) ;;
                modf f (set_f_readable (negb (has_flag omode O_WRONLY))) ;;
                modf f (set_f_writable (has_flag omode O_WRONLY || has_flag omode O_RDWR)) ;;
                (if has_flag omode O_TRUNC && (i_type x =? T_FILE) then onfs (itrunc ip) else ret tt) ;;
                onfs (iunlock pid ip) ;;
                end_tx ;;
                ret fd
          end
      end
  end.

Definition sys_mkdir : M (kern B D) Z :=
  begin_tx ;;
  let! path := argstr 0 MAXPATH in
  let! (pid, cwd) := whoami in
  onfs (fs_mknod pid cwd path T_DIR 0 0).

Definition sys_mknod : M (kern B D) Z :=
  begin_tx ;;
  let! major := argint 1 in
  let! minor := argint 2 in
  let! path := argstr 0 MAXPATH in
  let! (pid, cwd) := whoami in
  onfs (fs_mknod pid cwd path T_DEVICE (s16 major) (s16 minor)).

Definition sys_chdir : M (kern B D) Z :=
  let! i := myproc in
  begin_tx ;;
  let! path := argstr 0 MAXPATH in
  let! (pid, cwd) := whoami in
  let! o := match path with None => ret None | Some path => onfs (namei pid cwd path) end in
  match o with
  | None => end_tx ;; ret (-1)
  | Some ip =>
      onfs (ilock pid ip) ;;
      let! x := onfs (gets (geti ip)) in
      if negb (i_type x =? T_DIR) then onfs (iunlockput pid ip) ;; end_tx ;; ret (-1)
      else
        onfs (iunlock pid ip) ;;
        onfs (iput pid cwd) ;;
        end_tx ;;
        modp i (set_pr_cwd (Some ip)) ;;
        ret 0
  end.

Definition sys_pipe : M (kern B D) Z :=
  let! i := myproc in
  let! fdarray := argaddr 0 in
  let! o := pipealloc in
  match o with
  | None => ret (-1)
  | Some (rf, wf) =>
      let! fd0 := fdalloc rf in
      let! fd1 := (if fd0 <? 0 then ret (-1) else fdalloc wf) in
      if fd1 <? 0 then
        (if 0 <=? fd0 then clear_fd (Z.to_nat fd0) else ret tt) ;;
        fileclose rf ;; fileclose wf ;; ret (-1)
      else
        let! p := gets (getp i) in
        let out a v := onm (copyout (uproc_of p) (pr_pagetable p) a (le_encode 4 v)) in
        let! r := out fdarray fd0 in
        let! r := (if r <? 0 then ret r else out (u64 (fdarray + 4)) fd1) in
        if r <? 0 then
          clear_fd (Z.to_nat fd0) ;; clear_fd (Z.to_nat fd1) ;;
          fileclose rf ;; fileclose wf ;; ret (-1)
        else ret 0
  end.

End calls.
