(* ===== verification/Exec.v ===== *)
(** kernel/exec.c and sys_exec() of kernel/sysfile.c: replacing the image of
    a process by a program file. *)
From S2P Require Import Prelude Mem Kalloc Vm UserMem Pipe Bio Bytes Blocks Fs Kern Sched File ProcLife Usys Sysfile.

(** * kernel/elf.h *)

Definition ELF_MAGIC : Z := 0x464C457F.
Definition ELF_PROG_LOAD : Z := 1.
Definition ELFHDR_SZ : Z := 64.
Definition PROGHDR_SZ : Z := 56.

(** The fields exec uses, from the bytes of the headers. *)
Record elfhdr : Type := Elfhdr { e_magic : Z; e_entry : Z; e_phoff : Z; e_phnum : Z }.
Definition elfhdr_of (b : list Z) : elfhdr := Elfhdr (getn 4 0 b) (getn 8 24 b) (getn 8 32 b) (getn 2 56 b).
Record proghdr : Type := Proghdr { ph_type : Z; ph_flags : Z; ph_off : Z; ph_vaddr : Z; ph_filesz : Z; ph_memsz : Z }.
Definition proghdr_of (b : list Z) : proghdr :=
  Proghdr (getn 4 0 b) (getn 4 4 b) (getn 8 8 b) (getn 8 16 b) (getn 8 32 b) (getn 8 40 b).

Definition flags2perm (flags : Z) : Z :=
  let perm := if has_flag flags 1 then PTE_X else 0 in
  if has_flag flags 2 then Z.lor perm PTE_W else perm.

Definition MAXARG : Z := 32.
Definition USERSTACK : Z := 1.

Section exec.
Context {B D : Type} `{BK : Blocks B} `{L : Layout}.
Implicit Types s : kern B D.

(** A segment of the file into memory that is already mapped. *)
Fixpoint loadseg_loop (fuel : nat) (pagetable va : Z) (ip : nat) (offset sz i : Z) : M (kern B D) Z :=
  if i <? sz then
    match fuel with
    | O => nofuel
    | S fuel =>
        let! pa := onm (walkaddr pagetable (u64 (va + i))) in
        if pa =? 0 then panic "loadseg: address should exist"
        else
          let n := if sz - i <? PGSIZE then sz - i else PGSIZE in
          let! (r, bs) := onfs (readi ip ToKernel (u32 (offset + i)) n) in
          onm (modify (set_mem (fun m => st_bytes m pa bs))) ;;
          if negb (r =? n) then ret (-1)
          else loadseg_loop fuel pagetable va ip offset sz (u32 (i + PGSIZE))
    end
  else ret 0.
Definition loadseg (pagetable va : Z) (ip : nat) (offset sz : Z) : M (kern B D) Z :=
  loadseg_loop (Z.to_nat (sz / PGSIZE + 1)) pagetable va ip offset sz 0.

(** The loop over the program headers: success, and the size so far. *)
Fixpoint load_segments (n : nat) (pagetable : Z) (ip : nat) (off sz : Z) : M (kern B D) (bool * Z) :=
  match n with
  | O => ret (true, sz)
  | S n =>
      let! (r, b) := onfs (readi ip ToKernel (u32 off) PROGHDR_SZ) in
      if negb (r =? PROGHDR_SZ) then ret (false, sz)
      else
        let ph := proghdr_of b in
        let off := s32 (off + PROGHDR_SZ) in
        if negb (ph_type ph =? ELF_PROG_LOAD) then load_segments n pagetable ip off sz
        else if ph_memsz ph <? ph_filesz ph then ret (false, sz)
        else if u64 (ph_vaddr ph + ph_memsz ph) <? ph_vaddr ph then ret (false, sz)
        else if negb (ph_vaddr ph mod PGSIZE =? 0) then ret (false, sz)
        else
          let! sz1 := onm (uvmalloc pagetable sz (u64 (ph_vaddr ph + ph_memsz ph)) (flags2perm (ph_flags ph))) in
          if sz1 =? 0 then ret (false, sz)
          else
            let! r := loadseg pagetable (ph_vaddr ph) ip (u32 (ph_off ph)) (u32 (ph_filesz ph)) in
            if r <? 0 then ret (false, sz1)
            else load_segments n pagetable ip off sz1
  end.

(** Copy the argument strings to the new stack: the stack pointer and the
    addresses of the strings. *)
Fixpoint push_args (u : uproc) (pagetable stackbase : Z) (argv : list (list Z)) (argc sp : Z) (ustack : list Z)
    : M (kern B D) (option (Z * list Z)) :=
  match argv with
  | [] => ret (Some (sp, ustack))
  | a :: argv =>
      if MAXARG <=? argc then ret None
      else
        let sp := u64 (sp - (Z.of_nat (length a) + 1)) in
        let sp := sp - sp mod 16 in
        if sp <? stackbase then ret None
        else
          let! r := onm (copyout u pagetable sp (a ++ [0])) in
          if r <? 0 then ret None
          else push_args u pagetable stackbase argv (argc + 1) sp (ustack ++ [sp])
  end.

Definition exec_bad (pid pagetable sz : Z) (ip : option nat) : M (kern B D) Z :=
  (if pagetable =? 0 then ret tt else proc_freepagetable pagetable sz) ;;
  (match ip with
   | Some ip => onfs (iunlockput pid ip) ;; end_tx
   | None => ret tt
   end) ;;
  ret (-1).

(** The part of the path after the last slash. *)
Fixpoint last_elem (path last : list Z) : list Z :=
  match path with
  | [] => last
  | c :: path => if c =? 47 then last_elem path path else last_elem path last
  end.

(** From the loaded image: the stack, the arguments, and the commit. *)
Definition exec_commit (i : nat) (path : list Z) (argv : list (list Z)) (pagetable sz entry : Z) : M (kern B D) Z :=
  let! p := gets (getp i) in
  let pid := pr_pid p in
  let oldsz := pr_sz p in
  let sz := PGROUNDUP sz in
  let! sz1 := onm (uvmalloc pagetable sz (u64 (sz + (USERSTACK + 1) * PGSIZE)) PTE_W) in
  if sz1 =? 0 then exec_bad pid pagetable sz None
  else
    onm (uvmclear pagetable (sz1 - (USERSTACK + 1) * PGSIZE)) ;;
    let stackbase := sz1 - USERSTACK * PGSIZE in
    let! o := push_args (uproc_of p) pagetable stackbase argv 0 sz1 [] in
    match o with
    | None => exec_bad pid pagetable sz1 None
    | Some (sp, ustack) =>
        let argc := Z.of_nat (length ustack) in
        let sp := u64 (sp - (argc + 1) * 8) in
        let sp := sp - sp mod 16 in
        if sp <? stackbase then exec_bad pid pagetable sz1 None
        else
          let! r := onm (copyout (uproc_of p) pagetable sp (concat (le_encode 8 <$> (ustack ++ [0])))) in
          if r <? 0 then exec_bad pid pagetable sz1 None
          else
            onm (wr64 (pr_trapframe p + TF_A1) sp) ;;
            modp i (set_pr_name (take 15 (last_elem path path))) ;;
            modp i (set_pr_pagetable pagetable) ;;
            modp i (set_pr_sz sz1) ;;
            onm (wr64 (pr_trapframe p + TF_EPC) entry) ;;
            onm (wr64 (pr_trapframe p + TF_SP) sp) ;;
            proc_freepagetable (pr_pagetable p) oldsz ;;
            ret argc
    end.

Definition kexec (path : list Z) (argv : list (list Z)) : M (kern B D) Z :=
  let! i := myproc in
  let! (pid, cwd) := whoami in
  begin_tx ;;
  let! o := onfs (namei pid cwd path) in
  match o with
  | None => end_tx ;; ret (-1)
  | Some ip =>
      onfs (ilock pid ip) ;;
      let! (r, b) := onfs (readi ip ToKernel 0 ELFHDR_SZ) in
      if negb (r =? ELFHDR_SZ) then exec_bad pid 0 0 (Some ip)
      else
        let elf := elfhdr_of b in
        if negb (e_magic elf =? ELF_MAGIC) then exec_bad pid 0 0 (Some ip)
        else
          let! tf := gets (fun s => pr_trapframe (getp i s)) in
          let! pagetable := proc_pagetable tf in
          if pagetable =? 0 then exec_bad pid 0 0 (Some ip)
          else
            let! (ok, sz) := load_segments (Z.to_nat (e_phnum elf)) pagetable ip (s32 (e_phoff elf)) 0 in
            if negb ok then exec_bad pid pagetable sz (Some ip)
            else
              onfs (iunlockput pid ip) ;;
              end_tx ;;
              exec_commit i path argv pagetable sz (e_entry elf)
  end.

(** * sys_exec *)

(** The loop that fetches the argument strings, each into a page of its own:
    success, and the pages and strings so far. *)
Fixpoint fetch_args (fuel : nat) (uargv : Z) (i : Z) (got : list (Z * list Z)) : M (kern B D) (bool * list (Z * list Z)) :=
  match fuel with
  | O => ret (false, got)
  | S fuel =>
      let! o := fetchaddr (u64 (uargv + 8 * i)) in
      match o with
      | None => ret (false, got)
      | Some uarg =>
          if uarg =? 0 then ret (true, got)
          else
            let! page := onm kalloc in
            if page =? 0 then ret (false, got)
            else
              let! o := fetchstr uarg PGSIZE in
              match o with
              | None => ret (false, got ++ [(page, [])])
              | Some a =>
                  onm (modify (set_mem (fun m => st_bytes m page (a ++ [0])))) ;;
                  fetch_args fuel uargv (i + 1) (got ++ [(page, a)])
              end
      end
  end.
Fixpoint free_args (got : list (Z * list Z)) : M (kern B D) unit :=
  match got with
  | [] => ret tt
  | (page, _) :: got => onm (kfree page) ;; free_args got
  end.

Definition sys_exec : M (kern B D) Z :=
  let! uargv := argaddr 1 in
  let! path := argstr 0 MAXPATH in
  match path with
  | None => ret (-1)
  | Some path =>
      let! (ok, got) := fetch_args (Z.to_nat MAXARG) uargv 0 [] in
      let! r := (if ok : bool then kexec path (snd <$> got) else ret (-1)) in
      free_args got ;;
      ret r
  end.

End exec.
