(* ===== verification/Sysproc.v ===== *)
(** kernel/sysproc.c and src/utils/memory/memory_syscalls.c: the system calls
    on processes and memory, the lazy ones (sbrk, mmap, mapzero) included,
    and vmprint() of kernel/vm.c. *)
From S2P Require Import Prelude Mem Str Kalloc Vm UserMem Pipe Bio Blocks Fs Usys Uprintf Kern Sched File ProcLife Sysfile.

Definition SBRK_EAGER : Z := 1.
Definition SBRK_LAZY : Z := 2.

Section sysproc.
Context {B D : Type} `{BK : Blocks B} `{L : Layout} `{DV : Devices D}.
Context (forkret : Z).
Implicit Types s : kern B D.

(** * kernel/sysproc.c *)

Definition sys_exit : M (kern B D) unit := let! n := argint 0 in kexit n.
Definition sys_getpid : M (kern B D) Z := let! i := myproc in gets (fun s => pr_pid (getp i s)).
Definition sys_fork : M (kern B D) Z := kfork forkret.
Definition sys_wait : M (kern B D) seg_res := let! p := argaddr 0 in kwait p.
Definition sys_kill : M (kern B D) Z := let! pid := argint 0 in kkill pid.
Definition sys_getpfcount : M (kern B D) Z := let! i := myproc in gets (fun s => pr_pf_count (getp i s)).
Definition sys_uptime : M (kern B D) Z :=
  ticks_acquire ;; let! xticks := gets kr_ticks in ticks_release ;; ret xticks.

Definition sys_sbrk : M (kern B D) Z :=
  let! n := argint 0 in
  let! t := argint 1 in
  let! i := myproc in
  let! addr := gets (fun s => pr_sz (getp i s)) in
  if (t =? SBRK_EAGER) || (n <? 0) then
    let! r := growproc n in
    if r <? 0 then ret (-1) else ret addr
  else if u64 (addr + n) <? addr then ret (-1)
  else if TRAPFRAME <? u64 (addr + n) then ret (-1)
  else
    modp i (fun q => set_pr_sz (u64 (pr_sz q + n)) q) ;;
    ret addr.

(** A turn of the loop of sys_pause(); [ticks0] is [None] when the call
    starts, and the saved value when it has slept. *)
Definition sys_pause (ticks0 : option Z) : M (kern B D) seg_res :=
  let! n := argint 0 in
  let n := if n <? 0 then 0 else n in
  ticks_acquire ;;
  let! t := gets kr_ticks in
  let t0 := default t ticks0 in
  if u32 (t - t0) <? n then
    let! i := myproc in
    let! k := killed i in
    if k : bool then ticks_release ;; ret (Done (-1))
    else sleep ChanTicks ticks_release ;; ret (Slept t0)
  else ticks_release ;; ret (Done 0).

(** ** mmap *)

(** The first entry that satisfies a test. *)
Fixpoint find_vma (test : vma -> bool) (vs : list vma) (i : nat) : option (nat * vma) :=
  match vs with
  | [] => None
  | v :: vs => if test v then Some (i, v) else find_vma test vs (S i)
  end.
Definition vma_contains (a : Z) (v : vma) : bool :=
  v_used v && (v_addr v <=? a) && (a <? u64 (v_addr v + v_length v)).

Definition sys_mmap : M (kern B D) Z :=
  let! i := myproc in
  let! addr := argaddr 0 in
  let! length_ := argaddr 1 in
  let! prot := argint 2 in
  let! flags := argint 3 in
  let! fd := argint 4 in
  let! offset := argaddr 5 in
  if length_ =? 0 then ret (-1)
  else
    let! s := gets id in
    let p := getp i s in
    if (fd <? 0) || (Z.of_nat NOFILE <=? fd) then ret (-1)
    else
      match pr_ofile p !! Z.to_nat fd with
      | Some (Some f) =>
          if has_flag prot PROT_WRITE && has_flag flags MAP_SHARED && negb (f_writable (getf f s)) then ret (-1)
          else
            match find_vma (fun v => negb (v_used v)) (pr_vmas p) 0 with
            | None => ret (-1)
            | Some (k, _) =>
                let va := PGROUNDUP (pr_sz p) in
                let rounded := PGROUNDUP length_ in
                if TRAPFRAME <? u64 (va + rounded) then ret (-1)
                else
                  modp i (set_pr_sz (u64 (va + rounded))) ;;
                  let! f := filedup f in
                  modp i (fun q => set_pr_vmas (<[k := Vma true va rounded prot flags f offset]> (pr_vmas q)) q) ;;
                  ret va
            end
      | _ => ret (-1)
      end.

Definition sys_munmap : M (kern B D) Z :=
  let! i := myproc in
  let! addr := argaddr 0 in
  let! length_ := argaddr 1 in
  let! p := gets (getp i) in
  match find_vma (vma_contains addr) (pr_vmas p) 0 with
  | None => ret (-1)
  | Some (k, v) =>
      let va_start := PGROUNDDOWN addr in
      let va_end := PGROUNDUP (u64 (addr + length_)) in
      vma_unmap (Z.to_nat ((va_end - va_start) / PGSIZE + 1)) i v va_start va_end ;;
      fileclose (v_file v) ;;
      modp i (fun q => set_pr_vmas (alter (set_v_used false) k (pr_vmas q)) q) ;;
      ret 0
  end.

(** * memory_syscalls.c *)

Definition sys_hello : M (kern B D) Z := ret 42.
Definition sys_trace : M (kern B D) Z :=
  let! mask := argint 0 in
  let! i := myproc in
  modp i (set_pr_trace_mask mask) ;;
  ret 0.

(** The first free slot. *)
Fixpoint find_vreg (vs : list vregion) (i : nat) : option nat :=
  match vs with
  | [] => None
  | v :: vs => if negb (vr_used v) then Some i else find_vreg vs (S i)
  end.

Definition sys_mapzero : M (kern B D) Z :=
  let! i := myproc in
  let! size := argint 0 in
  if size <=? 0 then ret (-1)
  else
    let size := s32 (PGROUNDUP size) in
    let! p := gets (getp i) in
    match find_vreg (pr_vregions p) 0 with
    | None => ret (-1)
    | Some slot =>
        if u64 (pr_sz p + size) <? pr_sz p then ret (-1)
        else if TRAPFRAME <? u64 (pr_sz p + size) then ret (-1)
        else
          let start := pr_sz p in
          modp i (set_pr_sz (u64 (pr_sz p + size))) ;;
          modp i (fun q => set_pr_vregions (<[slot := VRegion start size true]> (pr_vregions q)) q) ;;
          ret start
    end.

Definition ro_msg : list Z := str "Pagina solo lectura desde kernel" ++ [10].
Definition sys_map_ro : M (kern B D) Z :=
  let! i := myproc in
  let! va := argaddr 0 in
  let va := PGROUNDDOWN va in
  let! mem := onm kalloc in
  if mem =? 0 then ret (-1)
  else
    onm (modify (set_mem (fun m => memset m mem 0 PGSIZE))) ;;
    onm (modify (set_mem (fun m => st_bytes m mem ro_msg))) ;;
    let! pt := gets (fun s => pr_pagetable (getp i s)) in
    let! r := onm (mappages pt va PGSIZE mem (Z.lor PTE_R PTE_U)) in
    if r <? 0 then onm (kfree mem) ;; ret (-1) else ret 0.

(** ** vmprint *)

Definition flag_char (pte f c : Z) : M (kern B D) unit := kprintf (str "%c") [VInt (if has_flag pte f then c else 45)].
Definition vmprint_flags (pte : Z) : M (kern B D) unit :=
  flag_char pte PTE_V 86 ;; flag_char pte PTE_R 82 ;; flag_char pte PTE_W 87 ;; flag_char pte PTE_X 88 ;; flag_char pte PTE_U 85.
Fixpoint vmprint_indent (n : nat) : M (kern B D) unit :=
  match n with O => ret tt | S n => kprintf (str " ..") [] ;; vmprint_indent n end.

(** The entries of a page from index [i] on, [child] printing a subtree. *)
Fixpoint vmprint_entries (child : Z -> M (kern B D) unit) (level n : nat) (pagetable i : Z) : M (kern B D) unit :=
  match n with
  | O => ret tt
  | S n =>
      let! pte := onm (rd64 (pte_addr pagetable i)) in
      (if has_flag pte PTE_V then
         let pa := PTE2PA pte in
         vmprint_indent level ;;
         kprintf (str "L%d[%d]: pte=%p pa=%p flags=") [VInt (Z.of_nat level - 1); VInt i; VInt pte; VInt pa] ;;
         vmprint_flags pte ;;
         if Z.land pte (Z.lor (Z.lor PTE_R PTE_W) PTE_X) =? 0 then
           kprintf (str " branch" ++ [10]) [] ;; child pa
         else kprintf (str " leaf" ++ [10]) []
       else ret tt) ;;
      vmprint_entries child level n pagetable (i + 1)
  end.
(** [depth] bounds the levels of the tree below. *)
Fixpoint vmprint_level (depth : nat) (pagetable : Z) (level : nat) : M (kern B D) unit :=
  match depth with
  | O => nofuel
  | S depth => vmprint_entries (fun child => vmprint_level depth child (S level)) level 512 pagetable 0
  end.
Definition vmprint (pagetable : Z) : M (kern B D) unit :=
  kprintf (str "page table %p" ++ [10]) [VInt pagetable] ;;
  vmprint_level 4 pagetable 1.

Definition sys_dumpvm : M (kern B D) Z :=
  let! i := myproc in
  let! p := gets (getp i) in
  kprintf (str "dumpvm: pid=%d name=%s sz=%p" ++ [10]) [VInt (pr_pid p); VStr (Some (pr_name p)); VInt (pr_sz p)] ;;
  vmprint (pr_pagetable p) ;;
  ret 0.

End sysproc.
