(* ===== verification/Trap.v ===== *)
(** kernel/trap.c and syscall() of kernel/syscall.c: what happens when a user
    process traps into the kernel.

    The trap registers are arguments; the registers that the code saves, and
    sets up for the return (stvec, sstatus, satp), are in TrapHart.  What the
    devices do on an interrupt is a parameter. *)
From S2P Require Import Prelude Mem Str Kalloc Vm UserMem Pipe Bio Blocks Fs Usys Uprintf Kern Sched File ProcLife Sysfile Exec Sysproc.

Section trap.
Context {B D : Type} `{BK : Blocks B} `{L : Layout} `{DV : Devices D}.
Context (forkret : Z).
Implicit Types s : kern B D.

(** * System calls *)

(** A call that is over stores its result in a0; one that sleeps is called
    again later with what it needs to go on. *)
Inductive syscall_res : Type :=
| Returned (r : Z)
| Sleeping (i : Z)
| Gone.

Definition plain_call (m : M (kern B D) Z) : M (kern B D) syscall_res := let! r := m in ret (Returned r).
Definition seg_call (m : M (kern B D) seg_res) : M (kern B D) syscall_res :=
  let! r := m in ret (match r with Done r => Returned r | Slept i => Sleeping i end).

(** The table syscalls[]; [k] is where a call that slept had come to. *)
Definition syscalls (num : Z) (k : option Z) : option (M (kern B D) syscall_res) :=
  match num with
  | 1 => Some (plain_call (sys_fork forkret))
  | 2 => Some (sys_exit ;; ret Gone)
  | 3 => Some (seg_call sys_wait)
  | 4 => Some (plain_call sys_pipe)
  | 5 => Some (seg_call sys_read)
  | 6 => Some (plain_call sys_kill)
  | 7 => Some (plain_call sys_exec)
  | 8 => Some (plain_call sys_fstat)
  | 9 => Some (plain_call sys_chdir)
  | 10 => Some (plain_call sys_dup)
  | 11 => Some (plain_call sys_getpid)
  | 12 => Some (plain_call sys_sbrk)
  | 13 => Some (seg_call (sys_pause k))
  | 14 => Some (plain_call sys_uptime)
  | 15 => Some (plain_call sys_open)
  | 16 => Some (seg_call (sys_write (default 0 k)))
  | 17 => Some (plain_call sys_mknod)
  | 18 => Some (plain_call sys_unlink)
  | 19 => Some (plain_call sys_link)
  | 20 => Some (plain_call sys_mkdir)
  | 21 => Some (plain_call sys_close)
  | 22 => Some (plain_call sys_hello)
  | 23 => Some (plain_call sys_trace)
  | 24 => Some (plain_call sys_dumpvm)
  | 25 => Some (plain_call sys_map_ro)
  | 26 => Some (plain_call sys_getpfcount)
  | 27 => Some (plain_call sys_mapzero)
  | 28 => Some (plain_call sys_mmap)
  | 29 => Some (plain_call sys_munmap)
  | _ => None
  end.

Definition set_a0 (i : nat) (v : Z) : M (kern B D) unit :=
  let! tf := gets (fun s => pr_trapframe (getp i s)) in onm (wr64 (tf + TF_A0) v).

Definition strace (i : nat) (num : Z) : M (kern B D) unit :=
  let! p := gets (getp i) in
  if negb (Z.land (pr_trace_mask p) (s32 (Z.shiftl 1 num)) =? 0) then
    let reg k := onm (rd64 (pr_trapframe p + TF_A0 + 8 * k)) in
    let! a0 := reg 0 in let! a1 := reg 1 in let! a2 := reg 2 in
    let! a3 := reg 3 in let! a4 := reg 4 in let! a5 := reg 5 in
    kprintf (str "[strace] pid=%d name=%s syscall#=%d raw a0=%ld a1=%ld a2=%ld a3=%ld a4=%ld a5=%ld" ++ [10])
      [VInt (pr_pid p); VStr (Some (pr_name p)); VInt num; VInt a0; VInt a1; VInt a2; VInt a3; VInt a4; VInt a5]
  else ret tt.

Definition syscall (k : option Z) : M (kern B D) syscall_res :=
  let! i := myproc in
  let! p := gets (getp i) in
  let! a7 := onm (rd64 (pr_trapframe p + TF_A7)) in
  let num := s32 a7 in
  match (if (0 <? num) && (num <? 30) then syscalls num k else None) with
  | Some call =>
      strace i num ;;
      let! r := call in
      (match r with Returned v => set_a0 i (u64 v) | _ => ret tt end) ;;
      ret r
  | None =>
      kprintf (str "%d %s: unknown sys call %d" ++ [10]) [VInt (pr_pid p); VStr (Some (pr_name p)); VInt num] ;;
      set_a0 i (u64 (-1)) ;;
      ret (Returned (-1))
  end.

(** * Page faults *)

Definition bump_pf (i : nat) : M (kern B D) unit := modp i (fun q => set_pr_pf_count (s32 (pr_pf_count q + 1)) q).

(** mmap_fault(): a page of a mapped file. *)
Definition vma_perm (prot : Z) : Z :=
  let perm := PTE_U in
  let perm := if has_flag prot PROT_READ then Z.lor perm PTE_R else perm in
  let perm := if has_flag prot PROT_WRITE then Z.lor perm PTE_W else perm in
  if has_flag prot PROT_EXEC then Z.lor perm PTE_X else perm.
Definition mmap_fault (i : nat) (va : Z) : M (kern B D) Z :=
  let! s := gets id in
  let p := getp i s in
  match find_vma (vma_contains va) (pr_vmas p) 0 with
  | None => ret (-1)
  | Some (_, v) =>
      let! mem := onm kalloc in
      if mem =? 0 then ret (-1)
      else
        onm (modify (set_mem (fun m => memset m mem 0 PGSIZE))) ;;
        let page_va := PGROUNDDOWN va in
        let file_off := u64 (v_offset v + (page_va - v_addr v)) in
        let ip := f_ip (getf (v_file v) s) in
        onfs (ilock (pr_pid p) ip) ;;
        let! (_, bs) := onfs (readi ip ToKernel (u32 file_off) PGSIZE) in
        onm (modify (set_mem (fun m => st_bytes m mem bs))) ;;
        onfs (iunlock (pr_pid p) ip) ;;
        let! r := onm (mappages (pr_pagetable p) page_va PGSIZE mem (vma_perm (v_prot v))) in
        if r <? 0 then onm (kfree mem) ;; ret (-1)
        else bump_pf i ;; ret 0
  end.

(** The search of usertrap() for a mapzero region, and what it does there:
    whether the fault has been handled. *)
Definition vreg_contains (a : Z) (v : vregion) : bool :=
  vr_used v && (vr_start v <=? a) && (a <? u64 (vr_start v + vr_size v)).
Definition vregion_fault (i : nat) (va : Z) : M (kern B D) bool :=
  let! p := gets (getp i) in
  if negb (existsb (vreg_contains va) (pr_vregions p)) then ret false
  else
    let pg := PGROUNDDOWN va in
    let! mapped := onm (ismapped (pr_pagetable p) pg) in
    if mapped : bool then ret true
    else
      let! mem := onm kalloc in
      if mem =? 0 then setkilled i ;; ret false
      else
        onm (modify (set_mem (fun m => memset m mem 0x41 PGSIZE))) ;;
        let! r := onm (mappages (pr_pagetable p) pg PGSIZE mem (Z.lor (Z.lor PTE_W PTE_U) PTE_R)) in
        if negb (r =? 0) then onm (kfree mem) ;; setkilled i ;; ret false
        else bump_pf i ;; ret true.

(** The page-fault branch of usertrap(). *)
Definition pagefault (i : nat) (scause stval : Z) : M (kern B D) unit :=
  let alive handled := (if handled : bool then ret false else let! k := killed i in ret (negb k)) in
  let! handled := vregion_fault i stval in
  let! go := alive handled in
  let! handled := (if go : bool then let! r := mmap_fault i stval in ret (handled || (r =? 0)) else ret handled) in
  let! go := alive handled in
  let! handled := (if go : bool then
      let! p := gets (getp i) in
      let! r := onm (vmfault (uproc_of p) (pr_pagetable p) stval (scause =? 13)) in
      if negb (r =? 0) then
        bump_pf i ;;
        kprintf (str "lazy page fault handled pid=%d va=%p scause=%ld" ++ [10]) [VInt (pr_pid p); VInt stval; VInt scause] ;;
        ret true
      else ret handled
    else ret handled) in
  let! go := alive handled in
  if go : bool then
    let! p := gets (getp i) in
    kprintf (str "page fault: pid=%d scause=%ld stval=%p" ++ [10]) [VInt (pr_pid p); VInt scause; VInt stval] ;;
    let pg := PGROUNDDOWN stval in
    let! pte := onm (walk (pr_pagetable p) pg false) in
    let! e := onm (if pte =? 0 then ret 0 else rd64 pte) in
    (if negb (pte =? 0) && has_flag e PTE_V then onm (uvmunmap (pr_pagetable p) pg 1 true) else ret tt) ;;
    setkilled i
  else ret tt.

(** * Interrupts *)

(** clockintr() on CPU 0. *)
Definition clockintr : M (kern B D) unit :=
  ticks_acquire ;;
  modify (fun s => set_kr_ticks (u32 (kr_ticks s + 1)) s) ;;
  wakeup ChanTicks ;;
  ticks_release.

(** [irq]: what plic_claim() returned; [uartintr], [diskintr]: the handlers of the two devices. *)
Definition UART0_IRQ : Z := 10.
Definition VIRTIO0_IRQ : Z := 1.
Definition devintr (uartintr diskintr : M (kern B D) unit) (scause irq : Z) : M (kern B D) Z :=
  if scause =? 0x8000000000000009 then
    (if irq =? UART0_IRQ then uartintr
     else if irq =? VIRTIO0_IRQ then diskintr
     else if negb (irq =? 0) then kprintf (str "unexpected interrupt irq=%d" ++ [10]) [VInt irq]
     else ret tt) ;;
    ret 1
  else if scause =? 0x8000000000000005 then clockintr ;; ret 2
  else ret 0.

(** * usertrap *)

(** The end of usertrap(): exit if killed, yield on a timer interrupt. *)
Definition usertrap_end (i : nat) (which_dev : Z) : M (kern B D) unit :=
  let! k := killed i in
  if k : bool then kexit (-1)
  else if which_dev =? 2 then yield else ret tt.

Definition usertrap (uartintr diskintr : M (kern B D) unit) (scause stval sepc irq : Z) : M (kern B D) unit :=
  let! i := myproc in
  let! p := gets (getp i) in
  onm (wr64 (pr_trapframe p + TF_EPC) sepc) ;;
  if scause =? 8 then
    let! k := killed i in
    if k : bool then kexit (-1)
    else
      onm (wr64 (pr_trapframe p + TF_EPC) (u64 (sepc + 4))) ;;
      let! r := syscall None in
      match r with
      | Returned _ => usertrap_end i 0
      | Sleeping _ | Gone => ret tt
      end
  else
    let! which_dev := devintr uartintr diskintr scause irq in
    if negb (which_dev =? 0) then usertrap_end i which_dev
    else if (scause =? 15) || (scause =? 13) then pagefault i scause stval ;; usertrap_end i 0
    else
      kprintf (str "usertrap(): unexpected scause 0x%lx pid=%d" ++ [10]) [VInt scause; VInt (pr_pid p)] ;;
      kprintf (str "            sepc=0x%lx stval=0x%lx" ++ [10]) [VInt sepc; VInt stval] ;;
      setkilled i ;;
      usertrap_end i 0.

End trap.
