(* ===== verification/Boot.v ===== *)
(** From reset to the scheduler: kernel/entry.S and start() of
    kernel/start.c on each core, kernel/plic.c, and main() of kernel/main.c on
    all cores at once.

    main() is a program of calls for each core.  The calls that change the
    core itself, the interrupt controller, kernel_pagetable or [started] have
    their effect here; the others (the tables of the kernel) are steps without
    effect on this state, modelled in the files of their components. *)
From S2P Require Import Prelude Mem Kalloc Vm VmSpec Uart Trap Hart Asm AsmSpec TrapHart TrapPath.

(** * start.c *)

Section start.
Context `{Y : Symbols}.

Definition timerinit : M hart unit :=
  let! x := r_csr MIE in
  w_csr MIE (Z.lor x (sbits MIE_STIE)) ;;
  let! x := r_csr MENVCFG in
  w_csr MENVCFG (Z.lor x (Z.shiftl 1 63)) ;;
  let! x := r_csr MCOUNTEREN in
  w_csr MCOUNTEREN (Z.lor x 2) ;;
  let! x := r_csr TIME in
  w_csr STIMECMP (u64 (x + 1000000)).

(** The conversion of [id] from int to uint64 extends the sign. *)
Definition start : M hart unit :=
  let! x := r_csr MSTATUS in
  let x := clear64 x (sbits MSTATUS_MPP_MASK) in
  let x := Z.lor x (sbits MSTATUS_MPP_S) in
  w_csr MSTATUS x ;;
  w_csr MEPC main_addr ;;
  w_csr SATP 0 ;;
  w_csr MEDELEG 0xffff ;;
  w_mideleg 0xffff ;;
  let! x := r_sie in
  w_sie (Z.lor (Z.lor x (sbits SIE_SEIE)) (sbits SIE_STIE)) ;;
  w_csr PMPADDR0 0x3fffffffffffff ;;
  w_csr PMPCFG0 0xf ;;
  timerinit ;;
  let! x := r_csr MHARTID in
  let id := s32 x in
  w_tp (u64 id) ;;
  modify mret.

(** A core after reset; _entry is on the page [page]. *)
Definition reset (page : Z) : M hart unit := run page page entry ;; start.
End start.

Definition cpuid (h : hart) : Z := s32 (h_x h TP).

(** * plic.c *)

(** The interrupt controller: its registers are read and written by address. *)
Class PlicDev (P : Type) := {
  plic_read : Z -> P -> Z * P;
  plic_write : Z -> Z -> P -> P;
  (** what a priority, enable or threshold register holds *)
  plic_setting : Z -> P -> Z
}.

Definition PLIC_SENABLE (hart : Z) : Z := PLIC + 0x2080 + hart * 0x100.
Definition PLIC_SPRIORITY (hart : Z) : Z := PLIC + 0x201000 + hart * 0x2000.
Definition PLIC_SCLAIM (hart : Z) : Z := PLIC + 0x201004 + hart * 0x2000.

(** What the registers do: a write to a priority, enable or threshold
    register sets it and leaves the others alone. *)
Definition setting_addr (a : Z) : Prop :=
  (exists irq, 0 < irq < 1024 /\ a = PLIC + irq * 4) \/ (exists hart, 0 <= hart < 8 /\ (a = PLIC_SENABLE hart \/ a = PLIC_SPRIORITY hart)).
Class PlicOk (P : Type) (D : PlicDev P) : Prop := {
  plic_set : forall a b v p, setting_addr a -> setting_addr b -> 0 <= v < 2 ^ 32 ->
    plic_setting a (plic_write b v p) = if a =? b then v else plic_setting a p
}.

Section plic.
Context {P : Type} `{D : PlicDev P}.

Definition plicinit (p : P) : P :=
  let p := plic_write (PLIC + UART0_IRQ * 4) 1 p in
  plic_write (PLIC + VIRTIO0_IRQ * 4) 1 p.
Definition plicinithart (h : hart) (p : P) : P :=
  let hart := cpuid h in
  let p := plic_write (PLIC_SENABLE hart) (Z.lor (Z.shiftl 1 UART0_IRQ) (Z.shiftl 1 VIRTIO0_IRQ)) p in
  plic_write (PLIC_SPRIORITY hart) 0 p.
Definition plic_claim (h : hart) (p : P) : Z * P :=
  let hart := cpuid h in
  let '(irq, p) := plic_read (PLIC_SCLAIM hart) p in
  (s32 irq, p).
Definition plic_complete (h : hart) (irq : Z) (p : P) : P :=
  let hart := cpuid h in
  plic_write (PLIC_SCLAIM hart) (u32 irq) p.

(** The controller passes interrupt [irq] on to supervisor mode of the core. *)
Definition plic_delivers (hart irq : Z) (p : P) : bool :=
  (plic_setting (PLIC_SPRIORITY hart) p <? plic_setting (PLIC + irq * 4) p) && Z.testbit (plic_setting (PLIC_SENABLE hart) p) irq.
End plic.

(** * main.c *)

Definition kvminithart (kernel_pagetable : Z) : M hart unit := w_csr SATP (MAKE_SATP kernel_pagetable).

Inductive call : Type :=
| Consoleinit | Printfinit | Banner | Kinit | Kvminit | Kvminithart | Procinit | Trapinit | Trapinithart | Plicinit | Plicinithart
| Binit | Iinit | Fileinit | Virtio_disk_init | Userinit | Set_started | Wait_started | Hart_starting | Scheduler.
#[export] Instance call_eq_dec : EqDecision call.
Proof. solve_decision. Defined.

Definition main_0 : list call :=
  [Consoleinit; Printfinit; Banner; Banner; Banner; Kinit; Kvminit; Kvminithart; Procinit; Trapinit; Trapinithart; Plicinit; Plicinithart;
   Binit; Iinit; Fileinit; Virtio_disk_init; Userinit; Set_started; Scheduler].
Definition main_n : list call := [Wait_started; Hart_starting; Kvminithart; Trapinithart; Plicinithart; Scheduler].
Definition main (h : hart) : list call := if cpuid h =? 0 then main_0 else main_n.

Section main.
Context {P : Type} `{D : PlicDev P} `{Y : Symbols}.
(** What kvmmake() returns. *)
Context (made : Z).

(** [b_left i]: the calls that core [i] has still to make. *)
Record boot : Type := Boot { b_started : bool; b_kpt : Z; b_plic : P; b_hart : nat -> hart; b_left : nat -> list call }.

Definition put {A} (i : nat) (v : A) (f : nat -> A) : nat -> A := fun j => if decide (j = i) then v else f j.
Definition on_hart (i : nat) (m : M hart unit) (b : boot) : option boot :=
  match m (b_hart b i) with Ok _ h => Some (Boot (b_started b) (b_kpt b) (b_plic b) (put i h (b_hart b)) (b_left b)) | _ => None end.
Definition on_plic (f : P -> P) (b : boot) : option boot := Some (Boot (b_started b) (b_kpt b) (f (b_plic b)) (b_hart b) (b_left b)).

(** A call of core [i]; the loop on [started] ends only when it is set. *)
Definition do_call (i : nat) (c : call) (b : boot) : option boot :=
  match c with
  | Kvminit => Some (Boot (b_started b) made (b_plic b) (b_hart b) (b_left b))
  | Kvminithart => on_hart i (kvminithart (b_kpt b)) b
  | Trapinithart => on_hart i trapinithart b
  | Plicinit => on_plic plicinit b
  | Plicinithart => on_plic (plicinithart (b_hart b i)) b
  | Set_started => Some (Boot true (b_kpt b) (b_plic b) (b_hart b) (b_left b))
  | Wait_started => if b_started b then Some b else None
  | _ => Some b
  end.

Inductive boot_step : boot -> boot -> Prop :=
| boot_call i c rest b b' : b_left b i = c :: rest -> do_call i c b = Some b' ->
    boot_step b (Boot (b_started b') (b_kpt b') (b_plic b') (b_hart b') (put i rest (b_left b'))).

(** All cores are at the start of main(). *)
Record booting (b : boot) : Prop := {
  bo_started : b_started b = false;
  bo_tp : forall i, (i < NCPU)%nat -> h_x (b_hart b i) TP = Z.of_nat i;
  bo_main : forall i, (i < NCPU)%nat -> b_left b i = main (b_hart b i);
  bo_none : forall i, (NCPU <= i)%nat -> b_left b i = []
}.
End main.

(** * From reset to main() *)

(** Physical memory protection, entry 0 in mode TOR, for accesses of eight
    bytes from below machine mode. *)
Definition pmp_allows (acc : access) (a : Z) (h : hart) : bool :=
  let cfg := h_csr h PMPCFG0 in
  (Z.land (Z.shiftr cfg 3) 3 =? 1) && Z.testbit cfg (match acc with Load => 0 | Store => 1 | Fetch => 2 end) &&
  (0 <=? a) && (a + 8 <=? 4 * h_csr h PMPADDR0).

(** Interrupt [k] (5: timer, 9: external) goes to supervisor mode and is
    enabled there. *)
Definition delegated (k : Z) (h : hart) : bool := Z.testbit (h_csr h MIDELEG) k && Z.testbit (h_csr h MIE) k.

Record at_main `{Y : Symbols} (id : Z) (h h' : hart) : Prop := {
  am_mode : h_mode h' = Supervisor;
  am_pc : h_pc h' = main_addr;
  am_tp : h_x h' TP = id;
  am_sp : h_x h' SP = stack0 + (id + 1) * 4096;
  am_flat : forall acc a, haddr acc a h' = Some a;
  am_pmp : forall acc a, 0 <= a -> a + 8 <= 2 ^ 56 - 4 -> pmp_allows acc a h' = true;
  am_exc : forall k, 0 <= k < 16 -> Z.testbit (h_csr h' MEDELEG) k = true;
  am_int : delegated 5 h' = true /\ delegated 9 h' = true;
  am_sie : st_sie h' = st_sie h;
  am_sstc : Z.testbit (h_csr h' MENVCFG) 63 = true /\ Z.testbit (h_csr h' MCOUNTEREN) 1 = true;
  am_timer : h_csr h' STIMECMP = u64 (h_csr h TIME + 1000000);
  am_mem : h_mem h' = h_mem h
}.

Lemma land_mask x m s : Z.land (u64 (Z.lnot m)) m = 0 -> Z.land s m = s -> Z.land (Z.lor (clear64 x m) s) m = s.
Proof.
  intros H1 H2. unfold clear64. by rewrite Z.land_lor_distr_l, <- Z.land_assoc, H1, Z.land_0_r, H2, Z.lor_0_l.
Qed.

Lemma entry_spec `{Y : Symbols} page h id : h_mode h = Machine -> h_csr h MHARTID = id -> 0 <= id < 8 -> 0 <= stack0 < 2 ^ 63 ->
  wp (run page page entry) (fun _ h' => h_x h' SP = stack0 + (id + 1) * 4096 /\ h_csr h' = h_csr h /\ h_mode h' = Machine /\ h_mem h' = h_mem h) h.
Proof.
  intros Hm Hid Hr Hs.
  assert (Hf : forall g, h_mode g = Machine -> haddr Fetch page g = Some page) by (intros g E; unfold haddr, translate; by rewrite E).
  unfold entry. repeat (eapply wp_straight; [by apply Hf|done|]). cbn [run]. wp_simp. split; [|done].
  cbn [h_x set_x]. unfold Datatypes.id. cbn [h_x h_csr set_x]. repeat (rewrite rset_eq || rewrite rset_ne by done). rewrite Hid.
  rewrite (u64_small (id + 1)) by lia. rewrite (u64_small (1024 * 4 * (id + 1))) by lia. rewrite u64_small; lia.
Qed.

(** C24: from reset to main().  A core that starts in machine mode at
    _entry gets a stack of 4096 bytes of its own and reaches main() in
    supervisor mode with paging off, its number in tp, access to all physical
    memory, all exceptions and the timer and external interrupts delegated
    and enabled, and the timer set to 1000000 ticks from now; interrupts stay
    masked as they were. *)
Theorem reset_correct `{Y : Symbols} page h id : h_mode h = Machine -> h_csr h MHARTID = id -> 0 <= id < 8 -> 0 <= stack0 < 2 ^ 63 ->
  wp (reset page) (fun _ h' => at_main id h h') h.
Proof.
  intros Hm Hid Hr Hs. unfold reset. rewrite wp_bind. eapply wp_mono; [by apply (entry_spec page h id)|]. intros [] h1 (H1 & H2 & H3 & H4).
  unfold start, timerinit, w_mideleg, r_sie, w_sie, w_tp, w_csr, r_csr. wp_simp.
  match goal with |- at_main _ _ (mret ?g) => set (g0 := g) end.
  assert (Emepc : h_csr g0 MEPC = main_addr) by done.
  assert (Est : h_csr g0 MSTATUS = Z.lor (clear64 (h_csr h1 MSTATUS) (sbits MSTATUS_MPP_MASK)) (sbits MSTATUS_MPP_S)) by done.
  assert (Emode : h_mode (mret g0) = Supervisor) by (unfold mret; cbn [h_mode set_pc set_mode]; rewrite Est, land_mask by done; done).
  assert (Emie : h_csr g0 MIE = Z.lor (Z.lor (clear64 (h_csr h1 MIE) SINTS) (Z.land (Z.lor (Z.lor (Z.land (h_csr h1 MIE) SINTS) (sbits SIE_SEIE)) (sbits SIE_STIE)) SINTS)) (sbits MIE_STIE)) by done.
  split; try done.
  - change (h_x (mret g0) TP) with (u64 (s32 (h_csr h1 MHARTID))). rewrite H2, Hid. unfold s32, u64. rewrite (Z.mod_small (id + 2 ^ 31)) by lia. rewrite Z.mod_small; lia.
  - intros acc a. unfold haddr, translate. rewrite Emode. done.
  - intros acc a Ha Hb. unfold pmp_allows. change (h_csr (mret g0) PMPCFG0) with 15. change (h_csr (mret g0) PMPADDR0) with 0x3fffffffffffff.
    rewrite (proj2 (Z.leb_le 0 a)), (proj2 (Z.leb_le (a + 8) _)) by lia. by destruct acc.
  - intros k Hk. change (h_csr (mret g0) MEDELEG) with (Z.ones 16). by apply Z.ones_spec_low.
  - unfold delegated. change (h_csr (mret g0) MIDELEG) with SINTS. change (h_csr (mret g0) MIE) with (h_csr g0 MIE). rewrite Emie.
    rewrite !Z.lor_spec, !Z.land_spec, !Z.lor_spec. split; cbn [Z.testbit]; by rewrite ?orb_true_r.
  - unfold st_sie. change (h_csr (mret g0) MSTATUS) with (h_csr g0 MSTATUS). rewrite Est, Z.lor_spec, clear64_bit, H2 by lia. cbn. by rewrite orb_false_r, andb_true_r.
  - change (h_csr (mret g0) MENVCFG) with (Z.lor (h_csr h1 MENVCFG) (Z.shiftl 1 63)). change (h_csr (mret g0) MCOUNTEREN) with (Z.lor (h_csr h1 MCOUNTEREN) 2).
    rewrite !Z.lor_spec. split; apply orb_true_r.
  - change (h_csr (mret g0) STIMECMP) with (u64 (h_csr h1 TIME + 1000000)). by rewrite H2.
Qed.

(** * All cores *)

Section plic_proofs.
Context {P : Type} `{D : PlicDev P} `{!PlicOk P D}.

Definition prio_ok (p : P) : Prop := plic_setting (PLIC + UART0_IRQ * 4) p = 1 /\ plic_setting (PLIC + VIRTIO0_IRQ * 4) p = 1.
Definition enable_ok (k : Z) (p : P) : Prop := plic_setting (PLIC_SENABLE k) p = 0x402 /\ plic_setting (PLIC_SPRIORITY k) p = 0.

Lemma prio_addr irq : irq = UART0_IRQ \/ irq = VIRTIO0_IRQ -> setting_addr (PLIC + irq * 4).
Proof. intros H. left. exists irq. unfold UART0_IRQ, VIRTIO0_IRQ in H. lia. Qed.
Lemma hart_addr k : 0 <= k < 8 -> setting_addr (PLIC_SENABLE k) /\ setting_addr (PLIC_SPRIORITY k).
Proof. intros H. split; right; exists k; auto. Qed.

Lemma plicinit_spec p k : 0 <= k < 8 -> prio_ok (plicinit p) /\ (enable_ok k p -> enable_ok k (plicinit p)).
Proof.
  intros Hk. destruct (hart_addr k Hk) as [A1 A2]. pose proof (prio_addr UART0_IRQ (or_introl eq_refl)) as A3. pose proof (prio_addr VIRTIO0_IRQ (or_intror eq_refl)) as A4.
  unfold prio_ok, enable_ok, plicinit. rewrite !plic_set by (done || lia). unfold PLIC_SENABLE, PLIC_SPRIORITY, UART0_IRQ, VIRTIO0_IRQ, PLIC in *.
  split; [done|]. intros [E1 E2]. rewrite E1, E2. zcases; lia || done.
Qed.
Lemma plicinithart_spec h p k j : cpuid h = k -> 0 <= k < 8 -> 0 <= j < 8 ->
  enable_ok k (plicinithart h p) /\ (enable_ok j p -> enable_ok j (plicinithart h p)) /\ (prio_ok p -> prio_ok (plicinithart h p)).
Proof.
  intros Hc Hk Hj. destruct (hart_addr k Hk) as [A1 A2]. destruct (hart_addr j Hj) as [A5 A6].
  pose proof (prio_addr UART0_IRQ (or_introl eq_refl)) as A3. pose proof (prio_addr VIRTIO0_IRQ (or_intror eq_refl)) as A4.
  unfold prio_ok, enable_ok, plicinithart. cbv zeta. rewrite Hc.
  assert (V : 0 <= Z.lor (Z.shiftl 1 UART0_IRQ) (Z.shiftl 1 VIRTIO0_IRQ) < 2 ^ 32) by (vm_compute; split; congruence).
  rewrite !plic_set by (done || lia). unfold PLIC_SENABLE, PLIC_SPRIORITY, UART0_IRQ, VIRTIO0_IRQ, PLIC in *.
  split; [|split].
  - zcases; lia || done.
  - intros [E1 E2]. rewrite E1, E2. zcases; lia || done.
  - intros [E1 E2]. rewrite E1, E2. by rewrite !(proj2 (Z.eqb_neq _ _)) by lia.
Qed.
Lemma delivers_ok k p irq : prio_ok p -> enable_ok k p -> irq = UART0_IRQ \/ irq = VIRTIO0_IRQ -> plic_delivers k irq p = true.
Proof. intros [P1 P2] [E1 E2] Hi. unfold plic_delivers. rewrite E1, E2. destruct Hi as [-> | ->]; [rewrite P1|rewrite P2]; done. Qed.
End plic_proofs.

Section boot_proofs.
Context {P : Type} `{D : PlicDev P} `{!PlicOk P D} `{Y : Symbols}.
Context (made : Z).
Implicit Types b : boot (P := P).

(** What each core runs, and how far it has come. *)
Definition prog (i : nat) : list call := if decide (i = 0%nat) then main_0 else if decide (i < NCPU)%nat then main_n else [].

Record boot_inv b : Prop := {
  bi_left : forall i, b_left b i `suffix_of` prog i;
  bi_tp : forall i, (i < NCPU)%nat -> h_x (b_hart b i) TP = Z.of_nat i;
  bi_started : b_started b = true <-> Set_started ∉ b_left b 0%nat;
  bi_wait : forall i, (0 < i < NCPU)%nat -> Wait_started ∉ b_left b i -> b_started b = true;
  bi_kpt : Kvminit ∉ b_left b 0%nat -> b_kpt b = made;
  bi_prio : Plicinit ∉ b_left b 0%nat -> prio_ok (b_plic b);
  bi_satp : forall i, (i < NCPU)%nat -> Kvminithart ∉ b_left b i -> h_csr (b_hart b i) SATP = MAKE_SATP made;
  bi_stvec : forall i, (i < NCPU)%nat -> Trapinithart ∉ b_left b i -> h_csr (b_hart b i) STVEC = kernelvec_addr;
  bi_enable : forall i, (i < NCPU)%nat -> Plicinithart ∉ b_left b i -> enable_ok (Z.of_nat i) (b_plic b)
}.

Fixpoint tails (l : list call) : list (list call) := l :: match l with [] => [] | _ :: t => tails t end.
Lemma suffix_tails l L : l `suffix_of` L -> l ∈ tails L.
Proof. intros [k ->]. induction k as [|x k IH]; [destruct l; cbn; left|]. cbn. by right. Qed.
(** In the program [L], [c1] is executed before [c2]. *)
Definition before (c1 c2 : call) (L : list call) : bool :=
  forallb (fun l => bool_decide (c2 ∈ l) || bool_decide (c1 ∉ l)) (tails L).
Lemma before_spec c1 c2 L l : before c1 c2 L = true -> l `suffix_of` L -> c2 ∉ l -> c1 ∉ l.
Proof.
  intros H Hs H2. unfold before in H. rewrite forallb_forall in H. specialize (H l (proj1 (list_elem_of_In _ _) (suffix_tails l L Hs))).
  rewrite bool_decide_false in H by done. cbn in H. by apply bool_decide_eq_true in H.
Qed.
(** A program point is reached once. *)
Definition once (L : list call) : bool := forallb (fun l => match l with [] => true | c :: r => bool_decide (c ∉ r) || bool_decide (c = Banner) end) (tails L).
Lemma once_spec L c r : once L = true -> (c :: r) `suffix_of` L -> c <> Banner -> c ∉ r.
Proof.
  intros H Hs Hc. unfold once in H. rewrite forallb_forall in H. specialize (H _ (proj1 (list_elem_of_In _ _) (suffix_tails _ L Hs))). cbn in H.
  rewrite (bool_decide_false (c = Banner)), orb_false_r in H by done. by apply bool_decide_eq_true in H.
Qed.

Lemma inv_started_kpt b i rest : boot_inv b -> (i < NCPU)%nat -> b_left b i = Kvminithart :: rest -> b_kpt b = made.
Proof.
  intros I Hi Hl. apply (bi_kpt b I). pose proof (bi_left b I i) as Hs. rewrite Hl in Hs. unfold prog in Hs. destruct (decide (i = 0%nat)) as [->|Hne].
  - rewrite Hl. apply suffix_tails in Hs. apply list_elem_of_In in Hs. cbn in Hs. repeat destruct Hs as [Hs|Hs]; try done; injection Hs as <-; apply (bool_decide_unpack _); by vm_compute.
  - rewrite decide_True in Hs by done. assert (Hw : Wait_started ∉ Kvminithart :: rest).
    { apply suffix_tails in Hs. apply list_elem_of_In in Hs. cbn in Hs. repeat destruct Hs as [Hs|Hs]; try done; injection Hs as <-; apply (bool_decide_unpack _); by vm_compute. }
    rewrite <- Hl in Hw. apply (bi_wait b I i ltac:(lia)) in Hw. apply (bi_started b I) in Hw.
    by apply (before_spec Kvminit Set_started main_0); [|apply (bi_left b I 0%nat)|].
Qed.

Lemma cpuid_tp b i : boot_inv b -> (i < NCPU)%nat -> cpuid (b_hart b i) = Z.of_nat i.
Proof. intros I Hi. unfold cpuid, NCPU in *. rewrite (bi_tp b I) by done. unfold s32. rewrite Z.mod_small; lia. Qed.

(** What a call does to the state, and that it undoes nothing. *)
Record call_effect (i : nat) (c : call) b b' : Prop := {
  ce_left : b_left b' = b_left b;
  ce_x : forall j, h_x (b_hart b' j) = h_x (b_hart b j);
  ce_started : b_started b' = b_started b || bool_decide (c = Set_started);
  ce_kpt : b_kpt b = made \/ c = Kvminit -> b_kpt b' = made;
  ce_prio : prio_ok (b_plic b) \/ c = Plicinit -> prio_ok (b_plic b');
  ce_satp : forall j, h_csr (b_hart b j) SATP = MAKE_SATP made \/ c = Kvminithart /\ j = i -> h_csr (b_hart b' j) SATP = MAKE_SATP made;
  ce_stvec : forall j, h_csr (b_hart b j) STVEC = kernelvec_addr \/ c = Trapinithart /\ j = i -> h_csr (b_hart b' j) STVEC = kernelvec_addr;
  ce_enable : forall j, (j < NCPU)%nat -> enable_ok (Z.of_nat j) (b_plic b) \/ c = Plicinithart /\ j = i -> enable_ok (Z.of_nat j) (b_plic b')
}.

Local Ltac eff := cbn [b_left b_hart b_started b_kpt b_plic]; intros;
  repeat match goal with H : _ \/ _ |- _ => destruct H | H : _ /\ _ |- _ => destruct H end; subst; try done; try (rewrite bool_decide_false, orb_false_r by done; done); try (rewrite bool_decide_true, orb_true_r by done; done).

Lemma do_call_effect b i c rest b' : boot_inv b -> (i < NCPU)%nat -> b_left b i = c :: rest -> do_call made i c b = Some b' -> call_effect i c b b'.
Proof.
  intros I Hi Hl. pose proof (cpuid_tp b i I Hi) as Hc. assert (Hi' : 0 <= Z.of_nat i < 8) by (unfold NCPU in Hi; lia).
  destruct c; cbn [do_call]; intros E; try (injection E as <-; split; eff; fail).
  - injection E as <-. pose proof (inv_started_kpt b i rest I Hi Hl) as Hk. split; eff; unfold put; case_decide; subst; try done; cbn; by rewrite Hk.
  - injection E as <-. split; eff; unfold put; case_decide; by subst.
  - injection E as <-. split; eff; [by apply (plicinit_spec _ (Z.of_nat i))..|]. apply plicinit_spec; [unfold NCPU in *; lia|done].
  - injection E as <-. split; eff.
    + by apply (plicinithart_spec _ _ (Z.of_nat i) (Z.of_nat i)).
    + apply (plicinithart_spec _ _ (Z.of_nat i) (Z.of_nat j)); [done|done|unfold NCPU in *; lia|done].
    + refine (proj1 (plicinithart_spec (b_hart b i) (b_plic b) (Z.of_nat i) (Z.of_nat i) _ _ _)); [done|lia|lia].
  - destruct (b_started b) eqn:Es; [|done]. injection E as <-. split; eff.
Qed.

Lemma put_left (X c : call) (i j : nat) rest (left : nat -> list call) : left i = c :: rest -> X ∉ put i rest left j -> X ∉ left j \/ c = X /\ j = i.
Proof.
  intros Hl. unfold put. case_decide; [|by left]. subst. intros H. destruct (decide (c = X)); [by right|]. left. rewrite Hl. by apply not_elem_of_cons.
Qed.

Lemma left_range b i c rest : boot_inv b -> b_left b i = c :: rest -> (i < NCPU)%nat /\ (c = Set_started -> i = 0%nat /\ Set_started ∉ rest).
Proof.
  intros I Hl. pose proof (bi_left b I i) as Hs. rewrite Hl in Hs. split.
  - destruct (decide (i < NCPU)%nat); [done|]. unfold prog in Hs. rewrite !decide_False in Hs by (unfold NCPU in *; lia).
    apply suffix_nil_inv in Hs. done.
  - intros ->. unfold prog in Hs. destruct (decide (i = 0%nat)) as [->|]; [|destruct (decide (i < NCPU)%nat)].
    + split; [done|]. by apply (once_spec main_0 Set_started rest).
    + exfalso. apply suffix_tails, list_elem_of_In in Hs. cbn in Hs. by repeat destruct Hs as [Hs|Hs].
    + by apply suffix_nil_inv in Hs.
Qed.

Lemma boot_inv_step b b' : boot_inv b -> boot_step made b b' -> boot_inv b'.
Proof.
  intros I Hst. destruct Hst as [i c rest b b' Hl Hd]. destruct (left_range b i c rest I Hl) as [Hi Hss].
  destruct (do_call_effect b i c rest b' I Hi Hl Hd) as [C1 C2 C3 C4 C5 C6 C7 C8].
  assert (Hput : forall X j, X ∉ put i rest (b_left b') j -> X ∉ b_left b j \/ c = X /\ j = i) by (intros X j; rewrite C1; by apply put_left).
  split; cbn [b_left b_hart b_started b_kpt b_plic].
  - intros j. rewrite C1. unfold put. destruct (decide (j = i)) as [->|]; [|by apply I]. etrans; [|apply I]. rewrite Hl. by exists [c].
  - intros j Hj. rewrite C2. by apply I.
  - rewrite C3, C1, orb_true_iff, bool_decide_eq_true, (bi_started b I). unfold put. destruct (decide (0%nat = i)) as [<-|].
    + rewrite Hl, not_elem_of_cons. split; [intros [[_ H]|H]; [done|by apply Hss]|]. intros H. destruct (decide (c = Set_started)); [by right|]. left. done.
    + split; [|by left]. intros [H|H]; [done|]. apply Hss in H as [H _]. congruence.
  - intros j Hj H. rewrite C3, orb_true_iff. left. destruct (Hput _ _ H) as [H1|[-> ->]]; [by apply (bi_wait b I j)|].
    cbn [do_call] in Hd. by destruct (b_started b).
  - intros H. apply C4. destruct (Hput _ _ H) as [H1|[-> _]]; [left; by apply I|by right].
  - intros H. apply C5. destruct (Hput _ _ H) as [H1|[-> _]]; [left; by apply I|by right].
  - intros j Hj H. apply C6. destruct (Hput _ _ H) as [H1|H1]; [left; by apply I|by right].
  - intros j Hj H. apply C7. destruct (Hput _ _ H) as [H1|H1]; [left; by apply I|by right].
  - intros j Hj H. apply C8; [done|]. destruct (Hput _ _ H) as [H1|H1]; [left; by apply I|by right].
Qed.

Lemma booting_inv b : booting b -> boot_inv b.
Proof.
  intros [B1 B2 B3 B4].
  assert (Hp : forall i, b_left b i = prog i).
  { intros i. unfold prog. destruct (decide (i < NCPU)%nat) as [Hi|Hi].
    - rewrite B3 by done. unfold main, cpuid. rewrite B2 by done. unfold s32. rewrite Z.mod_small by (unfold NCPU in Hi; lia).
      destruct (decide (i = 0%nat)) as [->|]; [done|]. rewrite (proj2 (Z.eqb_neq _ _)) by lia. done.
    - rewrite B4 by lia. destruct (decide (i = 0%nat)) as [->|]; [unfold NCPU in Hi; lia|done]. }
  assert (Hin : forall i c, (i < NCPU)%nat -> c = Kvminithart \/ c = Trapinithart \/ c = Plicinithart -> c ∈ b_left b i).
  { intros i c Hi Hc. rewrite Hp. unfold prog. destruct (decide (i = 0%nat)); [|rewrite decide_True by done];
      destruct Hc as [->|[->| ->]]; apply (bool_decide_unpack _); by vm_compute. }
  split; try done.
  - intros i. by rewrite Hp.
  - rewrite B1, Hp. split; [done|]. intros H. exfalso. apply H. apply (bool_decide_unpack _); by vm_compute.
  - intros i Hi H. exfalso. apply H. rewrite Hp. unfold prog. rewrite decide_False, decide_True by lia. left.
  - intros H. exfalso. apply H. rewrite Hp. apply (bool_decide_unpack _); by vm_compute.
  - intros H. exfalso. apply H. rewrite Hp. apply (bool_decide_unpack _); by vm_compute.
  - intros i Hi H. exfalso. apply H, Hin; auto.
  - intros i Hi H. exfalso. apply H, Hin; auto.
  - intros i Hi H. exfalso. apply H, Hin; auto.
Qed.

(** The calls that are left to all cores together. *)
Definition to_do b : nat := sum_list_with (fun i => length (b_left b i)) (seq 0 NCPU).

Lemma sum_put (i : nat) (c : call) rest (left : nat -> list call) (l : list nat) : NoDup l -> i ∈ l -> left i = c :: rest ->
  sum_list_with (fun j => length (left j)) l = S (sum_list_with (fun j => length (put i rest left j)) l).
Proof.
  intros Hnd Hin Hl. induction l as [|j l IH]; [by apply not_elem_of_nil in Hin|]. apply NoDup_cons in Hnd as [Hj Hnd]. cbn [sum_list_with].
  destruct (decide (j = i)) as [->|Hne].
  - assert (E : sum_list_with (fun j => length (put i rest left j)) l = sum_list_with (fun j => length (left j)) l).
    { clear IH Hnd Hin. induction l as [|k l IH]; [done|]. apply not_elem_of_cons in Hj as [Hk Hj]. cbn [sum_list_with]. rewrite IH by done.
      unfold put. by rewrite decide_False. }
    rewrite E, Hl. unfold put. by rewrite decide_True.
  - apply elem_of_cons in Hin as [|Hin]; [congruence|]. rewrite IH by done. unfold put at 2. rewrite decide_False by done. lia.
Qed.

Lemma boot_step_to_do b b' : boot_inv b -> boot_step made b b' -> to_do b = S (to_do b').
Proof.
  intros I Hst. destruct Hst as [i c rest b b' Hl Hd]. destruct (left_range b i c rest I Hl) as [Hi _].
  destruct (do_call_effect b i c rest b' I Hi Hl Hd) as [C1 _ _ _ _ _ _ _]. unfold to_do. cbn [b_left]. rewrite C1.
  apply (sum_put i c); [apply NoDup_seq|apply elem_of_seq; lia|done].
Qed.

Lemma boot_reach k b0 b : boot_inv b0 -> nsteps (boot_step made) k b0 b -> boot_inv b /\ to_do b0 = (k + to_do b)%nat.
Proof.
  intros I H. induction H as [|k x y z Hxy _ IH]; [done|]. destruct IH as [IH1 IH2]; [by eapply boot_inv_step|]. split; [done|].
  rewrite (boot_step_to_do x y I Hxy). lia.
Qed.

(** Only the loop on [started] waits. *)
Lemma do_call_runs i c b : c <> Wait_started \/ b_started b = true -> exists b', do_call made i c b = Some b'.
Proof. intros H. destruct c; cbn [do_call]; try by eexists. destruct H as [H| ->]; [done|by eexists]. Qed.

Lemma boot_progress b i : boot_inv b -> b_left b i <> [] -> exists b', boot_step made b b'.
Proof.
  intros I Hne. destruct (b_left b 0%nat) as [|c rest] eqn:E0.
  - assert (Hs : b_started b = true) by (apply (bi_started b I); rewrite E0; apply not_elem_of_nil).
    destruct (b_left b i) as [|c rest] eqn:Ei; [done|]. destruct (do_call_runs i c b) as [b' Hb]; [by right|]. eexists. by apply (boot_call made i c rest b b').
  - destruct (do_call_runs 0 c b) as [b' Hb]; [left|eexists; by apply (boot_call made 0 c rest b b')].
    pose proof (bi_left b I 0%nat) as Hs. rewrite E0 in Hs. apply suffix_tails, list_elem_of_In in Hs. cbn in Hs.
    repeat destruct Hs as [Hs|Hs]; try done; by injection Hs as <- <-.
Qed.

Lemma booting_to_do b : booting b -> to_do b = 62%nat.
Proof.
  intros B. pose proof (booting_inv b B) as I. destruct B as [_ B2 B3 _].
  assert (E : forall i, (i < NCPU)%nat -> length (b_left b i) = if decide (i = 0%nat) then 20%nat else 6%nat).
  { intros i Hi. rewrite B3 by done. unfold main, cpuid. rewrite B2 by done. unfold s32. rewrite Z.mod_small by (unfold NCPU in Hi; lia).
    destruct (decide (i = 0%nat)) as [->|]; [done|]. by rewrite (proj2 (Z.eqb_neq _ _)) by lia. }
  unfold to_do, NCPU. cbn [seq sum_list_with]. by rewrite !E by (unfold NCPU; lia).
Qed.
End boot_proofs.

(** C14: main() on all cores, in every interleaving.  No other core does
    anything before core 0 has made the kernel page table and initialised
    everything.  A core that reaches the scheduler translates addresses with
    the page table of kvmmake(), takes traps at kernelvec, and gets the
    interrupts of the disk and of the serial line from the controller.  No
    run is stuck before all cores are in the scheduler, which takes 62
    calls. *)
Theorem main_correct {P} `{D : PlicDev P} `{!PlicOk P D} `{Y : Symbols} made k (b0 b : boot (P := P)) :
  booting b0 -> nsteps (boot_step made) k b0 b ->
  (forall i, (0 < i < NCPU)%nat -> Wait_started ∉ b_left b i -> b_left b 0%nat = [Scheduler] \/ b_left b 0%nat = []) /\
  (forall i, (i < NCPU)%nat -> b_left b i = [] -> b_kpt b = made /\ h_csr (b_hart b i) SATP = MAKE_SATP made /\
    h_csr (b_hart b i) STVEC = kernelvec_addr /\ forall irq, irq = UART0_IRQ \/ irq = VIRTIO0_IRQ -> plic_delivers (Z.of_nat i) irq (b_plic b) = true) /\
  ((exists i, b_left b i <> []) -> exists b', boot_step made b b') /\ (k + to_do b = 62)%nat.
Proof.
  intros B R. destruct (boot_reach made k b0 b (booting_inv made b0 B) R) as [I Hk]. rewrite booting_to_do in Hk by done.
  assert (Hdone : b_started b = true -> b_left b 0%nat = [Scheduler] \/ b_left b 0%nat = []).
  { intros Hs. apply (bi_started _ b I) in Hs. pose proof (bi_left _ b I 0%nat) as Hl. apply suffix_tails, list_elem_of_In in Hl. cbn in Hl.
    repeat destruct Hl as [Hl|Hl]; try done; rewrite <- Hl in *; auto; exfalso; apply Hs; apply (bool_decide_unpack _); by vm_compute. }
  split; [|split; [|split; [|lia]]].
  - intros i Hi Hw. by apply Hdone, (bi_wait _ b I i).
  - intros i Hi Hl. assert (Hn : forall X, X ∉ b_left b i) by (intros X; rewrite Hl; apply not_elem_of_nil).
    assert (H0 : b_left b 0%nat = [Scheduler] \/ b_left b 0%nat = []).
    { destruct (decide (i = 0%nat)) as [->|]; [by right|]. apply Hdone, (bi_wait _ b I i); [lia|done]. }
    assert (Hp : (Kvminit ∉ b_left b 0%nat) /\ (Plicinit ∉ b_left b 0%nat)) by (destruct H0 as [-> | ->]; split; apply (bool_decide_unpack _); by vm_compute).
    destruct Hp as [Hp1 Hp2]. split; [by apply I|]. split; [by apply I|]. split; [by apply I|].
    intros irq Hirq. apply delivers_ok; [by apply I|by apply I|done].
  - intros [i Hi]. by apply (boot_progress made b i).
Qed.

(** * The theorems at work *)

Section boot_run.
Context {P : Type} `{D : PlicDev P} `{Y : Symbols}.

(** The cores make their next calls in the order [l]. *)
Fixpoint boot_run (made : Z) (l : list nat) (b : boot (P := P)) : option boot :=
  match l with
  | [] => Some b
  | i :: l =>
      match b_left b i with
      | [] => None
      | c :: rest =>
          match do_call made i c b with
          | Some b' => boot_run made l (Boot (b_started b') (b_kpt b') (b_plic b') (b_hart b') (put i rest (b_left b')))
          | None => None
          end
      end
  end.
Lemma boot_run_steps made l b b' : boot_run made l b = Some b' -> nsteps (boot_step made) (length l) b b'.
Proof.
  revert b. induction l as [|i l IH]; intros b H; cbn [boot_run] in H; [injection H as ->; constructor|].
  destruct (b_left b i) as [|c rest] eqn:Hl; [done|]. destruct (do_call made i c b) as [b1|] eqn:Hd; [|done].
  econstructor; [by apply (boot_call made i c rest b b1)|]. by apply IH.
Qed.
End boot_run.

Definition reset_hart (id : Z) : hart := Hart (fun _ => 0) (fun c => match c with MHARTID => id | TIME => 77 | _ => 0 end) Machine 0x80000000 ∅.
Lemma reset_correct_witness : wp (reset 0x80000000) (fun _ h' => h_mode h' = Supervisor /\ h_x h' SP = 0x80008a00 + 4 * 4096) (reset_hart 3).
Proof.
  eapply wp_mono; [apply (reset_correct 0x80000000 (reset_hart 3) 3 eq_refl eq_refl); [lia|vm_compute; split; congruence]|].
  intros [] h' A. split; [apply A|]. rewrite (am_sp _ _ _ A). reflexivity.
Defined.

(** A controller that only remembers its settings. *)
#[global] Instance demo_plic : PlicDev (gmap Z Z) := {|
  plic_read a p := (default 0 (p !! a), p); plic_write a v p := <[a := v]> p; plic_setting a p := default 0 (p !! a) |}.
#[global] Instance demo_plic_ok : PlicOk (gmap Z Z) demo_plic.
Proof.
  split. intros a b v p _ _ _. cbn. destruct (Z.eqb_spec a b) as [->|]; [by rewrite lookup_insert_eq|by rewrite lookup_insert_ne].
Qed.

Definition main_hart (id : Z) : hart := Hart (fun r => match r with TP => id | _ => 0 end) (fun _ => 0) Supervisor main_addr ∅.
Definition demo_boot : boot (P := gmap Z Z) :=
  Boot false 0 ∅ (fun i => main_hart (Z.of_nat i)) (fun i => if decide (i < NCPU)%nat then main (main_hart (Z.of_nat i)) else []).
Lemma demo_booting : booting demo_boot.
Proof.
  split; [done|done| |].
  - intros i Hi. cbn [b_left demo_boot]. by rewrite decide_True.
  - intros i Hi. cbn [b_left demo_boot]. rewrite decide_False by lia. done.
Qed.
(** Core 0 boots, the others follow in turn. *)
Definition demo_order : list nat := replicate 19 0%nat ++ concat (replicate 6 [7; 6; 5; 4; 3; 2; 1]%nat) ++ [0%nat].
Definition demo_done : option boot := boot_run 0x87fff000 demo_order demo_boot.
Lemma demo_done_some : is_Some demo_done.
Proof.
  assert (H : match demo_done with Some _ => true | None => false end = true) by (vm_compute; reflexivity).
  destruct demo_done as [b|]; [by exists b|discriminate].
Qed.

Lemma demo_run b : demo_done = Some b -> nsteps (boot_step 0x87fff000) (length demo_order) demo_boot b.
Proof. unfold demo_done. apply boot_run_steps. Qed.

Lemma main_correct_witness : exists b, demo_done = Some b /\ (b_left b 5%nat = [] -> plic_delivers 5 UART0_IRQ (b_plic b) = true).
Proof.
  destruct demo_done_some as [b Hb]. exists b. split; [exact Hb|]. intros Hl.
  destruct (main_correct 0x87fff000 (length demo_order) demo_boot b demo_booting (demo_run b Hb)) as (_ & H & _).
  destruct (H 5%nat) as (_ & _ & _ & Hd); [unfold NCPU; lia|exact Hl|]. exact (Hd UART0_IRQ (or_introl eq_refl)).
Defined.
