(* ===== verification/KInvOps.v ===== *)
(** The invariant of KInv across the operations of the file table and of the
    scheduler: what each does to the references the code holds. *)
From S2P Require Import Prelude Mem Kalloc Vm UserMem Pipe Bio Blocks Fs Uprintf Kern Sched KernSpec File KInv.

(** References in hand: one more, one less. *)
Definition inc (f : nat) (d : nat -> Z) : nat -> Z := fun g => if decide (g = f) then d g + 1 else d g.
Definition dec (f : nat) (d : nat -> Z) : nat -> Z := fun g => if decide (g = f) then d g - 1 else d g.
Definition none : nat -> Z := fun _ => 0.

Lemma fd_ref_is g f : fd_ref g (Some f) = if decide (g = f) then 1 else 0.
Proof. unfold fd_ref. case_bool_decide; case_decide; congruence. Qed.
Lemma vma_ref_is g v : vma_ref g v = if v_used v then if decide (g = v_file v) then 1 else 0 else 0.
Proof. unfold vma_ref. destruct (v_used v); cbn; [|done]. case_bool_decide; case_decide; congruence. Qed.

Section ops.
Context {B D : Type} `{BK : Blocks B} `{L : Layout} `{DV : Devices D}.
Implicit Types (s : kern B D) (p : proc) (d : nat -> Z).
Local Abbreviation kept := (keeps (B:=B) (D:=D)).

Lemma kinv_ext d d' s : (forall f, d f = d' f) -> kinv d s -> kinv d' s.
Proof. intros E [H1 H2 H3 H4 H5 H6 H7 H8]. split; try done. intros f. rewrite H3. by rewrite E. Qed.

(** Go on after an operation that keeps the view. *)
Lemma wlp_keeps {A C} (m : M (kern B D) A) (k : A -> M (kern B D) C) Q s : keeps m ->
  (forall a s', kstep s s' -> wlp (k a) Q s') -> wlp (bind m k) Q s.
Proof. intros Hm Hk. rewrite wlp_bind. eapply wlp_mono; [apply Hm|]. auto. Qed.
Lemma kp_kinv {A} (m : M (kern B D) A) d s : keeps m -> kinv d s -> wlp m (fun _ s' => kinv d s') s.
Proof. intros Hm Hs. eapply wlp_mono; [apply Hm|]. intros ? s' H. exact (kinv_kstep _ _ _ H Hs). Qed.
(** ... or any specification. *)
Lemma wlp_then {A C} (m : M (kern B D) A) (k : A -> M (kern B D) C) P Q s : wlp m P s ->
  (forall a s', P a s' -> wlp (k a) Q s') -> wlp (bind m k) Q s.
Proof. intros Hm Hk. rewrite wlp_bind. eapply wlp_mono; [apply Hm|]. auto. Qed.

(** * A change of one process *)

Lemma refs_updp i g f s : (i < length (kr_proc s))%nat -> refs f (updp i g s) = refs f s - prefs f (getp i s) + prefs f (g (getp i s)).
Proof. intros Hi. unfold refs, updp. cbn. by rewrite (zsum_alter _ _ _ _ (getp i s)) by (by apply lookup_getp). Qed.

Lemma getp_updp i j g s : (i < length (kr_proc s))%nat -> getp j (updp i g s) = if decide (j = i) then g (getp i s) else getp j s.
Proof. intros Hi. case_decide as E; [subst; by apply getp_updp_eq|]. by apply getp_updp_ne. Qed.

Lemma kinv_updp d d' i g s : kinv d s -> (i < NPROC)%nat ->
  let p := getp i s in let p' := g p in
  (forall f, prefs f p' + d' f = prefs f p + d f) ->
  length (pr_ofile p') = NOFILE -> length (pr_vmas p') = MAXVMA ->
  (class_of (pr_state p') <> Alive -> (forall f, prefs f p' = 0) /\ kr_cur s <> Some i) ->
  (class_of (pr_state p') <> Unused -> class_of (pr_state p) <> Unused /\ pr_pid p' = pr_pid p) ->
  kinv d' (updp i g s).
Proof.
  intros [H1 H2 H3 H4 H5 H6 H7 H8] Hi p p' Hr Ho Hv Hidle Hpid. subst p' p.
  assert (Hlen : (i < length (kr_proc s))%nat) by (by rewrite H1). split.
  - unfold table. by rewrite length_updp.
  - done.
  - intros f. change (getf f (updp i g s)) with (getf f s). rewrite H3, refs_updp by done. specialize (Hr f). lia.
  - intros j. rewrite getp_updp by done. case_decide; [done|]. apply H4.
  - intros j f. rewrite getp_updp by done. case_decide; [|apply H5]. intros Hc. by apply Hidle.
  - intros j Hj. rewrite getp_updp by done. case_decide as E; [|by apply H6]. subst j. split; [done|].
    destruct (decide (class_of (pr_state (g (getp i s))) = Alive)) as [|Hc]; [done|]. by destruct (Hidle Hc).
  - intros j Hj. rewrite getp_updp by done. case_decide as E; [|by apply H7]. subst j. intros Hc. destruct (Hpid Hc) as [Hc' ->]. by apply H7.
  - intros j k Hj Hk. rewrite !getp_updp by done. destruct (decide (j = i)) as [->|], (decide (k = i)) as [->|]; try done.
    + intros Hc Hck. destruct (Hpid Hc) as [Hc' ->]. by apply H8.
    + intros Hcj Hc. destruct (Hpid Hc) as [Hc' ->]. by apply H8.
    + by apply H8.
Qed.

(** A change of the tables of a live process. *)
Lemma kinv_tables d d' i g s : kinv d s -> (i < NPROC)%nat -> class_of (pr_state (getp i s)) = Alive ->
  let p := getp i s in let p' := g p in
  (forall f, prefs f p' + d' f = prefs f p + d f) ->
  length (pr_ofile p') = NOFILE -> length (pr_vmas p') = MAXVMA -> pr_pid p' = pr_pid p -> pr_state p' = pr_state p ->
  kinv d' (updp i g s).
Proof.
  intros Hs Hi Ha p p' Hr Ho Hv Hpid Hst. subst p' p. apply (kinv_updp d); try done; rewrite Hst; [done|]. by rewrite Hpid.
Qed.

(** * States *)

Lemma kstep_updp_at i f s : pview (f (getp i s)) = pview (getp i s) -> kstep s (updp i f s).
Proof.
  intros H. unfold kstep, kview, updp. cbn. enough (pview <$> alter f i (kr_proc s) = pview <$> kr_proc s) as -> by done.
  apply list_eq. intros j. rewrite !list_lookup_fmap. destruct (decide (i = j)) as [->|]; [|by rewrite list_lookup_alter_ne].
  rewrite list_lookup_alter_eq. unfold getp in H. destruct (kr_proc s !! j); cbn [fmap option_fmap option_map default from_option id] in *; congruence.
Qed.

(** A step that looks at the state first. *)
Lemma kp_look {A} (k : kern B D -> M (kern B D) A) : (forall s, wlp (k s) (fun _ s' => kstep s s') s) -> keeps (let! s := gets id in k s).
Proof. intros H s. wlp_simp. apply H. Qed.

Lemma kp_wakeup_loop n i ch : kept (wakeup_loop n i ch).
Proof.
  revert i. induction n as [|n IH]; intros i; cbn [wakeup_loop]; [kp_tac|]. apply kp_bind; [kp_tac|intros me].
  apply kp_bind; [|intros _; apply IH]. destruct (bool_decide _); [kp_tac|]. apply kp_bind; [kp_tac|intros _].
  apply kp_look. intros s. eapply wlp_then; [|intros ? t H; eapply wlp_mono; [apply kp_p_release|intros ? u Hu; exact (kstep_trans _ _ _ H Hu)]].
  case_bool_decide as E; cbn [andb]; [case_bool_decide|]; unfold modp; wlp_simp; try apply kstep_refl.
  apply kstep_updp_at. unfold pview. cbn. by rewrite E.
Qed.
Lemma kp_wakeup ch : kept (wakeup ch).
Proof. apply kp_wakeup_loop. Qed.

Lemma kp_kkill_loop n i pid : kept (kkill_loop n i pid).
Proof.
  revert i. induction n as [|n IH]; intros i; cbn [kkill_loop]; [kp_tac|]. apply kp_bind; [kp_tac|intros _].
  intros s. wlp_simp. change (id s) with s. destruct (_ =? _); [|eapply wlp_then; [apply kp_p_release|]; intros ? t H; eapply wlp_mono; [apply IH|]; intros ? u Hu; exact (kstep_trans _ _ _ H Hu)].
  unfold modp. rewrite wlp_bind, wlp_modify. assert (H1 : kstep s (updp i (set_pr_killed true) s)) by (by apply kstep_updp_at).
  eapply (wlp_then _ _ (fun _ t => kstep s t)).
  - case_bool_decide as E; wlp_simp; [|exact H1]. refine (kstep_trans _ _ _ H1 _). apply kstep_updp_at.
    pose proof (pview_getp _ _ i H1) as V. unfold pview in *. cbn in *. rewrite E in V. injection V as _ _ _ ->. done.
  - intros ? t Ht. eapply wlp_mono; [apply (kp_bind (p_release i)); kp_tac|]. intros ? u Hu. exact (kstep_trans _ _ _ Ht Hu).
Qed.
Lemma kp_kkill pid : kept (kkill pid).
Proof. apply kp_kkill_loop. Qed.
Lemma kp_setkilled i : kept (setkilled i).
Proof. unfold setkilled. kp_tac. Qed.
Lemma kp_killed i : kept (killed i).
Proof. unfold killed. kp_tac. Qed.
Lemma kp_sched i : kept (sched i).
Proof. unfold sched. kp_tac. Qed.

(** ** Giving up the CPU *)

Lemma kinv_no_cur d s : kinv d s -> kinv d (set_kr_cur None s).
Proof. intros [H1 H2 H3 H4 H5 H6 H7 H8]. by split. Qed.
Lemma kstep_no_cur s s' : kstep s s' -> kstep (set_kr_cur None s) (set_kr_cur None s').
Proof. unfold kstep, kview. cbn. intros H. injection H as -> -> -> _. done. Qed.

(** The invariant need only hold without a current process. *)
Lemma resched_kinv d i s : kinv d (set_kr_cur None s) -> wlp (resched i) (fun _ s' => kinv d s') s.
Proof.
  intros H. unfold resched. eapply wlp_keeps; [apply kp_sched|]. intros ? t Ht. rewrite wlp_bind, wlp_modify.
  eapply wlp_mono; [apply kp_p_release|]. intros ? u Hu. eapply kinv_kstep; [exact Hu|]. eapply kinv_kstep; [by apply kstep_no_cur|done].
Qed.

Lemma wlp_myproc Q s : (forall i, kr_cur s = Some i -> Q i s) -> wlp myproc Q s.
Proof. intros H. unfold myproc. wlp_simp. destruct (kr_cur s); [by apply H|done]. Qed.

(** The current process may move between the live states. *)
Lemma set_state_kinv d i st s : kinv d s -> kr_cur s = Some i -> class_of st = Alive -> kinv d (updp i (set_pr_state st) s).
Proof.
  intros Hs Hc Ha. eapply kinv_kstep; [|exact Hs]. apply kstep_updp_at. unfold pview. cbn. rewrite Ha.
  by destruct (ki_cur _ _ Hs i Hc) as [_ ->].
Qed.

Lemma yield_kinv d s : kinv d s -> wlp yield (fun _ s' => kinv d s') s.
Proof.
  intros Hs. unfold yield. rewrite wlp_bind. apply wlp_myproc. intros p Hp. eapply wlp_keeps; [apply kp_p_acquire|]. intros ? t Ht.
  unfold modp. rewrite wlp_bind, wlp_modify. apply resched_kinv, kinv_no_cur, set_state_kinv; [exact (kinv_kstep _ _ _ Ht Hs)| |done].
  injection Ht. congruence.
Qed.
Lemma sleep_kinv d ch rel s : keeps rel -> kinv d s -> wlp (sleep ch rel) (fun _ s' => kinv d s') s.
Proof.
  intros Hr Hs. unfold sleep. rewrite wlp_bind. apply wlp_myproc. intros p Hp. eapply wlp_keeps; [apply kp_p_acquire|]. intros ? t Ht.
  eapply wlp_keeps; [exact Hr|]. intros ? u Hu. eapply wlp_keeps; [kp_tac|]. intros ? v Hv.
  unfold modp. rewrite wlp_bind, wlp_modify. pose proof (kstep_trans _ _ _ (kstep_trans _ _ _ Ht Hu) Hv) as Hk.
  apply resched_kinv, kinv_no_cur, set_state_kinv; [exact (kinv_kstep _ _ _ Hk Hs)| |done]. injection Hk. congruence.
Qed.

(** * The file table *)

(** The processes are as they were. *)
Definition pstep s s' : Prop := pview <$> kr_proc s' = pview <$> kr_proc s /\ kr_cur s' = kr_cur s /\ kr_nextpid s' = kr_nextpid s.
Lemma kstep_pstep s s' : kstep s s' -> pstep s s'.
Proof. intros H. injection H as _ H1 H2 H3. by split. Qed.
Lemma pstep_trans s t u : pstep s t -> pstep t u -> pstep s u.
Proof. intros (H1 & H2 & H3) (G1 & G2 & G3). unfold pstep. split_and!; congruence. Qed.
Lemma pstep_getp s s' i : pstep s s' -> pview (getp i s') = pview (getp i s).
Proof.
  intros (H & _). apply (f_equal (fun l => l !! i)) in H. rewrite !list_lookup_fmap in H. unfold getp.
  destruct (kr_proc s !! i), (kr_proc s' !! i); cbn [default from_option id fmap option_fmap option_map] in *; congruence.
Qed.

Lemma getf_updf i g h s : (i < length (kr_file s))%nat -> getf g (updf i h s) = if decide (g = i) then h (getf i s) else getf g s.
Proof.
  intros Hi. unfold getf, updf. cbn. case_decide as E.
  - subst. rewrite list_lookup_alter_eq. by destruct (lookup_lt_is_Some_2 _ _ Hi) as [x ->].
  - by rewrite list_lookup_alter_ne.
Qed.

Lemma kstep_updf_at i h s : f_ref (h (getf i s)) = f_ref (getf i s) -> kstep s (updf i h s).
Proof.
  intros H. unfold kstep, kview, updf. cbn. enough (f_ref <$> alter h i (kr_file s) = f_ref <$> kr_file s) as -> by done.
  apply list_eq. intros j. rewrite !list_lookup_fmap. destruct (decide (i = j)) as [->|]; [|by rewrite list_lookup_alter_ne].
  rewrite list_lookup_alter_eq. unfold getf in H. destruct (kr_file s !! j); cbn [fmap option_fmap option_map default from_option id] in *; congruence.
Qed.

(** A change of one reference count. *)
Lemma kinv_updf d d' i h s : kinv d s -> (i < NFILE)%nat -> f_ref (h (getf i s)) - f_ref (getf i s) = d' i - d i ->
  (forall g, g <> i -> d' g = d g) -> kinv d' (updf i h s).
Proof.
  intros [H1 H2 H3 H4 H5 H6 H7 H8] Hi Hr Ho. split; try done.
  - unfold updf. cbn. by rewrite length_alter.
  - intros g. change (refs g (updf i h s)) with (refs g s). rewrite getf_updf by (by rewrite H2). case_decide as E; [subst|].
    + specialize (H3 i). lia.
    + rewrite Ho by done. apply H3.
Qed.
Lemma kinv_inc d i h s : kinv d s -> (i < NFILE)%nat -> f_ref (h (getf i s)) = f_ref (getf i s) + 1 -> kinv (inc i d) (updf i h s).
Proof.
  intros Hs Hi H. eapply (kinv_updf d); [done|done| |]; unfold inc.
  - rewrite decide_True by done. lia.
  - intros g Hg. by rewrite decide_False.
Qed.
Lemma kinv_dec d i h s : kinv d s -> (i < NFILE)%nat -> f_ref (h (getf i s)) = f_ref (getf i s) - 1 -> kinv (dec i d) (updf i h s).
Proof.
  intros Hs Hi H. eapply (kinv_updf d); [done|done| |]; unfold dec.
  - rewrite decide_True by done. lia.
  - intros g Hg. by rewrite decide_False.
Qed.
Lemma in_table d f s : kinv d s -> f_ref (getf f s) <> 0 -> (f < NFILE)%nat.
Proof.
  intros Hs Hr. rewrite <- (ki_files _ _ Hs). unfold getf in Hr. destruct (kr_file s !! f) eqn:E; [by apply lookup_lt_Some in E|by destruct Hr].
Qed.
Lemma refs_bound d f s : kinv d s -> 0 <= refs f s <= 2048.
Proof.
  intros Hs. assert (H : forall p, p ∈ kr_proc s -> 0 <= prefs f p <= 32).
  { intros p [i Hi]%list_elem_of_lookup. destruct (ki_shape _ _ Hs i) as [H1 H2]. rewrite (getp_lookup _ _ _ Hi) in H1, H2.
    pose proof (prefs_bound f p). rewrite H1, H2 in *. unfold NOFILE, MAXVMA in *. lia. }
  assert (Hl : forall l, (forall p, p ∈ l -> 0 <= prefs f p <= 32) -> 0 <= zsum (prefs f) l <= 32 * Z.of_nat (length l)).
  { induction l as [|p l IH]; intros Hp; cbn [zsum length]; [lia|]. pose proof (Hp p ltac:(set_solver)). specialize (IH ltac:(set_solver)). lia. }
  specialize (Hl _ H). unfold refs. pose proof (ki_table _ _ Hs) as Ht. unfold table in Ht. rewrite Ht in Hl. unfold NPROC in Hl. lia.
Qed.

Lemma filealloc_loop_kinv d n i s : kinv d s -> (n + i = NFILE)%nat ->
  wlp (filealloc_loop n i) (fun o s' => pstep s s' /\ match o with Some f => kinv (inc f d) s' | None => kinv d s' end) s.
Proof.
  revert i. induction n as [|n IH]; intros i Hs Hi; cbn [filealloc_loop].
  - eapply wlp_keeps; [kp_tac|]. intros ? t Ht. wlp_simp. split; [by apply kstep_pstep|exact (kinv_kstep _ _ _ Ht Hs)].
  - wlp_simp. destruct (Z.eqb_spec (f_ref (getf i s)) 0) as [E|E]; [|apply IH; [done|lia]].
    unfold modf. wlp_simp. eapply wlp_mono; [apply kp_ft_release|]. intros ? t Ht. wlp_simp. split.
    + eapply pstep_trans; [|exact (kstep_pstep _ _ Ht)]. done.
    + eapply kinv_kstep; [exact Ht|]. apply kinv_inc; [done|lia|]. cbn. lia.
Qed.
Lemma filealloc_kinv d s : kinv d s ->
  wlp filealloc (fun o s' => pstep s s' /\ match o with Some f => kinv (inc f d) s' | None => kinv d s' end) s.
Proof.
  intros Hs. unfold filealloc. eapply wlp_keeps; [kp_tac|]. intros ? t Ht. eapply wlp_mono; [apply filealloc_loop_kinv; [exact (kinv_kstep _ _ _ Ht Hs)|lia]|].
  intros o u [Hu Ho]. split; [|done]. eapply pstep_trans; [exact (kstep_pstep _ _ Ht)|done].
Qed.

(** The count of a file with at least one reference grows by one; it cannot overflow. *)
Lemma filedup_kinv d f s : kinv d s -> d f <= 1000 -> wlp (filedup f) (fun g s' => g = f /\ pstep s s' /\ kinv (inc f d) s') s.
Proof.
  intros Hs Hd. unfold filedup. eapply wlp_keeps; [kp_tac|]. intros ? t Ht. pose proof (kinv_kstep _ _ _ Ht Hs) as Hs'.
  wlp_simp. destruct (Z.ltb_spec (f_ref (getf f t)) 1) as [E|E]; [done|]. unfold modf. wlp_simp. eapply wlp_mono; [apply kp_ft_release|]. intros ? u Hu. wlp_simp.
  split; [done|]. split; [eapply pstep_trans; [exact (kstep_pstep _ _ Ht)|]; eapply pstep_trans; [|exact (kstep_pstep _ _ Hu)]; done|].
  eapply kinv_kstep; [exact Hu|]. apply kinv_inc; [done|eapply in_table; [done|lia]|]. cbn.
  pose proof (ki_refs _ _ Hs' f). pose proof (refs_bound _ f _ Hs'). rewrite s32_small by lia. done.
Qed.

(** ** Closing *)

Lemma kp_onpipe {A} pi (m : M (pst mach) A) : kept (onpipe pi m).
Proof. intros s. unfold wlp, onpipe. destruct (_ !! pi); [|done]. destruct (m _); done. Qed.
Lemma kp_pipe_wakeups pi : kept (pipe_wakeups pi).
Proof. unfold pipe_wakeups. kp_tac; apply kp_wakeup. Qed.
Lemma kp_k_pipeclose pi w : kept (k_pipeclose pi w).
Proof. unfold k_pipeclose. apply kp_bind; [apply kp_onpipe|intros _]. apply kp_bind; [apply kp_pipe_wakeups|]. kp_tac. Qed.

Lemma fileclose_kinv d f s : kinv d s -> wlp (fileclose f) (fun _ s' => pstep s s' /\ kinv (dec f d) s') s.
Proof.
  intros Hs. unfold fileclose. eapply wlp_keeps; [kp_tac|]. intros ? t Ht. pose proof (kinv_kstep _ _ _ Ht Hs) as Hs'.
  wlp_simp. destruct (Z.ltb_spec (f_ref (getf f t)) 1) as [E|E]; [done|]. unfold modf. rewrite wlp_bind, wlp_modify.
  assert (Hf : (f < NFILE)%nat) by (eapply in_table; [exact Hs'|lia]).
  set (r := f_ref (getf f t) - 1). set (t1 := updf f (set_f_ref r) t).
  assert (H1 : kinv (dec f d) t1) by (apply kinv_dec; done).
  assert (P1 : pstep s t1) by (eapply pstep_trans; [exact (kstep_pstep _ _ Ht)|done]).
  assert (K : forall m : M (kern B D) unit, keeps m -> forall t2, kstep t1 t2 -> wlp m (fun _ s' => pstep s s' /\ kinv (dec f d) s') t2).
  { intros m Hm t2 H2. eapply wlp_mono; [apply Hm|]. intros ? u Hu. pose proof (kstep_trans _ _ _ H2 Hu) as Hk.
    split; [eapply pstep_trans; [exact P1|by apply kstep_pstep]|exact (kinv_kstep _ _ _ Hk H1)]. }
  destruct (Z.ltb_spec 0 r) as [Hr|Hr]; [apply K; [kp_tac|apply kstep_refl]|].
  rewrite wlp_bind, wlp_gets, wlp_bind, wlp_modify, wlp_bind, wlp_modify. apply K.
  - apply kp_bind; [kp_tac|intros _]. destruct (f_type _); kp_tac. apply kp_k_pipeclose.
  - assert (Hr0 : r = 0) by (unfold r in *; lia).
    assert (E2 : f_ref (getf f t1) = 0) by (unfold t1; rewrite getf_updf by (by rewrite (ki_files _ _ Hs')); rewrite decide_True by done; exact Hr0).
    refine (kstep_trans _ _ _ (kstep_updf_at f (set_f_ref 0) t1 _) (kp_modf f (set_f_type FD_NONE) _ _)); [by rewrite E2|done].
Qed.

Lemma wlp_kinv {A C} (m : M (kern B D) A) (k : A -> M (kern B D) C) d Q s : kinv d s -> keeps m ->
  (forall a s', kinv d s' -> wlp (k a) Q s') -> wlp (bind m k) Q s.
Proof. intros Hs Hm Hk. eapply wlp_keeps; [exact Hm|]. intros a t Ht. apply Hk. exact (kinv_kstep _ _ _ Ht Hs). Qed.
Lemma wlp_ret_kinv {A} (a : A) d s : kinv d s -> wlp (ret a) (fun _ s' => kinv d s') s.
Proof. done. Qed.

End ops.

#[export] Hint Resolve kp_wakeup kp_kkill kp_setkilled kp_killed kp_onpipe kp_pipe_wakeups kp_k_pipeclose : kview.

(** Follow the code while its steps keep the view. *)
Ltac kinv_step :=
  match goal with
  | Hs : kinv ?d ?s |- wlp (bind ?m ?k) _ ?s => apply (wlp_kinv m k d _ s Hs); [solve [kp_tac]|clear s Hs; intros ? s Hs]
  | Hs : kinv ?d ?s |- wlp (ret _) (fun _ s' => kinv ?d s') ?s => exact (wlp_ret_kinv _ d s Hs)
  | |- wlp (panic _) _ _ => exact I
  | |- wlp (let _ := _ in _) _ _ => cbv zeta
  | |- wlp (if ?b then _ else _) _ _ => destruct b
  | |- wlp (match ?x with _ => _ end) _ _ => destruct x
  | Hs : kinv ?d ?s |- wlp ?m (fun _ s' => kinv ?d s') ?s => apply (kp_kinv m d s); [solve [kp_tac]|exact Hs]
  end.
Ltac kinv_tac := repeat kinv_step.
