(* ===== verification/KInvCalls.v ===== *)
(** The invariant of KInv across the system calls on files and memory areas. *)
From S2P Require Import Prelude Mem Kalloc Vm UserMem Pipe Bio Bytes Blocks Fs Uprintf Kern Sched KernSpec File ProcLife Usys Sysfile Exec Sysproc KInv KInvOps.

Section calls.
Context {B D : Type} `{BK : Blocks B} `{L : Layout} `{DV : Devices D}.
Implicit Types (s : kern B D) (p : proc) (d : nat -> Z).
Local Abbreviation kept := (keeps (B:=B) (D:=D)).

(** * Calls that leave the tables alone *)

Lemma kp_argraw n : kept (argraw n).
Proof. unfold argraw. kp_tac. Qed.
Lemma kp_argint n : kept (argint n).
Proof. unfold argint. apply kp_bind; [apply kp_argraw|kp_tac]. Qed.
Lemma kp_argaddr n : kept (argaddr n).
Proof. apply kp_argraw. Qed.
Lemma kp_fetchaddr a : kept (fetchaddr a).
Proof. unfold fetchaddr. kp_tac. Qed.
Lemma kp_fetchstr a max : kept (fetchstr a max).
Proof. unfold fetchstr. kp_tac. Qed.
#[local] Hint Resolve kp_argraw kp_argint kp_argaddr kp_fetchaddr kp_fetchstr : kview.
Lemma kp_argstr n max : kept (argstr n max).
Proof. unfold argstr. kp_tac. Qed.
Lemma kp_argfd n : kept (argfd n).
Proof. unfold argfd. kp_tac. Qed.
Lemma kp_whoami : kept whoami.
Proof. unfold whoami. kp_tac. Qed.
#[local] Hint Resolve kp_argstr kp_argfd kp_whoami : kview.

Lemma kp_filestat i a : kept (filestat i a).
Proof. unfold filestat. kp_tac. Qed.
Lemma kp_ondev {A} (m : M (D * mach) A) : kept (ondev m).
Proof. by apply kp_zoom. Qed.
#[local] Hint Resolve kp_filestat kp_ondev : kview.
Lemma kp_filewrite_loop fuel q i addr n k : kept (filewrite_loop fuel q i addr n k).
Proof. revert k. induction fuel as [|fuel IH]; intros k; cbn [filewrite_loop]; kp_tac. Qed.
#[local] Hint Resolve kp_filewrite_loop : kview.

Lemma pipe_sleep_kinv d ch r s : kinv d s -> wlp (pipe_sleep ch r) (fun _ s' => kinv d s') s.
Proof.
  intros Hs. unfold pipe_sleep. destruct r; [|done]. eapply wlp_then; [apply sleep_kinv; [kp_tac|done]|]. done.
Qed.
Lemma fileread_kinv d i a n s : kinv d s -> wlp (fileread i a n) (fun _ s' => kinv d s') s.
Proof. intros Hs. unfold fileread. kinv_tac. by apply pipe_sleep_kinv. Qed.
Lemma filewrite_kinv d i a n k s : kinv d s -> wlp (filewrite i a n k) (fun _ s' => kinv d s') s.
Proof. intros Hs. unfold filewrite. kinv_tac. by apply pipe_sleep_kinv. Qed.
Lemma sys_read_kinv d s : kinv d s -> wlp sys_read (fun _ s' => kinv d s') s.
Proof. intros Hs. unfold sys_read. kinv_tac. by apply fileread_kinv. Qed.
Lemma sys_write_kinv d k s : kinv d s -> wlp (sys_write k) (fun _ s' => kinv d s') s.
Proof. intros Hs. unfold sys_write. kinv_tac. by apply filewrite_kinv. Qed.

Lemma kp_sys_fstat : kept sys_fstat.
Proof. unfold sys_fstat. kp_tac. Qed.
Lemma kp_sys_link : kept sys_link.
Proof. unfold sys_link. kp_tac. Qed.
Lemma kp_sys_unlink : kept sys_unlink.
Proof. unfold sys_unlink. kp_tac. Qed.
Lemma kp_sys_mkdir : kept sys_mkdir.
Proof. unfold sys_mkdir. kp_tac. Qed.
Lemma kp_sys_mknod : kept sys_mknod.
Proof. unfold sys_mknod. kp_tac. Qed.
Lemma kp_sys_chdir : kept sys_chdir.
Proof. unfold sys_chdir. kp_tac. Qed.

Lemma kp_proc_pagetable tf : kept (proc_pagetable tf).
Proof. unfold proc_pagetable. kp_tac. Qed.
Lemma kp_proc_freepagetable pt sz : kept (proc_freepagetable pt sz).
Proof. unfold proc_freepagetable. kp_tac. Qed.
#[local] Hint Resolve kp_proc_pagetable kp_proc_freepagetable : kview.
Lemma kp_loadseg_loop fuel pt va ip off sz i : kept (loadseg_loop fuel pt va ip off sz i).
Proof. revert i. induction fuel as [|fuel IH]; intros i; cbn [loadseg_loop]; kp_tac. Qed.
Lemma kp_loadseg pt va ip off sz : kept (loadseg pt va ip off sz).
Proof. apply kp_loadseg_loop. Qed.
#[local] Hint Resolve kp_loadseg : kview.
Lemma kp_load_segments n pt ip off sz : kept (load_segments n pt ip off sz).
Proof. revert off sz. induction n as [|n IH]; intros off sz; cbn [load_segments]; kp_tac. Qed.
Lemma kp_push_args u pt sb argv argc sp us : kept (push_args u pt sb argv argc sp us).
Proof. revert argc sp us. induction argv as [|a argv IH]; intros argc sp us; cbn [push_args]; kp_tac. Qed.
Lemma kp_exec_bad pid pt sz ip : kept (exec_bad pid pt sz ip).
Proof. unfold exec_bad. kp_tac. Qed.
#[local] Hint Resolve kp_load_segments kp_push_args kp_exec_bad : kview.
Lemma kp_exec_commit i path argv pt sz e : kept (exec_commit i path argv pt sz e).
Proof. unfold exec_commit. kp_tac. Qed.
#[local] Hint Resolve kp_exec_commit : kview.
Lemma kp_kexec path argv : kept (kexec path argv).
Proof. unfold kexec. kp_tac. Qed.
#[local] Hint Resolve kp_kexec : kview.
Lemma kp_fetch_args fuel u i got : kept (fetch_args fuel u i got).
Proof. revert i got. induction fuel as [|fuel IH]; intros i got; cbn [fetch_args]; kp_tac. Qed.
Lemma kp_free_args got : kept (free_args got).
Proof. induction got as [|[] got IH]; cbn [free_args]; kp_tac. Qed.
#[local] Hint Resolve kp_fetch_args kp_free_args : kview.
Lemma kp_sys_exec : kept sys_exec.
Proof. unfold sys_exec. kp_tac. Qed.

(** * Descriptors *)

Lemma prefs_ofile f p l : prefs f (set_pr_ofile l p) = zsum (fd_ref f) l + zsum (vma_ref f) (pr_vmas p).
Proof. done. Qed.
Lemma prefs_vmas f p l : prefs f (set_pr_vmas l p) = zsum (fd_ref f) (pr_ofile p) + zsum (vma_ref f) l.
Proof. done. Qed.

(** Descriptor [fd] of a live process changes from [o] to [o']. *)
Lemma kinv_set_fd d d' i fd o o' s : kinv d s -> (i < NPROC)%nat -> class_of (pr_state (getp i s)) = Alive ->
  pr_ofile (getp i s) !! fd = Some o -> (forall f, fd_ref f o' + d' f = fd_ref f o + d f) ->
  kinv d' (updp i (fun q => set_pr_ofile (<[fd := o']> (pr_ofile q)) q) s).
Proof.
  intros Hs Hi Ha Ho Hd. apply (kinv_tables d); try done.
  - intros f. rewrite prefs_ofile, (zsum_insert _ _ _ _ _ Ho). unfold prefs, trefs. cbn. specialize (Hd f). lia.
  - cbn. rewrite length_insert. apply (ki_shape _ _ Hs).
  - apply (ki_shape _ _ Hs).
Qed.
(** Area [k] of a live process changes from [v] to [v']. *)
Lemma kinv_set_vma d d' i k g v s : kinv d s -> (i < NPROC)%nat -> class_of (pr_state (getp i s)) = Alive ->
  pr_vmas (getp i s) !! k = Some v -> (forall f, vma_ref f (g v) + d' f = vma_ref f v + d f) ->
  kinv d' (updp i (fun q => set_pr_vmas (alter g k (pr_vmas q)) q) s).
Proof.
  intros Hs Hi Ha Hv Hd. apply (kinv_tables d); try done.
  - intros f. rewrite prefs_vmas, (zsum_alter _ _ _ _ _ Hv). unfold prefs, trefs. cbn. specialize (Hd f). lia.
  - apply (ki_shape _ _ Hs).
  - cbn. rewrite length_alter. apply (ki_shape _ _ Hs).
Qed.

(** What fdalloc did: nothing, or the descriptor [r] of process [i] is [f]. *)
Definition installed (i f : nat) (r : Z) s s' : Prop :=
  kr_cur s' = kr_cur s /\ kr_file s' = kr_file s /\
  if r <? 0 then s' = s
  else pr_ofile (getp i s) !! Z.to_nat r = Some None /\ pr_ofile (getp i s') = <[Z.to_nat r := Some f]> (pr_ofile (getp i s)).

Lemma fdalloc_loop_kinv d i f n fd s : kinv d s -> kr_cur s = Some i -> (n + fd = NOFILE)%nat ->
  wlp (fdalloc_loop n fd i f) (fun r s' => installed i f r s s' /\ if r <? 0 then kinv d s' else kinv (dec f d) s') s.
Proof.
  intros Hs Hc. revert fd. induction n as [|n IH]; intros fd Hn; cbn [fdalloc_loop]; wlp_simp; [done|].
  destruct (ki_cur _ _ Hs i Hc) as [Hi Ha].
  destruct (lookup_lt_is_Some_2 (pr_ofile (getp i s)) fd) as [o Ho]; [rewrite (proj1 (ki_shape _ _ Hs i)); lia|]. rewrite Ho. cbn [default from_option id].
  destruct o as [g|]; [apply IH; lia|]. unfold modp. wlp_simp. rewrite (proj2 (Z.ltb_ge (Z.of_nat fd) 0)) by lia. split.
  - unfold installed. rewrite (proj2 (Z.ltb_ge (Z.of_nat fd) 0)) by lia. rewrite Nat2Z.id, getp_updp_eq by (by rewrite (ki_table _ _ Hs)). done.
  - eapply kinv_set_fd; [done..|]. intros g. rewrite fd_ref_is. unfold fd_ref, dec. rewrite bool_decide_eq_false_2 by done. case_decide; lia.
Qed.
Lemma fdalloc_kinv d i f s : kinv d s -> kr_cur s = Some i ->
  wlp (fdalloc f) (fun r s' => installed i f r s s' /\ if r <? 0 then kinv d s' else kinv (dec f d) s') s.
Proof.
  intros Hs Hc. unfold fdalloc. rewrite wlp_bind. apply wlp_myproc. intros j Hj. assert (j = i) as -> by congruence.
  apply fdalloc_loop_kinv; [done|done|lia].
Qed.

Lemma clear_fd_kinv d i f fd s : kinv d s -> kr_cur s = Some i -> pr_ofile (getp i s) !! fd = Some (Some f) ->
  wlp (clear_fd fd) (fun _ s' => kinv (inc f d) s' /\ kr_cur s' = Some i /\ pr_ofile (getp i s') = <[fd := None]> (pr_ofile (getp i s))) s.
Proof.
  intros Hs Hc Ho. unfold clear_fd, modp. rewrite wlp_bind. apply wlp_myproc. intros j Hj. assert (j = i) as -> by congruence.
  destruct (ki_cur _ _ Hs i Hc) as [Hi Ha]. wlp_simp. split.
  - eapply kinv_set_fd; [done..|]. intros g. rewrite fd_ref_is. unfold fd_ref, inc. rewrite bool_decide_eq_false_2 by done. case_decide; lia.
  - split; [done|]. by rewrite getp_updp_eq by (by rewrite (ki_table _ _ Hs)).
Qed.

(** What argfd finds is in the table. *)
Lemma wlp_argfd n Q s : (forall o s', kstep s s' -> (forall fd f, o = Some (fd, f) -> exists i, kr_cur s' = Some i /\ pr_ofile (getp i s') !! fd = Some (Some f)) -> Q o s') ->
  wlp (argfd n) Q s.
Proof.
  intros H. unfold argfd. eapply wlp_keeps; [kp_tac|]. intros v t Ht. rewrite wlp_bind. apply wlp_myproc. intros i Hi. wlp_simp.
  destruct (_ || _); [wlp_simp; by apply H|]. destruct (pr_ofile _ !! _) as [[f|]|] eqn:E; wlp_simp; apply H; try done.
  intros fd g Hg. injection Hg as <- <-. by exists i.
Qed.

Lemma inc_dec f d g : inc f (dec f d) g = d g.
Proof. unfold inc, dec. case_decide; lia. Qed.
Lemma dec_inc f d g : dec f (inc f d) g = d g.
Proof. unfold inc, dec. case_decide; lia. Qed.

Lemma sys_dup_kinv d s : kinv d s -> (forall f, d f <= 1000) -> wlp sys_dup (fun _ s' => kinv d s') s.
Proof.
  intros Hs Hd. unfold sys_dup. rewrite wlp_bind. apply wlp_argfd. intros o t Ht Ho. pose proof (kinv_kstep _ _ _ Ht Hs) as Hs'.
  destruct o as [[fd f]|]; [|done]. destruct (Ho fd f eq_refl) as (i & Hi & Hf). eapply wlp_then; [by apply fdalloc_kinv|].
  intros r u [_ Hr]. destruct (r <? 0); [done|]. eapply wlp_then; [apply filedup_kinv; [exact Hr|]; unfold dec; case_decide; specialize (Hd f); lia|].
  intros g v (_ & _ & Hv). wlp_simp. eapply kinv_ext; [apply inc_dec|done].
Qed.

Lemma sys_close_kinv d s : kinv d s -> wlp sys_close (fun _ s' => kinv d s') s.
Proof.
  intros Hs. unfold sys_close. rewrite wlp_bind. apply wlp_argfd. intros o t Ht Ho. pose proof (kinv_kstep _ _ _ Ht Hs) as Hs'.
  destruct o as [[fd f]|]; [|done]. destruct (Ho fd f eq_refl) as (i & Hi & Hf). eapply wlp_then; [by apply (clear_fd_kinv d i f)|].
  intros ? u (Hu & _). eapply wlp_then; [by apply fileclose_kinv|]. intros ? v [_ Hv]. wlp_simp. eapply kinv_ext; [apply dec_inc|done].
Qed.

Lemma sys_open_kinv d s : kinv d s -> wlp sys_open (fun _ s' => kinv d s') s.
Proof.
  intros Hs. unfold sys_open. kinv_tac. eapply wlp_then; [by apply filealloc_kinv|]. intros [f|] t [_ Ht]; [|clear Hs; kinv_tac].
  unfold fdalloc at 1. rewrite !wlp_bind. apply wlp_myproc. intros i Hi. eapply wlp_mono; [apply fdalloc_loop_kinv; [exact Ht|done|lia]|].
  intros r u [_ Hr]. clear Hs. destruct (r <? 0).
  - eapply wlp_then; [by apply fileclose_kinv|]. intros ? v [_ Hv]. apply (kinv_ext _ d) in Hv; [|apply dec_inc]. clear Ht Hr. kinv_tac.
  - apply (kinv_ext _ d) in Hr; [|apply dec_inc]. clear Ht. kinv_tac.
Qed.

(** ** Pipes *)

Lemma pipealloc_bad_kinv d f0 f1 s : kinv d s ->
  wlp (pipealloc_bad f0 f1) (fun o s' => o = None /\ kinv (from_option dec id f1 (from_option dec id f0 d)) s') s.
Proof.
  intros Hs. unfold pipealloc_bad. eapply (wlp_then _ _ (fun _ t => kinv (from_option dec id f0 d) t)).
  - destruct f0; [|done]. eapply wlp_mono; [by apply fileclose_kinv|]. by intros ? ? [_ ?].
  - intros ? t Ht. eapply (wlp_then _ _ (fun _ u => kinv (from_option dec id f1 (from_option dec id f0 d)) u)); [|by intros].
    destruct f1; [|done]. eapply wlp_mono; [by apply fileclose_kinv|]. by intros ? ? [_ ?].
Qed.

Lemma pipealloc_kinv d s : kinv d s ->
  wlp pipealloc (fun o s' => match o with Some (f0, f1) => kinv (inc f1 (inc f0 d)) s' | None => kinv d s' end) s.
Proof.
  intros Hs. unfold pipealloc. eapply wlp_then; [by apply filealloc_kinv|]. intros [f0|] t [_ Ht].
  2:{ eapply wlp_mono; [by apply pipealloc_bad_kinv|]. by intros ? ? [-> ?]. }
  eapply wlp_then; [by apply filealloc_kinv|]. intros [f1|] u [_ Hu].
  2:{ eapply wlp_mono; [by apply pipealloc_bad_kinv|]. intros ? ? [-> ?]. eapply kinv_ext; [apply dec_inc|done]. }
  clear Hs Ht. kinv_step. destruct (_ =? 0).
  - eapply wlp_mono; [by apply pipealloc_bad_kinv|]. intros ? ? [-> ?]. eapply kinv_ext; [|done]. intros g. cbn. unfold inc, dec. repeat case_decide; lia.
  - repeat kinv_step. wlp_simp. done.
Qed.

(** fdalloc(), for the process that runs, whichever it is. *)
Lemma wlp_fdalloc {C} (k : Z -> M (kern B D) C) Q d f s : kinv d s ->
  (forall i r s', kr_cur s = Some i -> installed i f r s s' -> (if r <? 0 then kinv d s' else kinv (dec f d) s') -> wlp (k r) Q s') ->
  wlp (bind (fdalloc f) k) Q s.
Proof.
  intros Hs H. destruct (kr_cur s) as [i|] eqn:Hc.
  - eapply wlp_then; [by apply (fdalloc_kinv d i)|]. intros r t [Hi Hr]. by apply (H i).
  - rewrite wlp_bind. unfold fdalloc, myproc. rewrite !wlp_bind, wlp_gets, Hc. done.
Qed.

(** The clean-up of sys_pipe(): close both ends. *)
Lemma close_both_kinv d rf wf (r : Z) s : kinv (inc wf (inc rf d)) s ->
  wlp (fileclose rf ;; fileclose wf ;; ret r) (fun _ s' => kinv d s') s.
Proof.
  intros Hs. eapply wlp_then; [by apply fileclose_kinv|]. intros ? t [_ Ht]. eapply wlp_then; [by apply fileclose_kinv|]. intros ? u [_ Hu].
  wlp_simp. eapply kinv_ext; [|exact Hu]. intros g. unfold inc, dec. repeat case_decide; lia.
Qed.

Lemma sys_pipe_kinv d s : kinv d s -> wlp sys_pipe (fun _ s' => kinv d s') s.
Proof.
  intros Hs. unfold sys_pipe. do 2 kinv_step. eapply wlp_then; [by apply pipealloc_kinv|]. intros [[rf wf]|] t Ht; [|done]. clear Hs s.
  eapply wlp_fdalloc; [exact Ht|]. intros i fd0 u Hi (Hc & _ & Hin) Hu.
  destruct (Z.ltb_spec fd0 0) as [H0|H0].
  { rewrite wlp_bind, wlp_ret. change (-1 <? 0) with true. cbv iota. rewrite (proj2 (Z.leb_gt 0 fd0) H0), wlp_bind, wlp_ret. by apply close_both_kinv. }
  eapply wlp_fdalloc; [exact Hu|]. intros j fd1 v Hj (Hc1 & _ & Hin1) Hv. assert (j = i) as -> by congruence.
  destruct Hin as [Hn0 Ho]. assert (Hfd0 : (Z.to_nat fd0 < length (pr_ofile (getp i t)))%nat) by (by apply lookup_lt_Some in Hn0).
  destruct (Z.ltb_spec fd1 0) as [H1|H1].
  - subst v. rewrite (proj2 (Z.leb_le 0 fd0) H0). eapply wlp_then; [eapply (clear_fd_kinv _ i rf); [exact Hu|congruence|]|].
    + rewrite Ho. by apply list_lookup_insert_eq.
    + intros ? v (Hv' & _). apply close_both_kinv. eapply kinv_ext; [|exact Hv']. intros g. unfold inc, dec. repeat case_decide; lia.
  - destruct Hin1 as [Hn1 Ho1]. assert (Hne : Z.to_nat fd1 <> Z.to_nat fd0).
    { intros E. rewrite E, Ho, list_lookup_insert_eq in Hn1 by done. done. }
    assert (Hfd1 : (Z.to_nat fd1 < length (pr_ofile (getp i u)))%nat) by (by apply lookup_lt_Some in Hn1).
    apply (kinv_ext _ d) in Hv; [|intros g; unfold inc, dec; repeat case_decide; lia].
    cbv zeta. eapply wlp_keeps; [kp_tac|intros ? w1 K1]. eapply wlp_keeps; [kp_tac|intros r1 w2 K2]. eapply wlp_keeps; [kp_tac|intros r2 w K3].
    pose proof (kstep_trans _ _ _ (kstep_trans _ _ _ K1 K2) K3) as K. pose proof (kinv_kstep _ _ _ K Hv) as Hw.
    destruct (r2 <? 0); [|done].
    assert (Ow : pr_ofile (getp i w) = <[Z.to_nat fd1 := Some wf]> (<[Z.to_nat fd0 := Some rf]> (pr_ofile (getp i t)))).
    { pose proof (pview_getp _ _ i K) as V. injection V as -> _ _ _. by rewrite Ho1, Ho. }
    rewrite Ho, length_insert in Hfd1.
    eapply wlp_then; [apply (clear_fd_kinv d i rf); [exact Hw|injection K; congruence|]|].
    + rewrite Ow, list_lookup_insert_ne by done. by apply list_lookup_insert_eq.
    + intros ? x (Hx & Cx & Ox). eapply wlp_then; [eapply (clear_fd_kinv _ i wf); [exact Hx|exact Cx|]|].
      * rewrite Ox, Ow, list_lookup_insert_ne by done. apply list_lookup_insert_eq. by rewrite length_insert.
      * intros ? y (Hy & _). by apply close_both_kinv.
Qed.

(** * Memory areas *)

Lemma find_vma_spec test vs i k v : find_vma test vs i = Some (k, v) -> (i <= k)%nat /\ vs !! (k - i)%nat = Some v /\ test v = true.
Proof.
  revert i. induction vs as [|w vs IH]; intros i H; cbn in H; [done|]. destruct (test w) eqn:E.
  - injection H as <- <-. by rewrite Nat.sub_diag.
  - destruct (IH _ H) as (H1 & H2 & H3). split; [lia|]. split; [|done]. replace (k - i)%nat with (S (k - S i)) by lia. done.
Qed.
Lemma find_vma_0 test vs k v : find_vma test vs 0 = Some (k, v) -> vs !! k = Some v /\ test v = true.
Proof. intros H. destruct (find_vma_spec _ _ _ _ _ H) as (_ & H2 & H3). rewrite Nat.sub_0_r in H2. done. Qed.

Lemma kp_vma_unmap fuel i v va e : kept (vma_unmap fuel i v va e).
Proof. revert va. induction fuel as [|fuel IH]; intros va; cbn [vma_unmap]; kp_tac. Qed.
#[local] Hint Resolve kp_vma_unmap : kview.

(** The area [k] goes out of use. *)
Lemma kinv_unuse d i k v s : kinv (dec (v_file v) d) s -> (i < NPROC)%nat -> class_of (pr_state (getp i s)) = Alive ->
  pr_vmas (getp i s) !! k = Some v -> v_used v = true ->
  kinv d (updp i (fun q => set_pr_vmas (alter (set_v_used false) k (pr_vmas q)) q) s).
Proof.
  intros Hs Hi Ha Hv Hu. eapply kinv_set_vma; [done..|]. intros f. rewrite !vma_ref_is, Hu. cbn. unfold dec. case_decide; lia.
Qed.

Lemma sys_munmap_kinv d s : kinv d s -> wlp sys_munmap (fun _ s' => kinv d s') s.
Proof.
  intros Hs. unfold sys_munmap. rewrite wlp_bind. apply wlp_myproc. intros i Hi. do 2 (eapply wlp_keeps; [kp_tac|intros ? ? ?]).
  rewrite wlp_bind, wlp_gets. destruct (find_vma _ _ _) as [[k v]|] eqn:E; [|do 2 (eapply kinv_kstep; [done|]); done].
  apply find_vma_0 in E as [Hv Hu]. unfold vma_contains in Hu. apply andb_prop in Hu as [Hu _]. apply andb_prop in Hu as [Hu _].
  eapply wlp_keeps; [kp_tac|intros ? t Ht]. assert (K : kstep s t) by (eapply kstep_trans; [|done]; by eapply kstep_trans).
  pose proof (kinv_kstep _ _ _ K Hs) as Hs'. eapply wlp_then; [by apply fileclose_kinv|]. intros ? u [Pu Hu'].
  assert (Ci : kr_cur u = Some i) by (destruct Pu as (_ & -> & _); injection K; congruence). destruct (ki_cur _ _ Hu' i Ci) as [Hlt Ha].
  unfold modp. rewrite wlp_bind, wlp_modify, wlp_ret. eapply kinv_unuse; try done.
  pose proof (pstep_getp _ _ i Pu) as V. injection V as _ -> _ _. pose proof (pview_getp _ _ i Ht) as V. injection V as _ -> _ _. done.
Qed.

Lemma sys_mmap_kinv d s : kinv d s -> (forall f, d f <= 1000) -> wlp sys_mmap (fun _ s' => kinv d s') s.
Proof.
  intros Hs Hd. unfold sys_mmap. rewrite wlp_bind. apply wlp_myproc. intros i Hi. eapply wlp_keeps; [kp_tac|intros addr t1 K1]. eapply wlp_keeps; [kp_tac|intros len t2 K2].
  eapply wlp_keeps; [kp_tac|intros prot t3 K3]. eapply wlp_keeps; [kp_tac|intros flags t4 K4]. eapply wlp_keeps; [kp_tac|intros fd t5 K5].
  eapply wlp_keeps; [kp_tac|intros off t K6]. assert (K : kstep s t) by (do 5 (eapply kstep_trans; [eassumption|]); done).
  clear K1 K2 K3 K4 K5 K6. pose proof (kinv_kstep _ _ _ K Hs) as Ht. destruct (_ =? 0); [done|]. rewrite wlp_bind, wlp_gets. change (id t) with t. cbv zeta.
  destruct (_ || _); [done|]. destruct (pr_ofile _ !! _) as [[f|]|]; [|done..]. destruct (_ && _); [done|]. destruct (find_vma _ _ _) as [[k v]|] eqn:E; [|done].
  apply find_vma_0 in E as [Hv Hu]. destruct (TRAPFRAME <? _); [done|]. eapply wlp_keeps; [kp_tac|intros ? u K1].
  eapply wlp_then; [apply filedup_kinv; [exact (kinv_kstep _ _ _ K1 Ht)|apply Hd]|]. intros g w (-> & Pw & Hw).
  assert (Ci : kr_cur w = Some i) by (destruct Pw as (_ & -> & _); injection K; injection K1; congruence). destruct (ki_cur _ _ Hw i Ci) as [Hlt Ha].
  unfold modp. rewrite wlp_bind, wlp_modify, wlp_ret.
  assert (Hvw : pr_vmas (getp i w) !! k = Some v).
  { pose proof (pstep_getp _ _ i Pw) as V. injection V as _ -> _ _. pose proof (pview_getp _ _ i K1) as V. injection V as _ -> _ _. done. }
  eapply (kinv_tables (inc f d)); try done.
  - intros h. rewrite prefs_vmas, (zsum_insert _ _ _ _ _ Hvw), !vma_ref_is. unfold prefs, trefs. cbn. destruct (v_used v); [done|]. unfold inc. case_decide; lia.
  - apply (ki_shape _ _ Hw).
  - cbn. rewrite length_insert. apply (ki_shape _ _ Hw).
Qed.
End calls.
