(* ===== verification/KInvProc.v ===== *)
(** The invariant of KInv across the life of processes: fork, exit and wait. *)
From S2P Require Import Prelude Mem Kalloc Vm UserMem Pipe Bio Bytes Blocks Fs Uprintf Kern Sched KernSpec File ProcLife KInv KInvOps KInvCalls.

Section life.
Context {B D : Type} `{BK : Blocks B} `{L : Layout} `{DV : Devices D}.
Context (forkret : Z).
Implicit Types (s : kern B D) (p : proc) (d : nat -> Z).
Local Abbreviation kept := (keeps (B:=B) (D:=D)).
#[local] Hint Resolve kp_proc_pagetable kp_proc_freepagetable kp_vma_unmap : kview.

(** * Freeing and allocating *)

(** An entry without references may be freed. *)
Lemma freeproc_kinv d i s : kinv d s -> (i < NPROC)%nat -> kr_cur s <> Some i -> (forall f, prefs f (getp i s) = 0) ->
  wlp (freeproc i) (fun _ s' => kinv d s' /\ kr_cur s' = kr_cur s) s.
Proof.
  intros Hs Hi Hc Hr. unfold freeproc. eapply wlp_keeps; [kp_tac|intros q t1 K1]. eapply wlp_keeps; [kp_tac|intros ? t2 K2].
  eapply wlp_keeps; [kp_tac|intros ? t3 K3]. eapply wlp_keeps; [kp_tac|intros ? t4 K4]. eapply wlp_keeps; [kp_tac|intros ? t5 K5].
  eapply wlp_keeps; [kp_tac|intros ? t K6]. assert (K : kstep s t) by (do 5 (eapply kstep_trans; [eassumption|]); done). clear K1 K2 K3 K4 K5 K6.
  pose proof (kinv_kstep _ _ _ K Hs) as Ht. unfold modp. wlp_simp. rewrite !updp_updp. split; [|injection K; cbn; congruence].
  pose proof (pview_getp _ _ i K) as V. injection V as V1 V2 V3 V4.
  assert (Hz : forall f, prefs f (getp i t) = 0) by (intros f; unfold prefs; rewrite V1, V2; apply Hr).
  apply (kinv_updp d); try done; cbn.
  - apply (ki_shape _ _ Ht).
  - apply (ki_shape _ _ Ht).
  - intros _. split; [exact Hz|]. injection K. congruence.
Qed.

Lemma allocproc_find_spec n i s : (n + i = NPROC)%nat ->
  wlp (allocproc_find n i) (fun o s' => kstep s s' /\ match o with Some j => (j < NPROC)%nat /\ pr_state (getp j s') = UNUSED | None => True end) s.
Proof.
  revert i s. induction n as [|n IH]; intros i s Hn; cbn [allocproc_find]; [by wlp_simp|].
  eapply wlp_keeps; [kp_tac|intros ? t Ht]. rewrite wlp_bind, wlp_gets. case_bool_decide as E; [wlp_simp; split; [done|]; split; [lia|done]|].
  eapply wlp_keeps; [kp_tac|intros ? u Hu]. eapply wlp_mono; [apply IH; lia|]. intros o v [Hv Ho]. split; [|done].
  exact (kstep_trans _ _ _ (kstep_trans _ _ _ Ht Hu) Hv).
Qed.

(** A free entry becomes a live process with the next pid. *)
Lemma kinv_new d i s : kinv d s -> (i < NPROC)%nat -> pr_state (getp i s) = UNUSED -> 0 < kr_nextpid s ->
  kinv d (updp i (set_pr_state USED ∘ set_pr_pid (kr_nextpid s)) (set_kr_nextpid (kr_nextpid s + 1) s)).
Proof.
  intros [H1 H2 H3 H4 H5 H6 H7 H8] Hi Hu Hn. set (s1 := set_kr_nextpid _ s). assert (Hlen : (i < length (kr_proc s1))%nat) by (cbn; by rewrite H1).
  assert (Hz : forall f, prefs f (getp i s) = 0) by (intros f; apply H5; by rewrite Hu). change (getp i s) with (getp i s1) in *.
  split; try done.
  - unfold table. by rewrite length_updp.
  - intros f. rewrite refs_updp by done. change (getf f (updp i _ s1)) with (getf f s). rewrite H3. change (refs f s1) with (refs f s). unfold prefs. cbn. lia.
  - intros j. rewrite getp_updp by done. case_decide; [apply (H4 i)|apply H4].
  - intros j f. rewrite getp_updp by done. case_decide; [done|apply H5].
  - intros j Hj. rewrite getp_updp by done. case_decide as E; [subst j; by split|]. by apply H6.
  - intros j Hj. rewrite getp_updp by done. cbn. case_decide; [cbn; lia|]. intros Hc. specialize (H7 j Hj Hc). change (getp j s1) with (getp j s). lia.
  - intros j k Hj Hk. rewrite !getp_updp by done. change (getp j s1) with (getp j s). change (getp k s1) with (getp k s).
    destruct (decide (j = i)) as [->|], (decide (k = i)) as [->|]; try done; cbn.
    + intros _ Hc. specialize (H7 k Hk Hc). lia.
    + intros Hc _. specialize (H7 j Hj Hc). lia.
    + by apply H8.
Qed.

(** What allocproc() gives: a live process without references, and the others as they were. *)
Definition fresh (np : nat) s s' : Prop :=
  (np < NPROC)%nat /\ kr_cur s <> Some np /\ class_of (pr_state (getp np s')) = Alive /\ (forall f, prefs f (getp np s') = 0) /\
  forall j, j <> np -> pview (getp j s') = pview (getp j s).
Lemma fresh_kstep np s s' t : fresh np s s' -> kstep s' t -> fresh np s t.
Proof.
  intros (H1 & H2 & H3 & H4 & H5) K. pose proof (pview_getp _ _ np K) as V. injection V as V1 V2 V3 V4. split; [done|]. split; [done|].
  split; [by rewrite V4|]. split; [intros f; unfold prefs; rewrite V1, V2; apply H4|]. intros j Hj. rewrite (pview_getp _ _ j K). by apply H5.
Qed.

Lemma new_kinv d i s : kinv d s -> (i < NPROC)%nat -> pr_state (getp i s) = UNUSED -> 0 < kr_nextpid s < 2 ^ 31 - 1 ->
  wlp (let! pid := allocpid in modp i (set_pr_pid pid) ;; modp i (set_pr_state USED))
    (fun _ s' => kinv d s' /\ kr_cur s' = kr_cur s /\ fresh i s s') s.
Proof.
  intros Hs Hi Hu Hn. unfold allocpid, modp. rewrite !wlp_bind. apply wlp_acquire. intros _. rewrite wlp_bind, wlp_gets, wlp_bind, wlp_modify, wlp_bind.
  apply wlp_release. intros _. rewrite wlp_ret. rewrite wlp_bind, !wlp_modify. rewrite updp_updp. rewrite s32_small by (cbn; lia).
  change (kr_nextpid (set_kr_pidlock Mine s)) with (kr_nextpid s).
  pose proof (kinv_new d i s Hs Hi Hu (proj1 Hn)) as Hk. set (s' := updp i _ _) in Hk. set (s2 := updp i _ _).
  assert (K : kstep s' s2) by reflexivity. split; [exact (kinv_kstep _ _ _ K Hk)|]. split; [done|]. eapply fresh_kstep; [|exact K]. clear K s2.
  assert (Hlen : (i < length (kr_proc (set_kr_nextpid (kr_nextpid s + 1) s)))%nat) by (cbn; by rewrite (ki_table _ _ Hs)).
  unfold fresh, s'. rewrite !getp_updp by done. rewrite decide_True by done. split; [done|]. split; [|split; [done|]; split].
  - intros Hc. destruct (ki_cur _ _ Hs i Hc) as [_ Ha]. by rewrite Hu in Ha.
  - intros f. apply (ki_idle _ _ Hs). by rewrite Hu.
  - intros j Hj. rewrite getp_updp_ne by done. done.
Qed.

Lemma allocproc_kinv d s : kinv d s -> 0 < kr_nextpid s < 2 ^ 31 - 1 ->
  wlp (allocproc forkret) (fun o s' => kinv d s' /\ kr_cur s' = kr_cur s /\ match o with Some np => fresh np s s' | None => True end) s.
Proof.
  intros Hs Hn. unfold allocproc. eapply wlp_then; [apply allocproc_find_spec; lia|]. intros [i|] t [Kt Ho]; [|split; [exact (kinv_kstep _ _ _ Kt Hs)|]; split; [injection Kt; congruence|done]].
  destruct Ho as [Hi Hu].
  pose proof (kinv_kstep _ _ _ Kt Hs) as Ht. assert (Ct : kr_cur t = kr_cur s) by (injection Kt; congruence).
  assert (Hnt : 0 < kr_nextpid t < 2 ^ 31 - 1) by (assert (kr_nextpid t = kr_nextpid s) as -> by (injection Kt; congruence); done).
  pose proof (new_kinv d i t Ht Hi Hu Hnt) as Hnew. rewrite wlp_bind in Hnew. rewrite wlp_bind. eapply wlp_mono; [exact Hnew|]. clear Hnew. intros pid u1 Hu1.
  cbv beta in Hu1. rewrite wlp_bind in Hu1. rewrite wlp_bind. eapply wlp_mono; [exact Hu1|]. clear Hu1 u1. intros ? u2 Hu2. rewrite wlp_bind. eapply wlp_mono; [exact Hu2|]. clear Hu2 u2.
  intros ? u (Hu' & Cu & Fu).
  assert (Fs : fresh i s u).
  { destruct Fu as (F1 & F2 & F3 & F4 & F5). split; [done|]. split; [congruence|]. split; [done|]. split; [done|]. intros j Hj. rewrite F5 by done. exact (pview_getp _ _ j Kt). }
  eapply wlp_keeps; [kp_tac|intros tf v1 K1]. eapply wlp_keeps; [kp_tac|intros ? v2 K2]. pose proof (kstep_trans _ _ _ K1 K2) as Kv. clear K1 K2.
  assert (Bad : forall v, kstep u v -> wlp (freeproc i ;; p_release i ;; ret (@None nat)) (fun o s' => kinv d s' /\ kr_cur s' = kr_cur s /\ match o with Some np => fresh np s s' | None => True end) v).
  { intros v K. pose proof (fresh_kstep _ _ _ _ Fs K) as (F1 & F2 & F3 & F4 & F5). assert (Cv : kr_cur v = kr_cur s) by (injection K; congruence).
    eapply wlp_then; [apply freeproc_kinv; [exact (kinv_kstep _ _ _ K Hu')|done|congruence|done]|]. intros ? w [Hw Cw].
    eapply wlp_keeps; [kp_tac|intros ? x Kx]. wlp_simp. split; [exact (kinv_kstep _ _ _ Kx Hw)|]. split; [injection Kx; congruence|done]. }
  destruct (tf =? 0); [by apply Bad|]. eapply wlp_keeps; [kp_tac|intros pt v3 K3]. eapply wlp_keeps; [kp_tac|intros ? v4 K4].
  destruct (pt =? 0); [apply Bad; exact (kstep_trans _ _ _ Kv (kstep_trans _ _ _ K3 K4))|].
  eapply wlp_keeps; [kp_tac|intros q v5 K5]. eapply wlp_keeps; [kp_tac|intros ? v6 K6]. eapply wlp_keeps; [kp_tac|intros ? v7 K7].
  eapply wlp_keeps; [kp_tac|intros ? v K8]. assert (K : kstep u v) by (do 6 (eapply kstep_trans; [eassumption|]); done).
  wlp_simp. split; [exact (kinv_kstep _ _ _ K Hu')|]. split; [injection K; congruence|]. exact (fresh_kstep _ _ _ _ Fs K).
Qed.

(** * fork *)

Lemma zsum_drop {A} (g : A -> Z) (l : list A) (i : nat) x : l !! i = Some x -> zsum g (drop i l) = g x + zsum g (drop (S i) l).
Proof. intros H. by rewrite (drop_S _ _ _ H). Qed.

Lemma alter_same {A} (g : A -> A) (l : list A) (i : nat) x : l !! i = Some x -> g x = x -> alter g i l = l.
Proof.
  intros H E. apply list_eq. intros j. destruct (decide (j = i)) as [->|]; [|by rewrite list_lookup_alter_ne].
  rewrite list_lookup_alter_eq, H. cbn. by rewrite E.
Qed.

(** The loop over the areas pays for the references that the copy of the table made. *)
Lemma dup_vmas_kinv d n i (p np : nat) s : (n + i = MAXVMA)%nat -> (forall f, d f <= 900) ->
  kinv (fun f => d f - zsum (vma_ref f) (drop i (pr_vmas (getp np s)))) s -> pr_vmas (getp np s) = pr_vmas (getp p s) ->
  wlp (dup_vmas n i p np) (fun _ s' => kinv d s' /\ pstep s s') s.
Proof.
  intros Hn Hd. revert i Hn s. induction n as [|n IH]; intros i Hn s Hs Hv; cbn [dup_vmas].
  { wlp_simp. split; [|done]. eapply kinv_ext; [|exact Hs]. intros f. rewrite drop_ge; [cbn; lia|]. rewrite (proj2 (ki_shape _ _ Hs np)). lia. }
  destruct (lookup_lt_is_Some_2 (pr_vmas (getp np s)) i) as [v Ev]; [rewrite (proj2 (ki_shape _ _ Hs np)); lia|].
  rewrite wlp_bind, wlp_gets. change (id s) with s. rewrite <- Hv, Ev. cbn [default from_option id].
  eapply (wlp_then _ _ (fun _ t => pstep s t /\ kinv (fun f => d f - zsum (vma_ref f) (drop (S i) (pr_vmas (getp np s)))) t)).
  - destruct (v_used v) eqn:Eu.
    + eapply wlp_then; [apply filedup_kinv; [exact Hs|]; pose proof (zsum_bound (vma_ref (v_file v)) (drop i (pr_vmas (getp np s))) 1 (vma_ref_bound _)); specialize (Hd (v_file v)); lia|].
      intros g t (-> & Pt & Ht). unfold modp. rewrite wlp_modify. pose proof (pstep_getp _ _ np Pt) as V. injection V as V1 V2 V3 V4.
      assert (K : kstep t (updp np (fun q => set_pr_vmas (alter (set_v_file (v_file v)) i (pr_vmas q)) q) t)).
      { apply kstep_updp_at. unfold pview. cbn. rewrite (alter_same _ _ _ v); [done|by rewrite V2|by destruct v]. }
      split; [eapply pstep_trans; [exact Pt|by apply kstep_pstep]|]. eapply kinv_kstep; [exact K|]. eapply kinv_ext; [|exact Ht].
      intros f. unfold inc. cbv beta. rewrite (zsum_drop _ _ _ _ Ev), vma_ref_is, Eu. case_decide; lia.
    + wlp_simp. split; [done|]. eapply kinv_ext; [|exact Hs]. intros f. cbv beta. rewrite (zsum_drop _ _ _ _ Ev), vma_ref_is, Eu. lia.
  - intros ? t [Pt Ht]. pose proof (pstep_getp _ _ np Pt) as V. injection V as V1 V2 V3 V4. pose proof (pstep_getp _ _ p Pt) as W. injection W as W1 W2 W3 W4.
    eapply wlp_mono; [apply IH; [lia|by rewrite V2|congruence]|]. intros ? u [Hu Pu]. split; [done|]. by eapply pstep_trans.
Qed.

(** The descriptors: each copy has its own reference. *)
Lemma dup_ofile_kinv d n i (p np : nat) s : (n + i = NOFILE)%nat -> (forall f, d f <= 900) -> (np < NPROC)%nat -> p <> np ->
  kinv d s -> class_of (pr_state (getp np s)) = Alive -> (forall k o, (i <= k)%nat -> pr_ofile (getp np s) !! k = Some o -> o = None) ->
  wlp (dup_ofile n i p np) (fun _ s' => kinv d s' /\ kr_cur s' = kr_cur s /\ class_of (pr_state (getp np s')) = Alive) s.
Proof.
  intros Hn Hd Hnp Hne. revert i Hn s. induction n as [|n IH]; intros i Hn s Hs Ha Ho; cbn [dup_ofile]; [by wlp_simp|].
  rewrite wlp_bind, wlp_gets. change (id s) with s.
  destruct (default None (pr_ofile (getp p s) !! i)) as [f|] eqn:E.
  2:{ rewrite wlp_bind, wlp_ret. apply IH; [lia|done|done|]. intros k o Hk. apply Ho. lia. }
  destruct (lookup_lt_is_Some_2 (pr_ofile (getp np s)) i) as [o Eo]; [rewrite (proj1 (ki_shape _ _ Hs np)); lia|].
  rewrite wlp_bind. eapply wlp_then; [apply filedup_kinv; [exact Hs|specialize (Hd f); lia]|]. intros g t (-> & Pt & Ht).
  unfold modp. rewrite wlp_modify. pose proof (pstep_getp _ _ np Pt) as V. injection V as V1 V2 V3 V4.
  assert (Hlen : (np < length (kr_proc t))%nat) by (by rewrite (ki_table _ _ Ht)).
  set (u := updp np _ t). assert (Hu : kinv d u).
  { eapply (kinv_set_fd (inc f d)); [done|done|by rewrite V4|by rewrite V1|]. intros g. rewrite (Ho _ _ (Nat.le_refl i) Eo), fd_ref_is. unfold fd_ref, inc.
    rewrite bool_decide_eq_false_2 by done. case_decide; lia. }
  assert (Gu : getp np u = set_pr_ofile (<[i := Some f]> (pr_ofile (getp np t))) (getp np t)) by (unfold u; by rewrite getp_updp_eq).
  eapply wlp_mono; [apply IH; [lia|done|rewrite Gu; cbn; by rewrite V4|]|].
  - intros k o' Hk. rewrite Gu. cbn. rewrite V1, list_lookup_insert_ne by lia. apply Ho. lia.
  - intros ? v (Hv & Cv & Av). split; [done|]. split; [|done]. rewrite Cv. change (kr_cur t = kr_cur s). by destruct Pt as (_ & -> & _).
Qed.

(** The copy of the table of areas, before its references are paid for. *)
Lemma copy_vmas_kinv d np vs s : kinv d s -> (np < NPROC)%nat -> class_of (pr_state (getp np s)) = Alive -> (forall f, prefs f (getp np s) = 0) ->
  length vs = MAXVMA -> kinv (fun f => d f - zsum (vma_ref f) vs) (updp np (set_pr_vmas vs) s).
Proof.
  intros Hs Hnp Ha Hz Hl. apply (kinv_tables d); try done.
  - intros f. rewrite prefs_vmas. specialize (Hz f). unfold prefs, trefs in Hz |- *. cbn in *.
    pose proof (zsum_bound (fd_ref f) (pr_ofile (getp np s)) 1 (fd_ref_bound _)). pose proof (zsum_bound (vma_ref f) (pr_vmas (getp np s)) 1 (vma_ref_bound _)). lia.
  - apply (ki_shape _ _ Hs).
Qed.
Lemma no_fds p : (forall f, prefs f p = 0) -> forall k o, pr_ofile p !! k = Some o -> o = None.
Proof.
  intros Hz k [f|] Ho; [|done]. specialize (Hz f). unfold prefs, trefs in Hz. cbn in Hz.
  pose proof (zsum_bound (fd_ref f) (pr_ofile p) 1 (fd_ref_bound _)). pose proof (zsum_bound (vma_ref f) (pr_vmas p) 1 (vma_ref_bound _)).
  pose proof (zsum_zero_inv (fd_ref f) (pr_ofile p) (fun o => proj1 (fd_ref_bound f o)) ltac:(lia) (Some f) (list_elem_of_lookup_2 _ _ _ Ho)) as H1.
  unfold fd_ref in H1. by rewrite bool_decide_eq_true_2 in H1.
Qed.

(** The end of kfork(): the child is made runnable. *)
Lemma fork_tail_kinv d (p np : nat) s : kinv d s -> class_of (pr_state (getp np s)) = Alive ->
  wlp (let! pid := gets (fun s => pr_pid (getp np s)) in p_release np ;; wait_acquire ;; modp np (set_pr_parent (Some p)) ;; wait_release ;;
       p_acquire np ;; modp np (set_pr_state RUNNABLE) ;; p_release np ;; ret pid) (fun _ s' => kinv d s') s.
Proof.
  intros Hs Ha. do 6 (eapply wlp_keeps; [kp_tac|intros ? ? ?]). rewrite wlp_bind. unfold modp. rewrite wlp_modify.
  assert (K : kstep s s'4) by (do 5 (eapply kstep_trans; [eassumption|]); done).
  assert (K1 : kstep s (updp np (set_pr_state RUNNABLE) s'4)).
  { refine (kstep_trans _ _ _ K (kstep_updp_at _ _ _ _)). pose proof (pview_getp _ _ np K) as V. unfold pview. injection V as V1 V2 V3 V4. cbn. by rewrite V4, Ha. }
  pose proof (kinv_kstep _ _ _ K1 Hs) as Hk. clear -Hk. kinv_tac.
Qed.

Lemma kfork_kinv d s : kinv d s -> (forall f, d f <= 900) -> kr_nextpid s < 2 ^ 31 - 1 -> wlp (kfork forkret) (fun _ s' => kinv d s') s.
Proof.
  intros Hs Hd Hn. unfold kfork. rewrite wlp_bind. apply wlp_myproc. intros p Hp. destruct (ki_cur _ _ Hs p Hp) as [Hip Hap].
  assert (Hn0 : 0 < kr_nextpid s) by (pose proof (ki_pid _ _ Hs p Hip); rewrite Hap in *; naive_solver lia).
  eapply wlp_then; [by apply allocproc_kinv|]. intros [np|] t (Ht & Ct & Ft); [|done]. rewrite wlp_bind, wlp_gets. change (id t) with t. cbv zeta.
  destruct (Ft) as (F1 & F2 & F3 & F4 & F5). assert (Hne : p <> np) by congruence.
  eapply wlp_keeps; [kp_tac|intros r u K]. destruct (r <? 0).
  { pose proof (fresh_kstep _ _ _ _ Ft K) as (_ & _ & _ & G4 & _).
    eapply wlp_then; [apply freeproc_kinv; [exact (kinv_kstep _ _ _ K Ht)|done|injection K; congruence|exact G4]|]. intros ? v [Hv _]. clear -Hv. kinv_tac. }
  do 6 (eapply wlp_keeps; [kp_tac|intros ? ? ?]). assert (K' : kstep t s'4) by (do 6 (eapply kstep_trans; [eassumption|]); done).
  pose proof (fresh_kstep _ _ _ _ Ft K') as (_ & _ & G3 & G4 & _). pose proof (pview_getp _ _ p K') as V. injection V as V1 V2 V3 V4.
  rewrite wlp_bind. unfold modp at 1. rewrite wlp_modify. pose proof (kinv_kstep _ _ _ K' Ht) as Hk.
  pose proof (copy_vmas_kinv d np (pr_vmas (getp p t)) _ Hk F1 G3 G4 (proj2 (ki_shape _ _ Ht p))) as Hc. set (v := updp np _ s'4) in *.
  assert (Gv : getp np v = set_pr_vmas (pr_vmas (getp p t)) (getp np s'4)) by (unfold v; rewrite getp_updp_eq by (by rewrite (ki_table _ _ Hk)); done).
  eapply wlp_then; [apply (dup_vmas_kinv d); [done|done| |]|].
  - rewrite Gv. exact Hc.
  - rewrite Gv. unfold v. rewrite getp_updp_ne by done. cbn. by rewrite V2.
  - intros ? w [Hw Pw]. pose proof (pstep_getp _ _ np Pw) as W. rewrite Gv in W. injection W as W1 W2 W3 W4.
    eapply wlp_then; [apply (dup_ofile_kinv d); try done; [by rewrite W4|]|].
    + intros k o _. rewrite W1. exact (no_fds _ G4 k o).
    + intros ? x (Hx & _ & Ax). destruct (pr_cwd (getp p t)); [|done]. rewrite wlp_bind. eapply wlp_keeps; [kp_tac|intros ? y1 K1].
      eapply wlp_mono; [apply (kp_modp np (set_pr_cwd _)); done|]. intros ? y2 K2. eapply wlp_keeps; [kp_tac|intros ? y K3].
      pose proof (kstep_trans _ _ _ K1 (kstep_trans _ _ _ K2 K3)) as Ky.
      apply fork_tail_kinv; [exact (kinv_kstep _ _ _ Ky Hx)|]. pose proof (pview_getp _ _ np Ky) as V'. injection V' as _ _ _ ->. done.
Qed.

(** * exit *)

Lemma exit_vmas_kinv d n i (p : nat) s : (n + i = MAXVMA)%nat -> kinv d s -> kr_cur s = Some p ->
  (forall k v, (k < i)%nat -> pr_vmas (getp p s) !! k = Some v -> v_used v = false) ->
  wlp (exit_vmas n i p) (fun _ s' => kinv d s' /\ kr_cur s' = Some p /\ forall v, v ∈ pr_vmas (getp p s') -> v_used v = false) s.
Proof.
  revert i s. induction n as [|n IH]; intros i s Hn Hs Hc Hu; cbn [exit_vmas].
  { wlp_simp. split; [done|]. split; [done|]. intros v [k Hk]%list_elem_of_lookup. apply (Hu k); [|done]. apply lookup_lt_Some in Hk.
    rewrite (proj2 (ki_shape _ _ Hs p)) in Hk. lia. }
  destruct (lookup_lt_is_Some_2 (pr_vmas (getp p s)) i) as [v Ev]; [rewrite (proj2 (ki_shape _ _ Hs p)); lia|].
  rewrite wlp_bind, wlp_gets, Ev. cbn [default from_option id]. destruct (v_used v) eqn:Eu.
  2:{ rewrite wlp_bind, wlp_ret. apply IH; [lia|done|done|]. intros k w Hk Hw. destruct (decide (k = i)) as [->|]; [congruence|]. apply (Hu k); [lia|done]. }
  rewrite wlp_bind. eapply wlp_keeps; [kp_tac|intros ? t K]. eapply wlp_then; [apply fileclose_kinv; exact (kinv_kstep _ _ _ K Hs)|]. intros ? u [Pu Hu'].
  assert (Cu : kr_cur u = Some p) by (destruct Pu as (_ & -> & _); injection K; congruence). destruct (ki_cur _ _ Hu' p Cu) as [Hlt Ha].
  assert (Vu : pr_vmas (getp p u) = pr_vmas (getp p s)).
  { pose proof (pstep_getp _ _ p Pu) as V. injection V as _ -> _ _. pose proof (pview_getp _ _ p K) as V. by injection V as _ -> _ _. }
  unfold modp. rewrite wlp_modify. apply IH; [lia| |done|].
  - eapply kinv_unuse; try done. by rewrite Vu.
  - intros k w Hk. rewrite getp_updp_eq by (by rewrite (ki_table _ _ Hu')). cbn. rewrite Vu. destruct (decide (k = i)) as [->|].
    + rewrite list_lookup_alter_eq, Ev. by intros [= <-].
    + rewrite list_lookup_alter_ne by done. apply Hu. lia.
Qed.

Lemma close_files_kinv d n fd (p : nat) s : (n + fd = NOFILE)%nat -> kinv d s -> kr_cur s = Some p ->
  (forall k o, (k < fd)%nat -> pr_ofile (getp p s) !! k = Some o -> o = None) -> (forall v, v ∈ pr_vmas (getp p s) -> v_used v = false) ->
  wlp (close_files n fd p) (fun _ s' => kinv d s' /\ kr_cur s' = Some p /\ forall f, prefs f (getp p s') = 0) s.
Proof.
  revert fd s. induction n as [|n IH]; intros fd s Hn Hs Hc Ho Hv; cbn [close_files].
  { wlp_simp. split; [done|]. split; [done|]. intros f. unfold prefs, trefs. cbn. rewrite !zsum_zero; [done|intros v Hin; by rewrite vma_ref_is, (Hv v Hin)|].
    intros o [k Hk]%list_elem_of_lookup. rewrite (Ho k o); [done| |done]. apply lookup_lt_Some in Hk. rewrite (proj1 (ki_shape _ _ Hs p)) in Hk. lia. }
  destruct (lookup_lt_is_Some_2 (pr_ofile (getp p s)) fd) as [o Eo]; [rewrite (proj1 (ki_shape _ _ Hs p)); lia|].
  rewrite wlp_bind, wlp_gets, Eo. cbn [default from_option id]. destruct o as [f|].
  2:{ rewrite wlp_bind, wlp_ret. apply IH; [lia|done|done| |done]. intros k w Hk Hw. destruct (decide (k = fd)) as [->|]; [congruence|]. apply (Ho k); [lia|done]. }
  rewrite wlp_bind. eapply wlp_then; [by apply fileclose_kinv|]. intros ? u [Pu Hu'].
  assert (Cu : kr_cur u = Some p) by (destruct Pu as (_ & -> & _); done). destruct (ki_cur _ _ Hu' p Cu) as [Hlt Ha].
  pose proof (pstep_getp _ _ p Pu) as V. injection V as V1 V2 _ _. unfold modp. rewrite wlp_modify.
  apply IH; [lia| |done| |]; rewrite ?getp_updp_eq by (by rewrite (ki_table _ _ Hu')); cbn.
  - eapply (kinv_set_fd (dec f d)); [done|done|done|by rewrite V1|]. intros g. rewrite fd_ref_is. unfold fd_ref, dec. rewrite bool_decide_eq_false_2 by done. case_decide; lia.
  - intros k w Hk. rewrite V1. destruct (decide (k = fd)) as [->|].
    + rewrite list_lookup_insert_eq by (by apply lookup_lt_Some in Eo). by intros [= <-].
    + rewrite list_lookup_insert_ne by done. apply Ho. lia.
  - rewrite V2. done.
Qed.

Lemma kp_reparent_loop n i (p : nat) : kept (reparent_loop n i p).
Proof. revert i. induction n as [|n IH]; intros i; cbn [reparent_loop]; kp_tac. Qed.
Lemma kp_reparent (p : nat) : kept (reparent p).
Proof. apply kp_reparent_loop. Qed.
#[local] Hint Resolve kp_reparent : kview.

(** A live process without references may become a zombie and stop. *)
Lemma zombie_kinv d (p : nat) s : kinv d s -> kr_cur s = Some p -> (forall f, prefs f (getp p s) = 0) ->
  wlp (modp p (set_pr_state ZOMBIE) ;; wait_release ;; resched p) (fun _ s' => kinv d s') s.
Proof.
  intros Hs Hc Hz. destruct (ki_cur _ _ Hs p Hc) as [Hp Ha]. unfold modp. rewrite wlp_bind, wlp_modify.
  assert (Hd : kinv d (set_kr_cur None (updp p (set_pr_state ZOMBIE) s))).
  { change (kinv d (updp p (set_pr_state ZOMBIE) (set_kr_cur None s))). pose proof (kinv_no_cur _ _ Hs) as Hn. apply (kinv_updp d); try done; cbn.
    - apply (ki_shape _ _ Hn).
    - apply (ki_shape _ _ Hn).
    - intros _. change (getp p (set_kr_cur None s)) with (getp p s). by rewrite Ha. }
  eapply wlp_keeps; [kp_tac|intros ? t K]. apply resched_kinv. eapply kinv_kstep; [exact (kstep_no_cur _ _ K)|done].
Qed.

Lemma kexit_kinv d st s : kinv d s -> wlp (kexit st) (fun _ s' => kinv d s') s.
Proof.
  intros Hs. unfold kexit. rewrite wlp_bind. apply wlp_myproc. intros p Hp. rewrite wlp_bind, wlp_gets. destruct (bool_decide _); [done|].
  eapply wlp_then; [apply (exit_vmas_kinv d); [done|done|done|intros; lia]|]. intros ? t (Ht & Ct & Vt).
  eapply wlp_then; [apply (close_files_kinv d); [done|done|done|intros; lia|done]|]. intros ? u (Hu & Cu & Zu).
  clear Hs Hp s Ht Ct Vt t. eapply wlp_keeps; [kp_tac|intros ? ? ?]. eapply wlp_keeps; [kp_tac|intros ? ? ?]. do 7 (eapply wlp_keeps; [kp_tac|intros ? ? ?]).
  assert (K : kstep u s'7) by (do 8 (eapply kstep_trans; [eassumption|]); done). apply zombie_kinv; [exact (kinv_kstep _ _ _ K Hu)|injection K; congruence|].
  pose proof (pview_getp _ _ p K) as V. injection V as V1 V2 _ _. intros f. unfold prefs. rewrite V1, V2. apply Zu.
Qed.

(** * wait *)

Lemma kwait_scan_kinv d n i (p : nat) addr hk s : (n + i = NPROC)%nat -> kinv d s -> wlp (kwait_scan n i p addr hk) (fun _ s' => kinv d s') s.
Proof.
  revert i hk s. induction n as [|n IH]; intros i hk s Hn Hs; cbn [kwait_scan]; [done|]. rewrite wlp_bind, wlp_gets. change (id s) with s.
  destruct (bool_decide _); [|apply IH; [lia|done]]. eapply wlp_keeps; [kp_tac|intros ? t Kt]. pose proof (kinv_kstep _ _ _ Kt Hs) as Ht. rewrite wlp_bind, wlp_gets.
  case_bool_decide as Ez; [|clear Hs Kt Ez; kinv_step; apply IH; [lia|done]].
  eapply wlp_keeps; [kp_tac|intros r u Ku]. pose proof (kinv_kstep _ _ _ Ku Ht) as Hu. clear Kt Hs. destruct (r <? 0); [clear Ht Ku; kinv_tac|].
  pose proof (pview_getp _ _ i Ku) as V. injection V as V1 V2 V3 V4. eapply wlp_then; [apply freeproc_kinv; [exact Hu|lia| |]|].
  - intros Hc. destruct (ki_cur _ _ Hu i Hc) as [_ Ha]. by rewrite V4, Ez in Ha.
  - intros f. apply (ki_idle _ _ Hu). by rewrite V4, Ez.
  - intros ? w [Hw _]. clear -Hw. kinv_tac.
Qed.

Lemma kwait_kinv d addr s : kinv d s -> wlp (kwait addr) (fun _ s' => kinv d s') s.
Proof.
  intros Hs. unfold kwait. do 2 kinv_step. eapply wlp_then; [apply kwait_scan_kinv; [lia|done]|]. clear Hs s. intros o s Hs. destruct o as [r|hk]; [done|].
  kinv_step. destruct a1; [kinv_tac|]. eapply wlp_then; [apply sleep_kinv; [kp_tac|done]|]. done.
Qed.
End life.
