(* ===== verification/KInvTrap.v ===== *)
(** The invariant of KInv across a whole trap: system calls, page faults and
    interrupts, as usertrap() handles them. *)
From S2P Require Import Prelude Mem Str Kalloc Vm UserMem Pipe Bio Bytes Blocks Fs Usys Uprintf Kern Sched KernSpec File ProcLife Sysfile Exec Sysproc Trap.
From S2P Require Import KInv KInvOps KInvCalls KInvProc.

Section trap.
Context {B D : Type} `{BK : Blocks B} `{L : Layout} `{DV : Devices D}.
Context (forkret : Z).
Implicit Types (s : kern B D) (d : nat -> Z).
Local Abbreviation kept := (keeps (B:=B) (D:=D)).
#[local] Hint Resolve kp_argint kp_argaddr kp_argstr : kview.
#[local] Hint Resolve kp_sys_fstat kp_sys_link kp_sys_unlink kp_sys_mkdir kp_sys_mknod kp_sys_chdir kp_sys_exec : kview.

Lemma kp_growproc n : kept (growproc n).
Proof. unfold growproc. kp_tac. Qed.
#[local] Hint Resolve kp_growproc : kview.
Lemma kp_sys_sbrk : kept sys_sbrk.
Proof. unfold sys_sbrk. kp_tac. Qed.
Lemma kp_sys_kill : kept sys_kill.
Proof. unfold sys_kill. kp_tac. Qed.
Lemma kp_sys_getpid : kept sys_getpid.
Proof. unfold sys_getpid. kp_tac. Qed.
Lemma kp_sys_getpfcount : kept sys_getpfcount.
Proof. unfold sys_getpfcount. kp_tac. Qed.
Lemma kp_sys_uptime : kept sys_uptime.
Proof. unfold sys_uptime. kp_tac. Qed.
Lemma kp_sys_hello : kept sys_hello.
Proof. unfold sys_hello. kp_tac. Qed.
Lemma kp_sys_trace : kept sys_trace.
Proof. unfold sys_trace. kp_tac. Qed.
Lemma kp_sys_mapzero : kept sys_mapzero.
Proof. unfold sys_mapzero. kp_tac. Qed.
Lemma kp_sys_map_ro : kept sys_map_ro.
Proof. unfold sys_map_ro. kp_tac. Qed.
Lemma kp_vmprint_indent n : kept (vmprint_indent n).
Proof. induction n as [|n IH]; cbn [vmprint_indent]; kp_tac. Qed.
Lemma kp_vmprint_flags e : kept (vmprint_flags e).
Proof. unfold vmprint_flags, flag_char. kp_tac. Qed.
#[local] Hint Resolve kp_vmprint_indent kp_vmprint_flags : kview.
Lemma kp_vmprint_entries child lv n pt i : (forall a, kept (child a)) -> kept (vmprint_entries child lv n pt i).
Proof. intros Hc. revert i. induction n as [|n IH]; intros i; cbn [vmprint_entries]; kp_tac. Qed.
Lemma kp_vmprint_level depth pt lv : kept (vmprint_level depth pt lv).
Proof. revert pt lv. induction depth as [|depth IH]; intros pt lv; cbn [vmprint_level]; [kp_tac|]. apply kp_vmprint_entries. intros a. apply IH. Qed.
#[local] Hint Resolve kp_vmprint_level : kview.
Lemma kp_sys_dumpvm : kept sys_dumpvm.
Proof. unfold sys_dumpvm, vmprint. kp_tac. Qed.
#[local] Hint Resolve kp_sys_sbrk kp_sys_kill kp_sys_getpid kp_sys_getpfcount kp_sys_uptime kp_sys_hello kp_sys_trace
  kp_sys_mapzero kp_sys_map_ro kp_sys_dumpvm : kview.

Lemma sys_pause_kinv d t0 s : kinv d s -> wlp (sys_pause t0) (fun _ s' => kinv d s') s.
Proof.
  intros Hs. unfold sys_pause. kinv_tac. eapply wlp_then; [apply sleep_kinv; [kp_tac|done]|]. done.
Qed.

(** * System calls *)

Lemma plain_call_kinv d (m : M (kern B D) Z) s : wlp m (fun _ s' => kinv d s') s -> wlp (plain_call m) (fun _ s' => kinv d s') s.
Proof. intros H. unfold plain_call. eapply wlp_then; [exact H|]. done. Qed.
Lemma seg_call_kinv d (m : M (kern B D) seg_res) s : wlp m (fun _ s' => kinv d s') s -> wlp (seg_call m) (fun _ s' => kinv d s') s.
Proof. intros H. unfold seg_call. eapply wlp_then; [exact H|]. done. Qed.

(** Every entry of the table of system calls keeps the invariant. *)
Lemma syscalls_kinv num k call s : syscalls forkret num k = Some call -> kinv none s -> kr_nextpid s < 2 ^ 31 - 1 ->
  wlp call (fun _ s' => kinv none s') s.
Proof.
  intros Hc Hs Hn. unfold syscalls in Hc.
  repeat match type of Hc with match ?x with _ => _ end = _ => destruct x; try discriminate Hc end; injection Hc as <-;
    first [apply plain_call_kinv | apply seg_call_kinv | idtac];
    first [solve [apply kp_kinv; [auto with kview nocore|exact Hs]] | idtac].
  - by apply sys_open_kinv.
  - by apply sys_munmap_kinv.
  - by apply sys_close_kinv.
  - by apply sys_pause_kinv.
  - by apply sys_read_kinv.
  - clear Hn. unfold sys_wait. kinv_step. by apply kwait_kinv.
  - by apply sys_dup_kinv.
  - by apply sys_mmap_kinv.
  - by apply sys_write_kinv.
  - by apply sys_pipe_kinv.
  - clear Hn. unfold sys_exit. eapply wlp_then; [kinv_step; by apply kexit_kinv|]. done.
  - by apply kfork_kinv.
Qed.

Lemma kp_strace i num : kept (strace i num).
Proof. unfold strace. kp_tac. Qed.
Lemma kp_set_a0 i v : kept (set_a0 i v).
Proof. unfold set_a0. kp_tac. Qed.
#[local] Hint Resolve kp_strace kp_set_a0 : kview.

Lemma syscall_kinv k s : kinv none s -> kr_nextpid s < 2 ^ 31 - 1 -> wlp (syscall forkret k) (fun _ s' => kinv none s') s.
Proof.
  intros Hs Hn. unfold syscall. eapply wlp_keeps; [kp_tac|intros i t1 K1]. eapply wlp_keeps; [kp_tac|intros p t2 K2].
  eapply wlp_keeps; [kp_tac|intros a7 t3 K3]. pose proof (kstep_trans _ _ _ (kstep_trans _ _ _ K1 K2) K3) as K. cbv zeta.
  destruct (if (0 <? s32 a7) && (s32 a7 <? 30) then syscalls forkret (s32 a7) k else None) as [call|] eqn:E.
  2:{ pose proof (kinv_kstep _ _ _ K Hs) as H3. clear -H3. kinv_tac. }
  destruct (_ && _); [|done]. eapply wlp_keeps; [kp_tac|intros ? t K4]. pose proof (kstep_trans _ _ _ K K4) as Kt.
  eapply wlp_then; [eapply syscalls_kinv; [exact E|exact (kinv_kstep _ _ _ Kt Hs)|injection Kt; lia]|]. intros r w Hw. cbv beta in Hw. clear -Hw. kinv_tac.
Qed.

(** * Page faults *)

Lemma kp_mmap_fault i va : kept (mmap_fault i va).
Proof. unfold mmap_fault, bump_pf. kp_tac. Qed.
Lemma kp_vregion_fault i va : kept (vregion_fault i va).
Proof. unfold vregion_fault, bump_pf. kp_tac. Qed.
#[local] Hint Resolve kp_mmap_fault kp_vregion_fault : kview.
Lemma kp_pagefault i sc va : kept (pagefault i sc va).
Proof. unfold pagefault, bump_pf. kp_tac. Qed.

(** * Interrupts *)

Lemma kp_clockintr : kept clockintr.
Proof. unfold clockintr. kp_tac. Qed.
#[local] Hint Resolve kp_clockintr kp_pagefault : kview.
Lemma kp_devintr u v sc irq : keeps u -> keeps v -> kept (devintr u v sc irq).
Proof. intros Hu Hv. unfold devintr. kp_tac. Qed.

Lemma usertrap_end_kinv d i w s : kinv d s -> wlp (usertrap_end i w) (fun _ s' => kinv d s') s.
Proof. intros Hs. unfold usertrap_end. kinv_tac; [by apply kexit_kinv|by apply yield_kinv]. Qed.

Lemma usertrap_kinv u v sc st se irq s : keeps u -> keeps v -> kinv none s -> kr_nextpid s < 2 ^ 31 - 1 ->
  wlp (usertrap forkret u v sc st se irq) (fun _ s' => kinv none s') s.
Proof.
  intros Ku Kv Hs Hn. unfold usertrap. eapply wlp_keeps; [kp_tac|intros i t1 K1]. eapply wlp_keeps; [kp_tac|intros p t2 K2].
  eapply wlp_keeps; [kp_tac|intros ? t3 K3]. pose proof (kstep_trans _ _ _ (kstep_trans _ _ _ K1 K2) K3) as K. pose proof (kinv_kstep _ _ _ K Hs) as H3.
  destruct (sc =? 8).
  - eapply wlp_keeps; [kp_tac|intros k t4 K4]. pose proof (kstep_trans _ _ _ K K4) as K'. destruct k; [apply kexit_kinv; exact (kinv_kstep _ _ _ K' Hs)|].
    eapply wlp_keeps; [kp_tac|intros ? t K5]. pose proof (kstep_trans _ _ _ K' K5) as Kt.
    eapply wlp_then; [apply syscall_kinv; [exact (kinv_kstep _ _ _ Kt Hs)|injection Kt; lia]|]. intros r w Hw. destruct r; [by apply usertrap_end_kinv|done|done].
  - clear K K1 K2 K3 Hs Hn. apply (wlp_kinv _ _ none _ _ H3); [by apply kp_devintr|]. intros w t Ht. clear H3. destruct (negb _); [by apply usertrap_end_kinv|].
    destruct (_ || _); kinv_tac; by apply usertrap_end_kinv.
Qed.
End trap.
