(* ===== verification/SchedProps.v ===== *)
(** The properties of the scheduler, of wakeup() and of kill(), and of the
    protocol by which sleep() and wakeup() never lose a wakeup. *)
From S2P Require Import Prelude Mem Kalloc Vm UserMem Pipe Blocks Fs Uprintf Kern Sched KernSpec LogProps BCache Log.

(** * sleep() and wakeup(), one lock operation at a time

    One process calls sleep() while a condition does not hold, and any number
    of others make the condition true and call wakeup(), all under the
    condition lock [lk].  The states name the points between the lock
    operations of the two functions. *)

Inductive spc : Type :=
| SOut      (** about to acquire(lk) *)
| SCheck    (** holds lk; tests the condition *)
| SWant     (** in sleep(): about to acquire(&p->lock) *)
| SHave     (** holds both *)
| SRel      (** has released lk *)
| SAsleep.  (** state SLEEPING, p->lock released by the scheduler *)
Inductive wpc : Type :=
| WOut      (** about to acquire(lk) *)
| WLk       (** holds lk *)
| WSet      (** has made the condition true; in wakeup(), about to acquire(&p->lock) *)
| WHave     (** holds p->lock too *)
| WDone.    (** has released p->lock; still holds lk *)

Inductive owner : Type := Nobody | Sleeper | Waker (i : nat).

Record sw : Type := Sw { sw_lk : owner; sw_plock : owner; sw_cond : bool; sw_asleep : bool; sw_s : spc; sw_w : nat -> wpc }.

Definition set_w (i : nat) (pc : wpc) (w : nat -> wpc) : nat -> wpc := fun j => if decide (j = i) then pc else w j.

Inductive sw_step : sw -> sw -> Prop :=
| s_acquire p c a w : sw_step (Sw Nobody p c a SOut w) (Sw Sleeper p c a SCheck w)
| s_true lk p a w : sw_step (Sw lk p true a SCheck w) (Sw Nobody p false a SOut w)
| s_false lk p a w : sw_step (Sw lk p false a SCheck w) (Sw lk p false a SWant w)
| s_plock lk c a w : sw_step (Sw lk Nobody c a SWant w) (Sw lk Sleeper c a SHave w)
| s_release lk p c a w : sw_step (Sw lk p c a SHave w) (Sw Nobody p c a SRel w)
| s_sleep lk p c a w : sw_step (Sw lk p c a SRel w) (Sw lk Nobody c true SAsleep w)
| s_resume lk p c w : sw_step (Sw lk p c false SAsleep w) (Sw lk p c false SOut w)
| w_acquire p c a s w i : w i = WOut -> sw_step (Sw Nobody p c a s w) (Sw (Waker i) p c a s (set_w i WLk w))
| w_set lk p c a s w i : w i = WLk -> sw_step (Sw lk p c a s w) (Sw lk p true a s (set_w i WSet w))
| w_plock lk c a s w i : w i = WSet -> sw_step (Sw lk Nobody c a s w) (Sw lk (Waker i) c a s (set_w i WHave w))
| w_wake lk p c a s w i : w i = WHave -> sw_step (Sw lk p c a s w) (Sw lk Nobody c false s (set_w i WDone w))
| w_release lk p c a s w i : w i = WDone -> sw_step (Sw lk p c a s w) (Sw Nobody p c a s (set_w i WOut w)).

Definition sw_start : sw := Sw Nobody Nobody false false SOut (fun _ => WOut).

Definition s_has_lk (pc : spc) : bool := match pc with SCheck | SWant | SHave => true | _ => false end.
Definition s_has_plock (pc : spc) : bool := match pc with SHave | SRel => true | _ => false end.
Definition w_has_lk (pc : wpc) : bool := match pc with WOut => false | _ => true end.
Definition w_waking (pc : wpc) : bool := match pc with WSet | WHave => true | _ => false end.

Record sw_inv (x : sw) : Prop := {
  si_s_lk : s_has_lk (sw_s x) = true -> sw_lk x = Sleeper;
  si_w_lk i : w_has_lk (sw_w x i) = true -> sw_lk x = Waker i;
  si_s_pl : s_has_plock (sw_s x) = true -> sw_plock x = Sleeper;
  si_w_pl i : sw_w x i = WHave -> sw_plock x = Waker i;
  si_cond : sw_s x = SWant \/ sw_s x = SHave -> sw_cond x = false;
  si_wake : sw_s x = SRel \/ (sw_s x = SAsleep /\ sw_asleep x = true) -> sw_cond x = true -> exists i, w_waking (sw_w x i) = true
}.

Lemma set_w_eq i pc w : set_w i pc w i = pc.
Proof. unfold set_w. by rewrite decide_True. Qed.

(** A waker's step keeps the other wakers. *)
Lemma set_w_cases (P : wpc -> Prop) i pc w j : P (set_w i pc w j) -> (j = i /\ P pc) \/ (j <> i /\ P (w j)).
Proof. unfold set_w. case_decide; auto. Qed.
Lemma waking_other i pc w : (exists j, w_waking (w j) = true) -> w_waking (w i) = false -> exists j, w_waking (set_w i pc w j) = true.
Proof.
  intros [j Hj] Hi. exists j. unfold set_w. case_decide as E; [|done]. subst. congruence.
Qed.

(** What a waker at [i] owns, when the others' positions do not change. *)
Lemma w_lk_set lk w i pc : (forall j, w_has_lk (w j) = true -> lk = Waker j) -> lk = Waker i ->
  forall j, w_has_lk (set_w i pc w j) = true -> lk = Waker j.
Proof. intros H Hi j Hj. apply (set_w_cases (fun c => w_has_lk c = true)) in Hj as [[-> _]|[_ Hj]]; auto. Qed.
Lemma w_pl_set p w i pc : (forall j, w j = WHave -> p = Waker j) -> (pc = WHave -> p = Waker i) ->
  forall j, set_w i pc w j = WHave -> p = Waker j.
Proof. intros H Hi j Hj. apply (set_w_cases (fun c => c = WHave)) in Hj as [[-> E]|[_ Hj]]; auto. Qed.

(** The cases that follow from the owners of the locks or from the position of the sleeper. *)
Ltac fin I2 I4 := try done; try (by intros ? H; specialize (I2 _ H)); try (by intros ? H; specialize (I4 _ H)); try (by intros [|]); try (by intros [|[]]).

Lemma sw_step_inv x y : sw_step x y -> sw_inv x -> sw_inv y.
Proof.
  intros Hs [I1 I2 I3 I4 I5 I6].
  destruct Hs as [p c a w|lk p a w|lk p a w|lk c a w|lk p c a w|lk p c a w|lk p c w|p c a s w i Hi|lk p c a s w i Hi|lk c a s w i Hi|lk p c a s w i Hi|lk p c a s w i Hi];
    cbn in *.
  - split; cbn; fin I2 I4.
  - specialize (I1 eq_refl). subst lk. split; cbn; fin I2 I4.
  - specialize (I1 eq_refl). subst lk. split; cbn; fin I2 I4.
  - specialize (I1 eq_refl). subst lk. split; cbn; fin I2 I4. intros _. apply I5. by left.
  - specialize (I1 eq_refl). subst lk. split; cbn; fin I2 I4. intros _ Hc. rewrite I5 in Hc by auto. done.
  - specialize (I3 eq_refl). subst p. split; cbn; fin I2 I4. intros _. apply I6. by left.
  - split; cbn; fin I2 I4.
  - split; cbn; try done.
    + intros H. by specialize (I1 H).
    + apply w_lk_set; [|done]. intros j Hj. by specialize (I2 j Hj).
    + by apply w_pl_set.
    + intros H Hc. apply waking_other; [by apply I6|]. by rewrite Hi.
  - assert (Hlk : lk = Waker i) by (apply I2; by rewrite Hi). subst lk. split; cbn; try done.
    + by apply w_lk_set.
    + by apply w_pl_set.
    + intros H. assert (s_has_lk s = true) as E by (by destruct H as [-> | ->]). by specialize (I1 E).
    + intros _ _. exists i. by rewrite set_w_eq.
  - assert (Hlk : lk = Waker i) by (apply I2; by rewrite Hi). subst lk. split; cbn; try done.
    + by apply w_lk_set.
    + intros H. by specialize (I3 H).
    + apply w_pl_set; [|done]. intros j Hj. by specialize (I4 j Hj).
    + intros _ _. exists i. by rewrite set_w_eq.
  - assert (Hlk : lk = Waker i) by (apply I2; by rewrite Hi). assert (Hpl : p = Waker i) by (by apply I4). subst lk p. split; cbn; try done.
    + by apply w_lk_set.
    + intros H. by specialize (I3 H).
    + intros j Hj. apply (set_w_cases (fun c => c = WHave)) in Hj as [[-> E]|[Hne Hj]]; [done|]. specialize (I4 j Hj). congruence.
    + intros [->|[_ E]] Hc; [|done]. specialize (I3 eq_refl). done.
  - assert (Hlk : lk = Waker i) by (apply I2; by rewrite Hi). subst lk. split; cbn; try done.
    + intros H. by specialize (I1 H).
    + intros j Hj. apply (set_w_cases (fun c => w_has_lk c = true)) in Hj as [[-> E]|[Hne Hj]]; [done|]. specialize (I2 j Hj). congruence.
    + by apply w_pl_set.
    + intros H Hc. apply waking_other; [by apply I6|]. by rewrite Hi.
Qed.

Lemma sw_start_inv : sw_inv sw_start.
Proof. split; cbn; try done; try (by intros [|]); by intros [|[]]. Qed.


(** The sleeper goes to sleep and a waker makes the condition true. *)
Definition sw_demo : sw := Sw (Waker 0) Nobody true true SAsleep (set_w 0 WSet (set_w 0 WLk (fun _ => WOut))).

(** * The process table *)

Section props.
Context {B D : Type}.
Implicit Types s : kern B D.

(** wakeup(chan) makes runnable exactly the processes, other than the caller,
    that sleep on chan, and changes nothing else. *)
Theorem wakeup_correct ch s : table s -> others_free s ->
  wp (wakeup ch) (fun _ s' => set_kr_proc [] s' = set_kr_proc [] s /\ length (kr_proc s') = length (kr_proc s) /\
    forall i, (i < NPROC)%nat -> getp i s' =
      if bool_decide (kr_cur s <> Some i /\ pr_state (getp i s) = SLEEPING /\ pr_chan (getp i s) = Some ch)
      then set_pr_state RUNNABLE (getp i s) else getp i s) s.
Proof.
  intros Ht Hf. eapply wp_mono; [by apply wakeup_spec|]. intros ? s' (H1 & H2 & H3). split; [done|]. split; [done|].
  intros i Hi. rewrite H3 by (by rewrite Ht). unfold wake. repeat case_bool_decide; naive_solver.
Qed.

(** kill(pid) marks the first process with that pid as killed, and makes it
    runnable if it sleeps, so that it sees the mark; it fails, changing nothing,
    exactly when no process has that pid. *)
Theorem kkill_correct pid s : table s -> all_free s ->
  wp (kkill pid) (fun r s' =>
    (r = 0 /\ exists i, (i < NPROC)%nat /\ pr_pid (getp i s) = pid /\ (forall k, (k < i)%nat -> pr_pid (getp k s) <> pid) /\
      (forall k, k <> i -> getp k s' = getp k s) /\ pr_killed (getp i s') = true /\
      pr_state (getp i s') = (if bool_decide (pr_state (getp i s) = SLEEPING) then RUNNABLE else pr_state (getp i s))) \/
    (r = -1 /\ s' = s /\ forall i, (i < NPROC)%nat -> pr_pid (getp i s) <> pid)) s.
Proof.
  intros Ht Hf. apply kkill_loop_spec; [done|done|lia| |].
  - intros j Hj Hp Hk. left. split; [done|]. exists j. split; [lia|]. split; [done|]. split; [intros k Hkj; apply Hk; lia|].
    split; [intros k Hne; by apply getp_updp_ne|]. rewrite getp_updp_eq by (rewrite Ht; lia). unfold doom. by case_bool_decide.
  - intros H. right. split; [done|]. split; [done|]. intros i Hi. apply H. lia.
Qed.

(** kill(0) succeeds and marks a free slot of the process table: when a slot is
    unused (its pid is 0), kill(0) returns 0 and sets the killed flag of the first
    such slot, a flag that allocproc() does not clear. *)
Theorem kill_zero_marks_free_slot s i : table s -> all_free s -> (i < NPROC)%nat ->
  pr_state (getp i s) = UNUSED -> pr_pid (getp i s) = 0 -> (forall k, (k < i)%nat -> pr_pid (getp k s) <> 0) ->
  wp (kkill 0) (fun r s' => r = 0 /\ pr_state (getp i s') = UNUSED /\ pr_killed (getp i s') = true) s.
Proof.
  intros Ht Hf Hi Hu Hp Hk. apply kkill_loop_spec; [done|done|lia| |].
  - intros j Hj Hpj Hmin. assert (j = i) as ->.
    { destruct (Nat.lt_trichotomy j i) as [H|[H|H]]; [by destruct (Hk j H)|done|]. destruct (Hmin i ltac:(lia) Hp). }
    split; [done|]. rewrite getp_updp_eq by (rewrite Ht; lia). unfold doom. rewrite Hu. done.
  - intros H. by destruct (H i ltac:(lia)).
Qed.


End props.

(** * Examples *)

Definition sleeper : proc := set_pr_chan (Some ChanTicks) (set_pr_pid 7 (set_pr_state SLEEPING proc0)).
Definition ready : proc := set_pr_pid 8 (set_pr_state RUNNABLE proc0).
(** A process that sleeps, one that is ready, and free slots. *)
Definition demo_kern : kern unit unit :=
  Kern (Fsst tt (Mach ∅ Free 0) (Superblock 0 0 0 0 0 0 0 0) Free []) tt Free [] ∅ (sleeper :: ready :: replicate 62 proc0)
    Free Free 9 None None Free 0.

Lemma demo_kern_table : table demo_kern.
Proof. reflexivity. Qed.
Lemma demo_kern_free : all_free demo_kern.
Proof.
  assert (H : forallb (fun p => bool_decide (pr_lock p = Free)) (kr_proc demo_kern) = true) by (vm_compute; reflexivity).
  intros i Hi. rewrite forallb_forall in H. specialize (H (getp i demo_kern)). apply bool_decide_eq_true in H; [done|].
  apply list_elem_of_In. eapply list_elem_of_lookup_2, lookup_getp. by rewrite demo_kern_table.
Qed.

Lemma wakeup_correct_witness : wp (wakeup ChanTicks) (fun _ s' => pr_state (getp 0 s') = RUNNABLE) demo_kern.
Proof.
  eapply wp_mono; [apply (wakeup_correct ChanTicks demo_kern demo_kern_table)|].
  - intros i Hi _. by apply demo_kern_free.
  - intros ? s' (_ & _ & H). rewrite (H 0%nat ltac:(unfold NPROC; lia)). reflexivity.
Defined.

Lemma kkill_correct_witness : wp (kkill 7) (fun r _ => r = 0) demo_kern.
Proof.
  eapply wp_mono; [apply (kkill_correct 7 demo_kern demo_kern_table demo_kern_free)|]. intros r s' [[H _]|(_ & _ & H)]; [done|].
  destruct (H 0%nat); [unfold NPROC; lia|reflexivity].
Defined.

Lemma kill_zero_marks_free_slot_witness : wp (kkill 0) (fun r s' => r = 0 /\ pr_state (getp 2 s') = UNUSED /\ pr_killed (getp 2 s') = true) demo_kern.
Proof.
  apply (kill_zero_marks_free_slot demo_kern 2 demo_kern_table demo_kern_free); [unfold NPROC; lia|reflexivity|reflexivity|].
  intros [|[|k]] Hk; [vm_compute; discriminate..|lia].
Defined.

(** A process that yields at once. *)
Definition yields (i : nat) : M (kern unit unit) unit :=
  modp i (set_pr_state RUNNABLE) ;; modify (set_kr_cur None) ;; p_release i.

Lemma yields_ok : run_ok yields.
Proof.
  intros i s Hi (Ht & Hc & Hl & Hst & Hf). unfold yields, modp. wp_simp. assert (Hlen : (i < length (kr_proc s))%nat) by (by rewrite Ht).
  apply wp_p_release; [change (pr_lock (getp i (updp i (set_pr_state RUNNABLE) s)) = Mine); by rewrite getp_updp_eq|].
  set (s' := updp i (set_pr_lock Free) (set_kr_cur None (updp i (set_pr_state RUNNABLE) s))).
  assert (Gi : getp i s' = set_pr_lock Free (set_pr_state RUNNABLE (getp i s))).
  { unfold s'. rewrite getp_updp_eq by (cbn; by rewrite length_alter). f_equal. exact (getp_updp_eq i (set_pr_state RUNNABLE) s Hlen). }
  assert (Gj : forall j, j <> i -> getp j s' = getp j s).
  { intros j Hj. unfold s'. rewrite getp_updp_ne by done. exact (getp_updp_ne i j (set_pr_state RUNNABLE) s (not_eq_sym Hj)). }
  split; [unfold table, s'; rewrite length_updp; cbn; by rewrite length_alter|]. split; [done|]. split.
  - intros j Hj. destruct (decide (j = i)) as [->|Hne]; [by rewrite Gi|]. rewrite Gj by done. by apply Hf.
  - intros j Hne. by rewrite Gj.
Qed.

