(* ===== verification/KernProps.v ===== *)
(** The invariant of the process and file tables over every run of the
    kernel: boot, traps, switches, in any order. *)
From S2P Require Import Prelude Mem Str Kalloc Vm VmProps UserMem Pipe Bio BCache Log LogSpec LogProps Bytes Blocks Fs Usys Uprintf Kern Sched KernSpec File ProcLife Sysfile Exec Sysproc Trap.
From S2P Require Import KInv KInvOps KInvCalls KInvProc KInvTrap SchedProps.

Section props.
Context {B D : Type} `{BK : Blocks B} `{L : Layout} `{DV : Devices D}.
(** forkret's address, and the interrupt handlers of the two devices. *)
Context (forkret : Z) (uartintr diskintr : M (kern B D) unit).
Implicit Types s : kern B D.

(** * Runs of the kernel *)

(** The tables as the boot code finds them: zeroed memory. *)
Definition zeroed s : Prop :=
  kr_proc s = replicate NPROC proc0 /\ kr_file s = replicate NFILE file0 /\ kr_cur s = None /\ kr_nextpid s = 1.
(** The scheduler takes up a process that is RUNNABLE, and holds its lock. *)
Definition switch_to (i : nat) : M (kern B D) unit :=
  p_acquire i ;;
  let! s := gets id in
  if bool_decide (pr_state (getp i s) = RUNNABLE) then modp i (set_pr_state RUNNING) ;; modify (set_kr_cur (Some i))
  else block.
(** A process preempted in yield() goes on, and returns to its program. *)
Definition resume_user (i : nat) : M (kern B D) unit := switch_to i ;; p_release i.
(** A process that slept in a system call goes on with it. *)
Definition resume_call (i : nat) (k : option Z) : M (kern B D) unit :=
  switch_to i ;; sleep_tail (ret tt) ;;
  let! r := syscall forkret k in
  match r with Returned _ => usertrap_end i 0 | Sleeping _ | Gone => ret tt end.

(** One step of a CPU that runs alone; process ids have not run out. *)
Inductive kernel_step s : kern B D -> Prop :=
| step_trap scause stval sepc irq s' : usertrap forkret uartintr diskintr scause stval sepc irq s = Ok tt s' -> kernel_step s s'
| step_user i s' : (i < NPROC)%nat -> kr_cur s = None -> resume_user i s = Ok tt s' -> kernel_step s s'
| step_call i k s' : (i < NPROC)%nat -> kr_cur s = None -> resume_call i k s = Ok tt s' -> kernel_step s s'.
Inductive reachable : kern B D -> Prop :=
| reach_boot s0 s1 s : zeroed s0 -> procinit s0 = Ok tt s1 -> userinit forkret s1 = Ok tt s -> reachable s
| reach_step s s' : reachable s -> kr_nextpid s < 2 ^ 31 - 1 -> kernel_step s s' -> reachable s'.

(** ** Boot *)

Lemma kp_procinit_loop n i s : kinv none s -> (n + i = NPROC)%nat -> kr_cur s = None -> (forall j, pr_state (getp j s) = UNUSED) ->
  wlp (procinit_loop n i) (fun _ s' => kinv none s' /\ kr_cur s' = None /\ kr_nextpid s' = kr_nextpid s) s.
Proof.
  revert i s. induction n as [|n IH]; intros i s Hs Hn Hc Hu; cbn [procinit_loop]; [done|]. unfold modp. rewrite !wlp_bind, !wlp_modify.
  rewrite wlp_bind, wlp_modify, wlp_bind, wlp_modify. rewrite !updp_updp. set (t := updp i _ s).
  assert (K : kstep s t) by (apply kstep_updp_at; unfold pview; cbn; by rewrite Hu).
  eapply wlp_mono; [apply (IH (S i) t); [exact (kinv_kstep _ _ _ K Hs)|lia|done|]|done]. intros j. unfold t. destruct (decide (j = i)) as [->|].
  - rewrite getp_updp_eq by (rewrite (ki_table _ _ Hs); lia). done.
  - by rewrite getp_updp_ne.
Qed.

Lemma zeroed_kinv s : zeroed s -> kinv none s.
Proof.
  intros (Hp & Hf & Hc & Hn). assert (G : forall i, getp i s = proc0).
  { intros i. unfold getp. rewrite Hp. destruct (replicate NPROC proc0 !! i) eqn:E; [|done]. by apply lookup_replicate in E as [-> _]. }
  assert (Z : forall f, prefs f proc0 = 0) by (intros f; reflexivity).
  split; try (intros; rewrite ?G in *; done).
  - unfold table. by rewrite Hp, length_replicate.
  - by rewrite Hf, length_replicate.
  - intros f. assert (refs f s = 0) as ->. { unfold refs. rewrite Hp. apply zsum_zero. intros p [-> _]%elem_of_replicate. apply Z. }
    unfold getf. rewrite Hf. destruct (replicate NFILE file0 !! f) eqn:E; [|done]. by apply lookup_replicate in E as [-> _].
  - congruence.
Qed.

Lemma userinit_kinv s : kinv none s -> 0 < kr_nextpid s < 2 ^ 31 - 1 -> wlp (userinit forkret) (fun _ s' => kinv none s') s.
Proof.
  intros Hs Hn. unfold userinit. eapply wlp_then; [by apply allocproc_kinv|]. intros [p|] t (Ht & Ct & Ft); [|done].
  do 4 (eapply wlp_keeps; [kp_tac|intros ? ? ?]). assert (K : kstep t s'2) by (do 3 (eapply kstep_trans; [eassumption|]); done).
  pose proof (fresh_kstep _ _ _ _ Ft K) as (_ & _ & Ha & _). pose proof (kinv_kstep _ _ _ K Ht) as H2'. unfold modp. rewrite wlp_bind, wlp_modify.
  assert (K1 : kstep s'2 (updp p (set_pr_state RUNNABLE) s'2)) by (apply kstep_updp_at; unfold pview; cbn; by rewrite Ha).
  apply kp_kinv; [kp_tac|]. exact (kinv_kstep _ _ _ K1 H2').
Qed.

(** ** Switches *)

Lemma switch_to_kinv d i s : kinv d s -> (i < NPROC)%nat ->
  wlp (switch_to i) (fun _ s' => kinv d s' /\ kr_nextpid s' = kr_nextpid s) s.
Proof.
  intros Hs Hi. unfold switch_to. eapply wlp_keeps; [kp_tac|intros ? t K]. rewrite wlp_bind, wlp_gets. change (id t) with t.
  case_bool_decide as E; [|done]. unfold modp. rewrite wlp_bind, !wlp_modify. set (u := updp i _ t).
  assert (K1 : kstep t u) by (apply kstep_updp_at; unfold pview; cbn; by rewrite E).
  pose proof (kstep_trans _ _ _ K K1) as Ku. split; [|injection Ku; cbn; congruence].
  destruct (kinv_kstep _ _ _ Ku Hs) as [H1 H2 H3 H4 H5 H6 H7 H8]. split; try done. intros j [= <-]. split; [done|].
  change (class_of (pr_state (getp i u)) = Alive). unfold u. rewrite getp_updp_eq; [done|]. rewrite (ki_table _ _ (kinv_kstep _ _ _ K Hs)). done.
Qed.

Hypothesis uart_keeps : keeps uartintr.
Hypothesis disk_keeps : keeps diskintr.

Lemma kernel_step_kinv s s' : kinv none s -> kr_nextpid s < 2 ^ 31 - 1 -> kernel_step s s' -> kinv none s'.
Proof.
  intros Hs Hn [sc st se irq t E|i t Hi Hc E|i k t Hi Hc E].
  - eapply (wlp_ok _ (fun _ u => kinv none u)); [|exact E]. by apply usertrap_kinv.
  - eapply (wlp_ok _ (fun _ u => kinv none u)); [|exact E]. unfold resume_user. eapply wlp_then; [by apply switch_to_kinv|]. intros ? u [Hu _]. apply kp_kinv; [kp_tac|done].
  - eapply (wlp_ok _ (fun _ u => kinv none u)); [|exact E]. unfold resume_call. eapply wlp_then; [by apply switch_to_kinv|]. intros ? u [Hu Nu].
    eapply wlp_keeps; [unfold sleep_tail; kp_tac|intros ? v K]. eapply wlp_then; [apply syscall_kinv; [exact (kinv_kstep _ _ _ K Hu)|injection K; lia]|].
    intros r w Hw. destruct r; [by apply usertrap_end_kinv|done|done].
Qed.

Lemma boot_kinv s0 s1 s : zeroed s0 -> procinit s0 = Ok tt s1 -> userinit forkret s1 = Ok tt s -> kinv none s.
Proof.
  intros Hz H1 H2. eapply (wlp_ok _ (fun _ u => kinv none u)); [|exact H2].
  assert (H : wlp procinit (fun _ t => kinv none t /\ kr_cur t = None /\ kr_nextpid t = 1) s0).
  { unfold procinit. rewrite wlp_bind, wlp_modify, wlp_bind, wlp_modify. destruct (Hz) as (Hp & _ & Hc & Hn).
    eapply wlp_mono; [apply kp_procinit_loop; [|done|done|]|].
    - eapply kinv_kstep; [|exact (zeroed_kinv _ Hz)]. reflexivity.
    - intros j. unfold getp. cbn. rewrite Hp. destruct (replicate NPROC proc0 !! j) eqn:E; [|done]. by apply lookup_replicate in E as [-> _].
    - intros ? t (? & ? & E). split; [done|]. split; [done|]. by rewrite E. }
  destruct (wlp_ok _ _ _ _ _ H H1) as (Hk & _ & Hn). apply userinit_kinv; [done|lia].
Qed.


(** ** What it gives *)

Lemma fd_counted d i fd f s : kinv d s -> pr_ofile (getp i s) !! fd = Some (Some f) -> 1 <= refs f s.
Proof.
  intros Hs Ho. assert (Hi : (i < length (kr_proc s))%nat).
  { destruct (decide (i < length (kr_proc s))%nat) as [|Hn]; [done|]. unfold getp in Ho. rewrite (lookup_ge_None_2 (kr_proc s) i) in Ho by lia.
    change (replicate NOFILE None !! fd = Some (Some f)) in Ho. by apply lookup_replicate_1 in Ho as [? _]. }
  pose proof (refs_updp i (fun q => set_pr_ofile (<[fd := None]> (pr_ofile q)) q) f s Hi) as H. cbv beta in H.
  rewrite prefs_ofile, (zsum_insert _ _ _ _ _ Ho), fd_ref_is, decide_True in H by done.
  assert (0 <= refs f (updp i (fun q => set_pr_ofile (<[fd := None]> (pr_ofile q)) q) s)).
  { unfold refs. clear. induction (kr_proc _) as [|p l IH]; cbn; [lia|]. pose proof (prefs_bound f p). lia. }
  assert (fd_ref f None = 0) by reflexivity. unfold prefs, trefs in H. cbn [fst snd] in H. lia.
Qed.

(** A descriptor never dangles: the file it names is in the table with at
    least one reference, so that dup() of it cannot panic, and closing one of
    several references leaves the file itself as it was. *)
Theorem descriptors_never_dangle s i fd f : kinv none s -> kr_ftlock s = Free -> pr_ofile (getp i s) !! fd = Some (Some f) ->
  (f < NFILE)%nat /\
  wp (filedup f) (fun g s' => g = f /\ kr_ftlock s' = Free /\ getf f s' = set_f_ref (f_ref (getf f s) + 1) (getf f s)) s /\
  (1 < f_ref (getf f s) -> wp (fileclose f) (fun _ s' => kr_ftlock s' = Free /\ getf f s' = set_f_ref (f_ref (getf f s) - 1) (getf f s)) s).
Proof.
  intros Hs Hl Ho. pose proof (fd_counted _ _ _ _ _ Hs Ho) as Hr. pose proof (ki_refs _ _ Hs f) as Hf. unfold none in Hf. pose proof (refs_bound _ f _ Hs) as Hb.
  assert (Hlt : (f < NFILE)%nat) by (eapply in_table; [exact Hs|lia]). assert (Hlen : (f < length (kr_file s))%nat) by (by rewrite (ki_files _ _ Hs)).
  split; [done|]. split; [unfold filedup|intros Hc; unfold fileclose]; rewrite wp_bind; apply wp_lock_acquire; try done; rewrite wp_bind, wp_gets;
    change (getf f (set_kr_ftlock Mine s)) with (getf f s); rewrite (proj2 (Z.ltb_ge _ _)) by lia; unfold modf; rewrite wp_bind, wp_modify.
  - rewrite wp_bind. apply wp_lock_release; [done|]. rewrite wp_ret. split; [done|]. split; [done|].
    etransitivity; [apply (getf_updf f f _ (set_kr_ftlock Mine s)); done|]. rewrite decide_True by done. by rewrite s32_small by lia.
  - cbv zeta. rewrite (proj2 (Z.ltb_lt _ _)) by lia. apply wp_lock_release; [done|]. split; [done|].
    etransitivity; [apply (getf_updf f f _ (set_kr_ftlock Mine s)); done|]. by rewrite decide_True by done.
Qed.
End props.

(** * Examples *)

(** No console, and interrupts that do nothing. *)
#[local] Instance no_devices : Devices unit := {|
  dev_read _ := None; dev_write _ := None; dev_printf _ _ := ret tt |}.
#[local] Instance log_blocks_1 : Blocks logst := log_blocks 1.
(** Zeroed tables, six free pages, an empty disk. *)
Definition boot_kern : kern logst unit :=
  Kern (Fsst (boot_log ∅) demo_vm (Superblock 0 0 0 0 0 0 0 0) Free (replicate 50 inode0)) tt Free (replicate NFILE file0) ∅
    (replicate NPROC proc0) Free Free 1 None None Free 0.

Lemma boot_kern_runs : exists s1 s, procinit boot_kern = Ok tt s1 /\ userinit 0 s1 = Ok tt s.
Proof.
  assert (H : wp (procinit ;; userinit 0) (fun _ _ => True) boot_kern) by (vm_compute; exact I).
  rewrite wp_bind in H. apply wp_ok in H as ([] & s1 & H1 & H2). apply wp_ok in H2 as ([] & s & H2 & _). by exists s1, s.
Qed.


(** The first process opens a file. *)
Definition open_one : M (kern logst unit) Z :=
  procinit ;; userinit 0 ;; switch_to 0 ;;
  let! o := filealloc in match o with Some f => fdalloc f | None => ret (-1) end.
Lemma open_one_runs : exists s : kern logst unit,
  kinv none s /\ kr_ftlock s = Free /\ pr_ofile (getp 0 s) !! 0%nat = Some (Some 0%nat) /\ f_ref (getf 0 s) = 1.
Proof.
  assert (H : wp open_one (fun r s => r = 0 /\ kr_ftlock s = Free /\ pr_ofile (getp 0 s) !! 0%nat = Some (Some 0%nat) /\ f_ref (getf 0 s) = 1) boot_kern) by (vm_compute; done).
  apply wp_ok in H as (r & s & E & Hr & H). exists s. split; [|done]. clear H. revert Hr. eapply (wlp_ok open_one (fun r u => r = 0 -> kinv none u)); [|exact E].
  clear E s r. destruct boot_kern_runs as (s1 & s2 & H1 & H2). apply wlp_of. intros r s. unfold open_one, bind at 1. rewrite H1. unfold bind at 1. rewrite H2. intros E.
  eapply (wlp_ok _ (fun r u => r = 0 -> kinv none u)); [|exact E]. eapply wlp_then; [apply switch_to_kinv; [by apply (boot_kinv 0 boot_kern s1)|unfold NPROC; lia]|].
  intros ? t [Ht _]. eapply wlp_then; [by apply filealloc_kinv|]. intros [f|] u [_ Hu]; [|done]. destruct (kr_cur u) as [i|] eqn:Ec.
  - eapply wlp_mono; [by apply (fdalloc_kinv (inc f none) i)|]. intros z v [_ Hv] ->. eapply kinv_ext; [apply (dec_inc f)|exact Hv].
  - unfold fdalloc. rewrite wlp_bind. apply wlp_myproc. congruence.
Qed.

Lemma descriptors_never_dangle_witness : exists s : kern logst unit, wp (filedup 0) (fun g s' => g = 0%nat) s.
Proof.
  destruct open_one_runs as (s & Hs & Hl & Ho & _). exists s.
  destruct (descriptors_never_dangle s 0 0 0 Hs Hl Ho) as (_ & H & _). eapply wp_mono; [exact H|]. by intros g s' [-> _].
Defined.
