(* ===== verification/MmapProps.v ===== *)
(** The system calls that change the size and the layout of the memory of a
    process: mmap(), sbrk(). *)
From S2P Require Import Prelude Mem Kalloc Vm VmSpec VmUser VmProps UserMem Pipe Bio BCache Log LogSpec LogProps Bytes Blocks Fs Usys Uprintf Kern Sched KernSpec File ProcLife Sysfile Sysproc.
From S2P Require Import KInv KInvOps KInvCalls.

Section mmap.
Context {B D : Type} `{BK : Blocks B} `{L : Layout} `{DV : Devices D}.
Implicit Types s : kern B D.

(** The argument [n] of the system call of process [i]. *)
Definition arg (i : nat) (n : Z) s : Z := ld64 (mmem (fs_um (kr_fs s))) (pr_trapframe (getp i s) + TF_A0 + 8 * n).

Lemma wp_argraw (Q : Z -> kern B D -> Prop) i n s : kr_cur s = Some i -> 0 <= n <= 5 -> Q (arg i n s) s -> wp (argraw n) Q s.
Proof.
  intros Hc Hn HQ. unfold argraw, myproc. wp_simp. rewrite Hc. wp_simp. rewrite (proj2 (Z.leb_le 0 n)), (proj2 (Z.leb_le n 5)) by lia. cbn [andb].
  wp_simp. unfold onm, onfs. wp_simp. unfold rd64. wp_simp. change (Q (arg i n s) (set_kr_fs (set_fs_um (fs_um (kr_fs s)) (kr_fs s)) s)).
  replace (set_kr_fs _ s) with s; [done|]. destruct s as [[] ]; reflexivity.
Qed.
Lemma wp_argint (Q : Z -> kern B D -> Prop) i n s : kr_cur s = Some i -> 0 <= n <= 5 -> Q (s32 (arg i n s)) s -> wp (argint n) Q s.
Proof. intros Hc Hn HQ. unfold argint. rewrite wp_bind. by apply (wp_argraw _ i). Qed.

(** Only the process itself matters to a change. *)
Lemma updp_at i f g s : (i < length (kr_proc s))%nat -> f (getp i s) = g (getp i s) -> updp i f s = updp i g s.
Proof.
  intros Hi H. apply kern_proc_ext; [|by destruct s]. cbn. apply list_eq. intros j.
  destruct (decide (i = j)) as [<-|]; [|by rewrite !list_lookup_alter_ne]. rewrite !list_lookup_alter_eq, (lookup_getp _ _ Hi). cbn. by rewrite H.
Qed.

(** * mmap *)

Definition mm_len (i : nat) s : Z := PGROUNDUP (arg i 1 s).
Definition mm_va (i : nat) s : Z := PGROUNDUP (pr_sz (getp i s)).
(** The area that mmap() records. *)
Definition mm_area (i : nat) (f : nat) s : vma :=
  Vma true (mm_va i s) (mm_len i s) (s32 (arg i 2 s)) (s32 (arg i 3 s)) f (arg i 5 s).

(** A call of mmap() by process [i], whose descriptor argument is file [f],
    and for which entry [k] is the first free one. *)
Record mmap_call (i f k : nat) s : Prop := {
  mc_cur : kr_cur s = Some i;
  mc_proc : (i < length (kr_proc s))%nat;
  mc_len : arg i 1 s <> 0;
  mc_fd : 0 <= s32 (arg i 4 s) < Z.of_nat NOFILE /\ pr_ofile (getp i s) !! Z.to_nat (s32 (arg i 4 s)) = Some (Some f);
  mc_prot : has_flag (s32 (arg i 2 s)) PROT_WRITE && has_flag (s32 (arg i 3 s)) MAP_SHARED = true -> f_writable (getf f s) = true;
  mc_slot : exists v, find_vma (fun v => negb (v_used v)) (pr_vmas (getp i s)) 0 = Some (k, v);
  mc_lock : kr_ftlock s = Free;
  mc_file : (f < length (kr_file s))%nat;
  mc_ref : 1 <= f_ref (getf f s) < 2 ^ 31 - 1
}.

Lemma mmap_spec i f k s : mmap_call i f k s -> u64 (mm_va i s + mm_len i s) <= TRAPFRAME ->
  wp sys_mmap (fun r s' => r = mm_va i s /\
    getp i s' = set_pr_vmas (<[k := mm_area i f s]> (pr_vmas (getp i s))) (set_pr_sz (u64 (mm_va i s + mm_len i s)) (getp i s)) /\
    (forall j, j <> i -> getp j s' = getp j s) /\
    getf f s' = set_f_ref (f_ref (getf f s) + 1) (getf f s) /\ (forall g, g <> f -> getf g s' = getf g s)) s.
Proof.
  intros [Hc Hi Hl [Hfd Ho] Hp [v Hv] Hlk Hf Hr] Hw. unfold sys_mmap, argaddr. wp_simp. unfold myproc. wp_simp. rewrite Hc. wp_simp.
  apply (wp_argraw _ i); [done|lia|]. rewrite wp_bind. apply (wp_argraw _ i); [done|lia|]. do 3 (rewrite wp_bind; apply (wp_argint _ i); [done|lia|]).
  rewrite wp_bind. apply (wp_argraw _ i); [done|lia|]. rewrite (proj2 (Z.eqb_neq _ _) Hl). wp_simp. change (id s) with s.
  rewrite (proj2 (Z.ltb_ge _ _)), (proj2 (Z.leb_gt _ _)) by lia. cbn [orb]. rewrite Ho.
  assert (Hp' : has_flag (s32 (arg i 2 s)) PROT_WRITE && has_flag (s32 (arg i 3 s)) MAP_SHARED && negb (f_writable (getf f s)) = false).
  { destruct (_ && has_flag _ MAP_SHARED); [by rewrite Hp|done]. }
  rewrite Hp', Hv. rewrite (proj2 (Z.ltb_ge TRAPFRAME (u64 (PGROUNDUP (pr_sz (getp i s)) + PGROUNDUP (arg i 1 s))))) by exact Hw. unfold modp, filedup, modf. wp_simp.
  apply wp_lock_acquire; [done|]. wp_simp. change (getf f (set_kr_ftlock Mine (updp i _ s))) with (getf f s). rewrite (proj2 (Z.ltb_ge _ _)) by lia. wp_simp.
  apply wp_lock_release; [done|]. wp_simp. rewrite (s32_small (f_ref (getf f s) + 1)) by lia. set (t := updp i (set_pr_sz _) s). split; [done|].
  assert (Gt : forall j, getp j (set_kr_ftlock Free (updf f (set_f_ref (f_ref (getf f s) + 1)) (set_kr_ftlock Mine t))) = getp j t) by done.
  split; [rewrite getp_updp_eq by (cbn; by rewrite length_alter); rewrite Gt; unfold t; by rewrite getp_updp_eq|].
  split; [intros j Hj; rewrite getp_updp_ne by done; rewrite Gt; unfold t; by rewrite getp_updp_ne|]. split.
  - etransitivity; [apply (getf_updf f f _ (set_kr_ftlock Mine t)); done|]. by rewrite decide_True.
  - intros g Hg. etransitivity; [apply (getf_updf f g _ (set_kr_ftlock Mine t)); done|]. by rewrite decide_False.
Qed.

(** The areas in use lie below the size of the process and do not overlap. *)
Definition used_area (p : proc) (k : nat) (v : vma) : Prop := pr_vmas p !! k = Some v /\ v_used v = true.
Definition apart (v w : vma) : Prop := v_addr v + v_length v <= v_addr w \/ v_addr w + v_length w <= v_addr v.
Definition areas_ok (p : proc) : Prop :=
  (forall k v, used_area p k v -> 0 <= v_addr v /\ 0 < v_length v /\ v_addr v + v_length v <= pr_sz p) /\
  (forall k k' v w, used_area p k v -> used_area p k' w -> k <> k' -> apart v w).

Lemma roundup_bounds x : 0 <= x <= MAXVA -> x <= PGROUNDUP x < x + PGSIZE /\ PGROUNDUP x mod PGSIZE = 0.
Proof.
  intros H. rewrite pgs_up by done. unfold pgs. change PGSIZE with 4096.
  split; [pose proof (Z.div_mod (x + 4096 - 1) 4096 ltac:(lia)); pose proof (Z.mod_pos_bound (x + 4096 - 1) 4096 ltac:(lia)); lia|apply Z.mod_mul; lia].
Qed.

Lemma areas_ok_new p k v sz' : areas_ok p -> v_used v = true -> pr_sz p <= v_addr v -> 0 <= v_addr v -> 0 < v_length v -> v_addr v + v_length v <= sz' -> pr_sz p <= sz' ->
  areas_ok (set_pr_vmas (<[k := v]> (pr_vmas p)) (set_pr_sz sz' p)).
Proof.
  intros [H1 H2] Hu Ha H0 Hl He Hs.
  assert (Hin : forall j w, used_area (set_pr_vmas (<[k := v]> (pr_vmas p)) (set_pr_sz sz' p)) j w -> (j = k /\ w = v) \/ (j <> k /\ used_area p j w)).
  { intros j w [Hj Hw]. cbn in Hj. destruct (decide (j = k)) as [->|]; [|right; by rewrite list_lookup_insert_ne in Hj].
    left. apply list_lookup_insert_Some in Hj as [(_ & -> & _)|[? _]]; done. }
  split.
  - intros j w Hj. destruct (Hin j w Hj) as [[-> ->]|[_ Hw]]; [cbn; lia|]. destruct (H1 j w Hw) as (? & ? & ?). cbn. lia.
  - intros j j' w w' Hj Hj' Hne. destruct (Hin j w Hj) as [[-> ->]|[_ Hw]], (Hin j' w' Hj') as [[-> ->]|[_ Hw']].
    + done.
    + right. destruct (H1 _ _ Hw') as (? & ? & ?). lia.
    + left. destruct (H1 _ _ Hw) as (? & ? & ?). lia.
    + by apply (H2 j j').
Qed.

(** C33: mmap() of a length that fits puts the new area right above the memory of
    the process, page-aligned, apart from every other area; it takes a reference
    on the file, uses the first free entry, and touches no other process. *)
Theorem mmap_correct i f k s : mmap_call i f k s -> areas_ok (getp i s) -> 0 <= pr_sz (getp i s) <= TRAPFRAME -> 0 < arg i 1 s <= TRAPFRAME ->
  mm_va i s + mm_len i s <= TRAPFRAME ->
  wp sys_mmap (fun r s' => r = mm_va i s /\ r mod PGSIZE = 0 /\ pr_sz (getp i s) <= r /\
    pr_vmas (getp i s') = <[k := mm_area i f s]> (pr_vmas (getp i s)) /\ pr_sz (getp i s') = r + mm_len i s /\ arg i 1 s <= mm_len i s /\
    areas_ok (getp i s') /\ f_ref (getf f s') = f_ref (getf f s) + 1 /\ (forall j, j <> i -> getp j s' = getp j s)) s.
Proof.
  intros Hm Ha Hsz Hlen Hfit. assert (Ht : TRAPFRAME <= MAXVA) by (unfold TRAPFRAME, TRAMPOLINE; change PGSIZE with 4096; lia). assert (Hmax : MAXVA < 2 ^ 64) by reflexivity.
  destruct (roundup_bounds (pr_sz (getp i s)) ltac:(lia)) as [Hv Hal]. destruct (roundup_bounds (arg i 1 s) ltac:(lia)) as [Hl _].
  fold (mm_va i s) in Hv, Hal. fold (mm_len i s) in Hl.
  assert (Hw : u64 (mm_va i s + mm_len i s) = mm_va i s + mm_len i s) by (apply u64_small; lia).
  eapply wp_mono; [apply (mmap_spec i f k s Hm); lia|]. intros r s' (-> & Hp & Hj & Hf & _). rewrite Hp, Hf, Hw. cbn.
  split; [done|]. split; [done|]. split; [lia|]. split; [done|]. split; [done|]. split; [lia|]. split; [|done].
  apply areas_ok_new; try done; cbn; lia.
Qed.

(** C39: mmap() does not check its length for wrap-around: a length that makes the
    new end of memory wrap to 0 is accepted, and leaves the process with size 0. *)
Theorem mmap_length_wraps i f k s : mmap_call i f k s -> mm_va i s + mm_len i s = 2 ^ 64 ->
  wp sys_mmap (fun r s' => r = mm_va i s /\ pr_sz (getp i s') = 0) s.
Proof.
  intros Hm Hw. assert (E : u64 (mm_va i s + mm_len i s) = 0) by (rewrite Hw; reflexivity).
  eapply wp_mono; [apply (mmap_spec i f k s Hm); rewrite E; done|]. intros r s' (-> & Hp & _). by rewrite Hp, E.
Qed.

(** * sbrk *)

(** A lazy sbrk() of n >= 0 bytes returns the old size and only moves the size
    of the process, allocating nothing; it fails, changing nothing, exactly when
    the new size would pass TRAPFRAME, and no sum wraps. *)
Theorem sbrk_lazy_correct i s : kr_cur s = Some i -> (i < length (kr_proc s))%nat -> 0 <= pr_sz (getp i s) <= TRAPFRAME ->
  0 <= s32 (arg i 0 s) -> s32 (arg i 1 s) <> SBRK_EAGER ->
  wp sys_sbrk (fun r s' => let sz' := pr_sz (getp i s) + s32 (arg i 0 s) in
    if sz' <=? TRAPFRAME then r = pr_sz (getp i s) /\ s' = updp i (set_pr_sz sz') s else r = -1 /\ s' = s) s.
Proof.
  intros Hc Hi Hsz Hn Ht. unfold sys_sbrk. rewrite wp_bind. apply (wp_argint _ i); [done|lia|]. rewrite wp_bind. apply (wp_argint _ i); [done|lia|].
  unfold myproc. wp_simp. rewrite Hc. wp_simp. rewrite (proj2 (Z.eqb_neq _ _) Ht), (proj2 (Z.ltb_ge _ _) Hn). cbn [orb].
  assert (Hs : s32 (arg i 0 s) < 2 ^ 31) by (unfold s32; pose proof (Z.mod_pos_bound (arg i 0 s + 2 ^ 31) (2 ^ 32) ltac:(lia)); lia).
  assert (Hm : TRAPFRAME < 2 ^ 40) by reflexivity. rewrite u64_small by lia. rewrite (proj2 (Z.ltb_ge _ _)) by lia.
  destruct (Z.ltb_spec TRAPFRAME (pr_sz (getp i s) + s32 (arg i 0 s))) as [H|H]; cbv zeta.
  - rewrite (proj2 (Z.leb_gt _ _)) by lia. done.
  - rewrite (proj2 (Z.leb_le _ _)) by lia. unfold modp. wp_simp. split; [done|]. apply updp_at; [done|]. by rewrite u64_small by lia.
Qed.
End mmap.

(** * Examples *)

#[local] Instance no_devices' : Devices unit := {|
  dev_read _ := None; dev_write _ := None; dev_printf _ _ := ret tt |}.
#[local] Instance mm_blocks : Blocks logst := log_blocks 1.

(** A process of one page with file 0 open as descriptor 3, in a system call with the given arguments. *)
Definition call_proc : proc :=
  set_pr_trapframe 0x80030000 (set_pr_sz 4096 (set_pr_pid 1 (set_pr_state RUNNING (set_pr_ofile (<[3%nat := Some 0%nat]> (pr_ofile proc0)) proc0)))).
Definition call_mem (args : list Z) : mem := st_bytes ∅ (0x80030000 + TF_A0) (concat (le_encode 8 <$> args)).
Definition call_kern (args : list Z) : kern logst unit :=
  Kern (Fsst (boot_log ∅) (Mach (call_mem args) Free 0) (Superblock 0 0 0 0 0 0 0 0) Free []) tt Free
    (File FD_INODE 1 true true 0 0 0 0 :: replicate 99 file0) ∅ (call_proc :: replicate 63 proc0) Free Free 2 None (Some 0%nat) Free 0.

Lemma demo_mmap_call len : len = 5000 \/ len = 2 ^ 64 - 4096 -> mmap_call 0 0 0 (call_kern [0; len; 3; 1; 3; 0]).
Proof.
  intros [-> | ->]; (split; [reflexivity|vm_compute; lia|vm_compute; congruence|vm_compute; repeat split; congruence|vm_compute; congruence
    |exists vma0; reflexivity|reflexivity|vm_compute; lia|vm_compute; split; congruence]).
Qed.

Lemma mmap_correct_witness : wp sys_mmap (fun r _ => r = 4096) (call_kern [0; 5000; 3; 1; 3; 0]).
Proof.
  eapply wp_mono; [apply (mmap_correct 0 0 0 _ (demo_mmap_call 5000 (or_introl eq_refl)))|].
  - assert (N : forall k v, ~ used_area (getp 0 (call_kern [0; 5000; 3; 1; 3; 0])) k v).
    { intros k v [Hk Hu]. apply (lookup_replicate_1 MAXVMA vma0) in Hk as [-> _]. done. }
    split; [intros k v H; by destruct (N k v)|intros k k' v w H; by destruct (N k v)].
  - vm_compute. split; congruence.
  - vm_compute. split; congruence.
  - vm_compute. congruence.
  - intros r s' (-> & _). reflexivity.
Defined.

Lemma mmap_length_wraps_witness : wp sys_mmap (fun r s' => r = 4096 /\ pr_sz (getp 0 s') = 0) (call_kern [0; 2 ^ 64 - 4096; 3; 1; 3; 0]).
Proof.
  eapply wp_mono; [apply (mmap_length_wraps 0 0 0 _ (demo_mmap_call (2 ^ 64 - 4096) (or_intror eq_refl))); vm_compute; reflexivity|].
  intros r s' [-> H]. split; [reflexivity|exact H].
Defined.

Lemma sbrk_lazy_correct_witness : wp sys_sbrk (fun r s' => r = 4096 /\ pr_sz (getp 0 s') = 8192) (call_kern [4096; 2]).
Proof.
  eapply wp_mono; [apply (sbrk_lazy_correct 0 (call_kern [4096; 2]))|].
  - reflexivity.
  - vm_compute. lia.
  - vm_compute. split; congruence.
  - vm_compute. congruence.
  - vm_compute. congruence.
  - intros r s'. cbv zeta. assert (E : pr_sz (getp 0 (call_kern [4096; 2])) + s32 (arg 0 0 (call_kern [4096; 2])) = 8192) by (vm_compute; reflexivity).
    rewrite E. change (8192 <=? TRAPFRAME) with true. cbv iota. intros [-> ->]. split; reflexivity.
Defined.
