(* ===== verification/FileProps.v ===== *)
(** read() of an open file: the file layer over the inode layer. *)
From S2P Require Import Prelude Mem Spinlock Kalloc Vm VmSpec VmUser VmProps UserMem Pipe Bio BCache Log LogSpec LogProps Bytes Blocks Fs FsSpec FsFile FsIO FsProps Usys Uprintf.
From S2P Require Import Kern Sched KernSpec File.

Section locks.
Context {S U P : Type} `{BK : Blocks S} `{UM : UserMem U P}.
Implicit Types (s : fsst S U) (x : inode).

(** The state with entry [ip] of the inode table replaced. *)
Definition put_ino (ip : nat) x s : fsst S U := set_it_inode (fun l => <[ip := x]> l) s.

Lemma wp_on_ilock {A} (m : M sleeplock A) (Q : A -> fsst S U -> Prop) ip x s : it_inode s !! ip = Some x ->
  wp m (fun a l => Q a (put_ino ip (set_i_lock l x) s)) (i_lock x) -> wp (on_ilock ip m) Q s.
Proof.
  intros Hx H. unfold on_ilock. rewrite wp_zoom, (geti_eq _ _ _ Hx). eapply wp_mono; [exact H|]. intros a l HQ. cbv beta.
  replace (set_it_inode (alter (set_i_lock l) ip) s) with (put_ino ip (set_i_lock l x) s); [done|].
  unfold put_ino, set_it_inode. f_equal. symmetry. by apply alter_insert.
Qed.

(** A free lock of an inode that has been read. *)
Lemma wp_ilock (Q : unit -> fsst S U -> Prop) me ip x s p : it_inode s !! ip = Some x -> 1 <= i_ref x -> i_lock x = Sleeplock Free false p -> i_valid x = true ->
  Q tt (put_ino ip (set_i_lock (Sleeplock Free true me) x) s) -> wp (ilock me ip) Q s.
Proof.
  intros Hx Hr Hl Hv HQ. unfold ilock. wp_simp. rewrite (geti_eq _ _ _ Hx), (proj2 (Z.ltb_ge _ _)) by lia. wp_simp.
  eapply wp_on_ilock; [exact Hx|]. rewrite Hl. unfold wp at 1. cbn. wp_simp.
  rewrite (geti_eq ip _ (set_i_lock (Sleeplock Free true me) x)) by (cbn; apply list_lookup_insert_eq; by apply lookup_lt_Some in Hx).
  change (i_valid (set_i_lock _ x)) with (i_valid x). rewrite Hv. done.
Qed.
Lemma wp_iunlock (Q : unit -> fsst S U -> Prop) me ip x s : it_inode s !! ip = Some x -> 1 <= i_ref x -> i_lock x = Sleeplock Free true me ->
  Q tt (put_ino ip (set_i_lock (Sleeplock Free false 0) x) s) -> wp (iunlock me ip) Q s.
Proof.
  intros Hx Hr Hl HQ. unfold iunlock. wp_simp. eapply wp_on_ilock; [exact Hx|]. rewrite Hl. unfold wp at 1. cbn. rewrite Z.eqb_refl. wp_simp.
  set (s1 := put_ino ip _ s). assert (Hx1 : it_inode s1 !! ip = Some x).
  { unfold s1, put_ino. cbn. rewrite list_lookup_insert_eq by (by apply lookup_lt_Some in Hx). f_equal. destruct x; cbn in *; by subst. }
  rewrite (geti_eq _ _ _ Hx1), (proj2 (Z.ltb_ge _ _)) by lia. cbn [negb orb]. eapply wp_on_ilock; [exact Hx1|]. rewrite Hl. unfold wp. cbn.
  change (Q tt (put_ino ip (set_i_lock (Sleeplock Free false 0) x) s1)). replace (put_ino ip (set_i_lock (Sleeplock Free false 0) x) s1) with (put_ino ip (set_i_lock (Sleeplock Free false 0) x) s); [done|].
  unfold s1, put_ino, set_it_inode. cbn. by rewrite list_insert_insert_eq.
Qed.
End locks.

(** * read() *)

Section read.
Context {B D : Type} `{BK : Blocks B} `{L : Layout} `{LO : !LayoutOk L} `{DV : Devices D} (dev : Z) `{BO : !BlocksOk B dev}.
Implicit Types (s : kern B D) (k : kst) (x : inode).

Lemma wp_onfs {A} (m : M (fsst B mach) A) (Q : A -> kern B D -> Prop) s : wp (onfs m) Q s = wp m (fun a t => Q a (set_kr_fs t s)) (kr_fs s).
Proof. apply wp_zoom. Qed.

(** Process [i] has file [f], an inode that is in memory and unlocked, open for reading. *)
Record readable_file (i f : nat) s k x : Prop := {
  rf_cur : kr_cur s = Some i;
  rf_type : f_type (getf f s) = FD_INODE /\ f_readable (getf f s) = true;
  rf_file : (f < length (kr_file s))%nat;
  rf_pre : fpre dev (f_ip (getf f s)) (kr_fs s) k x;
  rf_ref : 1 <= i_ref x;
  rf_lock : exists p, i_lock x = Sleeplock Free false p;
  rf_valid : i_valid x = true;
  rf_size : 0 <= i_size x <= MAXFILE * BSIZE;
  rf_mapped : mapped k x 0 (i_size x)
}.

Lemma fpre_lock ip (fs : fsst B mach) k x l : fpre dev ip fs k x -> fpre dev ip (put_ino ip (set_i_lock l x) fs) k (set_i_lock l x).
Proof.
  intros [H1 H2 H3 H4 H5 H6 H7]. split; try done.
  - destruct H3. by split.
  - cbn. apply list_lookup_insert_eq. by apply lookup_lt_Some in H4.
Qed.

(** read() of an open file delivers to the process exactly the bytes of the
    file from the current offset, at most n and up to the end of the file, moves
    the offset by as many, and leaves the inode unlocked and every block as it
    was; or it reports -1 when the process has no memory there. *)
Theorem fileread_correct i f addr n s k x : readable_file i f s k x ->
  0 <= n < 2 ^ 31 -> 0 <= f_off (getf f s) <= i_size x -> let u := uproc_of (getp i s) in
  um_inv u (fs_um (kr_fs s)) -> 0 <= addr -> addr + n < 2 ^ 64 ->
  wp (fileread f addr n) (fun r s' => let off := f_off (getf f s) in let m := Z.min n (i_size x - off) in
    bk_rep (fs_blk (kr_fs s')) k /\ (exists x', it_inode (kr_fs s') !! f_ip (getf f s) = Some x' /\ x' = set_i_lock (Sleeplock Free false 0) x) /\
    ((r = Done m /\ delivered (ToUser u addr) (fs_um (kr_fs s)) (fs_um (kr_fs s')) 0 (fbytes k x off m) /\ f_off (getf f s') = off + m) \/
     (r = Done (-1) /\ f_off (getf f s') = off))) s.
Proof.
  intros [Hc [Ht Hr] Hf Hp Hir [pl Hl] Hv Hsz Hm] Hn Ho u Hu Ha Han. unfold fileread, myproc. wp_simp. rewrite Hc. wp_simp. change (id s) with s. rewrite Hr, Ht. cbn [negb].
  set (ip := f_ip (getf f s)) in *. set (pid := pr_pid (getp i s)). assert (Hlim : MAXFILE * BSIZE < 2 ^ 31) by reflexivity.
  rewrite wp_bind, wp_onfs. apply (wp_ilock _ pid ip x _ pl); [apply Hp|done|done|done|]. set (xl := set_i_lock (Sleeplock Free true pid) x). set (t := put_ino ip xl (kr_fs s)).
  pose proof (fpre_lock ip (kr_fs s) k x (Sleeplock Free true pid) Hp) as Hp'. fold xl t in Hp'. cbv beta. rewrite wp_bind, wp_onfs. change (kr_fs (set_kr_fs t s)) with t.
  rewrite u32_small by lia. eapply wp_mono; [apply (readi_spec dev ip (ToUser u addr) t k xl (f_off (getf f s)) n Hp')|]; [cbn in *; lia|lia| |done|done|].
  { intros _. cbn. change (um_inv u (fs_um (kr_fs s)) /\ 0 <= addr /\ addr + Z.min n (i_size x - f_off (getf f s)) < 2 ^ 64). split; [done|]. lia. }
  assert (Hend : forall blk v s1, kr_fs s1 = set_fs_um v (set_fs_blk blk t) -> wp (onfs (iunlock pid ip)) (fun _ s' => fs_blk (kr_fs s') = blk /\ fs_um (kr_fs s') = v /\
    it_inode (kr_fs s') !! ip = Some (set_i_lock (Sleeplock Free false 0) x) /\ kr_file s' = kr_file s1) s1).
  { intros blk v s1 E1. rewrite wp_onfs, E1. eapply wp_iunlock; [apply Hp'|done|done|]. cbn. split; [done|]. split; [done|]. split; [|done].
    rewrite list_insert_insert_eq. apply list_lookup_insert_eq. pose proof (fp_ino _ _ _ _ _ Hp) as E. by apply lookup_lt_Some in E. }
  intros [r bs] t' Hpost. cbv beta in Hpost. cbn [fst snd]. change (i_size xl) with (i_size x) in Hpost.
  rewrite (proj2 (Z.ltb_ge _ _)), (proj2 (Z.leb_gt _ _)) in Hpost by lia. cbn [orb] in Hpost.
  destruct Hpost as (blk & v & -> & Rb & Hres). set (off := f_off (getf f s)) in *. set (m := Z.min n (i_size x - off)).
  set (s1 := set_kr_fs (set_fs_um v (set_fs_blk blk t)) s). rewrite wp_bind.
  assert (Hstep : forall s2 off', kr_fs s2 = kr_fs s1 -> f_off (getf f s2) = off' ->
    wp (onfs (iunlock pid ip) ;; ret (Done r)) (fun r0 s' => r0 = Done r /\ bk_rep (fs_blk (kr_fs s')) k /\ fs_um (kr_fs s') = v /\
      it_inode (kr_fs s') !! ip = Some (set_i_lock (Sleeplock Free false 0) x) /\ f_off (getf f s') = off') s2).
  { intros s2 off' E2 Eo. rewrite wp_bind. eapply wp_mono; [by apply (Hend blk v)|]. intros ? s' (E3 & E4 & E5 & E6). rewrite wp_ret. rewrite E3.
    split; [done|]. split; [done|]. split; [done|]. split; [done|]. rewrite <- Eo. unfold getf. by rewrite E6. }
  destruct Hres as [([= -> ->] & Hd & _)|(Hm1 & _)].
  - rewrite Z.sub_0_r in Hd. fold m.
    eapply (wp_mono _ (fun _ s2 => kr_fs s2 = kr_fs s1 /\ f_off (getf f s2) = off + m)).
    + destruct (Z.ltb_spec 0 m) as [H0|H0]; unfold modf; wp_simp.
      * split; [done|]. unfold getf, updf. cbn. rewrite list_lookup_alter_eq. destruct (lookup_lt_is_Some_2 _ _ Hf) as [y ->]. cbn. rewrite u32_small by lia. done.
      * split; [done|]. change (off = off + m). unfold m in *. lia.
    + intros ? s2 [E2 Eo]. eapply wp_mono; [by apply (Hstep s2)|]. intros r0 s' (-> & E3 & E4 & E5 & E6). split; [done|]. split; [by eexists|].
      left. split; [done|]. split; [|done]. rewrite E4. exact Hd.
  - cbn in Hm1. subst r. change (0 <? -1) with false. cbv iota. rewrite wp_ret. eapply wp_mono; [by apply (Hstep s1 off)|]. intros r0 s' (-> & E3 & E4 & E5 & E6).
    split; [done|]. split; [by eexists|]. by right.
Qed.
End read.

(** * Example *)

#[local] Instance no_devices_f : Devices unit := {|
  dev_read _ := None; dev_write _ := None; dev_printf _ _ := ret tt |}.
#[local] Instance read_blocks : Blocks logst := log_blocks 1.
#[local] Instance read_blocks_ok : BlocksOk logst 1 := log_blocks_ok 1 1 2.

(** The file of the example disk, open in a process of two untouched pages. *)
Definition read_proc : proc := set_pr_pagetable demo_pt (set_pr_sz 8192 (set_pr_pid 1 (set_pr_state RUNNING proc0))).
Definition read_kern (l : logst) : kern logst unit :=
  Kern (put_ino 0 (set_i_lock (Sleeplock Free false 0) demo_ino) (Fsst l demo_vm demo_sb Free (demo_ino :: replicate 49 inode0))) tt Free
    (File FD_INODE 1 true true 0 0 0 0 :: replicate 99 file0) ∅ (read_proc :: replicate 63 proc0) Free Free 2 None (Some 0%nat) Free 0.

Lemma read_kern_ok : exists l k, readable_file 1 0 0 (read_kern l) k (set_i_lock (Sleeplock Free false 0) demo_ino).
Proof.
  destruct demo_state as (l & k & [P1 P2 P3 P4 P5 P6 P7] & _). exists l, k. split; try done.
  - cbn. lia.
  - apply fpre_lock. by split.
  - by exists 0.
  - apply demo_mapped.
Qed.

Lemma fileread_correct_witness : exists l, wp (fileread 0 4090 10) (fun r _ => r = Done 0 \/ r = Done (-1)) (read_kern l).
Proof.
  destruct read_kern_ok as (l & k & H). exists l.
  eapply wp_mono; [apply (fileread_correct 1 0 0 4090 10 (read_kern l) k _ H); [lia|cbn; lia| |lia|lia]|].
  - split; [vm_compute; split; congruence|]. exists demo_free, {[demo_pt := []]}, ∅. split; [apply demo_as|apply demo_cover].
  - intros r s'. cbv zeta. intros (_ & _ & [(-> & _)|(-> & _)]); [by left|by right].
Defined.
