(* ===== verification/FaultProps.v ===== *)
(** Page faults of a process: a page of a mapped file comes with the bytes of
    the file, a page of a mapzero region with the fill byte, and nothing else
    of the address space or of the files changes. *)
From S2P Require Import Prelude Mem Str Spinlock Kalloc Vm VmSpec VmUser VmCopy VmProps UserMem Pipe Bio BCache Log LogSpec LogProps Bytes Blocks Fs FsSpec FsFile FsIO FsProps Usys Uprintf.
From S2P Require Import Kern Sched KernSpec File ProcLife Sysfile Exec Sysproc Trap FileProps.

(** * Filling and mapping a page *)

Section fill.
Context `{L : Layout} `{!LayoutOk L}.

(** What the fault handlers do to memory: [bs] is put on a fresh page of
    [c]'s, which is mapped at page number [n]. *)
Definition filled (c : Z) (bs : list Z) (p : Z) (m : mem) : mem := st_bytes (memset m p c PGSIZE) p bs.
Definition fill_map (pt n perm c : Z) (bs : list Z) : M mach Z :=
  let! p := kalloc in if p =? 0 then ret (-1) else
  modify (set_mem (filled c bs p)) ;;
  let! r := mappages pt (n * PGSIZE) PGSIZE p perm in
  if negb (r =? 0) then kfree p ;; ret (-1) else ret 0.

(** The new page, and that the rest is as it was. *)
Record page_in (m : mach) (l : list Z) (pt : Z) (own : gmap Z (list Z)) (ups : gmap Z Z) (n perm c : Z) (bs : list Z)
    (pa : Z) (m' : mach) (l' : list Z) (own' : gmap Z (list Z)) : Prop := {
  pi_as : as_inv m' l' pt own' (<[n := pa]> ups);
  pi_quiet : quiet m l own m' l' own';
  pi_pte : forall j, 0 <= j < NPG -> pte_pg (mmem m') pt j = if j =? n then pte_val pa perm else pte_pg (mmem m) pt j;
  pi_bytes : forall j, 0 <= j < PGSIZE -> ld8 (mmem m') (pa + j) = default (u8 c) (bs !! Z.to_nat j);
  pi_others : forall j q y, ups !! j = Some q -> in_page q y -> ld8 (mmem m') y = ld8 (mmem m) y;
  pi_spent : spent l l' own' (<[n := pa]> ups) 3
}.
Record page_out (m : mach) (l : list Z) (pt : Z) (own : gmap Z (list Z)) (ups : gmap Z Z) (m' : mach) (l' : list Z) (own' : gmap Z (list Z)) : Prop := {
  po_as : as_inv m' l' pt own' ups;
  po_quiet : quiet m l own m' l' own';
  po_short : (length l <= 3)%nat;
  po_pte : forall j, 0 <= j < NPG -> pte_pg (mmem m') pt j = pte_pg (mmem m) pt j;
  po_others : forall j q y, ups !! j = Some q -> in_page q y -> ld8 (mmem m') y = ld8 (mmem m) y;
  po_spent : spent l l' own' ups 3
}.

Definition fill_post (m : mach) (l : list Z) (pt : Z) (own : gmap Z (list Z)) (ups : gmap Z Z) (n perm c : Z) (bs : list Z) (r : Z) (m' : mach) : Prop :=
  (r = 0 /\ exists pa l' own', page_in m l pt own ups n perm c bs pa m' l' own') \/ (r = -1 /\ exists l' own', page_out m l pt own ups m' l' own').

(** mappages() returns 0 or -1. *)
Lemma mappages_res pt va sz pa perm m : wlp (mappages pt va sz pa perm) (fun r _ => r = 0 \/ r = -1) m.
Proof.
  unfold mappages. destruct (negb _); [apply wlp_panic|]. destruct (negb _); [apply wlp_panic|]. destruct (sz =? 0); [apply wlp_panic|].
  generalize (u64 (va + sz - PGSIZE)) as last. revert va pa m. induction (Z.to_nat (sz / PGSIZE)) as [|fuel IH]; intros va pa m last; cbn [mappages_loop]; [done|].
  rewrite wlp_bind. apply wlp_of. intros pte m1 _. destruct (pte =? 0); [rewrite wlp_ret; by right|]. unfold rd64, wr64. rewrite wlp_bind, wlp_gets.
  destruct (has_flag _ PTE_V); [apply wlp_panic|]. rewrite wlp_bind, wlp_modify. destruct (va =? last); [rewrite wlp_ret; by left|apply IH].
Qed.
Lemma wp_mappages (Q : Z -> mach -> Prop) pt va sz pa perm m : wp (mappages pt va sz pa perm) Q m ->
  wp (mappages pt va sz pa perm) (fun r m' => (r = 0 \/ r = -1) /\ Q r m') m.
Proof. pose proof (mappages_res pt va sz pa perm m) as R. unfold wp, wlp in *. by destruct (mappages pt va sz pa perm m). Qed.

Lemma filled_out c bs p m x : Z.of_nat (length bs) <= PGSIZE -> ~ in_page p x -> ld8 (filled c bs p m) x = ld8 m x.
Proof. intros Hl Hx. unfold filled. rewrite ld8_st_bytes_out by (unfold in_page in Hx; lia). by apply memset_page. Qed.
Lemma filled_in c bs p m j : byte_list bs -> Z.of_nat (length bs) <= PGSIZE -> 0 <= j < PGSIZE -> ld8 (filled c bs p m) (p + j) = default (u8 c) (bs !! Z.to_nat j).
Proof.
  intros Hb Hl Hj. unfold filled. rewrite ld8_st_bytes. replace (p + j - p) with j by lia.
  destruct (Z.leb_spec p (p + j)); [|lia]. cbn [andb]. destruct (Z.ltb_spec (p + j) (p + Z.of_nat (length bs))).
  - destruct (lookup_lt_is_Some_2 bs (Z.to_nat j)) as [b Hbj]; [lia|]. rewrite Hbj. cbn. apply u8_small. exact (Forall_lookup_1 _ _ _ _ Hb Hbj).
  - rewrite lookup_ge_None_2 by lia. cbn. rewrite memset_spec by done. by rewrite (proj2 (Z.leb_le p (p + j))), (proj2 (Z.ltb_lt (p + j) (p + PGSIZE))) by lia.
Qed.

Lemma fill_map_spec m l pt own ups n perm c bs : as_inv m l pt own ups -> 0 <= n < NPG -> has_flag (pte_pg (mmem m) pt n) PTE_V = false ->
  0 <= perm < 2 ^ 10 -> byte_list bs -> Z.of_nat (length bs) <= PGSIZE -> wp (fill_map pt n perm c bs) (fill_post m l pt own ups n perm c bs) m.
Proof.
  intros Ha Hn Hv Hp Hb Hl. unfold fill_map. apply (wp_alloc_map m l pt own ups n perm (filled c bs)); try done.
  - intros p mm x. by apply filled_out.
  - intros m' l' own' A Q _ Hpt Hsp Hs. rewrite wp_ret. right. split; [done|]. exists l', own'. split; try done. intros j q y. by apply (user_page_quiet m l pt own ups m' l' own').
  - intros pa m1 m' l' own' Hin Hu A Q Hpt Hm1 Hby _ Hsp. rewrite wp_ret. left. split; [done|]. exists pa, l', own'. split; try done.
    + intros j Hj. rewrite Hby by (unfold in_page; lia). by apply filled_in.
    + intros j q y. by apply (user_page_quiet m l pt own ups m' l' own').
Qed.
End fill.

(** * Pages of mapped files *)

Section mmap_fault.
Context {B D : Type} `{BK : Blocks B} `{L : Layout} `{LO : !LayoutOk L} `{DV : Devices D} (dev : Z) `{BO : !BlocksOk B dev}.
Implicit Types (s : kern B D) (k : kst) (x : inode).

Lemma wp_onm {A} (m : M mach A) (Q : A -> kern B D -> Prop) s :
  wp (onm m) Q s = wp m (fun a u => Q a (set_kr_fs (set_fs_um u (kr_fs s)) s)) (fs_um (kr_fs s)).
Proof. unfold onm, onfs. by rewrite !wp_zoom. Qed.

(** The offset in the file of the page of [va]. *)
Definition page_off (v : vma) (va : Z) : Z := v_offset v + (va / PGSIZE * PGSIZE - v_addr v).
(** The bytes of the file for it. *)
Definition page_bytes k x (fo : Z) : list Z := if i_size x <? fo then [] else fbytes k x fo (Z.min PGSIZE (i_size x - fo)).

(** A fault of process [i] at [va], in the area [v] of an inode that is in
    memory and unlocked, on a page that is not mapped. *)
Record file_fault (i : nat) (va : Z) s k x (v : vma) (l : list Z) (own : gmap Z (list Z)) (ups : gmap Z Z) : Prop := {
  ff_vma : exists j, find_vma (vma_contains va) (pr_vmas (getp i s)) 0 = Some (j, v);
  ff_va : 0 <= va < MAXVA;
  ff_off : 0 <= page_off v va /\ page_off v va + PGSIZE < 2 ^ 32;
  ff_pre : fpre dev (f_ip (getf (v_file v) s)) (kr_fs s) k x;
  ff_ino : 1 <= i_ref x /\ i_valid x = true /\ exists p, i_lock x = Sleeplock Free false p;
  ff_size : 0 <= i_size x <= MAXFILE * BSIZE;
  ff_blocks : mapped k x 0 (i_size x);
  ff_as : as_inv (fs_um (kr_fs s)) l (pr_pagetable (getp i s)) own ups;
  ff_unmapped : has_flag (pte_pg (mmem (fs_um (kr_fs s))) (pr_pagetable (getp i s)) (va / PGSIZE)) PTE_V = false
}.

Lemma vma_perm_range prot : 0 <= vma_perm prot < 2 ^ 10.
Proof. unfold vma_perm. destruct (has_flag prot PROT_READ), (has_flag prot PROT_WRITE), (has_flag prot PROT_EXEC); vm_compute; split; congruence. Qed.

Lemma page_bytes_ok s k x ip fo : fpre dev ip (kr_fs s) k x -> 0 <= fo -> i_size x <= MAXFILE * BSIZE ->
  byte_list (page_bytes k x fo) /\ Z.of_nat (length (page_bytes k x fo)) <= PGSIZE.
Proof.
  intros [_ P2 P3 _ _ _ _] Hf Hs. unfold page_bytes. destruct (Z.ltb_spec (i_size x) fo); [split; [constructor|done]|].
  split; [apply (fbytes_bytes dev (fs_sb (kr_fs s))); try done; lia|]. unfold PGSIZE. rewrite length_fbytes by lia. lia.
Qed.

(** The read of the page into the kernel. *)
Lemma readi_page ip (t : fsst B mach) k x fo : fpre dev ip t k x -> 0 <= fo -> fo + PGSIZE < 2 ^ 32 -> 0 <= i_size x <= MAXFILE * BSIZE -> mapped k x 0 (i_size x) ->
  wp (readi ip ToKernel fo PGSIZE) (fun r t' => r.2 = page_bytes k x fo /\ exists blk, bk_rep blk k /\ t' = set_fs_blk blk t) t.
Proof.
  intros Hp Hf Hw Hs Hm. eapply wp_mono; [apply (readi_spec dev ip ToKernel t k x fo PGSIZE Hp); try done; unfold PGSIZE in *; lia|].
  intros [r bs] t'. rewrite (proj2 (Z.leb_gt (2 ^ 32) (fo + PGSIZE))) by lia. rewrite orb_false_r. unfold page_bytes. destruct (Z.ltb_spec (i_size x) fo).
  - intros [[= -> ->] ->]. split; [done|]. exists (fs_blk t). split; [apply Hp|]. by destruct t.
  - intros (blk & u & -> & Hb & [([= -> ->] & Hd & _)|(_ & p & a & [=] & _)]). cbn in Hd. subst u. rewrite Z.sub_0_r. split; [done|]. exists blk. split; [done|]. by destruct t.
Qed.

Lemma down_pg va : PGROUNDDOWN va = va / PGSIZE * PGSIZE.
Proof. apply down_page. Qed.

(** C34: the first access to a page of a mapped file.  The handler reads
    the file into a fresh page and maps it with the permissions of the area:
    the process then sees the bytes of the file from the offset of that page
    on, and zeroes behind the end of the file.  It fails only when memory is
    short, at most three pages (the page and two tables) being free.  All
    other pages and mappings of the process, the file system and the inode are
    unchanged, and no page is lost. *)
Theorem mmap_fault_correct i va s k x v l own ups : file_fault i va s k x v l own ups ->
  let p := getp i s in let n := va / PGSIZE in
  wp (mmap_fault i va) (fun r s' => bk_rep (fs_blk (kr_fs s')) k /\
    (exists q, it_inode (kr_fs s') !! f_ip (getf (v_file v) s) = Some (set_i_lock (Sleeplock Free false q) x)) /\
    fill_post (fs_um (kr_fs s)) l (pr_pagetable p) own ups n (vma_perm (v_prot v)) 0 (page_bytes k x (page_off v va)) r (fs_um (kr_fs s'))) s.
Proof.
  intros [[j Hv] Hva [Ho1 Ho2] Hp (Hr & Hval & pl & Hl) Hs Hm Ha Hu] p n. fold p in Hv, Ha, Hu. set (ip := f_ip (getf (v_file v) s)) in *.
  assert (Hn : 0 <= n < NPG) by (unfold n, NPG; rewrite MAXVA_eq in *; change (2 ^ 38 / PGSIZE) with (2 ^ 26); unfold PGSIZE; split; [apply Z.div_pos; lia|apply Z.div_lt_upper_bound; lia]).
  destruct (page_bytes_ok s k x ip (page_off v va) Hp Ho1 ltac:(lia)) as [Hb1 Hb2].
  pose proof (fill_map_spec _ l _ own ups n (vma_perm (v_prot v)) 0 _ Ha Hn Hu (vma_perm_range _) Hb1 Hb2) as F. unfold fill_map in F.
  unfold mmap_fault. wp_simp. change (id s) with s. fold p. rewrite Hv. fold ip. rewrite down_pg. fold n.
  rewrite wp_bind in F. rewrite wp_bind, wp_onm. eapply wp_mono; [exact F|]. clear F. cbv beta. intros pa m1 F.
  revert F. destruct (Z.eqb_spec pa 0) as [->|Hpa]; intros F; cbv iota in F |- *.
  { change (fill_post (fs_um (kr_fs s)) l (pr_pagetable p) own ups n (vma_perm (v_prot v)) 0 (page_bytes k x (page_off v va)) (-1) m1) in F. rewrite wp_ret. split; [apply Hp|]. split; [|exact F]. exists pl. rewrite <- Hl. cbn. rewrite (fp_ino _ _ _ _ _ Hp). by destruct x. }
  rewrite wp_bind, wp_modify in F. rewrite wp_bind, wp_onm, wp_modify. set (m2 := set_mem (fun m => memset m pa 0 PGSIZE) m1). set (t1 := set_fs_um m2 (kr_fs s)).
  set (s1 := set_kr_fs t1 s). cbv beta. match goal with |- wp _ _ ?g => change g with s1 end.
  rewrite wp_bind, wp_onfs. change (kr_fs s1) with t1.
  assert (Hp1 : fpre dev ip t1 k x) by (destruct (fpre_io dev ip (kr_fs s) k x (fs_blk (kr_fs s)) m2 Hp (fp_rep _ _ _ _ _ Hp)); by split).
  apply (wp_ilock _ (pr_pid p) ip x _ pl); [apply Hp1|done|done|done|]. set (xl := set_i_lock (Sleeplock Free true (pr_pid p)) x).
  pose proof (fpre_lock dev ip t1 k x (Sleeplock Free true (pr_pid p)) Hp1) as Hp2. fold xl in Hp2. set (t2 := put_ino ip xl t1) in *.
  rewrite wp_bind, wp_onfs. change (kr_fs (set_kr_fs t2 s1)) with t2.
  assert (Eo : u32 (u64 (v_offset v + (n * PGSIZE - v_addr v))) = page_off v va) by (unfold page_off in *; fold n in Ho1, Ho2 |- *; unfold PGSIZE in *; rewrite u64_small, u32_small by lia; done).
  rewrite Eo. eapply wp_mono; [by apply (readi_page ip t2 k xl (page_off v va))|]. intros [r bs] t3 [Hbs (blk & Hblk & ->)]. cbn [snd] in Hbs. subst bs.
  change (page_bytes k xl (page_off v va)) with (page_bytes k x (page_off v va)).
  set (m3 := set_mem (filled 0 (page_bytes k x (page_off v va)) pa) m1) in *. set (t4 := set_fs_um m3 (set_fs_blk blk t2)).
  rewrite wp_bind, wp_onm, wp_modify. cbv beta. match goal with |- wp _ _ ?g => change g with (set_kr_fs t4 s1) end.
  rewrite wp_bind, wp_onfs. change (kr_fs (set_kr_fs t4 s1)) with t4.
  apply (wp_iunlock _ (pr_pid p) ip xl t4); [apply Hp2|done|done|]. set (t5 := put_ino ip _ t4). cbv beta.
  assert (Hi5 : it_inode t5 !! ip = Some (set_i_lock (Sleeplock Free false 0) x)).
  { apply list_lookup_insert_eq. cbn. rewrite length_insert. pose proof (fp_ino _ _ _ _ _ Hp) as E. by apply lookup_lt_Some in E. }
  rewrite wp_bind, wp_onm. change (fs_um (kr_fs (set_kr_fs t5 (set_kr_fs t4 s1)))) with m3.
  assert (G : forall r' m' s', fill_post (fs_um (kr_fs s)) l (pr_pagetable p) own ups n (vma_perm (v_prot v)) 0 (page_bytes k x (page_off v va)) r' m' ->
    kr_fs s' = set_fs_um m' t5 -> bk_rep (fs_blk (kr_fs s')) k /\ (exists q, it_inode (kr_fs s') !! ip = Some (set_i_lock (Sleeplock Free false q) x)) /\
    fill_post (fs_um (kr_fs s)) l (pr_pagetable p) own ups n (vma_perm (v_prot v)) 0 (page_bytes k x (page_off v va)) r' (fs_um (kr_fs s'))).
  { intros r' m' s' Hf ->. split; [exact Hblk|]. split; [by exists 0|exact Hf]. }
  rewrite wp_bind in F. eapply wp_mono; [apply wp_mappages; exact F|]. clear F. intros r' m' [[-> | ->] F]; cbv beta in F.
  - cbn [Z.ltb Z.compare]. change (negb (0 =? 0)) with false in F. cbv iota in F. unfold bump_pf, modp. wp_simp. by apply (G 0 m').
  - cbn [Z.ltb Z.compare]. change (negb (-1 =? 0)) with true in F. cbv iota in F. rewrite wp_bind in F. rewrite wp_bind, wp_onm.
    eapply wp_mono; [exact F|]. intros [] m'' Hf. rewrite wp_ret. by apply (G (-1) m'').
Qed.
End mmap_fault.

(** * Example *)

#[local] Instance no_devices_v : Devices unit := {|
  dev_read _ := None; dev_write _ := None; dev_printf _ _ := ret tt |}.
#[local] Instance fault_blocks : Blocks logst := log_blocks 1.
#[local] Instance fault_blocks_ok : BlocksOk logst 1 := log_blocks_ok 1 1 2.

(** The process of the example of read() has mapped the file at its second page. *)
Definition map_area : vma := Vma true 4096 4096 3 1 0 0.
Definition map_kern (l : logst) : kern logst unit :=
  set_kr_proc (set_pr_vmas (map_area :: replicate 15 vma0) read_proc :: replicate 63 proc0) (read_kern l).

Lemma mmap_fault_correct_witness : exists l, wp (mmap_fault 0 5000) (fun r _ => r = 0 \/ r = -1) (map_kern l).
Proof.
  destruct read_kern_ok as (l & k & H). exists l.
  eapply wp_mono; [apply (mmap_fault_correct 1 0 5000 (map_kern l) k (set_i_lock (Sleeplock Free false 0) demo_ino) map_area demo_free {[demo_pt := []]} ∅)|].
  - split.
    + by exists 0%nat.
    + vm_compute. split; congruence.
    + vm_compute. split; congruence.
    + exact (rf_pre _ _ _ _ _ _ H).
    + split; [exact (rf_ref _ _ _ _ _ _ H)|]. split; [exact (rf_valid _ _ _ _ _ _ H)|exact (rf_lock _ _ _ _ _ _ H)].
    + exact (rf_size _ _ _ _ _ _ H).
    + exact (rf_mapped _ _ _ _ _ _ H).
    + exact demo_as.
    + unfold pte_pg. change (has_flag (pte_of (mmem demo_vm) demo_pt (5000 / PGSIZE * PGSIZE)) PTE_V = false). by rewrite demo_pte.
  - intros r s' (_ & _ & [[-> _]|[-> _]]); [by left|by right].
Defined.
