(* ===== verification/ExecProps.v ===== *)
(** exec(): the program image, the stack with the arguments, and the switch
    from the old address space to the new one. *)
From S2P Require Import Prelude Mem Str Spinlock Kalloc Vm VmSpec VmUser VmCopy VmProps VmFree UserMem Pipe Bio BCache Log LogSpec LogProps Bytes Blocks Fs FsSpec FsFile FsIO FsProps Usys.
From S2P Require Import Kern Sched KernSpec File ProcLife Sysfile Exec FileProps FaultProps.

(** * Memory *)

(** What the process reads from [va] on. *)
Definition sees (m : mem) (pt sz va : Z) (bs : list Z) : Prop := forall k b, bs !! k = Some b -> uview m pt sz (va + Z.of_nat k) = Some b.
Definition up16 (n : Z) : Z := (n + 15) / 16 * 16.
(** The bytes that the argument strings take. *)
Fixpoint need (argv : list (list Z)) : Z := match argv with [] => 0 | a :: argv => up16 (Z.of_nat (length a) + 1) + need argv end.

Section memory.
Context `{L : Layout} `{!LayoutOk L}.

(** A copy into a mapped page that the user may write, as exec() does before
    the address space is the current one. *)
Lemma copyout_mapped u s l pt own ups n pa dst bs : as_inv s l pt own ups -> ups !! n = Some pa -> has_flag (pte_pg (mmem s) pt n) PTE_U = true ->
  has_flag (pte_pg (mmem s) pt n) PTE_W = true -> n * PGSIZE <= dst -> dst + Z.of_nat (length bs) <= n * PGSIZE + PGSIZE -> bs <> [] ->
  wp (copyout u pt dst bs) (fun r s' => r = 0 /\ s' = set_mem (fun m => st_bytes m (pa + (dst - n * PGSIZE)) bs) s) s.
Proof.
  intros Ha Hn HU HW Hd Hl Hne. destruct (as_leaf _ _ _ _ _ Ha _ _ Hn) as (Hr & HV & Hpa). destruct (as_page _ _ _ _ _ Ha _ _ Hn) as (Hpok & _ & _).
  pose proof (page_ok_pos _ Hpok) as Hpos. pose proof (vi_pt _ _ _ _ (as_vm _ _ _ _ _ Ha)) as Hpt.
  assert (Hb : 0 < Z.of_nat (length bs)) by (destruct bs; [done|cbn; lia]).
  assert (Ed : PGROUNDDOWN dst = n * PGSIZE). { destruct (down_page dst) as [-> _]. f_equal. symmetry. apply Z.div_unique with (dst - n * PGSIZE); lia. }
  destruct (pg_range n Hr) as [_ Hmax]. destruct (slot_valid _ _ _ HV) as (a & Has & Hld). pose proof (slot_pos _ _ _ 2 pt [] _ _ Hpt (pt_root _ _ _ Hpt) eq_refl Has) as Hapos.
  unfold copyout. remember (length bs) as k eqn:Ek. destruct k as [|k]; [lia|]. destruct bs as [|b bs']; [done|]. cbn [copyout_loop]. rewrite Ed.
  rewrite (proj2 (Z.leb_gt MAXVA (n * PGSIZE))) by lia. wp_simp. eapply wp_of_ok; [apply (walkaddr_spec pt own _ s Hpt)|].
  change (pte_of (mmem s) pt (n * PGSIZE)) with (pte_pg (mmem s) pt n). rewrite (proj2 (Z.ltb_lt _ _) Hmax), HV, HU, Hpa. cbn [andb].
  rewrite (proj2 (Z.eqb_neq pa 0)) by lia. wp_simp. rewrite (proj2 (Z.eqb_neq pa 0)) by lia. wp_simp. eapply wp_of_ok; [by apply walk_ro|]. rewrite Has. cbn [default from_option id].
  rewrite (proj2 (Z.eqb_neq a 0)) by lia. unfold rd64. wp_simp. rewrite Hld, HW. cbn [negb]. wp_simp.
  rewrite Z.min_r by lia. rewrite Nat2Z.id, take_ge, drop_ge by done. destruct k; cbn [copyout_loop]; by wp_simp.
Qed.

(** Nothing happened on the pages of [F]. *)
Definition keeps (F : Z -> Prop) (s s' : mach) : Prop := forall q x, F q -> in_page q x -> ld8 (mmem s') x = ld8 (mmem s) x.
Lemma keeps_pages_trans F s s1 s2 : keeps F s s1 -> keeps F s1 s2 -> keeps F s s2.
Proof. intros A B q x Hq Hx. by rewrite (B q), (A q). Qed.
Lemma keeps_mono (F G : Z -> Prop) s s' : (forall q, G q -> F q) -> keeps F s s' -> keeps G s s'.
Proof. intros H K q x Hq Hx. by apply (K q); [apply H|]. Qed.

Lemma as_frame s l pt own ups s' l' : as_inv s l pt own ups -> kmem_inv s' l' -> (forall q, q ∈ l' -> ~ pages_of own ups q) -> keeps (pages_of own ups) s s' ->
  as_inv s' l' pt own ups /\ forall va, pte_of (mmem s') pt va = pte_of (mmem s) pt va.
Proof.
  intros Ha K Hl Hk. destruct (as_vm _ _ _ _ _ Ha) as [_ Hpt _].
  assert (Ho : forall x, owned_byte own x -> ld8 (mmem s') x = ld8 (mmem s) x) by (intros x (q & path & Hq & Hx); apply (Hk q); [left; by eexists|done]).
  assert (Hp : forall va, pte_of (mmem s') pt va = pte_of (mmem s) pt va) by (intros va; by apply (pte_frame _ _ pt own)).
  split; [|done]. split; [split; [done|by apply (pt_inv_frame (mmem s))|]|..|apply Ha].
  - intros q Hq. destruct (own !! q) eqn:E; [|done]. destruct (Hl q Hq). left. by eexists.
  - intros j q Hj. unfold pte_pg. rewrite Hp. by apply (as_leaf _ _ _ _ _ Ha).
  - intros j q Hj. destruct (as_page _ _ _ _ _ Ha _ _ Hj) as (? & ? & _). split_and!; [done|done|]. intros Hq. apply (Hl q Hq). right. by exists j.
Qed.

Lemma space_frame s l pt own ups sz s' l' : space s l pt own ups sz -> kmem_inv s' l' -> (forall q, q ∈ l' -> ~ pages_of own ups q) -> keeps (pages_of own ups) s s' ->
  space s' l' pt own ups sz.
Proof.
  intros [A1 A2 A3 A4] K Hl Hk. destruct (as_frame s l pt own ups s' l' A1 K Hl Hk) as [B1 B2]. split; [done|done|done|]. intros j. unfold pte_pg. rewrite B2. apply A4.
Qed.

Lemma uview_frame s l pt own ups s' sz va : as_inv s l pt own ups -> ucover (mmem s) pt ups -> keeps (pages_of own ups) s s' ->
  uview (mmem s') pt sz va = uview (mmem s) pt sz va.
Proof.
  intros Ha Hc Hk. destruct (as_vm _ _ _ _ _ Ha) as [_ Hpt _].
  assert (Hp : pte_of (mmem s') pt va = pte_of (mmem s) pt va) by (apply (pte_frame _ _ pt own); [done|]; intros x (q & path & Hq & Hx); apply (Hk q); [left; by eexists|done]).
  unfold uview. rewrite Hp. destruct (_ && _) eqn:Hr; [|done]. destruct (has_flag (pte_of (mmem s) pt va) PTE_V) eqn:Hv; [|done].
  destruct (has_flag (pte_of (mmem s) pt va) PTE_U) eqn:Hu; [|done]. f_equal. apply andb_true_iff in Hr as [Hr1%Z.leb_le Hr2%Z.ltb_lt].
  rewrite pte_of_pg in *. destruct (Hc (va / PGSIZE)) as [q Hq]; [by apply va_page|done|done|]. destruct (as_leaf _ _ _ _ _ Ha _ _ Hq) as (_ & _ & ->).
  apply (Hk q); [right; by eexists|apply in_page_off].
Qed.

(** Pages that the address space does not use. *)
Definition foreign (l : list Z) (own : gmap Z (list Z)) (ups : gmap Z Z) (q : Z) : Prop := page_ok q /\ (q ∉ l) /\ ~ pages_of own ups q.

Lemma quiet_foreign s l pt own ups s' l' own' : as_inv s l pt own ups -> quiet s l own s' l' own' -> keeps (foreign l own ups) s s'.
Proof.
  intros Ha Q q x (Hq & Hl & Hn) Hx. destruct (as_vm _ _ _ _ _ Ha) as [K Hpt _]. apply (q_bytes _ _ _ _ _ _ Q).
  - apply (page_not_owned _ pt own q x Hpt Hq); [|done]. destruct (own !! q) eqn:E; [|done]. destruct Hn. left. by eexists.
  - by apply (page_not_free s l q x K).
Qed.

Lemma clear_U v : PTE2PA (Z.land v (Z.lnot PTE_U)) = PTE2PA v /\ has_flag (Z.land v (Z.lnot PTE_U)) PTE_V = has_flag v PTE_V /\ has_flag (Z.land v (Z.lnot PTE_U)) PTE_U = false.
Proof.
  split_and!.
  - unfold PTE2PA. rewrite Z.shiftr_land. change (Z.shiftr (Z.lnot PTE_U) 10) with (-1). by rewrite Z.land_m1_r.
  - rewrite !has_flag_V, Z.land_spec. change (Z.testbit (Z.lnot PTE_U) 0) with true. apply andb_true_r.
  - rewrite has_flag_U, Z.land_spec. change (Z.testbit (Z.lnot PTE_U) 4) with false. apply andb_false_r.
Qed.

(** uvmclear() takes the page away from the user and changes no other. *)
Lemma uvmclear_spec s l pt own ups n pa : as_inv s l pt own ups -> ups !! n = Some pa ->
  wp (uvmclear pt (n * PGSIZE)) (fun _ s' => as_inv s' l pt own ups /\
    (forall j, 0 <= j < NPG -> pte_pg (mmem s') pt j = if j =? n then Z.land (pte_pg (mmem s) pt n) (Z.lnot PTE_U) else pte_pg (mmem s) pt j) /\
    forall x, ~ owned_byte own x -> ld8 (mmem s') x = ld8 (mmem s) x) s.
Proof.
  intros Ha Hn. destruct (as_leaf _ _ _ _ _ Ha _ _ Hn) as (Hr & HV & Hpa). pose proof (vi_pt _ _ _ _ (as_vm _ _ _ _ _ Ha)) as Hpt. destruct (pg_range n Hr) as [_ Hmax].
  destruct (slot_valid _ _ _ HV) as (a & Has & Hld). pose proof (slot_pos _ _ _ 2 pt [] _ _ Hpt (pt_root _ _ _ Hpt) eq_refl Has) as Hapos.
  unfold uvmclear. wp_simp. eapply wp_of_ok; [by apply walk_ro|]. rewrite Has. cbn [default from_option id]. rewrite (proj2 (Z.eqb_neq a 0)) by lia.
  unfold rd64, wr64. wp_simp. rewrite Hld. set (v := pte_pg (mmem s) pt n) in *. destruct (clear_U v) as (C1 & C2 & _).
  assert (Hv : 0 <= Z.land v (Z.lnot PTE_U) < 2 ^ 64).
  { pose proof (ld64_range (mmem s) a) as R. rewrite Hld in R. rewrite <- (Z.mod_small v (2 ^ 64)) by done. rewrite <- Z.land_ones, <- Z.land_assoc, (Z.land_comm (Z.ones 64)), Z.land_assoc, Z.land_ones by done.
    by apply Z.mod_pos_bound. }
  assert (Hpte : forall j, 0 <= j < NPG -> pte_pg (st64 (mmem s) a (Z.land v (Z.lnot PTE_U))) pt j = if j =? n then Z.land v (Z.lnot PTE_U) else pte_pg (mmem s) pt j).
  { intros j Hj. by apply (pte_pg_set _ _ own n). }
  split; [|split; [exact Hpte|]].
  - split; [by eapply vm_set_leaf; [apply Ha|]|..]; [|apply Ha|apply Ha]. intros j q Hj. destruct (as_leaf _ _ _ _ _ Ha _ _ Hj) as (Hjr & HjV & Hjp).
    cbn [mmem set_mem]. rewrite Hpte by done. destruct (Z.eqb_spec j n) as [->|]; [|done]. rewrite C1, C2. fold v in HjV, Hjp. done.
  - intros x Hx. cbn [mmem set_mem]. apply ld8_st64_out. destruct (decide (a <= x < a + 8)); [|lia]. destruct Hx. by eapply slot_byte.
Qed.

(** The view of page [va] when its entry and its page are as before, and it
    is below both sizes. *)
Lemma uview_page_same s l pt own ups m' sz sz' va : as_inv s l pt own ups -> ucover (mmem s) pt ups -> 0 <= va < MAXVA -> va / PGSIZE < pgs sz -> va / PGSIZE < pgs sz' ->
  pte_of m' pt va = pte_of (mmem s) pt va -> (forall q x, ups !! (va / PGSIZE) = Some q -> in_page q x -> ld8 m' x = ld8 (mmem s) x) ->
  uview m' pt sz' va = uview (mmem s) pt sz va.
Proof.
  intros Ha Hc Hva Hs Hs' Hp Hb. unfold uview. rewrite Hp, (proj2 (Z.leb_le _ _)), (proj2 (Z.ltb_lt _ _)) by lia. cbn [andb].
  rewrite (proj2 (Z.ltb_lt _ _) Hs), (proj2 (Z.ltb_lt _ _) Hs'). destruct (has_flag (pte_of (mmem s) pt va) PTE_V) eqn:Hv; [|done].
  destruct (has_flag (pte_of (mmem s) pt va) PTE_U) eqn:Hu; [|done]. f_equal. rewrite pte_of_pg in *.
  destruct (Hc (va / PGSIZE)) as [q Hq]; [by apply va_page|done|done|]. destruct (as_leaf _ _ _ _ _ Ha _ _ Hq) as (_ & _ & ->).
  apply (Hb q); [done|apply in_page_off].
Qed.

(** The pages now used come from those used before and the free ones; free
    pages were free; foreign pages are untouched; no page is lost. *)
Record inside (s : mach) (l : list Z) (own : gmap Z (list Z)) (ups : gmap Z Z) (s' : mach) (l' : list Z) (own' : gmap Z (list Z)) (ups' : gmap Z Z) : Prop := {
  in_free : forall q, q ∈ l' -> q ∈ l;
  in_used : forall q, pages_of own' ups' q -> pages_of own ups q \/ q ∈ l;
  in_grows : forall q, pages_of own ups q -> pages_of own' ups' q;
  in_keeps : keeps (foreign l own ups) s s';
  in_all : forall q, q ∈ l -> q ∈ l' \/ pages_of own' ups' q
}.

(** Growing an address space. *)
Lemma grow_space m l pt own ups sz top perm m' l' own' ups' : space m l pt own ups sz -> sz <= top <= TRAPFRAME ->
  grow_rel m l pt own ups (pgs sz) (pgs top - pgs sz) perm m' l' own' ups' -> space m' l' pt own' ups' top.
Proof.
  intros [A S2 S3 S4] Ht [G1 G2 G3 G4 G5]. pose proof (pgs_mono sz top ltac:(lia)) as Hp. split; [done|lia|..].
  - intros j q Hj. destruct (decide (pgs sz <= j < pgs sz + (pgs top - pgs sz))); [lia|]. rewrite G3 in Hj by done. apply S3 in Hj. lia.
  - intros j Hj. destruct (decide (pgs sz <= j < pgs sz + (pgs top - pgs sz))) as [Hr|Hr]; [intros _; left; destruct (G5 j Hr) as (pa & Hpa & _); by eexists|].
    rewrite G3, G4 by done. by apply S4.
Qed.

Lemma grow_inside m l pt own ups n c perm m' l' own' ups' : as_inv m l pt own ups -> (forall j q, ups !! j = Some q -> j < n) ->
  grow_rel m l pt own ups n c perm m' l' own' ups' -> (forall q, q ∈ l -> q ∈ l' \/ pages_of own' ups' q) -> inside m l own ups m' l' own' ups'.
Proof.
  intros A Hu [G1 G2 G3 G4 G5] Hall. split; [apply G2| | |by apply (quiet_foreign m l pt own ups m' l' own')|done]; intros q [[path Hq]|[j Hj]].
  - destruct (q_from _ _ _ _ _ _ G2 _ _ Hq) as [?|?]; [left; left; by eexists|by right].
  - destruct (decide (n <= j < n + c)) as [Hr|Hr]; [destruct (G5 j Hr) as (pa & Hpa & Hl & _); right; congruence|]. rewrite G3 in Hj by done. left. right. by exists j.
  - left. exists path. by apply (lookup_weaken _ _ _ _ Hq), G2.
  - right. exists j. rewrite G3; [done|]. apply Hu in Hj. lia.
Qed.

Lemma fail_space m l pt own ups sz c m' l' own' : space m l pt own ups sz -> fail_rel m l pt own ups (pgs sz) c m' l' own' ->
  space m' l' pt own' ups sz /\ inside m l own ups m' l' own' ups.
Proof.
  intros [A S2 S3 S4] [F1 F2 F3 F4 _ F5 _]. split.
  - split; [done|done|done|]. intros j Hj. destruct (decide (pgs sz <= j < pgs sz + c)) as [Hr|Hr]; [by rewrite F4|]. rewrite F3 by done. by apply S4.
  - split; [apply F2| | |by apply (quiet_foreign m l pt own ups m' l' own')|done]; intros q [[path Hq]|[j Hj]].
    + destruct (q_from _ _ _ _ _ _ F2 _ _ Hq) as [?|?]; [left; left; by eexists|by right].
    + left; right; by exists j.
    + left. exists path. by apply (lookup_weaken _ _ _ _ Hq), F2.
    + right. by exists j.
Qed.

(** The two pages that exec() adds for the stack. *)
Record stack_added (s : mach) (pt sz : Z) (s' : mach) (ups' : gmap Z Z) : Prop := {
  sa_below : forall va, 0 <= va < pgs sz * PGSIZE -> uview (mmem s') pt ((pgs sz + 2) * PGSIZE) va = uview (mmem s) pt sz va;
  sa_guard : is_Some (ups' !! pgs sz);
  sa_stack : exists pa, ups' !! (pgs sz + 1) = Some pa;
  sa_flags : has_flag (pte_pg (mmem s') pt (pgs sz + 1)) PTE_U = true /\ has_flag (pte_pg (mmem s') pt (pgs sz + 1)) PTE_W = true
}.

Lemma page_below va n : 0 <= n -> 0 <= va < n * PGSIZE -> 0 <= va / PGSIZE < n.
Proof. intros Hn Hva. split; [apply Z.div_pos; [lia|done]|]. apply Z.div_lt_upper_bound; [done|lia]. Qed.

Lemma round_up sz : 0 <= sz -> sz <= pgs sz * PGSIZE.
Proof. intros H. unfold pgs, PGSIZE. Z.to_euclidean_division_equations. lia. Qed.

Lemma RWU_flags pa : has_flag (pte_val pa (Z.lor (Z.lor PTE_R PTE_U) PTE_W)) PTE_U = true /\ has_flag (pte_val pa (Z.lor (Z.lor PTE_R PTE_U) PTE_W)) PTE_W = true.
Proof. rewrite has_flag_U, has_flag_W. unfold pte_val. rewrite !Z.lor_spec. split; by rewrite ?orb_true_r. Qed.

Lemma stack_alloc_spec s l pt own ups sz : space s l pt own ups sz -> (pgs sz + 2) * PGSIZE <= TRAPFRAME ->
  wp (uvmalloc pt (pgs sz * PGSIZE) ((pgs sz + 2) * PGSIZE) PTE_W) (fun r s' => exists l' own' ups', inside s l own ups s' l' own' ups' /\
    (r = 0 /\ space s' l' pt own' ups' (pgs sz * PGSIZE) /\ (length l <= 6)%nat \/
     r = (pgs sz + 2) * PGSIZE /\ space s' l' pt own' ups' ((pgs sz + 2) * PGSIZE) /\ stack_added s pt sz s' ups')) s.
Proof.
  intros Sp Hmax. pose proof Sp as [Ha Hs Hu Hall]. pose proof (space_cover _ _ _ _ _ _ Sp) as Hc. set (n := pgs sz) in *.
  assert (HN : NPG = 2 ^ 26) by done. assert (HM : MAXVA = NPG * PGSIZE) by done. assert (HT : TRAPFRAME = (NPG - 2) * PGSIZE) by done.
  assert (Hn : 0 <= n /\ n + 2 <= NPG - 2). { unfold n. pose proof (pgs_range sz ltac:(lia)). rewrite HT in Hmax. unfold PGSIZE in Hmax. lia. }
  assert (Hfree : forall j, n <= j < n + 2 -> has_flag (pte_pg (mmem s) pt j) PTE_V = false).
  { intros j Hj. destruct (has_flag (pte_pg (mmem s) pt j) PTE_V) eqn:Hv; [|done]. destruct (Hall j ltac:(lia) Hv) as [[q Hq]|[? _]]; [apply Hu in Hq; lia|lia]. }
  eapply wp_mono; [apply (uvmalloc_spec s l pt own ups (n * PGSIZE) ((n + 2) * PGSIZE) PTE_W Ha); [unfold PGSIZE; lia|unfold PGSIZE in *; lia|done|by rewrite !pgs_mul]|].
  unfold alloc_post. rewrite !pgs_mul. replace (n + 2 - n) with 2 by lia.
  intros r s' (own' & l' & [(-> & ups' & G & Hsp)|(-> & F)]).
  - exists l', own', ups'. split; [eapply grow_inside; [done|done|exact G|apply Hsp]|]. right. split; [done|]. split.
    { apply (grow_space s l pt own ups sz _ (Z.lor (Z.lor PTE_R PTE_U) PTE_W) s' l' own' ups' Sp); [pose proof (round_up sz ltac:(lia)); fold n; unfold n, PGSIZE in *; lia|].
      rewrite pgs_mul. fold n. by replace (n + 2 - n) with 2 by lia. }
    destruct G as [G1 G2 G3 G4 G5]. destruct (G5 n ltac:(lia)) as (g & Hg & _). destruct (G5 (n + 1) ltac:(lia)) as (pa & Hpa & _ & Hpte & _).
    split; fold n; [|by eexists|by exists pa|rewrite Hpte; apply RWU_flags]. intros va Hva. pose proof (page_below va n ltac:(lia) Hva) as Hd.
    apply (uview_page_same s l pt own ups); try done; [unfold PGSIZE in *; lia|fold n; lia|rewrite pgs_mul; lia|rewrite !pte_of_pg; apply G4; lia|].
    intros q x Hq Hx. by apply (user_page_quiet s l pt own ups s' l' own' (va / PGSIZE) q).
  - destruct (fail_space s l pt own ups sz 2 s' l' own' Sp F) as [[F1 F2 F3 F4] I]. exists l', own', ups. split; [done|]. left. split; [done|]. split; [|pose proof (fr_short _ _ _ _ _ _ _ _ _ _ F); lia].
    split; [done|unfold PGSIZE in *; lia|by rewrite pgs_mul|done].
Qed.

Lemma inside_refl s l own ups : inside s l own ups s l own ups.
Proof. split; [done|by left|done|done|by left]. Qed.
Lemma inside_keeps_other s l own ups s' l' own' ups' q : inside s l own ups s' l' own' ups' -> foreign l own ups q -> foreign l' own' ups' q.
Proof. intros [I1 I2 _ _ _] (Hq & Hl & Hn). split; [done|]. split; [by intros ?%I1|]. intros [?|?]%I2; done. Qed.
Lemma inside_trans s l own ups s1 l1 own1 ups1 s2 l2 own2 ups2 : inside s l own ups s1 l1 own1 ups1 -> inside s1 l1 own1 ups1 s2 l2 own2 ups2 ->
  inside s l own ups s2 l2 own2 ups2.
Proof.
  intros A B. split.
  - intros q Hq. by apply (in_free _ _ _ _ _ _ _ _ A), (in_free _ _ _ _ _ _ _ _ B).
  - intros q Hq. destruct (in_used _ _ _ _ _ _ _ _ B q Hq) as [Hq1|Hq1]; [by apply (in_used _ _ _ _ _ _ _ _ A)|right; by apply (in_free _ _ _ _ _ _ _ _ A)].
  - intros q Hq. by apply (in_grows _ _ _ _ _ _ _ _ B), (in_grows _ _ _ _ _ _ _ _ A).
  - eapply keeps_pages_trans; [apply A|]. eapply keeps_mono; [|apply B]. intros q Hq. by apply (inside_keeps_other s l own ups s1).
  - intros q Hq. destruct (in_all _ _ _ _ _ _ _ _ A q Hq) as [Hq1|Hq1]; [by apply (in_all _ _ _ _ _ _ _ _ B)|right; by apply (in_grows _ _ _ _ _ _ _ _ B)].
Qed.

Lemma space_same s l pt own ups sz s' l' own' : space s l pt own ups sz -> as_inv s' l' pt own' ups ->
  (forall j, 0 <= j < NPG -> pte_pg (mmem s') pt j = pte_pg (mmem s) pt j \/ is_Some (ups !! j)) -> space s' l' pt own' ups sz.
Proof. intros [_ S2 S3 S4] A H. split; [done|done|done|]. intros j Hj Hv. destruct (H j Hj) as [E|?]; [|by left]. rewrite E in *. by apply S4. Qed.

(** The guard page below the stack. *)
Lemma guard_spec s l pt own ups sz n : space s l pt own ups sz -> is_Some (ups !! n) ->
  wp (uvmclear pt (n * PGSIZE)) (fun _ s' => space s' l pt own ups sz /\ inside s l own ups s' l own ups /\
    (forall z va, 0 <= va < MAXVA -> uview (mmem s') pt z va = if va / PGSIZE =? n then None else uview (mmem s) pt z va) /\
    forall j, 0 <= j < NPG -> j <> n -> pte_pg (mmem s') pt j = pte_pg (mmem s) pt j) s.
Proof.
  intros Sp [g Hg]. pose proof (space_cover _ _ _ _ _ _ Sp) as Hc. pose proof (spc_as _ _ _ _ _ _ Sp) as Ha. destruct (as_vm _ _ _ _ _ Ha) as [_ Hpt _].
  destruct (as_leaf _ _ _ _ _ Ha _ _ Hg) as (Hr & HV & _). eapply wp_mono; [by apply (uvmclear_spec s l pt own ups n g)|]. intros [] s' (A & P & Bx).
  assert (Hne : forall j, 0 <= j < NPG -> j <> n -> pte_pg (mmem s') pt j = pte_pg (mmem s) pt j) by (intros j Hj Hn; rewrite P by done; by rewrite (proj2 (Z.eqb_neq j n))).
  split_and!; [| |..|done].
  - apply (space_same s l pt own); [done|done|]. intros j Hj. destruct (decide (j = n)) as [->|]; [right; by eexists|left; by apply Hne].
  - split; [done|by left|done| |by left]. intros q x (Hq & Hl & Hn) Hx. apply Bx. apply (page_not_owned _ pt own q x Hpt Hq); [|done]. destruct (own !! q) eqn:E; [|done]. destruct Hn. left. by eexists.
  - intros z va Hva. pose proof (va_page va Hva) as Hd. unfold uview. rewrite (proj2 (Z.leb_le _ _)), (proj2 (Z.ltb_lt _ _)) by lia. cbn [andb]. rewrite !pte_of_pg, P by done.
    destruct (Z.eqb_spec (va / PGSIZE) n) as [->|Hn]; [destruct (clear_U (pte_pg (mmem s) pt n)) as (_ & -> & ->); by rewrite HV|].
    destruct (has_flag (pte_pg (mmem s) pt (va / PGSIZE)) PTE_V) eqn:Hv; [|done]. destruct (has_flag (pte_pg (mmem s) pt (va / PGSIZE)) PTE_U) eqn:Hu; [|done]. f_equal.
    destruct (Hc (va / PGSIZE) Hd Hv Hu) as [q Hq]. destruct (as_leaf _ _ _ _ _ Ha _ _ Hq) as (_ & _ & ->). apply Bx. intros Ho. by apply (as_sep s l pt own ups _ _ _ Ha Hq Ho), in_page_off.
Qed.

(** The page of the user stack: page [n], at [pa]. *)
Record stack_page (s : mach) (l : list Z) (pt : Z) (own : gmap Z (list Z)) (ups : gmap Z Z) (n pa : Z) : Prop := {
  sk_as : as_inv s l pt own ups;
  sk_cover : ucover (mmem s) pt ups;
  sk_page : ups !! n = Some pa;
  sk_user : has_flag (pte_pg (mmem s) pt n) PTE_U = true;
  sk_write : has_flag (pte_pg (mmem s) pt n) PTE_W = true
}.

(** Only page [pa] differs. *)
Definition only_page (pa : Z) (s s' : mach) : Prop :=
  kmem_lock s' = kmem_lock s /\ freelist s' = freelist s /\ forall x, ~ in_page pa x -> ld8 (mmem s') x = ld8 (mmem s) x.
Lemma only_page_trans pa s s1 s2 : only_page pa s s1 -> only_page pa s1 s2 -> only_page pa s s2.
Proof. intros (A1 & A2 & A3) (B1 & B2 & B3). split_and!; [congruence|congruence|]. intros x Hx. by rewrite B3, A3. Qed.

(** Storing bytes in it. *)
Lemma stack_store u s l pt own ups n pa dst bs : stack_page s l pt own ups n pa -> n * PGSIZE <= dst -> dst + Z.of_nat (length bs) <= n * PGSIZE + PGSIZE -> bs <> [] -> byte_list bs ->
  wp (copyout u pt dst bs) (fun r s' => r = 0 /\ stack_page s' l pt own ups n pa /\ only_page pa s s' /\ (forall va, pte_of (mmem s') pt va = pte_of (mmem s) pt va) /\
    forall sz, VmCopy.wrote sz pt dst bs (mmem s) (mmem s')) s.
Proof.
  intros [A C N U W] Hd Hl Hne Hb. eapply wp_mono; [by apply (copyout_mapped u s l pt own ups n pa)|]. intros r s' [-> ->].
  destruct (as_write s l pt own ups n pa (dst - n * PGSIZE) bs A C N) as [Hu Hpte]; [lia|lia|]. split; [done|]. split.
  - split; [apply Hu|apply Hu|done|..]; unfold pte_pg; cbn [mmem set_mem]; by rewrite Hpte.
  - split; [|split; [done|intros sz; by apply (wrote_page s l pt own ups)]]. split_and!; [done|done|]. intros x Hx. apply ld8_st_bytes_out. unfold in_page in Hx. lia.
Qed.

Lemma wrote_sees sz pt dst bs m m' : VmCopy.wrote sz pt dst bs m m' -> sees m' pt sz dst bs.
Proof.
  intros H k b Hk. destruct (H (dst + Z.of_nat k)) as [-> _]. pose proof (lookup_lt_Some _ _ _ Hk).
  rewrite (proj2 (Z.leb_le _ _)), (proj2 (Z.ltb_lt _ _)) by lia. cbn [andb]. by replace (Z.to_nat (dst + Z.of_nat k - dst)) with k by lia.
Qed.
Lemma sees_same m m' pt sz va bs : (forall k, (k < length bs)%nat -> uview m' pt sz (va + Z.of_nat k) = uview m pt sz (va + Z.of_nat k)) -> sees m pt sz va bs -> sees m' pt sz va bs.
Proof. intros H S k b Hk. rewrite H by (by eapply lookup_lt_Some). by apply S. Qed.

Lemma up16_spec n : 0 <= n -> n <= up16 n < n + 16 /\ up16 n mod 16 = 0.
Proof. intros H. unfold up16. split; [|apply Z.mod_mul; lia]. Z.to_euclidean_division_equations. lia. Qed.
Lemma down16 sp n : 0 <= n -> sp mod 16 = 0 -> (sp - n) - (sp - n) mod 16 = sp - up16 n.
Proof. intros Hn Hs. unfold up16. Z.to_euclidean_division_equations. lia. Qed.
Lemma need_mod argv top : top mod 16 = 0 -> (top - need argv) mod 16 = 0.
Proof.
  intros Ht. assert (need argv mod 16 = 0) as E; [|by rewrite Zminus_mod, Ht, E].
  induction argv as [|a argv IH]; cbn [need]; [done|]. pose proof (up16_spec (Z.of_nat (length a) + 1) ltac:(lia)) as [_ E]. by rewrite Zplus_mod, E, IH.
Qed.
Lemma args_need_pos argv : 0 <= need argv.
Proof. induction argv as [|a argv IH]; cbn [need]; [lia|]. pose proof (up16_spec (Z.of_nat (length a) + 1) ltac:(lia)). lia. Qed.

(** The image with its stack, before the arguments; [m0] is the image
    without it. *)
Record stack_ready (m0 : mem) (pt sz : Z) (s : mach) (l : list Z) (own : gmap Z (list Z)) (ups : gmap Z Z) (pa : Z) : Prop := {
  sr_space : space s l pt own ups ((pgs sz + 2) * PGSIZE);
  sr_page : stack_page s l pt own ups (pgs sz + 1) pa;
  sr_below : forall va, 0 <= va < pgs sz * PGSIZE -> uview (mmem s) pt ((pgs sz + 2) * PGSIZE) va = uview m0 pt sz va;
  sr_guard : forall va, pgs sz * PGSIZE <= va < (pgs sz + 1) * PGSIZE -> uview (mmem s) pt ((pgs sz + 2) * PGSIZE) va = None
}.

Lemma pgs_room sz : 0 <= sz -> (pgs sz + 2) * PGSIZE <= TRAPFRAME -> 0 <= pgs sz /\ pgs sz + 2 <= NPG - 2.
Proof.
  intros H0 Hm. assert (HT : TRAPFRAME = (NPG - 2) * PGSIZE) by done. assert (0 <= pgs sz) by (unfold pgs; apply Z.div_pos; unfold PGSIZE; lia).
  rewrite HT in Hm. unfold PGSIZE in Hm. lia.
Qed.

Lemma guard_ready s0 pt sz s l own ups : space s l pt own ups ((pgs sz + 2) * PGSIZE) -> stack_added s0 pt sz s ups -> 0 <= sz -> (pgs sz + 2) * PGSIZE <= TRAPFRAME ->
  wp (uvmclear pt (pgs sz * PGSIZE)) (fun _ s' => exists pa, stack_ready (mmem s0) pt sz s' l own ups pa /\ inside s l own ups s' l own ups) s.
Proof.
  intros Sp [A1 A2 [pa A3] [A4 A5]] H0 Hm. destruct (pgs_room sz H0 Hm) as [Hn Hn2]. assert (HN : NPG = 2 ^ 26) by done. assert (HM : MAXVA = NPG * PGSIZE) by done.
  eapply wp_mono; [by apply (guard_spec s l pt own ups ((pgs sz + 2) * PGSIZE) (pgs sz))|]. intros [] s' (Sp' & I & V & P). exists pa. split; [|done]. split; [done|..].
  - split; [apply Sp'|by apply (space_cover s' l pt own ups ((pgs sz + 2) * PGSIZE))|done|..]; by rewrite P by lia.
  - intros va Hva. pose proof (page_below va (pgs sz) Hn Hva). rewrite V by (unfold PGSIZE in *; lia). rewrite (proj2 (Z.eqb_neq _ _)) by lia. by apply A1.
  - intros va Hva. rewrite V by (unfold PGSIZE in *; lia). replace (va / PGSIZE) with (pgs sz); [by rewrite Z.eqb_refl|]. apply Z.div_unique with (va - pgs sz * PGSIZE); unfold PGSIZE in *; lia.
Qed.

(** Stores in the stack page keep it so. *)
Lemma only_page_view s l pt own ups n pa s' z va : stack_page s l pt own ups n pa -> only_page pa s s' -> (forall a, pte_of (mmem s') pt a = pte_of (mmem s) pt a) ->
  va < n * PGSIZE -> uview (mmem s') pt z va = uview (mmem s) pt z va.
Proof.
  intros [A C N _ _] (_ & _ & Hx) P Hva. unfold uview. rewrite P. destruct (_ && _) eqn:Hr; [|done]. destruct (has_flag (pte_of (mmem s) pt va) PTE_V) eqn:Hv; [|done].
  destruct (has_flag (pte_of (mmem s) pt va) PTE_U) eqn:Hu; [|done]. f_equal. apply andb_true_iff in Hr as [Hr1%Z.leb_le Hr2%Z.ltb_lt].
  rewrite pte_of_pg in *. destruct (C (va / PGSIZE)) as [q Hq]; [by apply va_page|done|done|]. destruct (as_leaf _ _ _ _ _ A _ _ Hq) as (_ & _ & ->).
  destruct (as_page _ _ _ _ _ A _ _ Hq) as (Hok & _). destruct (as_page _ _ _ _ _ A _ _ N) as (Hpok & _).
  apply Hx, (in_page_ne q pa); [done|done| |apply in_page_off]. intros ->. pose proof (as_inj _ _ _ _ _ A _ _ _ Hq N) as E.
  assert (va / PGSIZE < n) by (apply Z.div_lt_upper_bound; [done|lia]). lia.
Qed.
Lemma ready_store m0 pt sz s l own ups pa s' : stack_ready m0 pt sz s l own ups pa -> stack_page s' l pt own ups (pgs sz + 1) pa -> only_page pa s s' ->
  (forall va, pte_of (mmem s') pt va = pte_of (mmem s) pt va) -> stack_ready m0 pt sz s' l own ups pa.
Proof.
  intros [S1 S2 S3 S4] K O P. pose proof (fun z va => only_page_view s l pt own ups _ pa s' z va S2 O P) as V. split; [|done|..].
  - apply (space_same s l pt own); [done|apply K|]. intros j _. left. unfold pte_pg. apply P.
  - intros va Hva. rewrite V by (unfold PGSIZE in *; lia). by apply S3.
  - intros va Hva. rewrite V by lia. by apply S4.
Qed.

Lemma only_page_inside s l own ups pa s' : pages_of own ups pa -> page_ok pa -> only_page pa s s' -> inside s l own ups s' l own ups.
Proof. intros Hp Ho (_ & _ & Hx). split; [done|by left|done| |by left]. intros q x (Hq & _ & Hn) Hxq. apply Hx. apply (in_page_ne q pa x Hq Ho); [|done]. by intros ->. Qed.
End memory.

(** * Arguments *)

Section args.
Context {B D : Type} `{BK : Blocks B} `{L : Layout} `{LO : !LayoutOk L}.
Implicit Types (s : kern B D).

Definition machine s : mach := fs_um (kr_fs s).
Definition with_machine (m : mach) s : kern B D := set_kr_fs (set_fs_um m (kr_fs s)) s.
Lemma with_machine_same s : with_machine (machine s) s = s.
Proof. by destruct s as [[]]. Qed.
Lemma with_machine_twice m m' s : with_machine m' (with_machine m s) = with_machine m' s.
Proof. by destruct s as [[]]. Qed.

(** Strings as the kernel passes them: bytes, each string less than a page. *)
Definition good_args (argv : list (list Z)) : Prop := Forall (fun a => byte_list a /\ Z.of_nat (length a) < PGSIZE) argv.

(** The pointers [ptrs] from [lo] up to [hi] point to the strings. *)
Definition strings_at (m : mem) (pt sz lo hi : Z) (argv : list (list Z)) (ptrs : list Z) : Prop :=
  length ptrs = length argv /\ forall k a q, argv !! k = Some a -> ptrs !! k = Some q -> lo <= q /\ q + Z.of_nat (length a) < hi /\ sees m pt sz q (a ++ [0]).

Lemma push_args_spec u l pt own ups n pa argv argc sp ustack s : stack_page (machine s) l pt own ups n pa -> good_args argv -> PGSIZE <= n * PGSIZE -> 0 <= n < NPG ->
  n * PGSIZE <= sp <= n * PGSIZE + PGSIZE -> sp mod 16 = 0 -> 0 <= argc ->
  wp (push_args u pt (n * PGSIZE) argv argc sp ustack) (fun r s' => exists m', s' = with_machine m' s /\ stack_page m' l pt own ups n pa /\ only_page pa (machine s) m' /\
    (forall va, pte_of (mmem m') pt va = pte_of (mmem (machine s)) pt va) /\
    let fits := argc + Z.of_nat (length argv) <= MAXARG /\ need argv <= sp - n * PGSIZE in
    match r with
    | None => ~ fits
    | Some (sp', us) => (argv <> [] -> fits) /\ sp' = sp - need argv /\ exists ptrs, us = ustack ++ ptrs /\ length ptrs = length argv /\
        (forall sz, strings_at (mmem m') pt sz sp' sp argv ptrs) /\ forall sz va, ~ sp' <= va < sp -> uview (mmem m') pt sz va = uview (mmem (machine s)) pt sz va
    end) s.
Proof.
  revert argc sp ustack s. induction argv as [|a argv IH]; intros argc sp ustack s K Hg Hn1 Hn2 Hsp H16 Hc; cbn [push_args].
  { wp_simp. exists (machine s). rewrite with_machine_same. split_and!; try done; [cbn [need]; lia|]. exists []. rewrite app_nil_r. split_and!; try done. }
  apply Forall_cons in Hg as [[Ha Hal] Hg]. cbn [need length]. pose proof (args_need_pos argv) as Hnp. pose proof (up16_spec (Z.of_nat (length a) + 1) ltac:(lia)) as [Hu1 Hu2].
  assert (Hm : MAXVA = 2 ^ 38) by done. pose proof (pg_range n Hn2) as [_ Hmax].
  destruct (Z.leb_spec MAXARG argc) as [Hmx|Hmx].
  { wp_simp. exists (machine s). rewrite with_machine_same. split_and!; try done. lia. }
  rewrite u64_small by (unfold PGSIZE in *; lia). rewrite down16 by lia. set (d := up16 (Z.of_nat (length a) + 1)) in *.
  destruct (Z.ltb_spec (sp - d) (n * PGSIZE)) as [Hlt|Hge].
  { wp_simp. exists (machine s). rewrite with_machine_same. split_and!; try done. lia. }
  rewrite wp_bind, wp_onm. fold (machine s). assert (Hlen : Z.of_nat (length (a ++ [0])) = Z.of_nat (length a) + 1) by (rewrite length_app; cbn; lia).
  eapply wp_mono; [apply (stack_store u (machine s) l pt own ups n pa (sp - d) (a ++ [0]) K); [lia|lia|by destruct a|by apply Forall_app_2; [|repeat constructor]]|].
  intros r m1 (-> & K1 & O1 & E1 & W1). fold (with_machine m1 s). change (0 <? 0) with false. cbv iota.
  assert (F1 : (sp - d) mod 16 = 0) by (rewrite Zminus_mod, H16, Hu2; done).
  eapply wp_mono; [apply (IH (argc + 1) (sp - d) (ustack ++ [sp - d]) (with_machine m1 s) K1 Hg Hn1 Hn2); [lia|exact F1|lia]|].
  intros o s' (m' & -> & K2 & O2 & E2 & H). change (machine (with_machine m1 s)) with m1 in *. rewrite with_machine_twice. exists m'. split; [done|]. split; [done|].
  split; [by apply (only_page_trans pa _ m1)|]. split; [intros va; by rewrite E2, E1|]. cbv zeta in H |- *.
  destruct o as [[sp' us]|]; [|intros [? ?]; apply H; lia].
  destruct H as (Hf & -> & ptrs & -> & Hpl & Hst & Hout).
  assert (Hfit : argc + Z.of_nat (S (length argv)) <= MAXARG /\ d + need argv <= sp - n * PGSIZE).
  { destruct argv as [|a2 argv]; [cbn in *; lia|]. specialize (Hf ltac:(done)). cbn [length] in *. lia. }
  split; [done|]. split; [lia|]. exists ((sp - d) :: ptrs). split; [by rewrite <- (assoc_L (++))|]. split; [cbn; lia|]. split.
  - intros sz. split; [cbn; lia|]. intros [|k] b q Hb Hq.
    + injection Hb as <-. injection Hq as <-. split; [lia|]. split; [lia|]. eapply sees_same; [|apply (wrote_sees _ _ _ _ _ _ (W1 sz))]. intros j Hj. apply Hout. lia.
    + destruct (Hst sz) as [_ Hs]. destruct (Hs k b q Hb Hq) as (H1 & H2 & H3). split; [lia|]. split; [lia|done].
  - intros sz va Hva. rewrite Hout by lia. destruct (W1 sz va) as [-> _]. rewrite Hlen. destruct (Z.leb_spec (sp - d) va); [|done]. destruct (Z.ltb_spec va (sp - d + (Z.of_nat (length a) + 1))); [lia|done].
Qed.

(** proc_freepagetable() gives every page of the address space back. *)
Lemma proc_freepagetable_spec pt sz s l own ups : space (machine s) l pt own ups sz ->
  wp (proc_freepagetable pt sz) (fun _ s' => exists m', s' = with_machine m' s /\ freed nowhere (machine s) l (pages_of own ups) m') s.
Proof.
  intros Sp. pose proof (space_free_spec _ _ _ _ _ _ Sp) as F. unfold proc_freepagetable. rewrite wp_bind in F. rewrite wp_bind, wp_onm. eapply wp_mono; [exact F|].
  clear F. intros [] m1 F. rewrite wp_bind in F. rewrite wp_bind, wp_onm. eapply wp_mono; [exact F|]. clear F. intros [] m2 F. rewrite wp_onm. eapply wp_mono; [exact F|].
  intros [] m3 Hf. exists m3. split; [|done]. by destruct s as [[]].
Qed.

Lemma space_root m l pt own ups sz : space m l pt own ups sz -> pt <> 0.
Proof.
  intros Sp. destruct (as_vm _ _ _ _ _ (spc_as _ _ _ _ _ _ Sp)) as [_ Hpt _]. destruct (pt_page _ _ _ Hpt pt [] (pt_root _ _ _ Hpt)) as [Hok _].
  pose proof (page_ok_pos _ Hok). lia.
Qed.

Lemma exec_bad_spec pid pt sz s l own ups : space (machine s) l pt own ups sz ->
  wp (exec_bad pid pt sz None) (fun r s' => r = -1 /\ exists m', s' = with_machine m' s /\ freed nowhere (machine s) l (pages_of own ups) m') s.
Proof.
  intros Sp. unfold exec_bad. rewrite (proj2 (Z.eqb_neq pt 0) (space_root _ _ _ _ _ _ Sp)). rewrite wp_bind. eapply wp_mono; [by apply (proc_freepagetable_spec pt sz s l own ups)|].
  intros [] s' (m' & -> & Hf). wp_simp. split; [done|]. by exists m'.
Qed.

(** Process [i] with its old address space, and the loaded image. *)
Record exec_pre (i : nat) s (l : list Z) (own : gmap Z (list Z)) (ups : gmap Z Z) (pt : Z) (ownN : gmap Z (list Z)) (upsN : gmap Z Z) (sz : Z) : Prop := {
  xp_proc : (i < length (kr_proc s))%nat;
  xp_old : space (machine s) l (pr_pagetable (getp i s)) own ups (pr_sz (getp i s));
  xp_new : space (machine s) l pt ownN upsN sz;
  xp_apart : forall q, pages_of own ups q -> ~ pages_of ownN upsN q;
  xp_frame : foreign l own ups (pr_trapframe (getp i s)) /\ ~ pages_of ownN upsN (pr_trapframe (getp i s));
  xp_room : (pgs sz + 2) * PGSIZE <= TRAPFRAME
}.
(** The pages that are not the image's. *)
Definition others (own : gmap Z (list Z)) (ups : gmap Z Z) (tf q : Z) : Prop := pages_of own ups q \/ q = tf.

Lemma pages_ok m l pt own ups q : as_inv m l pt own ups -> pages_of own ups q -> page_ok q /\ (q ∉ l).
Proof.
  intros Ha [[path Hq]|[j Hj]].
  - destruct (as_vm _ _ _ _ _ Ha) as [_ Hpt Hs]. split; [by destruct (pt_page _ _ _ Hpt _ _ Hq)|]. intros Hl. by rewrite Hs in Hq.
  - destruct (as_page _ _ _ _ _ Ha _ _ Hj) as (? & _ & ?). done.
Qed.

Lemma others_foreign i s l own ups pt ownN upsN sz q : exec_pre i s l own ups pt ownN upsN sz -> others own ups (pr_trapframe (getp i s)) q -> foreign l ownN upsN q.
Proof.
  intros [_ [Ho _ _ _] _ Hap [[F1 [F2 _]] F3] _] [Hq| ->]; [|done]. destruct (pages_ok _ _ _ _ _ _ Ho Hq). split; [done|]. split; [done|by apply Hap].
Qed.

Lemma freed_keeps m l (ps F : Z -> Prop) m' : freed nowhere m l ps m' -> (forall q, F q -> page_ok q /\ ~ ps q) -> keeps F m m'.
Proof.
  intros (fr & K & Hfr & Hb) HF q x Hq Hx. destruct (HF q Hq) as [Hok Hn]. apply Hb; [|unfold nowhere; tauto]. apply (not_free_other fr q); try done.
  - pose proof (km_ok _ _ K) as Hk. by apply Forall_app in Hk as [? _].
  - by intros ?%Hfr.
Qed.

(** exec() gives up: the process and its memory are as they were, and every
    page that was free or belonged to the image is free. *)
Definition exec_failed (i : nat) s (l : list Z) (own : gmap Z (list Z)) (ups : gmap Z Z) (ownN : gmap Z (list Z)) (upsN : gmap Z Z) (r : Z) s' : Prop :=
  r = -1 /\ exists m' l', s' = with_machine m' s /\ space m' l' (pr_pagetable (getp i s)) own ups (pr_sz (getp i s)) /\
    keeps (others own ups (pr_trapframe (getp i s))) (machine s) m' /\ forall q, q ∈ l \/ pages_of ownN upsN q -> q ∈ l'.

Lemma exec_fail i s l own ups pt ownN upsN sz pid m1 l1 own1 ups1 szb : exec_pre i s l own ups pt ownN upsN sz ->
  inside (machine s) l ownN upsN m1 l1 own1 ups1 -> space m1 l1 pt own1 ups1 szb ->
  wp (exec_bad pid pt szb None) (exec_failed i s l own ups ownN upsN) (with_machine m1 s).
Proof.
  intros X I Sp. pose proof (fun q => others_foreign i s l own ups pt ownN upsN sz q X) as OF. pose proof (spc_as _ _ _ _ _ _ (xp_old _ _ _ _ _ _ _ _ _ X)) as Ao.
  assert (Hf1 : forall q, others own ups (pr_trapframe (getp i s)) q -> foreign l1 own1 ups1 q) by (intros q Hq; by eapply inside_keeps_other, OF).
  eapply wp_mono; [by apply (exec_bad_spec pid pt szb (with_machine m1 s) l1 own1 ups1)|]. intros r s' [-> (m' & -> & Hf)]. split; [done|].
  assert (Kp : keeps (others own ups (pr_trapframe (getp i s))) (machine s) m').
  { apply (keeps_pages_trans _ _ m1); [eapply keeps_mono; [exact OF|apply I]|]. apply (freed_keeps m1 l1 (pages_of own1 ups1)); [exact Hf|]. intros q Hq. destruct (Hf1 q Hq) as (? & _ & ?). done. }
  destruct Hf as (fr & K & Hfr & _). exists m', (fr ++ l1). rewrite with_machine_twice. split; [done|]. split; [|split; [done|]].
  - apply (space_frame (machine s) l); [apply X|done| |eapply keeps_mono; [|exact Kp]; by left]. intros q Hq Hp. destruct (Hf1 q (or_introl Hp)) as (_ & Hl & Hn).
    apply elem_of_app in Hq as [Hq%Hfr|Hq]; done.
  - intros q Hq. rewrite elem_of_app, Hfr. destruct Hq as [Hq|Hq]; [destruct (in_all _ _ _ _ _ _ _ _ I q Hq); [by right|by left]|left; by apply (in_grows _ _ _ _ _ _ _ _ I)].
Qed.

(** The new image: the loaded program, the guard page, and on the stack the
    argument strings and the array of pointers to them. *)
Record new_image (m0 : mem) (pt sz : Z) (argv : list (list Z)) (sp : Z) (m : mem) : Prop := {
  ni_below : forall va, 0 <= va < pgs sz * PGSIZE -> uview m pt ((pgs sz + 2) * PGSIZE) va = uview m0 pt sz va;
  ni_guard : forall va, pgs sz * PGSIZE <= va < (pgs sz + 1) * PGSIZE -> uview m pt ((pgs sz + 2) * PGSIZE) va = None;
  ni_sp : (pgs sz + 1) * PGSIZE <= sp /\ sp mod 16 = 0;
  ni_args : exists ptrs, strings_at m pt ((pgs sz + 2) * PGSIZE) (sp + 8 * (Z.of_nat (length argv) + 1)) ((pgs sz + 2) * PGSIZE) argv ptrs /\
    sees m pt ((pgs sz + 2) * PGSIZE) sp (concat (le_encode 8 <$> (ptrs ++ [0])))
}.

Lemma new_image_frame m0 pt sz argv sp (m : mach) l own ups (m' : mach) : as_inv m l pt own ups -> ucover (mmem m) pt ups -> keeps (pages_of own ups) m m' ->
  new_image m0 pt sz argv sp (mmem m) -> new_image m0 pt sz argv sp (mmem m').
Proof.
  intros A C K [N1 N2 N3 (ptrs & [N4 N5] & N6)]. pose proof (fun z va => uview_frame m l pt own ups m' z va A C K) as V.
  split; [intros va Hva; rewrite V; by apply N1|intros va Hva; rewrite V; by apply N2|done|]. exists ptrs. split; [split; [done|]|].
  - intros k a q Ha Hq. destruct (N5 k a q Ha Hq) as (? & ? & S). split_and!; [done|done|]. eapply sees_same; [|exact S]. intros. apply V.
  - eapply sees_same; [|exact N6]. intros. apply V.
Qed.

(** The words of the trapframe that exec() sets. *)
Definition frame_words (tf x : Z) : Prop := tf + TF_A1 <= x < tf + TF_A1 + 8 \/ tf + TF_EPC <= x < tf + TF_EPC + 8 \/ tf + TF_SP <= x < tf + TF_SP + 8.

Definition exec_done (i : nat) s (path : list Z) (l : list Z) (own : gmap Z (list Z)) (ups : gmap Z Z) (ownN : gmap Z (list Z)) (upsN : gmap Z Z) (pt sz entry : Z) (argv : list (list Z)) (r : Z) s' : Prop :=
  let tf := pr_trapframe (getp i s) in let top := (pgs sz + 2) * PGSIZE in
  r = Z.of_nat (length argv) /\ exists m' l' own' ups' sp,
    s' = with_machine m' (updp i (fun p => set_pr_sz top (set_pr_pagetable pt (set_pr_name (take 15 (last_elem path path)) p))) s) /\
    space m' l' pt own' ups' top /\ new_image (mmem (machine s)) pt sz argv sp (mmem m') /\
    (forall q, pages_of own ups q -> q ∈ l') /\ (forall q, q ∈ l \/ pages_of ownN upsN q -> q ∈ l' \/ pages_of own' ups' q) /\
    (ld64 (mmem m') (tf + TF_A1) = sp /\ ld64 (mmem m') (tf + TF_EPC) = entry /\ ld64 (mmem m') (tf + TF_SP) = sp) /\
    forall x, in_page tf x -> ~ frame_words tf x -> ld8 (mmem m') x = ld8 (mmem (machine s)) x.

(** The three stores to the trapframe. *)
Definition frame_set (tf sp entry : Z) (m : mem) : mem := st64 (st64 (st64 m (tf + TF_A1) sp) (tf + TF_EPC) entry) (tf + TF_SP) sp.
Lemma frame_set_spec tf sp entry m : 0 <= sp < 2 ^ 64 -> 0 <= entry < 2 ^ 64 ->
  (ld64 (frame_set tf sp entry m) (tf + TF_A1) = sp /\ ld64 (frame_set tf sp entry m) (tf + TF_EPC) = entry /\ ld64 (frame_set tf sp entry m) (tf + TF_SP) = sp) /\
  forall x, ~ frame_words tf x -> ld8 (frame_set tf sp entry m) x = ld8 m x.
Proof.
  intros Hs He. unfold frame_set. split_and!.
  - rewrite !ld64_st64_ne by (unfold TF_A1, TF_EPC, TF_SP; lia). by rewrite ld64_st64_eq.
  - rewrite ld64_st64_ne by (unfold TF_A1, TF_EPC, TF_SP; lia). by rewrite ld64_st64_eq.
  - by rewrite ld64_st64_eq.
  - intros x Hx. unfold frame_words in Hx. rewrite !ld8_st64_out by lia. done.
Qed.
Lemma frame_words_in tf x : frame_words tf x -> in_page tf x.
Proof. unfold frame_words, in_page, TF_A1, TF_EPC, TF_SP, PGSIZE. lia. Qed.

Lemma with_machine_updp m i f s : updp i f (with_machine m s) = with_machine m (updp i f s).
Proof. by destruct s as [[]]. Qed.
Lemma machine_with m s : machine (with_machine m s) = m.
Proof. by destruct s as [[]]. Qed.

Lemma exec_switch i s l own ups pt ownN upsN sz path entry sp (argc : Z) m1 l1 own1 ups1 : exec_pre i s l own ups pt ownN upsN sz ->
  let tf := pr_trapframe (getp i s) in let top := (pgs sz + 2) * PGSIZE in
  inside (machine s) l ownN upsN m1 l1 own1 ups1 -> space m1 l1 pt own1 ups1 top -> 0 <= sp < 2 ^ 64 -> 0 <= entry < 2 ^ 64 ->
  wp (onm (wr64 (tf + TF_A1) sp) ;; modp i (set_pr_name (take 15 (last_elem path path))) ;; modp i (set_pr_pagetable pt) ;; modp i (set_pr_sz top) ;;
      onm (wr64 (tf + TF_EPC) entry) ;; onm (wr64 (tf + TF_SP) sp) ;; proc_freepagetable (pr_pagetable (getp i s)) (pr_sz (getp i s)) ;; ret argc)
    (fun r s' => r = argc /\ exists m' l',
      s' = with_machine m' (updp i (fun p => set_pr_sz top (set_pr_pagetable pt (set_pr_name (take 15 (last_elem path path)) p))) s) /\
      space m' l' pt own1 ups1 top /\ keeps (pages_of own1 ups1) m1 m' /\ (forall q, pages_of own ups q -> q ∈ l') /\ (forall q, q ∈ l1 -> q ∈ l') /\
      (ld64 (mmem m') (tf + TF_A1) = sp /\ ld64 (mmem m') (tf + TF_EPC) = entry /\ ld64 (mmem m') (tf + TF_SP) = sp) /\
      forall x, in_page tf x -> ~ frame_words tf x -> ld8 (mmem m') x = ld8 (mmem (machine s)) x) (with_machine m1 s).
Proof.
  intros X tf top I Sp Hsp He. pose proof (fun q => others_foreign i s l own ups pt ownN upsN sz q X) as OF. pose proof (xp_frame _ _ _ _ _ _ _ _ _ X) as [(T1 & T2 & T3) T4].
  assert (Hf1 : forall q, others own ups tf q -> foreign l1 own1 ups1 q) by (intros q Hq; by eapply inside_keeps_other, OF).
  destruct (Hf1 tf (or_intror eq_refl)) as (_ & Htl & Htn). pose proof (spc_as _ _ _ _ _ _ (xp_old _ _ _ _ _ _ _ _ _ X)) as Ao.
  set (m2 := set_mem (frame_set tf sp entry) m1). destruct (frame_set_spec tf sp entry (mmem m1) Hsp He) as [Hld Hout].
  set (s2 := updp i (fun p => set_pr_sz top (set_pr_pagetable pt (set_pr_name (take 15 (last_elem path path)) p))) s).
  assert (Hkp : forall F : Z -> Prop, (forall q, F q -> page_ok q /\ q <> tf) -> keeps F m1 m2).
  { intros F HF q x Hq Hx. destruct (HF q Hq) as [Hok Hne]. apply Hout. intros Hw%frame_words_in. by apply (in_page_ne q tf x). }
  assert (K2 : kmem_inv m2 l1).
  { pose proof (vi_kmem _ _ _ _ (as_vm _ _ _ _ _ (spc_as _ _ _ _ _ _ Sp))) as K1. apply (kmem_inv_frame m1); try done. intros x (q & Hq & Hx).
    pose proof (km_ok _ _ K1) as Hk. rewrite Forall_forall in Hk. apply (Hkp (fun q => q ∈ l1)) with q; try done. intros q' Hq'. split; [by apply Hk|congruence]. }
  unfold wr64, modp. rewrite wp_bind, wp_onm. wp_simp. rewrite !wp_onm. wp_simp. rewrite wp_onm. wp_simp.
  assert (Es2 : updp i (set_pr_sz top) (updp i (set_pr_pagetable pt) (updp i (set_pr_name (take 15 (last_elem path path))) s)) = s2) by (by rewrite !updp_updp).
  match goal with |- wp _ _ ?g => replace g with (with_machine m2 s2) by (rewrite <- Es2; by destruct s as [[]]) end.
  assert (Ko : keeps (others own ups tf) (machine s) m1) by (eapply keeps_mono; [exact OF|apply I]).
  assert (So : space m2 l1 (pr_pagetable (getp i s)) own ups (pr_sz (getp i s))).
  { apply (space_frame (machine s) l); [apply X|done|intros q Hq Hp; destruct (Hf1 q (or_introl Hp)) as (_ & ? & _); done|].
    apply (keeps_pages_trans _ _ m1); [eapply keeps_mono; [|exact Ko]; by left|]. apply Hkp. intros q Hq. split; [by apply (pages_ok _ _ _ _ _ _ Ao Hq)|by intros ->]. }
  eapply wp_mono; [apply (proc_freepagetable_spec _ _ (with_machine m2 s2) l1 own ups); rewrite machine_with; exact So|]. rewrite machine_with.
  intros [] s' (m3 & -> & Hf). wp_simp. split; [done|]. pose proof (fun q => pages_ok _ _ _ _ _ q (spc_as _ _ _ _ _ _ Sp)) as Pn.
  assert (Kn : keeps (pages_of own1 ups1) m1 m3).
  { apply (keeps_pages_trans _ _ m2); [apply Hkp; intros q Hq; split; [by apply Pn|by intros ->]|]. apply (freed_keeps m2 l1 (pages_of own ups)); [exact Hf|].
    intros q Hq. split; [by apply Pn|]. intros Hp. by destruct (Hf1 q (or_introl Hp)) as (_ & _ & ?). }
  assert (Kt : keeps (fun q => q = tf) m2 m3) by (apply (freed_keeps m2 l1 (pages_of own ups)); [exact Hf|]; by intros q ->).
  destruct Hf as (fr & K3 & Hfr & _). exists m3, (fr ++ l1). rewrite with_machine_twice.
  split; [done|]. split; [|split; [done|split; [|split; [|split]]]].
  - apply (space_frame m1 l1); [done|done| |done]. intros q Hq Hp. apply elem_of_app in Hq as [Hq%Hfr|Hq]; [by destruct (Hf1 q (or_introl Hq)) as (_ & _ & ?)|]. by apply (Pn q Hp).
  - intros q Hq. apply elem_of_app. left. by apply Hfr.
  - intros q Hq. apply elem_of_app. by right.
  - assert (E : forall a, tf <= a -> a + 8 <= tf + PGSIZE -> ld64 (mmem m3) a = ld64 (frame_set tf sp entry (mmem m1)) a).
    { intros a H1 H2. apply ld64_ext. intros x Hx. apply (Kt tf); [done|]. unfold in_page. lia. }
    rewrite !E by (unfold TF_A1, TF_EPC, TF_SP, PGSIZE; lia). exact Hld.
  - intros x Hx Hw. rewrite (Kt tf) by done. cbn [mmem m2 set_mem]. rewrite Hout by done. apply (Ko tf); [by right|done].
Qed.

(** The arguments and the array of pointers to them fit the stack page. *)
Definition args_fit (argv : list (list Z)) : Prop := need argv + up16 (8 * (Z.of_nat (length argv) + 1)) <= PGSIZE.

Lemma array_bytes (ptrs : list Z) : byte_list (concat (le_encode 8 <$> ptrs)) /\ Z.of_nat (length (concat (le_encode 8 <$> ptrs))) = 8 * Z.of_nat (length ptrs).
Proof.
  induction ptrs as [|q ptrs [IH1 IH2]]; [split; [constructor|done]|]. rewrite fmap_cons. cbn [concat length]. split; [apply Forall_app_2; [apply le_encode_bytes|done]|].
  rewrite length_app, length_le_encode. lia.
Qed.

(** The arguments on the stack: strings, then the array. *)
Definition push_all (u : uproc) (pt base top : Z) (argv : list (list Z)) (k : Z -> Z -> M (kern B D) Z) (bad : M (kern B D) Z) : M (kern B D) Z :=
  let! o := push_args u pt base argv 0 top [] in
  match o with
  | None => bad
  | Some (sp, ustack) =>
      let argc := Z.of_nat (length ustack) in
      let sp := u64 (sp - (argc + 1) * 8) in
      let sp := sp - sp mod 16 in
      if sp <? base then bad else
      let! r := onm (copyout u pt sp (concat (le_encode 8 <$> (ustack ++ [0])))) in
      if r <? 0 then bad else k argc sp
  end.

Lemma push_all_spec u l own ups pt m0 sz pa argv k bad Q s : stack_ready m0 pt sz (machine s) l own ups pa -> good_args argv -> Z.of_nat (length argv) < MAXARG ->
  0 <= sz -> (pgs sz + 2) * PGSIZE <= TRAPFRAME ->
  let base := (pgs sz + 1) * PGSIZE in let top := (pgs sz + 2) * PGSIZE in
  (forall m', stack_ready m0 pt sz m' l own ups pa -> only_page pa (machine s) m' -> ~ args_fit argv -> wp bad Q (with_machine m' s)) ->
  (forall m' sp, stack_ready m0 pt sz m' l own ups pa -> only_page pa (machine s) m' -> args_fit argv -> new_image m0 pt sz argv sp (mmem m') ->
    sp < top -> wp (k (Z.of_nat (length argv)) sp) Q (with_machine m' s)) ->
  wp (push_all u pt base top argv k bad) Q s.
Proof.
  intros R Hg Hlen H0 Hroom base top Hbad Hk. pose proof (pgs_room sz H0 Hroom) as [Hn Hn2]. unfold push_all. rewrite wp_bind.
  assert (Et : top = base + PGSIZE) by (unfold top, base; lia). assert (HT : TRAPFRAME <= 2 ^ 38) by done.
  assert (Hb16 : top mod 16 = 0) by (unfold top, PGSIZE; rewrite <- Z.mul_mod_idemp_r by lia; change (4096 mod 16) with 0; by rewrite Z.mul_0_r).
  eapply wp_mono; [apply (push_args_spec u l pt own ups (pgs sz + 1) pa argv 0 top [] s); try done; [apply R|unfold PGSIZE; lia|lia|fold base; unfold PGSIZE in *; lia]|].
  fold base. intros o s' (m1 & -> & K1 & O1 & P1 & H). cbv zeta in H. pose proof (up16_spec (8 * (Z.of_nat (length argv) + 1)) ltac:(lia)) as [Hu1 Hu2].
  pose proof (ready_store _ _ _ _ _ _ _ _ m1 R K1 O1 P1) as R1. destruct o as [[sp' us]|]; [|apply Hbad; [done|done|unfold args_fit; intros Hf; apply H; lia]].
  destruct H as (Hf & -> & ptrs & -> & Hpl & Hst & _). cbn [app] in *. rewrite Hpl. replace ((Z.of_nat (length argv) + 1) * 8) with (8 * (Z.of_nat (length argv) + 1)) by lia.
  assert (Hfit : need argv <= top - base) by (destruct argv; [cbn [need]; unfold PGSIZE in *; lia|apply Hf; done]).
  assert (Hm1 : MAXARG = 32) by done.
  pose proof (args_need_pos argv) as Hnp. assert (Hbase : PGSIZE <= base) by (unfold base, PGSIZE; lia). assert (Htop : top <= TRAPFRAME) by exact Hroom.
  rewrite u64_small by (unfold PGSIZE in Et, Hbase; lia). set (c := 8 * (Z.of_nat (length argv) + 1)) in *.
  assert (Hsp16 : (top - need argv) mod 16 = 0) by (apply need_mod; done). rewrite down16 by (lia || done). destruct (Z.ltb_spec (top - need argv - up16 c) base) as [Hlt|Hge].
  { apply Hbad; [done|done|]. unfold args_fit. fold c. lia. }
  destruct (array_bytes (ptrs ++ [0])) as [Ab Al]. rewrite length_app, Hpl in Al. cbn [length] in Al. set (arr := concat (le_encode 8 <$> (ptrs ++ [0]))) in *.
  set (sp := top - need argv - up16 c) in *.
  rewrite wp_bind, wp_onm. change (fs_um (kr_fs (with_machine m1 s))) with m1.
  eapply wp_mono; [apply (stack_store u m1 l pt own ups (pgs sz + 1) pa sp arr K1); [fold base; lia|fold base; lia|intros E; rewrite E in Al; cbn in Al; lia|done]|].
  intros r m2 (-> & K2 & O2 & P2 & W2). change (0 <? 0) with false. cbv iota. change (set_kr_fs _ _) with (with_machine m2 (with_machine m1 s)). rewrite with_machine_twice.
  pose proof (ready_store _ _ _ _ _ _ _ _ m2 R1 K2 O2 P2) as R2. apply Hk; [done|by apply (only_page_trans pa _ m1)|unfold args_fit; fold c; lia| |lia].
  split; [apply R2|apply R2|split; [fold base; lia|]|].
  - unfold sp. rewrite Zminus_mod, Hsp16, Hu2. done.
  - exists ptrs. split; [|apply (wrote_sees _ _ _ _ _ _ (W2 _))]. destruct (Hst ((pgs sz + 2) * PGSIZE)) as [_ Hs]. split; [done|]. intros j a q Ha Hq. destruct (Hs j a q Ha Hq) as (S1 & S2 & S3).
    split; [lia|]. split; [done|]. eapply sees_same; [|exact S3]. intros d Hd. destruct (W2 ((pgs sz + 2) * PGSIZE) (q + Z.of_nat d)) as [-> _].
    destruct (Z.ltb_spec (q + Z.of_nat d) (sp + Z.of_nat (length arr))); [lia|]. by rewrite andb_false_r.
Qed.

(** C6: the second half of exec(), from the loaded program to the running
    one.  It fails or succeeds as a whole, and it fails only when the
    arguments do not fit on the stack page or at most six pages are free (for
    the two new pages and their tables).  When it fails the process, its
    memory and its trapframe are unchanged, and all pages that were free or
    belonged to the new image are free.  When it succeeds, the process has the new address space: the
    loaded program as it was, an inaccessible guard page, and a stack page
    with the argument strings and a null-terminated array of pointers to
    them, 16-byte aligned; sp and a1 of the trapframe point to the array, epc
    is the entry point, the result, which goes to a0, is argc, every page of
    the old address space is free, and no page is lost. *)
Theorem exec_commit_correct i path argv pt sz entry s l own ups ownN upsN : exec_pre i s l own ups pt ownN upsN sz ->
  good_args argv -> Z.of_nat (length argv) < MAXARG -> 0 <= entry < 2 ^ 64 ->
  wp (exec_commit i path argv pt sz entry) (fun r s' => exec_failed i s l own ups ownN upsN r s' /\ (~ args_fit argv \/ (length l <= 6)%nat) \/
    args_fit argv /\ exec_done i s path l own ups ownN upsN pt sz entry argv r s') s.
Proof.
  intros X Hg Hlen He. pose proof (xp_new _ _ _ _ _ _ _ _ _ X) as Sp. pose proof (xp_room _ _ _ _ _ _ _ _ _ X) as Hroom. pose proof (spc_size _ _ _ _ _ _ Sp) as Hsz.
  assert (HT : TRAPFRAME < 2 ^ 38) by done. assert (HM : TRAPFRAME <= MAXVA) by done. pose proof (pgs_room sz ltac:(lia) Hroom) as [Hn _].
  unfold exec_commit. wp_simp. rewrite pgs_up by lia. unfold USERSTACK. set (n := pgs sz) in *.
  replace (n * PGSIZE + (1 + 1) * PGSIZE) with ((n + 2) * PGSIZE) by lia. rewrite (u64_small ((n + 2) * PGSIZE)) by (unfold PGSIZE in *; lia). set (top := (n + 2) * PGSIZE) in *.
  rewrite wp_onm. eapply wp_mono; [by apply (stack_alloc_spec (machine s) l pt ownN upsN sz)|]. fold n top. intros r m1 (l1 & own1 & ups1 & I1 & [(-> & Sp1 & Hl6)|(-> & Sp1 & A1)]).
  { change (0 =? 0) with true. cbv iota. eapply wp_mono; [by apply (exec_fail i s l own ups pt ownN upsN sz (pr_pid (getp i s)) m1 l1 own1 ups1 (n * PGSIZE) X I1)|]. intros r s' Hx. left. split; [done|by right]. }
  assert (Htop : 0 < top) by (unfold top, PGSIZE; lia). rewrite (proj2 (Z.eqb_neq top 0)) by lia. wp_simp. rewrite wp_onm.
  replace (top - (1 + 1) * PGSIZE) with (n * PGSIZE) by (unfold top; lia). replace (top - 1 * PGSIZE) with ((n + 1) * PGSIZE) by (unfold top; lia).
  match goal with |- wp _ _ ?g => change g with m1 end. eapply wp_mono; [apply (guard_ready (machine s) pt sz m1 l1 own1 ups1 Sp1 A1); [lia|done]|].
  intros [] m2 (pa & R2 & I2). pose proof (inside_trans _ _ _ _ _ _ _ _ _ _ _ _ I1 I2) as I12.
  match goal with |- wp _ ?Q _ => change (wp (push_all (uproc_of (getp i s)) pt ((n + 1) * PGSIZE) top argv (fun argc sp =>
    onm (wr64 (pr_trapframe (getp i s) + TF_A1) sp) ;; modp i (set_pr_name (take 15 (last_elem path path))) ;; modp i (set_pr_pagetable pt) ;; modp i (set_pr_sz top) ;;
    onm (wr64 (pr_trapframe (getp i s) + TF_EPC) entry) ;; onm (wr64 (pr_trapframe (getp i s) + TF_SP) sp) ;; proc_freepagetable (pr_pagetable (getp i s)) (pr_sz (getp i s)) ;; ret argc)
    (exec_bad (pr_pid (getp i s)) pt top None)) Q (with_machine m2 (with_machine m1 s))) end.
  rewrite with_machine_twice.
  assert (Hin : forall m', only_page pa m2 m' -> inside (machine s) l ownN upsN m' l1 own1 ups1).
  { intros m' O. eapply inside_trans; [exact I12|]. pose proof (sk_page _ _ _ _ _ _ _ (sr_page _ _ _ _ _ _ _ _ R2)) as Hpa.
    apply (only_page_inside m2 l1 own1 ups1 pa m'); [right; by eexists| |done]. by destruct (as_page _ _ _ _ _ (sk_as _ _ _ _ _ _ _ (sr_page _ _ _ _ _ _ _ _ R2)) _ _ Hpa). }
  apply (push_all_spec _ l1 own1 ups1 pt (mmem (machine s)) sz pa); [by rewrite machine_with|done|done|lia|done|..].
  - rewrite machine_with. intros m' R O Hnf. rewrite with_machine_twice. eapply wp_mono; [apply (exec_fail i s l own ups pt ownN upsN sz (pr_pid (getp i s)) m' l1 own1 ups1 top X (Hin m' O)), R|]. intros r s' Hx. left. split; [done|by left].
  - rewrite machine_with. intros m' sp R O Hfit Ni Hlt. rewrite with_machine_twice. pose proof (ni_sp _ _ _ _ _ _ Ni) as [Hb _]. fold n top in Hlt, Hb.
    eapply wp_mono; [apply (exec_switch i s l own ups pt ownN upsN sz path entry sp (Z.of_nat (length argv)) m' l1 own1 ups1 X (Hin m' O)); [apply R|unfold PGSIZE in *; lia|done]|].
    intros r s' (-> & m3 & l3 & -> & Sp3 & Kp & Hfree & Hl3 & Hld & Hfr). right. split; [done|]. split; [done|]. exists m3, l3, own1, ups1, sp. split; [done|]. split; [done|].
    split; [apply (new_image_frame _ _ _ _ _ m' l1 own1 ups1); try done; apply R|]. split; [done|]. split; [|done]. intros q [Hq|Hq].
    + destruct (in_all _ _ _ _ _ _ _ _ (Hin m' O) q Hq) as [?|?]; [left; by apply Hl3|by right].
    + right. by apply (in_grows _ _ _ _ _ _ _ _ (Hin m' O)).
Qed.
End args.

(** * Example

    A process with an empty address space runs an empty program with two
    arguments. *)

Definition demo_elf : inode := Inode 1 2 1 (Sleeplock Free true 1) true T_FILE 0 0 1 60 (35 :: replicate 12 0).
Definition exec_proc : proc := set_pr_trapframe 0x8002c000 (set_pr_pagetable demo_pt (set_pr_pid 1 (set_pr_state RUNNING proc0))).
Definition exec_kern (l : logst) : kern logst unit :=
  Kern (Fsst l demo_vm2 demo_sb Free (demo_elf :: replicate 49 inode0)) tt Free (replicate 100 file0) ∅ (exec_proc :: replicate 63 proc0) Free Free 2 None (Some 0%nat) Free 0.

Lemma demo_space l pt : pt = demo_pt \/ pt = demo_pt2 -> space (machine (exec_kern l)) demo_free2 pt {[pt := []]} ∅ 0.
Proof.
  intros Hpt. assert (Z0 : forall va, pte_of (mmem demo_vm2) pt va = 0).
  { intros va. apply empty_pte. intros x Hx. apply demo_vm2_zero. unfold in_page, PGSIZE in Hx. destruct Hpt as [-> | ->]; unfold demo_pt, demo_pt2 in *; lia. }
  split; [by apply demo_as2|by vm_compute| |].
  - intros j q Hj. by rewrite lookup_empty in Hj.
  - intros j _. unfold pte_pg. change (machine (exec_kern l)) with demo_vm2. by rewrite Z0, has_flag_0.
Qed.

Lemma demo_pages (pt q : Z) : pages_of {[pt := []]} ∅ q -> q = pt.
Proof. intros [[path [<- _]%lookup_singleton_Some]|[j Hj]]; [done|by rewrite lookup_empty in Hj]. Qed.

Lemma demo_exec_pre l : exec_pre 0 (exec_kern l) demo_free2 {[demo_pt := []]} ∅ demo_pt2 {[demo_pt2 := []]} ∅ 0.
Proof.
  split; [cbn; lia|by apply (demo_space l demo_pt); left|by apply (demo_space l demo_pt2); right|..|by vm_compute].
  - by intros q ->%demo_pages ?%demo_pages.
  - change (pr_trapframe (getp 0 (exec_kern l))) with 0x8002c000. split; [split; [by vm_compute|split; [|by intros ?%demo_pages]]|by intros ?%demo_pages].
    apply (bool_decide_unpack _). by vm_compute.
Qed.

#[local] Instance run_blocks : Blocks logst := log_blocks 1.
Lemma exec_commit_correct_witness : wp (exec_commit 0 [47; 101] [[101]; [104; 105]] demo_pt2 0 0)
  (fun r s' => r = 2 /\ pr_pagetable (getp 0 s') = demo_pt2 /\ exists sp ptr, uview (mmem (machine s')) demo_pt2 8192 (ptr + 1) = Some 105 /\ sp mod 16 = 0)
  (exec_kern (boot_log demo_disk)).
Proof.
  eapply wp_mono; [apply (exec_commit_correct 0 [47; 101] [[101]; [104; 105]] demo_pt2 0 0 _ demo_free2 {[demo_pt := []]} ∅ {[demo_pt2 := []]} ∅); [apply demo_exec_pre|..]|].
  - repeat (apply Forall_cons_2; [split; [repeat (apply Forall_cons_2; [lia|]); apply Forall_nil_2|reflexivity]|]). apply Forall_nil_2.
  - reflexivity.
  - done.
  - intros r s' [[_ [Hno|Hno]]|[_ (-> & m' & l' & own' & ups' & sp & -> & _ & Ni & _)]]; [by destruct Hno; vm_compute|cbn in Hno; lia|]. split; [done|]. split; [done|].
    destruct Ni as [_ _ [_ Hal] (ptrs & [Hl Hs] & _)]. destruct (lookup_lt_is_Some_2 ptrs 1) as [q Hq]; [rewrite Hl; cbn; lia|].
    exists sp, q. split; [|done]. destruct (Hs 1%nat [104; 105] q eq_refl Hq) as (_ & _ & S). exact (S 1%nat 105 eq_refl).
Defined.
