(* ===== verification/ExecLoad.v ===== *)
(** exec(): loading the segments of an ELF file.  [load_image] says what the
    memory of the process should be for the headers of the file; the theorem
    shows that the loop over the headers produces it. *)
From S2P Require Import Prelude Mem Str Spinlock Kalloc Vm VmSpec VmUser VmCopy VmProps VmFree UserMem Pipe Bio BCache Log LogSpec LogProps Bytes Blocks Fs FsSpec FsFile FsIO FsProps Usys.
From S2P Require Import Kern Sched KernSpec File ProcLife Sysfile Exec FileProps FaultProps ExecProps.

(** * Stores to user pages *)

Section store.
Context `{L : Layout} `{!LayoutOk L}.

Record user_write (l : list Z) (pt : Z) (own : gmap Z (list Z)) (ups : gmap Z Z) (m m' : mach) : Prop := {
  uw_as : as_inv m' l pt own ups;
  uw_cover : ucover (mmem m') pt ups;
  uw_pte : forall va, pte_of (mmem m') pt va = pte_of (mmem m) pt va;
  uw_inside : inside m l own ups m' l own ups
}.
Lemma user_write_refl l pt own ups m : as_inv m l pt own ups -> ucover (mmem m) pt ups -> user_write l pt own ups m m.
Proof. intros A C. split; try done. apply inside_refl. Qed.
Lemma user_write_trans l pt own ups m m1 m2 : user_write l pt own ups m m1 -> user_write l pt own ups m1 m2 -> user_write l pt own ups m m2.
Proof. intros [A1 A2 A3 A4] [B1 B2 B3 B4]. split; [done|done|intros va; by rewrite B3, A3|by eapply inside_trans]. Qed.

(** A store of at most a page at the start of page [n]. *)
Lemma store_page m l pt own ups n pa bs : as_inv m l pt own ups -> ucover (mmem m) pt ups -> ups !! n = Some pa -> has_flag (pte_pg (mmem m) pt n) PTE_U = true ->
  byte_list bs -> Z.of_nat (length bs) <= PGSIZE -> let m' := set_mem (fun x => st_bytes x pa bs) m in
  user_write l pt own ups m m' /\ forall z va, uview (mmem m') pt z va = if (n * PGSIZE <=? va) && (va <? n * PGSIZE + Z.of_nat (length bs)) then bs !! Z.to_nat (va - n * PGSIZE) else uview (mmem m) pt z va.
Proof.
  intros A C N U Hb Hl m'. destruct (as_write m l pt own ups n pa 0 bs A C N ltac:(lia) ltac:(lia)) as [Hu Hp]. rewrite Z.add_0_r in Hu, Hp. fold m' in Hu.
  split; [split; [apply Hu|apply Hu|exact Hp|]|].
  - destruct (as_page _ _ _ _ _ A _ _ N) as (Hok & _). apply (only_page_inside m l own ups pa m'); [right; by exists n|done|]. split_and!; [done|done|].
    intros x Hx. cbn [mmem m' set_mem]. apply ld8_st_bytes_out. unfold in_page in Hx. lia.
  - intros z va. pose proof (wrote_page m l pt own ups n pa z (n * PGSIZE) bs A C N U Hb ltac:(lia) ltac:(lia)) as W. rewrite Z.sub_diag, Z.add_0_r in W. by destruct (W va).
Qed.
End store.

(** * Program images *)

Section image.
Context `{L : Layout} `{!LayoutOk L}.

(** An address space in which every page below [sz] is there for the user. *)
Record image (m : mach) (l : list Z) (pt : Z) (own : gmap Z (list Z)) (ups : gmap Z Z) (sz : Z) : Prop := {
  im_space : space m l pt own ups sz;
  im_dense : forall j, 0 <= j < pgs sz -> exists pa, ups !! j = Some pa /\ has_flag (pte_pg (mmem m) pt j) PTE_U = true
}.

(** The view when the program grows to [top]: zeroes on the new pages. *)
Definition zero_pages (sz top : Z) (v : Z -> option Z) (y : Z) : option Z := if (pgs sz <=? y / PGSIZE) && (y / PGSIZE <? pgs top) then Some 0 else v y.

Lemma perm_U pa xperm : 0 <= xperm < 2 ^ 10 -> has_flag (pte_val pa (Z.lor (Z.lor PTE_R PTE_U) xperm)) PTE_U = true.
Proof. intros _. rewrite has_flag_U. unfold pte_val. rewrite !Z.lor_spec. by rewrite ?orb_true_r. Qed.

Lemma uview_none m l pt own ups sz y : space m l pt own ups sz -> 0 <= y < MAXVA -> pgs sz <= y / PGSIZE -> uview (mmem m) pt sz y = None.
Proof.
  intros Sp Hy Hp. pose proof (va_page y Hy) as Hr. unfold uview. rewrite (proj2 (Z.leb_le _ _)), (proj2 (Z.ltb_lt _ _)) by lia. cbn [andb]. rewrite (proj2 (Z.ltb_ge _ _) Hp), pte_of_pg.
  destruct (has_flag (pte_pg (mmem m) pt (y / PGSIZE)) PTE_V) eqn:Hv; [|done]. destruct (spc_all _ _ _ _ _ _ Sp _ Hr Hv) as [[q Hq]|[_ ->]]; [|done].
  apply (spc_user _ _ _ _ _ _ Sp) in Hq. lia.
Qed.

(** Each new page was a free page. *)
Lemma grow_count m l pt own ups n c perm m' l' own' ups' : 0 <= c -> grow_rel m l pt own ups n c perm m' l' own' ups' -> c <= Z.of_nat (length l).
Proof.
  intros Hc [G1 _ _ _ G5]. set (ps := (fun j => default 0 (ups' !! j)) <$> seqZ n c).
  assert (Hg : forall j, j ∈ seqZ n c -> exists pa, ups' !! j = Some pa /\ pa ∈ l) by (intros j Hj%elem_of_seqZ; destruct (G5 j Hj) as (pa & ? & ? & _); by exists pa).
  assert (Hsub : ps ⊆+ l).
  { apply NoDup_submseteq.
    - apply NoDup_fmap_2_strong; [|apply NoDup_seqZ]. intros i j Hi Hj. destruct (Hg i Hi) as (p & Hp & _), (Hg j Hj) as (q & Hq & _). rewrite Hp, Hq. cbn. intros ->.
      by eapply (as_inj _ _ _ _ _ G1).
    - intros q (j & -> & Hj)%list_elem_of_fmap. destruct (Hg j Hj) as (pa & -> & ?). done. }
  apply submseteq_length in Hsub. unfold ps in Hsub. rewrite length_fmap, length_seqZ in Hsub. lia.
Qed.

(** There are 32768 pages of memory. *)
Lemma page_count ps : NoDup ps -> Forall page_ok ps -> Z.of_nat (length ps) <= 32768.
Proof.
  intros Hn Hf. assert (Hsub : ps ⊆+ ((fun i => KERNBASE + i * PGSIZE) <$> seqZ 0 32768)).
  { apply NoDup_submseteq; [done|]. intros p Hp. rewrite Forall_forall in Hf. destruct (Hf p Hp) as [Hal Hr]. pose proof etext_range as [E1 E2].
    apply list_elem_of_fmap. exists ((p - KERNBASE) / PGSIZE). rewrite elem_of_seqZ. unfold PHYSTOP, KERNBASE, PGSIZE in *. Z.to_euclidean_division_equations; lia. }
  apply submseteq_length in Hsub. rewrite length_fmap, length_seqZ in Hsub. lia.
Qed.

Lemma grow_image_spec m l pt own ups sz top xperm : image m l pt own ups sz -> sz <= top <= TRAPFRAME -> 0 <= xperm < 2 ^ 10 ->
  wp (uvmalloc pt sz top xperm) (fun r m' => exists l' own' ups', inside m l own ups m' l' own' ups' /\
    (r = 0 /\ space m' l' pt own' ups' sz /\ Z.of_nat (length l) <= 3 * (pgs top - pgs sz) \/
     r = top /\ image m' l' pt own' ups' top /\ (forall y, 0 <= y < MAXVA -> uview (mmem m') pt top y = zero_pages sz top (uview (mmem m) pt sz) y) /\
       pgs top - pgs sz <= Z.of_nat (length l) <= Z.of_nat (length l') + 3 * (pgs top - pgs sz))) m.
Proof.
  intros [Sp Hd] Ht Hx. pose proof Sp as [A S2 S3 S4]. pose proof (space_cover _ _ _ _ _ _ Sp) as C. pose proof (pgs_mono sz top ltac:(lia)) as Hp. pose proof (pgs_frame top ltac:(lia)) as Hf.
  assert (HN : NPG = 2 ^ 26) by done. assert (0 <= pgs sz) by (unfold pgs; apply Z.div_pos; unfold PGSIZE; lia). assert (TRAPFRAME <= MAXVA) by done.
  eapply wp_mono; [apply (uvmalloc_spec m l pt own ups sz top xperm A); [lia|lia|done|]|].
  { intros j Hj. destruct (has_flag (pte_pg (mmem m) pt j) PTE_V) eqn:Hv; [|done]. destruct (S4 j ltac:(lia) Hv) as [[q Hq]|[? _]]; [apply S3 in Hq; lia|lia]. }
  intros r m' (own' & l' & [(-> & ups' & G & Hsp)|(-> & F)]).
  - exists l', own', ups'. split; [eapply grow_inside; [done|done|exact G|apply Hsp]|]. right. split; [done|]. pose proof (grow_space _ _ _ _ _ _ _ _ _ _ _ _ Sp Ht G) as Sp'. pose proof G as [G1 G2 G3 G4 G5]. split; [split; [done|]|split; [|split; [eapply grow_count; [lia|exact G]|apply Hsp]]].
    + intros j Hj. destruct (decide (pgs sz <= j)); [destruct (G5 j ltac:(lia)) as (pa & Hpa & _ & -> & _); exists pa; split; [done|by apply perm_U]|].
      destruct (Hd j ltac:(lia)) as (pa & Hpa & HU). exists pa. rewrite G3, G4 by lia. done.
    + intros y Hy. pose proof (va_page y Hy) as Hr. unfold zero_pages. destruct (Z.leb_spec (pgs sz) (y / PGSIZE)), (Z.ltb_spec (y / PGSIZE) (pgs top)); cbn [andb].
      * destruct (G5 (y / PGSIZE) ltac:(lia)) as (pa & Hpa & _ & Hpte & Hz). pose proof (down_page y) as [_ Hdn].
        rewrite (uview_page m' l' pt own' ups' top (y / PGSIZE) pa); try done; [|rewrite Hpte; by apply perm_U]. f_equal. apply Hz. unfold in_page. lia.
      * by rewrite (uview_none m' l' pt own' ups'), (uview_none m l pt own ups) by (try done; lia).
      * apply (uview_page_same m l pt own ups); try done; [rewrite !pte_of_pg; apply G4; lia|]. intros q z Hq Hz. by apply (user_page_quiet m l pt own ups m' l' own' (y / PGSIZE) q).
      * lia.
  - destruct (fail_space _ _ _ _ _ _ _ _ _ _ Sp F) as [Sp' I']. exists l', own', ups. split; [done|]. left. split; [done|]. split; [done|apply F].
Qed.
(** A loop that does not reach [new1] does the same for a larger size. *)
Lemma uvmalloc_loop_more fuel1 fuel2 pt a old new1 new2 xp (Q : Z -> mach -> Prop) m : new1 <= new2 -> (fuel1 <= fuel2)%nat -> (forall m', ~ Q new1 m') ->
  wp (uvmalloc_loop fuel1 pt a old new1 xp) Q m -> wp (uvmalloc_loop fuel2 pt a old new2 xp) Q m.
Proof.
  intros Hn Hf HQ. revert fuel2 a m Hf. induction fuel1 as [|fuel1 IH]; intros fuel2 a m Hf; cbn [uvmalloc_loop]; destruct (Z.ltb_spec a new1); [by intros []|rewrite wp_ret; by intros ?%HQ| |rewrite wp_ret; by intros ?%HQ].
  destruct fuel2 as [|fuel2]; [lia|]. cbn [uvmalloc_loop]. rewrite (proj2 (Z.ltb_lt a new2)) by lia. rewrite !wp_bind. intros W0. eapply wp_mono; [exact W0|]. intros q m1. cbv beta. destruct (q =? 0); [done|].
  rewrite !wp_bind. intros W1. eapply wp_mono; [exact W1|]. intros [] m2. rewrite !wp_bind. intros W2. eapply wp_mono; [exact W2|]. intros r m3. cbv beta. destruct (negb (r =? 0)); [done|]. apply IH. lia.
Qed.

(** Memory runs out long before a program reaches the trapframe. *)
Lemma grow_full_spec m l pt own ups sz top xperm : image m l pt own ups sz -> TRAPFRAME < top -> 0 <= xperm < 2 ^ 10 ->
  wp (uvmalloc pt sz top xperm) (fun r m' => r = 0 /\ exists l' own' ups', inside m l own ups m' l' own' ups' /\ space m' l' pt own' ups' sz) m.
Proof.
  intros Im Ht Hx. pose proof Im as [Sp Hd]. pose proof Sp as [A Hs S3 _]. assert (HN : pgs TRAPFRAME = 2 ^ 26 - 2) by done. pose proof (pgs_mono sz TRAPFRAME ltac:(lia)) as Hmono.
  assert (Hl : Z.of_nat (length l) <= 32768) by (apply page_count; apply (vi_kmem _ _ _ _ (as_vm _ _ _ _ _ A))).
  assert (Hp : pgs sz <= 32768).
  { destruct (decide (pgs sz <= 0)); [lia|]. set (ps := (fun j => default 0 (ups !! j)) <$> seqZ 0 (pgs sz)).
    assert (Hg : forall j, j ∈ seqZ 0 (pgs sz) -> exists pa, ups !! j = Some pa) by (intros j Hj%elem_of_seqZ; destruct (Hd j ltac:(lia)) as (pa & ? & _); by exists pa).
    replace (pgs sz) with (Z.of_nat (length ps)) by (unfold ps; rewrite length_fmap, length_seqZ; lia). apply page_count.
    - apply NoDup_fmap_2_strong; [|apply NoDup_seqZ]. intros i j Hi Hj. destruct (Hg i Hi) as [p Hpi], (Hg j Hj) as [q Hqj]. rewrite Hpi, Hqj. cbn. intros ->. by eapply (as_inj _ _ _ _ _ A).
    - apply Forall_fmap, Forall_forall. intros j Hj. destruct (Hg j Hj) as [pa Hpa]. cbn. rewrite Hpa. by destruct (as_page _ _ _ _ _ A _ _ Hpa). }
  pose proof (grow_image_spec m l pt own ups sz TRAPFRAME xperm Im ltac:(lia) Hx) as W.
  assert (W0 : wp (uvmalloc pt sz TRAPFRAME xperm) (fun r m' => r = 0 /\ exists l' own' ups', inside m l own ups m' l' own' ups' /\ space m' l' pt own' ups' sz) m).
  { eapply wp_mono; [exact W|]. intros r m' (l' & own' & ups' & I & [(-> & Sp' & _)|(_ & _ & _ & Hc)]); [|lia]. split; [done|]. by exists l', own', ups'. }
  unfold uvmalloc in *. rewrite (proj2 (Z.ltb_ge TRAPFRAME sz)) in W0 by lia. rewrite (proj2 (Z.ltb_ge top sz)) by lia. cbv zeta in *.
  eapply uvmalloc_loop_more; [| | |exact W0]; [lia| |by intros m' [? _]]. pose proof (Z.div_le_mono (TRAPFRAME - PGROUNDUP sz) (top - PGROUNDUP sz) PGSIZE). unfold PGSIZE in *. lia.
Qed.

(** uvmalloc() to the end of a segment, which may lie below the end of the
    program, or anywhere. *)
Lemma segment_grow m l pt own ups sz top xperm : image m l pt own ups sz -> 0 <= top -> 0 <= xperm < 2 ^ 10 ->
  wp (uvmalloc pt sz top xperm) (fun r m' => exists l' own' ups', inside m l own ups m' l' own' ups' /\
    (r = 0 /\ space m' l' pt own' ups' sz /\ (TRAPFRAME < top \/ Z.of_nat (length l) <= 3 * (pgs (Z.max sz top) - pgs sz)) \/
     r = Z.max sz top /\ top <= TRAPFRAME /\ image m' l' pt own' ups' r /\ (forall y, 0 <= y < MAXVA -> uview (mmem m') pt r y = zero_pages sz r (uview (mmem m) pt sz) y) /\
       Z.of_nat (length l) <= Z.of_nat (length l') + 3 * (pgs r - pgs sz))) m.
Proof.
  intros Im Ht Hx. pose proof (spc_size _ _ _ _ _ _ (im_space _ _ _ _ _ _ Im)) as Hs. destruct (decide (sz <= top)) as [Hle|Hgt]; [destruct (decide (top <= TRAPFRAME)) as [Hf|Hf]|].
  - rewrite Z.max_r by done. eapply wp_mono; [apply (grow_image_spec m l pt own ups sz top xperm Im); [lia|done]|]. intros r m' (l' & own' & ups' & I & H). exists l', own', ups'. split; [done|].
    destruct H as [(? & ? & ?)|(-> & ? & ? & ? & ?)]; [left; split_and!; try done; by right|by right].
  - eapply wp_mono; [apply (grow_full_spec m l pt own ups sz top xperm Im); [lia|done]|]. intros r m' (-> & l' & own' & ups' & I & Sp'). exists l', own', ups'. split; [done|]. left. split_and!; try done. left. lia.
  - unfold uvmalloc. rewrite (proj2 (Z.ltb_lt top sz)) by lia. wp_simp. exists l, own, ups. split; [apply inside_refl|]. right. replace (Z.max sz top) with sz by lia. split_and!; [done|lia|done| |lia]. intros y _. unfold zero_pages.
    destruct (Z.leb_spec (pgs sz) (y / PGSIZE)), (Z.ltb_spec (y / PGSIZE) (pgs sz)); try done; lia.
Qed.
End image.

Section load.
Context {B D : Type} `{BK : Blocks B} `{L : Layout} `{LO : !LayoutOk L} (dev : Z) `{BO : !BlocksOk B dev}.
Implicit Types (s : kern B D) (k : kst) (x : inode).

(** What readi() reads into the kernel. *)
Definition got k x (off n : Z) : Z * list Z :=
  if (i_size x <? off) || (2 ^ 32 <=? off + n) then (0, []) else let m := Z.min n (i_size x - off) in (m, fbytes k x off m).

Lemma readi_kernel ip (t : fsst B mach) k x off n : fpre dev ip t k x -> 0 <= off < 2 ^ 32 -> 0 <= n < 2 ^ 32 -> 0 <= i_size x <= MAXFILE * BSIZE -> mapped k x 0 (i_size x) ->
  wp (readi ip ToKernel off n) (fun r t' => r = got k x off n /\ exists blk, bk_rep blk k /\ t' = set_fs_blk blk t) t.
Proof.
  intros Hp Hf Hn Hs Hm. eapply wp_mono; [by apply (readi_spec dev ip ToKernel t k x off n Hp)|]. intros r t'. unfold got. destruct (_ || _) eqn:E.
  - intros [-> ->]. split; [done|]. exists (fs_blk t). split; [apply Hp|]. by destruct t.
  - apply orb_false_iff in E as [E1%Z.ltb_ge _]. intros (blk & u & -> & Hb & [(-> & Hd & _)|(_ & p & a & [=] & _)]). cbn in Hd. subst u. rewrite Z.sub_0_r.
    split; [done|]. exists blk. split; [done|]. by destruct t.
Qed.

(** The state after reads of the file and stores to memory. *)
Definition with_io (blk : B) (m : mach) s : kern B D := set_kr_fs (set_fs_um m (set_fs_blk blk (kr_fs s))) s.
Lemma with_io_twice b b' m m' s : with_io b' m' (with_io b m s) = with_io b' m' s.
Proof. by destruct s as [[]]. Qed.
Lemma with_io_same s : with_io (fs_blk (kr_fs s)) (machine s) s = s.
Proof. by destruct s as [[]]. Qed.

(** The file is open for reading. *)
Record file_open (ip : nat) s k x : Prop := {
  fo_pre : fpre dev ip (kr_fs s) k x;
  fo_size : 0 <= i_size x <= MAXFILE * BSIZE;
  fo_mapped : mapped k x 0 (i_size x)
}.
Lemma file_open_io ip s k x blk m : file_open ip s k x -> bk_rep blk k -> file_open ip (with_io blk m s) k x.
Proof. intros [F1 F2 F3] Hb. split; [|done|done]. by apply (fpre_io dev ip (kr_fs s) k x blk m). Qed.

Lemma got_ok ip s k x off n r bs : file_open ip s k x -> 0 <= off -> 0 <= n -> got k x off n = (r, bs) -> byte_list bs /\ Z.of_nat (length bs) = r /\ 0 <= r <= n /\
  (if decide (r = n) then n = 0 \/ off + n <= i_size x /\ bs = fbytes k x off n else i_size x < off + n).
Proof.
  intros [[_ P2 P3 _ _ _ _] Hs _] Ho Hn. unfold got. destruct (_ || _) eqn:E; [intros [= <- <-]; split_and!; [constructor|done|lia|lia|]|].
  { assert (MAXFILE * BSIZE < 2 ^ 32) by done. case_decide; [by left|]. apply orb_true_iff in E as [E%Z.ltb_lt|E%Z.leb_le]; lia. }
  apply orb_false_iff in E as [E1%Z.ltb_ge _]. intros [= <- <-]. split_and!; [|apply length_fbytes; lia|lia|lia|].
  - apply (fbytes_bytes dev (fs_sb (kr_fs s))); try done; lia.
  - case_decide as E; [|lia]. right. split; [lia|]. by rewrite E.
Qed.

(** The pages of the range are mapped for the user. *)
Definition seg_mapped (m : mach) (pt : Z) (ups : gmap Z Z) (va n : Z) : Prop :=
  forall j, va / PGSIZE <= j -> j * PGSIZE < va + n -> exists pa, ups !! j = Some pa /\ has_flag (pte_pg (mmem m) pt j) PTE_U = true.
(** The view with the bytes of the file from [off] on at [a, b). *)
Definition put_file k x (off va a b : Z) (v : Z -> option Z) (y : Z) : option Z :=
  if (a <=? y) && (y <? b) then Some (fbyte k x (off + (y - va))) else v y.

Lemma fbytes_lookup k x off n j : 0 <= j < n -> fbytes k x off n !! Z.to_nat j = Some (fbyte k x (off + j)).
Proof. intros Hj. unfold fbytes. rewrite list_lookup_fmap, lookup_seq_lt by lia. cbn. do 2 f_equal. lia. Qed.

Lemma loadseg_loop_spec ip k x l pt own ups va off n fuel i s : file_open ip s k x -> as_inv (machine s) l pt own ups -> ucover (mmem (machine s)) pt ups ->
  seg_mapped (machine s) pt ups va n -> va mod PGSIZE = 0 -> 0 <= va -> va + n <= MAXVA -> 0 <= off < 2 ^ 32 -> 0 <= n < 2 ^ 32 ->
  i mod PGSIZE = 0 -> 0 <= i -> (i < n -> i = 0 \/ off + i <= i_size x) -> n - i <= Z.of_nat fuel * PGSIZE ->
  wp (loadseg_loop fuel pt va ip off n i) (fun r s' => exists blk m', s' = with_io blk m' s /\ bk_rep blk k /\ user_write l pt own ups (machine s) m' /\
    (r = 0 /\ (i < n -> off + n <= i_size x) /\ (forall z y, uview (mmem m') pt z y = put_file k x off va (va + i) (va + n) (uview (mmem (machine s)) pt z) y) \/
     r = -1 /\ i < n /\ i_size x < off + n)) s.
Proof.
  revert i s. induction fuel as [|fuel IH]; intros i s F A C M Hva H0 Hmax Ho Hn Hi Hi0 Hsz Hf; cbn [loadseg_loop].
  all: destruct (Z.ltb_spec i n) as [Hlt|Hge].
  2, 4: wp_simp; exists (fs_blk (kr_fs s)), (machine s); rewrite with_io_same; (split; [done|]); (split; [apply F|]); (split; [by apply user_write_refl|]); left;
    (split; [done|]); (split; [lia|]); intros z y; unfold put_file; destruct (Z.leb_spec (va + i) y), (Z.ltb_spec y (va + n)); try done; lia.
  { lia. }
  assert (HM : MAXVA = 2 ^ 38) by done. assert (HX : MAXFILE * BSIZE < 2 ^ 31) by done. pose proof (fo_size _ _ _ _ F) as Hs.
  set (j := (va + i) / PGSIZE). assert (Ej : va + i = j * PGSIZE). { unfold j. pose proof (Z.div_mod (va + i) PGSIZE ltac:(done)) as E. replace ((va + i) mod PGSIZE) with 0 in E by (by rewrite Zplus_mod, Hva, Hi). lia. }
  destruct (M j) as (pa & Hpa & HU); [unfold j; apply Z.div_le_mono; [done|lia]|lia|]. destruct (as_leaf _ _ _ _ _ A _ _ Hpa) as (Hr & HV & Hp).
  destruct (as_page _ _ _ _ _ A _ _ Hpa) as (Hok & _). pose proof (page_ok_pos _ Hok) as Hpos. destruct (pg_range j Hr) as [_ Hjm].
  rewrite wp_bind, wp_onm. fold (machine s). rewrite (u64_small (va + i)) by lia. eapply wp_of_ok; [eapply walkaddr_spec, A|]. rewrite Ej. change (pte_of (mmem (machine s)) pt (j * PGSIZE)) with (pte_pg (mmem (machine s)) pt j).
  rewrite (proj2 (Z.ltb_lt _ _) Hjm), HV, HU, Hp. cbn [andb]. rewrite (proj2 (Z.eqb_neq pa 0)) by lia.
  match goal with |- wp _ _ ?g => replace g with s by (by destruct s as [[]]) end.
  rewrite (u32_small (off + i)) by lia. set (c := if n - i <? PGSIZE then n - i else PGSIZE).
  assert (Hc : 0 < c <= PGSIZE /\ c <= n - i /\ (c = n - i \/ c = PGSIZE)) by (unfold c; destruct (Z.ltb_spec (n - i) PGSIZE); unfold PGSIZE in *; lia).
  rewrite wp_bind, wp_onfs. eapply wp_mono; [apply (readi_kernel ip (kr_fs s) k x (off + i) c); [apply F|lia|unfold PGSIZE in *; lia|done|apply F]|].
  intros [r bs] t [Eg (blk & Hblk & ->)]. symmetry in Eg. destruct (got_ok ip s k x (off + i) c r bs F ltac:(lia) ltac:(lia) Eg) as (Hb & Hl & Hrc & Hd).
  rewrite wp_bind, wp_onm, wp_modify. destruct (store_page (machine s) l pt own ups j pa bs A C Hpa HU Hb ltac:(lia)) as [W V]. set (m1 := set_mem _ _) in *.
  match goal with |- wp _ _ ?g => change g with (with_io blk m1 s) end. destruct (decide (r = c)) as [->|Hne].
  - rewrite Z.eqb_refl. cbn [negb]. destruct Hd as [?|[Hd ->]]; [lia|].
    assert (Hu : u32 (i + PGSIZE) = i + PGSIZE) by (apply u32_small; unfold PGSIZE in *; lia). rewrite Hu.
    assert (M1 : seg_mapped m1 pt ups va n) by (intros j' H1 H2; destruct (M j' H1 H2) as (q & Hq & HUq); exists q; split; [done|]; unfold pte_pg; by rewrite (uw_pte _ _ _ _ _ _ W)).
    assert (Hi2 : (i + PGSIZE) mod PGSIZE = 0) by (by rewrite Zplus_mod, Hi).
    eapply wp_mono; [apply (IH (i + PGSIZE) (with_io blk m1 s) (file_open_io ip s k x blk m1 F Hblk) (uw_as _ _ _ _ _ _ W) (uw_cover _ _ _ _ _ _ W) M1 Hva H0 Hmax Ho Hn Hi2); unfold PGSIZE in *; lia|].
    intros r' s' (blk' & m' & -> & Hblk' & W' & Hr'). change (machine (with_io blk m1 s)) with m1 in *. exists blk', m'. rewrite with_io_twice. split; [done|]. split; [done|].
    split; [by apply (user_write_trans _ _ _ _ _ m1)|]. destruct Hr' as [(-> & Hsz' & V')|(-> & _ & Hsz')]; [left|by right]. split; [done|]. split; [unfold PGSIZE in *; lia|].
    intros z y. rewrite V'. unfold put_file. rewrite V, <- Ej, Hl.
    destruct (Z.leb_spec (va + i) y), (Z.ltb_spec y (va + n)), (Z.leb_spec (va + (i + PGSIZE)) y), (Z.ltb_spec y (va + i + c)); cbn [andb]; try done; try (unfold PGSIZE in *; lia).
    rewrite fbytes_lookup by lia. do 2 f_equal. lia.
  - rewrite (proj2 (Z.eqb_neq r c)) by done. cbn [negb]. wp_simp. exists blk, m1. split; [done|]. split; [done|]. split; [done|]. right. split; [done|]. split; [done|lia].
Qed.

Lemma loadseg_spec ip k x l pt own ups va off n s : file_open ip s k x -> as_inv (machine s) l pt own ups -> ucover (mmem (machine s)) pt ups ->
  seg_mapped (machine s) pt ups va n -> va mod PGSIZE = 0 -> 0 <= va -> va + n <= MAXVA -> 0 <= off < 2 ^ 32 -> 0 <= n < 2 ^ 32 ->
  wp (loadseg pt va ip off n) (fun r s' => exists blk m', s' = with_io blk m' s /\ bk_rep blk k /\ user_write l pt own ups (machine s) m' /\
    (r = 0 /\ (0 < n -> off + n <= i_size x) /\ (forall z y, uview (mmem m') pt z y = put_file k x off va va (va + n) (uview (mmem (machine s)) pt z) y) \/
     r = -1 /\ 0 < n /\ i_size x < off + n)) s.
Proof.
  intros F A C M Hva H0 Hmax Ho Hn. assert (0 <= n / PGSIZE) by (apply Z.div_pos; [lia|done]). pose proof (Z.div_mod n PGSIZE ltac:(done)). pose proof (Z.mod_pos_bound n PGSIZE ltac:(done)).
  eapply wp_mono; [apply (loadseg_loop_spec ip k x l pt own ups va off n (Z.to_nat (n / PGSIZE + 1)) 0 s F A C M Hva H0 Hmax Ho Hn eq_refl); [done|by left|lia]|].
  intros r s' (blk & m' & -> & Hb & W & Hr). exists blk, m'. split; [done|]. split; [done|]. split; [done|]. by rewrite Z.add_0_r in Hr.
Qed.

(** * The program that a file describes *)

(** One loadable segment: the program grows to its end, and the bytes of the
    file appear at its beginning. *)
Definition load_one k x (ph : proghdr) (st : (Z -> option Z) * Z) : (Z -> option Z) * Z :=
  let top := Z.max st.2 (ph_vaddr ph + ph_memsz ph) in
  (put_file k x (u32 (ph_off ph)) (ph_vaddr ph) (ph_vaddr ph) (ph_vaddr ph + u32 (ph_filesz ph)) (zero_pages st.2 top st.1), top).
Definition header k x (off : Z) : proghdr := proghdr_of (fbytes k x off PROGHDR_SZ).
Definition load_step k x (off : Z) (st : (Z -> option Z) * Z) : (Z -> option Z) * Z :=
  if ph_type (header k x off) =? ELF_PROG_LOAD then load_one k x (header k x off) st else st.
Fixpoint load_image k x (n : nat) (off : Z) (st : (Z -> option Z) * Z) : (Z -> option Z) * Z :=
  match n with O => st | S n => load_image k x n (off + PROGHDR_SZ) (load_step k x off st) end.
(** The segments that exec() accepts, and those it loads: their headers and
    bytes are in the file, they are page aligned and end below the trapframe,
    and the program is not empty. *)
Definition segment_ok x (ph : proghdr) (sz : Z) : Prop :=
  ph_filesz ph <= ph_memsz ph /\ ph_vaddr ph mod PGSIZE = 0 /\ ph_vaddr ph + ph_memsz ph <= TRAPFRAME /\ 0 < Z.max sz (ph_vaddr ph + ph_memsz ph) /\
  (0 < u32 (ph_filesz ph) -> u32 (ph_off ph) + u32 (ph_filesz ph) <= i_size x).
Definition load_size k x (off sz : Z) : Z :=
  if ph_type (header k x off) =? ELF_PROG_LOAD then Z.max sz (ph_vaddr (header k x off) + ph_memsz (header k x off)) else sz.
Fixpoint loadable k x (n : nat) (off sz : Z) : Prop :=
  match n with
  | O => True
  | S n => (0 <= off /\ off + PROGHDR_SZ <= i_size x) /\ (ph_type (header k x off) = ELF_PROG_LOAD -> segment_ok x (header k x off) sz) /\
      loadable k x n (off + PROGHDR_SZ) (load_size k x off sz)
  end.
Fixpoint load_end k x (n : nat) (off sz : Z) : Z :=
  match n with O => sz | S n => load_end k x n (off + PROGHDR_SZ) (load_size k x off sz) end.
Lemma load_end_le k x n off sz : sz <= load_end k x n off sz.
Proof.
  revert off sz. induction n as [|n IH]; intros off sz; cbn [load_end]; [lia|]. specialize (IH (off + PROGHDR_SZ) (load_size k x off sz)).
  unfold load_size in *. destruct (_ =? _); lia.
Qed.
Lemma load_step_size k x off st : (load_step k x off st).2 = load_size k x off st.2.
Proof. unfold load_step, load_size, load_one. by destruct (_ =? _). Qed.

(** Equal views. *)
Definition same_st (st st' : (Z -> option Z) * Z) : Prop := st.2 = st'.2 /\ forall y, 0 <= y < MAXVA -> st.1 y = st'.1 y.
Lemma load_step_ext k x off st st' : same_st st st' -> same_st (load_step k x off st) (load_step k x off st').
Proof.
  destruct st as [v z], st' as [v' z']. intros [E V]. cbn [fst snd] in E, V. subst z'. unfold load_step. destruct (_ =? _); [|done]. split; [done|]. intros y Hy. cbn. unfold put_file, zero_pages.
  destruct (_ && _); [done|]. destruct (_ && _); [done|]. by apply V.
Qed.
Lemma load_image_ext k x n off st st' : same_st st st' -> same_st (load_image k x n off st) (load_image k x n off st').
Proof. revert off st st'. induction n as [|n IH]; intros off st st' H; [done|]. cbn [load_image]. by apply IH, load_step_ext. Qed.
Lemma same_st_trans st1 st2 st3 : same_st st1 st2 -> same_st st2 st3 -> same_st st1 st3.
Proof. intros [A1 A2] [B1 B2]. split; [congruence|]. intros y Hy. by rewrite A2, B2. Qed.

Lemma flags2perm_range f : 0 <= flags2perm f < 2 ^ 10.
Proof. unfold flags2perm. destruct (has_flag f 1), (has_flag f 2); vm_compute; split; congruence. Qed.

Lemma user_write_image l pt own ups m m' sz : image m l pt own ups sz -> user_write l pt own ups m m' -> image m' l pt own ups sz.
Proof.
  intros [Sp Hd] [W1 _ W3 _]. split; [apply (space_same m l pt own); [done|done|]; intros j _; left; unfold pte_pg; apply W3|].
  intros j Hj. unfold pte_pg. rewrite W3. by apply Hd.
Qed.

Lemma load_one_spec ip k x l pt own ups sz ph s (K : Z -> M (kern B D) (bool * Z)) (Q : bool * Z -> kern B D -> Prop) : file_open ip s k x -> image (machine s) l pt own ups sz ->
  0 <= ph_vaddr ph -> 0 <= ph_filesz ph <= ph_memsz ph -> ph_vaddr ph mod PGSIZE = 0 ->
  (forall blk m' l' own' ups' z, bk_rep blk k -> inside (machine s) l own ups m' l' own' ups' -> space m' l' pt own' ups' z ->
    ~ segment_ok x ph sz \/ Z.of_nat (length l) <= 3 * (pgs (Z.max sz (ph_vaddr ph + ph_memsz ph)) - pgs sz) -> Q (false, z) (with_io blk m' s)) ->
  (forall blk m' l' own' ups' z, bk_rep blk k -> inside (machine s) l own ups m' l' own' ups' -> image m' l' pt own' ups' z -> segment_ok x ph sz ->
    Z.of_nat (length l) <= Z.of_nat (length l') + 3 * (pgs z - pgs sz) -> same_st (uview (mmem m') pt z, z) (load_one k x ph (uview (mmem (machine s)) pt sz, sz)) -> wp (K z) Q (with_io blk m' s)) ->
  wp (let! sz1 := onm (uvmalloc pt sz (ph_vaddr ph + ph_memsz ph) (flags2perm (ph_flags ph))) in
      if sz1 =? 0 then ret (false, sz)
      else let! r := loadseg pt (ph_vaddr ph) ip (u32 (ph_off ph)) (u32 (ph_filesz ph)) in if r <? 0 then ret (false, sz1) else K sz1) Q s.
Proof.
  intros F Im H0 Hfs Hal HF HK. assert (HT : TRAPFRAME <= MAXVA) by done. pose proof (im_space _ _ _ _ _ _ Im) as Sp. pose proof (spc_size _ _ _ _ _ _ Sp) as Hsz.
  set (top := ph_vaddr ph + ph_memsz ph) in *. rewrite wp_bind, wp_onm. eapply wp_mono; [apply (segment_grow (machine s) l pt own ups sz top _ Im); [unfold top; lia|apply flags2perm_range]|].
  intros r m1 (l1 & own1 & ups1 & I1 & H). replace (set_kr_fs (set_fs_um m1 (kr_fs s)) s) with (with_io (fs_blk (kr_fs s)) m1 s) by (by destruct s as [[]]). pose proof (fp_rep _ _ _ _ _ (fo_pre _ _ _ _ F)) as Hrep.
  destruct H as [(-> & Sp1 & Hwhy)|(-> & Hmax & Im1 & V1 & Hcost)].
  { change (0 =? 0) with true. wp_simp. apply (HF _ m1 l1 own1 ups1); try done. destruct Hwhy as [Hw|Hw]; [left; intros (_ & _ & Hlt & _); unfold top in *; lia|by right]. }
  destruct (Z.eqb_spec (Z.max sz top) 0) as [Ez|Ez].
  { wp_simp. apply (HF _ m1 l1 own1 ups1); try done; [replace sz with (Z.max sz top) by lia; apply Im1|]. left. intros (_ & _ & _ & Hpos & _). unfold top in *. lia. }
  pose proof (im_space _ _ _ _ _ _ Im1) as Sp1. assert (Hu : 0 <= u32 (ph_filesz ph) <= ph_filesz ph) by (unfold u32; pose proof (Z.mod_pos_bound (ph_filesz ph) (2 ^ 32)); pose proof (Z.mod_le (ph_filesz ph) (2 ^ 32)); lia).
  assert (Hu2 : u32 (ph_filesz ph) < 2 ^ 32 /\ 0 <= u32 (ph_off ph) < 2 ^ 32) by (unfold u32; pose proof (Z.mod_pos_bound (ph_filesz ph) (2 ^ 32)); pose proof (Z.mod_pos_bound (ph_off ph) (2 ^ 32)); lia).
  rewrite wp_bind. eapply wp_mono; [apply (loadseg_spec ip k x l1 pt own1 ups1 (ph_vaddr ph) (u32 (ph_off ph)) (u32 (ph_filesz ph)) (with_io (fs_blk (kr_fs s)) m1 s)); try done; try (unfold top in *; lia)|].
  - by apply file_open_io.
  - apply Sp1.
  - apply (space_cover m1 l1 pt own1 ups1 (Z.max sz top) Sp1).
  - intros j Hj1 Hj2. apply (im_dense _ _ _ _ _ _ Im1). split; [transitivity (ph_vaddr ph / PGSIZE); [by apply Z.div_pos|done]|]. apply pgs_lt. unfold top in *. lia.
  - intros r s' (blk & m2 & -> & Hblk & W & Hr). change (machine (with_io (fs_blk (kr_fs s)) m1 s)) with m1 in *. rewrite with_io_twice. pose proof (user_write_image _ _ _ _ _ _ _ Im1 W) as Im2.
    pose proof (inside_trans _ _ _ _ _ _ _ _ _ _ _ _ I1 (uw_inside _ _ _ _ _ _ W)) as I2. destruct Hr as [(-> & Hin & V2)|(-> & Hpos & Hout)].
    2: { change (-1 <? 0) with true. wp_simp. apply (HF blk m2 l1 own1 ups1); try done; [apply Im2|]. left. intros (_ & _ & _ & _ & Hin). lia. }
    change (0 <? 0) with false. cbv iota. apply (HK blk m2 l1 own1 ups1); try done; [split_and!; try done; unfold top in *; lia|]. split; [done|]. intros y Hy. cbn [fst snd load_one]. rewrite V2. unfold put_file. destruct (_ && _); [done|]. by apply V1.
Qed.

Lemma header_range ip s k x off : file_open ip s k x -> 0 <= off -> off + PROGHDR_SZ <= i_size x ->
  0 <= ph_vaddr (header k x off) < 2 ^ 64 /\ 0 <= ph_memsz (header k x off) < 2 ^ 64 /\ 0 <= ph_filesz (header k x off) < 2 ^ 64.
Proof.
  intros [[_ P2 P3 _ _ _ _] Hs _] Ho Hl. unfold header. set (b := fbytes k x off PROGHDR_SZ).
  assert (Hb : byte_list b) by (apply (fbytes_bytes dev (fs_sb (kr_fs s))); try done; lia). assert (Hlen : Z.of_nat (length b) = 56) by (by apply length_fbytes).
  cbn [proghdr_of ph_vaddr ph_memsz ph_filesz]. split_and!; apply (getn_range 8); try done; unfold fits; lia.
Qed.

(** What the loop over the program headers leaves. *)
Definition load_post k x l pt own ups sz (n : nat) (off : Z) s (r : bool * Z) s' : Prop := exists blk m' l' own' ups', s' = with_io blk m' s /\ bk_rep blk k /\
  inside (machine s) l own ups m' l' own' ups' /\ space m' l' pt own' ups' r.2 /\
  if r.1 then loadable k x n off sz /\ image m' l' pt own' ups' r.2 /\ Z.of_nat (length l) <= Z.of_nat (length l') + 3 * (pgs r.2 - pgs sz) /\
    same_st (uview (mmem m') pt r.2, r.2) (load_image k x n off (uview (mmem (machine s)) pt sz, sz))
  else ~ loadable k x n off sz \/ Z.of_nat (length l) <= 3 * (pgs (load_end k x n off sz) - pgs sz).

Lemma load_post_step k x l pt own ups sz n off s blk m1 l1 own1 ups1 z r s' : 0 <= off -> off + PROGHDR_SZ <= i_size x ->
  (ph_type (header k x off) = ELF_PROG_LOAD -> segment_ok x (header k x off) sz) -> inside (machine s) l own ups m1 l1 own1 ups1 -> Z.of_nat (length l) <= Z.of_nat (length l1) + 3 * (pgs z - pgs sz) ->
  same_st (uview (mmem m1) pt z, z) (load_step k x off (uview (mmem (machine s)) pt sz, sz)) ->
  load_post k x l1 pt own1 ups1 z n (off + PROGHDR_SZ) (with_io blk m1 s) r s' -> load_post k x l pt own ups sz (S n) off s r s'.
Proof.
  intros Ho Hx Hok I1 Hc St (blk2 & m2 & l2 & own2 & ups2 & -> & Hb2 & I2 & Sp2 & H2). change (machine (with_io blk m1 s)) with m1 in *. rewrite with_io_twice.
  assert (z = load_size k x off sz) as Ez by (destruct St as [E _]; by rewrite load_step_size in E). exists blk2, m2, l2, own2, ups2. split_and!; [done|done|by eapply inside_trans|done|].
  cbn [loadable load_end]. rewrite <- Ez. destruct (r.1).
  - destruct H2 as (H3 & Im2 & H4 & H5). split; [by split_and!|]. split; [done|]. split; [lia|]. eapply same_st_trans; [exact H5|]. cbn [load_image]. by apply load_image_ext.
  - destruct H2 as [H2|H2]; [left; by intros (_ & _ & ?)|right]. lia.
Qed.

End load.

(** * Example

    A process with an empty address space loads the program of the example
    disk. *)

#[local] Instance exec_blocks : Blocks logst := log_blocks 1.
#[local] Instance exec_blocks_ok : BlocksOk logst 1 := log_blocks_ok 1 1 2.

Lemma demo_slot_elf i : 0 <= i -> slot demo_elf i = if i =? 0 then 35 else 0.
Proof.
  intros Hi. unfold slot. cbn [i_addrs demo_elf]. destruct (Z.eqb_spec i 0) as [->|Hne]; [done|]. replace (Z.to_nat i) with (S (Z.to_nat (i - 1))) by lia. cbn [lookup list_lookup].
  destruct (replicate 12 0 !! Z.to_nat (i - 1)) eqn:E; [|done]. by apply lookup_replicate in E as [-> _].
Qed.
Lemma demo_blk_elf k bn : 0 <= bn -> blk_of k demo_elf bn = if bn =? 0 then 35 else 0.
Proof.
  intros Hb. unfold blk_of, ind. rewrite !demo_slot_elf by done. destruct (Z.ltb_spec bn NDIRECT); [done|]. destruct (Z.eqb_spec bn 0) as [->|]; [by unfold NDIRECT in *; lia|done].
Qed.

Lemma demo_elf_open : exists l k, file_open 1 0 (exec_kern l) k demo_elf /\ demo_k k.
Proof.
  destruct demo_state as (l & k & [P1 P2 P3 P4 P5 P6 P7] & Hk & _). exists l, k. split; [|done]. split; [split; try done|..].
  - split; [done|..].
    + unfold ind. by rewrite demo_slot_elf.
    + intros bn Hb. unfold ind. rewrite demo_blk_elf, demo_slot_elf by (done || lia). destruct (bn =? 0); [|done]. intros _. split; [|done].
      assert (in_fs demo_sb 35) by (split; [done|reflexivity]). split; [done|]. split; [by rewrite demo_used|]. split; [by rewrite demo_bitmap|]. apply demo_loggable. lia.
    + intros bn bn' Hb Hb'. rewrite !demo_blk_elf by lia. destruct (Z.eqb_spec bn 0), (Z.eqb_spec bn' 0); congruence || lia.
  - cbn. rewrite MAXFILE_eq, BSIZE_eq. lia.
  - intros j Hj. cbn in Hj. rewrite demo_blk_elf; [|apply Z.div_pos; [lia|done]]. rewrite Z.div_small by (rewrite BSIZE_eq; lia). done.
Qed.

Lemma demo_image l pt : pt = demo_pt \/ pt = demo_pt2 -> image (machine (exec_kern l)) demo_free2 pt {[pt := []]} ∅ 0.
Proof. intros Hpt. split; [by apply demo_space|]. intros j Hj. change (pgs 0) with 0 in Hj. lia. Qed.

Lemma demo_elf_byte k o : demo_k k -> 0 <= o < 1024 -> fbyte k demo_elf o = byte_at demo_prog o.
Proof.
  intros Hk Ho. unfold fbyte. rewrite demo_blk_elf by (apply Z.div_pos; [lia|done]). rewrite BSIZE_eq, Z.div_small, Z.mod_small by lia. cbn [Z.eqb]. rewrite Hk. reflexivity.
Qed.
Lemma demo_header k : demo_k k -> header k demo_elf 0 = Proghdr 1 5 56 0 4 100.
Proof.
  intros Hk. unfold header. replace (fbytes k demo_elf 0 PROGHDR_SZ) with ((fun i => byte_at demo_prog (Z.of_nat i)) <$> seq 0 56); [vm_compute; reflexivity|].
  unfold fbytes. change (Z.to_nat PROGHDR_SZ) with 56%nat. apply list_fmap_ext. intros i j [-> Hj]%lookup_seq. by rewrite demo_elf_byte by (done || lia).
Qed.

